(* ===== verification/_CoqProject ===== *)
-Q . S2P
Prelude.v
HashStream.v
HashSpec.v
Hash.v
HashCorrect.v
HashApi.v
HashThread.v
HashThreadCorrect.v
Pe.v
PeCorrect.v
BadBlocks.v
BadBlocksCorrect.v
CregexParse.v
CregexCompile.v
CregexSpec.v
CregexVm.v
CregexParseCorrect.v
CregexPrint.v
CregexCompileCorrect.v
CregexPaths.v
CregexVmCorrect.v
CregexCorrect.v
Disk.v
DiskCorrect.v
MemDisk.v
DiskIo.v
BadBlocksDisk.v
BootData.v
BootRecords.v
BootRecordsCorrect.v
BootRecordsProps.v
MbrProps.v
Format.v
Fat32.v
Fat32Layout.v
Fat32Correct.v
FormatProps.v
ClearProps.v
Partition.v
PartitionProps.v
PartitionWrites.v
WriteDrive.v
WriteDriveCorrect.v
ImageCopy.v
SectorWrite.v
WriteDriveProps.v
Analyze.v
AnalyzeProps.v
Asn1.v
Asn1Props.v
Faults.v
PeParse.v
Resources.v
CText.v
Sbat.v
SbatProps.v
Revocation.v
RevocationProps.v
SvnProps.v
PolicyProps.v
Htab.v
HtabCorrect.v
StrArray.v
Labels.v
ConfigText.v
ConfigTextProps.v
ConfigReplace.v
Settings.v
SettingsProps.v
Update.v
UpdateProps.v
LocCommands.v
Localization.v
LocalizationCorrect.v
LocalizationCatalog.v
LocalizationProps.v
LocalizationApply.v
LocalizationText.v
LocalizationFile.v
