(* ===== verification/Prelude.v ===== *)
(** Prelude: the root of the verification of Rufus (here under the name
    SecureWipe), the program that makes bootable drives, src/src/.

    ** The parts of the program and their models

    - The digests (hash.c). HashStream.v: [HASH_CONTEXT] and the buffering of
      [*_write] and [*_final], once for the four algorithms. Hash.v: the
      compression functions of MD5, SHA-1, SHA-256 and SHA-512, [HashBuffer],
      [HashFile], [IsBufferInDB], [IsFileInDB]. HashSpec.v: the digests as the
      standards define them. HashCorrect.v: each compression function is that
      of its standard. HashApi.v: the class [StreamingHash], which is what
      hash.c promises to its clients, its four instances, and the entry points
      proved against it.
    - The parallel hashing of an image (hash.c). HashThread.v: [HashThread], its
      [IndividualHashThread]s and the asynchronous reads as a transition system
      over the shared buffers and events. HashThreadCorrect.v: an invariant of
      every interleaving.
    - The digest of an executable (hash.c). Pe.v: [efi_image_region_add],
      [efi_image_parse], [PE256Buffer]. PeCorrect.v: their correctness, a
      client of [StreamingHash].
    - The bad blocks checker (badblocks.c). BadBlocks.v: the list of bad blocks,
      the passes of [test_rw], [BadBlocks] over a device. BadBlocksCorrect.v: for
      any device, and for one with cells. BadBlocksDisk.v: the device is the sector
      I/O of Disk.v, on any machine that obeys [OsLaws].
    - The regular expression engine (cregex_parse.c, cregex_compile.c,
      cregex_vm.c). CregexParse.v, CregexCompile.v, CregexVm.v: the three stages.
      CregexSpec.v: the language of a pattern. CregexPaths.v: the paths of the
      non-deterministic machine. The [*Correct] files and CregexPrint.v: each
      stage against the next.
    - Sector I/O (stdio.c, ms-sys/file.c). Disk.v: [WriteFileWithRetry],
      [write_sectors], [read_sectors], [write_data], [read_data],
      [contains_data] in a state monad over a machine that obeys the laws
      [OsLaws]. DiskCorrect.v: their specifications as weakest preconditions.
      MemDisk.v: a machine in memory with scripted faults, which obeys the laws.
      DiskIo.v: the properties.
    - The boot records (ms-sys/br.c, fat12.c, fat16.c, fat32.c, ntfs.c,
      partition_info.c and the tables of ms-sys/inc). BootData.v: the tables.
      BootRecords.v: every function. BootRecordsCorrect.v: the pieces that a call
      stores or looks for. BootRecordsProps.v, MbrProps.v: the properties of the
      partition and of the master boot records.
    - The boot sectors of a format (format.c, stdfn.c). Format.v: [ClearMBRGPT],
      [WriteMBR], [WriteSBR], [WritePBR], [GetResource]. ClearProps.v,
      FormatProps.v.
    - The FAT32 format (format_fat32.c). Fat32.v: the layout and
      [FormatLargeFAT32]. Fat32Layout.v, Fat32Correct.v, FormatProps.v.
    - The partition table (drive.c). Partition.v: [ClearPartition],
      [CreatePartition]. PartitionProps.v: where the partitions go.
      PartitionWrites.v: what is written on them and told to the system.
    - The analysis of boot records (drive.c). Analyze.v: [AnalyzeMBR],
      [AnalyzePBR]. AnalyzeProps.v.
    - Writing a whole drive (format.c). WriteDrive.v: [WriteDrive] with the
      erasure and the fast erasure, the double-buffered copy of an image and
      [sector_write], to which a decompressor writes, over a drive that obeys
      the laws [DriveLaws]. WriteDriveCorrect.v, ImageCopy.v, SectorWrite.v: the
      three loops. WriteDriveProps.v: what a run leaves on the drive.
    - ASN.1 data (parser.c). Asn1.v: [get_data_from_asn1], [oid_from_str].
      Asn1Props.v.
    - The revocation of bootloaders (hash.c, pki.c, parser.c). Faults.v: a monad
      in which an access outside of a block is a fault. PeParse.v, Resources.v:
      the parsing of executables and of their resource trees. Sbat.v: the texts
      of the SBAT levels and of the revoked certificates. Revocation.v:
      [IsBootloaderRevoked] and its five tests. SbatProps.v,
      RevocationProps.v, SvnProps.v, PolicyProps.v.
    - Standard functions (stdfn.c). Htab.v: the hash table; HtabCorrect.v: its
      prime sizes, its probe sequences and the map that it is.
      StrArray.v: the string arrays and the lists that they are.
    - Labels (parser.c, format.c). Labels.v: [sanitize_label], [ToValidLabel],
      [replace_char], [remove_substr], and what they make.
    - Configuration files and settings (parser.c, settings.h, registry.h).
      CText.v: the strings of C. ConfigText.v: the lines of a configuration file
      and every function on them, over the text streams of the C run-time and
      the conversions of Windows. ConfigTextProps.v: what is set is read back,
      and by whom it is not. ConfigReplace.v: [replace_in_token_data] and the
      temporary file. Settings.v: the class [SettingsStore] of what both stores
      of settings promise, its two instances [ini_store] and [registry_store],
      and the [ReadSetting] and [WriteSetting] functions. SettingsProps.v.
    - Update files (parser.c, net.c). Update.v: [parse_update], the reading of a
      value in a buffer, the comparison of versions. UpdateProps.v.
    - Localization (localization.c, parser.c, localization_data.h).
      LocCommands.v: the table of the controls, the commands of a line.
      Localization.v: the messages, the dialogs and their hash table, the dispatch of commands, [get_loc_data_file], [get_supported_locales],
      [apply_localization]. LocalizationCorrect.v: the invariant of the dialogs
      and of their hash table. LocalizationCatalog.v: the catalog, the abstract
      specification of a section, and the simulation of the code. LocalizationProps.v:
      the states that the program reaches. LocalizationApply.v: the texts of the
      windows, and where the code does something else than its format says.
      LocalizationText.v, LocalizationFile.v: the file of a list of translations, and that it is read as what it says.

    How they interact: [CreatePartition] places and clears the partitions,
    [FormatLargeFAT32] formats one and calls [WritePBR], [WriteMBR] and
    [WriteSBR] write the other boot sectors; they all go through [write_data]
    or [write_sectors], hence [WriteFileWithRetry]. [IsBootloaderRevoked] calls
    the parsers of executables, the ASN.1 search on their signatures and the
    digests of Hash.v. The dialogs of the localization keep their commands
    unique with the hash table of Htab.v, the settings in a file are lines of
    ConfigText.v, which an update file is read with too. The theorems follow these calls: [format_boots] composes the FAT32 format with the boot record, and
    [write_mbr_analyzed] the writing of the master boot record with its analysis.

    ** What the theorems show

    - Equivalence with a reference: the compression functions, the streaming
      digests and the entry points compute the digests of the standards for
      every message and every way to cut it; the Authenticode digest of an
      image is the SHA-256 of the ranges that the format prescribes; what the
      search of a pattern finds is in the language of the pattern, and it misses nothing but
      matches that an optional anchor hides ([search_correct]); the secure version
      is that of the tree of resources; the hash table is a finite map
      ([htab_indices_identify]); a replacement in a configuration file is that of
      the first occurrences of its lines ([replace_in_token_data_lines]).
    - Settings and updates: a setting is read back from either store and the
      others stay ([settings_roundtrip]); the texts of an update file are
      sanitized whatever its bytes are ([update_data_is_sanitized]), and an update
      is offered exactly when it is newer ([update_file_offered]).
    - Localization: a control of a dialog has one command at most and no command
      is read after it is freed, and a new one takes the place of the old one ([localization_invariant]); a change of language
      refines the catalog of its section, for any file ([language_changed]); the
      texts set in a window are those of the catalog ([localization_applied]); a
      file of translations is listed and loaded as what it was written for
      ([translation_loaded]).
    - Invariants and interleavings: the region array and the bad block list stay
      sorted; no hash thread reads a buffer that is being filled, the digests
      are those of the image under every interleaving, and the threads end.
    - Contents of the disk: what a call stores can be read back and nothing else
      changes ([write_data_roundtrip], [mbr_roundtrip], [boot_record_roundtrip],
      [clear_mbr_gpt], [format_large_fat32_content], [format_boots],
      [create_partition_prepares]); and, whatever accesses fail, the damage stays
      where it may be ([write_data_confined], [create_partition_confined]).
      After [WriteDrive] every byte of an erased drive is erased, and an image is
      copied whole, when the call says so and the drive could be rewound ([zero_drive_erases],
      [fast_zeroing_erases], [image_copied], [compressed_image_written]).
    - The verdict on a bootloader is the first of the tests that revokes it
      ([bootloader_verdict]), and the lists that the tests use are those of their
      texts and policies ([sbat_entries_read], [thumbprints_read], [policy_denies]).
    - Bounds: the layout of a FAT32 volume and of a partition table fits the
      disk for every size ([fat32_layout_sound], [partition_layout_sound]), and
      is found when there is room ([partition_layout_exists]); the parser and
      the compiler of patterns stay in the blocks that they allocate.
    - Termination: the bad blocks passes, the machine of the patterns, the hash
      threads, the loops of [WriteDrive], the ASN.1 search, the probing of the
      hash table; the other loops are structural.
    - The bad blocks: a drive that fakes its capacity is reported
      ([badblocks_detects_fake]) and a disk that works is not ([healthy_disk_passes]).
    - Errors: the behaviour on faults and on malformed inputs, and the inputs on
      which the code does something else than it says.

    ** Conventions

    A C integer is the [Z] that its bits denote, and the operations that can wrap
    are followed by [u8] to [u64], [s32] or [s64] below. Memory is a list of
    bytes; a read or a write outside of it is [None] or an error of the
    component ([Bad] in the patterns, [None] of an [option bool] in Format.v).
    An assertion that fails ends the program ([AssertFailed], [PlanAsserts],
    [Aborted]): the build keeps assertions (two of them are left out, of the bad
    blocks comparison and of the reads of HashThread.v, and it is said there). System calls are methods of a class
    ([Os], [VolumeOs], [PartitionOs], the device of BadBlocks.v) with the laws
    that their documentation gives; a machine may be [reliable], and then
    accesses to whole sectors inside the disk succeed. The messages to the log
    and to the user are left out, but for the name that [AnalyzeMBR] logs.

    Fuel: the bad blocks passes and the machine of the patterns take fuel that
    is computed from their input and proved to be enough
    ([badblocks_report_ok], [search_correct]); the clearing loop of the FAT32
    format has [clear_fuel] turns, more than the bursts that it writes, and [bootmark_loop]
    as many as there are marks in a sector, plus one. The loops of [WriteDrive] take the
    number of their blocks; [load_section] takes a depth for the recursion on the
    bases of a locale, and its place in the file is enough when the bases come
    before ([translation_loaded]; without a bound the code does not end on a locale
    that is its own base); [locale_lines] takes a turn for each byte of the file; [asn1_fuel] is a turn for each byte of the data; a search of resources
    takes two for each byte of the file; the probing of the hash table as many as there are elements.

    ** What is not modelled

    The user interface, the downloads, the signature checks of Windows, the
    enumeration of drives, the extraction of images, the Windows set-up options
    and the vendored libraries (wimlib, libcdio, ext2fs, bled, syslinux, getopt):
    they are calls to systems or libraries whose code is not here or not the
    program's own. The SHA instructions of the processor: intrinsics with the
    contract of the portable functions. What the revocation checks ask of
    Windows (the registry, the files of the system, the cryptographic messages)
    are parameters of Revocation.v, and the decompressor is one of WriteDrive.v. The
    format thread itself, which calls these parts in turn between Windows
    services. The rolling buffers of [lmprintf], the status messages with
    their timers and the language identifiers of localization.c format with
    va_list or call Windows. *)

From stdpp Require Export prelude.
From Stdlib Require Export ZArith Lia.

#[global] Open Scope Z_scope.

(** ** Machine integers

    A C integer of width [w] is the [Z] that its bits denote: every operation
    of the sources that can wrap is followed by the matching truncation. *)

Definition uwrap (w z : Z) : Z := z mod 2 ^ w.
Definition swrap (w z : Z) : Z := (z + 2 ^ (w - 1)) mod 2 ^ w - 2 ^ (w - 1).

Abbreviation u8 := (uwrap 8).
Abbreviation u16 := (uwrap 16).
Abbreviation u32 := (uwrap 32).
Abbreviation u64 := (uwrap 64).
Abbreviation s32 := (swrap 32).
Abbreviation s64 := (swrap 64).

Declare Scope word_scope.
Delimit Scope word_scope with word.
Notation "a ^^ b" := (Z.lxor a b) (at level 50, left associativity) : word_scope.
Notation "a &&& b" := (Z.land a b) (at level 40, left associativity) : word_scope.
Notation "a ||| b" := (Z.lor a b) (at level 50, left associativity) : word_scope.
Notation "a << n" := (Z.shiftl a n) (at level 30, no associativity) : word_scope.
Notation "a >> n" := (Z.shiftr a n) (at level 30, no associativity) : word_scope.

(** ** Byte strings *)

(** [le_bytes n z] and [be_bytes n z] are the [n] low bytes of [z]. *)
Fixpoint le_bytes (n : nat) (z : Z) : list Z :=
  match n with
  | O => []
  | S n => u8 z :: le_bytes n (Z.shiftr z 8)
  end.
Definition be_bytes (n : nat) (z : Z) : list Z := reverse (le_bytes n z).

Fixpoint le_word (bs : list Z) : Z :=
  match bs with
  | [] => 0
  | b :: bs => b + 256 * le_word bs
  end.
Definition be_word (bs : list Z) : Z := le_word (reverse bs).

Definition is_byte (b : Z) : Prop := 0 <= b < 256.

(** ** Memory blocks: a block is the list of its bytes *)

Definition slice {A} (off n : nat) (l : list A) : list A := take n (drop off l).

Definition splice {A} (off : nat) (bs l : list A) : list A :=
  take off l ++ bs ++ drop (off + length bs) l.

(** [memcpy(dst + off, src, n)]; [None] when it would read or write outside
    one of the two blocks. *)
Definition memcpy (dst : list Z) (off : nat) (src : list Z) (n : nat) : option (list Z) :=
  if bool_decide (n <= length src)%nat && bool_decide (off + n <= length dst)%nat
  then Some (splice off (take n src) dst) else None.

(** [for (j = i + k - 1; j >= i; j--) a[j + 1] = a[j]]: makes room at index
    [i] of an array whose elements [i .. i + k - 1] move up. *)
Fixpoint shift_up {A} `{Inhabited A} (k i : nat) (a : list A) : list A :=
  match k with
  | O => a
  | S k => shift_up k i (<[(i + S k)%nat := a !!! (i + k)%nat]> a)
  end.

(** *** Lemmas on words *)

Lemma uwrap_range w z : 0 <= w -> 0 <= uwrap w z < 2 ^ w.
Proof. intros. unfold uwrap. apply Z.mod_pos_bound. lia. Qed.

Lemma uwrap_small w z : 0 <= z < 2 ^ w -> uwrap w z = z.
Proof. apply Z.mod_small. Qed.

Lemma uwrap_idemp w z : uwrap w (uwrap w z) = uwrap w z.
Proof. apply Zmod_mod. Qed.

Lemma uwrap_add_l w a b : uwrap w (uwrap w a + b) = uwrap w (a + b).
Proof. apply Zplus_mod_idemp_l. Qed.

Lemma uwrap_add_r w a b : uwrap w (a + uwrap w b) = uwrap w (a + b).
Proof. apply Zplus_mod_idemp_r. Qed.

Lemma uwrap_land w z : 0 <= w -> uwrap w z = Z.land z (Z.ones w).
Proof. intros. unfold uwrap. by rewrite Z.land_ones. Qed.

Lemma uwrap_testbit w z i :
  0 <= w -> 0 <= i -> Z.testbit (uwrap w z) i = (i <? w) && Z.testbit z i.
Proof.
  intros. unfold uwrap. destruct (Z.ltb_spec i w); simpl.
  - apply Z.mod_pow2_bits_low. lia.
  - apply Z.mod_pow2_bits_high. lia.
Qed.

(** A computation whose first step succeeds. *)
Lemma bind_Some_eq {A B} (f : A -> option B) mx x : mx = Some x -> mx ≫= f = f x.
Proof. by intros ->. Qed.

(** *** Lemmas on blocks *)

Lemma length_slice {A} off n (l : list A) :
  length (slice off n l) = Nat.min n (length l - off).
Proof. unfold slice. by rewrite length_take, length_drop. Qed.

Lemma length_splice {A} off (bs l : list A) :
  (off + length bs <= length l)%nat -> length (splice off bs l) = length l.
Proof. intros. unfold splice. rewrite !length_app, length_take, length_drop. lia. Qed.

Lemma take_splice {A} off (bs l : list A) :
  (off <= length l)%nat ->
  take (off + length bs) (splice off bs l) = take off l ++ bs.
Proof.
  intros. unfold splice. rewrite app_assoc. apply take_app_length'.
  rewrite length_app, length_take. lia.
Qed.

Lemma take_splice_le {A} n off (bs l : list A) :
  (n <= off)%nat -> (off <= length l)%nat -> take n (splice off bs l) = take n l.
Proof.
  intros. unfold splice. rewrite take_app_le by (rewrite length_take; lia).
  rewrite take_take. by replace (n `min` off)%nat with n by lia.
Qed.

Lemma slice_splice {A} off (bs l : list A) :
  (off <= length l)%nat -> slice off (length bs) (splice off bs l) = bs.
Proof.
  intros. unfold slice, splice.
  rewrite drop_app_length' by (rewrite length_take; lia). by apply take_app_length'.
Qed.

(** A part that a store does not touch. *)
Lemma slice_splice_other {A} off n o (bs l : list A) :
  (off + length bs <= length l)%nat -> (o + n <= off \/ off + length bs <= o)%nat ->
  slice o n (splice off bs l) = slice o n l.
Proof.
  intros Hl Ho. unfold slice, splice. apply list_eq. intros j.
  destruct (decide (j < n)%nat); [|by rewrite !lookup_take_ge by lia].
  rewrite !lookup_take_lt, !lookup_drop by lia.
  assert (Ht : length (take off l) = off) by (rewrite length_take; lia).
  destruct Ho as [Ho|Ho].
  - rewrite lookup_app_l by lia. by rewrite lookup_take_lt by lia.
  - rewrite lookup_app_r, Ht by lia. rewrite lookup_app_r by lia. rewrite lookup_drop. f_equal. lia.
Qed.

Lemma memcpy_Some dst off src n :
  (n <= length src)%nat -> (off + n <= length dst)%nat ->
  memcpy dst off src n = Some (splice off (take n src) dst).
Proof. intros. unfold memcpy. by rewrite !bool_decide_true by lia. Qed.

Lemma memcpy_None dst off src n :
  (length src < n)%nat -> memcpy dst off src n = None.
Proof. intros. unfold memcpy. by rewrite bool_decide_false by lia. Qed.

Lemma length_le_bytes n z : length (le_bytes n z) = n.
Proof. revert z. induction n as [|n IH]; intros; simpl; [done|by rewrite IH]. Qed.

Lemma length_be_bytes n z : length (be_bytes n z) = n.
Proof. unfold be_bytes. by rewrite length_reverse, length_le_bytes. Qed.

(** Reading back what was stored, little endian. *)
Lemma le_word_le_bytes n z : 0 <= z < 256 ^ Z.of_nat n -> le_word (le_bytes n z) = z.
Proof.
  revert z. induction n as [|n IH]; intros z Hz; [simpl in *; lia|].
  rewrite Nat2Z.inj_succ, Z.pow_succ_r in Hz by lia. cbn [le_bytes le_word].
  rewrite Z.shiftr_div_pow2 by lia. rewrite IH.
  - unfold uwrap. change (2 ^ 8) with 256.
    pose proof (Z.div_mod z 256 ltac:(lia)). lia.
  - change (2 ^ 8) with 256.
    split; [apply Z.div_pos; lia|apply Z.div_lt_upper_bound; lia].
Qed.

(** *** Lemmas on array insertion *)

Section shift_up.
Context {A : Type} `{Inhabited A}.
Implicit Types (a : list A) (r : A).

Lemma shift_up_lookup k i a j :
  (i + k < length a)%nat ->
  shift_up k i a !! j =
    if bool_decide (i < j /\ j <= i + k)%nat then a !! (j - 1)%nat else a !! j.
Proof.
  revert a. induction k as [|k IH]; intros a Hl; simpl.
  - by rewrite bool_decide_false by lia.
  - rewrite IH by (rewrite length_insert; lia).
    assert (Hlast : a !! (i + k)%nat = Some (a !!! (i + k)%nat))
      by (apply list_lookup_lookup_total_lt; lia).
    case_bool_decide as H1.
    + rewrite bool_decide_true by lia. by rewrite list_lookup_insert_ne by lia.
    + destruct (decide (j = i + S k)%nat) as [->|Hne].
      * rewrite bool_decide_true by lia. rewrite list_lookup_insert_eq by lia.
        by replace (i + S k - 1)%nat with (i + k)%nat by lia.
      * rewrite bool_decide_false by lia. by rewrite list_lookup_insert_ne by lia.
Qed.

Lemma length_shift_up k i a : length (shift_up k i a) = length a.
Proof. revert a. induction k as [|k IH]; intros a; simpl; [done|]. by rewrite IH, length_insert. Qed.

(** Moving the tail up and storing an element is a list insertion. *)
Lemma insert_shift_up k n a r :
  (k <= n)%nat -> (n < length a)%nat ->
  take (S n) (<[k := r]> (shift_up (n - k) k a)) = take k a ++ r :: drop k (take n a).
Proof.
  intros Hk Hn. apply list_eq. intros j.
  assert (Hlen : length (take k a) = k) by (rewrite length_take; lia).
  destruct (decide (j < k)%nat) as [Hj|Hj].
  - rewrite lookup_take_lt, lookup_app_l, lookup_take_lt by lia.
    rewrite list_lookup_insert_ne, shift_up_lookup by lia.
    by rewrite bool_decide_false by lia.
  - rewrite lookup_app_r by lia. rewrite Hlen.
    destruct (decide (j = k)) as [->|Hne].
    + rewrite Nat.sub_diag. simpl. rewrite lookup_take_lt by lia.
      apply list_lookup_insert_eq. rewrite length_shift_up. lia.
    + replace (j - k)%nat with (S (j - k - 1))%nat by lia. simpl. rewrite lookup_drop.
      replace (k + (j - k - 1))%nat with (j - 1)%nat by lia.
      destruct (decide (j <= n)%nat) as [Hjn|Hjn].
      * rewrite !lookup_take_lt by lia. rewrite list_lookup_insert_ne, shift_up_lookup by lia.
        by rewrite bool_decide_true by lia.
      * rewrite !lookup_ge_None_2; [done|rewrite length_take; lia|].
        rewrite length_take, length_insert, length_shift_up. lia.
Qed.
End shift_up.

Create Rewrite HintDb blk.
#[export] Hint Rewrite @length_app @length_take @length_drop @length_replicate
  @length_insert @length_le_bytes @length_be_bytes @length_slice @length_reverse : blk.

(** [blk] closes goals on block lengths. *)
Ltac blk := autorewrite with blk in *; simpl in *; lia.
