(* ===== verification/HashStream.v ===== *)
(** HashStream: the streaming layer of src/src/hash.c.

    [HASH_CONTEXT] and the block-buffering discipline shared by the
    [sha1_write]/[sha256_write]/[sha512_write]/[md5_write] and [*_final]
    functions, with the reference padding they are compared with. *)

From S2P Require Import Prelude.

(** rufus.h: [typedef struct { uint8_t buf[MAX_BLOCKSIZE]; uint64_t state[8];
    uint64_t bytecount; } HASH_CONTEXT]. *)
Record HASH_CONTEXT := mkCtx {
  ctx_buf : list Z;
  ctx_state : list Z;
  bytecount : Z
}.

Definition MAX_BLOCKSIZE : nat := 128.

(** [memset(ctx, 0, sizeof(ctx))] followed by the stores of [iv]. *)
Definition ctx_init (iv : list Z) : HASH_CONTEXT :=
  mkCtx (replicate MAX_BLOCKSIZE 0) (iv ++ replicate (8 - length iv) 0) 0.

Section block_hash.
(** [B] is the block size, [transform] the compression function of one
    algorithm, which reads [B] bytes. *)
Context (B : nat) (transform : list Z -> list Z -> list Z).

(** [while (len >= BLOCKSIZE) { transform(ctx, buf); buf += BLOCKSIZE;
    len -= BLOCKSIZE; }]. [src] is the readable memory at [buf]. *)
Fixpoint write_blocks (fuel : nat) (st src : list Z) (len : nat)
    : option (list Z * list Z * nat) :=
  if bool_decide (B <= len)%nat then
    match fuel with
    | O => None
    | S fuel =>
        if bool_decide (B <= length src)%nat
        then write_blocks fuel (transform st (take B src)) (drop B src) (len - B)
        else None
    end
  else Some (st, src, len).

(** The part of [*_write] after the leading chunk. *)
Definition write_rest (buf st : list Z) (count : Z) (src : list Z) (len : nat)
    : option HASH_CONTEXT :=
  '(st, src, len) ← write_blocks len st src len;
  buf ← memcpy buf 0 src len;
  Some (mkCtx buf st count).

(** [sha1_write], [sha256_write] and [sha512_write]. *)
Definition block_write (ctx : HASH_CONTEXT) (src : list Z) (len : nat)
    : option HASH_CONTEXT :=
  let num := Z.to_nat (Z.land (bytecount ctx) (Z.of_nat B - 1)) in
  let count := u64 (bytecount ctx + Z.of_nat len) in
  if bool_decide (num ≠ 0%nat) then
    let p := num in
    let num := (B - num)%nat in
    if bool_decide (len < num)%nat then
      buf ← memcpy (ctx_buf ctx) p src len;
      Some (mkCtx buf (ctx_state ctx) count)
    else
      buf ← memcpy (ctx_buf ctx) p src num;
      write_rest buf (transform (ctx_state ctx) (take B buf)) count
        (drop num src) (len - num)
  else write_rest (ctx_buf ctx) (ctx_state ctx) count src len.

(** [md5_write] differs in its short branch, which copies [num] bytes
    where the other three copy [len]. *)
Definition block_write_md5 (ctx : HASH_CONTEXT) (src : list Z) (len : nat)
    : option HASH_CONTEXT :=
  let num := Z.to_nat (Z.land (bytecount ctx) (Z.of_nat B - 1)) in
  let count := u64 (bytecount ctx + Z.of_nat len) in
  if bool_decide (num ≠ 0%nat) then
    let p := num in
    let num := (B - num)%nat in
    if bool_decide (len < num)%nat then
      buf ← memcpy (ctx_buf ctx) p src num;
      Some (mkCtx buf (ctx_state ctx) count)
    else
      buf ← memcpy (ctx_buf ctx) p src num;
      write_rest buf (transform (ctx_state ctx) (take B buf)) count
        (drop num src) (len - num)
  else write_rest (ctx_buf ctx) (ctx_state ctx) count src len.

(** [while (pos != stop) { pos &= BLOCKSIZE - 1; if (pos == 0)
    transform(ctx, ctx->buf); ctx->buf[pos++] = 0; }] of [sha*_final]. *)
Fixpoint pad_loop (fuel stop pos : nat) (st buf : list Z) : option (list Z * list Z) :=
  if bool_decide (pos = stop) then Some (st, buf)
  else match fuel with
    | O => None
    | S fuel =>
        let pos := Z.to_nat (Z.land (Z.of_nat pos) (Z.of_nat B - 1)) in
        let st := if bool_decide (pos = 0%nat) then transform st (take B buf) else st in
        pad_loop fuel stop (S pos) st (<[pos := 0]> buf)
    end.

(** The stores [ctx->buf[BLOCKSIZE - k] = (uint8_t)(bits >> ...)]: the
    bytes of the length field, written at the end of the block. *)
Definition store_length (field buf : list Z) : list Z :=
  splice (B - length field) field buf.

(** [sha1_final], [sha256_final] and [sha512_final] up to the last
    transform; [L] is the size of the length field. *)
Definition sha_final_block (L : nat) (field : list Z) (ctx : HASH_CONTEXT)
    : option (list Z * list Z) :=
  let pos := Z.to_nat (Z.land (bytecount ctx) (Z.of_nat B - 1)) in
  let buf := <[pos := 128]> (ctx_buf ctx) in
  '(st, buf) ← pad_loop (2 * B) (B - L) (S pos) (ctx_state ctx) buf;
  let buf := store_length field buf in
  Some (transform st (take B buf), buf).

(** [md5_final] up to the last transform. *)
Definition md5_final_block (field : list Z) (ctx : HASH_CONTEXT) : list Z * list Z :=
  let count := Z.to_nat (Z.land (bytecount ctx) (Z.of_nat B - 1)) in
  let buf := <[count := 128]> (ctx_buf ctx) in
  let p := S count in
  let count := (B - 1 - count)%nat in
  let '(st, buf) :=
    if bool_decide (count < 8)%nat then
      let buf := splice p (replicate count 0) buf in
      (transform (ctx_state ctx) (take B buf), splice 0 (replicate (B - 8) 0) buf)
    else (ctx_state ctx, splice p (replicate (count - 8) 0) buf) in
  let buf := store_length field buf in
  (transform st (take B buf), buf).

(** *** Reference: Merkle-Damgard iteration over a padded message *)

Fixpoint run_blocks (n : nat) (st m : list Z) : list Z :=
  match n with
  | O => st
  | S n => run_blocks n (transform st (take B m)) (drop B m)
  end.

Definition pad_zeros (L : nat) (m : list Z) : nat :=
  Z.to_nat ((- (Z.of_nat (length m) + 1 + Z.of_nat L)) mod Z.of_nat B).

Definition padded (L : nat) (field m : list Z) : list Z :=
  m ++ [128] ++ replicate (pad_zeros L m) 0 ++ field.

Definition iterate (st m : list Z) : list Z := run_blocks (length m / B) st m.

(** What a context holds after absorbing the message [m]. *)
Record absorbed (iv : list Z) (m : list Z) (ctx : HASH_CONTEXT) : Prop := {
  abs_state : ctx_state ctx = iterate iv m;
  abs_count : bytecount ctx = u64 (Z.of_nat (length m));
  abs_len : length (ctx_buf ctx) = MAX_BLOCKSIZE;
  abs_buf : take (length m mod B) (ctx_buf ctx) = drop (B * (length m / B)) m
}.
End block_hash.

(** ** Buffering lemmas *)

Section proofs.
Context (B : nat) (transform : list Z -> list Z -> list Z) (kB : Z).
Hypothesis HB : Z.of_nat B = 2 ^ kB.
Hypothesis HkB : 0 < kB <= 7.

Lemma block_pos : (2 <= B <= MAX_BLOCKSIZE)%nat.
Proof.
  assert (2 ^ 1 <= 2 ^ kB) by (apply Z.pow_le_mono_r; lia).
  assert (2 ^ kB <= 2 ^ 7) by (apply Z.pow_le_mono_r; lia).
  change (2 ^ 1) with 2 in *. change (2 ^ 7) with 128 in *.
  unfold MAX_BLOCKSIZE. lia.
Qed.

Lemma mask_block c : 0 <= c -> Z.land c (Z.of_nat B - 1) = c mod Z.of_nat B.
Proof.
  intros. rewrite HB, <- Z.land_ones by lia. f_equal.
  rewrite Z.ones_equiv. lia.
Qed.

Lemma mask_count n :
  Z.to_nat (Z.land (u64 (Z.of_nat n)) (Z.of_nat B - 1)) = (n mod B)%nat.
Proof.
  pose proof block_pos.
  rewrite mask_block by (pose proof (uwrap_range 64 (Z.of_nat n)); lia).
  unfold uwrap. rewrite HB.
  replace (2 ^ 64) with (2 ^ kB * 2 ^ (64 - kB))
    by (rewrite <- Z.pow_add_r by lia; f_equal; lia).
  rewrite Z.rem_mul_r by (try apply Z.pow_pos_nonneg; lia).
  rewrite (Z.mul_comm (2 ^ kB)), Z_mod_plus_full, Zmod_mod, <- HB.
  rewrite <- Nat2Z.inj_mod, Nat2Z.id. done.
Qed.

Lemma mask_pos pos :
  Z.to_nat (Z.land (Z.of_nat pos) (Z.of_nat B - 1)) = (pos mod B)%nat.
Proof.
  rewrite mask_block by lia. by rewrite <- Nat2Z.inj_mod, Nat2Z.id.
Qed.

(** *** [run_blocks] *)

Lemma run_blocks_add a b st m :
  run_blocks B transform (a + b) st m =
  run_blocks B transform b (run_blocks B transform a st m) (drop (a * B) m).
Proof.
  revert st m. induction a as [|a IH]; intros st m; simpl; [done|].
  rewrite IH, drop_drop. done.
Qed.

Lemma run_blocks_take n k st m :
  (n * B <= k)%nat ->
  run_blocks B transform n st (take k m) = run_blocks B transform n st m.
Proof.
  revert k st m. induction n as [|n IH]; intros k st m Hk; simpl in *; [done|].
  rewrite take_take, Nat.min_l by lia.
  rewrite <- (IH (k - B)%nat _ (drop B m)) by lia.
  rewrite take_drop_commute. by replace (B + (k - B))%nat with k by lia.
Qed.

Lemma run_blocks_app n st m m' :
  (n * B <= length m)%nat ->
  run_blocks B transform n st (m ++ m') = run_blocks B transform n st m.
Proof.
  intros H. rewrite <- (run_blocks_take n (length m)) by done.
  by rewrite take_app_length.
Qed.

(** *** The write loop *)

Lemma write_blocks_ok fuel st src len :
  (len <= fuel)%nat -> (len <= length src)%nat ->
  write_blocks B transform fuel st src len =
  Some (run_blocks B transform (len / B) st src, drop (B * (len / B)) src, (len mod B)%nat).
Proof.
  pose proof block_pos.
  revert st src len. induction fuel as [|fuel IH]; intros st src len Hf Hl; simpl.
  - rewrite bool_decide_false by lia. replace len with 0%nat by lia.
    rewrite Nat.Div0.div_0_l, Nat.Div0.mod_0_l, Nat.mul_0_r. by rewrite drop_0.
  - case_bool_decide as Hle.
    + rewrite bool_decide_true by lia.
      rewrite IH by (rewrite ?length_drop; lia).
      destruct (Nat.le_exists_sub B len Hle) as (q & -> & _).
      rewrite Nat.add_sub. replace (q + B)%nat with (q + 1 * B)%nat by lia.
      rewrite Nat.div_add, Nat.Div0.mod_add by lia.
      rewrite (Nat.add_comm _ 1). simpl. rewrite drop_drop.
      do 3 f_equal. f_equal. lia.
    + rewrite Nat.div_small, Nat.mod_small, Nat.mul_0_r by lia. done.
Qed.

Lemma write_rest_ok buf st count src len :
  length buf = MAX_BLOCKSIZE -> (len <= length src)%nat ->
  write_rest B transform buf st count src len =
  Some (mkCtx (splice 0 (take (len mod B) (drop (B * (len / B)) src)) buf)
          (run_blocks B transform (len / B) st src) count).
Proof.
  intros Hb Hl. pose proof block_pos. unfold write_rest.
  rewrite write_blocks_ok by lia. simpl.
  pose proof (Nat.Div0.div_mod len B). pose proof (Nat.mod_upper_bound len B).
  rewrite memcpy_Some; [done| |]; rewrite ?length_drop; lia.
Qed.

(** Absorbing [d] when the buffer is empty. *)
Lemma absorbed_rest iv m ctx0 buf st d :
  (length m mod B = 0)%nat -> st = iterate B transform iv m ->
  length buf = MAX_BLOCKSIZE -> bytecount ctx0 = u64 (Z.of_nat (length m)) ->
  absorbed B transform iv (m ++ d)
    (mkCtx (splice 0 (take (length d mod B) (drop (B * (length d / B)) d)) buf)
       (run_blocks B transform (length d / B) st d)
       (u64 (bytecount ctx0 + Z.of_nat (length d)))).
Proof.
  intros Hm -> Hb Hc. pose proof block_pos.
  pose proof (Nat.Div0.div_mod (length m) B) as Dm.
  pose proof (Nat.Div0.div_mod (length d) B) as Dd.
  pose proof (Nat.mod_upper_bound (length d) B).
  set (q := (length m / B)%nat) in *. rewrite Hm, Nat.add_0_r in Dm.
  assert (Hdiv : (length (m ++ d) / B = q + length d / B)%nat).
  { rewrite length_app, Dm, (Nat.add_comm (B * q)), (Nat.mul_comm B).
    rewrite Nat.div_add by lia. lia. }
  assert (Hmod : (length (m ++ d) mod B = length d mod B)%nat).
  { rewrite length_app, Dm, (Nat.add_comm (B * q)), (Nat.mul_comm B).
    by rewrite Nat.Div0.mod_add. }
  split; cbn [ctx_state bytecount ctx_buf].
  - unfold iterate at 2. rewrite Hdiv, run_blocks_add.
    rewrite run_blocks_app by lia.
    rewrite drop_app_length' by lia. done.
  - rewrite Hc, uwrap_add_l. f_equal. rewrite length_app. lia.
  - rewrite length_splice; [done|]. rewrite length_take, length_drop. lia.
  - rewrite Hdiv, Hmod. 
    replace (length d mod B)%nat with
      (0 + length (take (length d mod B) (drop (B * (length d / B)) d)))%nat at 1
      by (rewrite length_take, length_drop; lia).
    rewrite take_splice by lia. simpl.
    rewrite drop_app_ge by lia.
    replace (B * (q + length d / B) - length m)%nat with (B * (length d / B))%nat by lia.
    apply take_ge. rewrite length_drop. lia.
Qed.

(** [write_rest] after a whole number of blocks. *)
Lemma write_rest_absorbed iv m buf st c src len :
  (length m mod B = 0)%nat -> st = iterate B transform iv m ->
  length buf = MAX_BLOCKSIZE -> c = u64 (Z.of_nat (length m + len)) ->
  (len <= length src)%nat ->
  exists ctx, write_rest B transform buf st c src len = Some ctx /\
    absorbed B transform iv (m ++ take len src) ctx.
Proof.
  intros Hm Hst Hb -> Hl.
  pose proof block_pos. pose proof (Nat.mod_upper_bound len B).
  pose proof (Nat.Div0.div_mod len B) as Dl.
  rewrite write_rest_ok by done. eexists. split; [done|].
  assert (Hlen : length (take len src) = len) by (rewrite length_take; lia).
  pose proof (absorbed_rest iv m (mkCtx buf st (u64 (Z.of_nat (length m)))) buf st
                (take len src) Hm Hst Hb eq_refl) as Habs.
  rewrite Hlen in Habs. cbn [bytecount] in Habs.
  rewrite run_blocks_take in Habs by lia.
  rewrite uwrap_add_l, <- Nat2Z.inj_add in Habs.
  rewrite take_drop_commute, take_take in Habs.
  rewrite Nat.min_l in Habs by lia. by rewrite <- take_drop_commute in Habs.
Qed.

(** The leading chunk completes the pending block. *)
Lemma iterate_fill iv m buf x :
  (length m mod B ≠ 0)%nat ->
  length x = (B - length m mod B)%nat ->
  take B buf = drop (B * (length m / B)) m ++ x ->
  transform (iterate B transform iv m) (take B buf) = iterate B transform iv (m ++ x) /\
  (length (m ++ x) mod B = 0)%nat.
Proof.
  intros Hr Hx Hb. pose proof block_pos.
  pose proof (Nat.Div0.div_mod (length m) B) as Dm.
  pose proof (Nat.mod_upper_bound (length m) B).
  set (q := (length m / B)%nat) in *.
  assert (Hlen : length (m ++ x) = (S q * B)%nat) by (rewrite length_app; lia).
  split; [|rewrite Hlen; apply Nat.Div0.mod_mul].
  unfold iterate. rewrite Hlen, Nat.div_mul by lia. fold q.
  replace (S q) with (q + 1)%nat by lia. rewrite run_blocks_add. simpl.
  rewrite run_blocks_app by lia. f_equal.
  rewrite Hb, drop_app_le by lia. rewrite (Nat.mul_comm q B).
  rewrite take_ge; [done|]. rewrite length_app, length_drop. lia.
Qed.

Lemma length_memcpy dst off src n dst' :
  memcpy dst off src n = Some dst' -> length dst' = length dst.
Proof.
  unfold memcpy. case_bool_decide; [|done]. case_bool_decide; [|done].
  intros [= <-]. apply length_splice. rewrite length_take. lia.
Qed.

(** A short chunk only extends the pending block. *)
Lemma absorbed_short iv m ctx x buf :
  absorbed B transform iv m ctx ->
  (length m mod B + length x < B)%nat -> length buf = MAX_BLOCKSIZE ->
  take (length m mod B + length x) buf = take (length m mod B) (ctx_buf ctx) ++ x ->
  absorbed B transform iv (m ++ x)
    (mkCtx buf (ctx_state ctx) (u64 (bytecount ctx + Z.of_nat (length x)))).
Proof.
  intros [Hst Hc Hl Hb] Hx Hbuf Htake. pose proof block_pos.
  pose proof (Nat.Div0.div_mod (length m) B) as Dm.
  assert (Hq : (length (m ++ x) / B = length m / B)%nat).
  { symmetry. apply (Nat.div_unique _ B _ (length m mod B + length x)); [lia|].
    rewrite length_app. lia. }
  assert (Hr : (length (m ++ x) mod B = length m mod B + length x)%nat).
  { symmetry. apply (Nat.mod_unique _ B (length m / B)); [lia|].
    rewrite length_app. lia. }
  split; cbn [ctx_state bytecount ctx_buf].
  - rewrite Hst. unfold iterate. rewrite Hq, run_blocks_app; [done|]. lia.
  - rewrite Hc, uwrap_add_l, length_app. f_equal. lia.
  - done.
  - rewrite Hr, Hq, Htake, Hb, drop_app_le by lia. done.
Qed.

Lemma block_write_ok iv m ctx src len :
  absorbed B transform iv m ctx -> (len <= length src)%nat ->
  exists ctx', block_write B transform ctx src len = Some ctx' /\
    absorbed B transform iv (m ++ take len src) ctx'.
Proof.
  intros Habs Hl. pose proof Habs as [Hst Hc Hb Hbuf]. pose proof block_pos.
  pose proof (Nat.mod_upper_bound (length m) B).
  unfold block_write. rewrite Hc, mask_count.
  assert (Hcnt : u64 (u64 (Z.of_nat (length m)) + Z.of_nat len)
                 = u64 (Z.of_nat (length m + len)))
    by (rewrite uwrap_add_l; f_equal; lia).
  set (r := (length m mod B)%nat) in *.
  case_bool_decide as Hr; [case_bool_decide as Hs|].
  - rewrite memcpy_Some by lia. eexists. split; [done|].
    assert (Hlt : length (take len src) = len) by (rewrite length_take; lia).
    rewrite <- Hc. replace (Z.of_nat len) with (Z.of_nat (length (take len src))) by lia.
    apply absorbed_short; [done|rewrite Hlt; lia| |].
    + rewrite length_splice; lia.
    + apply take_splice. lia.
  - rewrite memcpy_Some by lia. cbn [mbind option_bind]. rewrite Hst.
    set (x := take (B - r) src).
    assert (Hx : length x = (B - r)%nat) by (unfold x; rewrite length_take; lia).
    destruct (iterate_fill iv m (splice r x (ctx_buf ctx)) x) as [Hfill Hmod]; [done..| |].
    { rewrite <- Hbuf. fold r.
      rewrite <- take_splice by lia. f_equal. lia. }
    rewrite Hfill.
    destruct (write_rest_absorbed iv (m ++ x) (splice r x (ctx_buf ctx)) _
                (u64 (u64 (Z.of_nat (length m)) + Z.of_nat len))
                (drop (B - r) src) (len - (B - r)) Hmod eq_refl) as (ctx' & -> & Hctx').
    + rewrite length_splice; lia.
    + rewrite Hcnt, length_app. do 2 f_equal. lia.
    + rewrite length_drop. lia.
    + exists ctx'. split; [done|]. rewrite <- app_assoc in Hctx'.
      unfold x in Hctx'. rewrite take_take_drop in Hctx'.
      by replace (B - r + (len - (B - r)))%nat with len in Hctx' by lia.
  - apply write_rest_absorbed; [lia|done|done|done|done].
Qed.

(** *** MD5: the short branch reads [BLOCKSIZE - num] bytes *)

Lemma block_write_md5_ok iv m ctx src len :
  absorbed B transform iv m ctx -> (len <= length src)%nat ->
  (length m mod B = 0 \/ B - length m mod B <= length src)%nat ->
  exists ctx', block_write_md5 B transform ctx src len = Some ctx' /\
    absorbed B transform iv (m ++ take len src) ctx'.
Proof.
  intros Habs Hl Hread. pose proof Habs as [Hst Hc Hb Hbuf]. pose proof block_pos.
  pose proof (Nat.mod_upper_bound (length m) B).
  destruct (block_write_ok iv m ctx src len Habs Hl) as (ctx' & Hw & Hctx').
  unfold block_write in Hw. unfold block_write_md5. rewrite Hc, mask_count in *.
  set (r := (length m mod B)%nat) in *.
  case_bool_decide as Hr; [case_bool_decide as Hs|]; [|by eauto..].
  rewrite memcpy_Some by lia. eexists. split; [done|]. rewrite <- Hc.
  assert (Hlt : length (take len src) = len) by (rewrite length_take; lia).
  replace (Z.of_nat len) with (Z.of_nat (length (take len src))) by lia.
  apply absorbed_short; [done|rewrite Hlt; lia| |].
  - rewrite length_splice; rewrite ?length_take; lia.
  - rewrite Hlt. fold r. unfold splice. rewrite take_app, take_take.
    rewrite !length_take, (Nat.min_l r (length _)) by lia.
    replace (r + len - r)%nat with len by lia. rewrite Nat.min_r by lia.
    rewrite take_app_le, take_take by (rewrite length_take; lia).
    by rewrite Nat.min_l by lia.
Qed.

Lemma block_write_md5_overread iv m ctx src len :
  absorbed B transform iv m ctx ->
  (length m mod B ≠ 0)%nat -> (len < B - length m mod B)%nat ->
  (length src < B - length m mod B)%nat ->
  block_write_md5 B transform ctx src len = None.
Proof.
  intros [Hst Hc Hb Hbuf] Hr Hl Hs. unfold block_write_md5.
  rewrite Hc, mask_count. rewrite !bool_decide_true by lia.
  by rewrite memcpy_None.
Qed.

(** *** The padding loop *)

Lemma splice_replicate_S n pos (buf : list Z) :
  (pos + S n <= length buf)%nat ->
  splice (S pos) (replicate n 0) (<[pos:=0]> buf) = splice pos (replicate (S n) 0) buf.
Proof.
  intros Hl. unfold splice. rewrite !length_replicate. simpl.
  rewrite (take_S_r _ pos 0) by (apply list_lookup_insert_eq; lia).
  rewrite take_insert_ge, drop_insert_lt by lia.
  rewrite <- app_assoc. simpl. do 3 f_equal. f_equal. lia.
Qed.

Lemma pad_loop_steps n f stop pos st buf :
  (1 <= pos)%nat -> (pos + n <= B)%nat -> (pos + n <= stop \/ stop < pos)%nat ->
  (B <= length buf)%nat ->
  pad_loop B transform (n + f) stop pos st buf =
  pad_loop B transform f stop (pos + n) st (splice pos (replicate n 0) buf).
Proof.
  revert pos buf. induction n as [|n IH]; intros pos buf H1 H2 H3 Hl.
  - simpl. rewrite Nat.add_0_r. f_equal. unfold splice. simpl.
    rewrite Nat.add_0_r. by rewrite take_drop.
  - simpl. rewrite bool_decide_false by lia. rewrite mask_pos.
    rewrite Nat.mod_small by lia. rewrite bool_decide_false by lia.
    rewrite IH by (rewrite ?length_insert; lia).
    rewrite splice_replicate_S by lia. f_equal. lia.
Qed.

(** From [pos], the loop zeroes up to [stop], going through one more
    transform when [pos] is past it. *)
Lemma pad_loop_direct stop pos st buf :
  (1 <= pos <= stop)%nat -> (stop <= B)%nat -> (B <= length buf)%nat ->
  pad_loop B transform (2 * B) stop pos st buf =
  Some (st, splice pos (replicate (stop - pos) 0) buf).
Proof.
  intros Hp Hs Hl.
  replace (2 * B)%nat with ((stop - pos) + (2 * B - (stop - pos)))%nat by lia.
  rewrite pad_loop_steps by lia.
  replace (pos + (stop - pos))%nat with stop by lia.
  destruct (2 * B - (stop - pos))%nat; simpl; by rewrite bool_decide_true.
Qed.

Lemma pad_loop_wrap stop pos st buf :
  (1 <= stop < pos)%nat -> (pos <= B)%nat -> (B <= length buf)%nat ->
  pad_loop B transform (2 * B) stop pos st buf =
  Some (transform st (take pos buf ++ replicate (B - pos) 0),
        replicate stop 0 ++ drop stop (splice pos (replicate (B - pos) 0) buf)).
Proof.
  intros Hp Hs Hl.
  replace (2 * B)%nat with ((B - pos) + S (B + pos - 1))%nat by lia.
  rewrite pad_loop_steps by lia. replace (pos + (B - pos))%nat with B by lia.
  set (buf' := splice pos (replicate (B - pos) 0) buf).
  assert (Hb' : take B buf' = take pos buf ++ replicate (B - pos) 0).
  { unfold buf'. rewrite <- take_splice by lia. f_equal. rewrite length_replicate. lia. }
  assert (Hl' : length buf' = length buf)
    by (unfold buf'; rewrite length_splice; rewrite ?length_replicate; lia).
  cbn [pad_loop]. rewrite bool_decide_false by lia.
  rewrite mask_pos, Nat.Div0.mod_same, bool_decide_true, Hb' by done.
  replace (B + pos - 1)%nat with ((stop - 1) + (B + pos - stop))%nat by lia.
  rewrite pad_loop_steps by (rewrite ?length_insert; lia).
  replace (1 + (stop - 1))%nat with stop by lia.
  assert (Hfin : splice 1 (replicate (stop - 1) 0) (<[0%nat:=0]> buf')
                 = replicate stop 0 ++ drop stop buf').
  { rewrite splice_replicate_S by lia. replace (S (stop - 1)) with stop by lia.
    unfold splice. by rewrite length_replicate. }
  rewrite Hfin. destruct (B + pos - stop)%nat; cbn [pad_loop];
    rewrite bool_decide_true by done; done.
Qed.

(** *** The reference padding, block by block *)

Section padding.
Context (iv m field : list Z) (L : nat).
Hypothesis HL : L = length field.
Hypothesis HLB : (L < B)%nat.
Let r := (length m mod B)%nat.
Let q := (length m / B)%nat.
Let tail := drop (B * q) m.

Lemma length_tail : length tail = r /\ length m = (B * q + r)%nat /\ (r < B)%nat.
Proof.
  pose proof block_pos. unfold tail, r, q. rewrite length_drop.
  pose proof (Nat.Div0.div_mod (length m) B).
  pose proof (Nat.mod_upper_bound (length m) B). lia.
Qed.

Lemma pad_zeros_one : (r + 1 + L <= B)%nat -> pad_zeros B L m = (B - L - 1 - r)%nat.
Proof.
  intros. pose proof length_tail as (_ & Hm & _). unfold pad_zeros.
  rewrite <- (Z.mod_unique _ (Z.of_nat B) (- (Z.of_nat q + 1)) (Z.of_nat (B - L - 1 - r)));
    lia.
Qed.

Lemma pad_zeros_two :
  (B < r + 1 + L)%nat -> pad_zeros B L m = (B - r - 1 + (B - L))%nat.
Proof.
  intros. pose proof length_tail as (_ & Hm & Hr). unfold pad_zeros.
  rewrite <- (Z.mod_unique _ (Z.of_nat B) (- (Z.of_nat q + 2))
             (Z.of_nat (B - r - 1 + (B - L)))); lia.
Qed.

Lemma iterate_tail x n :
  (length m + length x = (q + n) * B)%nat ->
  iterate B transform iv (m ++ x)
  = run_blocks B transform n (iterate B transform iv m) (tail ++ x).
Proof.
  intros Hx. pose proof length_tail as (Ht & Hm & Hr). pose proof block_pos.
  unfold iterate. rewrite length_app, Hx, Nat.div_mul by lia.
  rewrite run_blocks_add. fold q. rewrite run_blocks_app by lia.
  rewrite drop_app_le by lia. by rewrite (Nat.mul_comm q B).
Qed.

Lemma iterate_padded_one :
  (r + 1 + L <= B)%nat ->
  iterate B transform iv (padded B L field m)
  = transform (iterate B transform iv m)
      ((tail ++ [128]) ++ replicate (B - L - 1 - r) 0 ++ field).
Proof.
  intros H1. pose proof length_tail as (Ht & Hm & Hr). unfold padded.
  rewrite pad_zeros_one by done.
  rewrite iterate_tail with (n := 1%nat).
  - simpl. rewrite take_ge; [by rewrite <- app_assoc|].
    rewrite !length_app. simpl. rewrite length_app, length_replicate. lia.
  - rewrite !length_app, length_replicate. simpl. nia.
Qed.

Lemma iterate_padded_two :
  (B < r + 1 + L)%nat ->
  iterate B transform iv (padded B L field m)
  = transform (transform (iterate B transform iv m)
                 ((tail ++ [128]) ++ replicate (B - r - 1) 0))
      (replicate (B - L) 0 ++ field).
Proof.
  intros H1. pose proof length_tail as (Ht & Hm & Hr). unfold padded.
  rewrite pad_zeros_two by done.
  rewrite iterate_tail with (n := 2%nat).
  - rewrite replicate_add, <- !app_assoc.
    rewrite (app_assoc [128]), (app_assoc tail).
    set (b1 := tail ++ [128] ++ replicate (B - r - 1) 0).
    assert (Hb1 : length b1 = B)
      by (unfold b1; rewrite !length_app, length_replicate; simpl; lia).
    simpl run_blocks. rewrite take_app_length' by lia. rewrite drop_app_length' by lia.
    rewrite (take_ge (replicate (B - L) 0 ++ field)).
    + done.
    + rewrite length_app, length_replicate. lia.
  - rewrite !length_app, length_replicate. simpl. nia.
Qed.

Lemma take_store_length buf :
  (B <= length buf)%nat ->
  take B (store_length B field buf) = take (B - L) buf ++ field.
Proof.
  intros. unfold store_length. rewrite <- HL, <- take_splice by lia.
  f_equal. lia.
Qed.

Lemma length_store_length buf :
  (B <= length buf)%nat -> length (store_length B field buf) = length buf.
Proof. intros. unfold store_length. apply length_splice. lia. Qed.

Lemma take_mark buf :
  (B <= length buf)%nat -> take r buf = tail -> take (S r) (<[r:=128]> buf) = tail ++ [128].
Proof.
  intros Hl Htl. pose proof length_tail as (_ & _ & Hr).
  rewrite (take_S_r _ r 128) by (apply list_lookup_insert_eq; lia).
  by rewrite take_insert_ge, Htl by lia.
Qed.

Lemma take_splice_zeros pos n (buf : list Z) :
  (pos + n <= length buf)%nat ->
  take (pos + n) (splice pos (replicate n 0) buf) = take pos buf ++ replicate n 0.
Proof.
  intros. rewrite <- (length_replicate n 0) at 1. apply take_splice. lia.
Qed.

Lemma sha_final_block_ok ctx :
  absorbed B transform iv m ctx ->
  exists buf, sha_final_block B transform L field ctx
    = Some (iterate B transform iv (padded B L field m), buf) /\
    length buf = MAX_BLOCKSIZE.
Proof.
  intros [Hst Hc Hb Hbuf]. pose proof block_pos.
  pose proof length_tail as (Ht & Hm & Hr).
  unfold sha_final_block. rewrite Hc, mask_count, Hst. fold r in Hbuf |- *.
  fold q tail in Hbuf.
  pose proof (take_mark (ctx_buf ctx) ltac:(lia) Hbuf) as Hmark.
  set (buf := <[r:=128]> (ctx_buf ctx)) in *.
  assert (Hlb : length buf = MAX_BLOCKSIZE) by (unfold buf; by rewrite length_insert).
  destruct (decide (r + 1 + L <= B)%nat) as [Hone|Htwo].
  - rewrite pad_loop_direct by lia. cbn [mbind option_bind].
    set (buf' := splice _ _ _).
    assert (Hlb' : length buf' = MAX_BLOCKSIZE)
      by (unfold buf'; rewrite length_splice; rewrite ?length_replicate; lia).
    exists (store_length B field buf'). split; [|rewrite length_store_length; lia].
    rewrite take_store_length, iterate_padded_one by lia. do 3 f_equal.
    rewrite app_assoc. f_equal. rewrite <- Hmark. unfold buf'.
    rewrite <- take_splice_zeros by lia. do 2 f_equal; [lia|]. f_equal. lia.
  - rewrite pad_loop_wrap by lia. cbn [mbind option_bind].
    set (buf' := replicate _ _ ++ _).
    assert (Hlb' : length buf' = MAX_BLOCKSIZE).
    { unfold buf'. rewrite length_app, length_replicate, length_drop.
      rewrite length_splice; rewrite ?length_replicate; lia. }
    exists (store_length B field buf'). split; [|rewrite length_store_length; lia].
    rewrite take_store_length, iterate_padded_two by lia. do 3 f_equal.
    rewrite Hmark. replace (B - r - 1)%nat with (B - S r)%nat by lia. f_equal.
    f_equal. unfold buf'. apply take_app_length'. by rewrite length_replicate.
Qed.

Lemma md5_final_block_ok ctx :
  L = 8%nat -> absorbed B transform iv m ctx ->
  exists buf, md5_final_block B transform field ctx
    = (iterate B transform iv (padded B L field m), buf) /\
    length buf = MAX_BLOCKSIZE.
Proof.
  intros HL8 [Hst Hc Hb Hbuf]. pose proof block_pos.
  pose proof length_tail as (Ht & Hm & Hr).
  unfold md5_final_block. rewrite Hc, mask_count, Hst. fold r in Hbuf |- *.
  fold q tail in Hbuf.
  pose proof (take_mark (ctx_buf ctx) ltac:(lia) Hbuf) as Hmark.
  set (buf := <[r:=128]> (ctx_buf ctx)) in *.
  assert (Hlb : length buf = MAX_BLOCKSIZE) by (unfold buf; by rewrite length_insert).
  case_bool_decide as Hcase.
  - set (buf1 := splice (S r) (replicate (B - 1 - r) 0) buf).
    assert (Hlb1 : length buf1 = MAX_BLOCKSIZE)
      by (unfold buf1; rewrite length_splice; rewrite ?length_replicate; lia).
    set (buf2 := splice 0 _ buf1).
    assert (Hlb2 : length buf2 = MAX_BLOCKSIZE)
      by (unfold buf2; rewrite length_splice; rewrite ?length_replicate; lia).
    exists (store_length B field buf2). split; [|rewrite length_store_length; lia].
    rewrite take_store_length, iterate_padded_two by lia.
    f_equal. f_equal.
    + f_equal. rewrite <- Hmark. unfold buf1.
      rewrite <- take_splice_zeros by lia. do 2 f_equal; [lia|]. f_equal. lia.
    + f_equal. unfold buf2, splice. simpl.
      rewrite take_app_length'; [by rewrite HL8|rewrite length_replicate; lia].
  - set (buf1 := splice (S r) _ buf).
    assert (Hlb1 : length buf1 = MAX_BLOCKSIZE)
      by (unfold buf1; rewrite length_splice; rewrite ?length_replicate; lia).
    exists (store_length B field buf1). split; [|rewrite length_store_length; lia].
    rewrite take_store_length, iterate_padded_one by lia.
    f_equal. f_equal. rewrite app_assoc. f_equal. rewrite <- Hmark.
    rewrite <- take_splice_zeros by lia. do 2 f_equal; [lia|]. f_equal. lia.
Qed.
End padding.
End proofs.
