(* ===== verification/HashSpec.v ===== *)
(** HashSpec: reference definitions of the four digests of src/src/hash.c,
    written from FIPS 180-4 (SHA-1, SHA-256, SHA-512) and RFC 1321 (MD5) and
    independent of the program. The SHA constants are computed from square
    and cube roots of primes, as the standard defines them. *)

From S2P Require Import Prelude HashStream.
Local Open Scope word_scope.

(** ** Operations on [w]-bit words *)

Definition rotr (w n x : Z) : Z := (x >> n) ||| uwrap w (x << (w - n)).
Definition rotl (w n x : Z) : Z := uwrap w (x << n) ||| (x >> (w - n)).
Definition compl (w x : Z) : Z := Z.ldiff (Z.ones w) x.

Definition spec_Ch (w x y z : Z) : Z := (x &&& y) ^^ (compl w x &&& z).
Definition spec_Maj (x y z : Z) : Z := (x &&& y) ^^ (x &&& z) ^^ (y &&& z).
Definition spec_Parity (x y z : Z) : Z := x ^^ y ^^ z.

(** ** Constants: fractional parts of roots of primes *)

Definition primes80 : list Z :=
  [2; 3; 5; 7; 11; 13; 17; 19; 23; 29; 31; 37; 41; 43; 47; 53; 59; 61; 67; 71;
   73; 79; 83; 89; 97; 101; 103; 107; 109; 113; 127; 131; 137; 139; 149; 151;
   157; 163; 167; 173; 179; 181; 191; 193; 197; 199; 211; 223; 227; 229; 233;
   239; 241; 251; 257; 263; 269; 271; 277; 281; 283; 293; 307; 311; 313; 317;
   331; 337; 347; 349; 353; 359; 367; 373; 379; 383; 389; 397; 401; 409].

(** Largest [r] of at most [n] bits with [r^3 <= a]. *)
Fixpoint cbrt_bits (n : nat) (r a : Z) : Z :=
  match n with
  | O => r
  | S n =>
      let r' := r + 2 ^ Z.of_nat n in
      cbrt_bits n (if r' * r' * r' <=? a then r' else r) a
  end.

Definition frac_cbrt (w p : Z) : Z :=
  uwrap w (cbrt_bits (Z.to_nat w + 4) 0 (p * 2 ^ (3 * w))).
Definition frac_sqrt (w p : Z) : Z := uwrap w (Z.sqrt (p * 2 ^ (2 * w))).

Definition spec_K256 : list Z := frac_cbrt 32 <$> take 64 primes80.
Definition spec_K512 : list Z := frac_cbrt 64 <$> primes80.
Definition spec_H256 : list Z := frac_sqrt 32 <$> take 8 primes80.
Definition spec_H512 : list Z := frac_sqrt 64 <$> take 8 primes80.

(** ** Message schedules

    [schedule next n W] appends [n] words, each computed from the words
    before it. *)
Fixpoint schedule (next : list Z -> Z) (n : nat) (W : list Z) : list Z :=
  match n with
  | O => W
  | S n => schedule next n (W ++ [next W])
  end.

(** The word [k] places before the end of [W]. *)
Definition back (k : nat) (W : list Z) : Z := W !!! (length W - k)%nat.

(** The [n] words of [w] bits of a block. *)
Fixpoint words_of (word : list Z -> Z) (size n : nat) (bs : list Z) : list Z :=
  match n with
  | O => []
  | S n => word (take size bs) :: words_of word size n (drop size bs)
  end.

Definition be32 (bs : list Z) : Z := u32 (be_word bs).
Definition be64 (bs : list Z) : Z := u64 (be_word bs).
Definition le32 (bs : list Z) : Z := u32 (le_word bs).

(** ** SHA-1 (FIPS 180-4, 6.1) *)

Definition sha1_next (W : list Z) : Z :=
  rotl 32 1 (back 3 W ^^ back 8 W ^^ back 14 W ^^ back 16 W).
Definition sha1_W (blk : list Z) : list Z := schedule sha1_next 64 (words_of be32 4 16 blk).

Definition sha1_K (t : nat) : Z :=
  if bool_decide (t < 20)%nat then Z.sqrt (2 * 2 ^ 60)
  else if bool_decide (t < 40)%nat then Z.sqrt (3 * 2 ^ 60)
  else if bool_decide (t < 60)%nat then Z.sqrt (5 * 2 ^ 60)
  else Z.sqrt (10 * 2 ^ 60).

Definition sha1_f (t : nat) : Z -> Z -> Z -> Z :=
  if bool_decide (t < 20)%nat then spec_Ch 32
  else if bool_decide (t < 40)%nat then spec_Parity
  else if bool_decide (t < 60)%nat then spec_Maj
  else spec_Parity.

Abbreviation regs5 := (Z * Z * Z * Z * Z)%type.
Definition sha1_spec_round (W : list Z) (t : nat) (r : regs5) : regs5 :=
  let '(a, b, c, d, e) := r in
  let T := u32 (rotl 32 5 a + sha1_f t b c d + e + sha1_K t + W !!! t) in
  (T, a, rotl 32 30 b, c, d).

(** [rounds f t n r]: rounds [t], [t+1], ..., [t+n-1]. *)
Fixpoint rounds {A} (f : nat -> A -> A) (t n : nat) (r : A) : A :=
  match n with
  | O => r
  | S n => rounds f (S t) n (f t r)
  end.

Definition sha1_compress (H blk : list Z) : list Z :=
  match H with
  | [h0; h1; h2; h3; h4] =>
      let '(a, b, c, d, e) :=
        rounds (sha1_spec_round (sha1_W blk)) 0 80 (h0, h1, h2, h3, h4) in
      [u32 (a + h0); u32 (b + h1); u32 (c + h2); u32 (d + h3); u32 (e + h4)]
  | _ => H
  end.

Definition sha1_H0 : list Z := [0x67452301; 0xefcdab89; 0x98badcfe; 0x10325476; 0xc3d2e1f0].

(** ** SHA-256 and SHA-512 (FIPS 180-4, 6.2 and 6.4) *)

Definition Sigma256_0 x := rotr 32 2 x ^^ rotr 32 13 x ^^ rotr 32 22 x.
Definition Sigma256_1 x := rotr 32 6 x ^^ rotr 32 11 x ^^ rotr 32 25 x.
Definition sigma256_0 x := rotr 32 7 x ^^ rotr 32 18 x ^^ (x >> 3).
Definition sigma256_1 x := rotr 32 17 x ^^ rotr 32 19 x ^^ (x >> 10).
Definition Sigma512_0 x := rotr 64 28 x ^^ rotr 64 34 x ^^ rotr 64 39 x.
Definition Sigma512_1 x := rotr 64 14 x ^^ rotr 64 18 x ^^ rotr 64 41 x.
Definition sigma512_0 x := rotr 64 1 x ^^ rotr 64 8 x ^^ (x >> 7).
Definition sigma512_1 x := rotr 64 19 x ^^ rotr 64 61 x ^^ (x >> 6).

Definition sha256_next (W : list Z) : Z :=
  u32 (sigma256_1 (back 2 W) + back 7 W + sigma256_0 (back 15 W) + back 16 W).
Definition sha256_W (blk : list Z) : list Z :=
  schedule sha256_next 48 (words_of be32 4 16 blk).
Definition sha512_next (W : list Z) : Z :=
  u64 (sigma512_1 (back 2 W) + back 7 W + sigma512_0 (back 15 W) + back 16 W).
Definition sha512_W (blk : list Z) : list Z :=
  schedule sha512_next 64 (words_of be64 8 16 blk).

Abbreviation regs8 := (Z * Z * Z * Z * Z * Z * Z * Z)%type.

(** One round, for words of [w] bits. *)
Definition sha2_spec_round (w : Z) (S0 S1 : Z -> Z) (K W : list Z) (t : nat) (r : regs8) : regs8 :=
  let '(a, b, c, d, e, f, g, h) := r in
  let T1 := h + S1 e + spec_Ch w e f g + K !!! t + W !!! t in
  let T2 := S0 a + spec_Maj a b c in
  (uwrap w (T1 + T2), a, b, c, uwrap w (d + T1), e, f, g).

Definition sha2_compress (w : Z) (S0 S1 : Z -> Z) (K : list Z) (n : nat) (W H : list Z) : list Z :=
  match H with
  | [h0; h1; h2; h3; h4; h5; h6; h7] =>
      let '(a, b, c, d, e, f, g, h) :=
        rounds (sha2_spec_round w S0 S1 K W) 0 n (h0, h1, h2, h3, h4, h5, h6, h7) in
      [uwrap w (a + h0); uwrap w (b + h1); uwrap w (c + h2); uwrap w (d + h3);
       uwrap w (e + h4); uwrap w (f + h5); uwrap w (g + h6); uwrap w (h + h7)]
  | _ => H
  end.

Definition sha256_compress (H blk : list Z) : list Z :=
  sha2_compress 32 Sigma256_0 Sigma256_1 spec_K256 64 (sha256_W blk) H.
Definition sha512_compress (H blk : list Z) : list Z :=
  sha2_compress 64 Sigma512_0 Sigma512_1 spec_K512 80 (sha512_W blk) H.

(** ** MD5 (RFC 1321) *)

Definition md5_T : list Z :=
  [0xd76aa478; 0xe8c7b756; 0x242070db; 0xc1bdceee; 0xf57c0faf; 0x4787c62a; 0xa8304613; 0xfd469501;
   0x698098d8; 0x8b44f7af; 0xffff5bb1; 0x895cd7be; 0x6b901122; 0xfd987193; 0xa679438e; 0x49b40821;
   0xf61e2562; 0xc040b340; 0x265e5a51; 0xe9b6c7aa; 0xd62f105d; 0x02441453; 0xd8a1e681; 0xe7d3fbc8;
   0x21e1cde6; 0xc33707d6; 0xf4d50d87; 0x455a14ed; 0xa9e3e905; 0xfcefa3f8; 0x676f02d9; 0x8d2a4c8a;
   0xfffa3942; 0x8771f681; 0x6d9d6122; 0xfde5380c; 0xa4beea44; 0x4bdecfa9; 0xf6bb4b60; 0xbebfbc70;
   0x289b7ec6; 0xeaa127fa; 0xd4ef3085; 0x04881d05; 0xd9d4d039; 0xe6db99e5; 0x1fa27cf8; 0xc4ac5665;
   0xf4292244; 0x432aff97; 0xab9423a7; 0xfc93a039; 0x655b59c3; 0x8f0ccc92; 0xffeff47d; 0x85845dd1;
   0x6fa87e4f; 0xfe2ce6e0; 0xa3014314; 0x4e0811a1; 0xf7537e82; 0xbd3af235; 0x2ad7d2bb; 0xeb86d391].

Definition md5_F x y z := (x &&& y) ||| (compl 32 x &&& z).
Definition md5_G x y z := (x &&& z) ||| (y &&& compl 32 z).
Definition md5_H x y z := x ^^ y ^^ z.
Definition md5_I x y z := y ^^ (x ||| compl 32 z).

Definition md5_f (t : nat) : Z -> Z -> Z -> Z :=
  match (t / 16)%nat with O => md5_F | 1%nat => md5_G | 2%nat => md5_H | _ => md5_I end.
Definition md5_index (t : nat) : nat :=
  match (t / 16)%nat with
  | O => t
  | 1%nat => (5 * t + 1) mod 16
  | 2%nat => (3 * t + 5) mod 16
  | _ => (7 * t) mod 16
  end.
Definition md5_shift (t : nat) : Z :=
  match (t / 16)%nat with
  | O => [7; 12; 17; 22] !!! (t mod 4)%nat
  | 1%nat => [5; 9; 14; 20] !!! (t mod 4)%nat
  | 2%nat => [4; 11; 16; 23] !!! (t mod 4)%nat
  | _ => [6; 10; 15; 21] !!! (t mod 4)%nat
  end.

Abbreviation regs4 := (Z * Z * Z * Z)%type.
Definition md5_spec_round (X : list Z) (t : nat) (r : regs4) : regs4 :=
  let '(a, b, c, d) := r in
  let s := u32 (a + md5_f t b c d + X !!! md5_index t + md5_T !!! t) in
  (d, u32 (b + rotl 32 (md5_shift t) s), b, c).

Definition md5_compress (H blk : list Z) : list Z :=
  match H with
  | [h0; h1; h2; h3] =>
      let '(a, b, c, d) :=
        rounds (md5_spec_round (words_of le32 4 16 blk)) 0 64 (h0, h1, h2, h3) in
      [u32 (a + h0); u32 (b + h1); u32 (c + h2); u32 (d + h3)]
  | _ => H
  end.

(** ** The digests *)

Definition bitlen (m : list Z) : Z := 8 * Z.of_nat (length m).

Definition sha1_digest (m : list Z) : list Z :=
  concat (be_bytes 4 <$> iterate 64 sha1_compress sha1_H0
            (padded 64 8 (be_bytes 8 (bitlen m)) m)).
Definition sha256_digest (m : list Z) : list Z :=
  concat (be_bytes 4 <$> iterate 64 sha256_compress spec_H256
            (padded 64 8 (be_bytes 8 (bitlen m)) m)).
Definition sha512_digest (m : list Z) : list Z :=
  concat (be_bytes 8 <$> iterate 128 sha512_compress spec_H512
            (padded 128 16 (be_bytes 16 (bitlen m)) m)).
Definition md5_digest (m : list Z) : list Z :=
  concat (le_bytes 4 <$> iterate 64 md5_compress (take 4 sha1_H0)
            (padded 64 8 (le_bytes 8 (bitlen m)) m)).
