(* ===== verification/Hash.v ===== *)
(** Hash: the digest functions of src/src/hash.c, as the C code computes them.

    Contexts, initialisation, compression functions, streaming writes and
    finalisation of MD5, SHA-1, SHA-256 and SHA-512, and the entry points
    [HashBuffer], [HashFile] and [IsBufferInDB]. The build modelled is the
    portable one ([CPU_X86_SHA1_ACCELERATION] and [CPU_X86_SHA256_ACCELERATION]
    undefined, as on ARM, or the CPU flags unset); the SHA intrinsics are not
    modelled. *)

From S2P Require Import Prelude HashStream.
Local Open Scope word_scope.

(** ** Macros *)

Definition ROL32 (a b : Z) : Z := u32 (a << b) ||| (a >> (32 - b)).
Definition ROR32 (a b : Z) : Z := (a >> b) ||| u32 (a << (32 - b)).
Definition ROR64 (a b : Z) : Z := (a >> b) ||| u64 (a << (64 - b)).

Definition Ch (x y z : Z) : Z := z ^^ (x &&& (y ^^ z)).
Definition Ma (x y z : Z) : Z := (x &&& y) ||| (z &&& (x ||| y)).

(** [read_swap32], [read_swap64] and the little-endian load of [memcpy]. *)
Definition read_swap32 (p : list Z) : Z := u32 (be_word (take 4 p)).
Definition read_swap64 (p : list Z) : Z := u64 (be_word (take 8 p)).
Definition read_le32 (p : list Z) : Z := u32 (le_word (take 4 p)).

(** [x[k] = read(data + size * k)] for [k < n]. *)
Definition load_words (read : list Z -> Z) (size n : nat) (data : list Z) : list Z :=
  (fun k => read (drop (size * k) data)) <$> seq 0 n.

(** ** Constant tables *)

Definition K256 : list Z :=
  [0x428A2F98; 0x71374491; 0xB5C0FBCF; 0xE9B5DBA5; 0x3956C25B; 0x59F111F1; 0x923F82A4; 0xAB1C5ED5;
   0xD807AA98; 0x12835B01; 0x243185BE; 0x550C7DC3; 0x72BE5D74; 0x80DEB1FE; 0x9BDC06A7; 0xC19BF174;
   0xE49B69C1; 0xEFBE4786; 0x0FC19DC6; 0x240CA1CC; 0x2DE92C6F; 0x4A7484AA; 0x5CB0A9DC; 0x76F988DA;
   0x983E5152; 0xA831C66D; 0xB00327C8; 0xBF597FC7; 0xC6E00BF3; 0xD5A79147; 0x06CA6351; 0x14292967;
   0x27B70A85; 0x2E1B2138; 0x4D2C6DFC; 0x53380D13; 0x650A7354; 0x766A0ABB; 0x81C2C92E; 0x92722C85;
   0xA2BFE8A1; 0xA81A664B; 0xC24B8B70; 0xC76C51A3; 0xD192E819; 0xD6990624; 0xF40E3585; 0x106AA070;
   0x19A4C116; 0x1E376C08; 0x2748774C; 0x34B0BCB5; 0x391C0CB3; 0x4ED8AA4A; 0x5B9CCA4F; 0x682E6FF3;
   0x748F82EE; 0x78A5636F; 0x84C87814; 0x8CC70208; 0x90BEFFFA; 0xA4506CEB; 0xBEF9A3F7; 0xC67178F2].

Definition K512 : list Z :=
  [0x428A2F98D728AE22; 0x7137449123EF65CD; 0xB5C0FBCFEC4D3B2F; 0xE9B5DBA58189DBBC;
   0x3956C25BF348B538; 0x59F111F1B605D019; 0x923F82A4AF194F9B; 0xAB1C5ED5DA6D8118;
   0xD807AA98A3030242; 0x12835B0145706FBE; 0x243185BE4EE4B28C; 0x550C7DC3D5FFB4E2;
   0x72BE5D74F27B896F; 0x80DEB1FE3B1696B1; 0x9BDC06A725C71235; 0xC19BF174CF692694;
   0xE49B69C19EF14AD2; 0xEFBE4786384F25E3; 0x0FC19DC68B8CD5B5; 0x240CA1CC77AC9C65;
   0x2DE92C6F592B0275; 0x4A7484AA6EA6E483; 0x5CB0A9DCBD41FBD4; 0x76F988DA831153B5;
   0x983E5152EE66DFAB; 0xA831C66D2DB43210; 0xB00327C898FB213F; 0xBF597FC7BEEF0EE4;
   0xC6E00BF33DA88FC2; 0xD5A79147930AA725; 0x06CA6351E003826F; 0x142929670A0E6E70;
   0x27B70A8546D22FFC; 0x2E1B21385C26C926; 0x4D2C6DFC5AC42AED; 0x53380D139D95B3DF;
   0x650A73548BAF63DE; 0x766A0ABB3C77B2A8; 0x81C2C92E47EDAEE6; 0x92722C851482353B;
   0xA2BFE8A14CF10364; 0xA81A664BBC423001; 0xC24B8B70D0F89791; 0xC76C51A30654BE30;
   0xD192E819D6EF5218; 0xD69906245565A910; 0xF40E35855771202A; 0x106AA07032BBD1B8;
   0x19A4C116B8D2D0C8; 0x1E376C085141AB53; 0x2748774CDF8EEB99; 0x34B0BCB5E19B48A8;
   0x391C0CB3C5C95A63; 0x4ED8AA4AE3418ACB; 0x5B9CCA4F7763E373; 0x682E6FF3D6B2B8A3;
   0x748F82EE5DEFB2FC; 0x78A5636F43172F60; 0x84C87814A1F0AB72; 0x8CC702081A6439EC;
   0x90BEFFFA23631E28; 0xA4506CEBDE82BDE9; 0xBEF9A3F7B2C67915; 0xC67178F2E372532B;
   0xCA273ECEEA26619C; 0xD186B8C721C0C207; 0xEADA7DD6CDE0EB1E; 0xF57D4F7FEE6ED178;
   0x06F067AA72176FBA; 0x0A637DC5A2C898A6; 0x113F9804BEF90DAE; 0x1B710B35131C471B;
   0x28DB77F523047D84; 0x32CAAB7B40C72493; 0x3C9EBE0A15C9BEBC; 0x431D67C49C100D4C;
   0x4CC5D4BECB3E42B6; 0x597F299CFC657E2A; 0x5FCB6FAB3AD6FAEC; 0x6C44198C4A475817].

(** ** Initial values *)

Definition md5_init : HASH_CONTEXT :=
  ctx_init [0x67452301; 0xefcdab89; 0x98badcfe; 0x10325476].
Definition sha1_init : HASH_CONTEXT :=
  ctx_init [0x67452301; 0xefcdab89; 0x98badcfe; 0x10325476; 0xc3d2e1f0].
Definition sha256_init : HASH_CONTEXT :=
  ctx_init [0x6a09e667; 0xbb67ae85; 0x3c6ef372; 0xa54ff53a;
            0x510e527f; 0x9b05688c; 0x1f83d9ab; 0x5be0cd19].
Definition sha512_init : HASH_CONTEXT :=
  ctx_init [0x6a09e667f3bcc908; 0xbb67ae8584caa73b; 0x3c6ef372fe94f82b; 0xa54ff53a5f1d36f1;
            0x510e527fade682d1; 0x9b05688c2b3e6c1f; 0x1f83d9abfb41bd6b; 0x5be0cd19137e2179].

(** [ctx->state[i] += r] for the working registers [rs]: a 64-bit addition. *)
Definition add_state (st rs : list Z) : list Z :=
  zip_with (fun s r => u64 (s + r)) (take (length rs) st) rs ++ drop (length rs) st.

(** The registers, [a = (uint32_t)ctx->state[0]] and so on. *)
Definition reg (st : list Z) (i : nat) : Z := u32 (st !!! i).

(** ** SHA-1

    The unrolled [SHA1STEP] calls rename the registers from one step to the
    next; a step here returns them in the order the next call names them. *)

Definition sha1_F1 (x y z : Z) : Z := z ^^ (x &&& (y ^^ z)).
Definition sha1_F2 (x y z : Z) : Z := x ^^ y ^^ z.
Definition sha1_F3 (x y z : Z) : Z := (x &&& y) ||| (z &&& (x ||| y)).
Definition sha1_F4 (x y z : Z) : Z := x ^^ y ^^ z.

Definition SHA1STEP (f : Z -> Z -> Z -> Z) (k m : Z) (r : Z * Z * Z * Z * Z)
    : Z * Z * Z * Z * Z :=
  let '(a, b, c, d, e) := r in
  let e := u32 (e + (ROL32 a 5 + f b c d + k + m)) in
  let b := ROL32 b 30 in
  (e, a, b, c, d).

(** [M(i)]: the message word computed in place in the 16-word window. *)
Definition sha1_M (i : nat) (x : list Z) : list Z * Z :=
  let at_ k := x !!! (k mod 16)%nat in
  let tm := at_ i ^^ at_ (i - 14)%nat ^^ at_ (i - 8)%nat ^^ at_ (i - 3)%nat in
  let v := ROL32 tm 1 in
  (<[(i mod 16)%nat := v]> x, v).

(** Which [F]/[K] the [i]-th call passes, and whether it passes [x[i]] or [M(i)]. *)
Definition sha1_step (i : nat) (s : list Z * (Z * Z * Z * Z * Z))
    : list Z * (Z * Z * Z * Z * Z) :=
  let '(x, r) := s in
  let '(x, m) := if bool_decide (i < 16)%nat then (x, x !!! i) else sha1_M i x in
  let r :=
    if bool_decide (i < 20)%nat then SHA1STEP sha1_F1 0x5a827999 m r
    else if bool_decide (i < 40)%nat then SHA1STEP sha1_F2 0x6ed9eba1 m r
    else if bool_decide (i < 60)%nat then SHA1STEP sha1_F3 0x8f1bbcdc m r
    else SHA1STEP sha1_F4 0xca62c1d6 m r in
  (x, r).

(** [for (i = a; i < a + n; i++) s = f(i, s)]. *)
Fixpoint for_range {A} (f : nat -> A -> A) (a n : nat) (s : A) : A :=
  match n with
  | O => s
  | S n => for_range f (S a) n (f a s)
  end.

Definition sha1_transform_cc (st data : list Z) : list Z :=
  let x := load_words read_swap32 4 16 data in
  let '(_, (a, b, c, d, e)) :=
    for_range sha1_step 0 80 (x, (reg st 0, reg st 1, reg st 2, reg st 3, reg st 4)) in
  add_state st [a; b; c; d; e].

(** ** SHA-256 *)

Definition sha256_S0 (x : Z) : Z := ROR32 (ROR32 (ROR32 x 9 ^^ x) 11 ^^ x) 2.
Definition sha256_S1 (x : Z) : Z := ROR32 (ROR32 (ROR32 x 14 ^^ x) 5 ^^ x) 6.
Definition sha256_s0 (x : Z) : Z := ROR32 (ROR32 x 11 ^^ x) 7 ^^ (x >> 3).
Definition sha256_s1 (x : Z) : Z := ROR32 (ROR32 x 2 ^^ x) 17 ^^ (x >> 10).

(** [x[i] += s1(x[(i-2)&15]) + x[(i-7)&15] + s0(x[(i-15)&15])], [i < 16]. *)
Definition sha256_BLK2 (i : nat) (x : list Z) : list Z * Z :=
  let at_ k := x !!! ((16 + i - k) mod 16)%nat in
  let v := u32 (x !!! i + (sha256_s1 (at_ 2%nat) + at_ 7%nat + sha256_s0 (at_ 15%nat))) in
  (<[i := v]> x, v).

(** The macro [R(a, ..., h, i)] inside [for (j = 0; j < 64; j += 16)], with
    the registers in the order the next [R] names them. *)
Definition sha256_R (j i : nat) (s : list Z * (Z * Z * Z * Z * Z * Z * Z * Z))
    : list Z * (Z * Z * Z * Z * Z * Z * Z * Z) :=
  let '(x, (a, b, c, d, e, f, g, h)) := s in
  let '(x, w) := if bool_decide (j = 0%nat) then (x, x !!! i) else sha256_BLK2 i x in
  let h := u32 (h + (sha256_S1 e + Ch e f g + K256 !!! (i + j)%nat + w)) in
  let d := u32 (d + h) in
  let h := u32 (h + (sha256_S0 a + Ma a b c)) in
  (x, (h, a, b, c, d, e, f, g)).

Definition sha256_transform_cc (st data : list Z) : list Z :=
  let x := load_words read_swap32 4 16 data in
  let '(_, (a, b, c, d, e, f, g, h)) :=
    for_range (fun jj s => for_range (sha256_R (16 * jj)) 0 16 s) 0 4
      (x, (reg st 0, reg st 1, reg st 2, reg st 3, reg st 4, reg st 5, reg st 6, reg st 7)) in
  add_state st [a; b; c; d; e; f; g; h].

(** ** SHA-512 *)

Definition sha512_S0 (x : Z) : Z := ROR64 (ROR64 (ROR64 x 5 ^^ x) 6 ^^ x) 28.
Definition sha512_S1 (x : Z) : Z := ROR64 (ROR64 (ROR64 x 23 ^^ x) 4 ^^ x) 14.
Definition sha512_s0 (x : Z) : Z := ROR64 (ROR64 x 7 ^^ x) 1 ^^ (x >> 7).
Definition sha512_s1 (x : Z) : Z := ROR64 (ROR64 x 42 ^^ x) 19 ^^ (x >> 6).

(** One iteration of the loop that fills [W[80]]. *)
Definition sha512_fill (data : list Z) (i : nat) (W : list Z) : list Z :=
  let v :=
    if bool_decide (i < 16)%nat then read_swap64 (drop (8 * i) data)
    else u64 (sha512_s1 (W !!! (i - 2)%nat) + W !!! (i - 7)%nat
              + sha512_s0 (W !!! (i - 15)%nat) + W !!! (i - 16)%nat) in
  <[i := v]> W.

Definition sha512_R (W : list Z) (i : nat) (r : Z * Z * Z * Z * Z * Z * Z * Z)
    : Z * Z * Z * Z * Z * Z * Z * Z :=
  let '(a, b, c, d, e, f, g, h) := r in
  let h := u64 (h + (sha512_S1 e + Ch e f g + K512 !!! i + W !!! i)) in
  let d := u64 (d + h) in
  let h := u64 (h + (sha512_S0 a + Ma a b c)) in
  (h, a, b, c, d, e, f, g).

Definition sha512_transform (st data : list Z) : list Z :=
  let W := for_range (sha512_fill data) 0 80 (replicate 80 0) in
  let '(a, b, c, d, e, f, g, h) :=
    for_range (sha512_R W) 0 80
      (st !!! 0%nat, st !!! 1%nat, st !!! 2%nat, st !!! 3%nat,
       st !!! 4%nat, st !!! 5%nat, st !!! 6%nat, st !!! 7%nat) in
  add_state st [a; b; c; d; e; f; g; h].

(** ** MD5 *)

Definition md5_F1 (x y z : Z) : Z := z ^^ (x &&& (y ^^ z)).
Definition md5_F2 (x y z : Z) : Z := md5_F1 z x y.
Definition md5_F3 (x y z : Z) : Z := x ^^ y ^^ z.
Definition md5_F4 (x y z : Z) : Z := y ^^ (x ||| Z.ldiff 0xffffffff z).

(** [w += f(x, y, z) + data, w = w<<s | w>>(32-s), w += x], and the
    renaming of the next call. *)
Definition MD5STEP (f : Z -> Z -> Z -> Z) (data s : Z) (r : Z * Z * Z * Z) : Z * Z * Z * Z :=
  let '(w, x, y, z) := r in
  let w := u32 (w + (f x y z + data)) in
  let w := u32 (w << s) ||| (w >> (32 - s)) in
  let w := u32 (w + x) in
  (z, w, x, y).

(** The 64 calls: function, index in [x], constant, shift. *)
Definition md5_steps : list ((Z -> Z -> Z -> Z) * nat * Z * Z) :=
  [(md5_F1, 0%nat, 0xd76aa478, 7); (md5_F1, 1%nat, 0xe8c7b756, 12);
   (md5_F1, 2%nat, 0x242070db, 17); (md5_F1, 3%nat, 0xc1bdceee, 22);
   (md5_F1, 4%nat, 0xf57c0faf, 7); (md5_F1, 5%nat, 0x4787c62a, 12);
   (md5_F1, 6%nat, 0xa8304613, 17); (md5_F1, 7%nat, 0xfd469501, 22);
   (md5_F1, 8%nat, 0x698098d8, 7); (md5_F1, 9%nat, 0x8b44f7af, 12);
   (md5_F1, 10%nat, 0xffff5bb1, 17); (md5_F1, 11%nat, 0x895cd7be, 22);
   (md5_F1, 12%nat, 0x6b901122, 7); (md5_F1, 13%nat, 0xfd987193, 12);
   (md5_F1, 14%nat, 0xa679438e, 17); (md5_F1, 15%nat, 0x49b40821, 22);
   (md5_F2, 1%nat, 0xf61e2562, 5); (md5_F2, 6%nat, 0xc040b340, 9);
   (md5_F2, 11%nat, 0x265e5a51, 14); (md5_F2, 0%nat, 0xe9b6c7aa, 20);
   (md5_F2, 5%nat, 0xd62f105d, 5); (md5_F2, 10%nat, 0x02441453, 9);
   (md5_F2, 15%nat, 0xd8a1e681, 14); (md5_F2, 4%nat, 0xe7d3fbc8, 20);
   (md5_F2, 9%nat, 0x21e1cde6, 5); (md5_F2, 14%nat, 0xc33707d6, 9);
   (md5_F2, 3%nat, 0xf4d50d87, 14); (md5_F2, 8%nat, 0x455a14ed, 20);
   (md5_F2, 13%nat, 0xa9e3e905, 5); (md5_F2, 2%nat, 0xfcefa3f8, 9);
   (md5_F2, 7%nat, 0x676f02d9, 14); (md5_F2, 12%nat, 0x8d2a4c8a, 20);
   (md5_F3, 5%nat, 0xfffa3942, 4); (md5_F3, 8%nat, 0x8771f681, 11);
   (md5_F3, 11%nat, 0x6d9d6122, 16); (md5_F3, 14%nat, 0xfde5380c, 23);
   (md5_F3, 1%nat, 0xa4beea44, 4); (md5_F3, 4%nat, 0x4bdecfa9, 11);
   (md5_F3, 7%nat, 0xf6bb4b60, 16); (md5_F3, 10%nat, 0xbebfbc70, 23);
   (md5_F3, 13%nat, 0x289b7ec6, 4); (md5_F3, 0%nat, 0xeaa127fa, 11);
   (md5_F3, 3%nat, 0xd4ef3085, 16); (md5_F3, 6%nat, 0x04881d05, 23);
   (md5_F3, 9%nat, 0xd9d4d039, 4); (md5_F3, 12%nat, 0xe6db99e5, 11);
   (md5_F3, 15%nat, 0x1fa27cf8, 16); (md5_F3, 2%nat, 0xc4ac5665, 23);
   (md5_F4, 0%nat, 0xf4292244, 6); (md5_F4, 7%nat, 0x432aff97, 10);
   (md5_F4, 14%nat, 0xab9423a7, 15); (md5_F4, 5%nat, 0xfc93a039, 21);
   (md5_F4, 12%nat, 0x655b59c3, 6); (md5_F4, 3%nat, 0x8f0ccc92, 10);
   (md5_F4, 10%nat, 0xffeff47d, 15); (md5_F4, 1%nat, 0x85845dd1, 21);
   (md5_F4, 8%nat, 0x6fa87e4f, 6); (md5_F4, 15%nat, 0xfe2ce6e0, 10);
   (md5_F4, 6%nat, 0xa3014314, 15); (md5_F4, 13%nat, 0x4e0811a1, 21);
   (md5_F4, 4%nat, 0xf7537e82, 6); (md5_F4, 11%nat, 0xbd3af235, 10);
   (md5_F4, 2%nat, 0x2ad7d2bb, 15); (md5_F4, 9%nat, 0xeb86d391, 21)].

Definition md5_call (x : list Z) (r : Z * Z * Z * Z)
    (step : (Z -> Z -> Z -> Z) * nat * Z * Z) : Z * Z * Z * Z :=
  let '(f, i, k, s) := step in MD5STEP f (u32 (x !!! i + k)) s r.

Definition md5_transform (st data : list Z) : list Z :=
  let x := load_words read_le32 4 16 data in
  let '(a, b, c, d) :=
    fold_left (md5_call x) md5_steps (reg st 0, reg st 1, reg st 2, reg st 3) in
  add_state st [a; b; c; d].

(** ** Streaming writes and finalisation *)

Definition MD5_BLOCKSIZE : nat := 64.
Definition SHA1_BLOCKSIZE : nat := 64.
Definition SHA256_BLOCKSIZE : nat := 64.
Definition SHA512_BLOCKSIZE : nat := 128.

Definition sha1_write := block_write SHA1_BLOCKSIZE sha1_transform_cc.
Definition sha256_write := block_write SHA256_BLOCKSIZE sha256_transform_cc.
Definition sha512_write := block_write SHA512_BLOCKSIZE sha512_transform.
Definition md5_write := block_write_md5 MD5_BLOCKSIZE md5_transform.

(** The [X(i)] macro sequence: the state words stored one after the other
    from the start of [ctx->buf]. *)
Fixpoint store_words (enc : Z -> list Z) (p : nat) (ws buf : list Z) : list Z :=
  match ws with
  | [] => buf
  | w :: ws => store_words enc (p + length (enc w)) ws (splice p (enc w) buf)
  end.

Definition write_swap32 (v : Z) : list Z := be_bytes 4 (u32 v).
Definition write_swap64 (v : Z) : list Z := be_bytes 8 (u64 v).
Definition write_le32 (v : Z) : list Z := le_bytes 4 (u32 v).

Definition sha1_final (ctx : HASH_CONTEXT) : option HASH_CONTEXT :=
  let bitcount := u64 (bytecount ctx << 3) in
  '(st, buf) ← sha_final_block SHA1_BLOCKSIZE sha1_transform_cc 8 (be_bytes 8 bitcount) ctx;
  Some (mkCtx (store_words write_swap32 0 (take 5 st) buf) st (bytecount ctx)).

Definition sha256_final (ctx : HASH_CONTEXT) : option HASH_CONTEXT :=
  let bitcount := u64 (bytecount ctx << 3) in
  '(st, buf) ← sha_final_block SHA256_BLOCKSIZE sha256_transform_cc 8 (be_bytes 8 bitcount) ctx;
  Some (mkCtx (store_words write_swap32 0 (take 8 st) buf) st (bytecount ctx)).

Definition sha512_final (ctx : HASH_CONTEXT) : option HASH_CONTEXT :=
  let bitcount_lo := u64 (bytecount ctx << 3) in
  let bitcount_hi := bytecount ctx >> (64 - 3) in
  '(st, buf) ← sha_final_block SHA512_BLOCKSIZE sha512_transform 16
                 (be_bytes 8 bitcount_hi ++ be_bytes 8 bitcount_lo) ctx;
  Some (mkCtx (store_words write_swap64 0 (take 8 st) buf) st (bytecount ctx)).

Definition md5_final (ctx : HASH_CONTEXT) : option HASH_CONTEXT :=
  let bitcount := u64 (bytecount ctx << 3) in
  let '(st, buf) := md5_final_block MD5_BLOCKSIZE md5_transform (le_bytes 8 bitcount) ctx in
  Some (mkCtx (store_words write_le32 0 (take 4 st) buf) st (bytecount ctx)).

(** ** Dispatch tables and entry points *)

(** [enum hash_type]; a [type] outside [0..3] is [HASH_MAX] or more. *)
Inductive hash_type := HASH_MD5 | HASH_SHA1 | HASH_SHA256 | HASH_SHA512.

Definition hash_type_of (type : Z) : option hash_type :=
  match type with
  | 0 => Some HASH_MD5 | 1 => Some HASH_SHA1 | 2 => Some HASH_SHA256 | 3 => Some HASH_SHA512
  | _ => None
  end.

Definition hash_init (t : hash_type) : HASH_CONTEXT :=
  match t with
  | HASH_MD5 => md5_init | HASH_SHA1 => sha1_init
  | HASH_SHA256 => sha256_init | HASH_SHA512 => sha512_init
  end.
Definition hash_write (t : hash_type) : HASH_CONTEXT -> list Z -> nat -> option HASH_CONTEXT :=
  match t with
  | HASH_MD5 => md5_write | HASH_SHA1 => sha1_write
  | HASH_SHA256 => sha256_write | HASH_SHA512 => sha512_write
  end.
Definition hash_final (t : hash_type) : HASH_CONTEXT -> option HASH_CONTEXT :=
  match t with
  | HASH_MD5 => md5_final | HASH_SHA1 => sha1_final
  | HASH_SHA256 => sha256_final | HASH_SHA512 => sha512_final
  end.
Definition hash_count (t : hash_type) : nat :=
  match t with HASH_MD5 => 16 | HASH_SHA1 => 20 | HASH_SHA256 => 32 | HASH_SHA512 => 64 end.

(** Outcome of [HashBuffer] and [HashFile]: the returned [BOOL], with the bytes
    stored in [hash] when it is [TRUE] and the [ErrorStatus] that is set, if
    any, when it is [FALSE]. *)
Inductive file_error := ERROR_OPEN_FAILED | ERROR_READ_FAULT.
Inductive hash_result :=
  | HashFalse (err : option file_error)
  | HashTrue (hash : list Z).

(** [HashBuffer]; [None] is a memory access outside [buf]. [hash] is assumed
    not to be NULL. *)
Definition HashBuffer (type : Z) (buf : list Z) (len : nat) : option hash_result :=
  match hash_type_of type with
  | None => Some (HashFalse None)
  | Some t =>
      ctx ← hash_write t (hash_init t) buf len;
      ctx ← hash_final t ctx;
      Some (HashTrue (take (hash_count t) (ctx_buf ctx)))
  end.

(** What one iteration of the read loop of [HashFile] observes: the user
    cancelled, [ReadFile] failed, or it returned [data] ([rs = length data]
    bytes, at most [sizeof(buf)]). *)
Inductive read_event := RE_Cancel | RE_Fault | RE_Data (data : list Z).

Definition FILE_BUF : nat := 4096.

(** The loop over [buf[4096]]; [stale] is what [buf] holds before the read.
    [None] is an access out of bounds, or a trace that ends before the loop
    does. *)
Fixpoint hash_file_loop (t : hash_type) (stale : list Z) (trace : list read_event)
    (ctx : HASH_CONTEXT) : option (hash_result + HASH_CONTEXT) :=
  match trace with
  | [] => None
  | RE_Cancel :: _ => Some (inl (HashFalse None))
  | RE_Fault :: _ => Some (inl (HashFalse (Some ERROR_READ_FAULT)))
  | RE_Data data :: trace =>
      if bool_decide (length data = 0%nat) then Some (inr ctx)
      else
        buf ← memcpy stale 0 data (length data);
        ctx ← hash_write t ctx buf (length data);
        hash_file_loop t buf trace ctx
  end.

(** [opened] is the outcome of [CreateFileU]; [path] and [hash] are assumed
    not to be NULL. *)
Definition HashFile (type : Z) (opened : bool) (trace : list read_event) : option hash_result :=
  match hash_type_of type with
  | None => Some (HashFalse None)
  | Some t =>
      if opened then
        r ← hash_file_loop t (replicate FILE_BUF 0) trace (hash_init t);
        match r with
        | inl r => Some r
        | inr ctx =>
            ctx ← hash_final t ctx;
            Some (HashTrue (take (hash_count t) (ctx_buf ctx)))
        end
      else Some (HashFalse (Some ERROR_OPEN_FAILED))
  end.

(** The loop of [IsBufferInDB] and [IsFileInDB] over [sha256db], the byte
    array of db.h, in steps of [SHA256_HASHSIZE]. *)
Fixpoint in_db (fuel : nat) (hash db : list Z) : bool :=
  match fuel with
  | O => false
  | S fuel =>
      match db with
      | [] => false
      | _ => if bool_decide (hash = take 32 db) then true else in_db fuel hash (drop 32 db)
      end
  end.

Definition IsBufferInDB (sha256db : list Z) (buf : list Z) (len : nat) : option bool :=
  r ← HashBuffer 2 buf len;
  match r with
  | HashTrue hash => Some (in_db (length sha256db) hash sha256db)
  | HashFalse _ => Some false
  end.

Definition IsFileInDB (sha256db : list Z) (opened : bool) (trace : list read_event) : option bool :=
  r ← HashFile 2 opened trace;
  match r with
  | HashTrue hash => Some (in_db (length sha256db) hash sha256db)
  | HashFalse _ => Some false
  end.
