(* ===== verification/HashCorrect.v ===== *)
(** HashCorrect: the digest functions of Hash.v compute the digests of
    HashSpec.v, for any way of cutting the message into writes. *)

From S2P Require Import Prelude HashStream HashSpec Hash.
Local Open Scope word_scope.

(** ** Bit-level equalities between the macros and the standard *)

Definition in_word (w x : Z) : Prop := 0 <= x < 2 ^ w.

Lemma in_word_uwrap w x : 0 <= w -> in_word w (uwrap w x).
Proof. apply uwrap_range. Qed.

Lemma testbit_high w x i : in_word w x -> w <= i -> Z.testbit x i = false.
Proof.
  intros [H0 H1] Hi. destruct (Z.eq_dec x 0) as [->|]; [apply Z.testbit_0_l|].
  apply Z.bits_above_log2; [lia|]. apply Z.log2_lt_pow2; [lia|].
  assert (2 ^ w <= 2 ^ i) by (apply Z.pow_le_mono_r; lia). lia.
Qed.

Lemma in_word_bits w x : 0 <= w -> 0 <= x ->
  (forall i, w <= i -> Z.testbit x i = false) -> in_word w x.
Proof.
  intros Hw Hx Hb. split; [done|].
  destruct (Z.eq_dec x 0) as [->|]; [apply Z.pow_pos_nonneg; lia|].
  apply Z.log2_lt_pow2; [lia|]. destruct (Z_lt_le_dec (Z.log2 x) w) as [|Hw']; [done|].
  pose proof (Hb _ Hw'). pose proof (Z.bit_log2 x ltac:(lia)). congruence.
Qed.

Lemma in_word_lxor w x y : 0 <= w -> in_word w x -> in_word w y -> in_word w (x ^^ y).
Proof.
  intros Hw Hx Hy. apply in_word_bits; [done| |].
  - apply Z.lxor_nonneg. split; intros; [apply Hy|apply Hx].
  - intros i Hi. rewrite Z.lxor_spec, !(testbit_high w); done.
Qed.

Lemma rotr_testbit w n x i :
  in_word w x -> 0 < n < w -> 0 <= i ->
  Z.testbit (rotr w n x) i = (i <? w) && Z.testbit x ((i + n) mod w).
Proof.
  intros Hx Hn Hi. unfold rotr.
  rewrite Z.lor_spec, Z.shiftr_spec, uwrap_testbit, Z.shiftl_spec by lia.
  destruct (Z.ltb_spec i w); simpl.
  - destruct (Z_lt_le_dec (i + n) w).
    + rewrite (Z.mod_small (i + n)) by lia.
      rewrite (Z.testbit_neg_r x (i - (w - n))) by lia. apply orb_false_r.
    + rewrite (testbit_high w x (i + n)) by (done || lia). simpl. f_equal.
      rewrite <- (Z.mod_unique (i + n) w 1 (i + n - w)); lia.
  - rewrite (testbit_high w x (i + n)) by (done || lia). done.
Qed.

Lemma in_word_rotr w n x : in_word w x -> 0 < n < w -> in_word w (rotr w n x).
Proof.
  intros Hx Hn. apply in_word_bits; [lia| |].
  - unfold rotr. apply Z.lor_nonneg. split; [apply Z.shiftr_nonneg; apply Hx|].
    pose proof (uwrap_range w (x << (w - n))). lia.
  - intros i Hi. rewrite rotr_testbit by (done || lia).
    by destruct (Z.ltb_spec i w); [lia|].
Qed.

Lemma rotr_lxor w n x y :
  in_word w x -> in_word w y -> 0 < n < w ->
  rotr w n (x ^^ y) = rotr w n x ^^ rotr w n y.
Proof.
  intros Hx Hy Hn. apply Z.bits_inj'. intros i Hi.
  rewrite Z.lxor_spec, !rotr_testbit by (try apply in_word_lxor; done || lia).
  rewrite Z.lxor_spec. by destruct (i <? w).
Qed.

Lemma rotr_rotr w n m x :
  in_word w x -> 0 < n -> 0 < m -> n + m < w ->
  rotr w n (rotr w m x) = rotr w (n + m) x.
Proof.
  intros Hx Hn Hm Hw. apply Z.bits_inj'. intros i Hi.
  pose proof (Z.mod_pos_bound (i + n) w ltac:(lia)).
  rewrite !rotr_testbit by (try apply in_word_rotr; done || lia).
  destruct (i <? w); [simpl|done].
  destruct (Z.ltb_spec ((i + n) mod w) w); [|lia]. simpl. f_equal.
  rewrite Zplus_mod_idemp_l. f_equal. lia.
Qed.

(** Three nested rotations, as the [S0]/[S1] macros write them. *)
Lemma rotr_nest3 w p q r x :
  in_word w x -> 0 < p -> 0 < q -> 0 < r -> p + q + r < w ->
  rotr w r (rotr w q (rotr w p x ^^ x) ^^ x)
  = rotr w r x ^^ rotr w (r + q) x ^^ rotr w (r + q + p) x.
Proof.
  intros Hx Hp Hq Hr Hw.
  assert (in_word w (rotr w p x)) by (apply in_word_rotr; done || lia).
  assert (in_word w (rotr w q x)) by (apply in_word_rotr; done || lia).
  assert (in_word w (rotr w q (rotr w p x))) by (apply in_word_rotr; done || lia).
  rewrite (rotr_lxor w q) by (done || lia).
  rewrite !(rotr_lxor w r) by (try apply in_word_lxor; done || lia).
  rewrite !rotr_rotr by (try apply in_word_rotr; done || lia).
  by rewrite Z.lxor_comm, (Z.lxor_comm (rotr w (r + q + p) x)), Z.lxor_assoc.
Qed.

Lemma rotr_nest2 w p q x :
  in_word w x -> 0 < p -> 0 < q -> p + q < w ->
  rotr w q (rotr w p x ^^ x) = rotr w q x ^^ rotr w (q + p) x.
Proof.
  intros Hx Hp Hq Hw.
  rewrite rotr_lxor by (try apply in_word_rotr; done || lia).
  rewrite rotr_rotr by (done || lia). apply Z.lxor_comm.
Qed.

Lemma compl_testbit w x i : 0 <= w -> 0 <= i ->
  Z.testbit (compl w x) i = (i <? w) && negb (Z.testbit x i).
Proof.
  intros. unfold compl. rewrite Z.ldiff_spec. f_equal.
  destruct (Z.ltb_spec i w); [apply Z.ones_spec_low|apply Z.ones_spec_high]; lia.
Qed.

Lemma Ch_spec w x y z : 0 <= w -> in_word w y -> in_word w z -> Ch x y z = spec_Ch w x y z.
Proof.
  intros Hw Hy Hz. apply Z.bits_inj'. intros i Hi. unfold Ch, spec_Ch.
  rewrite !Z.lxor_spec, !Z.land_spec, Z.lxor_spec, compl_testbit by done.
  destruct (Z.ltb_spec i w); simpl.
  - by destruct (Z.testbit x i), (Z.testbit y i), (Z.testbit z i).
  - rewrite (testbit_high w z), (testbit_high w y) by done.
    by destruct (Z.testbit x i).
Qed.

Lemma Ma_spec x y z : Ma x y z = spec_Maj x y z.
Proof.
  apply Z.bits_inj'. intros i Hi. unfold Ma, spec_Maj.
  rewrite !Z.lxor_spec, !Z.lor_spec, !Z.land_spec, Z.lor_spec.
  by destruct (Z.testbit x i), (Z.testbit y i), (Z.testbit z i).
Qed.

(** Equal up to associativity and commutativity of exclusive or. *)
Ltac lxor_ac :=
  apply Z.bits_inj'; intros ? ?; rewrite !Z.lxor_spec;
  repeat match goal with |- context [Z.testbit ?a ?i] => destruct (Z.testbit a i) end;
  reflexivity.

(** ** Message schedules *)

Lemma length_schedule next n W : length (schedule next n W) = (length W + n)%nat.
Proof.
  revert W. induction n as [|n IH]; intros W; simpl; [lia|].
  rewrite IH, length_app. simpl. lia.
Qed.

Lemma take_schedule next n W k :
  (k <= length W)%nat -> take k (schedule next n W) = take k W.
Proof.
  revert W. induction n as [|n IH]; intros W Hk; simpl; [done|].
  rewrite IH by (rewrite length_app; simpl; lia). by rewrite take_app_le.
Qed.

Lemma schedule_lookup next n W t :
  (length W <= t < length W + n)%nat ->
  schedule next n W !!! t = next (take t (schedule next n W)).
Proof.
  revert W. induction n as [|n IH]; intros W Ht; simpl; [lia|].
  destruct (decide (t = length W)) as [->|].
  - rewrite take_schedule, take_app_length by (rewrite length_app; simpl; lia).
    rewrite <- (lookup_total_take_lt _ (S (length W))) by lia.
    rewrite take_schedule by (rewrite length_app; simpl; lia).
    rewrite take_ge by (rewrite length_app; simpl; lia).
    rewrite lookup_total_app_r by lia. by rewrite Nat.sub_diag.
  - apply IH. rewrite length_app. simpl. lia.
Qed.

Lemma schedule_at next n W0 W t :
  W = schedule next n W0 -> (length W0 <= t < length W0 + n)%nat ->
  W !!! t = next (take t W).
Proof. intros -> Ht. by apply schedule_lookup. Qed.

Lemma back_take k t (W : list Z) :
  (1 <= k <= t)%nat -> (t <= length W)%nat -> back k (take t W) = W !!! (t - k)%nat.
Proof.
  intros. unfold back. rewrite length_take, Nat.min_l by lia.
  apply lookup_total_take_lt. lia.
Qed.

Lemma length_words_of word size n bs : length (words_of word size n bs) = n.
Proof. revert bs. induction n as [|n IH]; intros; simpl; [done|by rewrite IH]. Qed.

Lemma load_words_spec (word : list Z -> Z) size n data :
  load_words (fun p => word (take size p)) size n data = words_of word size n data.
Proof.
  unfold load_words. revert data. induction n as [|n IH]; intros data; simpl; [done|].
  rewrite Nat.mul_0_r, drop_0. f_equal. rewrite <- IH, <- fmap_S_seq, <- list_fmap_compose.
  apply list_fmap_ext. intros i k _. simpl. rewrite drop_drop. do 3 f_equal. lia.
Qed.

(** *** The 16-word window updated in place

    [window W x i]: [x[j & 15]] holds [W[j]] for the 16 indices before [i]. *)
Definition window (W x : list Z) (i : nat) : Prop :=
  length x = 16%nat /\
  forall j, (j < i <= j + 16)%nat -> x !!! (j mod 16)%nat = W !!! j.

Lemma window_init W x : x = take 16 W -> (16 <= length W)%nat -> window W x 16.
Proof.
  intros -> HW. split; [rewrite length_take; lia|]. intros j Hj.
  rewrite Nat.mod_small by lia. by rewrite lookup_total_take_lt by lia.
Qed.

Lemma window_step W x i v :
  window W x i -> v = W !!! i -> window W (<[(i mod 16)%nat := v]> x) (S i).
Proof.
  intros [Hl Hw] ->. split; [by rewrite length_insert|]. intros j Hj.
  pose proof (Nat.mod_upper_bound i 16). pose proof (Nat.mod_upper_bound j 16).
  destruct (decide (j = i)) as [->|Hne].
  - apply list_lookup_total_insert_eq. lia.
  - rewrite list_lookup_total_insert_ne; [apply Hw; lia|].
    intros Heq. pose proof (Nat.Div0.div_mod i 16). pose proof (Nat.Div0.div_mod j 16). lia.
Qed.

Lemma window_at W x i k :
  window W x i -> (1 <= k <= 16)%nat -> (k <= i)%nat -> x !!! ((i - k) mod 16)%nat = W !!! (i - k)%nat.
Proof. intros [_ Hw] Hk Hi. apply Hw. lia. Qed.

Lemma for_range_S {A} (f : nat -> A -> A) a n s :
  for_range f a (S n) s = f (a + n)%nat (for_range f a n s).
Proof.
  revert a s. induction n as [|n IH]; intros a s.
  - simpl. by rewrite Nat.add_0_r.
  - change (for_range f a (S (S n)) s) with (for_range f (S a) (S n) (f a s)).
    rewrite IH. simpl. f_equal. lia.
Qed.

Lemma rounds_S {A} (f : nat -> A -> A) a n s :
  rounds f a (S n) s = f (a + n)%nat (rounds f a n s).
Proof. exact (for_range_S f a n s). Qed.

Lemma u32_add_u64 s a : u32 (u64 (s + a)) = u32 (a + u32 s).
Proof.
  rewrite uwrap_add_r, (Z.add_comm a). unfold uwrap.
  change (2 ^ 64) with (2 ^ 32 * 2 ^ 32). rewrite Z.rem_mul_r by lia.
  rewrite (Z.mul_comm (2 ^ 32)), Z_mod_plus_full. apply Zmod_mod.
Qed.

(** ** SHA-1 *)

Lemma sha1_W_length blk : length (sha1_W blk) = 80%nat.
Proof. unfold sha1_W. by rewrite length_schedule, length_words_of. Qed.

Lemma sha1_W_next blk t :
  (16 <= t < 80)%nat ->
  sha1_W blk !!! t =
  rotl 32 1 (sha1_W blk !!! (t - 3)%nat ^^ sha1_W blk !!! (t - 8)%nat
             ^^ sha1_W blk !!! (t - 14)%nat ^^ sha1_W blk !!! (t - 16)%nat).
Proof.
  intros Ht. pose proof (sha1_W_length blk).
  assert (E : sha1_W blk !!! t = sha1_next (take t (sha1_W blk)))
    by (apply (schedule_at _ 64 (words_of be32 4 16 blk));
        [reflexivity|rewrite length_words_of; lia]).
  rewrite E. unfold sha1_next. by rewrite !back_take by lia.
Qed.

Definition regs5_ok (r : regs5) : Prop :=
  let '(a, b, c, d, e) := r in
  in_word 32 a /\ in_word 32 b /\ in_word 32 c /\ in_word 32 d /\ in_word 32 e.

Lemma sha1_K_values t :
  sha1_K t = if bool_decide (t < 20)%nat then 0x5a827999
             else if bool_decide (t < 40)%nat then 0x6ed9eba1
             else if bool_decide (t < 60)%nat then 0x8f1bbcdc else 0xca62c1d6.
Proof.
  unfold sha1_K.
  replace (Z.sqrt (2 * 2 ^ 60)) with 0x5a827999 by (vm_compute; reflexivity).
  replace (Z.sqrt (3 * 2 ^ 60)) with 0x6ed9eba1 by (vm_compute; reflexivity).
  replace (Z.sqrt (5 * 2 ^ 60)) with 0x8f1bbcdc by (vm_compute; reflexivity).
  by replace (Z.sqrt (10 * 2 ^ 60)) with 0xca62c1d6 by (vm_compute; reflexivity).
Qed.

Lemma in_word_rotl w n x : in_word w x -> 0 < n < w -> in_word w (rotl w n x).
Proof.
  intros Hx Hn. replace (rotl w n x) with (rotr w (w - n) x); [apply in_word_rotr; done || lia|].
  unfold rotl, rotr. rewrite Z.lor_comm. by replace (w - (w - n)) with n by lia.
Qed.

Lemma sha1_step_round W x r i :
  length W = 80%nat -> (i < 80)%nat ->
  (forall t, (16 <= t < 80)%nat ->
     W !!! t = rotl 32 1 (W !!! (t - 3)%nat ^^ W !!! (t - 8)%nat
                          ^^ W !!! (t - 14)%nat ^^ W !!! (t - 16)%nat)) ->
  window W x (Nat.max i 16) -> regs5_ok r ->
  exists x', sha1_step i (x, r) = (x', sha1_spec_round W i r) /\
    window W x' (Nat.max (S i) 16) /\ regs5_ok (sha1_spec_round W i r).
Proof.
  intros HW Hi Hrec Hwin Hr. destruct r as [[[[a b] c] d] e].
  destruct Hr as (Ha & Hb & Hc & Hd & He).
  assert (Hm : exists x', (if bool_decide (i < 16)%nat then (x, x !!! i) else sha1_M i x)
                 = (x', W !!! i) /\ window W x' (Nat.max (S i) 16)).
  { case_bool_decide as Hlt.
    - exists x. rewrite Nat.max_r in * by lia. split; [|done]. f_equal.
      destruct Hwin as [_ Hwin]. rewrite <- Hwin by lia. by rewrite Nat.mod_small by lia.
    - rewrite Nat.max_l in * by lia. unfold sha1_M.
      rewrite !(window_at W x i) by (done || lia).
      replace (x !!! (i mod 16)%nat) with (W !!! (i - 16)%nat).
      2: { rewrite <- (window_at W x i 16) by (done || lia). f_equal.
           replace i with ((i - 16) + 1 * 16)%nat at 2 by lia.
           by rewrite Nat.Div0.mod_add. }
      set (v := ROL32 _ 1). assert (Hv : v = W !!! i).
      { unfold v. rewrite (Hrec i) by lia.
        change (ROL32 ?y 1) with (rotl 32 1 y). f_equal. lxor_ac. }
      rewrite Hv. eexists. split; [done|]. by apply window_step. }
  destruct Hm as (x' & Hm & Hwin'). exists x'. unfold sha1_step. rewrite Hm.
  split; [|split; [done|]].
  - f_equal. unfold sha1_spec_round, sha1_f. rewrite sha1_K_values.
    unfold SHA1STEP. change (ROL32 a 5) with (rotl 32 5 a).
    change (ROL32 b 30) with (rotl 32 30 b).
    change sha1_F1 with Ch. change sha1_F2 with spec_Parity.
    change sha1_F3 with Ma. change sha1_F4 with spec_Parity.
    repeat case_bool_decide; rewrite ?(Ch_spec 32), ?Ma_spec by (done || lia);
      do 5 f_equal; lia.
  - simpl. split_and!; try done; [apply in_word_uwrap; lia|apply in_word_rotl; done || lia].
Qed.

Lemma sha1_loop W x r n :
  length W = 80%nat -> (n <= 80)%nat ->
  (forall t, (16 <= t < 80)%nat ->
     W !!! t = rotl 32 1 (W !!! (t - 3)%nat ^^ W !!! (t - 8)%nat
                          ^^ W !!! (t - 14)%nat ^^ W !!! (t - 16)%nat)) ->
  window W x 16 -> regs5_ok r ->
  exists x', for_range sha1_step 0 n (x, r) = (x', rounds (sha1_spec_round W) 0 n r) /\
    window W x' (Nat.max n 16) /\ regs5_ok (rounds (sha1_spec_round W) 0 n r).
Proof.
  intros HW Hn Hrec Hwin Hr. induction n as [|n IH].
  - by exists x.
  - destruct IH as (x' & Hf & Hwin' & Hr'); [lia|].
    rewrite for_range_S, rounds_S, Hf, !Nat.add_0_l.
    destruct (sha1_step_round W x' _ n HW ltac:(lia) Hrec Hwin' Hr') as (x'' & -> & Hw & Hok).
    by exists x''.
Qed.

(** [sha1_transform_cc] is the compression function of the standard, the
    state words being read modulo [2^32]. *)
Lemma sha1_transform_compress st data :
  length st = 8%nat ->
  length (sha1_transform_cc st data) = 8%nat /\
  u32 <$> take 5 (sha1_transform_cc st data) = sha1_compress (u32 <$> take 5 st) data.
Proof.
  intros Hst.
  destruct st as [|s0 [|s1 [|s2 [|s3 [|s4 [|s5 [|s6 [|s7 [|]]]]]]]]]; try done.
  unfold sha1_transform_cc, reg, sha1_compress. cbn [take fmap list_fmap].
  cbn [lookup_total list_lookup_total]. cbv zeta.
  set (r := (u32 s0, u32 s1, u32 s2, u32 s3, u32 s4)).
  destruct (sha1_loop (sha1_W data) (load_words read_swap32 4 16 data) r 80) as (x' & Hf & _ & _).
  - apply sha1_W_length.
  - lia.
  - apply sha1_W_next.
  - apply window_init; [|rewrite sha1_W_length; lia].
    unfold sha1_W. rewrite take_schedule by (by rewrite length_words_of).
    rewrite take_ge by (by rewrite length_words_of).
    apply (load_words_spec be32).
  - unfold r. simpl. split_and!; apply in_word_uwrap; lia.
  - rewrite Hf. destruct (rounds _ 0 80 r) as [[[[a b] c] d] e].
    split; [done|]. unfold add_state. simpl.
    by rewrite !u32_add_u64.
Qed.

(** ** SHA-256 and SHA-512: shared lemmas *)

Lemma Forall_words_of (P : Z -> Prop) word size n bs :
  (forall p, P (word p)) -> Forall P (words_of word size n bs).
Proof. intros HP. revert bs. induction n; intros; simpl; constructor; auto. Qed.

Lemma Forall_schedule (P : Z -> Prop) next n W :
  (forall V, P (next V)) -> Forall P W -> Forall P (schedule next n W).
Proof.
  intros HP. revert W. induction n as [|n IH]; intros W HW; simpl; [done|].
  apply IH, Forall_app. auto.
Qed.

Lemma Forall_at (P : Z -> Prop) (W : list Z) t : Forall P W -> (t < length W)%nat -> P (W !!! t).
Proof. intros HW Ht. by apply (Forall_lookup_total_1 P W t). Qed.

Lemma rounds_add {A} (f : nat -> A -> A) a n m s :
  rounds f a (n + m) s = rounds f (a + n) m (rounds f a n s).
Proof.
  revert a s. induction n as [|n IH]; intros a s; simpl; [by rewrite Nat.add_0_r|].
  rewrite IH. f_equal. lia.
Qed.

Definition regs8_ok (w : Z) (r : regs8) : Prop :=
  let '(a, b, c, d, e, f, g, h) := r in
  (in_word w a /\ in_word w b /\ in_word w c /\ in_word w d) /\
  (in_word w e /\ in_word w f /\ in_word w g /\ in_word w h).

(** One round of the [R] macros, for [w = 32] or [64]: [S0c], [S1c] are the
    nested rotations of the program, equal to the [Sigma] of the standard on
    words. *)
Lemma sha2_round w S0 S1 S0c S1c K W t (r : regs8) :
  0 <= w ->
  (forall x, in_word w x -> S0c x = S0 x) -> (forall x, in_word w x -> S1c x = S1 x) ->
  regs8_ok w r ->
  (let '(a, b, c, d, e, f, g, h) := r in
   let h := uwrap w (h + (S1c e + Ch e f g + K !!! t + W !!! t)) in
   let d := uwrap w (d + h) in
   let h := uwrap w (h + (S0c a + Ma a b c)) in
   (h, a, b, c, d, e, f, g)) = sha2_spec_round w S0 S1 K W t r /\
  regs8_ok w (sha2_spec_round w S0 S1 K W t r).
Proof.
  intros Hw HS0 HS1. destruct r as [[[[[[[a b] c] d] e] f] g] h].
  intros ((Ha & Hb & Hc & Hd) & (He & Hf & Hg & Hh)).
  unfold sha2_spec_round. cbv zeta. split.
  - rewrite HS0, HS1, Ma_spec, (Ch_spec w) by done.
    rewrite uwrap_add_l, uwrap_add_r.
    match goal with
    | |- (uwrap _ ?x, _, _, _, uwrap _ ?y, _, _, _) =
         (uwrap _ ?x', _, _, _, uwrap _ ?y', _, _, _) =>
        replace x with x' by lia; replace y with y' by lia; reflexivity
    end.
  - simpl. split_and!; try done; by apply in_word_uwrap.
Qed.

(** *** SHA-256 *)

Lemma sha256_S0_spec x : in_word 32 x -> sha256_S0 x = Sigma256_0 x.
Proof. intros. exact (rotr_nest3 32 9 11 2 x H ltac:(lia) ltac:(lia) ltac:(lia) ltac:(lia)). Qed.
Lemma sha256_S1_spec x : in_word 32 x -> sha256_S1 x = Sigma256_1 x.
Proof. intros. exact (rotr_nest3 32 14 5 6 x H ltac:(lia) ltac:(lia) ltac:(lia) ltac:(lia)). Qed.
Lemma sha256_s0_spec x : in_word 32 x -> sha256_s0 x = sigma256_0 x.
Proof.
  intros. unfold sha256_s0, sigma256_0. f_equal.
  exact (rotr_nest2 32 11 7 x H ltac:(lia) ltac:(lia) ltac:(lia)).
Qed.
Lemma sha256_s1_spec x : in_word 32 x -> sha256_s1 x = sigma256_1 x.
Proof.
  intros. unfold sha256_s1, sigma256_1. f_equal.
  exact (rotr_nest2 32 2 17 x H ltac:(lia) ltac:(lia) ltac:(lia)).
Qed.

Lemma K256_spec : K256 = spec_K256.
Proof. vm_compute. reflexivity. Qed.

Lemma sha256_W_length blk : length (sha256_W blk) = 64%nat.
Proof. unfold sha256_W. by rewrite length_schedule, length_words_of. Qed.

Lemma sha256_W_word blk t : (t < 64)%nat -> in_word 32 (sha256_W blk !!! t).
Proof.
  intros. apply Forall_at; [|by rewrite sha256_W_length].
  unfold sha256_W. apply Forall_schedule; [intros; by apply in_word_uwrap|].
  apply Forall_words_of. intros. by apply in_word_uwrap.
Qed.

Lemma sha256_W_next blk t :
  (16 <= t < 64)%nat ->
  let W := sha256_W blk in
  W !!! t = u32 (sigma256_1 (W !!! (t - 2)%nat) + W !!! (t - 7)%nat
                 + sigma256_0 (W !!! (t - 15)%nat) + W !!! (t - 16)%nat).
Proof.
  intros Ht. cbv zeta. pose proof (sha256_W_length blk).
  assert (E : sha256_W blk !!! t = sha256_next (take t (sha256_W blk)))
    by (apply (schedule_at _ 48 (words_of be32 4 16 blk));
        [reflexivity|rewrite length_words_of; lia]).
  rewrite E. unfold sha256_next. by rewrite !back_take by lia.
Qed.

Abbreviation sha256_round blk :=
  (sha2_spec_round 32 Sigma256_0 Sigma256_1 spec_K256 (sha256_W blk)).

Lemma sha256_BLK2_window blk x jj i :
  (1 <= jj < 4)%nat -> (i < 16)%nat -> window (sha256_W blk) x (16 * jj + i) ->
  exists x', sha256_BLK2 i x = (x', sha256_W blk !!! (16 * jj + i)%nat) /\
    window (sha256_W blk) x' (S (16 * jj + i)).
Proof.
  intros Hj Hi Hwin. set (W := sha256_W blk) in *. set (t := (16 * jj + i)%nat) in *.
  assert (Hat : forall k, (1 <= k <= 15)%nat -> x !!! ((16 + i - k) mod 16)%nat = W !!! (t - k)%nat).
  { intros k Hk. rewrite <- (window_at W x t k) by (done || lia). f_equal.
    replace (t - k)%nat with ((16 + i - k) + (jj - 1) * 16)%nat by lia.
    by rewrite Nat.Div0.mod_add. }
  assert (H16 : x !!! i = W !!! (t - 16)%nat).
  { rewrite <- (window_at W x t 16) by (done || lia). f_equal.
    replace (t - 16)%nat with (i + (jj - 1) * 16)%nat by lia.
    by rewrite Nat.Div0.mod_add, Nat.mod_small. }
  unfold sha256_BLK2. rewrite !Hat, H16 by lia.
  pose proof (sha256_W_word blk).
  rewrite sha256_s1_spec, sha256_s0_spec by (apply (sha256_W_word blk); lia).
  set (v := u32 _). assert (Hv : v = W !!! t).
  { pose proof (sha256_W_next blk t ltac:(lia)) as E. cbv zeta in E. fold W in E.
    rewrite E. unfold v. f_equal. lia. }
  rewrite Hv. eexists. split; [done|].
  replace i with (t mod 16)%nat; [by apply window_step|].
  replace t with (i + jj * 16)%nat by lia. by rewrite Nat.Div0.mod_add, Nat.mod_small.
Qed.

Lemma sha256_R_round blk x (r : regs8) jj i :
  (jj < 4)%nat -> (i < 16)%nat ->
  window (sha256_W blk) x (Nat.max (16 * jj + i) 16) -> regs8_ok 32 r ->
  let t := (16 * jj + i)%nat in
  exists x', sha256_R (16 * jj) i (x, r) = (x', sha256_round blk t r) /\
    window (sha256_W blk) x' (Nat.max (S t) 16) /\ regs8_ok 32 (sha256_round blk t r).
Proof.
  intros Hj Hi Hwin Hr t.
  assert (Hw : exists x', (if bool_decide (16 * jj = 0)%nat then (x, x !!! i) else sha256_BLK2 i x)
                 = (x', sha256_W blk !!! t) /\ window (sha256_W blk) x' (Nat.max (S t) 16)).
  { case_bool_decide as Hj0.
    - exists x. replace t with i by lia. rewrite !Nat.max_r in * by lia. split; [|done].
      f_equal. destruct Hwin as [_ Hwin]. rewrite <- Hwin by lia. by rewrite Nat.mod_small.
    - rewrite Nat.max_l in Hwin by lia.
      destruct (sha256_BLK2_window blk x jj i ltac:(lia) Hi Hwin) as (x' & -> & Hw').
      exists x'. split; [done|]. by rewrite Nat.max_l by lia. }
  destruct Hw as (x' & Hw & Hwin').
  destruct (sha2_round 32 Sigma256_0 Sigma256_1 sha256_S0 sha256_S1 spec_K256 (sha256_W blk) t r
              ltac:(lia) sha256_S0_spec sha256_S1_spec Hr) as [Heq Hok].
  exists x'. split; [|done]. rewrite <- Heq.
  destruct r as [[[[[[[a b] c] d] e] f] g] h]. unfold sha256_R.
  rewrite Hw, K256_spec. by rewrite (Nat.add_comm i).
Qed.

Lemma sha256_inner blk x r jj n :
  (jj < 4)%nat -> (n <= 16)%nat ->
  window (sha256_W blk) x (Nat.max (16 * jj) 16) -> regs8_ok 32 r ->
  let r' := rounds (sha256_round blk) (16 * jj) n r in
  exists x', for_range (sha256_R (16 * jj)) 0 n (x, r) = (x', r') /\
    window (sha256_W blk) x' (Nat.max (16 * jj + n) 16) /\ regs8_ok 32 r'.
Proof.
  intros Hj Hn Hwin Hr. cbv zeta. induction n as [|n IH].
  - exists x. by rewrite Nat.add_0_r.
  - destruct IH as (x' & Hf & Hwin' & Hr'); [lia|].
    destruct (sha256_R_round blk x' _ jj n Hj ltac:(lia) Hwin' Hr') as (x'' & Hx & Hw & Hok).
    exists x''. rewrite for_range_S, rounds_S, Hf, Nat.add_0_l.
    split_and!; [done| |done]. by rewrite Nat.add_succ_r.
Qed.

Lemma sha256_loop blk x r n :
  (n <= 4)%nat -> window (sha256_W blk) x 16 -> regs8_ok 32 r ->
  let r' := rounds (sha256_round blk) 0 (16 * n) r in
  exists x', for_range (fun jj s => for_range (sha256_R (16 * jj)) 0 16 s) 0 n (x, r) = (x', r') /\
    window (sha256_W blk) x' (Nat.max (16 * n) 16) /\ regs8_ok 32 r'.
Proof.
  intros Hn Hwin Hr. cbv zeta. induction n as [|n IH]; [by exists x|].
  destruct IH as (x' & Hf & Hwin' & Hr'); [lia|].
  destruct (sha256_inner blk x' _ n 16 ltac:(lia) ltac:(lia) Hwin' Hr') as (x'' & Hx & Hw & Hok).
  exists x''. rewrite for_range_S, Hf, Nat.add_0_l.
  replace (16 * S n)%nat with (16 * n + 16)%nat by lia. rewrite rounds_add.
  exact (conj Hx (conj Hw Hok)).
Qed.

Lemma sha256_transform_compress st data :
  length st = 8%nat ->
  length (sha256_transform_cc st data) = 8%nat /\
  u32 <$> sha256_transform_cc st data = sha256_compress (u32 <$> st) data.
Proof.
  intros Hst.
  destruct st as [|s0 [|s1 [|s2 [|s3 [|s4 [|s5 [|s6 [|s7 [|]]]]]]]]]; try done.
  unfold sha256_transform_cc, reg, sha256_compress, sha2_compress. cbn [fmap list_fmap].
  cbn [lookup_total list_lookup_total]. cbv zeta.
  set (r := (u32 s0, u32 s1, u32 s2, u32 s3, u32 s4, u32 s5, u32 s6, u32 s7)).
  destruct (sha256_loop data (load_words read_swap32 4 16 data) r 4) as (x' & Hf & _ & _).
  - lia.
  - apply window_init; [|rewrite sha256_W_length; lia].
    unfold sha256_W. rewrite take_schedule by (by rewrite length_words_of).
    rewrite take_ge by (by rewrite length_words_of).
    apply (load_words_spec be32).
  - unfold r. simpl. split_and!; apply in_word_uwrap; lia.
  - rewrite Hf. change (16 * 4)%nat with 64%nat.
    destruct (rounds _ 0 64 r) as [[[[[[[a b] c] d] e] f] g] h].
    split; [done|]. unfold add_state. simpl. by rewrite !u32_add_u64.
Qed.

(** *** SHA-512 *)

Lemma sha512_S0_spec x : in_word 64 x -> sha512_S0 x = Sigma512_0 x.
Proof. intros. exact (rotr_nest3 64 5 6 28 x H ltac:(lia) ltac:(lia) ltac:(lia) ltac:(lia)). Qed.
Lemma sha512_S1_spec x : in_word 64 x -> sha512_S1 x = Sigma512_1 x.
Proof. intros. exact (rotr_nest3 64 23 4 14 x H ltac:(lia) ltac:(lia) ltac:(lia) ltac:(lia)). Qed.
Lemma sha512_s0_spec x : in_word 64 x -> sha512_s0 x = sigma512_0 x.
Proof.
  intros. unfold sha512_s0, sigma512_0. f_equal.
  exact (rotr_nest2 64 7 1 x H ltac:(lia) ltac:(lia) ltac:(lia)).
Qed.
Lemma sha512_s1_spec x : in_word 64 x -> sha512_s1 x = sigma512_1 x.
Proof.
  intros. unfold sha512_s1, sigma512_1. f_equal.
  exact (rotr_nest2 64 42 19 x H ltac:(lia) ltac:(lia) ltac:(lia)).
Qed.

Lemma K512_spec : K512 = spec_K512.
Proof. vm_compute. reflexivity. Qed.

Lemma sha512_W_length blk : length (sha512_W blk) = 80%nat.
Proof. unfold sha512_W. by rewrite length_schedule, length_words_of. Qed.

Lemma sha512_W_word blk t : (t < 80)%nat -> in_word 64 (sha512_W blk !!! t).
Proof.
  intros. apply Forall_at; [|by rewrite sha512_W_length].
  unfold sha512_W. apply Forall_schedule; [intros; by apply in_word_uwrap|].
  apply Forall_words_of. intros. by apply in_word_uwrap.
Qed.

Lemma sha512_W_next blk t :
  (16 <= t < 80)%nat ->
  let W := sha512_W blk in
  W !!! t = u64 (sigma512_1 (W !!! (t - 2)%nat) + W !!! (t - 7)%nat
                 + sigma512_0 (W !!! (t - 15)%nat) + W !!! (t - 16)%nat).
Proof.
  intros Ht. cbv zeta. pose proof (sha512_W_length blk).
  assert (E : sha512_W blk !!! t = sha512_next (take t (sha512_W blk)))
    by (apply (schedule_at _ 64 (words_of be64 8 16 blk));
        [reflexivity|rewrite length_words_of; lia]).
  rewrite E. unfold sha512_next. by rewrite !back_take by lia.
Qed.

Lemma words_of_lookup (word : list Z -> Z) size n bs t :
  (t < n)%nat -> words_of word size n bs !!! t = word (take size (drop (size * t) bs)).
Proof.
  revert bs t. induction n as [|n IH]; intros bs t Ht; [lia|].
  destruct t as [|t]; simpl; [by rewrite Nat.mul_0_r|].
  rewrite IH by lia. rewrite drop_drop. do 3 f_equal. lia.
Qed.

Lemma sha512_W_first blk t :
  (t < 16)%nat -> sha512_W blk !!! t = read_swap64 (drop (8 * t) blk).
Proof.
  intros Ht. unfold sha512_W. rewrite <- (lookup_total_take_lt _ 16) by lia.
  rewrite take_schedule by (by rewrite length_words_of).
  rewrite take_ge by (by rewrite length_words_of). by apply words_of_lookup.
Qed.

Lemma sha512_fill_ok blk n :
  (n <= 80)%nat ->
  let W := for_range (sha512_fill blk) 0 n (replicate 80 0) in
  length W = 80%nat /\ forall t, (t < n)%nat -> W !!! t = sha512_W blk !!! t.
Proof.
  cbv zeta. induction n as [|n IH]; intros Hn.
  - split; [done|lia].
  - destruct IH as [Hl Ht]; [lia|]. rewrite for_range_S, Nat.add_0_l.
    set (W := for_range _ 0 n _) in *. unfold sha512_fill.
    set (v := if bool_decide _ then _ else _).
    assert (Hv : v = sha512_W blk !!! n).
    { unfold v. case_bool_decide; [by rewrite sha512_W_first|].
      pose proof (sha512_W_next blk n ltac:(lia)) as E. cbv zeta in E.
      rewrite E, !Ht by lia. pose proof (sha512_W_word blk).
      by rewrite sha512_s1_spec, sha512_s0_spec by (apply (sha512_W_word blk); lia). }
    rewrite Hv. split; [by rewrite length_insert|]. intros t Hlt.
    destruct (decide (t = n)) as [->|].
    + apply list_lookup_total_insert_eq. lia.
    + rewrite list_lookup_total_insert_ne by done. apply Ht. lia.
Qed.

Lemma sha512_R_loop W W' (r : regs8) n :
  (forall t, (t < n)%nat -> W !!! t = W' !!! t) -> regs8_ok 64 r ->
  let r' := rounds (sha2_spec_round 64 Sigma512_0 Sigma512_1 spec_K512 W') 0 n r in
  for_range (sha512_R W) 0 n r = r' /\ regs8_ok 64 r'.
Proof.
  cbv zeta. intros HW Hr. induction n as [|n IH]; [done|].
  destruct IH as [Hf Hok]; [intros; apply HW; lia|].
  rewrite for_range_S, rounds_S, Hf, Nat.add_0_l.
  set (r' := rounds _ 0 n r) in *.
  destruct (sha2_round 64 Sigma512_0 Sigma512_1 sha512_S0 sha512_S1 spec_K512 W' n r'
              ltac:(lia) sha512_S0_spec sha512_S1_spec Hok) as [Heq Hok'].
  split; [|done]. rewrite <- Heq. destruct r' as [[[[[[[a b] c] d] e] f] g] h].
  unfold sha512_R. by rewrite K512_spec, HW by lia.
Qed.

Lemma sha512_transform_compress st data :
  length st = 8%nat -> Forall (in_word 64) st ->
  (length (sha512_transform st data) = 8%nat /\ Forall (in_word 64) (sha512_transform st data)) /\
  sha512_transform st data = sha512_compress st data.
Proof.
  intros Hst Hw.
  destruct st as [|s0 [|s1 [|s2 [|s3 [|s4 [|s5 [|s6 [|s7 [|]]]]]]]]]; try done.
  unfold sha512_transform, sha512_compress, sha2_compress.
  cbn [lookup_total list_lookup_total]. cbv zeta.
  set (r := (s0, s1, s2, s3, s4, s5, s6, s7)).
  destruct (sha512_fill_ok data 80 ltac:(lia)) as [_ HW].
  destruct (sha512_R_loop (for_range (sha512_fill data) 0 80 (replicate 80 0))
              (sha512_W data) r 80 HW) as [Hf _].
  - unfold r. simpl. rewrite !Forall_cons in Hw. by destruct_and! Hw.
  - rewrite Hf. destruct (rounds _ 0 80 r) as [[[[[[[a b] c] d] e] f] g] h].
    unfold add_state. simpl. split_and!; [done| |].
    + repeat constructor; by apply in_word_uwrap.
    + by rewrite (Z.add_comm s0), (Z.add_comm s1), (Z.add_comm s2), (Z.add_comm s3),
        (Z.add_comm s4), (Z.add_comm s5), (Z.add_comm s6), (Z.add_comm s7).
Qed.

(** ** MD5 *)

Lemma md5_F1_spec x y z : in_word 32 y -> in_word 32 z -> md5_F1 x y z = md5_F x y z.
Proof.
  intros Hy Hz. apply Z.bits_inj'. intros i Hi. unfold md5_F1, md5_F.
  rewrite Z.lxor_spec, Z.lor_spec, !Z.land_spec, Z.lxor_spec, compl_testbit by lia.
  destruct (Z.ltb_spec i 32); simpl.
  - by destruct (Z.testbit x i), (Z.testbit y i), (Z.testbit z i).
  - rewrite (testbit_high 32 z), (testbit_high 32 y) by done. by destruct (Z.testbit x i).
Qed.

Lemma md5_F2_spec x y z : in_word 32 x -> in_word 32 y -> md5_F2 x y z = md5_G x y z.
Proof.
  intros. unfold md5_F2. rewrite md5_F1_spec by done. unfold md5_F, md5_G.
  by rewrite (Z.land_comm z), (Z.land_comm (compl 32 z)).
Qed.

Definition regs4_ok (r : regs4) : Prop :=
  let '(a, b, c, d) := r in in_word 32 a /\ in_word 32 b /\ in_word 32 c /\ in_word 32 d.

(** The tables of the two definitions agree step by step. *)
Definition md5_row (t : nat) : Prop :=
  exists f i k s, md5_steps !! t = Some (f, i, k, s) /\ i = md5_index t /\
    k = md5_T !!! t /\ s = md5_shift t /\
    f = match (t / 16)%nat with O => md5_F1 | 1%nat => md5_F2 | 2%nat => md5_F3 | _ => md5_F4 end.

Lemma md5_rows t : (t < 64)%nat -> md5_row t.
Proof.
  intros Ht. do 64 (destruct t as [|t]; [do 4 eexists; split_and!; reflexivity|]). lia.
Qed.

Lemma md5_step_round x t f i k s (r : regs4) :
  (t < 64)%nat -> md5_steps !! t = Some (f, i, k, s) -> regs4_ok r ->
  md5_call x r (f, i, k, s) = md5_spec_round x t r /\ regs4_ok (md5_spec_round x t r).
Proof.
  intros Ht Hs Hr. destruct (md5_rows t Ht) as (f' & i' & k' & s' & Hs' & -> & -> & -> & Hf).
  rewrite Hs in Hs'. injection Hs' as -> -> -> ->.
  destruct r as [[[a b] c] d]. destruct Hr as (Ha & Hb & Hc & Hd).
  assert (Hfs : f' b c d = md5_f t b c d).
  { rewrite Hf. unfold md5_f. destruct (t / 16)%nat as [|[|[|]]];
      [by apply md5_F1_spec|by apply md5_F2_spec|done|done]. }
  unfold md5_spec_round, md5_call, MD5STEP. rewrite Hfs.
  change (u32 (?w << ?s) ||| (?w >> (32 - ?s))) with (rotl 32 s w).
  split; [|simpl; split_and!; try done; by apply in_word_uwrap].
  do 3 f_equal. rewrite (Z.add_comm _ b). do 3 f_equal.
  rewrite Z.add_assoc, uwrap_add_r. f_equal. lia.
Qed.

Lemma length_md5_steps : length md5_steps = 64%nat.
Proof. reflexivity. Qed.

Lemma md5_loop x (r : regs4) n :
  (n <= 64)%nat -> regs4_ok r ->
  fold_left (md5_call x) (take n md5_steps) r = rounds (md5_spec_round x) 0 n r /\
  regs4_ok (rounds (md5_spec_round x) 0 n r).
Proof.
  intros Hn Hr. induction n as [|n IH]; [done|].
  destruct IH as [Hf Hok]; [lia|].
  destruct (lookup_lt_is_Some_2 md5_steps n) as [[[[f i] k] s] Hs];
    [rewrite length_md5_steps; lia|].
  rewrite (take_S_r _ _ _ Hs), fold_left_app, Hf, rounds_S, Nat.add_0_l.
  apply (md5_step_round x n f i k s); [lia|done|done].
Qed.

Lemma md5_transform_compress st data :
  length st = 8%nat ->
  length (md5_transform st data) = 8%nat /\
  u32 <$> take 4 (md5_transform st data) = md5_compress (u32 <$> take 4 st) data.
Proof.
  intros Hst.
  destruct st as [|s0 [|s1 [|s2 [|s3 [|s4 [|s5 [|s6 [|s7 [|]]]]]]]]]; try done.
  unfold md5_transform, reg, md5_compress. cbn [take fmap list_fmap].
  cbn [lookup_total list_lookup_total]. cbv zeta.
  set (r := (u32 s0, u32 s1, u32 s2, u32 s3)).
  destruct (md5_loop (load_words read_le32 4 16 data) r 64) as [Hf _]; [lia| |].
  - unfold r. simpl. split_and!; apply in_word_uwrap; lia.
  - rewrite take_ge in Hf by (by rewrite length_md5_steps). rewrite Hf.
    change (load_words read_le32 4 16 data)
      with (load_words (fun p => le32 (take 4 p)) 4 16 data).
    rewrite (load_words_spec le32). clear Hf. destruct (rounds _ 0 64 r) as [[[a b] c] d].
    split; [done|]. unfold add_state. simpl. by rewrite !u32_add_u64.
Qed.

(** ** From compression functions to digests *)

(** [tr] on program states simulates [spec] through [abs]. *)
Lemma run_blocks_sim B (tr spec : list Z -> list Z -> list Z) (ok : list Z -> Prop)
    (abs : list Z -> list Z) n st m :
  (forall s d, ok s -> ok (tr s d) /\ abs (tr s d) = spec (abs s) d) -> ok st ->
  ok (run_blocks B tr n st m) /\
  abs (run_blocks B tr n st m) = run_blocks B spec n (abs st) m.
Proof.
  intros Hsim. revert st m. induction n as [|n IH]; intros st m Hok; simpl; [done|].
  destruct (Hsim st (take B m) Hok) as [Hok' Habs]. rewrite <- Habs. by apply IH.
Qed.

Lemma store_words_splice enc n p ws buf :
  (forall w, length (enc w) = n) -> (p + n * length ws <= length buf)%nat ->
  take (p + n * length ws) (store_words enc p ws buf) = take p buf ++ concat (enc <$> ws).
Proof.
  intros Henc. revert p buf. induction ws as [|w ws IH]; intros p buf Hl; simpl in *.
  - by rewrite Nat.mul_0_r, Nat.add_0_r, app_nil_r.
  - rewrite Henc. replace (p + n * S (length ws))%nat with ((p + n) + n * length ws)%nat by lia.
    rewrite IH by (rewrite length_splice; rewrite ?Henc; lia).
    rewrite <- (Henc w) at 1. rewrite take_splice by lia. by rewrite <- app_assoc.
Qed.

Lemma le_bytes_uwrap n w z : 0 <= w -> 8 * Z.of_nat n <= w -> le_bytes n (uwrap w z) = le_bytes n z.
Proof.
  revert w z. induction n as [|n IH]; intros w z Hw Hn; [done|]. cbn [le_bytes]. f_equal.
  - apply Z.bits_inj'. intros i Hi. rewrite !uwrap_testbit by lia.
    destruct (Z.ltb_spec i 8); [|done]. by destruct (Z.ltb_spec i w); [|lia].
  - replace (Z.shiftr (uwrap w z) 8) with (uwrap (w - 8) (Z.shiftr z 8)); [apply IH; lia|].
    apply Z.bits_inj'. intros i Hi.
    rewrite uwrap_testbit, !Z.shiftr_spec, uwrap_testbit by lia.
    f_equal. destruct (Z.ltb_spec i (w - 8)), (Z.ltb_spec (i + 8) w); lia.
Qed.

Lemma be_bytes_uwrap n w z : 0 <= w -> 8 * Z.of_nat n <= w -> be_bytes n (uwrap w z) = be_bytes n z.
Proof. intros. unfold be_bytes. by rewrite le_bytes_uwrap. Qed.

Lemma le_bytes_add n m z : le_bytes (n + m) z = le_bytes n z ++ le_bytes m (Z.shiftr z (8 * Z.of_nat n)).
Proof.
  revert z. induction n as [|n IH]; intros z; simpl; [done|].
  rewrite IH. do 3 f_equal. rewrite Z.shiftr_shiftr by lia. f_equal. lia.
Qed.

Lemma be_bytes_add n m z : be_bytes (n + m) z = be_bytes m (Z.shiftr z (8 * Z.of_nat n)) ++ be_bytes n z.
Proof. unfold be_bytes. by rewrite le_bytes_add, reverse_app. Qed.

(** The length field: [bytecount << 3] on 64 bits. *)
Lemma bitcount_bytes m c :
  c = u64 (Z.of_nat (length m)) ->
  be_bytes 8 (u64 (c << 3)) = be_bytes 8 (bitlen m) /\
  le_bytes 8 (u64 (c << 3)) = le_bytes 8 (bitlen m).
Proof.
  intros ->. unfold bitlen.
  assert (E : u64 (u64 (Z.of_nat (length m)) << 3) = u64 (8 * Z.of_nat (length m))).
  { rewrite Z.shiftl_mul_pow2 by lia. unfold uwrap.
    rewrite Z.mul_mod_idemp_l by lia. f_equal. lia. }
  rewrite E. split; [apply be_bytes_uwrap|apply le_bytes_uwrap]; lia.
Qed.

Lemma bitcount_bytes16 m c :
  Z.of_nat (length m) < 2 ^ 64 -> c = u64 (Z.of_nat (length m)) ->
  be_bytes 8 (c >> (64 - 3)) ++ be_bytes 8 (u64 (c << 3)) = be_bytes 16 (bitlen m).
Proof.
  intros Hm Hc. destruct (bitcount_bytes m c Hc) as [-> _].
  rewrite uwrap_small in Hc by lia. subst c.
  rewrite (be_bytes_add 8 8). do 2 f_equal. unfold bitlen.
  rewrite <- (Z.mul_comm (Z.of_nat _)). change 8 with (2 ^ 3) at 1.
  rewrite <- Z.shiftl_mul_pow2 by lia. by rewrite Z.shiftr_shiftl_r by lia.
Qed.
