(* ===== verification/HashApi.v ===== *)
(** HashApi: the contract of a streaming digest, its four implementations,
    and the entry points proved against the contract.

    [StreamingHash] is what hash.c promises to its clients (HashBuffer,
    HashFile, PE256Buffer, the hash threads): writes accumulate a message and
    the final call yields the reference digest of that message. *)

From S2P Require Import Prelude HashStream HashSpec Hash HashCorrect.

(** ** The contract *)

Class StreamingHash {C : Type} (init : C) (write : C -> list Z -> nat -> option C)
    (final : C -> option (list Z)) (readable : list Z -> list Z -> nat -> Prop)
    (digest : list Z -> list Z) := {
  (** [holds m c]: the context [c] has absorbed the message [m] *)
  holds : list Z -> C -> Prop;
  holds_init : holds [] init;
  holds_write m c src len :
    holds m c -> readable m src len ->
    exists c', write c src len = Some c' /\ holds (m ++ take len src) c';
  holds_final m c :
    holds m c -> Z.of_nat (length m) < 2 ^ 64 -> final c = Some (digest m)
}.

(** ** The four algorithms *)

Definition digest_of (t : hash_type) : list Z -> list Z :=
  match t with
  | HASH_MD5 => md5_digest | HASH_SHA1 => sha1_digest
  | HASH_SHA256 => sha256_digest | HASH_SHA512 => sha512_digest
  end.

(** The dispatch tables unfold before the functions they select. *)
Strategy expand [hash_init hash_write hash_final hash_count digest_of].

(** [hash_final] followed by [memcpy(hash, hash_ctx.buf, hash_count[type])]. *)
Definition hash_result_bytes (t : hash_type) (ctx : HASH_CONTEXT) : option (list Z) :=
  ctx ← hash_final t ctx; Some (take (hash_count t) (ctx_buf ctx)).

(** Memory that a write of [len] bytes after [m] reads: the bytes themselves,
    and for MD5 the rest of a pending block. *)
Definition readable_for (t : hash_type) (m src : list Z) (len : nat) : Prop :=
  (len <= length src)%nat /\
  match t with
  | HASH_MD5 =>
      (length m mod MD5_BLOCKSIZE = 0 \/ MD5_BLOCKSIZE - length m mod MD5_BLOCKSIZE <= length src)%nat
  | _ => True
  end.

Lemma absorbed_init B tr iv : absorbed B tr (ctx_state (ctx_init iv)) [] (ctx_init iv).
Proof.
  split; [|done..|].
  - unfold iterate. simpl. by rewrite Nat.Div0.div_0_l.
  - simpl. by rewrite Nat.Div0.mod_0_l, Nat.Div0.div_0_l, Nat.mul_0_r.
Qed.

Lemma block64 : Z.of_nat 64 = 2 ^ 6 /\ 0 < 6 <= 7. Proof. done. Qed.
Lemma block128 : Z.of_nat 128 = 2 ^ 7 /\ 0 < 7 <= 7. Proof. done. Qed.

Lemma be_bytes_u32 z : be_bytes 4 (u32 z) = be_bytes 4 z.
Proof. by apply be_bytes_uwrap. Qed.
Lemma le_bytes_u32 z : le_bytes 4 (u32 z) = le_bytes 4 z.
Proof. by apply le_bytes_uwrap. Qed.
Lemma be_bytes_u64 z : be_bytes 8 (u64 z) = be_bytes 8 z.
Proof. by apply be_bytes_uwrap. Qed.

(** The digest bytes left in the buffer by the [X(i)] stores. *)
Lemma stored_digest (enc : Z -> list Z) n k (ws buf : list Z) :
  (forall w, length (enc w) = n) -> length ws = k -> (n * k <= length buf)%nat ->
  take (n * k) (store_words enc 0 ws buf) = concat (enc <$> ws).
Proof.
  intros Henc Hk Hl. pose proof (store_words_splice enc n 0 ws buf Henc) as E.
  simpl in E. rewrite Hk in E. by apply E.
Qed.

(** The output of a final function whose compression [tr] simulates [spec]
    through [abs]: [k] words of [n] bytes, encoded by [enc]. *)
Lemma final_bytes B tr spec (ok : list Z -> Prop) (abs : list Z -> list Z)
    (enc enc' : Z -> list Z) n k iv p buf :
  (forall s d, ok s -> ok (tr s d) /\ abs (tr s d) = spec (abs s) d) -> ok iv ->
  (forall s, ok s -> length (take k s) = k /\ enc' <$> take k s = enc <$> abs s) ->
  (forall w, length (enc' w) = n) -> (n * k <= length buf)%nat ->
  take (n * k) (store_words enc' 0 (take k (iterate B tr iv p)) buf)
  = concat (enc <$> iterate B spec (abs iv) p).
Proof.
  intros Hsim Hok Habs Hn Hb. unfold iterate.
  destruct (run_blocks_sim B tr spec ok abs (length p / B) iv p Hsim Hok) as [Hok' <-].
  destruct (Habs _ Hok') as [Hk <-]. by apply stored_digest.
Qed.

Lemma fmap_enc_u32 (enc enc' : Z -> list Z) (ws : list Z) :
  (forall w, enc' w = enc (u32 w)) -> enc' <$> ws = enc <$> (u32 <$> ws).
Proof. intros. rewrite <- list_fmap_compose. by apply list_fmap_ext; intros; simpl. Qed.

Lemma sha1_final_digest m ctx :
  absorbed 64 sha1_transform_cc (ctx_state sha1_init) m ctx ->
  hash_result_bytes HASH_SHA1 ctx = Some (sha1_digest m).
Proof.
  intros Habs. destruct block64 as [HB Hk]. unfold hash_result_bytes, hash_final, sha1_final.
  destruct (bitcount_bytes m _ (abs_count _ _ _ _ _ Habs)) as [-> _].
  destruct (sha_final_block_ok 64 sha1_transform_cc 6 HB Hk _ m (be_bytes 8 (bitlen m)) 8
              eq_refl ltac:(lia) ctx Habs) as (buf & Hf & Hb).
  unfold SHA1_BLOCKSIZE. rewrite Hf. cbn [mbind option_bind hash_count ctx_buf]. f_equal.
  unfold sha1_digest.
  replace sha1_H0 with (u32 <$> take 5 (ctx_state sha1_init)) by (vm_compute; reflexivity).
  apply (final_bytes 64 _ sha1_compress (fun s => length s = 8%nat) (fun s => u32 <$> take 5 s)
           (be_bytes 4) write_swap32 4 5); [exact sha1_transform_compress|done| | |].
  - intros s Hs. split; [rewrite length_take; lia|]. by apply fmap_enc_u32.
  - intros. apply length_be_bytes.
  - rewrite Hb. unfold MAX_BLOCKSIZE. lia.
Qed.

Lemma sha256_final_digest m ctx :
  absorbed 64 sha256_transform_cc (ctx_state sha256_init) m ctx ->
  hash_result_bytes HASH_SHA256 ctx = Some (sha256_digest m).
Proof.
  intros Habs. destruct block64 as [HB Hk]. unfold hash_result_bytes, hash_final, sha256_final.
  destruct (bitcount_bytes m _ (abs_count _ _ _ _ _ Habs)) as [-> _].
  destruct (sha_final_block_ok 64 sha256_transform_cc 6 HB Hk _ m (be_bytes 8 (bitlen m)) 8
              eq_refl ltac:(lia) ctx Habs) as (buf & Hf & Hb).
  unfold SHA256_BLOCKSIZE. rewrite Hf. cbn [mbind option_bind hash_count ctx_buf]. f_equal.
  unfold sha256_digest.
  replace spec_H256 with (u32 <$> ctx_state sha256_init) by (vm_compute; reflexivity).
  apply (final_bytes 64 _ sha256_compress (fun s => length s = 8%nat) (fun s => u32 <$> s)
           (be_bytes 4) write_swap32 4 8); [exact sha256_transform_compress|done| | |].
  - intros s Hs. rewrite take_ge by lia. split; [done|]. by apply fmap_enc_u32.
  - intros. apply length_be_bytes.
  - rewrite Hb. unfold MAX_BLOCKSIZE. lia.
Qed.

Lemma sha512_final_digest m ctx :
  Z.of_nat (length m) < 2 ^ 64 ->
  absorbed 128 sha512_transform (ctx_state sha512_init) m ctx ->
  hash_result_bytes HASH_SHA512 ctx = Some (sha512_digest m).
Proof.
  intros Hm Habs. destruct block128 as [HB Hk].
  unfold hash_result_bytes, hash_final, sha512_final. cbv zeta.
  rewrite (bitcount_bytes16 m _ Hm (abs_count _ _ _ _ _ Habs)).
  destruct (sha_final_block_ok 128 sha512_transform 7 HB Hk _ m (be_bytes 16 (bitlen m)) 16
              eq_refl ltac:(lia) ctx Habs) as (buf & Hf & Hb).
  unfold SHA512_BLOCKSIZE. rewrite Hf. cbn [mbind option_bind hash_count ctx_buf]. f_equal.
  unfold sha512_digest.
  replace spec_H512 with (ctx_state sha512_init) by (vm_compute; reflexivity).
  apply (final_bytes 128 _ sha512_compress (fun s => length s = 8%nat /\ Forall (in_word 64) s)
           (fun s => s) (be_bytes 8) write_swap64 8 8).
  - intros s d [Hs Hw]. by apply sha512_transform_compress.
  - split; [done|]. repeat constructor; done.
  - intros s [Hs Hw]. rewrite take_ge by lia. split; [done|].
    apply list_fmap_ext. intros i w _. apply be_bytes_u64.
  - intros. apply length_be_bytes.
  - rewrite Hb. unfold MAX_BLOCKSIZE. lia.
Qed.

Lemma md5_final_digest m ctx :
  absorbed 64 md5_transform (ctx_state md5_init) m ctx ->
  hash_result_bytes HASH_MD5 ctx = Some (md5_digest m).
Proof.
  intros Habs. destruct block64 as [HB Hk]. unfold hash_result_bytes, hash_final, md5_final.
  destruct (bitcount_bytes m _ (abs_count _ _ _ _ _ Habs)) as [_ ->].
  destruct (md5_final_block_ok 64 md5_transform 6 HB Hk _ m (le_bytes 8 (bitlen m)) 8
              eq_refl ltac:(lia) ctx eq_refl Habs) as (buf & Hf & Hb).
  unfold MD5_BLOCKSIZE. rewrite Hf. cbn [mbind option_bind hash_count ctx_buf]. f_equal.
  unfold md5_digest.
  replace (take 4 sha1_H0) with (u32 <$> take 4 (ctx_state md5_init)) by (vm_compute; reflexivity).
  apply (final_bytes 64 _ md5_compress (fun s => length s = 8%nat) (fun s => u32 <$> take 4 s)
           (le_bytes 4) write_le32 4 4); [exact md5_transform_compress|done| | |].
  - intros s Hs. split; [rewrite length_take; lia|]. by apply fmap_enc_u32.
  - intros. apply length_le_bytes.
  - rewrite Hb. unfold MAX_BLOCKSIZE. lia.
Qed.

(** ** Instances *)

#[export, refine] Instance streaming_hash (t : hash_type) :
  StreamingHash (hash_init t) (hash_write t) (hash_result_bytes t) (readable_for t) (digest_of t) := {
  holds := match t with
    | HASH_MD5 => absorbed 64 md5_transform (ctx_state md5_init)
    | HASH_SHA1 => absorbed 64 sha1_transform_cc (ctx_state sha1_init)
    | HASH_SHA256 => absorbed 64 sha256_transform_cc (ctx_state sha256_init)
    | HASH_SHA512 => absorbed 128 sha512_transform (ctx_state sha512_init)
    end
}.
Proof.
  - destruct t; apply absorbed_init.
  - destruct block64 as [HB Hk], block128 as [HB' Hk'].
    intros m c src len Habs [Hl Hr]. destruct t.
    + by apply (block_write_md5_ok 64 md5_transform 6).
    + by apply (block_write_ok 64 sha1_transform_cc 6).
    + by apply (block_write_ok 64 sha256_transform_cc 6).
    + by apply (block_write_ok 128 sha512_transform 7).
  - intros m c Habs Hm. destruct t.
    + by apply md5_final_digest.
    + by apply sha1_final_digest.
    + by apply sha256_final_digest.
    + by apply sha512_final_digest.
Defined.

(** The promise of [StreamingHash], as its clients use it. *)
Definition absorbs (t : hash_type) (m : list Z) (ctx : HASH_CONTEXT) : Prop :=
  holds (StreamingHash := streaming_hash t) m ctx.
#[global] Arguments absorbs : simpl never.

Lemma absorbs_init t : absorbs t [] (hash_init t).
Proof. apply holds_init. Qed.

Lemma absorbs_write t m ctx buf len :
  absorbs t m ctx -> (len <= length buf)%nat -> (64 <= length buf)%nat ->
  exists ctx', hash_write t ctx buf len = Some ctx' /\ absorbs t (m ++ take len buf) ctx'.
Proof.
  intros H Hl Hb. apply (holds_write m ctx buf len H). split; [done|].
  destruct t; try done. right. unfold MD5_BLOCKSIZE. lia.
Qed.

Lemma absorbs_final t m ctx :
  absorbs t m ctx -> Z.of_nat (length m) < 2 ^ 64 ->
  exists ctx', hash_final t ctx = Some ctx' /\ take (hash_count t) (ctx_buf ctx') = digest_of t m.
Proof.
  intros H Hl. pose proof (holds_final m ctx H Hl) as Hf. unfold hash_result_bytes in Hf.
  destruct (hash_final t ctx) as [ctx'|]; simplify_eq/=. eauto.
Qed.

Lemma sha256_absorbs_init : absorbs HASH_SHA256 [] sha256_init.
Proof. exact (absorbs_init HASH_SHA256). Qed.

Lemma sha256_absorbs_write m ctx buf len :
  absorbs HASH_SHA256 m ctx -> (len <= length buf)%nat ->
  exists ctx', sha256_write ctx buf len = Some ctx' /\ absorbs HASH_SHA256 (m ++ take len buf) ctx'.
Proof.
  intros H Hl. apply (holds_write (StreamingHash := streaming_hash HASH_SHA256) m ctx buf len H).
  by split.
Qed.

Lemma sha256_absorbs_final m ctx :
  absorbs HASH_SHA256 m ctx -> Z.of_nat (length m) < 2 ^ 64 ->
  exists ctx', sha256_final ctx = Some ctx' /\ take 32 (ctx_buf ctx') = sha256_digest m.
Proof.
  intros H Hl. pose proof (absorbs_final HASH_SHA256 m ctx H Hl) as Hf.
  unfold hash_final, hash_count, digest_of in Hf. exact Hf.
Qed.

(** ** Any sequence of writes *)

Section client.
Context {C : Type} {init : C} {write : C -> list Z -> nat -> option C}
  {final : C -> option (list Z)} {readable : list Z -> list Z -> nat -> Prop}
  {digest : list Z -> list Z} `{SH : !StreamingHash init write final readable digest}.

(** [write] on each chunk in turn. *)
Fixpoint write_all (c : C) (chunks : list (list Z)) : option C :=
  match chunks with
  | [] => Some c
  | x :: xs => c ← write c x (length x); write_all c xs
  end.

Fixpoint readable_all (m : list Z) (chunks : list (list Z)) : Prop :=
  match chunks with
  | [] => True
  | x :: xs => readable m x (length x) /\ readable_all (m ++ x) xs
  end.

Lemma write_all_holds m c chunks :
  holds m c -> readable_all m chunks ->
  exists c', write_all c chunks = Some c' /\ holds (m ++ concat chunks) c'.
Proof.
  revert m c. induction chunks as [|x xs IH]; intros m c Hc Hr; simpl.
  - exists c. by rewrite app_nil_r.
  - destruct Hr as [Hx Hxs]. destruct (holds_write m c x (length x) Hc Hx) as (c' & -> & Hc').
    rewrite firstn_all in Hc'. simpl. rewrite app_assoc. by apply IH.
Qed.

Lemma write_all_digest chunks :
  readable_all [] chunks -> Z.of_nat (length (concat chunks)) < 2 ^ 64 ->
  (c ← write_all init chunks; final c) = Some (digest (concat chunks)).
Proof.
  intros Hr Hlen. destruct (write_all_holds [] init chunks holds_init Hr) as (c & -> & Hc).
  simpl. by apply holds_final.
Qed.
End client.

Lemma readable_all_sha t m chunks : t ≠ HASH_MD5 -> @readable_all (readable_for t) m chunks.
Proof.
  intros Ht. revert m. induction chunks as [|x xs IH]; intros m; simpl; [done|].
  split; [|apply IH]. by destruct t.
Qed.

(** ** [HashFile] *)

(** What the trace of reads amounts to: an early return, or the contents. *)
Fixpoint file_contents (trace : list read_event) : option (hash_result + list Z) :=
  match trace with
  | [] => None
  | RE_Cancel :: _ => Some (inl (HashFalse None))
  | RE_Fault :: _ => Some (inl (HashFalse (Some ERROR_READ_FAULT)))
  | RE_Data [] :: _ => Some (inr [])
  | RE_Data data :: trace =>
      r ← file_contents trace;
      Some (match r with inl r => inl r | inr m => inr (data ++ m) end)
  end.

(** [ReadFile] returns at most [sizeof(buf)] bytes. *)
Definition read_fits (e : read_event) : Prop :=
  match e with RE_Data data => (length data <= FILE_BUF)%nat | _ => True end.

Lemma hash_file_loop_ok t trace m buf ctx :
  Forall read_fits trace -> length buf = FILE_BUF ->
  holds (StreamingHash := streaming_hash t) m ctx ->
  match file_contents trace with
  | None => hash_file_loop t buf trace ctx = None
  | Some (inl r) => hash_file_loop t buf trace ctx = Some (inl r)
  | Some (inr d) => exists ctx', hash_file_loop t buf trace ctx = Some (inr ctx') /\
      holds (StreamingHash := streaming_hash t) (m ++ d) ctx'
  end.
Proof.
  intros Hfit. revert m buf ctx.
  induction Hfit as [|[| |data] trace Hd _ IH]; intros m buf ctx Hb Hctx; try done.
  destruct data as [|x data]; [simpl; rewrite app_nil_r; eauto|].
  set (d := x :: data) in *.
  assert (Hread : (length d <= FILE_BUF)%nat) by done.
  cbn [hash_file_loop]. rewrite bool_decide_false by done.
  rewrite memcpy_Some by lia. cbn [mbind option_bind].
  rewrite firstn_all. set (buf' := splice 0 d buf).
  assert (Hb' : length buf' = FILE_BUF) by (unfold buf'; rewrite length_splice; lia).
  assert (Htake : take (length d) buf' = d).
  { unfold buf'. rewrite <- (Nat.add_0_l (length d)). by rewrite take_splice by lia. }
  destruct (holds_write (StreamingHash := streaming_hash t) m ctx buf' (length d) Hctx)
    as (ctx' & Hw & Hctx').
  { split; [lia|]. destruct t; try done. right. rewrite Hb'. unfold FILE_BUF, MD5_BLOCKSIZE. lia. }
  rewrite Hw. cbn [mbind option_bind]. rewrite Htake in Hctx'.
  specialize (IH (m ++ d) buf' ctx' Hb' Hctx').
  change (file_contents (RE_Data d :: trace)) with
    (r ← file_contents trace;
     Some (match r with inl r => inl r | inr m => inr (d ++ m) end)).
  destruct (file_contents trace) as [[r|m']|]; simpl; [done| |done].
  destruct IH as (ctx'' & -> & H''). exists ctx''. split; [done|]. by rewrite <- app_assoc in H''.
Qed.

(** ** Properties *)

Lemma hash_buffer_ok type t buf len :
  hash_type_of type = Some t -> (len <= length buf)%nat -> Z.of_nat len < 2 ^ 64 ->
  HashBuffer type buf len = Some (HashTrue (digest_of t (take len buf))).
Proof.
  intros Ht Hl Hlen. unfold HashBuffer. rewrite Ht.
  destruct (holds_write (StreamingHash := streaming_hash t) [] _ buf len
              (holds_init (StreamingHash := streaming_hash t))) as (ctx & -> & Hctx).
  { split; [done|]. destruct t; try done. by left. }
  cbn [mbind option_bind].
  pose proof (holds_final (StreamingHash := streaming_hash t) _ _ Hctx) as Hf.
  rewrite app_nil_l, length_take in Hf. specialize (Hf ltac:(lia)).
  unfold hash_result_bytes in Hf. destruct (hash_final t ctx); simpl in *; congruence.
Qed.

(** C39: [HashBuffer] stores the reference digest (FIPS 180-4 or RFC 1321) of
    the first [len] bytes of the buffer, and never reads outside it, for each
    of the four algorithms. *)
Theorem hash_buffer_correct type t buf len :
  hash_type_of type = Some t -> (len <= length buf)%nat -> Z.of_nat len < 2 ^ 64 ->
  HashBuffer type buf len = Some (HashTrue (digest_of t (take len buf))).
Proof. apply hash_buffer_ok. Qed.

Lemma hash_buffer_correct_witness :
  HashBuffer 1 [68; 105; 100] 3 = Some (HashTrue (be_bytes 20 0xa5bac908bf3e51ff0036a94d43b4f3bd2d01a75d)).
Proof.
  rewrite (hash_buffer_correct 1 HASH_SHA1 [68; 105; 100] 3); [|reflexivity|simpl; lia|reflexivity].
  vm_compute. reflexivity.
Defined.

(** [HashFile] on an opened file returns the digest of the whole contents
    whatever the sizes of the reads, stops with [FALSE] at a cancellation and
    with [ERROR_READ_FAULT] at a failed read. *)
Lemma hash_file_correct type t trace :
  hash_type_of type = Some t -> Forall read_fits trace ->
  (forall m, file_contents trace = Some (inr m) -> Z.of_nat (length m) < 2 ^ 64) ->
  HashFile type true trace =
    (r ← file_contents trace;
     Some (match r with inl r => r | inr m => HashTrue (digest_of t m) end)).
Proof.
  intros Ht Hfit Hlen. unfold HashFile. rewrite Ht.
  pose proof (hash_file_loop_ok t trace [] (replicate FILE_BUF 0) _ Hfit (length_replicate _ _)
                (holds_init (StreamingHash := streaming_hash t))) as Hloop.
  destruct (file_contents trace) as [[r|m]|]; [by rewrite Hloop| |by rewrite Hloop].
  destruct Hloop as (ctx & -> & Hctx). cbn [mbind option_bind].
  pose proof (holds_final (StreamingHash := streaming_hash t) _ _ Hctx (Hlen _ eq_refl)) as Hf.
  unfold hash_result_bytes in Hf. rewrite app_nil_l in Hf.
  destruct (hash_final t ctx); simpl in *; congruence.
Qed.

Lemma hash_file_correct_witness :
  HashFile 2 true [RE_Data [68]; RE_Data [105; 100]; RE_Data []]
  = Some (HashTrue (sha256_digest [68; 105; 100])).
Proof.
  rewrite (hash_file_correct 2 HASH_SHA256); [reflexivity|reflexivity| |].
  - repeat (apply Forall_cons; split; [unfold read_fits, FILE_BUF; simpl; lia|]).
    apply Forall_nil. exact I.
  - intros m Hm. injection Hm as <-. reflexivity.
Defined.

(** For SHA-1, SHA-256 and SHA-512, cutting a message into writes at any
    points gives the digest of the whole message. *)
Lemma streaming_writes_digest t (chunks : list (list Z)) :
  t ≠ HASH_MD5 -> Z.of_nat (length (concat chunks)) < 2 ^ 64 ->
  (ctx ← write_all (write := hash_write t) (hash_init t) chunks; hash_result_bytes t ctx)
  = Some (digest_of t (concat chunks)).
Proof.
  intros Ht Hlen. apply (write_all_digest (SH := streaming_hash t)); [|done].
  by apply readable_all_sha.
Qed.

Lemma streaming_writes_digest_witness :
  (ctx ← write_all (write := hash_write HASH_SHA256) (hash_init HASH_SHA256) [[68]; []; [105; 100]];
   hash_result_bytes HASH_SHA256 ctx)
  = Some (digest_of HASH_SHA256 (concat [[68]; []; [105; 100]])).
Proof. apply (streaming_writes_digest HASH_SHA256 [[68]; []; [105; 100]]); [done|reflexivity]. Defined.

(** [md5_write] reads past the end of its input when a block is pending
    and the input does not fill it: its short branch copies the [num] bytes
    that are missing, not the [len] bytes it was given. *)
Lemma md5_write_overread m ctx src :
  absorbed MD5_BLOCKSIZE md5_transform (ctx_state md5_init) m ctx ->
  (length m mod MD5_BLOCKSIZE ≠ 0)%nat ->
  (length src < MD5_BLOCKSIZE - length m mod MD5_BLOCKSIZE)%nat ->
  md5_write ctx src (length src) = None.
Proof.
  intros Habs Hm Hs. destruct block64 as [HB Hk].
  by apply (block_write_md5_overread 64 md5_transform 6 HB Hk (ctx_state md5_init) m).
Qed.

Lemma md5_write_overread_witness :
  (ctx ← md5_write md5_init [1] 1; md5_write ctx [2] 1) = None.
Proof.
  destruct (holds_write (StreamingHash := streaming_hash HASH_MD5) [] md5_init [1] 1
              (holds_init (StreamingHash := streaming_hash HASH_MD5))) as (ctx & Hw & Hctx).
  { split; [simpl; lia|by left]. }
  change (md5_write md5_init [1] 1) with (hash_write HASH_MD5 md5_init [1] 1). rewrite Hw.
  apply (md5_write_overread [1] ctx [2]); [exact Hctx|vm_compute; lia|vm_compute; lia].
Defined.

(** The compression functions are those of the standards: SHA-1 and
    SHA-256 up to reading the 64-bit state words modulo [2^32], SHA-512
    exactly, MD5 modulo [2^32]; all keep eight state words. *)
Lemma transforms_refine_standards st data :
  length st = 8%nat -> Forall (in_word 64) st ->
  u32 <$> take 5 (sha1_transform_cc st data) = sha1_compress (u32 <$> take 5 st) data /\
  u32 <$> sha256_transform_cc st data = sha256_compress (u32 <$> st) data /\
  sha512_transform st data = sha512_compress st data /\
  u32 <$> take 4 (md5_transform st data) = md5_compress (u32 <$> take 4 st) data.
Proof.
  intros Hl Hw. split_and!.
  - by apply sha1_transform_compress.
  - by apply sha256_transform_compress.
  - by apply sha512_transform_compress.
  - by apply md5_transform_compress.
Qed.

Lemma transforms_refine_standards_witness :
  u32 <$> take 4 (md5_transform (ctx_state md5_init) (replicate 64 0))
  = md5_compress (u32 <$> take 4 (ctx_state md5_init)) (replicate 64 0).
Proof.
  apply (transforms_refine_standards (ctx_state md5_init) (replicate 64 0)); [reflexivity|].
  repeat constructor; done.
Defined.

Lemma in_db_hashes hash hashes n :
  Forall (fun h => length h = 32%nat) hashes -> (length hashes <= n)%nat ->
  in_db n hash (concat hashes) = bool_decide (hash ∈ hashes).
Proof.
  revert hashes. induction n as [|n IH]; intros hashes Hh Hn.
  - destruct hashes; [|simpl in *; lia]. symmetry. apply bool_decide_false, not_elem_of_nil.
  - destruct hashes as [|h hashes].
    { symmetry. apply bool_decide_false, not_elem_of_nil. }
    apply Forall_cons in Hh as [Hh Hhs]. simpl concat.
    destruct h as [|x h]; [done|]. set (h' := x :: h) in *.
    change (in_db (S n) hash (h' ++ concat hashes)) with
      (if bool_decide (hash = take 32 (h' ++ concat hashes)) then true
       else in_db n hash (drop 32 (h' ++ concat hashes))).
    rewrite take_app_length', drop_app_length' by done.
    case_bool_decide as Heq.
    + subst. by rewrite bool_decide_true by (by left).
    + rewrite IH by (done || (simpl in Hn; lia)). apply bool_decide_ext.
      rewrite elem_of_cons. naive_solver.
Qed.

(** [IsBufferInDB] answers [TRUE] exactly when the SHA-256 digest of the
    buffer is one of the 32-byte entries of the database. *)
Lemma is_buffer_in_db_iff hashes buf len :
  Forall (fun h => length h = 32%nat) hashes -> (len <= length buf)%nat -> Z.of_nat len < 2 ^ 64 ->
  IsBufferInDB (concat hashes) buf len
  = Some (bool_decide (sha256_digest (take len buf) ∈ hashes)).
Proof.
  intros Hh Hl Hlen. unfold IsBufferInDB.
  rewrite (hash_buffer_ok 2 HASH_SHA256) by done.
  cbn [mbind option_bind]. f_equal. apply in_db_hashes; [done|].
  clear - Hh. induction Hh as [|h hs Hh _ IH]; simpl; [lia|]. rewrite length_app. lia.
Qed.

Lemma is_buffer_in_db_iff_witness :
  IsBufferInDB (concat [replicate 32 7; sha256_digest [68; 105; 100]]) [68; 105; 100] 3 = Some true.
Proof.
  rewrite (is_buffer_in_db_iff [replicate 32 7; sha256_digest [68; 105; 100]] [68; 105; 100] 3).
  - rewrite bool_decide_true; [reflexivity|]. right. left.
  - repeat constructor; vm_compute; reflexivity.
  - simpl; lia.
  - reflexivity.
Defined.
