(* ===== verification/HashThread.v ===== *)
(** HashThread: the concurrent hashing of an image in src/src/hash.c.

    [HashThread] (the reader) reads the image asynchronously into
    [NUM_BUFFERS] buffers in turn and hands each buffer to one
    [IndividualHashThread] per algorithm, through the auto-reset events
    [data_ready] and [thread_ready] and the shared [proc_bufnum] and
    [read_size]. A state is the shared memory with the program counters; an
    action is one atomic step of the reader, of a thread, or of the device
    that fills the buffer of the read in flight. The assertion of [ReadFileAsync] that a
    failed call does not report the end of the file is left out: such a read fails. *)

From S2P Require Import Prelude HashStream Hash.

Definition NUM_BUFFERS : nat := 3.
Definition BUFFER_SIZE : nat := Z.to_nat 65536.

(** Control points of [IndividualHashThread]. [T_Fault] is an access out of
    bounds, [T_Exit code] a returned thread, [T_Killed] one that
    [TerminateThread] ended. *)
Inductive thread_pc :=
  | T_None | T_Init | T_SetReady | T_Wait | T_Test | T_Write | T_Final
  | T_Exit (code : Z) | T_Killed | T_Fault.

(** A thread with its [hash_ctx], and its entries of [hash_str],
    [data_ready] and [thread_ready]. *)
Record hash_thread := mkTh {
  tpc : thread_pc;
  hash_ctx : HASH_CONTEXT;
  hash_str : list Z;
  data_ready : bool;
  thread_ready : bool
}.

(** Control points of [HashThread]. *)
Inductive reader_pc :=
  | R_Create (i : nat)      (* the loop that creates the events and threads *)
  | R_Open                  (* CreateFileAsync and the initial read *)
  | R_Test                  (* loop test, step 0 *)
  | R_WaitRead              (* step 1 *)
  | R_Launch                (* steps 2 and 3 *)
  | R_WaitThreads           (* step 4 *)
  | R_SetProc               (* step 5 *)
  | R_Signal (i : nat)      (* step 6 *)
  | R_Join                  (* wait for the threads to end *)
  | R_Out (r : Z)           (* the label [out] *)
  | R_Exited (r : Z).

Inductive hash_error := HE_Open | HE_Read.

(** [unread] is the part of the image the asynchronous reads have not
    returned; [pending] is the buffer of the read in flight. *)
Record hash_state := mkSt {
  rpc : reader_pc;
  threads : list hash_thread;
  buffers : list (list Z);
  read_size : list Z;
  read_bufnum : nat;
  proc_bufnum : nat;
  processed_bytes : Z;
  pending : option nat;
  unread : list Z;
  ErrorStatus : option hash_error
}.

Definition goto (pc : reader_pc) (s : hash_state) : hash_state :=
  mkSt pc (threads s) (buffers s) (read_size s) (read_bufnum s) (proc_bufnum s)
    (processed_bytes s) (pending s) (unread s) (ErrorStatus s).
Definition set_threads (ths : list hash_thread) (s : hash_state) : hash_state :=
  mkSt (rpc s) ths (buffers s) (read_size s) (read_bufnum s) (proc_bufnum s)
    (processed_bytes s) (pending s) (unread s) (ErrorStatus s).
Definition set_error (e : hash_error) (s : hash_state) : hash_state :=
  mkSt (rpc s) (threads s) (buffers s) (read_size s) (read_bufnum s) (proc_bufnum s)
    (processed_bytes s) (pending s) (unread s) (Some e).
Definition set_buffers (bufs : list (list Z)) (s : hash_state) : hash_state :=
  mkSt (rpc s) (threads s) bufs (read_size s) (read_bufnum s) (proc_bufnum s)
    (processed_bytes s) (pending s) (unread s) (ErrorStatus s).

Definition set_tpc (pc : thread_pc) (t : hash_thread) : hash_thread :=
  mkTh pc (hash_ctx t) (hash_str t) (data_ready t) (thread_ready t).

(** ** IndividualHashThread *)

(** What a call to the system returned: success, failure (or timeout), a user
    cancellation seen by [CHECK_FOR_USER_CANCEL], a completed read of [n] bytes. *)
Inductive outcome := O_Ok | O_Fail | O_Cancel | O_Read (n : nat).

Definition hex_digit (v : Z) : Z := if v <? 10 then v + 48 else v - 10 + 97.

(** The loop that fills [hash_str[i]], after its [memset]. *)
Definition hex_str (bs : list Z) : list Z :=
  let chars := concat ((fun b => [hex_digit (Z.shiftr b 4); hex_digit (Z.land b 15)]) <$> bs) in
  chars ++ replicate (150 - length chars) 0.

Definition IndividualHashThread (t : hash_type) (o : outcome) (s : hash_state)
    (th : hash_thread) : option hash_thread :=
  match tpc th, o with
  | T_Init, O_Ok =>
      Some (mkTh T_SetReady (hash_init t) (hash_str th) (data_ready th) (thread_ready th))
  | T_SetReady, O_Ok => Some (mkTh T_Wait (hash_ctx th) (hash_str th) (data_ready th) true)
  | T_SetReady, O_Fail => Some (set_tpc (T_Exit 1) th)
  | T_Wait, O_Ok =>
      if data_ready th
      then Some (mkTh T_Test (hash_ctx th) (hash_str th) false (thread_ready th))
      else None
  | T_Wait, O_Fail => Some (set_tpc (T_Exit 1) th)
  | T_Test, O_Ok =>
      Some (set_tpc (if bool_decide (read_size s !!! proc_bufnum s ≠ 0)
                     then T_Write else T_Final) th)
  | T_Write, O_Ok =>
      Some (match hash_write t (hash_ctx th) (buffers s !!! proc_bufnum s)
                    (Z.to_nat (read_size s !!! proc_bufnum s)) with
            | Some ctx => mkTh T_SetReady ctx (hash_str th) (data_ready th) (thread_ready th)
            | None => set_tpc T_Fault th
            end)
  | T_Final, O_Ok =>
      Some (match hash_final t (hash_ctx th) with
            | Some ctx => mkTh (T_Exit 0) ctx (hex_str (take (hash_count t) (ctx_buf ctx)))
                            (data_ready th) (thread_ready th)
            | None => set_tpc T_Fault th
            end)
  | _, _ => None
  end.

(** ** HashThread *)

Definition all_ready (ths : list hash_thread) : bool := forallb thread_ready ths.
Definition reset_ready (t : hash_thread) : hash_thread :=
  mkTh (tpc t) (hash_ctx t) (hash_str t) (data_ready t) false.
Definition set_data (t : hash_thread) : hash_thread :=
  mkTh (tpc t) (hash_ctx t) (hash_str t) true (thread_ready t).

(** [CreateEvent] twice and [CreateThread]. *)
Definition create_thread (t : hash_thread) : hash_thread :=
  mkTh T_Init (hash_ctx t) (hash_str t) false false.

Definition exited (t : hash_thread) : bool :=
  match tpc t with T_Exit _ => true | _ => false end.

(** [TerminateThread]: a thread that has returned or never ran is unaffected. *)
Definition terminate (t : hash_thread) : hash_thread :=
  match tpc t with T_Exit _ | T_None => t | _ => set_tpc T_Killed t end.

Definition HashThread (o : outcome) (s : hash_state) : option hash_state :=
  let n := length (threads s) in
  match rpc s, o with
  | R_Create i, O_Ok =>
      Some (goto (if bool_decide (S i < n)%nat then R_Create (S i) else R_Open)
              (set_threads (alter create_thread i (threads s)) s))
  | R_Create _, O_Fail => Some (goto (R_Out (-1)) s)
  | R_Open, O_Ok =>
      Some (mkSt R_Test (threads s) (buffers s) (<[1%nat := 1]> (read_size s)) 0 1 0
              (Some 0%nat) (unread s) (ErrorStatus s))
  | R_Open, O_Fail => Some (goto (R_Out (-1)) (set_error HE_Open s))
  | R_Test, O_Ok =>
      Some (goto (if bool_decide (read_size s !!! proc_bufnum s ≠ 0) then R_WaitRead else R_Join) s)
  | R_Test, O_Cancel =>
      if bool_decide (read_size s !!! proc_bufnum s ≠ 0) then Some (goto (R_Out (-1)) s) else None
  | R_WaitRead, O_Read k =>
      b ← pending s;
      if bool_decide ((k <= BUFFER_SIZE)%nat /\ (k <= length (unread s))%nat
                      /\ (k = 0%nat -> unread s = [])) then
        Some (mkSt R_Launch (threads s)
                (alter (splice 0 (take k (unread s))) b (buffers s))
                (<[read_bufnum s := Z.of_nat k]> (read_size s))
                (read_bufnum s) (proc_bufnum s) (processed_bytes s) None
                (drop k (unread s)) (ErrorStatus s))
      else None
  | R_WaitRead, O_Fail => Some (goto (R_Out (-1)) (set_error HE_Read s))
  | R_Launch, O_Ok =>
      let read_bufnum := ((read_bufnum s + 1) mod NUM_BUFFERS)%nat in
      Some (mkSt R_WaitThreads (threads s) (buffers s) (read_size s) read_bufnum (proc_bufnum s)
              (processed_bytes s) (Some read_bufnum) (unread s) (ErrorStatus s))
  | R_WaitThreads, O_Ok =>
      if all_ready (threads s)
      then Some (goto R_SetProc (set_threads (reset_ready <$> threads s) s))
      else None
  | R_WaitThreads, O_Fail => Some (goto (R_Out (-1)) s)
  | R_SetProc, O_Ok =>
      Some (mkSt (R_Signal 0) (threads s) (buffers s) (read_size s) (read_bufnum s)
              ((read_bufnum s + NUM_BUFFERS - 1) mod NUM_BUFFERS)%nat
              (processed_bytes s) (pending s) (unread s) (ErrorStatus s))
  | R_Signal i, O_Ok =>
      let ths := alter set_data i (threads s) in
      if bool_decide (S i < n)%nat then Some (goto (R_Signal (S i)) (set_threads ths s))
      else
        Some (mkSt R_Test ths (buffers s) (read_size s) (read_bufnum s) (proc_bufnum s)
                (u64 (processed_bytes s + read_size s !!! proc_bufnum s))
                (pending s) (unread s) (ErrorStatus s))
  | R_Signal _, O_Fail => Some (goto (R_Out (-1)) s)
  | R_Join, O_Ok =>
      if forallb exited (threads s) then Some (goto (R_Out 0) s) else None
  | R_Join, O_Fail => Some (goto (R_Out (-1)) s)
  | R_Out r, O_Ok =>
      Some (mkSt (R_Exited r) (terminate <$> threads s) (buffers s) (read_size s) (read_bufnum s)
              (proc_bufnum s) (processed_bytes s) None (unread s) (ErrorStatus s))
  | _, _ => None
  end.

(** ** Interleavings *)

Inductive action :=
  | A_Reader (o : outcome)
  | A_Thread (i : nat) (o : outcome)
  | A_Device (data : list Z).   (* the read in flight writes its buffer *)

Definition hash_step (a : action) (s : hash_state) : option hash_state :=
  match a with
  | A_Reader o => HashThread o s
  | A_Thread i o =>
      th ← threads s !! i;
      t ← hash_type_of (Z.of_nat i);
      th ← IndividualHashThread t o s th;
      Some (set_threads (<[i := th]> (threads s)) s)
  | A_Device data =>
      b ← pending s;
      if bool_decide (length data = BUFFER_SIZE)
      then Some (set_buffers (<[b := data]> (buffers s)) s) else None
  end.

Fixpoint hash_run (acts : list action) (s : hash_state) : option hash_state :=
  match acts with
  | [] => Some s
  | a :: acts => s ← hash_step a s; hash_run acts s
  end.

(** [HashThread] on an image of contents [file], one thread per entry of
    [strs], with the globals [hash_str], [buffer] and [read_size] as an
    earlier use left them. *)
Definition thread0 (str : list Z) : hash_thread := mkTh T_None (mkCtx [] [] 0) str false false.
Definition hash_start (strs bufs : list (list Z)) (sizes : list Z) (file : list Z) : hash_state :=
  mkSt (R_Create 0) (thread0 <$> strs) bufs sizes 0 0 0 None file None.

(** [HASH_MAX - (enable_extra_hashes ? 0 : 1)] *)
Definition num_hashes (enable_extra_hashes : bool) : nat :=
  if enable_extra_hashes then 4 else 3.
