(* ===== verification/HashThreadCorrect.v ===== *)
(** HashThreadCorrect: the hash threads of HashThread compute the digests of
    the image under every interleaving.

    The invariant relates the shared memory to three ghost values: [b], the
    part of the image every thread has been given before the buffer being
    processed, [c], the contents of that buffer ([None] before the first),
    and [n], the chunk that has been read but not handed over yet. *)

From S2P Require Import Prelude HashStream HashSpec Hash HashCorrect HashApi HashThread.

#[local] Arguments Nat.modulo : simpl never.

(** ** Invariant *)

Abbreviation bytes c := (default [] c).

(** A thread that has been given [b], or [b] and [c]. *)
Definition tstate (t : hash_type) (b : list Z) (c : option (list Z)) (th : hash_thread) : Prop :=
  match tpc th, data_ready th, thread_ready th with
  | T_Exit code, _, _ =>
      code = 1 \/ (code = 0 /\ c = Some [] /\ hash_str th = hex_str (digest_of t b))
  | T_Init, false, false => c = None
  | T_SetReady, false, false | T_Wait, false, true =>
      absorbs t (b ++ bytes c) (hash_ctx th) /\ c ≠ Some []
  | T_Wait, true, false | T_Test, false, false => absorbs t b (hash_ctx th) /\ c ≠ None
  | T_Write, false, false => absorbs t b (hash_ctx th) /\ c ≠ None /\ c ≠ Some []
  | T_Final, false, false => absorbs t b (hash_ctx th) /\ c = Some []
  | _, _, _ => False
  end.

(** A thread whose [thread_ready] has been consumed, not signalled yet. *)
Definition idle (t : hash_type) (m : list Z) (th : hash_thread) : Prop :=
  match tpc th with
  | T_Wait => data_ready th = false /\ thread_ready th = false /\ absorbs t m (hash_ctx th)
  | T_Exit code => code = 1
  | _ => False
  end.

Definition phase (pc : reader_pc) (b : list Z) (c : option (list Z)) (i : nat) (t : hash_type)
    (th : hash_thread) : Prop :=
  match pc with
  | R_Create j => if bool_decide (i < j)%nat then tstate t b c th else tpc th = T_None
  | R_SetProc => idle t (b ++ bytes c) th
  | R_Signal j => if bool_decide (i < j)%nat then tstate t b c th else idle t b th
  | R_Out r =>
      (r = 0 -> tstate t b c th /\ exited th = true) /\
      (tpc th = T_None \/ tstate t b c th \/ exists m, idle t m th)
  | R_Exited r =>
      (r = 0 -> tstate t b c th /\ exited th = true) /\
      (tpc th = T_None \/ tpc th = T_Killed \/ exited th = true)
  | _ => tstate t b c th
  end.

(** Buffer [k] holds the chunk [x]. *)
Definition stored (s : hash_state) (k : nat) (x : list Z) : Prop :=
  take (length x) (buffers s !!! k) = x /\ read_size s !!! k = Z.of_nat (length x)
  /\ (length x <= BUFFER_SIZE)%nat.

(** The reading buffer is [k] ahead of the processing one, once there is one. *)
Definition ahead (k : nat) (s : hash_state) (c : option (list Z)) : Prop :=
  c ≠ None -> read_bufnum s = ((proc_bufnum s + k) mod NUM_BUFFERS)%nat.

Definition in_flight (s : hash_state) : Prop := pending s = Some (read_bufnum s).

Definition reader_inv (s : hash_state) (b : list Z) (c n : option (list Z)) : Prop :=
  match rpc s with
  | R_Create _ | R_Open => c = None /\ n = None /\ pending s = None
  | R_Test | R_Join =>
      n = None /\ in_flight s /\ ahead 1 s c /\
      (c = None -> read_size s !!! proc_bufnum s = 1) /\
      processed_bytes s = u64 (Z.of_nat (length (b ++ bytes c))) /\
      (rpc s = R_Join -> c = Some [])
  | R_WaitRead =>
      n = None /\ in_flight s /\ ahead 1 s c /\ c ≠ Some [] /\
      processed_bytes s = u64 (Z.of_nat (length (b ++ bytes c)))
  | R_Launch =>
      pending s = None /\ ahead 1 s c /\ c ≠ Some [] /\
      (exists x, n = Some x /\ stored s (read_bufnum s) x) /\
      processed_bytes s = u64 (Z.of_nat (length (b ++ bytes c)))
  | R_WaitThreads | R_SetProc =>
      in_flight s /\ ahead 2 s c /\ c ≠ Some [] /\
      (exists x, n = Some x /\ stored s ((read_bufnum s + 2) mod NUM_BUFFERS)%nat x) /\
      processed_bytes s = u64 (Z.of_nat (length (b ++ bytes c)))
  | R_Signal _ =>
      n = None /\ in_flight s /\ ahead 1 s c /\ c ≠ None /\
      processed_bytes s = u64 (Z.of_nat (length b))
  | R_Out r | R_Exited r =>
      (forall p, pending s = Some p -> (p < NUM_BUFFERS)%nat /\ (c ≠ None -> p ≠ proc_bufnum s)) /\
      (r = 0 -> c = Some [] /\ n = None /\
         processed_bytes s = u64 (Z.of_nat (length (b ++ bytes c))))
  end.

Record inv (file : list Z) (s : hash_state) (b : list Z) (c n : option (list Z)) : Prop := {
  inv_buffers : length (buffers s) = NUM_BUFFERS;
  inv_buffer : Forall (fun buf => length buf = BUFFER_SIZE) (buffers s);
  inv_sizes : length (read_size s) = NUM_BUFFERS;
  inv_bufnum : (read_bufnum s < NUM_BUFFERS)%nat /\ (proc_bufnum s < NUM_BUFFERS)%nat;
  inv_threads : (0 < length (threads s) <= 4)%nat;
  inv_pc : match rpc s with
           | R_Create i | R_Signal i => (i < length (threads s))%nat
           | _ => True end;
  inv_file : file = b ++ bytes c ++ bytes n ++ unread s;
  inv_eof : c = Some [] \/ n = Some [] -> unread s = [];
  inv_first : c = None -> b = [];
  inv_proc : forall x, c = Some x -> stored s (proc_bufnum s) x;
  inv_reader : reader_inv s b c n;
  inv_phase : forall i t th, threads s !! i = Some th -> hash_type_of (Z.of_nat i) = Some t ->
    phase (rpc s) b c i t th
}.

Definition valid (file : list Z) (s : hash_state) : Prop := exists b c n, inv file s b c n.

(** ** Steps of a thread *)

Lemma thread_step_tstate t o s th th' b c :
  tstate t b c th -> IndividualHashThread t o s th = Some th' ->
  (forall x, c = Some x -> stored s (proc_bufnum s) x) ->
  length (buffers s !!! proc_bufnum s) = BUFFER_SIZE ->
  Z.of_nat (length b) < 2 ^ 64 -> (c = None -> b = []) ->
  tstate t b c th'.
Proof.
  intros Hth Hstep Hst Hbuf Hlen Hb. unfold tstate in Hth. unfold IndividualHashThread in Hstep.
  destruct th as [pc ctx str [] []]; cbn [tpc hash_ctx hash_str data_ready thread_ready] in *;
    destruct pc, o; try done; simplify_eq/=; unfold tstate; simpl; try tauto;
    try (case_bool_decide as Hz; simpl).
  - (* init *) rewrite Hb by done. split; [apply absorbs_init|done].
  - (* test: data *) destruct c as [x|]; [|by destruct Hth]. destruct (Hst x eq_refl) as (_ & Hs & _).
    rewrite Hs in Hz. split_and!; [tauto..|]. intros [= ->]. by apply Hz.
  - (* test: end *) destruct c as [x|]; [|by destruct Hth]. destruct (Hst x eq_refl) as (_ & Hs & _).
    rewrite Hs in Hz. destruct x; [tauto|done].
  - (* write *) destruct Hth as (Hh & Hc & Hc'). destruct c as [x|]; [|done].
    destruct (Hst x eq_refl) as (Hx & -> & Hle). rewrite Nat2Z.id.
    destruct (absorbs_write t b ctx (buffers s !!! proc_bufnum s) (length x) Hh) as (ctx' & -> & Hh').
    { lia. } { rewrite Hbuf. unfold BUFFER_SIZE. lia. }
    simpl. by rewrite Hx in Hh'.
  - (* final *) destruct Hth as (Hh & Hc).
    destruct (absorbs_final t b ctx Hh Hlen) as (ctx' & -> & ->). simpl. auto.
Qed.

Lemma thread_step_idle t o s th th' m :
  idle t m th -> IndividualHashThread t o s th = Some th' -> tpc th' = T_Exit 1.
Proof.
  unfold idle, IndividualHashThread. intros Hi Hs.
  destruct th as [pc ctx str dr tr]; simpl in *. destruct pc, o; try done.
  - destruct Hi as (-> & _). done.
  - by simplify_eq.
Qed.

Lemma tstate_exit1 t b c th : tpc th = T_Exit 1 -> tstate t b c th.
Proof. intros H. unfold tstate. rewrite H. destruct (data_ready th), (thread_ready th); auto. Qed.

Lemma idle_exit1 t m th : tpc th = T_Exit 1 -> idle t m th.
Proof. intros H. unfold idle. by rewrite H. Qed.

Lemma thread_step_exited t o s th : exited th = true -> IndividualHashThread t o s th = None.
Proof. unfold exited, IndividualHashThread. by destruct (tpc th). Qed.

Lemma thread_step_none t o s th :
  tpc th = T_None \/ tpc th = T_Killed -> IndividualHashThread t o s th = None.
Proof. unfold IndividualHashThread. by intros [-> | ->]. Qed.

Lemma thread_step_phase s o i t th th' pc b c :
  phase pc b c i t th -> IndividualHashThread t o s th = Some th' ->
  (forall x, c = Some x -> stored s (proc_bufnum s) x) ->
  length (buffers s !!! proc_bufnum s) = BUFFER_SIZE ->
  Z.of_nat (length b) < 2 ^ 64 -> (c = None -> b = []) ->
  phase pc b c i t th'.
Proof.
  intros Hp Hs Hst Hbuf Hlen Hb.
  assert (Ht : tstate t b c th -> tstate t b c th')
    by (intros; by eapply thread_step_tstate).
  assert (Hi : forall m, idle t m th -> tpc th' = T_Exit 1)
    by (intros; by eapply thread_step_idle).
  destruct pc; simpl in *; auto.
  - case_bool_decide; auto. rewrite thread_step_none in Hs by auto. done.
  - by eapply idle_exit1, Hi.
  - case_bool_decide; [auto|]. by eapply idle_exit1, Hi.
  - destruct Hp as [H0 Hp]. split.
    + intros Hr. destruct (H0 Hr) as [_ He]. by rewrite thread_step_exited in Hs.
    + destruct Hp as [Hp|[Hp|[m Hp]]]; [|by auto|].
      * by rewrite thread_step_none in Hs by auto.
      * right; left. eapply tstate_exit1, Hi, Hp.
  - destruct Hp as [_ [Hp|[Hp|Hp]]].
    + by rewrite thread_step_none in Hs by auto.
    + by rewrite thread_step_none in Hs by auto.
    + by rewrite thread_step_exited in Hs.
Qed.

(** ** Steps preserve the invariant *)

Lemma buffer_length s k :
  length (buffers s) = NUM_BUFFERS -> Forall (fun buf => length buf = BUFFER_SIZE) (buffers s) ->
  (k < NUM_BUFFERS)%nat -> length (buffers s !!! k) = BUFFER_SIZE.
Proof.
  intros Hl Hf Hk. rewrite <- Hl in Hk. apply lookup_lt_is_Some in Hk as [x Hx].
  rewrite (list_lookup_total_correct _ _ _ Hx). by eapply Forall_lookup_1 in Hf.
Qed.

Lemma thread_step_valid file i o s s' :
  Z.of_nat (length file) < 2 ^ 64 -> valid file s ->
  hash_step (A_Thread i o) s = Some s' -> valid file s'.
Proof.
  intros Hlen (b & c & n & H) Hs. simpl in Hs.
  destruct (threads s !! i) as [th|] eqn:Hi; [|done]. simpl in Hs.
  destruct (hash_type_of (Z.of_nat i)) as [t|] eqn:Ht; [|done]. simpl in Hs.
  destruct (IndividualHashThread t o s th) as [th'|] eqn:Hth; simplify_eq/=.
  exists b, c, n. destruct H. constructor; simpl; try done.
  - by rewrite length_insert.
  - by rewrite length_insert.
  - intros j t' th'' Hj Ht'. apply list_lookup_insert_Some in Hj as [(<- & <- & _)|[Hne Hj]]; [|eauto].
    assert (t' = t) as -> by congruence. eapply thread_step_phase; eauto.
    + apply buffer_length; tauto.
    + subst file. rewrite length_app in Hlen. lia.
Qed.

Lemma stored_other s k j data x :
  stored s k x -> k ≠ j -> stored (set_buffers (<[j := data]> (buffers s)) s) k x.
Proof.
  intros (H1 & H2 & H3) Hne. unfold stored; simpl. by rewrite list_lookup_total_insert_ne.
Qed.

Lemma Forall_set_buffer (bufs : list (list Z)) k data :
  Forall (fun buf => length buf = BUFFER_SIZE) bufs -> length data = BUFFER_SIZE ->
  Forall (fun buf => length buf = BUFFER_SIZE) (<[k := data]> bufs).
Proof. intros. by apply Forall_insert. Qed.

(** Where the read in flight writes. *)
Lemma pending_apart file s b c n p :
  inv file s b c n -> pending s = Some p -> c ≠ None -> p ≠ proc_bufnum s.
Proof.
  intros [] Hp Hc.
  assert (Hgap : in_flight s -> (ahead 1 s c \/ ahead 2 s c) -> p ≠ proc_bufnum s).
  { unfold in_flight, ahead. rewrite Hp. intros [= ->] Ha. unfold NUM_BUFFERS in *.
    assert (proc_bufnum s = 0 \/ proc_bufnum s = 1 \/ proc_bufnum s = 2)%nat as [E|[E|E]] by lia;
      rewrite E in *; destruct Ha as [Ha|Ha]; rewrite (Ha Hc); done. }
  unfold reader_inv in inv_reader0. destruct (rpc s); naive_solver.
Qed.

(** The chunk waiting to be handed over is not in the buffer being read. *)
Lemma pending_next_apart s p :
  (read_bufnum s < NUM_BUFFERS)%nat -> in_flight s -> pending s = Some p ->
  ((read_bufnum s + 2) mod NUM_BUFFERS)%nat ≠ p.
Proof.
  unfold in_flight, NUM_BUFFERS. intros Hr -> [= <-].
  assert (read_bufnum s = 0 \/ read_bufnum s = 1 \/ read_bufnum s = 2)%nat as [E|[E|E]] by lia;
    by rewrite E.
Qed.

Lemma device_step_valid file data s s' :
  valid file s -> hash_step (A_Device data) s = Some s' -> valid file s'.
Proof.
  intros (b & c & n & H) Hs. simpl in Hs.
  destruct (pending s) as [p|] eqn:Hp; [|done]. simpl in Hs. case_bool_decide as Hd; simplify_eq/=.
  pose proof (pending_apart _ _ _ _ _ p H Hp) as Hap. exists b, c, n.
  destruct H. constructor; simpl; try done.
  - by rewrite length_insert.
  - by apply Forall_set_buffer.
  - intros x Hx. apply (stored_other s _ p); [eauto|naive_solver].
  - pose proof (pending_next_apart s p (proj1 inv_bufnum0)) as Hn.
    unfold reader_inv in *. simpl. destruct (rpc s); try done.
    + (* launch *) naive_solver.
    + destruct inv_reader0 as (Hf & Ha & Hc & (x & -> & Hx) & Hb). split_and!; try done.
      exists x. split; [done|]. apply (stored_other s _ p); eauto.
    + destruct inv_reader0 as (Hf & Ha & Hc & (x & -> & Hx) & Hb). split_and!; try done.
      exists x. split; [done|]. apply (stored_other s _ p); eauto.
Qed.

Lemma phase_out s b c i t th :
  phase (rpc s) b c i t th -> (forall r, rpc s ≠ R_Exited r) -> phase (R_Out (-1)) b c i t th.
Proof.
  intros Hp Hr. simpl. split; [done|].
  destruct (rpc s); simpl in *; eauto 6; try (case_bool_decide; eauto 6; done); naive_solver.
Qed.

(** Every failing call goes to the label [out]. *)
Lemma out_valid file s b c n e :
  inv file s b c n -> (forall r, rpc s ≠ R_Exited r) ->
  valid file (goto (R_Out (-1)) s) /\ valid file (goto (R_Out (-1)) (set_error e s)).
Proof.
  intros H Hr. pose proof (pending_apart file s b c n) as Hap.
  split; exists b, c, n; destruct H; (constructor; simpl; try done);
    [|by intros i t th Hi Ht; eapply phase_out; eauto| |by intros i t th Hi Ht; eapply phase_out; eauto];
    (split; [|done]); intros p Hp; simpl in Hp.
  all: split; [|intros Hc; eapply Hap; [constructor|..]; eauto].
  all: unfold reader_inv, in_flight in inv_reader0; destruct (rpc s); naive_solver.
Qed.

Lemma lookup_alter_thread (f : hash_thread -> hash_thread) (j i : nat) (ths : list hash_thread) th :
  alter f j ths !! i = Some th ->
  (i = j /\ exists th0, ths !! i = Some th0 /\ th = f th0) \/ (i ≠ j /\ ths !! i = Some th).
Proof.
  intros H. destruct (decide (i = j)) as [->|Hne].
  - rewrite list_lookup_alter_eq in H. apply fmap_Some in H as (th0 & H1 & H2). left. eauto.
  - rewrite list_lookup_alter_ne in H by done. auto.
Qed.

Lemma create_valid file s s' i b c n :
  inv file s b c n -> rpc s = R_Create i -> HashThread O_Ok s = Some s' -> valid file s'.
Proof.
  intros [] Hpc Hs. unfold HashThread in Hs. rewrite Hpc in Hs. cbn zeta in Hs. injection Hs as <-.
  unfold reader_inv in inv_reader0. rewrite Hpc in *. destruct inv_reader0 as (-> & -> & Hp).
  rewrite inv_first0 in * by done.
  assert (Hall : forall j t th, alter create_thread i (threads s) !! j = Some th ->
            hash_type_of (Z.of_nat j) = Some t -> phase (R_Create (S i)) [] None j t th).
  { intros j t th Hj Ht. apply lookup_alter_thread in Hj as [(-> & th0 & Hj & ->)|[Hne Hj]]; simpl.
    - by rewrite bool_decide_true by lia.
    - specialize (inv_phase0 _ _ _ Hj Ht). simpl in inv_phase0.
      do 2 case_bool_decide; try done; lia. }
  exists [], None, None. constructor; simpl; try done.
  - by rewrite length_alter.
  - rewrite length_alter. by case_bool_decide.
  - by case_bool_decide.
  - intros j t th Hj Ht. specialize (Hall _ _ _ Hj Ht). case_bool_decide as Hlt; [done|].
    simpl in *. apply lookup_lt_Some in Hj. rewrite length_alter in Hj.
    by rewrite bool_decide_true in Hall by lia.
Qed.

Lemma open_valid file s s' b c n :
  inv file s b c n -> rpc s = R_Open -> HashThread O_Ok s = Some s' -> valid file s'.
Proof.
  intros [] Hpc Hs. unfold HashThread in Hs. rewrite Hpc in Hs. cbn zeta in Hs. injection Hs as <-.
  unfold reader_inv in inv_reader0. rewrite Hpc in *. destruct inv_reader0 as (-> & -> & Hp).
  rewrite inv_first0 in * by done.
  exists [], None, None. constructor; simpl; try done.
  - by rewrite length_insert.
  - unfold NUM_BUFFERS. lia.
  - unfold reader_inv; simpl. unfold in_flight, ahead. simpl. split_and!; try done.
    intros _. rewrite list_lookup_total_insert_eq; [done|]. rewrite inv_sizes0. unfold NUM_BUFFERS. lia.
Qed.

Lemma test_valid file s s' b c n :
  inv file s b c n -> rpc s = R_Test -> HashThread O_Ok s = Some s' -> valid file s'.
Proof.
  intros [] Hpc Hs. unfold HashThread in Hs. rewrite Hpc in Hs. cbn zeta in Hs. injection Hs as <-.
  unfold reader_inv in inv_reader0. rewrite Hpc in *.
  destruct inv_reader0 as (-> & Hf & Ha & H1 & Hb & _).
  exists b, c, None. case_bool_decide as Hz; (constructor; simpl; try done).
  - split_and!; try done. intros ->. destruct (inv_proc0 [] eq_refl) as (_ & E & _). by rewrite E in Hz.
  - split_and!; try done. intros _. destruct c as [x|]; [|by rewrite H1 in Hz].
    destruct (inv_proc0 x eq_refl) as (_ & E & _). rewrite E in Hz.
    destruct x; [done|]. by simpl in Hz.
Qed.

Lemma lookup_total_alter (f : list Z -> list Z) (k : nat) (l : list (list Z)) :
  (k < length l)%nat -> alter f k l !!! k = f (l !!! k).
Proof.
  intros Hk. apply lookup_lt_is_Some in Hk as [x Hx]. apply list_lookup_total_correct.
  rewrite list_lookup_alter_eq, Hx. simpl. by rewrite (list_lookup_total_correct _ _ _ Hx).
Qed.

Lemma alter_lookup_total (f : list Z -> list Z) (k : nat) (l : list (list Z)) :
  alter f k l = <[k := f (l !!! k)]> l.
Proof.
  apply list_eq. intros i. destruct (decide (i = k)) as [->|Hne].
  - rewrite list_lookup_alter_eq. destruct (l !! k) as [x|] eqn:Hx.
    + rewrite list_lookup_insert_eq by (by eapply lookup_lt_Some).
      by rewrite (list_lookup_total_correct _ _ _ Hx).
    + simpl. symmetry. apply lookup_ge_None. rewrite length_insert. by apply lookup_ge_None.
  - by rewrite list_lookup_alter_ne, list_lookup_insert_ne by done.
Qed.

Lemma read_valid file s s' k b c n :
  inv file s b c n -> rpc s = R_WaitRead -> HashThread (O_Read k) s = Some s' -> valid file s'.
Proof.
  intros [] Hpc Hs. unfold HashThread in Hs. rewrite Hpc in Hs. cbn zeta in Hs.
  unfold reader_inv in inv_reader0. rewrite Hpc in *.
  destruct inv_reader0 as (-> & Hf & Ha & Hc & Hb). unfold in_flight in Hf. rewrite Hf in Hs.
  cbn [mbind option_bind] in Hs. case_bool_decide as Hk; [|done]. destruct Hk as (Hk & Hk' & Hk0).
  injection Hs as <-.
  assert (Hlen : length (take k (unread s)) = k) by (rewrite length_take; lia).
  assert (Hbuf : length (buffers s !!! read_bufnum s) = BUFFER_SIZE) by (apply buffer_length; tauto).
  assert (Hother : forall x, c = Some x -> read_bufnum s ≠ proc_bufnum s).
  { intros x ->. unfold ahead, NUM_BUFFERS in *. rewrite Ha by done.
    assert (proc_bufnum s = 0 \/ proc_bufnum s = 1 \/ proc_bufnum s = 2)%nat as [E|[E|E]] by lia;
      by rewrite E. }
  exists b, c, (Some (take k (unread s))). rewrite alter_lookup_total.
  constructor; simpl; try done.
  - by rewrite length_insert.
  - apply Forall_set_buffer; [done|]. rewrite length_splice; [done|]. rewrite Hlen, Hbuf. lia.
  - by rewrite length_insert.
  - by rewrite take_drop.
  - intros [->|Hn]; [done|]. injection Hn as Hn. rewrite Hn in Hlen. simpl in Hlen.
    subst k. by rewrite Hk0.
  - intros x Hx. destruct (inv_proc0 x Hx) as (E1 & E2 & E3). pose proof (Hother x Hx).
    split_and!; simpl; [by rewrite list_lookup_total_insert_ne..|done].
  - unfold reader_inv. simpl. split_and!; try done. eexists. split; [done|].
    unfold stored. simpl. rewrite Hlen. split_and!; [| |done].
    + rewrite list_lookup_total_insert_eq by (rewrite inv_buffers0; tauto).
      rewrite <- Hlen at 1. apply (take_splice 0). lia.
    + apply list_lookup_total_insert_eq. rewrite inv_sizes0. tauto.
Qed.

Lemma next_bufnum r :
  (r < NUM_BUFFERS)%nat ->
  (((r + 1) mod NUM_BUFFERS < NUM_BUFFERS) /\
   ((r + 1) mod NUM_BUFFERS + 2) mod NUM_BUFFERS = r /\
   (r + NUM_BUFFERS - 1) mod NUM_BUFFERS = (r + 2) mod NUM_BUFFERS)%nat.
Proof.
  unfold NUM_BUFFERS. intros Hr. assert (r = 0 \/ r = 1 \/ r = 2)%nat as [E|[E|E]] by lia;
    subst; repeat split; vm_compute; lia.
Qed.

Lemma launch_valid file s s' b c n :
  inv file s b c n -> rpc s = R_Launch -> HashThread O_Ok s = Some s' -> valid file s'.
Proof.
  intros [] Hpc Hs. unfold HashThread in Hs. rewrite Hpc in Hs. cbn zeta in Hs. injection Hs as <-.
  unfold reader_inv in inv_reader0. rewrite Hpc in *.
  destruct inv_reader0 as (Hp & Ha & Hc & (x & -> & Hx) & Hb).
  destruct (next_bufnum (read_bufnum s)) as (N1 & N2 & N3); [tauto|].
  exists b, c, (Some x). constructor; simpl; try done; [tauto|].
  unfold reader_inv, in_flight, ahead; simpl. split_and!; try done.
  - intros Hc'. rewrite (Ha Hc'). unfold NUM_BUFFERS in *.
    rewrite Nat.Div0.add_mod_idemp_l. by rewrite <- Nat.add_assoc.
  - exists x. split; [done|]. by rewrite N2.
Qed.

(** A ready thread whose event is consumed is idle. *)
Lemma reset_idle t b c th :
  tstate t b c th -> thread_ready th = true -> c ≠ Some [] -> idle t (b ++ bytes c) (reset_ready th).
Proof.
  unfold tstate, idle. intros Ht Hr Hc. simpl. rewrite Hr in Ht.
  destruct (tpc th), (data_ready th); naive_solver.
Qed.

Lemma wait_valid file s s' b c n :
  inv file s b c n -> rpc s = R_WaitThreads -> HashThread O_Ok s = Some s' -> valid file s'.
Proof.
  intros [] Hpc Hs. unfold HashThread in Hs. rewrite Hpc in Hs. cbn zeta in Hs.
  destruct (all_ready (threads s)) eqn:Hall; [|done]. injection Hs as <-.
  unfold reader_inv in inv_reader0. rewrite Hpc in *.
  destruct inv_reader0 as (Hp & Ha & Hc & Hx & Hb).
  exists b, c, n. constructor; simpl; try done.
  - by rewrite length_fmap.
  - intros i t th Hi Ht. rewrite list_lookup_fmap in Hi. apply fmap_Some in Hi as (th0 & Hi & ->).
    apply reset_idle; [exact (inv_phase0 _ _ _ Hi Ht)| |done]. unfold all_ready in Hall. rewrite forallb_forall in Hall.
    apply Hall, list_elem_of_In. by eapply list_elem_of_lookup_2.
Qed.

Lemma setproc_valid file s s' b c n :
  inv file s b c n -> rpc s = R_SetProc -> HashThread O_Ok s = Some s' -> valid file s'.
Proof.
  intros [] Hpc Hs. unfold HashThread in Hs. rewrite Hpc in Hs. cbn zeta in Hs. injection Hs as <-.
  unfold reader_inv in inv_reader0. rewrite Hpc in *.
  destruct inv_reader0 as (Hp & Ha & Hc & (x & -> & Hx) & Hb).
  destruct (next_bufnum (read_bufnum s)) as (N1 & N2 & N3); [tauto|].
  assert (((read_bufnum s + 2) mod NUM_BUFFERS < NUM_BUFFERS)%nat) by (by apply Nat.mod_upper_bound).
  exists (b ++ bytes c), (Some x), None. rewrite N3. constructor; simpl; try done.
  - lia.
  - lia.
  - by rewrite <- app_assoc.
  - naive_solver.
  - by intros y [= <-].
  - unfold reader_inv, in_flight, ahead; simpl. split_and!; try done.
    intros _. rewrite Nat.Div0.add_mod_idemp_l. unfold NUM_BUFFERS in *.
    replace (read_bufnum s + 2 + 1)%nat with (read_bufnum s + 1 * 3)%nat by lia.
    rewrite Nat.Div0.mod_add, Nat.mod_small by tauto. done.
Qed.

Lemma signal_tstate t b x th : idle t b th -> tstate t b (Some x) (set_data th).
Proof.
  unfold idle, tstate. intros Hi. simpl. destruct (tpc th); try done.
  - by destruct Hi as (_ & -> & Hi).
  - destruct (thread_ready th); auto.
Qed.

Lemma signal_phase i s b c n file t th j :
  inv file s b c n -> rpc s = R_Signal i -> alter set_data i (threads s) !! j = Some th ->
  hash_type_of (Z.of_nat j) = Some t -> c ≠ None -> phase (R_Signal (S i)) b c j t th.
Proof.
  intros [] Hpc Hj Ht Hc. rewrite Hpc in *. simpl.
  apply lookup_alter_thread in Hj as [(-> & th0 & Hj & ->)|[Hne Hj]].
  - rewrite bool_decide_true by lia. specialize (inv_phase0 _ _ _ Hj Ht). simpl in inv_phase0.
    rewrite bool_decide_false in inv_phase0 by lia. destruct c as [x|]; [|done].
    by apply signal_tstate.
  - specialize (inv_phase0 _ _ _ Hj Ht). simpl in inv_phase0.
    do 2 case_bool_decide; try done; lia.
Qed.

Lemma signal_valid file s s' i b c n :
  inv file s b c n -> rpc s = R_Signal i -> HashThread O_Ok s = Some s' -> valid file s'.
Proof.
  intros H Hpc Hs. pose proof (fun t th j => signal_phase i s b c n file t th j H Hpc) as Hall.
  destruct H. unfold HashThread in Hs. rewrite Hpc in Hs. cbn zeta in Hs.
  unfold reader_inv in inv_reader0. rewrite Hpc in *.
  destruct inv_reader0 as (-> & Hf & Ha & Hc & Hb).
  destruct c as [x|] eqn:Ec; [|done].
  exists b, (Some x), None.
  case_bool_decide as Hlt; injection Hs as <-; (constructor; simpl; try done).
  - by rewrite length_alter.
  - by rewrite length_alter.
  - intros j t th Hj Ht. by apply (Hall t th j Hj Ht).
  - by rewrite length_alter.
  - unfold reader_inv, in_flight, ahead; simpl. split_and!; try done.
    destruct (inv_proc0 x eq_refl) as (_ & -> & _). rewrite Hb, uwrap_add_l, length_app. f_equal. lia.
  - intros j t th Hj Ht. specialize (Hall t th j Hj Ht ltac:(done)). simpl in Hall.
    apply lookup_lt_Some in Hj. rewrite length_alter in Hj. by rewrite bool_decide_true in Hall by lia.
Qed.

Lemma join_valid file s s' b c n :
  inv file s b c n -> rpc s = R_Join -> HashThread O_Ok s = Some s' -> valid file s'.
Proof.
  intros H Hpc Hs. pose proof (pending_apart _ _ _ _ _ (read_bufnum s) H) as Hap. destruct H.
  unfold HashThread in Hs. rewrite Hpc in Hs. cbn zeta in Hs.
  destruct (forallb exited (threads s)) eqn:Hall; [|done]. injection Hs as <-.
  unfold reader_inv in inv_reader0. rewrite Hpc in *.
  destruct inv_reader0 as (-> & Hf & Ha & H1 & Hb & Hc). specialize (Hc eq_refl). subst c.
  exists b, (Some []), None. constructor; simpl; try done.
  - unfold reader_inv; simpl. split; [|done]. intros p Hp. split.
    + unfold in_flight in Hf. assert (p = read_bufnum s) as -> by congruence. tauto.
    + intros Hc. assert (p = read_bufnum s) as -> by (unfold in_flight in Hf; congruence). auto.
  - intros i t th Hi Ht. pose proof (inv_phase0 _ _ _ Hi Ht) as Hp. simpl in Hp.
    split; [intros _; split; [done|]|auto].
    rewrite forallb_forall in Hall. apply Hall, list_elem_of_In. by eapply list_elem_of_lookup_2.
Qed.

Lemma exit_valid file s s' r b c n :
  inv file s b c n -> rpc s = R_Out r -> HashThread O_Ok s = Some s' -> valid file s'.
Proof.
  intros [] Hpc Hs. unfold HashThread in Hs. rewrite Hpc in Hs. cbn zeta in Hs. injection Hs as <-.
  unfold reader_inv in inv_reader0. rewrite Hpc in *. destruct inv_reader0 as (_ & H0).
  exists b, c, n. constructor; simpl; try done.
  - by rewrite length_fmap.
  - intros i t th Hi Ht. rewrite list_lookup_fmap in Hi. apply fmap_Some in Hi as (th0 & Hi & ->).
    destruct (inv_phase0 _ _ _ Hi Ht) as [Hr _]. split.
    + intros E. destruct (Hr E) as [Hts He]. unfold exited, terminate in *.
      destruct (tpc th0) eqn:Ep; try done. by rewrite Ep.
    + unfold terminate, exited. destruct (tpc th0) eqn:Ep; simpl; try rewrite Ep; auto.
Qed.

Lemma reader_step_valid file o s s' :
  valid file s -> hash_step (A_Reader o) s = Some s' -> valid file s'.
Proof.
  intros (b & c & n & H) Hs. simpl in Hs.
  assert (Hout : (forall r, rpc s ≠ R_Exited r) ->
            valid file (goto (R_Out (-1)) s) /\ (forall e, valid file (goto (R_Out (-1)) (set_error e s)))).
  { intros Hr. split; [exact (proj1 (out_valid file s b c n HE_Read H Hr))|].
    intros e. exact (proj2 (out_valid file s b c n e H Hr)). }
  destruct (rpc s) eqn:Hpc, o; try (unfold HashThread in Hs; rewrite Hpc in Hs; done);
    try (unfold HashThread in Hs; rewrite Hpc in Hs; cbn zeta in Hs;
         first [injection Hs as <-|case_bool_decide; [|done]; injection Hs as <-]; by apply Hout).
  - by eapply create_valid.
  - by eapply open_valid.
  - by eapply test_valid.
  - by eapply read_valid.
  - by eapply launch_valid.
  - by eapply wait_valid.
  - by eapply setproc_valid.
  - by eapply signal_valid.
  - by eapply join_valid.
  - by eapply exit_valid.
Qed.

Lemma hash_step_valid file a s s' :
  Z.of_nat (length file) < 2 ^ 64 -> valid file s -> hash_step a s = Some s' -> valid file s'.
Proof.
  destruct a; [intros _; apply reader_step_valid|apply thread_step_valid|intros _; apply device_step_valid].
Qed.

Lemma hash_run_valid file acts s s' :
  Z.of_nat (length file) < 2 ^ 64 -> valid file s -> hash_run acts s = Some s' -> valid file s'.
Proof.
  intros Hl. revert s. induction acts as [|a acts IH]; intros s Hs Hr; simpl in Hr.
  - by simplify_eq.
  - destruct (hash_step a s) as [s1|] eqn:Ha; [|done]. simpl in Hr. eauto using hash_step_valid.
Qed.

(** The globals [hash_str], [buffer] and [read_size] have their declared sizes. *)
Definition globals_ok (strs bufs : list (list Z)) (sizes : list Z) : Prop :=
  (0 < length strs <= 4)%nat /\ length bufs = NUM_BUFFERS /\ length sizes = NUM_BUFFERS /\
  Forall (fun buf => length buf = BUFFER_SIZE) bufs.

Lemma hash_start_valid file strs bufs sizes :
  globals_ok strs bufs sizes -> valid file (hash_start strs bufs sizes file).
Proof.
  intros (H1 & H2 & H3 & H4). exists [], None, None. constructor; simpl; try done.
  - unfold NUM_BUFFERS. lia.
  - by rewrite length_fmap.
  - rewrite length_fmap. lia.
  - naive_solver.
  - intros i t th Hi Ht. rewrite list_lookup_fmap in Hi. by apply fmap_Some in Hi as (str & _ & ->).
Qed.

(** ** Consequences of the invariant *)

Lemma hash_type_index i : (i < 4)%nat -> exists t, hash_type_of (Z.of_nat i) = Some t.
Proof. intros. do 4 (destruct i as [|i]; [by eexists|]). lia. Qed.

Lemma inv_thread file s b c n i th :
  inv file s b c n -> threads s !! i = Some th ->
  exists t, hash_type_of (Z.of_nat i) = Some t /\ phase (rpc s) b c i t th.
Proof.
  intros [] Hi. destruct (hash_type_index i) as [t Ht]; [|eauto].
  apply lookup_lt_Some in Hi. lia.
Qed.

(** The thread is using, or is about to use, the buffer [proc_bufnum]. *)
Definition busy (th : hash_thread) : bool :=
  match tpc th with T_Test | T_Write | T_Final => true | T_Wait => data_ready th | _ => false end.

Lemma tstate_busy t b c th : tstate t b c th -> busy th = true -> c ≠ None.
Proof.
  unfold tstate, busy. destruct (tpc th), (data_ready th), (thread_ready th); naive_solver.
Qed.

Lemma tstate_no_fault t b c th : tstate t b c th -> tpc th ≠ T_Fault.
Proof. unfold tstate. intros H E. by rewrite E in H. Qed.

Lemma idle_busy t m th : idle t m th -> busy th = false /\ tpc th ≠ T_Fault.
Proof. unfold idle, busy. destruct (tpc th); naive_solver. Qed.

Lemma phase_busy pc b c i t th :
  phase pc b c i t th -> tpc th ≠ T_Fault /\ (busy th = true -> c ≠ None).
Proof.
  intros Hp.
  assert (Hn : tpc th = T_None \/ tpc th = T_Killed \/ exited th = true ->
    tpc th ≠ T_Fault /\ (busy th = true -> c ≠ None)).
  { unfold busy, exited. destruct (tpc th); naive_solver. }
  assert (Ht : tstate t b c th -> tpc th ≠ T_Fault /\ (busy th = true -> c ≠ None))
    by eauto using tstate_busy, tstate_no_fault.
  assert (Hi : forall m, idle t m th -> tpc th ≠ T_Fault /\ (busy th = true -> c ≠ None)).
  { intros m Hm. destruct (idle_busy _ _ _ Hm). split; [done|congruence]. }
  destruct pc; simpl in Hp; eauto; try (case_bool_decide; eauto; done); naive_solver.
Qed.

Lemma inv_exit file s b c n :
  inv file s b c n -> rpc s = R_Exited 0 ->
  file = b /\ processed_bytes s = u64 (Z.of_nat (length file)).
Proof.
  intros [] Hpc. unfold reader_inv in inv_reader0. rewrite Hpc in *.
  destruct inv_reader0 as (_ & H0). destruct (H0 eq_refl) as (-> & -> & Hp).
  rewrite inv_eof0 in inv_file0 by auto. simpl in *. rewrite !app_nil_r in *. by subst.
Qed.

(** ** Termination measure *)

Definition thread_work (th : hash_thread) : nat :=
  match tpc th with
  | T_Init => 2 | T_SetReady => 1 | T_Wait => if data_ready th then 4 else 0
  | T_Test => 3 | T_Write | T_Final => 2 | _ => 0
  end.

(** The size of the last chunk read. *)
Definition last_size (s : hash_state) : Z :=
  match rpc s with
  | R_Create _ | R_Open | R_WaitRead => 1
  | R_Launch => read_size s !!! read_bufnum s
  | R_WaitThreads | R_SetProc => read_size s !!! ((read_bufnum s + 2) mod NUM_BUFFERS)%nat
  | _ => read_size s !!! proc_bufnum s
  end.

(** Iterations left: one for each byte, and one for the end of the file. *)
Definition rounds_left (s : hash_state) : nat :=
  if bool_decide (last_size s = 0) then 0%nat else S (length (unread s)).

Definition reader_work (k : nat) (pc : reader_pc) : nat :=
  match pc with
  | R_Create i => 3 * (k - i) + 4
  | R_Open => 4
  | R_Launch => 5 * k + 6
  | R_WaitThreads => 5 * k + 5
  | R_SetProc => 5 * k + 4
  | R_Signal i => 5 * (k - i) + 3
  | R_Test => 3 | R_Join => 2 | R_WaitRead | R_Out _ => 1 | R_Exited _ => 0
  end.

Definition measure (s : hash_state) : nat :=
  let k := length (threads s) in
  (5 * k + 6) * rounds_left s + reader_work k (rpc s) + sum_list_with thread_work (threads s).

Lemma work_insert i (ths : list hash_thread) th th' :
  ths !! i = Some th ->
  (sum_list_with thread_work (<[i := th']> ths) + thread_work th
   = sum_list_with thread_work ths + thread_work th')%nat.
Proof.
  revert i. induction ths as [|x ths IH]; intros [|i] Hi; simplify_eq/=; [lia|].
  specialize (IH i Hi). lia.
Qed.

Lemma work_alter f i (ths : list hash_thread) th :
  ths !! i = Some th ->
  (sum_list_with thread_work (alter f i ths) + thread_work th
   = sum_list_with thread_work ths + thread_work (f th))%nat.
Proof.
  revert i. induction ths as [|x ths IH]; intros [|i] Hi; simplify_eq/=; [lia|].
  specialize (IH i Hi). lia.
Qed.

Lemma work_fmap_le f (ths : list hash_thread) :
  (forall th, thread_work (f th) <= thread_work th)%nat ->
  (sum_list_with thread_work (f <$> ths) <= sum_list_with thread_work ths)%nat.
Proof.
  intros Hf. induction ths as [|x ths IH]; [done|]. rewrite fmap_cons. simpl. specialize (Hf x). lia.
Qed.

(** Actions in which no system call fails and the user does not cancel. *)
Definition fault_free (a : action) : bool :=
  match a with
  | A_Reader O_Ok | A_Reader (O_Read _) | A_Thread _ O_Ok | A_Device _ => true
  | _ => false
  end.

(** Steps of the program, as opposed to the device's. *)
Definition program_step (a : action) : bool := match a with A_Device _ => false | _ => true end.

Lemma thread_work_step t s th th' pc b c i :
  phase pc b c i t th -> IndividualHashThread t O_Ok s th = Some th' ->
  (thread_work th' < thread_work th)%nat /\ (tpc th ≠ T_Exit 1 -> tpc th' ≠ T_Exit 1).
Proof.
  intros Hp Hs.
  assert (Hd : tpc th = T_SetReady -> data_ready th = false).
  { intros E. assert (Ht : tstate t b c th -> data_ready th = false)
      by (unfold tstate; rewrite E; destruct (data_ready th), (thread_ready th); naive_solver).
    assert (Hi : forall m, ~ idle t m th) by (intros m; unfold idle; rewrite E; tauto).
    destruct pc; simpl in Hp; auto.
    - case_bool_decide; [auto|congruence].
    - by destruct (Hi _ Hp).
    - case_bool_decide; [auto|]. by destruct (Hi _ Hp).
    - destruct Hp as [_ [?|[?|[m Hm]]]]; [congruence|auto|]. by destruct (Hi m).
    - unfold exited in Hp. rewrite E in Hp. naive_solver. }
  unfold IndividualHashThread, thread_work in *. destruct th as [pc' ctx str dr tr]; simpl in *.
  destruct pc'; simplify_eq/=; try (split; [lia|done]).
  - rewrite Hd by done. split; [lia|done].
  - destruct dr; simplify_eq/=. split; [lia|done].
  - case_bool_decide; simpl; (split; [lia|done]).
  - destruct (hash_write _ _ _ _); simpl; (split; [lia|done]).
  - destruct (hash_final _ _); simpl; (split; [lia|done]).
Qed.

(** No call has failed so far. *)
Definition clean (s : hash_state) : Prop :=
  (forall i th, threads s !! i = Some th -> tpc th ≠ T_Exit 1) /\
  (forall r, rpc s = R_Out r \/ rpc s = R_Exited r -> r = 0).

Lemma clean_alter f i (ths : list hash_thread) :
  (forall th, tpc th ≠ T_Exit 1 -> tpc (f th) ≠ T_Exit 1) ->
  (forall j th, ths !! j = Some th -> tpc th ≠ T_Exit 1) ->
  forall j th, alter f i ths !! j = Some th -> tpc th ≠ T_Exit 1.
Proof.
  intros Hf Hths j th Hj. apply lookup_alter_thread in Hj as [(-> & th0 & Hj & ->)|[_ Hj]]; eauto.
Qed.

Lemma clean_fmap f (ths : list hash_thread) :
  (forall th, tpc th ≠ T_Exit 1 -> tpc (f th) ≠ T_Exit 1) ->
  (forall j th, ths !! j = Some th -> tpc th ≠ T_Exit 1) ->
  forall j th, (f <$> ths) !! j = Some th -> tpc th ≠ T_Exit 1.
Proof.
  intros Hf Hths j th Hj. rewrite list_lookup_fmap in Hj. apply fmap_Some in Hj as (th0 & Hj & ->); eauto.
Qed.

Lemma terminate_clean th : tpc th ≠ T_Exit 1 -> tpc (terminate th) ≠ T_Exit 1.
Proof. unfold terminate. by destruct (tpc th) eqn:E; simpl; try rewrite E. Qed.

Lemma terminate_work th : (thread_work (terminate th) <= thread_work th)%nat.
Proof.
  unfold thread_work, terminate. destruct (tpc th) eqn:E; simpl; try rewrite E; simpl; lia.
Qed.

Lemma clean_step file a s s' :
  valid file s -> clean s -> fault_free a = true -> hash_step a s = Some s' -> clean s'.
Proof.
  intros (b & c & n & H) [Hc Hr] Hf Hs. destruct a as [o|i o|data]; simpl in Hs.
  - unfold HashThread in Hs.
    destruct (rpc s) eqn:Hpc, o; simplify_eq/=; try (split; [done|naive_solver]).
    + split; simpl; [by apply clean_alter|by case_bool_decide; intros ? [?|?]].
    + split; simpl; [done|by case_bool_decide; intros ? [?|?]].
    + destruct (pending s); simplify_eq/=. case_bool_decide; simplify_eq. by split; [|intros ? [?|?]].
    + destruct (all_ready (threads s)); simplify_eq. split; simpl; [by apply clean_fmap|by intros ? [?|?]].
    + case_bool_decide; simplify_eq; (split; simpl; [by apply clean_alter|by intros ? [?|?]]).
    + destruct (forallb exited (threads s)); simplify_eq. split; simpl; [done|]. by intros ? [[= <-]|?].
    + split; simpl; [apply clean_fmap; [apply terminate_clean|done]|]. intros ? [?|[= <-]]; [done|eauto].
  - destruct o; try done.
    destruct (threads s !! i) as [th|] eqn:Hi; [|done]. simpl in Hs.
    destruct (hash_type_of (Z.of_nat i)) as [t|] eqn:Ht; [|done]. simpl in Hs.
    destruct (IndividualHashThread t O_Ok s th) as [th'|] eqn:Hth; simplify_eq/=.
    split; [|done]. simpl. intros j th'' Hj. apply list_lookup_insert_Some in Hj as [(<- & <- & _)|[_ Hj]]; [|eauto].
    destruct H. exact (proj2 (thread_work_step _ _ _ _ _ _ _ _ (inv_phase0 _ _ _ Hi Ht) Hth) (Hc _ _ Hi)).
  - destruct (pending s); simplify_eq/=. case_bool_decide; simplify_eq. done.
Qed.

Lemma rounds_same s s' :
  last_size s' = last_size s -> unread s' = unread s -> rounds_left s' = rounds_left s.
Proof. unfold rounds_left. by intros -> ->. Qed.

(** The test that ends the loop takes no round. *)
Lemma test_rounds s : rpc s = R_Test ->
  rounds_left (goto (if bool_decide (read_size s !!! proc_bufnum s ≠ 0) then R_WaitRead else R_Join) s) = rounds_left s.
Proof.
  intros Hpc. unfold rounds_left, last_size. simpl. rewrite Hpc.
  destruct (bool_decide (read_size s !!! proc_bufnum s ≠ 0)) eqn:Hz; simpl; [|done].
  apply bool_decide_eq_true in Hz. by rewrite (bool_decide_eq_false_2 _ Hz).
Qed.

Lemma signal_work i (ths : list hash_thread) : is_Some (ths !! i) ->
  (sum_list_with thread_work (alter set_data i ths) <= sum_list_with thread_work ths + 4)%nat.
Proof.
  intros [th Hth]. pose proof (work_alter set_data i _ _ Hth) as Hw.
  assert (thread_work (set_data th) <= 4)%nat by (unfold thread_work, set_data; simpl; destruct (tpc th); lia). lia.
Qed.

Lemma reader_measure file o s s' :
  valid file s -> fault_free (A_Reader o) = true -> HashThread o s = Some s' ->
  (measure s' < measure s)%nat.
Proof.
  intros (b & c & n & []) Hf Hs. unfold HashThread in Hs.
  destruct (rpc s) eqn:Hpc, o as [| | |k]; simplify_eq/=.
  - (* create *)
    apply lookup_lt_is_Some in inv_pc0 as [th Hth]. pose proof (lookup_lt_Some _ _ _ Hth) as Hlt.
    pose proof (work_alter create_thread i _ _ Hth) as Hw.
    replace (thread_work (create_thread th)) with 2%nat in Hw by done.
    unfold measure. simpl. rewrite Hpc, length_alter.
    rewrite (rounds_same s);
      [|unfold last_size; simpl; rewrite Hpc; by case_bool_decide|done].
    case_bool_decide; simpl; lia.
  - (* open *) unfold measure. simpl. rewrite Hpc. unfold rounds_left, last_size. simpl. rewrite Hpc.
    rewrite list_lookup_total_insert_eq by (rewrite inv_sizes0; unfold NUM_BUFFERS; lia). simpl. lia.
  - (* test *) unfold measure. simpl. rewrite Hpc.
    rewrite (test_rounds s Hpc). case_bool_decide; simpl; lia.
  - (* read *) unfold reader_inv in inv_reader0. rewrite Hpc in *.
    destruct inv_reader0 as (-> & Hfl & Ha & Hc & Hb). rewrite Hfl in Hs.
    cbn [mbind option_bind] in Hs. case_bool_decide as Hk; [|done]. destruct Hk as (Hk & Hk' & Hk0).
    injection Hs as <-. unfold measure, rounds_left, last_size. simpl. rewrite Hpc. simpl.
    rewrite list_lookup_total_insert_eq by (rewrite inv_sizes0; tauto). rewrite length_drop.
    destruct k as [|k].
    + rewrite Hk0 by done. simpl. lia.
    + rewrite bool_decide_false by lia. nia.
  - (* launch *) destruct (next_bufnum (read_bufnum s)) as (N1 & N2 & N3); [tauto|].
    unfold measure. simpl. rewrite Hpc, (rounds_same s); [simpl; lia| |done].
    unfold last_size. simpl. by rewrite Hpc, N2.
  - (* wait *) destruct (all_ready (threads s)); simplify_eq. unfold measure. simpl. rewrite Hpc, length_fmap.
    pose proof (work_fmap_le reset_ready (threads s) ltac:(intros th; by destruct th)).
    rewrite (rounds_same s); [simpl; lia| |done]. unfold last_size. simpl. by rewrite Hpc.
  - (* setproc *) destruct (next_bufnum (read_bufnum s)) as (N1 & N2 & N3); [tauto|].
    unfold measure. simpl. rewrite Hpc, (rounds_same s); [simpl; lia| |done].
    unfold last_size. simpl. by rewrite Hpc, N3.
  - (* signal *) pose proof (signal_work i (threads s) (lookup_lt_is_Some_2 _ _ inv_pc0)) as Hw.
    case_bool_decide; simplify_eq; unfold measure; simpl; rewrite Hpc, length_alter,
      (rounds_same s); simpl; try lia; try done; unfold last_size; simpl; by rewrite Hpc.
  - (* join *) destruct (forallb exited (threads s)); simplify_eq. unfold measure. simpl.
    rewrite Hpc, (rounds_same s); [simpl; lia| |done]. unfold last_size. simpl. by rewrite Hpc.
  - (* out *) unfold measure. simpl. rewrite Hpc, length_fmap.
    pose proof (work_fmap_le terminate (threads s) terminate_work).
    rewrite (rounds_same s); [simpl; lia| |done]. unfold last_size. simpl. by rewrite Hpc.
Qed.

Lemma hash_step_measure file a s s' :
  valid file s -> fault_free a = true -> hash_step a s = Some s' ->
  (measure s' + (if program_step a then 1 else 0) <= measure s)%nat.
Proof.
  intros Hv Hf Hs. destruct a as [o|i o|data]; simpl in *.
  - pose proof (reader_measure file o s s' Hv Hf Hs). lia.
  - destruct Hv as (b & c & n & []). destruct o; try done.
    destruct (threads s !! i) as [th|] eqn:Hi; [|done]. simpl in Hs.
    destruct (hash_type_of (Z.of_nat i)) as [t|] eqn:Ht; [|done]. simpl in Hs.
    destruct (IndividualHashThread t O_Ok s th) as [th'|] eqn:Hth; simplify_eq/=.
    pose proof (proj1 (thread_work_step _ _ _ _ _ _ _ _ (inv_phase0 _ _ _ Hi Ht) Hth)).
    pose proof (work_insert i _ _ th' Hi). unfold measure. simpl.
    rewrite length_insert, (rounds_same s) by done. lia.
  - destruct (pending s); simplify_eq/=. case_bool_decide; simplify_eq.
    unfold measure. simpl. rewrite (rounds_same s) by done. lia.
Qed.

(** ** Progress *)

Lemma tstate_enabled t b c s th :
  tstate t b c th -> exited th = false -> (tpc th = T_Wait -> data_ready th = true) ->
  exists th', IndividualHashThread t O_Ok s th = Some th'.
Proof.
  unfold tstate, exited, IndividualHashThread. intros Ht He Hw.
  destruct (tpc th); try done; eauto. rewrite Hw by done. eauto.
Qed.

(** A thread that keeps the reader waiting can run. *)
Lemma waited_enabled file s b c n i th :
  inv file s b c n -> clean s -> threads s !! i = Some th ->
  (rpc s = R_WaitThreads /\ thread_ready th = false \/ rpc s = R_Join /\ exited th = false) ->
  exists s', hash_step (A_Thread i O_Ok) s = Some s'.
Proof.
  intros H [Hc _] Hi Hw. destruct (inv_thread _ _ _ _ _ _ _ H Hi) as (t & Ht & Hp).
  specialize (Hc _ _ Hi). destruct H. unfold reader_inv in inv_reader0.
  assert (Hts : tstate t b c th) by (by destruct Hw as [[E _]|[E _]]; rewrite E in Hp).
  assert (He : exited th = false).
  { destruct Hw as [[E Hr]|[_ ?]]; [|done]. rewrite E in inv_reader0.
    unfold exited, tstate in *. destruct (tpc th); naive_solver. }
  destruct (tstate_enabled t b c s th Hts He) as [th' Hth'].
  { intros E. unfold tstate in Hts. rewrite E in Hts.
    destruct Hw as [[E' Hr]|[E' _]]; rewrite E' in *.
    - rewrite Hr in Hts. by destruct (data_ready th).
    - destruct inv_reader0 as (_ & _ & _ & _ & _ & Hj). specialize (Hj eq_refl).
      destruct (data_ready th), (thread_ready th); naive_solver. }
  eexists. simpl. rewrite Hi. simpl. rewrite Ht. simpl. by rewrite Hth'.
Qed.

Lemma forallb_witness (f : hash_thread -> bool) (l : list hash_thread) :
  forallb f l = false -> exists i x, l !! i = Some x /\ f x = false.
Proof.
  induction l as [|x l IH]; simpl; [done|]. destruct (f x) eqn:E; simpl.
  - intros H. destruct (IH H) as (i & y & Hy & Hf). by exists (S i), y.
  - intros _. by exists 0%nat, x.
Qed.

Lemma hash_progress file s :
  valid file s -> clean s -> (exists r, rpc s = R_Exited r) \/
  exists a s', fault_free a = true /\ program_step a = true /\ hash_step a s = Some s'.
Proof.
  intros (b & c & n & H) Hc.
  assert (Hreader : forall o s', fault_free (A_Reader o) = true -> HashThread o s = Some s' ->
    (exists r, rpc s = R_Exited r) \/
    exists a s', fault_free a = true /\ program_step a = true /\ hash_step a s = Some s').
  { intros o s' Hf Hs. right. by exists (A_Reader o), s'. }
  assert (Hthread : forall i s', hash_step (A_Thread i O_Ok) s = Some s' ->
    (exists r, rpc s = R_Exited r) \/
    exists a s', fault_free a = true /\ program_step a = true /\ hash_step a s = Some s').
  { intros i s' Hs. right. by exists (A_Thread i O_Ok), s'. }
  destruct (rpc s) eqn:Hpc; try (eapply (Hreader O_Ok); [done|];
    unfold HashThread; rewrite Hpc; cbn zeta; try reflexivity; fail).
  - (* read *) pose proof (inv_reader _ _ _ _ _ H) as Hr. unfold reader_inv in Hr. rewrite Hpc in Hr.
    destruct Hr as (_ & Hf & _). eapply (Hreader (O_Read (min BUFFER_SIZE (length (unread s))))); [done|].
    unfold HashThread. rewrite Hpc. cbn zeta. rewrite Hf. cbn [mbind option_bind].
    rewrite bool_decide_true; [reflexivity|]. split_and!; [lia..|]. intros E.
    apply nil_length_inv. unfold BUFFER_SIZE in E. lia.
  - (* wait *) destruct (all_ready (threads s)) eqn:Ha.
    + eapply (Hreader O_Ok); [done|]. unfold HashThread. rewrite Hpc. cbn zeta. by rewrite Ha.
    + destruct (forallb_witness _ _ Ha) as (i & th & Hi & Hth).
      destruct (waited_enabled file s b c n i th) as [s' Hs]; eauto.
  - (* signal *) destruct (decide (S i < length (threads s))%nat) as [Hd|Hd];
      (eapply (Hreader O_Ok); [done|]; unfold HashThread; rewrite Hpc; cbn zeta).
    + by rewrite bool_decide_true.
    + by rewrite bool_decide_false.
  - (* join *) destruct (forallb exited (threads s)) eqn:Ha.
    + eapply (Hreader O_Ok); [done|]. unfold HashThread. rewrite Hpc. cbn zeta. by rewrite Ha.
    + destruct (forallb_witness _ _ Ha) as (i & th & Hi & Hth).
      destruct (waited_enabled file s b c n i th) as [s' Hs]; eauto.
  - left. eauto.
Qed.

Lemma hash_run_clean file acts s s' :
  Z.of_nat (length file) < 2 ^ 64 -> valid file s -> clean s ->
  forallb fault_free acts = true -> hash_run acts s = Some s' ->
  clean s' /\ (measure s' + length (filter (fun a => program_step a = true) acts) <= measure s)%nat.
Proof.
  intros Hl. revert s. induction acts as [|a acts IH]; intros s Hv Hc Hf Hr; simpl in Hf, Hr.
  - simplify_eq. split; [done|]. simpl. lia.
  - apply andb_true_iff in Hf as [Hfa Hf]. destruct (hash_step a s) as [s1|] eqn:Ha; [|done].
    simpl in Hr. destruct (IH s1) as [Hc' Hm]; eauto using hash_step_valid, clean_step.
    pose proof (hash_step_measure file a s s1 Hv Hfa Ha). split; [done|].
    rewrite filter_cons. case_decide as Hp; [rewrite Hp in *; simpl; lia|].
    destruct (program_step a); [done|]. lia.
Qed.

Lemma hash_start_clean strs bufs sizes file : clean (hash_start strs bufs sizes file).
Proof.
  split; simpl; [|by intros ? [?|?]]. intros i th Hi. rewrite list_lookup_fmap in Hi.
  by apply fmap_Some in Hi as (str & _ & ->).
Qed.

Lemma hash_start_measure strs bufs sizes file :
  (length strs <= 4)%nat -> (measure (hash_start strs bufs sizes file) <= 26 * length file + 42)%nat.
Proof.
  intros Hl. unfold measure, rounds_left, last_size. simpl. rewrite length_fmap.
  assert (Hz : sum_list_with thread_work (thread0 <$> strs) = 0%nat) by (clear; by induction strs).
  rewrite Hz. nia.
Qed.

Lemma exit_digests file b c n s :
  inv file s b c n -> rpc s = R_Exited 0 ->
  processed_bytes s = u64 (Z.of_nat (length file)) /\
  forall i t th, threads s !! i = Some th -> hash_type_of (Z.of_nat i) = Some t ->
    (tpc th = T_Exit 0 /\ hash_str th = hex_str (digest_of t file)) \/ tpc th = T_Exit 1.
Proof.
  intros H Hpc. destruct (inv_exit _ _ _ _ _ H Hpc) as [-> Hb]. split; [done|].
  intros i t th Hi Ht. destruct H. specialize (inv_phase0 _ _ _ Hi Ht). rewrite Hpc in inv_phase0.
  destruct inv_phase0 as [H0 _]. destruct (H0 eq_refl) as [Hts He].
  unfold tstate, exited in *. destruct (tpc th); try done. naive_solver.
Qed.

(** ** Properties *)


(** C8: In every reachable state no thread has accessed memory out of bounds,
    and no thread that uses the buffer [proc_bufnum], or has been told to,
    can see it change: the read in flight targets another buffer, the reader
    is not about to change [proc_bufnum], and the next [read_size] it stores
    is another buffer's. *)
Theorem hash_thread_no_clobber file strs bufs sizes acts s i th :
  globals_ok strs bufs sizes -> Z.of_nat (length file) < 2 ^ 64 ->
  hash_run acts (hash_start strs bufs sizes file) = Some s -> threads s !! i = Some th ->
  tpc th ≠ T_Fault /\
  (busy th = true ->
     pending s ≠ Some (proc_bufnum s) /\ rpc s ≠ R_SetProc /\
     (rpc s = R_WaitRead -> read_bufnum s ≠ proc_bufnum s)).
Proof.
  intros Hg Hl Hr Hi.
  destruct (hash_run_valid file acts _ s Hl (hash_start_valid file _ _ _ Hg) Hr) as (b & c & n & H).
  destruct (inv_thread _ _ _ _ _ _ _ H Hi) as (t & Ht & Hp).
  destruct (phase_busy _ _ _ _ _ _ Hp) as [Hf Hb]. split; [done|]. intros Hbusy.
  specialize (Hb Hbusy). pose proof (pending_apart _ _ _ _ _ (proc_bufnum s) H) as Hap.
  split_and!; [naive_solver| |].
  - intros E. rewrite E in Hp. simpl in Hp. destruct (idle_busy _ _ _ Hp). congruence.
  - intros E Er. pose proof (inv_reader _ _ _ _ _ H) as Hri. unfold reader_inv in Hri.
    rewrite E in Hri. destruct Hri as (_ & Hfl & _). unfold in_flight in Hfl. rewrite Er in Hfl.
    by apply Hap.
Qed.

(** C31: When no system call fails or times out and the user does not cancel,
    the threads never deadlock and the run is bounded: [HashThread] ends, with
    0, after at most [26 * length file + 42] steps of the program, and every
    hash thread has then returned 0 with the digest of the whole image. *)
Theorem hash_thread_terminates file strs bufs sizes acts s :
  globals_ok strs bufs sizes -> Z.of_nat (length file) < 2 ^ 64 ->
  hash_run acts (hash_start strs bufs sizes file) = Some s -> forallb fault_free acts = true ->
  (length (filter (fun a => program_step a = true) acts) <= 26 * length file + 42)%nat /\
  ((exists a s', fault_free a = true /\ program_step a = true /\ hash_step a s = Some s') \/
   (rpc s = R_Exited 0 /\
    forall i t th, threads s !! i = Some th -> hash_type_of (Z.of_nat i) = Some t ->
      tpc th = T_Exit 0 /\ hash_str th = hex_str (digest_of t file))).
Proof.
  intros Hg Hl Hr Hf. pose proof (hash_start_valid file _ _ _ Hg) as Hv.
  destruct (hash_run_clean file acts _ s Hl Hv (hash_start_clean _ _ _ _) Hf Hr) as [Hc Hm].
  pose proof (hash_start_measure strs bufs sizes file (proj2 (proj1 Hg))).
  pose proof (hash_run_valid file acts _ s Hl Hv Hr) as Hv'. split; [lia|].
  destruct (hash_progress file s Hv' Hc) as [[r Hpc]|]; [right|by left].
  assert (r = 0) as -> by (destruct Hc as [_ H0]; eauto). split; [done|].
  destruct Hv' as (b & c & n & H'). destruct (exit_digests _ _ _ _ _ H' Hpc) as [_ Hd].
  intros i t th Hi Ht. destruct (Hd i t th Hi Ht) as [|E]; [done|]. by destruct (proj1 Hc _ _ Hi).
Qed.

(** A whole run on a three-byte image: the three threads are created, the
    bytes are read and hashed, then the end of the file. *)
Definition rd := A_Reader O_Ok.
Definition each (acts : nat -> list action) : list action := acts 0%nat ++ acts 1%nat ++ acts 2%nat.
Definition th_ok (k i : nat) : list action := replicate k (A_Thread i O_Ok).
Definition demo_before : list action :=
  [rd; rd; rd] ++ each (th_ok 2) ++ [rd; rd; A_Reader (O_Read 3); rd; rd; rd; rd; rd; rd]
  ++ each (th_ok 4) ++ [rd].
Definition demo_run : list action :=
  demo_before ++ [A_Reader (O_Read 0); rd; rd; rd; rd; rd; rd] ++ each (th_ok 3) ++ [rd; rd; rd].

Definition demo_start : hash_state :=
  hash_start (replicate 3 []) (replicate 3 (replicate BUFFER_SIZE 0)) [0; 0; 0] [68; 105; 100].

Lemma demo_globals :
  globals_ok (replicate 3 []) (replicate 3 (replicate BUFFER_SIZE 0)) [0; 0; 0].
Proof.
  split_and!; [simpl; lia|simpl; lia|reflexivity|reflexivity|].
  apply Forall_replicate, length_replicate.
Qed.

Lemma demo_reaches :
  (s ← hash_run demo_run demo_start; Some (rpc s)) = Some (R_Exited 0).
Proof. vm_compute. reflexivity. Qed.


(** Up to the signal that gives the first buffer to the first thread. *)
Definition demo_signal : list action :=
  [rd; rd; rd] ++ each (th_ok 2) ++ [rd; rd; A_Reader (O_Read 3); rd; rd; rd; rd].

Lemma demo_busy :
  (s ← hash_run demo_signal demo_start; th ← threads s !! 0%nat; Some (busy th)) = Some true.
Proof. vm_compute. reflexivity. Qed.

Lemma hash_thread_no_clobber_witness :
  exists s th, hash_run demo_signal demo_start = Some s /\ threads s !! 0%nat = Some th /\ pending s ≠ Some (proc_bufnum s).
Proof.
  pose proof demo_busy as H. destruct (hash_run demo_signal demo_start) as [s|] eqn:E; [|done].
  cbn [mbind option_bind] in H. destruct (threads s !! 0%nat) as [th|] eqn:Ei; [|done].
  exists s, th. split; [reflexivity|split; [exact Ei|]].
  apply (hash_thread_no_clobber [68; 105; 100] _ _ _ demo_signal s 0 th demo_globals eq_refl E Ei).
  by injection H.
Defined.

Lemma hash_thread_terminates_witness :
  (length (filter (fun a => program_step a = true) demo_run) <= 26 * 3 + 42)%nat.
Proof.
  destruct (hash_run demo_run demo_start) as [s|] eqn:E.
  - apply (hash_thread_terminates [68; 105; 100] _ _ _ demo_run s demo_globals eq_refl E).
    vm_compute. reflexivity.
  - pose proof demo_reaches as H. by rewrite E in H.
Defined.

(** A hash thread waits [WAIT_TIME] (5 s) for data while the reader
    allows the device [DRIVE_ACCESS_TIMEOUT] (15 s): a thread that times out
    during the last read has already signalled [thread_ready] and its handle
    is signalled, so [HashThread] exits with 0 and the [hash_str] shown for
    that thread is the one of an earlier image. *)
Theorem hash_thread_stale_digest :
  (s ← hash_run
     (demo_before ++ [A_Thread 0 O_Fail; A_Reader (O_Read 0); rd; rd; rd; rd; rd; rd]
      ++ th_ok 3 1 ++ th_ok 3 2 ++ [rd; rd; rd])
     (hash_start [[111; 108; 100]; []; []] (replicate 3 (replicate BUFFER_SIZE 0)) [0; 0; 0]
        [68; 105; 100]);
   Some (rpc s, hash_str <$> threads s !! 0%nat, forallb exited (threads s)))
  = Some (R_Exited 0, Some [111; 108; 100], true).
Proof. vm_compute. reflexivity. Qed.
