(* ===== verification/Pe.v ===== *)
(** Pe: the PE image digest of src/src/hash.c.

    [efi_image_region_add], [efi_image_parse] and [PE256Buffer]: the parts of
    an EFI executable that Authenticode hashes, as a bounded sorted array of
    regions, and their SHA-256. A pointer into the image is its offset from
    [efi]; every read of the image is checked against its end. *)

From S2P Require Import Prelude HashStream Hash.

(** ** Regions *)

Record image_region := mkRegion { data : Z; size : Z }.

#[export] Instance image_region_inhabited : Inhabited image_region := populate (mkRegion 0 0).

(** [reg] has [max] elements, the first [num] of which are in use. *)
Record efi_image_regions := mkRegions { max : nat; num : nat; reg : list image_region }.

(** The [for] loop of [efi_image_region_add] from index [i], with [n] registered
    regions left: the slot of the new region and whether the ones from there
    on must move, or [None] when the new region overlaps a registered one. *)
Fixpoint region_slot (n i : nat) (reg : list image_region) (start end_ : Z) (nocheck : bool)
    : option (nat * bool) :=
  match n with
  | O => Some (i, false)
  | S n =>
      let r := reg !!! i in
      if nocheck then region_slot n (S i) reg start end_ nocheck
      else if bool_decide (data r + size r <= start) then region_slot n (S i) reg start end_ nocheck
      else if bool_decide (end_ <= data r) then Some (i, true)
      else None
  end.

Definition efi_image_region_add (regs : efi_image_regions) (start end_ : Z) (nocheck : bool)
    : bool * efi_image_regions :=
  if bool_decide (max regs <= num regs)%nat then (false, regs)
  else if bool_decide (end_ < start) then (false, regs)
  else match region_slot (num regs) 0 (reg regs) start end_ nocheck with
    | None => (false, regs)
    | Some (i, shift) =>
        let arr := if shift then shift_up (num regs - i) i (reg regs) else reg regs in
        (true, mkRegions (max regs) (S (num regs)) (<[i := mkRegion start (u32 (end_ - start))]> arr))
    end.

(** The callers that ignore the result. *)
Definition region_add (regs : efi_image_regions) (start end_ : Z) : efi_image_regions :=
  snd (efi_image_region_add regs start end_ false).

(** ** Reading the image *)

(** A little-endian load of [n] bytes at offset [off]. *)
Definition load (n : nat) (efi : list Z) (off : Z) : option Z :=
  if bool_decide (0 <= off /\ off + Z.of_nat n <= Z.of_nat (length efi))
  then Some (le_word (slice (Z.to_nat off) n efi)) else None.

(** Offsets of the fields of the Windows image headers. *)
Definition off_e_lfanew : Z := 0x3c.
Definition off_NumberOfSections : Z := 6.
Definition off_SizeOfOptionalHeader : Z := 20.
Definition off_OptionalHeader : Z := 24.
Definition off_FileAlignment : Z := 36.
Definition off_SizeOfHeaders : Z := 60.
Definition off_CheckSum : Z := 64.
Definition off_Subsystem : Z := 68.
Definition off_NumberOfRvaAndSizes (pe64 : bool) : Z := if pe64 then 108 else 92.
Definition off_DataDirectory (pe64 : bool) : Z := if pe64 then 112 else 96.
Definition sizeof_SECTION_HEADER : Z := 40.
Definition off_VirtualAddress : Z := 12.
Definition off_SizeOfRawData : Z := 16.
Definition off_PointerToRawData : Z := 20.
Definition ctidx : Z := 4.

(** Collecting the header regions: the same code for PE32 and PE32+, but for
    the offsets. Returns the regions, [authsz], [bytes_hashed] and [align]. *)
Definition parse_headers (pe64 : bool) (efi : list Z) (nt : Z) (regs : efi_image_regions)
    : option (efi_image_regions * Z * Z * Z) :=
  let opt := nt + off_OptionalHeader in
  let regs := region_add regs 0 (opt + off_CheckSum) in
  nrva ← load 4 efi (opt + off_NumberOfRvaAndSizes pe64);
  hdrsz ← load 4 efi (opt + off_SizeOfHeaders);
  let dir := opt + off_DataDirectory pe64 + 8 * ctidx in
  '(regs, authsz) ←
    (if bool_decide (nrva <= ctidx) then
       Some (region_add regs (opt + off_Subsystem) hdrsz, 0)
     else
       let regs := region_add regs (opt + off_Subsystem) dir in
       let regs := region_add regs (dir + 8) hdrsz in
       authsz ← load 4 efi (dir + 4);
       Some (regs, authsz));
  align ← load 4 efi (opt + off_FileAlignment);
  Some (regs, authsz, hdrsz, align).

(** [(SizeOfRawData + align - 1) & ~(align - 1)], in 32 bits. *)
Definition align_up (raw align : Z) : Z :=
  Z.land (u32 (raw + align - 1)) (u32 (Z.lnot (u32 (align - 1)))).

(** The loop over the sorted sections; [bytes_hashed] is a [size_t]. *)
Fixpoint parse_sections (efi : list Z) (align : Z) (sorted : list (Z * Z))
    (regs : efi_image_regions) (bytes_hashed : Z) : option (efi_image_regions * Z) :=
  match sorted with
  | [] => Some (regs, bytes_hashed)
  | (_, sec) :: sorted =>
      raw ← load 4 efi (sec + off_SizeOfRawData);
      if bool_decide (raw = 0) then parse_sections efi align sorted regs bytes_hashed
      else
        let size := align_up raw align in
        ptr ← load 4 efi (sec + off_PointerToRawData);
        parse_sections efi align sorted (region_add regs ptr (ptr + size)) (u64 (bytes_hashed + size))
  end.

(** [sorted[i] = &sections[i]], each with the [VirtualAddress] that
    [cmp_pe_section] compares. *)
Fixpoint section_headers (efi : list Z) (sections : Z) (n : nat) : option (list (Z * Z)) :=
  match n with
  | O => Some []
  | S n =>
      va ← load 4 efi (sections + off_VirtualAddress);
      rest ← section_headers efi (sections + sizeof_SECTION_HEADER) n;
      Some ((va, sections) :: rest)
  end.

Definition cmp_pe_section (a b : Z * Z) : Z :=
  if bool_decide (fst a < fst b) then -1 else if bool_decide (fst a = fst b) then 0 else 1.

Definition HDR64_MAGIC : Z := 0x20b.
Definition HDR32_MAGIC : Z := 0x10b.

Section parse.
(** The C library's [qsort]: the order of equal elements is unspecified. *)
Context (qsort : (Z * Z -> Z * Z -> Z) -> list (Z * Z) -> list (Z * Z)).

(** [None] is a read outside the image; [Some None] is [FALSE]. Memory is
    assumed not to run out. *)
Definition efi_image_parse (efi : list Z) (len : Z) : option (option efi_image_regions) :=
  if bool_decide (len < 0x80) then Some None
  else
    lf ← load 4 efi off_e_lfanew;
    let lf := s32 lf in
    if bool_decide (s32 len - 0x40 < lf) then Some None
    else
      let nt := lf in
      nsec ← load 2 efi (nt + off_NumberOfSections);
      let num_regions := (3 + Z.to_nat nsec + 1)%nat in
      let regs := mkRegions num_regions 0 (replicate num_regions (mkRegion 0 0)) in
      magic ← load 2 efi (nt + off_OptionalHeader);
      if negb (bool_decide (magic = HDR64_MAGIC \/ magic = HDR32_MAGIC)) then Some None
      else
        '(regs, authsz, bytes_hashed, align) ←
          parse_headers (bool_decide (magic = HDR64_MAGIC)) efi nt regs;
        optsz ← load 2 efi (nt + off_SizeOfOptionalHeader);
        sections ← section_headers efi (nt + off_OptionalHeader + optsz) (Z.to_nat nsec);
        let sorted := qsort cmp_pe_section sections in
        '(regs, bytes_hashed) ← parse_sections efi align sorted regs bytes_hashed;
        Some (Some (if bool_decide (u64 (bytes_hashed + authsz) < len)
                    then region_add regs bytes_hashed (len - authsz) else regs)).

(** The loop of [sha256_write] calls. *)
Fixpoint write_regions (buf : list Z) (rs : list image_region) (ctx : HASH_CONTEXT)
    : option HASH_CONTEXT :=
  match rs with
  | [] => Some ctx
  | r :: rs =>
      ctx ← (if bool_decide (0 <= data r <= Z.of_nat (length buf))
             then sha256_write ctx (drop (Z.to_nat (data r)) buf) (Z.to_nat (size r))
             else None);
      write_regions buf rs ctx
  end.

(** [buf] and [hash] are assumed not to be NULL; [len = length buf]. *)
Definition PE256Buffer (buf : list Z) : option hash_result :=
  let len := Z.of_nat (length buf) in
  if bool_decide (len = 0 \/ len < 1024 \/ 64 * 1024 * 1024 < len) then Some (HashFalse None)
  else
    r ← efi_image_parse buf len;
    match r with
    | None => Some (HashFalse None)
    | Some regs =>
        ctx ← write_regions buf (take (num regs) (reg regs)) sha256_init;
        ctx ← sha256_final ctx;
        Some (HashTrue (take 32 (ctx_buf ctx)))
    end.
End parse.
