(* ===== verification/PeCorrect.v ===== *)
(** PeCorrect: the regions of an image are sorted, disjoint and bounded, and
    [PE256Buffer] is the SHA-256 of what they cover. *)

From Stdlib Require Import Sorting.Sorted.
From stdpp Require Import sorting.
From S2P Require Import Prelude HashStream HashSpec Hash HashCorrect HashApi Pe.

(** ** Region arrays *)

Definition live (regs : efi_image_regions) : list image_region := take (num regs) (reg regs).

Definition before (a b : image_region) : Prop := data a + size a <= data b.

(** The new region [[start, end_)] does not overlap [r], for the code's test. *)
Definition apart (start end_ : Z) (r : image_region) : Prop :=
  data r + size r <= start \/ end_ <= data r.

Lemma apart_or_overlap start end_ l :
  Forall (apart start end_) l \/ Exists (fun r => ~ apart start end_ r) l.
Proof.
  induction l as [|r l [IH|IH]]; [by left|..]; [|by right; right].
  destruct (decide (data r + size r <= start \/ end_ <= data r)); [left; by constructor|by right; left].
Qed.

Record regions_ok (regs : efi_image_regions) : Prop := {
  ok_room : (num regs <= max regs)%nat;
  ok_length : length (reg regs) = max regs;
  ok_sizes : Forall (fun r => 0 <= size r) (live regs);
  ok_sorted : StronglySorted before (live regs)
}.

Lemma region_slot_spec n i arr start end_ :
  match region_slot n i arr start end_ false with
  | Some (k, shift) =>
      (i <= k <= i + n)%nat /\
      (forall j, (i <= j < k)%nat -> data (arr !!! j) + size (arr !!! j) <= start) /\
      (if shift : bool then (k < i + n)%nat /\ end_ <= data (arr !!! k) else k = (i + n)%nat)
  | None => exists k, (i <= k < i + n)%nat /\ ~ apart start end_ (arr !!! k)
  end.
Proof.
  revert i. induction n as [|n IH]; intros i; simpl.
  - split_and!; [lia..| |lia]. intros; lia.
  - case_bool_decide as H1; [|case_bool_decide as H2].
    + specialize (IH (S i)). destruct (region_slot n (S i) arr start end_ false) as [[k shift]|].
      * destruct IH as (Hk & Hj & Hs). split_and!; [lia..| |].
        -- intros j Hji. destruct (decide (j = i)) as [->|]; [done|]. apply Hj. lia.
        -- destruct shift; [|lia]. destruct Hs. split; [lia|done].
      * destruct IH as (k & Hk & Ha). exists k. split; [lia|done].
    + split_and!; [lia..| |lia|done]. intros; lia.
    + exists i. split; [lia|]. unfold apart. lia.
Qed.

Lemma live_lookup regs j :
  regions_ok regs -> (j < num regs)%nat -> live regs !! j = Some (reg regs !!! j).
Proof.
  intros [] Hj. unfold live. rewrite lookup_take_lt by done. apply list_lookup_lookup_total_lt. lia.
Qed.

Lemma StronglySorted_app_iff (l1 l2 : list image_region) :
  StronglySorted before (l1 ++ l2) <->
  StronglySorted before l1 /\ StronglySorted before l2 /\
  (forall a b, a ∈ l1 -> b ∈ l2 -> before a b).
Proof.
  induction l1 as [|x l1 IH]; simpl.
  - split; [intros H; split_and!; [constructor|done|by intros ? ? ?%not_elem_of_nil]|naive_solver].
  - split.
    + intros H. inversion_clear H as [|? ? H1 H2]. apply IH in H1 as (H1 & H3 & H4).
      rewrite Forall_app in H2. destruct H2 as [H2 H5]. rewrite !Forall_forall in H5.
      split_and!; [by constructor|done|]. intros a b [->|Ha]%elem_of_cons Hb; [|by apply H4].
      by apply H5.
    + intros (H1 & H2 & H3). inversion_clear H1 as [|? ? H4 H5]. constructor.
      * apply IH. split_and!; [done..|]. intros a b Ha Hb. apply H3; [by right|done].
      * apply Forall_app. split; [done|]. apply Forall_forall. intros b Hb. apply H3; [by left|done].
Qed.

(** The regions in use after [r] is put at index [k]. *)
Lemma inserted_live regs k (shift : bool) r :
  regions_ok regs -> (num regs < max regs)%nat -> (k <= num regs)%nat -> (shift = false -> k = num regs) ->
  take (S (num regs)) (<[k := r]> (if shift then shift_up (num regs - k) k (reg regs) else reg regs))
  = take k (live regs) ++ r :: drop k (live regs).
Proof.
  intros [] Hroom Hk Hend. unfold live. rewrite take_take, Nat.min_l by lia. destruct shift.
  - apply insert_shift_up; lia.
  - rewrite Hend by done. rewrite (drop_ge (take _ _)) by (rewrite length_take; lia).
    replace (num regs) with (num regs - num regs + num regs)%nat at 1 by lia.
    pose proof (insert_shift_up (num regs) (num regs) (reg regs) r) as H.
    rewrite Nat.sub_diag in H. simpl shift_up in H. rewrite Nat.sub_diag. simpl plus.
    rewrite H by lia. by rewrite (drop_ge (take _ _)) by (rewrite length_take; lia).
Qed.

(** The regions from the one that ends the search on start after [end_]. *)
Lemma regions_from regs k end_ :
  regions_ok regs -> (k < num regs)%nat -> end_ <= data (reg regs !!! k) -> Forall (fun r => end_ <= data r) (drop k (live regs)).
Proof.
  intros Hok Hk Hend. pose proof Hok as []. assert (Hkk : live regs !! k = Some (reg regs !!! k)) by (by apply live_lookup).
  apply Forall_lookup. intros j r Hj. rewrite lookup_drop in Hj. destruct j as [|j]; [rewrite Nat.add_0_r, Hkk in Hj; by simplify_eq|].
  assert (Hb : before (reg regs !!! k) r).
  { rewrite <- (take_drop (S k) (live regs)) in ok_sorted0. apply StronglySorted_app_iff in ok_sorted0 as (_ & _ & Hs). apply Hs.
    - apply (list_elem_of_lookup_2 _ k). by rewrite lookup_take_lt by lia.
    - apply (list_elem_of_lookup_2 _ j). rewrite lookup_drop. rewrite <- Hj. f_equal. lia. }
  rewrite Forall_lookup in ok_sizes0. pose proof (ok_sizes0 _ _ Hkk). unfold before in Hb. lia.
Qed.

(** The region list that a successful insertion gives. *)
Lemma add_live regs start end_ :
  regions_ok regs -> (num regs < max regs)%nat -> 0 <= end_ - start < 2 ^ 32 ->
  Forall (apart start end_) (live regs) ->
  exists l1 l2, efi_image_region_add regs start end_ false =
    (true, snd (efi_image_region_add regs start end_ false)) /\
    live regs = l1 ++ l2 /\
    live (snd (efi_image_region_add regs start end_ false)) = l1 ++ mkRegion start (end_ - start) :: l2 /\
    Forall (fun r => data r + size r <= start) l1 /\ Forall (fun r => end_ <= data r) l2 /\
    regions_ok (snd (efi_image_region_add regs start end_ false)) /\
    max (snd (efi_image_region_add regs start end_ false)) = max regs.
Proof.
  intros Hok Hroom Hse Hap. unfold efi_image_region_add.
  rewrite bool_decide_false, bool_decide_false by lia.
  pose proof (region_slot_spec (num regs) 0 (reg regs) start end_) as Hslot.
  destruct (region_slot (num regs) 0 (reg regs) start end_ false) as [[k shift]|].
  2: { destruct Hslot as (k & Hk & Hn). destruct Hn. rewrite Forall_lookup in Hap.
       apply (Hap k). apply live_lookup; [done|lia]. }
  destruct Hslot as (Hk & Hlo & Hhi). pose proof Hok as [].
  rewrite uwrap_small by done. simpl in Hk.
  set (arr := if shift then shift_up (num regs - k) k (reg regs) else reg regs).
  assert (Harr : take (S (num regs)) (<[k := mkRegion start (end_ - start)]> arr)
                 = take k (live regs) ++ mkRegion start (end_ - start) :: drop k (live regs)).
  { apply inserted_live; [done|done|lia|]. by intros ->. }
  assert (H1 : Forall (fun r => data r + size r <= start) (take k (live regs))).
  { apply Forall_lookup. intros j r Hj. apply lookup_take_Some in Hj as [Hj Hjk].
    rewrite live_lookup in Hj by (done || lia). simplify_eq. apply Hlo. lia. }
  assert (H2 : Forall (fun r => end_ <= data r) (drop k (live regs))).
  { destruct shift; [destruct Hhi; by apply regions_from|]. rewrite Hhi, drop_ge; [constructor|]. unfold live. rewrite length_take. lia. }
  exists (take k (live regs)), (drop k (live regs)). cbn [snd].
  split; [done|]. split; [by rewrite take_drop|]. split; [done|]. split; [done|]. split; [done|].
  split; [|done]. constructor; simpl.
  - lia.
  - rewrite length_insert. unfold arr. destruct shift; [by rewrite length_shift_up|done].
  - unfold live at 1. simpl. rewrite Harr. rewrite <- (take_drop k (live regs)) in ok_sizes0.
    apply Forall_app in ok_sizes0 as [Hs1 Hs2]. apply Forall_app. split; [done|].
    constructor; [simpl; lia|done].
  - unfold live at 1. simpl. rewrite Harr. rewrite <- (take_drop k (live regs)) in ok_sorted0.
    apply StronglySorted_app_iff in ok_sorted0 as (Hs1 & Hs2 & Hs12).
    rewrite Forall_forall in H1, H2. apply StronglySorted_app_iff. split; [done|]. split.
    + constructor; [done|]. apply Forall_forall. intros b Hb. unfold before. simpl.
      specialize (H2 b Hb). lia.
    + intros a b Ha [->|Hb]%elem_of_cons; [unfold before; simpl; by apply H1|by apply Hs12].
Qed.

Lemma add_rejected regs start end_ :
  regions_ok regs ->
  (max regs <= num regs)%nat \/ end_ < start \/ Exists (fun r => ~ apart start end_ r) (live regs) ->
  efi_image_region_add regs start end_ false = (false, regs).
Proof.
  intros Hok Hrej. unfold efi_image_region_add. case_bool_decide; [done|]. case_bool_decide; [done|].
  destruct Hrej as [|[|Hex]]; [lia..|].
  pose proof (region_slot_spec (num regs) 0 (reg regs) start end_) as Hslot.
  destruct (region_slot (num regs) 0 (reg regs) start end_ false) as [[k shift]|]; [|done].
  exfalso. destruct Hslot as (Hk & Hlo & Hhi). apply Exists_exists in Hex as (r & Hr & Hap).
  apply list_elem_of_lookup_1 in Hr as [j Hj]. pose proof (lookup_lt_Some _ _ _ Hj) as Hlt.
  assert (Hjn : (j < num regs)%nat) by (unfold live in Hlt; rewrite length_take in Hlt; lia).
  rewrite live_lookup in Hj by done. injection Hj as <-. unfold apart in Hap.
  destruct (decide (j < k)%nat) as [Hjk|Hjk]; [specialize (Hlo j); lia|].
  destruct shift; [|lia]. destruct Hhi as [Hkn Hek].
  destruct (decide (j = k)) as [->|Hne]; [lia|]. pose proof Hok as [].
  assert (Hb : before (reg regs !!! k) (reg regs !!! j)).
  { rewrite <- (take_drop (S k) (live regs)) in ok_sorted0.
    apply StronglySorted_app_iff in ok_sorted0 as (_ & _ & Hs). apply Hs.
    - apply (list_elem_of_lookup_2 _ k). rewrite lookup_take_lt by lia. by apply live_lookup.
    - apply (list_elem_of_lookup_2 _ (j - S k)). rewrite lookup_drop.
      replace (S k + (j - S k))%nat with j by lia. by apply live_lookup. }
  rewrite Forall_lookup in ok_sizes0.
  pose proof (ok_sizes0 k _ (live_lookup _ _ Hok Hkn)). unfold before in Hb. lia.
Qed.

(** ** Insertions of the parser *)

Lemma region_add_ok regs start end_ :
  regions_ok regs -> end_ - start < 2 ^ 32 ->
  regions_ok (region_add regs start end_) /\ max (region_add regs start end_) = max regs /\
  (num (region_add regs start end_) <= S (num regs))%nat.
Proof.
  intros Hok Hlt. unfold region_add.
  destruct (decide ((max regs <= num regs)%nat \/ end_ < start)) as [Hrej|Hacc];
    [rewrite add_rejected by tauto; simpl; auto|].
  destruct (apart_or_overlap start end_ (live regs)) as [Hap|Hov];
    [|rewrite add_rejected by tauto; simpl; auto].
  - destruct (decide (max regs <= num regs)%nat) as [|Hroom]; [tauto|].
    destruct (decide (end_ < start)) as [|Hse]; [tauto|].
    destruct (add_live regs start end_ Hok) as (l1 & l2 & _ & Hl & Hl' & _ & _ & Hok' & Hmax);
      [lia|lia|done|].
    split_and!; [done|done|]. unfold efi_image_region_add.
    repeat case_bool_decide; simpl; try lia.
    by destruct (region_slot _ _ _ _ _ _) as [[] |]; simpl; lia.
Qed.

Lemma region_slot_end n i arr start end_ :
  (forall j, (i <= j < i + n)%nat -> data (arr !!! j) + size (arr !!! j) <= start) ->
  region_slot n i arr start end_ false = Some ((i + n)%nat, false).
Proof.
  revert i. induction n as [|n IH]; intros i Hj; simpl; [by rewrite Nat.add_0_r|].
  rewrite bool_decide_true by (apply Hj; lia). rewrite IH by (intros; apply Hj; lia).
  by rewrite <- Nat.add_succ_comm.
Qed.

(** A region after all the registered ones is appended. *)
Lemma region_add_end regs start end_ :
  regions_ok regs -> (num regs < max regs)%nat -> 0 <= end_ - start < 2 ^ 32 ->
  Forall (fun r => data r + size r <= start) (live regs) ->
  live (region_add regs start end_) = live regs ++ [mkRegion start (end_ - start)] /\
  regions_ok (region_add regs start end_) /\ max (region_add regs start end_) = max regs /\
  num (region_add regs start end_) = S (num regs).
Proof.
  intros Hok Hroom Hse Hend.
  destruct (region_add_ok regs start end_ Hok) as (Hok' & Hmax & _); [lia|].
  assert (E : efi_image_region_add regs start end_ false =
    (true, mkRegions (max regs) (S (num regs)) (<[num regs := mkRegion start (end_ - start)]> (reg regs)))).
  { unfold efi_image_region_add. rewrite bool_decide_false, bool_decide_false by lia.
    rewrite region_slot_end; [by rewrite uwrap_small by done|].
    intros j Hj. rewrite Forall_lookup in Hend. apply (Hend j). apply live_lookup; [done|lia]. }
  unfold region_add in *. rewrite E in *. simpl in *. split; [|done]. unfold live. simpl.
  destruct Hok. rewrite (take_S_r _ _ (mkRegion start (end_ - start)))
    by (apply list_lookup_insert_eq; lia).
  f_equal. by rewrite take_insert_ge by lia.
Qed.

(** ** Bytes covered by regions *)

Definition range (a b : Z) (buf : list Z) : list Z :=
  take (Z.to_nat (b - a)) (drop (Z.to_nat a) buf).

Definition covered (buf : list Z) (rs : list image_region) : list Z :=
  concat ((fun r => range (data r) (data r + size r) buf) <$> rs).

Definition inside (buf : list Z) (r : image_region) : Prop :=
  0 <= data r /\ data r + size r <= Z.of_nat (length buf).

Lemma range_app a b c buf :
  0 <= a <= b -> b <= c -> range a b buf ++ range b c buf = range a c buf.
Proof.
  intros. unfold range.
  replace (Z.to_nat (c - a)) with (Z.to_nat (b - a) + Z.to_nat (c - b))%nat by lia.
  rewrite <- (take_drop (Z.to_nat (b - a)) (take (_ + _) _)).
  rewrite take_take, Nat.min_l by lia. f_equal.
  rewrite skipn_firstn_comm, drop_drop. f_equal; [lia|]. f_equal. lia.
Qed.

Lemma length_range a b buf :
  0 <= a <= b -> b <= Z.of_nat (length buf) -> length (range a b buf) = Z.to_nat (b - a).
Proof. intros. unfold range. rewrite length_take, length_drop. lia. Qed.

Lemma covered_app buf l1 l2 : covered buf (l1 ++ l2) = covered buf l1 ++ covered buf l2.
Proof. unfold covered. by rewrite fmap_app, concat_app. Qed.

Lemma covered_one buf a b : covered buf [mkRegion a (b - a)] = range a b buf.
Proof. unfold covered. simpl. rewrite app_nil_r. f_equal. lia. Qed.

(** ** [PE256Buffer] hashes what the regions cover *)

Lemma write_regions_ok buf rs m ctx :
  absorbs HASH_SHA256 m ctx -> Forall (fun r => 0 <= size r) rs -> Forall (inside buf) rs ->
  exists ctx', write_regions buf rs ctx = Some ctx' /\ absorbs HASH_SHA256 (m ++ covered buf rs) ctx'.
Proof.
  intros Hm Hs Hin. revert m ctx Hm. induction Hin as [|r rs [H0 H1] _ IH]; intros m ctx Hm; simpl.
  - exists ctx. unfold covered. simpl. by rewrite app_nil_r.
  - apply Forall_cons in Hs as [Hr Hs]. rewrite bool_decide_true by lia.
    destruct (sha256_absorbs_write m ctx (drop (Z.to_nat (data r)) buf) (Z.to_nat (size r)) Hm)
      as (ctx' & -> & Hm'); [rewrite length_drop; lia|]. cbn [mbind option_bind].
    destruct (IH Hs _ _ Hm') as (ctx'' & Hw' & Hm''). exists ctx''. split; [done|].
    unfold covered. simpl. unfold range at 1.
    replace (data r + size r - data r) with (size r) by lia. by rewrite app_assoc.
Qed.

Lemma write_blocks_overread B tr fuel st src len :
  (0 < B)%nat -> (length src < len)%nat ->
  
  match write_blocks B tr fuel st src len with
  | None => True
  | Some (_, src', len') => (length src' < len')%nat
  end.
Proof.
  intros HB Hl. revert st src len Hl. induction fuel as [|fuel IH]; intros st src len Hl; simpl.
  - by case_bool_decide.
  - case_bool_decide; [|done]. case_bool_decide; [|done]. apply IH. rewrite length_drop. lia.
Qed.

Lemma write_rest_overread B tr buf st count src len :
  (0 < B)%nat -> (length src < len)%nat -> write_rest B tr buf st count src len = None.
Proof.
  intros HB Hl. unfold write_rest. pose proof (write_blocks_overread B tr len st src len HB Hl) as H.
  destruct (write_blocks B tr len st src len) as [[[st' src'] len']|]; [|done].
  cbn [mbind option_bind]. by rewrite memcpy_None.
Qed.

(** The SHA writes touch memory outside a source shorter than [len]. *)
Lemma block_write_overread B tr ctx src len :
  (0 < B)%nat -> (length src < len)%nat -> block_write B tr ctx src len = None.
Proof.
  intros HB Hl. unfold block_write. case_bool_decide.
  - set (k := (B - _)%nat). case_bool_decide.
    + by rewrite memcpy_None.
    + destruct (decide (k <= length src)%nat) as [Hk|Hk].
      * destruct (memcpy _ _ _ _); [|done]. cbn [mbind option_bind].
        apply write_rest_overread; [done|]. rewrite length_drop. lia.
      * by rewrite memcpy_None by lia.
  - by apply write_rest_overread.
Qed.

Lemma write_regions_overread buf rs m ctx :
  absorbs HASH_SHA256 m ctx -> Forall (fun r => 0 <= size r) rs ->
  Exists (fun r => ~ inside buf r) rs -> write_regions buf rs ctx = None.
Proof.
  intros Hm Hs Hex. revert m ctx Hm Hs. induction Hex as [r rs Hr|r rs _ IH]; intros m ctx Hm Hs;
    apply Forall_cons in Hs as [Hr0 Hs]; simpl.
  - case_bool_decide as Hd; [|done]. unfold sha256_write. rewrite block_write_overread; [done|..].
    + unfold SHA256_BLOCKSIZE. lia.
    + rewrite length_drop. unfold inside in Hr. lia.
  - destruct (decide (inside buf r)) as [[H0 H1]|Hn].
    + rewrite bool_decide_true by lia.
      destruct (sha256_absorbs_write m ctx (drop (Z.to_nat (data r)) buf) (Z.to_nat (size r)) Hm)
        as (ctx' & -> & Hm'); [rewrite length_drop; lia|]. cbn [mbind option_bind]. by eapply IH.
    + case_bool_decide as Hd; [|done]. unfold sha256_write. rewrite block_write_overread; [done|..].
      * unfold SHA256_BLOCKSIZE. lia.
      * rewrite length_drop. unfold inside in Hn. lia.
Qed.

Lemma range_incl a b buf : (length (range a b buf) <= Z.to_nat (b - a))%nat.
Proof. unfold range. rewrite length_take. lia. Qed.

Lemma sorted_covered_length buf rs lo :
  Forall (fun r => 0 <= size r) rs -> StronglySorted before rs -> Forall (inside buf) rs ->
  Forall (fun r => lo <= data r) rs -> 0 <= lo ->
  (length (covered buf rs) + Z.to_nat lo <= Nat.max (length buf) (Z.to_nat lo))%nat.
Proof.
  intros Hs Hsort Hin Hlo Hlo0. revert lo Hlo Hlo0.
  induction Hsort as [|r rs Hsort IH Hb]; intros lo Hlo Hlo0; [unfold covered; simpl; lia|].
  apply Forall_cons in Hs as [Hr Hs], Hin as [[H0 H1] Hin], Hlo as [Hl Hlo].
  assert (Hcov : covered buf (r :: rs) = range (data r) (data r + size r) buf ++ covered buf rs) by done.
  rewrite Hcov, length_app, length_range by lia.
  specialize (IH Hs Hin (data r + size r) ltac:(done) ltac:(lia)). lia.
Qed.

(** ** The parser *)

Lemma le_word_range bs : Forall is_byte bs -> 0 <= le_word bs < 256 ^ Z.of_nat (length bs).
Proof.
  induction 1 as [|b bs Hb _ IH]; [done|]. cbn [le_word length]. unfold is_byte in Hb.
  rewrite Nat2Z.inj_succ, Z.pow_succ_r by lia. lia.
Qed.

Lemma load_range n efi off v :
  Forall is_byte efi -> load n efi off = Some v ->
  0 <= v < 256 ^ Z.of_nat n /\ 0 <= off /\ off + Z.of_nat n <= Z.of_nat (length efi).
Proof.
  intros Hb Hl. unfold load in Hl. case_bool_decide as Ho; [|done]. injection Hl as <-.
  split; [|done].
  assert (Hs : Forall is_byte (slice (Z.to_nat off) n efi)) by (by apply Forall_take, Forall_drop).
  pose proof (le_word_range _ Hs) as H. rewrite length_slice in H.
  replace (n `min` (length efi - Z.to_nat off))%nat with n in H by lia. done.
Qed.

Lemma load4_range efi off v :
  Forall is_byte efi -> load 4 efi off = Some v -> 0 <= v < 2 ^ 32 /\ 0 <= off.
Proof. intros Hb Hl. destruct (load_range 4 efi off v Hb Hl) as (H & Ho & _). done. Qed.

Lemma align_up_range raw align : 0 <= align_up raw align < 2 ^ 32.
Proof.
  assert (E : u32 (align_up raw align) = align_up raw align).
  { unfold align_up. rewrite uwrap_land, <- Z.land_assoc, (Z.land_comm _ (Z.ones 32)), Z.land_assoc by lia.
    by rewrite <- uwrap_land, uwrap_idemp by lia. }
  rewrite <- E. apply uwrap_range. lia.
Qed.

Lemma parse_headers_ok pe64 efi nt regs regs' authsz bytes align :
  Forall is_byte efi -> regions_ok regs -> nt < 2 ^ 31 ->
  parse_headers pe64 efi nt regs = Some (regs', authsz, bytes, align) ->
  regions_ok regs' /\ max regs' = max regs /\ (num regs' <= num regs + 3)%nat /\
  0 <= authsz /\ 0 <= bytes < 2 ^ 32.
Proof.
  intros Hb Hok Hnt Hp. unfold parse_headers in Hp.
  destruct (region_add_ok regs 0 (nt + off_OptionalHeader + off_CheckSum) Hok) as (H1 & M1 & N1).
  { unfold off_OptionalHeader, off_CheckSum. lia. }
  set (r1 := region_add regs 0 _) in *.
  destruct (load 4 efi (nt + off_OptionalHeader + off_NumberOfRvaAndSizes pe64)) as [nrva|]; [|done].
  simpl in Hp. destruct (load 4 efi (nt + off_OptionalHeader + off_SizeOfHeaders)) as [hdrsz|] eqn:Hh; [|done].
  simpl in Hp. apply load4_range in Hh as [Hh Hh0]; [|done].
  assert (Hnt0 : -84 <= nt) by (unfold off_OptionalHeader, off_SizeOfHeaders in Hh0; lia).
  destruct (region_add_ok r1 (nt + off_OptionalHeader + off_Subsystem)
              (nt + off_OptionalHeader + off_DataDirectory pe64 + 8 * ctidx) H1) as (H2 & M2 & N2).
  { unfold off_Subsystem, off_DataDirectory, ctidx. destruct pe64; lia. }
  case_bool_decide.
  - simpl in Hp. destruct (load 4 efi (nt + off_OptionalHeader + off_FileAlignment)); [|done].
    simplify_eq/=. destruct (region_add_ok r1 (nt + off_OptionalHeader + off_Subsystem) bytes H1)
      as (H4 & M4 & N4). { unfold off_OptionalHeader, off_Subsystem. lia. }
    split_and!; [done|lia|lia|lia|lia|lia].
  - set (r2 := region_add r1 _ _) in *.
    set (dir := nt + off_OptionalHeader + off_DataDirectory pe64 + 8 * ctidx) in *.
    destruct (region_add_ok r2 (dir + 8) hdrsz H2) as (H3 & M3 & N3).
    { unfold dir, off_OptionalHeader, off_DataDirectory, ctidx. destruct pe64; lia. }
    destruct (load 4 efi (dir + 4)) as [az|] eqn:Haz; [|done]. simpl in Hp.
    apply load4_range in Haz as [Haz _]; [|done].
    destruct (load 4 efi (nt + off_OptionalHeader + off_FileAlignment)); [|done].
    simplify_eq/=. split_and!; [done|lia|lia|lia|lia|lia].
Qed.

Lemma parse_sections_ok efi align secs regs bytes regs' bytes' :
  Forall is_byte efi -> regions_ok regs -> 0 <= bytes ->
  parse_sections efi align secs regs bytes = Some (regs', bytes') ->
  regions_ok regs' /\ max regs' = max regs /\ (num regs' <= num regs + length secs)%nat /\ 0 <= bytes'.
Proof.
  intros Hb. revert regs bytes. induction secs as [|[va sec] secs IH]; intros regs bytes Hok Hbytes Hp;
    simpl in Hp.
  - simplify_eq. split_and!; [done|done|simpl; lia|done].
  - destruct (load 4 efi (sec + off_SizeOfRawData)) as [raw|]; [|done]. simpl in Hp.
    case_bool_decide.
    + destruct (IH _ _ Hok Hbytes Hp) as (H1 & H2 & H3 & H4). split_and!; [done|done|simpl; lia|done].
    + destruct (load 4 efi (sec + off_PointerToRawData)) as [ptr|]; [|done]. simpl in Hp.
      pose proof (align_up_range raw align).
      destruct (region_add_ok regs ptr (ptr + align_up raw align) Hok) as (H1 & M1 & N1); [lia|].
      destruct (IH _ _ H1 (proj1 (uwrap_range 64 _ ltac:(done))) Hp) as (H2 & M2 & N2 & B2).
      split_and!; [done|congruence|simpl; lia|done].
Qed.

Lemma length_section_headers efi sections n l :
  section_headers efi sections n = Some l -> length l = n.
Proof.
  revert sections l. induction n as [|n IH]; intros sections l Hl; simpl in Hl; [by simplify_eq|].
  destruct (load 4 efi _); [|done]. simpl in Hl.
  destruct (section_headers efi _ n) as [l'|] eqn:E; [|done]. simplify_eq/=. by rewrite (IH _ _ E).
Qed.

Lemma regions_start n : regions_ok (mkRegions n 0 (replicate n (mkRegion 0 0))).
Proof. constructor; simpl; [lia|apply length_replicate|constructor..]. Qed.

Section qsort.
(** The documented behaviour of [qsort]: the elements in some order in which
    each compares at most equal to the next. *)
Context (qsort : (Z * Z -> Z * Z -> Z) -> list (Z * Z) -> list (Z * Z)).
Hypothesis qsort_perm : forall l, qsort cmp_pe_section l ≡ₚ l.

Lemma parse_ok efi len regs :
  Forall is_byte efi -> len < 2 ^ 32 ->
  efi_image_parse qsort efi len = Some (Some regs) ->
  regions_ok regs.
Proof.
  intros Hb Hlen Hp. unfold efi_image_parse in Hp. case_bool_decide as Hd; [done|].
  destruct (load 4 efi off_e_lfanew) as [lf|]; [|done]. simpl in Hp.
  case_bool_decide; [done|].
  assert (Hlf : s32 lf < 2 ^ 31).
  { unfold swrap. pose proof (Z.mod_pos_bound (lf + 2 ^ (32 - 1)) (2 ^ 32)). lia. }
  destruct (load 2 efi (s32 lf + off_NumberOfSections)) as [nsec|] eqn:Hn; [|done]. simpl in Hp.
  destruct (load 2 efi (s32 lf + off_OptionalHeader)) as [magic|]; [|done].
  cbn [mbind option_bind] in Hp. destruct (negb _); [done|].
  set (regs0 := mkRegions _ 0 _) in Hp.
  destruct (parse_headers _ efi (s32 lf) regs0) as [[[[regs1 authsz] bytes] align]|] eqn:Hh; [|done].
  cbn [mbind option_bind] in Hp.
  apply parse_headers_ok in Hh as (H1 & M1 & N1 & A1 & B1); [|done|apply regions_start|done].
  destruct (load 2 efi (s32 lf + off_SizeOfOptionalHeader)) as [optsz|]; [|done].
  cbn [mbind option_bind] in Hp.
  destruct (section_headers efi _ _) as [secs|] eqn:Hsec; [|done]. cbn [mbind option_bind] in Hp.
  destruct (parse_sections efi align _ regs1 bytes) as [[regs2 bytes2]|] eqn:Hs; [|done].
  cbn [mbind option_bind] in Hp.
  apply parse_sections_ok in Hs as (H2 & M2 & N2 & B2); [|done..|lia].
  injection Hp as <-. case_bool_decide; [|done].
  apply region_add_ok; [done|lia].
Qed.
End qsort.

Lemma PE256_unfold qsort buf regs :
  1024 <= Z.of_nat (length buf) <= 64 * 1024 * 1024 ->
  efi_image_parse qsort buf (Z.of_nat (length buf)) = Some (Some regs) ->
  PE256Buffer qsort buf =
    (ctx ← write_regions buf (live regs) sha256_init;
     ctx ← sha256_final ctx; Some (HashTrue (take 32 (ctx_buf ctx)))).
Proof. intros Hlen Hp. unfold PE256Buffer. rewrite bool_decide_false by lia. by rewrite Hp. Qed.

Lemma hash_regions buf rs :
  Forall (fun r => 0 <= size r) rs -> StronglySorted before rs -> Z.of_nat (length buf) < 2 ^ 64 ->
  (Forall (inside buf) rs ->
     (ctx ← write_regions buf rs sha256_init;
      ctx ← sha256_final ctx; Some (HashTrue (take 32 (ctx_buf ctx))))
     = Some (HashTrue (sha256_digest (covered buf rs)))) /\
  (Exists (fun r => ~ inside buf r) rs -> write_regions buf rs sha256_init = None).
Proof.
  intros Hs Hsort Hlen. split.
  - intros Hin.
    destruct (write_regions_ok buf rs [] sha256_init sha256_absorbs_init Hs Hin) as (ctx & Hw & Hctx).
    rewrite (bind_Some_eq _ _ _ Hw). rewrite app_nil_l in Hctx.
    pose proof (sorted_covered_length buf rs 0 Hs Hsort Hin) as Hcl.
    assert (Hd : Forall (fun r => 0 <= data r) rs)
      by (eapply Forall_impl; [exact Hin|by intros r [? _]]).
    specialize (Hcl Hd ltac:(lia)).
    destruct (sha256_absorbs_final _ _ Hctx) as (ctx' & Hf & Hd'); [lia|].
    rewrite (bind_Some_eq _ _ _ Hf). by rewrite Hd'.
  - exact (write_regions_overread buf rs [] _ sha256_absorbs_init Hs).
Qed.

Lemma PE256_parsed qsort buf regs :
  1024 <= Z.of_nat (length buf) <= 64 * 1024 * 1024 -> regions_ok regs ->
  efi_image_parse qsort buf (Z.of_nat (length buf)) = Some (Some regs) ->
  (Forall (inside buf) (live regs) ->
     PE256Buffer qsort buf = Some (HashTrue (sha256_digest (covered buf (live regs))))) /\
  (Exists (fun r => ~ inside buf r) (live regs) -> PE256Buffer qsort buf = None).
Proof.
  intros Hlen [_ _ Hs Hsort] Hp. rewrite (PE256_unfold qsort buf regs Hlen Hp).
  destruct (hash_regions buf (live regs) Hs Hsort ltac:(lia)) as [H1 H2]. split; [exact H1|].
  intros Hex. by rewrite (H2 Hex).
Qed.

(** ** Well-formed images *)

(** The header fields that the parser uses. *)
Record pe_layout := mkLayout {
  l_pe64 : bool; l_nt : Z; l_nsec : Z; l_optsz : Z; l_nrva : Z;
  l_hdrsz : Z; l_align : Z; l_authsz : Z
}.

Definition l_opt (L : pe_layout) : Z := l_nt L + off_OptionalHeader.
Definition l_checksum (L : pe_layout) : Z := l_opt L + off_CheckSum.
Definition l_certdir (L : pe_layout) : Z := l_opt L + off_DataDirectory (l_pe64 L) + 8 * ctidx.

(** The image has these fields, and a certificates entry inside its headers. *)
Record layout_of (efi : list Z) (L : pe_layout) : Prop := {
  lo_nt : load 4 efi off_e_lfanew = Some (l_nt L);
  lo_nt_range : 0 <= l_nt L < 2 ^ 31;
  lo_nsec : load 2 efi (l_nt L + off_NumberOfSections) = Some (l_nsec L);
  lo_magic : load 2 efi (l_opt L) = Some (if l_pe64 L then HDR64_MAGIC else HDR32_MAGIC);
  lo_optsz : load 2 efi (l_nt L + off_SizeOfOptionalHeader) = Some (l_optsz L);
  lo_nrva : load 4 efi (l_opt L + off_NumberOfRvaAndSizes (l_pe64 L)) = Some (l_nrva L);
  lo_hdrsz : load 4 efi (l_opt L + off_SizeOfHeaders) = Some (l_hdrsz L);
  lo_align : load 4 efi (l_opt L + off_FileAlignment) = Some (l_align L);
  lo_authsz : load 4 efi (l_certdir L + 4) = Some (l_authsz L);
  lo_dirs : ctidx < l_nrva L;
  lo_headers : l_certdir L + 8 <= l_hdrsz L
}.

(** The sections that have raw data follow each other from [pos] on; the end
    of the last one. *)
Fixpoint contiguous (efi : list Z) (align : Z) (secs : list (Z * Z)) (pos : Z) : option Z :=
  match secs with
  | [] => Some pos
  | (_, sec) :: secs =>
      raw ← load 4 efi (sec + off_SizeOfRawData);
      if bool_decide (raw = 0) then contiguous efi align secs pos
      else
        ptr ← load 4 efi (sec + off_PointerToRawData);
        if bool_decide (ptr = pos) then contiguous efi align secs (pos + align_up raw align) else None
  end.

(** What Authenticode hashes: the image without its checksum, its
    certificates entry and its trailing certificates table. *)
Definition authenticode_data (L : pe_layout) (buf : list Z) : list Z :=
  range 0 (l_checksum L) buf ++ range (l_checksum L + 4) (l_certdir L) buf
  ++ range (l_certdir L + 8) (Z.of_nat (length buf) - l_authsz L) buf.

Lemma live_nil n : live (mkRegions n 0 (replicate n (mkRegion 0 0))) = [].
Proof. done. Qed.

(** Appending [start, end_) to regions that cover up to [start]. *)
Definition upto (regs : efi_image_regions) (buf m : list Z) (pos : Z) : Prop :=
  regions_ok regs /\ Forall (fun r => data r + size r <= pos) (live regs) /\
  Forall (inside buf) (live regs) /\ covered buf (live regs) = m.

Lemma upto_add regs buf m pos start end_ :
  upto regs buf m pos -> (num regs < max regs)%nat -> pos <= start <= end_ -> 0 <= start ->
  end_ <= Z.of_nat (length buf) -> end_ - start < 2 ^ 32 ->
  upto (region_add regs start end_) buf (m ++ range start end_ buf) end_ /\
  max (region_add regs start end_) = max regs /\ num (region_add regs start end_) = S (num regs).
Proof.
  intros (Hok & Hend & Hin & Hc) Hroom Hpos Hs0 Hlen Hlt.
  destruct (region_add_end regs start end_ Hok Hroom) as (Hl & Hok' & Hm & Hn); [lia| |].
  { eapply Forall_impl; [exact Hend|]. simpl. lia. }
  split; [|done]. unfold upto. rewrite Hl. split; [done|].
  split; [apply Forall_app_2; [eapply Forall_impl; [exact Hend|simpl; lia]|repeat constructor; simpl; lia]|].
  split; [apply Forall_app_2; [done|repeat constructor; simpl; lia]|].
  by rewrite covered_app, covered_one, Hc.
Qed.

Lemma contiguous_ge efi align secs pos pos' : contiguous efi align secs pos = Some pos' -> pos <= pos'.
Proof.
  revert pos. induction secs as [|[va sec] secs IH]; intros p Hp; simpl in Hp; [simplify_eq; lia|].
  destruct (load 4 efi (sec + off_SizeOfRawData)) as [raw|]; [|done]. simpl in Hp.
  case_bool_decide; [by apply IH|]. destruct (load 4 efi _) as [ptr|]; [|done]. simpl in Hp.
  case_bool_decide; [|done]. pose proof (align_up_range raw align). specialize (IH _ Hp). lia.
Qed.

Lemma parse_sections_contiguous efi align secs regs m pos pos' :
  Forall is_byte efi -> upto regs efi m pos -> 0 <= pos ->
  (num regs + length secs <= max regs)%nat ->
  contiguous efi align secs pos = Some pos' -> pos' <= Z.of_nat (length efi) < 2 ^ 32 ->
  exists regs', parse_sections efi align secs regs pos = Some (regs', pos') /\ pos <= pos' /\
    upto regs' efi (m ++ range pos pos' efi) pos' /\ max regs' = max regs /\
    (num regs' <= num regs + length secs)%nat.
Proof.
  intros Hb Hup Hpos Hroom Hc Hlen. revert regs m pos Hup Hpos Hroom Hc.
  induction secs as [|[va sec] secs IH]; intros regs m pos Hup Hpos Hroom Hc; simpl in Hc |- *.
  - simplify_eq. exists regs. assert (range pos' pos' efi = []) as ->.
    { unfold range. by rewrite Z.sub_diag. }
    rewrite app_nil_r. split_and!; [done..|lia].
  - destruct (load 4 efi (sec + off_SizeOfRawData)) as [raw|] eqn:Hraw; [|done]. simpl in Hc |- *.
    case_bool_decide.
    + destruct (IH regs m pos Hup Hpos) as (r' & ? & ? & ? & ? & ?); [simpl in *; lia|done|].
      exists r'. split_and!; [done..|simpl; lia].
    + destruct (load 4 efi (sec + off_PointerToRawData)) as [ptr|]; [|done]. simpl in Hc |- *.
      case_bool_decide; [subst ptr|done].
      pose proof (align_up_range raw align) as Hal. set (sz := align_up raw align) in *.
      assert (Hle : pos + sz <= pos') by (by eapply contiguous_ge).
      destruct (upto_add regs efi m pos pos (pos + sz) Hup) as (Hup' & Hm & Hn);
        [simpl in *; lia|lia|lia|lia|lia|].
      rewrite uwrap_small by lia.
      destruct (IH (region_add regs pos (pos + sz)) _ (pos + sz) Hup')
        as (r' & Hr' & Hle' & Hup'' & Hm' & Hn'); [lia|simpl in *; lia|done|].
      exists r'. split_and!; [done|lia| |congruence|simpl; lia].
      by rewrite <- app_assoc, range_app in Hup'' by lia.
Qed.

Definition header_data (L : pe_layout) (buf : list Z) : list Z :=
  range 0 (l_checksum L) buf ++ range (l_checksum L + 4) (l_certdir L) buf
  ++ range (l_certdir L + 8) (l_hdrsz L) buf.

Ltac pe_offsets :=
  unfold l_checksum, l_certdir, l_opt, off_OptionalHeader, off_CheckSum, off_Subsystem,
    off_DataDirectory, ctidx in *;
  repeat match goal with |- context [if ?b then 112 else 96] => destruct b
         | H : context [if ?b then 112 else 96] |- _ => destruct b end; lia.

Lemma parse_headers_layout buf L n :
  layout_of buf L -> l_hdrsz L <= Z.of_nat (length buf) < 2 ^ 31 -> (3 <= n)%nat ->
  exists regs,
    parse_headers (l_pe64 L) buf (l_nt L) (mkRegions n 0 (replicate n (mkRegion 0 0)))
    = Some (regs, l_authsz L, l_hdrsz L, l_align L) /\
    upto regs buf (header_data L buf) (l_hdrsz L) /\ max regs = n /\ num regs = 3%nat.
Proof.
  intros [] Hlen Hn. unfold parse_headers. change (l_nt L + off_OptionalHeader) with (l_opt L).
  rewrite lo_nrva0, lo_hdrsz0, lo_align0. cbn [mbind option_bind].
  rewrite bool_decide_false by lia. change (l_opt L + off_DataDirectory (l_pe64 L) + 8 * ctidx) with (l_certdir L).
  rewrite lo_authsz0. cbn [mbind option_bind].
  set (r0 := mkRegions n 0 _).
  assert (Hup0 : upto r0 buf [] 0) by (split_and!; [apply regions_start|constructor..|done]).
  destruct (upto_add r0 buf [] 0 0 (l_opt L + off_CheckSum) Hup0) as (Hup1 & Hm1 & Hn1);
    [simpl; lia|pe_offsets..|].
  destruct (upto_add _ buf _ _ (l_opt L + off_Subsystem) (l_certdir L) Hup1) as (Hup2 & Hm2 & Hn2);
    [rewrite Hn1, Hm1; simpl; lia|pe_offsets..|].
  destruct (upto_add _ buf _ _ (l_certdir L + 8) (l_hdrsz L) Hup2) as (Hup3 & Hm3 & Hn3);
    [rewrite Hn2, Hm2, Hn1, Hm1; simpl; lia|pe_offsets..|].
  eexists. split; [reflexivity|]. split; [|split; [by rewrite Hm3, Hm2, Hm1|by rewrite Hn3, Hn2, Hn1]].
  rewrite app_nil_l in Hup3. unfold header_data. rewrite app_assoc.
  replace (l_checksum L + 4) with (l_opt L + off_Subsystem) by pe_offsets. exact Hup3.
Qed.

Section well_formed.
Context (qsort : (Z * Z -> Z * Z -> Z) -> list (Z * Z) -> list (Z * Z)).
Hypothesis qsort_perm : forall l, qsort cmp_pe_section l ≡ₚ l.

(** A PE image as linkers and signing tools lay it out: the raw data of the
    sections, in the order of their addresses, follows the headers, and the
    certificates table ends the file. *)
Record well_formed (buf : list Z) (L : pe_layout) (secs : list (Z * Z)) (pos : Z) : Prop := {
  wf_bytes : Forall is_byte buf;
  wf_len : 1024 <= Z.of_nat (length buf) <= 64 * 1024 * 1024;
  wf_layout : layout_of buf L;
  wf_nt : l_nt L <= Z.of_nat (length buf) - 0x40;
  wf_secs : section_headers buf (l_opt L + l_optsz L) (Z.to_nat (l_nsec L)) = Some secs;
  wf_contiguous : contiguous buf (l_align L) (qsort cmp_pe_section secs) (l_hdrsz L) = Some pos;
  wf_cert : pos + l_authsz L <= Z.of_nat (length buf)
}.

Lemma parse_well_formed buf L secs pos :
  well_formed buf L secs pos ->
  exists regs, efi_image_parse qsort buf (Z.of_nat (length buf)) = Some (Some regs) /\
    upto regs buf (authenticode_data L buf) (Z.of_nat (length buf) - l_authsz L).
Proof.
  intros []. pose proof wf_layout0 as []. pose proof (contiguous_ge _ _ _ _ _ wf_contiguous0) as Hpos.
  pose proof (load4_range _ _ _ wf_bytes0 lo_authsz0) as [Haz _].
  pose proof (load4_range _ _ _ wf_bytes0 lo_hdrsz0) as [Hhd _].
  unfold efi_image_parse. rewrite bool_decide_false, lo_nt0 by lia. cbn [mbind option_bind].
  assert (Hs : s32 (l_nt L) = l_nt L).
  { unfold swrap. rewrite Z.mod_small; lia. }
  assert (Hsl : s32 (Z.of_nat (length buf)) = Z.of_nat (length buf)).
  { unfold swrap. rewrite Z.mod_small; lia. }
  rewrite Hs, Hsl, bool_decide_false, lo_nsec0 by lia. cbn [mbind option_bind].
  change (l_nt L + off_OptionalHeader) with (l_opt L). rewrite lo_magic0. cbn [mbind option_bind].
  set (nreg := (3 + Z.to_nat (l_nsec L) + 1)%nat).
  destruct (parse_headers_layout buf L nreg wf_layout0) as (r1 & Hr1 & Hup1 & Hm1 & Hn1);
    [lia|unfold nreg; lia|].
  replace (bool_decide ((if l_pe64 L then HDR64_MAGIC else HDR32_MAGIC) = HDR64_MAGIC)) with (l_pe64 L)
    by (destruct (l_pe64 L); reflexivity).
  replace (negb _) with false by (destruct (l_pe64 L); reflexivity).
  rewrite Hr1, lo_optsz0. cbn [mbind option_bind]. rewrite wf_secs0. cbn [mbind option_bind].
  assert (Hlen : length (qsort cmp_pe_section secs) = Z.to_nat (l_nsec L)).
  { rewrite (qsort_perm secs). by apply length_section_headers in wf_secs0. }
  destruct (parse_sections_contiguous buf (l_align L) (qsort cmp_pe_section secs) r1 _ _ pos
              wf_bytes0 Hup1) as (r2 & Hr2 & _ & Hup2 & Hm2 & Hn2);
    [lia|rewrite Hlen, Hn1, Hm1; unfold nreg; lia|done|lia|].
  rewrite Hr2. cbn [mbind option_bind]. rewrite uwrap_small by lia.
  assert (Hdata : forall e, pos <= e -> header_data L buf ++ range (l_hdrsz L) pos buf ++ range pos e buf =
    range 0 (l_checksum L) buf ++ range (l_checksum L + 4) (l_certdir L) buf ++
    range (l_certdir L + 8) e buf).
  { intros e He. unfold header_data. rewrite range_app by lia. rewrite <- !app_assoc.
    by rewrite range_app by (pe_offsets || lia). }
  case_bool_decide as Hextra.
  - destruct (upto_add r2 buf _ pos pos (Z.of_nat (length buf) - l_authsz L) Hup2) as (Hup3 & _);
      [rewrite Hm2, Hm1; rewrite Hlen, Hn1 in Hn2; unfold nreg; lia|lia..|].
    eexists. split; [reflexivity|]. rewrite <- app_assoc, Hdata in Hup3 by lia. exact Hup3.
  - exists r2. split; [done|]. replace (Z.of_nat (length buf) - l_authsz L) with pos by lia.
    unfold authenticode_data. replace (Z.of_nat (length buf) - l_authsz L) with pos by lia.
    specialize (Hdata pos ltac:(lia)).
    assert (range pos pos buf = []) as E by (unfold range; by rewrite Z.sub_diag).
    rewrite E, app_nil_r in Hdata. by rewrite <- Hdata.
Qed.
End well_formed.

(** ** Properties *)

(** [efi_image_region_add] keeps the regions sorted and disjoint and
    inside the array. It registers the region, at its sorted position and
    without changing the others, exactly when there is room, the bounds are in
    order and no registered region overlaps it; otherwise it returns [FALSE]
    and changes nothing. *)
Lemma region_add_correct regs start end_ :
  regions_ok regs -> end_ - start < 2 ^ 32 ->
  let '(ok, regs') := efi_image_region_add regs start end_ false in
  regions_ok regs' /\ max regs' = max regs /\
  if ok : bool then
    (num regs < max regs)%nat /\ start <= end_ /\ Forall (apart start end_) (live regs) /\
    exists l1 l2, live regs = l1 ++ l2 /\ live regs' = l1 ++ mkRegion start (end_ - start) :: l2
  else
    regs' = regs /\
    ((max regs <= num regs)%nat \/ end_ < start \/ Exists (fun r => ~ apart start end_ r) (live regs)).
Proof.
  intros Hok Hlt.
  destruct (decide ((max regs <= num regs)%nat \/ end_ < start)) as [Hr|Hr].
  { rewrite add_rejected by (done || tauto). tauto. }
  destruct (apart_or_overlap start end_ (live regs)) as [Hap|Hov].
  - destruct (add_live regs start end_ Hok) as (l1 & l2 & E & Hl & Hl' & _ & _ & Hok' & Hm);
      [lia|lia|done|].
    rewrite E. split_and!; [done|done|lia|lia|done|]. by exists l1, l2.
  - rewrite add_rejected by (done || tauto). tauto.
Qed.

Lemma region_add_correct_witness :
  exists regs', efi_image_region_add (mkRegions 2 1 [mkRegion 8 4; mkRegion 0 0]) 2 6 false = (true, regs')
    /\ regions_ok regs'.
Proof.
  eexists. split; [reflexivity|].
  apply (region_add_correct (mkRegions 2 1 [mkRegion 8 4; mkRegion 0 0]) 2 6).
  - constructor; simpl; [lia|reflexivity|apply Forall_singleton; simpl; lia|repeat constructor].
  - reflexivity.
Defined.

(** The regions of any image that [efi_image_parse] accepts are sorted and
    disjoint, and [PE256Buffer] is the SHA-256 of the bytes they cover, in
    order, when they lie inside the buffer; when one does not, it reads
    outside the buffer, since nothing checks the regions against [len]. *)
Lemma pe256_digest qsort buf regs :
  Forall is_byte buf -> 1024 <= Z.of_nat (length buf) <= 64 * 1024 * 1024 ->
  efi_image_parse qsort buf (Z.of_nat (length buf)) = Some (Some regs) ->
  regions_ok regs /\
  (Forall (inside buf) (live regs) ->
     PE256Buffer qsort buf = Some (HashTrue (sha256_digest (covered buf (live regs))))) /\
  (Exists (fun r => ~ inside buf r) (live regs) -> PE256Buffer qsort buf = None).
Proof.
  intros Hb Hlen Hp. assert (Hok : regions_ok regs)
    by (apply (parse_ok qsort buf (Z.of_nat (length buf))); [exact Hb|lia|exact Hp]).
  split; [done|]. by apply PE256_parsed.
Qed.

(** C40: On a well-formed image [PE256Buffer] is the Authenticode digest: the
    SHA-256 of the image without its checksum, its certificates entry and its
    certificates table, for PE32 and PE32+. *)
Theorem pe256_authenticode qsort buf L secs pos :
  (forall l, qsort cmp_pe_section l ≡ₚ l) -> well_formed qsort buf L secs pos ->
  PE256Buffer qsort buf = Some (HashTrue (sha256_digest (authenticode_data L buf))).
Proof.
  intros Hq Hw. destruct (parse_well_formed qsort Hq buf L secs pos Hw) as (regs & Hp & Hup).
  destruct Hw. destruct Hup as (Hok & _ & Hin & <-).
  by apply (PE256_parsed qsort buf regs wf_len0 Hok Hp).
Qed.

(** A 1132-byte PE32+ image with one section and an 8-byte certificates table. *)
Definition poke (off : nat) (bs l : list Z) : list Z := splice off bs l.
Definition demo_image : list Z :=
  poke 60 (le_bytes 4 64) (poke 70 (le_bytes 2 1) (poke 84 (le_bytes 2 240)
  (poke 88 (le_bytes 2 0x20b) (poke 196 (le_bytes 4 16) (poke 148 (le_bytes 4 512)
  (poke 124 (le_bytes 4 512) (poke 236 (le_bytes 4 8) (poke 344 (le_bytes 4 500)
  (poke 348 (le_bytes 4 512) (replicate 1132 7)))))))))).
Definition demo_layout : pe_layout := mkLayout true 64 1 240 16 512 512 8.

(** A sorting function that [qsort] may be. *)
Definition sort_sections (cmp : Z * Z -> Z * Z -> Z) (l : list (Z * Z)) : list (Z * Z) :=
  merge_sort (fun a b => cmp a b <= 0) (H := fun a b => Z_le_dec (cmp a b) 0) l.

Lemma demo_bytes : Forall is_byte demo_image.
Proof.
  assert (H : forallb (fun b => (0 <=? b) && (b <? 256)) demo_image = true) by (vm_compute; reflexivity).
  apply Forall_forall. intros b Hb. rewrite forallb_forall in H. unfold is_byte.
  apply list_elem_of_In in Hb. specialize (H b Hb). lia.
Qed.

Lemma demo_well_formed :
  well_formed sort_sections demo_image demo_layout [(117901063, 328)] 1024.
Proof.
  assert (Hl : length demo_image = 1132%nat) by (vm_compute; reflexivity).
  split; rewrite ?Hl; [exact demo_bytes|lia| |cbn [l_nt demo_layout]; lia|vm_compute; reflexivity|
    vm_compute; reflexivity|cbn [l_authsz demo_layout]; lia].
  constructor; try (vm_compute; reflexivity).
  - cbn [l_nt demo_layout]. lia.
  - apply Z.leb_le. vm_compute. reflexivity.
Qed.

Lemma pe256_digest_witness :
  exists regs, efi_image_parse sort_sections demo_image (Z.of_nat (length demo_image)) = Some (Some regs)
    /\ regions_ok regs.
Proof.
  destruct (parse_well_formed sort_sections (fun l => merge_sort_Permutation _ l) _ _ _ _ demo_well_formed)
    as (regs & Hp & _).
  exists regs. split; [exact Hp|].
  apply (pe256_digest sort_sections demo_image regs demo_bytes (wf_len _ _ _ _ _ demo_well_formed) Hp).
Defined.

Lemma pe256_authenticode_witness :
  PE256Buffer sort_sections demo_image
  = Some (HashTrue (sha256_digest (authenticode_data demo_layout demo_image))).
Proof.
  apply (pe256_authenticode sort_sections demo_image demo_layout [(117901063, 328)] 1024).
  - intros l. apply merge_sort_Permutation.
  - exact demo_well_formed.
Defined.

(** A 1024-byte file whose NT headers start 64 bytes before its end. *)
Definition truncated_image : list Z :=
  poke 60 (le_bytes 4 960) (poke 984 (le_bytes 2 0x20b) (replicate 1024 0)).

(** [efi_image_parse] only checks that 64 bytes follow [e_lfanew], and not
    that it is positive, while the optional header it reads is longer: an image
    that stops inside its headers makes [PE256Buffer] read outside the buffer,
    and so does a negative [e_lfanew]. *)
Theorem pe_header_overread qsort :
  PE256Buffer qsort truncated_image = None /\
  PE256Buffer qsort (poke 60 (le_bytes 4 (-256)) truncated_image) = None.
Proof. split; vm_compute; reflexivity. Qed.
