(* ===== verification/BadBlocks.v ===== *)
(** BadBlocks: the bad blocks checker, src/src/badblocks.c.

    The sorted in-memory list of bad blocks, the report of a bad block, and
    the write and compare passes of [test_rw] over a device. The device, the
    user and the C library ([read_sectors], [write_sectors], the status timer,
    [realloc], [rand]) are parameters; [D] is the state of the device and of
    the environment. *)

From S2P Require Import Prelude.

(** ** The list of bad blocks *)

Inductive errcode :=
  | BB_OK | BB_ET_NO_MEMORY | BB_ET_MAGIC_BADBLOCKS_LIST | BB_ET_MAGIC_BADBLOCKS_ITERATE.

#[export] Instance errcode_eq_dec : EqDecision errcode.
Proof. solve_decision. Defined.

(** [struct bb_struct_u64_list]: [list] has [size] elements, [num] in use. *)
Record bb_u64_list := mkBB { magic : errcode; bb_num : nat; bb_size : nat; bb_arr : list Z }.

(** [make_u64_list(size, num, NULL, &ret)], by way of [bb_badblocks_list_create]. *)
Definition make_u64_list (alloc_ok : bool) (size num : nat) : errcode * option bb_u64_list :=
  if alloc_ok then
    let size := if bool_decide (size = 0%nat) then 10%nat else size in
    (BB_OK, Some (mkBB BB_ET_MAGIC_BADBLOCKS_LIST num size (replicate size 0)))
  else (BB_ET_NO_MEMORY, None).

Definition bb_badblocks_list_create (alloc_ok : bool) (size : nat) : errcode * option bb_u64_list :=
  make_u64_list alloc_ok size 0.

(** The search of [bb_u64_list_add] from index [i]: [None] when the block is
    already there, else the index where it goes. *)
Fixpoint add_position (n i num : nat) (arr : list Z) (blk : Z) : option nat :=
  match n with
  | O => Some num
  | S n =>
      if bool_decide (arr !!! i = blk) then None
      else if bool_decide (blk < arr !!! i) then Some i
      else add_position n (S i) num arr blk
  end.

(** [realloc_ok] is the success of the call to [realloc], when it is made. *)
Definition bb_u64_list_add (realloc_ok : bool) (bb : bb_u64_list) (blk : Z) : errcode * bb_u64_list :=
  if bool_decide (magic bb ≠ BB_ET_MAGIC_BADBLOCKS_LIST) then (BB_ET_MAGIC_BADBLOCKS_LIST, bb)
  else
    let grow := bool_decide (bb_size bb <= bb_num bb)%nat in
    if grow && negb realloc_ok then (BB_ET_NO_MEMORY, bb)
    else
      let bb := if grow then mkBB (magic bb) (bb_num bb) (bb_size bb + 100)
                               (bb_arr bb ++ replicate 100 0) else bb in
      let num := bb_num bb in
      let arr := bb_arr bb in
      if bool_decide (num ≠ 0%nat /\ arr !!! (num - 1)%nat = blk) then (BB_OK, bb)
      else if bool_decide (num = 0%nat \/ arr !!! (num - 1)%nat < blk) then
        (BB_OK, mkBB (magic bb) (S num) (bb_size bb) (<[num := blk]> arr))
      else match add_position num 0 num arr blk with
        | None => (BB_OK, bb)
        | Some j => (BB_OK, mkBB (magic bb) (S num) (bb_size bb) (<[j := blk]> (shift_up (num - j) j arr)))
        end.

(** The bisection of [bb_u64_list_find]. *)
Fixpoint find_loop (fuel : nat) (arr : list Z) (blk : Z) (low high : nat) : Z :=
  match fuel with
  | O => -1
  | S fuel =>
      if bool_decide (low < high)%nat then
        let mid := ((low + high) / 2)%nat in
        if bool_decide (mid = low \/ mid = high) then -1
        else if bool_decide (blk = arr !!! mid) then Z.of_nat mid
        else if bool_decide (blk < arr !!! mid) then find_loop fuel arr blk low mid
        else find_loop fuel arr blk mid high
      else -1
  end.

Definition bb_u64_list_find (bb : bb_u64_list) (blk : Z) : Z :=
  if bool_decide (magic bb ≠ BB_ET_MAGIC_BADBLOCKS_LIST) then -1
  else if bool_decide (bb_num bb = 0%nat) then -1
  else
    let high := (bb_num bb - 1)%nat in
    if bool_decide (blk = bb_arr bb !!! 0%nat) then 0
    else if bool_decide (blk = bb_arr bb !!! high) then Z.of_nat high
    else find_loop (bb_num bb) (bb_arr bb) blk 0 high.

Definition bb_u64_list_test (bb : bb_u64_list) (blk : Z) : bool :=
  negb (bool_decide (bb_u64_list_find bb blk < 0)).

(** [bb_u64_list_iterate] on an iterator of [bb] at [ptr]: the new [ptr] and
    the block stored in [*blk]. *)
Definition bb_u64_list_iterate (bb : bb_u64_list) (ptr : nat) : nat * Z :=
  if bool_decide (magic bb ≠ BB_ET_MAGIC_BADBLOCKS_LIST) then (ptr, 0)
  else if bool_decide (ptr < bb_num bb)%nat then (S ptr, bb_arr bb !!! ptr)
  else (ptr, 0).

(** ** Globals *)

Inductive error_types := READ_ERROR | WRITE_ERROR | CORRUPTION_ERROR.
Inductive op_type := OP_READ | OP_WRITE.

Record bb_globals := mkG {
  cancel_ops : Z;
  cur_pattern : Z;
  nr_pattern : Z;
  cur_op : op_type;
  currently_testing : Z;
  num_blocks : Z;
  num_read_errors : Z;
  num_write_errors : Z;
  num_corruption_errors : Z;
  bb_list : bb_u64_list;
  next_bad : Z;
  bb_iter : option nat
}.

Definition set_cancel (g : bb_globals) : bb_globals :=
  mkG (-1) (cur_pattern g) (nr_pattern g) (cur_op g) (currently_testing g) (num_blocks g)
    (num_read_errors g) (num_write_errors g) (num_corruption_errors g) (bb_list g) (next_bad g) (bb_iter g).
Definition set_testing (ct : Z) (g : bb_globals) : bb_globals :=
  mkG (cancel_ops g) (cur_pattern g) (nr_pattern g) (cur_op g) ct (num_blocks g)
    (num_read_errors g) (num_write_errors g) (num_corruption_errors g) (bb_list g) (next_bad g) (bb_iter g).
Definition set_list (l : bb_u64_list) (g : bb_globals) : bb_globals :=
  mkG (cancel_ops g) (cur_pattern g) (nr_pattern g) (cur_op g) (currently_testing g) (num_blocks g)
    (num_read_errors g) (num_write_errors g) (num_corruption_errors g) l (next_bad g) (bb_iter g).
Definition set_iter (it : nat * Z) (g : bb_globals) : bb_globals :=
  mkG (cancel_ops g) (cur_pattern g) (nr_pattern g) (cur_op g) (currently_testing g) (num_blocks g)
    (num_read_errors g) (num_write_errors g) (num_corruption_errors g) (bb_list g) (snd it) (Some (fst it)).
Definition start_pass (op : op_type) (first n : Z) (g : bb_globals) : bb_globals :=
  mkG (cancel_ops g) (cur_pattern g) (nr_pattern g) op first n
    (num_read_errors g) (num_write_errors g) (num_corruption_errors g) (bb_list g) (next_bad g) (bb_iter g).
Definition set_patterns (cur nr : Z) (g : bb_globals) : bb_globals :=
  mkG (cancel_ops g) cur nr (cur_op g) (currently_testing g) (num_blocks g)
    (num_read_errors g) (num_write_errors g) (num_corruption_errors g) (bb_list g) (next_bad g) (bb_iter g).

Definition count_error (e : error_types) (g : bb_globals) : bb_globals :=
  let '(r, w, c) := match e with
    | READ_ERROR => (u32 (num_read_errors g + 1), num_write_errors g, num_corruption_errors g)
    | WRITE_ERROR => (num_read_errors g, u32 (num_write_errors g + 1), num_corruption_errors g)
    | CORRUPTION_ERROR => (num_read_errors g, num_write_errors g, u32 (num_corruption_errors g + 1))
    end in
  mkG (cancel_ops g) (cur_pattern g) (nr_pattern g) (cur_op g) (currently_testing g) (num_blocks g)
    r w c (bb_list g) (next_bad g) (bb_iter g).

(** [bb_output]: 1 when the block is new; the log file is not modelled. *)
Definition bb_output (realloc_ok : bool) (bad : Z) (e : error_types) (g : bb_globals) : Z * bb_globals :=
  if bb_u64_list_test (bb_list g) bad then (0, g)
  else
    let '(err, l) := bb_u64_list_add realloc_ok (bb_list g) bad in
    if bool_decide (err ≠ BB_OK) then (0, g)
    else
      let g := set_list l g in
      let g := match bb_iter g with
        | Some ptr => if bool_decide (bad < next_bad g)
                      then set_iter (bb_u64_list_iterate l ptr) g else g
        | None => g
        end in
      (1, count_error e g).

(** ** Patterns *)

(** The bytes of the pattern, least significant first, up to the last
    nonzero one: [bpattern[0 .. i-1]]. *)
Fixpoint pattern_bytes (n : nat) (pattern : Z) : list Z :=
  match n with
  | O => []
  | S n => if bool_decide (pattern = 0) then []
           else Z.land pattern 0xff :: pattern_bytes n (Z.shiftr pattern 8)
  end.

(** [*ptr = bpattern[i]], with [i] cycling down from [nb]. *)
Fixpoint pattern_loop (bpattern : list Z) (nb n i : nat) : list Z :=
  match n with
  | O => []
  | S n => bpattern !!! i :: pattern_loop bpattern nb n (if bool_decide (i = 0%nat) then nb else i - 1)%nat
  end.

(** [pattern_fill(buffer, pattern, n)]; [rnd] is [rand() % 256] for the
    [~0] pattern. Returns the buffer and whether [cur_pattern] advances. *)
Definition pattern_fill (rnd : nat -> Z) (pattern : Z) (n : nat) : list Z * bool :=
  if bool_decide (pattern = 2 ^ 32 - 1) then (rnd <$> seq 0 n, false)
  else
    let bs := pattern_bytes 4 pattern in
    let nb := (length bs - 1)%nat in
    let bpattern := if bool_decide (bs = []) then [0] else bs in
    (pattern_loop bpattern nb n nb, true).

Definition patterns : list (list Z) :=
  [[0x55; 0; 0; 0]; [0x55; 0xaa; 0; 0]; [0; 0xff; 0x55; 0xaa]; [0; 0xff; 0x33; 0xcc];
   [0; 0xff; 0x1c71c7; 0xe38e38]].

Definition BADLOCKS_PATTERN_TYPES : Z := 5.
Definition BADBLOCK_PATTERN_COUNT : Z := 4.
Definition BADBLOCK_BLOCK_SIZE : Z := 512 * 1024.
Definition BB_BLOCKS_AT_ONCE : Z := 64.
Definition BB_BAD_BLOCKS_THRESHOLD : Z := 256.
Definition PB : Z := 2 ^ 50.
Definition RAND_MAX : Z := 0x7fff.

(** ** The passes *)

Section test.
Context {D : Type}.
(** The result (bytes transferred, or negative) and the new state; a read
    also yields the bytes it stored in the buffer. *)
Context (write_sectors : D -> Z -> Z -> list Z -> Z * D).
Context (read_sectors : D -> Z -> Z -> Z * list Z * D).
(** The user has cancelled ([ErrorStatus] is set) when the timer fires. *)
Context (interrupted : D -> bool).
Context (realloc_ok : bool) (rnd : nat -> Z).
Context (detect_fakes : bool).
Context (last_block block_size first_block blocks_at_once : Z).

Definition max_bb : Z := BB_BAD_BLOCKS_THRESHOLD.

(** [alarm_intr], as the next test of [cancel_ops] sees it. *)
Definition alarm_intr (d : D) (g : bb_globals) : bb_globals :=
  if bool_decide (num_blocks g = 0) then g
  else if interrupted d then set_cancel g else g.

(** The end of [do_read] and [do_write]. *)
Definition blocks_done (got : Z) : Z := (if bool_decide (got < 0) then 0 else got) / block_size.

Definition do_write (d : D) (buffer : list Z) (tryout ct : Z) : Z * D :=
  let '(got, d) := write_sectors d ct tryout (take (Z.to_nat (tryout * block_size)) buffer) in
  (blocks_done got, d).

Definition do_read (d : D) (read_buffer : list Z) (tryout ct : Z) : Z * list Z * D :=
  let '(got, bytes, d) := read_sectors d ct tryout in
  (blocks_done got, splice 0 bytes read_buffer, d).

(** The block numbers stored at [id_offset] in each block of the buffer. *)
Fixpoint stamp_ids (n : nat) (i : Z) (id_offset ct : Z) (buffer : list Z) : list Z :=
  match n with
  | O => buffer
  | S n =>
      stamp_ids n (i + 1) id_offset ct
        (splice (Z.to_nat (id_offset + i * block_size)) (le_bytes 8 (u64 (ct + i))) buffer)
  end.

(** What a pass carries from one iteration to the next. *)
Record pass_state := mkPass {
  p_g : bb_globals;
  p_d : D;
  p_buffer : list Z;
  p_read : list Z;
  p_count : Z;       (* bb_count *)
  p_tryout : Z;
  p_recover : Z      (* recover_block *)
}.

Definition NO_RECOVER : Z := 2 ^ 64 - 1.

(** The start of an iteration: the tests that jump to [out], then the
    adjusted [tryout] and the stamped buffer. *)
Definition pass_enter (first_pass : bool) (id_offset : Z) (s : pass_state) : pass_state + pass_state :=
  let g := alarm_intr (p_d s) (p_g s) in
  let s := mkPass g (p_d s) (p_buffer s) (p_read s) (p_count s) (p_tryout s) (p_recover s) in
  if bool_decide (cancel_ops g ≠ 0) then inl s
  else if bool_decide (max_bb ≠ 0 /\ max_bb <= p_count s) then
    inl (mkPass (set_cancel g) (p_d s) (p_buffer s) (p_read s) (p_count s) (p_tryout s) (p_recover s))
  else
    let ct := currently_testing g in
    let tryout := if bool_decide (last_block < ct + p_tryout s) then last_block - ct else p_tryout s in
    let buffer := if detect_fakes && first_pass
                  then stamp_ids (Z.to_nat blocks_at_once) 0 id_offset ct (p_buffer s) else p_buffer s in
    inr (mkPass g (p_d s) buffer (p_read s) (p_count s) tryout (p_recover s)).

(** [if (got == 0 && tryout == 1) bb_count += bb_output(currently_testing++, e);
    currently_testing += got;] *)
Definition pass_advance (e : error_types) (got : Z) (s : pass_state) : pass_state :=
  let g := p_g s in
  let ct := currently_testing g in
  let '(count, g) :=
    if bool_decide (got = 0 /\ p_tryout s = 1) then
      let '(n, g) := bb_output realloc_ok ct e (set_testing (u64 (ct + 1)) g) in
      (u32 (p_count s + n), g)
    else (p_count s, g) in
  mkPass (set_testing (u64 (currently_testing g + got)) g) (p_d s) (p_buffer s) (p_read s) count
    (p_tryout s) (p_recover s).

(** The change of [tryout] and [recover_block]; [true] for [continue]. *)
Definition pass_adjust (got : Z) (s : pass_state) : bool * pass_state :=
  let ct := currently_testing (p_g s) in
  if bool_decide (got ≠ p_tryout s) then
    (true, mkPass (p_g s) (p_d s) (p_buffer s) (p_read s) (p_count s) 1
             (if bool_decide (p_recover s = NO_RECOVER) then u64 (ct - got + blocks_at_once)
              else p_recover s))
  else if bool_decide (ct = p_recover s) then
    (false, mkPass (p_g s) (p_d s) (p_buffer s) (p_read s) (p_count s) blocks_at_once NO_RECOVER)
  else (false, s).

Definition write_iter (first_pass : bool) (id_offset : Z) (s : pass_state) : pass_state + pass_state :=
  match pass_enter first_pass id_offset s with
  | inl s => inl s
  | inr s =>
      let '(got, d) := do_write (p_d s) (p_buffer s) (p_tryout s) (currently_testing (p_g s)) in
      let s := mkPass (p_g s) d (p_buffer s) (p_read s) (p_count s) (p_tryout s) (p_recover s) in
      inr (snd (pass_adjust got (pass_advance WRITE_ERROR got s)))
  end.

(** The [memcmp] loop over the [got] blocks read; [inl] for the jump to [out] of
    [if_assert_fails]. The [assert] inside this macro, which ends a program that was built with
    assertions, is left out: the jump is what follows it in any other. *)
Fixpoint compare_blocks (n : nat) (i got : Z) (s : pass_state) : pass_state + pass_state :=
  match n with
  | O => inr s
  | S n =>
      let off := Z.to_nat (i * block_size) in
      let bs := Z.to_nat block_size in
      if bool_decide (slice off bs (p_read s) = slice off bs (p_buffer s))
      then compare_blocks n (i + 1) got s
      else
        let ct := currently_testing (p_g s) in
        if bool_decide (u64 (ct * block_size) < PB) then
          let '(k, g) := bb_output realloc_ok (u64 (ct + i - got)) CORRUPTION_ERROR (p_g s) in
          compare_blocks n (i + 1) got
            (mkPass g (p_d s) (p_buffer s) (p_read s) (u32 (p_count s + k)) (p_tryout s) (p_recover s))
        else inl s
  end.

Definition read_iter (first_pass : bool) (id_offset : Z) (s : pass_state) : pass_state + pass_state :=
  match pass_enter first_pass id_offset s with
  | inl s => inl s
  | inr s =>
      let '(got, rbuf, d) := do_read (p_d s) (p_read s) (p_tryout s) (currently_testing (p_g s)) in
      let s := mkPass (p_g s) d (p_buffer s) rbuf (p_count s) (p_tryout s) (p_recover s) in
      match pass_adjust got (pass_advance READ_ERROR got s) with
      | (true, s) => inr s
      | (false, s) => compare_blocks (Z.to_nat got) 0 got s
      end
  end.

(** [while (currently_testing < last_block)]; [None] when fuel runs out. *)
Fixpoint pass_loop (iter : pass_state -> pass_state + pass_state) (fuel : nat) (s : pass_state)
    : option (pass_state + pass_state) :=
  if bool_decide (currently_testing (p_g s) < last_block) then
    match fuel with
    | O => None
    | S fuel =>
        match iter s with
        | inl s => Some (inl s)
        | inr s => pass_loop iter fuel s
        end
    end
  else Some (inr s).

Definition pass_fuel : nat := Z.to_nat (2 * (last_block - first_block) + 2).

(** One iteration of [for (pat_idx = 0; pat_idx < nb_passes; pat_idx++)]. *)
Definition test_pass (pattern : Z) (first_pass : bool) (id_offset : Z) (s : pass_state)
    : option (pass_state + pass_state) :=
  let g := alarm_intr (p_d s) (p_g s) in
  if bool_decide (cancel_ops g ≠ 0) then
    Some (inl (mkPass g (p_d s) (p_buffer s) (p_read s) (p_count s) (p_tryout s) (p_recover s)))
  else
    let '(buffer, adv) := pattern_fill rnd pattern (Z.to_nat (blocks_at_once * block_size)) in
    let g := set_patterns (if adv then cur_pattern g + 1 else cur_pattern g) (nr_pattern g) g in
    let g := start_pass OP_WRITE first_block (u64 (last_block - 1)) g in
    r ← pass_loop (write_iter first_pass id_offset) pass_fuel
          (mkPass g (p_d s) buffer (p_read s) (p_count s) blocks_at_once (p_recover s));
    match r with
    | inl s => Some (inl s)
    | inr s =>
        let g := start_pass OP_READ first_block last_block (p_g s) in
        r ← pass_loop (read_iter first_pass id_offset) pass_fuel
              (mkPass g (p_d s) (p_buffer s) (p_read s) (p_count s) blocks_at_once (p_recover s));
        match r with
        | inl s => Some (inl s)
        | inr s =>
            Some (inr (mkPass (start_pass OP_READ (currently_testing (p_g s)) 0 (p_g s)) (p_d s)
                         (p_buffer s) (p_read s) (p_count s) (p_tryout s) (p_recover s)))
        end
    end.

Fixpoint test_passes (pats : list Z) (first_pass : bool) (id_offset : Z) (s : pass_state)
    : option pass_state :=
  match pats with
  | [] => Some s
  | pattern :: pats =>
      r ← test_pass pattern first_pass id_offset s;
      match r with
      | inl s => Some s
      | inr s => test_passes pats false id_offset s
      end
  end.
End test.

Arguments mkPass {D} _ _ _ _ _ _ _.
Arguments p_g {D} _.
Arguments p_d {D} _.
Arguments p_buffer {D} _.
Arguments p_read {D} _.
Arguments p_count {D} _.
Arguments p_tryout {D} _.
Arguments p_recover {D} _.

Section BadBlocks.
Context {D : Type}.
Context (write_sectors : D -> Z -> Z -> list Z -> Z * D).
Context (read_sectors : D -> Z -> Z -> Z * list Z * D).
Context (interrupted : D -> bool).
Context (realloc_ok : bool) (rnd : nat -> Z) (rand : Z).
Context (detect_fakes : bool).

(** [test_rw]: the count of bad blocks, the globals and the device. [rand] is
    the value [rand()] returns, [read0] what the allocated read buffer holds. The product in
    [id_offset] is that of a 64-bit [size_t], in which it does not wrap; a 32-bit program
    would give another offset, also below [block_size - 8]. *)
Definition test_rw (buffer_ok : bool) (last_block block_size first_block blocks_at_once : Z)
    (pattern_type nb_passes : Z) (read0 : list Z) (g : bb_globals) (d : D)
    : option (Z * bb_globals * D) :=
  if bool_decide (pattern_type < 0 \/ BADLOCKS_PATTERN_TYPES <= pattern_type) then Some (0, set_cancel g, d)
  else if bool_decide (nb_passes < 1 \/ BADBLOCK_PATTERN_COUNT < nb_passes) then Some (0, set_cancel g, d)
  else if bool_decide (PB < u64 (first_block * block_size) \/ PB < u64 (last_block * block_size)) then
    Some (0, set_cancel g, d)
  else if negb buffer_ok then Some (0, set_cancel g, d)
  else
    let id_offset := if detect_fakes then rand * (block_size - 8) / RAND_MAX else 0 in
    let pats := take (Z.to_nat nb_passes) (patterns !!! Z.to_nat pattern_type) in
    s ← test_passes write_sectors read_sectors interrupted realloc_ok rnd detect_fakes
          last_block block_size first_block blocks_at_once pats true id_offset
          (mkPass (set_patterns 0 nb_passes g) d [] read0 0 blocks_at_once NO_RECOVER);
    Some (p_count s, p_g s, p_d s).

Record badblocks_report := mkReport {
  r_bb_count : Z; r_read_errors : Z; r_write_errors : Z; r_corruption_errors : Z
}.

(** [BadBlocks], with [report] not NULL; [g] is the globals beforehand. *)
Definition BadBlocks (list_ok buffer_ok : bool) (disk_size nb_passes flash_type : Z)
    (read0 : list Z) (g : bb_globals) (d : D) : option (bool * option badblocks_report * D) :=
  let last_block := disk_size / BADBLOCK_BLOCK_SIZE in
  match bb_badblocks_list_create list_ok 0 with
  | (BB_OK, Some l) =>
      let g := mkG 0 (cur_pattern g) (nr_pattern g) (cur_op g) (currently_testing g) (num_blocks g)
                 0 0 0 l (next_bad g) (bb_iter g) in
      '(count, g, d) ← test_rw buffer_ok last_block BADBLOCK_BLOCK_SIZE 0 BB_BLOCKS_AT_ONCE
                         flash_type nb_passes read0 g d;
      let report := mkReport count (num_read_errors g) (num_write_errors g) (num_corruption_errors g) in
      Some (negb (bool_decide (cancel_ops g ≠ 0 /\ count = 0)), Some report, d)
  | _ => Some (false, None, d)
  end.
End BadBlocks.
