(* ===== verification/BadBlocksCorrect.v ===== *)
(** BadBlocksCorrect: the bad block list is a sorted set, the passes of
    [test_rw] end and account for every block they report, a faithful device
    has no bad block and a device with less storage than it claims is found. *)

From Stdlib Require Import Sorting.Sorted.
From S2P Require Import Prelude BadBlocks.

#[local] Arguments Nat.div : simpl never.
#[local] Arguments Z.mul : simpl never.
#[local] Arguments le_bytes : simpl never.

(** ** The list as a sorted set *)

Definition blocks (l : bb_u64_list) : list Z := take (bb_num l) (bb_arr l).

Record list_ok (l : bb_u64_list) : Prop := {
  lk_magic : magic l = BB_ET_MAGIC_BADBLOCKS_LIST;
  lk_room : (bb_num l <= bb_size l)%nat /\ (0 < bb_size l)%nat;
  lk_length : length (bb_arr l) = bb_size l;
  lk_sorted : StronglySorted Z.lt (blocks l)
}.

Lemma length_blocks l : list_ok l -> length (blocks l) = bb_num l.
Proof. intros []. unfold blocks. rewrite length_take. lia. Qed.

Lemma blocks_lookup l i :
  list_ok l -> (i < bb_num l)%nat -> blocks l !! i = Some (bb_arr l !!! i).
Proof.
  intros [] Hi. unfold blocks. rewrite lookup_take_lt by done. apply list_lookup_lookup_total_lt. lia.
Qed.

Lemma sorted_lookup (l : list Z) i j x y :
  StronglySorted Z.lt l -> l !! i = Some x -> l !! j = Some y -> (i < j)%nat -> x < y.
Proof.
  intros Hs. revert i j. induction Hs as [|a l Hs IH Ha]; intros [|i] [|j] Hi Hj Hij; simplify_eq/=; try lia.
  - rewrite Forall_lookup in Ha. eauto.
  - eapply (IH i j); eauto. lia.
Qed.

Lemma sorted_insert (l1 l2 : list Z) x :
  StronglySorted Z.lt (l1 ++ l2) -> Forall (fun y => y < x) l1 -> Forall (fun y => x < y) l2 ->
  StronglySorted Z.lt (l1 ++ x :: l2).
Proof.
  induction l1 as [|y l1 IH]; intros Hs H1 H2; simpl in *.
  - by constructor.
  - inversion_clear Hs as [|? ? Hs' Hy]. apply Forall_cons in H1 as [Hyx H1]. constructor; [by apply IH|].
    apply Forall_app in Hy as [Hy1 Hy2]. apply Forall_app. by split; [|constructor].
Qed.

Lemma add_position_spec n i num arr blk :
  (n + i = num)%nat ->
  match add_position n i num arr blk with
  | None => exists j, (i <= j < num)%nat /\ arr !!! j = blk
  | Some j => (i <= j <= num)%nat /\ (forall k, (i <= k < j)%nat -> arr !!! k < blk) /\
      ((j < num)%nat -> blk < arr !!! j)
  end.
Proof.
  revert i. induction n as [|n IH]; intros i Hn; simpl.
  - split_and!; [lia..| |lia]. intros; lia.
  - case_bool_decide as H1; [exists i; split; [lia|done]|]. case_bool_decide as H2.
    + split_and!; [lia..| |done]. intros; lia.
    + specialize (IH (S i) ltac:(lia)). destruct (add_position n (S i) num arr blk) as [j|].
      * destruct IH as (Hj & Hk & Hlt). split_and!; [lia..| |done].
        intros k Hki. destruct (decide (k = i)) as [->|]; [lia|]. apply Hk. lia.
      * destruct IH as (j & Hj & E). exists j. split; [lia|done].
Qed.

(** The list after a successful addition. *)
Definition added (l l' : bb_u64_list) (blk : Z) : Prop :=
  list_ok l' /\ (forall b, b ∈ blocks l' <-> b = blk \/ b ∈ blocks l) /\
  bb_num l' = (if bool_decide (blk ∈ blocks l) then bb_num l else S (bb_num l)).

Lemma added_present l blk : list_ok l -> blk ∈ blocks l -> added l l blk.
Proof. intros Hok Hin. split_and!; [done|naive_solver|by rewrite bool_decide_true]. Qed.

Lemma added_insert l blk j arr :
  list_ok l -> (bb_num l < bb_size l)%nat -> (j <= bb_num l)%nat ->
  (forall k, (k < j)%nat -> bb_arr l !!! k < blk) ->
  ((j < bb_num l)%nat -> blk < bb_arr l !!! j) ->
  arr = <[j := blk]> (shift_up (bb_num l - j) j (bb_arr l)) ->
  added l (mkBB (magic l) (S (bb_num l)) (bb_size l) arr) blk.
Proof.
  intros Hok Hroom Hj Hlo Hhi ->. pose proof Hok as [].
  set (l' := mkBB _ _ _ _).
  assert (E : blocks l' = take j (blocks l) ++ blk :: drop j (blocks l)).
  { unfold blocks, l'. simpl. rewrite insert_shift_up by lia. by rewrite take_take, Nat.min_l by lia. }
  assert (H1 : Forall (fun y => y < blk) (take j (blocks l))).
  { apply Forall_lookup. intros k x Hk. apply lookup_take_Some in Hk as [Hk Hkj].
    rewrite blocks_lookup in Hk by (done || lia). simplify_eq. by apply Hlo. }
  assert (H2 : Forall (fun y => blk < y) (drop j (blocks l))).
  { apply Forall_lookup. intros k x Hk. rewrite lookup_drop in Hk.
    pose proof (lookup_lt_Some _ _ _ Hk) as Hlt. rewrite length_blocks in Hlt by done.
    specialize (Hhi ltac:(lia)). destruct k as [|k].
    - rewrite Nat.add_0_r, blocks_lookup in Hk by (done || lia). by simplify_eq.
    - pose proof (sorted_lookup (blocks l) j (j + S k) (bb_arr l !!! j) x lk_sorted0) as Hs.
      specialize (Hs (blocks_lookup l j Hok ltac:(lia)) Hk ltac:(lia)). lia. }
  assert (Hnot : blk ∉ blocks l).
  { rewrite <- (take_drop j (blocks l)), elem_of_app. rewrite Forall_forall in H1, H2.
    intros [Hb|Hb]; [specialize (H1 _ Hb)|specialize (H2 _ Hb)]; lia. }
  split; [|split].
  - constructor; simpl; [done|lia| |].
    + by rewrite length_insert, length_shift_up.
    + change (StronglySorted Z.lt (blocks l')). rewrite E. apply sorted_insert; [|done..].
      by rewrite take_drop.
  - intros b. rewrite E, elem_of_app, elem_of_cons.
    rewrite <- (take_drop j (blocks l)) at 3. rewrite elem_of_app. tauto.
  - simpl. by rewrite bool_decide_false.
Qed.

Lemma grow_ok l :
  list_ok l ->
  list_ok (mkBB (magic l) (bb_num l) (bb_size l + 100) (bb_arr l ++ replicate 100 0)) /\
  blocks (mkBB (magic l) (bb_num l) (bb_size l + 100) (bb_arr l ++ replicate 100 0)) = blocks l.
Proof.
  intros Hok. destruct Hok.
  assert (E : blocks (mkBB (magic l) (bb_num l) (bb_size l + 100) (bb_arr l ++ replicate 100 0)) = blocks l).
  { unfold blocks. simpl. apply take_app_le. lia. }
  split; [|done]. constructor; [done|simpl; lia| |by rewrite E].
  cbn [bb_arr bb_size]. rewrite length_app, length_replicate. lia.
Qed.

Lemma list_add_room l blk ok :
  list_ok l -> (bb_num l < bb_size l)%nat ->
  exists l', bb_u64_list_add ok l blk = (BB_OK, l') /\ added l l' blk.
Proof.
  intros Hok Hroom. pose proof Hok as []. unfold bb_u64_list_add.
  rewrite bool_decide_false by (by intros ?). rewrite bool_decide_false by lia. simpl.
  case_bool_decide as H1.
  - exists l. split; [done|]. apply added_present; [done|].
    destruct H1 as [Hn <-]. apply (list_elem_of_lookup_2 _ (bb_num l - 1)). apply blocks_lookup; [done|lia].
  - case_bool_decide as H2.
    + eexists. split; [done|]. apply (added_insert l blk (bb_num l)); [done|done|lia| |lia|].
      * intros k Hk. destruct H2 as [|H2]; [lia|].
        destruct (decide (k = bb_num l - 1)%nat) as [->|]; [done|].
        pose proof (sorted_lookup (blocks l) k (bb_num l - 1) _ _ lk_sorted0
          (blocks_lookup l k Hok Hk) (blocks_lookup l (bb_num l - 1) Hok ltac:(lia)) ltac:(lia)). lia.
      * by rewrite Nat.sub_diag.
    + pose proof (add_position_spec (bb_num l) 0 (bb_num l) (bb_arr l) blk ltac:(lia)) as Hp.
      destruct (add_position (bb_num l) 0 (bb_num l) (bb_arr l) blk) as [j|].
      * destruct Hp as (Hj & Hk & Hlt). eexists. split; [done|].
        apply (added_insert l blk j); [done|done|lia| |done|done]. intros k Hkj. apply Hk. lia.
      * destruct Hp as (j & Hj & <-). exists l. split; [done|]. apply added_present; [done|].
        apply (list_elem_of_lookup_2 _ j). apply blocks_lookup; [done|lia].
Qed.

Lemma list_add_ok l blk ok :
  list_ok l ->
  (ok = false /\ bb_num l = bb_size l /\ bb_u64_list_add ok l blk = (BB_ET_NO_MEMORY, l)) \/
  (exists l', bb_u64_list_add ok l blk = (BB_OK, l') /\ added l l' blk).
Proof.
  intros Hok. pose proof Hok as []. destruct (decide (bb_num l < bb_size l)%nat) as [Hr|Hr].
  { right. by apply list_add_room. }
  destruct ok.
  - right. destruct (grow_ok l Hok) as [Hok' E].
    set (l' := mkBB _ _ _ _) in *. destruct (list_add_room l' blk true Hok') as (l2 & H2 & Ha & Hb & Hc).
    { simpl. lia. }
    exists l2. split.
    + rewrite <- H2. unfold bb_u64_list_add. unfold l'. simpl.
      assert (Hm : bool_decide (magic l ≠ BB_ET_MAGIC_BADBLOCKS_LIST) = false)
        by (apply bool_decide_eq_false_2; by intros ?).
      rewrite Hm, (bool_decide_true (bb_size l <= bb_num l)%nat) by lia.
      by rewrite (bool_decide_false (bb_size l + 100 <= bb_num l)%nat) by lia.
    + rewrite E in Hb, Hc. done.
  - left. split_and!; [done|lia|]. unfold bb_u64_list_add.
    rewrite bool_decide_false by (by intros ?). by rewrite bool_decide_true by lia.
Qed.

Lemma find_loop_spec fuel num arr blk low high :
  (forall i j, (i < j < num)%nat -> arr !!! i < arr !!! j) ->
  (low <= high < num)%nat -> (high - low <= fuel)%nat ->
  (find_loop fuel arr blk low high = -1 /\ forall k, (low < k < high)%nat -> arr !!! k ≠ blk) \/
  (exists k, (low < k < high)%nat /\ arr !!! k = blk /\ find_loop fuel arr blk low high = Z.of_nat k).
Proof.
  intros Hs. revert low high. induction fuel as [|fuel IH]; intros low high Hlh Hf; simpl.
  - left. split; [done|]. intros; lia.
  - case_bool_decide as H1; [|left; split; [done|intros; lia]].
    set (mid := ((low + high) / 2)%nat).
    assert (Hmid : (low <= mid < high)%nat).
    { unfold mid. split; [apply Nat.div_le_lower_bound; lia|apply Nat.Div0.div_lt_upper_bound; lia]. }
    case_bool_decide as H2.
    + left. split; [done|]. intros k Hk. destruct H2 as [Hm|Hm]; [|lia]. unfold mid in Hm.
      pose proof (Nat.div_mod (low + high) 2 ltac:(lia)).
      pose proof (Nat.mod_upper_bound (low + high) 2 ltac:(lia)). lia.
    + case_bool_decide as H3; [right; exists mid; split_and!; [lia..|done|done]|].
      case_bool_decide as H4.
      * destruct (IH low mid) as [[E Hn]|(k & Hk & E1 & E2)]; [lia..| |].
        -- left. split; [done|]. intros k Hk. destruct (decide (k < mid)%nat); [apply Hn; lia|].
           destruct (decide (k = mid)) as [->|]; [congruence|]. pose proof (Hs mid k ltac:(lia)). lia.
        -- right. exists k. split_and!; [lia..|done|done].
      * destruct (IH mid high) as [[E Hn]|(k & Hk & E1 & E2)]; [lia..| |].
        -- left. split; [done|]. intros k Hk. destruct (decide (mid < k)%nat); [apply Hn; lia|].
           destruct (decide (k = mid)) as [->|]; [congruence|]. pose proof (Hs k mid ltac:(lia)). lia.
        -- right. exists k. split_and!; [lia..|done|done].
Qed.

Lemma list_find_spec l blk :
  list_ok l ->
  ((blk ∉ blocks l) /\ bb_u64_list_find l blk = -1) \/
  (exists i, blocks l !! i = Some blk /\ bb_u64_list_find l blk = Z.of_nat i).
Proof.
  intros Hok. pose proof Hok as []. unfold bb_u64_list_find.
  rewrite bool_decide_false by (by intros ?). case_bool_decide as H0.
  - left. split; [|done]. unfold blocks. rewrite H0. apply not_elem_of_nil.
  - case_bool_decide as H1; [|case_bool_decide as H2].
    + right. exists 0%nat. split; [|done]. rewrite H1. apply blocks_lookup; [done|lia].
    + right. exists (bb_num l - 1)%nat. split; [|done]. rewrite H2. apply blocks_lookup; [done|lia].
    + assert (Hs : forall i j, (i < j < bb_num l)%nat -> bb_arr l !!! i < bb_arr l !!! j).
      { intros i j Hij. apply (sorted_lookup (blocks l) i j); [done|apply blocks_lookup; [done|lia]..|lia]. }
      destruct (find_loop_spec (bb_num l) (bb_num l) (bb_arr l) blk 0 (bb_num l - 1) Hs)
        as [[E Hn]|(k & Hk & E1 & E2)]; [lia..| |].
      * left. split; [|done]. intros Hin. apply list_elem_of_lookup_1 in Hin as [k Hk].
        pose proof (lookup_lt_Some _ _ _ Hk) as Hlt. rewrite length_blocks in Hlt by done.
        rewrite blocks_lookup in Hk by done. injection Hk as Hk.
        destruct (decide (k = 0%nat)) as [->|]; [congruence|].
        destruct (decide (k = bb_num l - 1)%nat) as [->|]; [congruence|]. apply (Hn k); [lia|done].
      * right. exists k. split; [|done]. rewrite <- E1. apply blocks_lookup; [done|lia].
Qed.

Lemma list_test_spec l blk : list_ok l -> bb_u64_list_test l blk = bool_decide (blk ∈ blocks l).
Proof.
  intros Hok. unfold bb_u64_list_test.
  destruct (list_find_spec l blk Hok) as [[Hn ->]|(i & Hi & ->)].
  - rewrite (bool_decide_true (-1 < 0)) by lia. symmetry. by apply bool_decide_false.
  - rewrite (bool_decide_false (Z.of_nat i < 0)) by lia. symmetry. apply bool_decide_true.
    by eapply list_elem_of_lookup_2.
Qed.

(** ** Accounting

    The reported blocks are the list, every counter counts them, and they lie
    in the range that is tested. *)

Definition total_errors (g : bb_globals) : Z :=
  num_read_errors g + num_write_errors g + num_corruption_errors g.

Record accounted (lo hi : Z) (count : Z) (g : bb_globals) : Prop := {
  ac_list : list_ok (bb_list g);
  ac_iter : bb_iter g = None;
  ac_range : Forall (fun b => lo <= b < hi) (blocks (bb_list g));
  ac_count : count = Z.of_nat (bb_num (bb_list g));
  ac_total : total_errors g = count;
  ac_nonneg : 0 <= num_read_errors g /\ 0 <= num_write_errors g /\ 0 <= num_corruption_errors g
}.

(** A sorted list of blocks of a range is no longer than the range. *)
Lemma sorted_range_length (l : list Z) lo hi :
  StronglySorted Z.lt l -> Forall (fun b => lo <= b < hi) l -> lo <= hi ->
  Z.of_nat (length l) <= hi - lo.
Proof.
  intros Hs. revert lo. induction Hs as [|x l Hs IH Hx]; intros lo Hr Hle; simpl; [lia|].
  apply Forall_cons in Hr as [Hxr Hr]. specialize (IH (x + 1)).
  assert (Forall (fun b => x + 1 <= b < hi) l).
  { rewrite Forall_forall in Hx, Hr |- *. intros b Hb. specialize (Hx b Hb). specialize (Hr b Hb). lia. }
  specialize (IH H ltac:(lia)). lia.
Qed.

Lemma accounted_bound lo hi count g :
  accounted lo hi count g -> lo <= hi -> 0 <= count <= hi - lo.
Proof.
  intros [] Hle. pose proof (sorted_range_length _ lo hi (lk_sorted _ ac_list0) ac_range0 Hle) as H.
  rewrite length_blocks in H by done. lia.
Qed.

Lemma bb_output_spec ok bad e g lo hi count :
  accounted lo hi count g -> lo <= bad < hi -> hi - lo < 2 ^ 32 ->
  exists k g', bb_output ok bad e g = (k, g') /\ accounted lo hi (u32 (count + k)) g' /\
    count <= u32 (count + k) /\ 0 < u32 (count + k) /\
    cancel_ops g' = cancel_ops g /\ currently_testing g' = currently_testing g /\
    num_blocks g' = num_blocks g.
Proof.
  intros Hacc Hbad Hhl. pose proof (accounted_bound _ _ _ _ Hacc ltac:(lia)) as Hbound.
  destruct Hacc. unfold bb_output. rewrite list_test_spec by done.
  case_bool_decide as Hin.
  { exists 0, g. rewrite Z.add_0_r, uwrap_small by lia. split_and!; try done.
    subst count. apply list_elem_of_lookup_1 in Hin as [i Hi]. apply lookup_lt_Some in Hi.
    rewrite length_blocks in Hi by done. lia. }
  destruct (list_add_ok (bb_list g) bad ok ac_list0) as [(-> & Hn & ->)|(l' & -> & Hok' & Hel & Hnum)].
  { rewrite bool_decide_true by done. exists 0, g. rewrite Z.add_0_r, uwrap_small by lia.
    split_and!; try done. destruct ac_list0. lia. }
  rewrite bool_decide_false in Hnum by done. rewrite bool_decide_false by (by intros ?).
  simpl bb_iter. rewrite ac_iter0.
  assert (Hnew : Forall (fun b => lo <= b < hi) (blocks l')).
  { apply Forall_forall. intros b Hb. apply Hel in Hb as [->|Hb]; [done|].
    rewrite Forall_forall in ac_range0. by apply ac_range0. }
  assert (Hb : Z.of_nat (bb_num l') <= hi - lo).
  { rewrite <- length_blocks by done. apply sorted_range_length; [by destruct Hok'|done|lia]. }
  exists 1, (count_error e (set_list l' g)). unfold total_errors in *.
  split; [done|]. rewrite uwrap_small by lia. split; [|split; [lia|split; [lia|]]].
  - destruct e; constructor; unfold total_errors; simpl; rewrite ?uwrap_small by lia; try done; lia.
  - by destruct e.
Qed.

(** ** Every device: termination and accounting *)

(** A transfer that a run makes: [n] blocks from [ct] on, at most [at_once] of the first [last]. *)
Definition in_blocks (last at_once ct n : Z) : Prop := 0 <= ct /\ 1 <= n <= at_once /\ ct + n <= last.

Section passes.
Context {D : Type}.
Context (write_sectors : D -> Z -> Z -> list Z -> Z * D).
Context (read_sectors : D -> Z -> Z -> Z * list Z * D).
Context (interrupted : D -> bool).
Context (realloc_ok : bool) (rnd : nat -> Z).
Context (detect_fakes : bool).
Context (last_block block_size first_block blocks_at_once : Z).
Hypothesis Hblocks : 0 <= first_block <= last_block /\ last_block < 2 ^ 31.
Hypothesis Hsizes : 0 < block_size /\ 1 <= blocks_at_once < 2 ^ 31.

(** [WriteFile] and [ReadFile] transfer at most what they are asked. *)
Hypothesis write_bounded : forall d ct n buf, in_blocks last_block blocks_at_once ct n ->
  fst (write_sectors d ct n buf) <= n * block_size.
Hypothesis read_bounded : forall d ct n, in_blocks last_block blocks_at_once ct n ->
  fst (fst (read_sectors d ct n)) <= n * block_size.

Abbreviation state := (@pass_state D).
Abbreviation enter := (pass_enter interrupted detect_fakes last_block block_size blocks_at_once).
Abbreviation advance := (pass_advance (D := D) realloc_ok).
Abbreviation adjust := (pass_adjust (D := D) blocks_at_once).
Abbreviation w_iter := (write_iter write_sectors interrupted realloc_ok detect_fakes last_block block_size
  blocks_at_once).
Abbreviation r_iter := (read_iter read_sectors interrupted realloc_ok detect_fakes last_block block_size
  blocks_at_once).

(** [floor] is a number of bad blocks already reported. *)
Context (floor : Z).

Definition acc (s : state) : Prop :=
  accounted first_block last_block (p_count s) (p_g s) /\ floor <= p_count s.

Definition ready (s : state) : Prop :=
  acc s /\ first_block <= currently_testing (p_g s) <= last_block /\ 1 <= p_tryout s <= blocks_at_once.

Definition pass_measure (s : state) : nat :=
  Z.to_nat (2 * (last_block - currently_testing (p_g s)) + (if bool_decide (p_tryout s = 1) then 0 else 1)).

Lemma accounted_same count g g' :
  accounted first_block last_block count g ->
  bb_list g' = bb_list g -> bb_iter g' = bb_iter g -> num_read_errors g' = num_read_errors g ->
  num_write_errors g' = num_write_errors g -> num_corruption_errors g' = num_corruption_errors g ->
  accounted first_block last_block count g'.
Proof.
  intros [] E1 E2 E3 E4 E5.
  constructor; unfold total_errors in *; rewrite ?E1, ?E2, ?E3, ?E4, ?E5; done.
Qed.

Lemma alarm_same d g :
  bb_list (alarm_intr interrupted d g) = bb_list g /\ bb_iter (alarm_intr interrupted d g) = bb_iter g /\
  num_read_errors (alarm_intr interrupted d g) = num_read_errors g /\
  num_write_errors (alarm_intr interrupted d g) = num_write_errors g /\
  num_corruption_errors (alarm_intr interrupted d g) = num_corruption_errors g /\
  currently_testing (alarm_intr interrupted d g) = currently_testing g.
Proof. unfold alarm_intr. case_bool_decide; [done|]. by destruct (interrupted d). Qed.

Lemma enter_ok fp off s :
  ready s -> currently_testing (p_g s) < last_block ->
  match enter fp off s with
  | inl s' => acc s'
  | inr s' => ready s' /\ currently_testing (p_g s') = currently_testing (p_g s) /\
      currently_testing (p_g s') + p_tryout s' <= last_block /\ (pass_measure s' <= pass_measure s)%nat /\
      p_d s' = p_d s
  end.
Proof.
  intros ([Ha Hfl] & Hct & Ht) Hlt. destruct (alarm_same (p_d s) (p_g s)) as (E1 & E2 & E3 & E4 & E5 & E6).
  assert (Ha' : accounted first_block last_block (p_count s) (alarm_intr interrupted (p_d s) (p_g s)))
    by (by eapply accounted_same).
  unfold pass_enter. simpl. case_bool_decide; [done|]. case_bool_decide.
  - split; [|done]. by apply (accounted_same _ (alarm_intr interrupted (p_d s) (p_g s))).
  - unfold ready, acc, pass_measure. simpl. rewrite E6.
    case_bool_decide; split_and!; try done; try lia; repeat case_bool_decide; lia.
Qed.

(** What an iteration does to the position, for a transfer of [got] blocks. *)
Lemma step_ok e got s :
  ready s -> 0 <= got <= p_tryout s -> currently_testing (p_g s) + p_tryout s <= last_block ->
  let r := adjust got (advance e got s) in
  ready (snd r) /\ (pass_measure (snd r) < pass_measure s)%nat /\
  (fst r = false -> got = p_tryout s /\ currently_testing (p_g (snd r)) = currently_testing (p_g s) + got).
Proof.
  intros ([Ha Hfl] & Hct & Ht) Hgot Hend. unfold pass_advance.
  pose proof (accounted_bound _ _ _ _ Ha ltac:(lia)) as Hb.
  case_bool_decide as H1.
  - destruct H1 as [-> Ht1].
    assert (Ha' : accounted first_block last_block (p_count s)
              (set_testing (u64 (currently_testing (p_g s) + 1)) (p_g s))) by (by eapply accounted_same).
    destruct (bb_output_spec realloc_ok (currently_testing (p_g s)) e _ _ _ _ Ha')
      as (k & g' & -> & Hacc & Hk & _ & _ & Hct' & _); [lia..|].
    simpl in Hct'. rewrite uwrap_small in Hct' by lia. unfold pass_adjust. simpl.
    rewrite Hct', Z.add_0_r, uwrap_small by lia. rewrite bool_decide_true by lia. simpl.
    split_and!; [|unfold pass_measure; simpl; repeat case_bool_decide; lia|done].
    unfold ready, acc. simpl. split; [split; [by eapply accounted_same|lia]|]. lia.
  - unfold pass_adjust. simpl. rewrite uwrap_small by lia.
    case_bool_decide as H2; simpl.
    + split_and!; [| |done].
      * unfold ready, acc. simpl. split; [split; [by eapply accounted_same|lia]|lia].
      * unfold pass_measure. simpl. repeat case_bool_decide; lia.
    + assert (got = p_tryout s) as -> by lia.
      case_bool_decide; simpl; (split_and!; [| |done]).
      * unfold ready, acc. simpl. split; [split; [by eapply accounted_same|lia]|lia].
      * unfold pass_measure. simpl. repeat case_bool_decide; lia.
      * unfold ready, acc. simpl. split; [split; [by eapply accounted_same|lia]|lia].
      * unfold pass_measure. simpl. repeat case_bool_decide; lia.
Qed.

Lemma blocks_done_range got n :
  got <= n * block_size -> 0 <= n -> 0 <= blocks_done block_size got <= n.
Proof.
  intros Hg Hn. unfold blocks_done. case_bool_decide.
  - rewrite Z.div_0_l by lia. lia.
  - split; [apply Z.div_pos; lia|]. apply Z.div_le_upper_bound; lia.
Qed.

Lemma compare_ok n i got s :
  ready s -> first_block <= currently_testing (p_g s) - got -> 0 <= i -> i + Z.of_nat n <= got ->
  match compare_blocks realloc_ok block_size n i got s with
  | inl s' => acc s'
  | inr s' => ready s' /\ pass_measure s' = pass_measure s
  end.
Proof.
  revert i s. induction n as [|n IH]; intros i s Hr Hf Hi Hn; simpl; [done|].
  case_bool_decide; [apply IH; (done || lia)|]. case_bool_decide; [|by destruct Hr].
  destruct Hr as ([Ha Hfl] & Hct & Ht).
  destruct (bb_output_spec realloc_ok (u64 (currently_testing (p_g s) + i - got)) CORRUPTION_ERROR
              _ _ _ _ Ha) as (k & g' & -> & Hacc & Hk & _ & _ & Hct' & _).
  { rewrite uwrap_small by lia. lia. } { lia. }
  set (s' := mkPass g' _ _ _ _ _ _).
  assert (Hm : pass_measure s' = pass_measure s) by (unfold pass_measure, s'; simpl; by rewrite Hct').
  rewrite <- Hm. apply IH; [|simpl; lia..].
  unfold ready, acc, s'. simpl. rewrite Hct'. split; [split; [done|lia]|done].
Qed.

Lemma write_iter_ok fp off s :
  ready s -> currently_testing (p_g s) < last_block ->
  match w_iter fp off s with
  | inl s' => acc s'
  | inr s' => ready s' /\ (pass_measure s' < pass_measure s)%nat
  end.
Proof.
  intros Hr Hlt. unfold write_iter. pose proof (enter_ok fp off s Hr Hlt) as He.
  destruct (enter fp off s) as [s1|s1]; [done|]. destruct He as (Hr1 & Hct & Hend & Hm & _).
  unfold do_write. assert (Hin : in_blocks last_block blocks_at_once (currently_testing (p_g s1)) (p_tryout s1))
    by (destruct Hr1 as (_ & ? & ?); unfold in_blocks; lia).
  pose proof (write_bounded (p_d s1) (currently_testing (p_g s1)) (p_tryout s1)
    (take (Z.to_nat (p_tryout s1 * block_size)) (p_buffer s1)) Hin) as Hwb.
  destruct (write_sectors _ _ _ _) as [got d]. simpl in Hwb.
  pose proof Hr1 as (_ & _ & Ht).
  pose proof (blocks_done_range got (p_tryout s1) Hwb ltac:(lia)) as Hg.
  destruct (step_ok WRITE_ERROR (blocks_done block_size got)
    (mkPass (p_g s1) d (p_buffer s1) (p_read s1) (p_count s1) (p_tryout s1) (p_recover s1)))
    as (H1 & H2 & _); [done|done|done|].
  split; [done|]. eapply Nat.lt_le_trans; [exact H2|]. done.
Qed.

Lemma read_iter_ok fp off s :
  ready s -> currently_testing (p_g s) < last_block ->
  match r_iter fp off s with
  | inl s' => acc s'
  | inr s' => ready s' /\ (pass_measure s' < pass_measure s)%nat
  end.
Proof.
  intros Hr Hlt. unfold read_iter. pose proof (enter_ok fp off s Hr Hlt) as He.
  destruct (enter fp off s) as [s1|s1]; [done|]. destruct He as (Hr1 & Hct & Hend & Hm & _).
  unfold do_read. assert (Hin : in_blocks last_block blocks_at_once (currently_testing (p_g s1)) (p_tryout s1))
    by (destruct Hr1 as (_ & ? & ?); unfold in_blocks; lia).
  pose proof (read_bounded (p_d s1) (currently_testing (p_g s1)) (p_tryout s1) Hin) as Hrb.
  destruct (read_sectors _ _ _) as [[got bytes] d]. simpl in Hrb.
  pose proof Hr1 as (_ & _ & Ht).
  pose proof (blocks_done_range got (p_tryout s1) Hrb ltac:(lia)) as Hg.
  destruct (step_ok READ_ERROR (blocks_done block_size got)
    (mkPass (p_g s1) d (p_buffer s1) (splice 0 bytes (p_read s1)) (p_count s1) (p_tryout s1) (p_recover s1)))
    as (H1 & H2 & H3); [done|done|done|].
  destruct (adjust _ _) as [[] s2]; simpl in *.
  { split; [done|]. eapply Nat.lt_le_trans; [exact H2|]. done. }
  destruct (H3 eq_refl) as [Hgt Hct2]. pose proof Hr1 as (_ & Hc1 & _).
  pose proof (compare_ok (Z.to_nat (blocks_done block_size got)) 0 (blocks_done block_size got) s2 H1
    ltac:(lia) ltac:(lia) ltac:(lia)) as Hc.
  destruct (compare_blocks _ _ _ _ _ _) as [s3|s3]; [done|]. destruct Hc as [Hr3 ->].
  split; [done|]. eapply Nat.lt_le_trans; [exact H2|]. done.
Qed.

Lemma pass_loop_ok iter fuel s :
  (forall s, ready s -> currently_testing (p_g s) < last_block ->
     match iter s with
     | inl s' => acc s'
     | inr s' => ready s' /\ (pass_measure s' < pass_measure s)%nat
     end) ->
  ready s -> (pass_measure s <= fuel)%nat ->
  exists r, pass_loop last_block iter fuel s = Some r /\
    match r with inl s' => acc s' | inr s' => ready s' end.
Proof.
  intros Hit. revert s. induction fuel as [|fuel IH]; intros s Hr Hf; simpl.
  - rewrite bool_decide_false; [eauto|]. intros Hlt. specialize (Hit s Hr Hlt).
    unfold pass_measure in Hf. destruct Hr as (_ & Hct & _). case_bool_decide; lia.
  - case_bool_decide as Hlt; [|eauto]. specialize (Hit s Hr Hlt).
    destruct (iter s) as [s'|s']; [eauto|]. destruct Hit as [Hr' Hm]. apply IH; [done|lia].
Qed.

Abbreviation pass := (test_pass write_sectors read_sectors interrupted realloc_ok rnd detect_fakes
  last_block block_size first_block blocks_at_once).

Lemma start_ready op n s buf t :
  acc s -> 1 <= t <= blocks_at_once ->
  ready (mkPass (start_pass op first_block n (p_g s)) (p_d s) buf (p_read s) (p_count s) t (p_recover s)).
Proof.
  intros [Ha Hfl] Ht. unfold ready, acc in *. simpl. split; [split; [by eapply accounted_same|done]|]. lia.
Qed.

Lemma start_fuel op n s buf t :
  (pass_measure (mkPass (start_pass op first_block n (p_g s)) (p_d s) buf (p_read s) (p_count s) t
     (p_recover s)) <= pass_fuel last_block first_block)%nat.
Proof. unfold pass_measure, pass_fuel. simpl. case_bool_decide; lia. Qed.

Lemma test_pass_ok pattern fp off s :
  acc s ->
  exists r, pass pattern fp off s = Some r /\ match r with inl s' => acc s' | inr s' => acc s' end.
Proof.
  intros [Ha Hfl]. destruct (alarm_same (p_d s) (p_g s)) as (E1 & E2 & E3 & E4 & E5 & E6).
  unfold test_pass. case_bool_decide.
  { eexists. split; [done|]. unfold acc. simpl. split; [|done]. by apply (accounted_same _ (p_g s)). }
  destruct (pattern_fill rnd pattern _) as [buffer adv].
  set (g1 := set_patterns _ _ _).
  set (s1 := mkPass g1 (p_d s) buffer (p_read s) (p_count s) blocks_at_once (p_recover s)).
  assert (Ha1 : acc s1) by (split; [by apply (accounted_same _ (p_g s))|done]).
  destruct (pass_loop_ok (w_iter fp off) (pass_fuel last_block first_block)
    (mkPass (start_pass OP_WRITE first_block (u64 (last_block - 1)) (p_g s1)) (p_d s1) buffer (p_read s1)
       (p_count s1) blocks_at_once (p_recover s1)))
    as ([s2|s2] & Hw & H2); [apply write_iter_ok|apply start_ready; [done|lia]|apply start_fuel| |].
  - simpl in Hw. rewrite Hw. eexists. split; [done|]. done.
  - simpl in Hw. rewrite Hw. cbn [mbind option_bind]. destruct H2 as (Ha2 & _).
    destruct (pass_loop_ok (r_iter fp off) (pass_fuel last_block first_block)
      (mkPass (start_pass OP_READ first_block last_block (p_g s2)) (p_d s2) (p_buffer s2) (p_read s2)
         (p_count s2) blocks_at_once (p_recover s2)))
      as ([s3|s3] & Hrd & H3); [apply read_iter_ok|apply start_ready; [done|lia]|apply start_fuel| |].
    + simpl in Hrd. rewrite Hrd. eexists. split; [done|]. done.
    + simpl in Hrd. rewrite Hrd. eexists. split; [done|]. simpl.
      destruct H3 as ([Ha3 Hf3] & _). split; [by apply (accounted_same _ (p_g s3))|done].
Qed.

Lemma test_passes_ok pats fp off s :
  acc s ->
  exists s', test_passes write_sectors read_sectors interrupted realloc_ok rnd detect_fakes
    last_block block_size first_block blocks_at_once pats fp off s = Some s' /\ acc s'.
Proof.
  revert fp s. induction pats as [|p pats IH]; intros fp s Ha; simpl; [eauto|].
  destruct (test_pass_ok p fp off s Ha) as ([s1|s1] & -> & H1); simpl; eauto.
Qed.
End passes.

(** ** Stamped buffers *)

(** A block of the buffer that contains the spliced bytes. *)
Lemma slice_splice_in (off n o : nat) (bs l : list Z) :
  (o + n <= length l)%nat -> (off + length bs <= n)%nat ->
  slice o n (splice (o + off) bs l) = splice off bs (slice o n l).
Proof.
  intros Hl Ho. apply list_eq. intros j. unfold slice.
  destruct (decide (j < n)%nat).
  2: { rewrite lookup_take_ge by lia. symmetry. apply lookup_ge_None.
       rewrite length_splice by (rewrite length_take, length_drop; lia).
       rewrite length_take, length_drop. lia. }
  rewrite lookup_take_lt, lookup_drop by lia. unfold splice.
  assert (H1 : length (take (o + off) l) = (o + off)%nat) by (rewrite length_take; lia).
  assert (H2 : length (take off (take n (drop o l))) = off)
    by (rewrite !length_take, length_drop; lia).
  destruct (decide (j < off)%nat).
  - rewrite !lookup_app_l by lia. rewrite !lookup_take_lt, lookup_drop by lia. done.
  - rewrite lookup_app_r, H1, (lookup_app_r (take off _)), H2 by lia.
    replace (o + j - (o + off))%nat with (j - off)%nat by lia.
    destruct (decide (j - off < length bs)%nat); [by rewrite !lookup_app_l by lia|].
    rewrite !lookup_app_r by lia. rewrite !lookup_drop, lookup_take_lt, lookup_drop by lia.
    f_equal. lia.
Qed.

Lemma splice_splice (off : nat) (bs bs' l : list Z) :
  length bs = length bs' -> (off + length bs <= length l)%nat ->
  splice off bs (splice off bs' l) = splice off bs l.
Proof.
  intros E Hl. unfold splice.
  rewrite take_app_length' by (rewrite length_take; lia).
  rewrite (app_assoc (take off l) bs'), drop_app_length'
    by (rewrite length_app, length_take; lia). by rewrite E.
Qed.

Section stamp.
Context (block_size id_offset : Z).
Hypothesis Hoff : 0 <= id_offset /\ id_offset + 8 <= block_size.

Abbreviation bs := (Z.to_nat block_size).
Abbreviation blk i buf := (slice (Z.to_nat (i * block_size)) bs buf).

Definition stamped (b : Z) (data : list Z) : list Z :=
  splice (Z.to_nat id_offset) (le_bytes 8 (u64 b)) data.

Lemma length_stamp_ids n i ct buf :
  0 <= i -> (i + Z.of_nat n) * block_size <= Z.of_nat (length buf) ->
  length (stamp_ids block_size n i id_offset ct buf) = length buf.
Proof.
  revert i buf. induction n as [|n IH]; intros i buf Hi Hl; simpl; [done|].
  assert (Hs : length (splice (Z.to_nat (id_offset + i * block_size)) (le_bytes 8 (u64 (ct + i))) buf)
               = length buf) by (rewrite length_splice; [done|rewrite length_le_bytes; nia]).
  rewrite IH, Hs; [done|lia|rewrite Hs; nia].
Qed.

(** Each of the [n] blocks from [i] on carries its number. *)
Lemma stamp_ids_block n i ct buf k :
  0 <= i -> 0 <= k -> (i + Z.of_nat n) * block_size <= Z.of_nat (length buf) ->
  (k + 1) * block_size <= Z.of_nat (length buf) ->
  blk k (stamp_ids block_size n i id_offset ct buf) =
    if bool_decide (i <= k < i + Z.of_nat n) then stamped (ct + k) (blk k buf) else blk k buf.
Proof.
  revert i buf. induction n as [|n IH]; intros i buf Hi Hk Hl Hlk; simpl.
  - by rewrite bool_decide_false by lia.
  - set (buf' := splice _ _ buf).
    assert (Hs : length buf' = length buf)
      by (unfold buf'; rewrite length_splice; [done|rewrite length_le_bytes; nia]).
    rewrite IH by (rewrite ?Hs; lia || nia).
    destruct (decide (k = i)) as [->|Hne].
    + rewrite bool_decide_false, bool_decide_true by lia. unfold buf', stamped.
      replace (Z.to_nat (id_offset + i * block_size))
        with (Z.to_nat (i * block_size) + Z.to_nat id_offset)%nat by nia.
      apply slice_splice_in; [nia|]. rewrite length_le_bytes. lia.
    + assert (E : blk k buf' = blk k buf).
      { unfold buf'. apply slice_splice_other; rewrite length_le_bytes; [nia|].
        assert (k < i \/ i < k) as [|] by lia; [left|right]; nia. }
      rewrite E. case_bool_decide; [by rewrite bool_decide_true by lia|by rewrite bool_decide_false by lia].
Qed.

Lemma stamped_inj b b' data data' :
  (bs <= length data)%nat -> (bs <= length data')%nat -> stamped b data = stamped b' data' ->
  0 <= b < 2 ^ 64 -> 0 <= b' < 2 ^ 64 -> b = b'.
Proof.
  intros Hl Hl' E Hb Hb'.
  assert (H : slice (Z.to_nat id_offset) 8 (stamped b data) = slice (Z.to_nat id_offset) 8 (stamped b' data'))
    by (by rewrite E).
  pose proof (slice_splice (Z.to_nat id_offset) (le_bytes 8 (u64 b)) data ltac:(lia)) as H1.
  pose proof (slice_splice (Z.to_nat id_offset) (le_bytes 8 (u64 b')) data' ltac:(lia)) as H2.
  rewrite length_le_bytes in H1, H2. unfold stamped in H. rewrite H1, H2 in H.
  rewrite !uwrap_small in H by done.
  rewrite <- (le_word_le_bytes 8 b), <- (le_word_le_bytes 8 b') by (simpl; lia). by rewrite H.
Qed.
End stamp.

(** ** Devices that store what they are given

    Block [b] is kept in cell [α b] and every transfer succeeds: a faithful
    device keeps each block in a cell of its own, a counterfeit one has fewer
    cells than blocks. *)

(** The contents of cell [x] after [n] blocks of [buf] were written at [ct]. *)
Fixpoint written (α : Z -> Z) (bs : nat) (ct : Z) (buf : list Z) (old : Z -> list Z) (n : nat) (x : Z)
    : list Z :=
  match n with
  | O => old x
  | S n => if bool_decide (α (ct + Z.of_nat n) = x) then slice (n * bs) bs buf
           else written α bs ct buf old n x
  end.

(** A device for the transfers of a run, in the states that [md_good] holds of, which a transfer leads to again. *)
Class MappedDevice {D : Type} (α : Z -> Z) (block_size last_block at_once : Z)
    (write_sectors : D -> Z -> Z -> list Z -> Z * D)
    (read_sectors : D -> Z -> Z -> Z * list Z * D) := {
  md_good : D -> Prop;
  md_content : D -> Z -> list Z;
  content_length d x : length (md_content d x) = Z.to_nat block_size;
  md_write_bounded d ct n buf : in_blocks last_block at_once ct n -> fst (write_sectors d ct n buf) <= n * block_size;
  md_read_bounded d ct n : in_blocks last_block at_once ct n -> fst (fst (read_sectors d ct n)) <= n * block_size;
  md_write d ct n buf : md_good d -> in_blocks last_block at_once ct n -> (Z.to_nat n * Z.to_nat block_size <= length buf)%nat ->
    fst (write_sectors d ct n buf) = n * block_size /\ md_good (snd (write_sectors d ct n buf)) /\
    forall x, md_content (snd (write_sectors d ct n buf)) x =
      written α (Z.to_nat block_size) ct buf (md_content d) (Z.to_nat n) x;
  md_read d ct n : md_good d -> in_blocks last_block at_once ct n ->
    fst (fst (read_sectors d ct n)) = n * block_size /\
    snd (fst (read_sectors d ct n)) =
      concat ((fun i => md_content d (α (ct + Z.of_nat i))) <$> seq 0 (Z.to_nat n)) /\
    md_good (snd (read_sectors d ct n)) /\
    forall x, md_content (snd (read_sectors d ct n)) x = md_content d x
}.

Lemma written_spec α bs ct buf old n x :
  (exists i, (i < n)%nat /\ α (ct + Z.of_nat i) = x /\
     (forall j, (i < j < n)%nat -> α (ct + Z.of_nat j) ≠ x) /\
     written α bs ct buf old n x = slice (i * bs) bs buf) \/
  ((forall i, (i < n)%nat -> α (ct + Z.of_nat i) ≠ x) /\ written α bs ct buf old n x = old x).
Proof.
  induction n as [|n IH]; simpl; [right; split; [lia|done]|].
  case_bool_decide as H1; [left; exists n; split_and!; [lia|done|lia|done]|].
  destruct IH as [(i & Hi & Ha & Hl & E)|[Hn E]].
  - left. exists i. split_and!; [lia|done| |done].
    intros j Hj. destruct (decide (j = n)) as [->|]; [done|]. apply Hl. lia.
  - right. split; [|done]. intros i Hi. destruct (decide (i = n)) as [->|]; [done|]. apply Hn. lia.
Qed.

Lemma slice_concat (bs : nat) (ls : list (list Z)) k x :
  Forall (fun l => length l = bs) ls -> ls !! k = Some x -> slice (k * bs) bs (concat ls) = x.
Proof.
  intros Hl. revert k. induction Hl as [|l ls Hl Hls IH]; intros k Hk; [done|].
  destruct k as [|k]; simplify_eq/=.
  - unfold slice. rewrite drop_0. by apply take_app_length'.
  - unfold slice in *. rewrite <- drop_drop, drop_app_length' by done.
    by apply IH.
Qed.

Lemma length_concat (bs : nat) (ls : list (list Z)) :
  Forall (fun l => length l = bs) ls -> length (concat ls) = (length ls * bs)%nat.
Proof. induction 1 as [|l ls Hl _ IH]; simpl; [done|]. rewrite length_app. lia. Qed.

Section mapped.
Context {D : Type}.
Context (α : Z -> Z).
Context (write_sectors : D -> Z -> Z -> list Z -> Z * D).
Context (read_sectors : D -> Z -> Z -> Z * list Z * D).
Context (interrupted : D -> bool).
Context (realloc_ok : bool) (rnd : nat -> Z).
Context (detect_fakes : bool).
Context (last_block block_size first_block blocks_at_once id_offset : Z).
Context `{MD : !MappedDevice α block_size last_block blocks_at_once write_sectors read_sectors}.
Hypothesis Hblocks : 0 <= first_block <= last_block /\ last_block < 2 ^ 31.
Hypothesis Hsizes : 0 < block_size /\ 1 <= blocks_at_once < 2 ^ 31.
Hypothesis Hoff : 0 <= id_offset /\ id_offset + 8 <= block_size.
Hypothesis no_interrupt : forall d, md_good d -> interrupted d = false.

Abbreviation bs := (Z.to_nat block_size).
Abbreviation bao := blocks_at_once.
Abbreviation blk i buf := (slice (Z.to_nat (i * block_size)) bs buf).
Abbreviation state := (@pass_state D).
Abbreviation w_iter := (write_iter write_sectors interrupted realloc_ok detect_fakes last_block block_size
  blocks_at_once).
Abbreviation r_iter := (read_iter read_sectors interrupted realloc_ok detect_fakes last_block block_size
  blocks_at_once).

(** The pattern buffer of the pass, and whether the block numbers are stamped. *)
Context (P : list Z) (fp : bool).
Hypothesis HP : Z.of_nat (length P) = bao * block_size.
Abbreviation st := (detect_fakes && fp).

(** What block [b] is given. *)
Definition data (b : Z) : list Z :=
  let base := blk ((b - first_block) mod bao) P in if st then stamped id_offset b base else base.

Definition buf_ok (buf : list Z) : Prop :=
  length buf = length P /\
  forall k, 0 <= k < bao ->
    blk k buf = blk k P \/ (st = true /\ exists b, blk k buf = stamped id_offset b (blk k P)).

(** Between two iterations, with no block reported. *)
Record quiet (s : state) : Prop := {
  q_good : md_good (p_d s);
  q_acc : accounted first_block last_block 0 (p_g s);
  q_count : p_count s = 0;
  q_cancel : cancel_ops (p_g s) = 0;
  q_recover : p_recover s = NO_RECOVER;
  q_buffer : buf_ok (p_buffer s);
  q_read : (length P <= length (p_read s))%nat;
  q_range : first_block <= currently_testing (p_g s) <= last_block;
  q_chunk : currently_testing (p_g s) = last_block \/
    ((currently_testing (p_g s) - first_block) mod bao = 0 /\ p_tryout s = bao)
}.

Lemma block_fits k : 0 <= k < bao -> (k + 1) * block_size <= Z.of_nat (length P).
Proof. intros. rewrite HP. nia. Qed.

Lemma stamped_stamped b b' (l : list Z) :
  (bs <= length l)%nat -> stamped id_offset b (stamped id_offset b' l) = stamped id_offset b l.
Proof. intros Hl. unfold stamped. apply splice_splice; rewrite !length_le_bytes; [done|lia]. Qed.

Lemma length_blk k (buf : list Z) :
  0 <= k -> (k + 1) * block_size <= Z.of_nat (length buf) -> length (blk k buf) = bs.
Proof. intros. rewrite length_slice. nia. Qed.

(** The buffer after the numbers are stamped holds the data of the chunk. *)
Lemma enter_buffer ct buf :
  buf_ok buf -> (ct - first_block) mod bao = 0 ->
  let buf' := if st then stamp_ids block_size (Z.to_nat bao) 0 id_offset ct buf else buf in
  buf_ok buf' /\ forall k, 0 <= k < bao -> blk k buf' = data (ct + k).
Proof.
  intros Hok Hct buf'. pose proof Hok as [Hl Hb].
  assert (Hmod : forall k, 0 <= k < bao -> (ct + k - first_block) mod bao = k).
  { intros k Hk. replace (ct + k - first_block) with ((ct - first_block) + k) by lia.
    rewrite <- Zplus_mod_idemp_l, Hct, Z.add_0_l. by apply Z.mod_small. }
  destruct st eqn:Est; unfold buf', data; rewrite ?Est.
  - assert (Hk' : forall k, 0 <= k < bao ->
      blk k (stamp_ids block_size (Z.to_nat bao) 0 id_offset ct buf) = stamped id_offset (ct + k) (blk k P)).
    { intros k Hk. rewrite (stamp_ids_block block_size id_offset Hoff);
        [|lia|lia|rewrite Hl, HP; nia|rewrite Hl; by apply block_fits].
      rewrite bool_decide_true by lia.
      destruct (Hb k Hk) as [->|(_ & b & ->)]; [done|]. apply stamped_stamped.
      rewrite length_blk; [done|lia|by apply block_fits]. }
    split; [split|].
    + rewrite (length_stamp_ids block_size id_offset Hoff); [done|lia|rewrite Hl, HP; nia].
    + intros k Hk. right. split; [done|]. exists (ct + k). by apply Hk'.
    + intros k Hk. rewrite Hmod by done. by apply Hk'.
  - split; [exact Hok|]. intros k Hk. rewrite Hmod by done.
    destruct (Hb k Hk) as [E|(E & _)]; [exact E|congruence].
Qed.

Lemma enter_quiet s :
  quiet s -> currently_testing (p_g s) < last_block ->
  let ct := currently_testing (p_g s) in
  let t := Z.min bao (last_block - ct) in
  exists buf, pass_enter interrupted detect_fakes last_block block_size blocks_at_once fp id_offset s =
      inr (mkPass (p_g s) (p_d s) buf (p_read s) 0 t NO_RECOVER) /\
    buf_ok buf /\ (forall k, 0 <= k < bao -> blk k buf = data (ct + k)) /\ 1 <= t <= bao.
Proof.
  intros [] Hlt ct t. destruct q_chunk0 as [|[Hmod Ht]]; [lia|].
  pose proof (enter_buffer ct (p_buffer s) q_buffer0 Hmod) as He. cbv zeta in He.
  eexists. split; [|split; [exact (proj1 He)|split; [exact (proj2 He)|unfold t, ct; lia]]].
  unfold pass_enter. assert (Ha : alarm_intr interrupted (p_d s) (p_g s) = p_g s).
  { unfold alarm_intr. rewrite no_interrupt by done. by case_bool_decide. }
  rewrite Ha. cbn [p_g p_d p_buffer p_read p_count p_tryout p_recover].
  rewrite q_cancel0, q_count0, q_recover0, Ht. rewrite bool_decide_false by (by intros ?).
  rewrite bool_decide_false by (unfold max_bb, BB_BAD_BLOCKS_THRESHOLD; lia).
  do 2 f_equal. unfold t, ct. case_bool_decide; lia.
Qed.

(** A full transfer moves on by [t] blocks. *)
Lemma full_step e t g d buf rbuf :
  first_block <= currently_testing g -> currently_testing g + t <= last_block -> 1 <= t ->
  pass_adjust blocks_at_once t (pass_advance (D := D) realloc_ok e t
    (mkPass g d buf rbuf 0 t NO_RECOVER)) =
  (false, mkPass (set_testing (currently_testing g + t) g) d buf rbuf 0 t NO_RECOVER).
Proof.
  intros H1 H2 H3. unfold pass_advance. cbn [p_g p_d p_buffer p_read p_count p_tryout p_recover].
  rewrite bool_decide_false by lia. unfold pass_adjust.
  cbn [p_g p_d p_buffer p_read p_count p_tryout p_recover]. rewrite bool_decide_false by lia.
  rewrite bool_decide_false.
  - by rewrite uwrap_small by lia.
  - cbn [currently_testing set_testing]. rewrite uwrap_small by lia. unfold NO_RECOVER. lia.
Qed.

(** Every block before [ct] is in its cell, unless a later one took its place. *)
Definition kept (d : D) (ct : Z) : Prop :=
  forall b, first_block <= b < ct ->
  exists b', b <= b' < ct /\ α b' = α b /\ md_content d (α b) = data b'.

Lemma chunk_moved ct t :
  (ct - first_block) mod bao = 0 -> t = Z.min bao (last_block - ct) -> ct + t <= last_block ->
  ct + t = last_block \/ ((ct + t - first_block) mod bao = 0 /\ t = bao).
Proof.
  intros Hm Ht Hle. destruct (decide (ct + t = last_block)) as [|Hne]; [by left|right].
  assert (t = bao) as Htb by lia. split; [|done]. rewrite Htb.
  replace (ct + bao - first_block) with ((ct - first_block) + 1 * bao) by lia.
  by rewrite Z.mod_add by lia.
Qed.

Lemma quiet_step s buf rbuf d t :
  quiet s -> md_good d -> buf_ok buf -> (length P <= length rbuf)%nat -> currently_testing (p_g s) < last_block ->
  t = Z.min bao (last_block - currently_testing (p_g s)) ->
  quiet (mkPass (set_testing (currently_testing (p_g s) + t) (p_g s)) d buf rbuf 0 t NO_RECOVER).
Proof.
  intros [] Hd Hb Hr Hlt Ht. constructor; simpl; try done; try lia.
  - by apply (accounted_same last_block first_block 0 (p_g s)).
  - destruct q_chunk0 as [|[Hm _]]; [lia|]. apply chunk_moved; [done|done|lia].
Qed.

Lemma write_chunk d ct t buf :
  md_good d -> length buf = length P -> in_blocks last_block bao ct t -> first_block <= ct ->
  (forall k, 0 <= k < bao -> blk k buf = data (ct + k)) -> kept d ct ->
  fst (write_sectors d ct t (take (Z.to_nat (t * block_size)) buf)) = t * block_size /\
  md_good (snd (write_sectors d ct t (take (Z.to_nat (t * block_size)) buf))) /\
  kept (snd (write_sectors d ct t (take (Z.to_nat (t * block_size)) buf))) (ct + t).
Proof.
  intros Hd Hl Hin Hct Hdata Hk. pose proof Hin as (_ & Ht & _). set (src := take _ buf).
  assert (Hsrc : (Z.to_nat t * bs <= length src)%nat) by (unfold src; rewrite length_take; nia).
  destruct (md_write d ct t src Hd Hin Hsrc) as (Hn & Hd' & Hc). split; [done|]. split; [done|].
  assert (Hblk : forall i, (i < Z.to_nat t)%nat -> slice (i * bs) bs src = data (ct + Z.of_nat i)).
  { intros i Hi. rewrite <- Hdata by lia. unfold src, slice. rewrite skipn_firstn_comm.
    rewrite take_take, Nat.min_l by nia. do 2 f_equal. nia. }
  intros b Hb. rewrite Hc.
  destruct (written_spec α bs ct src (md_content d) (Z.to_nat t) (α b)) as [(i & Hi & Ha & Hlast & ->)|[Hno ->]].
  - exists (ct + Z.of_nat i). split_and!; [|lia|done|by apply Hblk].
    destruct (decide (b <= ct + Z.of_nat i)) as [|Hgt]; [done|exfalso].
    apply (Hlast (Z.to_nat (b - ct))); [lia|]. f_equal. lia.
  - destruct (decide (b < ct)) as [Hlt|Hge].
    + destruct (Hk b ltac:(lia)) as (b' & Hb' & Hab & E). exists b'. split_and!; [lia|lia|done|done].
    + exfalso. apply (Hno (Z.to_nat (b - ct))); [lia|]. f_equal. lia.
Qed.

Lemma write_iter_quiet off s :
  off = id_offset -> quiet s -> currently_testing (p_g s) < last_block ->
  kept (p_d s) (currently_testing (p_g s)) ->
  exists s', w_iter fp off s = inr s' /\ quiet s' /\
    currently_testing (p_g s') = currently_testing (p_g s) + Z.min bao (last_block - currently_testing (p_g s)) /\
    kept (p_d s') (currently_testing (p_g s')).
Proof.
  intros -> Hq Hlt Hk. destruct (enter_quiet s Hq Hlt) as (buf & He & Hb & Hdata & Ht).
  set (ct := currently_testing (p_g s)) in *. set (t := Z.min bao (last_block - ct)) in *.
  pose proof (q_range _ Hq) as Hr.
  assert (Hin : in_blocks last_block bao ct t) by (unfold in_blocks, ct, t in *; lia).
  destruct (write_chunk (p_d s) ct t buf (q_good _ Hq) (proj1 Hb) Hin ltac:(unfold ct; lia) Hdata Hk) as (Hn & Hd & Hk').
  unfold write_iter. rewrite He. cbn [p_g p_d p_buffer p_read p_count p_tryout p_recover].
  unfold do_write. fold ct. destruct (write_sectors _ _ _ _) as [got d] eqn:Ew. simpl in Hn, Hd, Hk'. subst got.
  assert (Hdone : blocks_done block_size (t * block_size) = t).
  { unfold blocks_done. rewrite bool_decide_false by nia. by apply Z.div_mul; lia. }
  rewrite Hdone, full_step by (fold ct; unfold t; lia). eexists. split; [reflexivity|].
  split; [|split; [reflexivity|exact Hk']].
  apply quiet_step; [done|done|done|by destruct Hq|done|done].
Qed.

Lemma write_loop_quiet off fuel s r :
  off = id_offset -> quiet s -> kept (p_d s) (currently_testing (p_g s)) ->
  pass_loop last_block (w_iter fp off) fuel s = Some r ->
  exists s', r = inr s' /\ quiet s' /\ kept (p_d s') last_block.
Proof.
  intros Ho. revert s. induction fuel as [|fuel IH]; intros s Hq Hk Hr; simpl in Hr;
    (case_bool_decide as Hlt; [|injection Hr as <-; exists s; split_and!; [done|done|];
       destruct Hq; replace last_block with (currently_testing (p_g s)) by lia; done]).
  - done.
  - destruct (write_iter_quiet off s Ho Hq Hlt Hk) as (s' & Hw & Hq' & _ & Hk').
    rewrite Hw in Hr. by apply (IH s').
Qed.

(** *** Reading back *)

(** The chunk read at [ct] is what the cells of its blocks hold. *)
Lemma read_chunk d ct t rbuf :
  md_good d -> in_blocks last_block bao ct t -> (length P <= length rbuf)%nat ->
  fst (fst (read_sectors d ct t)) = t * block_size /\
  length (splice 0 (snd (fst (read_sectors d ct t))) rbuf) = length rbuf /\
  (forall k, 0 <= k < t ->
     blk k (splice 0 (snd (fst (read_sectors d ct t))) rbuf) = md_content d (α (ct + k))) /\
  md_good (snd (read_sectors d ct t)) /\
  forall x, md_content (snd (read_sectors d ct t)) x = md_content d x.
Proof.
  intros Hd Hin Hr. pose proof Hin as (_ & Ht & _). destruct (md_read d ct t Hd Hin) as (Hn & Hbytes & Hd' & Hc).
  set (ls := (fun i => md_content d (α (ct + Z.of_nat i))) <$> seq 0 (Z.to_nat t)) in *.
  assert (Hls : Forall (fun l => length l = bs) ls).
  { apply Forall_forall. intros l Hl. apply list_elem_of_fmap in Hl as (i & -> & _). apply content_length. }
  assert (Hlen : length (concat ls) = (Z.to_nat t * bs)%nat).
  { rewrite (length_concat bs) by done. unfold ls. by rewrite length_fmap, length_seq. }
  rewrite Hbytes. split_and!; [done|rewrite length_splice; [done|nia]| |done|done].
  intros k Hk. assert (E : blk k (splice 0 (concat ls) rbuf) = blk k (concat ls)).
  { unfold slice, splice. rewrite take_0. simpl. rewrite drop_app_le by nia. apply take_app_le.
    rewrite length_drop. nia. }
  rewrite E. replace (Z.to_nat (k * block_size)) with (Z.to_nat k * bs)%nat by nia.
  apply slice_concat; [done|]. unfold ls. rewrite list_lookup_fmap, lookup_seq_lt by lia. simpl.
  by rewrite Z2Nat.id by lia.
Qed.

Lemma compare_equal n i got (s : state) :
  0 <= i -> (forall k, i <= k < i + Z.of_nat n -> blk k (p_read s) = blk k (p_buffer s)) ->
  compare_blocks realloc_ok block_size n i got s = inr s.
Proof.
  revert i. induction n as [|n IH]; intros i Hi Hk; simpl; [done|].
  rewrite bool_decide_true by (apply Hk; lia). apply IH; [lia|]. intros k Hki. apply Hk. lia.
Qed.
(** A mismatch is reported, unless the same block already was. *)
Lemma compare_cases n i got (s : state) :
  ready last_block first_block bao 0 s -> first_block <= currently_testing (p_g s) - got -> 0 <= i ->
  i + Z.of_nat n <= got -> last_block * block_size < PB ->
  exists s', compare_blocks realloc_ok block_size n i got s = inr s' /\
    ((s' = s /\ forall k, i <= k < i + Z.of_nat n -> blk k (p_read s) = blk k (p_buffer s)) \/
     (ready last_block first_block bao 1 s' /\ pass_measure last_block s' = pass_measure last_block s)).
Proof.
  intros Hr Hf Hi Hn HPB. revert i s Hr Hf Hi Hn.
  induction n as [|n IH]; intros i s Hr Hf Hi Hn; simpl.
  { exists s. split; [done|]. left. split; [done|lia]. }
  case_bool_decide as Heq.
  - destruct (IH (i + 1) s Hr Hf) as (s' & Hs' & [[-> Hk]|H1]); [lia..| |].
    + exists s. split; [done|]. left. split; [done|]. intros k Hki.
      destruct (decide (k = i)) as [->|]; [done|]. apply Hk. lia.
    + exists s'. split; [done|]. by right.
  - pose proof Hr as ([Ha Hfl] & Hct & Ht). unfold PB in HPB.
    rewrite bool_decide_true by (unfold PB; rewrite uwrap_small; nia).
    destruct (bb_output_spec realloc_ok (u64 (currently_testing (p_g s) + i - got)) CORRUPTION_ERROR
              _ _ _ _ Ha) as (k & g' & -> & Hacc & Hk & Hpos & _ & Hct' & _).
    { rewrite uwrap_small by lia. lia. } { lia. }
    set (s1 := mkPass g' _ _ _ _ _ _).
    assert (Hr1 : ready last_block first_block bao 1 s1).
    { unfold ready, acc, s1. simpl. rewrite Hct'. split; [split; [done|lia]|done]. }
    assert (Hm : pass_measure last_block s1 = pass_measure last_block s)
      by (unfold pass_measure, s1; simpl; by rewrite Hct').
    assert (Hr0 : ready last_block first_block bao 0 s1).
    { destruct Hr1 as ([H1 H2] & H3). split; [split; [done|lia]|done]. }
    destruct (IH (i + 1) s1 Hr0) as (s' & Hs' & [[-> _]|[H1 H2]]);
      [unfold s1; simpl; lia|lia|lia| |].
    + exists s1. split; [done|]. by right.
    + exists s'. split; [done|]. right. split; [done|]. by rewrite H2.
Qed.

Lemma quiet_ready (s : state) :
  quiet s -> currently_testing (p_g s) < last_block -> ready last_block first_block bao 0 s.
Proof.
  intros [] Hlt. destruct q_chunk0 as [|[_ Ht]]; [lia|]. unfold ready, acc. rewrite q_count0, Ht.
  split; [done|]. lia.
Qed.

(** One iteration of the reading pass, up to the comparison. *)
Lemma read_iter_quiet off s :
  off = id_offset -> quiet s -> currently_testing (p_g s) < last_block ->
  let ct := currently_testing (p_g s) in
  let t := Z.min bao (last_block - ct) in
  exists s', r_iter fp off s = compare_blocks realloc_ok block_size (Z.to_nat t) 0 t s' /\
    quiet s' /\ currently_testing (p_g s') = ct + t /\ ready last_block first_block bao 0 s' /\ 1 <= t <= bao /\
    (forall x, md_content (p_d s') x = md_content (p_d s) x) /\
    forall k, 0 <= k < t -> blk k (p_read s') = md_content (p_d s) (α (ct + k)) /\ blk k (p_buffer s') = data (ct + k).
Proof.
  intros -> Hq Hlt ct t. destruct (enter_quiet s Hq Hlt) as (buf & He & Hb & Hdata & Ht).
  fold ct in He, Hdata, Ht. fold t in He, Ht.
  pose proof (q_range _ Hq) as Hr. fold ct in Hr.
  assert (Hin : in_blocks last_block bao ct t) by (unfold in_blocks, ct, t in *; lia).
  destruct (read_chunk (p_d s) ct t (p_read s) (q_good _ Hq) Hin (q_read _ Hq)) as (Hn & Hlen & Hblk & Hgood & Hc).
  unfold read_iter. rewrite He. cbn [p_g p_d p_buffer p_read p_count p_tryout p_recover].
  unfold do_read. fold ct. destruct (read_sectors _ _ _) as [[got bytes] d] eqn:Er.
  simpl in Hn, Hlen, Hblk, Hgood, Hc. subst got.
  assert (Hd : blocks_done block_size (t * block_size) = t).
  { unfold blocks_done. rewrite bool_decide_false by nia. by apply Z.div_mul; lia. }
  rewrite Hd, full_step by (fold ct; unfold t; lia). fold ct. eexists. split; [reflexivity|].
  assert (Hq' : quiet (mkPass (set_testing (ct + t) (p_g s)) d buf (splice 0 bytes (p_read s)) 0 t NO_RECOVER)).
  { apply quiet_step; [done|done|done| |done|done]. rewrite Hlen. by destruct Hq. }
  split; [exact Hq'|]. split; [done|]. split; [|split; [done|split; [exact Hc|]]].
  - unfold ready, acc. simpl. destruct Hq'. split; [split; [done|lia]|]. unfold t. simpl in q_range0. lia.
  - intros k Hk. simpl. split; [by apply Hblk|]. apply Hdata. lia.
Qed.

Lemma read_loop_faithful off fuel s r :
  off = id_offset -> quiet s ->
  (forall b, currently_testing (p_g s) <= b < last_block -> md_content (p_d s) (α b) = data b) ->
  pass_loop last_block (r_iter fp off) fuel s = Some r ->
  exists s', r = inr s' /\ quiet s'.
Proof.
  intros Ho. revert s. induction fuel as [|fuel IH]; intros s Hq Hf Hr; simpl in Hr;
    (case_bool_decide as Hlt; [|injection Hr as <-; by exists s]).
  - done.
  - destruct (read_iter_quiet off s Ho Hq Hlt) as (s' & Hi & Hq' & Hct & _ & Ht & Hc & Hk).
    rewrite Hi, compare_equal in Hr; [|lia|].
    + apply (IH s' Hq'); [|done]. intros b Hb. rewrite Hc. apply Hf. rewrite Hct in Hb. lia.
    + intros k Hki. destruct (Hk k) as [-> ->]; [lia|]. apply Hf. lia.
Qed.

Lemma read_loop_detect off fuel s b1 :
  off = id_offset -> quiet s -> currently_testing (p_g s) <= b1 < last_block ->
  md_content (p_d s) (α b1) ≠ data b1 -> last_block * block_size < PB ->
  (pass_measure last_block s <= fuel)%nat ->
  exists r, pass_loop last_block (r_iter fp off) fuel s = Some r /\
    match r with inl s' => acc last_block first_block 1 s' | inr s' => acc last_block first_block 1 s' end.
Proof.
  intros Ho. revert s. induction fuel as [|fuel IH]; intros s Hq Hb1 Hne HPB Hm; simpl.
  - exfalso. unfold pass_measure in Hm. case_bool_decide; lia.
  - rewrite bool_decide_true by lia.
    destruct (read_iter_quiet off s Ho Hq ltac:(lia)) as (s' & Hi & Hq' & Hct & Hr' & Ht & Hc & Hk).
    set (ct := currently_testing (p_g s)) in *. set (t := Z.min bao (last_block - ct)) in *.
    destruct (compare_cases (Z.to_nat t) 0 t s' Hr') as (s2 & Hcmp & Hcase);
      [pose proof (q_range _ Hq); fold ct in H; lia|lia|lia|done|].
    rewrite Hi, Hcmp. pose proof (@md_read_bounded _ _ _ _ _ _ _ MD) as Hrb.
    assert (Hms : (pass_measure last_block s' < pass_measure last_block s)%nat).
    { unfold pass_measure. rewrite Hct. fold ct. repeat case_bool_decide; lia. }
    destruct Hcase as [[-> Heq]|[Hr1 Hm1]].
    + destruct (decide (b1 < ct + t)) as [Hin|Hout].
      * exfalso. apply Hne. specialize (Heq (b1 - ct) ltac:(lia)).
        destruct (Hk (b1 - ct) ltac:(lia)) as [E1 E2]. rewrite E1, E2 in Heq.
        by replace (ct + (b1 - ct)) with b1 in Heq by lia.
      * apply (IH s' Hq'); [lia|by rewrite Hc|done|lia].
    + destruct (pass_loop_ok last_block first_block bao 1 (r_iter fp off) fuel s2) as (r & Hr & Hacc);
        [apply read_iter_ok; done|done|lia|].
      exists r. split; [done|]. destruct r; [done|]. by destruct Hacc.
Qed.
End mapped.

(** ** Whole runs over mapped devices *)

Lemma length_pattern_fill rnd pattern n : length (fst (pattern_fill rnd pattern n)) = n.
Proof.
  unfold pattern_fill. case_bool_decide; cbn [fst]; [rewrite length_fmap; apply length_seq|].
  set (bp := if bool_decide (pattern_bytes 4 pattern = []) then [0] else pattern_bytes 4 pattern).
  set (nb := (length (pattern_bytes 4 pattern) - 1)%nat).
  assert (H0 : forall i, length (pattern_loop bp nb n i) = n); [|apply H0].
  induction n as [|n IH]; intros i; simpl; [done|]. by rewrite IH.
Qed.

Section runs.
Context {D : Type}.
Context (α : Z -> Z).
Context (write_sectors : D -> Z -> Z -> list Z -> Z * D).
Context (read_sectors : D -> Z -> Z -> Z * list Z * D).
Context (interrupted : D -> bool).
Context (realloc_ok : bool) (rnd : nat -> Z).
Context (detect_fakes : bool).
Context (last_block block_size first_block blocks_at_once id_offset : Z).
Context `{MD : !MappedDevice α block_size last_block blocks_at_once write_sectors read_sectors}.
Hypothesis Hblocks : 0 <= first_block <= last_block /\ last_block < 2 ^ 31.
Hypothesis Hsizes : 0 < block_size /\ 1 <= blocks_at_once < 2 ^ 31.
Hypothesis Hoff : 0 <= id_offset /\ id_offset + 8 <= block_size.
Hypothesis no_interrupt : forall d, md_good d -> interrupted d = false.

Abbreviation state := (@pass_state D).
Abbreviation pass := (test_pass write_sectors read_sectors interrupted realloc_ok rnd detect_fakes
  last_block block_size first_block blocks_at_once).
Abbreviation quiet_in P fp := (quiet α write_sectors read_sectors detect_fakes last_block block_size first_block blocks_at_once
  id_offset P fp).

(** Between two passes, with no block reported. *)
Record fresh (s : state) : Prop := {
  f_good : md_good (p_d s);
  f_acc : accounted first_block last_block 0 (p_g s);
  f_count : p_count s = 0;
  f_cancel : cancel_ops (p_g s) = 0;
  f_recover : p_recover s = NO_RECOVER;
  f_read : (Z.to_nat (blocks_at_once * block_size) <= length (p_read s))%nat
}.

Lemma start_quiet P fp op n g d buf rbuf :
  md_good d -> Z.of_nat (length P) = blocks_at_once * block_size ->
  accounted first_block last_block 0 g -> cancel_ops g = 0 -> (length P <= length rbuf)%nat ->
  buf_ok detect_fakes block_size blocks_at_once id_offset P fp buf ->
  quiet_in P fp (mkPass (start_pass op first_block n g) d buf rbuf 0 blocks_at_once NO_RECOVER).
Proof.
  intros Hd HP Ha Hc Hr Hb. constructor; simpl; try done; [|lia|].
  - by apply (accounted_same last_block first_block 0 g).
  - right. split; [|done]. by rewrite Z.sub_diag, Z.mod_0_l by lia.
Qed.

(** The writing pass leaves the data of every block in its cell, unless a
    later block took its place. *)
Lemma test_pass_written pattern fp s :
  fresh s ->
  exists P s', Z.of_nat (length P) = blocks_at_once * block_size /\ quiet_in P fp s' /\
    kept α write_sectors read_sectors detect_fakes last_block block_size first_block blocks_at_once id_offset P fp (p_d s') last_block /\
    pass pattern fp id_offset s =
      (let g := start_pass OP_READ first_block last_block (p_g s') in
       r ← pass_loop last_block (read_iter read_sectors interrupted realloc_ok detect_fakes last_block
             block_size blocks_at_once fp id_offset) (pass_fuel last_block first_block)
             (mkPass g (p_d s') (p_buffer s') (p_read s') (p_count s') blocks_at_once (p_recover s'));
       match r with
       | inl s => Some (inl s)
       | inr s => Some (inr (mkPass (start_pass OP_READ (currently_testing (p_g s)) 0 (p_g s)) (p_d s)
                    (p_buffer s) (p_read s) (p_count s) (p_tryout s) (p_recover s)))
       end).
Proof.
  intros []. unfold test_pass.
  assert (Ha : alarm_intr interrupted (p_d s) (p_g s) = p_g s).
  { unfold alarm_intr. rewrite no_interrupt by done. by case_bool_decide. }
  rewrite Ha, bool_decide_false by (by intros ?).
  pose proof (length_pattern_fill rnd pattern (Z.to_nat (blocks_at_once * block_size))) as Hlen.
  destruct (pattern_fill rnd pattern _) as [P adv]. simpl in Hlen.
  assert (HP : Z.of_nat (length P) = blocks_at_once * block_size) by nia.
  set (g1 := set_patterns _ _ _).
  set (s0 := mkPass (start_pass OP_WRITE first_block (u64 (last_block - 1)) g1) (p_d s) P (p_read s)
               (p_count s) blocks_at_once (p_recover s)).
  assert (Ha1 : accounted first_block last_block 0 g1)
    by (by apply (accounted_same last_block first_block 0 (p_g s))).
  assert (Hq0 : quiet_in P fp s0).
  { unfold s0. rewrite f_count0, f_recover0. apply start_quiet; [done|done|done|done|lia|].
    split; [done|]. intros; by left. }
  assert (Hk0 : kept α write_sectors read_sectors detect_fakes last_block block_size first_block blocks_at_once id_offset P fp
    (p_d s0) (currently_testing (p_g s0))) by (intros b Hb; simpl in Hb; lia).
  destruct (pass_loop_ok last_block first_block blocks_at_once 0
    (write_iter write_sectors interrupted realloc_ok detect_fakes last_block block_size blocks_at_once
       fp id_offset) (pass_fuel last_block first_block) s0) as (r & Hr & _).
  { apply write_iter_ok; [done|done|apply md_write_bounded]. }
  { unfold ready, acc, s0. simpl. rewrite f_count0. split; [split; [|lia]|lia].
    by apply (accounted_same last_block first_block 0 g1). }
  { unfold pass_measure, pass_fuel, s0. simpl. case_bool_decide; lia. }
  destruct (write_loop_quiet α write_sectors read_sectors interrupted realloc_ok detect_fakes last_block
    block_size first_block blocks_at_once id_offset Hblocks Hsizes Hoff no_interrupt P fp HP id_offset
    (pass_fuel last_block first_block) s0 r eq_refl Hq0 Hk0 Hr) as (s' & -> & Hq' & Hk').
  exists P, s'. split; [done|]. split; [done|]. split; [done|].
  rewrite Hr. reflexivity.
Qed.

(** A device that keeps every block: no false positive. *)
Lemma test_pass_faithful pattern fp s :
  (forall b b', first_block <= b < last_block -> first_block <= b' < last_block -> α b = α b' -> b = b') ->
  fresh s -> exists s', pass pattern fp id_offset s = Some (inr s') /\ fresh s'.
Proof.
  intros Hinj Hf. destruct (test_pass_written pattern fp s Hf) as (P & s1 & HP & Hq & Hk & ->).
  cbv zeta. set (s2 := mkPass _ (p_d s1) _ _ _ _ _).
  assert (Hq2 : quiet_in P fp s2).
  { unfold s2. destruct Hq. rewrite q_count0, q_recover0. apply start_quiet; try done. }
  destruct (pass_loop_ok last_block first_block blocks_at_once 0
    (read_iter read_sectors interrupted realloc_ok detect_fakes last_block block_size blocks_at_once
       fp id_offset) (pass_fuel last_block first_block) s2) as (r & Hr & _).
  { apply read_iter_ok; [done|done|apply md_read_bounded]. }
  { unfold ready, acc, s2. simpl. destruct Hq. rewrite q_count0. split; [split; [|lia]|lia].
    by apply (accounted_same last_block first_block 0 (p_g s1)). }
  { unfold pass_measure, pass_fuel, s2. simpl. case_bool_decide; lia. }
  destruct (read_loop_faithful α write_sectors read_sectors interrupted realloc_ok detect_fakes last_block
    block_size first_block blocks_at_once id_offset Hblocks Hsizes Hoff no_interrupt P fp HP id_offset
    (pass_fuel last_block first_block) s2 r eq_refl Hq2) as (s3 & -> & Hq3); [|done|].
  { intros b Hb. simpl in Hb. destruct (Hk b Hb) as (b' & Hb' & Hab & E). simpl. rewrite E. f_equal.
    apply Hinj; [lia|lia|done]. }
  rewrite Hr. eexists. split; [reflexivity|]. destruct Hq3. constructor; simpl; try done; [|lia].
  by apply (accounted_same last_block first_block 0 (p_g s3)).
Qed.

Lemma test_passes_faithful pats fp s :
  (forall b b', first_block <= b < last_block -> first_block <= b' < last_block -> α b = α b' -> b = b') ->
  fresh s ->
  exists s', test_passes write_sectors read_sectors interrupted realloc_ok rnd detect_fakes
    last_block block_size first_block blocks_at_once pats fp id_offset s = Some s' /\ fresh s'.
Proof.
  intros Hinj. revert fp s. induction pats as [|p pats IH]; intros fp s Hf; simpl; [eauto|].
  destruct (test_pass_faithful p fp s Hinj Hf) as (s1 & -> & H1). simpl. by apply IH.
Qed.

(** Two blocks that share a cell: the first one reads back another number. *)
Lemma test_passes_detect p pats s b1 b2 :
  detect_fakes = true -> first_block <= b1 < b2 -> b2 < last_block -> α b1 = α b2 ->
  last_block * block_size < PB -> fresh s ->
  exists s', test_passes write_sectors read_sectors interrupted realloc_ok rnd detect_fakes
    last_block block_size first_block blocks_at_once (p :: pats) true id_offset s = Some s' /\
    0 < p_count s'.
Proof.
  intros Hdf Hb1 Hb2 Hα HPB Hf. cbn [test_passes].
  destruct (test_pass_written p true s Hf) as (P & s1 & HP & Hq & Hk & ->).
  cbv zeta. set (s2 := mkPass _ (p_d s1) _ _ _ _ _).
  assert (Hq2 : quiet_in P true s2).
  { unfold s2. destruct Hq. rewrite q_count0, q_recover0. apply start_quiet; try done. }
  assert (Hbad : md_content (p_d s2) (α b1) ≠
                 data detect_fakes block_size first_block blocks_at_once id_offset P true b1).
  { destruct (Hk b2 ltac:(lia)) as (b' & Hb' & Hab & E). rewrite <- Hα in E. simpl. rewrite E.
    unfold data. rewrite Hdf. simpl. intros Hst.
    assert (Hlb : forall b, (Z.to_nat block_size <=
      length (slice (Z.to_nat ((b - first_block) mod blocks_at_once * block_size)) (Z.to_nat block_size) P))%nat).
    { intros b. pose proof (Z.mod_pos_bound (b - first_block) blocks_at_once ltac:(lia)).
      rewrite length_slice. nia. }
    apply (stamped_inj block_size id_offset Hoff) in Hst; [lia|apply Hlb|apply Hlb|lia|lia]. }
  destruct (read_loop_detect α write_sectors read_sectors interrupted realloc_ok detect_fakes last_block
    block_size first_block blocks_at_once id_offset Hblocks Hsizes Hoff no_interrupt P true HP id_offset
    (pass_fuel last_block first_block) s2 b1 eq_refl Hq2) as (r & Hr & Hacc); [simpl; lia|done|done| |].
  { unfold pass_measure, pass_fuel, s2. simpl. case_bool_decide; lia. }
  rewrite Hr. destruct r as [s3|s3]; cbn [mbind option_bind].
  - exists s3. split; [done|]. destruct Hacc. lia.
  - set (s4 := mkPass _ (p_d s3) _ _ _ _ _).
    assert (Ha4 : acc last_block first_block 1 s4).
    { destruct Hacc as [Ha Hfl]. split; [by apply (accounted_same last_block first_block _ (p_g s3))|done]. }
    destruct (test_passes_ok write_sectors read_sectors interrupted realloc_ok rnd detect_fakes last_block
      block_size first_block blocks_at_once Hblocks Hsizes md_write_bounded md_read_bounded 1 pats false
      id_offset s4 Ha4) as (s' & Hs' & [_ Hfl]).
    exists s'. split; [done|]. lia.
Qed.
End runs.

(** ** [BadBlocks] *)

Lemma list_created :
  exists l, bb_badblocks_list_create true 0 = (BB_OK, Some l) /\ list_ok l /\ blocks l = [] /\ bb_num l = 0%nat.
Proof. eexists. split; [reflexivity|]. split; [|done]. constructor; simpl; (done || lia || constructor). Qed.

Lemma created_accounted first last l c p n o ct nb next g :
  list_ok l -> blocks l = [] -> bb_num l = 0%nat ->
  g = mkG c p n o ct nb 0 0 0 l next None -> accounted first last 0 g.
Proof.
  intros Hok Hb Hn ->. constructor; simpl; try done; [by rewrite Hb; constructor|by rewrite Hn].
Qed.

Lemma pattern_rows type nb :
  0 <= type < BADLOCKS_PATTERN_TYPES -> 1 <= nb <= BADBLOCK_PATTERN_COUNT ->
  exists p pats, take (Z.to_nat nb) (patterns !!! Z.to_nat type) = p :: pats.
Proof.
  unfold BADLOCKS_PATTERN_TYPES, BADBLOCK_PATTERN_COUNT. intros Ht Hn.
  destruct (Z.to_nat nb) as [|k] eqn:E; [lia|].
  assert (type = 0 \/ type = 1 \/ type = 2 \/ type = 3 \/ type = 4) as Hc by lia.
  destruct Hc as [->|[->|[->|[->| ->]]]]; simpl; eauto.
Qed.

Lemma id_offset_range rand (bs : Z) :
  8 <= bs -> 0 <= rand <= RAND_MAX -> 0 <= rand * (bs - 8) / RAND_MAX <= bs - 8.
Proof.
  unfold RAND_MAX. intros Hb Hr. split; [apply Z.div_pos; nia|].
  apply Z.div_le_upper_bound; nia.
Qed.

Section badblocks.
Context {D : Type}.
Context (write_sectors : D -> Z -> Z -> list Z -> Z * D).
Context (read_sectors : D -> Z -> Z -> Z * list Z * D).
Context (interrupted : D -> bool).
Context (realloc_ok : bool) (rnd : nat -> Z) (rand : Z).
Context (detect_fakes : bool).

Abbreviation run := (test_rw write_sectors read_sectors interrupted realloc_ok rnd rand detect_fakes).
Abbreviation check := (BadBlocks write_sectors read_sectors interrupted realloc_ok rnd rand detect_fakes).

Lemma test_rw_accounted buffer_ok last bs first bao type nb read0 g d :
  0 <= first <= last -> last < 2 ^ 31 -> 0 < bs -> 1 <= bao < 2 ^ 31 ->
  (forall d ct n buf, in_blocks last bao ct n -> fst (write_sectors d ct n buf) <= n * bs) ->
  (forall d ct n, in_blocks last bao ct n -> fst (fst (read_sectors d ct n)) <= n * bs) ->
  accounted first last 0 g ->
  exists count g' d', run buffer_ok last bs first bao type nb read0 g d = Some (count, g', d') /\
    accounted first last count g'.
Proof.
  intros Hb Hl Hbs Hbao Hw Hr Ha. unfold test_rw.
  assert (Hc : accounted first last 0 (set_cancel g)) by (by apply (accounted_same last first 0 g)).
  case_bool_decide; [eauto 6|]. case_bool_decide; [eauto 6|]. case_bool_decide; [eauto 6|].
  destruct buffer_ok; simpl negb; cbv iota; [|eauto 6]. cbv zeta.
  destruct (test_passes_ok write_sectors read_sectors interrupted realloc_ok rnd detect_fakes last bs first bao
    (conj Hb Hl) (conj Hbs Hbao) Hw Hr 0
    (take (Z.to_nat nb) (patterns !!! Z.to_nat type)) true
    (if detect_fakes then rand * (bs - 8) / RAND_MAX else 0)
    (mkPass (set_patterns 0 nb g) d [] read0 0 bao NO_RECOVER)) as (s & Hs & Hacc & _).
  { split; [|done]. by apply (accounted_same last first 0 g). }
  exists (p_count s), (p_g s), (p_d s). by rewrite Hs.
Qed.

Lemma last_block_range disk_size :
  0 <= disk_size < PB ->
  0 <= 0 <= disk_size / BADBLOCK_BLOCK_SIZE /\ disk_size / BADBLOCK_BLOCK_SIZE < 2 ^ 31 /\
  disk_size / BADBLOCK_BLOCK_SIZE * BADBLOCK_BLOCK_SIZE < PB.
Proof.
  unfold PB, BADBLOCK_BLOCK_SIZE. intros H.
  pose proof (Z.div_mod disk_size (512 * 1024) ltac:(lia)).
  pose proof (Z.mod_pos_bound disk_size (512 * 1024) ltac:(lia)). lia.
Qed.

(** The guards of [test_rw] that a run of [BadBlocks] passes. *)
Lemma test_rw_runs bao type nb read0 g d last :
  0 <= type < BADLOCKS_PATTERN_TYPES -> 1 <= nb <= BADBLOCK_PATTERN_COUNT ->
  0 <= last -> last * BADBLOCK_BLOCK_SIZE < PB ->
  run true last BADBLOCK_BLOCK_SIZE 0 bao type nb read0 g d =
  (s ← test_passes write_sectors read_sectors interrupted realloc_ok rnd detect_fakes last BADBLOCK_BLOCK_SIZE
         0 bao (take (Z.to_nat nb) (patterns !!! Z.to_nat type)) true
         (if detect_fakes then rand * (BADBLOCK_BLOCK_SIZE - 8) / RAND_MAX else 0)
         (mkPass (set_patterns 0 nb g) d [] read0 0 bao NO_RECOVER);
   Some (p_count s, p_g s, p_d s)).
Proof.
  intros Ht Hn Hl HPB. unfold test_rw. rewrite !bool_decide_false; [done|..| |]; try lia.
  rewrite !uwrap_small; unfold PB, BADBLOCK_BLOCK_SIZE in *; lia.
Qed.
End badblocks.

Lemma sizes_ok : 0 < BADBLOCK_BLOCK_SIZE /\ 1 <= BB_BLOCKS_AT_ONCE < 2 ^ 31.
Proof. unfold BADBLOCK_BLOCK_SIZE, BB_BLOCKS_AT_ONCE. lia. Qed.

Lemma start_fresh {D} α last bs bao (write_sectors : D -> Z -> Z -> list Z -> Z * D) read_sectors
    `{MD : !MappedDevice α bs last bao write_sectors read_sectors} g nb (d : D) read0 :
  md_good d -> accounted 0 last 0 g -> cancel_ops g = 0 -> length read0 = Z.to_nat (bao * bs) ->
  fresh α write_sectors read_sectors last bs 0 bao (mkPass (set_patterns 0 nb g) d [] read0 0 bao NO_RECOVER).
Proof.
  intros Hd Ha Hc Hr. split; [done|by apply (accounted_same last 0 0 g)|reflexivity|exact Hc|reflexivity|].
  cbn [p_read]. lia.
Qed.

(** ** Properties *)

(** The list of bad blocks is a sorted set: an addition that succeeds
    leaves it strictly sorted with exactly the new block added (and its length
    unchanged when it was there), a failed [realloc] leaves it as it was, and
    the bisection finds a block exactly when it is in the list. *)
Lemma bad_block_set l blk ok :
  list_ok l ->
  bb_u64_list_test l blk = bool_decide (blk ∈ blocks l) /\
  match bb_u64_list_add ok l blk with
  | (BB_OK, l') => list_ok l' /\ (forall b, b ∈ blocks l' <-> b = blk \/ b ∈ blocks l) /\
      bb_num l' = (if bool_decide (blk ∈ blocks l) then bb_num l else S (bb_num l))
  | (e, l') => e = BB_ET_NO_MEMORY /\ ok = false /\ l' = l
  end.
Proof.
  intros Hok. split; [by apply list_test_spec|].
  destruct (list_add_ok l blk ok Hok) as [(-> & _ & ->)|(l' & -> & H)]; done.
Qed.

Lemma bad_block_set_witness :
  bb_u64_list_test (mkBB BB_ET_MAGIC_BADBLOCKS_LIST 2 4 [3; 8; 0; 0]) 8 = true.
Proof.
  apply (bad_block_set (mkBB BB_ET_MAGIC_BADBLOCKS_LIST 2 4 [3; 8; 0; 0]) 8 true).
  constructor; [reflexivity|simpl; lia|reflexivity|].
  unfold blocks. simpl. apply SSorted_cons; [apply SSorted_cons; constructor|].
  apply Forall_singleton. lia.
Defined.

(** Whatever the device and the user do, [BadBlocks] ends, and its report
    is consistent: the count of bad blocks is the sum of the read, write and
    corruption errors and at most the number of blocks. *)
Lemma badblocks_report_ok {D} (write_sectors : D -> Z -> Z -> list Z -> Z * D) read_sectors interrupted
    realloc_ok rnd rand detect_fakes list_ok buffer_ok disk_size nb_passes flash_type read0 g d :
  (forall d ct n buf, in_blocks (disk_size / BADBLOCK_BLOCK_SIZE) BB_BLOCKS_AT_ONCE ct n ->
     fst (write_sectors d ct n buf) <= n * BADBLOCK_BLOCK_SIZE) ->
  (forall d ct n, in_blocks (disk_size / BADBLOCK_BLOCK_SIZE) BB_BLOCKS_AT_ONCE ct n ->
     fst (fst (read_sectors d ct n)) <= n * BADBLOCK_BLOCK_SIZE) ->
  0 <= disk_size < PB -> bb_iter g = None ->
  exists r report d',
    BadBlocks write_sectors read_sectors interrupted realloc_ok rnd rand detect_fakes list_ok buffer_ok
      disk_size nb_passes flash_type read0 g d = Some (r, report, d') /\
    match report with
    | None => list_ok = false /\ r = false
    | Some R => r_bb_count R = r_read_errors R + r_write_errors R + r_corruption_errors R /\
        0 <= r_bb_count R <= disk_size / BADBLOCK_BLOCK_SIZE /\
        0 <= r_read_errors R /\ 0 <= r_write_errors R /\ 0 <= r_corruption_errors R
    end.
Proof.
  intros Hw Hr Hd Hi. destruct (last_block_range disk_size Hd) as (Hb & Hl & _).
  unfold BadBlocks. destruct list_ok; [|by exists false, None, d].
  destruct list_created as (l & -> & Hok & Hbl & Hn). rewrite Hi.
  set (last := disk_size / BADBLOCK_BLOCK_SIZE) in *.
  destruct (test_rw_accounted write_sectors read_sectors interrupted realloc_ok rnd rand detect_fakes buffer_ok
    last BADBLOCK_BLOCK_SIZE 0 BB_BLOCKS_AT_ONCE flash_type nb_passes read0
    (mkG 0 (cur_pattern g) (nr_pattern g) (cur_op g) (currently_testing g) (num_blocks g) 0 0 0 l
       (next_bad g) None) d) as (count & g' & d' & -> & Hacc); try done.
  { by eapply (created_accounted 0 last l). }
  pose proof (accounted_bound _ _ _ _ Hacc ltac:(lia)) as Hcb. destruct Hacc.
  cbn [mbind option_bind]. eexists _, (Some _), d'. split; [reflexivity|].
  cbn [r_bb_count r_read_errors r_write_errors r_corruption_errors]. unfold total_errors in *. lia.
Qed.

(** No false positive: on a device that keeps every block it is given,
    every choice of passes reports no bad block, with or without the fake
    drive check, and [BadBlocks] succeeds. *)
Lemma badblocks_faithful_device {D} α disk_size (write_sectors : D -> Z -> Z -> list Z -> Z * D) read_sectors
    `{MD : !MappedDevice α BADBLOCK_BLOCK_SIZE (disk_size / BADBLOCK_BLOCK_SIZE) BB_BLOCKS_AT_ONCE write_sectors read_sectors}
    interrupted realloc_ok rnd rand detect_fakes nb_passes flash_type read0 g d :
  0 <= disk_size < PB ->
  (forall b b', 0 <= b < disk_size / BADBLOCK_BLOCK_SIZE -> 0 <= b' < disk_size / BADBLOCK_BLOCK_SIZE ->
     α b = α b' -> b = b') ->
  md_good d -> (forall d, md_good d -> interrupted d = false) -> 0 <= rand <= RAND_MAX -> bb_iter g = None ->
  0 <= flash_type < BADLOCKS_PATTERN_TYPES -> 1 <= nb_passes <= BADBLOCK_PATTERN_COUNT ->
  length read0 = Z.to_nat (BB_BLOCKS_AT_ONCE * BADBLOCK_BLOCK_SIZE) ->
  exists d',
    BadBlocks write_sectors read_sectors interrupted realloc_ok rnd rand detect_fakes true true
      disk_size nb_passes flash_type read0 g d = Some (true, Some (mkReport 0 0 0 0), d') /\ md_good d'.
Proof.
  intros Hd Hinj Hgood Hint Hrand Hi Htype Hnb Hread. destruct (last_block_range disk_size Hd) as (Hb & Hl & HPB).
  unfold BadBlocks. destruct list_created as (l & -> & Hok & Hbl & Hn). rewrite Hi.
  set (last := disk_size / BADBLOCK_BLOCK_SIZE) in *. set (g0 := mkG _ _ _ _ _ _ _ _ _ _ _ _).
  rewrite test_rw_runs by (exact Htype || exact Hnb || exact HPB || lia).
  assert (Hg0 : accounted 0 last 0 g0) by (by eapply (created_accounted 0 last l)).
  assert (Hoff : 0 <= (if detect_fakes then rand * (BADBLOCK_BLOCK_SIZE - 8) / RAND_MAX else 0) /\
    (if detect_fakes then rand * (BADBLOCK_BLOCK_SIZE - 8) / RAND_MAX else 0) + 8 <= BADBLOCK_BLOCK_SIZE).
  { pose proof (id_offset_range rand BADBLOCK_BLOCK_SIZE ltac:(unfold BADBLOCK_BLOCK_SIZE; lia) Hrand).
    destruct detect_fakes; [lia|]. unfold BADBLOCK_BLOCK_SIZE. lia. }
  destruct (test_passes_faithful α write_sectors read_sectors interrupted realloc_ok rnd detect_fakes last
    BADBLOCK_BLOCK_SIZE 0 BB_BLOCKS_AT_ONCE _ (conj Hb Hl) sizes_ok Hoff Hint
    (take (Z.to_nat nb_passes) (patterns !!! Z.to_nat flash_type)) true
    (mkPass (set_patterns 0 nb_passes g0) d [] read0 0 BB_BLOCKS_AT_ONCE NO_RECOVER) Hinj)
    as (s & -> & [Hgood' Hacc Hcnt Hcan _ _]).
  { exact (start_fresh α last _ _ write_sectors read_sectors g0 nb_passes d read0 Hgood Hg0 eq_refl Hread). }
  exists (p_d s). split; [|done]. destruct Hacc. unfold total_errors in *.
  cbn [mbind option_bind].
  rewrite bool_decide_false by (intros [? _]; congruence).
  assert (num_read_errors (p_g s) = 0 /\ num_write_errors (p_g s) = 0 /\ num_corruption_errors (p_g s) = 0)
    as (E1 & E2 & E3) by lia.
  by rewrite Hcnt, E1, E2, E3.
Qed.

(** C32: Counterfeit capacity is detected: with the fake drive check, on a
    device where two blocks share a cell (a drive with less storage than it
    claims, whose transfers all succeed) [BadBlocks] reports bad blocks,
    whichever cells are shared. *)
Theorem badblocks_detects_fake {D} α disk_size (write_sectors : D -> Z -> Z -> list Z -> Z * D) read_sectors
    `{MD : !MappedDevice α BADBLOCK_BLOCK_SIZE (disk_size / BADBLOCK_BLOCK_SIZE) BB_BLOCKS_AT_ONCE write_sectors read_sectors}
    interrupted realloc_ok rnd rand nb_passes flash_type read0 g d b1 b2 :
  0 <= disk_size < PB ->
  0 <= b1 < b2 -> b2 < disk_size / BADBLOCK_BLOCK_SIZE -> α b1 = α b2 ->
  md_good d -> (forall d, md_good d -> interrupted d = false) -> 0 <= rand <= RAND_MAX -> bb_iter g = None ->
  0 <= flash_type < BADLOCKS_PATTERN_TYPES -> 1 <= nb_passes <= BADBLOCK_PATTERN_COUNT ->
  length read0 = Z.to_nat (BB_BLOCKS_AT_ONCE * BADBLOCK_BLOCK_SIZE) ->
  exists report d',
    BadBlocks write_sectors read_sectors interrupted realloc_ok rnd rand true true true
      disk_size nb_passes flash_type read0 g d = Some (true, Some report, d') /\
    0 < r_bb_count report.
Proof.
  intros Hd Hb12 Hb2 Hα Hgood Hint Hrand Hi Htype Hnb Hread.
  destruct (last_block_range disk_size Hd) as (Hb & Hl & HPB).
  unfold BadBlocks. destruct list_created as (l & -> & Hok & Hbl & Hn). rewrite Hi.
  set (last := disk_size / BADBLOCK_BLOCK_SIZE) in *. set (g0 := mkG _ _ _ _ _ _ _ _ _ _ _ _).
  rewrite test_rw_runs by (exact Htype || exact Hnb || exact HPB || lia).
  destruct (pattern_rows flash_type nb_passes Htype Hnb) as (p & pats & ->).
  assert (Hg0 : accounted 0 last 0 g0) by (by eapply (created_accounted 0 last l)).
  pose proof (id_offset_range rand BADBLOCK_BLOCK_SIZE ltac:(unfold BADBLOCK_BLOCK_SIZE; lia) Hrand) as Ho.
  destruct (test_passes_detect α write_sectors read_sectors interrupted realloc_ok rnd true last
    BADBLOCK_BLOCK_SIZE 0 BB_BLOCKS_AT_ONCE (rand * (BADBLOCK_BLOCK_SIZE - 8) / RAND_MAX)
    (conj Hb Hl) sizes_ok ltac:(lia) Hint p pats
    (mkPass (set_patterns 0 nb_passes g0) d [] read0 0 BB_BLOCKS_AT_ONCE NO_RECOVER) b1 b2)
    as (s & -> & Hcnt); [reflexivity|lia|exact Hb2|exact Hα|exact HPB| |].
  { exact (start_fresh α last _ _ write_sectors read_sectors g0 nb_passes d read0 Hgood Hg0 eq_refl Hread). }
  cbn [mbind option_bind]. eexists _, (p_d s). rewrite bool_decide_false by (intros [_ ?]; lia).
  split; [reflexivity|]. done.
Qed.

(** *** A device with one cell per value of [α] *)

Definition resize_block (bs : nat) (l : list Z) : list Z := take bs (l ++ replicate bs 0).

Definition cell_write (α : Z -> Z) (bs : Z) (d : Z -> list Z) (ct n : Z) (buf : list Z) : Z * (Z -> list Z) :=
  (n * bs, written α (Z.to_nat bs) ct buf d (Z.to_nat n)).

Definition cell_read (α : Z -> Z) (bs : Z) (d : Z -> list Z) (ct n : Z) : Z * list Z * (Z -> list Z) :=
  (n * bs, concat ((fun i => resize_block (Z.to_nat bs) (d (α (ct + Z.of_nat i)))) <$> seq 0 (Z.to_nat n)), d).

Lemma written_resize α bs ct buf d n x :
  (n * bs <= length buf)%nat ->
  resize_block bs (written α bs ct buf d n x) = written α bs ct buf (fun x => resize_block bs (d x)) n x.
Proof.
  induction n as [|n IH]; intros Hl; simpl; [done|]. case_bool_decide; [|apply IH; lia].
  unfold resize_block. rewrite take_app_le by (rewrite length_slice; lia).
  unfold slice. by rewrite take_take, Nat.min_id.
Qed.

#[export, refine] Instance cell_device α bs last bao :
  MappedDevice α bs last bao (cell_write α bs) (cell_read α bs) := {
  md_good := fun _ => True;
  md_content := fun d x => resize_block (Z.to_nat bs) (d x)
}.
Proof.
  - intros d x. unfold resize_block. rewrite length_take, length_app, length_replicate. lia.
  - intros d ct n buf _. simpl. lia.
  - intros d ct n _. simpl. lia.
  - intros d ct n buf _ Hn Hl. split; [done|]. split; [done|]. intros x. by apply written_resize.
  - intros d ct n _ Hn. done.
Defined.

Definition globals0 : bb_globals :=
  mkG 0 0 0 OP_READ 0 0 0 0 0 (mkBB BB_OK 0 0 []) 0 None.

Abbreviation wr α := (cell_write α BADBLOCK_BLOCK_SIZE).
Abbreviation rd α := (cell_read α BADBLOCK_BLOCK_SIZE).
Abbreviation buffer0 := (replicate (Z.to_nat (BB_BLOCKS_AT_ONCE * BADBLOCK_BLOCK_SIZE)) 0).

Lemma badblocks_report_ok_witness :
  exists r report d',
    BadBlocks (wr id) (rd id) (fun _ => true) true (fun _ => 0) 0 true true true (2 ^ 31) 1 0 [] globals0
      (fun _ => []) = Some (r, report, d').
Proof.
  destruct (badblocks_report_ok (wr id) (rd id) (fun _ => true) true (fun _ => 0) 0 true true true
              (2 ^ 31) 1 0 [] globals0 (fun _ => [])) as (r & report & d' & E & _).
  - intros d ct n buf _. apply Z.le_refl.
  - intros d ct n _. apply Z.le_refl.
  - unfold PB. lia.
  - reflexivity.
  - exists r, report, d'. exact E.
Defined.

Lemma badblocks_faithful_device_witness :
  exists d', BadBlocks (wr id) (rd id) (fun _ => false) true (fun _ => 0) 17 true true true
    (2 ^ 31) 4 2 buffer0 globals0 (fun _ => []) = Some (true, Some (mkReport 0 0 0 0), d').
Proof.
  destruct (badblocks_faithful_device id (2 ^ 31) (wr id) (rd id) (fun _ => false) true (fun _ => 0) 17 true 4 2 buffer0 globals0 (fun _ => []))
    as (d' & E & _).
  - unfold PB. lia.
  - intros b b' _ _ E. exact E.
  - exact I.
  - intros d _. reflexivity.
  - unfold RAND_MAX. lia.
  - reflexivity.
  - unfold BADLOCKS_PATTERN_TYPES. lia.
  - unfold BADBLOCK_PATTERN_COUNT. lia.
  - apply length_replicate.
  - exists d'. exact E.
Defined.

(** A drive that shows 4096 blocks and keeps 3. *)
Lemma badblocks_detects_fake_witness :
  exists report d', BadBlocks (wr (fun b => b mod 3)) (rd (fun b => b mod 3)) (fun _ => false) true
    (fun _ => 0) 17 true true true (2 ^ 31) 1 0 buffer0 globals0 (fun _ => [])
    = Some (true, Some report, d') /\ 0 < r_bb_count report.
Proof.
  apply (badblocks_detects_fake (fun b => b mod 3) (2 ^ 31) (wr _) (rd _) _ true (fun _ => 0) 17 1 0
           buffer0 globals0 (fun _ => []) 1 4).
  - unfold PB. lia.
  - lia.
  - reflexivity.
  - reflexivity.
  - exact I.
  - intros d _. reflexivity.
  - unfold RAND_MAX. lia.
  - reflexivity.
  - unfold BADLOCKS_PATTERN_TYPES. lia.
  - unfold BADBLOCK_PATTERN_COUNT. lia.
  - apply length_replicate.
Defined.

(** A device of two 8-byte blocks whose first transfer of two blocks stops
    after one, and whose first block always reads back as zeros. *)
Definition partial_write (d : bool) (ct n : Z) (buf : list Z) : Z * bool := (n * 8, d).
Definition partial_read (d : bool) (ct n : Z) : Z * list Z * bool :=
  if bool_decide (n = 2) then (8, replicate 8 0, d)
  else (8, if bool_decide (ct = 0) then replicate 8 0 else replicate 8 0x55, d).

(** Blocks read by a transfer that stops early are never compared: when
    the first read of two blocks returns one, the testing moves past that
    block, and [test_rw] reports no bad block although the block does not
    hold the pattern (it reads 0 instead of 0x55). *)
Lemma partial_read_unverified :
  (fun '(count, g, _) => (count, cancel_ops g)) <$>
    test_rw partial_write partial_read (fun _ => false) true (fun _ => 0) 0 false true 2 8 0 2 0 1
      (replicate 16 0) (set_list (mkBB BB_ET_MAGIC_BADBLOCKS_LIST 0 10 (replicate 10 0)) globals0) true
  = Some (0, 0) /\
  fst (pattern_fill (fun _ => 0) ((patterns !!! 0%nat) !!! 0%nat) 8) = replicate 8 0x55 /\
  snd (fst (partial_read true 0 1)) = replicate 8 0.
Proof. split_and!; vm_compute; reflexivity. Qed.
