(* ===== verification/CregexParse.v ===== *)
(** CregexParse: the nodes and the parser of the regular expression engine,
    src/src/cregex.h and src/src/cregex_parse.c.

    The parser works in one block of [estimate_nodes] nodes, with a stack that
    grows from its bottom and an output area that grows from its top. A node
    that is moved to the output area is never written again as long as the two
    areas do not meet, so that a pointer to it is represented by the tree it
    heads; the model counts the slots of both areas, and a [push] without a
    free slot is the memory error [Bad]. *)

From Stdlib Require Import Ascii.
From stdpp Require Import strings.
From S2P Require Import Prelude.

(** ** Outcomes

    [Null] is the NULL (or -1) that a C function returns on error. [Bad] is an
    operation that C leaves undefined, or [abort()]. [NoFuel] is the end of the
    fuel of the model: theorems show that it is not reached. *)

Inductive undefined := OutOfBoundsRead | OutOfBoundsWrite | IntegerOverflow | Aborted.

Inductive c_result (A : Type) := Ok (a : A) | Null | Bad (e : undefined) | NoFuel.
Arguments Ok {A} a.
Arguments Null {A}.
Arguments Bad {A} e.
Arguments NoFuel {A}.

Definition obind {A B} (m : c_result A) (f : A -> c_result B) : c_result B :=
  match m with Ok a => f a | Null => Null | Bad e => Bad e | NoFuel => NoFuel end.

Declare Scope cregex_scope.
Delimit Scope cregex_scope with cregex.
Notation "'let!' x ':=' m 'in' k" := (obind m (fun x => k))
  (at level 10, x pattern, k at level 200) : cregex_scope.
Open Scope cregex_scope.

(** ** Characters: a [char] is signed, a string ends with a null character *)

Definition chr (a : Ascii.ascii) : Z :=
  let c := Z.of_N (Ascii.N_of_ascii a) in if c <? 128 then c else c - 256.
Arguments chr a%_char_scope.

Fixpoint str (s : string) : list Z :=
  match s with
  | EmptyString => []
  | String a s => chr a :: str s
  end.

(** A string of C in memory: its characters, then the terminator. *)
Definition cstring (s : list Z) : list Z := s ++ [0].

Definition is_char (c : Z) : Prop := -128 <= c < 128 /\ c ≠ 0.

Definition peek (mem : list Z) (i : nat) : c_result Z :=
  match mem !! i with Some c => Ok c | None => Bad OutOfBoundsRead end.

Definition is_digit (c : Z) : bool := (chr "0" <=? c) && (c <=? chr "9").

(** ** Nodes *)

Inductive cregex_node :=
  | EPSILON
  | CHARACTER (ch : Z)
  | ANY_CHARACTER
  | CHARACTER_CLASS (from to : nat)
  | CHARACTER_CLASS_NEGATED (from to : nat)
  | CONCATENATION (left right : cregex_node)
  | ALTERNATION (left right : cregex_node)
  | QUANTIFIER (nmin nmax : Z) (greedy : bool) (quantified : cregex_node)
  | ANCHOR_BEGIN
  | ANCHOR_END
  | CAPTURE (captured : cregex_node).

#[export] Instance cregex_node_eq_dec : EqDecision cregex_node.
Proof. solve_decision. Defined.

(** ** The parser *)

Record regex_parse_context := mkCtx {
  sp : nat;                        (* index in the pattern *)
  stack : list cregex_node;        (* top first *)
  nout : nat                       (* nodes of the output area *)
}.

Definition move_sp (n : nat) (c : regex_parse_context) : regex_parse_context :=
  mkCtx (sp c + n) (stack c) (nout c).

Section Parser.
Context (pat : list Z) (cap : nat).

Definition push (node : cregex_node) (c : regex_parse_context) : c_result regex_parse_context :=
  if bool_decide (length (stack c) + nout c < cap)%nat
  then Ok (mkCtx (sp c) (node :: stack c) (nout c)) else Bad OutOfBoundsWrite.

Definition drop_top (c : regex_parse_context) : c_result regex_parse_context :=
  match stack c with
  | _ :: st => Ok (mkCtx (sp c) st (nout c))
  | [] => Bad OutOfBoundsWrite
  end.

Definition consume (c : regex_parse_context) : c_result (cregex_node * regex_parse_context) :=
  match stack c with
  | n :: st => Ok (n, mkCtx (sp c) st (S (nout c)))
  | [] => Bad OutOfBoundsWrite
  end.

Fixpoint concat_loop (fuel bottom : nat) (c : regex_parse_context) : c_result regex_parse_context :=
  match fuel with
  | O => NoFuel
  | S fuel =>
      if bool_decide (bottom < length (stack c) - 1)%nat then
        let! (r, c) := consume c in
        let! (l, c) := consume c in
        let! c := push (CONCATENATION l r) c in
        concat_loop fuel bottom c
      else Ok c
  end.

(** The node returned is the top of the stack. *)
Definition concatenate (bottom : nat) (c : regex_parse_context) : c_result regex_parse_context :=
  if bool_decide (length (stack c) = bottom) then push EPSILON c
  else concat_loop (length (stack c)) bottom c.

(** What follows the label CHARACTER in the loop of [parse_char_class]:
    [p] is the pointer after the character [ch]. *)
Definition class_char (p : nat) (ch : Z) : c_result nat :=
  let! c0 := peek pat p in
  if c0 =? chr "-" then
    let! c1 := peek pat (p + 1) in
    if c1 =? chr "]" then Ok p
    else if c1 <? ch then Null
    else Ok (p + 2)%nat
  else Ok p.

(** The loop: the index of the bracket that closes the class. *)
Fixpoint class_loop (fuel : nat) (from p : nat) : c_result nat :=
  match fuel with
  | O => NoFuel
  | S fuel =>
      let! ch := peek pat p in
      let p := S p in
      if ch =? 0 then Null
      else if (ch =? chr "]") && negb (bool_decide (p - 1 = from)%nat) then Ok (p - 1)%nat
      else if ch =? chr "\" then
        let! ch := peek pat p in
        let! p := class_char (S p) ch in
        class_loop fuel from p
      else
        let! p := class_char p ch in
        class_loop fuel from p
  end.

Definition parse_char_class (c : regex_parse_context) : c_result regex_parse_context :=
  let! c0 := peek pat (sp c) in
  let negated := c0 =? chr "^" in
  let from := if negated then S (sp c) else sp c in
  let! to := class_loop (S (length pat)) from from in
  push (if negated then CHARACTER_CLASS_NEGATED from to else CHARACTER_CLASS from to)
       (mkCtx (S to) (stack c) (nout c)).

(** [for (n = 0; isdigit( *sp); ++sp) n = n * 10 + *sp - '0']; an [int] that
    overflows is undefined. *)
Fixpoint number_loop (fuel : nat) (n : Z) (p : nat) : c_result (Z * nat) :=
  match fuel with
  | O => NoFuel
  | S fuel =>
      let! c := peek pat p in
      if is_digit c then
        let n := n * 10 + (c - chr "0") in
        if 2 ^ 31 <=? n then Bad IntegerOverflow else number_loop fuel n (S p)
      else Ok (n, p)
  end.

(** The bounds of an interval and the pointer to its closing brace; [Null] when
    the text is not an interval. *)
Definition interval_bounds (from : nat) : c_result (Z * Z * nat) :=
  let! (nmin, p) := number_loop (S (length pat)) 0 from in
  let! c := peek pat p in
  let! cfrom := peek pat from in
  if c =? chr "," then
    let p := S p in
    let! c1 := peek pat p in
    if negb (cfrom =? chr ",") && (c1 =? chr "}") then Ok (nmin, -1, p)
    else
      let! (nmax, p) := number_loop (S (length pat)) 0 p in
      let! before := peek pat (p - 1) in
      let! c2 := peek pat p in
      if (before =? chr ",") || negb (c2 =? chr "}") || (nmax <? nmin) then Null
      else Ok (nmin, nmax, p)
  else if negb (cfrom =? chr "}") && (c =? chr "}") then Ok (nmin, nmin, p)
  else Null.

(** [( *context->sp == '?') ? (++context->sp, 0) : 1] and the push of the
    quantifier, whose operand is taken from the stack. *)
Definition push_quantifier (nmin nmax : Z) (c : regex_parse_context) : c_result regex_parse_context :=
  let! c0 := peek pat (sp c) in
  let lazy := c0 =? chr "?" in
  let c := if lazy then move_sp 1 c else c in
  let! (q, c) := consume c in
  push (QUANTIFIER nmin nmax (negb lazy) q) c.

(** [Null] leaves the context of the caller as it was. *)
Definition parse_interval (c : regex_parse_context) : c_result regex_parse_context :=
  let! (nmin, nmax, p) := interval_bounds (sp c) in
  push_quantifier nmin nmax (mkCtx (S p) (stack c) (nout c)).

(** The end of the case ['|']: the left operand is at index [bottom] of the
    stack, the right one above it. *)
Definition alternate (c : regex_parse_context) : c_result regex_parse_context :=
  match stack c with
  | r :: l :: _ =>
      if bool_decide (l = EPSILON) && bool_decide (r = l) then drop_top c
      else if bool_decide (l = EPSILON) then
        let! (r, c) := consume c in
        let! c := drop_top c in
        push (QUANTIFIER 0 1 true r) c
      else if bool_decide (r = EPSILON) then
        let! c := drop_top c in
        let! (l, c) := consume c in
        push (QUANTIFIER 0 1 true l) c
      else
        let! (r, c) := consume c in
        let! (l, c) := consume c in
        push (ALTERNATION l r) c
  | _ => Bad OutOfBoundsRead
  end.

Fixpoint parse_loop (fuel bottom depth : nat) (c : regex_parse_context) : c_result regex_parse_context :=
  match fuel with
  | O => NoFuel
  | S fuel =>
      let empty := bool_decide (length (stack c) = bottom) in
      let! ch := peek pat (sp c) in
      let c := move_sp 1 c in
      let character ch c :=
        let! c := push (CHARACTER ch) c in parse_loop fuel bottom depth c in
      let node n :=
        let! c := push n c in parse_loop fuel bottom depth c in
      let quantifier nmin nmax :=
        if empty then character ch c
        else let! c := push_quantifier nmin nmax c in parse_loop fuel bottom depth c in
      if ch =? chr "\" then
        let! ch := peek pat (sp c) in character ch (move_sp 1 c)
      else if ch =? chr "." then node ANY_CHARACTER
      else if ch =? chr "[" then
        let! c := parse_char_class c in parse_loop fuel bottom depth c
      else if ch =? chr "|" then
        let! c := concatenate bottom c in
        let! c := parse_loop fuel (length (stack c)) depth c in
        alternate c
      else if ch =? chr "?" then quantifier 0 1
      else if ch =? chr "*" then quantifier 0 (-1)
      else if ch =? chr "+" then quantifier 1 (-1)
      else if ch =? chr "{" then
        if empty then character ch c
        else match parse_interval c with
             | Null => character ch c
             | res => let! c := res in parse_loop fuel bottom depth c
             end
      else if ch =? chr "^" then node ANCHOR_BEGIN
      else if ch =? chr "$" then node ANCHOR_END
      else if ch =? chr "(" then
        let! c := parse_loop fuel (length (stack c)) (S depth) c in
        let! (n, c) := consume c in
        let! c := push (CAPTURE n) c in
        parse_loop fuel bottom depth c
      else if ch =? chr ")" then
        if bool_decide (0 < depth)%nat then concatenate bottom c else Null
      else if ch =? 0 then
        if bool_decide (depth = 0)%nat then concatenate bottom c else Null
      else character ch c
  end.

(** One turn of the loop reads a character at least. *)
Definition parse_context (c : regex_parse_context) (depth : nat) : c_result regex_parse_context :=
  parse_loop (S (length pat)) (length (stack c)) depth c.

End Parser.

Definition estimate_nodes (pattern : list Z) : nat := length pattern * 2.

Definition parse_with_nodes (pattern : list Z) : c_result regex_parse_context :=
  parse_context (cstring pattern) (estimate_nodes pattern) (mkCtx 0 [] 0) 0.

(** The root is the first node of the block. [malloc_ok] is the success of the
    allocation. *)
Definition cregex_parse (malloc_ok : bool) (pattern : list Z) : c_result cregex_node :=
  if malloc_ok then
    let! c := parse_with_nodes pattern in
    match last (stack c) with Some root => Ok root | None => Bad OutOfBoundsRead end
  else Null.

Example parse_alternation :
  cregex_parse true (str "a|bc*") =
  Ok (ALTERNATION (CHARACTER 97) (CONCATENATION (CHARACTER 98) (QUANTIFIER 0 (-1) true (CHARACTER 99)))).
Proof. vm_compute. reflexivity. Qed.
