(* ===== verification/CregexCompile.v ===== *)
(** CregexCompile: the compiler of the regular expression engine,
    src/src/cregex_compile.c, and the character classes of src/src/cregex.h.

    Instructions are addressed by their index in the program; a pointer that
    was not set yet is [None]. The text of a character class is read again from
    the pattern, which the nodes point to. *)

From Stdlib Require Import Ascii.
From stdpp Require Import strings.
From S2P Require Import Prelude CregexParse.

Open Scope cregex_scope.

(** ** Character classes: a bitmap of 32 bytes *)

Abbreviation cregex_char_class := (list Z).

Definition empty_class : cregex_char_class := replicate 32 0.

(** A negative [ch] gives a negative index or a negative shift. *)
Definition cregex_char_class_contains (klass : cregex_char_class) (ch : Z) : c_result bool :=
  if ch <? 0 then Bad OutOfBoundsRead
  else match klass !! Z.to_nat (ch / 8) with
       | Some b => Ok (negb (Z.land b (Z.shiftl 1 (ch mod 8)) =? 0))
       | None => Bad OutOfBoundsRead
       end.

Definition cregex_char_class_add (klass : cregex_char_class) (ch : Z) : c_result cregex_char_class :=
  if ch <? 0 then Bad OutOfBoundsWrite
  else match klass !! Z.to_nat (ch / 8) with
       | Some b => Ok (<[Z.to_nat (ch / 8) := Z.lor b (Z.shiftl 1 (ch mod 8))]> klass)
       | None => Bad OutOfBoundsWrite
       end.

(** [for (; ch <= last; ++ch) cregex_char_class_add(klass, ch)], in [n] turns. *)
Fixpoint class_add_range (n : nat) (ch : Z) (klass : cregex_char_class) : c_result cregex_char_class :=
  match n with
  | O => Ok klass
  | S n => let! klass := cregex_char_class_add klass ch in class_add_range n (ch + 1) klass
  end.

(** ** Programs *)

Inductive cregex_program_instr :=
  | OPCODE_MATCH
  | OPCODE_CHARACTER (ch : Z)
  | OPCODE_ANY_CHARACTER
  | OPCODE_CHARACTER_CLASS (klass : cregex_char_class)
  | OPCODE_CHARACTER_CLASS_NEGATED (klass : cregex_char_class)
  | OPCODE_SPLIT (first second : option nat)
  | OPCODE_JUMP (target : option nat)
  | OPCODE_ASSERT_BEGIN
  | OPCODE_ASSERT_END
  | OPCODE_SAVE (save : nat).

#[export] Instance instr_eq_dec : EqDecision cregex_program_instr.
Proof. solve_decision. Defined.

(** ** Sizes, in [int] *)

Fixpoint count_instructions (node : cregex_node) : Z :=
  match node with
  | EPSILON => 0
  | CHARACTER _ | ANY_CHARACTER | CHARACTER_CLASS _ _ | CHARACTER_CLASS_NEGATED _ _ => 1
  | CONCATENATION l r => s32 (count_instructions l + count_instructions r)
  | ALTERNATION l r => s32 (s32 (2 + count_instructions l) + count_instructions r)
  | QUANTIFIER nmin nmax _ q =>
      let num := count_instructions q in
      if nmin <=? nmax
      then s32 (s32 (nmin * num) + s32 (s32 (nmax - nmin) * s32 (num + 1)))
      else s32 (1 + (if negb (nmin =? 0) then s32 (nmin * num) else s32 (num + 1)))
  | ANCHOR_BEGIN | ANCHOR_END => 1
  | CAPTURE n => s32 (2 + count_instructions n)
  end.

Fixpoint node_is_anchored (node : cregex_node) : bool :=
  match node with
  | CONCATENATION l _ => node_is_anchored l
  | ALTERNATION l r => node_is_anchored l && node_is_anchored r
  | QUANTIFIER _ _ _ q => node_is_anchored q
  | ANCHOR_BEGIN => true
  | CAPTURE n => node_is_anchored n
  | _ => false
  end.

Definition estimate_instructions (root : cregex_node) : Z :=
  s32 (count_instructions root + (if negb (node_is_anchored root) then 1 else 0) * 3 + 2 + 1).

(** ** The compiler *)

Record regex_compile_context := mkCompile {
  instrs : list cregex_program_instr;    (* the instructions before [pc] *)
  ncaptures : nat
}.

Definition pc (c : regex_compile_context) : nat := length (instrs c).

Definition set_ncaptures (n : nat) (c : regex_compile_context) : regex_compile_context :=
  mkCompile (instrs c) n.

Definition update (p : nat) (f : cregex_program_instr -> cregex_program_instr)
    (c : regex_compile_context) : regex_compile_context :=
  mkCompile (alter f p (instrs c)) (ncaptures c).

Definition set_first (t : nat) (i : cregex_program_instr) : cregex_program_instr :=
  match i with OPCODE_SPLIT _ s => OPCODE_SPLIT (Some t) s | i => i end.
Definition set_second (t : nat) (i : cregex_program_instr) : cregex_program_instr :=
  match i with OPCODE_SPLIT f _ => OPCODE_SPLIT f (Some t) | i => i end.
Definition swap_split (i : cregex_program_instr) : cregex_program_instr :=
  match i with OPCODE_SPLIT f s => OPCODE_SPLIT s f | i => i end.
Definition set_target (t : nat) (i : cregex_program_instr) : cregex_program_instr :=
  match i with OPCODE_JUMP _ => OPCODE_JUMP (Some t) | i => i end.

(** [if (!node->greedy)] exchange the targets of the split. *)
Definition order_split (greedy : bool) (split : nat) (c : regex_compile_context) : regex_compile_context :=
  if greedy then c else update split swap_split c.

Section Compiler.
Context (pat : list Z) (cap : Z).

(** The index of the emitted instruction is the second component. *)
Definition emit (i : cregex_program_instr) (c : regex_compile_context) :
    c_result (regex_compile_context * nat) :=
  if Z.of_nat (pc c) <? cap then Ok (mkCompile (instrs c ++ [i]) (ncaptures c), pc c) else Bad OutOfBoundsWrite.

(** What follows the label CHARACTER in the loop of [compile_char_class]. *)
Definition compile_class_char (p : nat) (ch : Z) (klass : cregex_char_class) :
    c_result (nat * cregex_char_class) :=
  let! c0 := peek pat p in
  let single := let! klass := cregex_char_class_add klass ch in Ok (p, klass) in
  if c0 =? chr "-" then
    let! c1 := peek pat (p + 1) in
    if c1 =? chr "]" then single
    else
      let! klass := class_add_range (Z.to_nat (c1 - ch + 1)) ch klass in
      Ok ((p + 2)%nat, klass)
  else single.

Fixpoint compile_class_loop (fuel from p : nat) (klass : cregex_char_class) :
    c_result cregex_char_class :=
  match fuel with
  | O => NoFuel
  | S fuel =>
      let! ch := peek pat p in
      let p := S p in
      if (ch =? chr "]") && negb (bool_decide (p - 1 = from)%nat) then Ok klass
      else if ch =? chr "\" then
        let! ch := peek pat p in
        let! (p, klass) := compile_class_char (S p) ch klass in
        compile_class_loop fuel from p klass
      else
        let! (p, klass) := compile_class_char p ch klass in
        compile_class_loop fuel from p klass
  end.

Definition compile_char_class (from : nat) : c_result cregex_char_class :=
  compile_class_loop (S (length pat)) from from empty_class.

(** The two loops of the case QUANTIFIER; [body] compiles the operand and
    [ncap] is the number of captures before it. *)
Section Loops.
Context (body : regex_compile_context -> c_result (regex_compile_context * nat)) (ncap : nat).

Fixpoint compile_mandatory (n : nat) (c : regex_compile_context) (last : option nat) :
    c_result (regex_compile_context * option nat) :=
  match n with
  | O => Ok (c, last)
  | S n =>
      let! (c, last) := body (set_ncaptures ncap c) in
      compile_mandatory n c (Some last)
  end.

Fixpoint compile_optional (n : nat) (greedy : bool) (c : regex_compile_context) :
    c_result regex_compile_context :=
  match n with
  | O => Ok c
  | S n =>
      let! (c, split) := emit (OPCODE_SPLIT None None) (set_ncaptures ncap c) in
      let! (c, first) := body c in
      let c := update split (set_first first) c in
      let c := update split (set_second (pc c)) c in
      compile_optional n greedy (order_split greedy split c)
  end.

(** The case [nmax == -1]. *)
Definition compile_unbounded (nmin : Z) (greedy : bool) (last : option nat) (c : regex_compile_context) :
    c_result regex_compile_context :=
  let! (c, split) := emit (OPCODE_SPLIT None None) c in
  let! c :=
    if nmin =? 0 then
      let! (c, first) := body c in
      let c := update split (set_first first) c in
      let! (c, jump) := emit (OPCODE_JUMP None) c in
      let c := update split (set_second (pc c)) c in
      Ok (update jump (set_target split) c)
    else
      match last with
      | Some last => Ok (update split (set_second (pc c)) (update split (set_first last) c))
      | None => Ok (update split (set_second (pc c)) c)
      end in
  Ok (order_split greedy split c).

End Loops.

Definition compile_instr (i : cregex_program_instr) (c : regex_compile_context) :
    c_result regex_compile_context :=
  let! (c, _) := emit i c in Ok c.

Fixpoint compile_node (node : cregex_node) (c : regex_compile_context) {struct node} :
    c_result regex_compile_context :=
  let body q c := let! c' := compile_node q c in Ok (c', pc c) in
  match node with
  | EPSILON => Ok c
  | CHARACTER ch => compile_instr (OPCODE_CHARACTER ch) c
  | ANY_CHARACTER => compile_instr OPCODE_ANY_CHARACTER c
  | CHARACTER_CLASS from _ =>
      let! (c, k) := emit (OPCODE_CHARACTER_CLASS empty_class) c in
      let! klass := compile_char_class from in
      Ok (update k (fun _ => OPCODE_CHARACTER_CLASS klass) c)
  | CHARACTER_CLASS_NEGATED from _ =>
      let! (c, k) := emit (OPCODE_CHARACTER_CLASS_NEGATED empty_class) c in
      let! klass := compile_char_class from in
      Ok (update k (fun _ => OPCODE_CHARACTER_CLASS_NEGATED klass) c)
  | CONCATENATION l r =>
      let! c := compile_node l c in
      compile_node r c
  | ALTERNATION l r =>
      let! (c, split) := emit (OPCODE_SPLIT None None) c in
      let! (c, first) := body l c in
      let c := update split (set_first first) c in
      let! (c, jump) := emit (OPCODE_JUMP None) c in
      let! (c, second) := body r c in
      let c := update split (set_second second) c in
      Ok (update jump (set_target (pc c)) c)
  | QUANTIFIER nmin nmax greedy q =>
      let ncap := ncaptures c in
      let! (c, last) := compile_mandatory (body q) ncap (Z.to_nat nmin) c None in
      if nmin <? nmax then
        compile_optional (body q) ncap (Z.to_nat (nmax - nmin)) greedy c
      else if nmax =? -1 then compile_unbounded (body q) nmin greedy last c
      else Ok c
  | ANCHOR_BEGIN => compile_instr OPCODE_ASSERT_BEGIN c
  | ANCHOR_END => compile_instr OPCODE_ASSERT_END c
  | CAPTURE n =>
      let capture := (ncaptures c * 2)%nat in
      let! (c, _) := emit (OPCODE_SAVE capture) (set_ncaptures (S (ncaptures c)) c) in
      let! c := compile_node n c in
      compile_instr (OPCODE_SAVE (capture + 1)) c
  end.

(** [compile_context] returns the index of the first instruction of the node. *)
Definition compile_context (c : regex_compile_context) (node : cregex_node) :
    c_result (regex_compile_context * nat) :=
  let! c' := compile_node node c in Ok (c', pc c).

(** The node that is compiled for a root: the whole match is captured, and
    [.*?] is added unless the pattern starts with [^]. *)
Definition program_node (root : cregex_node) : cregex_node :=
  let root := CAPTURE root in
  if node_is_anchored root then root
  else CONCATENATION (QUANTIFIER 0 (-1) false ANY_CHARACTER) root.

Definition compile_node_with_program (root : cregex_node) : c_result (list cregex_program_instr) :=
  let! (c, _) := compile_context (mkCompile [] 0) (program_node root) in
  let! (c, _) := emit OPCODE_MATCH c in
  Ok (instrs c).

End Compiler.

(** A negative estimate asks for a size that no allocation can serve. *)
Definition cregex_compile_node (malloc_ok : bool) (pattern : list Z) (root : cregex_node) :
    c_result (list cregex_program_instr) :=
  let size := estimate_instructions root in
  if malloc_ok && (0 <=? size) then compile_node_with_program (cstring pattern) size root else Null.

Definition compile_pattern (pattern : list Z) : c_result (list cregex_program_instr) :=
  let! root := cregex_parse true pattern in cregex_compile_node true pattern root.

Example compile_star :
  compile_pattern (str "ab*") =
  Ok [OPCODE_SPLIT (Some 3) (Some 1); OPCODE_ANY_CHARACTER; OPCODE_JUMP (Some 0);
      OPCODE_SAVE 0; OPCODE_CHARACTER 97;
      OPCODE_SPLIT (Some 6) (Some 8); OPCODE_CHARACTER 98; OPCODE_JUMP (Some 5);
      OPCODE_SAVE 1; OPCODE_MATCH]%nat.
Proof. vm_compute. reflexivity. Qed.
