(* ===== verification/CregexSpec.v ===== *)
(** CregexSpec: what the regular expression engine promises.

    The language of a node, as a relation between the two ends of a match in a
    string; the well-formedness of nodes; the patterns that the parser reads
    without leaving their text; and the reasoning rule for outcomes. *)

From Stdlib Require Import Ascii.
From stdpp Require Import strings.
From S2P Require Import Prelude CregexParse.

Open Scope cregex_scope.

(** ** A rule for outcomes: [P] of the result, [bad] of what is undefined *)

Definition post {A} (bad : undefined -> Prop) (P : A -> Prop) (m : c_result A) : Prop :=
  match m with Ok a => P a | Null => True | Bad e => bad e | NoFuel => False end.

Lemma post_bind {A B} bad (P : A -> Prop) (Q : B -> Prop) m f :
  post bad P m -> (forall a, P a -> post bad Q (f a)) -> post bad Q (obind m f).
Proof. destruct m; simpl; auto. Qed.

Lemma post_mono {A} (bad : undefined -> Prop) (P Q : A -> Prop) m :
  post bad P m -> (forall a, P a -> Q a) -> post bad Q m.
Proof. destruct m; simpl; auto. Qed.

Lemma obind_Ok {A B} (m : c_result A) (f : A -> c_result B) b :
  obind m f = Ok b <-> exists a, m = Ok a /\ f a = Ok b.
Proof. destruct m; simpl; split; [by eauto|by intros (?&[= ->]&?)|..]; try done; by intros (?&?&?). Qed.

(** ** The characters of a class

    The text of a class, read from [p]: the ranges of characters it holds. A
    bracket in first position and an escaped character stand for themselves. *)

Section Class.
Context (pat : list Z).

Definition char_at (p : nat) : Z := default 0 (pat !! p).

Lemma char_at_Some p ch : pat !! p = Some ch -> char_at p = ch.
Proof. unfold char_at. by intros ->. Qed.

Definition class_range (q : nat) (ch : Z) : Z * Z * nat :=
  if bool_decide (pat !! q = Some (chr "-") /\ pat !! S q ≠ Some (chr "]"))
  then (ch, char_at (S q), S (S q)) else (ch, ch, q).

Fixpoint class_ranges (fuel from p : nat) : option (list (Z * Z)) :=
  match fuel with
  | O => None
  | S fuel =>
      if bool_decide (pat !! p = Some (chr "]") /\ p ≠ from) then Some []
      else
        let escaped := bool_decide (pat !! p = Some (chr "\")) in
        let q := if escaped then S p else p in
        let '(lo, hi, q) := class_range (S q) (char_at q) in
        rs ← class_ranges fuel from q; Some ((lo, hi) :: rs)
  end.

Definition ranges_of (from : nat) : option (list (Z * Z)) := class_ranges (S (length pat)) from from.

Definition in_ranges (rs : list (Z * Z)) (c : Z) : bool :=
  existsb (fun r => (r.1 <=? c) && (c <=? r.2)) rs.

Definition class_mem (from : nat) (c : Z) : Prop :=
  exists rs, ranges_of from = Some rs /\ in_ranges rs c = true.

(** ** Well-formed nodes *)

Definition class_wf (from : nat) : Prop :=
  exists rs, ranges_of from = Some rs /\ Forall (fun r => 0 < r.1 <= r.2 /\ r.2 < 128) rs.

Fixpoint node_wf (n : cregex_node) : Prop :=
  match n with
  | EPSILON | ANY_CHARACTER | ANCHOR_BEGIN | ANCHOR_END => True
  | CHARACTER ch => 0 < ch < 128
  | CHARACTER_CLASS from _ | CHARACTER_CLASS_NEGATED from _ => class_wf from
  | CONCATENATION l r | ALTERNATION l r => node_wf l /\ node_wf r
  | QUANTIFIER nmin nmax _ q => 0 <= nmin /\ (nmax = -1 \/ nmin <= nmax) /\ node_wf q
  | CAPTURE n => node_wf n
  end.

(** ** The language of a node, in the string [s]

    [rmatch n i j]: the characters [i .. j - 1] of [s] match [n]. *)

Context (s : list Z).

Fixpoint rmatch (n : cregex_node) (i j : nat) : Prop :=
  match n with
  | EPSILON => i = j
  | CHARACTER ch => s !! i = Some ch /\ j = S i
  | ANY_CHARACTER => (i < length s)%nat /\ j = S i
  | CHARACTER_CLASS from _ => (exists c, s !! i = Some c /\ class_mem from c) /\ j = S i
  | CHARACTER_CLASS_NEGATED from _ => (exists c, s !! i = Some c /\ ~ class_mem from c) /\ j = S i
  | CONCATENATION l r => exists k, rmatch l i k /\ rmatch r k j
  | ALTERNATION l r => rmatch l i j \/ rmatch r i j
  | QUANTIFIER nmin nmax _ q =>
      exists k, nmin <= Z.of_nat k /\ (nmax = -1 \/ Z.of_nat k <= nmax) /\ nsteps (rmatch q) k i j
  | ANCHOR_BEGIN => i = 0%nat /\ j = i
  | ANCHOR_END => i = length s /\ j = i
  | CAPTURE n => rmatch n i j
  end.

End Class.

(** ** Patterns that the parser reads without leaving their text: ASCII, no
    escape at the end, and no number that an [int] may not hold *)

Definition ascii (s : list Z) : Prop := Forall (fun c => 0 < c < 128) s.

Definition short_numbers (s : list Z) : Prop :=
  forall i, (i + 10 <= length s)%nat -> existsb (fun c => negb (is_digit c)) (slice i 10 s) = true.

Definition safe_pattern (s : list Z) : Prop :=
  ascii s /\ last s ≠ Some (chr "\") /\ short_numbers s.

#[export] Instance is_char_dec c : Decision (is_char c).
Proof. unfold is_char. apply _. Defined.

#[export] Instance short_numbers_dec s : Decision (short_numbers s).
Proof.
  refine (cast_if (decide (Forall (fun i => existsb (fun c => negb (is_digit c)) (slice i 10 s) = true)
                             (seq 0 (length s - 9))))).
  - intros i Hi. rewrite Forall_forall in f. apply f, elem_of_seq. lia.
  - intros H. apply n, Forall_forall. intros i Hi%elem_of_seq. apply H. lia.
Defined.

#[export] Instance safe_pattern_dec s : Decision (safe_pattern s).
Proof. unfold safe_pattern, ascii. apply _. Defined.
