(* ===== verification/CregexVm.v ===== *)
(** CregexVm: the virtual machine of the regular expression engine,
    src/src/cregex_vm.c.

    A list of threads is the array of [ninstructions] threads of one of the two
    halves of the block that [vm_run] allocates. The string is a block of
    memory that holds the characters, the terminator and whatever follows. *)

From stdpp Require Import strings.
From S2P Require Import Prelude CregexParse CregexCompile.

Open Scope cregex_scope.

Definition REGEX_VM_MAX_MATCHES : nat := 64.

(** A saved pointer into the string, or NULL. *)
Abbreviation saved := (option nat).

Record vm_thread := mkThread {
  visited : nat;
  thread_pc : nat;
  matches : list saved              (* REGEX_VM_MAX_MATCHES pointers *)
}.

Record vm_thread_list := mkThreads { nthreads : nat; threads : list vm_thread }.

(** [memset(threads, 0, ...)] *)
Definition zero_thread : vm_thread := mkThread 0 0 (replicate REGEX_VM_MAX_MATCHES None).

(** [memcpy(dst, src, sizeof(matches[0]) * n)] with [n] the smaller of
    [nmatches] and REGEX_VM_MAX_MATCHES. *)
Definition copy_matches (nmatches : nat) (src dst : list saved) : list saved :=
  let n := Nat.min nmatches REGEX_VM_MAX_MATCHES in take n src ++ drop n dst.

Section Machine.
Context (program : list cregex_program_instr) (string : list Z) (nmatches : nat).

Definition mark (p sp : nat) (l : vm_thread_list) : vm_thread_list :=
  mkThreads (nthreads l)
    (alter (fun t => mkThread (S sp) (thread_pc t) (matches t)) p (threads l)).

Definition append_thread (p : nat) (ms : list saved) (l : vm_thread_list) : c_result vm_thread_list :=
  if bool_decide (nthreads l < length (threads l))%nat
  then Ok (mkThreads (S (nthreads l))
             (alter (fun t => mkThread (visited t) p (copy_matches nmatches ms (matches t)))
                (nthreads l) (threads l)))
  else Bad OutOfBoundsWrite.

(** The saved pointer is put back after the call, so that the array of the
    caller is unchanged. *)
Fixpoint vm_add_thread (fuel : nat) (l : vm_thread_list) (p sp : nat) (ms : list saved) :
    c_result vm_thread_list :=
  match fuel with
  | O => NoFuel
  | S fuel =>
      match threads l !! p, program !! p with
      | Some t, Some i =>
          if bool_decide (visited t = S sp) then Ok l
          else
            let l := mark p sp l in
            match i with
            | OPCODE_MATCH | OPCODE_CHARACTER _ | OPCODE_ANY_CHARACTER
            | OPCODE_CHARACTER_CLASS _ | OPCODE_CHARACTER_CLASS_NEGATED _ =>
                append_thread p ms l
            | OPCODE_SPLIT (Some first) (Some second) =>
                let! l := vm_add_thread fuel l first sp ms in
                vm_add_thread fuel l second sp ms
            | OPCODE_JUMP (Some target) => vm_add_thread fuel l target sp ms
            | OPCODE_SPLIT _ _ | OPCODE_JUMP None => Bad OutOfBoundsRead
            | OPCODE_ASSERT_BEGIN =>
                if bool_decide (sp = 0)%nat then vm_add_thread fuel l (p + 1) sp ms else Ok l
            | OPCODE_ASSERT_END =>
                let! c := peek string sp in
                if c =? 0 then vm_add_thread fuel l (p + 1) sp ms else Ok l
            | OPCODE_SAVE save =>
                if bool_decide (save < nmatches)%nat && bool_decide (save < REGEX_VM_MAX_MATCHES)%nat
                then vm_add_thread fuel l (p + 1) sp (<[save := Some sp]> ms)
                else vm_add_thread fuel l (p + 1) sp ms
            end
      | _, _ => Bad OutOfBoundsWrite
      end
  end.

(** A call marks an instruction or returns at once. *)
Definition add_fuel : nat := S (length program).

Definition vm_estimate_threads : nat := length program * 2.

(** Does a thread at the instruction [i] go on after the character [c]? *)
Definition accepts (i : cregex_program_instr) (c : Z) : c_result bool :=
  match i with
  | OPCODE_CHARACTER ch => Ok (c =? ch)
  | OPCODE_ANY_CHARACTER => Ok (negb (c =? 0))
  | OPCODE_CHARACTER_CLASS klass => cregex_char_class_contains klass c
  | OPCODE_CHARACTER_CLASS_NEGATED klass =>
      let! b := cregex_char_class_contains klass c in Ok (negb b)
  | _ => Bad Aborted                                            (* abort() *)
  end.

Record vm_state := mkVm { matched : bool; result : list saved; next : vm_thread_list }.

(** The loop over the current threads, from thread [i] on: a thread that
    matches sets [current->nthreads] to 0 and so ends it. *)
Fixpoint run_threads (n i sp : nat) (current : list vm_thread) (s : vm_state) : c_result vm_state :=
  match n with
  | O => Ok s
  | S n =>
      match current !! i with
      | None => Bad OutOfBoundsRead
      | Some t =>
          match program !! thread_pc t with
          | None => Bad OutOfBoundsRead
          | Some OPCODE_MATCH =>
              Ok (mkVm true (copy_matches nmatches (matches t) (result s)) (next s))
          | Some op =>
              let! c := peek string sp in
              let! b := accepts op c in
              if b then
                let! l := vm_add_thread add_fuel (next s) (thread_pc t + 1) (S sp) (matches t) in
                run_threads n (S i) sp current (mkVm (matched s) (result s) l)
              else run_threads n (S i) sp current s
          end
      end
  end.

(** The loop over the characters of the string. *)
Fixpoint run_string (fuel sp : nat) (current : vm_thread_list) (s : vm_state) : c_result vm_state :=
  match fuel with
  | O => NoFuel
  | S fuel =>
      let! s := run_threads (nthreads current) 0 sp (threads current) s in
      let current' := next s in
      let s := mkVm (matched s) (result s) (mkThreads 0 (threads current)) in
      let! c := peek string sp in
      if bool_decide (nthreads current' = 0)%nat || (c =? 0) then Ok s
      else run_string fuel (S sp) current' s
  end.

Definition vm_run_with_threads : c_result (bool * list saved) :=
  let ms := replicate nmatches None in
  let zero := mkThreads 0 (replicate (length program) zero_thread) in
  let! current := vm_add_thread add_fuel zero 0 0 ms in
  let! s := run_string (length string) 0 current (mkVm false ms zero) in
  Ok (matched s, result s).

(** [Null] is the return value -1. *)
Definition vm_run (malloc_ok : bool) : c_result (bool * list saved) :=
  if malloc_ok then vm_run_with_threads else Null.

Definition cregex_program_run (malloc_ok : bool) : c_result (bool * list saved) :=
  vm_run malloc_ok.

End Machine.

(** Parse, compile and run, as the callers of the engine do. *)
Definition cregex_search (pattern string : list Z) (nmatches : nat) : c_result (bool * list saved) :=
  let! program := compile_pattern pattern in
  cregex_program_run program string nmatches true.

Example search_percent :
  cregex_search (str ".*" ++ [13] ++ str "([0-9\.]+)% complete.*")
    (cstring (str "abc" ++ [13] ++ str "12.5% complete.")) 4 =
  Ok (true, [Some 0; Some 19; Some 4; Some 8]%nat).
Proof. vm_compute. reflexivity. Qed.

Example search_fails : cregex_search (str "a[b-d]$") (cstring (str "xabe")) 2 = Ok (false, [None; None]).
Proof. vm_compute. reflexivity. Qed.
