(* ===== verification/CregexParseCorrect.v ===== *)
(** CregexParseCorrect: the parser stays in its block of nodes, ends, and gives
    well-formed nodes; what it does out of its domain; and it reads back what
    a printer writes. *)

From Stdlib Require Import Ascii.
From stdpp Require Import strings.
From S2P Require Import Prelude CregexParse CregexSpec.

Open Scope cregex_scope.

(** Characters as numbers. *)
Ltac chars :=
  repeat match goal with
  | |- context [chr ?a] => let v := eval vm_compute in (chr a) in change (chr a) with v
  | H : context [chr ?a] |- _ => let v := eval vm_compute in (chr a) in change (chr a) with v in H
  end.

(** *** The stack *)

Section Stack.
Context (cap : nat).
Implicit Types (c : regex_parse_context).

Definition used c : nat := length (stack c) + nout c.

Lemma push_eq n c :
  (used c < cap)%nat -> push cap n c = Ok (mkCtx (sp c) (n :: stack c) (nout c)).
Proof. intros H. unfold push. by rewrite bool_decide_true by done. Qed.

(** The nodes [items] above the bottom of a level, top first, joined. *)
Definition join_nodes (items : list cregex_node) : cregex_node :=
  match items with
  | [] => EPSILON
  | top :: items => foldl (fun r l => CONCATENATION l r) top items
  end.

Lemma concat_loop_eq fuel c top items base :
  stack c = top :: items ++ base -> (length items < fuel)%nat ->
  (used c + length items <= cap)%nat ->
  concat_loop cap fuel (length base) c =
    Ok (mkCtx (sp c) (foldl (fun r l => CONCATENATION l r) top items :: base)
          (nout c + 2 * length items)).
Proof.
  revert fuel c top. induction items as [|l items IH]; intros fuel c top Hst Hf Hcap';
    (destruct fuel as [|fuel]; [simpl in Hf; lia|]); cbn [concat_loop]; rewrite Hst.
  - rewrite bool_decide_false by (simpl; lia). destruct c; simpl in *. by rewrite Hst, Nat.add_0_r.
  - rewrite bool_decide_true by (cbn; rewrite length_app; lia).
    unfold consume. rewrite Hst. cbn -[Nat.mul].
    unfold used in Hcap'. rewrite Hst in Hcap'. cbn in Hcap'. rewrite length_app in Hcap'.
    rewrite push_eq by (unfold used; cbn; rewrite length_app; lia). cbn -[Nat.mul].
    rewrite IH with (top := CONCATENATION l top).
    + cbn -[Nat.mul]. do 2 f_equal. lia.
    + done.
    + cbn in Hf. lia.
    + unfold used. cbn. rewrite length_app. lia.
Qed.

Lemma concatenate_eq c items base :
  stack c = items ++ base -> (used c + (length items - 1) <= cap)%nat -> (used c < cap)%nat ->
  concatenate cap (length base) c =
    Ok (mkCtx (sp c) (join_nodes items :: base) (nout c + 2 * (length items - 1))).
Proof.
  intros Hst Hc Hc'. unfold concatenate. destruct items as [|top items]; simpl in Hst.
  - rewrite Hst, bool_decide_true by done. rewrite push_eq by done. by rewrite Hst, Nat.add_0_r.
  - rewrite bool_decide_false by (rewrite Hst; simpl; rewrite length_app; lia).
    rewrite (concat_loop_eq _ _ top items base); simpl in *; [|done| |lia].
    + by rewrite !Nat.sub_0_r, !Nat.add_0_r.
    + rewrite Hst. simpl. rewrite length_app. lia.
Qed.

End Stack.

Section Parser.
Context (pattern : list Z) (Hchars : Forall is_char pattern).
#[local] Abbreviation len := (length pattern).
#[local] Abbreviation pat := (cstring pattern).
Context (cap : nat) (Hcap : (len * 2 <= cap)%nat).

Implicit Types (c : regex_parse_context) (p : nat).

Definition bad (e : undefined) : Prop := e ≠ OutOfBoundsWrite /\ ~ safe_pattern pattern.

(** A pointer in the pattern: past the terminator only when the pattern is not
    a safe one. *)
Definition ptr (p : nat) : Prop := (p <= S len)%nat /\ (safe_pattern pattern -> p <= len)%nat.

Lemma pat_lookup p : (p < len)%nat -> exists ch, pat !! p = Some ch /\ is_char ch /\ pattern !! p = Some ch.
Proof.
  intros Hp. destruct (lookup_lt_is_Some_2 pattern p Hp) as [ch Hch]. exists ch. split_and!; [|by apply (Forall_lookup_1 _ _ _ _ Hchars Hch)|done].
  unfold cstring. by rewrite lookup_app_l by done.
Qed.

Lemma pat_end : pat !! len = Some 0.
Proof. unfold cstring. by rewrite lookup_app_r, Nat.sub_diag by lia. Qed.

Lemma peek_spec p :
  (safe_pattern pattern -> p <= len)%nat ->
  post bad (fun ch => (p <= len)%nat /\ pat !! p = Some ch /\ (ch = 0 <-> p = len)) (peek pat p).
Proof.
  intros Hp. unfold peek. destruct (decide (p < len)%nat) as [Hlt|Hge].
  - destruct (pat_lookup p Hlt) as (ch & -> & [_ Hch] & _). simpl. repeat split; [lia|done|lia].
  - destruct (decide (p = len)) as [->|Hne].
    + rewrite pat_end. simpl. repeat split; lia.
    + rewrite lookup_ge_None_2 by (unfold cstring; rewrite length_app; simpl; lia).
      simpl. split; [done|]. intros Hs. specialize (Hp Hs). lia.
Qed.

Lemma peek_ptr p :
  ptr p -> post bad (fun ch => (p <= len)%nat /\ pat !! p = Some ch /\ (ch = 0 <-> p = len)) (peek pat p).
Proof. intros [_ Hp]. by apply peek_spec. Qed.

Lemma safe_char p ch :
  safe_pattern pattern -> pat !! p = Some ch -> (p < len)%nat -> 0 < ch < 128.
Proof.
  intros (Ha & _) Hch Hp. destruct (pat_lookup p Hp) as (ch' & Hc & _ & Hl). simplify_eq.
  by apply (Forall_lookup_1 _ _ _ _ Ha Hl).
Qed.

(** The character after a backslash is not the terminator. *)
Lemma safe_escape p :
  safe_pattern pattern -> pat !! p = Some (chr "\") -> (S p < len)%nat.
Proof.
  intros (_ & Hl & _) Hp. destruct (decide (S p < len)%nat) as [|Hge]; [done|]. exfalso.
  destruct (decide (p < len)%nat) as [Hlt|].
  - apply Hl. rewrite last_lookup. replace (Nat.pred len) with p by lia.
    destruct (pat_lookup p Hlt) as (ch & Hc & _ & ->). congruence.
  - unfold cstring in Hp. destruct (decide (p = len)) as [->|].
    + rewrite lookup_app_r, Nat.sub_diag in Hp by lia. by apply (inj Some) in Hp.
    + rewrite lookup_ge_None_2 in Hp by (rewrite length_app; simpl; lia). done.
Qed.

Lemma class_char_spec p ch :
  ptr p -> (safe_pattern pattern -> 0 < ch < 128) ->
  post bad (fun p' => ptr p' /\ (p <= p')%nat /\ exists hi,
      class_range pat p ch = (ch, hi, p') /\ (safe_pattern pattern -> 0 < ch <= hi /\ hi < 128))
    (class_char pat p ch).
Proof.
  intros Hp Hch. unfold class_char.
  eapply post_bind; [by apply peek_ptr|]. intros c0 (Hle & Hc0 & Hend).
  unfold class_range. destruct (Z.eqb_spec c0 (chr "-")) as [->|Hne].
  - eapply post_bind; [apply peek_spec; chars; lia|].
    intros c1 (Hle1 & Hc1 & Hend1). replace (p + 1)%nat with (S p) in * by lia.
    destruct (Z.eqb_spec c1 (chr "]")) as [->|Hne1].
    + rewrite bool_decide_false by tauto. simpl. split_and!; [done|lia|]. exists ch. naive_solver lia.
    + destruct (Z.ltb_spec c1 ch); [done|].
      rewrite bool_decide_true by (rewrite Hc1; naive_solver). simpl.
      assert (safe_pattern pattern -> S p < len)%nat as Hs.
      { intros Hs. specialize (Hch Hs). lia. }
      split_and!; [unfold ptr; split; [lia|intros Hs'; specialize (Hs Hs'); lia]|lia|].
      exists c1. split; [|intros Hs'; pose proof (safe_char _ _ Hs' Hc1 (Hs Hs')); specialize (Hch Hs'); lia].
      rewrite (char_at_Some pat _ _ Hc1). repeat f_equal; lia.
  - rewrite bool_decide_false by (rewrite Hc0; naive_solver). simpl.
    split_and!; [done|lia|]. exists ch. naive_solver lia.
Qed.

Lemma class_loop_spec fuel from p :
  ptr p -> (len + 2 <= fuel + p)%nat ->
  post bad (fun to => (p <= to < len)%nat /\ exists rs, class_ranges pat fuel from p = Some rs /\
      (safe_pattern pattern -> Forall (fun r => 0 < r.1 <= r.2 /\ r.2 < 128) rs))
    (class_loop pat fuel from p).
Proof.
  revert p. induction fuel as [|fuel IH]; intros p Hp Hf; [destruct Hp; simpl; lia|]. simpl.
  eapply post_bind; [by apply peek_ptr|]. intros ch (Hle & Hch & Hend).
  destruct (Z.eqb_spec ch 0) as [|Hch0]; [done|]. assert (p < len)%nat by lia.
  replace (p - 0)%nat with p by lia.
  assert (Hnext : forall q lo, (p <= q <= len)%nat -> pat !! q = Some lo ->
    (safe_pattern pattern -> q < len)%nat ->
    post bad (fun to => (p <= to < len)%nat /\ exists rs,
      (let '(lo, hi, q) := class_range pat (S q) (char_at pat q) in
       rs ← class_ranges pat fuel from q; Some ((lo, hi) :: rs)) = Some rs /\
      (safe_pattern pattern -> Forall (fun r => 0 < r.1 <= r.2 /\ r.2 < 128) rs))
      (let! p' := class_char pat (S q) lo in class_loop pat fuel from p')).
  { intros q lo Hq Hlo Hsq. rewrite (char_at_Some pat _ _ Hlo).
    eapply post_bind.
    - apply class_char_spec; [split; [lia|]|].
      + intros Hs. specialize (Hsq Hs). lia.
      + intros Hs. apply (safe_char q); auto.
    - intros p' (Hp' & Hle' & hi & -> & Hr). eapply post_mono; [apply IH; [done|lia]|].
      intros to (Hto & rs & -> & Hrs). split; [lia|]. exists ((lo, hi) :: rs).
      split; [done|]. intros Hs. constructor; [simpl; specialize (Hr Hs); lia|auto]. }
  destruct (Z.eqb_spec ch (chr "]")) as [->|Hb]; simpl.
  - destruct (decide (p = from)) as [->|Hne].
    + rewrite (bool_decide_true (from = from)) by done. simpl.
      rewrite bool_decide_false by tauto. rewrite bool_decide_false by (rewrite Hch; naive_solver).
      apply Hnext; [lia|done|lia].
    + rewrite (bool_decide_false (p = from)) by done. simpl. rewrite bool_decide_true by done.
      split; [lia|]. exists []. naive_solver.
  - rewrite bool_decide_false by (rewrite Hch; naive_solver).
    destruct (Z.eqb_spec ch (chr "\")) as [->|Hs].
    + rewrite bool_decide_true by done.
      eapply post_bind; [apply peek_spec; lia|]. intros ch2 (Hle2 & Hch2 & Hend2).
      eapply post_mono; [apply Hnext; [lia|done|by intros Hs; apply safe_escape]|].
      intros to (? & ?). split; [lia|done].
    + rewrite bool_decide_false by (rewrite Hch; naive_solver). apply Hnext; [lia|done|lia].
Qed.

Lemma number_loop_spec fuel n start p :
  (start <= p <= len)%nat -> (len + 1 <= fuel + p)%nat ->
  0 <= n < 10 ^ (Z.of_nat p - Z.of_nat start) ->
  (forall k (ch : Z), (start <= k < p)%nat -> pat !! k = Some ch -> is_digit ch = true) ->
  post bad (fun np => (p <= np.2 <= len)%nat /\ 0 <= np.1) (number_loop pat fuel n p).
Proof.
  revert n p. induction fuel as [|fuel IH]; intros n p Hp Hf Hn Hd; [lia|]. simpl.
  eapply post_bind; [apply peek_spec; lia|]. intros ch (Hle & Hch & Hend).
  destruct (is_digit ch) eqn:Hdig; [|simpl; lia].
  assert (48 <= ch <= 57) as Hr.
  { unfold is_digit in Hdig. chars. lia. }
  assert (p < len)%nat by lia.
  assert (Hpow : 10 ^ (Z.of_nat (S p) - Z.of_nat start) = 10 * 10 ^ (Z.of_nat p - Z.of_nat start)).
  { rewrite <- Z.pow_succ_r by lia. f_equal. lia. }
  assert (Hd' : forall k (c' : Z), (start <= k < S p)%nat -> pat !! k = Some c' -> is_digit c' = true).
  { intros k c' Hk Hc'. destruct (decide (k = p)) as [->|]; [congruence|]. apply (Hd k); [lia|done]. }
  chars. destruct (Z.leb_spec (2 ^ 31) (n * 10 + (ch - 48))) as [Hov|Hok].
  - simpl. split; [done|]. intros (_ & _ & Hshort).
    assert (10 <= S p - start)%nat as Hten.
    { destruct (decide (10 <= S p - start)%nat) as [|Hlt]; [done|]. exfalso.
      assert (10 ^ (Z.of_nat (S p) - Z.of_nat start) <= 10 ^ 9) by (apply Z.pow_le_mono_r; lia).
      lia. }
    specialize (Hshort start ltac:(lia)). apply existsb_exists in Hshort as (c' & Hin & Hnd).
    apply list_elem_of_In, list_elem_of_lookup in Hin as [k Hk]. unfold slice in Hk.
    apply lookup_take_Some in Hk as [Hk Hlt]. rewrite lookup_drop in Hk.
    rewrite (Hd' (start + k)%nat c') in Hnd; [done|lia|].
    unfold cstring. rewrite lookup_app_l; [done|]. by eapply lookup_lt_Some.
  - eapply post_mono; [apply IH; [lia|lia| |done]|simpl; lia]. rewrite Hpow. lia.
Qed.

Lemma number_spec p :
  (p <= len)%nat ->
  post bad (fun np => (p <= np.2 <= len)%nat /\ 0 <= np.1) (number_loop pat (S (length pat)) 0 p).
Proof.
  intros Hp. apply (number_loop_spec _ _ p); [lia| | |lia].
  - unfold cstring. rewrite length_app. simpl. lia.
  - rewrite Z.sub_diag. lia.
Qed.

Lemma interval_bounds_spec p :
  (p <= len)%nat ->
  post bad (fun '(nmin, nmax, q) => (p <= q < len)%nat /\ 0 <= nmin /\ (nmax = -1 \/ nmin <= nmax))
    (interval_bounds pat p).
Proof.
  intros Hp. unfold interval_bounds.
  eapply post_bind; [by apply number_spec|]. intros [nmin q] (Hq & Hn). simpl in Hq, Hn.
  eapply post_bind; [apply peek_spec; lia|]. intros ch (_ & Hch & Hend).
  eapply post_bind; [apply peek_spec; lia|]. intros cf (_ & Hcf & Hendf).
  destruct (Z.eqb_spec ch (chr ",")) as [->|Hne].
  - chars. eapply post_bind; [apply peek_spec; lia|]. intros c1 (Hle1 & Hc1 & Hend1).
    destruct (negb (cf =? 44) && (c1 =? 125)) eqn:Hopen; [simpl; lia|].
    eapply post_bind; [apply number_spec; lia|]. intros [nmax r] (Hr & Hm). simpl in Hr, Hm.
    eapply post_bind; [apply peek_spec; lia|]. intros before _.
    eapply post_bind; [apply peek_spec; lia|]. intros c2 (Hle2 & Hc2 & Hend2).
    destruct ((before =? 44) || negb (c2 =? 125) || (nmax <? nmin)) eqn:Hbad; [done|]. simpl. lia.
  - chars. destruct (negb (cf =? 125) && (ch =? 125)) eqn:Hone; [simpl; lia|done].
Qed.

Lemma join_nodes_wf items :
  Forall (node_wf pat) items -> node_wf pat (join_nodes items).
Proof.
  destruct items as [|top items]; [done|]. intros [Ht Hi]%Forall_cons. simpl. revert top Ht.
  induction items as [|l items IH]; intros top Ht; [done|]. inversion Hi; subst.
  simpl. by apply IH.
Qed.

Lemma push_quantifier_spec nmin nmax c q st :
  stack c = q :: st -> ptr (sp c) -> (used c < cap)%nat ->
  post bad (fun c' => exists greedy, stack c' = QUANTIFIER nmin nmax greedy q :: st /\
      nout c' = S (nout c) /\ (sp c <= sp c' <= len)%nat)
    (push_quantifier pat cap nmin nmax c).
Proof.
  intros Hst Hp Hu. unfold push_quantifier.
  eapply post_bind; [by apply peek_ptr|]. intros ch (Hle & Hch & Hend).
  destruct (Z.eqb_spec ch (chr "?")); unfold consume; simpl; rewrite Hst; simpl;
    (rewrite push_eq by (unfold used in *; rewrite Hst in Hu; simpl in *; lia)); simpl;
    eexists; repeat split; try lia. chars. lia.
Qed.

Lemma alternate_spec c r l base :
  stack c = r :: l :: base -> (used c <= cap)%nat ->
  (l ≠ EPSILON -> r ≠ EPSILON -> used c < cap)%nat ->
  exists n c', alternate cap c = Ok c' /\ stack c' = n :: base /\ sp c' = sp c /\
    (node_wf pat l -> node_wf pat r -> node_wf pat n) /\
    (used c' <= used c + (if bool_decide (l ≠ EPSILON /\ r ≠ EPSILON) then 1 else 0))%nat.
Proof.
  intros Hst Hu Hu'. unfold alternate, consume, drop_top. rewrite Hst.
  unfold used in *. rewrite Hst in *. simpl in Hu, Hu'.
  destruct (decide (l = EPSILON)) as [->|Hl].
  - rewrite (bool_decide_true (EPSILON = EPSILON)) by done. simpl. case_bool_decide as Hr; simpl.
    + subst. eexists EPSILON, _. split_and!; [done..|]. simpl. repeat case_bool_decide; lia.
    + rewrite push_eq by (unfold used; simpl; lia).
      eexists _, _. split_and!; [done..|simpl; intuition lia|]. simpl. repeat case_bool_decide; lia.
  - rewrite (bool_decide_false (l = EPSILON)) by done. simpl. case_bool_decide as Hr; simpl.
    + subst. rewrite push_eq by (unfold used; simpl; lia).
      eexists _, _. split_and!; [done..|simpl; intuition lia|]. simpl. repeat case_bool_decide; lia.
    + rewrite push_eq by (unfold used; simpl; specialize (Hu' Hl Hr); lia).
      eexists _, _. split_and!; [done..|simpl; done|]. simpl. rewrite bool_decide_true by done. lia.
Qed.

(** *** The loop

    A level of the parser begins at [sp0] with [u0] nodes in use, above [base].
    Every character read gives room for two nodes; a node on the stack of the
    level keeps one of them for the concatenation. *)
Record level (sp0 u0 : nat) (items base : list cregex_node) c : Prop := {
  level_stack : stack c = items ++ base;
  level_used : (used c + length items + 2 * sp0 <= u0 + 2 * sp c)%nat;
  level_ptr : ptr (sp c);
  level_sp : (sp0 <= sp c)%nat;
  level_items : items ≠ [] -> (sp0 < sp c)%nat;
  level_empty : items = [] -> sp c = sp0 /\ used c = u0;
  level_entry : (u0 < 2 * sp0 \/ u0 = 0 /\ sp0 = 0)%nat;
  level_wf : safe_pattern pattern -> Forall (node_wf pat) items
}.

(** The end of a level that read up to [sp c' - 1]. *)
Definition level_end (sp0 u0 depth : nat) (base : list cregex_node) c' : Prop :=
  exists n, stack c' = n :: base /\ (safe_pattern pattern -> node_wf pat n) /\
    (sp0 < sp c' <= S len)%nat /\ (0 < depth -> sp c' <= len)%nat /\
    (used c' + 2 * sp0 + 2 <= u0 + 2 * sp c' + (if bool_decide (sp c' = S sp0) then 1 else 0))%nat /\
    (sp c' = S sp0 -> n = EPSILON).

Context (Hlen : (0 < len)%nat).

Lemma level_push sp0 u0 items base c c1 n :
  level sp0 u0 items base c -> (sp c < len)%nat -> (sp c < sp c1)%nat -> ptr (sp c1) ->
  stack c1 = stack c -> nout c1 = nout c -> (safe_pattern pattern -> node_wf pat n) ->
  exists c2, push cap n c1 = Ok c2 /\ level sp0 u0 (n :: items) base c2 /\ sp c2 = sp c1.
Proof.
  intros [Hst Hu Hp Hsp Hit He Hen Hwf] Hlt Hlt1 Hp1 Hst1 Hn1 Hn.
  rewrite push_eq by (unfold used in *; rewrite Hst1, Hn1; lia).
  eexists. split; [done|]. split; [|done].
  split; simpl; [by rewrite Hst1, Hst|unfold used in *; simpl; rewrite Hst1, Hn1; lia|done|lia|lia|done|done|].
  intros Hs. constructor; auto.
Qed.

Lemma level_close sp0 u0 items base c depth :
  level sp0 u0 items base c -> (sp c <= len)%nat -> (0 < depth -> sp c < len)%nat ->
  post bad (fun c' => level_end sp0 u0 depth base c' /\ sp c' = S (sp c))
    (concatenate cap (length base) (move_sp 1 c)).
Proof.
  intros [Hst Hu Hp Hsp Hit He Hen Hwf] Hle Hd.
  assert (Huc : used (move_sp 1 c) = used c) by done.
  assert (used c + (length items - 1) <= cap /\ used c < cap)%nat as [Hc1 Hc2].
  { destruct items; [destruct (He eq_refl)|]; simpl in *; lia. }
  rewrite (concatenate_eq _ _ items) by done. simpl. split; [|lia].
  exists (join_nodes items). simpl. split; [done|]. split; [intros Hs; apply join_nodes_wf; auto|].
  split; [lia|]. split; [lia|]. split.
  - unfold used in *. simpl. rewrite Hst in *. rewrite length_app in *.
    destruct items; [destruct (He eq_refl)|specialize (Hit ltac:(done))];
      case_bool_decide; simpl in *; lia.
  - intros Heq. destruct items as [|x items]; [done|]. exfalso.
    specialize (Hit ltac:(done)). lia.
Qed.

Lemma level_sub sp0 u0 items base c :
  level sp0 u0 items base c -> (sp c < len)%nat ->
  level (S (sp c)) (used c) [] (items ++ base) (move_sp 1 c).
Proof.
  intros [Hst Hu Hp Hsp Hit He Hen Hwf] Hlt. rewrite <- Hst.
  split; simpl; try done; unfold used, ptr in *; simpl; try lia.
Qed.

Lemma level_quantifier sp0 u0 items base c c1 nmin nmax :
  level sp0 u0 items base c -> items ≠ [] -> (sp c < sp c1 <= len)%nat ->
  stack c1 = stack c -> nout c1 = nout c -> 0 <= nmin -> nmax = -1 \/ nmin <= nmax ->
  post bad (fun c2 => exists items2, level sp0 u0 items2 base c2 /\ (sp c < sp c2)%nat)
    (push_quantifier pat cap nmin nmax c1).
Proof.
  intros [Hst Hu Hp Hsp Hit He Hen Hwf] Hne Hsp1 Hst1 Hn1 Hmin Hmax.
  destruct items as [|q items]; [done|]. specialize (Hit Hne).
  assert (Huc : used c1 = used c) by (unfold used; congruence).
  eapply post_mono.
  - apply (push_quantifier_spec _ _ _ q (items ++ base)); [by rewrite Hst1, Hst|split; lia|].
    rewrite Huc. simpl in Hu. lia.
  - intros c2 (greedy & Hst2 & Hn2 & Hsp2). exists (QUANTIFIER nmin nmax greedy q :: items). split; [|lia].
    split; try done; try lia.
    + unfold used in *. rewrite Hst2, Hn2. rewrite Hst1, Hst in Huc. rewrite Hst in Hu.
      simpl in *. lia.
    + split; lia.
    + intros Hs. specialize (Hwf Hs). inversion Hwf; subst. by constructor.
Qed.

Lemma level_class sp0 u0 items base c :
  level sp0 u0 items base c -> (sp c < len)%nat ->
  post bad (fun c2 => exists items2, level sp0 u0 items2 base c2 /\ (sp c < sp c2)%nat)
    (parse_char_class pat cap (move_sp 1 c)).
Proof.
  intros Hl Hlt. unfold parse_char_class. cbn [move_sp sp].
  eapply post_bind; [apply peek_spec; lia|]. intros c0 (Hle & Hc0 & Hend). cbv zeta.
  set (from := if c0 =? chr "^" then _ else _).
  assert (S (sp c) <= from <= len)%nat as Hfrom.
  { unfold from. chars. destruct (Z.eqb_spec c0 94); lia. }
  assert (length pat = S len) as Hpat by (unfold cstring; rewrite length_app; simpl; lia).
  eapply post_bind; [apply class_loop_spec; [split; lia|lia]|]. intros to (Hto & Hcls).
  assert (Hwf : safe_pattern pattern -> class_wf pat from).
  { destruct Hcls as (rs & Hrs & Hall). intros Hs. exists rs. auto. }
  destruct (level_push _ _ _ _ _ (mkCtx (S to) (stack c) (nout c))
    (if c0 =? chr "^" then CHARACTER_CLASS_NEGATED from to else CHARACTER_CLASS from to) Hl)
    as (c2 & Hp2 & Hl2 & Hsp2); try done; try (simpl; lia).
  - split; simpl; lia.
  - by destruct (c0 =? chr "^").
  - change (stack (move_sp 1 c)) with (stack c). change (nout (move_sp 1 c)) with (nout c). rewrite Hp2. simpl. eexists. split; [done|]. rewrite Hsp2. simpl. lia.
Qed.

Lemma level_alternate sp0 u0 items base c depth c1 :
  level sp0 u0 items base c -> level_end sp0 u0 depth base c1 -> sp c1 = S (sp c) -> (sp c1 <= len)%nat ->
  level (sp c1) (used c1) [] (stack c1) c1 /\
  forall c2, level_end (sp c1) (used c1) depth (stack c1) c2 ->
    post bad (level_end sp0 u0 depth base) (alternate cap c2).
Proof.
  intros Hl (n & Hst & Hn & Hsp & _ & Hu & Hemp) Hsp1 Hle. pose proof (level_entry _ _ _ _ _ Hl) as Hen.
  split; [split; cbn [length app]; try done; try lia|].
  - split; lia.
  - case_bool_decide; lia.
  - intros c2 (r & Hst2 & Hr & Hsp2 & Hd2 & Hu2 & Hemp2). rewrite Hst in Hst2.
    assert (used c2 <= cap)%nat as Hcap1 by (repeat case_bool_decide; lia).
    assert (n ≠ EPSILON -> r ≠ EPSILON -> used c2 < cap)%nat as Hcap2.
    { intros Hne Hre. rewrite !bool_decide_false in * by tauto. lia. }
    destruct (alternate_spec c2 r n base Hst2 Hcap1 Hcap2) as (m & c3 & -> & Hst3 & Hsp3 & Hm & Hu3).
    simpl. exists m. split_and!; [done|auto|lia|lia|intros Hdp; specialize (Hd2 Hdp); lia| |lia].
    rewrite (bool_decide_false (sp c3 = S sp0)) by lia.
    destruct (decide (n ≠ EPSILON /\ r ≠ EPSILON)) as [Hboth|Hboth].
    + rewrite bool_decide_true in Hu3 by done. repeat case_bool_decide; tauto || lia.
    + rewrite bool_decide_false in Hu3 by done. repeat case_bool_decide; tauto || lia.
Qed.

(** One turn of the loop, when the turns that follow are right. *)
Definition loop_ok (fuel : nat) : Prop := forall depth sp0 u0 items base c,
  level sp0 u0 items base c -> (len + 2 <= fuel + sp c)%nat ->
  post bad (level_end sp0 u0 depth base) (parse_loop pat cap fuel (length base) depth c).

Section turn.
Context (fuel depth : nat) (sp0 u0 : nat) (items base : list cregex_node) (c : regex_parse_context).
Context (IH : loop_ok fuel) (Hl : level sp0 u0 items base c) (Hf : (len + 1 <= fuel + sp c)%nat).

Abbreviation rest := (parse_loop pat cap fuel (length base) depth).
Abbreviation right := (post bad (level_end sp0 u0 depth base)).

Lemma turn_push n c1 :
  (sp c < len)%nat -> (sp c < sp c1)%nat -> ptr (sp c1) -> stack c1 = stack c -> nout c1 = nout c ->
  (safe_pattern pattern -> node_wf pat n) -> right (let! c := push cap n c1 in rest c).
Proof.
  intros Hlt Hlt1 Hp1 Hs1 Hn1 Hn.
  destruct (level_push _ _ _ _ _ c1 n Hl) as (c2 & -> & Hl2 & Hsp2); [done..|].
  simpl. apply (IH _ _ _ (n :: items)); [done|lia].
Qed.

Lemma turn_node n :
  (sp c < len)%nat -> (safe_pattern pattern -> node_wf pat n) -> right (let! c := push cap n (move_sp 1 c) in rest c).
Proof. intros Hlt Hn. apply turn_push; [done|simpl; lia|split; simpl; lia|done..]. Qed.

Lemma turn_empty : bool_decide (length (stack c) = length base) = bool_decide (items = []).
Proof.
  apply bool_decide_ext. rewrite (level_stack _ _ _ _ _ Hl), length_app.
  destruct items; simpl; [split; [done|lia]|split; [lia|done]].
Qed.

Lemma turn_quantifier ch nmin nmax :
  (sp c < len)%nat -> (safe_pattern pattern -> node_wf pat (CHARACTER ch)) -> 0 <= nmin -> nmax = -1 \/ nmin <= nmax ->
  right (if bool_decide (items = []) then let! c := push cap (CHARACTER ch) (move_sp 1 c) in rest c
         else let! c := push_quantifier pat cap nmin nmax (move_sp 1 c) in rest c).
Proof.
  intros Hlt Hch Hmin Hmax. case_bool_decide as Hne; [by apply turn_node|].
  eapply post_bind; [apply (level_quantifier _ _ _ _ _ _ _ _ Hl); try done; simpl; lia|].
  intros c2 (items2 & Hl2 & Hsp2). apply (IH _ _ _ items2); [done|lia].
Qed.

Lemma turn_interval ch :
  (sp c < len)%nat -> (safe_pattern pattern -> node_wf pat (CHARACTER ch)) ->
  right (if bool_decide (items = []) then let! c := push cap (CHARACTER ch) (move_sp 1 c) in rest c
         else match parse_interval pat cap (move_sp 1 c) with
              | Null => let! c := push cap (CHARACTER ch) (move_sp 1 c) in rest c
              | res => let! c := res in rest c
              end).
Proof.
  intros Hlt Hch. case_bool_decide as Hne; [by apply turn_node|]. unfold parse_interval.
  pose proof (interval_bounds_spec (sp c + 1) ltac:(lia)) as Hib. simpl in Hib |- *.
  destruct (interval_bounds pat (sp c + 1)) as [[[nmin nmax] p]| |e|]; simpl in Hib |- *;
    [|by apply turn_node|done|done].
  pose proof (level_quantifier _ _ _ _ _ (mkCtx (S p) (stack c) (nout c)) nmin nmax Hl Hne) as Hq.
  specialize (Hq ltac:(simpl; lia) eq_refl eq_refl ltac:(lia) ltac:(lia)).
  destruct (push_quantifier _ _ _ _ _) as [c2| |e|]; simpl in Hq |- *; [|by apply turn_node|done|done].
  destruct Hq as (items2 & Hl2 & Hsp2). apply (IH _ _ _ items2); [done|lia].
Qed.

Lemma turn_alternate :
  (sp c < len)%nat ->
  right (let! c := concatenate cap (length base) (move_sp 1 c) in
         let! c := parse_loop pat cap fuel (length (stack c)) depth c in alternate cap c).
Proof.
  intros Hlt. eapply post_bind; [apply (level_close _ _ items _ _ depth Hl); lia|]. intros c1 (Hend1 & Hsp1).
  destruct (level_alternate _ _ _ _ _ _ _ Hl Hend1 Hsp1) as [Hl1 Halt]; [lia|].
  eapply post_bind; [apply (IH depth (sp c1) (used c1) [] (stack c1)); [done|lia]|]. exact Halt.
Qed.

Lemma turn_group :
  (sp c < len)%nat ->
  right (let! c := parse_loop pat cap fuel (length (stack (move_sp 1 c))) (S depth) (move_sp 1 c) in
         let! (n, c) := consume c in let! c := push cap (CAPTURE n) c in rest c).
Proof.
  intros Hlt. pose proof (level_sub _ _ _ _ _ Hl Hlt) as Hsub.
  pose proof (level_used _ _ _ _ _ Hl) as Hu. pose proof (level_entry _ _ _ _ _ Hl) as Hen.
  cbn [move_sp stack]. rewrite (level_stack _ _ _ _ _ Hl).
  eapply post_bind; [apply (IH (S depth) (S (sp c)) (used c) [] (items ++ base)); [done|simpl; lia]|].
  intros c1 (n & Hst1 & Hn & Hsp1 & Hd1 & Hu1 & _). specialize (Hd1 ltac:(lia)).
  assert (Hu1' : (used c1 + 2 * S (sp c) + 1 <= used c + 2 * sp c1)%nat) by (case_bool_decide; lia).
  unfold consume. rewrite Hst1. cbn [obind].
  assert (Huc : used c1 = S (length (items ++ base) + nout c1)).
  { unfold used. by rewrite Hst1. }
  rewrite push_eq by (unfold used; simpl; lia).
  apply (IH _ _ _ (CAPTURE n :: items)); [|simpl; lia]. destruct Hl.
  split; simpl; try done; try lia.
  - split; lia.
  - intros Hs. constructor; auto.
Qed.
End turn.

Lemma parse_loop_spec fuel : loop_ok fuel.
Proof.
  induction fuel as [|fuel IH]; intros depth sp0 u0 items base c Hl Hf.
  { destruct (level_ptr _ _ _ _ _ Hl). lia. }
  assert (Hf1 : (len + 1 <= fuel + sp c)%nat) by lia. cbn [parse_loop].
  eapply post_bind; [apply peek_ptr, Hl|]. intros ch (Hle & Hch & Hend).
  assert (Hchar : (sp c < len)%nat -> safe_pattern pattern -> node_wf pat (CHARACTER ch)).
  { intros Hlt Hs. by apply (safe_char (sp c)). }
  erewrite turn_empty by eassumption. assert (Hnz : ch ≠ 0 -> (sp c < len)%nat) by lia.
  assert (Hnode : forall n, (sp c < len)%nat -> (safe_pattern pattern -> node_wf pat n) ->
    post bad (level_end sp0 u0 depth base)
      (let! c := push cap n (move_sp 1 c) in parse_loop pat cap fuel (length base) depth c))
    by (intros; by eapply turn_node).
  chars.
  destruct (Z.eqb_spec ch 92) as [->|_].
  { eapply post_bind; [apply peek_spec; simpl; lia|]. simpl. intros c2 (Hle2 & Hc2 & _).
    replace (sp c + 1)%nat with (S (sp c)) in * by lia.
    eapply turn_push; try done; try (simpl; lia).
    - split; simpl; [lia|]. intros Hs. pose proof (safe_escape _ Hs Hch). lia.
    - intros Hs. apply (safe_char (S (sp c))); [done..|]. by apply safe_escape. }
  destruct (Z.eqb_spec ch 46) as [->|_]; [by apply Hnode; auto|].
  destruct (Z.eqb_spec ch 91) as [->|_].
  { eapply post_bind; [apply (level_class _ _ _ _ _ Hl); lia|].
    intros c2 (items2 & Hl2 & Hsp2). apply (IH _ _ _ items2); [done|lia]. }
  destruct (Z.eqb_spec ch 124) as [->|_]; [by eapply turn_alternate; eauto|].
  destruct (Z.eqb_spec ch 63) as [->|_]; [eapply turn_quantifier; eauto; lia|].
  destruct (Z.eqb_spec ch 42) as [->|_]; [eapply turn_quantifier; eauto; lia|].
  destruct (Z.eqb_spec ch 43) as [->|_]; [eapply turn_quantifier; eauto; lia|].
  destruct (Z.eqb_spec ch 123) as [->|_]; [eapply turn_interval; eauto|].
  destruct (Z.eqb_spec ch 94) as [->|_]; [by apply Hnode; auto|].
  destruct (Z.eqb_spec ch 36) as [->|_]; [by apply Hnode; auto|].
  destruct (Z.eqb_spec ch 40) as [->|_]; [eapply turn_group; eauto|].
  destruct (Z.eqb_spec ch 41) as [->|_];
    [|destruct (Z.eqb_spec ch 0) as [->|Hne]; [|by apply Hnode; auto]];
    (case_bool_decide; [|done]; eapply post_mono; [apply (level_close sp0 u0 items _ _ depth Hl); lia|tauto]).
Qed.

End Parser.

(** *** The whole parser *)

Lemma parse_with_nodes_spec pattern :
  Forall is_char pattern -> pattern ≠ [] ->
  post (bad pattern) (level_end pattern 0 0 0 []) (parse_with_nodes pattern).
Proof.
  intros Hch Hne. assert (0 < length pattern)%nat by (destruct pattern; [done|simpl; lia]).
  unfold parse_with_nodes, parse_context. cbn [stack length].
  assert (Hcap : (length pattern * 2 <= estimate_nodes pattern)%nat) by (unfold estimate_nodes; lia).
  apply (parse_loop_spec pattern Hch _ Hcap ltac:(lia) _ 0%nat 0%nat 0%nat [] []).
  - split; unfold used; simpl; try done; try lia. split; lia.
  - unfold cstring. rewrite length_app. simpl. lia.
Qed.

Lemma cregex_parse_spec malloc_ok pattern :
  Forall is_char pattern -> pattern ≠ [] ->
  post (bad pattern) (fun n => safe_pattern pattern -> node_wf (cstring pattern) n)
    (cregex_parse malloc_ok pattern).
Proof.
  intros Hch Hne. unfold cregex_parse. destruct malloc_ok; [|done].
  eapply post_bind; [by apply parse_with_nodes_spec|].
  intros c (n & Hst & Hn & _). by rewrite Hst.
Qed.

(** for every non-empty pattern, the parser never writes outside of its
    block of [2 * strlen(pattern)] nodes, its stack and its output area never
    meet, and it ends. *)
Lemma parse_stays_in_nodes malloc_ok pattern :
  Forall is_char pattern -> pattern ≠ [] ->
  cregex_parse malloc_ok pattern ≠ Bad OutOfBoundsWrite /\ cregex_parse malloc_ok pattern ≠ NoFuel.
Proof.
  intros Hch Hne. pose proof (cregex_parse_spec malloc_ok pattern Hch Hne) as H.
  split; intros He; rewrite He in H; simpl in H; [|done]. by destruct H.
Qed.

Lemma parse_stays_in_nodes_witness :
  cregex_parse true (str "(a|b)*c{2,}?") ≠ Bad OutOfBoundsWrite /\
  cregex_parse true (str "(a|b)*c{2,}?") ≠ NoFuel.
Proof.
  apply parse_stays_in_nodes; [|done].
  apply (bool_decide_unpack _). vm_compute. exact I.
Defined.

Lemma parse_safe pattern :
  safe_pattern pattern -> pattern ≠ [] ->
  cregex_parse true pattern = Null \/
  exists n, cregex_parse true pattern = Ok n /\ node_wf (cstring pattern) n.
Proof.
  intros Hs Hne.
  assert (Hch : Forall is_char pattern).
  { destruct Hs as [Ha _]. eapply Forall_impl; [exact Ha|]. unfold is_char. simpl. lia. }
  pose proof (cregex_parse_spec true pattern Hch Hne) as H.
  destruct (cregex_parse true pattern) as [n| |e|]; simpl in H; [right; eauto|by left| |done].
  by destruct H.
Qed.

(** an ASCII pattern that does not end with a backslash and whose numbers
    have at most nine digits is either refused or parsed into a well-formed
    node: every class has its closing bracket and non-empty ranges of ASCII
    characters, every interval has ordered bounds. *)
Lemma parse_safe_pattern pattern :
  safe_pattern pattern -> pattern ≠ [] ->
  cregex_parse true pattern = Null \/
  exists n, cregex_parse true pattern = Ok n /\ node_wf (cstring pattern) n.
Proof. apply parse_safe. Qed.

(** The pattern of the callers of src/src/format.c and src/src/vhd.c. *)
Lemma parse_safe_pattern_witness :
  safe_pattern (str ".*" ++ [13] ++ str "\[[= ]+([0-9\.]+)%[= ]+\].*") /\
  (cregex_parse true (str ".*" ++ [13] ++ str "\[[= ]+([0-9\.]+)%[= ]+\].*") = Null \/
   exists n, cregex_parse true (str ".*" ++ [13] ++ str "\[[= ]+([0-9\.]+)%[= ]+\].*") = Ok n /\
             node_wf (cstring (str ".*" ++ [13] ++ str "\[[= ]+([0-9\.]+)%[= ]+\].*")) n).
Proof.
  split; [|apply parse_safe_pattern; [|done]]; apply (bool_decide_unpack _); vm_compute; exact I.
Defined.

(** Outside of these patterns the parser leaves its blocks: the empty
    pattern is written to a block of no node, an escape at the end of a pattern
    or of a range reads past the terminator, and an interval may overflow. *)
Theorem parse_undefined_patterns :
  cregex_parse true [] = Bad OutOfBoundsWrite /\
  cregex_parse true (str "a\") = Bad OutOfBoundsRead /\
  cregex_parse true (str "[\") = Bad OutOfBoundsRead /\
  cregex_parse true ([chr "["; -61; chr "-"]) = Bad OutOfBoundsRead /\
  cregex_parse true (str "a{2147483648}") = Bad IntegerOverflow.
Proof. vm_compute. auto. Qed.
