(* ===== verification/CregexPrint.v ===== *)
(** CregexPrint: a printer of nodes and the round trip through the parser of
    src/src/cregex_parse.c. The printer is part of the specification: it
    defines the text that denotes a node. *)

From Stdlib Require Import Ascii.
From stdpp Require Import strings.
From S2P Require Import Prelude CregexParse CregexSpec CregexParseCorrect.

Open Scope cregex_scope.

(** ** The printer *)

Fixpoint digits (fuel : nat) (n : Z) : list Z :=
  match fuel with
  | O => []
  | S fuel => if n <? 10 then [chr "0" + n] else digits fuel (n / 10) ++ [chr "0" + n mod 10]
  end.

(** Ten digits are enough for an [int]. *)
Definition print_number (n : Z) : list Z := digits 10 n.

Definition lazy_mark (greedy : bool) : list Z := if greedy then [] else [chr "?"].

Definition print_interval (nmin nmax : Z) (greedy : bool) : list Z :=
  [chr "{"] ++ print_number nmin ++ [chr ","] ++
  (if nmax =? -1 then [] else print_number nmax) ++ [chr "}"] ++ lazy_mark greedy.

Fixpoint print_node (n : cregex_node) : list Z :=
  match n with
  | EPSILON => []
  | CHARACTER ch => [chr "\"; ch]
  | ANY_CHARACTER => [chr "."]
  | CHARACTER_CLASS _ _ | CHARACTER_CLASS_NEGATED _ _ => []
  | CONCATENATION l r => print_node l ++ print_node r
  | ALTERNATION l r => print_node l ++ [chr "|"] ++ print_node r
  | QUANTIFIER nmin nmax greedy q => print_node q ++ print_interval nmin nmax greedy
  | ANCHOR_BEGIN => [chr "^"]
  | ANCHOR_END => [chr "$"]
  | CAPTURE n => [chr "("] ++ print_node n ++ [chr ")"]
  end.

(** ** The nodes that have a text, without the classes, which are pointers in
    the pattern: a concatenation and an alternation are nested to the right,
    and the empty node is alone between parentheses. *)

Inductive shape := Piece | Concat | Alt.

Fixpoint printable (sh : shape) (n : cregex_node) : Prop :=
  match n with
  | EPSILON => sh = Alt
  | CHARACTER ch => is_char ch
  | ANY_CHARACTER | ANCHOR_BEGIN | ANCHOR_END => True
  | CHARACTER_CLASS _ _ | CHARACTER_CLASS_NEGATED _ _ => False
  | CONCATENATION l r => sh ≠ Piece /\ printable Piece l /\ printable Concat r
  | ALTERNATION l r => sh = Alt /\ printable Concat l /\ printable Alt r /\ r ≠ EPSILON
  | QUANTIFIER nmin nmax _ q =>
      0 <= nmin < 2 ^ 31 /\ (nmax = -1 \/ nmin <= nmax < 2 ^ 31) /\ printable Piece q
  | CAPTURE n => printable Alt n
  end.

(** ** Reading text *)

Section Reading.
Context (pat : list Z) (cap : nat).

Lemma drop_head p ch t : drop p pat = ch :: t -> pat !! p = Some ch /\ drop (S p) pat = t.
Proof.
  intros H. split; [by rewrite <- (Nat.add_0_r p), <- lookup_drop, H|].
  by rewrite <- Nat.add_1_r, <- drop_drop, H.
Qed.

Lemma peek_drop p ch t : drop p pat = ch :: t -> peek pat p = Ok ch.
Proof. intros [H _]%drop_head. unfold peek. by rewrite H. Qed.

Lemma drop_text p t1 t2 : drop p pat = t1 ++ t2 -> drop (p + length t1) pat = t2.
Proof. intros H. rewrite <- drop_drop, H. by apply drop_app_length. Qed.

Lemma digits_length fuel n : (length (digits fuel n) <= fuel)%nat.
Proof.
  revert n. induction fuel as [|fuel IH]; intros n; simpl; [done|].
  destruct (n <? 10); simpl; [lia|]. rewrite length_app. simpl. specialize (IH (n / 10)). lia.
Qed.

Lemma digits_cons fuel n :
  0 <= n -> (0 < fuel)%nat -> exists ch t, digits fuel n = ch :: t /\ is_digit ch = true.
Proof.
  revert n. induction fuel as [|fuel IH]; intros n Hn Hf; [lia|]. simpl.
  destruct (Z.ltb_spec n 10).
  - eexists _, _. split; [done|]. unfold is_digit. chars. lia.
  - destruct fuel as [|fuel].
    + eexists _, _. split; [done|]. unfold is_digit. chars.
      pose proof (Z.mod_pos_bound n 10 ltac:(lia)). lia.
    + destruct (IH (n / 10) ltac:(apply Z.div_pos; lia) ltac:(lia)) as (ch & t & -> & Hd).
      eexists _, _. split; [done|done].
Qed.

(** Reading the digits of [n] after the number [m]. *)
Lemma number_loop_digits k fuel m n p rest :
  0 <= m -> 0 <= n < 10 ^ Z.of_nat k -> m * 10 ^ Z.of_nat (length (digits k n)) + n < 2 ^ 31 ->
  drop p pat = digits k n ++ rest ->
  number_loop pat (length (digits k n) + fuel) m p =
    number_loop pat fuel (m * 10 ^ Z.of_nat (length (digits k n)) + n) (p + length (digits k n)).
Proof.
  revert fuel m n p rest. induction k as [|k IH]; intros fuel m n p rest Hm Hn Hov Hd.
  { simpl in *. f_equal; lia. }
  assert (Hlast : forall d q m' rest', 0 <= d < 10 -> 0 <= m' -> m' * 10 + d < 2 ^ 31 ->
    drop q pat = (chr "0" + d) :: rest' ->
    number_loop pat (S fuel) m' q = number_loop pat fuel (m' * 10 + d) (S q)).
  { intros d q m' rest' Hdg Hm' Hov' Hq. cbn [number_loop]. rewrite (peek_drop _ _ _ Hq). cbn [obind].
    unfold is_digit. chars.
    replace ((48 <=? 48 + d) && (48 + d <=? 57)) with true by lia.
    replace (m' * 10 + (48 + d - 48)) with (m' * 10 + d) by lia.
    by destruct (Z.leb_spec (2 ^ 31) (m' * 10 + d)); [lia|]. }
  simpl in Hd, Hov |- *. destruct (Z.ltb_spec n 10).
  - simpl in *. rewrite (Hlast n p m rest) by (done || lia). f_equal; lia.
  - rewrite length_app in *. simpl (length [_]) in *.
    rewrite Nat2Z.inj_add, Z.pow_add_r in Hov |- * by lia. change (10 ^ Z.of_nat 1) with 10 in *.
    rewrite <- app_assoc in Hd. rewrite Nat2Z.inj_succ, Z.pow_succ_r in Hn by lia.
    pose proof (Z.div_mod n 10 ltac:(lia)). pose proof (Z.mod_pos_bound n 10 ltac:(lia)).
    replace (length (digits k (n / 10)) + 1 + fuel)%nat
      with (length (digits k (n / 10)) + S fuel)%nat by lia.
    set (P := 10 ^ Z.of_nat (length (digits k (n / 10)))) in *.
    assert (0 <= m * P) by (unfold P; apply Z.mul_nonneg_nonneg; lia).
    rewrite (IH (S fuel) m (n / 10) p ([chr "0" + n mod 10] ++ rest)); fold P; try done.
    + rewrite (Hlast (n mod 10) _ _ rest); try lia; [f_equal; lia|].
      by apply (drop_text _ _ _ Hd).
    + split; [apply Z.div_pos; lia|apply Z.div_lt_upper_bound; lia].
    + lia.
Qed.

Lemma number_read fuel n p ch rest :
  0 <= n < 2 ^ 31 -> is_digit ch = false -> (length (print_number n) < fuel)%nat ->
  drop p pat = print_number n ++ ch :: rest ->
  number_loop pat fuel 0 p = Ok (n, p + length (print_number n))%nat.
Proof.
  intros Hn Hch Hf Hd. unfold print_number in *.
  replace fuel with (length (digits 10 n) + S (fuel - length (digits 10 n) - 1))%nat by lia.
  rewrite (number_loop_digits _ _ _ _ _ (ch :: rest)); [|lia|lia|lia|done].
  cbn [number_loop]. rewrite (peek_drop _ ch rest) by apply (drop_text _ _ _ Hd).
  cbn [obind]. by rewrite Hch, Z.mul_0_l.
Qed.

Lemma digits_digit k n : 0 <= n -> Forall (fun c => is_digit c = true) (digits k n).
Proof.
  revert n. induction k as [|k IH]; intros n Hn; simpl; [constructor|].
  destruct (Z.ltb_spec n 10).
  - constructor; [unfold is_digit; chars; lia|constructor].
  - apply Forall_app. split; [apply IH, Z.div_pos; lia|]. constructor; [|constructor].
    pose proof (Z.mod_pos_bound n 10 ltac:(lia)). unfold is_digit. chars. lia.
Qed.

(** The character before the end of a number. *)
Lemma number_last n p rest :
  0 <= n -> drop p pat = print_number n ++ rest ->
  exists c, pat !! (p + length (print_number n) - 1)%nat = Some c /\ is_digit c = true.
Proof.
  intros Hn Hd. unfold print_number in *.
  destruct (digits_cons 10 n Hn ltac:(lia)) as (ch & t & Hdt & _).
  assert (0 < length (digits 10 n))%nat as Hl by (rewrite Hdt; simpl; lia).
  destruct (lookup_lt_is_Some_2 (digits 10 n) (length (digits 10 n) - 1) ltac:(lia)) as [c Hc].
  exists c. split.
  - rewrite <- Nat.add_sub_assoc, <- lookup_drop, Hd, lookup_app_l by lia. done.
  - by apply (Forall_lookup_1 _ _ _ _ (digits_digit 10 n Hn) Hc).
Qed.

Lemma interval_read nmin nmax p rest :
  0 <= nmin < 2 ^ 31 -> nmax = -1 \/ nmin <= nmax < 2 ^ 31 ->
  drop p pat = print_number nmin ++ [chr ","] ++
    (if nmax =? -1 then [] else print_number nmax) ++ chr "}" :: rest ->
  interval_bounds pat p =
    Ok (nmin, nmax, (p + length (print_number nmin) + 1 +
          length (if (nmax =? -1)%Z then [] else print_number nmax))%nat).
Proof.
  intros Hmin Hmax Hd. unfold interval_bounds.
  destruct (digits_cons 10 nmin ltac:(lia) ltac:(lia)) as (d & t & Hdt & Hdig).
  set (txt := if nmax =? -1 then _ else _) in *.
  assert (Hlen : (p + length (print_number nmin ++ [chr ","] ++ txt ++ chr "}" :: rest) <= length pat)%nat).
  { rewrite <- Hd, length_drop. destruct (decide (p <= length pat)%nat); [lia|].
    rewrite drop_ge in Hd by lia. by destruct (print_number nmin). }
  rewrite !length_app in Hlen. simpl in Hlen.
  rewrite (number_read _ nmin _ (chr ",") (txt ++ chr "}" :: rest)); [|done|done|lia|done].
  cbn [obind]. pose proof (drop_text _ _ _ Hd) as Hd1.
  rewrite (peek_drop _ _ _ Hd1). cbn [obind].
  rewrite (peek_drop p d (t ++ [chr ","] ++ txt ++ chr "}" :: rest));
    [|rewrite Hd; unfold print_number; by rewrite Hdt].
  cbn [obind]. change (chr "," =? chr ",") with true. cbv iota.
  assert (Hdne : (d =? chr ",") = false) by (unfold is_digit in Hdig; chars; lia). rewrite Hdne.
  apply drop_head in Hd1 as [_ Hd2]. unfold txt in *. clear txt.
  destruct (Z.eqb_spec nmax (-1)) as [->|Hne].
  - rewrite (peek_drop _ _ _ Hd2). simpl. do 2 f_equal. lia.
  - destruct Hmax as [|Hmax]; [done|].
    destruct (digits_cons 10 nmax ltac:(lia) ltac:(lia)) as (d2 & t2 & Hdt2 & Hdig2).
    assert (Hd2' : drop (S (p + length (print_number nmin))) pat = d2 :: t2 ++ chr "}" :: rest)
      by (rewrite Hd2; unfold print_number; by rewrite Hdt2).
    rewrite (peek_drop _ _ _ Hd2'). cbn [obind].
    assert ((d2 =? chr "}") = false) as -> by (unfold is_digit in Hdig2; chars; lia). rewrite andb_false_r.
    rewrite (number_read _ nmax _ (chr "}") rest); [|lia|done|lia|done].
    cbn [obind]. pose proof (drop_text _ _ _ Hd2) as Hd3.
    destruct (number_last nmax _ (chr "}" :: rest) ltac:(lia) Hd2) as (c & Hc & Hcd).
    unfold peek at 1. rewrite Hc. cbn [obind].
    rewrite (peek_drop _ _ _ Hd3). cbn [obind].
    assert ((c =? chr ",") = false) as -> by (unfold is_digit in Hcd; chars; lia).
    change (chr "}" =? chr "}") with true. cbn [negb orb].
    destruct (Z.ltb_spec nmax nmin); [lia|]. do 2 f_equal. lia.
Qed.

(** ** The loop on the text of a node

    [k] is the number of turns of the loop that the text takes. *)

Definition starts (rest : list Z) : Prop :=
  match rest with ch :: _ => ch ≠ chr "?" | [] => False end.

Definition piece_read (n : cregex_node) : Prop :=
  forall bottom depth c rest,
    drop (sp c) pat = print_node n ++ rest -> starts rest ->
    (bottom <= length (stack c))%nat -> (used c + 2 * length (print_node n) <= S cap)%nat ->
    exists k nout', (1 <= k <= length (print_node n))%nat /\
      (length (stack c) + 2 + nout' <= used c + 2 * length (print_node n))%nat /\
      forall fuel, (length (print_node n) < fuel)%nat ->
        parse_loop pat cap fuel bottom depth c =
        parse_loop pat cap (fuel - k) bottom depth
          (mkCtx (sp c + length (print_node n)) (n :: stack c) nout').

(** The pieces of a concatenation. *)
Fixpoint pieces (n : cregex_node) : list cregex_node :=
  match n with CONCATENATION l r => l :: pieces r | _ => [n] end.

Definition seq_read (n : cregex_node) : Prop :=
  forall bottom depth c rest,
    drop (sp c) pat = print_node n ++ rest -> starts rest ->
    (bottom <= length (stack c))%nat -> (used c + 2 * length (print_node n) <= S cap)%nat ->
    exists k nout', (1 <= k <= length (print_node n))%nat /\
      (length (stack c) + 2 * length (pieces n) + nout' <= used c + 2 * length (print_node n))%nat /\
      forall fuel, (length (print_node n) < fuel)%nat ->
        parse_loop pat cap fuel bottom depth c =
        parse_loop pat cap (fuel - k) bottom depth
          (mkCtx (sp c + length (print_node n)) (reverse (pieces n) ++ stack c) nout').

(** The end of a level: a closing parenthesis, or the terminator. *)
Definition closes (depth : nat) (ch : Z) : Prop :=
  ch = chr ")" /\ (0 < depth)%nat \/ ch = 0 /\ depth = 0%nat.

Definition alt_read (n : cregex_node) : Prop :=
  forall depth c ch rest,
    drop (sp c) pat = print_node n ++ ch :: rest -> closes depth ch ->
    (used c + 2 * length (print_node n) <= cap)%nat -> (used c < cap)%nat ->
    exists nout', (length (stack c) + nout' <= used c + 2 * length (print_node n))%nat /\
      (n ≠ EPSILON -> length (stack c) + nout' + 2 <= used c + 2 * length (print_node n))%nat /\
      forall fuel, (length (print_node n) < fuel)%nat ->
        parse_loop pat cap fuel (length (stack c)) depth c =
        Ok (mkCtx (sp c + length (print_node n) + 1) (n :: stack c) nout').

Lemma single_read n ch bottom depth c rest (l : nat) :
  drop (sp c) pat = ch :: rest -> (used c + 2 <= S cap)%nat ->
  (forall fuel, parse_loop pat cap (S fuel) bottom depth c =
     (let! c := push cap n (mkCtx (sp c + l) (stack c) (nout c)) in parse_loop pat cap fuel bottom depth c)) ->
  exists nout', (length (stack c) + 2 + nout' <= used c + 2)%nat /\
    forall fuel, (0 < fuel)%nat ->
      parse_loop pat cap fuel bottom depth c =
      parse_loop pat cap (fuel - 1) bottom depth (mkCtx (sp c + l) (n :: stack c) nout').
Proof.
  intros Hd Hc Hs. exists (nout c). split; [unfold used; lia|]. intros fuel Hf.
  destruct fuel as [|fuel]; [lia|]. rewrite Hs, push_eq by (unfold used in *; simpl; lia).
  by rewrite Nat.sub_1_r.
Qed.

Lemma push_quantifier_eq nmin nmax greedy q st c rest :
  stack c = q :: st -> drop (sp c) pat = lazy_mark greedy ++ rest -> starts rest ->
  (used c < cap)%nat ->
  push_quantifier pat cap nmin nmax c =
    Ok (mkCtx (sp c + length (lazy_mark greedy)) (QUANTIFIER nmin nmax greedy q :: st)
          (S (nout c))).
Proof.
  intros Hst Hd Hr Hu. unfold push_quantifier, used in *. rewrite Hst in Hu. simpl in Hu.
  destruct greedy; simpl in Hd |- *.
  - destruct rest as [|ch rest]; [done|]. rewrite (peek_drop _ _ _ Hd). cbn [obind]. simpl in Hr.
    destruct (Z.eqb_spec ch (chr "?")); [done|]. unfold consume. rewrite Hst. cbn [obind negb].
    rewrite push_eq by (unfold used; simpl; lia). by rewrite Nat.add_0_r.
  - rewrite (peek_drop _ _ _ Hd). cbn [obind]. change (chr "?" =? chr "?") with true. cbv iota.
    unfold consume. cbn [move_sp stack]. rewrite Hst. cbn [obind negb].
    by rewrite push_eq by (unfold used; simpl; lia).
Qed.

Lemma interval_piece nmin nmax greedy q c bottom depth st rest :
  0 <= nmin < 2 ^ 31 -> nmax = -1 \/ nmin <= nmax < 2 ^ 31 ->
  drop (sp c) pat = print_interval nmin nmax greedy ++ rest -> starts rest ->
  stack c = q :: st -> (bottom <= length st)%nat -> (used c < cap)%nat ->
  forall fuel,
    parse_loop pat cap (S fuel) bottom depth c =
    parse_loop pat cap fuel bottom depth
      (mkCtx (sp c + length (print_interval nmin nmax greedy))
         (QUANTIFIER nmin nmax greedy q :: st) (S (nout c))).
Proof.
  intros Hmin Hmax Hd Hq Hst Hb Hu fuel. unfold print_interval in Hd.
  rewrite <- !app_assoc in Hd. cbn [parse_loop].
  simpl app in Hd at 1. pose proof (drop_head _ _ _ Hd) as [_ Hd1].
  rewrite (peek_drop _ _ _ Hd). cbn [obind].
  rewrite bool_decide_false by (rewrite Hst; simpl; lia).
  change (chr "{" =? chr "{") with true. change (chr "{" =? chr "\") with false.
  change (chr "{" =? chr ".") with false. change (chr "{" =? chr "[") with false.
  change (chr "{" =? chr "|") with false. change (chr "{" =? chr "?") with false.
  change (chr "{" =? chr "*") with false. change (chr "{" =? chr "+") with false. cbv iota.
  unfold parse_interval. simpl sp. rewrite Nat.add_1_r.
  rewrite (interval_read nmin nmax _ (lazy_mark greedy ++ rest)); [|done|done|by rewrite Hd1].
  cbn [obind].
  set (txt := if nmax =? -1 then [] else print_number nmax) in *.
  rewrite (push_quantifier_eq nmin nmax greedy q st _ rest); [|done| |done|done].
  - cbn [sp stack nout]. do 2 f_equal. unfold print_interval. fold txt. rewrite !length_app. simpl. lia.
  - simpl sp.
    assert (Hl : drop (S (sp c) + length (print_number nmin ++ [chr ","] ++ txt ++ [chr "}"])) pat
                 = lazy_mark greedy ++ rest).
    { apply drop_text. rewrite Hd1, <- !app_assoc. done. }
    rewrite <- Hl. f_equal. rewrite !length_app. simpl. lia.
Qed.

(** One turn of the loop on a character that is not special. *)
Ltac turn H :=
  cbn [parse_loop]; rewrite (peek_drop _ _ _ H); cbn [obind]; reflexivity.

Lemma quantifier_starts nmin nmax greedy rest : starts (print_interval nmin nmax greedy ++ rest).
Proof. unfold print_interval. simpl. chars. lia. Qed.

Lemma capture_piece m : alt_read m -> piece_read (CAPTURE m).
Proof.
  intros Hcap bottom depth c rest Hd Hr Hb Hu. simpl in Hd, Hu |- *.
  rewrite <- app_assoc in Hd. rewrite length_app in Hu |- *. simpl length in Hu |- *.
  pose proof (drop_head _ _ _ Hd) as [_ Hd1].
  destruct (Hcap (S depth) (move_sp 1 c) (chr ")") rest) as (n1 & Hn1 & _ & Hl).
  + cbn [move_sp sp]. by rewrite Nat.add_1_r.
  + left. split; [done|lia].
  + unfold used in *. simpl. lia.
  + unfold used in *. simpl. lia.
  + unfold used in Hn1. simpl in Hn1.
    exists 1%nat, (S n1). split_and!; [lia|lia|unfold used; lia|]. intros fuel Hf.
    destruct fuel as [|fuel]; [lia|]. cbn [parse_loop]. rewrite (peek_drop _ _ _ Hd). cbn [obind].
    transitivity (let! c := parse_loop pat cap fuel (length (stack (move_sp 1 c))) (S depth) (move_sp 1 c) in
                  let! (n, c) := consume c in
                  let! c := push cap (CAPTURE n) c in parse_loop pat cap fuel bottom depth c);
      [reflexivity|].
    rewrite Hl by lia. cbn [obind consume stack]. rewrite push_eq by (unfold used in *; simpl; lia).
    cbn [obind move_sp sp stack nout]. rewrite Nat.sub_succ, Nat.sub_0_r. do 2 f_equal. lia.
Qed.

Lemma piece_reads n :
  (forall m, n = CAPTURE m -> alt_read m) ->
  (forall nmin nmax greedy q, n = QUANTIFIER nmin nmax greedy q -> piece_read q) ->
  printable Piece n -> piece_read n.
Proof.
  intros Hcap' Hq Hn bottom depth c rest Hd Hr Hb Hu.
  destruct n as [|ch| | | |l r|l r|nmin nmax greedy q| | |m];
    try (by destruct Hn); try done; simpl in Hd, Hu |- *.
  - destruct (single_read (CHARACTER ch) _ bottom depth c _ 2 Hd ltac:(lia)) as (nout' & Hn' & Hl).
    { intros fuel. pose proof (drop_head _ _ _ Hd) as [_ Hd2]. cbn [parse_loop].
      rewrite (peek_drop _ _ _ Hd). cbn [obind]. change (chr "\" =? chr "\") with true. cbv iota.
      simpl sp. rewrite Nat.add_1_r. rewrite (peek_drop _ _ _ Hd2). cbn [obind move_sp sp stack nout].
      unfold move_sp. cbn [sp stack nout]. by replace (sp c + 1 + 1)%nat with (sp c + 2)%nat by lia. }
    exists 1%nat, nout'. split_and!; [lia..|]. intros fuel Hf. apply Hl. lia.
  - destruct (single_read ANY_CHARACTER _ bottom depth c _ 1 Hd ltac:(lia)) as (nout' & Hn' & Hl).
    { intros fuel. turn Hd. }
    exists 1%nat, nout'. split_and!; [lia..|]. intros fuel Hf. apply Hl. lia.
  - destruct Hn as (Hmin & Hmax & Hpq). rewrite <- app_assoc in Hd. rewrite length_app in Hu |- *.
    assert (2 <= length (print_interval nmin nmax greedy))%nat as Hli.
    { unfold print_interval. rewrite !length_app. simpl. lia. }
    destruct (Hq _ _ _ _ eq_refl bottom depth c _ Hd (quantifier_starts _ _ _ _) Hb) as
      (k & n1 & Hk & Hn1 & Hl); [lia|].
    exists (S k), (S n1). split_and!; [lia..|]. intros fuel Hf. rewrite Hl by lia.
    replace (fuel - k)%nat with (S (fuel - S k)) by lia.
    rewrite (interval_piece nmin nmax greedy q _ _ _ (stack c) rest); simpl;
      [by rewrite Nat.add_assoc|done|done|by apply drop_text|done|done|done|].
    unfold used. simpl. lia.
  - destruct (single_read ANCHOR_BEGIN _ bottom depth c _ 1 Hd ltac:(lia)) as (nout' & Hn' & Hl).
    { intros fuel. turn Hd. }
    exists 1%nat, nout'. split_and!; [lia..|]. intros fuel Hf. apply Hl. lia.
  - destruct (single_read ANCHOR_END _ bottom depth c _ 1 Hd ltac:(lia)) as (nout' & Hn' & Hl).
    { intros fuel. turn Hd. }
    exists 1%nat, nout'. split_and!; [lia..|]. intros fuel Hf. apply Hl. lia.
  - by apply (capture_piece m (Hcap' m eq_refl) bottom depth c rest).
Qed.

Lemma seq_single n : pieces n = [n] -> piece_read n -> seq_read n.
Proof.
  intros Hp Hn bottom depth c rest Hd Hr Hb Hu. rewrite Hp.
  destruct (Hn bottom depth c rest Hd Hr Hb Hu) as (k & n1 & Hk & Hn1 & Hl).
  exists k, n1. split_and!; [lia..|simpl; lia|done].
Qed.

Lemma seq_concat l r :
  piece_read l -> seq_read r -> (forall rest, starts (print_node r ++ rest)) ->
  seq_read (CONCATENATION l r).
Proof.
  intros Hl Hr Hsr bottom depth c rest Hd Hrest Hb Hu. simpl in Hd, Hu |- *.
  rewrite <- app_assoc in Hd. rewrite length_app in Hu |- *.
  destruct (Hl bottom depth c _ Hd (Hsr _) Hb) as (k1 & n1 & Hk1 & Hn1 & Hl1); [lia|].
  destruct (Hr bottom depth (mkCtx (sp c + length (print_node l)) (l :: stack c) n1) rest)
    as (k2 & n2 & Hk2 & Hn2 & Hl2); simpl.
  - by apply drop_text.
  - done.
  - lia.
  - unfold used. simpl. lia.
  - unfold used in Hn2. simpl in Hn2. exists (k1 + k2)%nat, n2. split_and!; [lia..|].
    intros fuel Hf. rewrite Hl1, Hl2 by lia. simpl. rewrite reverse_cons, <- app_assoc. simpl.
    f_equal; [lia|]. by rewrite Nat.add_assoc.
Qed.

Lemma print_starts n sh rest : printable sh n -> n ≠ EPSILON -> starts (print_node n ++ rest).
Proof.
  revert sh rest. induction n as [|ch| | | |l IHl r IHr|l IHl r IHr|nmin nmax greedy q IHq| | |m IHm];
    intros sh rest Hn Hne; try done; simpl in Hn |- *; try (chars; lia).
  - destruct Hn as (_ & Hl & _). rewrite <- app_assoc. apply (IHl Piece); [done|]. by intros ->.
  - destruct Hn as (_ & Hl & _). rewrite <- app_assoc. apply (IHl Concat); [done|]. by intros ->.
  - destruct Hn as (_ & _ & Hq). rewrite <- app_assoc. apply (IHq Piece); [done|]. by intros ->.
Qed.

Lemma join_pieces n : n ≠ EPSILON -> join_nodes (reverse (pieces n)) = n.
Proof.
  induction n as [|ch| | | |l _ r IHr| | | | |]; try done. intros _. simpl. rewrite reverse_cons.
  destruct (decide (r = EPSILON)) as [->|Hr]; [done|]. specialize (IHr Hr).
  destruct (reverse (pieces r)) as [|top items] eqn:Hrev.
  - apply (f_equal length) in Hrev. rewrite length_reverse in Hrev. by destruct r.
  - simpl in IHr |- *. by rewrite foldl_app, IHr.
Qed.

(** The text of a concatenation, then the character that ends its level. *)
Lemma close_level n depth c ch rest :
  seq_read n -> n ≠ EPSILON -> drop (sp c) pat = print_node n ++ ch :: rest -> ch ≠ chr "?" ->
  (used c + 2 * length (print_node n) <= cap)%nat ->
  exists k nout', (1 <= k <= length (print_node n))%nat /\
    (length (stack c) + 2 + nout' <= used c + 2 * length (print_node n))%nat /\
    drop (sp c + length (print_node n)) pat = ch :: rest /\
    forall fuel, (length (print_node n) < fuel)%nat -> exists c1,
      parse_loop pat cap fuel (length (stack c)) depth c = parse_loop pat cap (fuel - k) (length (stack c)) depth c1 /\
      sp c1 = (sp c + length (print_node n))%nat /\
      concatenate cap (length (stack c)) (move_sp 1 c1) =
        Ok (mkCtx (sp c + length (print_node n) + 1) (n :: stack c) nout').
Proof.
  intros Hn Hne Hd Hch Hu.
  destruct (Hn (length (stack c)) depth c _ Hd Hch ltac:(lia) ltac:(lia)) as (k & n1 & Hk & Hn1 & Hl).
  assert (1 <= length (pieces n))%nat by (destruct n; simpl; lia).
  exists k, (n1 + 2 * (length (pieces n) - 1))%nat. split_and!; [lia|lia|lia|by apply drop_text|].
  intros fuel Hf. eexists. split; [by apply Hl|]. split; [done|].
  rewrite (concatenate_eq _ _ (reverse (pieces n))); [|done|..].
  - by rewrite join_pieces, length_reverse.
  - unfold used in *. simpl. rewrite !length_app, !length_reverse. lia.
  - unfold used in *. simpl. rewrite !length_app, !length_reverse. lia.
Qed.

Lemma close_turn fuel bottom depth c ch rest :
  drop (sp c) pat = ch :: rest -> closes depth ch -> (0 < fuel)%nat ->
  parse_loop pat cap fuel bottom depth c = concatenate cap bottom (move_sp 1 c).
Proof.
  intros Hd Hc Hf. destruct fuel as [|fuel]; [lia|]. cbn [parse_loop].
  rewrite (peek_drop _ _ _ Hd). cbn [obind]. destruct Hc as [[-> Hdp]|[-> ->]].
  - rewrite (bool_decide_true (0 < depth)%nat) by done. reflexivity.
  - reflexivity.
Qed.

Lemma closes_starts depth ch rest : closes depth ch -> starts (ch :: rest).
Proof. intros [[-> _]|[-> _]]; done. Qed.

Lemma alt_seq n : n ≠ EPSILON -> seq_read n -> alt_read n.
Proof.
  intros Hne Hn depth c ch rest Hd Hc Hu.
  destruct (close_level n depth c ch rest Hn Hne Hd) as (k & n1 & Hk & Hn1 & Hd1 & Hl);
    [by apply (closes_starts _ _ rest Hc)|lia|].
  exists n1. split_and!; [lia|lia|]. intros fuel Hf. destruct (Hl fuel Hf) as (c1 & -> & Hsp & Hcc).
  rewrite (close_turn _ _ _ _ ch rest); [done|by rewrite Hsp|done|lia].
Qed.

Lemma alt_epsilon : alt_read EPSILON.
Proof.
  intros depth c ch rest Hd Hc Hu Hu1. simpl in *. exists (nout c). split_and!; [unfold used; lia|done|].
  intros fuel Hf. rewrite (close_turn _ _ _ _ ch rest) by (done || lia).
  rewrite (concatenate_eq _ _ []) by (done || (unfold used in *; simpl in *; lia)). simpl.
  by rewrite !Nat.add_0_r.
Qed.

Lemma alt_alternation l r :
  l ≠ EPSILON -> r ≠ EPSILON -> seq_read l -> alt_read r -> alt_read (ALTERNATION l r).
Proof.
  intros Hle Hre Hl Hr depth c ch rest Hd Hc Hu. cbn [print_node] in *.
  rewrite <- !app_assoc in Hd. rewrite !length_app in Hu |- *. simpl length in Hu |- *.
  destruct (close_level l depth c (chr "|") (print_node r ++ ch :: rest) Hl Hle Hd) as
    (k & n1 & Hk & Hn1 & Hd1 & Hl1); [done|lia|].
  pose proof (drop_head _ _ _ Hd1) as [_ Hd2].
  destruct (Hr depth (mkCtx (sp c + length (print_node l) + 1) (l :: stack c) n1) ch rest) as
    (n2 & Hn2 & Hn2' & Hl2); simpl.
  - by rewrite Nat.add_1_r.
  - done.
  - unfold used. simpl. lia.
  - unfold used. simpl. lia.
  - specialize (Hn2' Hre). unfold used in Hn2, Hn2'. simpl in Hn2, Hn2', Hl2.
    exists (n2 + 2)%nat. split_and!; [lia|lia|]. intros fuel Hf.
    destruct (Hl1 fuel ltac:(lia)) as (c1 & -> & Hsp & Hcc).
    replace (fuel - k)%nat with (S (fuel - k - 1)) by lia. cbn [parse_loop].
    rewrite Hsp, (peek_drop _ _ _ Hd1). cbn [obind].
    transitivity (let! c := concatenate cap (length (stack c)) (move_sp 1 c1) in
                  let! c := parse_loop pat cap (fuel - k - 1) (length (stack c)) depth c in alternate cap c);
      [reflexivity|].
    rewrite Hcc. cbn [obind stack length]. rewrite Hl2 by lia. cbn [obind].
    unfold alternate, consume. cbn [stack nout sp].
    rewrite (bool_decide_false (l = EPSILON)), (bool_decide_false (r = EPSILON)) by done.
    cbn. rewrite push_eq by (unfold used; simpl; lia). cbn.
    do 2 f_equal; lia.
Qed.

Lemma reads n :
  (printable Piece n -> piece_read n) /\ (printable Concat n -> seq_read n) /\
  (printable Alt n -> alt_read n).
Proof.
  assert (Hsingle : forall n, pieces n = [n] -> n ≠ EPSILON -> piece_read n -> seq_read n /\ alt_read n).
  { intros m Hp Hne Hm. pose proof (seq_single m Hp Hm). split; [done|by apply alt_seq]. }
  induction n as [|ch| | | |l IHl r IHr|l IHl r IHr|nmin nmax greedy q IHq| | |m IHm];
    try (split_and!; intros Hn; destruct Hn as []; fail);
    try (split_and!; intros Hn; first [apply piece_reads|apply Hsingle, piece_reads]; done).
  - split_and!; try done. intros _. apply alt_epsilon.
  - assert (Hs : forall sh, printable sh (CONCATENATION l r) -> seq_read (CONCATENATION l r)).
    { intros sh (_ & Hl & Hr). apply seq_concat; [by apply IHl|by apply IHr|].
      intros rest. apply (print_starts _ Concat); [done|]. by intros ->. }
    split_and!; intros Hn; [by destruct Hn|eauto|apply alt_seq; eauto].
  - split_and!; intros (He & Hl & Hr & Hne); try done.
    apply alt_alternation; [by intros ->|done|by apply IHl|by apply IHr].
  - assert (Hp : forall sh, printable sh (QUANTIFIER nmin nmax greedy q) -> piece_read (QUANTIFIER nmin nmax greedy q)).
    { intros sh Hn. apply piece_reads; [done| |by destruct sh]. intros ???? [= -> -> -> ->].
      apply IHq. apply Hn. }
    split_and!; intros Hn; [eauto|apply Hsingle; eauto..].
  - assert (Hp : forall sh, printable sh (CAPTURE m) -> piece_read (CAPTURE m)).
    { intros sh Hn. apply piece_reads; [|done|by destruct sh]. intros ? [= ->]. by apply IHm. }
    split_and!; intros Hn; [eauto|apply Hsingle; eauto..].
Qed.

End Reading.

(** C38: the parser reads back what the printer writes: parsing the text of a printable node
    gives the node. Printable are the nodes without character classes, in the form that the
    parser builds: concatenations and alternations nested to the right, an empty node only
    alone between parentheses, characters other than the terminator, and the bounds of a
    quantifier in order and in int. *)
Theorem parse_print_roundtrip n :
  printable Alt n -> n ≠ EPSILON -> cregex_parse true (print_node n) = Ok n.
Proof.
  intros Hn Hne. unfold cregex_parse, parse_with_nodes, parse_context. cbn [stack length].
  assert (Hlen : (0 < length (print_node n))%nat).
  { pose proof (print_starts n Alt [] Hn Hne) as Hs. rewrite app_nil_r in Hs.
    destruct (print_node n); [done|simpl; lia]. }
  destruct (proj2 (proj2 (reads (cstring (print_node n)) (estimate_nodes (print_node n)) n)) Hn 0%nat
    (mkCtx 0 [] 0) 0 []) as (nout' & _ & _ & Hl).
  - done.
  - by right.
  - unfold used, estimate_nodes. simpl. lia.
  - unfold used, estimate_nodes. simpl. lia.
  - cbn [stack length] in Hl. rewrite Hl; [done|]. unfold cstring. rewrite length_app. simpl. lia.
Qed.

Lemma parse_print_roundtrip_witness :
  print_node (ALTERNATION (CONCATENATION (CHARACTER 42) (QUANTIFIER 2 (-1) false ANY_CHARACTER))
    (CAPTURE EPSILON)) = str "\*.{2,}?|()" /\
  cregex_parse true (print_node (ALTERNATION (CONCATENATION (CHARACTER 42)
    (QUANTIFIER 2 (-1) false ANY_CHARACTER)) (CAPTURE EPSILON))) =
  Ok (ALTERNATION (CONCATENATION (CHARACTER 42) (QUANTIFIER 2 (-1) false ANY_CHARACTER)) (CAPTURE EPSILON)).
Proof.
  split; [vm_compute; reflexivity|].
  apply parse_print_roundtrip; [|discriminate]. simpl. unfold is_char. split_and!; (done || lia).
Defined.
