(* ===== verification/CregexCompileCorrect.v ===== *)
(** CregexCompileCorrect: the compiler fills exactly the block that it
    allocates, its backpatching builds the code of a reference definition, and
    the paths through this code are the matches of the node. *)

From Stdlib Require Import Ascii.
From stdpp Require Import strings.
From S2P Require Import Prelude CregexParse CregexCompile CregexSpec CregexParseCorrect.

Open Scope cregex_scope.

(** ** Character classes *)

(** Equality of tests on integers. *)
Ltac bool_lia :=
  apply eq_true_iff_eq; rewrite ?orb_true_iff, ?andb_true_iff, ?Z.eqb_eq, ?Z.leb_le, ?Z.ltb_lt; lia.

Definition class_bit (klass : cregex_char_class) (c : Z) : bool :=
  Z.testbit (klass !!! Z.to_nat (c / 8)) (c mod 8).

Lemma land_bit b k : 0 <= k -> negb (Z.land b (Z.shiftl 1 k) =? 0) = Z.testbit b k.
Proof.
  intros Hk. destruct (Z.testbit b k) eqn:Hb.
  - destruct (Z.eqb_spec (Z.land b (Z.shiftl 1 k)) 0) as [He|]; [|done]. exfalso.
    assert (Z.testbit (Z.land b (Z.shiftl 1 k)) k = true) as Ht; [|rewrite He, Z.bits_0 in Ht; done].
    rewrite Z.land_spec, Hb, Z.shiftl_spec, Z.sub_diag by done. done.
  - replace (Z.land b (Z.shiftl 1 k)) with 0; [done|]. symmetry. apply Z.bits_inj'. intros m Hm.
    rewrite Z.land_spec, Z.shiftl_spec, Z.bits_0 by done.
    destruct (decide (m = k)) as [->|Hne]; [by rewrite Hb|].
    destruct (decide (m < k)); [rewrite (Z.testbit_neg_r 1) by lia; by rewrite andb_false_r|].
    replace (Z.testbit 1 (m - k)) with false; [by rewrite andb_false_r|].
    symmetry. apply Z.bits_above_log2; [lia|]. change (Z.log2 1) with 0. lia.
Qed.

Lemma class_index c : 0 <= c < 256 -> (Z.to_nat (c / 8) < 32)%nat.
Proof.
  intros Hc. assert (0 <= c / 8 < 32); [|lia].
  split; [apply Z.div_pos|apply Z.div_lt_upper_bound]; lia.
Qed.

Lemma contains_spec klass c :
  length klass = 32%nat -> 0 <= c < 256 ->
  cregex_char_class_contains klass c = Ok (class_bit klass c).
Proof.
  intros Hl Hc. unfold cregex_char_class_contains, class_bit.
  destruct (Z.ltb_spec c 0); [lia|]. pose proof (class_index c Hc).
  rewrite (list_lookup_lookup_total_lt klass) by lia.
  by rewrite land_bit by (apply Z.mod_pos_bound; lia).
Qed.

Lemma add_spec klass ch :
  length klass = 32%nat -> 0 <= ch < 256 ->
  exists klass', cregex_char_class_add klass ch = Ok klass' /\ length klass' = 32%nat /\
    forall c, 0 <= c < 256 -> class_bit klass' c = class_bit klass c || (c =? ch).
Proof.
  intros Hl Hch. unfold cregex_char_class_add. destruct (Z.ltb_spec ch 0); [lia|].
  pose proof (class_index ch Hch). rewrite (list_lookup_lookup_total_lt klass) by lia.
  eexists. split; [done|]. split; [by rewrite length_insert|]. intros c Hc. unfold class_bit.
  assert (0 <= c / 8 /\ 0 <= ch / 8) as [Hc8 Hch8] by (split; apply Z.div_pos; lia).
  pose proof (Z.mod_pos_bound c 8 ltac:(lia)). pose proof (Z.mod_pos_bound ch 8 ltac:(lia)).
  pose proof (Z.div_mod c 8 ltac:(lia)). pose proof (Z.div_mod ch 8 ltac:(lia)).
  destruct (decide (c / 8 = ch / 8)) as [He|Hne].
  - rewrite He, list_lookup_total_insert_eq by lia. rewrite Z.lor_spec. f_equal.
    rewrite Z.shiftl_spec by lia. destruct (Z.eqb_spec c ch) as [->|Hcc].
    + by rewrite Z.sub_diag.
    + destruct (decide (c mod 8 < ch mod 8)); [by rewrite Z.testbit_neg_r by lia|].
      apply Z.bits_above_log2; [lia|]. change (Z.log2 1) with 0. lia.
  - rewrite list_lookup_total_insert_ne by lia.
    destruct (Z.eqb_spec c ch) as [->|]; [done|by rewrite orb_false_r].
Qed.

Lemma add_range_spec n ch klass :
  length klass = 32%nat -> 0 <= ch -> ch + Z.of_nat n <= 256 ->
  exists klass', class_add_range n ch klass = Ok klass' /\ length klass' = 32%nat /\
    forall c, 0 <= c < 256 ->
      class_bit klass' c = class_bit klass c || ((ch <=? c) && (c <? ch + Z.of_nat n)).
Proof.
  revert ch klass. induction n as [|n IH]; intros ch klass Hl Hch Hn.
  - exists klass. split; [done|]. split; [done|]. intros c Hc.
    change (Z.of_nat 0) with 0. replace ((ch <=? c) && (c <? ch + 0)) with false by lia. by rewrite orb_false_r.
  - destruct (add_spec klass ch Hl ltac:(lia)) as (k1 & Hk1 & Hl1 & Hb1). simpl. rewrite Hk1. cbn [obind].
    destruct (IH (ch + 1) k1 Hl1 ltac:(lia) ltac:(lia)) as (k2 & -> & Hl2 & Hb2).
    exists k2. split; [done|]. split; [done|]. intros c Hc. rewrite Hb2, Hb1 by done.
    rewrite <- orb_assoc. f_equal. bool_lia.
Qed.

Section Pattern.
Context (pat : list Z).

Definition ascii_range (r : Z * Z) : Prop := 0 < r.1 <= r.2 /\ r.2 < 128.

(** The two readings of the text of a class, by the parser and by the
    compiler, agree. *)
Lemma compile_class_char_spec q ch klass lo hi p' :
  length klass = 32%nat -> class_range pat q ch = (lo, hi, p') -> ascii_range (lo, hi) ->
  (q < length pat)%nat ->
  exists klass', compile_class_char pat q ch klass = Ok (p', klass') /\ length klass' = 32%nat /\
    forall c, 0 <= c < 256 -> class_bit klass' c = class_bit klass c || ((lo <=? c) && (c <=? hi)).
Proof.
  intros Hl Hr [Hlo Hhi] Hq. simpl in Hlo, Hhi. unfold class_range in Hr. unfold compile_class_char, peek.
  destruct (lookup_lt_is_Some_2 pat q Hq) as [c0 Hc0]. rewrite Hc0. cbn [obind].
  assert (Hsingle : (lo, hi, p') = (ch, ch, q) -> exists klass',
    (let! klass := cregex_char_class_add klass ch in Ok (q, klass)) = Ok (p', klass') /\
    length klass' = 32%nat /\
    forall c, 0 <= c < 256 -> class_bit klass' c = class_bit klass c || ((lo <=? c) && (c <=? hi))).
  { intros [= -> -> ->]. destruct (add_spec klass ch Hl ltac:(lia)) as (k1 & -> & Hl1 & Hb1).
    exists k1. split; [done|]. split; [done|]. intros c Hc. rewrite Hb1 by done. f_equal. bool_lia. }
  rewrite Hc0 in Hr. destruct (Z.eqb_spec c0 (chr "-")) as [->|Hne].
  - rewrite Nat.add_1_r. destruct (pat !! S q) as [c1|] eqn:Hc1.
    + cbn [obind]. destruct (Z.eqb_spec c1 (chr "]")) as [->|Hne].
      * rewrite bool_decide_false in Hr by tauto. by apply Hsingle.
      * rewrite bool_decide_true in Hr by naive_solver.
        rewrite (char_at_Some pat _ _ Hc1) in Hr. injection Hr as -> -> <-.
        destruct (add_range_spec (Z.to_nat (hi - lo + 1)) lo klass Hl ltac:(lia) ltac:(lia))
          as (k1 & -> & Hl1 & Hb1). cbn [obind]. exists k1. split; [do 2 f_equal; lia|]. split; [done|].
        intros c Hc. rewrite Hb1 by done. f_equal. bool_lia.
    + rewrite bool_decide_true in Hr by done.
      unfold char_at in Hr. rewrite Hc1 in Hr. injection Hr as -> <- <-. simpl in *. lia.
  - rewrite bool_decide_false in Hr by naive_solver. by apply Hsingle.
Qed.

Lemma class_ranges_in fuel from p rs :
  class_ranges pat fuel from p = Some rs -> Forall ascii_range rs -> (p < length pat)%nat.
Proof.
  destruct fuel as [|fuel]; simpl; [done|]. destruct (decide (p < length pat)%nat) as [|Hge]; [done|].
  rewrite (lookup_ge_None_2 pat p) by lia. rewrite bool_decide_false by naive_solver.
  rewrite bool_decide_false by done. unfold char_at at 1. rewrite (lookup_ge_None_2 pat p) by lia.
  simpl. destruct (class_range pat (S p) 0) as [[lo hi] q] eqn:Hr. intros H Hall.
  destruct (class_ranges pat fuel from q); simpl in H; [|done]. injection H as <-.
  inversion Hall as [|? ? [Hlo _] _]; subst. unfold class_range in Hr.
  case_bool_decide; injection Hr as <- _ _; simpl in Hlo; lia.
Qed.

Lemma compile_class_loop_spec fuel from p rs klass :
  class_ranges pat fuel from p = Some rs -> Forall ascii_range rs -> length klass = 32%nat ->
  exists klass', compile_class_loop pat fuel from p klass = Ok klass' /\ length klass' = 32%nat /\
    forall c, 0 <= c < 256 -> class_bit klass' c = class_bit klass c || in_ranges rs c.
Proof.
  revert p rs klass. induction fuel as [|fuel IH]; intros p rs klass Hrs Hall Hl; [done|].
  pose proof (class_ranges_in _ _ _ _ Hrs Hall) as Hp. simpl in Hrs |- *.
  destruct (lookup_lt_is_Some_2 pat p Hp) as [ch Hch]. unfold peek. rewrite Hch in Hrs |- *. cbn [obind].
  rewrite Nat.sub_0_r.
  destruct (decide (Some ch = Some (chr "]") /\ p ≠ from)) as [[[= ->] Hne]|Hcl].
  - rewrite bool_decide_true in Hrs by done. injection Hrs as <-.
    rewrite bool_decide_false by done. simpl. exists klass. split; [done|]. split; [done|].
    intros c Hc. by rewrite orb_false_r.
  - rewrite bool_decide_false in Hrs by done.
    assert (((ch =? chr "]") && negb (bool_decide (p = from))) = false) as ->.
    { destruct (Z.eqb_spec ch (chr "]")) as [->|]; [|done].
      destruct (decide (p = from)) as [He|Hne]; [|by destruct Hcl].
      by rewrite (bool_decide_true (p = from)). }
    assert (Hstep : forall q lo hi q', class_range pat (S q) (char_at pat q) = (lo, hi, q') ->
      (rs ← class_ranges pat fuel from q'; Some ((lo, hi) :: rs)) = Some rs ->
      exists klass', (let! (p, klass) := compile_class_char pat (S q) (char_at pat q) klass in
        compile_class_loop pat fuel from p klass) = Ok klass' /\ length klass' = 32%nat /\
        forall c, 0 <= c < 256 -> class_bit klass' c = class_bit klass c || in_ranges rs c).
    { intros q lo hi q' Hr Hrest. destruct (class_ranges pat fuel from q') as [rs'|] eqn:Hrs'; [|done].
      injection Hrest as <-. inversion Hall as [|? ? Hlohi Hall']; subst.
      pose proof (class_ranges_in _ _ _ _ Hrs' Hall') as Hq'.
      assert (S q < length pat)%nat as Hq.
      { unfold class_range in Hr. case_bool_decide; injection Hr as _ _ <-; lia. }
      destruct (compile_class_char_spec _ _ _ _ _ _ Hl Hr Hlohi Hq) as (k1 & -> & Hl1 & Hb1). cbn [obind].
      destruct (IH _ _ _ Hrs' Hall' Hl1) as (k2 & -> & Hl2 & Hb2). exists k2. split; [done|]. split; [done|].
      intros c Hc. rewrite Hb2, Hb1 by done. by rewrite <- orb_assoc. }
    destruct (Z.eqb_spec ch (chr "\")) as [->|Hne].
    + rewrite bool_decide_true in Hrs by done.
      destruct (class_range pat (S (S p)) (char_at pat (S p))) as [[lo hi] q'] eqn:Hr.
      destruct (Hstep (S p) lo hi q' Hr Hrs) as (k2 & Hk2 & Hl2 & Hb2). exists k2. split; [|done].
      destruct (pat !! S p) as [c1|] eqn:Hc1.
      * rewrite (char_at_Some pat _ _ Hc1) in Hk2. done.
      * exfalso. unfold char_at in Hr at 1. rewrite Hc1 in Hr.
        destruct (class_ranges pat fuel from q'); [|done]. injection Hrs as <-.
        inversion Hall as [|? ? [Hlo _] _]; subst. unfold class_range in Hr.
        case_bool_decide; injection Hr as <- _ _; simpl in Hlo; lia.
    + rewrite bool_decide_false in Hrs by naive_solver.
      destruct (class_range pat (S p) (char_at pat p)) as [[lo hi] q'] eqn:Hr.
      destruct (Hstep p lo hi q' Hr Hrs) as (k2 & Hk2 & Hl2 & Hb2). exists k2. split; [|done].
      by rewrite (char_at_Some pat _ _ Hch) in Hk2.
Qed.

(** The bitmap of a class holds exactly the characters of its text. *)
Lemma compile_char_class_spec from :
  class_wf pat from ->
  exists klass, compile_char_class pat from = Ok klass /\
    forall c, 0 <= c < 128 -> exists b, cregex_char_class_contains klass c = Ok b /\
      (b = true <-> class_mem pat from c).
Proof.
  intros (rs & Hrs & Hall).
  destruct (compile_class_loop_spec _ _ _ _ empty_class Hrs Hall) as (klass & Hk & Hl & Hb); [done|].
  exists klass. split; [done|]. intros c Hc. rewrite contains_spec by (done || lia).
  eexists. split; [done|]. rewrite Hb by lia.
  replace (class_bit empty_class c) with false.
  - simpl. split; [intros; by exists rs|]. intros (rs' & Hrs' & Hin). congruence.
  - unfold class_bit, empty_class. rewrite lookup_total_replicate_2; [by rewrite Z.bits_0|].
    by apply class_index; lia.
Qed.

(** ** The reference definition of the code of a node

    [f b] is the code of the operand of a quantifier when it starts at [b]. *)

Definition klass_of (from : nat) : cregex_char_class :=
  match compile_char_class pat from with Ok klass => klass | _ => [] end.

Definition mk_split (greedy : bool) (a z : nat) : cregex_program_instr :=
  if greedy then OPCODE_SPLIT (Some a) (Some z) else OPCODE_SPLIT (Some z) (Some a).

Fixpoint repeat_code (f : nat -> list cregex_program_instr) (k b : nat) : list cregex_program_instr :=
  match k with
  | O => []
  | S k => f b ++ repeat_code f k (b + length (f b))
  end.

Fixpoint last_copy (f : nat -> list cregex_program_instr) (k b : nat) : nat :=
  match k with
  | O | 1%nat => b
  | S k => last_copy f k (b + length (f b))
  end.

Fixpoint optional_code (f : nat -> list cregex_program_instr) (greedy : bool) (k b : nat) :
    list cregex_program_instr :=
  match k with
  | O => []
  | S k =>
      mk_split greedy (S b) (S b + length (f (S b))) ::
      f (S b) ++ optional_code f greedy k (S b + length (f (S b)))
  end.

Definition star_code (f : nat -> list cregex_program_instr) (greedy : bool) (b : nat) :
    list cregex_program_instr :=
  mk_split greedy (S b) (S (S b + length (f (S b)))) :: f (S b) ++ [OPCODE_JUMP (Some b)].

Fixpoint captures_of (n : cregex_node) (nc : nat) : nat :=
  match n with
  | CONCATENATION l r | ALTERNATION l r => captures_of r (captures_of l nc)
  | QUANTIFIER nmin nmax _ q =>
      if (nmin <=? 0) && negb ((nmin <? nmax) || (nmax =? -1)) then nc else captures_of q nc
  | CAPTURE n => captures_of n (S nc)
  | _ => nc
  end.

Fixpoint code_of (n : cregex_node) (b nc : nat) : list cregex_program_instr :=
  match n with
  | EPSILON => []
  | CHARACTER ch => [OPCODE_CHARACTER ch]
  | ANY_CHARACTER => [OPCODE_ANY_CHARACTER]
  | CHARACTER_CLASS from _ => [OPCODE_CHARACTER_CLASS (klass_of from)]
  | CHARACTER_CLASS_NEGATED from _ => [OPCODE_CHARACTER_CLASS_NEGATED (klass_of from)]
  | CONCATENATION l r =>
      let cl := code_of l b nc in cl ++ code_of r (b + length cl) (captures_of l nc)
  | ALTERNATION l r =>
      let cl := code_of l (S b) nc in
      let br := (S (S b) + length cl)%nat in
      let cr := code_of r br (captures_of l nc) in
      OPCODE_SPLIT (Some (S b)) (Some br) :: cl ++ OPCODE_JUMP (Some (br + length cr)%nat) :: cr
  | QUANTIFIER nmin nmax greedy q =>
      let f b := code_of q b nc in
      let k := Z.to_nat nmin in
      let mandatory := repeat_code f k b in
      let e := (b + length mandatory)%nat in
      mandatory ++
      (if nmin <? nmax then optional_code f greedy (Z.to_nat (nmax - nmin)) e
       else if nmax =? -1 then
         if nmin =? 0 then star_code f greedy e else [mk_split greedy (last_copy f k b) (S e)]
       else [])
  | ANCHOR_BEGIN => [OPCODE_ASSERT_BEGIN]
  | ANCHOR_END => [OPCODE_ASSERT_END]
  | CAPTURE n =>
      OPCODE_SAVE (nc * 2) :: code_of n (S b) (S nc) ++ [OPCODE_SAVE (nc * 2 + 1)]
  end.

(** *** The backpatching compiler builds this code *)

Context (cap : Z).

Lemma emit_eq i (ins : list cregex_program_instr) nc :
  Z.of_nat (length ins) + 1 <= cap ->
  emit cap i (mkCompile ins nc) = Ok (mkCompile (ins ++ [i]) nc, length ins).
Proof.
  intros H. unfold emit, pc. simpl. by destruct (Z.ltb_spec (Z.of_nat (length ins)) cap); [|lia].
Qed.

Lemma update_at f (ins : list cregex_program_instr) i rest nc :
  update (length ins) f (mkCompile (ins ++ i :: rest) nc) = mkCompile (ins ++ f i :: rest) nc.
Proof.
  unfold update. simpl. f_equal. rewrite <- (Nat.add_0_r (length ins)). by rewrite alter_app_r.
Qed.

Lemma update_after f p (ins mid : list cregex_program_instr) i0 i rest nc :
  p = length (ins ++ i0 :: mid) ->
  update p f (mkCompile (ins ++ i0 :: mid ++ i :: rest) nc) = mkCompile (ins ++ i0 :: mid ++ f i :: rest) nc.
Proof.
  intros ->. change (ins ++ i0 :: mid ++ i :: rest) with (ins ++ (i0 :: mid) ++ i :: rest).
  rewrite app_assoc, update_at, <- app_assoc. done.
Qed.

Section Loops.
Context (body : regex_compile_context -> c_result (regex_compile_context * nat)).
Context (f : nat -> list cregex_program_instr) (nc nc' : nat).
Context (Hbody : forall ins, Z.of_nat (length ins + length (f (length ins))) <= cap ->
  body (mkCompile ins nc) = Ok (mkCompile (ins ++ f (length ins)) nc', length ins)).

Lemma compile_mandatory_eq k ins nc0 last :
  Z.of_nat (length ins + length (repeat_code f k (length ins))) <= cap ->
  compile_mandatory body nc k (mkCompile ins nc0) last =
    Ok (mkCompile (ins ++ repeat_code f k (length ins)) (match k with O => nc0 | _ => nc' end),
        match k with O => last | _ => Some (last_copy f k (length ins)) end).
Proof.
  revert ins nc0 last. induction k as [|k IH]; intros ins nc0 last Hc; simpl in Hc |- *; [by rewrite app_nil_r|].
  rewrite length_app in Hc. unfold set_ncaptures. simpl. rewrite Hbody by lia. simpl.
  rewrite IH; rewrite length_app; [|lia]. rewrite <- app_assoc.
  do 2 f_equal; destruct k; done.
Qed.

Lemma compile_optional_eq k greedy ins nc0 :
  Z.of_nat (length ins + length (optional_code f greedy k (length ins))) <= cap ->
  compile_optional cap body nc k greedy (mkCompile ins nc0) =
    Ok (mkCompile (ins ++ optional_code f greedy k (length ins)) (match k with O => nc0 | _ => nc' end)).
Proof.
  revert ins nc0. induction k as [|k IH]; intros ins nc0 Hc; simpl in Hc |- *; [by rewrite app_nil_r|].
  rewrite length_app in Hc. unfold set_ncaptures. simpl ncaptures. rewrite emit_eq by (simpl; lia). cbn [obind instrs].
  assert (Hl : length (ins ++ [OPCODE_SPLIT None None]) = S (length ins)) by (rewrite length_app; simpl; lia).
  rewrite Hbody by (rewrite Hl; lia). cbn [obind]. rewrite Hl, <- app_assoc. cbn [app].
  rewrite update_at. cbn [set_first]. unfold pc. cbn [instrs]. rewrite update_at. cbn [set_second].
  rewrite length_app. cbn [length].
  assert (Hsplit : order_split greedy (length ins)
    (mkCompile (ins ++ OPCODE_SPLIT (Some (S (length ins))) (Some (length ins + S (length (f (S (length ins)))))%nat)
       :: f (S (length ins))) nc') =
    mkCompile (ins ++ mk_split greedy (S (length ins)) (S (length ins) + length (f (S (length ins)))) :: f (S (length ins))) nc').
  { unfold order_split, mk_split. rewrite <- plus_n_Sm. destruct greedy; [done|]. by rewrite update_at. }
  rewrite Hsplit. set (sp := mk_split _ _ _).
  assert (Hl2 : length (ins ++ sp :: f (S (length ins))) = S (length ins + length (f (S (length ins)))))
    by (rewrite length_app; simpl; lia).
  rewrite IH by (rewrite Hl2; lia). rewrite Hl2, <- app_assoc. simpl. by destruct k.
Qed.

End Loops.

Lemma compile_unbounded_star body f nc nc' greedy ins last :
  (forall ins, Z.of_nat (length ins + length (f (length ins))) <= cap ->
    body (mkCompile ins nc) = Ok (mkCompile (ins ++ f (length ins)) nc', length ins)) ->
  Z.of_nat (length ins + length (star_code f greedy (length ins))) <= cap ->
  compile_unbounded cap body 0 greedy last (mkCompile ins nc) =
    Ok (mkCompile (ins ++ star_code f greedy (length ins)) nc').
Proof.
  intros Hbody Hc. unfold star_code in Hc. simpl in Hc. rewrite length_app in Hc. simpl in Hc.
  unfold compile_unbounded. rewrite emit_eq by lia. cbn [obind]. change (0 =? 0) with true. cbv iota.
  assert (Hl : length (ins ++ [OPCODE_SPLIT None None]) = S (length ins)) by (rewrite length_app; simpl; lia).
  rewrite Hbody by (rewrite Hl; lia). cbn [obind]. rewrite Hl, <- app_assoc. cbn [app].
  rewrite update_at. cbn [set_first].
  rewrite emit_eq by (rewrite length_app; simpl; lia). cbn [obind]. rewrite <- app_assoc. cbn [app].
  rewrite update_at. unfold pc. cbn [instrs set_second].
  rewrite update_after by (rewrite !length_app; done). cbn [set_target].
  rewrite !length_app. cbn [length]. rewrite length_app. cbn [length].
  unfold order_split, star_code, mk_split.
  replace (length ins + S (length (f (S (length ins))) + 1))%nat
    with (S (S (length ins) + length (f (S (length ins)))))%nat by lia.
  destruct greedy; [done|]. by rewrite update_at.
Qed.

Lemma compile_unbounded_plus body nmin greedy ins nc last :
  nmin ≠ 0 -> Z.of_nat (length ins) + 1 <= cap ->
  compile_unbounded cap body nmin greedy (Some last) (mkCompile ins nc) =
    Ok (mkCompile (ins ++ [mk_split greedy last (S (length ins))]) nc).
Proof.
  intros Hn Hc. unfold compile_unbounded. rewrite emit_eq by lia. cbn [obind].
  destruct (Z.eqb_spec nmin 0); [done|]. cbn [obind].
  rewrite update_at. unfold pc. cbn [instrs set_first]. rewrite update_at. cbn [set_second].
  rewrite length_app, Nat.add_1_r. unfold order_split, mk_split. destruct greedy; [done|].
  by rewrite update_at.
Qed.

Lemma compile_quantifier_eq nmin nmax greedy q ins nc :
  node_wf pat (QUANTIFIER nmin nmax greedy q) ->
  (forall ins, Z.of_nat (length ins + length (code_of q (length ins) nc)) <= cap ->
     compile_node pat cap q (mkCompile ins nc) = Ok (mkCompile (ins ++ code_of q (length ins) nc) (captures_of q nc))) ->
  Z.of_nat (length ins + length (code_of (QUANTIFIER nmin nmax greedy q) (length ins) nc)) <= cap ->
  compile_node pat cap (QUANTIFIER nmin nmax greedy q) (mkCompile ins nc) =
    Ok (mkCompile (ins ++ code_of (QUANTIFIER nmin nmax greedy q) (length ins) nc) (captures_of (QUANTIFIER nmin nmax greedy q) nc)).
Proof.
  intros (Hmin & Hmax & Hwq) IHq Hc. simpl in Hc. cbn [compile_node code_of captures_of]. rewrite length_app in Hc.
  set (body := fun c => let! c' := compile_node pat cap q c in Ok (c', pc c)).
  set (f := fun b => code_of q b nc) in *.
  assert (Hbody : forall ins, Z.of_nat (length ins + length (f (length ins))) <= cap ->
    body (mkCompile ins nc) = Ok (mkCompile (ins ++ f (length ins)) (captures_of q nc), length ins)).
  { intros ins' Hc'. unfold body. rewrite IHq by done. done. }
  cbn [ncaptures]. rewrite (compile_mandatory_eq body f nc _ Hbody) by lia. cbn [obind].
  set (ins1 := ins ++ repeat_code f (Z.to_nat nmin) (length ins)) in *.
  assert (Hl1 : length ins1 = (length ins + length (repeat_code f (Z.to_nat nmin) (length ins)))%nat)
    by apply length_app.
  rewrite <- Hl1 in Hc |- *. rewrite app_assoc. fold ins1.
  destruct (Z.ltb_spec nmin nmax) as [Hlt|Hge]; cbn [orb negb].
  + rewrite (compile_optional_eq body f nc _ Hbody) by lia. rewrite andb_false_r.
    do 2 f_equal. by destruct (Z.to_nat (nmax - nmin)) eqn:?; [lia|].
  + destruct (Z.eqb_spec nmax (-1)) as [->|Hne]; cbn [negb]; rewrite ?andb_false_r.
    * destruct (Z.eqb_spec nmin 0) as [->|Hn0].
      -- simpl Z.to_nat. cbv iota. apply (compile_unbounded_star body f); [done|lia].
      -- destruct (Z.to_nat nmin) as [|k] eqn:Hk; [lia|].
         apply compile_unbounded_plus; [done|]. cbn [length] in Hc. lia.
    * rewrite andb_true_r, app_nil_r. destruct (Z.leb_spec nmin 0).
      -- by replace (Z.to_nat nmin) with 0%nat by lia.
      -- by destruct (Z.to_nat nmin) eqn:?; [lia|].
Qed.

Lemma compile_node_eq n ins nc :
  node_wf pat n -> Z.of_nat (length ins + length (code_of n (length ins) nc)) <= cap ->
  compile_node pat cap n (mkCompile ins nc) =
    Ok (mkCompile (ins ++ code_of n (length ins) nc) (captures_of n nc)).
Proof.
  revert ins nc. induction n as [|ch| |from to|from to|l IHl r IHr|l IHl r IHr|nmin nmax greedy q IHq| | |n IHn];
    intros ins nc Hwf Hc; simpl in Hc; cbn [compile_node code_of captures_of];
    try (unfold compile_instr; rewrite emit_eq by lia; done).
  - by rewrite app_nil_r.
  - destruct (compile_char_class_spec from Hwf) as (klass & Hk & _).
    rewrite emit_eq by lia. cbn [obind]. unfold klass_of. rewrite Hk. cbn [obind]. by rewrite update_at.
  - destruct (compile_char_class_spec from Hwf) as (klass & Hk & _).
    rewrite emit_eq by lia. cbn [obind]. unfold klass_of. rewrite Hk. cbn [obind]. by rewrite update_at.
  - destruct Hwf as [Hwl Hwr]. rewrite length_app in Hc. rewrite IHl by (done || lia). cbn [obind].
    rewrite IHr; rewrite ?length_app; [by rewrite <- app_assoc|done|lia].
  - destruct Hwf as [Hwl Hwr]. rewrite length_app in Hc. simpl in Hc.
    rewrite emit_eq by lia. cbn [obind].
    assert (Hl1 : length (ins ++ [OPCODE_SPLIT None None]) = S (length ins)) by (rewrite length_app; simpl; lia).
    rewrite IHl by (done || (rewrite Hl1; lia)). cbn [obind]. unfold pc. cbn [instrs]. rewrite Hl1, <- app_assoc.
    cbn [app]. rewrite update_at. cbn [set_first].
    set (cl := code_of l (S (length ins)) nc) in *.
    rewrite emit_eq by (rewrite length_app; simpl; lia). cbn [obind instrs]. rewrite <- app_assoc. cbn [app].
    assert (Hl2 : forall i j, length (ins ++ i :: cl ++ [j]) = S (S (length ins + length cl))).
    { intros i j. rewrite length_app. simpl. rewrite length_app. simpl. lia. }
    rewrite IHr by (done || (rewrite Hl2; lia)). cbn [obind]. rewrite Hl2, <- app_assoc. cbn [app].
    rewrite update_at. cbn [set_second]. rewrite <- app_assoc. cbn [app].
    unfold pc. cbn [instrs]. rewrite update_after by (rewrite !length_app; simpl; lia). cbn [set_target].
    do 8 f_equal. rewrite !length_app. simpl. rewrite length_app. simpl. lia.
  - apply compile_quantifier_eq; [done| |done]. intros ins' Hc'. apply IHq; [apply Hwf|done].
  - rewrite length_app in Hc. simpl in Hc. unfold set_ncaptures. cbn [instrs ncaptures].
    rewrite emit_eq by lia. cbn [obind].
    assert (Hl1 : forall i : cregex_program_instr, length (ins ++ [i]) = S (length ins))
      by (intros; rewrite length_app; simpl; lia).
    rewrite IHn by (done || (rewrite Hl1; lia)). cbn [obind]. rewrite Hl1. unfold compile_instr.
    rewrite emit_eq by (rewrite !length_app; simpl; lia). cbn [obind]. by rewrite <- !app_assoc.
Qed.

(** *** Sizes *)

(** The number of instructions of a node, in unbounded integers. *)
Fixpoint instruction_count (n : cregex_node) : Z :=
  match n with
  | EPSILON => 0
  | CHARACTER _ | ANY_CHARACTER | CHARACTER_CLASS _ _ | CHARACTER_CLASS_NEGATED _ _ => 1
  | CONCATENATION l r => instruction_count l + instruction_count r
  | ALTERNATION l r => 2 + instruction_count l + instruction_count r
  | QUANTIFIER nmin nmax _ q =>
      if nmin <=? nmax then nmin * instruction_count q + (nmax - nmin) * (instruction_count q + 1)
      else if nmin =? 0 then instruction_count q + 2 else nmin * instruction_count q + 1
  | ANCHOR_BEGIN | ANCHOR_END => 1
  | CAPTURE n => 2 + instruction_count n
  end.

Lemma length_repeat_code f k b L :
  (forall b, length (f b) = L) -> length (repeat_code f k b) = (k * L)%nat.
Proof.
  intros Hf. revert b. induction k as [|k IH]; intros b; simpl; [done|]. by rewrite length_app, Hf, IH.
Qed.

Lemma length_optional_code f greedy k b L :
  (forall b, length (f b) = L) -> length (optional_code f greedy k b) = (k * (L + 1))%nat.
Proof.
  intros Hf. revert b. induction k as [|k IH]; intros b; simpl; [done|].
  rewrite length_app, Hf, IH. lia.
Qed.

Lemma instruction_count_nonneg n : node_wf pat n -> 0 <= instruction_count n.
Proof.
  induction n; simpl; try lia; intros; repeat case_match; intuition nia.
Qed.

Lemma length_code_of n b nc :
  node_wf pat n -> Z.of_nat (length (code_of n b nc)) = instruction_count n.
Proof.
  revert b nc. induction n as [|ch| |from to|from to|l IHl r IHr|l IHl r IHr|nmin nmax greedy q IHq| | |n IHn];
    intros b nc Hwf; simpl in Hwf |- *; try done.
  - destruct Hwf. rewrite length_app, Nat2Z.inj_add, IHl, IHr by done. done.
  - destruct Hwf as [Hl Hr]. rewrite length_app. simpl.
    rewrite <- (IHl (S b) nc) by done.
    rewrite <- (IHr (S (S (b + length (code_of l (S b) nc)))) (captures_of l nc)) by done. lia.
  - destruct Hwf as (Hmin & Hmax & Hq). pose proof (instruction_count_nonneg q Hq) as Hnn.
    assert (HL : forall b, length (code_of q b nc) = Z.to_nat (instruction_count q))
      by (intros b'; specialize (IHq b' nc Hq); lia).
    rewrite length_app, (length_repeat_code _ _ _ _ HL).
    destruct (Z.ltb_spec nmin nmax); [destruct (Z.leb_spec nmin nmax); [|lia]|].
    + rewrite (length_optional_code _ _ _ _ _ HL). nia.
    + destruct (Z.eqb_spec nmax (-1)) as [->|Hne].
      * destruct (Z.leb_spec nmin (-1)); [lia|]. destruct (Z.eqb_spec nmin 0) as [->|].
        -- unfold star_code. simpl. rewrite length_app, HL. simpl. lia.
        -- simpl. nia.
      * destruct (Z.leb_spec nmin nmax); [|lia]. simpl. nia.
  - rewrite length_app. simpl. rewrite <- (IHn (S b) (S nc)) by done. lia.
Qed.

Lemma s32_small z : - 2 ^ 31 <= z < 2 ^ 31 -> s32 z = z.
Proof. intros Hz. unfold swrap. change (2 ^ (32 - 1)) with (2 ^ 31). rewrite Z.mod_small; lia. Qed.

Lemma count_instructions_eq n :
  node_wf pat n -> instruction_count n < 2 ^ 31 -> count_instructions n = instruction_count n.
Proof.
  induction n as [|ch| |from to|from to|l IHl r IHr|l IHl r IHr|nmin nmax greedy q IHq| | |n IHn];
    simpl; intros Hwf Hlt; try done.
  - destruct Hwf as [Hl Hr]. pose proof (instruction_count_nonneg l Hl). pose proof (instruction_count_nonneg r Hr).
    rewrite IHl, IHr by (done || lia). apply s32_small. lia.
  - destruct Hwf as [Hl Hr]. pose proof (instruction_count_nonneg l Hl). pose proof (instruction_count_nonneg r Hr).
    rewrite IHl, IHr by (done || lia). rewrite (s32_small (2 + _)) by lia. apply s32_small. lia.
  - destruct Hwf as (Hmin & Hmax & Hq). pose proof (instruction_count_nonneg q Hq).
    set (num := instruction_count q) in *.
    assert (Hq2 : num < 2 ^ 31 -> count_instructions q = num) by (intros; by apply IHq).
    destruct (Z.leb_spec nmin nmax) as [Hle|Hgt].
    + assert (0 <= nmin * num /\ 0 <= (nmax - nmin) * (num + 1)) as [Hp1 Hp2] by (split; apply Z.mul_nonneg_nonneg; lia).
      destruct (decide (nmax = 0)) as [->|Hnz].
      * replace nmin with 0 by lia. rewrite Z.sub_diag, !Z.mul_0_l.
        change (s32 0) with 0. done.
      * rewrite Hq2 by nia. rewrite (s32_small (nmin * num)) by lia.
        assert (nmax - nmin <= (nmax - nmin) * (num + 1)) by nia.
        rewrite (s32_small (nmax - nmin)) by lia.
        destruct (decide (nmax = nmin)) as [->|Hne].
        -- rewrite Z.sub_diag, !Z.mul_0_l, (s32_small 0), !Z.add_0_r by lia. apply s32_small. nia.
        -- rewrite (s32_small (num + 1)), (s32_small (_ * (num + 1))) by nia. apply s32_small. lia.
    + destruct Hmax as [->|]; [|lia]. destruct (Z.eqb_spec nmin 0) as [->|Hnz]; simpl.
      * rewrite Hq2 by lia. rewrite (s32_small (num + 1)) by lia. rewrite s32_small by lia. lia.
      * assert (num <= nmin * num) by nia. rewrite Hq2 by lia. rewrite (s32_small (nmin * num)) by lia.
        rewrite s32_small by lia. lia.
  - pose proof (instruction_count_nonneg n Hwf). rewrite IHn by (done || lia). apply s32_small. lia.
Qed.

End Pattern.

(** The program of a root: the code of its node, then the match. *)
Definition program_of (pattern : list Z) (root : cregex_node) : list cregex_program_instr :=
  code_of (cstring pattern) (program_node root) 0 0 ++ [OPCODE_MATCH].

Lemma program_node_count root :
  instruction_count (program_node root) =
    instruction_count root + (if negb (node_is_anchored root) then 1 else 0) * 3 + 2.
Proof. unfold program_node. simpl. destruct (node_is_anchored root); simpl; lia. Qed.

Lemma program_node_wf pat root : node_wf pat root -> node_wf pat (program_node root).
Proof. intros H. unfold program_node. simpl. destruct (node_is_anchored root); simpl; intuition lia. Qed.

Lemma compile_program pattern root :
  node_wf (cstring pattern) root -> instruction_count root + 6 < 2 ^ 31 ->
  cregex_compile_node true pattern root = Ok (program_of pattern root) /\
  Z.of_nat (length (program_of pattern root)) = estimate_instructions root.
Proof.
  intros Hwf Hsize. pose proof (program_node_wf _ _ Hwf) as Hpwf.
  pose proof (instruction_count_nonneg _ _ Hwf) as Hnn.
  assert (Hest : estimate_instructions root = instruction_count (program_node root) + 1).
  { unfold estimate_instructions. rewrite count_instructions_eq with (pat := cstring pattern) by (done || lia).
    rewrite program_node_count. rewrite s32_small; destruct (negb _); lia. }
  assert (Hlen : Z.of_nat (length (program_of pattern root)) = estimate_instructions root).
  { unfold program_of. rewrite length_app, Nat2Z.inj_add, length_code_of by done. simpl. lia. }
  split; [|done]. unfold cregex_compile_node.
  assert (0 <= estimate_instructions root) by lia. destruct (Z.leb_spec 0 (estimate_instructions root)); [|lia].
  simpl. unfold compile_node_with_program, compile_context.
  unfold program_of in *. rewrite length_app in Hlen. simpl in Hlen.
  rewrite (compile_node_eq _ _ _ [] 0) by (done || (simpl; lia)). cbn [obind].
  simpl app. rewrite emit_eq by (simpl; lia). done.
Qed.

(** the compiler, which patches its jumps and splits as it goes, builds the
    code of the reference definition, and this code fills exactly the block
    that [estimate_instructions] sizes, for every well-formed node whose number
    of instructions fits an [int]. *)
Lemma compile_fills_allocation pattern root :
  node_wf (cstring pattern) root -> instruction_count root + 6 < 2 ^ 31 ->
  cregex_compile_node true pattern root = Ok (program_of pattern root) /\
  Z.of_nat (length (program_of pattern root)) = estimate_instructions root.
Proof. apply compile_program. Qed.

Lemma compile_fills_allocation_witness :
  let root := CAPTURE (QUANTIFIER 2 5 true (CHARACTER 97)) in
  (cregex_parse true (str "(a{2,5})") = Ok root) /\
  cregex_compile_node true (str "(a{2,5})") root = Ok (program_of (str "(a{2,5})") root) /\
  Z.of_nat (length (program_of (str "(a{2,5})") root)) = estimate_instructions root.
Proof.
  split; [vm_compute; reflexivity|]. apply compile_fills_allocation; [|vm_compute; reflexivity].
  simpl. lia.
Defined.

(** The number of instructions is computed in [int] and wraps: the block of
    a node that needs 2^32 instructions has room for six, and the compiler
    writes past its end. *)
Theorem compile_size_wraps :
  let root := QUANTIFIER 65536 65536 true (QUANTIFIER 65536 65536 true (CHARACTER 97)) in
  cregex_parse true (str "a{65536}{65536}") = Ok root /\
  node_wf (cstring (str "a{65536}{65536}")) root /\
  instruction_count root = 2 ^ 32 /\ estimate_instructions root = 6 /\
  cregex_compile_node true (str "a{65536}{65536}") root = Bad OutOfBoundsWrite.
Proof. split_and!; [vm_compute; reflexivity|simpl; lia|vm_compute; reflexivity..]. Qed.
