(* ===== verification/CregexPaths.v ===== *)
(** CregexPaths: the non-deterministic machine of the regular expression
    engine. A configuration is an instruction, a position in the string and the
    saved pointers; the paths through the code of a node are its matches. *)

From Stdlib Require Import Ascii.
From stdpp Require Import strings relations.
From S2P Require Import Prelude CregexParse CregexCompile CregexSpec CregexCompileCorrect CregexVm.

Open Scope cregex_scope.

Definition config : Type := nat * nat * list saved.

Section Paths.
Context (program : list cregex_program_instr) (s : list Z) (nmatches : nat).

(** [matches[save] = sp], when the index is in the array. *)
Definition save_at (save i : nat) (ms : list saved) : list saved :=
  if bool_decide (save < nmatches)%nat && bool_decide (save < REGEX_VM_MAX_MATCHES)%nat
  then <[save := Some i]> ms else ms.

Inductive step : config -> config -> Prop :=
  | step_char p i ms op c :
      program !! p = Some op -> s !! i = Some c -> accepts op c = Ok true ->
      step (p, i, ms) (S p, S i, ms)
  | step_first p i ms first second :
      program !! p = Some (OPCODE_SPLIT (Some first) second) -> step (p, i, ms) (first, i, ms)
  | step_second p i ms first second :
      program !! p = Some (OPCODE_SPLIT first (Some second)) -> step (p, i, ms) (second, i, ms)
  | step_jump p i ms target :
      program !! p = Some (OPCODE_JUMP (Some target)) -> step (p, i, ms) (target, i, ms)
  | step_begin p ms :
      program !! p = Some OPCODE_ASSERT_BEGIN -> step (p, 0%nat, ms) (S p, 0%nat, ms)
  | step_end p ms :
      program !! p = Some OPCODE_ASSERT_END -> step (p, length s, ms) (S p, length s, ms)
  | step_save p i ms save :
      program !! p = Some (OPCODE_SAVE save) -> step (p, i, ms) (S p, i, save_at save i ms).

Definition path : config -> config -> Prop := rtc step.

(** The code [code] is at [b] in the program. *)
Definition code_at (b : nat) (code : list cregex_program_instr) : Prop :=
  exists pre post, program = pre ++ code ++ post /\ length pre = b.

Lemma code_at_cons b i code : code_at b (i :: code) -> program !! b = Some i /\ code_at (S b) code.
Proof.
  intros (pre & rest & Hp & <-). split.
  - by rewrite Hp, lookup_app_r, Nat.sub_diag by lia.
  - exists (pre ++ [i]), rest. split; [by rewrite Hp, <- app_assoc|]. rewrite length_app. simpl. lia.
Qed.

Lemma code_at_app b c1 c2 : code_at b (c1 ++ c2) -> code_at b c1 /\ code_at (b + length c1) c2.
Proof.
  intros (pre & rest & Hp & <-). split.
  - exists pre, (c2 ++ rest). by rewrite Hp, <- !app_assoc.
  - exists (pre ++ c1), rest. by rewrite Hp, <- !app_assoc, length_app.
Qed.

(** The configurations from which a path out of a block goes on. *)
Definition outside (b n : nat) (c : config) : Prop := (c.1.1 < b \/ b + n <= c.1.1)%nat.

(** Two arrays of saved pointers that agree below [x]. *)
Definition same_below (x : nat) (ms ms' : list saved) : Prop :=
  length ms' = length ms /\ forall k, (k < x)%nat -> ms' !! k = ms !! k.

Lemma same_below_refl x ms : same_below x ms ms.
Proof. done. Qed.

Lemma same_below_trans x y ms1 ms2 ms3 :
  (x <= y)%nat -> same_below x ms1 ms2 -> same_below y ms2 ms3 -> same_below x ms1 ms3.
Proof. intros Hle [Hl1 H1] [Hl2 H2]. split; [congruence|]. intros k Hk. rewrite H2 by lia. by apply H1. Qed.

Lemma same_below_save x k i ms : (x <= k)%nat -> same_below x ms (save_at k i ms).
Proof.
  intros Hk. unfold save_at. destruct (_ && _); [|done].
  split; [by rewrite length_insert|]. intros j Hj. by rewrite list_lookup_insert_ne by lia.
Qed.

Lemma length_save_at k i ms : length (save_at k i ms) = length ms.
Proof. unfold save_at. destruct (_ && _); [apply length_insert|done]. Qed.

Lemma lookup_save_at k i ms :
  (k < nmatches)%nat -> (k < REGEX_VM_MAX_MATCHES)%nat -> (k < length ms)%nat ->
  save_at k i ms !! k = Some (Some i).
Proof.
  intros H1 H2 H3. unfold save_at. rewrite !bool_decide_true by done. simpl. by apply list_lookup_insert_eq.
Qed.

Lemma lookup_save_at_ne k i ms j : j ≠ k -> save_at k i ms !! j = ms !! j.
Proof. intros Hj. unfold save_at. destruct (_ && _); [by apply list_lookup_insert_ne|done]. Qed.

(** ** What a block of code does

    [code_does f x R]: wherever [f b] is in the program, the paths through it
    relate positions by [R] and keep the saved pointers below [x]. *)
Record code_does (f : nat -> list cregex_program_instr) (x : nat) (R : nat -> nat -> Prop) : Prop := {
  does_complete b i j ms :
    code_at b (f b) -> R i j -> exists ms', path (b, i, ms) (b + length (f b), j, ms')%nat;
  does_sound b i ms k fin :
    code_at b (f b) -> outside b (length (f b)) fin -> nsteps step k (b, i, ms) fin ->
    exists j ms' k', (k' <= k)%nat /\ R i j /\ same_below x ms ms' /\
      nsteps step k' (b + length (f b), j, ms')%nat fin
}.

Lemma path_step c1 c2 c3 : step c1 c2 -> path c2 c3 -> path c1 c3.
Proof. apply rtc_l. Qed.

Lemma nsteps_outside b n i ms k fin :
  outside b (S n) fin -> nsteps step k (b, i, ms) fin ->
  exists k' c, k = S k' /\ step (b, i, ms) c /\ nsteps step k' c fin.
Proof.
  intros Ho H. destruct k as [|k].
  - inversion H; subst. unfold outside in Ho. simpl in Ho. lia.
  - inversion H; subst. eauto.
Qed.

Lemma outside_sub b n b' n' fin :
  outside b n fin -> (b <= b')%nat -> (b' + n' <= b + n)%nat -> outside b' n' fin.
Proof. unfold outside. lia. Qed.

Lemma step_split_iff b greedy a z i ms c :
  program !! b = Some (mk_split greedy a z) ->
  step (b, i, ms) c <-> c = (a, i, ms) \/ c = (z, i, ms).
Proof.
  intros Hb. unfold mk_split in Hb. split.
  - intros H. destruct greedy; inversion H; simplify_eq; auto; by destruct op.
  - destruct greedy; intros [-> | ->]; eauto using step.
Qed.

Lemma step_jump_iff b t i ms c :
  program !! b = Some (OPCODE_JUMP (Some t)) -> step (b, i, ms) c <-> c = (t, i, ms).
Proof.
  intros Hb. split; [|intros ->; by apply step_jump].
  intros H. inversion H; simplify_eq; try done.
Qed.

Lemma does_nil x : code_does (fun _ => []) x eq.
Proof.
  split.
  - intros b i j ms _ <-. exists ms. rewrite Nat.add_0_r. apply rtc_refl.
  - intros b i ms k fin _ _ H. exists i, ms, k. simpl. by rewrite Nat.add_0_r.
Qed.

Definition char_op (op : cregex_program_instr) : bool :=
  match op with
  | OPCODE_CHARACTER _ | OPCODE_ANY_CHARACTER | OPCODE_CHARACTER_CLASS _
  | OPCODE_CHARACTER_CLASS_NEGATED _ => true
  | _ => false
  end.

Lemma does_char op x :
  char_op op = true ->
  code_does (fun _ => [op]) x (fun i j => (exists c, s !! i = Some c /\ accepts op c = Ok true) /\ j = S i).
Proof.
  intros Hop. split.
  - intros b i j ms [Hb _]%code_at_cons [(c & Hc & Hacc) ->]. exists ms. simpl. rewrite Nat.add_1_r.
    apply rtc_once. by eapply step_char.
  - intros b i ms k fin [Hb _]%code_at_cons Ho H.
    apply (nsteps_outside b 0) in H as (k' & c & -> & Hstep & H); [|done].
    inversion Hstep; simplify_eq; try done. exists (S i), ms, k'. simpl. rewrite Nat.add_1_r.
    split_and!; eauto using same_below_refl.
Qed.

Lemma does_begin x : code_does (fun _ => [OPCODE_ASSERT_BEGIN]) x (fun i j => i = 0%nat /\ j = i).
Proof.
  split.
  - intros b i j ms [Hb _]%code_at_cons [-> ->]. exists ms. simpl. rewrite Nat.add_1_r.
    apply rtc_once. by constructor.
  - intros b i ms k fin [Hb _]%code_at_cons Ho H.
    apply (nsteps_outside b 0) in H as (k' & c & -> & Hstep & H); [|done].
    inversion Hstep; simplify_eq; try done. exists 0%nat, ms, k'. simpl. rewrite Nat.add_1_r.
    split_and!; eauto using same_below_refl.
Qed.

Lemma does_end x : code_does (fun _ => [OPCODE_ASSERT_END]) x (fun i j => i = length s /\ j = i).
Proof.
  split.
  - intros b i j ms [Hb _]%code_at_cons [-> ->]. exists ms. simpl. rewrite Nat.add_1_r.
    apply rtc_once. by constructor.
  - intros b i ms k fin [Hb _]%code_at_cons Ho H.
    apply (nsteps_outside b 0) in H as (k' & c & -> & Hstep & H); [|done].
    inversion Hstep; simplify_eq; try done. exists (length s), ms, k'. simpl. rewrite Nat.add_1_r.
    split_and!; eauto using same_below_refl.
Qed.

Lemma does_save save x : (x <= save)%nat -> code_does (fun _ => [OPCODE_SAVE save]) x eq.
Proof.
  intros Hx. split.
  - intros b i j ms [Hb _]%code_at_cons <-. eexists. simpl. rewrite Nat.add_1_r.
    apply rtc_once. by apply step_save.
  - intros b i ms k fin [Hb _]%code_at_cons Ho H.
    apply (nsteps_outside b 0) in H as (k' & c & -> & Hstep & H); [|done].
    inversion Hstep; simplify_eq; try done. exists i, (save_at save i ms), k'. simpl. rewrite Nat.add_1_r.
    split_and!; eauto using same_below_save.
Qed.

Lemma does_weaken f x y R : (x <= y)%nat -> code_does f y R -> code_does f x R.
Proof.
  intros Hle [Hc Hs]. split; [done|]. intros b i ms k fin Hat Ho H.
  destruct (Hs b i ms k fin Hat Ho H) as (j & ms' & k' & Hk & HR & [Hl Hsame] & H').
  exists j, ms', k'. split; [done|]. split; [done|]. split; [|done]. split; [done|]. intros m Hm. apply Hsame. lia.
Qed.

Lemma does_iff f x R R' : (forall i j, R i j <-> R' i j) -> code_does f x R -> code_does f x R'.
Proof.
  intros HR [Hc Hs]. split.
  - intros b i j ms Hat Hij. by apply Hc, HR.
  - intros b i ms k fin Hat Ho H. destruct (Hs b i ms k fin Hat Ho H) as (j & ms' & k' & ? & ?%HR & ? & ?).
    by exists j, ms', k'.
Qed.

Lemma does_seq f g x R1 R2 :
  code_does f x R1 -> code_does g x R2 ->
  code_does (fun b => f b ++ g (b + length (f b))%nat) x (fun i j => exists m, R1 i m /\ R2 m j).
Proof.
  intros [Hc1 Hs1] [Hc2 Hs2]. split.
  - intros b i j ms [Hat1 Hat2]%code_at_app (m & H1 & H2).
    destruct (Hc1 b i m ms Hat1 H1) as [ms1 Hp1]. destruct (Hc2 _ m j ms1 Hat2 H2) as [ms2 Hp2].
    exists ms2. rewrite length_app, Nat.add_assoc. by etrans.
  - intros b i ms k fin [Hat1 Hat2]%code_at_app Ho H. rewrite length_app in Ho.
    destruct (Hs1 b i ms k fin Hat1) as (m & ms1 & k1 & Hk1 & HR1 & Hsame1 & H1);
      [by eapply outside_sub; [exact Ho|lia|lia]|done|].
    destruct (Hs2 _ m ms1 k1 fin Hat2) as (j & ms2 & k2 & Hk2 & HR2 & Hsame2 & H2);
      [by eapply outside_sub; [exact Ho|lia|lia]|done|].
    exists j, ms2, k2. rewrite length_app, Nat.add_assoc.
    split_and!; [lia|by exists m|by eapply same_below_trans|done].
Qed.

Lemma does_alternation fl fr x R1 R2 :
  code_does fl x R1 -> code_does fr x R2 ->
  code_does (fun b =>
      let br := (S (S b) + length (fl (S b)))%nat in
      OPCODE_SPLIT (Some (S b)) (Some br) :: fl (S b) ++ OPCODE_JUMP (Some (br + length (fr br))%nat) :: fr br)
    x (fun i j => R1 i j \/ R2 i j).
Proof.
  intros [Hc1 Hs1] [Hc2 Hs2].
  assert (Hlen : forall b i j (br := (S (S b) + length (fl (S b)))%nat),
    (b + length (i :: fl (S b) ++ j :: fr br))%nat = (br + length (fr br))%nat).
  { intros. cbn [length]. rewrite length_app. cbn [length]. unfold br. lia. }
  split.
  - intros b i j ms Hat HR. cbv zeta in *. rewrite Hlen. set (br := (S (S b) + length (fl (S b)))%nat) in *.
    apply code_at_cons in Hat as [Hsplit Hat]. apply code_at_app in Hat as [Hatl Hat].
    apply code_at_cons in Hat as [Hjump Hatr].
    replace (S (S b + length (fl (S b)))) with br in Hatr by (unfold br; lia).
    destruct HR as [HR|HR].
    + destruct (Hc1 _ i j ms Hatl HR) as [ms' Hp]. exists ms'.
      eapply path_step; [by eapply step_first|]. etrans; [exact Hp|]. apply rtc_once.
      by apply step_jump.
    + destruct (Hc2 _ i j ms Hatr HR) as [ms' Hp]. exists ms'.
      eapply path_step; [by eapply step_second|exact Hp].
  - intros b i ms k fin Hat Ho H. cbv zeta in *.
    assert (Ho' := Ho). unfold outside in Ho'. rewrite Hlen in Ho' |- *.
    set (br := (S (S b) + length (fl (S b)))%nat) in *.
    apply code_at_cons in Hat as [Hsplit Hat]. apply code_at_app in Hat as [Hatl Hat].
    apply code_at_cons in Hat as [Hjump Hatr].
    replace (S (S b + length (fl (S b)))) with br in Hatr by (unfold br; lia).
    eapply nsteps_outside in H as (k' & c & -> & Hstep & H); [|exact Ho].
    apply (step_split_iff _ true _ _ _ _ _ Hsplit) in Hstep as [-> | ->].
    + destruct (Hs1 _ i ms k' fin Hatl) as (j & ms' & k2 & Hk2 & HR & Hsame & H2);
        [unfold outside; lia|done|].
      apply (nsteps_outside _ 0) in H2 as (k3 & c & -> & Hstep2 & H3); [|unfold outside; lia].
      apply (step_jump_iff _ _ _ _ _ Hjump) in Hstep2 as ->.
      exists j, ms', k3. split; [lia|]. split; [by left|]. by split.
    + destruct (Hs2 _ i ms k' fin Hatr) as (j & ms' & k2 & Hk2 & HR & Hsame & H2);
        [unfold outside; lia|done|].
      exists j, ms', k2. split; [lia|]. split; [by right|]. by split.
Qed.

Section Quantifiers.
Context (f : nat -> list cregex_program_instr) (x : nat) (R : nat -> nat -> Prop) (Hf : code_does f x R).

Lemma does_repeat k : code_does (repeat_code f k) x (nsteps R k).
Proof.
  induction k as [|k IH].
  - eapply does_iff, does_nil. intros i j. split; [intros ->; constructor|by inversion 1].
  - eapply does_iff, (does_seq _ _ _ _ _ Hf IH). intros i j. split.
    + intros (m & H1 & H2). by econstructor.
    + inversion 1; subst. eauto.
Qed.

Lemma does_optional greedy k :
  code_does (optional_code f greedy k) x (fun i j => exists n, (n <= k)%nat /\ nsteps R n i j).
Proof.
  destruct Hf as [Hc Hs]. induction k as [|k [IHc IHs]].
  - eapply does_iff, does_nil. intros i j. split.
    + intros ->. exists 0%nat. split; [lia|constructor].
    + intros (n & Hn & H). assert (n = 0%nat) as -> by lia. by inversion H.
  - assert (Hlen : forall b i, (b + length (i :: f (S b) ++ optional_code f greedy k (S b + length (f (S b)))))%nat =
      (S b + length (f (S b)) + length (optional_code f greedy k (S b + length (f (S b)))))%nat).
    { intros. cbn [length]. rewrite length_app. lia. }
    split.
    + intros b i j ms Hat (n & Hn & HR). cbn [optional_code] in *. rewrite Hlen.
      apply code_at_cons in Hat as [Hsplit Hat]. apply code_at_app in Hat as [Hat1 Hat2].
      destruct n as [|n].
      * inversion HR; subst. destruct (IHc _ j j ms Hat2) as [ms' Hp]; [exists 0%nat; split; [lia|constructor]|].
        exists ms'. eapply path_step; [|exact Hp]. apply (step_split_iff _ _ _ _ _ _ _ Hsplit). by right.
      * inversion HR as [|? ? m ? HRm HRn]; subst. destruct (Hc _ i m ms Hat1 HRm) as [ms1 Hp1].
        destruct (IHc _ m j ms1 Hat2) as [ms2 Hp2]; [exists n; split; [lia|done]|].
        exists ms2. eapply path_step; [apply (step_split_iff _ _ _ _ _ _ _ Hsplit); by left|]. etrans; [exact Hp1|exact Hp2].
    + intros b i ms k0 fin Hat Ho H. cbn [optional_code] in *. assert (Ho' := Ho). unfold outside in Ho'.
      rewrite Hlen in Ho' |- *.
      apply code_at_cons in Hat as [Hsplit Hat]. apply code_at_app in Hat as [Hat1 Hat2].
      eapply nsteps_outside in H as (k' & c & -> & Hstep & H); [|exact Ho].
      apply (step_split_iff _ _ _ _ _ _ _ Hsplit) in Hstep as [-> | ->].
      * destruct (Hs _ i ms k' fin Hat1) as (m & ms1 & k1 & Hk1 & HR & Hsame1 & H1);
          [unfold outside; lia|done|].
        destruct (IHs _ m ms1 k1 fin Hat2) as (j & ms2 & k2 & Hk2 & (n & Hn & HRn) & Hsame2 & H2);
          [unfold outside; lia|done|].
        exists j, ms2, k2. split; [lia|]. split; [|split; [by eapply same_below_trans|done]].
        exists (S n). split; [lia|by econstructor].
      * destruct (IHs _ i ms k' fin Hat2) as (j & ms2 & k2 & Hk2 & (n & Hn & HRn) & Hsame2 & H2);
          [unfold outside; lia|done|].
        exists j, ms2, k2. split; [lia|]. split; [|done]. exists n. split; [lia|done].
Qed.

Lemma does_star greedy :
  code_does (star_code f greedy) x (fun i j => exists n, nsteps R n i j).
Proof.
  destruct Hf as [Hc Hs].
  assert (Hlen : forall b i j, (b + length (i :: f (S b) ++ [j]))%nat = S (S b + length (f (S b)))%nat).
  { intros. cbn [length]. rewrite length_app. simpl. lia. }
  split.
  - intros b i j ms Hat (n & HR). unfold star_code in *. rewrite Hlen.
    apply code_at_cons in Hat as [Hsplit Hat]. apply code_at_app in Hat as [Hat1 Hat2].
    apply code_at_cons in Hat2 as [Hjump _]. revert i ms HR. induction n as [|n IH]; intros i ms HR.
    + inversion HR; subst. exists ms. apply rtc_once, (step_split_iff _ _ _ _ _ _ _ Hsplit). by right.
    + inversion HR as [|? ? m ? HRm HRn]; subst. destruct (Hc _ i m ms Hat1 HRm) as [ms1 Hp1].
      destruct (IH m ms1 HRn) as [ms2 Hp2]. exists ms2.
      eapply path_step; [apply (step_split_iff _ _ _ _ _ _ _ Hsplit); by left|].
      etrans; [exact Hp1|]. eapply path_step; [by apply step_jump|done].
  - intros b i ms k fin Hat Ho H. unfold star_code in *. assert (Ho' := Ho). unfold outside in Ho'.
    rewrite Hlen in Ho' |- *.
    apply code_at_cons in Hat as [Hsplit Hat]. apply code_at_app in Hat as [Hat1 Hat2].
    apply code_at_cons in Hat2 as [Hjump _]. revert i ms H.
    induction k as [k IH] using lt_wf_ind; intros i ms H.
    eapply nsteps_outside in H as (k' & c & -> & Hstep & H); [|exact Ho].
    apply (step_split_iff _ _ _ _ _ _ _ Hsplit) in Hstep as [-> | ->].
    + destruct (Hs _ i ms k' fin Hat1) as (m & ms1 & k1 & Hk1 & HR & Hsame1 & H1);
        [unfold outside; lia|done|].
      apply (nsteps_outside _ 0) in H1 as (k2 & c & -> & Hstep2 & H2); [|unfold outside; lia].
      apply (step_jump_iff _ _ _ _ _ Hjump) in Hstep2 as ->.
      destruct (IH k2 ltac:(lia) m ms1 H2) as (j & ms2 & k3 & Hk3 & (n & HRn) & Hsame2 & H3).
      exists j, ms2, k3. split; [lia|]. split; [|split; [by eapply same_below_trans|done]].
      exists (S n). by econstructor.
    + exists i, ms, k'. split; [lia|]. split; [exists 0%nat; constructor|]. split; [done|done].
Qed.

(** The last mandatory copy of an unbounded quantifier, and the split that goes
    back to it. *)
Lemma does_loop greedy :
  code_does (fun b => f b ++ [mk_split greedy b (S (b + length (f b)))]) x
    (fun i j => exists n, nsteps R (S n) i j).
Proof.
  destruct Hf as [Hc Hs].
  assert (Hlen : forall b i, (b + length (f b ++ [i]))%nat = S (b + length (f b))%nat).
  { intros. rewrite length_app. simpl. lia. }
  split.
  - intros b i j ms [Hat1 [Hsplit _]%code_at_cons]%code_at_app (n & HR). rewrite Hlen.
    revert i ms HR. induction n as [|n IH]; intros i ms HR;
      inversion HR as [|? ? m ? HRm HRn]; subst; destruct (Hc _ i m ms Hat1 HRm) as [ms1 Hp1].
    + inversion HRn; subst. exists ms1. etrans; [exact Hp1|].
      apply rtc_once, (step_split_iff _ _ _ _ _ _ _ Hsplit). by right.
    + destruct (IH m ms1 HRn) as [ms2 Hp2]. exists ms2. etrans; [exact Hp1|].
      eapply path_step; [apply (step_split_iff _ _ _ _ _ _ _ Hsplit); by left|done].
  - intros b i ms k fin [Hat1 [Hsplit _]%code_at_cons]%code_at_app Ho. unfold outside in Ho. rewrite Hlen in Ho |- *.
    revert i ms. induction k as [k IH] using lt_wf_ind; intros i ms H.
    destruct (Hs _ i ms k fin Hat1) as (m & ms1 & k1 & Hk1 & HR & Hsame1 & H1);
      [unfold outside; lia|done|].
    apply (nsteps_outside _ 0) in H1 as (k2 & c & -> & Hstep2 & H2); [|unfold outside; lia].
    apply (step_split_iff _ _ _ _ _ _ _ Hsplit) in Hstep2 as [-> | ->].
    + destruct (IH k2 ltac:(lia) m ms1 H2) as (j & ms2 & k3 & Hk3 & (n & HRn) & Hsame2 & H3).
      exists j, ms2, k3. split; [lia|]. split; [|split; [by eapply same_below_trans|done]].
      exists (S n). by econstructor.
    + exists m, ms1, k2. split; [lia|]. split; [|done].
      exists 0%nat. econstructor; [done|constructor].
Qed.

Lemma repeat_code_snoc k b :
  repeat_code f (S k) b = repeat_code f k b ++ f (b + length (repeat_code f k b)) /\
  last_copy f (S k) b = (b + length (repeat_code f k b))%nat.
Proof.
  revert b. induction k as [|k IH]; intros b.
  - simpl. by rewrite app_nil_r, Nat.add_0_r.
  - destruct (IH (b + length (f b))%nat) as [IH1 IH2].
    change (repeat_code f (S (S k)) b) with (f b ++ repeat_code f (S k) (b + length (f b))).
    change (last_copy f (S (S k)) b) with (last_copy f (S k) (b + length (f b))).
    rewrite IH1, IH2. simpl. rewrite <- app_assoc, length_app, Nat.add_assoc. done.
Qed.

Lemma does_plus greedy k :
  code_does (fun b => repeat_code f (S k) b ++
      [mk_split greedy (last_copy f (S k) b) (S (b + length (repeat_code f (S k) b)))]) x
    (fun i j => exists n, (S k <= n)%nat /\ nsteps R n i j).
Proof.
  assert (H := does_seq _ _ _ _ _ (does_repeat k) (does_loop greedy)).
  assert (H' : code_does (fun b => repeat_code f (S k) b ++
      [mk_split greedy (last_copy f (S k) b) (S (b + length (repeat_code f (S k) b)))]) x
    (fun i j => exists m, nsteps R k i m /\ exists n, nsteps R (S n) m j)).
  { destruct H as [Hc Hs].
    assert (Heq : forall b, repeat_code f (S k) b ++
      [mk_split greedy (last_copy f (S k) b) (S (b + length (repeat_code f (S k) b)))] =
      repeat_code f k b ++ f (b + length (repeat_code f k b))%nat ++
      [mk_split greedy (b + length (repeat_code f k b))
         (S (b + length (repeat_code f k b) + length (f (b + length (repeat_code f k b)))))]%nat).
    { intros b. destruct (repeat_code_snoc k b) as [H1 H2]. rewrite H1, H2, length_app, <- app_assoc.
      by rewrite Nat.add_assoc. }
    split; intros b; rewrite Heq; [apply Hc|apply Hs]. }
  eapply does_iff; [|exact H']. intros i j. split.
  - intros (m & H1 & n & H2). exists (k + S n)%nat. split; [lia|]. by eapply nsteps_trans.
  - intros (n & Hn & HR). replace n with (k + S (n - S k))%nat in HR by lia.
    apply nsteps_add_inv in HR as (m & H1 & H2). eauto.
Qed.

End Quantifiers.

Lemma does_ext f g x R : (forall b, f b = g b) -> code_does f x R -> code_does g x R.
Proof. intros Hfg [Hc Hs]. split; intros b; rewrite <- Hfg; [apply Hc|apply Hs]. Qed.

(** ** The code of a node does the matches of the node *)

Context (pat : list Z) (Hs : ascii s).

Lemma captures_of_mono n nc : (nc <= captures_of n nc)%nat.
Proof.
  revert nc. induction n as [| | | | |l IHl r IHr|l IHl r IHr|nmin nmax greedy q IHq| | |n IHn];
    intros nc; simpl; try lia.
  - specialize (IHl nc). specialize (IHr (captures_of l nc)). lia.
  - specialize (IHl nc). specialize (IHr (captures_of l nc)). lia.
  - destruct (_ && _); [lia|apply IHq].
  - specialize (IHn (S nc)). lia.
Qed.

Lemma class_accepts from c :
  class_wf pat from -> 0 < c < 128 ->
  (accepts (OPCODE_CHARACTER_CLASS (klass_of pat from)) c = Ok true <-> class_mem pat from c) /\
  (accepts (OPCODE_CHARACTER_CLASS_NEGATED (klass_of pat from)) c = Ok true <-> ~ class_mem pat from c).
Proof.
  intros Hwf Hc. destruct (compile_char_class_spec _ _ Hwf) as (klass & Hk & Hin).
  destruct (Hin c ltac:(lia)) as (b & Hb & Hmem). unfold klass_of. rewrite Hk. simpl. rewrite Hb. simpl.
  rewrite <- Hmem. destruct b; split; split; naive_solver.
Qed.

Lemma ascii_at i c : s !! i = Some c -> 0 < c < 128.
Proof. intros Hi. by apply (Forall_lookup_1 _ _ _ _ Hs Hi). Qed.

Lemma quantifier_does f x R nmin nmax greedy :
  code_does f x R -> 0 <= nmin -> nmax = -1 \/ nmin <= nmax ->
  code_does (fun b =>
    let k := Z.to_nat nmin in
    let mandatory := repeat_code f k b in
    let e := (b + length mandatory)%nat in
    mandatory ++
    (if nmin <? nmax then optional_code f greedy (Z.to_nat (nmax - nmin)) e
     else if nmax =? -1 then
       if nmin =? 0 then star_code f greedy e else [mk_split greedy (last_copy f k b) (S e)]
     else [])) x
    (fun i j => exists k, nmin <= Z.of_nat k /\ (nmax = -1 \/ Z.of_nat k <= nmax) /\ nsteps R k i j).
Proof.
  intros Hf Hmin Hmax. pose proof (does_repeat f x R Hf (Z.to_nat nmin)) as Hrep. cbv zeta.
  destruct (Z.ltb_spec nmin nmax).
  - eapply does_iff; [|apply (does_seq _ _ _ _ _ Hrep (does_optional f x R Hf greedy (Z.to_nat (nmax - nmin))))].
    intros i j. split.
    + intros (m & H1 & n & Hn & H2). exists (Z.to_nat nmin + n)%nat. split; [lia|]. split; [lia|].
      by eapply nsteps_trans.
    + intros (k & Hk & Hk2 & HR). replace k with (Z.to_nat nmin + (k - Z.to_nat nmin))%nat in HR by lia.
      apply nsteps_add_inv in HR as (m & H1 & H2). exists m. split; [done|]. eexists. split; [|done]. lia.
  - destruct (Z.eqb_spec nmax (-1)) as [->|Hne].
    + destruct (Z.eqb_spec nmin 0) as [->|Hn0].
      * eapply does_iff; [|apply (does_seq _ _ _ _ _ Hrep (does_star f x R Hf greedy))].
        intros i j. split.
        -- intros (m & H1 & n & H2). exists n. split; [lia|]. split; [by left|]. by inversion H1; subst.
        -- intros (k & _ & _ & HR). exists i. split; [constructor|by exists k].
      * replace (Z.to_nat nmin) with (S (Z.to_nat nmin - 1)) by lia.
        eapply does_iff, (does_plus f x R Hf greedy). intros i j. split.
        -- intros (n & Hn & HR). exists n. split; [lia|]. by split; [left|].
        -- intros (k & Hk & _ & HR). exists k. by split; [lia|].
    + eapply does_iff; [|apply (does_seq _ _ _ _ _ Hrep (does_nil x))]. intros i j. split.
      * intros (m & H1 & ->). exists (Z.to_nat nmin). split; [lia|]. by split; [lia|].
      * intros (k & Hk & Hk2 & HR). exists j. split; [|done]. by replace (Z.to_nat nmin) with k by lia.
Qed.

Lemma code_of_does n nc :
  node_wf pat n -> code_does (fun b => code_of pat n b nc) (nc * 2) (rmatch pat s n).
Proof.
  revert nc. induction n as [|ch| |from to|from to|l IHl r IHr|l IHl r IHr|nmin nmax greedy q IHq| | |n IHn];
    intros nc Hwf; simpl in Hwf; cbn [code_of rmatch].
  - apply does_nil.
  - eapply does_iff; [|by apply does_char]. intros i j. simpl. split.
    + intros ((c & Hc & [= ->%Z.eqb_eq]) & ->). done.
    + intros [Hc ->]. split; [|done]. exists ch. by rewrite Z.eqb_refl.
  - eapply does_iff; [|by apply does_char]. intros i j. simpl. split.
    + intros ((c & Hc & _) & ->). split; [by eapply lookup_lt_Some|done].
    + intros [Hi ->]. split; [|done]. destruct (lookup_lt_is_Some_2 s i Hi) as [c Hc]. exists c.
      split; [done|]. pose proof (ascii_at _ _ Hc). by destruct (Z.eqb_spec c 0); [lia|].
  - eapply does_iff; [|by apply does_char]. intros i j.
    split; intros [(c & Hc & Hm) ->]; (split; [|done]); exists c; (split; [done|]);
      by apply (class_accepts from c Hwf (ascii_at _ _ Hc)).
  - eapply does_iff; [|by apply does_char]. intros i j.
    split; intros [(c & Hc & Hm) ->]; (split; [|done]); exists c; (split; [done|]);
      by apply (class_accepts from c Hwf (ascii_at _ _ Hc)).
  - destruct Hwf as [Hl Hr]. pose proof (captures_of_mono l nc).
    apply (does_seq _ (fun b => code_of pat r b (captures_of l nc))); [by apply IHl|].
    eapply does_weaken; [|by apply IHr]. lia.
  - destruct Hwf as [Hl Hr]. pose proof (captures_of_mono l nc).
    apply (does_alternation (fun b => code_of pat l b nc) (fun b => code_of pat r b (captures_of l nc)));
      [by apply IHl|]. eapply does_weaken; [|by apply IHr]. lia.
  - destruct Hwf as (Hmin & Hmax & Hq). by apply quantifier_does; [apply IHq|..].
  - apply does_begin.
  - apply does_end.
  - apply does_ext with (f := fun b => [OPCODE_SAVE (nc * 2)] ++
      (fun b => code_of pat n b (S nc) ++ [OPCODE_SAVE (nc * 2 + 1)]) (b + length [OPCODE_SAVE (nc * 2)])%nat).
    { intros b. simpl. by rewrite Nat.add_1_r. }
    eapply does_iff; [|apply (does_seq (fun _ => [OPCODE_SAVE (nc * 2)])
      (fun b => code_of pat n b (S nc) ++ [OPCODE_SAVE (nc * 2 + 1)])); [apply does_save; lia|]].
    2: { apply (does_seq (fun b => code_of pat n b (S nc)) (fun _ => [OPCODE_SAVE (nc * 2 + 1)])); [|apply does_save; lia].
         eapply does_weaken; [|by apply IHn]. lia. }
    intros i j. split; [by intros (? & -> & ? & ? & ->)|eauto].
Qed.

End Paths.

(** ** The paths of a whole program *)

Section Program.
Context (pattern : list Z) (root : cregex_node) (s : list Z) (nmatches : nat).
Context (Hwf : node_wf (cstring pattern) root) (Hs : ascii s).
#[local] Abbreviation program := (program_of pattern root).
#[local] Abbreviation pat := (cstring pattern).

(** The index of the match instruction, the last of the program. *)
Definition match_pc : nat := length (code_of pat (program_node root) 0 0).

Definition initial : config := (0%nat, 0%nat, replicate nmatches None).

(** Where the compiled program lets a match start: at 0 only when the compiler left out the
    prefix [.*?]. An intermediate notion: the theorem on the engine does without it. *)
Definition may_start (i : nat) : Prop :=
  (i <= length s)%nat /\ (node_is_anchored root = true -> i = 0%nat).

Definition prefix_code : list cregex_program_instr :=
  if node_is_anchored root then [] else code_of pat (QUANTIFIER 0 (-1) false ANY_CHARACTER) 0 0.

Lemma program_shape :
  program = prefix_code ++ OPCODE_SAVE 0 :: code_of pat root (S (length prefix_code)) 1 ++
              [OPCODE_SAVE 1; OPCODE_MATCH] /\
  match_pc = (length prefix_code + 2 + length (code_of pat root (S (length prefix_code)) 1))%nat.
Proof.
  unfold program_of, match_pc, prefix_code, program_node. cbn [node_is_anchored].
  destruct (node_is_anchored root).
  - cbn [code_of app length]. rewrite <- !app_assoc, !length_app. split; [done|]. simpl. lia.
  - cbn [code_of]. cbv zeta. rewrite !length_app. cbn [length captures_of].
    rewrite length_app. cbn [length]. split; [|simpl; lia].
    rewrite <- !app_assoc. cbn [app]. by rewrite <- !app_assoc.
Qed.

Lemma any_steps k i j :
  nsteps (rmatch pat s ANY_CHARACTER) k i j <-> j = (i + k)%nat /\ (i + k <= length s \/ k = 0)%nat.
Proof.
  revert i. induction k as [|k IH]; intros i.
  - split; [inversion 1; subst; lia|]. intros [-> _]. rewrite Nat.add_0_r. constructor.
  - split.
    + inversion 1 as [|? ? m ? [Hi ->] HR]; subst. apply IH in HR. lia.
    + intros [-> Hle]. econstructor; [split; [lia|reflexivity]|]. apply IH. lia.
Qed.

Lemma prefix_at : code_at program 0 prefix_code.
Proof. exists [], (drop (length prefix_code) program). destruct program_shape as [Hp _].
  split; [|done]. by rewrite Hp, drop_app_length. Qed.

Lemma prefix_paths :
  (forall i ms, may_start i -> exists ms', path program s nmatches (0, 0, ms)%nat (length prefix_code, i, ms')) /\
  (forall k ms fin, outside 0 (length prefix_code) fin ->
    nsteps (step program s nmatches) k (0, 0, ms)%nat fin ->
    exists i ms' k', may_start i /\ length ms' = length ms /\
      nsteps (step program s nmatches) k' (length prefix_code, i, ms') fin).
Proof.
  pose proof prefix_at as Hat. unfold prefix_code, may_start in *. destruct (node_is_anchored root).
  - split.
    + intros i ms [_ ->]; [|done]. exists ms. apply rtc_refl.
    + intros k ms fin _ H. exists 0%nat, ms, k. split; [split; [lia|done]|done].
  - set (star := QUANTIFIER 0 (-1) false ANY_CHARACTER) in *.
    destruct (code_of_does program s nmatches pat Hs star 0 ltac:(simpl; lia)) as [Hc Hd]. split.
    + intros i ms [Hi _]. apply (Hc 0%nat 0%nat i ms Hat). exists i. split; [lia|]. split; [by left|].
      apply any_steps. lia.
    + intros k ms fin Ho H. destruct (Hd 0%nat 0%nat ms k fin Hat Ho H) as
        (i & ms' & k' & _ & (n & _ & _ & HR) & [Hl _] & H').
      apply any_steps in HR as [-> HR]. exists (0 + n)%nat, ms', k'. split; [split; [lia|done]|done].
Qed.

Lemma step_save_iff p i ms save c :
  program !! p = Some (OPCODE_SAVE save) ->
  step program s nmatches (p, i, ms) c <-> c = (S p, i, save_at nmatches save i ms).
Proof.
  intros Hp. split; [|intros ->; by apply step_save]. intros H. by inversion H; simplify_eq.
Qed.

Lemma program_at :
  let b := length prefix_code in
  let code := code_of pat root (S b) 1 in
  program !! b = Some (OPCODE_SAVE 0) /\ code_at program (S b) code /\
  program !! (S b + length code)%nat = Some (OPCODE_SAVE 1) /\
  match_pc = S (S b + length code) /\ program !! match_pc = Some OPCODE_MATCH /\
  length program = S match_pc.
Proof.
  destruct program_shape as [Hp Hm]. cbv zeta.
  assert (Hat : code_at program (length prefix_code) (OPCODE_SAVE 0 ::
    code_of pat root (S (length prefix_code)) 1 ++ [OPCODE_SAVE 1; OPCODE_MATCH])).
  { exists prefix_code, []. split; [|done]. rewrite Hp at 1. by rewrite app_nil_r. }
  apply code_at_cons in Hat as [H1 Hat]. apply code_at_app in Hat as [H2 Hat].
  apply code_at_cons in Hat as [H3 Hat]. apply code_at_cons in Hat as [H4 _].
  replace match_pc with (S (S (length prefix_code) + length (code_of pat root (S (length prefix_code)) 1)))
    by (rewrite Hm; lia).
  split_and!; try done. rewrite Hp at 1. rewrite length_app. cbn [length]. rewrite length_app. cbn [length]. lia.
Qed.

Lemma program_complete i j :
  may_start i -> rmatch pat s root i j ->
  exists ms, path program s nmatches initial (match_pc, j, ms).
Proof.
  intros Hi HR. destruct program_at as (H1 & H2 & H3 & -> & _ & _).
  destruct (proj1 prefix_paths i (replicate nmatches None) Hi) as [ms1 Hp1].
  destruct (does_complete _ _ _ _ _ _ (code_of_does program s nmatches pat Hs root 1 Hwf) _ i j
    (save_at nmatches 0 i ms1) H2 HR) as [ms2 Hp2].
  eexists. etrans; [exact Hp1|]. eapply path_step; [by apply step_save|].
  etrans; [exact Hp2|]. apply rtc_once. by apply step_save.
Qed.

Lemma program_sound j ms :
  path program s nmatches initial (match_pc, j, ms) ->
  exists i, may_start i /\ rmatch pat s root i j /\
    ((0 < nmatches)%nat -> ms !! 0%nat = Some (Some i)) /\
    ((1 < nmatches)%nat -> ms !! 1%nat = Some (Some j)).
Proof.
  intros [k H]%rtc_nsteps. destruct program_at as (H1 & H2 & H3 & Hm & H4 & _).
  set (b := length prefix_code) in *. set (code := code_of pat root (S b) 1) in *.
  apply (proj2 prefix_paths) in H as (i & ms1 & k1 & Hi & Hl1 & H); [|unfold outside; simpl; lia].
  rewrite length_replicate in Hl1. fold b in H.
  apply (nsteps_outside _ _ _ _ 0) in H as (k2 & c & -> & Hstep & H); [|unfold outside; simpl; lia].
  apply (step_save_iff _ _ _ _ _ H1) in Hstep as ->.
  destruct (does_sound _ _ _ _ _ _ (code_of_does program s nmatches pat Hs root 1 Hwf) (S b) i
    _ k2 (match_pc, j, ms) H2 ltac:(unfold outside; simpl; fold code; lia) H) as
    (j' & ms2 & k3 & _ & HR & [Hl2 Hsame] & H').
  apply (nsteps_outside _ _ _ _ 0) in H' as (k4 & c & -> & Hstep & H'); [|unfold outside; simpl; fold code; lia].
  apply (step_save_iff _ _ _ _ _ H3) in Hstep as ->.
  assert (k4 = 0%nat) as ->.
  { destruct k4 as [|k4]; [done|]. exfalso. inversion H' as [|? ? c ? Hstep _]; subst.
    rewrite <- Hm in Hstep. inversion Hstep; simplify_eq. }
  inversion H'; subst. exists i. split; [done|]. split; [done|].
  rewrite length_save_at in Hl2. split.
  - intros Hn. rewrite lookup_save_at_ne by lia. rewrite Hsame by lia.
    apply lookup_save_at; unfold REGEX_VM_MAX_MATCHES; lia.
  - intros Hn. apply lookup_save_at; unfold REGEX_VM_MAX_MATCHES; lia.
Qed.

End Program.
