(* ===== verification/CregexVmCorrect.v ===== *)
(** CregexVmCorrect: the virtual machine explores exactly the paths of its
    program: it stays in its arrays, it ends, it finds a match if and only if
    there is one, and the pointers it gives are those of a match. *)

From Stdlib Require Import Ascii.
From stdpp Require Import strings relations.
From S2P Require Import Prelude CregexParse CregexCompile CregexSpec CregexCompileCorrect CregexVm CregexPaths.

Open Scope cregex_scope.

(** ** Programs that the machine can run *)

Definition class_fine (klass : cregex_char_class) : Prop :=
  forall c, 0 <= c < 128 -> exists b, cregex_char_class_contains klass c = Ok b.

(** The targets of an instruction are between [lo] and [hi]. *)
Definition targets_in (lo hi : nat) (op : cregex_program_instr) : Prop :=
  match op with
  | OPCODE_SPLIT (Some a) (Some z) => (lo <= a <= hi)%nat /\ (lo <= z <= hi)%nat
  | OPCODE_JUMP (Some t) => (lo <= t <= hi)%nat
  | OPCODE_SPLIT _ _ | OPCODE_JUMP None => False
  | _ => True
  end.

Definition operands_fine (op : cregex_program_instr) : Prop :=
  match op with
  | OPCODE_CHARACTER ch => ch ≠ 0
  | OPCODE_CHARACTER_CLASS klass => class_fine klass /\ cregex_char_class_contains klass 0 = Ok false
  | OPCODE_CHARACTER_CLASS_NEGATED klass => class_fine klass
  | _ => True
  end.

(** An instruction that keeps a thread until the next character. *)
Definition thread_op (op : cregex_program_instr) : bool :=
  match op with OPCODE_MATCH => true | _ => char_op op end.

(** [code] is followed by one more instruction at least. *)
Definition instr_fine (lo hi : nat) (op : cregex_program_instr) : Prop :=
  targets_in lo hi op /\ operands_fine op /\ op ≠ OPCODE_MATCH.

Record program_fine (program : list cregex_program_instr) : Prop := {
  fine_code : exists code, program = code ++ [OPCODE_MATCH] /\ Forall (instr_fine 0 (length code)) code
}.

Section Code.
Context (pat : list Z).

Lemma instr_fine_mono lo hi lo' hi' op :
  (lo' <= lo)%nat -> (hi <= hi')%nat -> instr_fine lo hi op -> instr_fine lo' hi' op.
Proof.
  intros H1 H2 (Ht & Ho & Hm). split; [|done].
  destruct op as [| | | | |[a|] [z|]|[t|]| | |]; simpl in *; lia || done.
Qed.

Lemma code_fine_mono lo hi lo' hi' code :
  (lo' <= lo)%nat -> (hi <= hi')%nat -> Forall (instr_fine lo hi) code -> Forall (instr_fine lo' hi') code.
Proof. intros H1 H2 H. eapply Forall_impl; [exact H|]. intros op. by apply instr_fine_mono. Qed.

Lemma mk_split_fine lo hi greedy a z :
  (lo <= a <= hi)%nat -> (lo <= z <= hi)%nat -> instr_fine lo hi (mk_split greedy a z).
Proof. intros Ha Hz. unfold mk_split. by destruct greedy. Qed.

Lemma klass_of_fine from :
  class_wf pat from ->
  class_fine (klass_of pat from) /\ cregex_char_class_contains (klass_of pat from) 0 = Ok false.
Proof.
  intros Hwf. destruct (compile_char_class_spec _ _ Hwf) as (klass & Hk & Hin).
  unfold klass_of. rewrite Hk. split; [intros c Hc; destruct (Hin c Hc) as (b & -> & _); eauto|].
  destruct (Hin 0 ltac:(lia)) as (b & -> & Hb). destruct b; [|done]. exfalso.
  destruct (proj1 Hb eq_refl) as (rs & Hrs & Hex). destruct Hwf as (rs' & Hrs' & Hall). simplify_eq.
  unfold in_ranges in Hex. apply existsb_exists in Hex as (r & Hr%list_elem_of_In & Hle).
  rewrite Forall_forall in Hall. specialize (Hall r Hr). lia.
Qed.

Section Loops.
Context (f : nat -> list cregex_program_instr).
Context (Hf : forall b, Forall (instr_fine b (b + length (f b))) (f b)).

Lemma repeat_code_fine k b :
  Forall (instr_fine b (b + length (repeat_code f k b))) (repeat_code f k b).
Proof.
  revert b. induction k as [|k IH]; intros b; simpl; [constructor|].
  rewrite length_app. apply Forall_app. split; (eapply code_fine_mono; [| |apply Hf || apply IH]); lia.
Qed.

Lemma optional_code_fine greedy k b :
  Forall (instr_fine b (b + length (optional_code f greedy k b))) (optional_code f greedy k b).
Proof.
  revert b. induction k as [|k IH]; intros b; simpl; [constructor|].
  rewrite length_app. constructor; [apply mk_split_fine; lia|].
  apply Forall_app. split; (eapply code_fine_mono; [| |apply Hf || apply IH]); lia.
Qed.

Lemma star_code_fine greedy b :
  Forall (instr_fine b (b + length (star_code f greedy b))) (star_code f greedy b).
Proof.
  unfold star_code. simpl. rewrite length_app. simpl. constructor; [apply mk_split_fine; lia|].
  apply Forall_app. split; [eapply code_fine_mono; [| |apply Hf]; lia|].
  constructor; [|constructor]. split; simpl; [lia|done].
Qed.
End Loops.

Lemma last_copy_le f k b : (b <= last_copy f k b <= b + length (repeat_code f k b))%nat.
Proof.
  revert b. induction k as [|k IH]; intros b; [simpl; lia|]. specialize (IH (b + length (f b))%nat).
  destruct k as [|k]; [simpl; lia|].
  change (last_copy f (S (S k)) b) with (last_copy f (S k) (b + length (f b))).
  change (repeat_code f (S (S k)) b) with (f b ++ repeat_code f (S k) (b + length (f b))).
  rewrite length_app. lia.
Qed.

Lemma code_of_fine n b nc :
  node_wf pat n -> Forall (instr_fine b (b + length (code_of pat n b nc))) (code_of pat n b nc).
Proof.
  revert b nc. induction n as [|ch| |from to|from to|l IHl r IHr|l IHl r IHr|nmin nmax greedy q IHq| | |n IHn];
    intros b nc Hwf; simpl in Hwf; cbn [code_of]; try (repeat constructor; done).
  - repeat constructor; simpl; try done. lia.
  - repeat constructor; try done; by apply klass_of_fine.
  - repeat constructor; try done; by apply klass_of_fine.
  - destruct Hwf as [Hl Hr]. rewrite length_app. apply Forall_app.
    split; (eapply code_fine_mono; [| |apply IHl || apply IHr]); done || lia.
  - destruct Hwf as [Hl Hr]. cbv zeta. cbn [length]. rewrite length_app. cbn [length].
    constructor; [split; [simpl; lia|done]|]. apply Forall_app. split.
    + eapply code_fine_mono; [| |by apply IHl]; lia.
    + constructor; [split; [simpl; lia|done]|]. eapply code_fine_mono; [| |by apply IHr]; lia.
  - destruct Hwf as (Hmin & Hmax & Hq). cbv zeta. set (f := fun b => code_of pat q b nc).
    assert (Hf : forall b, Forall (instr_fine b (b + length (f b))) (f b)) by (intros; by apply IHq).
    rewrite length_app. apply Forall_app. split.
    { eapply code_fine_mono; [| |by apply repeat_code_fine]; lia. }
    destruct (nmin <? nmax); [|destruct (nmax =? -1); [destruct (nmin =? 0)|constructor]].
    + eapply code_fine_mono; [| |by apply optional_code_fine]; lia.
    + eapply code_fine_mono; [| |by apply star_code_fine]; lia.
    + pose proof (last_copy_le f (Z.to_nat nmin) b).
      constructor; [apply mk_split_fine; simpl; lia|constructor].
  - cbn [length]. rewrite length_app. cbn [length]. constructor; [done|]. apply Forall_app. split.
    + eapply code_fine_mono; [| |by apply IHn]; lia.
    + by repeat constructor.
Qed.

End Code.

Lemma program_of_fine pattern root :
  node_wf (cstring pattern) root -> program_fine (program_of pattern root).
Proof.
  intros Hwf. constructor. eexists. split; [done|].
  by apply (code_of_fine _ _ 0 0), program_node_wf.
Qed.

(** ** The machine

    The string [s] is in the memory [mem], with its terminator. A character
    beyond it is only read by a program that has a negated class. *)

Section Machine.
Context (program : list cregex_program_instr) (Hfine : program_fine program).
Context (s mem : list Z) (Hs : ascii s) (Hmem : cstring s `prefix_of` mem).
Context (nmatches : nat).
#[local] Abbreviation N := (length program).
#[local] Abbreviation len := (length s).
#[local] Abbreviation m := (Nat.min nmatches REGEX_VM_MAX_MATCHES).
#[local] Abbreviation vstep := (step program s nmatches).
#[local] Abbreviation vpath := (path program s nmatches).
Context (Hbeyond : (exists klass, OPCODE_CHARACTER_CLASS_NEGATED klass ∈ program) -> (S len < length mem)%nat).

Implicit Types (l : vm_thread_list) (p q sp : nat) (ms : list saved).

Lemma mem_char sp c : s !! sp = Some c -> mem !! sp = Some c.
Proof.
  intros H. destruct Hmem as [rest ->]. unfold cstring.
  rewrite lookup_app_l by (rewrite length_app; apply lookup_lt_Some in H; lia).
  rewrite lookup_app_l by (by eapply lookup_lt_Some). done.
Qed.

Lemma mem_end : mem !! len = Some 0.
Proof.
  destruct Hmem as [rest ->]. unfold cstring.
  rewrite lookup_app_l by (rewrite length_app; simpl; lia). by rewrite lookup_app_r, Nat.sub_diag by lia.
Qed.

(** The character at a position of the string, terminator included. *)
Lemma mem_cases sp : (sp <= len)%nat ->
  (sp = len /\ mem !! sp = Some 0) \/ exists c, (sp < len)%nat /\ mem !! sp = Some c /\ s !! sp = Some c /\ 0 < c < 128.
Proof.
  intros Hle. destruct (decide (sp = len)) as [->|Hne]; [left; split; [done|apply mem_end]|right].
  destruct (lookup_lt_is_Some_2 s sp ltac:(lia)) as [c Hc]. exists c.
  split; [lia|]. split; [by apply mem_char|]. split; [done|]. by apply (Forall_lookup_1 _ _ _ _ Hs Hc).
Qed.

Lemma program_instr p op :
  program !! p = Some op -> op = OPCODE_MATCH \/ (instr_fine 0 (N - 1) op /\ (S p < N)%nat).
Proof.
  destruct (fine_code _ Hfine) as (code & Hp & Hcode). intros Hop.
  assert (Hlast : (p < length code)%nat -> code !! p = Some op).
  { intros Hlt. rewrite Hp in Hop. by rewrite lookup_app_l in Hop. }
  assert (HN : N = S (length code)) by (rewrite Hp, length_app; simpl; lia).
  destruct (decide (p < length code)%nat) as [Hlt|Hge].
  - right. split; [|lia]. replace (N - 1)%nat with (length code) by lia.
    by apply (Forall_lookup_1 _ _ _ _ Hcode (Hlast Hlt)).
  - left. rewrite Hp, lookup_app_r in Hop by lia. by apply list_lookup_singleton_Some in Hop as [_ <-].
Qed.

Lemma instr_at p : (p < N)%nat -> exists op, program !! p = Some op.
Proof. intros Hp. destruct (lookup_lt_is_Some_2 program p Hp) as [op Hop]. eauto. Qed.

(** *** Thread lists *)

Definition marked sp l q : Prop := exists t, threads l !! q = Some t /\ visited t = S sp.

Definition marks sp l : nat := length (filter (fun t => visited t = S sp) (threads l)).

Record list_wf sp l : Prop := {
  wf_length : length (threads l) = N;
  wf_count : (nthreads l <= marks sp l)%nat;
  wf_saved : Forall (fun t => length (matches t) = REGEX_VM_MAX_MATCHES) (threads l)
}.

(** The pointers that count are the first [m]. *)
Definition reached sp q ms : Prop :=
  exists ms', vpath (initial nmatches) (q, sp, ms') /\ take m ms' = take m ms.

Definition is_thread_op q : Prop := exists op, program !! q = Some op /\ thread_op op = true.

Definition eps sp q q' : Prop := exists ms ms', vstep (q, sp, ms) (q', sp, ms').

(** What the exploration of an instruction has to do before it returns. *)
Definition explored sp l q : Prop :=
  (forall q', eps sp q q' -> marked sp l q') /\
  (is_thread_op q -> exists i t, (i < nthreads l)%nat /\ threads l !! i = Some t /\ thread_pc t = q).

(** From [l] to [l'], instructions were marked and threads were added; all the
    marked instructions but those of [pending] were explored. *)
Record grows sp (pending : nat -> Prop) l l' : Prop := {
  grows_nthreads : (nthreads l <= nthreads l')%nat;
  grows_threads i : (i < nthreads l)%nat ->
    exists t t', threads l !! i = Some t /\ threads l' !! i = Some t' /\
      thread_pc t' = thread_pc t /\ matches t' = matches t;
  grows_marked q : marked sp l q -> marked sp l' q;
  grows_marks : (marks sp l <= marks sp l')%nat;
  grows_old q t' : threads l' !! q = Some t' -> visited t' = S sp \/
    exists t, threads l !! q = Some t /\ visited t = visited t';
  grows_explored q : (sp <= len)%nat -> marked sp l' q -> ~ marked sp l q -> ~ pending q -> explored sp l' q;
  grows_sound i : (sp <= len)%nat -> (nthreads l <= i < nthreads l')%nat ->
    exists t, threads l' !! i = Some t /\ is_thread_op (thread_pc t) /\ reached sp (thread_pc t) (matches t)
}.

Definition nothing (q : nat) : Prop := False.

Lemma marked_dec sp l q : marked sp l q \/ ~ marked sp l q.
Proof.
  unfold marked. destruct (threads l !! q) as [t|]; [|right; by intros (t & ? & _)].
  destruct (decide (visited t = S sp)); [left; eauto|right]. intros (t' & [= <-] & ?). done.
Qed.

Lemma grows_refl sp l pending : (nthreads l <= N)%nat -> list_wf sp l -> grows sp pending l l.
Proof.
  intros Hn Hwf. split; try done; try lia.
  - intros i Hi. destruct (lookup_lt_is_Some_2 (threads l) i) as [t Ht]; [rewrite (wf_length _ _ Hwf); lia|].
    by exists t, t.
  - intros q t' Ht. right. eauto.
Qed.

Lemma marks_le sp l : list_wf sp l -> (marks sp l <= N)%nat.
Proof. intros Hwf. rewrite <- (wf_length _ _ Hwf). apply length_filter. Qed.

Lemma explored_grows sp pending l l' q : grows sp pending l l' -> explored sp l q -> explored sp l' q.
Proof.
  intros Hg [He Ht]. split.
  - intros q' Hq'. by apply (grows_marked _ _ _ _ Hg), He.
  - intros Hop. destruct (Ht Hop) as (i & t & Hi & Hti & Hpc).
    destruct (grows_threads _ _ _ _ Hg i Hi) as (t1 & t' & Ht1 & Ht' & Hpc' & _). simplify_eq.
    exists i, t'. split; [pose proof (grows_nthreads _ _ _ _ Hg); lia|]. split; [done|congruence].
Qed.

Lemma grows_trans sp pending l1 l2 l3 :
  grows sp pending l1 l2 -> grows sp nothing l2 l3 -> grows sp pending l1 l3.
Proof.
  intros H12 H23. split.
  - etrans; [by eapply grows_nthreads|by eapply grows_nthreads].
  - intros i Hi. destruct (grows_threads _ _ _ _ H12 i Hi) as (t1 & t2 & Ht1 & Ht2 & Hpc & Hms).
    destruct (grows_threads _ _ _ _ H23 i) as (t2' & t3 & Ht2' & Ht3 & Hpc' & Hms');
      [pose proof (grows_nthreads _ _ _ _ H12); lia|]. simplify_eq.
    exists t1, t3. split; [done|]. split; [done|]. split; congruence.
  - intros q Hq. by apply (grows_marked _ _ _ _ H23), (grows_marked _ _ _ _ H12).
  - etrans; [by eapply grows_marks|by eapply grows_marks].
  - intros q t3 Ht3. destruct (grows_old _ _ _ _ H23 q t3 Ht3) as [|(t2 & Ht2 & Hv)]; [by left|].
    destruct (grows_old _ _ _ _ H12 q t2 Ht2) as [Hv2|(t1 & Ht1 & Hv1)]; [left; congruence|right].
    exists t1. split; [done|congruence].
  - intros q Hsp Hq3 Hq1 Hp. destruct (marked_dec sp l2 q) as [Hq2|Hq2].
    + eapply explored_grows; [exact H23|]. by apply (grows_explored _ _ _ _ H12).
    + apply (grows_explored _ _ _ _ H23); try done. by intros [].
  - intros i Hsp Hi. destruct (decide (i < nthreads l2)%nat) as [Hlt|Hge].
    + destruct (grows_sound _ _ _ _ H12 i Hsp ltac:(lia)) as (t2 & Ht2 & Hop & Hr).
      destruct (grows_threads _ _ _ _ H23 i Hlt) as (t2' & t3 & Ht2' & Ht3 & Hpc & Hms). simplify_eq.
      exists t3. rewrite Hpc, Hms. done.
    + apply (grows_sound _ _ _ _ H23 i Hsp). lia.
Qed.

Lemma grows_done sp l l' p :
  grows sp (fun q => q = p) l l' -> ((sp <= len)%nat -> explored sp l' p) -> grows sp nothing l l'.
Proof.
  intros H Hp. destruct H. split; try done.
  intros q Hsp Hq' Hq _. destruct (decide (q = p)) as [->|Hne]; [by apply Hp|by apply grows_explored0].
Qed.

Lemma marks_alter_new sp p t (f : vm_thread -> vm_thread) (ts : list vm_thread) :
  ts !! p = Some t -> visited t ≠ S sp -> visited (f t) = S sp ->
  length (filter (fun t => visited t = S sp) (alter f p ts)) =
  S (length (filter (fun t => visited t = S sp) ts)).
Proof.
  revert p. induction ts as [|t0 ts IH]; intros [|p] Hp Hn Hf; try done; simpl in Hp.
  - simplify_eq. change (alter f 0%nat (t :: ts)) with (f t :: ts).
    by rewrite filter_cons_True, filter_cons_False.
  - change (alter f (S p) (t0 :: ts)) with (t0 :: alter f p ts).
    rewrite !filter_cons. destruct (decide _); cbn [length]; by rewrite IH.
Qed.

Lemma marks_alter_same sp p (f : vm_thread -> vm_thread) (ts : list vm_thread) :
  (forall t, visited (f t) = visited t) ->
  length (filter (fun t => visited t = S sp) (alter f p ts)) =
  length (filter (fun t => visited t = S sp) ts).
Proof.
  intros Hf. revert p. induction ts as [|t0 ts IH]; intros [|p]; try done.
  - change (alter f 0%nat (t0 :: ts)) with (f t0 :: ts). rewrite !filter_cons, Hf. by destruct (decide _).
  - change (alter f (S p) (t0 :: ts)) with (t0 :: alter f p ts).
    rewrite !filter_cons. destruct (decide _); cbn [length]; by rewrite IH.
Qed.

Lemma mark_grows sp l p t :
  list_wf sp l -> threads l !! p = Some t -> visited t ≠ S sp ->
  list_wf sp (mark p sp l) /\ marks sp (mark p sp l) = S (marks sp l) /\ marked sp (mark p sp l) p /\
  grows sp (fun q => q = p) l (mark p sp l).
Proof.
  intros Hwf Ht Hv. destruct Hwf as [Hl Hc Hsv].
  assert (Hm : marks sp (mark p sp l) = S (marks sp l)) by by apply (marks_alter_new _ _ t).
  assert (Hp : threads (mark p sp l) !! p = Some (mkThread (S sp) (thread_pc t) (matches t)))
    by (unfold mark; simpl; by rewrite list_lookup_alter_eq, Ht).
  assert (Hq : forall q, q ≠ p -> threads (mark p sp l) !! q = threads l !! q)
    by (intros q Hne; unfold mark; simpl; by rewrite list_lookup_alter_ne).
  split_and!; [split|done|eexists; split; [exact Hp|done]|split].
  - unfold mark. simpl. by rewrite length_alter.
  - rewrite Hm. simpl. lia.
  - unfold mark. simpl. apply Forall_lookup. intros i t' Ht'.
    destruct (decide (i = p)) as [->|Hne].
    + rewrite list_lookup_alter_eq, Ht in Ht'. simplify_eq/=. by apply (Forall_lookup_1 _ _ _ _ Hsv Ht).
    + rewrite list_lookup_alter_ne in Ht' by done. by apply (Forall_lookup_1 _ _ _ _ Hsv Ht').
  - done.
  - intros i Hi. pose proof (length_filter (fun t => visited t = S sp) (threads l)).
    unfold marks in Hc.
    destruct (lookup_lt_is_Some_2 (threads l) i ltac:(lia)) as [ti Hti].
    destruct (decide (i = p)) as [->|Hne].
    + simplify_eq. eexists _, _. split; [done|]. by split.
    + exists ti, ti. by rewrite Hq.
  - intros q (tq & Htq & Hvq). destruct (decide (q = p)) as [->|Hne]; [simplify_eq|].
    exists tq. by rewrite Hq.
  - lia.
  - intros q t' Ht'. destruct (decide (q = p)) as [->|Hne].
    + rewrite Hp in Ht'. simplify_eq. by left.
    + rewrite Hq in Ht' by done. right. eauto.
  - intros q _ (tq & Htq & Hvq) Hn Hne. rewrite Hq in Htq by done. exfalso. apply Hn. by exists tq.
  - simpl. lia.
Qed.

Lemma copy_matches_take ms old :
  (m <= length ms)%nat -> length old = REGEX_VM_MAX_MATCHES ->
  take m (copy_matches nmatches ms old) = take m ms /\
  length (copy_matches nmatches ms old) = REGEX_VM_MAX_MATCHES.
Proof.
  intros Hl Ho. unfold copy_matches. cbv zeta. split.
  - rewrite take_app_le by (rewrite length_take; lia). by rewrite take_take, Nat.min_id.
  - rewrite length_app, length_take, length_drop. lia.
Qed.

Lemma append_grows sp l p ms :
  list_wf sp l -> (nthreads l < marks sp l)%nat -> (m <= length ms)%nat ->
  ((sp <= len)%nat -> is_thread_op p /\ reached sp p ms) ->
  exists l', append_thread nmatches p ms l = Ok l' /\ list_wf sp l' /\ grows sp nothing l l' /\
    exists t, threads l' !! nthreads l = Some t /\ thread_pc t = p /\ nthreads l' = S (nthreads l).
Proof.
  intros Hwf Hn Hms Hp. pose proof (marks_le _ _ Hwf) as Hle. destruct Hwf as [Hl Hc Hsv].
  unfold append_thread. rewrite bool_decide_true by lia. eexists. split; [done|].
  set (f := fun t => mkThread (visited t) p (copy_matches nmatches ms (matches t))).
  destruct (lookup_lt_is_Some_2 (threads l) (nthreads l) ltac:(lia)) as [t Ht].
  assert (Hsame : forall q t', alter f (nthreads l) (threads l) !! q = Some t' ->
    exists t, threads l !! q = Some t /\ visited t = visited t').
  { intros q t' Ht'. destruct (decide (q = nthreads l)) as [->|Hne].
    - rewrite list_lookup_alter_eq, Ht in Ht'. simplify_eq/=. eauto.
    - rewrite list_lookup_alter_ne in Ht' by done. eauto. }
  assert (Hnew : alter f (nthreads l) (threads l) !! nthreads l = Some (f t))
    by by rewrite list_lookup_alter_eq, Ht.
  assert (Hlt : length (matches t) = REGEX_VM_MAX_MATCHES) by by apply (Forall_lookup_1 _ _ _ _ Hsv Ht).
  destruct (copy_matches_take ms _ Hms Hlt) as [Htake Hlen].
  split_and!; [split|split|by exists (f t)]; simpl.
  - by rewrite length_alter.
  - unfold marks. simpl. rewrite marks_alter_same by done. done.
  - apply Forall_lookup. intros i t' Ht'. destruct (decide (i = nthreads l)) as [->|Hne].
    + rewrite Hnew in Ht'. by simplify_eq/=.
    + rewrite list_lookup_alter_ne in Ht' by done. by apply (Forall_lookup_1 _ _ _ _ Hsv Ht').
  - lia.
  - intros i Hi. destruct (lookup_lt_is_Some_2 (threads l) i ltac:(lia)) as [ti Hti].
    exists ti, ti. by rewrite list_lookup_alter_ne by lia.
  - intros q (tq & Htq & Hvq). destruct (decide (q = nthreads l)) as [->|Hne].
    + exists (f t). split; [done|]. simpl. congruence.
    + exists tq. simpl. by rewrite list_lookup_alter_ne.
  - unfold marks. simpl. by rewrite marks_alter_same.
  - intros q t' Ht'. right. by apply Hsame.
  - intros q _ (tq & Htq & Hvq) Hnq _. exfalso. apply Hnq. destruct (Hsame q tq Htq) as (t0 & Ht0 & Hv0).
    exists t0. split; [done|congruence].
  - intros i Hsp Hi. assert (i = nthreads l) as -> by lia. exists (f t). split; [done|].
    destruct (Hp Hsp) as [Hop (ms' & Hpath & Heq)]. split; [done|]. simpl.
    exists ms'. split; [done|]. congruence.
Qed.

(** A step from a configuration that is known up to the pointers that count. *)
Lemma reached_step sp q ms sp' q' ms' :
  reached sp q ms -> vstep (q, sp, ms) (q', sp', ms') -> reached sp' q' ms'.
Proof.
  intros (ms0 & Hpath & Heq) Hstep.
  assert (H : exists ms0', vstep (q, sp, ms0) (q', sp', ms0') /\ take m ms0' = take m ms').
  { inversion Hstep; subst.
    - exists ms0. split; [by econstructor|done].
    - exists ms0. split; [by eapply step_first|done].
    - exists ms0. split; [by eapply step_second|done].
    - exists ms0. split; [by eapply step_jump|done].
    - exists ms0. split; [by eapply step_begin|done].
    - exists ms0. split; [by eapply step_end|done].
    - eexists. split; [by eapply step_save|]. unfold save_at. destruct (_ && _) eqn:Hb; [|done].
      apply andb_true_iff in Hb as [H1%bool_decide_eq_true H2%bool_decide_eq_true].
      rewrite !take_insert_lt by lia. by rewrite Heq. }
  destruct H as (ms0' & Hs0 & Heq'). exists ms0'. split; [|done]. by eapply rtc_r.
Qed.

Definition eps_targets sp p (op : cregex_program_instr) q : Prop :=
  match op with
  | OPCODE_SPLIT (Some a) (Some z) => q = a \/ q = z
  | OPCODE_JUMP (Some t) => q = t
  | OPCODE_ASSERT_BEGIN => sp = 0%nat /\ q = S p
  | OPCODE_ASSERT_END => sp = len /\ q = S p
  | OPCODE_SAVE _ => q = S p
  | OPCODE_SPLIT _ _ | OPCODE_JUMP None => True
  | _ => False
  end.

Lemma eps_inv sp p q op : program !! p = Some op -> eps sp p q -> eps_targets sp p op q.
Proof.
  intros Hop (ms & ms' & Hstep).
  inversion Hstep as [? ? ? op' c Hop' Hc Hacc| ? ? ? a z| ? ? ? a z| | | |]; simplify_eq; simpl; auto.
  - lia.
  - destruct z; auto.
  - destruct a; auto.
Qed.

(** The end of the exploration of an instruction that keeps no thread. *)
Lemma explored_control sp l p op :
  program !! p = Some op -> thread_op op = false ->
  (forall q, eps_targets sp p op q -> marked sp l q) -> explored sp l p.
Proof.
  intros Hop Ht Hq. split.
  - intros q' He. by apply Hq, eps_inv.
  - intros (op' & Hop' & Ht'). congruence.
Qed.

Definition adds sp l p (r : c_result vm_thread_list) : Prop :=
  exists l', r = Ok l' /\ list_wf sp l' /\ grows sp nothing l l' /\ marked sp l' p.

(** What [vm_add_thread] does after it has marked the instruction. *)
Section marked.
Context (sp : nat) (l l1 : vm_thread_list) (p : nat) (ms : list (option nat)) (op : cregex_program_instr).
Context (Hop : program !! p = Some op) (Hms : (m <= length ms)%nat).
Context (Hwf1 : list_wf sp l1) (Hp1 : marked sp l1 p) (Hg1 : grows sp (fun q => q = p) l l1).

Lemma adds_thread : thread_op op = true -> (nthreads l1 < marks sp l1)%nat -> ((sp <= len)%nat -> reached sp p ms) ->
  adds sp l p (append_thread nmatches p ms l1).
Proof.
  intros Hth Hroom Hr. destruct (append_grows sp l1 p ms Hwf1 Hroom Hms) as (l2 & -> & Hwf2 & Hg2 & t2 & Ht2 & Hpc2 & Hn2).
  { intros Hle. split; [by exists op|by apply Hr]. }
  exists l2. split; [done|]. split; [done|]. split; [|by apply (grows_marked _ _ _ _ Hg2)].
  eapply grows_done; [by eapply grows_trans|]. intros Hle. split.
  - intros q He. apply (eps_inv _ _ _ _ Hop) in He. by destruct op.
  - intros _. exists (nthreads l1), t2. split; [lia|done].
Qed.

Lemma adds_nothing : thread_op op = false -> ((sp <= len)%nat -> forall q, ~ eps_targets sp p op q) -> adds sp l p (Ok l1).
Proof.
  intros Hth Hno. exists l1. split; [done|]. split; [done|]. split; [|done].
  apply (grows_done _ _ _ _ Hg1). intros Hle. apply (explored_control _ _ _ op); [done..|].
  intros q Hq. by destruct (Hno Hle q).
Qed.

(** The instruction goes on at [q], and nowhere else. *)
Lemma adds_next q r : adds sp l1 q r -> thread_op op = false -> ((sp <= len)%nat -> forall q', eps_targets sp p op q' -> q' = q) ->
  adds sp l p r.
Proof.
  intros (l2 & -> & Hwf2 & Hg2 & Hq2) Hth Hone. exists l2. split; [done|]. split; [done|].
  split; [|by apply (grows_marked _ _ _ _ Hg2)]. eapply grows_done; [by eapply grows_trans|]. intros Hle.
  apply (explored_control _ _ _ op); [done..|]. intros q' Hq'. by rewrite (Hone Hle q' Hq').
Qed.

(** It goes on at [a], then at [z]. *)
Lemma adds_split a z r (k : vm_thread_list -> c_result vm_thread_list) : op = OPCODE_SPLIT (Some a) (Some z) ->
  adds sp l1 a r -> (forall l2, r = Ok l2 -> list_wf sp l2 -> (marks sp l1 <= marks sp l2)%nat -> adds sp l2 z (k l2)) ->
  adds sp l p (let! l2 := r in k l2).
Proof.
  intros Hsplit (l2 & -> & Hwf2 & Hg2 & Ha2) Hk. cbn [obind].
  destruct (Hk l2 eq_refl Hwf2 (grows_marks _ _ _ _ Hg2)) as (l3 & -> & Hwf3 & Hg3 & Hz3).
  exists l3. split; [done|]. split; [done|]. split; [|by apply (grows_marked _ _ _ _ Hg3), (grows_marked _ _ _ _ Hg2)].
  eapply grows_done; [eapply grows_trans; [by eapply grows_trans|done]|]. intros Hle.
  apply (explored_control _ _ _ _ Hop); [by rewrite Hsplit|]. rewrite Hsplit.
  intros q [-> | ->]; [by apply (grows_marked _ _ _ _ Hg3)|done].
Qed.
End marked.

Lemma add_thread_spec sp fuel l p ms :
  (sp < length mem)%nat -> list_wf sp l -> (p < N)%nat -> (N < fuel + marks sp l)%nat -> (m <= length ms)%nat ->
  ((sp <= len)%nat -> reached sp p ms) ->
  adds sp l p (vm_add_thread program mem nmatches fuel l p sp ms).
Proof.
  intros Hsp. revert l p ms. induction fuel as [|fuel IH]; intros l p ms Hwf Hp Hfuel Hms Hr.
  { pose proof (marks_le _ _ Hwf). lia. }
  cbn [vm_add_thread].
  destruct (lookup_lt_is_Some_2 (threads l) p) as [t Ht]; [by rewrite (wf_length _ _ Hwf)|].
  destruct (instr_at p Hp) as [op Hop]. rewrite Ht, Hop. pose proof (wf_count _ _ Hwf).
  destruct (decide (visited t = S sp)) as [Hv|Hv].
  { rewrite bool_decide_true by done. exists l. split; [done|]. split; [done|]. split; [|by exists t].
    apply grows_refl; [|done]. pose proof (marks_le _ _ Hwf). lia. }
  rewrite bool_decide_false by done.
  destruct (mark_grows sp l p t Hwf Ht Hv) as (Hwf1 & Hm1 & Hp1 & Hg1). assert (Hn1 : nthreads (mark p sp l) = nthreads l) by done.
  set (l1 := mark p sp l) in *.
  assert (Hgo : forall q ms', thread_op op = false -> (q < N)%nat -> (m <= length ms')%nat ->
    ((sp <= len)%nat -> vstep (p, sp, ms) (q, sp, ms')) -> ((sp <= len)%nat -> forall q', eps_targets sp p op q' -> q' = q) ->
    adds sp l p (vm_add_thread program mem nmatches fuel l1 q sp ms')).
  { intros q ms' Hth Hq Hms' Hstep Hone. apply (adds_next sp l l1 p op Hop Hp1 Hg1 q); [|done..].
    apply IH; [done|done|lia|done|]. intros Hle. eapply reached_step; [by apply Hr|by apply Hstep]. }
  pose proof (adds_nothing sp l l1 p op Hop Hwf1 Hp1 Hg1) as Hstop.
  assert (Hthread : thread_op op = true -> adds sp l p (append_thread nmatches p ms l1)).
  { intros Hth. apply (adds_thread sp l l1 p ms op); try done. lia. }
  destruct (program_instr p op Hop) as [->|[(Htg & Hopf & Hnm) Hpn]]; [by apply Hthread|].
  destruct op as [| | | | |[a|] [z|]|[tg|]| | |save]; try done; try (by apply Hthread); simpl in Htg; rewrite ?Nat.add_1_r.
  - (* split *)
    apply (adds_split sp l l1 p _ Hop Hp1 Hg1 a z); [done| |].
    + apply IH; [done|lia|lia|done|]. intros Hle. eapply reached_step; [by apply Hr|]. by eapply step_first.
    + intros l2 _ Hwf2 Hm2. apply IH; [done|lia|lia|done|]. intros Hle. eapply reached_step; [by apply Hr|]. by eapply step_second.
  - (* jump *)
    apply Hgo; [done|lia|done| |by intros _ q' Hq']. intros Hle. by eapply step_jump.
  - (* begin *)
    case_bool_decide as Hz.
    + subst sp. apply Hgo; [done|lia|done| |by intros _ q' [_ Hq']]. intros Hle. by eapply step_begin.
    + apply Hstop; [done|]. by intros _ q [Hz' _].
  - (* end *)
    unfold peek. destruct (lookup_lt_is_Some_2 mem sp Hsp) as [c Hc]. rewrite Hc. cbn [obind].
    assert (Hend : (sp <= len)%nat -> c = 0 <-> sp = len).
    { intros Hle. destruct (mem_cases sp Hle) as [[-> Hz]|(c' & Hlt & Hc' & _ & Hpos)]; simplify_eq; lia. }
    destruct (Z.eqb_spec c 0) as [Hc0|Hc0].
    + apply Hgo; [done|lia|done| |by intros _ q' [_ Hq']]. intros Hle. rewrite (proj1 (Hend Hle) Hc0). by eapply step_end.
    + apply Hstop; [done|]. intros Hle q [Hz' _]. by apply Hc0, Hend.
  - (* save *)
    assert (Hs' : (sp <= len)%nat -> vstep (p, sp, ms) (S p, sp, save_at nmatches save sp ms)) by (intros; by eapply step_save).
    unfold save_at in Hs'. destruct (_ && _); apply Hgo; try done; try lia. by rewrite length_insert.
Qed.

(** *** The loop over the threads *)

Definition sound_list sp l : Prop :=
  forall i, (i < nthreads l)%nat ->
    exists t, threads l !! i = Some t /\ is_thread_op (thread_pc t) /\ reached sp (thread_pc t) (matches t).

(** The array holds the pointers of a path to a match. *)
Definition final_ok (r : list saved) : Prop :=
  exists p j ms, program !! p = Some OPCODE_MATCH /\ vpath (initial nmatches) (p, j, ms) /\ take m r = take m ms.

Lemma mem_readable sp : (sp <= len)%nat -> (sp < length mem)%nat.
Proof.
  intros Hle. destruct Hmem as [rest ->]. unfold cstring. rewrite !length_app. simpl. lia.
Qed.

Lemma accepts_spec sp c p op :
  (sp <= len)%nat -> mem !! sp = Some c -> program !! p = Some op -> thread_op op = true -> op ≠ OPCODE_MATCH ->
  exists b, accepts op c = Ok b /\ (b = true -> (S sp < length mem)%nat /\ (S p < N)%nat).
Proof.
  intros Hle Hc Hop Hth Hnm. destruct (program_instr p op Hop) as [|[(_ & Hopf & _) Hpn]]; [done|].
  assert (Hcase : (sp = len /\ c = 0) \/ ((sp < len)%nat /\ 0 < c < 128)).
  { destruct (mem_cases sp Hle) as [[? H]|(c' & ? & H & _ & ?)]; simplify_eq; [by left|by right]. }
  assert (Hin : (sp < len)%nat -> (S sp < length mem)%nat) by (intros; apply mem_readable; lia).
  destruct op; try done; simpl in Hopf |- *.
  - eexists. split; [done|]. intros Hb%Z.eqb_eq. split; [apply Hin; lia|done].
  - eexists. split; [done|]. intros Hb. split; [apply Hin|done].
    destruct Hcase as [[-> ->]|]; [done|lia].
  - destruct Hopf as [Hf Hz]. destruct (Hf c ltac:(lia)) as [b Hb]. exists b. split; [done|].
    intros ->. split; [apply Hin|done]. destruct Hcase as [[-> ->]|]; [congruence|lia].
  - destruct (Hopf c ltac:(lia)) as [b Hb]. rewrite Hb. eexists. split; [done|]. intros _. split; [|done].
    assert (S len < length mem)%nat; [|lia]. apply Hbeyond. eexists. by eapply list_elem_of_lookup_2.
Qed.

(** No thread matched, and all the threads from [i] on were advanced. *)
Definition advanced sp cur i (st st' : vm_state) : Prop :=
  matched st' = matched st /\ result st' = result st /\
  forall k t, (i <= k < nthreads cur)%nat -> threads cur !! k = Some t ->
    program !! thread_pc t ≠ Some OPCODE_MATCH /\
    forall c op, s !! sp = Some c -> program !! thread_pc t = Some op -> accepts op c = Ok true ->
      marked (S sp) (next st') (S (thread_pc t)).

Lemma advanced_cons sp cur i st st1 st' t op b :
  threads cur !! i = Some t -> program !! thread_pc t = Some op -> op ≠ OPCODE_MATCH ->
  (forall c, s !! sp = Some c -> accepts op c = Ok b) ->
  matched st1 = matched st -> result st1 = result st ->
  (b = true -> marked (S sp) (next st1) (S (thread_pc t))) ->
  grows (S sp) nothing (next st1) (next st') -> advanced sp cur (S i) st1 st' -> advanced sp cur i st st'.
Proof.
  intros Ht Hop Hnm Hacc Hm Hr Hb Hg (Hm' & Hr' & Hk). split; [congruence|]. split; [congruence|].
  intros k t' Hki Ht'. destruct (decide (k = i)) as [->|Hne]; [|apply (Hk k t'); [lia|done]].
  simplify_eq. split; [congruence|]. intros c op' Hc Hop' Ha. simplify_eq.
  rewrite (Hacc c Hc) in Ha. simplify_eq. apply (grows_marked _ _ _ _ Hg). by apply Hb.
Qed.

Lemma run_threads_spec sp cur n i st :
  (sp <= len)%nat -> (i + n = nthreads cur)%nat -> sound_list sp cur -> list_wf sp cur ->
  list_wf (S sp) (next st) -> length (result st) = nmatches ->
  exists st', run_threads program mem nmatches n i sp (threads cur) st = Ok st' /\
    list_wf (S sp) (next st') /\ grows (S sp) nothing (next st) (next st') /\ length (result st') = nmatches /\
    (advanced sp cur i st st' \/ matched st' = true /\ final_ok (result st')).
Proof.
  intros Hle Hin Hsnd Hcwf. revert i st Hin. induction n as [|n IH]; intros i st Hin Hwf Hres.
  { exists st. split; [done|]. split; [done|]. split; [|split; [done|left]].
    - apply grows_refl; [|done]. pose proof (marks_le _ _ Hwf). pose proof (wf_count _ _ Hwf). lia.
    - split; [done|]. split; [done|]. intros k t Hk. lia. }
  destruct (Hsnd i ltac:(lia)) as (t & Ht & (op & Hop & Hth) & Hreach).
  assert (Hms : length (matches t) = REGEX_VM_MAX_MATCHES)
    by by apply (Forall_lookup_1 _ _ _ _ (wf_saved _ _ Hcwf) Ht).
  cbn [run_threads]. rewrite Ht, Hop. destruct (decide (op = OPCODE_MATCH)) as [->|Hnm].
  { eexists. split; [done|]. simpl. split; [done|]. split; [|split].
    - apply grows_refl; [|done]. pose proof (marks_le _ _ Hwf). pose proof (wf_count _ _ Hwf). lia.
    - unfold copy_matches. rewrite length_app, length_take, length_drop. lia.
    - right. split; [done|]. destruct Hreach as (ms' & Hpath & Heq). exists (thread_pc t), sp, ms'.
      split; [done|]. split; [done|]. unfold copy_matches. cbv zeta. rewrite take_app_le by (rewrite length_take; lia).
      by rewrite take_take, Nat.min_id. }
  destruct (lookup_lt_is_Some_2 mem sp (mem_readable sp Hle)) as [c Hc].
  destruct (accepts_spec sp c _ op Hle Hc Hop Hth Hnm) as (b & Hb & Hnext).
  assert (Hacc : forall c', s !! sp = Some c' -> accepts op c' = Ok b).
  { intros c' Hc'%mem_char. simplify_eq. done. }
  assert (Hbody : exists st', (let! c := peek mem sp in
      let! b := accepts op c in
      if b then let! l := vm_add_thread program mem nmatches (add_fuel program) (next st) (thread_pc t + 1) (S sp) (matches t) in
        run_threads program mem nmatches n (S i) sp (threads cur) (mkVm (matched st) (result st) l)
      else run_threads program mem nmatches n (S i) sp (threads cur) st) = Ok st' /\
    list_wf (S sp) (next st') /\ grows (S sp) nothing (next st) (next st') /\ length (result st') = nmatches /\
    (advanced sp cur i st st' \/ matched st' = true /\ final_ok (result st'))).
  { unfold peek. rewrite Hc. cbn [obind]. rewrite Hb. cbn [obind]. rewrite Nat.add_1_r. destruct b.
    - destruct (Hnext eq_refl) as [Hread Hpn].
      destruct (add_thread_spec (S sp) (add_fuel program) (next st) (S (thread_pc t)) (matches t)) as
        (l1 & -> & Hwf1 & Hg1 & Hm1); try done.
      + unfold add_fuel. lia.
      + rewrite Hms. lia.
      + intros Hsp. eapply reached_step; [exact Hreach|].
        destruct (lookup_lt_is_Some_2 s sp ltac:(lia)) as [c' Hc']. eapply step_char; [done..|by apply Hacc].
      + cbn [obind]. destruct (IH (S i) (mkVm (matched st) (result st) l1) ltac:(lia) Hwf1 Hres) as
          (st' & -> & Hwf' & Hg' & Hres' & Hor).
        exists st'. split; [done|]. split; [done|]. split; [by eapply grows_trans|]. split; [done|].
        destruct Hor as [Hadv|]; [left|by right]. by apply (advanced_cons _ _ _ st (mkVm (matched st) (result st) l1) st' t op true).
    - destruct (IH (S i) st ltac:(lia) Hwf Hres) as (st' & -> & Hwf' & Hg' & Hres' & Hor).
      exists st'. split; [done|]. split; [done|]. split; [done|]. split; [done|].
      destruct Hor as [Hadv|]; [left|by right]. by eapply advanced_cons. }
  by destruct op.
Qed.

(** *** The loop over the string *)

Definition complete sp l : Prop :=
  (forall q ms, vpath (initial nmatches) (q, sp, ms) -> marked sp l q) /\
  (forall q, marked sp l q -> explored sp l q).

Definition visited_le (b : nat) l : Prop := Forall (fun t => (visited t <= b)%nat) (threads l).

(** A list that was not used yet at the position [sp]. *)
Definition fresh sp l : Prop := nthreads l = 0%nat /\ list_wf sp l /\ visited_le sp l.

Lemma fresh_unmarked sp l q : fresh sp l -> ~ marked sp l q.
Proof.
  intros (_ & _ & Hv) (t & Ht & Hvt). pose proof (Forall_lookup_1 _ _ _ _ Hv Ht). simpl in *. lia.
Qed.

Lemma fresh_grows_explored sp l l' q :
  (sp <= len)%nat -> fresh sp l -> grows sp nothing l l' -> marked sp l' q -> explored sp l' q.
Proof.
  intros Hle Hf Hg Hq. apply (grows_explored _ _ _ _ Hg); try done; [by apply fresh_unmarked|by intros []].
Qed.

Lemma fresh_grows_sound sp l l' :
  (sp <= len)%nat -> fresh sp l -> grows sp nothing l l' -> sound_list sp l'.
Proof. intros Hle (Hn & _) Hg i Hi. apply (grows_sound _ _ _ _ Hg i Hle). lia. Qed.

Lemma fresh_grows_visited sp l l' :
  fresh sp l -> grows sp nothing l l' -> visited_le (S sp) l'.
Proof.
  intros (_ & _ & Hv) Hg. apply Forall_lookup. intros q t' Ht'.
  destruct (grows_old _ _ _ _ Hg q t' Ht') as [->|(t & Ht & <-)]; [done|].
  pose proof (Forall_lookup_1 _ _ _ _ Hv Ht). simpl in *. lia.
Qed.

(** The two lists change places. *)
Lemma fresh_swap sp0 sp l : list_wf sp0 l -> visited_le sp l -> fresh sp (mkThreads 0 (threads l)).
Proof. intros [Hl _ Hsv] Hv. split; [done|]. split; [|done]. split; [done|simpl; lia|done]. Qed.

Lemma path_ind (P : config -> Prop) :
  P (initial nmatches) ->
  (forall c1 c2, vpath (initial nmatches) c1 -> P c1 -> vstep c1 c2 -> P c2) ->
  forall c, vpath (initial nmatches) c -> P c.
Proof. intros H0 H1 c H. apply (rtc_ind_r (R:=vstep) P (initial nmatches)); [done|eauto|exact H]. Qed.

Lemma step_cases p1 j1 ms1 p2 j2 ms2 :
  vstep (p1, j1, ms1) (p2, j2, ms2) ->
  j2 = j1 \/ exists op c, p2 = S p1 /\ j2 = S j1 /\ ms2 = ms1 /\
    program !! p1 = Some op /\ s !! j1 = Some c /\ accepts op c = Ok true.
Proof. inversion 1; subst; try (by left). right. eauto 10. Qed.

Lemma accepts_thread_op p op c : program !! p = Some op -> accepts op c = Ok true -> is_thread_op p.
Proof. intros Hp Hacc. exists op. split; [done|]. by destruct op. Qed.

Lemma path_position q j ms : vpath (initial nmatches) (q, j, ms) -> (j <= len)%nat.
Proof.
  apply (path_ind (fun c => (c.1.2 <= len)%nat)); [simpl; lia|].
  intros [[p1 j1] ms1] [[p2 j2] ms2] _ IH [->|(op & c & _ & -> & _ & _ & Hi & _)]%step_cases; simpl in *; [done|].
  apply lookup_lt_Some in Hi. lia.
Qed.

(** A path that goes past a position keeps a thread there. *)
Lemma path_through i q j ms :
  vpath (initial nmatches) (q, j, ms) -> (i < j \/ i = j /\ is_thread_op q)%nat ->
  exists p ms', vpath (initial nmatches) (p, i, ms') /\ is_thread_op p.
Proof.
  apply (path_ind (fun c => (i < c.1.2 \/ i = c.1.2 /\ is_thread_op c.1.1)%nat ->
    exists p ms', vpath (initial nmatches) (p, i, ms') /\ is_thread_op p)); simpl.
  - intros [?|[-> Hop]]; [lia|]. eexists _, _. split; [apply rtc_refl|done].
  - intros [[p1 j1] ms1] [[p2 j2] ms2] H1 IH Hstep [Hij|[-> Hop]]; simpl in *.
    + apply step_cases in Hstep as [->|(op & c & -> & -> & -> & Hp & Hi & Hacc)]; [by apply IH; left|].
      destruct (decide (i = j1)) as [->|Hne]; [|apply IH; left; lia].
      exists p1, ms1. split; [done|]. by eapply accepts_thread_op.
    + exists p2, ms2. split; [by eapply rtc_r|done].
Qed.

Lemma complete_next sp cur st st' :
  (S sp <= len)%nat -> complete sp cur -> advanced sp cur 0 st st' ->
  fresh (S sp) (next st) -> grows (S sp) nothing (next st) (next st') -> complete (S sp) (next st').
Proof.
  intros Hle [Hc He] (_ & _ & Hadv) Hf Hg.
  assert (Hex : forall q, marked (S sp) (next st') q -> explored (S sp) (next st') q)
    by (intros q Hq; by eapply fresh_grows_explored).
  split; [|done]. intros q ms H.
  refine (path_ind (fun c => c.1.2 = S sp -> marked (S sp) (next st') c.1.1) _ _ _ H eq_refl); [done|].
  intros [[p1 j1] ms1] [[p2 j2] ms2] H1 IH Hstep Hj; simpl in *. subst j2.
  destruct (step_cases _ _ _ _ _ _ Hstep) as [<-|(op & c & -> & [= <-] & -> & Hp & Hi & Hacc)].
  - apply (proj1 (Hex p1 (IH eq_refl))). by exists ms1, ms2.
  - destruct (proj2 (He p1 (Hc p1 ms1 H1))) as (k & t & Hk & Ht & <-); [by eapply accepts_thread_op|].
    destruct (Hadv k t ltac:(lia) Ht) as [_ Hm]. by apply (Hm c op).
Qed.

Definition no_match_before sp : Prop :=
  forall p j ms, program !! p = Some OPCODE_MATCH -> vpath (initial nmatches) (p, j, ms) -> (sp <= j)%nat.

Record run_inv sp cur (st : vm_state) : Prop := {
  inv_sp : (sp <= len)%nat;
  inv_cur : list_wf sp cur;
  inv_sound : sound_list sp cur;
  inv_visited : visited_le (S sp) cur;
  inv_next : fresh (S sp) (next st);
  inv_result : length (result st) = nmatches;
  inv_matched : matched st = true -> final_ok (result st);
  inv_unmatched : matched st = false -> complete sp cur /\ no_match_before sp
}.

Lemma no_match_here sp cur st st' :
  complete sp cur -> no_match_before sp -> advanced sp cur 0 st st' -> no_match_before (S sp).
Proof.
  intros [Hc He] Hno (_ & _ & Hadv) p j ms Hp Hpath. specialize (Hno p j ms Hp Hpath).
  destruct (decide (j = sp)) as [->|Hne]; [|lia]. exfalso.
  destruct (proj2 (He p (Hc p ms Hpath))) as (k & t & Hk & Ht & <-); [by exists OPCODE_MATCH|].
  by destruct (Hadv k t ltac:(lia) Ht).
Qed.

Lemma run_string_spec fuel sp cur st :
  run_inv sp cur st -> (len < sp + fuel)%nat ->
  exists st', run_string program mem nmatches fuel sp cur st = Ok st' /\ length (result st') = nmatches /\
    (matched st' = true -> final_ok (result st')) /\
    (matched st' = false -> forall p j ms, program !! p = Some OPCODE_MATCH -> ~ vpath (initial nmatches) (p, j, ms)).
Proof.
  revert sp cur st. induction fuel as [|fuel IH]; intros sp cur st [Hsp Hcur Hsnd Hv Hf Hres Hyes Hno] Hfuel; [lia|].
  cbn [run_string].
  destruct (run_threads_spec sp cur (nthreads cur) 0 st Hsp eq_refl Hsnd Hcur (proj1 (proj2 Hf)) Hres)
    as (st1 & -> & Hwf1 & Hg1 & Hres1 & Hor). cbn [obind].
  assert (Hyes1 : matched st1 = true -> final_ok (result st1)).
  { intros Hm. destruct Hor as [(Hm1 & Hr1 & _)|[_ Hok]]; [|done]. rewrite Hr1. apply Hyes. congruence. }
  assert (Hno1 : matched st1 = false ->
    complete sp cur /\ no_match_before (S sp) /\ advanced sp cur 0 st st1).
  { intros Hm. destruct Hor as [Hadv|[Ht _]]; [|congruence]. destruct Hno as [Hc Hb]; [destruct Hadv; congruence|].
    split; [done|]. split; [by eapply no_match_here|done]. }
  destruct (lookup_lt_is_Some_2 mem sp (mem_readable sp Hsp)) as [c Hc]. unfold peek. rewrite Hc. cbn [obind].
  assert (Hend : c = 0 <-> sp = len).
  { destruct (mem_cases sp Hsp) as [[? H]|(c' & ? & H & _ & ?)]; simplify_eq; lia. }
  destruct (Z.eqb_spec c 0) as [Hc0|Hc0].
  { rewrite orb_true_r. eexists. split; [done|]. simpl. split; [done|]. split; [done|].
    intros Hm p j ms Hp Hpath. destruct (Hno1 Hm) as (_ & Hb & _).
    pose proof (Hb p j ms Hp Hpath). pose proof (path_position _ _ _ Hpath). lia. }
  rewrite orb_false_r. assert (Hlt : (S sp <= len)%nat) by lia.
  assert (Hcomp : matched st1 = false -> complete (S sp) (next st1)).
  { intros Hm. destruct (Hno1 Hm) as (Hcc & _ & Hadv). by eapply complete_next. }
  case_bool_decide as Hn.
  { eexists. split; [done|]. simpl. split; [done|]. split; [done|].
    intros Hm p j ms Hp Hpath. destruct (Hno1 Hm) as (_ & Hb & _). pose proof (Hb p j ms Hp Hpath).
    destruct (path_through (S sp) p j ms Hpath) as (p' & ms' & Hpath' & Hop').
    { destruct (decide (S sp = j)); [right; split; [done|by exists OPCODE_MATCH]|left; lia]. }
    destruct (Hcomp Hm) as [Hc1 He1]. destruct (proj2 (He1 p' (Hc1 p' ms' Hpath')) Hop') as (k & t & Hk & _). lia. }
  apply IH; [|lia]. split; simpl; try done.
  - by eapply fresh_grows_sound.
  - by eapply fresh_grows_visited.
  - apply (fresh_swap sp); [done|]. eapply Forall_impl; [exact Hv|simpl; lia].
  - intros Hm. split; [by apply Hcomp|]. by apply Hno1.
Qed.

Lemma zero_fresh : fresh 0 (mkThreads 0 (replicate N zero_thread)).
Proof.
  split; [done|]. split; [split; simpl; [by rewrite length_replicate|lia|]|];
    apply Forall_replicate; simpl; done || lia.
Qed.

Lemma vm_run_spec :
  exists b r, vm_run_with_threads program mem nmatches = Ok (b, r) /\
    (b = true -> final_ok r) /\
    (b = false -> forall p j ms, program !! p = Some OPCODE_MATCH -> ~ vpath (initial nmatches) (p, j, ms)).
Proof.
  unfold vm_run_with_threads. cbv zeta. pose proof zero_fresh as Hf.
  destruct (add_thread_spec 0 (add_fuel program) (mkThreads 0 (replicate N zero_thread)) 0 (replicate nmatches None))
    as (l & -> & Hwf & Hg & Hm).
  - apply mem_readable. lia.
  - apply Hf.
  - destruct (fine_code _ Hfine) as (code & -> & _). rewrite length_app. simpl. lia.
  - unfold add_fuel. lia.
  - rewrite length_replicate. lia.
  - intros _. exists (replicate nmatches None). split; [apply rtc_refl|done].
  - cbn [obind]. assert (Hle : (0 <= len)%nat) by lia.
    assert (Hex : forall q, marked 0 l q -> explored 0 l q) by (intros q Hq; by eapply fresh_grows_explored).
    destruct (run_string_spec (length mem) 0 l
      (mkVm false (replicate nmatches None) (mkThreads 0 (replicate N zero_thread)))) as (st & -> & _ & Hyes & Hno).
    + split; simpl; try done.
      * by eapply fresh_grows_sound.
      * by eapply fresh_grows_visited.
      * destruct Hf as (_ & Hw & Hv). apply (fresh_swap 0 _ (mkThreads 0 (replicate N zero_thread)) Hw).
        eapply Forall_impl; [exact Hv|simpl; lia].
      * by rewrite length_replicate.
      * intros _. split; [split; [|done]|intros p j ms _ _; lia]. intros q ms H.
        refine (path_ind (fun c => c.1.2 = 0%nat -> marked 0 l c.1.1) _ _ _ H eq_refl); [done|].
        intros [[p1 j1] ms1] [[p2 j2] ms2] H1 IH Hstep Hj; simpl in *. subst j2.
        destruct (step_cases _ _ _ _ _ _ Hstep) as [<-|(op & c & _ & Hj & _)]; [|done].
        apply (proj1 (Hex p1 (IH eq_refl))). by exists ms1, ms2.
    + pose proof (mem_readable len ltac:(lia)). lia.
    + cbn [obind]. eauto.
Qed.

End Machine.

(** The match instruction is the last one. *)
Lemma match_unique pattern root p :
  node_wf (cstring pattern) root -> program_of pattern root !! p = Some OPCODE_MATCH ->
  p = match_pc pattern root.
Proof.
  intros Hwf Hp. unfold program_of in Hp. unfold match_pc.
  set (code := code_of _ _ _ _) in *.
  assert (Hfine : Forall (instr_fine 0 (0 + length code)) code) by by apply code_of_fine, program_node_wf.
  destruct (decide (p < length code)%nat) as [Hlt|Hge].
  - rewrite lookup_app_l in Hp by done. by destruct (Forall_lookup_1 _ _ _ _ Hfine Hp) as (_ & _ & Hm).
  - rewrite lookup_app_r in Hp by lia. apply list_lookup_singleton_Some in Hp as [Hp _]. lia.
Qed.
