(* ===== verification/CregexCorrect.v ===== *)
(** CregexCorrect: the regular expression engine as its callers use it, from
    the text of a pattern to the answer and the saved pointers. *)

From Stdlib Require Import Ascii.
From stdpp Require Import strings relations.
From S2P Require Import Prelude CregexParse CregexCompile CregexSpec CregexParseCorrect CregexCompileCorrect.
From S2P Require Import CregexVm CregexPaths CregexVmCorrect.

Open Scope cregex_scope.

(** ** Negated classes: the only nodes that accept the terminator *)

Fixpoint has_negated (n : cregex_node) : bool :=
  match n with
  | CHARACTER_CLASS_NEGATED _ _ => true
  | CONCATENATION l r | ALTERNATION l r => has_negated l || has_negated r
  | QUANTIFIER _ _ _ n | CAPTURE n => has_negated n
  | _ => false
  end.

Definition is_negated (op : cregex_program_instr) : bool :=
  match op with OPCODE_CHARACTER_CLASS_NEGATED _ => true | _ => false end.

Abbreviation no_negated := (Forall (fun op => is_negated op = false)).

Lemma mk_split_not_negated greedy a z : is_negated (mk_split greedy a z) = false.
Proof. by destruct greedy. Qed.

Lemma code_of_no_negated pat n b nc : has_negated n = false -> no_negated (code_of pat n b nc).
Proof.
  revert b nc. induction n as [| | | | |l IHl r IHr|l IHl r IHr|nmin nmax greedy q IHq| | |n IHn];
    intros b nc Hn; cbn [code_of]; simpl in Hn; try (repeat constructor; done); try done.
  - apply orb_false_iff in Hn as [Hl Hr]. apply Forall_app. auto.
  - apply orb_false_iff in Hn as [Hl Hr]. constructor; [done|]. apply Forall_app. split; [auto|].
    constructor; auto.
  - set (f := fun b => code_of pat q b nc). assert (Hf : forall b, no_negated (f b)) by (intros; by apply IHq).
    cbv zeta. apply Forall_app. split.
    + generalize b. induction (Z.to_nat nmin) as [|k IH]; intros b'; simpl; [constructor|]. by apply Forall_app.
    + generalize (b + length (repeat_code f (Z.to_nat nmin) b))%nat. intros e.
      destruct (nmin <? nmax); [|destruct (nmax =? -1); [destruct (nmin =? 0)|constructor]].
      * revert e. induction (Z.to_nat (nmax - nmin)) as [|k IH]; intros e; simpl; [constructor|].
        constructor; [apply mk_split_not_negated|]. by apply Forall_app.
      * unfold star_code. constructor; [apply mk_split_not_negated|]. apply Forall_app. split; [done|].
        by repeat constructor.
      * constructor; [apply mk_split_not_negated|constructor].
  - constructor; [done|]. apply Forall_app. split; [auto|by repeat constructor].
Qed.

Lemma program_of_no_negated pattern root :
  has_negated root = false ->
  ~ exists klass, OPCODE_CHARACTER_CLASS_NEGATED klass ∈ program_of pattern root.
Proof.
  intros Hn (klass & Hin). unfold program_of in Hin. apply elem_of_app in Hin as [Hin|Hin].
  - assert (H := code_of_no_negated (cstring pattern) (program_node root) 0 0).
    rewrite Forall_forall in H. specialize (H ltac:(unfold program_node; simpl; destruct (node_is_anchored root); done) _ Hin).
    done.
  - by apply list_elem_of_singleton in Hin.
Qed.

(** ** Anchors *)

(** The pattern has an anchor [^]. *)
Fixpoint has_anchor (n : cregex_node) : bool :=
  match n with
  | CONCATENATION l r | ALTERNATION l r => has_anchor l || has_anchor r
  | QUANTIFIER _ _ _ q => has_anchor q
  | ANCHOR_BEGIN => true
  | CAPTURE n => has_anchor n
  | _ => false
  end.

(** An anchor [^] is under a quantifier that may repeat zero times. *)
Fixpoint optional_anchor (n : cregex_node) : bool :=
  match n with
  | CONCATENATION l r | ALTERNATION l r => optional_anchor l || optional_anchor r
  | QUANTIFIER nmin _ _ q => (nmin <=? 0) && has_anchor q || optional_anchor q
  | CAPTURE n => optional_anchor n
  | _ => false
  end.

(** The part of the string from [i] to [j] matches the node. *)
Definition substring_matches (pattern s : list Z) (root : cregex_node) (i j : nat) : Prop :=
  (i <= length s)%nat /\ rmatch (cstring pattern) s root i j.

(** Every match of the node starts at the beginning of the string. *)
Fixpoint must_anchor (n : cregex_node) : bool :=
  match n with
  | CONCATENATION l _ => must_anchor l
  | ALTERNATION l r => must_anchor l && must_anchor r
  | QUANTIFIER nmin _ _ q => (0 <? nmin) && must_anchor q
  | ANCHOR_BEGIN => true
  | CAPTURE n => must_anchor n
  | _ => false
  end.

Lemma must_anchor_sound pat s n i j : must_anchor n = true -> rmatch pat s n i j -> i = 0%nat.
Proof.
  revert i j. induction n as [| | | | |l IHl r IHr|l IHl r IHr|nmin nmax greedy q IHq| | |n IHn];
    intros i j Hn HR; simpl in *; try done.
  - destruct HR as (k & HR & _). by eapply IHl.
  - apply andb_true_iff in Hn as [Hl Hr]. destruct HR; eauto.
  - apply andb_true_iff in Hn as [Hmin%Z.ltb_lt Hq]. destruct HR as (k & Hk & _ & HR).
    destruct k as [|k]; [lia|]. inversion HR; subst. by eapply IHq.
  - by destruct HR.
  - by eapply IHn.
Qed.

Lemma anchored_has n : has_anchor n = false -> node_is_anchored n = false.
Proof.
  induction n; simpl; try done; try tauto.
  - intros [? ?]%orb_false_iff. auto.
  - intros [? ?]%orb_false_iff. rewrite IHn1; auto.
Qed.

(** Without an optional anchor, the anchor test of the compiler tells whether every match
    starts at the beginning of the string. *)
Lemma anchored_must n : optional_anchor n = false -> node_is_anchored n = must_anchor n.
Proof.
  induction n as [| | | | |l IHl r IHr|l IHl r IHr|nmin nmax greedy q IHq| | |n IHn];
    cbn [optional_anchor node_is_anchored must_anchor]; try done.
  - intros [? ?]%orb_false_iff. auto.
  - intros [? ?]%orb_false_iff. by rewrite IHl, IHr.
  - intros [Hq Ho]%orb_false_iff. destruct (Z.ltb_spec 0 nmin) as [Hm|Hm]; simpl; [auto|].
    apply anchored_has. apply Z.leb_le in Hm. by rewrite Hm in Hq.
Qed.

(** ** The whole engine *)

Section Search.
Context (pattern s rest : list Z) (root : cregex_node) (nmatches : nat).
Context (Hsafe : safe_pattern pattern) (Hne : pattern ≠ []).
Context (Hparse : cregex_parse true pattern = Ok root) (Hsize : instruction_count root + 6 < 2 ^ 31).
Context (Hs : ascii s) (Hbeyond : rest ≠ [] \/ has_negated root = false).
#[local] Abbreviation pat := (cstring pattern).
#[local] Abbreviation mem := (cstring s ++ rest).

Lemma root_wf : node_wf pat root.
Proof. destruct (parse_safe pattern Hsafe Hne) as [H|(n & H & Hwf)]; congruence. Qed.

Lemma search_spec :
  exists b r, cregex_search pattern mem nmatches = Ok (b, r) /\
    (b = true <-> exists i j, may_start root s i /\ rmatch pat s root i j) /\
    (b = true -> (2 <= nmatches)%nat -> exists i j, r !! 0%nat = Some (Some i) /\ r !! 1%nat = Some (Some j) /\
       may_start root s i /\ rmatch pat s root i j).
Proof.
  pose proof root_wf as Hwf. destruct (compile_program pattern root Hwf Hsize) as [Hcomp _].
  destruct (vm_run_spec (program_of pattern root) (program_of_fine _ _ Hwf) s mem Hs) with (nmatches := nmatches)
    as (b & r & Hrun & Hyes & Hno).
  { by exists rest. }
  { intros Hneg. destruct Hbeyond as [Hr|Hn]; [|by destruct (program_of_no_negated pattern root Hn)].
    unfold cstring. rewrite !length_app. simpl. destruct rest; [done|simpl; lia]. }
  exists b, r. split.
  { unfold cregex_search, compile_pattern. rewrite Hparse. cbn [obind]. rewrite Hcomp. exact Hrun. }
  destruct (program_at pattern root) as (_ & _ & _ & _ & Hmatch & _).
  assert (Hsound : b = true -> exists i j ms, may_start root s i /\ rmatch pat s root i j /\
    take (Nat.min nmatches REGEX_VM_MAX_MATCHES) r = take (Nat.min nmatches REGEX_VM_MAX_MATCHES) ms /\
    ((0 < nmatches)%nat -> ms !! 0%nat = Some (Some i)) /\ ((1 < nmatches)%nat -> ms !! 1%nat = Some (Some j))).
  { intros Hb. destruct (Hyes Hb) as (p & j & ms & Hp & Hpath & Htake).
    assert (p = match_pc pattern root) as -> by by apply (match_unique pattern root p Hwf).
    destruct (program_sound pattern root s nmatches Hwf Hs j ms Hpath) as (i & Hi & HR & H0 & H1).
    by exists i, j, ms. }
  split; [split|].
  - intros Hb. destruct (Hsound Hb) as (i & j & _ & Hi & HR & _). eauto.
  - intros (i & j & Hi & HR). destruct b; [done|]. exfalso.
    destruct (program_complete pattern root s nmatches Hwf Hs i j Hi HR) as [ms Hpath].
    by apply (Hno eq_refl (match_pc pattern root) j ms).
  - intros Hb Hn. destruct (Hsound Hb) as (i & j & ms & Hi & HR & Htake & H0 & H1). exists i, j.
    assert (Hr : forall k, (k < 2)%nat -> r !! k = ms !! k).
    { intros k Hk. assert (k < Nat.min nmatches REGEX_VM_MAX_MATCHES)%nat by (unfold REGEX_VM_MAX_MATCHES; lia).
      set (n := Nat.min nmatches REGEX_VM_MAX_MATCHES) in *.
      transitivity (take n r !! k); [symmetry|rewrite Htake]; by apply lookup_take_lt. }
    rewrite !Hr by lia. split_and!; [apply H0; lia|apply H1; lia|apply Hi..|done].
Qed.

End Search.



(** ** What the search misses *)

(** An anchor under an optional quantifier counts as an anchor of the
    pattern: the search misses the match that [(^a)?b] has at position 1. *)
Theorem optional_anchor_misses :
  let root := CONCATENATION (QUANTIFIER 0 1 true (CAPTURE (CONCATENATION ANCHOR_BEGIN (CHARACTER 97)))) (CHARACTER 98) in
  cregex_parse true (str "(^a)?b") = Ok root /\
  rmatch (cstring (str "(^a)?b")) (str "cb") root 1 2 /\
  cregex_search (str "(^a)?b") (cstring (str "cb")) 2 = Ok (false, [None; None]).
Proof.
  split; [vm_compute; reflexivity|]. split; [|vm_compute; reflexivity].
  exists 1%nat. split; [|by split]. exists 0%nat. split; [lia|]. split; [right; lia|constructor].
Qed.

(** A negated class accepts the terminator, so that an end anchor after it
    reads past the string; and a character that is not ASCII is a negative
    index in the bitmap of a class. *)
Theorem search_reads_past_string :
  cregex_search (str "[^a]$") (cstring []) 2 = Bad OutOfBoundsRead /\
  cregex_search (str "[^a]$") (cstring [] ++ [0]) 2 = Ok (false, [None; None]) /\
  cregex_search (str "[a]") (cstring [-61]) 2 = Bad OutOfBoundsRead.
Proof. vm_compute. auto. Qed.
