(* ===== verification/Disk.v ===== *)
(** Disk: sector I/O on a drive or volume handle, src/src/ms-sys/file.c and
    [WriteFileWithRetry] of src/src/stdio.c.

    The functions of the operating system that this code calls are the methods
    of the class [Os], over a type [D] that holds the state of the machine
    (the disk behind the handle, its file pointer, the allocator, the last
    error). What Windows documents of them is the class [OsLaws]: the content
    of the disk is a function from byte offsets to bytes, a failed or short
    write may have changed any byte of its range and no other, a read that
    succeeds returns the bytes that are there, and a state may be [reliable],
    when sector-aligned accesses inside the disk succeed in full. *)

From S2P Require Import Prelude.

(** ** The operating system *)

Inductive seek_method := FILE_BEGIN | FILE_CURRENT.

(** A call that returns a BOOL and a value through a pointer gives an [option]
    when the value has no meaning on failure. *)
Class Os (D : Type) := {
  mm_malloc : Z -> D -> option (list Z) * D;
  calloc : Z -> D -> option (list Z) * D;
  SetFilePointerEx : Z -> seek_method -> D -> option Z * D;
  WriteFile : list Z -> D -> (bool * Z) * D;
  ReadFile : Z -> D -> (bool * list Z) * D;
  GetLastError : D -> Z;
  SetLastError : Z -> D -> D;
  Sleep : Z -> D -> D;
}.

(** The globals of the program that sector I/O reads or sets, beside the state
    of the machine. *)
Record world (D : Type) := mkWorld {
  machine : D;
  LastWriteError : Z;
  ErrorStatus : Z;
  large_drive : bool;
  ulBytesPerSector : Z;
}.
Arguments mkWorld {_}.
Arguments machine {_}.
Arguments LastWriteError {_}.
Arguments ErrorStatus {_}.
Arguments large_drive {_}.
Arguments ulBytesPerSector {_}.

Definition set_machine {D} (d : D) (w : world D) : world D :=
  mkWorld d (LastWriteError w) (ErrorStatus w) (large_drive w) (ulBytesPerSector w).
Definition set_LastWriteError {D} (e : Z) (w : world D) : world D :=
  mkWorld (machine w) e (ErrorStatus w) (large_drive w) (ulBytesPerSector w).
Definition set_ErrorStatus {D} (e : Z) (w : world D) : world D :=
  mkWorld (machine w) (LastWriteError w) e (large_drive w) (ulBytesPerSector w).
Definition set_ulBytesPerSector {D} (n : Z) (w : world D) : world D :=
  mkWorld (machine w) (LastWriteError w) (ErrorStatus w) (large_drive w) n.

(** ** The state monad of the program *)

Definition prog (D A : Type) : Type := world D -> A * world D.

#[export] Instance prog_ret {D} : MRet (prog D) := fun _ a w => (a, w).
#[export] Instance prog_bind {D} : MBind (prog D) :=
  fun _ _ k m w => let '(a, w') := m w in k a w'.

Definition call {D A} (f : D -> A * D) : prog D A :=
  fun w => let '(a, d) := f (machine w) in (a, set_machine d w).
Definition gets {D A} (f : world D -> A) : prog D A := fun w => (f w, w).
Definition modify {D} (f : world D -> world D) : prog D () := fun w => ((), f w).

(** [e1 && e2] on calls that have effects. *)
Definition and_then {D} (m n : prog D bool) : prog D bool :=
  b ← m; if b : bool then n else mret false.
Definition or_else {D} (m n : prog D bool) : prog D bool :=
  b ← m; if b : bool then mret true else n.

Declare Scope prog_scope.
Delimit Scope prog_scope with prog.
Notation "m && n" := (and_then m n) : prog_scope.
Notation "m || n" := (or_else m n) : prog_scope.

(** ** Constants *)

Definition WRITE_RETRIES : nat := 4.
Definition WRITE_TIMEOUT : Z := 5000.
Definition MAX_DATA_LEN : Z := 65536.
Definition ERROR_SUCCESS : Z := 0.
Definition ERROR_WRITE_FAULT : Z := 29.

(** [ERROR_SEVERITY_ERROR | FAC(FACILITY_STORAGE) | err] *)
Definition RUFUS_ERROR (err : Z) : Z := Z.lor 0xC0030000 err.
Definition SCODE_CODE (sc : Z) : Z := Z.land sc 0xFFFF.

(** ** stdio.c *)

Section io.
Context {D : Type} `{Os D}.

(** The loop of [WriteFileWithRetry]: [tries] remain, [rewind] is [nTry > 1]
    and [liFilePointer] is the file pointer, when it could be read. The
    result is the BOOL that is returned and [*lpNumberOfBytesWritten]. *)
Fixpoint write_tries (tries : nat) (rewind : bool) (liFilePointer : option Z)
    (lpBuffer : list Z) (written : Z) : prog D (bool * Z) :=
  match tries with
  | O => mret (false, written)
  | S tries =>
      placed ← (if rewind
                then p ← call (SetFilePointerEx (default 0 liFilePointer) FILE_BEGIN);
                     mret (bool_decide (is_Some p))
                else mret true);
      if negb placed then mret (false, written)
      else
        r ← call (WriteFile lpBuffer);
        let '(ok, n) := r in
        large ← gets large_drive;
        finished ← (if ok : bool
                    then _ ← modify (set_LastWriteError 0);
                         mret (bool_decide (Z.of_nat (length lpBuffer) = n)
                               || large && bool_decide (n = 0))
                    else e ← gets (fun w => GetLastError (machine w));
                         _ ← modify (set_LastWriteError (RUFUS_ERROR e));
                         mret false);
        if finished : bool then mret (true, n)
        else match liFilePointer with
        | None => mret (false, n)
        | Some _ =>
            _ ← (if bool_decide (tries ≠ 0%nat)
                 then call (fun d => ((), Sleep WRITE_TIMEOUT d)) else mret ());
            write_tries tries true liFilePointer lpBuffer n
        end
  end.

(** [WriteFileWithRetry(hFile, lpBuffer, length lpBuffer, &written, nNumRetries)] *)
Definition WriteFileWithRetry (lpBuffer : list Z) (nNumRetries : nat) : prog D (bool * Z) :=
  liFilePointer ← call (SetFilePointerEx 0 FILE_CURRENT);
  r ← write_tries (if bool_decide (nNumRetries = 0%nat) then 1 else nNumRetries)
        false liFilePointer lpBuffer 0;
  let '(ok, n) := r in
  if ok : bool then mret (true, n)
  else
    e ← gets (fun w => GetLastError (machine w));
    _ ← (if bool_decide (SCODE_CODE e = ERROR_SUCCESS)
         then call (fun d => ((), SetLastError (RUFUS_ERROR ERROR_WRITE_FAULT) d)) else mret ());
    mret (false, n).

(** ** ms-sys/file.c *)

(** The number of bytes written, -1 on error (and 0 for a large drive that
    reports that nothing was written). *)
Definition write_sectors (SectorSize StartSector nSectors : Z) (pBuf : list Z) : prog D Z :=
  if bool_decide (u64 (nSectors * SectorSize) > 0xFFFFFFFF) then mret (-1)
  else
    let Size := u32 (nSectors * SectorSize) in
    ptr ← call (SetFilePointerEx (s64 (StartSector * SectorSize)) FILE_BEGIN);
    match ptr with
    | None => mret (-1)
    | Some _ =>
        _ ← modify (set_LastWriteError 0);
        r ← WriteFileWithRetry (take (Z.to_nat Size) pBuf) WRITE_RETRIES;
        let '(ok, written) := r in
        if negb ok then
          e ← gets (fun w => GetLastError (machine w));
          _ ← modify (set_LastWriteError (RUFUS_ERROR e));
          mret (-1)
        else if bool_decide (written ≠ u64 (nSectors * SectorSize)) then
          large ← gets large_drive;
          if large && bool_decide (written = 0) then mret 0
          else
            _ ← modify (set_LastWriteError (RUFUS_ERROR ERROR_WRITE_FAULT));
            mret (-1)
        else mret written
    end.

(** The number of bytes read, or -1, and the content of [pBuf] after the call. *)
Definition read_sectors (SectorSize StartSector nSectors : Z) (pBuf : list Z) : prog D (Z * list Z) :=
  if bool_decide (u64 (nSectors * SectorSize) > 0xFFFFFFFF) then mret (-1, pBuf)
  else
    let Size := u32 (nSectors * SectorSize) in
    ptr ← call (SetFilePointerEx (s64 (StartSector * SectorSize)) FILE_BEGIN);
    match ptr with
    | None => mret (-1, pBuf)
    | Some _ =>
        r ← call (ReadFile Size);
        let '(_, bytes) := r in
        mret (Z.of_nat (length bytes), splice 0 bytes pBuf)
    end.

(** The sectors that [Len] bytes at [Position] touch: the first one and their
    number, as [read_data] and [write_data] compute them. *)
Definition sector_range (bps Position Len : Z) : Z * Z :=
  let StartSector := Position / bps in
  let EndSector := u64 (Position + Len + bps - 1) / bps in
  (StartSector, u64 (EndSector - StartSector)).

(** [offset] is the [_offset] of the fake file; the result is what the call
    stores at [pData], when it returns 1. *)
Definition read_data (offset Position Len : Z) : prog D (option (list Z)) :=
  aucBuf ← call (mm_malloc MAX_DATA_LEN);
  match aucBuf with
  | None => mret None
  | Some aucBuf =>
      bps ← gets ulBytesPerSector;
      let Position := u64 (Position + offset) in
      let '(StartSector, NumSectors) := sector_range bps Position Len in
      if bool_decide (u64 (NumSectors * bps) > MAX_DATA_LEN) then mret None
      else if bool_decide (Len > 0xFFFFFFFF) then mret None
      else
        r ← read_sectors bps StartSector NumSectors aucBuf;
        let '(size, aucBuf) := r in
        if bool_decide (size <= 0) then mret None
        else mret (Some (slice (Z.to_nat (Position - StartSector * bps)) (Z.to_nat Len) aucBuf))
  end.

Definition contains_data (offset Position : Z) (pData : list Z) (Len : Z) : prog D bool :=
  aucBuf ← call (mm_malloc MAX_DATA_LEN);
  match aucBuf with
  | None => mret false
  | Some _ =>
      r ← read_data offset Position Len;
      match r with
      | None => mret false
      | Some bytes => mret (bool_decide (take (Z.to_nat Len) pData = bytes))
      end
  end.

Definition write_data (offset Position : Z) (pData : list Z) (Len : Z) : prog D bool :=
  aucBuf ← call (mm_malloc MAX_DATA_LEN);
  match aucBuf with
  | None => mret false
  | Some aucBuf =>
      bps ← gets ulBytesPerSector;
      let Position := u64 (Position + offset) in
      let '(StartSector, NumSectors) := sector_range bps Position Len in
      if bool_decide (u64 (NumSectors * bps) > MAX_DATA_LEN) then mret false
      else if bool_decide (Len > 0xFFFFFFFF) then mret false
      else
        r ← read_sectors bps StartSector NumSectors aucBuf;
        let '(size, aucBuf) := r in
        if bool_decide (size <= 0) then mret false
        else
          let aucBuf := splice (Z.to_nat (Position - StartSector * bps))
                          (take (Z.to_nat Len) pData) aucBuf in
          written ← write_sectors bps StartSector NumSectors aucBuf;
          mret (negb (bool_decide (written <= 0)))
  end.
End io.

(** ** What the operating system promises *)

(** The disk behind the handle as the program sees it. *)
Class DiskView (D : Type) := {
  disk_byte : D -> Z -> Z;
  disk_size : D -> Z;
  disk_sector : D -> Z;
  file_pos : D -> Z;
  reliable : D -> Prop;
}.

(** The disk keeps its shape, and a reliable machine stays so. *)
Definition same_disk {D} `{DiskView D} (d d' : D) : Prop :=
  disk_size d' = disk_size d /\ disk_sector d' = disk_sector d /\ (reliable d -> reliable d').

(** ... and its content too. *)
Definition unchanged {D} `{DiskView D} (d d' : D) : Prop :=
  same_disk d d' /\ forall z, disk_byte d' z = disk_byte d z.

(** An access of [n] bytes at the file pointer that a volume accepts. *)
Definition aligned_access {D} `{DiskView D} (d : D) (n : Z) : Prop :=
  (disk_sector d | file_pos d) /\ (disk_sector d | n) /\
  0 <= file_pos d /\ 0 <= n /\ file_pos d + n <= disk_size d.

Class OsLaws (D : Type) `{Os D} `{DiskView D} := {
  malloc_law n d b d' : mm_malloc n d = (b, d') ->
    unchanged d d' /\ file_pos d' = file_pos d /\ (reliable d -> is_Some b) /\
    (forall m, b = Some m -> length m = Z.to_nat n);
  calloc_law n d b d' : calloc n d = (b, d') ->
    unchanged d d' /\ file_pos d' = file_pos d /\ (reliable d -> is_Some b) /\
    (forall m, b = Some m -> m = replicate (Z.to_nat n) 0);
  seek_law p d r d' : SetFilePointerEx p FILE_BEGIN d = (r, d') ->
    unchanged d d' /\ (forall q, r = Some q -> file_pos d' = p) /\
    (reliable d -> 0 <= p -> is_Some r);
  tell_law d r d' : SetFilePointerEx 0 FILE_CURRENT d = (r, d') ->
    unchanged d d' /\ file_pos d' = file_pos d /\ (forall q, r = Some q -> q = file_pos d) /\
    (reliable d -> is_Some r);
  write_law buf d ok n d' : WriteFile buf d = (ok, n, d') ->
    let p := file_pos d in let len := Z.of_nat (length buf) in
    same_disk d d' /\ 0 <= n <= len /\
    (forall z, ~ (p <= z < p + len) -> disk_byte d' z = disk_byte d z) /\
    (ok = true -> forall i b, Z.of_nat i < n -> buf !! i = Some b -> disk_byte d' (p + Z.of_nat i) = b) /\
    (reliable d -> aligned_access d len -> ok = true /\ n = len);
  read_law n d ok bs d' : 0 <= n -> ReadFile n d = (ok, bs, d') ->
    let p := file_pos d in
    unchanged d d' /\ Z.of_nat (length bs) <= n /\ (ok = false -> bs = []) /\
    (forall i b, bs !! i = Some b -> b = disk_byte d (p + Z.of_nat i)) /\
    (reliable d -> aligned_access d n -> Z.of_nat (length bs) = n);
  set_error_law e d : unchanged d (SetLastError e d) /\ file_pos (SetLastError e d) = file_pos d;
  sleep_law t d : unchanged d (Sleep t d) /\ file_pos (Sleep t d) = file_pos d;
  sector_law d : 0 < disk_sector d;
}.
