(* ===== verification/DiskCorrect.v ===== *)
(** DiskCorrect: the weakest preconditions of the program monad, and what the
    sector I/O of Disk.v does on any machine that obeys [OsLaws], reliable or
    not. *)

From S2P Require Import Prelude Disk.

(** ** Contents *)

(** The content [f] with [bs] stored at offset [p]. *)
Definition patch (f : Z -> Z) (p : Z) (bs : list Z) : Z -> Z :=
  fun z => if bool_decide (p <= z < p + Z.of_nat (length bs))
           then bs !!! Z.to_nat (z - p) else f z.

(** The [n] bytes of [f] from offset [p] on. *)
Definition bytes_at (f : Z -> Z) (p : Z) (n : nat) : list Z := (fun i => f (p + Z.of_nat i)) <$> seq 0 n.

(** Contents are equal when they agree at every offset. *)
Abbreviation same_content := (pointwise_relation Z (@eq Z)).

#[export] Instance patch_proper : Proper (same_content ==> eq ==> eq ==> same_content) patch.
Proof. intros f g Hfg p ? <- bs ? <- z. unfold patch. case_bool_decide; [done|apply Hfg]. Qed.

#[export] Instance bytes_at_proper : Proper (same_content ==> eq ==> eq ==> eq) bytes_at.
Proof. intros f g Hfg p ? <- n ? <-. apply list_fmap_ext. intros. apply Hfg. Qed.

Lemma patch_out f p bs z : ~ (p <= z < p + Z.of_nat (length bs)) -> patch f p bs z = f z.
Proof. intros. unfold patch. by rewrite bool_decide_false. Qed.

Lemma patch_in f p bs i b : bs !! i = Some b -> patch f p bs (p + Z.of_nat i) = b.
Proof.
  intros Hi. pose proof (lookup_lt_Some _ _ _ Hi). unfold patch.
  rewrite bool_decide_true by lia. replace (Z.to_nat (p + Z.of_nat i - p)) with i by lia.
  by apply list_lookup_total_correct.
Qed.

Lemma patch_eq f g p bs :
  (forall z, ~ (p <= z < p + Z.of_nat (length bs)) -> g z = f z) ->
  (forall i b, bs !! i = Some b -> g (p + Z.of_nat i) = b) ->
  same_content g (patch f p bs).
Proof.
  intros Hout Hin z. unfold patch. case_bool_decide as Hz; [|by apply Hout].
  replace z with (p + Z.of_nat (Z.to_nat (z - p))) at 1 by lia.
  apply Hin. apply list_lookup_lookup_total_lt. lia.
Qed.

Lemma length_bytes_at f p n : length (bytes_at f p n) = n.
Proof. unfold bytes_at. by rewrite length_fmap, length_seq. Qed.

Lemma lookup_bytes_at f p n i : (i < n)%nat -> bytes_at f p n !! i = Some (f (p + Z.of_nat i)).
Proof. intros. unfold bytes_at. by rewrite list_lookup_fmap, lookup_seq_lt by lia. Qed.

Lemma lookup_bytes_at_Some f p n i b :
  bytes_at f p n !! i = Some b -> (i < n)%nat /\ b = f (p + Z.of_nat i).
Proof.
  intros Hi. pose proof (lookup_lt_Some _ _ _ Hi) as Hl. rewrite length_bytes_at in Hl.
  rewrite lookup_bytes_at in Hi by done. by simplify_eq.
Qed.

(** Reading back what was stored. *)
Lemma bytes_at_patch f p bs : bytes_at (patch f p bs) p (length bs) = bs.
Proof.
  apply list_eq. intros i. destruct (bs !! i) as [b|] eqn:Hi.
  - rewrite lookup_bytes_at by (by eapply lookup_lt_Some). f_equal. by apply patch_in.
  - apply lookup_ge_None in Hi. apply lookup_ge_None. by rewrite length_bytes_at.
Qed.

Lemma bytes_at_patch_disjoint f p bs q n :
  q + Z.of_nat n <= p \/ p + Z.of_nat (length bs) <= q ->
  bytes_at (patch f p bs) q n = bytes_at f q n.
Proof.
  intros Hd. apply list_fmap_ext. intros i j Hj. apply lookup_seq in Hj. apply patch_out. lia.
Qed.

Lemma slice_bytes_at f p n off len :
  (off + len <= n)%nat -> slice off len (bytes_at f p n) = bytes_at f (p + Z.of_nat off) len.
Proof.
  intros Hle. apply list_eq. intros i. unfold slice.
  destruct (decide (i < len)%nat) as [Hi|Hi].
  - rewrite lookup_take_lt, lookup_drop, !lookup_bytes_at by lia. do 2 f_equal. lia.
  - rewrite !lookup_ge_None_2; [done| |]; [rewrite length_bytes_at|rewrite length_take]; lia.
Qed.

(** Writing back a range that was read, with a part replaced, replaces the part. *)
Lemma patch_splice_bytes_at f p n off bs :
  (off + length bs <= n)%nat ->
  same_content (patch f p (splice off bs (bytes_at f p n))) (patch f (p + Z.of_nat off) bs).
Proof.
  intros Hle. set (l := splice _ _ _).
  assert (Hl : length l = n) by (unfold l; rewrite length_splice; rewrite length_bytes_at; lia).
  symmetry. apply patch_eq.
  - rewrite Hl. intros z Hz. apply patch_out. lia.
  - intros i b. unfold l, splice. intros Hi.
    assert (Hpre : length (take off (bytes_at f p n)) = off) by (rewrite length_take, length_bytes_at; lia).
    destruct (decide (i < off)%nat).
    + rewrite lookup_app_l in Hi by lia. rewrite lookup_take_lt in Hi by lia.
      apply lookup_bytes_at_Some in Hi as [? ->]. apply patch_out. lia.
    + rewrite lookup_app_r in Hi by lia. rewrite Hpre in Hi.
      destruct (decide (i - off < length bs)%nat).
      * rewrite lookup_app_l in Hi by lia.
        replace (p + Z.of_nat i) with (p + Z.of_nat off + Z.of_nat (i - off)) by lia.
        by apply patch_in.
      * rewrite lookup_app_r, lookup_drop in Hi by lia.
        replace (off + length bs + (i - off - length bs))%nat with i in Hi by lia.
        apply lookup_bytes_at_Some in Hi as [? ->]. apply patch_out. lia.
Qed.

(** A part of what was stored. *)
Lemma bytes_at_patch_inside f p bs off n :
  (off + n <= length bs)%nat -> bytes_at (patch f p bs) (p + Z.of_nat off) n = slice off n bs.
Proof.
  intros Hle. apply list_eq. intros i. unfold slice.
  destruct (decide (i < n)%nat) as [Hi|Hi].
  - rewrite lookup_take_lt, lookup_drop, lookup_bytes_at by lia.
    destruct (lookup_lt_is_Some_2 bs (off + i)) as [b Hb]; [lia|]. rewrite Hb. f_equal.
    replace (p + Z.of_nat off + Z.of_nat i) with (p + Z.of_nat (off + i)) by lia.
    by apply patch_in.
  - rewrite !lookup_ge_None_2; [done| |]; [rewrite length_take|rewrite length_bytes_at]; lia.
Qed.

Lemma lookup_splice {A} off (bs l : list A) i :
  (off + length bs <= length l)%nat ->
  splice off bs l !! i =
    if bool_decide (off <= i < off + length bs)%nat then bs !! (i - off)%nat else l !! i.
Proof.
  intros Hle. unfold splice.
  assert (Hpre : length (take off l) = off) by (rewrite length_take; lia).
  destruct (decide (i < off)%nat).
  - rewrite bool_decide_false, lookup_app_l, lookup_take_lt by lia. done.
  - rewrite lookup_app_r, Hpre by lia. case_bool_decide.
    + by rewrite lookup_app_l by lia.
    + rewrite lookup_app_r, lookup_drop by lia. f_equal. lia.
Qed.

(** Storing into the part of a buffer that is then taken. *)
Lemma take_splice_lt {A} n off (bs l : list A) :
  (off + length bs <= n)%nat -> (n <= length l)%nat ->
  take n (splice off bs l) = splice off bs (take n l).
Proof.
  intros. assert (length (take n l) = n) by (rewrite length_take; lia).
  apply list_eq. intros i. rewrite (lookup_splice off bs (take n l)) by lia.
  destruct (decide (i < n)%nat).
  - rewrite !lookup_take_lt, lookup_splice by lia. done.
  - rewrite !lookup_take_ge by lia. rewrite bool_decide_false by lia. done.
Qed.

Lemma slice_splice_0 {A} off n (bs l : list A) :
  (off + n <= length bs)%nat -> slice off n (splice 0 bs l) = slice off n bs.
Proof.
  intros. unfold slice, splice. rewrite take_0, app_nil_l, drop_app_le by lia.
  rewrite take_app_le; [done|]. rewrite length_drop. lia.
Qed.

Lemma splice_0_take {A} n (bs l : list A) :
  length bs = n -> take n (splice 0 bs l) = bs.
Proof. intros. unfold splice. rewrite take_0, app_nil_l. by apply take_app_length'. Qed.

Lemma slice_splice_take {A} n off (bs l : list A) :
  (off + length bs <= n)%nat -> (n <= length l)%nat ->
  slice off (length bs) (take n (splice off bs l)) = bs.
Proof.
  intros. rewrite take_splice_lt by lia. apply slice_splice. rewrite length_take. lia.
Qed.

(** ** Weakest preconditions *)

Definition wp {D A} (m : prog D A) (w : world D) (Q : A -> world D -> Prop) : Prop :=
  Q (m w).1 (m w).2.

Section wp.
Context {D A : Type}.
Implicit Types (Q : A -> world D -> Prop) (w : world D).

Lemma wp_ret (a : A) w Q : Q a w -> wp (mret a) w Q.
Proof. done. Qed.

Lemma wp_bind {B} (m : prog D B) (k : B -> prog D A) w Q :
  wp m w (fun b w' => wp (k b) w' Q) -> wp (m ≫= k) w Q.
Proof. unfold wp, mbind, prog_bind. by destruct (m w). Qed.

Lemma wp_call f w Q :
  (forall a d, f (machine w) = (a, d) -> Q a (set_machine d w)) -> wp (call f) w Q.
Proof. intros HQ. unfold wp, call. destruct (f (machine w)) as [a d] eqn:Hf. by apply HQ. Qed.

Lemma wp_gets f w Q : Q (f w) w -> wp (gets f) w Q.
Proof. done. Qed.

Lemma wp_mono m w Q Q' : wp m w Q -> (forall a w', Q a w' -> Q' a w') -> wp m w Q'.
Proof. unfold wp. eauto. Qed.

Lemma wp_eval m w Q : wp m w Q -> exists a w', m w = (a, w') /\ Q a w'.
Proof. unfold wp. destruct (m w) as [a w']. eauto. Qed.
End wp.

Lemma wp_modify {D} f (w : world D) Q : Q tt (f w) -> wp (modify f) w Q.
Proof. done. Qed.

Lemma wp_and_then {D} (m n : prog D bool) w Q :
  wp m w (fun b w' => if b then wp n w' Q else Q false w') -> wp (and_then m n) w Q.
Proof.
  intros Hm. unfold and_then. apply wp_bind. eapply wp_mono; [apply Hm|].
  intros [] w' HQ; [done|by apply wp_ret].
Qed.

Lemma wp_or_else {D} (m n : prog D bool) w Q :
  wp m w (fun b w' => if b then Q true w' else wp n w' Q) -> wp (or_else m n) w Q.
Proof.
  intros Hm. unfold or_else. apply wp_bind. eapply wp_mono; [apply Hm|].
  intros [] w' HQ; [by apply wp_ret|done].
Qed.

(** [step] runs the next call. *)
Ltac step :=
  cbv beta;
  lazymatch goal with
  | |- wp (_ ≫= _) _ _ => apply wp_bind
  | |- wp (gets _) _ _ => apply wp_gets
  | |- wp (modify _) _ _ => apply wp_modify
  | |- wp (call _) _ _ => apply wp_call; intros
  | |- wp (mret _) _ _ => apply wp_ret
  end; cbv beta.

(** ** Sector I/O on a machine that obeys the laws *)

Abbreviation content w := (disk_byte (machine w)).

Section laws.
Context {D : Type} `{OsLaws D}.
Implicit Types (w : world D) (d : D).

#[global] Instance same_disk_preorder : PreOrder (@same_disk D _).
Proof.
  split; [by intros d; repeat split|].
  intros a b c (? & ? & ?) (? & ? & ?). repeat split; [congruence|congruence|auto].
Qed.

#[global] Instance unchanged_preorder : PreOrder (@unchanged D _).
Proof.
  split; [done|]. intros a b c [? Hab] [? Hbc]. split; [by etransitivity|].
  intros z. by rewrite Hbc, Hab.
Qed.

(** The run from [w] to [w'] leaves the shape of the disk and the globals that
    sector I/O only reads. *)
Definition keeps w w' : Prop :=
  same_disk (machine w) (machine w') /\ ErrorStatus w' = ErrorStatus w /\
  large_drive w' = large_drive w /\ ulBytesPerSector w' = ulBytesPerSector w.

#[global] Instance keeps_preorder : PreOrder keeps.
Proof.
  split; [done|]. intros a b c (? & ? & ? & ?) (? & ? & ? & ?).
  split_and!; [by etransitivity|congruence..].
Qed.

Lemma keeps_machine w d : same_disk (machine w) d -> keeps w (set_machine d w).
Proof. done. Qed.

Lemma keeps_reliable w w' : keeps w w' -> reliable (machine w) -> reliable (machine w').
Proof. intros ((_ & _ & Hr) & _). done. Qed.

(** What a write of [buf] at [p] may do: only its range changes, and a result
    that says so means that [buf] is there. *)
Definition wrote w p buf w' (complete : Prop) : Prop :=
  keeps w w' /\
  (forall z, ~ (p <= z < p + Z.of_nat (length buf)) -> content w' z = content w z) /\
  (complete -> same_content (content w') (patch (content w) p buf)).

Lemma WriteFile_spec buf w (Q : bool * Z -> world D -> Prop) :
  (forall ok n w', wrote w (file_pos (machine w)) buf w' (ok = true /\ n = Z.of_nat (length buf)) ->
     LastWriteError w' = LastWriteError w ->
     (reliable (machine w) -> aligned_access (machine w) (Z.of_nat (length buf)) ->
        ok = true /\ n = Z.of_nat (length buf)) ->
     Q (ok, n) w') ->
  wp (call (WriteFile buf)) w Q.
Proof.
  intros HQ. apply wp_call. intros [ok n] d' Hw.
  pose proof (write_law _ _ _ _ _ Hw) as (Hsame & Hn & Hout & Hin & Hrel). apply HQ.
  - split_and!; [by apply keeps_machine|done|]. intros [-> ->]. apply patch_eq; [done|].
    intros i b Hi. apply (Hin eq_refl i b); [|done]. pose proof (lookup_lt_Some _ _ _ Hi). lia.
  - done.
  - done.
Qed.

(** The calls that leave the content of the disk. *)
Definition looked w w' : Prop := keeps w w' /\ same_content (content w') (content w).

#[global] Instance looked_preorder : PreOrder looked.
Proof.
  split; [done|]. intros a b c [? Hab] [? Hbc]. split; [by etransitivity|].
  intros z. by rewrite Hbc, Hab.
Qed.

Lemma looked_machine w d : unchanged (machine w) d -> looked w (set_machine d w).
Proof. intros [Hs Hc]. split; [done|]. intros z. apply Hc. Qed.

Lemma looked_LastWriteError w e : looked w (set_LastWriteError e w).
Proof. done. Qed.

Lemma wrote_after w w' p buf w'' P : looked w w' -> wrote w' p buf w'' P -> wrote w p buf w'' P.
Proof.
  intros [Hk Hc] (Hk' & Ho & Hd). split_and!; [by etransitivity| |].
  - intros z Hz. rewrite (Ho z Hz). apply Hc.
  - intros HP z. rewrite (Hd HP z). by apply patch_proper.
Qed.

Lemma wrote_then_look w w' p buf w'' P : wrote w p buf w' P -> looked w' w'' -> wrote w p buf w'' P.
Proof.
  intros (Hk & Ho & Hd) [Hk' Hc]. split_and!; [by etransitivity| |].
  - intros z Hz. rewrite (Hc z). by apply Ho.
  - intros HP z. rewrite (Hc z). by apply Hd.
Qed.

(** A failed write, then a write of the same range, is a write of that range. *)
Lemma wrote_again w w' p buf w'' P P' : wrote w p buf w' P -> wrote w' p buf w'' P' -> wrote w p buf w'' P'.
Proof.
  intros (Hk & Ho & _) (Hk' & Ho' & Hd). split_and!; [by etransitivity| |].
  - intros z Hz. rewrite (Ho' z Hz). by apply Ho.
  - intros HP z. rewrite (Hd HP z). unfold patch. case_bool_decide as Hz; [done|]. by apply Ho.
Qed.

Lemma wrote_weaken w p buf w' (P Q : Prop) : (Q -> P) -> wrote w p buf w' P -> wrote w p buf w' Q.
Proof. intros HPQ (? & ? & ?). split_and!; auto. Qed.

Lemma wrote_none w p buf w' (P : Prop) : ~ P -> looked w w' -> wrote w p buf w' P.
Proof. intros HP [Hk Hc]. split_and!; [done| |done]. intros z _. apply Hc. Qed.

(** What [WriteFileWithRetry] reports: everything was written, or nothing on a
    large drive. *)
Definition reported w (len : Z) (r : bool * Z) : Prop :=
  r.1 = true -> r.2 = len \/ large_drive w = true /\ r.2 = 0.

(** The outcome [r] and [w'] of tries from [w]; [must] is when they have to work. *)
Definition tried w p buf (must : Prop) (r : bool * Z) w' : Prop :=
  let len := Z.of_nat (length buf) in
  wrote w p buf w' (r.1 = true /\ r.2 = len) /\ reported w len r /\
  (must -> r = (true, len) /\ LastWriteError w' = 0).

Lemma tried_none w p buf (must : Prop) n w' : looked w w' -> ~ must -> tried w p buf must (false, n) w'.
Proof. intros Hl Hm. split_and!; [apply wrote_none; [by intros [? _]|done]|done|done]. Qed.

(** The file pointer before a try: it is put back after the first one. *)
Lemma place_pointer rewind fp p w :
  (forall q, fp = Some q -> q = p) -> (rewind = false -> file_pos (machine w) = p) ->
  (rewind = true -> is_Some fp) ->
  wp (if rewind then p ← call (SetFilePointerEx (default 0 fp) FILE_BEGIN); mret (bool_decide (is_Some p))
      else mret true) w (fun b w' =>
    looked w w' /\ (b = true -> file_pos (machine w') = p) /\ (rewind = false -> b = true /\ w' = w)).
Proof.
  intros Hfp Hpos Hre. destruct rewind; [|apply wp_ret; split_and!; [done|auto|auto]].
  destruct (Hre eq_refl) as [q ->]. pose proof (Hfp q eq_refl) as ->.
  repeat step. match goal with Hs : SetFilePointerEx _ _ _ = _ |- _ =>
    destruct (seek_law _ _ _ _ Hs) as (Hu & Hq & _) end.
  split_and!; [by apply looked_machine| |done].
  intros Hb. apply bool_decide_eq_true in Hb as [q' ->]. by apply (Hq q').
Qed.

(** The next tries, after one that failed or was short and left [w3]. *)
Lemma retry_spec (next : prog D (bool * Z)) tries (fp : option Z) buf n p w w3 (must : Prop) :
  (is_Some fp -> forall w4, wp next w4 (tried w4 p buf False)) -> wrote w p buf w3 False -> ~ must ->
  wp (match fp with
      | Some _ => _ ← (if bool_decide (tries ≠ 0%nat)
                       then call (fun d => ((), Sleep WRITE_TIMEOUT d)) else mret ());
                  next
      | None => mret (false, n) end) w3 (tried w p buf must).
Proof.
  intros IH Hw3 Hm. destruct fp as [q|].
  - apply wp_bind. apply (wp_mono _ _ (fun _ w4 => looked w3 w4)).
    { case_bool_decide; [|by apply wp_ret]. apply wp_call. intros ? ? [= <- <-].
      apply looked_machine, sleep_law. }
    intros _ w4 Hl4. eapply wp_mono; [by apply IH|]. intros r w5 (Hw5 & Hrep & _).
    pose proof (wrote_then_look _ _ _ _ _ _ Hw3 Hl4) as Hw4.
    split_and!; [by eapply wrote_again| |done].
    destruct Hw4 as ((_ & _ & Hld & _) & _). intros Hr. rewrite <- Hld. by apply Hrep.
  - apply wp_ret. split_and!; [eapply wrote_weaken; [|exact Hw3]; by intros [? _]|done|done].
Qed.

Lemma write_tries_spec tries rewind fp buf n p w :
  (forall q, fp = Some q -> q = p) -> (rewind = false -> file_pos (machine w) = p) ->
  (rewind = true -> is_Some fp) ->
  wp (write_tries tries rewind fp buf n) w (tried w p buf
    (tries ≠ 0%nat /\ rewind = false /\ reliable (machine w) /\ aligned_access (machine w) (Z.of_nat (length buf)))).
Proof.
  intros Hfp. revert rewind n w. induction tries as [|tries IH]; intros rewind n w Hpos Hre.
  { apply wp_ret, tried_none; [done|by intros [? _]]. }
  cbn [write_tries]. apply wp_bind. eapply wp_mono; [by apply place_pointer|].
  intros placed w1 (Hl1 & Hp1 & Hfresh). destruct placed; cbn [negb].
  2: { apply wp_ret, tried_none; [done|]. intros (_ & Hf & _). by destruct (Hfresh Hf). }
  specialize (Hp1 eq_refl). apply wp_bind. apply WriteFile_spec. intros ok n' w2 Hw2 Hlwe Hrel2.
  rewrite Hp1 in Hw2. apply (wrote_after _ _ _ _ _ _ Hl1) in Hw2. step. step.
  assert (Hlarge : large_drive w2 = large_drive w) by (by destruct Hw2 as ((_ & _ & ? & _) & _)).
  rewrite Hlarge. apply wp_bind. set (must := S tries ≠ 0%nat /\ _).
  assert (Hrel : must -> ok = true /\ n' = Z.of_nat (length buf)).
  { intros (_ & Hf & Hr & Ha). destruct (Hfresh Hf) as [_ ->]. by apply Hrel2. }
  assert (Hnext : is_Some fp -> forall w4, wp (write_tries tries true fp buf n') w4 (tried w4 p buf False)).
  { intros Hs w4. eapply wp_mono; [by apply IH|]. intros r w5 (? & ? & _). by split_and!. }
  destruct ok.
  - repeat step. destruct (_ || _) eqn:Hdone.
    + apply wp_ret. apply orb_true_iff in Hdone. split_and!.
      * by eapply wrote_then_look, looked_LastWriteError.
      * intros _. rewrite andb_true_iff, !bool_decide_eq_true in Hdone.
        destruct Hdone as [Hd|Hd]; [left; cbn; lia|by right].
      * intros Hm. by destruct (Hrel Hm) as [_ ->].
    + apply orb_false_iff in Hdone as [Hd _]. apply bool_decide_eq_false in Hd.
      apply retry_spec; [done| |intros Hm; by destruct (Hrel Hm) as [_ ->]].
      eapply wrote_then_look, looked_LastWriteError. by (eapply wrote_weaken; [|exact Hw2]).
  - repeat step. apply retry_spec; [done| |intros Hm; by destruct (Hrel Hm)].
    eapply wrote_then_look, looked_LastWriteError. by (eapply wrote_weaken; [|exact Hw2]).
Qed.

(** [WriteFileWithRetry] writes at the file pointer it finds, whatever fails on
    the way, and on a reliable machine it writes everything. *)
Lemma WriteFileWithRetry_spec buf nNumRetries w :
  let len := Z.of_nat (length buf) in
  wp (WriteFileWithRetry buf nNumRetries) w (fun r w' =>
    wrote w (file_pos (machine w)) buf w' (r.1 = true /\ r.2 = len) /\ reported w len r /\
    (reliable (machine w) -> aligned_access (machine w) len ->
       r = (true, len) /\ LastWriteError w' = 0)).
Proof.
  intros len. unfold WriteFileWithRetry. step. step.
  match goal with Ht : SetFilePointerEx _ _ _ = (?r, ?d') |- _ =>
    rename r into fp, d' into d; destruct (tell_law _ _ _ Ht) as (Hu & Hpos & Hfp & Hrel) end.
  pose proof (looked_machine w d Hu) as Hl. step.
  eapply wp_mono; [by apply (write_tries_spec _ false fp buf 0 (file_pos (machine w)))|].
  intros [ok n] w1 (Hw & Hrep & Hgood).
  pose proof (wrote_after _ _ _ _ _ _ Hl Hw) as Hw1.
  assert (Hfull : reliable (machine w) -> aligned_access (machine w) len ->
            (ok, n) = (true, len) /\ LastWriteError w1 = 0).
  { intros Hr [Hd1 Hd2]. destruct Hu as [(Hsz & Hsec & Hrr) _].
    apply Hgood. split; [by case_bool_decide|]. split; [done|]. split; [by apply Hrr|].
    unfold aligned_access. cbn. by rewrite Hsz, Hsec, Hpos. }
  clear Hgood. destruct ok; step; [done|]. step. step.
  apply (wp_mono _ _ (fun _ w2 => looked w1 w2)).
  { case_bool_decide; step; [|done]. simplify_eq. apply looked_machine, set_error_law. }
  intros _ w2 Hl2. step. split_and!; [by eapply wrote_then_look|done|].
  intros Hr Ha. by destruct (Hfull Hr Ha).
Qed.

(** The whole sectors [p .. p + len) of the disk, in terms of the code's
    arguments. *)
Definition in_range (SectorSize StartSector nSectors : Z) : Prop :=
  0 <= StartSector * SectorSize < 2 ^ 63 /\ 0 <= nSectors * SectorSize <= 0xFFFFFFFF.

Definition on_disk w (p len : Z) : Prop :=
  (disk_sector (machine w) | p) /\ (disk_sector (machine w) | len) /\
  p + len <= disk_size (machine w).

Lemma in_range_words ss start n : in_range ss start n ->
  u64 (n * ss) = n * ss /\ u32 (n * ss) = n * ss /\ s64 (start * ss) = start * ss.
Proof.
  intros [Hp Hlen]. split_and!; [apply uwrap_small; lia..|].
  unfold swrap. rewrite Z.mod_small by lia. lia.
Qed.

Lemma on_disk_aligned w w' p len :
  looked w w' -> file_pos (machine w') = p -> 0 <= p -> 0 <= len -> on_disk w p len ->
  aligned_access (machine w') len.
Proof.
  intros [((Hsz & Hsec & _) & _) _] Hpos Hp Hlen (Ha & Hb & Hend).
  unfold aligned_access. by rewrite Hsz, Hsec, Hpos.
Qed.

Lemma keeps_on_disk w w' p len : keeps w w' -> on_disk w p len -> on_disk w' p len.
Proof. intros ((Hsz & Hsec & _) & _) Ho. unfold on_disk. by rewrite Hsz, Hsec. Qed.

(** [SetFilePointerEx(hDrive, p, NULL, FILE_BEGIN)] *)
Lemma seek_spec p w :
  wp (call (SetFilePointerEx p FILE_BEGIN)) w (fun r w' =>
    looked w w' /\ (is_Some r -> file_pos (machine w') = p) /\
    (reliable (machine w) -> 0 <= p -> is_Some r)).
Proof.
  apply wp_call. intros r d Hs. destruct (seek_law _ _ _ _ Hs) as (Hu & Hq & Hr).
  split_and!; [by apply looked_machine| |done]. intros [q ->]. by apply (Hq q).
Qed.

Lemma write_sectors_spec ss start n pBuf w :
  let len := n * ss in let bs := take (Z.to_nat len) pBuf in
  in_range ss start n -> (Z.to_nat len <= length pBuf)%nat ->
  wp (write_sectors ss start n pBuf) w (fun r w' =>
    wrote w (start * ss) bs w' (r = len) /\
    (r = len \/ r = -1 \/ r = 0 /\ large_drive w = true) /\
    (reliable (machine w) -> on_disk w (start * ss) len -> r = len /\ LastWriteError w' = 0)).
Proof.
  intros len bs Hr Hbuf. pose proof (in_range_words _ _ _ Hr) as (Hu64 & Hu32 & Hs64).
  destruct Hr as [Hp Hlen]. unfold write_sectors. rewrite Hu64, Hu32, Hs64.
  fold len. rewrite bool_decide_false by lia. fold bs.
  assert (Hbs : Z.of_nat (length bs) = len) by (unfold bs; rewrite length_take; lia).
  step. eapply wp_mono; [apply seek_spec|]. intros ptr w1 (Hl1 & Hpos & Hseek).
  destruct ptr as [q|].
  2:{ step. split_and!; [apply wrote_none; [lia|done]|auto|].
      intros Hrel _. destruct (Hseek Hrel) as [? ?]; [lia|done]. }
  specialize (Hpos (mk_is_Some _ _ eq_refl)). step. step.
  set (w2 := set_LastWriteError 0 w1). assert (Hl2 : looked w w2) by (by etransitivity).
  step. eapply wp_mono; [apply WriteFileWithRetry_spec|]. cbn zeta. rewrite Hbs.
  intros [ok r] w3 (Hw3 & Hrep & Hgood).
  change (file_pos (machine w2)) with (file_pos (machine w1)) in Hw3. rewrite Hpos in Hw3.
  apply (wrote_after _ _ _ _ _ _ Hl2) in Hw3.
  assert (Hfull : reliable (machine w) -> on_disk w (start * ss) len ->
            (ok, r) = (true, len) /\ LastWriteError w3 = 0).
  { intros Hrel Ho. apply Hgood; [exact (keeps_reliable _ _ (proj1 Hl2) Hrel)|].
    apply (on_disk_aligned w w2 (start * ss)); [done|done|lia|lia|done]. }
  assert (Hlarge : large_drive w2 = large_drive w) by apply Hl1.
  destruct ok; cbn [negb].
  2:{ repeat step. split_and!; [|auto|intros Hrel Ho; by destruct (Hfull Hrel Ho)].
      eapply wrote_then_look, looked_LastWriteError. eapply wrote_weaken; [|exact Hw3]. lia. }
  case_bool_decide as Hcase.
  - assert (Hlarge3 : large_drive w3 = large_drive w) by apply Hw3.
    step. step. rewrite Hlarge3. destruct (Hrep eq_refl) as [Hr|[Hld Hr]]; [done|].
    rewrite Hlarge in Hld. cbn in Hr. subst r. rewrite Hld, (bool_decide_true (0 = 0)) by done. cbn [andb].
    step. split_and!; [|auto|intros Hrel Ho; by destruct (Hfull Hrel Ho) as [[= <-] _]].
    eapply wrote_weaken; [|exact Hw3]. cbn. by intros <-.
  - step. assert (r = len) as -> by (by destruct (decide (r = len))).
    split_and!; [eapply wrote_weaken; [|exact Hw3]; done|auto|].
    intros Hrel Ho. by destruct (Hfull Hrel Ho).
Qed.

Lemma read_sectors_spec ss start n pBuf w :
  let len := n * ss in
  in_range ss start n -> (Z.to_nat len <= length pBuf)%nat ->
  wp (read_sectors ss start n pBuf) w (fun '(r, buf) w' =>
    looked w w' /\ -1 <= r <= len /\
    buf = splice 0 (bytes_at (content w) (start * ss) (Z.to_nat r)) pBuf /\
    (reliable (machine w) -> on_disk w (start * ss) len -> r = len)).
Proof.
  intros len Hr Hbuf. pose proof (in_range_words _ _ _ Hr) as (Hu64 & Hu32 & Hs64).
  destruct Hr as [Hp Hlen]. unfold read_sectors. rewrite Hu64, Hu32, Hs64.
  fold len. rewrite bool_decide_false by lia.
  step. eapply wp_mono; [apply seek_spec|]. intros ptr w1 (Hl1 & Hpos & Hseek).
  destruct ptr as [q|].
  2:{ step. split_and!; [done|lia|lia|done|].
      intros Hrel _. destruct (Hseek Hrel) as [? ?]; [lia|done]. }
  specialize (Hpos (mk_is_Some _ _ eq_refl)). step. step.
  match goal with Hf : ReadFile _ _ = (?r, ?d') |- _ =>
    rename r into rd, d' into d, Hf into Hread end.
  destruct rd as [ok bytes]. apply read_law in Hread as (Hu & Hle & Hfail & Hb & Hrel1); [|lia].
  step. rewrite Hpos in Hb.
  assert (Heq : bytes = bytes_at (content w) (start * ss) (length bytes)).
  { apply list_eq. intros i. destruct (bytes !! i) as [b|] eqn:Hi.
    - rewrite lookup_bytes_at by (by eapply lookup_lt_Some). f_equal.
      rewrite (Hb i b Hi). apply Hl1.
    - symmetry. apply lookup_ge_None. rewrite length_bytes_at. by apply lookup_ge_None. }
  split_and!; [|lia|done| |].
  - etransitivity; [exact Hl1|]. by apply looked_machine.
  - by rewrite Nat2Z.id, <- Heq.
  - intros Hrel Ho. apply Hrel1; [exact (keeps_reliable _ _ (proj1 Hl1) Hrel)|].
    apply (on_disk_aligned w w1 (start * ss)); [done|done|lia|lia|done].
Qed.

(** *** Bytes at any position *)

(** The offsets of the first sector of the [len] bytes at [pos], and of the end
    of the last one. *)
Definition span_start (bps pos : Z) : Z := pos / bps * bps.
Definition span_end (bps pos len : Z) : Z := (pos + len + bps - 1) / bps * bps.

Definition data_fits (bps pos len : Z) : Prop :=
  0 <= pos /\ 0 < len /\ 0 < bps <= 65536 /\ pos + len + bps <= 2 ^ 63 /\
  span_end bps pos len - span_start bps pos <= MAX_DATA_LEN.

Definition data_on_disk w (pos len : Z) : Prop :=
  let bps := ulBytesPerSector w in
  (disk_sector (machine w) | bps) /\ span_end bps pos len <= disk_size (machine w).

Lemma span_bounds bps pos len : data_fits bps pos len ->
  0 <= span_start bps pos <= pos /\ pos + len <= span_end bps pos len <= pos + len + bps - 1.
Proof.
  intros (? & ? & ? & ? & _). unfold span_start, span_end.
  pose proof (Z.div_mod pos bps ltac:(lia)). pose proof (Z.mod_pos_bound pos bps ltac:(lia)).
  pose proof (Z.div_mod (pos + len + bps - 1) bps ltac:(lia)).
  pose proof (Z.mod_pos_bound (pos + len + bps - 1) bps ltac:(lia)).
  pose proof (Z.div_pos pos bps ltac:(lia) ltac:(lia)). nia.
Qed.

(** What [read_data] and [write_data] compute, and that they pass their tests. *)
Lemma sector_range_spec bps pos len : data_fits bps pos len ->
  exists start n, sector_range bps pos len = (start, n) /\
    start * bps = span_start bps pos /\ n * bps = span_end bps pos len - span_start bps pos /\
    in_range bps start n /\ u64 (n * bps) = n * bps /\ n * bps <= MAX_DATA_LEN.
Proof.
  intros Hf. pose proof (span_bounds _ _ _ Hf) as [Hs He]. destruct Hf as (? & ? & ? & ? & Hmax).
  unfold sector_range, span_start, span_end, MAX_DATA_LEN in *.
  rewrite (uwrap_small 64 (pos + len + bps - 1)) by lia.
  set (S := pos / bps) in *. set (E := (pos + len + bps - 1) / bps) in *.
  assert (HSE : 0 <= S <= E) by (split; [apply Z.div_pos|apply Z.div_le_mono]; lia).
  assert (E * bps < 2 ^ 64) by lia. assert (E < 2 ^ 64) by nia.
  rewrite uwrap_small by lia. exists S, (E - S). split_and!; [done..|lia| |apply uwrap_small|]; try nia.
  split; nia.
Qed.

Lemma malloc_spec n w :
  wp (call (mm_malloc n)) w (fun r w' =>
    looked w w' /\ (forall b, r = Some b -> length b = Z.to_nat n) /\
    (reliable (machine w) -> is_Some r)).
Proof.
  apply wp_call. intros r d Hm. destruct (malloc_law _ _ _ _ Hm) as (Hu & _ & Hr & Hl).
  split_and!; [by apply looked_machine|done|done].
Qed.

Lemma data_sectors_on_disk w w' pos len start n :
  keeps w w' -> data_on_disk w pos len ->
  start * ulBytesPerSector w = span_start (ulBytesPerSector w) pos ->
  n * ulBytesPerSector w = span_end (ulBytesPerSector w) pos len - span_start (ulBytesPerSector w) pos ->
  on_disk w' (start * ulBytesPerSector w) (n * ulBytesPerSector w).
Proof.
  intros Hk [Hdiv Hend] Hs Hn. eapply keeps_on_disk; [done|]. unfold on_disk.
  split_and!; [by apply Z.divide_mul_r..|]. rewrite Hs, Hn. lia.
Qed.

(** The span of [len] bytes at [Position], as the code computes it. *)
Lemma span_code w w1 Position offset len :
  let pos := Position + offset in let bps := ulBytesPerSector w in
  0 <= offset -> 0 <= Position -> data_fits bps pos len -> keeps w w1 ->
  exists start n,
    u64 (Position + offset) = pos /\ ulBytesPerSector w1 = bps /\ 0 < len <= 0xFFFFFFFF /\
    sector_range bps pos len = (start, n) /\ start * bps = span_start bps pos /\
    n * bps = span_end bps pos len - span_start bps pos /\
    in_range bps start n /\ u64 (n * bps) = n * bps /\ n * bps <= MAX_DATA_LEN /\
    0 <= start * bps <= pos /\ pos + len <= start * bps + n * bps /\
    (data_on_disk w pos len -> forall w', keeps w w' -> on_disk w' (start * bps) (n * bps)).
Proof.
  intros pos bps ?? Hf Hk. pose proof (span_bounds _ _ _ Hf) as [Hsb Heb].
  destruct (sector_range_spec _ _ _ Hf) as (start & n & Hrange & Hstart & Hn & Hin & Hu & Hmax).
  exists start, n. split_and!; try done; try apply Hk; try (destruct Hf as (?&?&?&?&?); lia).
  - apply uwrap_small. destruct Hf as (?&?&?&?&?). lia.
  - destruct Hf as (?&?&?&?&?). unfold MAX_DATA_LEN in *. lia.
  - intros Ho w' Hk'. by apply (data_sectors_on_disk w w' pos len).
Qed.

Lemma read_data_spec offset Position len w :
  let pos := Position + offset in
  0 <= offset -> 0 <= Position -> data_fits (ulBytesPerSector w) pos len ->
  wp (read_data offset Position len) w (fun r w' =>
    looked w w' /\
    (reliable (machine w) -> data_on_disk w pos len ->
       r = Some (bytes_at (content w) pos (Z.to_nat len)))).
Proof.
  intros pos ?? Hf. unfold read_data. step. eapply wp_mono; [apply malloc_spec|].
  intros aucBuf w1 (Hl1 & Hbuf & Hm). destruct aucBuf as [buf|].
  2:{ step. split; [done|]. intros Hr. by destruct (Hm Hr). }
  destruct (span_code w w1 Position offset len) as (start & n & Hpos & Hbps & Hlen & Hrange &
    Hstart & Hn & Hin & Hu & Hmax & Hs & He & Hdisk); [done|done|done|apply Hl1|].
  specialize (Hbuf buf eq_refl). step. step. fold pos in Hpos, Hrange, Hs, He, Hdisk.
  fold pos. rewrite Hbps, Hpos, Hrange, Hu. rewrite !bool_decide_false by lia.
  step. eapply wp_mono; [apply read_sectors_spec; [done|lia]|].
  intros [size buf'] w2 (Hl2 & Hsz & -> & Hrd).
  assert (Hl : looked w w2) by by etransitivity.
  assert (Hfull : reliable (machine w) -> data_on_disk w pos len -> size = n * ulBytesPerSector w).
  { intros Hr Ho. apply Hrd; [exact (keeps_reliable _ _ (proj1 Hl1) Hr)|]. apply Hdisk; [done|apply Hl1]. }
  case_bool_decide as Hcase; step; (split; [done|]); intros Hr Ho; specialize (Hfull Hr Ho); [lia|].
  f_equal. rewrite slice_splice_0, slice_bytes_at by (rewrite ?length_bytes_at; lia).
  rewrite (proj2 Hl1). f_equal. lia.
Qed.

Lemma contains_data_spec offset Position pData len w :
  let pos := Position + offset in
  0 <= offset -> 0 <= Position -> data_fits (ulBytesPerSector w) pos len ->
  wp (contains_data offset Position pData len) w (fun r w' =>
    looked w w' /\
    (reliable (machine w) -> data_on_disk w pos len ->
       r = bool_decide (take (Z.to_nat len) pData = bytes_at (content w) pos (Z.to_nat len)))).
Proof.
  intros pos ?? Hf. unfold contains_data. step. eapply wp_mono; [apply malloc_spec|].
  intros aucBuf w1 (Hl1 & _ & Hm). destruct aucBuf as [buf|].
  2:{ step. split; [done|]. intros Hr. by destruct (Hm Hr). }
  assert (Hbps : ulBytesPerSector w1 = ulBytesPerSector w) by apply Hl1.
  step. eapply wp_mono; [apply read_data_spec; [done|done|by rewrite Hbps]|].
  intros r w2 (Hl2 & Hrd). assert (Hl : looked w w2) by by etransitivity.
  assert (Hfull : reliable (machine w) -> data_on_disk w pos len ->
            r = Some (bytes_at (content w) pos (Z.to_nat len))).
  { intros Hr Ho. rewrite <- (proj2 Hl1). apply Hrd; [exact (keeps_reliable _ _ (proj1 Hl1) Hr)|].
    destruct Hl1 as [((Hsz & Hsec & _) & _) _]. unfold data_on_disk. by rewrite Hsz, Hsec, Hbps. }
  destruct r as [bytes|]; step; (split; [done|]); intros Hr Ho;
    specialize (Hfull Hr Ho); by simplify_eq.
Qed.

Lemma write_data_spec offset Position pData len w :
  let pos := Position + offset in let bs := take (Z.to_nat len) pData in
  let bps := ulBytesPerSector w in
  0 <= offset -> 0 <= Position -> data_fits bps pos len -> len <= Z.of_nat (length pData) ->
  wp (write_data offset Position pData len) w (fun r w' =>
    keeps w w' /\
    (forall z, ~ (span_start bps pos <= z < span_end bps pos len) -> content w' z = content w z) /\
    (r = true -> bytes_at (content w') pos (Z.to_nat len) = bs) /\
    (reliable (machine w) -> data_on_disk w pos len ->
       r = true /\ same_content (content w') (patch (content w) pos bs))).
Proof.
  intros pos bs bps ?? Hf Hdata. unfold write_data. step. eapply wp_mono; [apply malloc_spec|].
  assert (Hbs : length bs = Z.to_nat len) by (unfold bs; rewrite length_take; lia).
  assert (Hlook : forall w', looked w w' -> forall z, content w' z = content w z) by (intros w' Hl; apply Hl).
  intros aucBuf w1 (Hl1 & Hbuf & Hm). destruct aucBuf as [buf|].
  2:{ step. split_and!; [apply Hl1|intros; by apply Hlook|done|]. intros Hr. by destruct (Hm Hr). }
  destruct (span_code w w1 Position offset len) as (start & n & Hpos & Hbps & Hlen & Hrange &
    Hstart & Hn & Hin & Hu & Hmax & Hs & He & Hdisk); [done|done|done|apply Hl1|].
  specialize (Hbuf buf eq_refl). step. step. fold pos in Hpos, Hrange, Hs, He, Hdisk, Hstart, Hn.
  fold bps in Hbps, Hrange, Hin, Hu, Hs, He, Hdisk, Hstart, Hn, Hmax.
  fold pos. rewrite Hbps, Hpos, Hrange, Hu. rewrite !bool_decide_false by lia.
  step. eapply wp_mono; [apply read_sectors_spec; [done|lia]|].
  intros [size buf'] w2 (Hl2 & Hsz & -> & Hrd).
  assert (Hl : looked w w2) by by etransitivity.
  assert (Hfull : reliable (machine w) -> data_on_disk w pos len -> size = n * bps).
  { intros Hr Ho. apply Hrd; [exact (keeps_reliable _ _ (proj1 Hl1) Hr)|]. apply Hdisk; [done|apply Hl1]. }
  case_bool_decide as Hcase.
  { step. split_and!; [apply Hl|intros; by apply Hlook|done|]. intros Hr Ho. specialize (Hfull Hr Ho). lia. }
  set (old := bytes_at (content w1) (start * bps) (Z.to_nat size)).
  assert (Hold : length old = Z.to_nat size) by apply length_bytes_at.
  assert (Hbuf1 : length (splice 0 old buf) = Z.to_nat MAX_DATA_LEN) by (rewrite length_splice; lia).
  fold bs. set (off := Z.to_nat (pos - start * bps)).
  assert (Hoff : (off + length bs <= Z.to_nat (n * bps))%nat) by (unfold off; lia).
  set (new := splice off bs (splice 0 old buf)).
  assert (Hnew : length new = Z.to_nat MAX_DATA_LEN) by (unfold new; rewrite length_splice; lia).
  step. eapply wp_mono; [apply write_sectors_spec; [done|lia]|].
  cbn zeta. set (out := take _ new).
  assert (Hout : length out = Z.to_nat (n * bps)) by (unfold out; rewrite length_take; lia).
  intros written w3 (Hw & Hcases & Hgood).
  apply (wrote_after _ _ _ _ _ _ Hl) in Hw as (Hk & Hrest & Hdone). step.
  split_and!; [done| | |].
  - intros z Hz. apply Hrest. rewrite Hout. lia.
  - intros Hw. apply negb_true_iff, bool_decide_eq_false in Hw.
    rewrite Hdone by lia. replace pos with (start * bps + Z.of_nat off) by (unfold off; lia).
    rewrite bytes_at_patch_inside by lia. rewrite <- Hbs. apply slice_splice_take; lia.
  - intros Hr Ho. destruct Hgood as [Heq _].
    { exact (keeps_reliable _ _ (proj1 Hl) Hr). }
    { apply Hdisk; [done|apply Hl]. }
    split; [rewrite bool_decide_false by lia; done|].
    rewrite (Hdone Heq). unfold out, new. rewrite take_splice_lt by lia.
    rewrite splice_0_take by (rewrite Hold, Hfull; auto). unfold old. rewrite (Hfull Hr Ho), (proj2 Hl1).
    rewrite patch_splice_bytes_at by lia. unfold off.
    by replace (start * bps + Z.of_nat (Z.to_nat (pos - start * bps))) with pos by lia.
Qed.
End laws.
