(* ===== verification/MemDisk.v ===== *)
(** MemDisk: a disk in memory that obeys the laws of Disk.v, with a script of
    the transfers that fail or stop short. It shows that the laws can hold,
    and the examples of the development run on it. *)

From S2P Require Import Prelude Disk DiskCorrect.

Inductive transfer := Works | Short (n : Z) | Fails (err : Z).

#[export] Instance transfer_eq_dec : EqDecision transfer.
Proof. solve_decision. Defined.

(** [mem_script]: what the next calls to [WriteFile] and [ReadFile] do; those
    after it work. [mem_fresh] is what fresh memory holds. *)
Record mem_disk := mkMem {
  mem_byte : Z -> Z;
  mem_size : Z;
  mem_sector : positive;
  mem_pos : Z;
  mem_script : list transfer;
  mem_error : Z;
  mem_fresh : Z;
}.

Definition mem_at (p : Z) (d : mem_disk) : mem_disk :=
  mkMem (mem_byte d) (mem_size d) (mem_sector d) p (mem_script d) (mem_error d) (mem_fresh d).
Definition mem_fail (e : Z) (d : mem_disk) : mem_disk :=
  mkMem (mem_byte d) (mem_size d) (mem_sector d) (mem_pos d) (mem_script d) e (mem_fresh d).
Definition mem_next (d : mem_disk) : mem_disk :=
  mkMem (mem_byte d) (mem_size d) (mem_sector d) (mem_pos d) (tail (mem_script d)) (mem_error d) (mem_fresh d).
Definition mem_store (bs : list Z) (d : mem_disk) : mem_disk :=
  mkMem (patch (mem_byte d) (mem_pos d) bs) (mem_size d) (mem_sector d)
    (mem_pos d + Z.of_nat (length bs)) (mem_script d) (mem_error d) (mem_fresh d).

(** A transfer of [n] bytes that a volume refuses. *)
Definition mem_accepts (n : Z) (d : mem_disk) : bool :=
  bool_decide (mem_pos d mod Z.pos (mem_sector d) = 0) && bool_decide (n mod Z.pos (mem_sector d) = 0)
  && bool_decide (0 <= mem_pos d) && bool_decide (0 <= n) && bool_decide (mem_pos d + n <= mem_size d).

Definition mem_transfer (d : mem_disk) : transfer := default Works (head (mem_script d)).

Definition mem_seek (p : Z) (m : seek_method) (d : mem_disk) : option Z * mem_disk :=
  match m with
  | FILE_BEGIN => if bool_decide (0 <= p) then (Some p, mem_at p d) else (None, mem_fail 131 d)
  | FILE_CURRENT => (Some (mem_pos d + p), mem_at (mem_pos d + p) d)
  end.

Definition mem_write (buf : list Z) (d : mem_disk) : (bool * Z) * mem_disk :=
  match mem_transfer d with
  | Fails e => ((false, 0), mem_fail e (mem_next d))
  | Short n =>
      let bs := take (Z.to_nat n) buf in ((true, Z.of_nat (length bs)), mem_store bs (mem_next d))
  | Works =>
      if mem_accepts (Z.of_nat (length buf)) d
      then ((true, Z.of_nat (length buf)), mem_store buf (mem_next d))
      else ((false, 0), mem_fail 87 (mem_next d))
  end.

Definition mem_read (n : Z) (d : mem_disk) : (bool * list Z) * mem_disk :=
  match mem_transfer d with
  | Fails e => ((false, []), mem_fail e (mem_next d))
  | Short k =>
      let k := Z.max 0 (Z.min k n) in
      ((true, bytes_at (mem_byte d) (mem_pos d) (Z.to_nat k)), mem_at (mem_pos d + k) (mem_next d))
  | Works =>
      if mem_accepts n d
      then ((true, bytes_at (mem_byte d) (mem_pos d) (Z.to_nat n)), mem_at (mem_pos d + n) (mem_next d))
      else ((false, []), mem_fail 87 (mem_next d))
  end.

#[export] Instance mem_os : Os mem_disk := {
  mm_malloc n d := (Some (replicate (Z.to_nat n) (mem_fresh d)), d);
  calloc n d := (Some (replicate (Z.to_nat n) 0), d);
  SetFilePointerEx := mem_seek;
  WriteFile := mem_write;
  ReadFile := mem_read;
  GetLastError := mem_error;
  SetLastError := mem_fail;
  Sleep _ d := d;
}.

#[export] Instance mem_view : DiskView mem_disk := {
  disk_byte := mem_byte;
  disk_size := mem_size;
  disk_sector d := Z.pos (mem_sector d);
  file_pos := mem_pos;
  reliable d := mem_script d = [];
}.

Lemma mem_accepts_aligned n d : aligned_access d n -> mem_accepts n d = true.
Proof.
  intros (Hp & Hn & ? & ? & ?). unfold mem_accepts.
  cbn in *. apply Z.mod_divide in Hp, Hn; [|done..]. by rewrite !bool_decide_true.
Qed.

Lemma mem_unchanged d p e s : (mem_script d = [] -> s = []) ->
  unchanged d (mkMem (mem_byte d) (mem_size d) (mem_sector d) p s e (mem_fresh d)).
Proof. done. Qed.

Lemma mem_next_script d : mem_script d = [] -> tail (mem_script d) = [].
Proof. by intros ->. Qed.

#[export] Hint Resolve mem_unchanged mem_next_script : core.

Lemma mem_refused e d : unchanged d (mem_fail e (mem_next d)).
Proof. exact (mem_unchanged d _ e (tail (mem_script d)) (mem_next_script d)). Qed.

Lemma mem_write_law buf d ok n d' : mem_write buf d = (ok, n, d') ->
  let p := mem_pos d in let len := Z.of_nat (length buf) in
  same_disk d d' /\ 0 <= n <= len /\
  (forall z, ~ (p <= z < p + len) -> mem_byte d' z = mem_byte d z) /\
  (ok = true -> forall i b, Z.of_nat i < n -> buf !! i = Some b -> mem_byte d' (p + Z.of_nat i) = b) /\
  (mem_script d = [] -> aligned_access d len -> ok = true /\ n = len).
Proof.
  assert (Hstore : forall k bs, bs = take k buf ->
    same_disk d (mem_store bs (mem_next d)) /\ 0 <= Z.of_nat (length bs) <= Z.of_nat (length buf) /\
    (forall z, ~ (mem_pos d <= z < mem_pos d + Z.of_nat (length buf)) ->
       patch (mem_byte d) (mem_pos d) bs z = mem_byte d z) /\
    (forall i b, Z.of_nat i < Z.of_nat (length bs) -> buf !! i = Some b ->
       patch (mem_byte d) (mem_pos d) bs (mem_pos d + Z.of_nat i) = b)).
  { intros k bs ->. rewrite length_take. split_and!; [|lia|lia| |].
    - split_and!; [done|done|]. intros Hs. cbn. by apply mem_next_script.
    - intros z Hz. apply patch_out. rewrite length_take. lia.
    - intros i b Hi Hb. apply patch_in. rewrite lookup_take_lt by lia. done. }
  unfold mem_write, mem_transfer. intros Hw.
  destruct (default Works (head (mem_script d))) as [|k|e] eqn:Hscript.
  - destruct (mem_accepts _ d) eqn:Hacc; simplify_eq.
    + destruct (Hstore (length buf) buf) as (? & ? & ? & ?); [by rewrite firstn_all|]. done.
    + split_and!; [apply mem_refused|lia|lia|done|done|].
      intros _ Ha. by rewrite mem_accepts_aligned in Hacc.
  - simplify_eq. destruct (Hstore (Z.to_nat k) _ eq_refl) as (? & ? & ? & ?).
    split_and!; try done; try lia. intros Hs. by rewrite Hs in Hscript.
  - simplify_eq. split_and!; [apply mem_refused|lia|lia|done|done|]. intros Hs. by rewrite Hs in Hscript.
Qed.

Lemma mem_read_law n d ok bs d' : 0 <= n -> mem_read n d = (ok, bs, d') ->
  unchanged d d' /\ Z.of_nat (length bs) <= n /\ (ok = false -> bs = []) /\
  (forall i b, bs !! i = Some b -> b = mem_byte d (mem_pos d + Z.of_nat i)) /\
  (mem_script d = [] -> aligned_access d n -> Z.of_nat (length bs) = n).
Proof.
  intros Hn. unfold mem_read, mem_transfer. intros Hr.
  destruct (default Works (head (mem_script d))) as [|k|e] eqn:Hscript.
  - destruct (mem_accepts _ d) eqn:Hacc; simplify_eq.
    + rewrite length_bytes_at. split_and!; [exact (mem_unchanged d _ _ (tail (mem_script d)) (mem_next_script d))|lia|done| |lia].
      intros i b Hb. by apply lookup_bytes_at_Some in Hb as [_ ->].
    + split_and!; [apply mem_refused|done|done|done|]. intros _ Ha. by rewrite mem_accepts_aligned in Hacc.
  - simplify_eq. rewrite length_bytes_at.
    split_and!; [exact (mem_unchanged d _ _ (tail (mem_script d)) (mem_next_script d))|lia|done| |].
    + intros i b Hb. by apply lookup_bytes_at_Some in Hb as [_ ->].
    + intros Hs. by rewrite Hs in Hscript.
  - simplify_eq. split_and!; [apply mem_refused|done|done|done|]. intros Hs. by rewrite Hs in Hscript.
Qed.

#[export] Instance mem_laws : OsLaws mem_disk.
Proof.
  assert (Hmoved : forall p d, unchanged d (mem_at p d)) by (intros; by apply mem_unchanged).
  split.
  - intros n d b d' [= <- <-]. split_and!; [done|done|by eexists|].
    intros m [= <-]. apply length_replicate.
  - intros n d b d' [= <- <-]. split_and!; [done|done|by eexists|]. by intros m [= <-].
  - intros p d r d'. cbn. unfold mem_seek. case_bool_decide as Hp; intros [= <- <-].
    + split_and!; [apply Hmoved|done|by eexists].
    + split_and!; [by apply mem_unchanged|done|done].
  - intros d r d'. cbn. unfold mem_seek. intros [= <- <-].
    split_and!; [apply Hmoved|apply Z.add_0_r| |by eexists]. intros q [= <-]. apply Z.add_0_r.
  - apply mem_write_law.
  - apply mem_read_law.
  - intros e d. split; [by apply mem_unchanged|done].
  - done.
  - done.
Qed.
