(* ===== verification/DiskIo.v ===== *)
(** DiskIo: the properties of sector I/O (Disk.v). *)

From S2P Require Import Prelude Disk DiskCorrect MemDisk.

(** ** Writing bytes at any position *)

Section data.
Context {D : Type} `{OsLaws D}.
Implicit Types w : world D.

(** C9: [write_data] then [read_data]: on a machine whose sector accesses succeed,
    when the sectors that the bytes touch are on the disk and fit the 64 KB buffer,
    both calls succeed, what was written is read back, [contains_data] then answers for
    any bytes whether they are those written, and every other byte of
    the disk, those of the partly written sectors included, keeps its value. *)
Theorem write_data_roundtrip offset Position pData w :
  let pos := Position + offset in let len := Z.of_nat (length pData) in
  0 <= offset -> 0 <= Position -> data_fits (ulBytesPerSector w) pos len ->
  reliable (machine w) -> data_on_disk w pos len ->
  exists w1 w2,
    write_data offset Position pData len w = (true, w1) /\
    read_data offset Position len w1 = (Some pData, w2) /\
    (forall data, exists w3,
       contains_data offset Position data len w2 = (bool_decide (take (length pData) data = pData), w3) /\
       forall z, content w3 z = content w2 z) /\
    same_content (content w2) (patch (content w) pos pData) /\
    forall z, ~ (pos <= z < pos + len) -> content w2 z = content w z.
Proof.
  intros pos len ?? Hf Hrel Hdisk.
  destruct (wp_eval _ _ _ (write_data_spec offset Position pData len w ltac:(done) ltac:(done) Hf
    (Z.le_refl _))) as (r & w1 & Hw1 & Hk & _ & Hin & Hgood).
  destruct (Hgood Hrel Hdisk) as [-> Hc1].
  assert (Htake : take (Z.to_nat len) pData = pData) by (unfold len; by rewrite Nat2Z.id, firstn_all).
  rewrite Htake in Hc1. assert (Hbps : ulBytesPerSector w1 = ulBytesPerSector w) by apply Hk.
  destruct (wp_eval _ _ _ (read_data_spec offset Position len w1 ltac:(done) ltac:(done)
    ltac:(by rewrite Hbps))) as (r & w2 & Hw2 & Hl2 & Hread).
  assert (Hc2 : same_content (content w2) (patch (content w) pos pData))
    by (intros z; rewrite (proj2 Hl2 z); apply Hc1).
  assert (Hrel1 : reliable (machine w1)) by by eapply keeps_reliable.
  assert (Hdisk1 : data_on_disk w1 pos len).
  { destruct Hk as ((Hsz & Hsec & _) & _). unfold data_on_disk. by rewrite Hbps, Hsz, Hsec. }
  exists w1, w2. split_and!; [done| | |done|].
  - rewrite Hw2, Hread, (Hin eq_refl), Htake by done. done.
  - intros data. destruct Hl2 as [Hk2 Hsame2]. assert (Hbps2 : ulBytesPerSector w2 = ulBytesPerSector w).
    { transitivity (ulBytesPerSector w1); [apply Hk2|done]. }
    destruct (wp_eval _ _ _ (contains_data_spec offset Position data len w2 ltac:(done) ltac:(done)
      ltac:(by rewrite Hbps2))) as (b & w3 & Hw3 & Hl3 & Hr).
    exists w3. split; [|apply Hl3]. rewrite Hw3, Hr; [|by eapply keeps_reliable|].
    + assert (Hbytes : bytes_at (content w2) pos (Z.to_nat len) = pData).
      { transitivity (bytes_at (content w1) pos (Z.to_nat len)); [apply list_fmap_ext; auto|].
        by rewrite <- Htake; apply Hin. }
      unfold pos in Hbytes. rewrite Hbytes. unfold len. by rewrite Nat2Z.id.
    + destruct Hk2 as ((Hsz & Hsec & _) & _). unfold data_on_disk in *. by rewrite Hbps2, <- Hbps, Hsz, Hsec.
  - intros z Hz. rewrite (Hc2 z). by apply patch_out.
Qed.

(** Whatever the system does - allocations, seeks, reads and writes that fail or
    stop short - [write_data] changes no byte outside the sectors that its
    bytes touch, and when it returns 1 its bytes are on the disk. *)
Lemma write_data_confined offset Position pData w :
  let bps := ulBytesPerSector w in
  let pos := Position + offset in let len := Z.of_nat (length pData) in
  0 <= offset -> 0 <= Position -> data_fits bps pos len ->
  exists r w',
    write_data offset Position pData len w = (r, w') /\
    (forall z, ~ (span_start bps pos <= z < span_end bps pos len) -> content w' z = content w z) /\
    (r = true -> bytes_at (content w') pos (length pData) = pData).
Proof.
  intros bps pos len ?? Hf.
  destruct (wp_eval _ _ _ (write_data_spec offset Position pData len w ltac:(done) ltac:(done) Hf
    (Z.le_refl _))) as (r & w1 & Hw1 & _ & Hout & Hin & _).
  exists r, w1. split_and!; [done|done|]. intros Hr. specialize (Hin Hr).
  unfold len in Hin. rewrite Nat2Z.id, firstn_all in Hin. exact Hin.
Qed.
End data.

(** A disk of eight 512-byte sectors, byte [z] of which is [z mod 251]. *)
Definition sample_disk (script : list transfer) : world mem_disk :=
  mkWorld (mkMem (fun z => z mod 251) 4096 512 0 script 0 0xCD) 0 0 false 512.

Definition boot_mark : list Z := [0x55; 0xAA].

Lemma boot_mark_fits : data_fits 512 (0x1FE + 0) (Z.of_nat (length boot_mark)).
Proof. unfold data_fits. vm_compute. repeat split; discriminate. Qed.

Lemma write_data_roundtrip_witness :
  exists w1 w2,
    write_data 0 0x1FE boot_mark (Z.of_nat (length boot_mark)) (sample_disk []) = (true, w1) /\
    read_data 0 0x1FE (Z.of_nat (length boot_mark)) w1 = (Some boot_mark, w2) /\
    (forall data, exists w3,
       contains_data 0 0x1FE data (Z.of_nat (length boot_mark)) w2 =
         (bool_decide (take (length boot_mark) data = boot_mark), w3) /\
       forall z, content w3 z = content w2 z) /\
    same_content (content w2) (patch (content (sample_disk [])) (0x1FE + 0) boot_mark) /\
    forall z, ~ (0x1FE + 0 <= z < 0x1FE + 0 + Z.of_nat (length boot_mark)) ->
      content w2 z = content (sample_disk []) z.
Proof.
  apply (write_data_roundtrip 0 0x1FE boot_mark (sample_disk []));
    [lia|lia|exact boot_mark_fits|reflexivity|].
  split; [exists 1; reflexivity|vm_compute; discriminate].
Defined.

Lemma write_data_confined_witness :
  exists r w',
    write_data 0 0x1FE boot_mark (Z.of_nat (length boot_mark)) (sample_disk [Works; Fails 5]) = (r, w') /\
    (forall z, ~ (span_start 512 (0x1FE + 0) <= z <
                  span_end 512 (0x1FE + 0) (Z.of_nat (length boot_mark))) ->
       content w' z = content (sample_disk [Works; Fails 5]) z) /\
    (r = true -> bytes_at (content w') (0x1FE + 0) (length boot_mark) = boot_mark).
Proof.
  apply (write_data_confined 0 0x1FE boot_mark (sample_disk [Works; Fails 5])); [lia|lia|].
  exact boot_mark_fits.
Defined.

(** [write_data] takes a read that stops short for a complete one: on a disk whose
    first read gives 16 bytes only, writing the two bytes of the boot mark
    returns 1 and byte 100 of the sector, which was 100, becomes what the fresh
    buffer happened to hold. *)
Lemma write_data_short_read :
  let w := sample_disk [Short 16] in
  let (r, w') := write_data 0 0x1FE [0x55; 0xAA] 2 w in
  r = true /\ bytes_at (content w') 0x1FE 2 = [0x55; 0xAA] /\
  content w 100 = 100 /\ content w' 100 = 0xCD.
Proof. vm_compute. repeat split. Qed.

(** ** Retries *)

(** A transfer that does not write [len] bytes. *)
Definition faulty (len : Z) (f : transfer) : Prop :=
  match f with Works => False | Short n => 0 < n < len | Fails _ => True end.

Section retries.
Context (buf : list Z) (rest : list transfer) (p : Z).
Implicit Types w : world mem_disk.

Abbreviation len := (Z.of_nat (length buf)).

(** A write of [buf] at [p] is one that the disk accepts. *)
Definition acceptable w : Prop :=
  large_drive w = false /\ 0 <= p /\ mem_accepts len (mem_at p (machine w)) = true.

Lemma mem_write_faulty f fs w :
  mem_script (machine w) = f :: fs -> faulty len f -> acceptable w -> mem_pos (machine w) = p ->
  wp (call (WriteFile buf)) w (fun r w' =>
    acceptable w' /\ mem_script (machine w') = fs /\ (r.1 = true -> 0 < r.2 < len) /\
    (forall z, ~ (p <= z < p + len) -> content w' z = content w z)).
Proof.
  intros Hs Hf (Hl & Hp & Ha) Hpos. apply wp_call. intros [ok n] d Hw. cbn in Hw.
  assert (Hout : forall z, ~ (p <= z < p + len) -> mem_byte d z = content w z).
  { rewrite <- Hpos. by destruct (mem_write_law _ _ _ _ _ Hw) as (_ & _ & ? & _). }
  unfold mem_write, mem_transfer in Hw. rewrite Hs in Hw. cbn in Hw.
  destruct f as [|k|e]; [done| |]; simplify_eq.
  - split_and!; [split_and!; [done|done|exact Ha]|by cbn; rewrite Hs| |done].
    intros _. cbn. rewrite length_take. unfold faulty in Hf. lia.
  - split_and!; [split_and!; [done|done|exact Ha]|by cbn; rewrite Hs|done|done].
Qed.

(** The file pointer at the start of a try. *)
Lemma reposition rewind w :
  acceptable w -> (rewind = false -> mem_pos (machine w) = p) ->
  wp (if rewind : bool then q ← call (SetFilePointerEx p FILE_BEGIN); mret (bool_decide (is_Some q))
      else mret true) w (fun b w' =>
    b = true /\ acceptable w' /\ mem_script (machine w') = mem_script (machine w) /\
    mem_pos (machine w') = p /\ forall z, content w' z = content w z).
Proof.
  intros (Hl & Hp & Ha) Hpos. destruct rewind; [|step; by split_and!; auto].
  unfold wp, mbind, prog_bind, call. cbn. unfold mem_seek. rewrite bool_decide_true by done.
  cbn. by split_and!.
Qed.

(** One more try after a faulty one. *)
Lemma write_tries_faulty tries rewind n f fs w Q :
  mem_script (machine w) = f :: fs -> faulty len f -> acceptable w ->
  (rewind = false -> mem_pos (machine w) = p) ->
  (forall m w', acceptable w' -> mem_script (machine w') = fs ->
     (forall z, ~ (p <= z < p + len) -> content w' z = content w z) ->
     wp (write_tries tries true (Some p) buf m) w' Q) ->
  wp (write_tries (S tries) rewind (Some p) buf n) w Q.
Proof.
  intros Hs Hf Ha Hpos Hnext. cbn [write_tries]. step.
  eapply wp_mono; [by apply reposition|].
  intros b w1 (-> & Ha1 & Hs1 & Hp1 & Hc1). rewrite Hs in Hs1. cbn [negb]. step.
  eapply wp_mono; [by apply (mem_write_faulty f fs)|]. intros [ok k] w2 (Ha2 & Hs2 & Hk & Hout).
  cbn in Hk. step. step. destruct Ha2 as (Hl2 & Hp2 & Hacc2). rewrite Hl2. step.
  apply (wp_mono _ _ (fun b w' => b = false /\ acceptable w' /\ mem_script (machine w') = fs /\
    forall z, content w' z = content w2 z)).
  { destruct ok; repeat step; [|done]. rewrite bool_decide_false by (specialize (Hk eq_refl); lia). done. }
  intros b w3 (-> & Ha3 & Hs3 & Hc3). step.
  apply (wp_mono _ _ (fun _ w' => w' = w3)).
  { case_bool_decide; step; [|done]. simplify_eq. by destruct w3. }
  intros _ w4 ->. apply Hnext; [done|done|]. intros z Hz. by rewrite Hc3, (Hout z Hz), Hc1.
Qed.

Lemma write_tries_succeed tries rewind n fs w :
  mem_script (machine w) = fs ++ Works :: rest -> Forall (faulty len) fs -> acceptable w ->
  (rewind = false -> mem_pos (machine w) = p) -> (length fs < tries)%nat ->
  wp (write_tries tries rewind (Some p) buf n) w (fun r w' =>
    r = (true, len) /\ mem_script (machine w') = rest /\
    same_content (content w') (patch (content w) p buf)).
Proof.
  revert tries rewind n w. induction fs as [|f fs IH]; intros tries rewind n w Hs Hf Ha Hpos Ht;
    (destruct tries as [|tries]; [cbn in Ht; lia|]).
  - cbn [write_tries]. step.
    eapply wp_mono; [by apply reposition|].
    intros b w1 (-> & (Hl1 & _ & Hacc) & Hs1 & Hp1 & Hc1). rewrite Hs in Hs1. cbn [negb]. step. step.
    match goal with Hw : _ = (?r, _) |- _ => destruct r as [ok k]; rename Hw into Hw1 end.
    cbn in Hw1. unfold mem_write, mem_transfer in Hw1. rewrite Hs1 in Hw1. cbn in Hw1.
    replace (mem_at p (machine w1)) with (machine w1) in Hacc
      by (rewrite <- Hp1; by destruct (machine w1)).
    rewrite Hacc in Hw1. simplify_eq. repeat step. rewrite bool_decide_true by done. cbn [orb].
    step. split_and!; [done|cbn; by rewrite Hs1|]. cbn. rewrite Hp1.
    by apply patch_proper.
  - apply Forall_cons in Hf as [Hf1 Hf]. eapply write_tries_faulty; [done..|].
    intros m w' Ha' Hs' Hout. eapply wp_mono; [apply IH; [done|done|done|done|cbn in Ht; lia]|].
    intros r w2 (-> & Hrest & Hc). split_and!; [done|done|]. intros z. rewrite (Hc z).
    unfold patch. case_bool_decide; [done|]. by apply Hout.
Qed.

Lemma write_tries_give_up tries rewind n fs w :
  mem_script (machine w) = fs ++ rest -> Forall (faulty len) fs -> acceptable w ->
  (rewind = false -> mem_pos (machine w) = p) -> (tries <= length fs)%nat ->
  wp (write_tries tries rewind (Some p) buf n) w (fun r w' => r.1 = false).
Proof.
  revert rewind n w fs. induction tries as [|tries IH]; intros rewind n w fs Hs Hf Ha Hpos Ht; [done|].
  destruct fs as [|f fs]; [cbn in Ht; lia|]. apply Forall_cons in Hf as [Hf1 Hf].
  eapply write_tries_faulty; [done..|]. intros m w' Ha' Hs' _. apply (IH _ _ _ fs); [done..|].
  cbn in Ht. lia.
Qed.
End retries.


