(* ===== verification/BadBlocksDisk.v ===== *)
(** BadBlocksDisk: the bad blocks checker on the sector I/O of Disk.v, as src/src/badblocks.c calls
    it: the device of BadBlocks.v is a machine that obeys [OsLaws]. *)

From S2P Require Import Prelude BadBlocks BadBlocksCorrect Disk DiskCorrect MemDisk.

#[local] Arguments Z.mul : simpl never.

(** ** The device *)

Section device.
Context {D : Type} `{OsLaws D}.
Implicit Types w : world D.

(** The calls of [do_write] and [do_read]; the bytes that are read go to the start of the buffer. *)
Definition disk_write w (ct n : Z) (buf : list Z) : Z * world D := write_sectors BADBLOCK_BLOCK_SIZE ct n buf w.
Definition disk_read w (ct n : Z) : Z * list Z * world D := read_sectors BADBLOCK_BLOCK_SIZE ct n [] w.

Definition disk_interrupted w : bool := negb (bool_decide (ErrorStatus w = 0)).

Definition check_disk (realloc_ok : bool) (rnd : nat -> Z) (rand : Z) (detect_fakes list_ok buffer_ok : bool)
    (size nb_passes flash_type : Z) (read0 : list Z) (g : bb_globals) w : option (bool * option badblocks_report * world D) :=
  BadBlocks disk_write disk_read disk_interrupted realloc_ok rnd rand detect_fakes list_ok buffer_ok size nb_passes flash_type read0 g w.

(** The buffer of [do_read] is what [read_sectors] leaves in it. *)
Lemma disk_read_buffer w ct n pBuf : read_sectors BADBLOCK_BLOCK_SIZE ct n pBuf w =
  let '(r, bytes, w') := disk_read w ct n in ((r, splice 0 bytes pBuf), w').
Proof.
  unfold disk_read, read_sectors. case_bool_decide; [done|]. unfold mbind, prog_bind, call, mret, prog_ret.
  destruct (SetFilePointerEx _ _ _) as [[q|] d]; [|done]. destruct (ReadFile _ _) as [[ok bytes] d'].
  unfold splice. cbn. by rewrite drop_nil, app_nil_r.
Qed.

Lemma disk_read_length w ct n : 0 <= fst (fst (disk_read w ct n)) ->
  Z.of_nat (length (snd (fst (disk_read w ct n)))) = fst (fst (disk_read w ct n)).
Proof.
  unfold disk_read, read_sectors. case_bool_decide; [done|]. unfold mbind, prog_bind, call, mret, prog_ret.
  destruct (SetFilePointerEx _ _ _) as [[q|] d]; [|done]. destruct (ReadFile _ _) as [[ok bytes] d'].
  unfold splice. cbn. by rewrite drop_nil, app_nil_r.
Qed.

(** ** Blocks of the disk *)

Abbreviation BS := BADBLOCK_BLOCK_SIZE.
Abbreviation bs := (Z.to_nat BADBLOCK_BLOCK_SIZE).

Lemma block_size_range : 0 < BS < 2 ^ 20.
Proof. unfold BADBLOCK_BLOCK_SIZE. lia. Qed.

#[local] Opaque BADBLOCK_BLOCK_SIZE.

Lemma blocks_size n : 0 <= n -> Z.to_nat (n * BS) = (Z.to_nat n * bs)%nat.
Proof. pose proof block_size_range. intros. by rewrite Z2Nat.inj_mul by lia. Qed.

Definition block_content w (x : Z) : list Z := bytes_at (content w) (x * BS) bs.

(** A machine in which nothing fails, on which the blocks are whole sectors, and whose bytes
    outside of the blocks are those of [w0]. *)
Record healthy (w0 : world D) (last : Z) w : Prop := {
  h_reliable : reliable (machine w);
  h_status : ErrorStatus w = 0;
  h_sector : (disk_sector (machine w) | BS);
  h_size : last * BS <= Disk.disk_size (machine w);
  h_outside : forall z, ~ (0 <= z < last * BS) -> content w z = content w0 z
}.

Lemma transfer_in_range last ct n : last < 2 ^ 31 -> in_blocks last BB_BLOCKS_AT_ONCE ct n -> in_range BS ct n.
Proof. pose proof block_size_range. unfold in_blocks, in_range, BB_BLOCKS_AT_ONCE. nia. Qed.

Lemma transfer_on_disk w0 last w ct n : healthy w0 last w -> in_blocks last BB_BLOCKS_AT_ONCE ct n -> on_disk w (ct * BS) (n * BS).
Proof.
  intros [] (Hct & Hn & Hle). pose proof block_size_range. split_and!; [by apply Z.divide_mul_r..|]. nia.
Qed.

Lemma healthy_after w0 last w w' : healthy w0 last w -> keeps w w' ->
  (forall z, ~ (0 <= z < last * BS) -> content w' z = content w z) -> healthy w0 last w'.
Proof.
  intros [] ((Hsz & Hsec & Hrel) & Herr & _) Hout. split; [by apply Hrel|congruence|by rewrite Hsec|by rewrite Hsz|].
  intros z Hz. rewrite Hout by done. by apply h_outside0.
Qed.

(** *** The transfers *)

Lemma disk_write_bounded w ct n buf : 1 <= n -> fst (disk_write w ct n buf) <= n * BS.
Proof.
  intros Hn. pose proof block_size_range. unfold disk_write, write_sectors. case_bool_decide as Hbig; [cbn; nia|].
  unfold mbind, prog_bind, call, mret, prog_ret, modify, gets.
  destruct (SetFilePointerEx _ _ _) as [[q|] d]; [|cbn; nia]. destruct (WriteFileWithRetry _ _ _) as [[[] k] w3]; cbn; [|nia].
  case_bool_decide as Hk; [destruct (_ && _); cbn; nia|]. cbn. rewrite Hk.
  unfold uwrap. apply Z.mod_le; nia.
Qed.

Lemma disk_read_spec last w ct n : last < 2 ^ 31 -> in_blocks last BB_BLOCKS_AT_ONCE ct n ->
  let r := disk_read w ct n in looked w (snd r) /\
  (reliable (machine w) -> on_disk w (ct * BS) (n * BS) -> fst (fst r) = n * BS /\ snd (fst r) = bytes_at (content w) (ct * BS) (Z.to_nat (n * BS))).
Proof.
  intros Hl Hin. set (pBuf := replicate (Z.to_nat (n * BS)) 0). pose proof (disk_read_buffer w ct n pBuf) as Heq.
  pose proof (read_sectors_spec BS ct n pBuf w (transfer_in_range last ct n Hl Hin) ltac:(unfold pBuf; by rewrite length_replicate)) as Hs.
  unfold wp in Hs. rewrite Heq in Hs. pose proof (disk_read_length w ct n) as Hlen. pose proof block_size_range. destruct Hin as (_ & Hn & _).
  destruct (disk_read w ct n) as [[r bytes] w']. cbn [fst snd] in *. destruct Hs as (Hlook & _ & Hbuf & Hgood).
  split; [done|]. intros Hrel Hon. specialize (Hgood Hrel Hon). subst r. split; [done|]. specialize (Hlen ltac:(nia)).
  apply (f_equal (take (Z.to_nat (n * BS)))) in Hbuf. by rewrite !splice_0_take in Hbuf by (by rewrite ?length_bytes_at; lia).
Qed.

Lemma disk_read_bounded last w ct n : last < 2 ^ 31 -> in_blocks last BB_BLOCKS_AT_ONCE ct n -> fst (fst (disk_read w ct n)) <= n * BS.
Proof.
  intros Hl Hin. pose proof (disk_read_buffer w ct n (replicate (Z.to_nat (n * BS)) 0)) as Heq.
  pose proof (read_sectors_spec BS ct n (replicate (Z.to_nat (n * BS)) 0) w (transfer_in_range last ct n Hl Hin)
    ltac:(by rewrite length_replicate)) as Hs. unfold wp in Hs. rewrite Heq in Hs.
  destruct (disk_read w ct n) as [[r bytes] w']. cbn in *. lia.
Qed.

Lemma block_written w w' ct (n : nat) buf x : (n * bs <= length buf)%nat ->
  same_content (content w') (patch (content w) (ct * BS) (take (n * bs) buf)) ->
  block_content w' x = written id bs ct buf (block_content w) n x.
Proof.
  intros Hlen Hc. pose proof block_size_range as HB. change (block_content w' x) with (bytes_at (content w') (x * BS) bs). rewrite Hc.
  destruct (written_spec id bs ct buf (block_content w) n x) as [(i & Hi & Hx & _ & ->)|[Hno ->]].
  - cbn in Hx. subst x. replace ((ct + Z.of_nat i) * BS) with (ct * BS + Z.of_nat (i * bs)) by lia.
    rewrite bytes_at_patch_inside by (rewrite length_take; nia). unfold slice. rewrite skipn_firstn_comm, take_take. f_equal. nia.
  - unfold block_content. apply bytes_at_patch_disjoint. rewrite length_take. unfold id in Hno.
    destruct (decide (ct <= x < ct + Z.of_nat n)) as [Hin|Hout]; [|nia].
    exfalso. apply (Hno (Z.to_nat (x - ct))); lia.
Qed.

Lemma outside_blocks last ct n (l : nat) z : in_blocks last BB_BLOCKS_AT_ONCE ct n -> Z.of_nat l <= n * BS ->
  ~ (0 <= z < last * BS) -> ~ (ct * BS <= z < ct * BS + Z.of_nat l).
Proof. intros (Hct & Hn & Hle) Hl Hz. pose proof block_size_range. nia. Qed.

Lemma blocks_bytes f ct B k n : B = Z.of_nat k -> concat ((fun i => bytes_at f ((ct + Z.of_nat i) * B) k) <$> seq 0 n) = bytes_at f (ct * B) (n * k).
Proof.
  intros ->. induction n as [|n IH]; [done|]. rewrite seq_S, fmap_app, concat_app, IH. cbn [fmap list_fmap concat].
  rewrite app_nil_r. replace (S n * k)%nat with (n * k + k)%nat by lia. unfold bytes_at. rewrite seq_app, fmap_app. f_equal.
  rewrite !Nat.add_0_l. replace (seq (n * k) k) with (Nat.add (n * k) <$> seq 0 k) by (rewrite fmap_add_seq; f_equal; lia). rewrite <- list_fmap_compose. apply list_fmap_ext. intros i j _. cbn. f_equal. lia.
Qed.

(** The machine keeps its blocks: it is a device whose blocks are all different cells. *)
#[refine] Instance disk_device w0 last (Hlast : last < 2 ^ 31) : MappedDevice id BS last BB_BLOCKS_AT_ONCE disk_write disk_read := {
  md_good := healthy w0 last;
  md_content := block_content;
}.
Proof.
  - intros w x. apply length_bytes_at.
  - intros w ct n buf (_ & Hn & _). apply disk_write_bounded. lia.
  - intros w ct n. by apply (disk_read_bounded last).
  - intros w ct n buf Hw Hin Hlen. pose proof block_size_range. pose proof Hin as (_ & Hn & _).
    destruct (wp_eval _ _ _ (write_sectors_spec BS ct n buf w (transfer_in_range last ct n Hlast Hin) ltac:(nia)))
      as (r & w' & Heq & (Hk & Hout & Hdone) & _ & Hgood).
    destruct (Hgood (h_reliable _ _ _ Hw) (transfer_on_disk w0 last w ct n Hw Hin)) as [-> _].
    unfold disk_write. rewrite Heq. cbn [fst snd]. split_and!; [done| |].
    + apply (healthy_after w0 last w); [done|done|]. intros z Hz. apply Hout.
      eapply outside_blocks; [exact Hin| |exact Hz]. rewrite length_take. lia.
    + intros x. apply block_written; [lia|]. rewrite (Hdone eq_refl). by rewrite blocks_size by lia.
  - intros w ct n Hw Hin. pose proof block_size_range. pose proof Hin as (_ & Hn & _).
    destruct (disk_read_spec last w ct n Hlast Hin) as (Hlook & Hr).
    destruct (Hr (h_reliable _ _ _ Hw) (transfer_on_disk w0 last w ct n Hw Hin)) as [-> ->]. split_and!; [done| | |].
    + rewrite blocks_size by lia. symmetry. apply blocks_bytes. lia.
    + apply (healthy_after w0 last w); [done|apply Hlook|]. intros z _. apply Hlook.
    + intros x. apply list_fmap_ext. intros. apply Hlook.
Defined.

(** ** The checker *)

Lemma blocks_end size : 0 <= size -> size / BS * BS <= size.
Proof. intros. pose proof block_size_range. rewrite Z.mul_comm. apply Z.mul_div_le. lia. Qed.

Lemma healthy_start size w : 0 <= size -> reliable (machine w) -> (disk_sector (machine w) | BS) -> size <= Disk.disk_size (machine w) ->
  ErrorStatus w = 0 -> healthy w (size / BS) w.
Proof. intros Hsize ? ? Hd ?. pose proof (blocks_end size Hsize). by split; [| | |lia|]. Qed.

(** Whatever fails, the check ends and its report is consistent. *)
Lemma check_disk_ends realloc_ok rnd rand detect_fakes list_ok buffer_ok size nb_passes flash_type read0 g w :
  0 <= size < PB -> bb_iter g = None ->
  exists r report w', check_disk realloc_ok rnd rand detect_fakes list_ok buffer_ok size nb_passes flash_type read0 g w = Some (r, report, w') /\
    match report with
    | None => list_ok = false /\ r = false
    | Some R => r_bb_count R = r_read_errors R + r_write_errors R + r_corruption_errors R /\ 0 <= r_bb_count R <= size / BS /\
        0 <= r_read_errors R /\ 0 <= r_write_errors R /\ 0 <= r_corruption_errors R
    end.
Proof.
  intros Hsize Hg. destruct (last_block_range size Hsize) as (_ & Hlast & _). apply badblocks_report_ok; [| |done|done].
  - intros d ct n buf (_ & Hn & _). apply disk_write_bounded. lia.
  - intros d ct n. by apply disk_read_bounded.
Qed.

(** C33: the checker on a disk: when no access fails and the blocks are whole sectors, all the passes
    of any pattern end without a bad block in the report, with or without the search for fake
    drives, and no byte outside of the disk that is checked has changed. *)
Theorem healthy_disk_passes realloc_ok rnd rand detect_fakes size nb_passes flash_type read0 g w :
  0 <= size < PB -> reliable (machine w) -> (disk_sector (machine w) | BS) -> size <= Disk.disk_size (machine w) -> ErrorStatus w = 0 ->
  0 <= rand <= RAND_MAX -> bb_iter g = None -> 0 <= flash_type < BADLOCKS_PATTERN_TYPES -> 1 <= nb_passes <= BADBLOCK_PATTERN_COUNT ->
  length read0 = Z.to_nat (BB_BLOCKS_AT_ONCE * BS) ->
  exists w', check_disk realloc_ok rnd rand detect_fakes true true size nb_passes flash_type read0 g w = Some (true, Some (mkReport 0 0 0 0), w') /\
    reliable (machine w') /\ forall z, ~ (0 <= z < size) -> content w' z = content w z.
Proof.
  intros Hsize Hrel Hsec Hd Herr Hrand Hg Htype Hnb Hread. destruct (last_block_range size Hsize) as (_ & Hlast & _).
  pose proof (healthy_start size w ltac:(lia) Hrel Hsec Hd Herr) as Hw.
  destruct (badblocks_faithful_device (MD := disk_device w (size / BS) Hlast) id size disk_write disk_read disk_interrupted
    realloc_ok rnd rand detect_fakes nb_passes flash_type read0 g w) as (w' & Hrun & Hw'); try done.
  - intros w1 H1w. unfold disk_interrupted. by rewrite (h_status _ _ _ H1w).
  - exists w'. split; [exact Hrun|]. split; [apply Hw'|]. intros z Hz. apply Hw'. pose proof (blocks_end size). lia.
Qed.
End device.

(** ** An example *)

#[local] Transparent BADBLOCK_BLOCK_SIZE.

Definition healthy_machine : world mem_disk := mkWorld (mkMem (fun z => z mod 256) (2 ^ 31) 4096 0 [] 0 0) 0 0 false 4096.

Theorem healthy_disk_passes_witness :
  exists w', check_disk true (fun _ => 0) 17 true true true (2 ^ 31) 4 2 (replicate (Z.to_nat (BB_BLOCKS_AT_ONCE * BADBLOCK_BLOCK_SIZE)) 0) globals0 healthy_machine
    = Some (true, Some (mkReport 0 0 0 0), w').
Proof.
  destruct (healthy_disk_passes true (fun _ => 0) 17 true (2 ^ 31) 4 2 (replicate (Z.to_nat (BB_BLOCKS_AT_ONCE * BADBLOCK_BLOCK_SIZE)) 0) globals0 healthy_machine)
    as (w' & Hrun & _).
  - unfold PB. lia.
  - reflexivity.
  - exists 128. reflexivity.
  - apply Z.le_refl.
  - reflexivity.
  - unfold RAND_MAX. lia.
  - reflexivity.
  - unfold BADLOCKS_PATTERN_TYPES. lia.
  - unfold BADBLOCK_PATTERN_COUNT. lia.
  - apply length_replicate.
  - exists w'. exact Hrun.
Defined.
