(* ===== verification/BootData.v ===== *)
(** BootData: the boot code that the boot record writers store, the arrays of
    src/src/ms-sys/inc/. A header that gives an array the name of another
    header's (the FreeDOS and ReactOS variants) has its own name here.
    A byte that is repeated five times or more is written with [replicate]. *)

From S2P Require Import Prelude.

Definition label_11_char : list Z :=
  [0x4e; 0x4f; 0x20; 0x4e; 0x41; 0x4d; 0x45; 0x20; 0x20; 0x20; 0x20].

Definition mbr_dos_0x0 : list Z :=
  [0xfa; 0x33; 0xc0; 0x8e; 0xd0; 0xbc; 0x00; 0x7c; 0x8b; 0xf4; 0x50; 0x07; 0x50; 0x1f; 0xfb; 0xfc;
   0xbf; 0x00; 0x06; 0xb9; 0x00; 0x01; 0xf3; 0xa5; 0xea; 0x1d; 0x06; 0x00; 0x00; 0xbe; 0xbe; 0x07;
   0xb3; 0x04; 0x80; 0x3c; 0x80; 0x74; 0x0e; 0x80; 0x3c; 0x00; 0x75; 0x1c; 0x83; 0xc6; 0x10; 0xfe;
   0xcb; 0x75; 0xef; 0xcd; 0x18; 0x8b; 0x14; 0x8b; 0x4c; 0x02; 0x8b; 0xee; 0x83; 0xc6; 0x10; 0xfe;
   0xcb; 0x74; 0x1a; 0x80; 0x3c; 0x00; 0x74; 0xf4; 0xbe; 0x8b; 0x06; 0xac; 0x3c; 0x00; 0x74; 0x0b;
   0x56; 0xbb; 0x07; 0x00; 0xb4; 0x0e; 0xcd; 0x10; 0x5e; 0xeb; 0xf0; 0xeb; 0xfe; 0xbf; 0x05; 0x00;
   0xbb; 0x00; 0x7c; 0xb8; 0x01; 0x02; 0x57; 0xcd; 0x13; 0x5f; 0x73; 0x0c; 0x33; 0xc0; 0xcd; 0x13;
   0x4f; 0x75; 0xed; 0xbe; 0xa3; 0x06; 0xeb; 0xd3; 0xbe; 0xc2; 0x06; 0xbf; 0xfe; 0x7d; 0x81; 0x3d;
   0x55; 0xaa; 0x75; 0xc7; 0x8b; 0xf5; 0xea; 0x00; 0x7c; 0x00; 0x00; 0x49; 0x6e; 0x76; 0x61; 0x6c;
   0x69; 0x64; 0x20; 0x70; 0x61; 0x72; 0x74; 0x69; 0x74; 0x69; 0x6f; 0x6e; 0x20; 0x74; 0x61; 0x62;
   0x6c; 0x65; 0x00; 0x45; 0x72; 0x72; 0x6f; 0x72; 0x20; 0x6c; 0x6f; 0x61; 0x64; 0x69; 0x6e; 0x67;
   0x20; 0x6f; 0x70; 0x65; 0x72; 0x61; 0x74; 0x69; 0x6e; 0x67; 0x20; 0x73; 0x79; 0x73; 0x74; 0x65;
   0x6d; 0x00; 0x4d; 0x69; 0x73; 0x73; 0x69; 0x6e; 0x67; 0x20; 0x6f; 0x70; 0x65; 0x72; 0x61; 0x74;
   0x69; 0x6e; 0x67; 0x20; 0x73; 0x79; 0x73; 0x74; 0x65; 0x6d] ++
  replicate 222 0x00.

Definition mbr_dos_f2_0x0 : list Z :=
  [0xfa; 0x33; 0xc0; 0x8e; 0xd0; 0xbc; 0x00; 0x7c; 0x8b; 0xf4; 0x50; 0x07; 0x50; 0x1f; 0xfb; 0xfc;
   0xbf; 0x00; 0x06; 0xb9; 0x00; 0x01; 0xf2; 0xa5; 0xea; 0x1d; 0x06; 0x00; 0x00; 0xbe; 0xbe; 0x07;
   0xb3; 0x04; 0x80; 0x3c; 0x80; 0x74; 0x0e; 0x80; 0x3c; 0x00; 0x75; 0x1c; 0x83; 0xc6; 0x10; 0xfe;
   0xcb; 0x75; 0xef; 0xcd; 0x18; 0x8b; 0x14; 0x8b; 0x4c; 0x02; 0x8b; 0xee; 0x83; 0xc6; 0x10; 0xfe;
   0xcb; 0x74; 0x1a; 0x80; 0x3c; 0x00; 0x74; 0xf4; 0xbe; 0x8b; 0x06; 0xac; 0x3c; 0x00; 0x74; 0x0b;
   0x56; 0xbb; 0x07; 0x00; 0xb4; 0x0e; 0xcd; 0x10; 0x5e; 0xeb; 0xf0; 0xeb; 0xfe; 0xbf; 0x05; 0x00;
   0xbb; 0x00; 0x7c; 0xb8; 0x01; 0x02; 0x57; 0xcd; 0x13; 0x5f; 0x73; 0x0c; 0x33; 0xc0; 0xcd; 0x13;
   0x4f; 0x75; 0xed; 0xbe; 0xa3; 0x06; 0xeb; 0xd3; 0xbe; 0xc2; 0x06; 0xbf; 0xfe; 0x7d; 0x81; 0x3d;
   0x55; 0xaa; 0x75; 0xc7; 0x8b; 0xf5; 0xea; 0x00; 0x7c; 0x00; 0x00; 0x49; 0x6e; 0x76; 0x61; 0x6c;
   0x69; 0x64; 0x20; 0x70; 0x61; 0x72; 0x74; 0x69; 0x74; 0x69; 0x6f; 0x6e; 0x20; 0x74; 0x61; 0x62;
   0x6c; 0x65; 0x00; 0x45; 0x72; 0x72; 0x6f; 0x72; 0x20; 0x6c; 0x6f; 0x61; 0x64; 0x69; 0x6e; 0x67;
   0x20; 0x6f; 0x70; 0x65; 0x72; 0x61; 0x74; 0x69; 0x6e; 0x67; 0x20; 0x73; 0x79; 0x73; 0x74; 0x65;
   0x6d; 0x00; 0x4d; 0x69; 0x73; 0x73; 0x69; 0x6e; 0x67; 0x20; 0x6f; 0x70; 0x65; 0x72; 0x61; 0x74;
   0x69; 0x6e; 0x67; 0x20; 0x73; 0x79; 0x73; 0x74; 0x65; 0x6d] ++
  replicate 222 0x00.

Definition mbr_95b_0x0 : list Z :=
  [0x33; 0xc0; 0x8e; 0xd0; 0xbc; 0x00; 0x7c; 0xfb; 0x50; 0x07; 0x50; 0x1f; 0xfc; 0xbe; 0x1b; 0x7c;
   0xbf; 0x1b; 0x06; 0x50; 0x57; 0xb9; 0xe5; 0x01; 0xf3; 0xa4; 0xcb; 0xbe; 0xbe; 0x07; 0xb1; 0x04;
   0x38; 0x2c; 0x7c; 0x09; 0x75; 0x15; 0x83; 0xc6; 0x10; 0xe2; 0xf5; 0xcd; 0x18; 0x8b; 0x14; 0x8b;
   0xee; 0x83; 0xc6; 0x10; 0x49; 0x74; 0x16; 0x38; 0x2c; 0x74; 0xf6; 0xbe; 0x10; 0x07; 0x4e; 0xac;
   0x3c; 0x00; 0x74; 0xfa; 0xbb; 0x07; 0x00; 0xb4; 0x0e; 0xcd; 0x10; 0xeb; 0xf2; 0x89; 0x46; 0x25;
   0x96; 0x8a; 0x46; 0x04; 0xb4; 0x06; 0x3c; 0x0e; 0x74; 0x11; 0xb4; 0x0b; 0x3c; 0x0c; 0x74; 0x05;
   0x3a; 0xc4; 0x75; 0x2b; 0x40; 0xc6; 0x46; 0x25; 0x06; 0x75; 0x24; 0xbb; 0xaa; 0x55; 0x50; 0xb4;
   0x41; 0xcd; 0x13; 0x58; 0x72; 0x16; 0x81; 0xfb; 0x55; 0xaa; 0x75; 0x10; 0xf6; 0xc1; 0x01; 0x74;
   0x0b; 0x8a; 0xe0; 0x88; 0x56; 0x24; 0xc7; 0x06; 0xa1; 0x06; 0xeb; 0x1e; 0x88; 0x66; 0x04; 0xbf;
   0x0a; 0x00; 0xb8; 0x01; 0x02; 0x8b; 0xdc; 0x33; 0xc9; 0x83; 0xff; 0x05; 0x7f; 0x03; 0x8b; 0x4e;
   0x25; 0x03; 0x4e; 0x02; 0xcd; 0x13; 0x72; 0x29; 0xbe; 0x46; 0x07; 0x81; 0x3e; 0xfe; 0x7d; 0x55;
   0xaa; 0x74; 0x5a; 0x83; 0xef; 0x05; 0x7f; 0xda; 0x85; 0xf6; 0x75; 0x83; 0xbe; 0x27; 0x07; 0xeb;
   0x8a; 0x98; 0x91; 0x52; 0x99; 0x03; 0x46; 0x08; 0x13; 0x56; 0x0a; 0xe8; 0x12; 0x00; 0x5a; 0xeb;
   0xd5; 0x4f; 0x74; 0xe4; 0x33; 0xc0; 0xcd; 0x13; 0xeb; 0xb8].

Definition mbr_95b_0x0e0 : list Z :=
  [0x56; 0x33; 0xf6; 0x56; 0x56; 0x52; 0x50; 0x06; 0x53; 0x51; 0xbe; 0x10; 0x00; 0x56; 0x8b; 0xf4;
   0x50; 0x52; 0xb8; 0x00; 0x42; 0x8a; 0x56; 0x24; 0xcd; 0x13; 0x5a; 0x58; 0x8d; 0x64; 0x10; 0x72;
   0x0a; 0x40; 0x75; 0x01; 0x42; 0x80; 0xc7; 0x02; 0xe2; 0xf7; 0xf8; 0x5e; 0xc3; 0xeb; 0x74; 0x49;
   0x6e; 0x76; 0x61; 0x6c; 0x69; 0x64; 0x20; 0x70; 0x61; 0x72; 0x74; 0x69; 0x74; 0x69; 0x6f; 0x6e;
   0x20; 0x74; 0x61; 0x62; 0x6c; 0x65; 0x00; 0x45; 0x72; 0x72; 0x6f; 0x72; 0x20; 0x6c; 0x6f; 0x61;
   0x64; 0x69; 0x6e; 0x67; 0x20; 0x6f; 0x70; 0x65; 0x72; 0x61; 0x74; 0x69; 0x6e; 0x67; 0x20; 0x73;
   0x79; 0x73; 0x74; 0x65; 0x6d; 0x00; 0x4d; 0x69; 0x73; 0x73; 0x69; 0x6e; 0x67; 0x20; 0x6f; 0x70;
   0x65; 0x72; 0x61; 0x74; 0x69; 0x6e; 0x67; 0x20; 0x73; 0x79; 0x73; 0x74; 0x65; 0x6d] ++
  replicate 37 0x00 ++
  [0x8b; 0xfc; 0x1e; 0x57; 0x8b; 0xf5; 0xcb] ++
  replicate 46 0x00.

Definition mbr_2000_0x0 : list Z :=
  [0x33; 0xc0; 0x8e; 0xd0; 0xbc; 0x00; 0x7c; 0xfb; 0x50; 0x07; 0x50; 0x1f; 0xfc; 0xbe; 0x1b; 0x7c;
   0xbf; 0x1b; 0x06; 0x50; 0x57; 0xb9; 0xe5; 0x01; 0xf3; 0xa4; 0xcb; 0xbd; 0xbe; 0x07; 0xb1; 0x04;
   0x38; 0x6e; 0x00; 0x7c; 0x09; 0x75; 0x13; 0x83; 0xc5; 0x10; 0xe2; 0xf4; 0xcd; 0x18; 0x8b; 0xf5;
   0x83; 0xc6; 0x10; 0x49; 0x74; 0x19; 0x38; 0x2c; 0x74; 0xf6; 0xa0; 0xb5; 0x07; 0xb4; 0x07; 0x8b;
   0xf0; 0xac; 0x3c; 0x00; 0x74; 0xfc; 0xbb; 0x07; 0x00; 0xb4; 0x0e; 0xcd; 0x10; 0xeb; 0xf2; 0x88;
   0x4e; 0x10; 0xe8; 0x46; 0x00; 0x73; 0x2a; 0xfe; 0x46; 0x10; 0x80; 0x7e; 0x04; 0x0b; 0x74; 0x0b;
   0x80; 0x7e; 0x04; 0x0c; 0x74; 0x05; 0xa0; 0xb6; 0x07; 0x75; 0xd2; 0x80; 0x46; 0x02; 0x06; 0x83;
   0x46; 0x08; 0x06; 0x83; 0x56; 0x0a; 0x00; 0xe8; 0x21; 0x00; 0x73; 0x05; 0xa0; 0xb6; 0x07; 0xeb;
   0xbc; 0x81; 0x3e; 0xfe; 0x7d; 0x55; 0xaa; 0x74; 0x0b; 0x80; 0x7e; 0x10; 0x00; 0x74; 0xc8; 0xa0;
   0xb7; 0x07; 0xeb; 0xa9; 0x8b; 0xfc; 0x1e; 0x57; 0x8b; 0xf5; 0xcb; 0xbf; 0x05; 0x00; 0x8a; 0x56;
   0x00; 0xb4; 0x08; 0xcd; 0x13; 0x72; 0x23; 0x8a; 0xc1; 0x24; 0x3f; 0x98; 0x8a; 0xde; 0x8a; 0xfc;
   0x43; 0xf7; 0xe3; 0x8b; 0xd1; 0x86; 0xd6; 0xb1; 0x06; 0xd2; 0xee; 0x42; 0xf7; 0xe2; 0x39; 0x56;
   0x0a; 0x77; 0x23; 0x72; 0x05; 0x39; 0x46; 0x08; 0x73; 0x1c; 0xb8; 0x01; 0x02; 0xbb; 0x00; 0x7c;
   0x8b; 0x4e; 0x02; 0x8b; 0x56; 0x00; 0xcd; 0x13; 0x73; 0x51; 0x4f; 0x74; 0x4e; 0x32; 0xe4; 0x8a;
   0x56; 0x00; 0xcd; 0x13; 0xeb; 0xe4; 0x8a; 0x56; 0x00; 0x60; 0xbb; 0xaa; 0x55; 0xb4; 0x41; 0xcd;
   0x13; 0x72; 0x36; 0x81; 0xfb; 0x55; 0xaa; 0x75; 0x30; 0xf6; 0xc1; 0x01; 0x74; 0x2b; 0x61; 0x60;
   0x6a; 0x00; 0x6a; 0x00; 0xff; 0x76; 0x0a; 0xff; 0x76; 0x08; 0x6a; 0x00; 0x68; 0x00; 0x7c; 0x6a;
   0x01; 0x6a; 0x10; 0xb4; 0x42; 0x8b; 0xf4; 0xcd; 0x13; 0x61; 0x61; 0x73; 0x0e; 0x4f; 0x74; 0x0b;
   0x32; 0xe4; 0x8a; 0x56; 0x00; 0xcd; 0x13; 0xeb; 0xd6; 0x61; 0xf9; 0xc3; 0x49; 0x6e; 0x76; 0x61;
   0x6c; 0x69; 0x64; 0x20; 0x70; 0x61; 0x72; 0x74; 0x69; 0x74; 0x69; 0x6f; 0x6e; 0x20; 0x74; 0x61;
   0x62; 0x6c; 0x65; 0x00; 0x45; 0x72; 0x72; 0x6f; 0x72; 0x20; 0x6c; 0x6f; 0x61; 0x64; 0x69; 0x6e;
   0x67; 0x20; 0x6f; 0x70; 0x65; 0x72; 0x61; 0x74; 0x69; 0x6e; 0x67; 0x20; 0x73; 0x79; 0x73; 0x74;
   0x65; 0x6d; 0x00; 0x4d; 0x69; 0x73; 0x73; 0x69; 0x6e; 0x67; 0x20; 0x6f; 0x70; 0x65; 0x72; 0x61;
   0x74; 0x69; 0x6e; 0x67; 0x20; 0x73; 0x79; 0x73; 0x74; 0x65; 0x6d] ++
  replicate 58 0x00 ++
  [0x2c; 0x44; 0x63].

Definition mbr_vista_0x0 : list Z :=
  [0x33; 0xc0; 0x8e; 0xd0; 0xbc; 0x00; 0x7c; 0x8e; 0xc0; 0x8e; 0xd8; 0xbe; 0x00; 0x7c; 0xbf; 0x00;
   0x06; 0xb9; 0x00; 0x02; 0xfc; 0xf3; 0xa4; 0x50; 0x68; 0x1c; 0x06; 0xcb; 0xfb; 0xb9; 0x04; 0x00;
   0xbd; 0xbe; 0x07; 0x80; 0x7e; 0x00; 0x00; 0x7c; 0x0b; 0x0f; 0x85; 0x10; 0x01; 0x83; 0xc5; 0x10;
   0xe2; 0xf1; 0xcd; 0x18; 0x88; 0x56; 0x00; 0x55; 0xc6; 0x46; 0x11; 0x05; 0xc6; 0x46; 0x10; 0x00;
   0xb4; 0x41; 0xbb; 0xaa; 0x55; 0xcd; 0x13; 0x5d; 0x72; 0x0f; 0x81; 0xfb; 0x55; 0xaa; 0x75; 0x09;
   0xf7; 0xc1; 0x01; 0x00; 0x74; 0x03; 0xfe; 0x46; 0x10; 0x66; 0x60; 0x80; 0x7e; 0x10; 0x00; 0x74;
   0x26; 0x66; 0x68; 0x00; 0x00; 0x00; 0x00; 0x66; 0xff; 0x76; 0x08; 0x68; 0x00; 0x00; 0x68; 0x00;
   0x7c; 0x68; 0x01; 0x00; 0x68; 0x10; 0x00; 0xb4; 0x42; 0x8a; 0x56; 0x00; 0x8b; 0xf4; 0xcd; 0x13;
   0x9f; 0x83; 0xc4; 0x10; 0x9e; 0xeb; 0x14; 0xb8; 0x01; 0x02; 0xbb; 0x00; 0x7c; 0x8a; 0x56; 0x00;
   0x8a; 0x76; 0x01; 0x8a; 0x4e; 0x02; 0x8a; 0x6e; 0x03; 0xcd; 0x13; 0x66; 0x61; 0x73; 0x1e; 0xfe;
   0x4e; 0x11; 0x0f; 0x85; 0x0c; 0x00; 0x80; 0x7e; 0x00; 0x80; 0x0f; 0x84; 0x8a; 0x00; 0xb2; 0x80;
   0xeb; 0x82; 0x55; 0x32; 0xe4; 0x8a; 0x56; 0x00; 0xcd; 0x13; 0x5d; 0xeb; 0x9c; 0x81; 0x3e; 0xfe;
   0x7d; 0x55; 0xaa; 0x75; 0x6e; 0xff; 0x76; 0x00; 0xe8; 0x8a; 0x00; 0x0f; 0x85; 0x15; 0x00; 0xb0;
   0xd1; 0xe6; 0x64; 0xe8; 0x7f; 0x00; 0xb0; 0xdf; 0xe6; 0x60; 0xe8; 0x78; 0x00; 0xb0; 0xff; 0xe6;
   0x64; 0xe8; 0x71; 0x00; 0xb8; 0x00; 0xbb; 0xcd; 0x1a; 0x66; 0x23; 0xc0; 0x75; 0x3b; 0x66; 0x81;
   0xfb; 0x54; 0x43; 0x50; 0x41; 0x75; 0x32; 0x81; 0xf9; 0x02; 0x01; 0x72; 0x2c; 0x66; 0x68; 0x07;
   0xbb; 0x00; 0x00; 0x66; 0x68; 0x00; 0x02; 0x00; 0x00; 0x66; 0x68; 0x08; 0x00; 0x00; 0x00; 0x66;
   0x53; 0x66; 0x53; 0x66; 0x55; 0x66; 0x68; 0x00; 0x00; 0x00; 0x00; 0x66; 0x68; 0x00; 0x7c; 0x00;
   0x00; 0x66; 0x61; 0x68; 0x00; 0x00; 0x07; 0xcd; 0x1a; 0x5a; 0x32; 0xf6; 0xea; 0x00; 0x7c; 0x00;
   0x00; 0xcd; 0x18; 0xa0; 0xb7; 0x07; 0xeb; 0x08; 0xa0; 0xb6; 0x07; 0xeb; 0x03; 0xa0; 0xb5; 0x07;
   0x32; 0xe4; 0x05; 0x00; 0x07; 0x8b; 0xf0; 0xac; 0x3c; 0x00; 0x74; 0xfc; 0xbb; 0x07; 0x00; 0xb4;
   0x0e; 0xcd; 0x10; 0xeb; 0xf2; 0x2b; 0xc9; 0xe4; 0x64; 0xeb; 0x00; 0x24; 0x02; 0xe0; 0xf8; 0x24;
   0x02; 0xc3; 0x49; 0x6e; 0x76; 0x61; 0x6c; 0x69; 0x64; 0x20; 0x70; 0x61; 0x72; 0x74; 0x69; 0x74;
   0x69; 0x6f; 0x6e; 0x20; 0x74; 0x61; 0x62; 0x6c; 0x65; 0x00; 0x45; 0x72; 0x72; 0x6f; 0x72; 0x20;
   0x6c; 0x6f; 0x61; 0x64; 0x69; 0x6e; 0x67; 0x20; 0x6f; 0x70; 0x65; 0x72; 0x61; 0x74; 0x69; 0x6e;
   0x67; 0x20; 0x73; 0x79; 0x73; 0x74; 0x65; 0x6d; 0x00; 0x4d; 0x69; 0x73; 0x73; 0x69; 0x6e; 0x67;
   0x20; 0x6f; 0x70; 0x65; 0x72; 0x61; 0x74; 0x69; 0x6e; 0x67; 0x20; 0x73; 0x79; 0x73; 0x74; 0x65;
   0x6d; 0x00; 0x00; 0x00; 0x00; 0x62; 0x7a; 0x99].

Definition mbr_win7_0x0 : list Z :=
  [0x33; 0xc0; 0x8e; 0xd0; 0xbc; 0x00; 0x7c; 0x8e; 0xc0; 0x8e; 0xd8; 0xbe; 0x00; 0x7c; 0xbf; 0x00;
   0x06; 0xb9; 0x00; 0x02; 0xfc; 0xf3; 0xa4; 0x50; 0x68; 0x1c; 0x06; 0xcb; 0xfb; 0xb9; 0x04; 0x00;
   0xbd; 0xbe; 0x07; 0x80; 0x7e; 0x00; 0x00; 0x7c; 0x0b; 0x0f; 0x85; 0x0e; 0x01; 0x83; 0xc5; 0x10;
   0xe2; 0xf1; 0xcd; 0x18; 0x88; 0x56; 0x00; 0x55; 0xc6; 0x46; 0x11; 0x05; 0xc6; 0x46; 0x10; 0x00;
   0xb4; 0x41; 0xbb; 0xaa; 0x55; 0xcd; 0x13; 0x5d; 0x72; 0x0f; 0x81; 0xfb; 0x55; 0xaa; 0x75; 0x09;
   0xf7; 0xc1; 0x01; 0x00; 0x74; 0x03; 0xfe; 0x46; 0x10; 0x66; 0x60; 0x80; 0x7e; 0x10; 0x00; 0x74;
   0x26; 0x66; 0x68; 0x00; 0x00; 0x00; 0x00; 0x66; 0xff; 0x76; 0x08; 0x68; 0x00; 0x00; 0x68; 0x00;
   0x7c; 0x68; 0x01; 0x00; 0x68; 0x10; 0x00; 0xb4; 0x42; 0x8a; 0x56; 0x00; 0x8b; 0xf4; 0xcd; 0x13;
   0x9f; 0x83; 0xc4; 0x10; 0x9e; 0xeb; 0x14; 0xb8; 0x01; 0x02; 0xbb; 0x00; 0x7c; 0x8a; 0x56; 0x00;
   0x8a; 0x76; 0x01; 0x8a; 0x4e; 0x02; 0x8a; 0x6e; 0x03; 0xcd; 0x13; 0x66; 0x61; 0x73; 0x1c; 0xfe;
   0x4e; 0x11; 0x75; 0x0c; 0x80; 0x7e; 0x00; 0x80; 0x0f; 0x84; 0x8a; 0x00; 0xb2; 0x80; 0xeb; 0x84;
   0x55; 0x32; 0xe4; 0x8a; 0x56; 0x00; 0xcd; 0x13; 0x5d; 0xeb; 0x9e; 0x81; 0x3e; 0xfe; 0x7d; 0x55;
   0xaa; 0x75; 0x6e; 0xff; 0x76; 0x00; 0xe8; 0x8d; 0x00; 0x75; 0x17; 0xfa; 0xb0; 0xd1; 0xe6; 0x64;
   0xe8; 0x83; 0x00; 0xb0; 0xdf; 0xe6; 0x60; 0xe8; 0x7c; 0x00; 0xb0; 0xff; 0xe6; 0x64; 0xe8; 0x75;
   0x00; 0xfb; 0xb8; 0x00; 0xbb; 0xcd; 0x1a; 0x66; 0x23; 0xc0; 0x75; 0x3b; 0x66; 0x81; 0xfb; 0x54;
   0x43; 0x50; 0x41; 0x75; 0x32; 0x81; 0xf9; 0x02; 0x01; 0x72; 0x2c; 0x66; 0x68; 0x07; 0xbb; 0x00;
   0x00; 0x66; 0x68; 0x00; 0x02; 0x00; 0x00; 0x66; 0x68; 0x08; 0x00; 0x00; 0x00; 0x66; 0x53; 0x66;
   0x53; 0x66; 0x55; 0x66; 0x68; 0x00; 0x00; 0x00; 0x00; 0x66; 0x68; 0x00; 0x7c; 0x00; 0x00; 0x66;
   0x61; 0x68; 0x00; 0x00; 0x07; 0xcd; 0x1a; 0x5a; 0x32; 0xf6; 0xea; 0x00; 0x7c; 0x00; 0x00; 0xcd;
   0x18; 0xa0; 0xb7; 0x07; 0xeb; 0x08; 0xa0; 0xb6; 0x07; 0xeb; 0x03; 0xa0; 0xb5; 0x07; 0x32; 0xe4;
   0x05; 0x00; 0x07; 0x8b; 0xf0; 0xac; 0x3c; 0x00; 0x74; 0x09; 0xbb; 0x07; 0x00; 0xb4; 0x0e; 0xcd;
   0x10; 0xeb; 0xf2; 0xf4; 0xeb; 0xfd; 0x2b; 0xc9; 0xe4; 0x64; 0xeb; 0x00; 0x24; 0x02; 0xe0; 0xf8;
   0x24; 0x02; 0xc3; 0x49; 0x6e; 0x76; 0x61; 0x6c; 0x69; 0x64; 0x20; 0x70; 0x61; 0x72; 0x74; 0x69;
   0x74; 0x69; 0x6f; 0x6e; 0x20; 0x74; 0x61; 0x62; 0x6c; 0x65; 0x00; 0x45; 0x72; 0x72; 0x6f; 0x72;
   0x20; 0x6c; 0x6f; 0x61; 0x64; 0x69; 0x6e; 0x67; 0x20; 0x6f; 0x70; 0x65; 0x72; 0x61; 0x74; 0x69;
   0x6e; 0x67; 0x20; 0x73; 0x79; 0x73; 0x74; 0x65; 0x6d; 0x00; 0x4d; 0x69; 0x73; 0x73; 0x69; 0x6e;
   0x67; 0x20; 0x6f; 0x70; 0x65; 0x72; 0x61; 0x74; 0x69; 0x6e; 0x67; 0x20; 0x73; 0x79; 0x73; 0x74;
   0x65; 0x6d; 0x00; 0x00; 0x00; 0x63; 0x7b; 0x9a].

Definition mbr_rufus_0x0 : list Z :=
  [0x41; 0x4b; 0x45; 0x4f; 0xfc; 0x31; 0xc0; 0xfa; 0x8e; 0xd0; 0xbc; 0x00; 0x7c; 0xfb; 0x89; 0xe6;
   0x89; 0xe7; 0x1e; 0x06; 0x8e; 0xd8; 0xbb; 0x13; 0x04; 0x8b; 0x07; 0x48; 0x89; 0x07; 0xc1; 0xe0;
   0x06; 0x2d; 0xc0; 0x07; 0x8e; 0xc0; 0xb9; 0x00; 0x02; 0xf3; 0xa4; 0x50; 0x68; 0x30; 0x7c; 0xcb;
   0x8e; 0xd8; 0x66; 0x31; 0xdb; 0x8e; 0xc3; 0x41; 0xba; 0x81; 0x00; 0xe8; 0x89; 0x00; 0x72; 0x6d;
   0xbb; 0xbe; 0x7d; 0xb9; 0x04; 0x00; 0x26; 0x80; 0x3f; 0x00; 0x7c; 0x09; 0x75; 0x05; 0x83; 0xc3;
   0x10; 0xe2; 0xf3; 0xeb; 0x58; 0xbe; 0x94; 0x7d; 0xe8; 0xda; 0x00; 0xe8; 0xca; 0x00; 0xba; 0x5a;
   0x7d; 0xbe; 0x6e; 0x7d; 0xe8; 0xa0; 0x00; 0xb4; 0x01; 0xcd; 0x16; 0x75; 0x3d; 0xb4; 0x02; 0xcd;
   0x16; 0x24; 0x04; 0x75; 0x38; 0x80; 0x3e; 0x93; 0x7d; 0x00; 0x7f; 0x0b; 0xbe; 0xb4; 0x7d; 0xe8;
   0xb3; 0x00; 0xc6; 0x06; 0x93; 0x7d; 0x12; 0x80; 0x3e; 0x92; 0x7d; 0x00; 0x75; 0xd9; 0xe8; 0x89;
   0x00; 0xc6; 0x06; 0xbe; 0x7d; 0x81; 0x68; 0x80; 0x00; 0xba; 0x72; 0x7d; 0xbe; 0x7e; 0x7d; 0xe8;
   0x65; 0x00; 0x5a; 0x07; 0x1f; 0xea; 0x00; 0x7c; 0x00; 0x00; 0xe8; 0x6d; 0x00; 0xe8; 0x78; 0x00;
   0xbb; 0xbe; 0x7d; 0x8b; 0x17; 0x52; 0xb2; 0x80; 0x8b; 0x4f; 0x02; 0x66; 0x8b; 0x5f; 0x08; 0xe8;
   0x05; 0x00; 0x73; 0xd5; 0x07; 0x1f; 0xcb; 0x60; 0xb4; 0x41; 0xbb; 0xaa; 0x55; 0xcd; 0x13; 0x72;
   0x2c; 0x81; 0xfb; 0x55; 0xaa; 0x75; 0x26; 0xf7; 0xc1; 0x01; 0x00; 0x74; 0x20; 0x61; 0x1e; 0x66;
   0x31; 0xc0; 0x8e; 0xd8; 0x66; 0x50; 0x66; 0x53; 0x50; 0x68; 0x00; 0x7c; 0x40; 0x50; 0x6a; 0x10;
   0x89; 0xe6; 0xb4; 0x42; 0xcd; 0x13; 0x9f; 0x83; 0xc4; 0x10; 0x9e; 0x1f; 0xc3; 0x61; 0xbb; 0x00;
   0x7c; 0xb8; 0x01; 0x02; 0xcd; 0x13; 0xc3; 0xfa; 0x8b; 0x1c; 0x26; 0x66; 0x8b; 0x07; 0x66; 0x89;
   0x04; 0x26; 0x89; 0x17; 0x26; 0x8c; 0x4f; 0x02; 0xfb; 0xc3; 0xfa; 0xbb; 0x20; 0x00; 0x66; 0xa1;
   0x6e; 0x7d; 0x26; 0x66; 0x89; 0x07; 0xfb; 0xc3; 0xb4; 0x01; 0xcd; 0x16; 0x74; 0x06; 0xb4; 0x00;
   0xcd; 0x16; 0xe2; 0xf4; 0xc3; 0xac; 0x3c; 0x00; 0x74; 0x09; 0xb4; 0x0e; 0xbb; 0x07; 0x00; 0xcd;
   0x10; 0xeb; 0xf2; 0xc3; 0x50; 0x2e; 0xa0; 0xbe; 0x7d; 0x80; 0xfa; 0x80; 0x75; 0x04; 0x88; 0xc2;
   0xeb; 0x06; 0x38; 0xc2; 0x75; 0x02; 0xb2; 0x80; 0x58; 0xc3; 0xfa; 0x2e; 0x80; 0x3e; 0x92; 0x7d;
   0x00; 0x74; 0x0a; 0x2e; 0xfe; 0x0e; 0x93; 0x7d; 0x2e; 0xfe; 0x0e; 0x92; 0x7d; 0xea; 0x20; 0x00;
   0x00; 0x00; 0x9c; 0x2e; 0xfe; 0x06; 0x91; 0x7d; 0x75; 0x03; 0xe8; 0xc7; 0xff; 0x9a; 0x4c; 0x00;
   0x00; 0x00; 0x9c; 0x2e; 0xfe; 0x0e; 0x91; 0x7d; 0x79; 0x03; 0xe8; 0xb7; 0xff; 0x9d; 0xca; 0x02;
   0x00; 0xff; 0x49; 0x12; 0x0d; 0x0a; 0x50; 0x72; 0x65; 0x73; 0x73; 0x20; 0x61; 0x6e; 0x79; 0x20;
   0x6b; 0x65; 0x79; 0x20; 0x74; 0x6f; 0x20; 0x62; 0x6f; 0x6f; 0x74; 0x20; 0x66; 0x72; 0x6f; 0x6d;
   0x20; 0x55; 0x53; 0x42; 0x2e; 0x00; 0x00; 0x00].

Definition mbr_msg_rufus_0x0 : list Z :=
  [0x41; 0x4b; 0x45; 0x4f; 0xfc; 0x31; 0xc0; 0xfa; 0x8e; 0xd0; 0xbc; 0x00; 0x7c; 0xfb; 0x8e; 0xd8;
   0xbb; 0x13; 0x04; 0x8b; 0x07; 0x83; 0xe8; 0x04; 0x89; 0x07; 0xc1; 0xe0; 0x06; 0x8e; 0xc0; 0xb8;
   0x03; 0x00; 0xcd; 0x10; 0xb4; 0x02; 0xcd; 0x10; 0xb4; 0x41; 0xbb; 0xaa; 0x55; 0x31; 0xc9; 0x31;
   0xd2; 0xcd; 0x13; 0x72; 0x27; 0x81; 0xfb; 0x55; 0xaa; 0x75; 0x21; 0xf7; 0xc1; 0x01; 0x00; 0x74;
   0x1b; 0x66; 0x31; 0xc0; 0x66; 0x50; 0x6a; 0x22; 0x06; 0x66; 0x50; 0x6a; 0x08; 0x6a; 0x10; 0x89;
   0xe6; 0xb4; 0x42; 0xcd; 0x13; 0x9f; 0x83; 0xc4; 0x10; 0x9e; 0xeb; 0x0d; 0xb8; 0x08; 0x02; 0xb9;
   0x23; 0x00; 0xba; 0x80; 0x00; 0x31; 0xdb; 0xcd; 0x13; 0xbb; 0x07; 0x00; 0x72; 0x0b; 0x31; 0xf6;
   0x8c; 0xc0; 0x8e; 0xd8; 0xe8; 0x3f; 0x00; 0xeb; 0x06; 0xbe; 0x0b; 0x7d; 0xe8; 0x37; 0x00; 0x31;
   0xc0; 0x8e; 0xd8; 0xbe; 0x57; 0x7d; 0xe8; 0x2d; 0x00; 0xe8; 0x1d; 0x00; 0xb4; 0x01; 0xcd; 0x16;
   0x75; 0x08; 0xb4; 0x02; 0xcd; 0x16; 0x24; 0x04; 0x74; 0xf2; 0x31; 0xc0; 0x8e; 0xd8; 0xb8; 0x34;
   0x12; 0xa3; 0x73; 0x04; 0xea; 0x00; 0x00; 0xff; 0xff; 0xb4; 0x01; 0xcd; 0x16; 0x74; 0x06; 0xb4;
   0x00; 0xcd; 0x16; 0xe2; 0xf4; 0xc3; 0xac; 0x3c; 0x00; 0x74; 0x4f; 0x3c; 0x0d; 0x74; 0xf7; 0x3c;
   0x0a; 0x75; 0x10; 0x53; 0xb4; 0x03; 0xcd; 0x10; 0xfe; 0xc6; 0xb2; 0x00; 0xb4; 0x02; 0xcd; 0x10;
   0x5b; 0xeb; 0xe3; 0x3c; 0x5c; 0x75; 0x1c; 0xb1; 0x02; 0xac; 0x3c; 0x46; 0x7f; 0xd8; 0x2c; 0x30;
   0x3c; 0x09; 0x7e; 0x02; 0x2c; 0x07; 0xc0; 0xe3; 0x04; 0x24; 0x0f; 0x08; 0xc3; 0xfe; 0xc9; 0x75;
   0xe8; 0xeb; 0xc3; 0xb9; 0x01; 0x00; 0xb4; 0x09; 0xcd; 0x10; 0x53; 0x31; 0xdb; 0xb4; 0x03; 0xcd;
   0x10; 0xfe; 0xc2; 0xb4; 0x02; 0xcd; 0x10; 0x5b; 0xeb; 0xac; 0xc3; 0x0d; 0x0a] ++
  replicate 13 0x20 ++
  [0x5c; 0x30; 0x34; 0x2a; 0x2a; 0x2a; 0x20; 0x45; 0x52; 0x52; 0x4f; 0x52; 0x3a; 0x20; 0x54; 0x48;
   0x49; 0x53; 0x20; 0x4d; 0x45; 0x44; 0x49; 0x41; 0x20; 0x43; 0x41; 0x4e; 0x4e; 0x4f; 0x54; 0x20;
   0x42; 0x4f; 0x4f; 0x54; 0x20; 0x49; 0x4e; 0x20; 0x4c; 0x45; 0x47; 0x41; 0x43; 0x59; 0x20; 0x4d;
   0x4f; 0x44; 0x45; 0x20; 0x2a; 0x2a; 0x2a; 0x5c; 0x30; 0x37; 0x0d; 0x0a; 0x00; 0x0d; 0x0a; 0x0d;
   0x0a] ++
  replicate 13 0x20 ++
  [0x5c; 0x37; 0x30; 0x50; 0x6c; 0x65; 0x61; 0x73; 0x65; 0x20; 0x72; 0x65; 0x6d; 0x6f; 0x76; 0x65;
   0x20; 0x74; 0x68; 0x69; 0x73; 0x20; 0x6d; 0x65; 0x64; 0x69; 0x61; 0x20; 0x61; 0x6e; 0x64; 0x20;
   0x70; 0x72; 0x65; 0x73; 0x73; 0x20; 0x61; 0x6e; 0x79; 0x20; 0x6b; 0x65; 0x79; 0x20; 0x74; 0x6f;
   0x20; 0x72; 0x65; 0x62; 0x6f; 0x6f; 0x74; 0x5c; 0x30; 0x37] ++
  replicate 14 0x00.

Definition mbr_reactos_0x0 : list Z :=
  [0xfa; 0xfc; 0x31; 0xc0; 0x8e; 0xd0; 0x8e; 0xd8; 0xbd; 0x00; 0x7c; 0x8d; 0x66; 0xe0; 0xfb; 0xb8;
   0xe0; 0x1f; 0x8e; 0xc0; 0x89; 0xee; 0x89; 0xef; 0xb9; 0x00; 0x01; 0xf3; 0xa5; 0xea; 0x22; 0x7c;
   0xe0; 0x1f; 0x8e; 0xd8; 0x8e; 0xd0; 0x31; 0xc0; 0x8e; 0xc0; 0x8d; 0xbe; 0xbe; 0x01; 0xf6; 0x05;
   0x80; 0x75; 0x6d; 0x83; 0xc7; 0x10; 0x81; 0xff; 0xfe; 0x7d; 0x72; 0xf2; 0xe8; 0xc4; 0x00; 0x6e;
   0x6f; 0x20; 0x61; 0x63; 0x74; 0x69; 0x76; 0x65; 0x20; 0x70; 0x61; 0x72; 0x74; 0x69; 0x74; 0x69;
   0x6f; 0x6e; 0x20; 0x66; 0x6f; 0x75; 0x6e; 0x64; 0x00; 0xeb; 0xfe; 0xe8; 0xa5; 0x00; 0x72; 0x65;
   0x61; 0x64; 0x20; 0x65; 0x72; 0x72; 0x6f; 0x72; 0x20; 0x77; 0x68; 0x69; 0x6c; 0x65; 0x20; 0x72;
   0x65; 0x61; 0x64; 0x69; 0x6e; 0x67; 0x20; 0x64; 0x72; 0x69; 0x76; 0x65; 0x00; 0xeb; 0xda; 0xe8;
   0x81; 0x00; 0x70; 0x61; 0x72; 0x74; 0x69; 0x74; 0x69; 0x6f; 0x6e; 0x20; 0x73; 0x69; 0x67; 0x6e;
   0x61; 0x74; 0x75; 0x72; 0x65; 0x20; 0x21; 0x3d; 0x20; 0x35; 0x35; 0x41; 0x41; 0x00; 0xeb; 0xb9;
   0xe8; 0x10; 0x00; 0x72; 0xb6; 0x26; 0x81; 0x3e; 0xfe; 0x7d; 0x55; 0xaa; 0x75; 0xd1; 0xea; 0x00;
   0x7c; 0x00; 0x00; 0xbb; 0xaa; 0x55; 0xb4; 0x41; 0xcd; 0x13; 0x72; 0x32; 0x81; 0xfb; 0x55; 0xaa;
   0x75; 0x2c; 0xf6; 0xc1; 0x01; 0x74; 0x27; 0xeb; 0x10; 0x10; 0x00; 0x04; 0x00; 0x00; 0x7c] ++
  replicate 10 0x00 ++
  [0x8b; 0x45; 0x08; 0xa3; 0xd1; 0x7c; 0x8b; 0x45; 0x0a; 0xa3; 0xd3; 0x7c; 0xb8; 0x00; 0x42; 0xbe;
   0xc9; 0x7c; 0xcd; 0x13; 0xc3; 0xb8; 0x04; 0x02; 0xbb; 0x00; 0x7c; 0x8b; 0x4d; 0x02; 0x8a; 0x75;
   0x01; 0xcd; 0x13; 0xc3; 0x31; 0xdb; 0xb4; 0x0e; 0xcd; 0x10; 0x5e; 0xac; 0x56; 0x3c; 0x00; 0x75;
   0xf3; 0xc3].

Definition mbr_grub_0x0 : list Z :=
  [0xeb; 0x5e; 0x90] ++
  replicate 87 0x00 ++
  [0x80; 0x00; 0x20; 0x39; 0xff; 0xff; 0x31; 0xdb; 0x8e; 0xd3; 0xbc; 0x80; 0x05; 0xe8; 0x00; 0x00;
   0x5b; 0x81; 0xeb; 0x6a; 0x00; 0xc1; 0xeb; 0x04; 0x8c; 0xc8; 0x01; 0xc3; 0x53; 0x68; 0x7b; 0x00;
   0xcb; 0x68; 0x00; 0x20; 0x17; 0xbc; 0x00; 0x90; 0x80; 0xfa; 0x00; 0x74; 0x02; 0xb2; 0x80; 0x16;
   0x07; 0xb0; 0x10; 0x30; 0xf6; 0x31; 0xdb; 0xe8; 0xc2; 0x00; 0x72; 0x29; 0x0e; 0x1f; 0x31; 0xf6;
   0x31; 0xff; 0xb9; 0xdf; 0x00; 0xfc; 0xf3; 0xa5; 0xbb; 0xfc; 0x1f; 0x66; 0xb8; 0x47; 0x52; 0x55;
   0xaa; 0x66; 0x39; 0x07; 0x75; 0x03; 0xe8; 0xa7; 0x19; 0xea; 0xb8; 0x00; 0x00; 0x20; 0x16; 0x1f;
   0x66; 0x39; 0x07; 0x74; 0x1f; 0x80; 0xf2; 0x80; 0x68; 0xc0; 0x07; 0x07; 0xb0; 0x10; 0x30; 0xf6;
   0x31; 0xdb; 0xe8; 0x87; 0x00; 0x72; 0x05; 0xea; 0x00; 0x00; 0xc0; 0x07; 0xbe; 0x92; 0x01; 0xe8;
   0xaf; 0x00; 0xeb; 0xfe; 0xbe; 0xbe; 0x01; 0xe8; 0x24; 0x10; 0xf6; 0x06; 0xa4; 0x01; 0x80; 0x0f;
   0x84; 0x7b; 0x19; 0x83; 0xc6; 0x0c; 0x81; 0xfe; 0xfe; 0x01; 0x72; 0xeb; 0x77; 0x2d; 0xf6; 0x06;
   0xa7; 0x01; 0x01; 0x0f; 0x85; 0x2d; 0x17; 0x80; 0x0e; 0xa7; 0x01; 0x01; 0xf6; 0x06; 0xa7; 0x01;
   0x02; 0x75; 0xd4; 0x68; 0x00; 0x0d; 0x07; 0xb0; 0x04; 0x31; 0xd2; 0x31; 0xdb; 0xe8; 0x3c; 0x00;
   0x73; 0xc2; 0xbe; 0xbc; 0x1c; 0xe8; 0x69; 0x00; 0xe9; 0x09; 0x17; 0xf6; 0x06; 0xa7; 0x01; 0x01;
   0x0f; 0x85; 0x00; 0x17; 0x80; 0x0e; 0xa7; 0x01; 0x01; 0xe9; 0xe1; 0x16; 0x1e; 0x06; 0x52; 0x56;
   0x57; 0x55; 0xf9; 0xcd; 0x13; 0x5d; 0x5f; 0x5e; 0x5a; 0x07; 0x1f; 0xc3; 0xfa; 0xb8; 0x00; 0x20;
   0x8e; 0xd0; 0xbc; 0xdc; 0x8f; 0xfb; 0x66; 0x61; 0x07; 0x1f; 0xeb; 0x97; 0xb4; 0x02; 0xbf; 0x03;
   0x00; 0xb9; 0x01; 0x00; 0x60; 0x50; 0x53; 0x51; 0xfe; 0xc8; 0x00; 0xc1; 0xd0; 0xe0; 0x00; 0xc7;
   0xb0; 0x01; 0xe8; 0xc7; 0xff; 0x59; 0x5b; 0x58; 0x72; 0x04; 0xfe; 0xc8; 0x75; 0xe7; 0x61; 0x73;
   0x0b; 0x60; 0x31; 0xc0; 0xe8; 0xb5; 0xff; 0x61; 0x4f; 0x75; 0xd9; 0xf9; 0xc3; 0xb4; 0x0e; 0xcd;
   0x10; 0x2e; 0xac; 0x3c; 0x00; 0x75; 0xf6; 0xc3; 0x0d; 0x0a; 0x4d; 0x69; 0x73; 0x73; 0x69; 0x6e;
   0x67; 0x20; 0x68; 0x65; 0x6c; 0x70; 0x65; 0x72; 0x2e; 0x00; 0x00; 0x3f; 0xff].

Definition mbr_grub2_0x0 : list Z :=
  [0xeb; 0x63; 0x90] ++
  replicate 88 0x00 ++
  [0x80; 0x01] ++
  replicate 7 0x00 ++
  [0xff; 0xfa; 0x90; 0x90; 0xf6; 0xc2; 0x80; 0x74; 0x05; 0xf6; 0xc2; 0x70; 0x74; 0x02; 0xb2; 0x80;
   0xea; 0x79; 0x7c; 0x00; 0x00; 0x31; 0xc0; 0x8e; 0xd8; 0x8e; 0xd0; 0xbc; 0x00; 0x20; 0xfb; 0xa0;
   0x64; 0x7c; 0x3c; 0xff; 0x74; 0x02; 0x88; 0xc2; 0x52; 0xbe; 0x80; 0x7d; 0xe8; 0x17; 0x01; 0xbe;
   0x05; 0x7c; 0xb4; 0x41; 0xbb; 0xaa; 0x55; 0xcd; 0x13; 0x5a; 0x52; 0x72; 0x3d; 0x81; 0xfb; 0x55;
   0xaa; 0x75; 0x37; 0x83; 0xe1; 0x01; 0x74; 0x32; 0x31; 0xc0; 0x89; 0x44; 0x04; 0x40; 0x88; 0x44;
   0xff; 0x89; 0x44; 0x02; 0xc7; 0x04; 0x10; 0x00; 0x66; 0x8b; 0x1e; 0x5c; 0x7c; 0x66; 0x89; 0x5c;
   0x08; 0x66; 0x8b; 0x1e; 0x60; 0x7c; 0x66; 0x89; 0x5c; 0x0c; 0xc7; 0x44; 0x06; 0x00; 0x70; 0xb4;
   0x42; 0xcd; 0x13; 0x72; 0x05; 0xbb; 0x00; 0x70; 0xeb; 0x76; 0xb4; 0x08; 0xcd; 0x13; 0x73; 0x0d;
   0x5a; 0x84; 0xd2; 0x0f; 0x83; 0xd8; 0x00; 0xbe; 0x8b; 0x7d; 0xe9; 0x82; 0x00; 0x66; 0x0f; 0xb6;
   0xc6; 0x88; 0x64; 0xff; 0x40; 0x66; 0x89; 0x44; 0x04; 0x0f; 0xb6; 0xd1; 0xc1; 0xe2; 0x02; 0x88;
   0xe8; 0x88; 0xf4; 0x40; 0x89; 0x44; 0x08; 0x0f; 0xb6; 0xc2; 0xc0; 0xe8; 0x02; 0x66; 0x89; 0x04;
   0x66; 0xa1; 0x60; 0x7c; 0x66; 0x09; 0xc0; 0x75; 0x4e; 0x66; 0xa1; 0x5c; 0x7c; 0x66; 0x31; 0xd2;
   0x66; 0xf7; 0x34; 0x88; 0xd1; 0x31; 0xd2; 0x66; 0xf7; 0x74; 0x04; 0x3b; 0x44; 0x08; 0x7d; 0x37;
   0xfe; 0xc1; 0x88; 0xc5; 0x30; 0xc0; 0xc1; 0xe8; 0x02; 0x08; 0xc1; 0x88; 0xd0; 0x5a; 0x88; 0xc6;
   0xbb; 0x00; 0x70; 0x8e; 0xc3; 0x31; 0xdb; 0xb8; 0x01; 0x02; 0xcd; 0x13; 0x72; 0x1e; 0x8c; 0xc3;
   0x60; 0x1e; 0xb9; 0x00; 0x01; 0x8e; 0xdb; 0x31; 0xf6; 0xbf; 0x00; 0x80; 0x8e; 0xc6; 0xfc; 0xf3;
   0xa5; 0x1f; 0x61; 0xff; 0x26; 0x5a; 0x7c; 0xbe; 0x86; 0x7d; 0xeb; 0x03; 0xbe; 0x95; 0x7d; 0xe8;
   0x34; 0x00; 0xbe; 0x9a; 0x7d; 0xe8; 0x2e; 0x00; 0xcd; 0x18; 0xeb; 0xfe; 0x47; 0x52; 0x55; 0x42;
   0x20; 0x00; 0x47; 0x65; 0x6f; 0x6d; 0x00; 0x48; 0x61; 0x72; 0x64; 0x20; 0x44; 0x69; 0x73; 0x6b;
   0x00; 0x52; 0x65; 0x61; 0x64; 0x00; 0x20; 0x45; 0x72; 0x72; 0x6f; 0x72; 0x0d; 0x0a; 0x00; 0xbb;
   0x01; 0x00; 0xb4; 0x0e; 0xcd; 0x10; 0xac; 0x3c; 0x00; 0x75; 0xf4; 0xc3].

Definition mbr_kolibri_0x0 : list Z :=
  [0x33; 0xc0; 0x8e; 0xd0; 0xbc; 0x00; 0x7c; 0xfb; 0x50; 0x07; 0x50; 0x1f; 0xfc; 0xbe; 0x1b; 0x7c;
   0xbf; 0x1b; 0x06; 0x50; 0x57; 0xb9; 0xe5; 0x01; 0xf3; 0xa4; 0xcb; 0xbd; 0xbe; 0x07; 0xb1; 0x04;
   0x38; 0x6e; 0x00; 0x7c; 0x09; 0x75; 0x13; 0x83; 0xc5; 0x10; 0xe2; 0xf4; 0xcd; 0x18; 0x8b; 0xf5;
   0x83; 0xc6; 0x10; 0x49; 0x74; 0x19; 0x38; 0x2c; 0x74; 0xf6; 0xa0; 0xb5; 0x07; 0xb4; 0x07; 0x8b;
   0xf0; 0xac; 0x3c; 0x00; 0x74; 0xfc; 0xbb; 0x07; 0x00; 0xb4; 0x0e; 0xcd; 0x10; 0xeb; 0xf2; 0x88;
   0x4e; 0x10; 0xe8; 0x46; 0x00; 0x73; 0x2a; 0xfe; 0x46; 0x10; 0x80; 0x7e; 0x04; 0x0b; 0x74; 0x0b;
   0x80; 0x7e; 0x04; 0x0c; 0x74; 0x05; 0xa0; 0xb6; 0x07; 0x75; 0xd2; 0x80; 0x46; 0x02; 0x06; 0x83;
   0x46; 0x08; 0x06; 0x83; 0x56; 0x0a; 0x00; 0xe8; 0x21; 0x00; 0x73; 0x05; 0xa0; 0xb6; 0x07; 0xeb;
   0xbc; 0x81; 0x3e; 0xfe; 0x7d; 0x55; 0xaa; 0x74; 0x0b; 0x80; 0x7e; 0x10; 0x00; 0x74; 0xc8; 0xa0;
   0xb7; 0x07; 0xeb; 0xa9; 0x8b; 0xfc; 0x1e; 0x57; 0x8b; 0xf5; 0xcb; 0xbf; 0x05; 0x00] ++
  replicate 75 0x90 ++
  [0x60; 0xbb; 0xaa; 0x55; 0xb4; 0x41; 0xcd; 0x13; 0x72; 0x36; 0x81; 0xfb; 0x55; 0xaa; 0x75; 0x30;
   0xf6; 0xc1; 0x01; 0x74; 0x2b; 0x61; 0x60; 0x6a; 0x00; 0x6a; 0x00; 0xff; 0x76; 0x0a; 0xff; 0x76;
   0x08; 0x6a; 0x00; 0x68; 0x00; 0x7c; 0x6a; 0x01; 0x6a; 0x10; 0xb4; 0x42; 0x8b; 0xf4; 0xcd; 0x13;
   0x61; 0x61; 0x73; 0x0e; 0x4f; 0x74; 0x0b; 0x32; 0xe4; 0x52; 0xcd; 0x13; 0x5a; 0x90; 0xeb; 0xd6;
   0x61; 0xf9; 0xc3; 0x49; 0x6e; 0x76; 0x61; 0x6c; 0x69; 0x64; 0x20; 0x70; 0x61; 0x72; 0x74; 0x69;
   0x74; 0x69; 0x6f; 0x6e; 0x20; 0x74; 0x61; 0x62; 0x6c; 0x65; 0x00; 0x45; 0x72; 0x72; 0x6f; 0x72;
   0x20; 0x6c; 0x6f; 0x61; 0x64; 0x69; 0x6e; 0x67; 0x20; 0x6f; 0x70; 0x65; 0x72; 0x61; 0x74; 0x69;
   0x6e; 0x67; 0x20; 0x73; 0x79; 0x73; 0x74; 0x65; 0x6d; 0x00; 0x4d; 0x69; 0x73; 0x73; 0x69; 0x6e;
   0x67; 0x20; 0x6f; 0x70; 0x65; 0x72; 0x61; 0x74; 0x69; 0x6e; 0x67; 0x20; 0x73; 0x79; 0x73; 0x74;
   0x65; 0x6d] ++
  replicate 58 0x00 ++
  [0x2c; 0x44; 0x63].

Definition mbr_syslinux_0x0 : list Z :=
  [0x33; 0xc0; 0xfa; 0x8e; 0xd8; 0x8e; 0xd0; 0xbc; 0x00; 0x7c; 0x89; 0xe6; 0x06; 0x57; 0x8e; 0xc0;
   0xfb; 0xfc; 0xbf; 0x00; 0x06; 0xb9; 0x00; 0x01; 0xf3; 0xa5; 0xea; 0x1f; 0x06; 0x00; 0x00; 0x52;
   0x52; 0xb4; 0x41; 0xbb; 0xaa; 0x55; 0x31; 0xc9; 0x30; 0xf6; 0xf9; 0xcd; 0x13; 0x72; 0x13; 0x81;
   0xfb; 0x55; 0xaa; 0x75; 0x0d; 0xd1; 0xe9; 0x73; 0x09; 0x66; 0xc7; 0x06; 0x8d; 0x06; 0xb4; 0x42;
   0xeb; 0x15; 0x5a; 0xb4; 0x08; 0xcd; 0x13; 0x83; 0xe1; 0x3f; 0x51; 0x0f; 0xb6; 0xc6; 0x40; 0xf7;
   0xe1; 0x52; 0x50; 0x66; 0x31; 0xc0; 0x66; 0x99; 0xe8; 0x66; 0x00; 0xe8; 0x35; 0x01; 0x4d; 0x69;
   0x73; 0x73; 0x69; 0x6e; 0x67; 0x20; 0x6f; 0x70; 0x65; 0x72; 0x61; 0x74; 0x69; 0x6e; 0x67; 0x20;
   0x73; 0x79; 0x73; 0x74; 0x65; 0x6d; 0x2e; 0x0d; 0x0a; 0x66; 0x60; 0x66; 0x31; 0xd2; 0xbb; 0x00;
   0x7c; 0x66; 0x52; 0x66; 0x50; 0x06; 0x53; 0x6a; 0x01; 0x6a; 0x10; 0x89; 0xe6; 0x66; 0xf7; 0x36;
   0xf4; 0x7b; 0xc0; 0xe4; 0x06; 0x88; 0xe1; 0x88; 0xc5; 0x92; 0xf6; 0x36; 0xf8; 0x7b; 0x88; 0xc6;
   0x08; 0xe1; 0x41; 0xb8; 0x01; 0x02; 0x8a; 0x16; 0xfa; 0x7b; 0xcd; 0x13; 0x8d; 0x64; 0x10; 0x66;
   0x61; 0xc3; 0xe8; 0xc4; 0xff; 0xbe; 0xbe; 0x7d; 0xbf; 0xbe; 0x07; 0xb9; 0x20; 0x00; 0xf3; 0xa5;
   0xc3; 0x66; 0x60; 0x89; 0xe5; 0xbb; 0xbe; 0x07; 0xb9; 0x04; 0x00; 0x31; 0xc0; 0x53; 0x51; 0xf6;
   0x07; 0x80; 0x74; 0x03; 0x40; 0x89; 0xde; 0x83; 0xc3; 0x10; 0xe2; 0xf3; 0x48; 0x74; 0x5b; 0x79;
   0x39; 0x59; 0x5b; 0x8a; 0x47; 0x04; 0x3c; 0x0f; 0x74; 0x06; 0x24; 0x7f; 0x3c; 0x05; 0x75; 0x22;
   0x66; 0x8b; 0x47; 0x08; 0x66; 0x8b; 0x56; 0x14; 0x66; 0x01; 0xd0; 0x66; 0x21; 0xd2; 0x75; 0x03;
   0x66; 0x89; 0xc2; 0xe8; 0xac; 0xff; 0x72; 0x03; 0xe8; 0xb6; 0xff; 0x66; 0x8b; 0x46; 0x1c; 0xe8;
   0xa0; 0xff; 0x83; 0xc3; 0x10; 0xe2; 0xcc; 0x66; 0x61; 0xc3; 0xe8; 0x76; 0x00; 0x4d; 0x75; 0x6c;
   0x74; 0x69; 0x70; 0x6c; 0x65; 0x20; 0x61; 0x63; 0x74; 0x69; 0x76; 0x65; 0x20; 0x70; 0x61; 0x72;
   0x74; 0x69; 0x74; 0x69; 0x6f; 0x6e; 0x73; 0x2e; 0x0d; 0x0a; 0x66; 0x8b; 0x44; 0x08; 0x66; 0x03;
   0x46; 0x1c; 0x66; 0x89; 0x44; 0x08; 0xe8; 0x30; 0xff; 0x72; 0x27; 0x66; 0x81; 0x3e; 0x00; 0x7c;
   0x58; 0x46; 0x53; 0x42; 0x75; 0x09; 0x66; 0x83; 0xc0; 0x04; 0xe8; 0x1c; 0xff; 0x72; 0x13; 0x81;
   0x3e; 0xfe; 0x7d; 0x55; 0xaa; 0x0f; 0x85; 0xf2; 0xfe; 0xbc; 0xfa; 0x7b; 0x5a; 0x5f; 0x07; 0xfa;
   0xff; 0xe4; 0xe8; 0x1e; 0x00; 0x4f; 0x70; 0x65; 0x72; 0x61; 0x74; 0x69; 0x6e; 0x67; 0x20; 0x73;
   0x79; 0x73; 0x74; 0x65; 0x6d; 0x20; 0x6c; 0x6f; 0x61; 0x64; 0x20; 0x65; 0x72; 0x72; 0x6f; 0x72;
   0x2e; 0x0d; 0x0a; 0x5e; 0xac; 0xb4; 0x0e; 0x8a; 0x3e; 0x62; 0x04; 0xb3; 0x07; 0xcd; 0x10; 0x3c;
   0x0a; 0x75; 0xf1; 0xcd; 0x18; 0xf4; 0xeb; 0xfd] ++
  replicate 16 0x00.

Definition mbr_gpt_syslinux_0x0 : list Z :=
  [0x33; 0xc0; 0xfa; 0x8e; 0xd8; 0x8e; 0xd0; 0xbc; 0x00; 0x7c; 0x89; 0xe6; 0x06; 0x57; 0x8e; 0xc0;
   0xfb; 0xfc; 0xbf; 0x00; 0x06; 0xb9; 0x00; 0x01; 0xf3; 0xa5; 0xea; 0x1f; 0x06; 0x00; 0x00; 0x52;
   0x89; 0xe5; 0x83; 0xec; 0x1c; 0x6a; 0x1e; 0xc7; 0x46; 0xfa; 0x00; 0x02; 0x52; 0xb4; 0x41; 0xbb;
   0xaa; 0x55; 0x31; 0xc9; 0x30; 0xf6; 0xf9; 0xcd; 0x13; 0x5a; 0xb4; 0x08; 0x72; 0x17; 0x81; 0xfb;
   0x55; 0xaa; 0x75; 0x11; 0xd1; 0xe9; 0x73; 0x0d; 0x66; 0xc7; 0x06; 0x59; 0x07; 0xb4; 0x42; 0xeb;
   0x13; 0xb4; 0x48; 0x89; 0xe6; 0xcd; 0x13; 0x83; 0xe1; 0x3f; 0x51; 0x0f; 0xb6; 0xc6; 0x40; 0xf7;
   0xe1; 0x52; 0x50; 0x66; 0x31; 0xc0; 0x66; 0x99; 0x40; 0xe8; 0xdc; 0x00; 0x8b; 0x4e; 0x56; 0x8b;
   0x46; 0x5a; 0x50; 0x51; 0xf7; 0xe1; 0xf7; 0x76; 0xfa; 0x91; 0x41; 0x66; 0x8b; 0x46; 0x4e; 0x66;
   0x8b; 0x56; 0x52; 0x53; 0xe8; 0xc4; 0x00; 0xe2; 0xfb; 0x31; 0xf6; 0x5f; 0x59; 0x58; 0x66; 0x8b;
   0x15; 0x66; 0x0b; 0x55; 0x04; 0x66; 0x0b; 0x55; 0x08; 0x66; 0x0b; 0x55; 0x0c; 0x74; 0x0c; 0xf6;
   0x45; 0x30; 0x04; 0x74; 0x06; 0x21; 0xf6; 0x75; 0x19; 0x89; 0xfe; 0x01; 0xc7; 0xe2; 0xdf; 0x21;
   0xf6; 0x75; 0x2e; 0xe8; 0xe1; 0x00; 0x4d; 0x69; 0x73; 0x73; 0x69; 0x6e; 0x67; 0x20; 0x4f; 0x53;
   0x0d; 0x0a; 0xe8; 0xd2; 0x00; 0x4d; 0x75; 0x6c; 0x74; 0x69; 0x70; 0x6c; 0x65; 0x20; 0x61; 0x63;
   0x74; 0x69; 0x76; 0x65; 0x20; 0x70; 0x61; 0x72; 0x74; 0x69; 0x74; 0x69; 0x6f; 0x6e; 0x73; 0x0d;
   0x0a; 0x91; 0xbf; 0xbe; 0x07; 0x57; 0x66; 0x31; 0xc0; 0xb0; 0x80; 0x66; 0xab; 0xb0; 0xed; 0x66;
   0xab; 0x66; 0x8b; 0x44; 0x20; 0x66; 0x8b; 0x54; 0x24; 0xe8; 0x40; 0x00; 0x66; 0x8b; 0x44; 0x28;
   0x66; 0x8b; 0x54; 0x2c; 0x66; 0x2b; 0x44; 0x20; 0x66; 0x1b; 0x54; 0x24; 0xe8; 0x70; 0x00; 0xe8;
   0x2a; 0x00; 0x66; 0x0f; 0xb7; 0xc1; 0x66; 0xab; 0xf3; 0xa4; 0x5e; 0x66; 0x8b; 0x44; 0x34; 0x66;
   0x8b; 0x54; 0x38; 0xe8; 0x22; 0x00; 0x81; 0x3e; 0xfe; 0x7d; 0x55; 0xaa; 0x75; 0x85; 0x89; 0xec;
   0x5a; 0x5f; 0x07; 0x66; 0xb8; 0x21; 0x47; 0x50; 0x54; 0xfa; 0xff; 0xe4; 0x66; 0x21; 0xd2; 0x74;
   0x04; 0x66; 0x83; 0xc8; 0xff; 0x66; 0xab; 0xc3; 0xbb; 0x00; 0x7c; 0x66; 0x60; 0x66; 0x52; 0x66;
   0x50; 0x06; 0x53; 0x6a; 0x01; 0x6a; 0x10; 0x89; 0xe6; 0x66; 0xf7; 0x76; 0xdc; 0xc0; 0xe4; 0x06;
   0x88; 0xe1; 0x88; 0xc5; 0x92; 0xf6; 0x76; 0xe0; 0x88; 0xc6; 0x08; 0xe1; 0x41; 0xb8; 0x01; 0x02;
   0x8a; 0x56; 0x00; 0xcd; 0x13; 0x8d; 0x64; 0x10; 0x66; 0x61; 0x72; 0x0c; 0x02; 0x7e; 0xfb; 0x66;
   0x83; 0xc0; 0x01; 0x66; 0x83; 0xd2; 0x00; 0xc3; 0xe8; 0x0c; 0x00; 0x44; 0x69; 0x73; 0x6b; 0x20;
   0x65; 0x72; 0x72; 0x6f; 0x72; 0x0d; 0x0a; 0x5e; 0xac; 0xb4; 0x0e; 0x8a; 0x3e; 0x62; 0x04; 0xb3;
   0x07; 0xcd; 0x10; 0x3c; 0x0a; 0x75; 0xf1; 0xcd; 0x18; 0xf4; 0xeb; 0xfd] ++
  replicate 12 0x00.

Definition mbr_zero_0x0 : list Z :=
  replicate 446 0x00.

Definition br_fat12_0x0 : list Z :=
  [0xeb; 0x3c; 0x90; 0x4d; 0x53; 0x57; 0x49; 0x4e; 0x34; 0x2e; 0x31].

Definition br_fat12_0x3e : list Z :=
  [0x33; 0xc9; 0x8e; 0xd1; 0xbc; 0xfc; 0x7b; 0x16; 0x07; 0xbd; 0x78; 0x00; 0xc5; 0x76; 0x00; 0x1e;
   0x56; 0x16; 0x55; 0xbf; 0x22; 0x05; 0x89; 0x7e; 0x00; 0x89; 0x4e; 0x02; 0xb1; 0x0b; 0xfc; 0xf3;
   0xa4; 0x06; 0x1f; 0xbd; 0x00; 0x7c; 0xc6; 0x45; 0xfe; 0x0f; 0x38; 0x4e; 0x24; 0x7d; 0x20; 0x8b;
   0xc1; 0x99; 0xe8; 0x7e; 0x01; 0x83; 0xeb; 0x3a; 0x66; 0xa1; 0x1c; 0x7c; 0x66; 0x3b; 0x07; 0x8a;
   0x57; 0xfc; 0x75; 0x06; 0x80; 0xca; 0x02; 0x88; 0x56; 0x02; 0x80; 0xc3; 0x10; 0x73; 0xed; 0x33;
   0xc9; 0xfe; 0x06; 0xd8; 0x7d; 0x8a; 0x46; 0x10; 0x98; 0xf7; 0x66; 0x16; 0x03; 0x46; 0x1c; 0x13;
   0x56; 0x1e; 0x03; 0x46; 0x0e; 0x13; 0xd1; 0x8b; 0x76; 0x11; 0x60; 0x89; 0x46; 0xfc; 0x89; 0x56;
   0xfe; 0xb8; 0x20; 0x00; 0xf7; 0xe6; 0x8b; 0x5e; 0x0b; 0x03; 0xc3; 0x48; 0xf7; 0xf3; 0x01; 0x46;
   0xfc; 0x11; 0x4e; 0xfe; 0x61; 0xbf; 0x00; 0x07; 0xe8; 0x28; 0x01; 0x72; 0x3e; 0x38; 0x2d; 0x74;
   0x17; 0x60; 0xb1; 0x0b; 0xbe; 0xd8; 0x7d; 0xf3; 0xa6; 0x61; 0x74; 0x3d; 0x4e; 0x74; 0x09; 0x83;
   0xc7; 0x20; 0x3b; 0xfb; 0x72; 0xe7; 0xeb; 0xdd; 0xfe; 0x0e; 0xd8; 0x7d; 0x7b; 0xa7; 0xbe; 0x7f;
   0x7d; 0xac; 0x98; 0x03; 0xf0; 0xac; 0x98; 0x40; 0x74; 0x0c; 0x48; 0x74; 0x13; 0xb4; 0x0e; 0xbb;
   0x07; 0x00; 0xcd; 0x10; 0xeb; 0xef; 0xbe; 0x82; 0x7d; 0xeb; 0xe6; 0xbe; 0x80; 0x7d; 0xeb; 0xe1;
   0xcd; 0x16; 0x5e; 0x1f; 0x66; 0x8f; 0x04; 0xcd; 0x19; 0xbe; 0x81; 0x7d; 0x8b; 0x7d; 0x1a; 0x8d;
   0x45; 0xfe; 0x8a; 0x4e; 0x0d; 0xf7; 0xe1; 0x03; 0x46; 0xfc; 0x13; 0x56; 0xfe; 0xb1; 0x04; 0xe8;
   0xc2; 0x00; 0x72; 0xd7; 0xea; 0x00; 0x02; 0x70; 0x00; 0x52; 0x50; 0x06; 0x53; 0x6a; 0x01; 0x6a;
   0x10; 0x91; 0x8b; 0x46; 0x18; 0xa2; 0x26; 0x05; 0x96; 0x92; 0x33; 0xd2; 0xf7; 0xf6; 0x91; 0xf7;
   0xf6; 0x42; 0x87; 0xca; 0xf7; 0x76; 0x1a; 0x8a; 0xf2; 0x8a; 0xe8; 0xc0; 0xcc; 0x02; 0x0a; 0xcc;
   0xb8; 0x01; 0x02; 0x80; 0x7e; 0x02; 0x0e; 0x75; 0x04; 0xb4; 0x42; 0x8b; 0xf4; 0x8a; 0x56; 0x24;
   0xcd; 0x13; 0x61; 0x61; 0x72; 0x0a; 0x40; 0x75; 0x01; 0x42; 0x03; 0x5e; 0x0b; 0x49; 0x75; 0x77;
   0xc3; 0x03; 0x18; 0x01; 0x27; 0x0d; 0x0a; 0x49; 0x6e; 0x76; 0x61; 0x6c; 0x69; 0x64; 0x20; 0x73;
   0x79; 0x73; 0x74; 0x65; 0x6d; 0x20; 0x64; 0x69; 0x73; 0x6b; 0xff; 0x0d; 0x0a; 0x44; 0x69; 0x73;
   0x6b; 0x20; 0x49; 0x2f; 0x4f; 0x20; 0x65; 0x72; 0x72; 0x6f; 0x72; 0xff; 0x0d; 0x0a; 0x52; 0x65;
   0x70; 0x6c; 0x61; 0x63; 0x65; 0x20; 0x74; 0x68; 0x65; 0x20; 0x64; 0x69; 0x73; 0x6b; 0x2c; 0x20;
   0x61; 0x6e; 0x64; 0x20; 0x74; 0x68; 0x65; 0x6e; 0x20; 0x70; 0x72; 0x65; 0x73; 0x73; 0x20; 0x61;
   0x6e; 0x79; 0x20; 0x6b; 0x65; 0x79; 0x0d; 0x0a; 0x00; 0x00; 0x49; 0x4f] ++
  replicate 6 0x20 ++
  [0x53; 0x59; 0x53; 0x4d; 0x53; 0x44; 0x4f; 0x53; 0x20; 0x20; 0x20; 0x53; 0x59; 0x53; 0x7f; 0x01;
   0x00; 0x41; 0xbb; 0x00; 0x07; 0x60; 0x66; 0x6a; 0x00; 0xe9; 0x3b; 0xff; 0x00; 0x00; 0x55; 0xaa].

Definition br_fat16_0x0 : list Z :=
  [0xeb; 0x3c; 0x90; 0x4d; 0x53; 0x57; 0x49; 0x4e; 0x34; 0x2e; 0x31].

Definition br_fat16_0x3e : list Z :=
  [0xfa; 0x33; 0xc9; 0x8e; 0xd1; 0xbc; 0xfc; 0x7b; 0x16; 0x07; 0xbd; 0x78; 0x00; 0xc5; 0x76; 0x00;
   0x1e; 0x56; 0x16; 0x55; 0xbf; 0x22; 0x05; 0x89; 0x7e; 0x00; 0x89; 0x4e; 0x02; 0xb1; 0x0b; 0xfc;
   0xf3; 0xa4; 0x06; 0x1f; 0xbd; 0x00; 0x7c; 0xc6; 0x45; 0xfe; 0x0f; 0x8b; 0x46; 0x18; 0x88; 0x45;
   0xf9; 0x38; 0x4e; 0x24; 0x7d; 0x22; 0x8b; 0xc1; 0x99; 0xe8; 0x77; 0x01; 0x72; 0x1a; 0x83; 0xeb;
   0x3a; 0x66; 0xa1; 0x1c; 0x7c; 0x66; 0x3b; 0x07; 0x8a; 0x57; 0xfc; 0x75; 0x06; 0x80; 0xca; 0x02;
   0x88; 0x56; 0x02; 0x80; 0xc3; 0x10; 0x73; 0xed; 0x33; 0xc9; 0x8a; 0x46; 0x10; 0x98; 0xf7; 0x66;
   0x16; 0x03; 0x46; 0x1c; 0x13; 0x56; 0x1e; 0x03; 0x46; 0x0e; 0x13; 0xd1; 0x8b; 0x76; 0x11; 0x60;
   0x89; 0x46; 0xfc; 0x89; 0x56; 0xfe; 0xb8; 0x20; 0x00; 0xf7; 0xe6; 0x8b; 0x5e; 0x0b; 0x03; 0xc3;
   0x48; 0xf7; 0xf3; 0x01; 0x46; 0xfc; 0x11; 0x4e; 0xfe; 0x61; 0xbf; 0x00; 0x07; 0xe8; 0x23; 0x01;
   0x72; 0x39; 0x38; 0x2d; 0x74; 0x17; 0x60; 0xb1; 0x0b; 0xbe; 0xd8; 0x7d; 0xf3; 0xa6; 0x61; 0x74;
   0x39; 0x4e; 0x74; 0x09; 0x83; 0xc7; 0x20; 0x3b; 0xfb; 0x72; 0xe7; 0xeb; 0xdd; 0xbe; 0x7f; 0x7d;
   0xac; 0x98; 0x03; 0xf0; 0xac; 0x84; 0xc0; 0x74; 0x17; 0x3c; 0xff; 0x74; 0x09; 0xb4; 0x0e; 0xbb;
   0x07; 0x00; 0xcd; 0x10; 0xeb; 0xee; 0xbe; 0x82; 0x7d; 0xeb; 0xe5; 0xbe; 0x80; 0x7d; 0xeb; 0xe0;
   0x98; 0xcd; 0x16; 0x5e; 0x1f; 0x66; 0x8f; 0x04; 0xcd; 0x19; 0xbe; 0x81; 0x7d; 0x8b; 0x7d; 0x1a;
   0x8d; 0x45; 0xfe; 0x8a; 0x4e; 0x0d; 0xf7; 0xe1; 0x03; 0x46; 0xfc; 0x13; 0x56; 0xfe; 0xb1; 0x04;
   0xe8; 0xc1; 0x00; 0x72; 0xd6; 0xea; 0x00; 0x02; 0x70; 0x00; 0xb4; 0x42; 0xeb; 0x2d; 0x60; 0x66;
   0x6a; 0x00; 0x52; 0x50; 0x06; 0x53; 0x6a; 0x01; 0x6a; 0x10; 0x8b; 0xf4; 0x74; 0xec; 0x91; 0x92;
   0x33; 0xd2; 0xf7; 0x76; 0x18; 0x91; 0xf7; 0x76; 0x18; 0x42; 0x87; 0xca; 0xf7; 0x76; 0x1a; 0x8a;
   0xf2; 0x8a; 0xe8; 0xc0; 0xcc; 0x02; 0x0a; 0xcc; 0xb8; 0x01; 0x02; 0x8a; 0x56; 0x24; 0xcd; 0x13;
   0x8d; 0x64; 0x10; 0x61; 0x72; 0x0a; 0x40; 0x75; 0x01; 0x42; 0x03; 0x5e; 0x0b; 0x49; 0x75; 0x77;
   0xc3; 0x03; 0x18; 0x01; 0x27; 0x0d; 0x0a; 0x49; 0x6e; 0x76; 0x61; 0x6c; 0x69; 0x64; 0x20; 0x73;
   0x79; 0x73; 0x74; 0x65; 0x6d; 0x20; 0x64; 0x69; 0x73; 0x6b; 0xff; 0x0d; 0x0a; 0x44; 0x69; 0x73;
   0x6b; 0x20; 0x49; 0x2f; 0x4f; 0x20; 0x65; 0x72; 0x72; 0x6f; 0x72; 0xff; 0x0d; 0x0a; 0x52; 0x65;
   0x70; 0x6c; 0x61; 0x63; 0x65; 0x20; 0x74; 0x68; 0x65; 0x20; 0x64; 0x69; 0x73; 0x6b; 0x2c; 0x20;
   0x61; 0x6e; 0x64; 0x20; 0x74; 0x68; 0x65; 0x6e; 0x20; 0x70; 0x72; 0x65; 0x73; 0x73; 0x20; 0x61;
   0x6e; 0x79; 0x20; 0x6b; 0x65; 0x79; 0x0d; 0x0a; 0x00; 0x00; 0x49; 0x4f] ++
  replicate 6 0x20 ++
  [0x53; 0x59; 0x53; 0x4d; 0x53; 0x44; 0x4f; 0x53; 0x20; 0x20; 0x20; 0x53; 0x59; 0x53; 0x7f; 0x01;
   0x00; 0x41; 0xbb; 0x00; 0x07; 0x80; 0x7e; 0x02; 0x0e; 0xe9; 0x40; 0xff; 0x00; 0x00; 0x55; 0xaa].

Definition br_fat16fd_0x3e : list Z :=
  [0xfa; 0xfc; 0x31; 0xc0; 0x8e; 0xd8; 0xbd; 0x00; 0x7c; 0xb8; 0xe0; 0x1f; 0x8e; 0xc0; 0x89; 0xee;
   0x89; 0xef; 0xb9; 0x00; 0x01; 0xf3; 0xa5; 0xea; 0x5e; 0x7c; 0xe0; 0x1f; 0x00; 0x00; 0x60; 0x00;
   0x8e; 0xd8; 0x8e; 0xd0; 0x8d; 0x66; 0xa0; 0xfb; 0x80; 0x7e; 0x24; 0xff; 0x75; 0x03; 0x88; 0x56;
   0x24; 0xc7; 0x46; 0xc0; 0x10; 0x00; 0xc7; 0x46; 0xc2; 0x01; 0x00; 0xe8; 0xe6; 0x00; 0x46; 0x72;
   0x65; 0x65; 0x44; 0x4f; 0x53; 0x00; 0x8b; 0x76; 0x1c; 0x8b; 0x7e; 0x1e; 0x03; 0x76; 0x0e; 0x83;
   0xd7; 0x00; 0x89; 0x76; 0xd2; 0x89; 0x7e; 0xd4; 0x8a; 0x46; 0x10; 0x98; 0xf7; 0x66; 0x16; 0x01;
   0xc6; 0x11; 0xd7; 0x89; 0x76; 0xd6; 0x89; 0x7e; 0xd8; 0x8b; 0x5e; 0x0b; 0xb1; 0x05; 0xd3; 0xeb;
   0x8b; 0x46; 0x11; 0x31; 0xd2; 0xf7; 0xf3; 0x89; 0x46; 0xd0; 0x01; 0xc6; 0x83; 0xd7; 0x00; 0x89;
   0x76; 0xda; 0x89; 0x7e; 0xdc; 0x8b; 0x46; 0xd6; 0x8b; 0x56; 0xd8; 0x8b; 0x7e; 0xd0; 0xc4; 0x5e;
   0x5a; 0xe8; 0x98; 0x00; 0x72; 0x2f; 0xc4; 0x7e; 0x5a; 0xb9; 0x0b; 0x00; 0xbe; 0xf1; 0x7d; 0x57;
   0xf3; 0xa6; 0x5f; 0x26; 0x8b; 0x45; 0x1a; 0x74; 0x0b; 0x83; 0xc7; 0x20; 0x26; 0x80; 0x3d; 0x00;
   0x75; 0xe7; 0x72; 0x56; 0x50; 0xc4; 0x5e; 0x5a; 0x8b; 0x7e; 0x16; 0x8b; 0x46; 0xd2; 0x8b; 0x56;
   0xd4; 0xe8; 0x68; 0x00; 0x58; 0x72; 0x43; 0x1e; 0x07; 0x8e; 0x5e; 0x5c; 0xbf; 0x00; 0x20; 0xab;
   0x89; 0xc6; 0x8b; 0x56; 0x5c; 0x01; 0xf6; 0x73; 0x03; 0x80; 0xc6; 0x10; 0x8e; 0xda; 0xad; 0x3d;
   0xf8; 0xff; 0x72; 0xeb; 0x31; 0xc0; 0xab; 0x0e; 0x1f; 0xc4; 0x5e; 0x5a; 0xbe; 0x00; 0x20; 0xad;
   0x09; 0xc0; 0x74; 0x24; 0x48; 0x48; 0x8b; 0x7e; 0x0d; 0x81; 0xe7; 0xff; 0x00; 0xf7; 0xe7; 0x03;
   0x46; 0xda; 0x13; 0x56; 0xdc; 0xe8; 0x24; 0x00; 0x73; 0xe5; 0xe8; 0x17; 0x00; 0x20; 0x65; 0x72;
   0x72; 0x00; 0x30; 0xe4; 0xcd; 0x16; 0xcd; 0x19; 0x8a; 0x5e; 0x24; 0xff; 0x6e; 0x5a; 0x31; 0xdb;
   0xb4; 0x0e; 0xcd; 0x10; 0x5e; 0xac; 0x56; 0x3c; 0x00; 0x75; 0xf3; 0xc3; 0x56; 0x89; 0x46; 0xc8;
   0x89; 0x56; 0xca; 0x8c; 0x46; 0xc6; 0x89; 0x5e; 0xc4; 0xb4; 0x41; 0xbb; 0xaa; 0x55; 0x8a; 0x56;
   0x24; 0x84; 0xd2; 0x74; 0x19; 0xcd; 0x13; 0x72; 0x15; 0xd1; 0xe9; 0x81; 0xdb; 0x54; 0xaa; 0x75;
   0x0d; 0x8d; 0x76; 0xc0; 0x89; 0x5e; 0xcc; 0x89; 0x5e; 0xce; 0xb4; 0x42; 0xeb; 0x2c; 0x8b; 0x4e;
   0xc8; 0x8b; 0x56; 0xca; 0x8a; 0x46; 0x18; 0xf6; 0x66; 0x1a; 0x91; 0xf7; 0xf1; 0x92; 0xf6; 0x76;
   0x18; 0x89; 0xd1; 0x88; 0xc6; 0x86; 0xe9; 0xd0; 0xc9; 0xd0; 0xc9; 0x8a; 0x46; 0x18; 0x28; 0xe0;
   0xfe; 0xc4; 0x08; 0xe1; 0xc4; 0x5e; 0xc4; 0xb8; 0x01; 0x02; 0x8a; 0x56; 0x24; 0xcd; 0x13; 0x73;
   0x06; 0x30; 0xe4; 0xcd; 0x13; 0xeb; 0xa2; 0x8b; 0x46; 0x0b; 0xf6; 0x76; 0xc0; 0x01; 0x46; 0xc6;
   0x83; 0x46; 0xc8; 0x01; 0x83; 0x56; 0xca; 0x00; 0x4f; 0x75; 0xea; 0x8e; 0x46; 0xc6; 0x5e; 0xc3;
   0x00; 0x00; 0x00; 0x4b; 0x45; 0x52; 0x4e; 0x45; 0x4c; 0x20; 0x20; 0x53; 0x59; 0x53; 0x00; 0x00;
   0x55; 0xaa].

Definition br_fat16ros_0x0 : list Z :=
  [0xeb; 0x71; 0x90; 0x46; 0x72; 0x4c; 0x64; 0x72; 0x31; 0x2e; 0x30].

Definition br_fat16ros_0x3e : list Z :=
  [0x46; 0x52; 0x45; 0x45; 0x4c; 0x44; 0x52; 0x20; 0x53; 0x59; 0x53; 0x4c; 0x6f; 0x61; 0x64; 0x20;
   0x66; 0x61; 0x69; 0x6c; 0x65; 0x64; 0x21; 0x0d; 0x0a; 0x00; 0x50; 0x72; 0x65; 0x73; 0x73; 0x20;
   0x61; 0x6e; 0x79; 0x20; 0x6b; 0x65; 0x79; 0x20; 0x74; 0x6f; 0x20; 0x72; 0x65; 0x62; 0x6f; 0x6f;
   0x74; 0x2e; 0x2e; 0x2e; 0x00; 0x31; 0xc0; 0x8e; 0xd8; 0x8e; 0xd0; 0xbc; 0xe0; 0x7b; 0x89; 0xe5;
   0xa0; 0x24; 0x7c; 0x3c; 0xff; 0x74; 0x02; 0x88; 0xc2; 0x88; 0x16; 0x24; 0x7c; 0x31; 0xff; 0xb4;
   0x08; 0xcd; 0x13; 0x0f; 0x82; 0xb8; 0x00; 0x66; 0x0f; 0xb6; 0xdd; 0x88; 0xcf; 0xc0; 0xef; 0x06;
   0x80; 0xe1; 0x3f; 0x66; 0x0f; 0xb6; 0xc9; 0x66; 0x0f; 0xb6; 0xc6; 0x66; 0x40; 0x66; 0x43; 0x66;
   0xf7; 0xe1; 0x66; 0xf7; 0xe3; 0x66; 0x89; 0x46; 0x08; 0x66; 0x0f; 0xb7; 0x86; 0x2e; 0x00; 0x66;
   0x03; 0x86; 0x3c; 0x00; 0x66; 0x0f; 0xb7; 0x8e; 0x36; 0x00; 0x66; 0x60; 0xbb; 0x00; 0x80; 0x8e;
   0xc3; 0x31; 0xff; 0xe8; 0xb9; 0x00; 0x66; 0x61; 0x66; 0x89; 0xc3; 0x66; 0x0f; 0xb6; 0x86; 0x30;
   0x00; 0x66; 0xf7; 0xe1; 0x66; 0x01; 0xd8; 0x66; 0x89; 0x46; 0x04; 0x66; 0x0f; 0xb7; 0x9e; 0x31;
   0x00; 0x66; 0x83; 0xc3; 0x0f; 0x66; 0xc1; 0xeb; 0x04; 0x66; 0x01; 0xc3; 0x66; 0x89; 0x5e; 0x00;
   0xbb; 0x00; 0x10; 0x8e; 0xc3; 0x31; 0xff; 0x31; 0xc9; 0x41; 0x06; 0xe8; 0x81; 0x00; 0x07; 0xba;
   0x10; 0x00; 0x31; 0xdb; 0x89; 0xdf; 0x26; 0x38; 0x2d; 0x74; 0x34; 0xbe; 0x3e; 0x7c; 0xb9; 0x0b;
   0x00; 0xf3; 0xa6; 0x74; 0x08; 0x83; 0xc3; 0x20; 0x4a; 0x75; 0xe9; 0xeb; 0xd3; 0x26; 0x66; 0x0f;
   0xb7; 0x47; 0x1a; 0xba; 0x80; 0x0f; 0x8e; 0xc2; 0x31; 0xff; 0xe8; 0x24; 0x00; 0x83; 0xf8; 0xf8;
   0x72; 0xf8; 0x8a; 0x16; 0x24; 0x7c; 0x8a; 0x36; 0xfd; 0x7d; 0xea; 0x00; 0xf8; 0x00; 0x00; 0xbe;
   0x49; 0x7c; 0xe8; 0x7b; 0x00; 0xbe; 0x58; 0x7c; 0xe8; 0x75; 0x00; 0x31; 0xc0; 0xcd; 0x16; 0xcd;
   0x19; 0x66; 0x60; 0x66; 0x48; 0x66; 0x48; 0x66; 0x0f; 0xb6; 0x8e; 0x2d; 0x00; 0x66; 0xf7; 0xe1;
   0x66; 0x03; 0x46; 0x00; 0xe8; 0x18; 0x00; 0x66; 0x61; 0x06; 0xbb; 0x02; 0x00; 0xf7; 0xe3; 0xc1;
   0xe2; 0x0c; 0x81; 0xc2; 0x00; 0x80; 0x8e; 0xc2; 0x89; 0xc3; 0x26; 0x8b; 0x07; 0x07; 0xc3; 0x66;
   0x0f; 0xb7; 0xd9; 0x83; 0xfb; 0x40; 0x76; 0x03; 0xbb; 0x40; 0x00; 0x66; 0x60; 0x66; 0x6a; 0x00;
   0x66; 0x50; 0x06; 0x57; 0x53; 0x6a; 0x10; 0x89; 0xe6; 0x8a; 0x16; 0x24; 0x7c; 0xb4; 0x42; 0xcd;
   0x13; 0x72; 0x9c; 0x83; 0xc4; 0x10; 0xc1; 0xe3; 0x05; 0x8c; 0xc0; 0x01; 0xd8; 0x8e; 0xc0; 0x66;
   0x61; 0x66; 0x01; 0xd8; 0x29; 0xd9; 0x75; 0xc7; 0xc3; 0xb4; 0x0e; 0xbb; 0x07; 0x00; 0xcd; 0x10;
   0xac; 0x08; 0xc0; 0x75; 0xf4; 0xc3] ++
  replicate 42 0x00 ++
  [0x55; 0xaa].

Definition br_fat32_0x0 : list Z :=
  [0xeb; 0x58; 0x90; 0x4d; 0x53; 0x57; 0x49; 0x4e; 0x34; 0x2e; 0x31].

Definition br_fat32_0x52 : list Z :=
  [0x46; 0x41; 0x54; 0x33; 0x32; 0x20; 0x20; 0x20; 0xfa; 0x33; 0xc9; 0x8e; 0xd1; 0xbc; 0xf8; 0x7b;
   0x8e; 0xc1; 0xbd; 0x78; 0x00; 0xc5; 0x76; 0x00; 0x1e; 0x56; 0x16; 0x55; 0xbf; 0x22; 0x05; 0x89;
   0x7e; 0x00; 0x89; 0x4e; 0x02; 0xb1; 0x0b; 0xfc; 0xf3; 0xa4; 0x8e; 0xd9; 0xbd; 0x00; 0x7c; 0xc6;
   0x45; 0xfe; 0x0f; 0x8b; 0x46; 0x18; 0x88; 0x45; 0xf9; 0x38; 0x4e; 0x40; 0x7d; 0x25; 0x8b; 0xc1;
   0x99; 0xbb; 0x00; 0x07; 0xe8; 0x97; 0x00; 0x72; 0x1a; 0x83; 0xeb; 0x3a; 0x66; 0xa1; 0x1c; 0x7c;
   0x66; 0x3b; 0x07; 0x8a; 0x57; 0xfc; 0x75; 0x06; 0x80; 0xca; 0x02; 0x88; 0x56; 0x02; 0x80; 0xc3;
   0x10; 0x73; 0xed; 0xbf; 0x02; 0x00; 0x83; 0x7e; 0x16; 0x00; 0x75; 0x45; 0x8b; 0x46; 0x1c; 0x8b;
   0x56; 0x1e; 0xb9; 0x03; 0x00; 0x49; 0x40; 0x75; 0x01; 0x42; 0xbb; 0x00; 0x7e; 0xe8; 0x5f; 0x00;
   0x73; 0x26; 0xb0; 0xf8; 0x4f; 0x74; 0x1d; 0x8b; 0x46; 0x32; 0x33; 0xd2; 0xb9; 0x03; 0x00; 0x3b;
   0xc8; 0x77; 0x1e; 0x8b; 0x76; 0x0e; 0x3b; 0xce; 0x73; 0x17; 0x2b; 0xf1; 0x03; 0x46; 0x1c; 0x13;
   0x56; 0x1e; 0xeb; 0xd1; 0x73; 0x0b; 0xeb; 0x27; 0x83; 0x7e; 0x2a; 0x00; 0x77; 0x03; 0xe9; 0xfd;
   0x02; 0xbe; 0x7e; 0x7d; 0xac; 0x98; 0x03; 0xf0; 0xac; 0x84; 0xc0; 0x74; 0x17; 0x3c; 0xff; 0x74;
   0x09; 0xb4; 0x0e; 0xbb; 0x07; 0x00; 0xcd; 0x10; 0xeb; 0xee; 0xbe; 0x81; 0x7d; 0xeb; 0xe5; 0xbe;
   0x7f; 0x7d; 0xeb; 0xe0; 0x98; 0xcd; 0x16; 0x5e; 0x1f; 0x66; 0x8f; 0x04; 0xcd; 0x19; 0x41; 0x56;
   0x66; 0x6a; 0x00; 0x52; 0x50; 0x06; 0x53; 0x6a; 0x01; 0x6a; 0x10; 0x8b; 0xf4; 0x60; 0x80; 0x7e;
   0x02; 0x0e; 0x75; 0x04; 0xb4; 0x42; 0xeb; 0x1d; 0x91; 0x92; 0x33; 0xd2; 0xf7; 0x76; 0x18; 0x91;
   0xf7; 0x76; 0x18; 0x42; 0x87; 0xca; 0xf7; 0x76; 0x1a; 0x8a; 0xf2; 0x8a; 0xe8; 0xc0; 0xcc; 0x02;
   0x0a; 0xcc; 0xb8; 0x01; 0x02; 0x8a; 0x56; 0x40; 0xcd; 0x13; 0x61; 0x8d; 0x64; 0x10; 0x5e; 0x72;
   0x0a; 0x40; 0x75; 0x01; 0x42; 0x03; 0x5e; 0x0b; 0x49; 0x75; 0xb4; 0xc3; 0x03; 0x18; 0x01; 0x27;
   0x0d; 0x0a; 0x49; 0x6e; 0x76; 0x61; 0x6c; 0x69; 0x64; 0x20; 0x73; 0x79; 0x73; 0x74; 0x65; 0x6d;
   0x20; 0x64; 0x69; 0x73; 0x6b; 0xff; 0x0d; 0x0a; 0x44; 0x69; 0x73; 0x6b; 0x20; 0x49; 0x2f; 0x4f;
   0x20; 0x65; 0x72; 0x72; 0x6f; 0x72; 0xff; 0x0d; 0x0a; 0x52; 0x65; 0x70; 0x6c; 0x61; 0x63; 0x65;
   0x20; 0x74; 0x68; 0x65; 0x20; 0x64; 0x69; 0x73; 0x6b; 0x2c; 0x20; 0x61; 0x6e; 0x64; 0x20; 0x74;
   0x68; 0x65; 0x6e; 0x20; 0x70; 0x72; 0x65; 0x73; 0x73; 0x20; 0x61; 0x6e; 0x79; 0x20; 0x6b; 0x65;
   0x79; 0x0d; 0x0a; 0x00; 0x00; 0x00; 0x49; 0x4f] ++
  replicate 6 0x20 ++
  [0x53; 0x59; 0x53; 0x4d; 0x53; 0x44; 0x4f; 0x53; 0x20; 0x20; 0x20; 0x53; 0x59; 0x53; 0x7e; 0x01;
   0x00; 0x57; 0x49; 0x4e; 0x42; 0x4f; 0x4f; 0x54; 0x20; 0x53; 0x59; 0x53; 0x00; 0x00; 0x55; 0xaa;
   0x52; 0x52; 0x61; 0x41] ++
  replicate 480 0x00 ++
  [0x72; 0x72; 0x41; 0x61].

Definition br_fat32_0x3f0 : list Z :=
  replicate 14 0x00 ++
  [0x55; 0xaa; 0xfa; 0x66; 0x0f; 0xb6; 0x46; 0x10; 0x66; 0x8b; 0x4e; 0x24; 0x66; 0xf7; 0xe1; 0x66;
   0x03; 0x46; 0x1c; 0x66; 0x0f; 0xb7; 0x56; 0x0e; 0x66; 0x03; 0xc2; 0x33; 0xc9; 0x66; 0x89; 0x46;
   0xfc; 0x66; 0xc7; 0x46; 0xf8; 0xff; 0xff; 0xff; 0xff; 0xfa; 0x66; 0x8b; 0x46; 0x2c; 0x66; 0x83;
   0xf8; 0x02; 0x0f; 0x82; 0xcf; 0xfc; 0x66; 0x3d; 0xf8; 0xff; 0xff; 0x0f; 0x0f; 0x83; 0xc5; 0xfc;
   0x66; 0x0f; 0xa4; 0xc2; 0x10; 0xfb; 0x52; 0x50; 0xfa; 0x66; 0xc1; 0xe0; 0x10; 0x66; 0x0f; 0xac;
   0xd0; 0x10; 0x66; 0x83; 0xe8; 0x02; 0x66; 0x0f; 0xb6; 0x5e; 0x0d; 0x8b; 0xf3; 0x66; 0xf7; 0xe3;
   0x66; 0x03; 0x46; 0xfc; 0x66; 0x0f; 0xa4; 0xc2; 0x10; 0xfb; 0xbb; 0x00; 0x07; 0x8b; 0xfb; 0xb9;
   0x01; 0x00; 0xe8; 0xbe; 0xfc; 0x0f; 0x82; 0xaa; 0xfc; 0x38; 0x2d; 0x74; 0x1e; 0xb1; 0x0b; 0x56;
   0xbe; 0xd8; 0x7d; 0xf3; 0xa6; 0x5e; 0x74; 0x19; 0x03; 0xf9; 0x83; 0xc7; 0x15; 0x3b; 0xfb; 0x72;
   0xe8; 0x4e; 0x75; 0xd6; 0x58; 0x5a; 0xe8; 0x66; 0x00; 0x72; 0xab; 0x83; 0xc4; 0x04; 0xe9; 0x64;
   0xfc; 0x83; 0xc4; 0x04; 0x8b; 0x75; 0x09; 0x8b; 0x7d; 0x0f; 0x8b; 0xc6; 0xfa; 0x66; 0xc1; 0xe0;
   0x10; 0x8b; 0xc7; 0x66; 0x83; 0xf8; 0x02; 0x72; 0x3b; 0x66; 0x3d; 0xf8; 0xff; 0xff; 0x0f; 0x73;
   0x33; 0x66; 0x48; 0x66; 0x48; 0x66; 0x0f; 0xb6; 0x4e; 0x0d; 0x66; 0xf7; 0xe1; 0x66; 0x03; 0x46;
   0xfc; 0x66; 0x0f; 0xa4; 0xc2; 0x10; 0xfb; 0xbb; 0x00; 0x07; 0x53; 0xb9; 0x04; 0x00; 0xe8; 0x52;
   0xfc; 0x5b; 0x0f; 0x82; 0x3d; 0xfc; 0x81; 0x3f; 0x4d; 0x5a; 0x75; 0x08; 0x81; 0xbf; 0x00; 0x02;
   0x42; 0x4a; 0x74; 0x06; 0xbe; 0x80; 0x7d; 0xe9; 0x0e; 0xfc; 0xea; 0x00; 0x02; 0x70; 0x00; 0x03;
   0xc0; 0x13; 0xd2; 0x03; 0xc0; 0x13; 0xd2; 0xe8; 0x18; 0x00; 0xfa; 0x26; 0x66; 0x8b; 0x01; 0x66;
   0x25; 0xff; 0xff; 0xff; 0x0f; 0x66; 0x0f; 0xa4; 0xc2; 0x10; 0x66; 0x3d; 0xf8; 0xff; 0xff; 0x0f;
   0xfb; 0xc3; 0xbf; 0x00; 0x7e; 0xfa; 0x66; 0xc1; 0xe0; 0x10; 0x66; 0x0f; 0xac; 0xd0; 0x10; 0x66;
   0x0f; 0xb7; 0x4e; 0x0b; 0x66; 0x33; 0xd2; 0x66; 0xf7; 0xf1; 0x66; 0x3b; 0x46; 0xf8; 0x74; 0x44;
   0x66; 0x89; 0x46; 0xf8; 0x66; 0x03; 0x46; 0x1c; 0x66; 0x0f; 0xb7; 0x4e; 0x0e; 0x66; 0x03; 0xc1;
   0x66; 0x0f; 0xb7; 0x5e; 0x28; 0x83; 0xe3; 0x0f; 0x74; 0x16; 0x3a; 0x5e; 0x10; 0x0f; 0x83; 0xa4;
   0xfb; 0x52; 0x66; 0x8b; 0xc8; 0x66; 0x8b; 0x46; 0x24; 0x66; 0xf7; 0xe3; 0x66; 0x03; 0xc1; 0x5a;
   0x52; 0x66; 0x0f; 0xa4; 0xc2; 0x10; 0xfb; 0x8b; 0xdf; 0xb9; 0x01; 0x00; 0xe8; 0xb4; 0xfb; 0x5a;
   0x0f; 0x82; 0x9f; 0xfb; 0xfb; 0x8b; 0xda; 0xc3] ++
  replicate 120 0x00 ++
  [0x55; 0xaa].

Definition br_fat32fd_0x52 : list Z :=
  [0x46; 0x41; 0x54; 0x33; 0x32; 0x20; 0x20; 0x20; 0xfc; 0xfa; 0x29; 0xc0; 0x8e; 0xd8; 0xbd; 0x00;
   0x7c; 0xb8; 0xe0; 0x1f; 0x8e; 0xc0; 0x89; 0xee; 0x89; 0xef; 0xb9; 0x00; 0x01; 0xf3; 0xa5; 0xea;
   0x7a; 0x7c; 0xe0; 0x1f; 0x00; 0x00; 0x60; 0x00; 0x8e; 0xd8; 0x8e; 0xd0; 0x8d; 0x66; 0xe0; 0xfb;
   0x88; 0x56; 0x40; 0xbe; 0xc1; 0x7d; 0xe8; 0xf4; 0x00; 0x66; 0x31; 0xc0; 0x66; 0x89; 0x46; 0x44;
   0x8b; 0x46; 0x0e; 0x66; 0x03; 0x46; 0x1c; 0x66; 0x89; 0x46; 0x48; 0x66; 0x89; 0x46; 0x4c; 0x66;
   0x8b; 0x46; 0x10; 0x66; 0xf7; 0x6e; 0x24; 0x66; 0x01; 0x46; 0x4c; 0xb8; 0x00; 0x02; 0x3b; 0x46;
   0x0b; 0x74; 0x08; 0x01; 0xc0; 0xff; 0x06; 0x34; 0x7d; 0xeb; 0xf3; 0x66; 0x8b; 0x46; 0x2c; 0x66;
   0x50; 0xe8; 0x94; 0x00; 0x72; 0x4d; 0xc4; 0x5e; 0x76; 0xe8; 0xb7; 0x00; 0x31; 0xff; 0xb9; 0x0b;
   0x00; 0xbe; 0xf1; 0x7d; 0xf3; 0xa6; 0x74; 0x15; 0x83; 0xc7; 0x20; 0x83; 0xe7; 0xe0; 0x3b; 0x7e;
   0x0b; 0x75; 0xeb; 0x4a; 0x75; 0xe0; 0x66; 0x58; 0xe8; 0x34; 0x00; 0xeb; 0xd2; 0x26; 0xff; 0x75;
   0x09; 0x26; 0xff; 0x75; 0x0f; 0x66; 0x58; 0x29; 0xdb; 0x66; 0x50; 0xe8; 0x5a; 0x00; 0x72; 0x0d;
   0xe8; 0x80; 0x00; 0x4a; 0x75; 0xfa; 0x66; 0x58; 0xe8; 0x14; 0x00; 0xeb; 0xec; 0x8a; 0x5e; 0x40;
   0xff; 0x6e; 0x76; 0xbe; 0xee; 0x7d; 0xe8; 0x64; 0x00; 0x30; 0xe4; 0xcd; 0x16; 0xcd; 0x19; 0x06;
   0x57; 0x53; 0x89; 0xc7; 0xc1; 0xe7; 0x02; 0x50; 0x8b; 0x46; 0x0b; 0x48; 0x21; 0xc7; 0x58; 0x66;
   0xc1; 0xe8; 0x07; 0x66; 0x03; 0x46; 0x48; 0xbb; 0x00; 0x20; 0x8e; 0xc3; 0x29; 0xdb; 0x66; 0x3b;
   0x46; 0x44; 0x74; 0x07; 0x66; 0x89; 0x46; 0x44; 0xe8; 0x38; 0x00; 0x26; 0x80; 0x65; 0x03; 0x0f;
   0x26; 0x66; 0x8b; 0x05; 0x5b; 0x5f; 0x07; 0xc3; 0x66; 0x3d; 0xf8; 0xff; 0xff; 0x0f; 0x73; 0x15;
   0x66; 0x48; 0x66; 0x48; 0x66; 0x0f; 0xb6; 0x56; 0x0d; 0x66; 0x52; 0x66; 0xf7; 0xe2; 0x66; 0x5a;
   0x66; 0x03; 0x46; 0x4c; 0xc3; 0xf9; 0xc3; 0x31; 0xdb; 0xb4; 0x0e; 0xcd; 0x10; 0xac; 0x3c; 0x00;
   0x75; 0xf5; 0xc3; 0x52; 0x56; 0x57; 0x66; 0x50; 0x89; 0xe7; 0x6a; 0x00; 0x6a; 0x00; 0x66; 0x50;
   0x06; 0x53; 0x6a; 0x01; 0x6a; 0x10; 0x89; 0xe6; 0x8a; 0x56; 0x40; 0xb4; 0x42; 0xcd; 0x13; 0x89;
   0xfc; 0x66; 0x58; 0x73; 0x08; 0x50; 0x30; 0xe4; 0xcd; 0x13; 0x58; 0xeb; 0xd9; 0x66; 0x40; 0x03;
   0x5e; 0x0b; 0x73; 0x07; 0x8c; 0xc2; 0x80; 0xc6; 0x10; 0x8e; 0xc2; 0x5f; 0x5e; 0x5a; 0xc3; 0x4c;
   0x6f; 0x61; 0x64; 0x69; 0x6e; 0x67; 0x20; 0x46; 0x72; 0x65; 0x65; 0x44; 0x4f; 0x53; 0x20] ++
  replicate 29 0x00 ++
  [0x4e; 0x6f; 0x20; 0x4b; 0x45; 0x52; 0x4e; 0x45; 0x4c; 0x20; 0x20; 0x53; 0x59; 0x53; 0x00; 0x00;
   0x55; 0xaa; 0x52; 0x52; 0x61; 0x41] ++
  replicate 480 0x00 ++
  [0x72; 0x72; 0x41; 0x61].

Definition br_fat32fd_0x3f0 : list Z :=
  replicate 14 0x00 ++
  [0x55; 0xaa] ++
  replicate 510 0x00 ++
  [0x55; 0xaa].

Definition br_fat32nt_0x52 : list Z :=
  [0x46; 0x41; 0x54; 0x33; 0x32; 0x20; 0x20; 0x20; 0x33; 0xc9; 0x8e; 0xd1; 0xbc; 0xf4; 0x7b; 0x8e;
   0xc1; 0x8e; 0xd9; 0xbd; 0x00; 0x7c; 0x88; 0x4e; 0x02; 0x8a; 0x56; 0x40; 0xb4; 0x08; 0xcd; 0x13;
   0x73; 0x05; 0xb9; 0xff; 0xff; 0x8a; 0xf1; 0x66; 0x0f; 0xb6; 0xc6; 0x40; 0x66; 0x0f; 0xb6; 0xd1;
   0x80; 0xe2; 0x3f; 0xf7; 0xe2; 0x86; 0xcd; 0xc0; 0xed; 0x06; 0x41; 0x66; 0x0f; 0xb7; 0xc9; 0x66;
   0xf7; 0xe1; 0x66; 0x89; 0x46; 0xf8; 0x83; 0x7e; 0x16; 0x00; 0x75; 0x38; 0x83; 0x7e; 0x2a; 0x00;
   0x77; 0x32; 0x66; 0x8b; 0x46; 0x1c; 0x66; 0x83; 0xc0; 0x0c; 0xbb; 0x00; 0x80; 0xb9; 0x01; 0x00;
   0xe8; 0x2b; 0x00; 0xe9; 0x48; 0x03; 0xa0; 0xfa; 0x7d; 0xb4; 0x7d; 0x8b; 0xf0; 0xac; 0x84; 0xc0;
   0x74; 0x17; 0x3c; 0xff; 0x74; 0x09; 0xb4; 0x0e; 0xbb; 0x07; 0x00; 0xcd; 0x10; 0xeb; 0xee; 0xa0;
   0xfb; 0x7d; 0xeb; 0xe5; 0xa0; 0xf9; 0x7d; 0xeb; 0xe0; 0x98; 0xcd; 0x16; 0xcd; 0x19; 0x66; 0x60;
   0x66; 0x3b; 0x46; 0xf8; 0x0f; 0x82; 0x4a; 0x00; 0x66; 0x6a; 0x00; 0x66; 0x50; 0x06; 0x53; 0x66;
   0x68; 0x10; 0x00; 0x01; 0x00; 0x80; 0x7e; 0x02; 0x00; 0x0f; 0x85; 0x20; 0x00; 0xb4; 0x41; 0xbb;
   0xaa; 0x55; 0x8a; 0x56; 0x40; 0xcd; 0x13; 0x0f; 0x82; 0x1c; 0x00; 0x81; 0xfb; 0x55; 0xaa; 0x0f;
   0x85; 0x14; 0x00; 0xf6; 0xc1; 0x01; 0x0f; 0x84; 0x0d; 0x00; 0xfe; 0x46; 0x02; 0xb4; 0x42; 0x8a;
   0x56; 0x40; 0x8b; 0xf4; 0xcd; 0x13; 0xb0; 0xf9; 0x66; 0x58; 0x66; 0x58; 0x66; 0x58; 0x66; 0x58;
   0xeb; 0x2a; 0x66; 0x33; 0xd2; 0x66; 0x0f; 0xb7; 0x4e; 0x18; 0x66; 0xf7; 0xf1; 0xfe; 0xc2; 0x8a;
   0xca; 0x66; 0x8b; 0xd0; 0x66; 0xc1; 0xea; 0x10; 0xf7; 0x76; 0x1a; 0x86; 0xd6; 0x8a; 0x56; 0x40;
   0x8a; 0xe8; 0xc0; 0xe4; 0x06; 0x0a; 0xcc; 0xb8; 0x01; 0x02; 0xcd; 0x13; 0x66; 0x61; 0x0f; 0x82;
   0x54; 0xff; 0x81; 0xc3; 0x00; 0x02; 0x66; 0x40; 0x49; 0x0f; 0x85; 0x71; 0xff; 0xc3; 0x4e; 0x54;
   0x4c; 0x44; 0x52] ++
  replicate 6 0x20 ++
  replicate 49 0x00 ++
  [0x0d; 0x0a; 0x4e; 0x54; 0x4c; 0x44; 0x52; 0x20; 0x69; 0x73; 0x20; 0x6d; 0x69; 0x73; 0x73; 0x69;
   0x6e; 0x67; 0xff; 0x0d; 0x0a; 0x44; 0x69; 0x73; 0x6b; 0x20; 0x65; 0x72; 0x72; 0x6f; 0x72; 0xff;
   0x0d; 0x0a; 0x50; 0x72; 0x65; 0x73; 0x73; 0x20; 0x61; 0x6e; 0x79; 0x20; 0x6b; 0x65; 0x79; 0x20;
   0x74; 0x6f; 0x20; 0x72; 0x65; 0x73; 0x74; 0x61; 0x72; 0x74; 0x0d; 0x0a] ++
  replicate 17 0x00 ++
  [0xac; 0xbf; 0xcc; 0x00; 0x00; 0x55; 0xaa; 0x52; 0x52; 0x61; 0x41] ++
  replicate 480 0x00 ++
  [0x72; 0x72; 0x41; 0x61].

Definition br_fat32nt_0x3f0 : list Z :=
  replicate 14 0x00 ++
  [0x55; 0xaa; 0xfa; 0x66; 0x0f; 0xb6; 0x46; 0x10; 0x66; 0x8b; 0x4e; 0x24; 0x66; 0xf7; 0xe1; 0x66;
   0x03; 0x46; 0x1c; 0x66; 0x0f; 0xb7; 0x56; 0x0e; 0x66; 0x03; 0xc2; 0x33; 0xc9; 0x66; 0x89; 0x46;
   0xfc; 0x66; 0xc7; 0x46; 0xf8; 0xff; 0xff; 0xff; 0xff; 0xfa; 0x66; 0x8b; 0x46; 0x2c; 0x66; 0x83;
   0xf8; 0x02; 0x0f; 0x82; 0xcf; 0xfc; 0x66; 0x3d; 0xf8; 0xff; 0xff; 0x0f; 0x0f; 0x83; 0xc5; 0xfc;
   0x66; 0x0f; 0xa4; 0xc2; 0x10; 0xfb; 0x52; 0x50; 0xfa; 0x66; 0xc1; 0xe0; 0x10; 0x66; 0x0f; 0xac;
   0xd0; 0x10; 0x66; 0x83; 0xe8; 0x02; 0x66; 0x0f; 0xb6; 0x5e; 0x0d; 0x8b; 0xf3; 0x66; 0xf7; 0xe3;
   0x66; 0x03; 0x46; 0xfc; 0x66; 0x0f; 0xa4; 0xc2; 0x10; 0xfb; 0xbb; 0x00; 0x07; 0x8b; 0xfb; 0xb9;
   0x01; 0x00; 0xe8; 0xbe; 0xfc; 0x0f; 0x82; 0xaa; 0xfc; 0x38; 0x2d; 0x74; 0x1e; 0xb1; 0x0b; 0x56;
   0xbe; 0xd8; 0x7d; 0xf3; 0xa6; 0x5e; 0x74; 0x19; 0x03; 0xf9; 0x83; 0xc7; 0x15; 0x3b; 0xfb; 0x72;
   0xe8; 0x4e; 0x75; 0xd6; 0x58; 0x5a; 0xe8; 0x66; 0x00; 0x72; 0xab; 0x83; 0xc4; 0x04; 0xe9; 0x64;
   0xfc; 0x83; 0xc4; 0x04; 0x8b; 0x75; 0x09; 0x8b; 0x7d; 0x0f; 0x8b; 0xc6; 0xfa; 0x66; 0xc1; 0xe0;
   0x10; 0x8b; 0xc7; 0x66; 0x83; 0xf8; 0x02; 0x72; 0x3b; 0x66; 0x3d; 0xf8; 0xff; 0xff; 0x0f; 0x73;
   0x33; 0x66; 0x48; 0x66; 0x48; 0x66; 0x0f; 0xb6; 0x4e; 0x0d; 0x66; 0xf7; 0xe1; 0x66; 0x03; 0x46;
   0xfc; 0x66; 0x0f; 0xa4; 0xc2; 0x10; 0xfb; 0xbb; 0x00; 0x07; 0x53; 0xb9; 0x04; 0x00; 0xe8; 0x52;
   0xfc; 0x5b; 0x0f; 0x82; 0x3d; 0xfc; 0x81; 0x3f; 0x4d; 0x5a; 0x75; 0x08; 0x81; 0xbf; 0x00; 0x02;
   0x42; 0x4a; 0x74; 0x06; 0xbe; 0x80; 0x7d; 0xe9; 0x0e; 0xfc; 0xea; 0x00; 0x02; 0x70; 0x00; 0x03;
   0xc0; 0x13; 0xd2; 0x03; 0xc0; 0x13; 0xd2; 0xe8; 0x18; 0x00; 0xfa; 0x26; 0x66; 0x8b; 0x01; 0x66;
   0x25; 0xff; 0xff; 0xff; 0x0f; 0x66; 0x0f; 0xa4; 0xc2; 0x10; 0x66; 0x3d; 0xf8; 0xff; 0xff; 0x0f;
   0xfb; 0xc3; 0xbf; 0x00; 0x7e; 0xfa; 0x66; 0xc1; 0xe0; 0x10; 0x66; 0x0f; 0xac; 0xd0; 0x10; 0x66;
   0x0f; 0xb7; 0x4e; 0x0b; 0x66; 0x33; 0xd2; 0x66; 0xf7; 0xf1; 0x66; 0x3b; 0x46; 0xf8; 0x74; 0x44;
   0x66; 0x89; 0x46; 0xf8; 0x66; 0x03; 0x46; 0x1c; 0x66; 0x0f; 0xb7; 0x4e; 0x0e; 0x66; 0x03; 0xc1;
   0x66; 0x0f; 0xb7; 0x5e; 0x28; 0x83; 0xe3; 0x0f; 0x74; 0x16; 0x3a; 0x5e; 0x10; 0x0f; 0x83; 0xa4;
   0xfb; 0x52; 0x66; 0x8b; 0xc8; 0x66; 0x8b; 0x46; 0x24; 0x66; 0xf7; 0xe3; 0x66; 0x03; 0xc1; 0x5a;
   0x52; 0x66; 0x0f; 0xa4; 0xc2; 0x10; 0xfb; 0x8b; 0xdf; 0xb9; 0x01; 0x00; 0xe8; 0xb4; 0xfb; 0x5a;
   0x0f; 0x82; 0x9f; 0xfb; 0xfb; 0x8b; 0xda; 0xc3] ++
  replicate 120 0x00 ++
  [0x55; 0xaa].

Definition br_fat32nt_0x1800 : list Z :=
  [0x66; 0x0f; 0xb6; 0x46; 0x10; 0x66; 0x8b; 0x4e; 0x24; 0x66; 0xf7; 0xe1; 0x66; 0x03; 0x46; 0x1c;
   0x66; 0x0f; 0xb7; 0x56; 0x0e; 0x66; 0x03; 0xc2; 0x66; 0x89; 0x46; 0xfc; 0x66; 0xc7; 0x46; 0xf4;
   0xff; 0xff; 0xff; 0xff; 0x66; 0x8b; 0x46; 0x2c; 0x66; 0x83; 0xf8; 0x02; 0x0f; 0x82; 0xa6; 0xfc;
   0x66; 0x3d; 0xf8; 0xff; 0xff; 0x0f; 0x0f; 0x83; 0x9c; 0xfc; 0x66; 0x50; 0x66; 0x83; 0xe8; 0x02;
   0x66; 0x0f; 0xb6; 0x5e; 0x0d; 0x8b; 0xf3; 0x66; 0xf7; 0xe3; 0x66; 0x03; 0x46; 0xfc; 0xbb; 0x00;
   0x82; 0x8b; 0xfb; 0xb9; 0x01; 0x00; 0xe8; 0x87; 0xfc; 0x38; 0x2d; 0x74; 0x1e; 0xb1; 0x0b; 0x56;
   0xbe; 0x70; 0x7d; 0xf3; 0xa6; 0x5e; 0x74; 0x1b; 0x03; 0xf9; 0x83; 0xc7; 0x15; 0x3b; 0xfb; 0x72;
   0xe8; 0x4e; 0x75; 0xda; 0x66; 0x58; 0xe8; 0x65; 0x00; 0x72; 0xbf; 0x83; 0xc4; 0x04; 0xe9; 0x55;
   0xfc; 0x00; 0x20; 0x83; 0xc4; 0x04; 0x8b; 0x75; 0x09; 0x8b; 0x7d; 0x0f; 0x8b; 0xc6; 0x66; 0xc1;
   0xe0; 0x10; 0x8b; 0xc7; 0x66; 0x83; 0xf8; 0x02; 0x0f; 0x82; 0x3a; 0xfc; 0x66; 0x3d; 0xf8; 0xff;
   0xff; 0x0f; 0x0f; 0x83; 0x30; 0xfc; 0x66; 0x50; 0x66; 0x83; 0xe8; 0x02; 0x66; 0x0f; 0xb6; 0x4e;
   0x0d; 0x66; 0xf7; 0xe1; 0x66; 0x03; 0x46; 0xfc; 0xbb; 0x00; 0x00; 0x06; 0x8e; 0x06; 0x81; 0x80;
   0xe8; 0x1d; 0xfc; 0x07; 0x66; 0x58; 0xc1; 0xeb; 0x04; 0x01; 0x1e; 0x81; 0x80; 0xe8; 0x0e; 0x00;
   0x0f; 0x83; 0x02; 0x00; 0x72; 0xd0; 0x8a; 0x56; 0x40; 0xea; 0x00; 0x00; 0x00; 0x20; 0x66; 0xc1;
   0xe0; 0x02; 0xe8; 0x11; 0x00; 0x26; 0x66; 0x8b; 0x01; 0x66; 0x25; 0xff; 0xff; 0xff; 0x0f; 0x66;
   0x3d; 0xf8; 0xff; 0xff; 0x0f; 0xc3; 0xbf; 0x00; 0x7e; 0x66; 0x0f; 0xb7; 0x4e; 0x0b; 0x66; 0x33;
   0xd2; 0x66; 0xf7; 0xf1; 0x66; 0x3b; 0x46; 0xf4; 0x74; 0x3a; 0x66; 0x89; 0x46; 0xf4; 0x66; 0x03;
   0x46; 0x1c; 0x66; 0x0f; 0xb7; 0x4e; 0x0e; 0x66; 0x03; 0xc1; 0x66; 0x0f; 0xb7; 0x5e; 0x28; 0x83;
   0xe3; 0x0f; 0x74; 0x16; 0x3a; 0x5e; 0x10; 0x0f; 0x83; 0xab; 0xfb; 0x52; 0x66; 0x8b; 0xc8; 0x66;
   0x8b; 0x46; 0x24; 0x66; 0xf7; 0xe3; 0x66; 0x03; 0xc1; 0x5a; 0x52; 0x8b; 0xdf; 0xb9; 0x01; 0x00;
   0xe8; 0x9d; 0xfb; 0x5a; 0x8b; 0xda; 0xc3] ++
  replicate 183 0x00 ++
  [0x55; 0xaa].

Definition br_fat32pe_0x52 : list Z :=
  [0x46; 0x41; 0x54; 0x33; 0x32; 0x20; 0x20; 0x20; 0x33; 0xc9; 0x8e; 0xd1; 0xbc; 0xf4; 0x7b; 0x8e;
   0xc1; 0x8e; 0xd9; 0xbd; 0x00; 0x7c; 0x88; 0x4e; 0x02; 0x8a; 0x56; 0x40; 0xb4; 0x41; 0xbb; 0xaa;
   0x55; 0xcd; 0x13; 0x72; 0x10; 0x81; 0xfb; 0x55; 0xaa; 0x75; 0x0a; 0xf6; 0xc1; 0x01; 0x74; 0x05;
   0xfe; 0x46; 0x02; 0xeb; 0x2d; 0x8a; 0x56; 0x40; 0xb4; 0x08; 0xcd; 0x13; 0x73; 0x05; 0xb9; 0xff;
   0xff; 0x8a; 0xf1; 0x66; 0x0f; 0xb6; 0xc6; 0x40; 0x66; 0x0f; 0xb6; 0xd1; 0x80; 0xe2; 0x3f; 0xf7;
   0xe2; 0x86; 0xcd; 0xc0; 0xed; 0x06; 0x41; 0x66; 0x0f; 0xb7; 0xc9; 0x66; 0xf7; 0xe1; 0x66; 0x89;
   0x46; 0xf8; 0x83; 0x7e; 0x16; 0x00; 0x75; 0x38; 0x83; 0x7e; 0x2a; 0x00; 0x77; 0x32; 0x66; 0x8b;
   0x46; 0x1c; 0x66; 0x83; 0xc0; 0x0c; 0xbb; 0x00; 0x80; 0xb9; 0x01; 0x00; 0xe8; 0x2b; 0x00; 0xe9;
   0x2c; 0x03; 0xa0; 0xfa; 0x7d; 0xb4; 0x7d; 0x8b; 0xf0; 0xac; 0x84; 0xc0; 0x74; 0x17; 0x3c; 0xff;
   0x74; 0x09; 0xb4; 0x0e; 0xbb; 0x07; 0x00; 0xcd; 0x10; 0xeb; 0xee; 0xa0; 0xfb; 0x7d; 0xeb; 0xe5;
   0xa0; 0xf9; 0x7d; 0xeb; 0xe0; 0x98; 0xcd; 0x16; 0xcd; 0x19; 0x66; 0x60; 0x80; 0x7e; 0x02; 0x00;
   0x0f; 0x84; 0x20; 0x00; 0x66; 0x6a; 0x00; 0x66; 0x50; 0x06; 0x53; 0x66; 0x68; 0x10; 0x00; 0x01;
   0x00; 0xb4; 0x42; 0x8a; 0x56; 0x40; 0x8b; 0xf4; 0xcd; 0x13; 0x66; 0x58; 0x66; 0x58; 0x66; 0x58;
   0x66; 0x58; 0xeb; 0x33; 0x66; 0x3b; 0x46; 0xf8; 0x72; 0x03; 0xf9; 0xeb; 0x2a; 0x66; 0x33; 0xd2;
   0x66; 0x0f; 0xb7; 0x4e; 0x18; 0x66; 0xf7; 0xf1; 0xfe; 0xc2; 0x8a; 0xca; 0x66; 0x8b; 0xd0; 0x66;
   0xc1; 0xea; 0x10; 0xf7; 0x76; 0x1a; 0x86; 0xd6; 0x8a; 0x56; 0x40; 0x8a; 0xe8; 0xc0; 0xe4; 0x06;
   0x0a; 0xcc; 0xb8; 0x01; 0x02; 0xcd; 0x13; 0x66; 0x61; 0x0f; 0x82; 0x75; 0xff; 0x81; 0xc3; 0x00;
   0x02; 0x66; 0x40; 0x49; 0x75; 0x94; 0xc3; 0x42; 0x4f; 0x4f; 0x54; 0x4d; 0x47; 0x52; 0x20; 0x20;
   0x20; 0x20] ++
  replicate 56 0x00 ++
  [0x0d; 0x0a; 0x42; 0x4f; 0x4f; 0x54; 0x4d; 0x47; 0x52; 0x20; 0x69; 0x73; 0x20; 0x6d; 0x69; 0x73;
   0x73; 0x69; 0x6e; 0x67; 0xff; 0x0d; 0x0a; 0x44; 0x69; 0x73; 0x6b; 0x20; 0x65; 0x72; 0x72; 0x6f;
   0x72; 0xff; 0x0d; 0x0a; 0x50; 0x72; 0x65; 0x73; 0x73; 0x20; 0x61; 0x6e; 0x79; 0x20; 0x6b; 0x65;
   0x79; 0x20; 0x74; 0x6f; 0x20; 0x72; 0x65; 0x73; 0x74; 0x61; 0x72; 0x74; 0x0d; 0x0a] ++
  replicate 15 0x00 ++
  [0xac; 0xc1; 0xce; 0x00; 0x00; 0x55; 0xaa; 0x52; 0x52; 0x61; 0x41] ++
  replicate 480 0x00 ++
  [0x72; 0x72; 0x41; 0x61; 0x00; 0x00; 0x00; 0x00; 0x02].

Definition br_fat32pe_0x3f0 : list Z :=
  replicate 14 0x00 ++
  [0x55; 0xaa; 0xfa; 0x66; 0x0f; 0xb6; 0x46; 0x10; 0x66; 0x8b; 0x4e; 0x24; 0x66; 0xf7; 0xe1; 0x66;
   0x03; 0x46; 0x1c; 0x66; 0x0f; 0xb7; 0x56; 0x0e; 0x66; 0x03; 0xc2; 0x33; 0xc9; 0x66; 0x89; 0x46;
   0xfc; 0x66; 0xc7; 0x46; 0xf8; 0xff; 0xff; 0xff; 0xff; 0xfa; 0x66; 0x8b; 0x46; 0x2c; 0x66; 0x83;
   0xf8; 0x02; 0x0f; 0x82; 0xcf; 0xfc; 0x66; 0x3d; 0xf8; 0xff; 0xff; 0x0f; 0x0f; 0x83; 0xc5; 0xfc;
   0x66; 0x0f; 0xa4; 0xc2; 0x10; 0xfb; 0x52; 0x50; 0xfa; 0x66; 0xc1; 0xe0; 0x10; 0x66; 0x0f; 0xac;
   0xd0; 0x10; 0x66; 0x83; 0xe8; 0x02; 0x66; 0x0f; 0xb6; 0x5e; 0x0d; 0x8b; 0xf3; 0x66; 0xf7; 0xe3;
   0x66; 0x03; 0x46; 0xfc; 0x66; 0x0f; 0xa4; 0xc2; 0x10; 0xfb; 0xbb; 0x00; 0x07; 0x8b; 0xfb; 0xb9;
   0x01; 0x00; 0xe8; 0xbe; 0xfc; 0x0f; 0x82; 0xaa; 0xfc; 0x38; 0x2d; 0x74; 0x1e; 0xb1; 0x0b; 0x56;
   0xbe; 0xd8; 0x7d; 0xf3; 0xa6; 0x5e; 0x74; 0x19; 0x03; 0xf9; 0x83; 0xc7; 0x15; 0x3b; 0xfb; 0x72;
   0xe8; 0x4e; 0x75; 0xd6; 0x58; 0x5a; 0xe8; 0x66; 0x00; 0x72; 0xab; 0x83; 0xc4; 0x04; 0xe9; 0x64;
   0xfc; 0x83; 0xc4; 0x04; 0x8b; 0x75; 0x09; 0x8b; 0x7d; 0x0f; 0x8b; 0xc6; 0xfa; 0x66; 0xc1; 0xe0;
   0x10; 0x8b; 0xc7; 0x66; 0x83; 0xf8; 0x02; 0x72; 0x3b; 0x66; 0x3d; 0xf8; 0xff; 0xff; 0x0f; 0x73;
   0x33; 0x66; 0x48; 0x66; 0x48; 0x66; 0x0f; 0xb6; 0x4e; 0x0d; 0x66; 0xf7; 0xe1; 0x66; 0x03; 0x46;
   0xfc; 0x66; 0x0f; 0xa4; 0xc2; 0x10; 0xfb; 0xbb; 0x00; 0x07; 0x53; 0xb9; 0x04; 0x00; 0xe8; 0x52;
   0xfc; 0x5b; 0x0f; 0x82; 0x3d; 0xfc; 0x81; 0x3f; 0x4d; 0x5a; 0x75; 0x08; 0x81; 0xbf; 0x00; 0x02;
   0x42; 0x4a; 0x74; 0x06; 0xbe; 0x80; 0x7d; 0xe9; 0x0e; 0xfc; 0xea; 0x00; 0x02; 0x70; 0x00; 0x03;
   0xc0; 0x13; 0xd2; 0x03; 0xc0; 0x13; 0xd2; 0xe8; 0x18; 0x00; 0xfa; 0x26; 0x66; 0x8b; 0x01; 0x66;
   0x25; 0xff; 0xff; 0xff; 0x0f; 0x66; 0x0f; 0xa4; 0xc2; 0x10; 0x66; 0x3d; 0xf8; 0xff; 0xff; 0x0f;
   0xfb; 0xc3; 0xbf; 0x00; 0x7e; 0xfa; 0x66; 0xc1; 0xe0; 0x10; 0x66; 0x0f; 0xac; 0xd0; 0x10; 0x66;
   0x0f; 0xb7; 0x4e; 0x0b; 0x66; 0x33; 0xd2; 0x66; 0xf7; 0xf1; 0x66; 0x3b; 0x46; 0xf8; 0x74; 0x44;
   0x66; 0x89; 0x46; 0xf8; 0x66; 0x03; 0x46; 0x1c; 0x66; 0x0f; 0xb7; 0x4e; 0x0e; 0x66; 0x03; 0xc1;
   0x66; 0x0f; 0xb7; 0x5e; 0x28; 0x83; 0xe3; 0x0f; 0x74; 0x16; 0x3a; 0x5e; 0x10; 0x0f; 0x83; 0xa4;
   0xfb; 0x52; 0x66; 0x8b; 0xc8; 0x66; 0x8b; 0x46; 0x24; 0x66; 0xf7; 0xe3; 0x66; 0x03; 0xc1; 0x5a;
   0x52; 0x66; 0x0f; 0xa4; 0xc2; 0x10; 0xfb; 0x8b; 0xdf; 0xb9; 0x01; 0x00; 0xe8; 0xb4; 0xfb; 0x5a;
   0x0f; 0x82; 0x9f; 0xfb; 0xfb; 0x8b; 0xda; 0xc3] ++
  replicate 120 0x00 ++
  [0x55; 0xaa].

Definition br_fat32pe_0x1800 : list Z :=
  [0x66; 0x0f; 0xb6; 0x46; 0x10; 0x66; 0x8b; 0x4e; 0x24; 0x66; 0xf7; 0xe1; 0x66; 0x03; 0x46; 0x1c;
   0x66; 0x0f; 0xb7; 0x56; 0x0e; 0x66; 0x03; 0xc2; 0x66; 0x89; 0x46; 0xfc; 0x66; 0xc7; 0x46; 0xf4;
   0xff; 0xff; 0xff; 0xff; 0x66; 0x8b; 0x46; 0x2c; 0x66; 0x83; 0xf8; 0x02; 0x0f; 0x82; 0xc2; 0xfc;
   0x66; 0x3d; 0xf8; 0xff; 0xff; 0x0f; 0x0f; 0x83; 0xb8; 0xfc; 0x66; 0x50; 0x66; 0x83; 0xe8; 0x02;
   0x66; 0x0f; 0xb6; 0x5e; 0x0d; 0x8b; 0xf3; 0x66; 0xf7; 0xe3; 0x66; 0x03; 0x46; 0xfc; 0xbb; 0x00;
   0x82; 0x8b; 0xfb; 0xb9; 0x01; 0x00; 0xe8; 0xa3; 0xfc; 0x38; 0x2d; 0x74; 0x1e; 0xb1; 0x0b; 0x56;
   0xbe; 0x69; 0x7d; 0xf3; 0xa6; 0x5e; 0x74; 0x1b; 0x03; 0xf9; 0x83; 0xc7; 0x15; 0x3b; 0xfb; 0x72;
   0xe8; 0x4e; 0x75; 0xda; 0x66; 0x58; 0xe8; 0x65; 0x00; 0x72; 0xbf; 0x83; 0xc4; 0x04; 0xe9; 0x71;
   0xfc; 0x00; 0x20; 0x83; 0xc4; 0x04; 0x8b; 0x75; 0x09; 0x8b; 0x7d; 0x0f; 0x8b; 0xc6; 0x66; 0xc1;
   0xe0; 0x10; 0x8b; 0xc7; 0x66; 0x83; 0xf8; 0x02; 0x0f; 0x82; 0x56; 0xfc; 0x66; 0x3d; 0xf8; 0xff;
   0xff; 0x0f; 0x0f; 0x83; 0x4c; 0xfc; 0x66; 0x50; 0x66; 0x83; 0xe8; 0x02; 0x66; 0x0f; 0xb6; 0x4e;
   0x0d; 0x66; 0xf7; 0xe1; 0x66; 0x03; 0x46; 0xfc; 0xbb; 0x00; 0x00; 0x06; 0x8e; 0x06; 0x81; 0x80;
   0xe8; 0x39; 0xfc; 0x07; 0x66; 0x58; 0xc1; 0xeb; 0x04; 0x01; 0x1e; 0x81; 0x80; 0xe8; 0x0e; 0x00;
   0x0f; 0x83; 0x02; 0x00; 0x72; 0xd0; 0x8a; 0x56; 0x40; 0xea; 0x00; 0x00; 0x00; 0x20; 0x66; 0xc1;
   0xe0; 0x02; 0xe8; 0x11; 0x00; 0x26; 0x66; 0x8b; 0x01; 0x66; 0x25; 0xff; 0xff; 0xff; 0x0f; 0x66;
   0x3d; 0xf8; 0xff; 0xff; 0x0f; 0xc3; 0xbf; 0x00; 0x7e; 0x66; 0x0f; 0xb7; 0x4e; 0x0b; 0x66; 0x33;
   0xd2; 0x66; 0xf7; 0xf1; 0x66; 0x3b; 0x46; 0xf4; 0x74; 0x3a; 0x66; 0x89; 0x46; 0xf4; 0x66; 0x03;
   0x46; 0x1c; 0x66; 0x0f; 0xb7; 0x4e; 0x0e; 0x66; 0x03; 0xc1; 0x66; 0x0f; 0xb7; 0x5e; 0x28; 0x83;
   0xe3; 0x0f; 0x74; 0x16; 0x3a; 0x5e; 0x10; 0x0f; 0x83; 0xc7; 0xfb; 0x52; 0x66; 0x8b; 0xc8; 0x66;
   0x8b; 0x46; 0x24; 0x66; 0xf7; 0xe3; 0x66; 0x03; 0xc1; 0x5a; 0x52; 0x8b; 0xdf; 0xb9; 0x01; 0x00;
   0xe8; 0xb9; 0xfb; 0x5a; 0x8b; 0xda; 0xc3] ++
  replicate 183 0x00 ++
  [0x55; 0xaa].

Definition br_fat32ros_0x52 : list Z :=
  [0x46; 0x41; 0x54; 0x33; 0x32; 0x20; 0x20; 0x20; 0x31; 0xc0; 0x8e; 0xd8; 0x8e; 0xc0; 0x8e; 0xd0;
   0xbd; 0x00; 0x7c; 0xbc; 0x00; 0x7c; 0x80; 0xbe; 0x40; 0x00; 0xff; 0x75; 0x04; 0x88; 0x96; 0x40;
   0x00; 0x83; 0xbe; 0x16; 0x00; 0x00; 0x75; 0x0f; 0x66; 0x83; 0xbe; 0x11; 0x00; 0x00; 0x75; 0x07;
   0x83; 0xbe; 0x2a; 0x00; 0x00; 0x76; 0x03; 0xe9; 0x07; 0x01; 0xb8; 0x00; 0x08; 0x8a; 0x96; 0x40;
   0x00; 0xcd; 0x13; 0x73; 0x05; 0xb9; 0xff; 0xff; 0x88; 0xce; 0x88; 0xeb; 0x88; 0xcf; 0xc0; 0xef;
   0x06; 0x80; 0xe1; 0x3f; 0x66; 0x0f; 0xb6; 0xc6; 0x66; 0x0f; 0xb7; 0xdb; 0x66; 0x0f; 0xb6; 0xc9;
   0x66; 0x40; 0x66; 0x43; 0x66; 0xf7; 0xe1; 0x66; 0xf7; 0xe3; 0x66; 0xa3; 0xb4; 0x7d; 0x66; 0xb8;
   0x0e; 0x00; 0x00; 0x00; 0x66; 0x03; 0x86; 0x1c; 0x00; 0xb9; 0x01; 0x00; 0x31; 0xdb; 0x8e; 0xc3;
   0xbb; 0x00; 0x7e; 0xe8; 0x03; 0x00; 0xe9; 0x25; 0x01; 0x06; 0x66; 0x3b; 0x06; 0xb4; 0x7d; 0x73;
   0x1c; 0x66; 0x60; 0xb4; 0x41; 0xbb; 0xaa; 0x55; 0x8a; 0x96; 0x40; 0x00; 0xcd; 0x13; 0x72; 0x57;
   0x81; 0xfb; 0x55; 0xaa; 0x75; 0x51; 0xf6; 0xc1; 0x01; 0x74; 0x4c; 0x66; 0x61; 0x66; 0x60; 0x83;
   0xf9; 0x40; 0x76; 0x03; 0xb9; 0x40; 0x00; 0x89; 0x0e; 0x45; 0x7d; 0x6a; 0x00; 0x6a; 0x00; 0x66;
   0x50; 0x06; 0x53; 0x51; 0x6a; 0x10; 0x89; 0xe6; 0x8a; 0x96; 0x40; 0x00; 0xb4; 0x42; 0xcd; 0x13;
   0x72; 0x67; 0x83; 0xc4; 0x10; 0x66; 0x61; 0x53; 0x66; 0x8b; 0x1e; 0x45; 0x7d; 0x66; 0x01; 0xd8;
   0x66; 0xc1; 0xe3; 0x05; 0x8c; 0xc2; 0x01; 0xda; 0x8e; 0xc2; 0x5b; 0x2b; 0x0e; 0x45; 0x7d; 0x75;
   0xbc; 0x07; 0xc3; 0x00; 0x00; 0x00; 0x00; 0x66; 0x61; 0x66; 0x60; 0x66; 0x31; 0xd2; 0x66; 0x0f;
   0xb7; 0x8e; 0x18; 0x00; 0x66; 0xf7; 0xf1; 0xfe; 0xc2; 0x88; 0xd1; 0x66; 0x89; 0xc2; 0x66; 0xc1;
   0xea; 0x10; 0xf7; 0xb6; 0x1a; 0x00; 0x88; 0xd6; 0x8a; 0x96; 0x40; 0x00; 0x88; 0xc5; 0xd0; 0xcc;
   0xd0; 0xcc; 0x08; 0xe1; 0xb8; 0x01; 0x02; 0xcd; 0x13; 0x72; 0x0e; 0x66; 0x61; 0x66; 0x40; 0x8c;
   0xc2; 0x83; 0xc2; 0x20; 0x8e; 0xc2; 0xe2; 0xc1; 0xc3; 0xbe; 0xb8; 0x7d; 0xe8; 0x14; 0x00; 0xeb;
   0x06; 0xbe; 0xc5; 0x7d; 0xe8; 0x0c; 0x00; 0xbe; 0xd9; 0x7d; 0xe8; 0x06; 0x00; 0x31; 0xc0; 0xcd;
   0x16; 0xcd; 0x19; 0xac; 0x08; 0xc0; 0x74; 0x09; 0xb4; 0x0e; 0xbb; 0x07; 0x00; 0xcd; 0x10; 0xeb;
   0xf2; 0xc3; 0x00; 0x00; 0x00; 0x00; 0x44; 0x69; 0x73; 0x6b; 0x20; 0x65; 0x72; 0x72; 0x6f; 0x72;
   0x0d; 0x0a; 0x00; 0x46; 0x69; 0x6c; 0x65; 0x20; 0x73; 0x79; 0x73; 0x74; 0x65; 0x6d; 0x20; 0x65;
   0x72; 0x72; 0x6f; 0x72; 0x0d; 0x0a; 0x00; 0x50; 0x72; 0x65; 0x73; 0x73; 0x20; 0x61; 0x6e; 0x79;
   0x20; 0x6b; 0x65; 0x79; 0x20; 0x74; 0x6f; 0x20; 0x72; 0x65; 0x73; 0x74; 0x61; 0x72; 0x74; 0x0d;
   0x0a] ++
  replicate 11 0x00 ++
  [0x55; 0xaa; 0x52; 0x52; 0x61; 0x41] ++
  replicate 480 0x00 ++
  [0x72; 0x72; 0x41; 0x61].

Definition br_fat32ros_0x3f0 : list Z :=
  replicate 14 0x00 ++
  [0x55; 0xaa].

Definition br_fat32ros_0x1c00 : list Z :=
  [0x66; 0x8b; 0x86; 0x2c; 0x00; 0x66; 0x3d; 0xf8; 0xff; 0xff; 0x0f; 0x72; 0x03; 0xe9; 0x6c; 0x01;
   0xbb; 0x00; 0x20; 0x8e; 0xc3; 0xe8; 0x26; 0x01; 0x31; 0xdb; 0x8a; 0x9e; 0x0d; 0x00; 0xc1; 0xe3;
   0x04; 0xb8; 0x00; 0x20; 0x8e; 0xc0; 0x31; 0xff; 0xbe; 0xa3; 0x7f; 0xb9; 0x0b; 0x00; 0xf3; 0xa6;
   0x74; 0x2b; 0x4b; 0x75; 0x03; 0xe9; 0x44; 0x01; 0x8c; 0xc0; 0x83; 0xc0; 0x02; 0x8e; 0xc0; 0x31;
   0xff; 0xbe; 0xa3; 0x7f; 0xb9; 0x0b; 0x00; 0xf3; 0xa6; 0x74; 0x12; 0x4b; 0x75; 0xea; 0x66; 0x8b;
   0x86; 0x2c; 0x00; 0xe8; 0x6c; 0x00; 0x66; 0x89; 0x86; 0x2c; 0x00; 0xeb; 0xa3; 0xbe; 0xae; 0x7f;
   0xe8; 0x42; 0xff; 0x31; 0xff; 0x31; 0xd2; 0x26; 0x8b; 0x45; 0x14; 0x66; 0xc1; 0xe0; 0x10; 0x26;
   0x8b; 0x45; 0x1a; 0x66; 0x83; 0xf8; 0x02; 0x73; 0x03; 0xe9; 0x17; 0xff; 0x66; 0x3d; 0xf8; 0xff;
   0xff; 0x0f; 0x72; 0x03; 0xe9; 0x0c; 0xff; 0xbb; 0x80; 0x0f; 0x8e; 0xc3; 0x66; 0x3d; 0xf8; 0xff;
   0xff; 0x0f; 0x73; 0x21; 0x66; 0x50; 0x31; 0xdb; 0x06; 0xe8; 0xa2; 0x00; 0x07; 0x31; 0xdb; 0x8a;
   0x9e; 0x0d; 0x00; 0xc1; 0xe3; 0x05; 0x8c; 0xc0; 0x01; 0xd8; 0x8e; 0xc0; 0x66; 0x58; 0x06; 0xe8;
   0x10; 0x00; 0x07; 0xeb; 0xd7; 0x8a; 0x96; 0x40; 0x00; 0x8a; 0x36; 0xfd; 0x7d; 0xea; 0x00; 0xf8;
   0x00; 0x00; 0x66; 0xc1; 0xe0; 0x02; 0x66; 0x89; 0xc1; 0x66; 0x31; 0xd2; 0x66; 0x0f; 0xb7; 0x9e;
   0x0b; 0x00; 0x66; 0x53; 0x66; 0xf7; 0xf3; 0x66; 0x0f; 0xb7; 0x9e; 0x0e; 0x00; 0x66; 0x01; 0xd8;
   0x66; 0x8b; 0x9e; 0x1c; 0x00; 0x66; 0x01; 0xd8; 0x66; 0x5b; 0x66; 0x4b; 0x66; 0x21; 0xd9; 0x66;
   0x0f; 0xb7; 0x9e; 0x28; 0x00; 0x83; 0xe3; 0x0f; 0x74; 0x18; 0x3a; 0x9e; 0x10; 0x00; 0x72; 0x03;
   0xe9; 0x90; 0xfe; 0x66; 0x50; 0x66; 0x8b; 0x86; 0x24; 0x00; 0x66; 0xf7; 0xe3; 0x66; 0x5a; 0x66;
   0x01; 0xd0; 0x66; 0x51; 0xbb; 0x00; 0x90; 0x8e; 0xc3; 0x66; 0x3b; 0x06; 0x3a; 0x7f; 0x74; 0x0c;
   0x66; 0xa3; 0x3a; 0x7f; 0x31; 0xdb; 0xb9; 0x01; 0x00; 0xe8; 0xaf; 0xfd; 0x66; 0x59; 0x26; 0x67;
   0x66; 0x8b; 0x01; 0x66; 0x25; 0xff; 0xff; 0xff; 0x0f; 0xc3; 0xff; 0xff; 0xff; 0xff; 0x66; 0x48;
   0x66; 0x48; 0x66; 0x31; 0xd2; 0x66; 0x0f; 0xb6; 0x9e; 0x0d; 0x00; 0x66; 0xf7; 0xe3; 0x66; 0x50;
   0x66; 0x31; 0xd2; 0x66; 0x0f; 0xb6; 0x86; 0x10; 0x00; 0x66; 0xf7; 0xa6; 0x24; 0x00; 0x66; 0x0f;
   0xb7; 0x9e; 0x0e; 0x00; 0x66; 0x01; 0xd8; 0x66; 0x03; 0x86; 0x1c; 0x00; 0x66; 0x5b; 0x66; 0x01;
   0xd8; 0x31; 0xdb; 0x0f; 0xb6; 0x8e; 0x0d; 0x00; 0xe8; 0x60; 0xfd; 0xc3; 0xbe; 0x8b; 0x7f; 0xe8;
   0x23; 0xfe; 0xbe; 0xd9; 0x7d; 0xe8; 0x1d; 0xfe; 0xe9; 0x0e; 0xfe; 0x66; 0x72; 0x65; 0x65; 0x6c;
   0x64; 0x72; 0x2e; 0x73; 0x79; 0x73; 0x20; 0x6e; 0x6f; 0x74; 0x20; 0x66; 0x6f; 0x75; 0x6e; 0x64;
   0x0d; 0x0a; 0x00; 0x46; 0x52; 0x45; 0x45; 0x4c; 0x44; 0x52; 0x20; 0x53; 0x59; 0x53; 0x4c; 0x6f;
   0x61; 0x64; 0x69; 0x6e; 0x67; 0x20; 0x46; 0x72; 0x65; 0x65; 0x4c; 0x6f; 0x61; 0x64; 0x65; 0x72;
   0x2e; 0x2e; 0x2e; 0x0d; 0x0a] ++
  replicate 57 0x00 ++
  [0x55; 0xaa].

Definition br_fat32kos_0x52 : list Z :=
  [0x46; 0x41; 0x54; 0x33; 0x32; 0x20; 0x20; 0x20; 0x80; 0x3c; 0x80; 0x75; 0x09; 0x66; 0x8b; 0x44;
   0x08; 0x2e; 0x66; 0xa3; 0x1c; 0x7c; 0x66; 0x31; 0xc0; 0x8e; 0xd8; 0x8e; 0xd0; 0xbc; 0x00; 0x7c;
   0x89; 0xe5; 0x88; 0x16; 0x08; 0x7a; 0xfc; 0xfb; 0x68; 0x00; 0x08; 0x07; 0x66; 0x0f; 0xb7; 0x5e;
   0x0e; 0x66; 0x89; 0x1e; 0x00; 0x7a; 0x8a; 0x46; 0x10; 0x66; 0xf7; 0x66; 0x24; 0x66; 0x01; 0xd8;
   0x66; 0x0f; 0xb6; 0x5e; 0x0d; 0x01; 0xdb; 0x66; 0x29; 0xd8; 0x66; 0xa3; 0x04; 0x7a; 0x66; 0x8b;
   0x46; 0x2c; 0x66; 0x25; 0xff; 0xff; 0xff; 0x0f; 0x31; 0xdb; 0x89; 0xdf; 0x66; 0x50; 0xe8; 0x62;
   0x00; 0x0f; 0xb6; 0x4e; 0x0d; 0xc1; 0xe1; 0x04; 0x26; 0x80; 0x3d; 0x00; 0x74; 0x4d; 0x51; 0x57;
   0xb9; 0x0b; 0x00; 0xbe; 0xcb; 0x7d; 0xf3; 0xa6; 0x5f; 0x59; 0x74; 0x0e; 0x83; 0xc7; 0x20; 0xe2;
   0xe7; 0x66; 0x58; 0xe8; 0x8d; 0x00; 0x73; 0x33; 0x72; 0xce; 0x66; 0x58; 0x26; 0x8b; 0x45; 0x14;
   0x25; 0xff; 0x0f; 0x66; 0xc1; 0xe0; 0x10; 0x26; 0x8b; 0x45; 0x1a; 0x31; 0xdb; 0x66; 0x50; 0xe8;
   0x21; 0x00; 0x8c; 0xc0; 0x0f; 0xb6; 0x4e; 0x0d; 0xc1; 0xe1; 0x05; 0x01; 0xc8; 0x8e; 0xc0; 0x66;
   0x58; 0xe8; 0x5f; 0x00; 0x72; 0xe5; 0xea; 0x00; 0x80; 0x00; 0x00; 0xbe; 0xba; 0x7d; 0xe8; 0x98;
   0x00; 0xeb; 0xfe; 0x66; 0x0f; 0xb6; 0x4e; 0x0d; 0x66; 0xf7; 0xe1; 0x66; 0x03; 0x06; 0x04; 0x7a;
   0x66; 0x03; 0x46; 0x1c; 0x06; 0x66; 0x60; 0x6a; 0x00; 0x6a; 0x00; 0x66; 0x50; 0x06; 0x53; 0x83;
   0xe9; 0x7f; 0x19; 0xc0; 0x21; 0xc8; 0x83; 0xc0; 0x7f; 0x50; 0xc1; 0xe0; 0x05; 0x8c; 0xc1; 0x01;
   0xc1; 0x8e; 0xc1; 0x6a; 0x10; 0xb8; 0x00; 0x42; 0x8a; 0x16; 0x08; 0x7a; 0x89; 0xe6; 0xcd; 0x13;
   0xbe; 0xd9; 0x7d; 0x72; 0xb9; 0x61; 0x66; 0x61; 0x66; 0x83; 0xc0; 0x7f; 0x83; 0xe9; 0x7f; 0x77;
   0xc4; 0x07; 0xc3; 0x06; 0x1e; 0x07; 0xbb; 0x00; 0x7e; 0x66; 0x50; 0x66; 0xc1; 0xe8; 0x07; 0x66;
   0x3b; 0x06; 0xf9; 0x7d; 0x74; 0x0f; 0x66; 0xa3; 0xf9; 0x7d; 0x66; 0x03; 0x06; 0x00; 0x7a; 0xb9;
   0x01; 0x00; 0xe8; 0x9b; 0xff; 0x66; 0x58; 0x66; 0x83; 0xe0; 0x7f; 0x67; 0x66; 0x8b; 0x04; 0x85;
   0x00; 0x7e; 0x00; 0x00; 0x66; 0x25; 0xff; 0xff; 0xff; 0x0f; 0x66; 0x3d; 0xf7; 0xff; 0xff; 0x0f;
   0xbe; 0xeb; 0x7d; 0x0f; 0x84; 0x67; 0xff; 0x07; 0xc3; 0xac; 0x84; 0xc0; 0x74; 0x09; 0xb4; 0x0e;
   0xbb; 0x07; 0x00; 0xcd; 0x10; 0xeb; 0xf2; 0xc3; 0x43; 0x61; 0x6e; 0x6e; 0x6f; 0x74; 0x20; 0x66;
   0x69; 0x6e; 0x64; 0x20; 0x66; 0x69; 0x6c; 0x65; 0x20; 0x4d; 0x54; 0x4c; 0x44; 0x5f; 0x46; 0x33;
   0x32; 0x20; 0x20; 0x20; 0x0d; 0x0a; 0x00; 0x44; 0x69; 0x73; 0x6b; 0x20; 0x72; 0x65; 0x61; 0x64;
   0x20; 0x65; 0x72; 0x72; 0x6f; 0x72; 0x0d; 0x0a; 0x00; 0x42; 0x61; 0x64; 0x20; 0x63; 0x6c; 0x75;
   0x73; 0x74; 0x65; 0x72; 0x0d; 0x0a; 0x00; 0xff; 0xff; 0xff; 0xff; 0x00; 0x55; 0xaa].

Definition br_ntfs_0x0 : list Z :=
  [0xeb; 0x52; 0x90; 0x4e; 0x54; 0x46; 0x53; 0x20; 0x20; 0x20; 0x20].

Definition br_ntfs_0x54 : list Z :=
  [0xfa; 0x33; 0xc0; 0x8e; 0xd0; 0xbc; 0x00; 0x7c; 0xfb; 0x68; 0xc0; 0x07; 0x1f; 0x1e; 0x68; 0x66;
   0x00; 0xcb; 0x88; 0x16; 0x0e; 0x00; 0x66; 0x81; 0x3e; 0x03; 0x00; 0x4e; 0x54; 0x46; 0x53; 0x75;
   0x15; 0xb4; 0x41; 0xbb; 0xaa; 0x55; 0xcd; 0x13; 0x72; 0x0c; 0x81; 0xfb; 0x55; 0xaa; 0x75; 0x06;
   0xf7; 0xc1; 0x01; 0x00; 0x75; 0x03; 0xe9; 0xdd; 0x00; 0x1e; 0x83; 0xec; 0x18; 0x68; 0x1a; 0x00;
   0xb4; 0x48; 0x8a; 0x16; 0x0e; 0x00; 0x8b; 0xf4; 0x16; 0x1f; 0xcd; 0x13; 0x9f; 0x83; 0xc4; 0x18;
   0x9e; 0x58; 0x1f; 0x72; 0xe1; 0x3b; 0x06; 0x0b; 0x00; 0x75; 0xdb; 0xa3; 0x0f; 0x00; 0xc1; 0x2e;
   0x0f; 0x00; 0x04; 0x1e; 0x5a; 0x33; 0xdb; 0xb9; 0x00; 0x20; 0x2b; 0xc8; 0x66; 0xff; 0x06; 0x11;
   0x00; 0x03; 0x16; 0x0f; 0x00; 0x8e; 0xc2; 0xff; 0x06; 0x16; 0x00; 0xe8; 0x4b; 0x00; 0x2b; 0xc8;
   0x77; 0xef; 0xb8; 0x00; 0xbb; 0xcd; 0x1a; 0x66; 0x23; 0xc0; 0x75; 0x2d; 0x66; 0x81; 0xfb; 0x54;
   0x43; 0x50; 0x41; 0x75; 0x24; 0x81; 0xf9; 0x02; 0x01; 0x72; 0x1e; 0x16; 0x68; 0x07; 0xbb; 0x16;
   0x68; 0x70; 0x0e; 0x16; 0x68; 0x09; 0x00; 0x66; 0x53; 0x66; 0x53; 0x66; 0x55; 0x16; 0x16; 0x16;
   0x68; 0xb8; 0x01; 0x66; 0x61; 0x0e; 0x07; 0xcd; 0x1a; 0x33; 0xc0; 0xbf; 0x28; 0x10; 0xb9; 0xd8;
   0x0f; 0xfc; 0xf3; 0xaa; 0xe9; 0x5f; 0x01; 0x90; 0x90; 0x66; 0x60; 0x1e; 0x06; 0x66; 0xa1; 0x11;
   0x00; 0x66; 0x03; 0x06; 0x1c; 0x00; 0x1e; 0x66; 0x68; 0x00; 0x00; 0x00; 0x00; 0x66; 0x50; 0x06;
   0x53; 0x68; 0x01; 0x00; 0x68; 0x10; 0x00; 0xb4; 0x42; 0x8a; 0x16; 0x0e; 0x00; 0x16; 0x1f; 0x8b;
   0xf4; 0xcd; 0x13; 0x66; 0x59; 0x5b; 0x5a; 0x66; 0x59; 0x66; 0x59; 0x1f; 0x0f; 0x82; 0x16; 0x00;
   0x66; 0xff; 0x06; 0x11; 0x00; 0x03; 0x16; 0x0f; 0x00; 0x8e; 0xc2; 0xff; 0x0e; 0x16; 0x00; 0x75;
   0xbc; 0x07; 0x1f; 0x66; 0x61; 0xc3; 0xa0; 0xf8; 0x01; 0xe8; 0x09; 0x00; 0xa0; 0xfb; 0x01; 0xe8;
   0x03; 0x00; 0xf4; 0xeb; 0xfd; 0xb4; 0x01; 0x8b; 0xf0; 0xac; 0x3c; 0x00; 0x74; 0x09; 0xb4; 0x0e;
   0xbb; 0x07; 0x00; 0xcd; 0x10; 0xeb; 0xf2; 0xc3; 0x0d; 0x0a; 0x41; 0x20; 0x64; 0x69; 0x73; 0x6b;
   0x20; 0x72; 0x65; 0x61; 0x64; 0x20; 0x65; 0x72; 0x72; 0x6f; 0x72; 0x20; 0x6f; 0x63; 0x63; 0x75;
   0x72; 0x72; 0x65; 0x64; 0x00; 0x0d; 0x0a; 0x42; 0x4f; 0x4f; 0x54; 0x4d; 0x47; 0x52; 0x20; 0x69;
   0x73; 0x20; 0x6d; 0x69; 0x73; 0x73; 0x69; 0x6e; 0x67; 0x00; 0x0d; 0x0a; 0x42; 0x4f; 0x4f; 0x54;
   0x4d; 0x47; 0x52; 0x20; 0x69; 0x73; 0x20; 0x63; 0x6f; 0x6d; 0x70; 0x72; 0x65; 0x73; 0x73; 0x65;
   0x64; 0x00; 0x0d; 0x0a; 0x50; 0x72; 0x65; 0x73; 0x73; 0x20; 0x43; 0x74; 0x72; 0x6c; 0x2b; 0x41;
   0x6c; 0x74; 0x2b; 0x44; 0x65; 0x6c; 0x20; 0x74; 0x6f; 0x20; 0x72; 0x65; 0x73; 0x74; 0x61; 0x72;
   0x74; 0x0d; 0x0a; 0x00; 0x8c; 0xa9; 0xbe; 0xd6; 0x00; 0x00; 0x55; 0xaa; 0x07; 0x00; 0x42; 0x00;
   0x4f; 0x00; 0x4f; 0x00; 0x54; 0x00; 0x4d; 0x00; 0x47; 0x00; 0x52; 0x00; 0x04; 0x00; 0x24; 0x00;
   0x49; 0x00; 0x33; 0x00; 0x30; 0x00; 0x00; 0xd4; 0x00; 0x00; 0x00; 0x24] ++
  replicate 54 0x00 ++
  [0xeb; 0x22; 0x90; 0x90; 0x05; 0x00; 0x4e; 0x00; 0x54; 0x00; 0x4c; 0x00; 0x44; 0x00; 0x52] ++
  replicate 21 0x00 ++
  [0x66; 0x0f; 0xb7; 0x06; 0x0b; 0x00; 0x66; 0x0f; 0xb6; 0x1e; 0x0d; 0x00; 0x66; 0xf7; 0xe3; 0x66;
   0xa3; 0x52; 0x02; 0x66; 0x8b; 0x0e; 0x40; 0x00; 0x80; 0xf9; 0x00; 0x0f; 0x8f; 0x0e; 0x00; 0xf6;
   0xd9; 0x66; 0xb8; 0x01; 0x00; 0x00; 0x00; 0x66; 0xd3; 0xe0; 0xeb; 0x08; 0x90; 0x66; 0xa1; 0x52;
   0x02; 0x66; 0xf7; 0xe1; 0x66; 0xa3; 0x66; 0x02; 0x66; 0x0f; 0xb7; 0x1e; 0x0b; 0x00; 0x66; 0x33;
   0xd2; 0x66; 0xf7; 0xf3; 0x66; 0xa3; 0x56; 0x02; 0xe8; 0x95; 0x04; 0x66; 0x8b; 0x0e; 0x4e; 0x02;
   0x66; 0x89; 0x0e; 0x26; 0x02; 0x66; 0x03; 0x0e; 0x66; 0x02; 0x66; 0x89; 0x0e; 0x2a; 0x02; 0x66;
   0x03; 0x0e; 0x66; 0x02; 0x66; 0x89; 0x0e; 0x2e; 0x02; 0x66; 0x03; 0x0e; 0x66; 0x02; 0x66; 0x89;
   0x0e; 0x3e; 0x02; 0x66; 0x03; 0x0e; 0x66; 0x02; 0x66; 0x89; 0x0e; 0x46; 0x02; 0x66; 0xb8; 0x90;
   0x00; 0x00; 0x00; 0x66; 0x8b; 0x0e; 0x26; 0x02; 0xe8; 0x83; 0x09; 0x66; 0x0b; 0xc0; 0x0f; 0x84;
   0x5e; 0xfe; 0x66; 0xa3; 0x32; 0x02; 0x66; 0xb8; 0xa0; 0x00; 0x00; 0x00; 0x66; 0x8b; 0x0e; 0x2a;
   0x02; 0xe8; 0x6a; 0x09; 0x66; 0xa3; 0x36; 0x02; 0x66; 0xb8; 0xb0; 0x00; 0x00; 0x00; 0x66; 0x8b;
   0x0e; 0x2e; 0x02; 0xe8; 0x58; 0x09; 0x66; 0xa3; 0x3a; 0x02; 0x66; 0xa1; 0x32; 0x02; 0x66; 0x0b;
   0xc0; 0x0f; 0x84; 0x2b; 0xfe; 0x67; 0x80; 0x78; 0x08; 0x00; 0x0f; 0x85; 0x22; 0xfe; 0x67; 0x66;
   0x8d; 0x50; 0x10; 0x67; 0x03; 0x42; 0x04; 0x67; 0x66; 0x0f; 0xb6; 0x48; 0x0c; 0x66; 0x89; 0x0e;
   0x72; 0x02; 0x67; 0x66; 0x8b; 0x48; 0x08; 0x66; 0x89; 0x0e; 0x6e; 0x02; 0x66; 0xa1; 0x6e; 0x02;
   0x66; 0x0f; 0xb7; 0x0e; 0x0b; 0x00; 0x66; 0x33; 0xd2; 0x66; 0xf7; 0xf1; 0x66; 0xa3; 0x76; 0x02;
   0x66; 0xa1; 0x46; 0x02; 0x66; 0x03; 0x06; 0x6e; 0x02; 0x66; 0xa3; 0x4a; 0x02; 0x66; 0x83; 0x3e;
   0x36; 0x02; 0x00; 0x0f; 0x84; 0x1d; 0x00; 0x66; 0x83; 0x3e; 0x3a; 0x02; 0x00; 0x0f; 0x84; 0xcf;
   0xfd; 0x66; 0x8b; 0x1e; 0x3a; 0x02; 0x1e; 0x07; 0x66; 0x8b; 0x3e; 0x4a; 0x02; 0x66; 0xa1; 0x2e;
   0x02; 0xe8; 0xe0; 0x01; 0x66; 0x0f; 0xb7; 0x0e; 0x00; 0x02; 0x66; 0xb8; 0x02; 0x02; 0x00; 0x00;
   0xe8; 0x22; 0x08; 0x66; 0x0b; 0xc0; 0x0f; 0x85; 0x16; 0x00; 0x66; 0x0f; 0xb7; 0x0e; 0x5a; 0x02;
   0x66; 0xb8; 0x5c; 0x02; 0x00; 0x00; 0xe8; 0x0c; 0x08; 0x66; 0x0b; 0xc0; 0x0f; 0x84; 0x42; 0x0c;
   0x67; 0x66; 0x8b; 0x00; 0x1e; 0x07; 0x66; 0x8b; 0x3e; 0x3e; 0x02; 0xe8; 0x3f; 0x06; 0x66; 0xa1;
   0x3e; 0x02; 0x66; 0xbb; 0x20; 0x00; 0x00; 0x00; 0x66; 0xb9; 0x00; 0x00; 0x00; 0x00; 0x66; 0xba;
   0x00; 0x00; 0x00; 0x00; 0xe8; 0xe4; 0x00; 0x66; 0x85; 0xc0; 0x0f; 0x85; 0x23; 0x00; 0x66; 0xa1;
   0x3e; 0x02; 0x66; 0xbb; 0x80; 0x00; 0x00; 0x00; 0x66; 0xb9; 0x00; 0x00; 0x00; 0x00; 0x66; 0xba;
   0x00; 0x00; 0x00; 0x00; 0xe8; 0xc4; 0x00; 0x66; 0x0b; 0xc0; 0x0f; 0x85; 0x44; 0x00; 0xe9; 0xf1;
   0x0b; 0x66; 0x33; 0xd2; 0x66; 0xb9; 0x80; 0x00; 0x00; 0x00; 0x66; 0xa1; 0x3e; 0x02; 0xe8; 0xca;
   0x08; 0x66; 0x0b; 0xc0; 0x0f; 0x84; 0xda; 0x0b; 0x1e; 0x07; 0x66; 0x8b; 0x3e; 0x3e; 0x02; 0xe8;
   0xdb; 0x05; 0x66; 0xa1; 0x3e; 0x02; 0x66; 0xbb; 0x80; 0x00; 0x00; 0x00; 0x66; 0xb9; 0x00; 0x00;
   0x00; 0x00; 0x66; 0xba; 0x00; 0x00; 0x00; 0x00; 0xe8; 0x80; 0x00; 0x66; 0x0b; 0xc0; 0x0f; 0x84;
   0xb0; 0x0b; 0x67; 0x66; 0x0f; 0xb7; 0x58; 0x0c; 0x66; 0x81; 0xe3; 0xff; 0x00; 0x00; 0x00; 0x0f;
   0x85; 0xa5; 0x0b; 0x66; 0x8b; 0xd8; 0x68; 0x00; 0x20; 0x07; 0x66; 0x2b; 0xff; 0x66; 0xa1; 0x3e;
   0x02; 0xe8; 0x00; 0x01; 0x68; 0x00; 0x20; 0x07; 0x66; 0x2b; 0xff; 0x66; 0xa1; 0x3e; 0x02; 0xe8;
   0xac; 0x0a; 0x8a; 0x16; 0x0e; 0x00; 0xb8; 0xe8; 0x03; 0x8e; 0xc0; 0x8d; 0x36; 0x0b; 0x00; 0x2b;
   0xc0; 0x68; 0x00; 0x20; 0x50; 0xcb; 0x06; 0x1e; 0x66; 0x60; 0x66; 0x8b; 0xda; 0x66; 0x0f; 0xb6;
   0x0e; 0x0d; 0x00; 0x66; 0xf7; 0xe1; 0x66; 0xa3; 0x11; 0x00; 0x66; 0x8b; 0xc3; 0x66; 0xf7; 0xe1;
   0xa3; 0x16; 0x00; 0x8b; 0xdf; 0x83; 0xe3; 0x0f; 0x8c; 0xc0; 0x66; 0xc1; 0xef; 0x04; 0x03; 0xc7;
   0x50; 0x07; 0xe8; 0x3e; 0xfc; 0x66; 0x61; 0x90; 0x1f; 0x07; 0xc3; 0x67; 0x03; 0x40; 0x14; 0x67;
   0x66; 0x83; 0x38; 0xff; 0x0f; 0x84; 0x4c; 0x00; 0x67; 0x66; 0x39; 0x18; 0x0f; 0x85; 0x33; 0x00;
   0x66; 0x0b; 0xc9; 0x0f; 0x85; 0x0a; 0x00; 0x67; 0x80; 0x78; 0x09; 0x00; 0x0f; 0x85; 0x23; 0x00;
   0xc3; 0x67; 0x3a; 0x48; 0x09; 0x0f; 0x85; 0x1a; 0x00; 0x66; 0x8b; 0xf0; 0x67; 0x03; 0x70; 0x0a;
   0xe8; 0x97; 0x06; 0x66; 0x51; 0x1e; 0x07; 0x66; 0x8b; 0xfa; 0xf3; 0xa7; 0x66; 0x59; 0x0f; 0x85;
   0x01; 0x00; 0xc3; 0x67; 0x66; 0x83; 0x78; 0x04; 0x00; 0x0f; 0x84; 0x07; 0x00; 0x67; 0x66; 0x03;
   0x40; 0x04; 0xeb; 0xab; 0x66; 0x2b; 0xc0; 0xc3; 0x66; 0x8b; 0xf3; 0xe8; 0x6c; 0x06; 0x67; 0x66;
   0x03; 0x00; 0x67; 0xf7; 0x40; 0x0c; 0x02; 0x00; 0x0f; 0x85; 0x34; 0x00; 0x67; 0x66; 0x8d; 0x50;
   0x10; 0x67; 0x3a; 0x4a; 0x40; 0x0f; 0x85; 0x18; 0x00; 0x67; 0x66; 0x8d; 0x72; 0x42; 0xe8; 0x49;
   0x06; 0x66; 0x51; 0x1e; 0x07; 0x66; 0x8b; 0xfb; 0xf3; 0xa7; 0x66; 0x59; 0x0f; 0x85; 0x01; 0x00;
   0xc3; 0x67; 0x83; 0x78; 0x08; 0x00; 0x0f; 0x84; 0x06; 0x00; 0x67; 0x03; 0x40; 0x08; 0xeb; 0xc2;
   0x66; 0x33; 0xc0; 0xc3; 0x67; 0x80; 0x7b; 0x08; 0x00; 0x0f; 0x85; 0x1c; 0x00; 0x06; 0x1e; 0x66;
   0x60; 0x67; 0x66; 0x8d; 0x53; 0x10; 0x67; 0x66; 0x8b; 0x0a; 0x66; 0x8b; 0xf3; 0x67; 0x03; 0x72;
   0x04; 0xf3; 0xa4; 0x66; 0x61; 0x90; 0x1f; 0x07; 0xc3; 0x66; 0x50; 0x67; 0x66; 0x8d; 0x53; 0x10;
   0x66; 0x85; 0xc0; 0x0f; 0x85; 0x0a; 0x00; 0x67; 0x66; 0x8b; 0x4a; 0x08; 0x66; 0x41; 0xeb; 0x11;
   0x90; 0x67; 0x66; 0x8b; 0x42; 0x18; 0x66; 0x33; 0xd2; 0x66; 0xf7; 0x36; 0x52; 0x02; 0x66; 0x8b;
   0xc8; 0x66; 0x2b; 0xc0; 0x66; 0x5e; 0xe8; 0x01; 0x00; 0xc3; 0x06; 0x1e; 0x66; 0x60; 0x67; 0x80;
   0x7b; 0x08; 0x01; 0x0f; 0x84; 0x03; 0x00; 0xe9; 0x76; 0xfb; 0x66; 0x83; 0xf9; 0x00; 0x0f; 0x85;
   0x06; 0x00; 0x66; 0x61; 0x90; 0x1f; 0x07; 0xc3; 0x66; 0x53; 0x66; 0x50; 0x66; 0x51; 0x66; 0x56;
   0x66; 0x57; 0x06; 0xe8; 0x91; 0x04; 0x66; 0x8b; 0xd1; 0x07; 0x66; 0x5f; 0x66; 0x5e; 0x66; 0x59;
   0x66; 0x85; 0xc0; 0x0f; 0x84; 0x34; 0x00; 0x66; 0x3b; 0xca; 0x0f; 0x8d; 0x03; 0x00; 0x66; 0x8b;
   0xd1; 0xe8; 0x82; 0xfe; 0x66; 0x2b; 0xca; 0x66; 0x8b; 0xda; 0x66; 0x8b; 0xc2; 0x66; 0x0f; 0xb6;
   0x16; 0x0d; 0x00; 0x66; 0xf7; 0xe2; 0x66; 0x0f; 0xb7; 0x16; 0x0b; 0x00; 0x66; 0xf7; 0xe2; 0x66;
   0x03; 0xf8; 0x66; 0x58; 0x66; 0x03; 0xc3; 0x66; 0x5b; 0xeb; 0x9f; 0x66; 0x85; 0xf6; 0x0f; 0x84;
   0x0e; 0xfb; 0x66; 0x51; 0x66; 0x57; 0x06; 0x67; 0x66; 0x0f; 0xb6; 0x43; 0x09; 0x66; 0x85; 0xc0;
   0x0f; 0x84; 0x20; 0x00; 0x66; 0xd1; 0xe0; 0x66; 0x2b; 0xe0; 0x66; 0x8b; 0xfc; 0x66; 0x54; 0x66;
   0x56; 0x67; 0x66; 0x0f; 0xb7; 0x73; 0x0a; 0x66; 0x03; 0xf3; 0x66; 0x8b; 0xc8; 0xf3; 0xa4; 0x66;
   0x5e; 0xeb; 0x03; 0x90; 0x66; 0x50; 0x66; 0x50; 0x67; 0x66; 0x8b; 0x03; 0x66; 0x50; 0x67; 0x66;
   0x8b; 0x43; 0x18; 0x66; 0x50; 0x67; 0x66; 0x8b; 0x56; 0x20; 0x66; 0x85; 0xd2; 0x0f; 0x84; 0x0b;
   0x00; 0x66; 0x8b; 0xfe; 0x1e; 0x07; 0x66; 0x8b; 0xc2; 0xe8; 0x71; 0x03; 0x66; 0x8b; 0xc6; 0x66;
   0x5a; 0x66; 0x59; 0x66; 0x42; 0x66; 0x51; 0x66; 0x56; 0xe8; 0x3f; 0x06; 0x66; 0x85; 0xc0; 0x0f;
   0x84; 0x9d; 0xfa; 0x66; 0x5e; 0x66; 0x59; 0x66; 0x8b; 0xfe; 0x1e; 0x07; 0xe8; 0x4e; 0x03; 0x66;
   0x8b; 0xc6; 0x66; 0x8b; 0xd9; 0x66; 0x59; 0x66; 0x5a; 0x66; 0x51; 0x66; 0x56; 0x66; 0xd1; 0xe9;
   0xe8; 0xf8; 0xfd; 0x66; 0x85; 0xc0; 0x0f; 0x84; 0x76; 0xfa; 0x66; 0x5e; 0x66; 0x59; 0x66; 0x03;
   0xe1; 0x07; 0x66; 0x5f; 0x66; 0x59; 0x66; 0x8b; 0xd0; 0x66; 0x58; 0x66; 0x5b; 0x66; 0x8b; 0xda;
   0xe9; 0xf5; 0xfe; 0x06; 0x1e; 0x66; 0x60; 0x26; 0x67; 0x66; 0x0f; 0xb7; 0x5f; 0x04; 0x26; 0x67;
   0x66; 0x0f; 0xb7; 0x4f; 0x06; 0x66; 0x0b; 0xc9; 0x0f; 0x84; 0x44; 0xfa; 0x66; 0x03; 0xdf; 0x66;
   0x83; 0xc3; 0x02; 0x66; 0x81; 0xc7; 0xfe; 0x01; 0x00; 0x00; 0x66; 0x49; 0x66; 0x0b; 0xc9; 0x0f;
   0x84; 0x17; 0x00; 0x26; 0x67; 0x8b; 0x03; 0x26; 0x67; 0x89; 0x07; 0x66; 0x83; 0xc3; 0x02; 0x66;
   0x81; 0xc7; 0x00; 0x02; 0x00; 0x00; 0x66; 0x49; 0xeb; 0xe2; 0x66; 0x61; 0x90; 0x1f; 0x07; 0xc3;
   0x06; 0x1e; 0x66; 0x60; 0x66; 0xb8; 0x01; 0x00; 0x00; 0x00; 0x66; 0xa3; 0x22; 0x02; 0x66; 0xa1;
   0x1e; 0x02; 0x66; 0x03; 0x06; 0x66; 0x02; 0x66; 0xa3; 0x6a; 0x02; 0x66; 0x03; 0x06; 0x66; 0x02;
   0x66; 0xa3; 0x4e; 0x02; 0x66; 0xa1; 0x30; 0x00; 0x66; 0x0f; 0xb6; 0x1e; 0x0d; 0x00; 0x66; 0xf7;
   0xe3; 0x66; 0x8b; 0x1e; 0x4e; 0x02; 0x66; 0x89; 0x07; 0x66; 0xa3; 0x11; 0x00; 0x83; 0xc3; 0x04;
   0x66; 0xa1; 0x56; 0x02; 0x66; 0x89; 0x07; 0xa3; 0x16; 0x00; 0x83; 0xc3; 0x04; 0x66; 0x89; 0x1e;
   0x4e; 0x02; 0x66; 0x8b; 0x1e; 0x1e; 0x02; 0x1e; 0x07; 0xe8; 0x67; 0xf9; 0x66; 0x8b; 0xfb; 0xe8;
   0x51; 0xff; 0x66; 0xa1; 0x1e; 0x02; 0x66; 0xbb; 0x20; 0x00; 0x00; 0x00; 0x66; 0xb9; 0x00; 0x00;
   0x00; 0x00; 0x66; 0xba; 0x00; 0x00; 0x00; 0x00; 0xe8; 0x10; 0xfd; 0x66; 0x0b; 0xc0; 0x0f; 0x84;
   0x19; 0x01; 0x66; 0x8b; 0xd8; 0x1e; 0x07; 0x66; 0x8b; 0x3e; 0x1a; 0x02; 0x66; 0x33; 0xc0; 0xe8;
   0xa2; 0xfd; 0x66; 0x8b; 0x1e; 0x1a; 0x02; 0x66; 0x81; 0x3f; 0x80; 0x00; 0x00; 0x00; 0x0f; 0x84;
   0xeb; 0x00; 0x03; 0x5f; 0x04; 0xeb; 0xf0; 0x66; 0x53; 0x66; 0x8b; 0x47; 0x10; 0x66; 0xf7; 0x26;
   0x56; 0x02; 0x66; 0x50; 0x66; 0x33; 0xd2; 0x66; 0x0f; 0xb6; 0x1e; 0x0d; 0x00; 0x66; 0xf7; 0xf3;
   0x66; 0x52; 0xe8; 0xdc; 0x00; 0x66; 0x0b; 0xc0; 0x0f; 0x84; 0x44; 0xf9; 0x66; 0x8b; 0x0e; 0x56;
   0x02; 0x66; 0x0f; 0xb6; 0x1e; 0x0d; 0x00; 0x66; 0xf7; 0xe3; 0x66; 0x5a; 0x66; 0x03; 0xc2; 0x66;
   0x8b; 0x1e; 0x4e; 0x02; 0x66; 0x89; 0x07; 0x83; 0xc3; 0x04; 0x66; 0x0f; 0xb6; 0x06; 0x0d; 0x00;
   0x66; 0x2b; 0xc2; 0x66; 0x3b; 0xc1; 0x0f; 0x86; 0x03; 0x00; 0x66; 0x8b; 0xc1; 0x66; 0x89; 0x07;
   0x66; 0x2b; 0xc8; 0x66; 0x5a; 0x0f; 0x84; 0x75; 0x00; 0x66; 0x03; 0xc2; 0x66; 0x50; 0x66; 0x33;
   0xd2; 0x66; 0x0f; 0xb6; 0x1e; 0x0d; 0x00; 0x66; 0xf7; 0xf3; 0x66; 0x51; 0xe8; 0x82; 0x00; 0x66;
   0x59; 0x66; 0x0b; 0xc0; 0x0f; 0x84; 0xe8; 0xf8; 0x66; 0x0f; 0xb6; 0x1e; 0x0d; 0x00; 0x66; 0xf7;
   0xe3; 0x66; 0x8b; 0x1e; 0x4e; 0x02; 0x66; 0x8b; 0x17; 0x83; 0xc3; 0x04; 0x66; 0x03; 0x17; 0x66;
   0x3b; 0xd0; 0x0f; 0x85; 0x15; 0x00; 0x66; 0x0f; 0xb6; 0x06; 0x0d; 0x00; 0x66; 0x3b; 0xc1; 0x0f;
   0x86; 0x03; 0x00; 0x66; 0x8b; 0xc1; 0x66; 0x01; 0x07; 0xeb; 0xa5; 0x83; 0xc3; 0x04; 0x66; 0x89;
   0x1e; 0x4e; 0x02; 0x66; 0x89; 0x07; 0x83; 0xc3; 0x04; 0x66; 0x0f; 0xb6; 0x06; 0x0d; 0x00; 0x66;
   0x3b; 0xc1; 0x0f; 0x86; 0x03; 0x00; 0x66; 0x8b; 0xc1; 0x66; 0x89; 0x07; 0xeb; 0x82; 0x83; 0xc3;
   0x04; 0x66; 0xff; 0x06; 0x22; 0x02; 0x66; 0x89; 0x1e; 0x4e; 0x02; 0x66; 0x5b; 0x03; 0x5f; 0x04;
   0x66; 0x81; 0x3f; 0x80; 0x00; 0x00; 0x00; 0x0f; 0x84; 0x0c; 0xff; 0x66; 0x61; 0x90; 0x1f; 0x07;
   0xc3; 0x66; 0x8b; 0xd0; 0x66; 0x8b; 0x0e; 0x22; 0x02; 0x66; 0x8b; 0x36; 0x6a; 0x02; 0x66; 0x03;
   0x36; 0x66; 0x02; 0x66; 0x52; 0x66; 0x51; 0x66; 0x52; 0x66; 0x8b; 0x1e; 0x6a; 0x02; 0x66; 0x8b;
   0x3e; 0x56; 0x02; 0x66; 0x8b; 0x04; 0x66; 0xa3; 0x11; 0x00; 0x83; 0xc6; 0x04; 0x66; 0x8b; 0x04;
   0xa3; 0x16; 0x00; 0x83; 0xc6; 0x04; 0x1e; 0x07; 0xe8; 0xe8; 0xf7; 0x66; 0x2b; 0xf8; 0x0f; 0x84;
   0x08; 0x00; 0xf7; 0x26; 0x0b; 0x00; 0x03; 0xd8; 0xeb; 0xd9; 0x66; 0x8b; 0x3e; 0x6a; 0x02; 0x1e;
   0x07; 0xe8; 0xbf; 0xfd; 0x66; 0xa1; 0x6a; 0x02; 0x66; 0xbb; 0x80; 0x00; 0x00; 0x00; 0x66; 0xb9;
   0x00; 0x00; 0x00; 0x00; 0x66; 0x8b; 0xd1; 0xe8; 0x81; 0xfb; 0x66; 0x0b; 0xc0; 0x0f; 0x84; 0xff;
   0xf7; 0x66; 0x8b; 0xd8; 0x66; 0x58; 0x66; 0x56; 0xe8; 0x2c; 0x01; 0x66; 0x5e; 0x66; 0x0b; 0xc0;
   0x0f; 0x84; 0x05; 0x00; 0x66; 0x5b; 0x66; 0x5b; 0xc3; 0x66; 0x59; 0x66; 0x5a; 0xe2; 0x84; 0x66;
   0x33; 0xc0; 0xc3; 0x06; 0x1e; 0x66; 0x60; 0x66; 0x50; 0x66; 0x51; 0x66; 0x33; 0xd2; 0x66; 0x0f;
   0xb6; 0x1e; 0x0d; 0x00; 0x66; 0xf7; 0xf3; 0x66; 0x52; 0x66; 0x57; 0xe8; 0x53; 0xff; 0x66; 0x5f;
   0x66; 0x0b; 0xc0; 0x0f; 0x84; 0xb9; 0xf7; 0x66; 0x0f; 0xb6; 0x1e; 0x0d; 0x00; 0x66; 0xf7; 0xe3;
   0x66; 0x5a; 0x66; 0x03; 0xc2; 0x66; 0xa3; 0x11; 0x00; 0x66; 0x59; 0x66; 0x0f; 0xb6; 0x1e; 0x0d;
   0x00; 0x66; 0x3b; 0xcb; 0x0f; 0x8e; 0x13; 0x00; 0x89; 0x1e; 0x16; 0x00; 0x66; 0x2b; 0xcb; 0x66;
   0x58; 0x66; 0x03; 0xc3; 0x66; 0x50; 0x66; 0x51; 0xeb; 0x14; 0x90; 0x66; 0x58; 0x66; 0x03; 0xc1;
   0x66; 0x50; 0x89; 0x0e; 0x16; 0x00; 0x66; 0xb9; 0x00; 0x00; 0x00; 0x00; 0x66; 0x51; 0x06; 0x66;
   0x57; 0x8b; 0xdf; 0x83; 0xe3; 0x0f; 0x8c; 0xc0; 0x66; 0xc1; 0xef; 0x04; 0x03; 0xc7; 0x50; 0x07;
   0xe8; 0x10; 0xf7; 0x66; 0x5f; 0x07; 0x66; 0x03; 0x3e; 0x52; 0x02; 0x66; 0x59; 0x66; 0x58; 0x66;
   0x83; 0xf9; 0x00; 0x0f; 0x8f; 0x70; 0xff; 0x66; 0x61; 0x90; 0x1f; 0x07; 0xc3; 0x06; 0x1e; 0x66;
   0x60; 0x66; 0xf7; 0x26; 0x56; 0x02; 0x66; 0x8b; 0x0e; 0x56; 0x02; 0xe8; 0x55; 0xff; 0xe8; 0xd2;
   0xfc; 0x66; 0x61; 0x90; 0x1f; 0x07; 0xc3; 0x06; 0x1e; 0x66; 0x60; 0x66; 0xf7; 0x26; 0x72; 0x02;
   0x66; 0x8b; 0x1e; 0x36; 0x02; 0x66; 0x8b; 0x0e; 0x72; 0x02; 0x66; 0x8b; 0x36; 0x2a; 0x02; 0x1e;
   0x07; 0x66; 0x8b; 0x3e; 0x46; 0x02; 0xe8; 0x81; 0xfb; 0xe8; 0xa7; 0xfc; 0x66; 0x61; 0x90; 0x1f;
   0x07; 0xc3; 0x66; 0x50; 0x66; 0x53; 0x66; 0x51; 0x66; 0x8b; 0x1e; 0x4a; 0x02; 0x66; 0x8b; 0xc8;
   0x66; 0xc1; 0xe8; 0x03; 0x66; 0x83; 0xe1; 0x07; 0x66; 0x03; 0xd8; 0x66; 0xb8; 0x01; 0x00; 0x00;
   0x00; 0x66; 0xd3; 0xe0; 0x67; 0x84; 0x03; 0x0f; 0x84; 0x04; 0x00; 0xf8; 0xeb; 0x02; 0x90; 0xf9;
   0x66; 0x59; 0x66; 0x5b; 0x66; 0x58; 0xc3; 0x67; 0x80; 0x7b; 0x08; 0x01; 0x0f; 0x84; 0x04; 0x00;
   0x66; 0x2b; 0xc0; 0xc3; 0x67; 0x66; 0x8d; 0x73; 0x10; 0x67; 0x66; 0x8b; 0x56; 0x08; 0x66; 0x3b;
   0xc2; 0x0f; 0x87; 0x0b; 0x00; 0x67; 0x66; 0x8b; 0x16; 0x66; 0x3b; 0xc2; 0x0f; 0x83; 0x04; 0x00;
   0x66; 0x2b; 0xc0; 0xc3; 0x67; 0x03; 0x5e; 0x10; 0x66; 0x2b; 0xf6; 0x67; 0x80; 0x3b; 0x00; 0x0f;
   0x84; 0x3e; 0x00; 0xe8; 0x81; 0x00; 0x66; 0x03; 0xf1; 0xe8; 0x39; 0x00; 0x66; 0x03; 0xca; 0x66;
   0x3b; 0xc1; 0x0f; 0x8c; 0x21; 0x00; 0x66; 0x8b; 0xd1; 0x66; 0x50; 0x67; 0x66; 0x0f; 0xb6; 0x0b;
   0x66; 0x8b; 0xc1; 0x66; 0x83; 0xe0; 0x0f; 0x66; 0xc1; 0xe9; 0x04; 0x66; 0x03; 0xd9; 0x66; 0x03;
   0xd8; 0x66; 0x43; 0x66; 0x58; 0xeb; 0xc4; 0x66; 0x2b; 0xc8; 0x66; 0x2b; 0xc2; 0x66; 0x03; 0xc6;
   0xc3; 0x66; 0x2b; 0xc0; 0xc3; 0x66; 0x2b; 0xc9; 0x67; 0x8a; 0x0b; 0x80; 0xe1; 0x0f; 0x66; 0x83;
   0xf9; 0x00; 0x0f; 0x85; 0x04; 0x00; 0x66; 0x2b; 0xc9; 0xc3; 0x66; 0x53; 0x66; 0x52; 0x66; 0x03;
   0xd9; 0x67; 0x66; 0x0f; 0xbe; 0x13; 0x66; 0x49; 0x66; 0x4b; 0x66; 0x83; 0xf9; 0x00; 0x0f; 0x84;
   0x0d; 0x00; 0x66; 0xc1; 0xe2; 0x08; 0x67; 0x8a; 0x13; 0x66; 0x4b; 0x66; 0x49; 0xeb; 0xeb; 0x66;
   0x8b; 0xca; 0x66; 0x5a; 0x66; 0x5b; 0xc3; 0x66; 0x53; 0x66; 0x52; 0x66; 0x2b; 0xd2; 0x67; 0x8a;
   0x13; 0x66; 0x83; 0xe2; 0x0f; 0x66; 0x2b; 0xc9; 0x67; 0x8a; 0x0b; 0xc0; 0xe9; 0x04; 0x66; 0x83;
   0xf9; 0x00; 0x0f; 0x85; 0x08; 0x00; 0x66; 0x2b; 0xc9; 0x66; 0x5a; 0x66; 0x5b; 0xc3; 0x66; 0x03;
   0xda; 0x66; 0x03; 0xd9; 0x67; 0x66; 0x0f; 0xbe; 0x13; 0x66; 0x49; 0x66; 0x4b; 0x66; 0x83; 0xf9;
   0x00; 0x0f; 0x84; 0x0d; 0x00; 0x66; 0xc1; 0xe2; 0x08; 0x67; 0x8a; 0x13; 0x66; 0x4b; 0x66; 0x49;
   0xeb; 0xeb; 0x66; 0x8b; 0xca; 0x66; 0x5a; 0x66; 0x5b; 0xc3; 0x66; 0x0b; 0xc9; 0x0f; 0x85; 0x01;
   0x00; 0xc3; 0x66; 0x51; 0x66; 0x56; 0x67; 0x83; 0x3e; 0x61; 0x0f; 0x8c; 0x0c; 0x00; 0x67; 0x83;
   0x3e; 0x7a; 0x0f; 0x8f; 0x04; 0x00; 0x67; 0x83; 0x2e; 0x20; 0x66; 0x83; 0xc6; 0x02; 0xe2; 0xe6;
   0x66; 0x5e; 0x66; 0x59; 0xc3; 0x66; 0x50; 0x66; 0x51; 0x66; 0x8b; 0xd0; 0x66; 0xa1; 0x32; 0x02;
   0x67; 0x66; 0x8d; 0x58; 0x10; 0x67; 0x03; 0x43; 0x04; 0x67; 0x66; 0x8d; 0x40; 0x10; 0x66; 0x8b;
   0xda; 0xe8; 0x44; 0xf9; 0x66; 0x0b; 0xc0; 0x0f; 0x84; 0x05; 0x00; 0x66; 0x59; 0x66; 0x59; 0xc3;
   0x66; 0xa1; 0x36; 0x02; 0x66; 0x0b; 0xc0; 0x0f; 0x85; 0x08; 0x00; 0x66; 0x59; 0x66; 0x59; 0x66;
   0x33; 0xc0; 0xc3; 0x66; 0x8b; 0x16; 0x36; 0x02; 0x67; 0x66; 0x8d; 0x52; 0x10; 0x67; 0x66; 0x8b;
   0x42; 0x18; 0x66; 0x33; 0xd2; 0x66; 0xf7; 0x36; 0x6e; 0x02; 0x66; 0x33; 0xf6; 0x66; 0x50; 0x66;
   0x56; 0x66; 0x58; 0x66; 0x5e; 0x66; 0x3b; 0xc6; 0x0f; 0x84; 0x3a; 0x00; 0x66; 0x56; 0x66; 0x40;
   0x66; 0x50; 0x66; 0x48; 0xe8; 0x1b; 0xfe; 0x72; 0xe8; 0xe8; 0xeb; 0xfd; 0x66; 0x5a; 0x66; 0x5e;
   0x66; 0x59; 0x66; 0x5b; 0x66; 0x53; 0x66; 0x51; 0x66; 0x56; 0x66; 0x52; 0x66; 0xa1; 0x46; 0x02;
   0x67; 0x66; 0x8d; 0x40; 0x18; 0xe8; 0xd0; 0xf8; 0x66; 0x0b; 0xc0; 0x74; 0xc4; 0x66; 0x59; 0x66;
   0x59; 0x66; 0x59; 0x66; 0x59; 0xc3; 0x66; 0x59; 0x66; 0x59; 0x66; 0x33; 0xc0; 0xc3; 0x66; 0x51;
   0x66; 0x50; 0x66; 0xb8; 0x05; 0x00; 0x00; 0x00; 0x1e; 0x07; 0x66; 0x8b; 0xf9; 0xe8; 0x8d; 0xfd;
   0x66; 0x8b; 0xc1; 0x66; 0xbb; 0x20; 0x00; 0x00; 0x00; 0x66; 0xb9; 0x00; 0x00; 0x00; 0x00; 0x66;
   0xba; 0x00; 0x00; 0x00; 0x00; 0xe8; 0x33; 0xf8; 0x66; 0x5b; 0x66; 0x59; 0x66; 0x85; 0xc0; 0x0f;
   0x85; 0x15; 0x00; 0x66; 0x8b; 0xc1; 0x66; 0x0f; 0xb7; 0x0e; 0x10; 0x02; 0x66; 0xba; 0x12; 0x02;
   0x00; 0x00; 0xe8; 0x16; 0xf8; 0xeb; 0x33; 0x90; 0x66; 0x33; 0xd2; 0x66; 0x8b; 0xc1; 0x66; 0x8b;
   0xcb; 0x66; 0x50; 0x66; 0x53; 0xe8; 0x23; 0x00; 0x66; 0x5b; 0x66; 0x5f; 0x66; 0x0b; 0xc0; 0x0f;
   0x84; 0x17; 0x00; 0x1e; 0x07; 0xe8; 0x35; 0xfd; 0x66; 0x8b; 0xc7; 0x66; 0x0f; 0xb7; 0x0e; 0x10;
   0x02; 0x66; 0xba; 0x12; 0x02; 0x00; 0x00; 0xe8; 0xe1; 0xf7; 0xc3; 0x66; 0x52; 0x66; 0x51; 0x66;
   0xbb; 0x20; 0x00; 0x00; 0x00; 0x66; 0xb9; 0x00; 0x00; 0x00; 0x00; 0x66; 0xba; 0x00; 0x00; 0x00;
   0x00; 0xe8; 0xc7; 0xf7; 0x66; 0x0b; 0xc0; 0x0f; 0x84; 0x63; 0x00; 0x66; 0x8b; 0xd8; 0x1e; 0x07;
   0x66; 0x8b; 0x3e; 0x1a; 0x02; 0x66; 0x33; 0xc0; 0xe8; 0x59; 0xf8; 0x1e; 0x07; 0x66; 0x8b; 0x1e;
   0x1a; 0x02; 0x66; 0x59; 0x66; 0x5a; 0x26; 0x66; 0x39; 0x0f; 0x0f; 0x85; 0x0c; 0x00; 0x26; 0x66;
   0x39; 0x57; 0x08; 0x0f; 0x84; 0x31; 0x00; 0xeb; 0x13; 0x90; 0x26; 0x66; 0x83; 0x3f; 0xff; 0x0f;
   0x84; 0x2f; 0x00; 0x26; 0x83; 0x7f; 0x04; 0x00; 0x0f; 0x84; 0x26; 0x00; 0x26; 0x66; 0x0f; 0xb7;
   0x47; 0x04; 0x03; 0xd8; 0x8b; 0xc3; 0x25; 0x00; 0x80; 0x74; 0xcb; 0x8c; 0xc0; 0x05; 0x00; 0x08;
   0x8e; 0xc0; 0x81; 0xe3; 0xff; 0x7f; 0xeb; 0xbe; 0x26; 0x66; 0x8b; 0x47; 0x10; 0xc3; 0x66; 0x59;
   0x66; 0x5a; 0x66; 0x33; 0xc0; 0xc3; 0x66; 0x50; 0x66; 0x51; 0x66; 0x8b; 0xc7; 0x66; 0xc1; 0xe8;
   0x04; 0x06; 0x59; 0x03; 0xc8; 0x51; 0x07; 0x66; 0x83; 0xe7; 0x0f; 0x66; 0x59; 0x66; 0x58; 0xc3;
   0x60; 0x06; 0xbe; 0xbd; 0x0d; 0xbf; 0x00; 0x20; 0x1e; 0x07; 0xb9; 0x0d; 0x00; 0x90; 0xf3; 0xa5;
   0x07; 0x61; 0xc3; 0x01; 0x23; 0x45; 0x67; 0x89; 0xab; 0xcd; 0xef; 0xfe; 0xdc; 0xba; 0x98; 0x76;
   0x54; 0x32; 0x10; 0xf0; 0xe1; 0xd2; 0xc3; 0x00; 0x00; 0x00; 0x00; 0x20; 0x20; 0x60; 0x8b; 0x36;
   0x18; 0x20; 0x26; 0x8a; 0x05; 0x88; 0x04; 0x47; 0x46; 0x66; 0xff; 0x06; 0x14; 0x20; 0x81; 0xfe;
   0x60; 0x20; 0x75; 0x06; 0xe8; 0x5b; 0x00; 0xbe; 0x20; 0x20; 0xe2; 0xe6; 0x89; 0x36; 0x18; 0x20;
   0x61; 0xc3; 0x66; 0x60; 0x8b; 0x36; 0x18; 0x20; 0xb0; 0x80; 0x88; 0x04; 0x46; 0x32; 0xc0; 0x81;
   0xfe; 0x60; 0x20; 0x75; 0x06; 0xe8; 0x3a; 0x00; 0xbe; 0x20; 0x20; 0x81; 0xfe; 0x58; 0x20; 0x75;
   0xe9; 0x66; 0x33; 0xc0; 0x66; 0xa3; 0x58; 0x20; 0x66; 0xa1; 0x14; 0x20; 0x66; 0xc1; 0xe0; 0x03;
   0x66; 0x0f; 0xc8; 0x66; 0xa3; 0x5c; 0x20; 0xe8; 0x18; 0x00; 0xbb; 0x00; 0x20; 0x66; 0x8b; 0x07;
   0x66; 0x0f; 0xc8; 0x66; 0x89; 0x07; 0x83; 0xc3; 0x04; 0x81; 0xfb; 0x34; 0x20; 0x75; 0xee; 0x66;
   0x61; 0xc3; 0x66; 0x60; 0xbb; 0x20; 0x20; 0x66; 0x8b; 0x07; 0x66; 0x0f; 0xc8; 0x66; 0x89; 0x07;
   0x83; 0xc3; 0x04; 0x81; 0xfb; 0x60; 0x20; 0x75; 0xee; 0xbb; 0x00; 0x20; 0x66; 0x8b; 0x0f; 0x66;
   0x8b; 0x57; 0x04; 0x66; 0x8b; 0x77; 0x08; 0x66; 0x8b; 0x7f; 0x0c; 0x66; 0x8b; 0x6f; 0x10; 0xbb;
   0x20; 0x20; 0xc7; 0x06; 0x1a; 0x20; 0x30; 0x0f; 0xc6; 0x06; 0x1c; 0x20; 0x14; 0x90; 0x53; 0x8b;
   0x1e; 0x1a; 0x20; 0xff; 0x17; 0x66; 0x03; 0x47; 0x02; 0x5b; 0x66; 0x03; 0xe8; 0x66; 0x03; 0x2f;
   0x66; 0x8b; 0xc1; 0x66; 0xc1; 0xc0; 0x05; 0x66; 0x03; 0xc5; 0x66; 0x8b; 0xef; 0x66; 0x8b; 0xfe;
   0x66; 0x8b; 0xf2; 0x66; 0xc1; 0xc6; 0x1e; 0x66; 0x8b; 0xd1; 0x66; 0x8b; 0xc8; 0x66; 0x8b; 0x07;
   0x66; 0x33; 0x47; 0x08; 0x66; 0x33; 0x47; 0x20; 0x66; 0x33; 0x47; 0x34; 0x66; 0xd1; 0xc0; 0x66;
   0x89; 0x47; 0x40; 0x83; 0xc3; 0x04; 0xfe; 0x0e; 0x1c; 0x20; 0x75; 0xb2; 0x83; 0x06; 0x1a; 0x20;
   0x06; 0x81; 0x3e; 0x1a; 0x20; 0x48; 0x0f; 0x75; 0x9f; 0xbb; 0x00; 0x20; 0x66; 0x01; 0x0f; 0x66;
   0x01; 0x57; 0x04; 0x66; 0x01; 0x77; 0x08; 0x66; 0x01; 0x7f; 0x0c; 0x66; 0x01; 0x6f; 0x10; 0x66;
   0x61; 0xc3; 0x66; 0x8b; 0xc6; 0x66; 0x33; 0xc7; 0x66; 0x23; 0xc2; 0x66; 0x33; 0xc7; 0xc3; 0x66;
   0x8b; 0xc2; 0x66; 0x33; 0xc6; 0x66; 0x33; 0xc7; 0xc3; 0x66; 0x53; 0x66; 0x8b; 0xc2; 0x66; 0x23;
   0xc6; 0x66; 0x8b; 0xda; 0x66; 0x23; 0xdf; 0x66; 0x0b; 0xc3; 0x66; 0x8b; 0xde; 0x66; 0x23; 0xdf;
   0x66; 0x0b; 0xc3; 0x66; 0x5b; 0xc3; 0xfc; 0x0e; 0x99; 0x79; 0x82; 0x5a; 0x09; 0x0f; 0xa1; 0xeb;
   0xd9; 0x6e; 0x13; 0x0f; 0xdc; 0xbc; 0x1b; 0x8f; 0x09; 0x0f; 0xd6; 0xc1; 0x62; 0xca; 0x06; 0x1e;
   0x66; 0x60; 0x66; 0x33; 0xdb; 0xb8; 0x00; 0xbb; 0xcd; 0x1a; 0x66; 0x23; 0xc0; 0x0f; 0x85; 0xbb;
   0x00; 0x66; 0x81; 0xfb; 0x54; 0x43; 0x50; 0x41; 0x0f; 0x85; 0xb0; 0x00; 0x81; 0xf9; 0x02; 0x01;
   0x0f; 0x82; 0xa8; 0x00; 0x66; 0x61; 0x90; 0x1f; 0x07; 0x06; 0x1e; 0x66; 0x60; 0x67; 0x80; 0x7b;
   0x08; 0x00; 0x0f; 0x85; 0x0c; 0x00; 0x67; 0x66; 0x8d; 0x53; 0x10; 0x67; 0x66; 0x8b; 0x0a; 0xeb;
   0x25; 0x90; 0x67; 0x66; 0x8d; 0x53; 0x10; 0x67; 0x66; 0x8b; 0x4a; 0x28; 0x66; 0x81; 0xf9; 0x00;
   0x00; 0x08; 0x00; 0x0f; 0x83; 0x0c; 0x00; 0x67; 0x66; 0x8b; 0x42; 0x2c; 0x66; 0x23; 0xc0; 0x0f;
   0x84; 0x03; 0x00; 0x66; 0x33; 0xc9; 0x0e; 0x1f; 0xe8; 0xf5; 0xfd; 0x66; 0x23; 0xc9; 0x0f; 0x84;
   0x32; 0x00; 0x66; 0xba; 0x00; 0x80; 0x00; 0x00; 0x66; 0x3b; 0xca; 0x0f; 0x86; 0x1f; 0x00; 0x66;
   0x2b; 0xca; 0x06; 0x66; 0x51; 0x66; 0x57; 0x66; 0x52; 0x66; 0x8b; 0xca; 0xe8; 0xb7; 0xfd; 0xe8;
   0xfb; 0xfd; 0x66; 0x5a; 0x66; 0x5f; 0x66; 0x59; 0x07; 0x66; 0x03; 0xfa; 0xeb; 0xda; 0xe8; 0xa5;
   0xfd; 0xe8; 0xe9; 0xfd; 0xe8; 0x0b; 0xfe; 0x0e; 0x07; 0x66; 0xbb; 0x54; 0x43; 0x50; 0x41; 0x66;
   0xbf; 0x00; 0x20; 0x00; 0x00; 0x66; 0xb9; 0x14; 0x00; 0x00; 0x00; 0x66; 0xb8; 0x07; 0xbb; 0x00;
   0x00; 0x66; 0xba; 0x0a; 0x00; 0x00; 0x00; 0x66; 0x33; 0xf6; 0xcd; 0x1a; 0x66; 0x61; 0x90; 0x1f;
   0x07; 0xc3; 0xa0; 0xf9; 0x01; 0xe9; 0x4b; 0xf1; 0xa0; 0xfa; 0x01; 0xe9; 0x45; 0xf1].
