(* ===== verification/BootRecords.v ===== *)
(** BootRecords: the master and partition boot records of the ms-sys code,
    src/src/ms-sys/br.c, fat12.c, fat16.c, fat32.c, ntfs.c and
    partition_info.c. The FILE argument of a function is the [offset] of its
    fake file; the handle is the one of the world. *)

From stdpp Require Import strings.
From S2P Require Import Prelude Disk BootData.

#[local] Open Scope prog_scope.

Abbreviation sizeof bs := (Z.of_nat (length bs)).

Definition MBR_2000_LANG_INDEP_LEN : Z := 0x12c.
Definition MBR_VISTA_LANG_INDEP_LEN : Z := 0x162.
Definition MBR_WIN7_LANG_INDEP_LEN : Z := 0x163.

Section boot_records.
Context {D : Type} `{Os D}.

(** ** br.c *)

Definition set_bytes_per_sector (ulValue : Z) : prog D () :=
  modify (set_ulBytesPerSector
    (if orb (bool_decide (ulValue < 512)) (bool_decide (ulValue > 65536)) then 512 else ulValue)).

Definition read_windows_disk_signature (offset : Z) : prog D Z :=
  r ← read_data offset 0x1b8 4; mret (le_word (default [] r)).

Definition write_windows_disk_signature (offset tWDS : Z) : prog D bool :=
  write_data offset 0x1b8 (le_bytes 4 tWDS) 4.

Definition read_mbr_copy_protect_bytes (offset : Z) : prog D Z :=
  r ← read_data offset 0x1bc 2;
  mret (match r with Some bs => le_word bs | None => 0xffff end).

Definition read_mbr_copy_protect_bytes_explained (offset : Z) : prog D string :=
  t ← read_mbr_copy_protect_bytes offset;
  mret (if bool_decide (t = 0) then "not copy protected"
        else if bool_decide (t = 0x5a5a) then "copy protected" else "unknown value")%string.

Definition is_br (offset : Z) : prog D bool := contains_data offset 0x1FE [0x55; 0xAA] 2.

Definition is_lilo_br (offset : Z) : prog D bool :=
  let aucRef := [0x4c; 0x49; 0x4c; 0x4f] in (* LILO *)
  contains_data offset 0x6 aucRef (sizeof aucRef) || contains_data offset 0x2 aucRef (sizeof aucRef).

Definition is_dos_mbr (offset : Z) : prog D bool :=
  contains_data offset 0x0 mbr_dos_0x0 (sizeof mbr_dos_0x0) && is_br offset.

Definition is_dos_f2_mbr (offset : Z) : prog D bool :=
  contains_data offset 0x0 mbr_dos_f2_0x0 (sizeof mbr_dos_f2_0x0) && is_br offset.

Definition is_95b_mbr (offset : Z) : prog D bool :=
  contains_data offset 0x0 mbr_95b_0x0 (sizeof mbr_95b_0x0) &&
  contains_data offset 0x0e0 mbr_95b_0x0e0 (sizeof mbr_95b_0x0e0) &&
  is_br offset.

Definition is_2000_mbr (offset : Z) : prog D bool :=
  contains_data offset 0x0 mbr_2000_0x0 MBR_2000_LANG_INDEP_LEN && is_br offset.

Definition is_vista_mbr (offset : Z) : prog D bool :=
  contains_data offset 0x0 mbr_vista_0x0 MBR_VISTA_LANG_INDEP_LEN && is_br offset.

Definition is_win7_mbr (offset : Z) : prog D bool :=
  contains_data offset 0x0 mbr_win7_0x0 MBR_WIN7_LANG_INDEP_LEN && is_br offset.

Definition is_rufus_mbr (offset : Z) : prog D bool :=
  contains_data offset 0x0 mbr_rufus_0x0 (sizeof mbr_rufus_0x0) && is_br offset.

Definition is_rufus_msg_mbr (offset : Z) : prog D bool :=
  contains_data offset 0x0 mbr_msg_rufus_0x0 (sizeof mbr_msg_rufus_0x0) && is_br offset.

Definition is_reactos_mbr (offset : Z) : prog D bool :=
  contains_data offset 0x0 mbr_reactos_0x0 (sizeof mbr_reactos_0x0) && is_br offset.

Definition is_grub4dos_mbr (offset : Z) : prog D bool :=
  contains_data offset 0x0 mbr_grub_0x0 (sizeof mbr_grub_0x0) && is_br offset.

Definition is_grub2_mbr (offset : Z) : prog D bool :=
  contains_data offset 0x0 mbr_grub2_0x0 (sizeof mbr_grub2_0x0) && is_br offset.

Definition is_kolibrios_mbr (offset : Z) : prog D bool :=
  contains_data offset 0x0 mbr_kolibri_0x0 (sizeof mbr_kolibri_0x0) && is_br offset.

Definition is_syslinux_mbr (offset : Z) : prog D bool :=
  contains_data offset 0x0 mbr_syslinux_0x0 (sizeof mbr_syslinux_0x0) && is_br offset.

Definition is_syslinux_gpt_mbr (offset : Z) : prog D bool :=
  contains_data offset 0x0 mbr_gpt_syslinux_0x0 (sizeof mbr_gpt_syslinux_0x0) && is_br offset.

Definition is_zero_mbr (offset : Z) : prog D bool :=
  contains_data offset 0x0 mbr_zero_0x0 (sizeof mbr_zero_0x0).

Definition is_zero_mbr_not_including_disk_signature_or_copy_protect (offset : Z) : prog D bool :=
  contains_data offset 0x0 mbr_zero_0x0 0x1b8.

(** The loop of [write_bootmark] from [pos] on; [fuel] bounds its turns. *)
Fixpoint bootmark_loop (fuel : nat) (offset pos : Z) : prog D bool :=
  match fuel with
  | O => mret true
  | S fuel =>
      bps ← gets ulBytesPerSector;
      if bool_decide (pos < bps)
      then write_data offset pos [0x55; 0xAA] 2 && bootmark_loop fuel offset (pos + 0x200)
      else mret true
  end.

Definition write_bootmark (offset : Z) : prog D bool :=
  bps ← gets ulBytesPerSector; bootmark_loop (S (Z.to_nat (bps / 0x200))) offset 0x1FE.

Definition write_dos_mbr (offset : Z) : prog D bool :=
  write_data offset 0x0 mbr_dos_0x0 (sizeof mbr_dos_0x0) && write_bootmark offset.

Definition write_95b_mbr (offset : Z) : prog D bool :=
  write_data offset 0x0 mbr_95b_0x0 (sizeof mbr_95b_0x0) &&
  write_data offset 0x0e0 mbr_95b_0x0e0 (sizeof mbr_95b_0x0e0) &&
  write_bootmark offset.

Definition write_2000_mbr (offset : Z) : prog D bool :=
  write_data offset 0x0 mbr_2000_0x0 (sizeof mbr_2000_0x0) && write_bootmark offset.

Definition write_vista_mbr (offset : Z) : prog D bool :=
  write_data offset 0x0 mbr_vista_0x0 (sizeof mbr_vista_0x0) && write_bootmark offset.

Definition write_win7_mbr (offset : Z) : prog D bool :=
  write_data offset 0x0 mbr_win7_0x0 (sizeof mbr_win7_0x0) && write_bootmark offset.

Definition write_rufus_mbr (offset : Z) : prog D bool :=
  write_data offset 0x0 mbr_rufus_0x0 (sizeof mbr_rufus_0x0) && write_bootmark offset.

Definition write_rufus_msg_mbr (offset : Z) : prog D bool :=
  write_data offset 0x0 mbr_msg_rufus_0x0 (sizeof mbr_msg_rufus_0x0) && write_bootmark offset.

Definition write_reactos_mbr (offset : Z) : prog D bool :=
  write_data offset 0x0 mbr_reactos_0x0 (sizeof mbr_reactos_0x0) && write_bootmark offset.

Definition write_kolibrios_mbr (offset : Z) : prog D bool :=
  write_data offset 0x0 mbr_kolibri_0x0 (sizeof mbr_kolibri_0x0) && write_bootmark offset.

Definition write_syslinux_mbr (offset : Z) : prog D bool :=
  write_data offset 0x0 mbr_syslinux_0x0 (sizeof mbr_syslinux_0x0) && write_bootmark offset.

Definition write_syslinux_gpt_mbr (offset : Z) : prog D bool :=
  write_data offset 0x0 mbr_gpt_syslinux_0x0 (sizeof mbr_gpt_syslinux_0x0) && write_bootmark offset.

Definition write_grub4dos_mbr (offset : Z) : prog D bool :=
  write_data offset 0x0 mbr_grub_0x0 (sizeof mbr_grub_0x0) && write_bootmark offset.

Definition write_grub2_mbr (offset : Z) : prog D bool :=
  write_data offset 0x0 mbr_grub2_0x0 (sizeof mbr_grub2_0x0) && write_bootmark offset.

Definition write_zero_mbr (offset : Z) : prog D bool :=
  write_data offset 0x0 mbr_zero_0x0 (sizeof mbr_zero_0x0) && write_bootmark offset.

(** ** fat12.c, fat16.c, fat32.c and ntfs.c *)

Definition is_fat_12_fs (offset : Z) : prog D bool :=
  let szMagic := [0x46; 0x41; 0x54; 0x31; 0x32; 0x20; 0x20; 0x20] in
  contains_data offset 0x36 szMagic (sizeof szMagic).

Definition entire_fat_12_br_matches (offset : Z) : prog D bool :=
  contains_data offset 0x0 br_fat12_0x0 (sizeof br_fat12_0x0) &&
  contains_data offset 0x3e br_fat12_0x3e (sizeof br_fat12_0x3e).

Definition write_fat_12_br (offset : Z) (bKeepLabel : bool) : prog D bool :=
  if bKeepLabel then
    write_data offset 0x0 br_fat12_0x0 (sizeof br_fat12_0x0) &&
    write_data offset 0x3e br_fat12_0x3e (sizeof br_fat12_0x3e)
  else
    write_data offset 0x0 br_fat12_0x0 (sizeof br_fat12_0x0) &&
    write_data offset 0x2b label_11_char (sizeof label_11_char) &&
    write_data offset 0x3e br_fat12_0x3e (sizeof br_fat12_0x3e).

Definition is_fat_16_fs (offset : Z) : prog D bool :=
  let szMagic := [0x46; 0x41; 0x54; 0x31; 0x36; 0x20; 0x20; 0x20] in
  contains_data offset 0x36 szMagic (sizeof szMagic).

Definition is_fat_16_br (offset : Z) : prog D bool :=
  let aucMagic := [0x4d; 0x53; 0x57; 0x49; 0x4e; 0x34; 0x2e; 0x31] in (* MSWIN4.1 *)
  contains_data offset 0x1FE [0x55; 0xAA] 2 && contains_data offset 0x03 aucMagic (sizeof aucMagic).

Definition entire_fat_16_br_matches (offset : Z) : prog D bool :=
  contains_data offset 0x0 br_fat16_0x0 (sizeof br_fat16_0x0) &&
  contains_data offset 0x3e br_fat16_0x3e (sizeof br_fat16_0x3e).

Definition write_fat_16_br (offset : Z) (bKeepLabel : bool) : prog D bool :=
  if bKeepLabel then
    write_data offset 0x0 br_fat16_0x0 (sizeof br_fat16_0x0) &&
    write_data offset 0x3e br_fat16_0x3e (sizeof br_fat16_0x3e)
  else
    write_data offset 0x0 br_fat16_0x0 (sizeof br_fat16_0x0) &&
    write_data offset 0x2b label_11_char (sizeof label_11_char) &&
    write_data offset 0x3e br_fat16_0x3e (sizeof br_fat16_0x3e).

Definition entire_fat_16_fd_br_matches (offset : Z) : prog D bool :=
  contains_data offset 0x0 br_fat16_0x0 (sizeof br_fat16_0x0) &&
  contains_data offset 0x3e br_fat16fd_0x3e (sizeof br_fat16fd_0x3e).

Definition write_fat_16_fd_br (offset : Z) (bKeepLabel : bool) : prog D bool :=
  if bKeepLabel then
    write_data offset 0x0 br_fat16_0x0 (sizeof br_fat16_0x0) &&
    write_data offset 0x3e br_fat16fd_0x3e (sizeof br_fat16fd_0x3e)
  else
    write_data offset 0x0 br_fat16_0x0 (sizeof br_fat16_0x0) &&
    write_data offset 0x2b label_11_char (sizeof label_11_char) &&
    write_data offset 0x3e br_fat16fd_0x3e (sizeof br_fat16fd_0x3e).

Definition entire_fat_16_ros_br_matches (offset : Z) : prog D bool :=
  contains_data offset 0x0 br_fat16ros_0x0 (sizeof br_fat16ros_0x0) &&
  contains_data offset 0x3e br_fat16ros_0x3e (sizeof br_fat16ros_0x3e).

Definition write_fat_16_ros_br (offset : Z) (bKeepLabel : bool) : prog D bool :=
  if bKeepLabel then
    write_data offset 0x0 br_fat16ros_0x0 (sizeof br_fat16ros_0x0) &&
    write_data offset 0x3e br_fat16ros_0x3e (sizeof br_fat16ros_0x3e)
  else
    write_data offset 0x0 br_fat16ros_0x0 (sizeof br_fat16ros_0x0) &&
    write_data offset 0x2b label_11_char (sizeof label_11_char) &&
    write_data offset 0x3e br_fat16ros_0x3e (sizeof br_fat16ros_0x3e).

Definition is_fat_32_fs (offset : Z) : prog D bool :=
  let szMagic := [0x46; 0x41; 0x54; 0x33; 0x32; 0x20; 0x20; 0x20] in
  contains_data offset 0x52 szMagic (sizeof szMagic).

Definition is_fat_32_br (offset : Z) : prog D bool :=
  let aucRef := [0x55; 0xAA] in
  let aucMagic := [0x4d; 0x53; 0x57; 0x49; 0x4e; 0x34; 0x2e; 0x31] in (* MSWIN4.1 *)
  contains_data offset (0x1FE + 0 * 0x200) aucRef (sizeof aucRef) &&
  contains_data offset (0x1FE + 1 * 0x200) aucRef (sizeof aucRef) &&
  contains_data offset (0x1FE + 2 * 0x200) aucRef (sizeof aucRef) &&
  contains_data offset 0x03 aucMagic (sizeof aucMagic).

Definition entire_fat_32_br_matches (offset : Z) : prog D bool :=
  contains_data offset 0x0 br_fat32_0x0 (sizeof br_fat32_0x0) &&
  contains_data offset 0x52 br_fat32_0x52 (sizeof br_fat32_0x52) &&
  contains_data offset 0x3f0 br_fat32_0x3f0 (sizeof br_fat32_0x3f0).

Definition write_fat_32_br (offset : Z) (bKeepLabel : bool) : prog D bool :=
  if bKeepLabel then
    write_data offset 0x0 br_fat32_0x0 (sizeof br_fat32_0x0) &&
    write_data offset 0x52 br_fat32_0x52 (sizeof br_fat32_0x52) &&
    write_data offset 0x3f0 br_fat32_0x3f0 (sizeof br_fat32_0x3f0)
  else
    write_data offset 0x0 br_fat32_0x0 (sizeof br_fat32_0x0) &&
    write_data offset 0x47 label_11_char (sizeof label_11_char) &&
    write_data offset 0x52 br_fat32_0x52 (sizeof br_fat32_0x52) &&
    write_data offset 0x3f0 br_fat32_0x3f0 (sizeof br_fat32_0x3f0).

Definition entire_fat_32_fd_br_matches (offset : Z) : prog D bool :=
  contains_data offset 0x0 br_fat32_0x0 (sizeof br_fat32_0x0) &&
  contains_data offset 0x52 br_fat32fd_0x52 (sizeof br_fat32fd_0x52) &&
  contains_data offset 0x3f0 br_fat32fd_0x3f0 (sizeof br_fat32fd_0x3f0).

Definition write_fat_32_fd_br (offset : Z) (bKeepLabel : bool) : prog D bool :=
  if bKeepLabel then
    write_data offset 0x0 br_fat32_0x0 (sizeof br_fat32_0x0) &&
    write_data offset 0x52 br_fat32fd_0x52 (sizeof br_fat32fd_0x52) &&
    write_data offset 0x3f0 br_fat32fd_0x3f0 (sizeof br_fat32fd_0x3f0)
  else
    write_data offset 0x0 br_fat32_0x0 (sizeof br_fat32_0x0) &&
    write_data offset 0x47 label_11_char (sizeof label_11_char) &&
    write_data offset 0x52 br_fat32fd_0x52 (sizeof br_fat32fd_0x52) &&
    write_data offset 0x3f0 br_fat32fd_0x3f0 (sizeof br_fat32fd_0x3f0).

Definition entire_fat_32_nt_br_matches (offset : Z) : prog D bool :=
  contains_data offset 0x0 br_fat32_0x0 (sizeof br_fat32_0x0) &&
  contains_data offset 0x52 br_fat32nt_0x52 (sizeof br_fat32nt_0x52) &&
  contains_data offset 0x3f0 br_fat32nt_0x3f0 (sizeof br_fat32nt_0x3f0) &&
  contains_data offset 0x1800 br_fat32nt_0x1800 (sizeof br_fat32nt_0x1800).

Definition write_fat_32_nt_br (offset : Z) (bKeepLabel : bool) : prog D bool :=
  if bKeepLabel then
    write_data offset 0x0 br_fat32_0x0 (sizeof br_fat32_0x0) &&
    write_data offset 0x52 br_fat32nt_0x52 (sizeof br_fat32nt_0x52) &&
    write_data offset 0x3f0 br_fat32nt_0x3f0 (sizeof br_fat32nt_0x3f0) &&
    write_data offset 0x1800 br_fat32nt_0x1800 (sizeof br_fat32nt_0x1800)
  else
    write_data offset 0x0 br_fat32_0x0 (sizeof br_fat32_0x0) &&
    write_data offset 0x47 label_11_char (sizeof label_11_char) &&
    write_data offset 0x52 br_fat32nt_0x52 (sizeof br_fat32nt_0x52) &&
    write_data offset 0x3f0 br_fat32nt_0x3f0 (sizeof br_fat32nt_0x3f0) &&
    write_data offset 0x1800 br_fat32nt_0x1800 (sizeof br_fat32nt_0x1800).

Definition entire_fat_32_pe_br_matches (offset : Z) : prog D bool :=
  contains_data offset 0x0 br_fat32_0x0 (sizeof br_fat32_0x0) &&
  contains_data offset 0x52 br_fat32pe_0x52 (sizeof br_fat32pe_0x52) &&
  contains_data offset 0x3f0 br_fat32pe_0x3f0 (sizeof br_fat32pe_0x3f0) &&
  contains_data offset 0x1800 br_fat32pe_0x1800 (sizeof br_fat32pe_0x1800).

Definition write_fat_32_pe_br (offset : Z) (bKeepLabel : bool) : prog D bool :=
  if bKeepLabel then
    write_data offset 0x0 br_fat32_0x0 (sizeof br_fat32_0x0) &&
    write_data offset 0x52 br_fat32pe_0x52 (sizeof br_fat32pe_0x52) &&
    write_data offset 0x3f0 br_fat32pe_0x3f0 (sizeof br_fat32pe_0x3f0) &&
    write_data offset 0x1800 br_fat32pe_0x1800 (sizeof br_fat32pe_0x1800)
  else
    write_data offset 0x0 br_fat32_0x0 (sizeof br_fat32_0x0) &&
    write_data offset 0x47 label_11_char (sizeof label_11_char) &&
    write_data offset 0x52 br_fat32pe_0x52 (sizeof br_fat32pe_0x52) &&
    write_data offset 0x3f0 br_fat32pe_0x3f0 (sizeof br_fat32pe_0x3f0) &&
    write_data offset 0x1800 br_fat32pe_0x1800 (sizeof br_fat32pe_0x1800).

Definition entire_fat_32_ros_br_matches (offset : Z) : prog D bool :=
  contains_data offset 0x0 br_fat32_0x0 (sizeof br_fat32_0x0) &&
  contains_data offset 0x52 br_fat32ros_0x52 (sizeof br_fat32ros_0x52) &&
  contains_data offset 0x3f0 br_fat32ros_0x3f0 (sizeof br_fat32ros_0x3f0) &&
  contains_data offset 0x1c00 br_fat32ros_0x1c00 (sizeof br_fat32ros_0x1c00).

Definition write_fat_32_ros_br (offset : Z) (bKeepLabel : bool) : prog D bool :=
  if bKeepLabel then
    write_data offset 0x0 br_fat32_0x0 (sizeof br_fat32_0x0) &&
    write_data offset 0x52 br_fat32ros_0x52 (sizeof br_fat32ros_0x52) &&
    write_data offset 0x3f0 br_fat32ros_0x3f0 (sizeof br_fat32ros_0x3f0) &&
    write_data offset 0x1c00 br_fat32ros_0x1c00 (sizeof br_fat32ros_0x1c00)
  else
    write_data offset 0x0 br_fat32_0x0 (sizeof br_fat32_0x0) &&
    write_data offset 0x47 label_11_char (sizeof label_11_char) &&
    write_data offset 0x52 br_fat32ros_0x52 (sizeof br_fat32ros_0x52) &&
    write_data offset 0x3f0 br_fat32ros_0x3f0 (sizeof br_fat32ros_0x3f0) &&
    write_data offset 0x1c00 br_fat32ros_0x1c00 (sizeof br_fat32ros_0x1c00).

Definition entire_fat_32_kos_br_matches (offset : Z) : prog D bool :=
  contains_data offset 0x0 br_fat32_0x0 (sizeof br_fat32_0x0) &&
  contains_data offset 0x52 br_fat32kos_0x52 (sizeof br_fat32kos_0x52).

Definition write_fat_32_kos_br (offset : Z) (bKeepLabel : bool) : prog D bool :=
  if bKeepLabel then
    write_data offset 0x0 br_fat32_0x0 (sizeof br_fat32_0x0) &&
    write_data offset 0x52 br_fat32kos_0x52 (sizeof br_fat32kos_0x52)
  else
    write_data offset 0x0 br_fat32_0x0 (sizeof br_fat32_0x0) &&
    write_data offset 0x47 label_11_char (sizeof label_11_char) &&
    write_data offset 0x52 br_fat32kos_0x52 (sizeof br_fat32kos_0x52).

Definition is_ntfs_fs (offset : Z) : prog D bool :=
  let szMagic := [0x4e; 0x54; 0x46; 0x53; 0x20; 0x20; 0x20; 0x20] in
  contains_data offset 0x03 szMagic (sizeof szMagic).

Definition is_ntfs_br (offset : Z) : prog D bool :=
  let aucMagic := [0x4e; 0x54; 0x46; 0x53; 0x20; 0x20; 0x20; 0x20] in
  contains_data offset 0x1FE [0x55; 0xAA] 2 && contains_data offset 0x03 aucMagic (sizeof aucMagic).

Definition entire_ntfs_br_matches (offset : Z) : prog D bool :=
  contains_data offset 0x0 br_ntfs_0x0 (sizeof br_ntfs_0x0) &&
  contains_data offset 0x54 br_ntfs_0x54 (sizeof br_ntfs_0x54).

Definition write_ntfs_br (offset : Z) : prog D bool :=
  write_data offset 0x0 br_ntfs_0x0 (sizeof br_ntfs_0x0) &&
  write_data offset 0x54 br_ntfs_0x54 (sizeof br_ntfs_0x54).

(** ** partition_info.c *)

Definition write_partition_number_of_heads (offset iHeads : Z) : prog D bool :=
  let s := u16 iHeads in
  if bool_decide (s = 0) then mret false
  else write_data offset 0x1a [Z.land s 0xff; Z.shiftr (Z.land s 0xff00) 8] 2.

Definition write_partition_start_sector_number (offset iStartSector : Z) : prog D bool :=
  let l := u32 iStartSector in
  if bool_decide (l = 0) then mret false
  else write_data offset 0x1c
    [Z.land l 0xff; Z.shiftr (Z.land l 0xff00) 8; Z.shiftr (Z.land l 0xff0000) 16;
     Z.shiftr (Z.land l 0xff000000) 24] 4.

Definition write_partition_physical_disk_drive_id_fat32 (offset : Z) : prog D bool :=
  write_data offset 0x40 [0x80] 1.

Definition write_partition_physical_disk_drive_id_fat16 (offset : Z) : prog D bool :=
  write_data offset 0x24 [0x80] 1.
End boot_records.
