(* ===== verification/BootRecordsCorrect.v ===== *)
(** BootRecordsCorrect: what the boot record functions store and recognise.

    A record is a list of pieces, the bytes [bs] at position [p]. [stores m ps]
    says that the call [m] stores these pieces and changes nothing else, and
    [checks m ps] that it tests whether they are all there; both are closed
    under [&&], so that they follow for a whole function from its text. *)

From S2P Require Import Prelude Disk DiskCorrect MemDisk BootData BootRecords.

Abbreviation piece := (Z * list Z)%type.

(** The content [f] after the pieces were stored, in order, from [offset]. *)
Definition patches (f : Z -> Z) (offset : Z) (ps : list piece) : Z -> Z :=
  foldl (fun f '(p, bs) => patch f (p + offset) bs) f ps.

Definition has_piece (f : Z -> Z) (offset : Z) (pc : piece) : Prop :=
  bytes_at f (pc.1 + offset) (length pc.2) = pc.2.

Definition has_pieces (f : Z -> Z) (offset : Z) (ps : list piece) : Prop :=
  Forall (has_piece f offset) ps.

#[export] Instance has_piece_dec f offset pc : Decision (has_piece f offset pc).
Proof. unfold has_piece. apply _. Defined.

#[export] Instance has_pieces_dec f offset ps : Decision (has_pieces f offset ps).
Proof. unfold has_pieces. apply _. Defined.

Lemma patches_cons f offset p bs ps :
  patches f offset ((p, bs) :: ps) = patches (patch f (p + offset) bs) offset ps.
Proof. done. Qed.

Lemma patches_app f offset ps qs : patches f offset (ps ++ qs) = patches (patches f offset ps) offset qs.
Proof. apply foldl_app. Qed.

#[export] Instance patches_proper : Proper (same_content ==> eq ==> eq ==> same_content) patches.
Proof.
  intros f g Hfg o ? <- ps ? <-. revert f g Hfg. induction ps as [|[p bs] ps IH]; intros f g Hfg; [done|].
  apply IH. by apply patch_proper.
Qed.

Lemma has_pieces_proper f g offset ps :
  same_content f g -> has_pieces f offset ps -> has_pieces g offset ps.
Proof.
  intros Hfg Hf. eapply Forall_impl; [exact Hf|]. intros pc. unfold has_piece. by rewrite Hfg.
Qed.

(** ** Disjoint pieces *)

Definition apart (a b : piece) : Prop :=
  a.1 + Z.of_nat (length a.2) <= b.1 \/ b.1 + Z.of_nat (length b.2) <= a.1.

#[export] Instance apart_dec a b : Decision (apart a b).
Proof. unfold apart. apply _. Defined.

(** No piece overlaps a later one. *)
Fixpoint all_apart (ps : list piece) : bool :=
  match ps with
  | [] => true
  | p :: ps => forallb (fun q => bool_decide (apart p q)) ps && all_apart ps
  end.

(** Offset [z] is in none of the pieces. *)
Definition outside (ps : list piece) (z : Z) : Prop :=
  Forall (fun pc => ~ (pc.1 <= z < pc.1 + Z.of_nat (length pc.2))) ps.

Lemma patches_outside f offset ps z : outside ps (z - offset) -> patches f offset ps z = f z.
Proof.
  intros Ho. revert f. induction Ho as [|[p bs] ps Hp Ho IH]; intros f; [done|].
  rewrite patches_cons, IH. apply patch_out. cbn in Hp. lia.
Qed.

Lemma has_piece_patches f offset pc ps :
  Forall (apart pc) ps -> has_piece f offset pc -> has_piece (patches f offset ps) offset pc.
Proof.
  intros Ha. revert f. induction Ha as [|[q bs] ps Hq Ha IH]; intros f Hf; [done|].
  rewrite patches_cons. apply IH. unfold has_piece. rewrite bytes_at_patch_disjoint; [done|].
  unfold apart in Hq. cbn in Hq. lia.
Qed.

(** Pieces that do not overlap are all there once stored. *)
Lemma has_pieces_patches f offset ps :
  all_apart ps = true -> has_pieces (patches f offset ps) offset ps.
Proof.
  revert f. induction ps as [|[p bs] ps IH]; intros f Ha; [constructor|].
  cbn in Ha. apply andb_true_iff in Ha as [Hp Ha]. constructor; [|by apply IH].
  rewrite patches_cons. apply has_piece_patches; [|apply bytes_at_patch].
  rewrite forallb_forall in Hp. apply Forall_forall. intros q Hq.
  apply list_elem_of_In in Hq. exact (bool_decide_eq_true_1 _ (Hp q Hq)).
Qed.

(** ** Regions of the disk *)

Section laws.
Context {D : Type} `{OsLaws D}.
Implicit Types (w : world D) (m n : prog D bool) (ps : list piece).

(** [limit] bytes from [offset] that sector I/O reaches: whole sectors of the
    disk, as many as the 64 KB buffer can hold. *)
Definition region (bps : Z) w (offset limit : Z) : Prop :=
  ulBytesPerSector w = bps /\ 0 < bps /\ (bps | limit) /\ (bps | offset) /\ (disk_sector (machine w) | bps) /\
  0 <= offset < 2 ^ 62 /\ 0 < limit <= MAX_DATA_LEN /\
  offset + limit <= disk_size (machine w) /\ reliable (machine w).

Definition within (limit : Z) (pc : piece) : Prop :=
  0 <= pc.1 /\ (0 < length pc.2)%nat /\ pc.1 + Z.of_nat (length pc.2) <= limit.

#[global] Instance within_dec limit pc : Decision (within limit pc).
Proof. unfold within. apply _. Defined.

Lemma region_keeps bps w w' offset limit :
  keeps w w' -> region bps w offset limit -> region bps w' offset limit.
Proof.
  intros ((Hsz & Hsec & Hr) & _ & _ & Hbps) (? & ? & ? & ? & ? & ? & ? & ? & ?). unfold region.
  rewrite Hbps, Hsz, Hsec. split_and!; solve [done|lia|auto].
Qed.

Lemma region_fits bps w offset limit p len :
  region bps w offset limit -> 0 <= p -> 0 < len -> p + len <= limit ->
  data_fits (ulBytesPerSector w) (p + offset) len /\ data_on_disk w (p + offset) len.
Proof.
  intros (<- & Hb & [k Hk] & [j Hj] & Hdiv & Ho & Hl & Hend & _) Hp Hlen Hle.
  set (bps := ulBytesPerSector w) in *.
  assert (Hb2 : bps <= limit) by (apply Z.divide_pos_le; [lia|by exists k]).
  assert (Hfits : span_end bps (p + offset) len <= offset + limit).
  { unfold span_end. rewrite Hj, Hk. transitivity ((j + k) * bps); [|lia].
    apply Z.mul_le_mono_nonneg_r; [lia|].
    apply Z.lt_succ_r, Z.div_lt_upper_bound; [lia|]. nia. }
  assert (Hstart : offset <= span_start bps (p + offset)).
  { unfold span_start. rewrite Hj at 1. apply Z.mul_le_mono_nonneg_r; [lia|].
    apply Z.div_le_lower_bound; [lia|]. nia. }
  unfold MAX_DATA_LEN in *. split; [|by split; [|etransitivity]].
  unfold data_fits, MAX_DATA_LEN. split_and!; lia.
Qed.

(** ** What a call stores or checks *)

Section calls.
Context (bps offset limit : Z).

Definition stores m ps : Prop :=
  forall w, region bps w offset limit ->
    wp m w (fun r w' => r = true /\ keeps w w' /\
      same_content (content w') (patches (content w) offset ps)).

Definition checks m ps : Prop :=
  forall w, region bps w offset limit ->
    wp m w (fun r w' => r = bool_decide (has_pieces (content w) offset ps) /\ looked w w').

Lemma stores_and_then m n ps qs :
  stores m ps -> stores n qs ->
  stores (m && n)%prog (ps ++ qs).
Proof.
  intros Hm Hn w Hreg. apply wp_and_then. eapply wp_mono; [by apply Hm|].
  intros r w1 (-> & Hk1 & Hc1). eapply wp_mono; [by eapply Hn, region_keeps|].
  intros r w2 (-> & Hk2 & Hc2). split_and!; [done|by etransitivity|].
  intros z. rewrite patches_app, (Hc2 z). by apply patches_proper.
Qed.

Lemma checks_and_then m n ps qs :
  checks m ps -> checks n qs ->
  checks (m && n)%prog (ps ++ qs).
Proof.
  intros Hm Hn w Hreg. apply wp_and_then. eapply wp_mono; [by apply Hm|].
  intros r w1 [-> Hl1]. case_bool_decide as Hps.
  - eapply wp_mono; [by eapply Hn, region_keeps; [apply Hl1|]|].
    intros r w2 [-> Hl2]. split; [|by etransitivity]. apply bool_decide_ext.
    unfold has_pieces. rewrite Forall_app. destruct Hl1 as [_ Hc1]. split.
    + intros Hq. split; [done|]. by eapply has_pieces_proper.
    + intros [_ Hq]. eapply has_pieces_proper; [|done]. by symmetry.
  - split; [|done]. rewrite bool_decide_false; [done|].
    unfold has_pieces. rewrite Forall_app. tauto.
Qed.

Lemma write_data_stores p bs :
  0 <= offset -> within limit (p, bs) -> stores (write_data offset p bs (sizeof bs)) [(p, bs)].
Proof.
  intros Ho (Hp & Hl & Hle) w Hreg. cbn in *.
  destruct (region_fits bps w offset limit p (sizeof bs)) as [Hf Hd]; [done|done|lia|done|].
  eapply wp_mono; [apply (write_data_spec offset p bs (sizeof bs)); [done|done|done|lia]|].
  cbn zeta. rewrite Nat2Z.id, firstn_all. intros r w' (Hk & _ & _ & Hgood).
  destruct Hgood as [-> Hc]; [apply Hreg|done|]. done.
Qed.

Lemma contains_data_checks p bs len :
  0 <= offset -> 0 <= len -> within limit (p, take (Z.to_nat len) bs) -> len <= sizeof bs ->
  checks (contains_data offset p bs len) [(p, take (Z.to_nat len) bs)].
Proof.
  intros Ho Hlen (Hp & Hl & Hle) Hsz w Hreg. cbn in *. rewrite length_take in *.
  destruct (region_fits bps w offset limit p len) as [Hf Hd]; [done|done|lia|lia|].
  eapply wp_mono; [apply (contains_data_spec offset p bs len); [done|done|done]|].
  cbn zeta. intros r w' [Hlk Hgood]. rewrite Hgood by (try apply Hreg; done). split; [|done].
  apply bool_decide_ext. unfold has_pieces. rewrite Forall_singleton. unfold has_piece. cbn.
  rewrite length_take. replace (Z.to_nat len `min` length bs)%nat with (Z.to_nat len) by lia.
  split; intros Heq; symmetry; exact Heq.
Qed.

Lemma contains_data_checks_all p bs :
  0 <= offset -> within limit (p, bs) ->
  checks (contains_data offset p bs (sizeof bs)) [(p, bs)].
Proof.
  intros Ho Hw. pose proof (contains_data_checks p bs (sizeof bs)) as Hc.
  rewrite Nat2Z.id, firstn_all in Hc. apply Hc; auto; lia.
Qed.

Lemma stores_eq m ps qs : stores m ps -> ps = qs -> stores m qs.
Proof. by intros ? <-. Qed.

Lemma checks_eq m ps qs : checks m ps -> ps = qs -> checks m qs.
Proof. by intros ? <-. Qed.
End calls.
End laws.
