(* ===== verification/BootRecordsProps.v ===== *)
(** BootRecordsProps: the properties of the boot records (BootRecords.v). *)

From S2P Require Import Prelude Disk DiskCorrect MemDisk BootData BootRecords BootRecordsCorrect.

(** ** Parts of pieces *)

(** Piece [q] is a part of piece [p]. *)
Definition part_of (q p : piece) : Prop :=
  p.1 <= q.1 /\ q.1 + Z.of_nat (length q.2) <= p.1 + Z.of_nat (length p.2) /\
  slice (Z.to_nat (q.1 - p.1)) (length q.2) p.2 = q.2.

#[export] Instance part_of_dec q p : Decision (part_of q p).
Proof. unfold part_of. apply _. Defined.

Definition covered (ps qs : list piece) : bool :=
  forallb (fun q => existsb (fun p => bool_decide (part_of q p)) ps) qs.

Lemma has_piece_part f offset p q : part_of q p -> has_piece f offset p -> has_piece f offset q.
Proof.
  intros (Hlo & Hhi & Hpart) Hp. unfold has_piece in *.
  replace (q.1 + offset) with (p.1 + offset + Z.of_nat (Z.to_nat (q.1 - p.1))) by lia.
  rewrite <- (slice_bytes_at f (p.1 + offset) (length p.2)) by lia. by rewrite Hp.
Qed.

Lemma has_pieces_covered f offset ps qs :
  covered ps qs = true -> has_pieces f offset ps -> has_pieces f offset qs.
Proof.
  intros Hc Hp. unfold covered in Hc. rewrite forallb_forall in Hc.
  apply Forall_forall. intros q Hq. apply list_elem_of_In in Hq.
  apply Hc, existsb_exists in Hq as (p & Hin & Hpart).
  apply (has_piece_part _ _ p); [exact (bool_decide_eq_true_1 _ Hpart)|].
  eapply Forall_forall; [exact Hp|]. by apply list_elem_of_In.
Qed.

(** ** The partition boot records *)

Inductive boot_kind :=
  | Fat12 | Fat16 | Fat16Fd | Fat16Ros | Fat32 | Fat32Fd | Fat32Nt | Fat32Pe | Fat32Ros | Fat32Kos | Ntfs.

#[export] Instance boot_kind_eq_dec : EqDecision boot_kind.
Proof. solve_decision. Defined.

Section kinds.
Context {D : Type} `{Os D}.

Definition write_br (k : boot_kind) (offset : Z) (bKeepLabel : bool) : prog D bool :=
  match k with
  | Fat12 => write_fat_12_br offset bKeepLabel
  | Fat16 => write_fat_16_br offset bKeepLabel
  | Fat16Fd => write_fat_16_fd_br offset bKeepLabel
  | Fat16Ros => write_fat_16_ros_br offset bKeepLabel
  | Fat32 => write_fat_32_br offset bKeepLabel
  | Fat32Fd => write_fat_32_fd_br offset bKeepLabel
  | Fat32Nt => write_fat_32_nt_br offset bKeepLabel
  | Fat32Pe => write_fat_32_pe_br offset bKeepLabel
  | Fat32Ros => write_fat_32_ros_br offset bKeepLabel
  | Fat32Kos => write_fat_32_kos_br offset bKeepLabel
  | Ntfs => write_ntfs_br offset
  end.

Definition br_matches (k : boot_kind) (offset : Z) : prog D bool :=
  match k with
  | Fat12 => entire_fat_12_br_matches offset
  | Fat16 => entire_fat_16_br_matches offset
  | Fat16Fd => entire_fat_16_fd_br_matches offset
  | Fat16Ros => entire_fat_16_ros_br_matches offset
  | Fat32 => entire_fat_32_br_matches offset
  | Fat32Fd => entire_fat_32_fd_br_matches offset
  | Fat32Nt => entire_fat_32_nt_br_matches offset
  | Fat32Pe => entire_fat_32_pe_br_matches offset
  | Fat32Ros => entire_fat_32_ros_br_matches offset
  | Fat32Kos => entire_fat_32_kos_br_matches offset
  | Ntfs => entire_ntfs_br_matches offset
  end.
End kinds.

(** The boot code of a record: the jump and the OEM name, then the code after the
    BIOS parameter block. *)
Definition br_code (k : boot_kind) : list piece :=
  match k with
  | Fat12 => [(0x0, br_fat12_0x0); (0x3e, br_fat12_0x3e)]
  | Fat16 => [(0x0, br_fat16_0x0); (0x3e, br_fat16_0x3e)]
  | Fat16Fd => [(0x0, br_fat16_0x0); (0x3e, br_fat16fd_0x3e)]
  | Fat16Ros => [(0x0, br_fat16ros_0x0); (0x3e, br_fat16ros_0x3e)]
  | Fat32 => [(0x0, br_fat32_0x0); (0x52, br_fat32_0x52); (0x3f0, br_fat32_0x3f0)]
  | Fat32Fd => [(0x0, br_fat32_0x0); (0x52, br_fat32fd_0x52); (0x3f0, br_fat32fd_0x3f0)]
  | Fat32Nt => [(0x0, br_fat32_0x0); (0x52, br_fat32nt_0x52); (0x3f0, br_fat32nt_0x3f0);
                (0x1800, br_fat32nt_0x1800)]
  | Fat32Pe => [(0x0, br_fat32_0x0); (0x52, br_fat32pe_0x52); (0x3f0, br_fat32pe_0x3f0);
                (0x1800, br_fat32pe_0x1800)]
  | Fat32Ros => [(0x0, br_fat32_0x0); (0x52, br_fat32ros_0x52); (0x3f0, br_fat32ros_0x3f0);
                 (0x1c00, br_fat32ros_0x1c00)]
  | Fat32Kos => [(0x0, br_fat32_0x0); (0x52, br_fat32kos_0x52)]
  | Ntfs => [(0x0, br_ntfs_0x0); (0x54, br_ntfs_0x54)]
  end.

(** Where the volume label is, for a record that resets it. *)
Definition br_label (k : boot_kind) (bKeepLabel : bool) : option Z :=
  match k with
  | Fat12 | Fat16 | Fat16Fd | Fat16Ros => if bKeepLabel then None else Some 0x2b
  | Ntfs => None
  | _ => if bKeepLabel then None else Some 0x47
  end.

Definition br_pieces (k : boot_kind) (bKeepLabel : bool) : list piece :=
  match br_label k bKeepLabel with
  | Some p => take 1 (br_code k) ++ [(p, label_11_char)] ++ drop 1 (br_code k)
  | None => br_code k
  end.

(** The records lie in the first 8 KB of the volume. *)
Definition BR_LIMIT : Z := 8192.

Ltac unfold_records :=
  cbv beta iota delta [
    write_br br_matches write_fat_12_br entire_fat_12_br_matches write_fat_16_br
    write_fat_16_fd_br write_fat_16_ros_br entire_fat_16_br_matches
    entire_fat_16_fd_br_matches entire_fat_16_ros_br_matches write_fat_32_br
    write_fat_32_fd_br write_fat_32_nt_br write_fat_32_pe_br write_fat_32_ros_br
    write_fat_32_kos_br entire_fat_32_br_matches entire_fat_32_fd_br_matches
    entire_fat_32_nt_br_matches entire_fat_32_pe_br_matches entire_fat_32_ros_br_matches
    entire_fat_32_kos_br_matches write_ntfs_br entire_ntfs_br_matches].

Ltac pieces :=
  lazymatch goal with
  | |- within _ _ => apply (bool_decide_unpack _); vm_compute; exact I
  | |- 0 <= _ => done
  | |- stores _ _ _ (and_then _ _) _ => apply stores_and_then
  | |- stores _ _ _ (write_data _ _ _ _) _ => apply write_data_stores
  | |- checks _ _ _ (and_then _ _) _ => apply checks_and_then
  | |- checks _ _ _ (contains_data _ _ ?bs (sizeof ?bs)) _ => apply contains_data_checks_all
  end.

Section laws.
Context {D : Type} `{OsLaws D} (bps offset : Z) (Hoff : 0 <= offset).

Lemma write_br_stores k keep : stores (D := D) bps offset BR_LIMIT (write_br k offset keep) (br_pieces k keep).
Proof.
  destruct k, keep; (eapply stores_eq; [unfold_records; repeat pieces|reflexivity]).
Qed.

Lemma br_matches_checks k : checks (D := D) bps offset BR_LIMIT (br_matches k offset) (br_code k).
Proof.
  destruct k; (eapply checks_eq; [unfold_records; repeat pieces|reflexivity]).
Qed.
End laws.

(** Where the boot code starts again after the BIOS parameter block. *)
Definition code_start (k : boot_kind) : Z :=
  match k with
  | Fat12 | Fat16 | Fat16Fd | Fat16Ros => 0x3e
  | Ntfs => 0x54
  | _ => 0x52
  end.

(** The records of a FAT32 volume that leave the cluster information of its
    file system information sector (sector 1 of 512 bytes), the free cluster
    count at 0x3e8 and the next free cluster at 0x3ec. *)
Definition keeps_cluster_info (k : boot_kind) : bool :=
  match k with Fat32 | Fat32Fd | Fat32Nt | Fat32Ros | Fat32Kos => true | _ => false end.

(** The marks by which [is_fat_32_fs] and [is_fat_32_br] recognise a record. *)
Definition fat32_fs_mark : list piece := [(0x52, [0x46; 0x41; 0x54; 0x33; 0x32; 0x20; 0x20; 0x20])].
Definition fat32_br_marks : list piece :=
  [(0x1FE, [0x55; 0xAA]); (0x3FE, [0x55; 0xAA]); (0x5FE, [0x55; 0xAA]);
   (0x03, [0x4d; 0x53; 0x57; 0x49; 0x4e; 0x34; 0x2e; 0x31])].

Definition is_fat32_kind (k : boot_kind) : bool :=
  match k with Fat32 | Fat32Fd | Fat32Nt | Fat32Pe | Fat32Ros | Fat32Kos => true | _ => false end.

(** The FAT32 records of three 512-byte sectors, with a boot mark in each. *)
Definition has_three_sectors (k : boot_kind) : bool :=
  match k with Fat32 | Fat32Fd | Fat32Nt | Fat32Pe => true | _ => false end.

Lemma br_pieces_apart k keep : all_apart (br_pieces k keep) = true.
Proof. destruct k, keep; vm_compute; reflexivity. Qed.

Lemma br_pieces_code k keep : covered (br_pieces k keep) (br_code k) = true.
Proof. destruct k, keep; vm_compute; reflexivity. Qed.

Lemma br_pieces_fs_mark k keep : is_fat32_kind k = true -> covered (br_pieces k keep) fat32_fs_mark = true.
Proof. destruct k, keep; intros; try done; vm_compute; reflexivity. Qed.

Lemma br_pieces_br_marks k keep :
  has_three_sectors k = true -> covered (br_pieces k keep) fat32_br_marks = true.
Proof. destruct k, keep; intros; try done; vm_compute; reflexivity. Qed.

(** [z] is in the parameter block, the label excluded when it is reset. *)
Lemma br_pieces_bpb k keep z :
  0x0b <= z < default (code_start k) (br_label k keep) -> outside (br_pieces k keep) z.
Proof.
  intros Hz. apply Forall_forall. intros pc Hpc.
  assert (Hall : forallb (fun pc : piece =>
    bool_decide (pc.1 + sizeof pc.2 <= 0x0b) || bool_decide (default (code_start k) (br_label k keep) <= pc.1))
    (br_pieces k keep) = true) by (destruct k, keep; vm_compute; reflexivity).
  rewrite forallb_forall in Hall. apply list_elem_of_In in Hpc.
  specialize (Hall _ Hpc). rewrite orb_true_iff, !bool_decide_eq_true in Hall. lia.
Qed.

Lemma br_pieces_cluster_info k keep z :
  keeps_cluster_info k = true -> 0x3e8 <= z < 0x3f0 -> outside (br_pieces k keep) z.
Proof.
  intros Hk Hz. apply Forall_forall. intros pc Hpc.
  assert (Hall : forallb (fun pc : piece =>
    bool_decide (pc.1 + sizeof pc.2 <= 0x3e8) || bool_decide (0x3f0 <= pc.1))
    (br_pieces k keep) = true) by (destruct k, keep; try done; vm_compute; reflexivity).
  rewrite forallb_forall in Hall. apply list_elem_of_In in Hpc.
  specialize (Hall _ Hpc). rewrite orb_true_iff, !bool_decide_eq_true in Hall. lia.
Qed.

Section props.
Context {D : Type} `{OsLaws D}.
Implicit Types w : world D.

Lemma is_fat_32_fs_checks bps offset : 0 <= offset ->
  checks (D := D) bps offset BR_LIMIT (is_fat_32_fs offset) fat32_fs_mark.
Proof. intros. unfold is_fat_32_fs. by repeat pieces. Qed.

Lemma is_fat_32_br_checks bps offset : 0 <= offset ->
  checks (D := D) bps offset BR_LIMIT (is_fat_32_br offset) fat32_br_marks.
Proof. intros. eapply checks_eq; [unfold is_fat_32_br; by repeat pieces|reflexivity]. Qed.

(** Running a check on a disk that has the pieces. *)
Lemma checks_pass bps offset limit m ps w :
  checks bps offset limit m ps -> region bps w offset limit -> has_pieces (content w) offset ps ->
  exists w', m w = (true, w') /\ looked w w'.
Proof.
  intros Hm Hreg Hps. destruct (wp_eval _ _ _ (Hm w Hreg)) as (r & w' & Hrun & Hr & Hl).
  exists w'. by rewrite Hrun, Hr, bool_decide_true.
Qed.

(** C15: Writing any of the eleven partition boot records, with or without its label: on
    a region of the disk that sector I/O reaches the call returns 1, the whole
    record is then recognised, the BIOS parameter block keeps its bytes (up to
    the label, when that is reset), the cluster information of a FAT32 volume is
    kept by every record but the PE one, a FAT32 record is recognised as
    the boot sector of a FAT32 volume ([is_fat_32_fs]), and [is_fat_32_br] finds its three
    boot marks when the record has three sectors, as all FAT32 records have but those of
    ReactOS and KolibriOS. *)
Theorem boot_record_roundtrip k bps offset bKeepLabel w :
  region bps w offset BR_LIMIT ->
  exists w1 w2,
    write_br k offset bKeepLabel w = (true, w1) /\
    br_matches k offset w1 = (true, w2) /\
    (forall z, 0x0b <= z < default (code_start k) (br_label k bKeepLabel) ->
       content w2 (offset + z) = content w (offset + z)) /\
    (keeps_cluster_info k = true -> forall z, 0x3e8 <= z < 0x3f0 ->
       content w2 (offset + z) = content w (offset + z)) /\
    (is_fat32_kind k = true -> (is_fat_32_fs offset w2).1 = true) /\
    (has_three_sectors k = true -> (is_fat_32_br offset w2).1 = true).
Proof.
  intros Hreg. assert (Ho : 0 <= offset) by apply Hreg.
  destruct (wp_eval _ _ _ (write_br_stores bps offset Ho k bKeepLabel w Hreg))
    as (r & w1 & Hw1 & -> & Hk1 & Hc1).
  pose proof (region_keeps _ _ _ _ _ Hk1 Hreg) as Hreg1.
  assert (Hps : has_pieces (content w1) offset (br_pieces k bKeepLabel)).
  { eapply has_pieces_proper; [by symmetry|]. apply has_pieces_patches, br_pieces_apart. }
  destruct (checks_pass bps offset BR_LIMIT _ _ w1 (br_matches_checks bps offset Ho k) Hreg1)
    as (w2 & Hw2 & Hl2); [eapply has_pieces_covered; [apply br_pieces_code|done]|].
  assert (Hreg2 : region bps w2 offset BR_LIMIT) by (eapply region_keeps; [apply Hl2|done]).
  assert (Hps2 : has_pieces (content w2) offset (br_pieces k bKeepLabel))
    by (eapply has_pieces_proper; [symmetry; apply Hl2|done]).
  assert (Hout : forall z, outside (br_pieces k bKeepLabel) z ->
            content w2 (offset + z) = content w (offset + z)).
  { intros z Hz. rewrite (proj2 Hl2), (Hc1 (offset + z)). apply patches_outside.
    by replace (offset + z - offset) with z by lia. }
  exists w1, w2. split_and!; [done|done|..].
  - intros z Hz. by apply Hout, br_pieces_bpb.
  - intros Hk z Hz. by apply Hout, br_pieces_cluster_info.
  - intros Hk. destruct (checks_pass bps offset BR_LIMIT _ _ w2 (is_fat_32_fs_checks bps offset Ho) Hreg2)
      as (w3 & -> & _); [eapply has_pieces_covered; [by apply br_pieces_fs_mark|done]|done].
  - intros Hk. destruct (checks_pass bps offset BR_LIMIT _ _ w2 (is_fat_32_br_checks bps offset Ho) Hreg2)
      as (w3 & -> & _); [eapply has_pieces_covered; [by apply br_pieces_br_marks|done]|done].
Qed.

(** The PE record is five bytes longer than the others: writing it sets the free
    cluster count of the file system information sector to 0 and the low byte
    of the next free cluster to 2, whatever they were, although the source says
    that the cluster information is not overwritten. *)
Lemma pe_record_clears_free_count bps offset bKeepLabel w :
  region bps w offset BR_LIMIT ->
  exists w', write_fat_32_pe_br offset bKeepLabel w = (true, w') /\
    bytes_at (content w') (0x3e8 + offset) 5 = [0; 0; 0; 0; 2].
Proof.
  intros Hreg. assert (Ho : 0 <= offset) by apply Hreg.
  destruct (wp_eval _ _ _ (write_br_stores bps offset Ho Fat32Pe bKeepLabel w Hreg))
    as (r & w' & Hw & -> & _ & Hc).
  exists w'. split; [exact Hw|]. rewrite Hc.
  assert (Hp : has_pieces (patches (content w) offset (br_pieces Fat32Pe bKeepLabel)) offset
                 [(0x3e8, [0; 0; 0; 0; 2])]).
  { eapply has_pieces_covered; [|apply has_pieces_patches, br_pieces_apart].
    destruct bKeepLabel; vm_compute; reflexivity. }
  by apply Forall_cons in Hp as [Hp _].
Qed.
End props.

(** A volume of 64 sectors of 512 bytes. *)
Definition sample_volume : world mem_disk :=
  mkWorld (mkMem (fun z => z mod 251) 32768 512 0 [] 0 0xCD) 0 0 false 512.

Lemma sample_volume_region offset limit :
  (512 | offset) -> (512 | limit) -> 0 <= offset -> 0 < limit -> offset + limit <= 32768 ->
  region 512 sample_volume offset limit.
Proof.
  intros. unfold region, MAX_DATA_LEN. cbn. split_and!; try done; try lia.
Qed.

Lemma sample_volume_boot : region 512 sample_volume 0xC00 BR_LIMIT.
Proof. apply sample_volume_region; [by exists 6|by exists 16|done..]. Qed.

Lemma boot_record_roundtrip_witness :
  exists w1 w2,
    write_br Fat32Nt 0xC00 false sample_volume = (true, w1) /\
    br_matches Fat32Nt 0xC00 w1 = (true, w2) /\
    (forall z, 0x0b <= z < 0x47 -> content w2 (0xC00 + z) = content sample_volume (0xC00 + z)) /\
    (true = true -> forall z, 0x3e8 <= z < 0x3f0 ->
       content w2 (0xC00 + z) = content sample_volume (0xC00 + z)) /\
    (true = true -> (is_fat_32_fs 0xC00 w2).1 = true) /\
    (true = true -> (is_fat_32_br 0xC00 w2).1 = true).
Proof. exact (boot_record_roundtrip Fat32Nt 512 0xC00 false sample_volume sample_volume_boot). Defined.

Lemma pe_record_clears_free_count_witness :
  exists w', write_fat_32_pe_br 0xC00 false sample_volume = (true, w') /\
    bytes_at (content w') (0x3e8 + 0xC00) 5 = [0; 0; 0; 0; 2].
Proof. exact (pe_record_clears_free_count 512 0xC00 false sample_volume sample_volume_boot). Defined.
