(* ===== verification/MbrProps.v ===== *)
(** MbrProps: the properties of the master boot records of br.c
    (BootRecords.v). *)

From S2P Require Import Prelude Disk DiskCorrect MemDisk BootData BootRecords BootRecordsCorrect.
From S2P Require Import BootRecordsProps.

Inductive mbr_kind :=
  | MbrDos | Mbr95b | Mbr2000 | MbrVista | MbrWin7 | MbrRufus | MbrRufusMsg | MbrReactos
  | MbrKolibrios | MbrSyslinux | MbrSyslinuxGpt | MbrGrub4dos | MbrGrub2 | MbrZero.

#[export] Instance mbr_kind_eq_dec : EqDecision mbr_kind.
Proof. solve_decision. Defined.

Section kinds.
Context {D : Type} `{Os D}.

Definition write_mbr (k : mbr_kind) (offset : Z) : prog D bool :=
  match k with
  | MbrDos => write_dos_mbr offset
  | Mbr95b => write_95b_mbr offset
  | Mbr2000 => write_2000_mbr offset
  | MbrVista => write_vista_mbr offset
  | MbrWin7 => write_win7_mbr offset
  | MbrRufus => write_rufus_mbr offset
  | MbrRufusMsg => write_rufus_msg_mbr offset
  | MbrReactos => write_reactos_mbr offset
  | MbrKolibrios => write_kolibrios_mbr offset
  | MbrSyslinux => write_syslinux_mbr offset
  | MbrSyslinuxGpt => write_syslinux_gpt_mbr offset
  | MbrGrub4dos => write_grub4dos_mbr offset
  | MbrGrub2 => write_grub2_mbr offset
  | MbrZero => write_zero_mbr offset
  end.

Definition is_mbr (k : mbr_kind) (offset : Z) : prog D bool :=
  match k with
  | MbrDos => is_dos_mbr offset
  | Mbr95b => is_95b_mbr offset
  | Mbr2000 => is_2000_mbr offset
  | MbrVista => is_vista_mbr offset
  | MbrWin7 => is_win7_mbr offset
  | MbrRufus => is_rufus_mbr offset
  | MbrRufusMsg => is_rufus_msg_mbr offset
  | MbrReactos => is_reactos_mbr offset
  | MbrKolibrios => is_kolibrios_mbr offset
  | MbrSyslinux => is_syslinux_mbr offset
  | MbrSyslinuxGpt => is_syslinux_gpt_mbr offset
  | MbrGrub4dos => is_grub4dos_mbr offset
  | MbrGrub2 => is_grub2_mbr offset
  | MbrZero => is_zero_mbr offset
  end.
End kinds.

Definition mbr_code (k : mbr_kind) : list piece :=
  match k with
  | MbrDos => [(0, mbr_dos_0x0)]
  | Mbr95b => [(0, mbr_95b_0x0); (0x0e0, mbr_95b_0x0e0)]
  | Mbr2000 => [(0, mbr_2000_0x0)]
  | MbrVista => [(0, mbr_vista_0x0)]
  | MbrWin7 => [(0, mbr_win7_0x0)]
  | MbrRufus => [(0, mbr_rufus_0x0)]
  | MbrRufusMsg => [(0, mbr_msg_rufus_0x0)]
  | MbrReactos => [(0, mbr_reactos_0x0)]
  | MbrKolibrios => [(0, mbr_kolibri_0x0)]
  | MbrSyslinux => [(0, mbr_syslinux_0x0)]
  | MbrSyslinuxGpt => [(0, mbr_gpt_syslinux_0x0)]
  | MbrGrub4dos => [(0, mbr_grub_0x0)]
  | MbrGrub2 => [(0, mbr_grub2_0x0)]
  | MbrZero => [(0, mbr_zero_0x0)]
  end.

(** The boot marks of a sector of [n] times 512 bytes, from the [i]-th on. *)
Definition mark (i : nat) : piece := (0x1FE + 0x200 * Z.of_nat i, [0x55; 0xAA]).
Definition marks (i n : nat) : list piece := mark <$> seq i n.

(** What [is_mbr] looks for; the versions of Windows have one language-independent
    start. *)
Definition mbr_checked (k : mbr_kind) : list piece :=
  match k with
  | Mbr2000 => [(0, take 0x12c mbr_2000_0x0); mark 0]
  | MbrVista => [(0, take 0x162 mbr_vista_0x0); mark 0]
  | MbrWin7 => [(0, take 0x163 mbr_win7_0x0); mark 0]
  | MbrZero => mbr_code k
  | _ => mbr_code k ++ [mark 0]
  end.

Lemma elem_of_marks pc i n : pc ∈ marks i n -> exists j, (i <= j < i + n)%nat /\ pc = mark j.
Proof. intros (j & -> & Hj)%list_elem_of_fmap. apply elem_of_seq in Hj. by exists j. Qed.

Lemma marks_apart i n : all_apart (marks i n) = true.
Proof.
  revert i. induction n as [|n IH]; intros i; [done|]. cbn. apply andb_true_iff. split; [|apply IH].
  apply forallb_forall. intros pc Hpc%list_elem_of_In. apply elem_of_marks in Hpc as (j & Hj & ->).
  apply bool_decide_eq_true. unfold apart. cbn. lia.
Qed.

(** ** What the code stores below the partition table *)

(** The pieces end at [limit] or before. *)
Definition below (limit : Z) (ps : list piece) : bool :=
  forallb (fun pc => bool_decide (0 <= pc.1) && bool_decide (pc.1 + sizeof pc.2 <= limit)) ps.

Lemma below_spec limit ps : below limit ps = true ->
  Forall (fun pc : piece => 0 <= pc.1 /\ pc.1 + sizeof pc.2 <= limit) ps.
Proof.
  unfold below. rewrite forallb_forall. intros Hb. apply Forall_forall.
  intros pc Hpc%list_elem_of_In. specialize (Hb pc Hpc).
  by rewrite andb_true_iff, !bool_decide_eq_true in Hb.
Qed.

(** The disk signature at 0x1b8 and the two bytes after it are left by every
    record but the zeroed one. *)
Lemma mbr_code_below k : below (if bool_decide (k = MbrZero) then 0x1be else 0x1b8) (mbr_code k) = true.
Proof. destruct k; vm_compute; reflexivity. Qed.

Lemma mbr_code_apart k : all_apart (mbr_code k) = true.
Proof. destruct k; vm_compute; reflexivity. Qed.

Lemma mbr_checked_covered k : covered (mbr_code k ++ [mark 0]) (mbr_checked k) = true.
Proof. destruct k; vm_compute; reflexivity. Qed.

(** The whole record on sectors of [n] times 512 bytes. *)
Definition mbr_pieces (k : mbr_kind) (n : nat) : list piece := mbr_code k ++ marks 0 n.

Lemma mbr_code_before_marks k : Forall (fun pc => 0 <= pc.1 /\ pc.1 + sizeof pc.2 <= 0x1be) (mbr_code k).
Proof.
  eapply Forall_impl; [apply below_spec, mbr_code_below|].
  cbn. intros pc [? Hl]. case_bool_decide; lia.
Qed.

Lemma has_pieces_mbr f k n : has_pieces (patches f 0 (mbr_pieces k n)) 0 (mbr_pieces k n).
Proof.
  unfold mbr_pieces. rewrite patches_app. apply Forall_app. split.
  - pose proof (conj (mbr_code_before_marks k) (has_pieces_patches f 0 _ (mbr_code_apart k))) as Hall.
    apply Forall_and in Hall. eapply Forall_impl; [exact Hall|]. intros pc [[Hlo Hhi] Hpc]. apply has_piece_patches; [|done].
    apply Forall_forall. intros q (j & _ & ->)%elem_of_marks. unfold apart. cbn. lia.
  - apply has_pieces_patches, marks_apart.
Qed.

Section props.
Context {D : Type} `{OsLaws D}.
Implicit Types w : world D.

Lemma bootmark_loop_stores fuel offset bps (i n : nat) :
  0 <= offset -> bps = 0x200 * Z.of_nat (i + n) -> (n <= fuel)%nat ->
  stores (D := D) bps offset bps (bootmark_loop fuel offset (0x1FE + 0x200 * Z.of_nat i)) (marks i n).
Proof.
  intros Ho Hbps. revert i fuel Hbps. induction n as [|n IH]; intros i fuel Hbps Hfuel w Hreg;
    (assert (Hw : ulBytesPerSector w = bps) by apply Hreg); destruct fuel as [|fuel]; try lia.
  - by apply wp_ret.
  - cbn [bootmark_loop]. step. step. rewrite Hw, bool_decide_false by lia. by step.
  - cbn [bootmark_loop]. step. step. rewrite Hw, bool_decide_true by lia.
    change (marks i (S n)) with ([mark i] ++ marks (S i) n).
    clear Hw. revert w Hreg. apply stores_and_then.
    + apply write_data_stores; [done|]. unfold within. cbn. lia.
    + replace (0x1FE + 0x200 * Z.of_nat i + 0x200) with (0x1FE + 0x200 * Z.of_nat (S i)) by lia.
      apply IH; lia.
Qed.

Lemma write_bootmark_stores offset bps (n : nat) :
  0 <= offset -> bps = 0x200 * Z.of_nat n ->
  stores (D := D) bps offset bps (write_bootmark offset) (marks 0 n).
Proof.
  intros Ho Hbps w Hreg. assert (Hw : ulBytesPerSector w = bps) by apply Hreg.
  unfold write_bootmark. step. step. rewrite Hw.
  replace (bps / 0x200) with (Z.of_nat n) by (rewrite Hbps, Z.mul_comm, Z.div_mul; lia).
  change 0x1FE with (0x1FE + 0x200 * Z.of_nat 0).
  apply (bootmark_loop_stores (S (Z.to_nat (Z.of_nat n))) offset bps 0 n); [done|lia|lia|done].
Qed.

Lemma write_mbr_stores k offset bps (n : nat) :
  0 <= offset -> bps = 0x200 * Z.of_nat n -> (0 < n)%nat ->
  stores (D := D) bps offset bps (write_mbr k offset) (mbr_pieces k n).
Proof.
  intros Ho Hbps Hn.
  assert (Hwd : forall p bs, bool_decide (within 512 (p, bs)) = true ->
            stores (D := D) bps offset bps (write_data offset p bs (sizeof bs)) [(p, bs)]).
  { intros p bs Hw%bool_decide_eq_true_1. apply write_data_stores; [done|].
    unfold within in *. lia. }
  assert (Hmk := write_bootmark_stores offset bps n Ho Hbps).
  destruct k; unfold mbr_pieces; cbn [mbr_code write_mbr]; try (apply (stores_and_then _ _ _ _ _ [_]);
    [apply Hwd; vm_compute; reflexivity|exact Hmk]).
  apply (stores_and_then _ _ _ _ _ [_; _]); [|exact Hmk].
  apply (stores_and_then _ _ _ _ _ [_] [_]); apply Hwd; vm_compute; reflexivity.
Qed.

Lemma is_br_checks offset bps : 0 <= offset -> 512 <= bps ->
  checks (D := D) bps offset bps (is_br offset) [mark 0].
Proof.
  intros. apply (contains_data_checks_all bps offset bps 0x1FE [0x55; 0xAA]); [done|].
  unfold within. cbn. lia.
Qed.

Lemma is_mbr_checks k offset bps :
  0 <= offset -> 512 <= bps -> checks (D := D) bps offset bps (is_mbr k offset) (mbr_checked k).
Proof.
  intros Ho Hbps.
  assert (Hcd : forall p bs len, bool_decide (within 512 (p, take (Z.to_nat len) bs)) = true ->
            bool_decide (0 <= len <= sizeof bs) = true ->
            checks (D := D) bps offset bps (contains_data offset p bs len) [(p, take (Z.to_nat len) bs)]).
  { intros p bs len Hw%bool_decide_eq_true_1 Hl%bool_decide_eq_true_1.
    apply contains_data_checks; [done|lia| |lia]. unfold within in *. lia. }
  assert (Hmk := is_br_checks offset bps Ho Hbps).
  destruct k; cbn [is_mbr mbr_checked].
  all: try (eapply checks_eq;
    [apply checks_and_then; [apply Hcd; vm_compute; reflexivity|exact Hmk]|vm_compute; reflexivity]).
  - eapply checks_eq; [apply checks_and_then; [apply checks_and_then|exact Hmk]|];
      [apply Hcd; vm_compute; reflexivity..|vm_compute; reflexivity].
  - eapply checks_eq; [apply Hcd; vm_compute; reflexivity|vm_compute; reflexivity].
Qed.

Lemma mbr_pieces_outside k n z :
  (if bool_decide (k = MbrZero) then 0x1be else 0x1b8) <= z < 0x1fe \/ 0x200 * Z.of_nat n <= z ->
  (0 < n)%nat -> outside (mbr_pieces k n) z.
Proof.
  intros Hz Hn. apply Forall_app. split.
  - eapply Forall_impl; [apply below_spec, mbr_code_below|]. cbn. intros pc [? Hl].
    case_bool_decide; lia.
  - apply Forall_forall. intros pc (j & Hj & ->)%elem_of_marks. cbn. case_bool_decide; lia.
Qed.

Lemma disk_signature_eq bps w w' :
  region bps w 0 bps -> region bps w' 0 bps -> 512 <= bps ->
  (forall z, 0x1b8 <= z < 0x1bc -> content w' z = content w z) ->
  (read_windows_disk_signature 0 w').1 = (read_windows_disk_signature 0 w).1.
Proof.
  intros Hw Hw' Hbps Hsame.
  assert (Hval : forall v, region bps v 0 bps ->
    (read_windows_disk_signature 0 v).1 = le_word (bytes_at (content v) 0x1b8 4)).
  { intros v Hv. destruct (region_fits bps v 0 bps 0x1b8 4) as [Hf Hd]; [done|lia|lia|lia|].
    destruct (wp_eval _ _ _ (read_data_spec 0 0x1b8 4 v ltac:(lia) ltac:(lia) Hf)) as (r & v' & Hr & _ & Hg).
    unfold read_windows_disk_signature, mbind, prog_bind. rewrite Hr.
    rewrite Hg; [done|apply Hv|done]. }
  rewrite (Hval w Hw), (Hval w' Hw'). f_equal. apply list_fmap_ext. intros i j Hj.
  apply lookup_seq in Hj. apply Hsame. lia.
Qed.

(** Writing any of the fourteen master boot records on a disk with sectors of [n] times
    512 bytes: the call returns 1, the record is recognised afterwards, every
    512 bytes of the first sector end in the boot mark, the partition table and
    all the other sectors keep their bytes, and so does, but for the zeroed
    record, the disk signature. *)
Lemma mbr_roundtrip k (n : nat) bps w :
  bps = 0x200 * Z.of_nat n -> (0 < n)%nat -> region bps w 0 bps ->
  exists w1 w2,
    write_mbr k 0 w = (true, w1) /\ is_mbr k 0 w1 = (true, w2) /\
    (forall j, (j < n)%nat -> bytes_at (content w2) (0x1FE + 0x200 * Z.of_nat j) 2 = [0x55; 0xAA]) /\
    (forall z, 0x1be <= z < 0x1fe \/ bps <= z -> content w2 z = content w z) /\
    (k ≠ MbrZero -> (read_windows_disk_signature 0 w2).1 = (read_windows_disk_signature 0 w).1).
Proof.
  intros Hbps Hn Hreg.
  destruct (wp_eval _ _ _ (write_mbr_stores k 0 bps n ltac:(done) Hbps Hn w Hreg))
    as (r & w1 & Hw1 & -> & Hk1 & Hc1).
  pose proof (region_keeps _ _ _ _ _ Hk1 Hreg) as Hreg1.
  assert (Hps : has_pieces (content w1) 0 (mbr_pieces k n))
    by (eapply has_pieces_proper; [by symmetry|apply has_pieces_mbr]).
  assert (Hsub : forall j, (j < n)%nat -> has_piece (content w1) 0 (mark j)).
  { intros j Hj. eapply Forall_forall; [apply Hps|]. apply elem_of_app. right.
    apply list_elem_of_fmap. exists j. split; [done|]. apply elem_of_seq. lia. }
  destruct (checks_pass bps 0 bps _ _ w1 (is_mbr_checks k 0 bps ltac:(done) ltac:(lia)) Hreg1)
    as (w2 & Hw2 & Hl2).
  { eapply has_pieces_covered; [apply mbr_checked_covered|]. apply Forall_app. split.
    - by apply Forall_app in Hps as [? _].
    - constructor; [|constructor]. by apply Hsub. }
  assert (Hout : forall z, outside (mbr_pieces k n) z -> content w2 z = content w z).
  { intros z Hz. rewrite (proj2 Hl2), (Hc1 z). apply patches_outside. by rewrite Z.sub_0_r. }
  exists w1, w2. split_and!; [done|done|..].
  - intros j Hj. rewrite (proj2 Hl2). specialize (Hsub j Hj). unfold has_piece in Hsub.
    cbn [fst snd mark length] in Hsub. by rewrite Z.add_0_r in Hsub.
  - intros z Hz. apply Hout, mbr_pieces_outside; [|done]. case_bool_decide; lia.
  - intros Hk. apply (disk_signature_eq bps); [done| |lia|].
    + eapply region_keeps; [apply Hl2|done].
    + intros z Hz. apply Hout, mbr_pieces_outside; [|done]. rewrite bool_decide_false by done. lia.
Qed.
End props.

(** On the sample volume taken as a disk of 4096-byte sectors. *)
Definition sample_disk_4k : world mem_disk :=
  mkWorld (mkMem (fun z => z mod 251) 32768 4096 0 [] 0 0xCD) 0 0 false 4096.

Lemma mbr_roundtrip_witness :
  exists w1 w2,
    write_mbr MbrRufus 0 sample_disk_4k = (true, w1) /\ is_mbr MbrRufus 0 w1 = (true, w2) /\
    (forall j, (j < 8)%nat -> bytes_at (content w2) (0x1FE + 0x200 * Z.of_nat j) 2 = [0x55; 0xAA]) /\
    (forall z, 0x1be <= z < 0x1fe \/ 4096 <= z -> content w2 z = content sample_disk_4k z) /\
    (MbrRufus ≠ MbrZero ->
       (read_windows_disk_signature 0 w2).1 = (read_windows_disk_signature 0 sample_disk_4k).1).
Proof.
  apply (mbr_roundtrip MbrRufus 8 4096 sample_disk_4k); [reflexivity|lia|].
  unfold region, MAX_DATA_LEN. cbn. split_and!; try done; try lia; first [by exists 1|by exists 0].
Defined.
