(* ===== verification/Format.v ===== *)
(** Format: the sectors that formatting writes outside the file system, from
    src/src/format.c: clearing the partition tables, the master, secondary and
    partition boot records. The choices of the user and what was found in the
    image are a record [settings]; the world is that of the handle the function
    is given. *)

From S2P Require Import Prelude Disk BootRecords.

#[local] Open Scope prog_scope.

(** ** rufus.h *)

Definition KB : Z := 1024.
Definition MB : Z := 1048576.
Definition MAX_SECTORS_TO_CLEAR : Z := 128.
Definition ERROR_NOT_ENOUGH_MEMORY : Z := 8.
Definition ERROR_READ_FAULT : Z := 30.
Definition ERROR_CANCELLED : Z := 1223.

Inductive fs_type :=
  | FS_UNKNOWN | FS_FAT16 | FS_FAT32 | FS_NTFS | FS_UDF | FS_EXFAT | FS_REFS
  | FS_EXT2 | FS_EXT3 | FS_EXT4 | FS_MAX.
Inductive boot_type :=
  | BT_NON_BOOTABLE | BT_MSDOS | BT_FREEDOS | BT_IMAGE | BT_SYSLINUX_V4 | BT_SYSLINUX_V6
  | BT_REACTOS | BT_GRUB4DOS | BT_GRUB2 | BT_UEFI_NTFS | BT_MAX.
Inductive target_type := TT_BIOS | TT_UEFI | TT_MAX.
Inductive partition_style := PARTITION_STYLE_MBR | PARTITION_STYLE_GPT | PARTITION_STYLE_SFD.

#[export] Instance fs_type_eq_dec : EqDecision fs_type.
Proof. solve_decision. Defined.
#[export] Instance boot_type_eq_dec : EqDecision boot_type.
Proof. solve_decision. Defined.
#[export] Instance target_type_eq_dec : EqDecision target_type.
Proof. solve_decision. Defined.
#[export] Instance partition_style_eq_dec : EqDecision partition_style.
Proof. solve_decision. Defined.

(** What the scan of the image found ([RUFUS_IMG_REPORT]). *)
Record image_report := mkReport {
  winpe : Z;
  has_bootmgr : bool;
  has_bootmgr_efi : bool;
  has_grub4dos : bool;
  has_grub2 : bool;
  has_kolibrios : bool;
  uses_minint : bool;
  sl_version : Z;
}.

(** The part of [SelectedDrive] and of the globals that is used here;
    [fs_selected] is the item of the file system list and [global_fs_type] the
    variable [fs_type]. *)
Record settings := mkSettings {
  SectorSize : Z;
  FirstDataSector : Z;
  Partition0_Offset : Z;
  partition_type : partition_style;
  boot : boot_type;
  target : target_type;
  fs_selected : fs_type;
  global_fs_type : fs_type;
  actual_fs_type : fs_type;
  img_report : image_report;
  allow_dual_uefi_bios : bool;
  use_rufus_mbr : bool;
}.

Definition HAS_KOLIBRIOS (r : image_report) : bool := has_kolibrios r.
Definition HAS_SYSLINUX (r : image_report) : bool := bool_decide (sl_version r ≠ 0).
Definition HAS_BOOTMGR (r : image_report) : bool := orb (has_bootmgr r) (has_bootmgr_efi r).
Definition HAS_WINPE (r : image_report) : bool :=
  orb (bool_decide (Z.land (winpe r) 0x0007 = 0x0007))
    (orb (bool_decide (Z.land (winpe r) 0x0023 = 0x0023)) (bool_decide (Z.land (winpe r) 0x01C0 = 0x01C0))).
Definition HAS_WINDOWS (r : image_report) : bool := orb (HAS_BOOTMGR r) (orb (uses_minint r) (HAS_WINPE r)).
Definition IS_FAT (fs : fs_type) : bool := orb (bool_decide (fs = FS_FAT16)) (bool_decide (fs = FS_FAT32)).

(** [IS_ERROR(ErrorStatus) && SCODE_CODE(ErrorStatus) == ERROR_CANCELLED] *)
Definition IS_ERROR (status : Z) : bool := Z.testbit status 31.
Definition user_cancel (status : Z) : bool :=
  andb (IS_ERROR status) (bool_decide (SCODE_CODE status = ERROR_CANCELLED)).

Definition fail {D A} (err : Z) (a : A) : prog D A :=
  _ ← modify (set_ErrorStatus (RUFUS_ERROR err)); mret a.

Section format.
Context {D : Type} `{Os D} (s : settings).

(** ** Clearing the partition tables *)

(** [None]: the second write reads [MAX_SECTORS_TO_CLEAR] sectors from a block
    that is shorter, which is undefined. *)
Definition ClearMBRGPT (DiskSize : Z) (sector_size : Z) (add1MB : bool) : prog D (option bool) :=
  let most := u32 ((if add1MB then 2048 else 0) + MAX_SECTORS_TO_CLEAR) in
  let num_sectors_to_clear := Z.min (FirstDataSector s) most in
  let num_sectors_to_clear := if bool_decide (num_sectors_to_clear < 4) then most else num_sectors_to_clear in
  pZeroBuf ← call (calloc (sector_size * num_sectors_to_clear));
  match pZeroBuf with
  | None => fail ERROR_NOT_ENOUGH_MEMORY (Some false)
  | Some pZeroBuf =>
      _ ← call (SetFilePointerEx 0 FILE_BEGIN);
      r ← WriteFileWithRetry (take (Z.to_nat (u32 (sector_size * num_sectors_to_clear))) pZeroBuf) WRITE_RETRIES;
      if negb (fst r) then mret (Some false)
      else
        status ← gets ErrorStatus;
        if user_cancel status then mret (Some false)
        else
          p ← call (SetFilePointerEx (DiskSize - sector_size * MAX_SECTORS_TO_CLEAR) FILE_BEGIN);
          match p with
          | None => mret (Some true)
          | Some _ =>
              let n := Z.to_nat (u32 (sector_size * MAX_SECTORS_TO_CLEAR)) in
              if bool_decide (length pZeroBuf < n)%nat then mret None
              else
                _ ← WriteFileWithRetry (take n pZeroBuf) WRITE_RETRIES;
                mret (Some true)
          end
  end.

(** ** The master boot record *)

Definition needs_masquerading : bool := andb (HAS_WINPE (img_report s)) (negb (uses_minint (img_report s))).

(** The label [windows_mbr]. *)
Definition windows_mbr : prog D bool :=
  if orb needs_masquerading (use_rufus_mbr s) then write_rufus_mbr 0 else write_win7_mbr 0.

(** From the comment on the case statement with complex conditions on. *)
Definition write_selected_mbr : prog D bool :=
  let image := bool_decide (boot s = BT_IMAGE) in
  let r := img_report s in
  if andb image (andb (HAS_WINDOWS r) (andb (allow_dual_uefi_bios s) (bool_decide (target s = TT_BIOS))))
  then windows_mbr
  else if orb (bool_decide (boot s = BT_NON_BOOTABLE)) (bool_decide (target s = TT_UEFI))
  then write_zero_mbr 0
  else if orb (bool_decide (boot s = BT_SYSLINUX_V4)) (orb (bool_decide (boot s = BT_SYSLINUX_V6))
            (andb image (HAS_SYSLINUX r)))
  then write_syslinux_mbr 0
  else if orb (andb image (has_grub2 r)) (bool_decide (boot s = BT_GRUB2)) then write_grub2_mbr 0
  else if orb (andb image (has_grub4dos r)) (bool_decide (boot s = BT_GRUB4DOS)) then write_grub4dos_mbr 0
  else if bool_decide (boot s = BT_REACTOS) then write_reactos_mbr 0
  else if andb image (andb (HAS_KOLIBRIOS r) (IS_FAT (global_fs_type s))) then write_kolibrios_mbr 0
  else windows_mbr.

(** The partition entry that the function corrects in the buffer. *)
Definition patch_partition_entry (buffer : list Z) : list Z :=
  let buffer := match fs_selected s with
                | FS_FAT16 => <[450%nat := 0x0e]> buffer
                | FS_FAT32 => <[450%nat := 0x0c]> buffer
                | _ => buffer
                end in
  if andb (negb (bool_decide (boot s = BT_NON_BOOTABLE))) (bool_decide (target s = TT_BIOS))
  then <[446%nat := if needs_masquerading then 0x81 else 0x80]> buffer else buffer.

Definition WriteMBR : prog D bool :=
  let sector_size := SectorSize s in
  if bool_decide (sector_size < 512) then mret false
  else if bool_decide (partition_type s = PARTITION_STYLE_GPT) then
    _ ← set_bytes_per_sector sector_size;
    write_rufus_msg_mbr 0
  else
    buffer ← call (mm_malloc sector_size);
    match buffer with
    | None => fail ERROR_NOT_ENOUGH_MEMORY false
    | Some buffer =>
        rd ← read_sectors sector_size 0 1 buffer;
        let '(size, buffer) := rd in
        if bool_decide (size = 0) then fail ERROR_READ_FAULT false
        else
          written ← write_sectors sector_size 0 1 (patch_partition_entry buffer);
          if bool_decide (written = 0) then fail ERROR_WRITE_FAULT false
          else
            _ ← set_bytes_per_sector sector_size;
            write_selected_mbr
    end.

(** ** The secondary boot record *)

(** [GetResource] of stdfn.c: [res] is the resource that the system finds, [len] is
    [*len] on entry. The result is the block that is returned and [*len] on
    return. *)
Definition GetResource (res : option (list Z)) (len : Z) (duplicate : bool)
    : prog D (option (list Z) * Z) :=
  match res with
  | None => mret (None, len)
  | Some res =>
      let res_len := sizeof res in
      if duplicate then
        let len := if bool_decide (len = 0) then res_len else len in
        p ← call (calloc len);
        match p with
        | None => mret (None, len)
        | Some p => mret (Some (splice 0 (take (Z.to_nat (Z.min res_len len)) res) p), res_len)
        end
      else mret (Some res, res_len)
  end.

Context (grldr_mbr core_img sbr_msg : option (list Z)).

(** The end of the function, with its [buf], [size] and [br_size]: its result and
    [grub2_buf], which is freed after the write. The result is [None] when
    [write_data] would read past [buf]. *)
Definition write_sbr_data (buf : list Z) (size br_size : Z) (grub2_buf : option (list Z))
    : prog D (option bool * option (list Z)) :=
  if bool_decide (u32 (br_size + size) > u32 (Partition0_Offset s)) then mret (Some false, grub2_buf)
  else if bool_decide (sizeof buf < size) then mret (None, None)
  else r ← write_data 0 br_size buf size; mret (Some r, None).

(** The choice of the secondary boot record. *)
Definition sbr_type : boot_type :=
  if andb (negb (bool_decide (boot s = BT_NON_BOOTABLE)))
       (bool_decide (partition_type s = PARTITION_STYLE_GPT))
  then BT_MAX
  else if andb (bool_decide (boot s = BT_IMAGE)) (negb (HAS_SYSLINUX (img_report s))) then
    if has_grub2 (img_report s) then BT_GRUB2
    else if has_grub4dos (img_report s) then BT_GRUB4DOS else boot s
  else boot s.

(** The result is the BOOL and [grub2_buf] on return. *)
Definition WriteSBR (grub2_buf : option (list Z)) : prog D (option bool * option (list Z)) :=
  let br_size := 0x200 in
  _ ← set_bytes_per_sector (SectorSize s);
  match sbr_type with
  | BT_GRUB4DOS =>
      r ← GetResource grldr_mbr 0 false;
      match r with
      | (Some buf, size) =>
          if bool_decide (size <= br_size) then mret (Some false, grub2_buf)
          else write_sbr_data (drop (Z.to_nat br_size) buf) (size - br_size) br_size grub2_buf
      | (None, _) => mret (Some false, grub2_buf)
      end
  | BT_GRUB2 =>
      r ← (match grub2_buf with
           | Some buf => mret (Some buf, sizeof buf)
           | None => GetResource core_img 0 false
           end);
      match r with
      | (Some buf, size) => write_sbr_data buf size br_size grub2_buf
      | (None, _) => mret (Some false, grub2_buf)
      end
  | BT_MAX =>
      r ← GetResource sbr_msg (4 * KB) true;
      match r with
      | (Some buf, size) => write_sbr_data buf size (17 * KB) grub2_buf
      | (None, _) => mret (Some false, grub2_buf)
      end
  | _ => mret (Some true, grub2_buf)
  end.

(** ** The partition boot record *)

(** The boot sector that one turn of the FAT32 loop writes. *)
Definition write_selected_fat32_br (offset : Z) : prog D bool :=
  let image := bool_decide (boot s = BT_IMAGE) in
  let r := img_report s in
  if bool_decide (boot s = BT_FREEDOS) then write_fat_32_fd_br offset false
  else if bool_decide (boot s = BT_REACTOS) then write_fat_32_ros_br offset false
  else if andb image (HAS_KOLIBRIOS r) then write_fat_32_kos_br offset false
  else if andb image (HAS_BOOTMGR r) then write_fat_32_pe_br offset false
  else if andb image (HAS_WINPE r) then write_fat_32_nt_br offset false
  else write_fat_32_br offset false.

(** The loop over the primary and the secondary boot sector: [turns] remain. A
    [break] of the source only leaves this loop. *)
Fixpoint fat32_pbr_loop (turns : nat) (offset : Z) : prog D () :=
  match turns with
  | O => mret ()
  | S turns =>
      ok ← is_fat_32_fs offset && write_selected_fat32_br offset &&
           write_partition_physical_disk_drive_id_fat32 offset;
      if ok : bool then fat32_pbr_loop turns (u64 (offset + u32 (6 * SectorSize s))) else mret ()
  end.

Definition fat16_pbr : prog D bool :=
  is_fat_16_fs 0 &&
  (if bool_decide (boot s = BT_FREEDOS) then write_fat_16_fd_br 0 false
   else if bool_decide (boot s = BT_REACTOS) then write_fat_16_ros_br 0 false
   else if andb (bool_decide (boot s = BT_IMAGE)) (HAS_KOLIBRIOS (img_report s)) then mret false
   else write_fat_16_br 0 false) &&
  write_partition_physical_disk_drive_id_fat16 0.

Definition WritePBR : prog D bool :=
  _ ← set_bytes_per_sector (SectorSize s);
  ok ← (match actual_fs_type s with
        | FS_FAT16 => fat16_pbr
        | FS_FAT32 => _ ← fat32_pbr_loop 2 0; mret true
        | FS_NTFS => is_ntfs_fs 0 && write_ntfs_br 0
        | FS_EXT2 | FS_EXT3 | FS_EXT4 => mret true
        | _ => mret false
        end);
  if ok : bool then mret true else fail ERROR_WRITE_FAULT false.
End format.
