(* ===== verification/Fat32.v ===== *)
(** Fat32: formatting a large FAT32 volume, src/src/format_fat32.c.

    The computation of the layout, the structures that are written, and
    [FormatLargeFAT32] itself. What the system tells of the volume and the time
    is the class [VolumeOs]; opening and locking the volume, dismounting it and
    setting its label (drive.c) are arguments. *)

From S2P Require Import Prelude Disk BootRecords Format.

(** ** The structures on the disk *)

Record FAT_BOOTSECTOR32 := mkBootSector {
  sJmpBoot : list Z;
  sOEMName : list Z;
  wBytsPerSec : Z;
  bSecPerClus : Z;
  wRsvdSecCnt : Z;
  bNumFATs : Z;
  wRootEntCnt : Z;
  wTotSec16 : Z;
  bMedia : Z;
  wFATSz16 : Z;
  wSecPerTrk : Z;
  wNumHeads : Z;
  dHiddSec : Z;
  dTotSec32 : Z;
  dFATSz32 : Z;
  wExtFlags : Z;
  wFSVer : Z;
  dRootClus : Z;
  wFSInfo : Z;
  wBkBootSec : Z;
  bs_Reserved : list Z;
  bDrvNum : Z;
  bs_Reserved1 : Z;
  bBootSig : Z;
  dBS_VolID : Z;
  sVolLab : list Z;
  sBS_FilSysType : list Z;
}.

(** The packed bytes of the structure. *)
Definition boot_sector_bytes (b : FAT_BOOTSECTOR32) : list Z :=
  sJmpBoot b ++ sOEMName b ++ le_bytes 2 (wBytsPerSec b) ++ le_bytes 1 (bSecPerClus b) ++
  le_bytes 2 (wRsvdSecCnt b) ++ le_bytes 1 (bNumFATs b) ++ le_bytes 2 (wRootEntCnt b) ++
  le_bytes 2 (wTotSec16 b) ++ le_bytes 1 (bMedia b) ++ le_bytes 2 (wFATSz16 b) ++
  le_bytes 2 (wSecPerTrk b) ++ le_bytes 2 (wNumHeads b) ++ le_bytes 4 (dHiddSec b) ++
  le_bytes 4 (dTotSec32 b) ++ le_bytes 4 (dFATSz32 b) ++ le_bytes 2 (wExtFlags b) ++
  le_bytes 2 (wFSVer b) ++ le_bytes 4 (dRootClus b) ++ le_bytes 2 (wFSInfo b) ++
  le_bytes 2 (wBkBootSec b) ++ bs_Reserved b ++ le_bytes 1 (bDrvNum b) ++
  le_bytes 1 (bs_Reserved1 b) ++ le_bytes 1 (bBootSig b) ++ le_bytes 4 (dBS_VolID b) ++
  sVolLab b ++ sBS_FilSysType b.

Record FAT_FSINFO := mkFsInfo {
  dLeadSig : Z;
  dStrucSig : Z;
  dFree_Count : Z;
  dNxt_Free : Z;
  dTrailSig : Z;
}.

Definition fsinfo_bytes (f : FAT_FSINFO) : list Z :=
  le_bytes 4 (dLeadSig f) ++ replicate 480 0 ++ le_bytes 4 (dStrucSig f) ++
  le_bytes 4 (dFree_Count f) ++ le_bytes 4 (dNxt_Free f) ++ replicate 12 0 ++ le_bytes 4 (dTrailSig f).

(** ** Volume serial number and size of the FAT *)

Record SYSTEMTIME := mkTime {
  wYear : Z; wMonth : Z; wDay : Z; wHour : Z; wMinute : Z; wSecond : Z; wMilliseconds : Z;
}.

Definition GetVolumeID (t : SYSTEMTIME) : Z :=
  let lo := u16 (wDay t + Z.shiftl (wMonth t) 8) in
  let tmp := u16 (wMilliseconds t / 10 + Z.shiftl (wSecond t) 8) in
  let lo := u16 (lo + tmp) in
  let hi := u16 (wMinute t + Z.shiftl (wHour t) 8) in
  let hi := u16 (hi + wYear t) in
  u32 (lo + Z.shiftl hi 16).

Definition GetFATSizeSectors (DskSize ReservedSecCnt SecPerClus NumFATs BytesPerSect : Z) : Z :=
  let FatElementSize := 4 in
  let ReservedClusCnt := 2 in
  let Numerator := u64 (u32 (DskSize - ReservedSecCnt) + u64 (ReservedClusCnt * SecPerClus)) in
  let Denominator := u64 (u64 (SecPerClus * BytesPerSect) / FatElementSize + NumFATs) in
  let FatSz := u64 (Numerator / Denominator + 1) in
  u32 FatSz.

(** ** The layout *)

Definition GB : Z := 1073741824.
Definition TB : Z := 1099511627776.
Definition NumFATs : Z := 2.
Definition BackupBootSect : Z := 6.
Definition BurstSize : Z := 128.

Record geometry := mkGeometry { BytesPerSector : Z; SectorsPerTrack : Z; TracksPerCylinder : Z }.
Record partition_information := mkPartition { StartingOffset : Z; PartitionLength : Z; HiddenSectors : Z }.

Definition default_cluster_size (PartitionLength : Z) : Z :=
  if bool_decide (PartitionLength < 64 * MB) then 512
  else if bool_decide (PartitionLength < 128 * MB) then 1 * KB
  else if bool_decide (PartitionLength < 256 * MB) then 2 * KB
  else if bool_decide (PartitionLength < 8 * GB) then 4 * KB
  else if bool_decide (PartitionLength < 16 * GB) then 8 * KB
  else if bool_decide (PartitionLength < 32 * GB) then 16 * KB
  else if bool_decide (PartitionLength < 2 * TB) then 32 * KB
  else 64 * KB.

(** The variables of [FormatLargeFAT32] that are computed before anything is
    written. *)
Record layout := mkLayout {
  BytesPerSect : Z;
  SectorsPerCluster : Z;
  TotalSectors : Z;
  FatSize : Z;
  ReservedSectCount : Z;
  UserAreaSize : Z;
}.

Definition compute_layout (bps PartitionLength ClusterSize : Z) : layout :=
  let SectorsPerCluster := u32 (ClusterSize / bps) in
  let TotalSectors := u32 (PartitionLength / bps) in
  let FatSize := GetFATSizeSectors TotalSectors 0 (u8 SectorsPerCluster) (u8 NumFATs) bps in
  let SystemAreaSize := u32 (32 + u32 (NumFATs * FatSize)) in
  let AlignSectors := u32 (1 * MB / bps) in
  let SystemAreaSize := u32 (u32 (SystemAreaSize + AlignSectors - 1) / AlignSectors * AlignSectors) in
  let ReservedSectCount := u32 (SystemAreaSize - u32 (NumFATs * FatSize)) in
  let UserAreaSize := u32 (u32 (TotalSectors - ReservedSectCount) - u32 (NumFATs * FatSize)) in
  mkLayout bps SectorsPerCluster TotalSectors FatSize ReservedSectCount UserAreaSize.

Definition ClusterCount (l : layout) : Z := UserAreaSize l / SectorsPerCluster l.
Definition FatNeeded (l : layout) : Z := (ClusterCount l * 4 + (BytesPerSect l - 1)) / BytesPerSect l.

(** The sectors that are cleared: reserved sectors, FATs and root cluster. *)
Definition SystemAreaSize (l : layout) : Z :=
  u32 (u32 (ReservedSectCount l + u32 (NumFATs * FatSize l)) + SectorsPerCluster l).

(** ** What is written *)

Definition no_name : list Z := [0x4e; 0x4f; 0x20; 0x4e; 0x41; 0x4d; 0x45; 0x20; 0x20; 0x20; 0x20].

Definition boot_sector (l : layout) (g : geometry) (hidden VolumeId : Z) : FAT_BOOTSECTOR32 := {|
  sJmpBoot := [0xEB; 0x58; 0x90];
  sOEMName := [0x4d; 0x53; 0x57; 0x49; 0x4e; 0x34; 0x2e; 0x31]; (* MSWIN4.1 *)
  wBytsPerSec := u16 (BytesPerSect l);
  bSecPerClus := u8 (SectorsPerCluster l);
  wRsvdSecCnt := u16 (ReservedSectCount l);
  bNumFATs := u8 NumFATs;
  wRootEntCnt := 0;
  wTotSec16 := 0;
  bMedia := 0xF8;
  wFATSz16 := 0;
  wSecPerTrk := u16 (SectorsPerTrack g);
  wNumHeads := u16 (TracksPerCylinder g);
  dHiddSec := u32 hidden;
  dTotSec32 := TotalSectors l;
  dFATSz32 := FatSize l;
  wExtFlags := 0;
  wFSVer := 0;
  dRootClus := 2;
  wFSInfo := 1;
  wBkBootSec := u16 BackupBootSect;
  bs_Reserved := replicate 12 0;
  bDrvNum := 0x80;
  bs_Reserved1 := 0;
  bBootSig := 0x29;
  dBS_VolID := VolumeId;
  sVolLab := no_name;
  sBS_FilSysType := [0x46; 0x41; 0x54; 0x33; 0x32; 0x20; 0x20; 0x20]; (* FAT32 *)
|}.

(** The structure at the start of the zeroed block, and the boot marks. *)
Definition fill_boot_sector (l : layout) (g : geometry) (hidden VolumeId : Z) (block : list Z) : list Z :=
  let block := splice 0 (boot_sector_bytes (boot_sector l g hidden VolumeId)) block in
  let block := <[510%nat := 0x55]> (<[511%nat := 0xaa]> block) in
  if bool_decide (BytesPerSect l ≠ 512) then
    <[Z.to_nat (BytesPerSect l - 2) := 0x55]> (<[Z.to_nat (BytesPerSect l - 1) := 0xaa]> block)
  else block.

Definition fill_fsinfo (l : layout) (block : list Z) : list Z :=
  splice 0 (fsinfo_bytes {|
    dLeadSig := 0x41615252;
    dStrucSig := 0x61417272;
    dFree_Count := u32 (ClusterCount l - 1);
    dNxt_Free := 3;
    dTrailSig := 0xaa550000 |}) block.

Definition fill_first_fat_sector (block : list Z) : list Z :=
  splice 0 (le_bytes 4 0x0ffffff8 ++ le_bytes 4 0x0fffffff ++ le_bytes 4 0x0fffffff) block.

(** ** FormatLargeFAT32 *)

(** [DeviceIoControl] on the volume, the clock, and the cancellation by the user,
    which another thread signals through [ErrorStatus]. *)
Class VolumeOs (D : Type) := {
  GET_DRIVE_GEOMETRY : D -> option geometry * D;
  GET_DRIVE_GEOMETRY_EX : D -> option geometry * D;
  GET_PARTITION_INFO : D -> option partition_information * D;
  GET_PARTITION_INFO_EX : D -> option partition_information * D;
  GetLocalTime : D -> SYSTEMTIME * D;
  cancel_pressed : D -> bool * D;
}.

Definition APPERR (err : Z) : Z := Z.lor 0x20000000 err.
Definition ERROR_INVALID_HANDLE : Z := 6.
Definition ERROR_NOT_SUPPORTED : Z := 50.
Definition ERROR_INVALID_PARAMETER : Z := 87.
Definition ERROR_INVALID_CLUSTER_SIZE : Z := 0x1203.
Definition ERROR_INVALID_VOLUME_SIZE : Z := 0x1204.

(** How the function ends: its BOOL, or a failed assertion. *)
Inductive fmt_result := Formatted (ok : bool) | AssertFailed.

Inductive clear_result := Cleared | ClearCancelled | ClearFault.

Section format.
Context {D : Type} `{Os D} `{VolumeOs D} (s : settings).

(** drive.c: [GetLogicalHandle] or [AltGetLogicalHandle] (whether the handle is
    valid; they may set [ErrorStatus]), [UnmountVolume], and closing the handle
    to set the label. *)
Context (open_volume : prog D bool) (unmount_volume set_label : prog D ()).

Definition die (err : Z) : prog D fmt_result := fail err (Formatted false).

(** The user's cancellation becomes visible in [ErrorStatus]. *)
Definition poll_cancel : prog D () :=
  c ← call cancel_pressed;
  if c : bool then modify (set_ErrorStatus (RUFUS_ERROR ERROR_CANCELLED)) else mret ().

(** The loop that clears the system area, from sector [i] on. *)
Fixpoint clear_loop (fuel : nat) (bps area : Z) (pZeroSect : list Z) (i : Z) : prog D clear_result :=
  match fuel with
  | O => mret Cleared
  | S fuel =>
      if bool_decide (i < u32 (area + BurstSize - 1)) then
        _ ← poll_cancel;
        status ← gets ErrorStatus;
        if user_cancel status then mret ClearCancelled
        else
          n ← write_sectors bps i BurstSize pZeroSect;
          if bool_decide (n ≠ u32 (bps * BurstSize)) then mret ClearFault
          else clear_loop fuel bps area pZeroSect (u32 (i + BurstSize))
      else mret Cleared
  end.

(** One turn per burst and the last test; an area that is not a multiple of the
    burst takes up to two more. *)
Definition clear_fuel (area : Z) : nat := (3 + Z.to_nat (area / BurstSize))%nat.

(** [SectorStart], an int. *)
Definition fat_start (l : layout) (i : Z) : Z :=
  u64 (s32 (u32 (ReservedSectCount l + u32 (i * FatSize l)))).

(** The boot and file system information sectors twice, then the first sector of
    each FAT; the results of the writes are not looked at. *)
Definition write_structures (l : layout) (boot fsinfo fat : list Z) : prog D () :=
  let bps := BytesPerSect l in
  _ ← write_sectors bps 0 1 boot;
  _ ← write_sectors bps (0 + 1) 1 fsinfo;
  _ ← write_sectors bps BackupBootSect 1 boot;
  _ ← write_sectors bps (BackupBootSect + 1) 1 fsinfo;
  _ ← write_sectors bps (fat_start l 0) 1 fat;
  _ ← write_sectors bps (fat_start l 1) 1 fat;
  mret ().

(** From the allocation of the zero block on. *)
Definition write_volume (l : layout) (boot fsinfo fat : list Z) (no_boot : bool) : prog D fmt_result :=
  let bps := BytesPerSect l in
  pZeroSect ← call (calloc (bps * BurstSize));
  match pZeroSect with
  | None => die ERROR_NOT_ENOUGH_MEMORY
  | Some pZeroSect =>
      let area := SystemAreaSize l in
      c ← clear_loop (clear_fuel area) bps area pZeroSect 0;
      match c with
      | ClearCancelled => mret (Formatted false)
      | ClearFault => die ERROR_WRITE_FAULT
      | Cleared =>
          _ ← write_structures l boot fsinfo fat;
          _ ← (if no_boot : bool then mret () else _ ← WritePBR s; mret ());
          _ ← set_label;
          mret (Formatted true)
      end
  end.

(** The sanity checks on the layout, then the writes. *)
Definition format_with (l : layout) (g : geometry) (p : partition_information) (VolumeId : Z)
    (no_boot : bool) (boot fsinfo fat : list Z) : prog D fmt_result :=
  if bool_decide (SectorsPerCluster l <= 0) then mret AssertFailed
  else if bool_decide (ClusterCount l > 0x0FFFFFFF) then die ERROR_INVALID_CLUSTER_SIZE
  else if bool_decide (ClusterCount l < 65536) then die ERROR_INVALID_CLUSTER_SIZE
  else if bool_decide (FatNeeded l > FatSize l) then die (APPERR ERROR_INVALID_VOLUME_SIZE)
  else
    write_volume l (fill_boot_sector l g (HiddenSectors p) VolumeId boot) (fill_fsinfo l fsinfo)
      (fill_first_fat_sector fat) no_boot.

(** The geometry and the partition, with the fallbacks; a failure is [None]. *)
Definition read_geometry : prog D (option geometry) :=
  g ← call GET_DRIVE_GEOMETRY;
  g ← (match g with Some _ => mret g | None => call GET_DRIVE_GEOMETRY_EX end);
  mret ((fun g => mkGeometry (if bool_decide (BytesPerSector g < 512) then 512 else BytesPerSector g)
                    (SectorsPerTrack g) (TracksPerCylinder g)) <$> g).

Definition read_partition (g : geometry) : prog D (option partition_information) :=
  p ← call GET_PARTITION_INFO;
  match p with
  | Some _ => mret p
  | None =>
      x ← call GET_PARTITION_INFO_EX;
      mret ((fun x => mkPartition (StartingOffset x) (PartitionLength x)
                        (u32 (StartingOffset x / BytesPerSector g))) <$> x)
  end.

Definition FAT : list Z := [0x46; 0x41; 0x54].

Definition FormatLargeFAT32 (ClusterSize : Z) (FSName : list Z) (no_boot : bool) : prog D fmt_result :=
  if negb (bool_decide (take 3 FSName = FAT)) then die ERROR_INVALID_PARAMETER
  else
    t ← call GetLocalTime;
    let VolumeId := GetVolumeID t in
    valid ← open_volume;
    status ← gets ErrorStatus;
    if IS_ERROR status then mret (Formatted false)
    else if negb valid then die ERROR_INVALID_HANDLE
    else
      _ ← unmount_volume;
      g ← read_geometry;
      match g with
      | None => die ERROR_NOT_SUPPORTED
      | Some g =>
          status ← gets ErrorStatus;
          if IS_ERROR status then mret (Formatted false)
          else
            p ← read_partition g;
            match p with
            | None => die ERROR_NOT_SUPPORTED
            | Some p =>
                status ← gets ErrorStatus;
                if IS_ERROR status then mret (Formatted false)
                else
                  let bps := BytesPerSector g in
                  let qTotalSectors := PartitionLength p / bps in
                  if bool_decide (qTotalSectors < 65536) then die (APPERR ERROR_INVALID_CLUSTER_SIZE)
                  else if bool_decide (qTotalSectors >= 0xffffffff)
                  then die (APPERR ERROR_INVALID_VOLUME_SIZE)
                  else
                    let ClusterSize := if bool_decide (ClusterSize = 0)
                                       then default_cluster_size (PartitionLength p) else ClusterSize in
                    boot ← call (calloc bps);
                    fsinfo ← call (calloc bps);
                    fat ← call (calloc bps);
                    match boot, fsinfo, fat with
                    | Some boot, Some fsinfo, Some fat =>
                        format_with (compute_layout bps (PartitionLength p) ClusterSize) g p VolumeId
                          no_boot boot fsinfo fat
                    | _, _, _ => die ERROR_NOT_ENOUGH_MEMORY
                    end
            end
      end.
End format.
