(* ===== verification/Fat32Layout.v ===== *)
(** Fat32Layout: the layout that [FormatLargeFAT32] computes (Fat32.v). *)

From S2P Require Import Prelude Disk Format Fat32.

(** A volume that passes the tests on its size, with sectors of 512 to 4096 bytes
    and clusters of 1 to 128 sectors. *)
Record volume_ok (bps PartitionLength ClusterSize : Z) : Prop := {
  vol_bps : bps = 512 \/ bps = 1024 \/ bps = 2048 \/ bps = 4096;
  vol_small : 65536 <= PartitionLength / bps;
  vol_big : PartitionLength / bps < 0xffffffff;
  vol_cluster : 1 <= ClusterSize / bps <= 128;
}.

Section layout.
Context (bps PartitionLength ClusterSize : Z) (Hvol : volume_ok bps PartitionLength ClusterSize).

Abbreviation T := (PartitionLength / bps).
Abbreviation spc := (ClusterSize / bps).

(** The number of sectors of a FAT, and of those before the data area, without the
    truncations of the code. *)
Definition fat_sectors : Z := (T + 2 * spc) / (spc * (bps / 4) + 2) + 1.
Definition align : Z := MB / bps.
Definition system_sectors : Z := (32 + 2 * fat_sectors + align - 1) / align * align.
Definition reserved_sectors : Z := system_sectors - 2 * fat_sectors.

Lemma sector_cases :
  bps = 4 * (bps / 4) /\ 128 <= bps / 4 <= 1024 /\ MB = align * bps /\ 256 <= align <= 2048.
Proof.
  unfold align, MB. destruct (vol_bps _ _ _ Hvol) as [->|[->|[->| ->]]]; vm_compute; repeat split; discriminate.
Qed.

Lemma fat_sectors_bounds :
  T + 2 * spc < fat_sectors * (spc * (bps / 4) + 2) <= T + 2 * spc + (spc * (bps / 4) + 2) /\
  1 <= fat_sectors /\ 130 * fat_sectors <= T + 386.
Proof.
  destruct sector_cases as (Hq & Hq2 & _). destruct Hvol as [_ Hs Hb Hc].
  unfold fat_sectors. set (d := spc * (bps / 4) + 2). assert (Hd : 130 <= d) by (unfold d; nia).
  pose proof (Z.div_mod (T + 2 * spc) d ltac:(lia)) as Hdm.
  pose proof (Z.mod_pos_bound (T + 2 * spc) d ltac:(lia)).
  assert (0 <= (T + 2 * spc) / d) by (apply Z.div_pos; lia).
  set (F := (T + 2 * spc) / d) in *. split_and!; nia.
Qed.

Lemma reserved_bounds :
  32 <= reserved_sectors < 32 + align /\ reserved_sectors + 2 * fat_sectors = system_sectors /\
  reserved_sectors + 2 * fat_sectors + 60000 <= T.
Proof.
  destruct sector_cases as (_ & _ & _ & Ha). destruct fat_sectors_bounds as (_ & Hf & Hf2).
  destruct Hvol as [_ Hs Hb Hc]. unfold reserved_sectors, system_sectors.
  set (x := 32 + 2 * fat_sectors + align - 1).
  pose proof (Z.div_mod x align ltac:(lia)). pose proof (Z.mod_pos_bound x align ltac:(lia)).
  assert (Hx : x / align * align = x - x mod align) by lia. rewrite Hx. unfold x in *. lia.
Qed.

Ltac small := rewrite uwrap_small by lia.

Lemma GetFATSizeSectors_eq : GetFATSizeSectors T 0 spc 2 bps = fat_sectors.
Proof.
  destruct sector_cases as (Hq & Hq2 & _). destruct fat_sectors_bounds as (_ & Hf & Hf2).
  destruct Hvol as [_ Hs Hb Hc]. unfold GetFATSizeSectors.
  assert (Hmul : spc * bps / 4 = spc * (bps / 4)).
  { rewrite <- (Z.div_mul (spc * (bps / 4)) 4) by lia. f_equal.
    clear -Hq. generalize spc. revert Hq. generalize (bps / 4). intros q Hq c. rewrite Hq. ring. }
  assert (Hsb : 0 <= spc * bps < 2 ^ 64) by nia.
  assert (Hsq : 0 <= spc * (bps / 4) < 2 ^ 40) by nia.
  rewrite (uwrap_small 64 (spc * bps)), Hmul, (uwrap_small 64 (spc * (bps / 4) + 2)) by lia.
  rewrite Z.sub_0_r, (uwrap_small 32 T), (uwrap_small 64 (2 * spc)), (uwrap_small 64 (T + _)) by lia.
  change (u32 (u64 fat_sectors) = fat_sectors). by rewrite !uwrap_small by (rewrite ?uwrap_small; lia).
Qed.

Lemma compute_layout_eq :
  compute_layout bps PartitionLength ClusterSize =
    mkLayout bps spc T fat_sectors reserved_sectors (T - reserved_sectors - 2 * fat_sectors).
Proof.
  destruct sector_cases as (Hq & Hq2 & Hmb & Ha). destruct fat_sectors_bounds as (_ & Hf & Hf2).
  destruct reserved_bounds as (Hr & Hrs & Hrt). destruct Hvol as [_ Hs Hb Hc].
  assert (Halign : 1 * MB / bps = align) by (unfold align; by rewrite Z.mul_1_l).
  unfold compute_layout. change (u8 NumFATs) with 2. change NumFATs with 2.
  rewrite Halign, (uwrap_small 32 spc), (uwrap_small 32 T), (uwrap_small 8 spc), GetFATSizeSectors_eq by lia.
  rewrite (uwrap_small 32 (2 * fat_sectors)), (uwrap_small 32 (32 + _)), (uwrap_small 32 align) by lia.
  rewrite (uwrap_small 32 (32 + 2 * fat_sectors + align - 1)) by lia.
  fold system_sectors. rewrite (uwrap_small 32 system_sectors) by lia.
  fold reserved_sectors. rewrite (uwrap_small 32 reserved_sectors) by lia.
  by rewrite (uwrap_small 32 (T - _)), (uwrap_small 32 (T - _ - _)) by lia.
Qed.

(** The data area starts at a multiple of 1 MB, and the whole of it is made of
    sectors of the volume. *)
Lemma system_aligned : (MB | system_sectors * bps).
Proof.
  destruct sector_cases as (_ & _ & Hmb & _).
  exists ((32 + 2 * fat_sectors + align - 1) / align). unfold system_sectors. rewrite Hmb. ring.
Qed.

(** A FAT has an entry of four bytes for each cluster and the two reserved ones. *)
Lemma fat_entries (cc : Z) :
  cc * spc <= T - system_sectors -> (cc + 2) * 4 <= fat_sectors * bps.
Proof.
  destruct sector_cases as (Hq & Hq2 & _). destruct fat_sectors_bounds as ([Hlow _] & Hf & _).
  destruct reserved_bounds as ([Hr _] & Hrs & _). destruct Hvol as [_ Hs Hb Hc]. intros Hcc.
  rewrite Hq. set (q := bps / 4) in *. enough (cc + 2 <= fat_sectors * q) by lia.
  assert (Hmul : (cc + 2) * spc < fat_sectors * q * spc + 1) by nia.
  nia.
Qed.
End layout.

(** The default cluster size has 1 to 128 sectors on any volume that is large
    enough. *)
Lemma default_cluster_ok bps PartitionLength :
  bps = 512 \/ bps = 1024 \/ bps = 2048 \/ bps = 4096 ->
  65536 <= PartitionLength / bps -> PartitionLength / bps < 0xffffffff ->
  volume_ok bps PartitionLength (default_cluster_size PartitionLength).
Proof.
  intros Hbps Hs Hb. constructor; [done..|].
  assert (Hlen : 65536 * bps <= PartitionLength)
    by (pose proof (Z.mul_div_le PartitionLength bps ltac:(lia)); nia).
  unfold default_cluster_size, MB, GB, TB, KB in *.
  repeat case_bool_decide; destruct Hbps as [->|[->|[->| ->]]]; try lia;
    vm_compute; split; discriminate.
Qed.

(** The cluster size that [FormatLargeFAT32] works with. *)
Definition cluster_size (ClusterSize PartitionLength : Z) : Z :=
  if bool_decide (ClusterSize = 0) then default_cluster_size PartitionLength else ClusterSize.

(** What the checks of [FormatLargeFAT32] look at. *)
Lemma layout_counts bps PartitionLength cs :
  volume_ok bps PartitionLength cs ->
  let l := compute_layout bps PartitionLength cs in
  let system := ReservedSectCount l + 2 * FatSize l in
  0 <= UserAreaSize l /\ system + UserAreaSize l = PartitionLength / bps /\
  system + ClusterCount l * SectorsPerCluster l <= PartitionLength / bps /\
  (ClusterCount l + 2) * 4 <= FatSize l * bps.
Proof.
  intros Hvol l system.
  pose proof (sector_cases _ _ _ Hvol) as (_ & _ & _ & Ha).
  pose proof (reserved_bounds _ _ _ Hvol) as (Hr & Hrs & Hrt). pose proof (vol_cluster _ _ _ Hvol) as Hspc.
  pose proof (fat_entries _ _ _ Hvol) as Hent.
  unfold system, l, ClusterCount. rewrite (compute_layout_eq _ _ _ Hvol).
  cbn [SectorsPerCluster ReservedSectCount FatSize UserAreaSize].
  set (F := fat_sectors _ _ _) in *. set (R := reserved_sectors _ _ _) in *.
  set (S := system_sectors _ _ _) in *. set (U := PartitionLength / bps - R - 2 * F).
  assert (Hdiv : U / (cs / bps) * (cs / bps) <= U) by (rewrite Z.mul_comm; apply Z.mul_div_le; lia).
  specialize (Hent (U / (cs / bps)) ltac:(unfold U in *; lia)).
  rewrite Hrs. split_and!; try done; unfold U in *; lia.
Qed.

Lemma layout_fat_needed bps PartitionLength cs :
  volume_ok bps PartitionLength cs ->
  let l := compute_layout bps PartitionLength cs in FatNeeded l <= FatSize l.
Proof.
  intros Hvol l. destruct (layout_counts _ _ _ Hvol) as (_ & _ & _ & Hent). fold l in Hent.
  assert (Hb : 512 <= bps) by (destruct (vol_bps _ _ _ Hvol) as [->|[->|[->| ->]]]; lia).
  unfold FatNeeded. replace (BytesPerSect l) with bps by done.
  apply Z.lt_succ_r, Z.div_lt_upper_bound; [lia|].
  replace (bps * Z.succ (FatSize l)) with (FatSize l * bps + bps) by ring. lia.
Qed.

(** C36: The layout of a FAT32 volume: with sectors of 512 to 4096 bytes, the accepted
    numbers of sectors, and the default cluster size or one of 1 to 128
    sectors, no computation wraps; the reserved sectors are at least 32 and fit
    their 16-bit field; the data area starts at a multiple of 1 MB; the parts
    fill the volume; each FAT has an entry for every cluster and for the two
    reserved ones, so that the test for a FAT that is too small never fails. *)
Theorem fat32_layout_sound bps PartitionLength ClusterSize :
  bps = 512 \/ bps = 1024 \/ bps = 2048 \/ bps = 4096 ->
  65536 <= PartitionLength / bps -> PartitionLength / bps < 0xffffffff ->
  ClusterSize = 0 \/ 1 <= ClusterSize / bps <= 128 ->
  let l := compute_layout bps PartitionLength (cluster_size ClusterSize PartitionLength) in
  let system := ReservedSectCount l + 2 * FatSize l in
  1 <= SectorsPerCluster l <= 128 /\
  32 <= ReservedSectCount l < 0x10000 /\
  (MB | system * bps) /\
  0 <= UserAreaSize l /\ system + UserAreaSize l = PartitionLength / bps /\
  system + ClusterCount l * SectorsPerCluster l <= PartitionLength / bps /\
  (ClusterCount l + 2) * 4 <= FatSize l * bps /\
  FatNeeded l <= FatSize l.
Proof.
  intros Hbps Hs Hb Hc l system.
  assert (Hvol : volume_ok bps PartitionLength (cluster_size ClusterSize PartitionLength)).
  { unfold cluster_size. case_bool_decide; [by apply default_cluster_ok|]. constructor; [done..|lia]. }
  pose proof (sector_cases _ _ _ Hvol) as (_ & _ & _ & Ha).
  pose proof (reserved_bounds _ _ _ Hvol) as (Hr & Hrs & Hrt).
  pose proof (system_aligned _ _ _ Hvol) as Hal. pose proof (vol_cluster _ _ _ Hvol) as Hspc.
  destruct (layout_counts _ _ _ Hvol) as (? & ? & ? & ?).
  pose proof (layout_fat_needed _ _ _ Hvol).
  assert (Hl := compute_layout_eq _ _ _ Hvol). fold l in Hl.
  assert (HR : ReservedSectCount l = reserved_sectors _ _ _) by (rewrite Hl; reflexivity).
  assert (HF : FatSize l = fat_sectors _ _ _) by (rewrite Hl; reflexivity).
  assert (HS : SectorsPerCluster l = cluster_size ClusterSize PartitionLength / bps) by (rewrite Hl; reflexivity).
  split_and!; try done; try lia. unfold system. by rewrite HR, HF, Hrs.
Qed.

Lemma fat32_layout_sound_witness :
  let l := compute_layout 512 (64 * GB) (cluster_size 0 (64 * GB)) in
  let system := ReservedSectCount l + 2 * FatSize l in
  1 <= SectorsPerCluster l <= 128 /\
  32 <= ReservedSectCount l < 0x10000 /\
  (MB | system * 512) /\
  0 <= UserAreaSize l /\ system + UserAreaSize l = 64 * GB / 512 /\
  system + ClusterCount l * SectorsPerCluster l <= 64 * GB / 512 /\
  (ClusterCount l + 2) * 4 <= FatSize l * 512 /\
  FatNeeded l <= FatSize l.
Proof.
  apply (fat32_layout_sound 512 (64 * GB) 0); [by left|vm_compute; discriminate|vm_compute; reflexivity|by left].
Defined.
