(* ===== verification/Fat32Correct.v ===== *)
(** Fat32Correct: what [FormatLargeFAT32] (Fat32.v) leaves on a volume whose
    accesses succeed, up to the format of a whole volume. *)

From S2P Require Import Prelude Disk DiskCorrect MemDisk BootRecords BootRecordsCorrect Format Fat32 Fat32Layout.

(** ** Whole sectors on a reliable machine *)

Section sectors.
Context {D : Type} `{OsLaws D}.
Implicit Types w : world D.

(** [T] sectors of [bps] bytes that can be accessed. *)
Definition volume (bps T : Z) w : Prop :=
  reliable (machine w) /\ (disk_sector (machine w) | bps) /\ 0 < bps <= 65536 /\ 0 <= T < 2 ^ 32 /\
  T * bps <= disk_size (machine w).

Lemma volume_keeps bps T w w' : keeps w w' -> volume bps T w -> volume bps T w'.
Proof.
  intros ((Hsz & Hsec & Hr) & _) (? & ? & ? & ? & ?). unfold volume. rewrite Hsz, Hsec.
  split_and!; auto; lia.
Qed.

Lemma write_sectors_volume bps T start n buf w :
  volume bps T w -> 0 <= start -> 0 <= n -> n * bps <= 0xFFFFFFFF -> start + n <= T ->
  length buf = Z.to_nat (n * bps) ->
  wp (write_sectors bps start n buf) w (fun r w' =>
    r = n * bps /\ keeps w w' /\ same_content (content w') (patch (content w) (start * bps) buf)).
Proof.
  intros (Hr & Hdiv & Hbps & HT & Hsz) Hs Hn Hmax Hend Hbuf.
  assert (Hin : in_range bps start n) by (split; nia).
  eapply wp_mono; [apply write_sectors_spec; [exact Hin|lia]|]. cbn zeta.
  rewrite <- Hbuf, firstn_all. intros r w' ((Hk & _ & Hc) & _ & Hgood).
  destruct Hgood as [-> _]; [done| |by split_and!; auto].
  split_and!; [by apply Z.divide_mul_r..|nia].
Qed.

(** ** Clearing the system area *)

Context `{VolumeOs D}.

(** The answers of the system on the volume of geometry [g] and partition [p]; on a
    reliable machine they come, and the user does not cancel. *)
Class VolumeLaws (g : geometry) (p : partition_information) := {
  geometry_law d r d' : GET_DRIVE_GEOMETRY d = (r, d') ->
    unchanged d d' /\ (forall x, r = Some x -> x = g) /\ (reliable d -> is_Some r);
  partition_law d r d' : GET_PARTITION_INFO d = (r, d') ->
    unchanged d d' /\ (forall x, r = Some x -> x = p) /\ (reliable d -> is_Some r);
  time_law d t d' : GetLocalTime d = (t, d') -> unchanged d d';
  cancel_law d c d' : cancel_pressed d = (c, d') -> unchanged d d' /\ (reliable d -> c = false);
}.

Context {g : geometry} {p : partition_information} `{!VolumeLaws g p}.

Lemma poll_cancel_spec w : reliable (machine w) -> wp poll_cancel w (fun _ w' => looked w w').
Proof.
  intros Hr. unfold poll_cancel. step. step.
  match goal with Hc : cancel_pressed _ = _ |- _ => destruct (cancel_law _ _ _ Hc) as [Hu Hq] end.
  rewrite (Hq Hr). step. by apply looked_machine.
Qed.

(** [zeroed f a b]: the content [f] with zeros from [a] to [b]. *)
Definition zeroed (f : Z -> Z) (a b : Z) : Z -> Z := fun z => if bool_decide (a <= z < b) then 0 else f z.

Lemma patch_zeros f a n z : patch f a (replicate n 0) z = zeroed f a (a + Z.of_nat n) z.
Proof.
  unfold patch, zeroed. rewrite length_replicate. case_bool_decide; [|done].
  apply list_lookup_total_correct. apply lookup_replicate_2. lia.
Qed.

(** The number of bursts that clear [area] sectors. *)
Definition bursts (area : Z) : Z := (area + 254) / 128.

Lemma bursts_bounds area : 0 <= area -> area + 127 <= 128 * bursts area <= area + 254.
Proof.
  intros. unfold bursts. pose proof (Z.div_mod (area + 254) 128 ltac:(lia)).
  pose proof (Z.mod_pos_bound (area + 254) 128 ltac:(lia)). lia.
Qed.

Lemma clear_loop_spec bps T area fuel k w :
  volume bps T w -> bps <= 4096 -> 0 <= area -> 128 * bursts area <= T -> user_cancel (ErrorStatus w) = false ->
  0 <= k <= bursts area -> bursts area - k < Z.of_nat fuel ->
  wp (clear_loop fuel bps area (replicate (Z.to_nat (bps * BurstSize)) 0) (128 * k)) w (fun r w' =>
    r = Cleared /\ keeps w w' /\
    same_content (content w') (zeroed (content w) (128 * k * bps) (128 * bursts area * bps))).
Proof.
  pose proof (bursts_bounds area) as Hb.
  revert k w. induction fuel as [|fuel IH]; intros k w Hv Hbps Ha HT Hcan Hk Hfuel; [lia|].
  specialize (Hb Ha). assert (HT2 : T < 2 ^ 32) by apply Hv. cbn [clear_loop]. change BurstSize with 128.
  rewrite (uwrap_small 32 (area + 128 - 1)) by lia. case_bool_decide as Hi.
  - step. eapply wp_mono; [apply poll_cancel_spec, Hv|]. intros ? w1 Hl1. step. step.
    assert (Hes : ErrorStatus w1 = ErrorStatus w) by apply Hl1. rewrite Hes, Hcan. step.
    assert (Hv1 : volume bps T w1) by (eapply volume_keeps; [apply Hl1|done]).
    assert (Hbp : 0 < bps) by apply Hv.
    assert (Hk1 : k < bursts area) by lia.
    eapply wp_mono; [apply (write_sectors_volume bps T);
      [exact Hv1|lia|lia|lia|lia|rewrite length_replicate; f_equal; lia]|].
    intros r w2 (-> & Hk2 & Hc2).
    rewrite (uwrap_small 32 (bps * 128)), bool_decide_false by lia.
    rewrite (uwrap_small 32 (128 * k + 128)) by lia. replace (128 * k + 128) with (128 * (k + 1)) by lia.
    assert (Hkw : keeps w w2) by (etransitivity; [apply Hl1|done]).
    eapply wp_mono; [apply IH; [by eapply volume_keeps|done|done|done| |lia|lia]|].
    { by destruct Hkw as (_ & -> & _). }
    intros r w3 (-> & Hk3 & Hc3). split_and!; [done|by etransitivity|].
    intros z. rewrite (Hc3 z). unfold zeroed at 1. rewrite (Hc2 z), patch_zeros.
    unfold zeroed. rewrite (proj2 Hl1 z). repeat case_bool_decide; try done; nia.
  - step. split_and!; [done|done|]. intros z. unfold zeroed. rewrite bool_decide_false; [done|]. nia.
Qed.

(** ** The structures *)

(** The sectors that are written after the system area was cleared. *)
Definition structures (l : layout) (boot fsinfo fat : list Z) : list piece :=
  let bps := BytesPerSect l in
  [(0 * bps, boot); (1 * bps, fsinfo); (6 * bps, boot); (7 * bps, fsinfo);
   (ReservedSectCount l * bps, fat); ((ReservedSectCount l + FatSize l) * bps, fat)].

(** One more sector. *)
Lemma write_sector_step bps T start buf w0 w ps (k : Z -> prog D ()) Q :
  volume bps T w -> 0 <= start < T -> bps <= 4096 -> length buf = Z.to_nat bps ->
  keeps w0 w -> same_content (content w) (patches (content w0) 0 ps) ->
  (forall r w', volume bps T w' -> keeps w0 w' ->
     same_content (content w') (patches (content w0) 0 (ps ++ [(start * bps, buf)])) ->
     wp (k r) w' Q) ->
  wp (r ← write_sectors bps start 1 buf; k r) w Q.
Proof.
  intros Hv Hs Hbps Hlen Hk Hc Hnext. assert (Hb : 0 < bps) by apply Hv. step.
  eapply wp_mono; [apply (write_sectors_volume bps T);
    [exact Hv|lia|lia|lia|lia|rewrite Hlen; f_equal; lia]|].
  intros r w' (-> & Hk' & Hc'). apply Hnext.
  - by eapply volume_keeps.
  - by etransitivity.
  - rewrite patches_app. intros z. rewrite (Hc' z). cbn. rewrite Z.add_0_r. by apply patch_proper.
Qed.

Lemma fat_start_eq l i : 0 <= ReservedSectCount l -> 0 <= FatSize l -> 0 <= i <= 1 ->
  ReservedSectCount l + FatSize l < 2 ^ 31 -> fat_start l i = ReservedSectCount l + i * FatSize l.
Proof.
  intros. assert (0 <= i * FatSize l <= FatSize l) by nia. unfold fat_start.
  rewrite (uwrap_small 32 (i * _)), (uwrap_small 32 (_ + _)) by lia.
  unfold swrap. rewrite (Z.mod_small (_ + 2 ^ (32 - 1))), uwrap_small by lia. lia.
Qed.

Lemma write_structures_spec l T boot fsinfo fat w :
  let bps := BytesPerSect l in
  volume bps T w -> bps <= 4096 -> 8 <= ReservedSectCount l -> 0 <= FatSize l ->
  ReservedSectCount l + FatSize l < T -> T < 2 ^ 32 -> ReservedSectCount l + FatSize l < 2 ^ 31 ->
  length boot = Z.to_nat bps -> length fsinfo = Z.to_nat bps -> length fat = Z.to_nat bps ->
  wp (write_structures l boot fsinfo fat) w (fun _ w' => keeps w w' /\
    same_content (content w') (patches (content w) 0 (structures l boot fsinfo fat))).
Proof.
  intros bps Hv Hbps HR HF HRF HT HRF2 Hb Hi Hf. unfold write_structures, BackupBootSect. fold bps.
  rewrite !fat_start_eq by lia. rewrite Z.mul_0_l, Z.add_0_r, Z.mul_1_l.
  apply (write_sector_step bps T 0 boot w w []); [done|lia|done|done|done|done|]. intros _ w1 Hv1 Hk1 Hc1.
  eapply (write_sector_step bps T _ fsinfo w w1 _ _ _ Hv1); [lia|done|done|done|exact Hc1|].
  intros _ w2 Hv2 Hk2 Hc2.
  eapply (write_sector_step bps T _ boot w w2 _ _ _ Hv2); [lia|done|done|done|exact Hc2|].
  intros _ w3 Hv3 Hk3 Hc3.
  eapply (write_sector_step bps T _ fsinfo w w3 _ _ _ Hv3); [lia|done|done|done|exact Hc3|].
  intros _ w4 Hv4 Hk4 Hc4.
  eapply (write_sector_step bps T _ fat w w4 _ _ _ Hv4); [lia|done|done|done|exact Hc4|].
  intros _ w5 Hv5 Hk5 Hc5.
  eapply (write_sector_step bps T _ fat w w5 _ _ _ Hv5); [lia|done|done|done|exact Hc5|].
  intros _ w6 Hv6 Hk6 Hc6. step. split; [done|exact Hc6].
Qed.

Lemma structures_apart l boot fsinfo fat :
  let bps := BytesPerSect l in
  0 < bps -> 8 <= ReservedSectCount l -> 1 <= FatSize l ->
  length boot = Z.to_nat bps -> length fsinfo = Z.to_nat bps -> length fat = Z.to_nat bps ->
  all_apart (structures l boot fsinfo fat) = true.
Proof.
  intros bps Hb HR HF Hl1 Hl2 Hl3. unfold structures. fold bps. cbn [all_apart forallb].
  rewrite !andb_true_iff. repeat split; try done;
    apply bool_decide_eq_true; unfold apart; cbn [fst snd]; rewrite ?Hl1, ?Hl2, ?Hl3;
    rewrite Z2Nat.id by lia; nia.
Qed.
End sectors.

(** The content of a volume that was formatted: the cleared area, then the
    structures. *)
Definition formatted (f : Z -> Z) (l : layout) (boot fsinfo fat : list Z) : Z -> Z :=
  patches (zeroed f 0 (128 * bursts (SystemAreaSize l) * BytesPerSect l)) 0
    (structures l boot fsinfo fat).

(** The contents of the three sectors. *)
Definition boot_block (l : layout) (g : geometry) (hidden VolumeId : Z) : list Z :=
  fill_boot_sector l g hidden VolumeId (replicate (Z.to_nat (BytesPerSect l)) 0).
Definition fsinfo_block (l : layout) : list Z := fill_fsinfo l (replicate (Z.to_nat (BytesPerSect l)) 0).
Definition fat_block (l : layout) : list Z :=
  fill_first_fat_sector (replicate (Z.to_nat (BytesPerSect l)) 0).

Lemma length_boot_sector_bytes l g hidden v : length (boot_sector_bytes (boot_sector l g hidden v)) = 90%nat.
Proof. reflexivity. Qed.

Lemma length_sector_blocks l g hidden v : 512 <= BytesPerSect l ->
  length (boot_block l g hidden v) = Z.to_nat (BytesPerSect l) /\
  length (fsinfo_block l) = Z.to_nat (BytesPerSect l) /\
  length (fat_block l) = Z.to_nat (BytesPerSect l).
Proof.
  intros Hb. assert (Hn : (512 <= Z.to_nat (BytesPerSect l))%nat) by lia.
  unfold boot_block, fsinfo_block, fat_block, fill_boot_sector, fill_fsinfo, fill_first_fat_sector.
  split_and!.
  - case_bool_decide; rewrite ?length_insert, length_splice, length_replicate; try done;
      rewrite length_boot_sector_bytes, length_replicate; lia.
  - rewrite length_splice, length_replicate; [done|]. unfold fsinfo_bytes.
    rewrite !length_app, !length_le_bytes, !length_replicate. lia.
  - rewrite length_splice, length_replicate; [done|].
    rewrite !length_app, !length_le_bytes, length_replicate. lia.
Qed.

Section props.
Context {D : Type} `{OsLaws D} `{VolumeOs D} {g : geometry} {p : partition_information}.
Context `{!VolumeLaws g p}.
Implicit Types w : world D.
Context (s : settings) (open_volume : prog D bool) (unmount_volume set_label : prog D ()).

Lemma calloc_spec n w :
  wp (call (calloc n)) w (fun r w' => looked w w' /\
    (reliable (machine w) -> r = Some (replicate (Z.to_nat n) 0))).
Proof.
  apply wp_call. intros r d Hc. destruct (calloc_law _ _ _ _ Hc) as (Hu & _ & Hr & Hl).
  split; [by apply looked_machine|]. intros Hrel. destruct (Hr Hrel) as [m ->]. by rewrite (Hl m).
Qed.

(** The end of the function, once the structures are on the volume as [w3]: the
    partition boot record, unless it is not wanted, and the label. *)
Definition finish (no_boot : bool) (w3 : world D) : world D :=
  (set_label (if no_boot then w3 else (WritePBR s w3).2)).2.

Lemma finish_eq no_boot w Q :
  Q (Formatted true) (finish no_boot w) ->
  wp (_ ← (if no_boot : bool then mret () else _ ← WritePBR s; mret ());
      _ ← set_label; mret (Formatted true)) w Q.
Proof.
  unfold finish, wp, mbind, prog_bind, mret, prog_ret. intros HQ.
  destruct no_boot; [|destruct (WritePBR s w) as [r w4]; cbn in *];
    (destruct (set_label _) as [u w5]; exact HQ).
Qed.

Section volume.
Context (T ClusterSize : Z).
Abbreviation bps := (BytesPerSector g).
Abbreviation l := (compute_layout bps (PartitionLength p) ClusterSize).
Context (Hvol : volume_ok bps (PartitionLength p) ClusterSize) (HT : T = PartitionLength p / bps).

Lemma layout_bounds :
  BytesPerSect l = bps /\ 512 <= bps <= 4096 /\ 32 <= ReservedSectCount l /\ 1 <= FatSize l /\
  1 <= SectorsPerCluster l <= 128 /\ T < 2 ^ 32 /\
  ReservedSectCount l + 2 * FatSize l + 60000 <= T /\
  SystemAreaSize l = ReservedSectCount l + 2 * FatSize l + SectorsPerCluster l /\
  FatSize l < 2 ^ 26 /\ ReservedSectCount l < 2 ^ 16.
Proof.
  pose proof (sector_cases _ _ _ Hvol) as (_ & _ & _ & Ha).
  pose proof (fat_sectors_bounds _ _ _ Hvol) as (_ & Hf & Hf2).
  pose proof (reserved_bounds _ _ _ Hvol) as (Hr & Hrs & Hrt).
  destruct Hvol as [Hb Hs Hbig Hc]. unfold SystemAreaSize. change NumFATs with 2.
  rewrite (compute_layout_eq _ _ _ Hvol).
  cbn [SectorsPerCluster ReservedSectCount FatSize UserAreaSize BytesPerSect].
  rewrite (uwrap_small 32 (2 * _)), (uwrap_small 32 (_ + 2 * _)), uwrap_small by lia.
  split_and!; lia.
Qed.

Lemma write_volume_spec boot fsinfo fat no_boot w :
  volume bps T w -> IS_ERROR (ErrorStatus w) = false ->
  length boot = Z.to_nat bps -> length fsinfo = Z.to_nat bps -> length fat = Z.to_nat bps ->
  wp (write_volume s set_label l boot fsinfo fat no_boot) w (fun r w' => r = Formatted true /\
    exists w3, keeps w w3 /\ same_content (content w3) (formatted (content w) l boot fsinfo fat) /\
      w' = finish no_boot w3).
Proof.
  intros Hv Herr Hb Hi Hf. destruct layout_bounds as (Hbl & Hbps & HR & HF & Hspc & HT32 & Hsum & HS & HF2 & HR2).
  unfold write_volume. rewrite Hbl. step. eapply wp_mono; [apply calloc_spec|].
  intros z w1 [Hl1 Hz]. rewrite Hz by apply Hv. step.
  assert (Hv1 : volume bps T w1) by (eapply volume_keeps; [apply Hl1|done]).
  pose proof (bursts_bounds (SystemAreaSize l) ltac:(lia)) as Hbu.
  assert (Hfuel : bursts (SystemAreaSize l) < Z.of_nat (clear_fuel (SystemAreaSize l))).
  { unfold clear_fuel, BurstSize.
    pose proof (Z.div_mod (SystemAreaSize l) 128 ltac:(lia)).
    pose proof (Z.mod_pos_bound (SystemAreaSize l) 128 ltac:(lia)).
    pose proof (Z.div_pos (SystemAreaSize l) 128 ltac:(lia) ltac:(lia)). lia. }
  eapply wp_mono; [apply (clear_loop_spec bps T (SystemAreaSize l) _ 0 w1); try done; try lia|].
  { unfold user_cancel. destruct Hl1 as [(_ & -> & _) _]. by rewrite Herr. }
  intros c w2 (-> & Hk2 & Hc2). step. assert (Hv2 : volume bps T w2) by by eapply volume_keeps.
  eapply wp_mono; [apply (write_structures_spec l T); rewrite ?Hbl; try done; lia|].
  intros _ w3 [Hk3 Hc3]. apply finish_eq. split; [done|]. exists w3. split_and!; [|idtac|done].
  - etransitivity; [apply Hl1|]. by etransitivity.
  - intros z'. rewrite (Hc3 z'). unfold formatted. rewrite Hbl. apply patches_proper; [|done..].
    intros y. rewrite (Hc2 y). unfold zeroed. rewrite (proj2 Hl1). done.
Qed.
End volume.

Lemma read_geometry_spec w : reliable (machine w) -> 512 <= BytesPerSector g ->
  wp read_geometry w (fun r w' => looked w w' /\ r = Some g).
Proof.
  intros Hr Hb. unfold read_geometry. step. step.
  match goal with Hg : GET_DRIVE_GEOMETRY _ = (?r, _) |- _ =>
    destruct (geometry_law _ _ _ Hg) as (Hu & Hx & Hs); destruct (Hs Hr) as [x ->] end.
  rewrite (Hx x eq_refl). step. step. step. split; [by apply looked_machine|].
  cbn. rewrite bool_decide_false by lia. by destruct g.
Qed.

Lemma read_partition_spec w : reliable (machine w) ->
  wp (read_partition g) w (fun r w' => looked w w' /\ r = Some p).
Proof.
  intros Hr. unfold read_partition. step. step.
  match goal with Hg : GET_PARTITION_INFO _ = (?r, _) |- _ =>
    destruct (partition_law _ _ _ Hg) as (Hu & Hx & Hs); destruct (Hs Hr) as [x ->] end.
  rewrite (Hx x eq_refl). step. split; [by apply looked_machine|done].
Qed.

(** drive.c opens and dismounts the volume. *)
Definition volume_opens : Prop :=
  (forall w, reliable (machine w) -> wp open_volume w (fun v w' => v = true /\ looked w w')) /\
  (forall w, reliable (machine w) -> wp unmount_volume w (fun _ w' => looked w w')).

Lemma looked_IS_ERROR w w' : looked w w' -> IS_ERROR (ErrorStatus w) = false ->
  reliable (machine w) -> IS_ERROR (ErrorStatus w') = false /\ reliable (machine w').
Proof. intros [((_ & _ & Hr) & -> & _) _] He Hrel. auto. Qed.

(** The pieces of [formatted], and the rest of it. *)
Lemma formatted_spec T cs f boot fsinfo fat :
  let bps := BytesPerSector g in let l := compute_layout bps (PartitionLength p) cs in
  volume_ok bps (PartitionLength p) cs -> T = PartitionLength p / bps ->
  length boot = Z.to_nat bps -> length fsinfo = Z.to_nat bps -> length fat = Z.to_nat bps ->
  let ps := structures l boot fsinfo fat in
  has_pieces (formatted f l boot fsinfo fat) 0 ps /\
  let cleared := 128 * bursts (SystemAreaSize l) in
  SystemAreaSize l + 127 <= cleared <= SystemAreaSize l + 254 /\
  (forall z, 0 <= z < cleared * bps -> outside ps z -> formatted f l boot fsinfo fat z = 0) /\
  (forall z, cleared * bps <= z -> formatted f l boot fsinfo fat z = f z).
Proof.
  intros bps l Hvol HT Hb Hi Hf ps. cbv zeta.
  destruct (layout_bounds T cs Hvol HT) as (Hbl & Hbps & HR & HF & Hspc & HT32 & Hsum & HS & _).
  fold bps in Hbl, Hbps, HR, HF, Hspc, Hsum, HS. fold l in Hbl, HR, HF, Hspc, Hsum, HS.
  pose proof (bursts_bounds (SystemAreaSize l) ltac:(lia)) as Hbu.
  unfold formatted. fold ps. rewrite Hbl. split_and!.
  - apply has_pieces_patches, structures_apart; rewrite ?Hbl; lia || done.
  - lia.
  - lia.
  - intros z Hz Hout. rewrite patches_outside by (by rewrite Z.sub_0_r).
    unfold zeroed. by rewrite bool_decide_true.
  - intros z Hz. rewrite patches_outside.
    + unfold zeroed. rewrite bool_decide_false; [done|]. nia.
    + rewrite Z.sub_0_r. unfold ps, structures. rewrite Hbl.
      repeat constructor; cbn [fst snd]; rewrite ?Hb, ?Hi, ?Hf, Z2Nat.id by lia; nia.
Qed.

Lemma FormatLargeFAT32_spec cs FSName no_boot w :
  let bps := BytesPerSector g in
  let l := compute_layout bps (PartitionLength p) (cluster_size cs (PartitionLength p)) in
  take 3 FSName = FAT ->
  volume_ok bps (PartitionLength p) (cluster_size cs (PartitionLength p)) ->
  65536 <= ClusterCount l <= 0x0FFFFFFF -> FatNeeded l <= FatSize l ->
  IS_ERROR (ErrorStatus w) = false -> volume bps (PartitionLength p / bps) w -> volume_opens ->
  let VolumeId := GetVolumeID (GetLocalTime (machine w)).1 in
  wp (FormatLargeFAT32 s open_volume unmount_volume set_label cs FSName no_boot) w (fun r w' =>
    r = Formatted true /\ exists w3, keeps w w3 /\
      same_content (content w3) (formatted (content w) l
        (boot_block l g (HiddenSectors p) VolumeId) (fsinfo_block l) (fat_block l)) /\
      w' = finish no_boot w3).
Proof.
  intros bps l HFS Hvol Hcc Hneed Herr Hv [Hopen Hun] VolumeId.
  destruct (layout_bounds _ _ Hvol eq_refl) as (Hbl & Hbps & HR & HF & Hspc & _).
  fold bps in Hbl, Hbps, HR, HF, Hspc. fold l in Hbl, HR, HF, Hspc.
  unfold FormatLargeFAT32. rewrite bool_decide_true by done. cbn [negb]. step. step.
  match goal with Ht : GetLocalTime _ = (?t', ?d') |- _ =>
    rename t' into t; pose proof (time_law _ _ _ Ht) as Hu;
    assert (Hvid : GetVolumeID t = VolumeId) by (unfold VolumeId; by rewrite Ht);
    pose proof (looked_machine w d' Hu) as Hl1; set (w1 := set_machine d' w) in * end.
  destruct (looked_IS_ERROR _ _ Hl1 Herr ltac:(apply Hv)) as [He1 Hr1].
  step. eapply wp_mono; [by apply Hopen|]. intros v w2 [-> Hl2].
  destruct (looked_IS_ERROR _ _ Hl2 He1 Hr1) as [He2 Hr2]. step. step. rewrite He2. cbn [negb].
  step. eapply wp_mono; [by apply Hun|]. intros ? w3 Hl3. cbv beta in Hl3.
  destruct (looked_IS_ERROR _ _ Hl3 He2 Hr2) as [He3 Hr3].
  step. eapply wp_mono; [apply read_geometry_spec; [done|unfold bps in *; lia]|]. intros r w4 [Hl4 ->].
  destruct (looked_IS_ERROR _ _ Hl4 He3 Hr3) as [He4 Hr4]. step. step. rewrite He4.
  step. eapply wp_mono; [by apply read_partition_spec|]. intros r w5 [Hl5 ->].
  destruct (looked_IS_ERROR _ _ Hl5 He4 Hr4) as [He5 Hr5]. step. step. rewrite He5.
  fold bps. rewrite !bool_decide_false by (destruct Hvol; lia). fold (cluster_size cs (PartitionLength p)).
  step. eapply wp_mono; [apply calloc_spec|]. intros b1 w6 [Hl6 Hb1]. rewrite (Hb1 Hr5).
  destruct (looked_IS_ERROR _ _ Hl6 He5 Hr5) as [He6 Hr6].
  step. eapply wp_mono; [apply calloc_spec|]. intros b2 w7 [Hl7 Hb2]. rewrite (Hb2 Hr6).
  destruct (looked_IS_ERROR _ _ Hl7 He6 Hr6) as [He7 Hr7].
  step. eapply wp_mono; [apply calloc_spec|]. intros b3 w8 [Hl8 Hb3]. rewrite (Hb3 Hr7).
  destruct (looked_IS_ERROR _ _ Hl8 He7 Hr7) as [He8 Hr8].
  assert (Hl : looked w w8) by (do 7 (etransitivity; [eassumption|]); done).
  fold l. unfold format_with. rewrite !bool_decide_false by lia. rewrite Hvid.
  destruct (length_sector_blocks l g (HiddenSectors p) VolumeId) as (Hlb & Hli & Hlf); [lia|].
  rewrite Hbl in Hlb, Hli, Hlf.
  eapply wp_mono; [apply (write_volume_spec (PartitionLength p / bps) _ Hvol eq_refl
    (boot_block l g (HiddenSectors p) VolumeId) (fsinfo_block l) (fat_block l)); try done|].
  { eapply volume_keeps; [apply Hl|done]. }
  intros r w9 (-> & w10 & Hk & Hc & ->). split; [done|]. exists w10. split_and!; [|idtac|done].
  - etransitivity; [apply Hl|done].
  - intros z. rewrite (Hc z). unfold formatted. apply patches_proper; [|done..].
    intros y. unfold zeroed. by rewrite (proj2 Hl).
Qed.
End props.

(** ** A volume of 40 MB *)

Definition sample_geometry : geometry := mkGeometry 512 63 255.
Definition sample_partition : partition_information := mkPartition 1048576 (40 * MB) 2048.
Definition sample_time : SYSTEMTIME := mkTime 1995 12 26 21 55 41 940.

#[export] Instance mem_volume : VolumeOs mem_disk := {
  GET_DRIVE_GEOMETRY d := (Some sample_geometry, d);
  GET_DRIVE_GEOMETRY_EX d := (Some sample_geometry, d);
  GET_PARTITION_INFO d := (Some sample_partition, d);
  GET_PARTITION_INFO_EX d := (Some sample_partition, d);
  GetLocalTime d := (sample_time, d);
  cancel_pressed d := (false, d);
}.

#[export] Instance mem_volume_laws : VolumeLaws sample_geometry sample_partition.
Proof.
  split.
  - intros d r d' [= <- <-]. split_and!; [done|by intros x [= <-]|by eexists].
  - intros d r d' [= <- <-]. split_and!; [done|by intros x [= <-]|by eexists].
  - by intros d t d' [= <- <-].
  - by intros d c d' [= <- <-].
Qed.

(** The serial number of the comment in the source. *)
Example volume_id_example : GetVolumeID sample_time = 0x1d023578.
Proof. vm_compute. reflexivity. Qed.

Definition fat32_volume : world mem_disk :=
  mkWorld (mkMem (fun z => z mod 251) (40 * MB) 512 0 [] 0 0xCD) 0 0 false 512.

Definition sample_settings (b : boot_type) (fs : fs_type) : settings :=
  mkSettings 512 2048 1048576 PARTITION_STYLE_MBR b TT_BIOS fs fs fs
    (mkReport 0 true false false false false false 0) false false.

Lemma mem_volume_opens : volume_opens (D := mem_disk) (mret true) (mret ()).
Proof. split; intros w _; by split. Qed.

Lemma fat32_volume_ok : volume 512 (40 * MB / 512) fat32_volume.
Proof. unfold volume. cbn. split_and!; [done|by exists 1|done..]. Qed.
