(* ===== verification/FormatProps.v ===== *)
(** FormatProps: the FAT32 format of a whole volume (Fat32.v), what its boot
    record (Format.v) then changes, and inputs on which the functions of Format.v and
    Fat32.v do not do what their messages and comments say. *)

From S2P Require Import Prelude Disk DiskCorrect MemDisk BootData BootRecords BootRecordsCorrect BootRecordsProps MbrProps Format Fat32 Fat32Layout Fat32Correct.

(** ** The FAT32 partition boot record *)

(** The record that [WritePBR] chooses. *)
Definition fat32_kind (s : settings) : boot_kind :=
  let image := bool_decide (boot s = BT_IMAGE) in
  if bool_decide (boot s = BT_FREEDOS) then Fat32Fd
  else if bool_decide (boot s = BT_REACTOS) then Fat32Ros
  else if image && HAS_KOLIBRIOS (img_report s) then Fat32Kos
  else if image && HAS_BOOTMGR (img_report s) then Fat32Pe
  else if image && HAS_WINPE (img_report s) then Fat32Nt
  else Fat32.

Lemma fat32_kind_is_fat32 s : is_fat32_kind (fat32_kind s) = true.
Proof. unfold fat32_kind. by repeat case_match. Qed.

(** What one turn of the loop stores: the record with its label, and the drive
    number. *)
Definition pbr_pieces (k : boot_kind) : list piece := br_pieces k false ++ [(0x40, [0x80])].

Definition shift (o : Z) (ps : list piece) : list piece := (fun pc => (pc.1 + o, pc.2)) <$> ps.

Lemma patches_shift f o ps : patches f o ps = patches f 0 (shift o ps).
Proof.
  revert f. induction ps as [|[q bs] ps IH]; intros f; [done|].
  cbn [shift fmap list_fmap fst snd]. rewrite !patches_cons, Z.add_0_r. apply IH.
Qed.

Lemma has_pieces_shift f o ps : has_pieces f 0 (shift o ps) <-> has_pieces f o ps.
Proof.
  unfold has_pieces, shift. rewrite Forall_fmap. apply Forall_iff. intros [q bs].
  unfold has_piece. cbn. by rewrite Z.add_0_r.
Qed.

(** Both copies. *)
Definition both_pieces (k : boot_kind) (bps : Z) : list piece :=
  pbr_pieces k ++ shift (6 * bps) (pbr_pieces k).

(** [pc] does not touch the parameter block at [o], but for the drive number. *)
Definition spares_bpb (o : Z) (pc : piece) : bool :=
  bool_decide (pc.1 + sizeof pc.2 <= o + 0x0b) || bool_decide (o + 0x47 <= pc.1) ||
  (bool_decide (pc.1 = o + 0x40) && bool_decide (sizeof pc.2 = 1)).

(** All that is needed of the tables, for one record and one sector size. *)
Definition copies_ok (k : boot_kind) (bps : Z) : bool :=
  all_apart (both_pieces k bps) &&
  forallb (fun m => forallb (fun pc => bool_decide (apart m pc)) (pbr_pieces k))
    (shift (6 * bps) fat32_fs_mark) &&
  forallb (spares_bpb 0) (both_pieces k bps) && forallb (spares_bpb (6 * bps)) (both_pieces k bps) &&
  forallb (fun pc => bool_decide (pc.1 + sizeof pc.2 <= 32 * bps)) (both_pieces k bps).

Lemma copies_ok_all k bps :
  is_fat32_kind k = true -> bps = 512 \/ bps = 2048 \/ bps = 4096 -> copies_ok k bps = true.
Proof.
  intros Hk [->|[->| ->]]; destruct k; try done; vm_compute; reflexivity.
Qed.

(** With 1024-byte sectors the backup boot sector is at 0x1800, where the NT and PE
    records have their last piece: the primary record overwrites it. *)
Lemma nt_record_overlaps_backup :
  existsb (fun pc => negb (bool_decide (apart (0x1800 + 0x52, [0x46]) pc))) (pbr_pieces Fat32Nt) = true.
Proof. vm_compute. reflexivity. Qed.

Lemma spares_bpb_outside o ps z :
  forallb (spares_bpb o) ps = true -> 0x0b <= z < 0x47 -> z ≠ 0x40 -> outside ps (o + z).
Proof.
  intros Hall Hz Hne. apply Forall_forall. intros pc Hpc%list_elem_of_In.
  rewrite forallb_forall in Hall. specialize (Hall pc Hpc). unfold spares_bpb in Hall.
  rewrite !orb_true_iff, andb_true_iff, !bool_decide_eq_true in Hall. lia.
Qed.

(** Pieces that stay when others are stored over them. *)
Lemma has_pieces_survive f ps qs :
  forallb (fun m => forallb (fun pc => bool_decide (apart m pc)) qs) ps = true ->
  has_pieces f 0 ps -> has_pieces (patches f 0 qs) 0 ps.
Proof.
  intros Hall Hps. apply Forall_forall. intros m Hm. apply has_piece_patches.
  - apply Forall_forall. intros pc Hpc. apply list_elem_of_In in Hm, Hpc.
    rewrite forallb_forall in Hall. specialize (Hall m Hm). rewrite forallb_forall in Hall.
    exact (bool_decide_eq_true_1 _ (Hall pc Hpc)).
  - by eapply Forall_forall.
Qed.

Section pbr.
Context {D : Type} `{OsLaws D} (s : settings) (bps : Z).
Implicit Types w : world D.
Abbreviation k := (fat32_kind s).

Lemma write_selected_eq offset :
  write_selected_fat32_br (D := D) s offset = write_br k offset false.
Proof. unfold write_selected_fat32_br, fat32_kind. by repeat case_match. Qed.

(** One turn of the loop, on a region that has the mark of a FAT32 volume. *)
Lemma pbr_turn offset w :
  region bps w offset BR_LIMIT -> has_pieces (content w) offset fat32_fs_mark ->
  wp (and_then (and_then (is_fat_32_fs offset) (write_selected_fat32_br s offset))
        (write_partition_physical_disk_drive_id_fat32 offset)) w (fun r w' =>
    r = true /\ keeps w w' /\ same_content (content w') (patches (content w) offset (pbr_pieces k))).
Proof.
  intros Hreg Hmark. assert (Ho : 0 <= offset) by apply Hreg.
  apply wp_and_then, wp_and_then. eapply wp_mono; [by apply (is_fat_32_fs_checks bps offset Ho)|].
  intros r w1 [-> Hl1]. rewrite bool_decide_true by done. rewrite write_selected_eq.
  assert (Hreg1 : region bps w1 offset BR_LIMIT) by (eapply region_keeps; [apply Hl1|done]).
  eapply wp_mono; [by apply (write_br_stores bps offset Ho k false)|].
  intros r w2 (-> & Hk2 & Hc2).
  eapply wp_mono; [apply (write_data_stores bps offset BR_LIMIT 0x40 [0x80] Ho);
    [unfold within, BR_LIMIT; cbn; lia|by eapply region_keeps]|].
  intros r w3 (-> & Hk3 & Hc3). split_and!; [done|..].
  - etransitivity; [apply Hl1|]. by etransitivity.
  - intros z. unfold pbr_pieces. rewrite patches_app, (Hc3 z). apply patches_proper; [|done..].
    intros y. rewrite (Hc2 y). apply patches_proper; [apply Hl1|done..].
Qed.

Lemma fat32_pbr_loop_spec w :
  bps = 512 \/ bps = 2048 \/ bps = 4096 -> SectorSize s = bps ->
  region bps w 0 BR_LIMIT -> region bps w (6 * bps) BR_LIMIT ->
  has_pieces (content w) 0 fat32_fs_mark -> has_pieces (content w) (6 * bps) fat32_fs_mark ->
  wp (fat32_pbr_loop s 2 0) w (fun _ w' =>
    keeps w w' /\ same_content (content w') (patches (content w) 0 (both_pieces k bps))).
Proof.
  intros Hb Hss Hreg0 Hreg6 Hm0 Hm6.
  assert (Hoff : u64 (0 + u32 (6 * SectorSize s)) = 6 * bps) by (rewrite Hss; destruct Hb as [->|[->| ->]]; reflexivity).
  pose proof (copies_ok_all k bps (fat32_kind_is_fat32 s) Hb) as Hok. unfold copies_ok in Hok.
  rewrite !andb_true_iff in Hok. destruct Hok as [[[[_ Hsurv] _] _] _].
  cbn [fat32_pbr_loop]. step. eapply wp_mono; [by apply pbr_turn|].
  intros r w1 (-> & Hk1 & Hc1). rewrite Hoff. step.
  eapply wp_mono; [apply pbr_turn; [by eapply region_keeps|]|].
  { apply has_pieces_shift. eapply has_pieces_proper; [symmetry; exact Hc1|].
    apply has_pieces_survive; [done|]. by apply has_pieces_shift. }
  intros r w2 (-> & Hk2 & Hc2). step. split; [by etransitivity|].
  intros z. unfold both_pieces. rewrite patches_app, (Hc2 z), patches_shift. by apply patches_proper.
Qed.
End pbr.

(** ** Formatting, then the boot record *)

Lemma take_boot_block l g hidden v : 512 <= BytesPerSect l ->
  take 90 (boot_block l g hidden v) = boot_sector_bytes (boot_sector l g hidden v).
Proof.
  intros Hb. unfold boot_block, fill_boot_sector. cbv zeta.
  set (bs := boot_sector_bytes _).
  assert (Ht : take 90 (splice 0 bs (replicate (Z.to_nat (BytesPerSect l)) 0)) = bs)
    by (apply splice_0_take, length_boot_sector_bytes).
  case_bool_decide; rewrite !take_insert_ge by lia; exact Ht.
Qed.

Definition fs_name : list Z := [0x46; 0x41; 0x54; 0x33; 0x32; 0x20; 0x20; 0x20].

Lemma boot_block_mark l g hidden v : 512 <= BytesPerSect l ->
  slice 82 8 (boot_block l g hidden v) = fs_name.
Proof.
  intros Hb. unfold slice. rewrite take_drop_commute. change (82 + 8)%nat with 90%nat.
  rewrite take_boot_block by done. reflexivity.
Qed.

Lemma has_piece_lookup f o bs i :
  has_piece f 0 (o, bs) -> 0 <= i < sizeof bs -> bs !! Z.to_nat i = Some (f (o + i)).
Proof.
  unfold has_piece. cbn [fst snd]. rewrite Z.add_0_r. intros Hbs Hi.
  rewrite <- Hbs, lookup_bytes_at by lia. do 2 f_equal. lia.
Qed.

Lemma has_piece_slice f o n m bs q :
  has_piece f 0 (o, bs) -> (n + m <= length bs)%nat -> slice n m bs = q -> length q = m ->
  has_piece f o (Z.of_nat n, q).
Proof.
  unfold has_piece. cbn [fst snd]. rewrite Z.add_0_r. intros Hbs Hn Hq Hm.
  rewrite Z.add_comm, Hm, <- Hq. rewrite <- (slice_bytes_at f o (length bs)) by done. by rewrite Hbs.
Qed.

Lemma pbr_pieces_code k : covered (pbr_pieces k) (br_code k ++ [(0x40, [0x80])]) = true.
Proof. destruct k; vm_compute; reflexivity. Qed.

(** The copies of the boot sector, in a volume that was formatted and given its
    boot record: the boot code, the drive number, and the rest of the
    parameters as in [boot]. *)
Definition boots (k : boot_kind) (bps : Z) (boot : list Z) (f : Z -> Z) : Prop :=
  forall o, o = 0 \/ o = 6 * bps ->
    has_pieces f o (br_code k) /\ f (o + 0x40) = 0x80 /\
    forall i, 0x0b <= i < 0x47 -> i ≠ 0x40 -> boot !! Z.to_nat i = Some (f (o + i)).

#[export] Instance boots_proper k bps boot : Proper (same_content ==> iff) (boots k bps boot).
Proof.
  assert (Hd : forall f g, same_content f g -> boots k bps boot f -> boots k bps boot g).
  { intros f g Hfg Hf o Ho. destruct (Hf o Ho) as (Hc & Hd & Hi). split_and!.
    - by eapply has_pieces_proper.
    - by rewrite <- (Hfg _).
    - intros i H1 H2. by rewrite <- (Hfg _), Hi. }
  intros f g Hfg. split; apply Hd; [done|by symmetry].
Qed.

(** Storing the records over two copies of the boot sector. *)
Lemma both_pieces_boot k bps boot f :
  is_fat32_kind k = true -> bps = 512 \/ bps = 2048 \/ bps = 4096 -> sizeof boot = bps ->
  has_pieces f 0 [(0, boot); (6 * bps, boot)] -> boots k bps boot (patches f 0 (both_pieces k bps)).
Proof.
  intros Hk Hb Hlen Hps.
  pose proof (copies_ok_all k bps Hk Hb) as Hok. unfold copies_ok in Hok.
  rewrite !andb_true_iff in Hok. destruct Hok as [[[[Hap _] Hs0] Hs6] _].
  apply has_pieces_patches with (f := f) (offset := 0) in Hap.
  apply Forall_app in Hap as [Hap0 Hap6]. unfold has_pieces in Hps; rewrite !Forall_cons in Hps. destruct Hps as (Hp0 & Hp6 & _).
  assert (Hgo : forall o, o = 0 \/ o = 6 * bps ->
    has_piece f 0 (o, boot) /\ forallb (spares_bpb o) (both_pieces k bps) = true /\
    has_pieces (patches f 0 (both_pieces k bps)) o (pbr_pieces k)).
  { intros o [->| ->]; split_and!; try done. by apply has_pieces_shift. }
  intros o Ho. destruct (Hgo o Ho) as (Hp & Hs & Hpcs).
  apply (has_pieces_covered _ _ _ _ (pbr_pieces_code k)), Forall_app in Hpcs as [Hcode Hdrv].
  split_and!; [exact Hcode| |].
  - apply Forall_inv in Hdrv. unfold has_piece in Hdrv. cbn [fst snd] in Hdrv.
    pose proof (lookup_bytes_at (patches f 0 (both_pieces k bps)) (0x40 + o) 1 0 ltac:(lia)) as Hd.
    change 1%nat with (length [0x80]) in Hd at 1. rewrite Hdrv in Hd.
    rewrite Z.add_0_r, Z.add_comm in Hd. by injection Hd.
  - intros i Hi Hne. rewrite patches_outside.
    + apply has_piece_lookup; [done|]. lia.
    + rewrite Z.sub_0_r. by apply (spares_bpb_outside o).
Qed.

(** What is stored after the first 32 sectors stays. *)
Lemma both_pieces_later k bps f ps :
  is_fat32_kind k = true -> bps = 512 \/ bps = 2048 \/ bps = 4096 ->
  Forall (fun pc => 32 * bps <= pc.1) ps ->
  has_pieces f 0 ps -> has_pieces (patches f 0 (both_pieces k bps)) 0 ps.
Proof.
  intros Hk Hb Hlow Hps.
  pose proof (copies_ok_all k bps Hk Hb) as Hok. unfold copies_ok in Hok.
  rewrite !andb_true_iff in Hok. destruct Hok as [_ Hend]. rewrite forallb_forall in Hend.
  apply has_pieces_survive; [|done]. apply forallb_forall. intros m Hm%list_elem_of_In.
  apply forallb_forall. intros pc Hpc. apply bool_decide_eq_true.
  specialize (Hend pc Hpc). apply bool_decide_eq_true in Hend.
  rewrite Forall_forall in Hlow. specialize (Hlow m Hm). right. lia.
Qed.

(** No byte after the first 32 sectors is stored to. *)
Lemma both_pieces_frame k bps f z :
  is_fat32_kind k = true -> bps = 512 \/ bps = 2048 \/ bps = 4096 -> 32 * bps <= z ->
  patches f 0 (both_pieces k bps) z = f z.
Proof.
  intros Hk Hb Hz. pose proof (copies_ok_all k bps Hk Hb) as Hok. unfold copies_ok in Hok.
  rewrite !andb_true_iff in Hok. destruct Hok as [_ Hend]. rewrite forallb_forall in Hend.
  apply patches_outside, Forall_forall. intros pc Hpc%list_elem_of_In.
  specialize (Hend pc Hpc). apply bool_decide_eq_true in Hend. lia.
Qed.

Section end_to_end.
Context {D : Type} `{OsLaws D} `{VolumeOs D} {g : geometry} {p : partition_information}.
Context `{!VolumeLaws g p}.
Implicit Types w : world D.
Context (s : settings) (open_volume : prog D bool) (unmount_volume set_label : prog D ()).

Abbreviation k := (fat32_kind s).

Lemma volume_region bps T w offset :
  bps = 512 \/ bps = 2048 \/ bps = 4096 -> volume bps T w -> 65536 <= T ->
  offset = 0 \/ offset = 6 * bps -> ulBytesPerSector w = bps -> region bps w offset BR_LIMIT.
Proof.
  intros Hb (Hr & Hdiv & Hb2 & HT & Hsz) HT2 Ho Hul.
  assert (HTb : 65536 * 512 <= T * bps) by nia.
  unfold region, BR_LIMIT, MAX_DATA_LEN. split_and!; try done; try lia.
  - destruct Hb as [->|[->| ->]]; [by exists 16|by exists 4|by exists 2].
  - destruct Ho as [->| ->]; [apply Z.divide_0_r|by exists 6].
Qed.

(** [WritePBR] on a formatted FAT32 volume: nothing changes after the first 32 sectors. *)
Lemma WritePBR_spec T l boot fsinfo fat w :
  let bps := BytesPerSect l in
  bps = 512 \/ bps = 2048 \/ bps = 4096 -> SectorSize s = bps -> actual_fs_type s = FS_FAT32 ->
  volume bps T w -> 65536 <= T -> 32 <= ReservedSectCount l -> 0 <= FatSize l ->
  length boot = Z.to_nat bps -> slice 82 8 boot = fs_name ->
  has_pieces (content w) 0 (structures l boot fsinfo fat) ->
  wp (WritePBR s) w (fun r w' => r = true /\ boots k bps boot (content w') /\
    has_pieces (content w') 0 (drop 4 (structures l boot fsinfo fat)) /\
    forall z, 32 * bps <= z -> content w' z = content w z).
Proof.
  intros bps Hb Hss Hfs Hv HT HR HF Hlen Hmark Hps.
  unfold has_pieces, structures in Hps. fold bps in Hps. rewrite Z.mul_0_l, !Forall_cons in Hps.
  destruct Hps as (Hp0 & _ & Hp6 & _ & Hfats).
  assert (Hbl : sizeof boot = bps) by (rewrite Hlen; destruct Hb as [->|[->| ->]]; done).
  unfold WritePBR. rewrite Hfs. unfold set_bytes_per_sector. step. step. set (w1 := set_ulBytesPerSector _ w).
  assert (Hc1 : content w1 = content w) by done.
  assert (Hul : ulBytesPerSector w1 = bps).
  { unfold w1. cbn. rewrite Hss. destruct Hb as [->|[->| ->]]; done. }
  assert (Hv1 : volume bps T w1) by exact Hv.
  assert (Hm : forall o, has_piece (content w) 0 (o, boot) -> has_pieces (content w1) o fat32_fs_mark).
  { intros o Ho. apply Forall_singleton, (has_piece_slice _ _ 82 8 boot); [done|lia|done|done]. }
  step. step. eapply wp_mono; [apply (fat32_pbr_loop_spec s bps w1); try done; auto|].
  1,2: eapply volume_region; eauto.
  intros ? w2 [_ Hc2]. step. step. split_and!; [done| | |].
  - rewrite Hc2, Hc1. apply both_pieces_boot; [apply fat32_kind_is_fat32|done|done|].
    by repeat constructor.
  - eapply has_pieces_proper; [symmetry; exact Hc2|]. rewrite Hc1. unfold structures. fold bps.
    apply both_pieces_later; [apply fat32_kind_is_fat32|done| |].
    2: { unfold has_pieces. cbn [drop]. by rewrite !Forall_cons. }
    assert (0 < bps) by lia. repeat constructor; cbn [fst]; nia.
  - intros z Hz. rewrite (Hc2 z), Hc1. by apply both_pieces_frame; [apply fat32_kind_is_fat32|..].
Qed.

(** C21: Formatting a large FAT32 volume, on a machine whose accesses succeed: when the
    volume has an accepted size and between 65536 and 2^28 clusters,
    [FormatLargeFAT32] succeeds. What it leaves when it comes to the partition boot record:
    the boot sector is in sectors 0 and 6, the file system information in
    sectors 1 and 7, the first sector of each of the two FATs has the entries of
    the reserved clusters and of the root directory, every other byte of the first
    [cleared] sectors is zero, and no later byte has changed. [cleared] is the system area -
    the reserved sectors, the FATs and the root cluster - and 127 to 254 sectors more, as
    the clearing goes by bursts of 128 sectors. Then comes the partition boot record, unless
    it is not wanted, which changes nothing from sector 32 on (sectors of 512, 2048 or 4096
    bytes; [format_boots] says what it stores before), and last the label, which the
    system sets. *)
Theorem format_large_fat32_content ClusterSize FSName no_boot w :
  let bps := BytesPerSector g in
  let l := compute_layout bps (PartitionLength p) (cluster_size ClusterSize (PartitionLength p)) in
  take 3 FSName = FAT ->
  bps = 512 \/ bps = 1024 \/ bps = 2048 \/ bps = 4096 ->
  65536 <= PartitionLength p / bps -> PartitionLength p / bps < 0xffffffff ->
  ClusterSize = 0 \/ 1 <= ClusterSize / bps <= 128 ->
  65536 <= ClusterCount l <= 0x0FFFFFFF ->
  IS_ERROR (ErrorStatus w) = false -> volume bps (PartitionLength p / bps) w -> volume_opens open_volume unmount_volume ->
  let VolumeId := GetVolumeID (GetLocalTime (machine w)).1 in
  let ps := structures l (boot_block l g (HiddenSectors p) VolumeId) (fsinfo_block l) (fat_block l) in
  exists cleared w3 w4,
    FormatLargeFAT32 s open_volume unmount_volume set_label ClusterSize FSName no_boot w =
      (Formatted true, (set_label w4).2) /\
    SystemAreaSize l + 127 <= cleared <= SystemAreaSize l + 254 /\
    has_pieces (content w3) 0 ps /\
    (forall z, 0 <= z < cleared * bps -> outside ps z -> content w3 z = 0) /\
    (forall z, cleared * bps <= z -> content w3 z = content w z) /\
    keeps w w3 /\
    w4 = (if no_boot then w3 else (WritePBR s w3).2) /\
    (bps ≠ 1024 -> SectorSize s = bps -> actual_fs_type s = FS_FAT32 ->
     forall z, 32 * bps <= z -> content w4 z = content w3 z).
Proof.
  intros bps l HFS Hbps Hs Hb Hc Hcc Herr Hv Hopen VolumeId ps.
  assert (Hvol : volume_ok bps (PartitionLength p) (cluster_size ClusterSize (PartitionLength p))).
  { unfold cluster_size. case_bool_decide; [by apply default_cluster_ok|]. constructor; [done..|lia]. }
  assert (Hneed : FatNeeded l <= FatSize l) by (by apply layout_fat_needed).
  pose proof (FormatLargeFAT32_spec s open_volume unmount_volume set_label ClusterSize FSName no_boot w
    HFS Hvol Hcc Hneed Herr Hv Hopen) as Hw.
  cbv zeta in Hw. apply wp_eval in Hw as (r & w' & Hrun & -> & w3 & Hk & Hc3 & ->).
  destruct (layout_bounds _ _ Hvol eq_refl) as (Hbl & Hbps2 & HR & HF & _).
  fold bps in Hbl, HR, HF, Hbps2. fold l in Hbl, HR, HF.
  destruct (length_sector_blocks l g (HiddenSectors p) VolumeId) as (Hlb & Hli & Hlf); [rewrite Hbl; lia|].
  rewrite Hbl in Hlb, Hli, Hlf.
  destruct (formatted_spec _ _ (content w) _ _ _ Hvol eq_refl Hlb Hli Hlf) as (Hps & Hcl & Hz & Hrest).
  assert (Hps3 : has_pieces (content w3) 0 ps) by (eapply has_pieces_proper; [symmetry; exact Hc3|exact Hps]).
  exists (128 * bursts (SystemAreaSize l)), w3, (if no_boot then w3 else (WritePBR s w3).2).
  split_and!; [exact Hrun|apply Hcl|apply Hcl|exact Hps3| | |exact Hk|done|].
  - intros z Hz1 Hz2. rewrite (Hc3 z). by apply Hz.
  - intros z Hz1. rewrite (Hc3 z). by apply Hrest.
  - intros H1024 Hss Hfs z Hz1. destruct no_boot; [done|].
    pose proof (WritePBR_spec (PartitionLength p / bps) l
      (boot_block l g (HiddenSectors p) VolumeId) (fsinfo_block l) (fat_block l) w3
      ltac:(rewrite Hbl; lia) ltac:(by rewrite Hbl) Hfs
      ltac:(rewrite Hbl; by eapply volume_keeps) Hs HR ltac:(lia) ltac:(by rewrite Hbl)
      (boot_block_mark l g (HiddenSectors p) VolumeId ltac:(rewrite Hbl; lia)) Hps3) as Hp.
    apply wp_eval in Hp as (r & w4 & -> & _ & _ & _ & Hframe). cbn. apply Hframe. by rewrite Hbl.
Qed.

(** C18: Formatting a FAT32 volume that is to boot, end to end, on a machine whose
    accesses succeed and sectors of 512, 2048 or 4096 bytes: when the partition
    boot record is written too, [FormatLargeFAT32] succeeds and, when the label
    comes to be set, sector 0 and its copy in sector 6 both have all the pieces
    of the boot code that the settings ask for, the drive number 0x80 and, at
    every other byte of the parameter block, what the layout computed: writing
    the second record over the first pieces, the file system information and
    the backup sectors damages none of them. The first sectors of the two FATs
    still have their entries. *)
Theorem format_boots ClusterSize FSName w :
  let bps := BytesPerSector g in
  let l := compute_layout bps (PartitionLength p) (cluster_size ClusterSize (PartitionLength p)) in
  take 3 FSName = FAT ->
  bps = 512 \/ bps = 2048 \/ bps = 4096 ->
  65536 <= PartitionLength p / bps -> PartitionLength p / bps < 0xffffffff ->
  ClusterSize = 0 \/ 1 <= ClusterSize / bps <= 128 ->
  65536 <= ClusterCount l <= 0x0FFFFFFF ->
  IS_ERROR (ErrorStatus w) = false -> volume bps (PartitionLength p / bps) w -> volume_opens open_volume unmount_volume ->
  SectorSize s = bps -> actual_fs_type s = FS_FAT32 ->
  let boot := boot_block l g (HiddenSectors p) (GetVolumeID (GetLocalTime (machine w)).1) in
  exists w4,
    FormatLargeFAT32 s open_volume unmount_volume set_label ClusterSize FSName false w =
      (Formatted true, (set_label w4).2) /\
    boots (fat32_kind s) bps boot (content w4) /\
    take 90 boot = boot_sector_bytes (boot_sector l g (HiddenSectors p) (GetVolumeID (GetLocalTime (machine w)).1)) /\
    has_pieces (content w4) 0
      [(ReservedSectCount l * bps, fat_block l); ((ReservedSectCount l + FatSize l) * bps, fat_block l)].
Proof.
  intros bps l HFS Hbps Hs Hb Hc Hcc Herr Hv Hopen Hss Hfs boot.
  assert (Hvol : volume_ok bps (PartitionLength p) (cluster_size ClusterSize (PartitionLength p))).
  { unfold cluster_size. case_bool_decide; [apply default_cluster_ok; lia|]. constructor; lia. }
  assert (Hneed : FatNeeded l <= FatSize l) by (by apply layout_fat_needed).
  pose proof (FormatLargeFAT32_spec s open_volume unmount_volume set_label ClusterSize FSName false w
    HFS Hvol Hcc Hneed Herr Hv Hopen) as Hw.
  cbv zeta in Hw. apply wp_eval in Hw as (r & w' & Hrun & -> & w3 & Hk & Hc3 & ->).
  destruct (layout_bounds _ _ Hvol eq_refl) as (Hbl & Hbps2 & HR & HF & _).
  fold bps in Hbl, HR, HF. fold l in Hbl, HR, HF. fold bps in Hbps2.
  destruct (length_sector_blocks l g (HiddenSectors p) (GetVolumeID (GetLocalTime (machine w)).1))
    as (Hlb & Hli & Hlf); [rewrite Hbl; lia|]. rewrite Hbl in Hlb, Hli, Hlf.
  destruct (formatted_spec _ _ (content w) _ _ _ Hvol eq_refl Hlb Hli Hlf) as (Hps & _).
  pose proof (WritePBR_spec (PartitionLength p / bps) l boot (fsinfo_block l) (fat_block l) w3) as Hp.
  cbv zeta in Hp. rewrite Hbl in Hp. apply wp_eval in Hp as (r & w4 & Hpbr & -> & Hboots & Hfats & _); try done; try lia.
  2: { by eapply volume_keeps. }
  2: { apply boot_block_mark. lia. }
  2: { eapply has_pieces_proper; [symmetry; exact Hc3|exact Hps]. }
  exists w4. split_and!; [|exact Hboots|apply take_boot_block; lia|].
  - rewrite Hrun. unfold finish. by rewrite Hpbr.
  - unfold structures in Hfats. cbn [drop] in Hfats. by rewrite Hbl in Hfats.
Qed.
End end_to_end.

Lemma format_large_fat32_content_witness :
  let bps := BytesPerSector sample_geometry in
  let l := compute_layout bps (PartitionLength sample_partition)
             (cluster_size 0 (PartitionLength sample_partition)) in
  let VolumeId := GetVolumeID (GetLocalTime (machine fat32_volume)).1 in
  let ps := structures l (boot_block l sample_geometry (HiddenSectors sample_partition) VolumeId)
              (fsinfo_block l) (fat_block l) in
  let s := sample_settings BT_FREEDOS FS_FAT32 in
  exists cleared w3 w4,
    FormatLargeFAT32 s (mret true) (mret ()) (mret ()) 0 (FAT ++ [0x33; 0x32]) false fat32_volume =
      (Formatted true, w4) /\
    SystemAreaSize l + 127 <= cleared <= SystemAreaSize l + 254 /\
    has_pieces (content w3) 0 ps /\
    (forall z, 0 <= z < cleared * bps -> outside ps z -> content w3 z = 0) /\
    (forall z, cleared * bps <= z -> content w3 z = content fat32_volume z) /\
    keeps fat32_volume w3 /\
    w4 = (WritePBR s w3).2 /\
    (bps ≠ 1024 -> SectorSize s = bps -> actual_fs_type s = FS_FAT32 ->
     forall z, 32 * bps <= z -> content w4 z = content w3 z).
Proof.
  refine (format_large_fat32_content (g := sample_geometry) (p := sample_partition)
    (sample_settings BT_FREEDOS FS_FAT32) (mret true) (mret ()) (mret ())
    0 (FAT ++ [0x33; 0x32]) false fat32_volume _ _ _ _ _ _ _ _ _).
  - reflexivity.
  - by left.
  - vm_compute. discriminate.
  - vm_compute. reflexivity.
  - by left.
  - vm_compute. split; discriminate.
  - reflexivity.
  - exact fat32_volume_ok.
  - exact mem_volume_opens.
Defined.

Lemma format_boots_witness :
  let bps := BytesPerSector sample_geometry in
  let l := compute_layout bps (PartitionLength sample_partition)
             (cluster_size 0 (PartitionLength sample_partition)) in
  let s := sample_settings BT_FREEDOS FS_FAT32 in
  let boot := boot_block l sample_geometry (HiddenSectors sample_partition)
                (GetVolumeID (GetLocalTime (machine fat32_volume)).1) in
  exists w4,
    FormatLargeFAT32 s (mret true) (mret ()) (mret ()) 0 (FAT ++ [0x33; 0x32]) false fat32_volume =
      (Formatted true, w4) /\
    boots Fat32Fd bps boot (content w4) /\
    take 90 boot = boot_sector_bytes (boot_sector l sample_geometry (HiddenSectors sample_partition)
      (GetVolumeID (GetLocalTime (machine fat32_volume)).1)) /\
    has_pieces (content w4) 0
      [(ReservedSectCount l * bps, fat_block l); ((ReservedSectCount l + FatSize l) * bps, fat_block l)].
Proof.
  refine (format_boots (g := sample_geometry) (p := sample_partition)
    (sample_settings BT_FREEDOS FS_FAT32) (mret true) (mret ()) (mret ())
    0 (FAT ++ [0x33; 0x32]) fat32_volume _ _ _ _ _ _ _ _ _ _ _).
  - reflexivity.
  - by left.
  - vm_compute. discriminate.
  - vm_compute. reflexivity.
  - by left.
  - vm_compute. split; discriminate.
  - reflexivity.
  - exact fat32_volume_ok.
  - exact mem_volume_opens.
  - reflexivity.
  - reflexivity.
Defined.

(** [WritePBR] reports success on FAT32 whatever happens: the [break]s of that
    case only leave the loop over the two copies. *)
Lemma write_pbr_fat32_always_true {D : Type} `{Os D} s (w : world D) :
  actual_fs_type s = FS_FAT32 -> (WritePBR s w).1 = true.
Proof.
  intros Hfs. unfold WritePBR. rewrite Hfs. unfold mbind, prog_bind, mret, prog_ret.
  destruct (set_bytes_per_sector _ w) as [[] w1]. by destruct (fat32_pbr_loop s 2 0 w1) as [[] w2].
Qed.

(** A disk where every try of the first write fails, and the rest works. *)
Definition failing_write : world mem_disk :=
  mkWorld (mkMem (fun z => z mod 251) (40 * MB) 512 0
    [Works; Fails 29; Fails 29; Fails 29; Fails 29] 0 0xCD) 0 0 false 512.

(** [WriteMBR] takes the -1 of a failed [write_sectors] for success: it goes on,
    returns TRUE with no error set, and the partition type and the boot
    flag were not corrected. *)
Example write_mbr_misses_failure :
  let '(r, w) := WriteMBR (sample_settings BT_FREEDOS FS_FAT32) failing_write in
  r = true /\ ErrorStatus w = 0 /\
  bytes_at (content w) 446 5 = bytes_at (content failing_write) 446 5.
Proof. vm_compute. split_and!; reflexivity. Qed.

(** When the write works both are corrected. *)
Example write_mbr_corrects :
  let '(r, w) := WriteMBR (sample_settings BT_FREEDOS FS_FAT32) fat32_volume in
  r = true /\ ErrorStatus w = 0 /\ bytes_at (content w) 446 5 = [0x80; 196; 197; 198; 0x0c].
Proof. vm_compute. split_and!; reflexivity. Qed.

(** The default cluster size is rejected for volumes of exactly 64, 128 and 256 MB,
    although the message of the rejection advises to use the default. *)
Example default_cluster_rejected :
  Forall (fun size => ClusterCount (compute_layout 512 size (cluster_size 0 size)) < 65536)
    [64 * MB; 128 * MB; 256 * MB].
Proof. repeat constructor. Qed.

(** One byte per sector less and the smaller clusters are chosen. *)
Example default_cluster_accepted :
  Forall (fun size => 65536 <= ClusterCount (compute_layout 512 size (cluster_size 0 size)))
    [64 * MB - 512; 128 * MB - 512; 256 * MB - 512].
Proof. repeat constructor; vm_compute; discriminate. Qed.
