(* ===== verification/ClearProps.v ===== *)
(** ClearProps: clearing the partition tables ([ClearMBRGPT] of Format.v). *)

From S2P Require Import Prelude Disk DiskCorrect MemDisk BootRecordsCorrect.
From S2P Require Import Format Fat32 Fat32Correct.

(** The number of sectors that are cleared at the start of the disk. *)
Definition sectors_to_clear (s : settings) (add1MB : bool) : Z :=
  let most := if add1MB then 2176 else 128 in
  if bool_decide (Z.min (FirstDataSector s) most < 4) then most else Z.min (FirstDataSector s) most.

Lemma sectors_to_clear_bounds s add1MB : 0 <= FirstDataSector s ->
  4 <= sectors_to_clear s add1MB <= 2176 /\
  (sectors_to_clear s add1MB < 128 <-> 4 <= FirstDataSector s < 128) /\
  (4 <= FirstDataSector s ->
   sectors_to_clear s add1MB = Z.min (FirstDataSector s) (if add1MB then 2176 else 128)) /\
  (FirstDataSector s < 4 -> sectors_to_clear s add1MB = if add1MB then 2176 else 128).
Proof. intros. unfold sectors_to_clear. destruct add1MB; case_bool_decide; lia. Qed.

Section clear.
Context {D : Type} `{OsLaws D} (s : settings).
Implicit Types w : world D.

(** Writing zeros at the file pointer. *)
Lemma write_zeros_spec n w :
  let p := file_pos (machine w) in
  reliable (machine w) -> 0 <= p -> 0 <= n -> on_disk w p n ->
  wp (WriteFileWithRetry (replicate (Z.to_nat n) 0) WRITE_RETRIES) w (fun r w' =>
    r.1 = true /\ keeps w w' /\ same_content (content w') (zeroed (content w) p (p + n))).
Proof.
  intros p Hr Hp Hn Ho. eapply wp_mono; [apply WriteFileWithRetry_spec|]. cbv zeta.
  rewrite length_replicate, Z2Nat.id by lia. intros r w' ((Hk & _ & Hc) & _ & Hgood).
  destruct Hgood as [-> _]; [done|by apply (on_disk_aligned w w p)|].
  split_and!; [done|done|]. intros z. rewrite Hc by done. rewrite patch_zeros, Z2Nat.id by lia. done.
Qed.

(** Seeking to where zeros are to be written. *)
Lemma seek_ready p n w :
  reliable (machine w) -> 0 <= p -> on_disk w p n ->
  wp (call (SetFilePointerEx p FILE_BEGIN)) w (fun q w' =>
    is_Some q /\ looked w w' /\ file_pos (machine w') = p /\ reliable (machine w') /\ on_disk w' p n).
Proof.
  intros Hr Hp Ho. eapply wp_mono; [apply seek_spec|]. intros q w1 (Hl1 & Hpos & Hq).
  pose proof (Hq Hr Hp) as Hs. split_and!; [done|done|by apply Hpos|..].
  - by eapply keeps_reliable; [apply Hl1|].
  - by eapply keeps_on_disk; [apply Hl1|].
Qed.

Lemma ClearMBRGPT_spec DiskSize ss add1MB w :
  let n := sectors_to_clear s add1MB in
  reliable (machine w) -> user_cancel (ErrorStatus w) = false -> 0 <= FirstDataSector s ->
  0 < ss <= 65536 -> (disk_sector (machine w) | ss) -> (disk_sector (machine w) | DiskSize) ->
  disk_size (machine w) = DiskSize -> n * ss <= DiskSize -> 128 * ss <= DiskSize ->
  wp (ClearMBRGPT s DiskSize ss add1MB) w (fun r w' =>
    let head := zeroed (content w) 0 (n * ss) in
    if bool_decide (n < 128) then r = None /\ same_content (content w') head
    else r = Some true /\ keeps w w' /\
      same_content (content w') (zeroed head (DiskSize - 128 * ss) DiskSize)).
Proof.
  intros n Hr Hcan HF Hss Hdiv Hdiv2 Hsize Hn H128.
  destruct (sectors_to_clear_bounds s add1MB HF) as [Hnb _]. fold n in Hnb.
  unfold ClearMBRGPT. cbv zeta.
  assert (Hnum : forall most, most = u32 ((if add1MB then 2048 else 0) + MAX_SECTORS_TO_CLEAR) ->
    (if bool_decide (Z.min (FirstDataSector s) most < 4) then most else Z.min (FirstDataSector s) most) = n).
  { intros most ->. unfold n, sectors_to_clear. by destruct add1MB. }
  rewrite (Hnum _ eq_refl). change MAX_SECTORS_TO_CLEAR with 128.
  assert (Hnss : 0 <= ss * n < 2 ^ 32) by nia.
  rewrite (uwrap_small 32 (ss * n)), (uwrap_small 32 (ss * 128)) by lia. step. eapply wp_mono; [apply calloc_spec|].
  intros b w1 [Hl1 Hb]. rewrite (Hb Hr), !take_replicate, !length_replicate.
  assert (Hk1 : keeps w w1) by apply Hl1.
  step. eapply wp_mono; [apply (seek_ready 0 (ss * n));
    [by eapply keeps_reliable|lia|eapply keeps_on_disk; [done|split_and!]]|].
  { apply Z.divide_0_r. } { by apply Z.divide_mul_l. } { lia. }
  intros q w2 (_ & Hl2 & Hpos2 & Hr2 & Ho2). rewrite Nat.min_id.
  step. eapply wp_mono; [apply write_zeros_spec; rewrite ?Hpos2; done || lia|].
  rewrite Hpos2. intros r w3 (-> & Hk3 & Hc3). cbn [negb].
  assert (Hk : keeps w w3) by (etransitivity; [exact Hk1|etransitivity; [apply Hl2|done]]).
  assert (Hc : same_content (content w3) (zeroed (content w) 0 (n * ss))).
  { intros z. rewrite (Hc3 z). unfold zeroed. rewrite (proj2 Hl2 z), (proj2 Hl1 z).
    by replace (0 + ss * n) with (n * ss) by lia. }
  step. step. assert (Hes : ErrorStatus w3 = ErrorStatus w) by apply Hk. rewrite Hes, Hcan.
  step. eapply wp_mono; [apply (seek_ready (DiskSize - ss * 128) (ss * 128));
    [by eapply keeps_reliable|lia|eapply keeps_on_disk; [done|split_and!]]|].
  { apply Z.divide_sub_r; [done|]. by apply Z.divide_mul_l. } { by apply Z.divide_mul_l. } { lia. }
  intros q2 w4 (Hq & Hl4 & Hpos4 & Hr4 & Ho4). destruct Hq as [x ->].
  assert (Hnlt : (Z.to_nat (ss * n) < Z.to_nat (ss * 128))%nat <-> n < 128) by nia.
  rewrite (bool_decide_ext _ _ Hnlt). case_bool_decide as Hlt.
  - step. split; [done|]. intros z. by rewrite (proj2 Hl4 z), (Hc z).
  - replace (Z.to_nat (ss * 128) `min` Z.to_nat (ss * n))%nat with (Z.to_nat (ss * 128)) by nia.
    step. eapply wp_mono; [apply write_zeros_spec; rewrite ?Hpos4; done || lia|].
    rewrite Hpos4. intros r5 w5 (_ & Hk5 & Hc5). step. split_and!; [done|..].
    + etransitivity; [exact Hk|]. etransitivity; [apply Hl4|done].
    + intros z. rewrite (Hc5 z). unfold zeroed at 1 3. rewrite (proj2 Hl4 z), (Hc z).
      replace (DiskSize - ss * 128 + ss * 128) with DiskSize by lia.
      by replace (ss * 128) with (128 * ss) by lia.
Qed.
End clear.

(** C37: Clearing the partition tables, on a machine whose accesses succeed:
    [ClearMBRGPT] zeroes the first [n] sectors and the last 128 sectors of the
    disk, changes no other byte and returns TRUE. [n] is the number of sectors before the
    first partition, but at most 128 (2176 when 1 MB is added); when the first partition
    starts before sector 4 it is 128 (or 2176) all the same, over the partition. But when the first partition starts in the
    sectors 4 to 127, and only then, the second write reads 128 sectors from a
    block that has fewer; the first sectors have been zeroed by then. *)
Theorem clear_mbr_gpt {D : Type} `{OsLaws D} s DiskSize ss add1MB (w : world D) :
  let n := sectors_to_clear s add1MB in
  reliable (machine w) -> user_cancel (ErrorStatus w) = false -> 0 <= FirstDataSector s ->
  0 < ss <= 65536 -> (disk_sector (machine w) | ss) -> (disk_sector (machine w) | DiskSize) ->
  disk_size (machine w) = DiskSize -> n * ss <= DiskSize -> 128 * ss <= DiskSize ->
  exists r w', ClearMBRGPT s DiskSize ss add1MB w = (r, w') /\
    (4 <= FirstDataSector s -> n = Z.min (FirstDataSector s) (if add1MB then 2176 else 128)) /\
    (FirstDataSector s < 4 -> n = if add1MB then 2176 else 128) /\
    (r = None <-> 4 <= FirstDataSector s < 128) /\
    (forall z, 0 <= z < n * ss -> content w' z = 0) /\
    (r ≠ None ->
      r = Some true /\
      (forall z, DiskSize - 128 * ss <= z < DiskSize -> content w' z = 0) /\
      (forall z, n * ss <= z < DiskSize - 128 * ss -> content w' z = content w z)).
Proof.
  intros n Hr Hcan HF Hss Hdiv Hdiv2 Hsize Hn H128.
  pose proof (ClearMBRGPT_spec s DiskSize ss add1MB w Hr Hcan HF Hss Hdiv Hdiv2 Hsize Hn H128) as Hw.
  apply wp_eval in Hw as (r & w' & Hrun & Hw). exists r, w'.
  destruct (sectors_to_clear_bounds s add1MB HF) as (Hnb & Hiff & Hle & Hlt4). fold n in Hnb, Hiff, Hle, Hlt4, Hw.
  split; [done|]. split; [done|]. split; [done|].
  rewrite <- Hiff. case_bool_decide as Hlt.
  - destruct Hw as [-> Hc]. split_and!; [done| |done]. intros z Hz. rewrite (Hc z).
    unfold zeroed. by rewrite bool_decide_true by lia.
  - destruct Hw as (-> & _ & Hc). split; [by split; [|lia]|].
    split; [|intros _; split; [done|split]];
      intros z Hz; rewrite (Hc z); unfold zeroed; repeat case_bool_decide; done || lia.
Qed.

(** A disk of 1 MB with a partition at sector 63, as old systems placed it. *)
Definition old_settings : settings :=
  mkSettings 512 63 32256 PARTITION_STYLE_MBR BT_FREEDOS TT_BIOS FS_FAT32 FS_FAT32 FS_FAT32
    (mkReport 0 true false false false false false 0) false false.
Definition old_disk : world mem_disk :=
  mkWorld (mkMem (fun z => z mod 251) MB 512 0 [] 0 0xCD) 0 0 false 512.

Lemma clear_mbr_gpt_witness :
  let n := sectors_to_clear old_settings false in
  exists r w', ClearMBRGPT old_settings MB 512 false old_disk = (r, w') /\
    (4 <= FirstDataSector old_settings -> n = Z.min (FirstDataSector old_settings) 128) /\
    (FirstDataSector old_settings < 4 -> n = 128) /\
    (r = None <-> 4 <= FirstDataSector old_settings < 128) /\
    (forall z, 0 <= z < n * 512 -> content w' z = 0) /\
    (r ≠ None ->
      r = Some true /\
      (forall z, MB - 128 * 512 <= z < MB -> content w' z = 0) /\
      (forall z, n * 512 <= z < MB - 128 * 512 -> content w' z = content old_disk z)).
Proof.
  refine (clear_mbr_gpt old_settings MB 512 false old_disk _ _ _ _ _ _ _ _ _).
  - reflexivity.
  - reflexivity.
  - vm_compute. discriminate.
  - lia.
  - by exists 1.
  - by exists 2048.
  - reflexivity.
  - vm_compute. discriminate.
  - vm_compute. discriminate.
Defined.

(** The over-read happens there; a partition that is aligned on 1 MB is safe. *)
Example clear_old_disk : (ClearMBRGPT old_settings MB 512 false old_disk).1 = None.
Proof. vm_compute. reflexivity. Qed.
Example clear_new_disk :
  (ClearMBRGPT (sample_settings BT_FREEDOS FS_FAT32) MB 512 false old_disk).1 = Some true.
Proof. vm_compute. reflexivity. Qed.
