(* ===== verification/Partition.v ===== *)
(** Partition: the creation of the partition table, [CreatePartition] of
    src/src/drive.c.

    The placement of the partitions is the pure function [plan]; the clearing of
    their first sectors, the UEFI:NTFS image and the layout that is handed to
    the system are calls in the program monad. The names of the partitions, by
    which the source recognises them, are the constructors of [partition_name]. *)

From S2P Require Import Prelude Disk Format.

#[local] Open Scope prog_scope.

Definition XP_MSR : Z := 0x01.
Definition XP_ESP : Z := 0x02.
Definition XP_UEFI_NTFS : Z := 0x04.
Definition XP_COMPAT : Z := 0x08.
Definition XP_PERSISTENCE : Z := 0x10.
Definition MAX_PARTITIONS : nat := 16.
Definition RUFUS_EXTRA_PARTITION_TYPE : Z := 0xea.
Definition MBR_UEFI_MARKER : Z := 0x49464555.

(** [extra_partitions & x] as a condition. *)
Definition wants (extra_partitions x : Z) : bool := negb (bool_decide (Z.land extra_partitions x = 0)).

(** In 64-bit arithmetic. *)
Definition FLOOR_ALIGN (x y : Z) : Z := x / y * y.
Definition CEILING_ALIGN (x y : Z) : Z := u64 (x + y - 1) / y * y.

Inductive partition_name :=
  | EfiSystemPartition | MicrosoftReservedPartition | MainDataPartition
  | LinuxPersistence | UefiNtfs | BiosCompatibility.

#[export] Instance partition_name_eq_dec : EqDecision partition_name.
Proof. solve_decision. Defined.

Record partition := mkPart { Name : partition_name; Offset : Z; Size : Z }.

(** The rest of [SelectedDrive], and what the dialog and the system say. *)
Record drive := mkDrive {
  DiskSize : Z;
  SectorsPerTrack : Z;
  fixed_media : bool;
  BuildNumber : Z;
  cluster_item : Z;
  old_bios_fixes : bool;
  write_as_esp : bool;
  persistence_size : Z;
}.

(** The partitions and the index of the main one; an assertion that fails, which
    ends the program; or an error. *)
Inductive plan_result := Plan (ps : list partition) (mi : nat) | PlanAsserts | PlanFails.

(** ** Where the partitions go *)

Section plan.
Context (s : settings) (d : drive).

Definition bytes_per_track : Z := SectorsPerTrack d * SectorSize s.
Definition ClusterSize : Z := if bool_decide (cluster_item d = 0) then 0x200 else cluster_item d.
Definition esp_size : Z := 260 * MB.

Definition first_offset (style : partition_style) : Z :=
  if orb (bool_decide (style = PARTITION_STYLE_GPT)) (negb (old_bios_fixes d)) then 1 * MB
  else CEILING_ALIGN bytes_per_track ClusterSize * 2.

(** The start of the partition after one that ends at [o]. *)
Definition align_next (o : Z) : Z :=
  let o := CEILING_ALIGN o bytes_per_track in
  if bool_decide (ClusterSize mod SectorSize s = 0) then FLOOR_ALIGN o ClusterSize else o.

(** A partition before the main one, at [offset], and the offset of the next; [None]
    when the assertion on this offset fails. *)
Definition place_front (style : partition_style) (name : partition_name) (size offset : Z)
    : option (list partition * Z) :=
  if negb (bool_decide (style = PARTITION_STYLE_GPT)) then None
  else
    let next := align_next (u64 (offset + size)) in
    if bool_decide (next >= u64 (offset + size)) then Some ([mkPart name offset size], next) else None.

(** The ESP, when it can come first, and the MSR; what is left of the flags. *)
Definition place_esp (style : partition_style) (extra offset : Z) : option (list partition * Z * Z) :=
  if andb (orb (fixed_media d) (bool_decide (BuildNumber d > 15000))) (wants extra XP_ESP)
  then '(ps, next) ← place_front style EfiSystemPartition esp_size offset; Some (ps, next, Z.ldiff extra XP_ESP)
  else Some ([], offset, extra).

Definition place_msr (style : partition_style) (extra offset : Z) : option (list partition * Z * Z) :=
  if wants extra XP_MSR
  then '(ps, next) ← place_front style MicrosoftReservedPartition (128 * MB) offset;
       Some (ps, next, Z.ldiff extra XP_MSR)
  else Some ([], offset, extra).

(** The names and sizes of the partitions after the main one. *)
Definition back_sizes (extra uefi_ntfs_size : Z) : option (list (partition_name * Z)) :=
  casper ← (if wants extra XP_PERSISTENCE then
              if bool_decide (persistence_size d = 0) then None
              else Some [(LinuxPersistence, CEILING_ALIGN (persistence_size d) bytes_per_track)]
            else Some []);
  Some (casper ++
    (if wants extra XP_ESP then [(EfiSystemPartition, CEILING_ALIGN esp_size bytes_per_track)]
     else if wants extra XP_UEFI_NTFS then [(UefiNtfs, CEILING_ALIGN uefi_ntfs_size bytes_per_track)]
     else if wants extra XP_COMPAT then [(BiosCompatibility, bytes_per_track)]
     else [])).

(** The loop that places them, from the last one down. *)
Fixpoint place_back (last_offset : Z) (sizes : list (partition_name * Z)) : option (list partition * Z) :=
  match sizes with
  | [] => Some ([], last_offset)
  | (name, size) :: sizes =>
      '(ps, last_offset) ← place_back last_offset sizes;
      if bool_decide (size < last_offset) then
        let o := FLOOR_ALIGN (u64 (last_offset - size)) bytes_per_track in
        Some (mkPart name o size :: ps, o)
      else None
  end.

(** The size of the main partition, between its offset and the first one after it. *)
Definition main_size (offset last_offset : Z) : Z :=
  let size := FLOOR_ALIGN (u64 (last_offset - offset)) bytes_per_track in
  if bool_decide (ClusterSize mod SectorSize s = 0) then FLOOR_ALIGN size ClusterSize else size.

Definition usable_end (style : partition_style) : Z :=
  if bool_decide (style = PARTITION_STYLE_GPT) then u64 (DiskSize d - 33 * SectorSize s) else DiskSize d.

Definition place_all (style : partition_style) (extra uefi_ntfs_size : Z)
    : option (list partition * list partition * Z * Z) :=
  '(esp, offset, extra) ← place_esp style extra (first_offset style);
  '(msr, offset, extra) ← place_msr style extra offset;
  sizes ← back_sizes extra uefi_ntfs_size;
  if bool_decide (length (esp ++ msr) + 1 + length sizes <= MAX_PARTITIONS)%nat then
    '(back, last_offset) ← place_back (usable_end style) sizes;
    if bool_decide (last_offset > offset) then Some (esp ++ msr, back, offset, last_offset) else None
  else None.

Definition plan (style : partition_style) (extra uefi_ntfs_size : Z) : plan_result :=
  match place_all style extra uefi_ntfs_size with
  | None => PlanAsserts
  | Some (front, back, offset, last_offset) =>
      let size := main_size offset last_offset in
      let name := if write_as_esp d then EfiSystemPartition else MainDataPartition in
      if bool_decide (size <= 0) then PlanFails
      else Plan (front ++ mkPart name offset size :: back) (length front)
  end.
End plan.

(** ** What the system is told *)

Inductive gpt_partition_type :=
  | PARTITION_MICROSOFT_DATA | PARTITION_GENERIC_ESP | PARTITION_LINUX_DATA | PARTITION_MICROSOFT_RESERVED.

Definition GPT_BASIC_DATA_ATTRIBUTE_NO_DRIVE_LETTER : Z := 0x8000000000000000.
Definition GPT_BASIC_DATA_ATTRIBUTE_READ_ONLY : Z := 0x1000000000000000.

(** The part of [PARTITION_INFORMATION_EX] that depends on the style. *)
Inductive style_entry :=
  | MbrEntry (BootIndicator : bool) (PartitionType : Z)
  | GptEntry (PartitionType : gpt_partition_type) (Attributes : Z) (PartitionId : Z) (name : partition_name).

Record layout_entry := mkEntry {
  StartingOffset : Z;
  PartitionLength : Z;
  PartitionNumber : Z;
  entry_style : style_entry;
}.

Inductive create_disk :=
  | CreateMbr (Signature : Z)
  | CreateGpt (DiskId : Z) (MaxPartitionCount : nat).

(** [DRIVE_LAYOUT_INFORMATION_EX4]; [usable] is the start and the length of the
    space that a GPT can use. *)
Record drive_layout := mkDriveLayout {
  PartitionCount : Z;
  disk_style : create_disk;
  usable : option (Z * Z);
  entries : list layout_entry;
}.

Inductive create_result := Returned (ok : bool) | Aborted.

(** The calls of this function on the drive, besides those of [Os]. *)
Class PartitionOs (D : Type) := {
  GetTickCount64 : D -> Z * D;
  CoCreateGuid : D -> Z * D;
  IOCTL_DISK_CREATE_DISK : create_disk -> D -> bool * D;
  IOCTL_DISK_UPDATE_PROPERTIES : D -> bool * D;
  IOCTL_DISK_SET_DRIVE_LAYOUT_EX : drive_layout -> D -> bool * D;
}.

Section create.
Context {D : Type} `{Os D} `{PartitionOs D} (s : settings) (d : drive).

(** [uefi_ntfs]: the resource with the UEFI:NTFS image. *)
Context (uefi_ntfs : option (list Z)).

Definition ClearPartition (offset size : Z) : prog D bool :=
  buffer ← call (calloc size);
  match buffer with
  | None => mret false
  | Some buffer =>
      p ← call (SetFilePointerEx offset FILE_BEGIN);
      match p with
      | None => mret false
      | Some _ => r ← WriteFileWithRetry buffer WRITE_RETRIES; mret (fst r)
      end
  end.

Definition main_mbr_type (file_system : fs_type) : option Z :=
  match file_system with
  | FS_FAT16 => Some 0x0e
  | FS_NTFS | FS_EXFAT | FS_UDF | FS_REFS => Some 0x07
  | FS_EXT2 | FS_EXT3 | FS_EXT4 => Some 0x83
  | FS_FAT32 => Some 0x0c
  | _ => None
  end.

(** [main]: this is the main partition. [None]: its file system is not supported. *)
Definition mbr_entry (file_system : fs_type) (main : bool) (name : partition_name) : option style_entry :=
  type ← (if main then main_mbr_type file_system else Some 0);
  Some (MbrEntry (andb main (negb (bool_decide (boot s = BT_NON_BOOTABLE))))
    match name with
    | EfiSystemPartition | UefiNtfs => 0xef
    | LinuxPersistence => 0x83
    | BiosCompatibility => RUFUS_EXTRA_PARTITION_TYPE
    | MicrosoftReservedPartition | MainDataPartition => type
    end).

Definition gpt_entry (name : partition_name) (PartitionId : Z) : style_entry :=
  match name with
  | UefiNtfs => GptEntry PARTITION_MICROSOFT_DATA
      (GPT_BASIC_DATA_ATTRIBUTE_NO_DRIVE_LETTER + GPT_BASIC_DATA_ATTRIBUTE_READ_ONLY) PartitionId name
  | EfiSystemPartition => GptEntry PARTITION_GENERIC_ESP 0 PartitionId name
  | LinuxPersistence => GptEntry PARTITION_LINUX_DATA 0 PartitionId name
  | MicrosoftReservedPartition => GptEntry PARTITION_MICROSOFT_RESERVED 0 PartitionId name
  | MainDataPartition | BiosCompatibility => GptEntry PARTITION_MICROSOFT_DATA 0 PartitionId name
  end.

(** The style of the entry of one partition. *)
Definition make_entry (style : partition_style) (file_system : fs_type) (main : bool)
    (name : partition_name) : prog D (option style_entry) :=
  match style with
  | PARTITION_STYLE_MBR => mret (mbr_entry file_system main name)
  | _ => guid ← call CoCreateGuid; mret (Some (gpt_entry name guid))
  end.

(** The loop over the partitions, from index [i] on: clear, then describe. [None]: the
    function returns FALSE. *)
Fixpoint build_layout (style : partition_style) (file_system : fs_type) (mi i : nat) (ps : list partition)
    : prog D (option (list layout_entry)) :=
  match ps with
  | [] => mret (Some [])
  | p :: ps =>
      let size_to_clear := u32 (MAX_SECTORS_TO_CLEAR * SectorSize s) in
      _ ← ClearPartition (Offset p) (u32 (Z.min size_to_clear (Size p)));
      e ← make_entry style file_system (bool_decide (i = mi)) (Name p);
      match e with
      | None => mret None
      | Some e =>
          es ← build_layout style file_system mi (S i) ps;
          mret ((fun es => mkEntry (Offset p) (Size p) (Z.of_nat i + 1) e :: es) <$> es)
      end
  end.

(** [partition_index[PI_UEFI_NTFS]], which is 0 when there is no such partition, gives
    where the image goes. *)
Definition uefi_ntfs_offset (ps : list partition) : Z :=
  let i := default 0%nat (fst <$> list_find (fun p => Name p = UefiNtfs) ps) in
  default 0 (Offset <$> ps !! i).

Definition write_uefi_ntfs (ps : list partition) : prog D bool :=
  p ← call (SetFilePointerEx (uefi_ntfs_offset ps) FILE_BEGIN);
  match p with
  | None => mret false
  | Some _ =>
      match uefi_ntfs with
      | None => mret false
      | Some buffer => r ← WriteFileWithRetry buffer WRITE_RETRIES; mret (fst r)
      end
  end.

(** The flags that are left once the ESP and the MSR were placed first. *)
Definition flags_left (extra : Z) : Z :=
  let extra := if andb (orb (fixed_media d) (bool_decide (BuildNumber d > 15000))) (wants extra XP_ESP)
               then Z.ldiff extra XP_ESP else extra in
  if wants extra XP_MSR then Z.ldiff extra XP_MSR else extra.

(** What is written on the partitions before the table is created. *)
Definition prepare (style : partition_style) (file_system : fs_type) (extra : Z) (ps : list partition) (mi : nat)
    : prog D (option (list layout_entry)) :=
  es ← build_layout style file_system mi 0 ps;
  match es with
  | None => mret None
  | Some es =>
      if wants (flags_left extra) XP_UEFI_NTFS
      then ok ← write_uefi_ntfs ps; mret (if ok : bool then Some es else None)
      else mret (Some es)
  end.

Definition RefreshDriveLayout : prog D bool := call IOCTL_DISK_UPDATE_PROPERTIES.

(** [CreateDisk] and the parts of [DriveLayoutEx] that depend on the style. *)
Definition disk_layout (style : partition_style) (mbr_uefi_marker : bool) (es : list layout_entry)
    : prog D drive_layout :=
  match style with
  | PARTITION_STYLE_MBR =>
      signature ← (if mbr_uefi_marker then mret MBR_UEFI_MARKER else t ← call GetTickCount64; mret (u32 t));
      mret (mkDriveLayout 4 (CreateMbr signature) None es)
  | _ =>
      guid ← call CoCreateGuid;
      mret (mkDriveLayout (Z.of_nat (length es)) (CreateGpt guid MAX_PARTITIONS)
        (Some (u32 (34 * SectorSize s), DiskSize d - u32 ((34 + 33) * SectorSize s))) es)
  end.

(** The end of the function: create the table, then set the layout. *)
Definition set_layout (layout : drive_layout) : prog D bool :=
  created ← call (IOCTL_DISK_CREATE_DISK (disk_style layout));
  if negb created then mret false
  else
    _ ← RefreshDriveLayout;
    ok ← call (IOCTL_DISK_SET_DRIVE_LAYOUT_EX layout);
    if negb ok then mret false else RefreshDriveLayout.

Definition CreatePartition (style : partition_style) (file_system : fs_type) (mbr_uefi_marker : bool)
    (extra : Z) : prog D create_result :=
  if bool_decide (style = PARTITION_STYLE_SFD) then mret (Returned true)
  else
    let uefi_ntfs_size := default 0 ((fun b => Z.of_nat (length b)) <$> uefi_ntfs) in
    if andb (wants extra XP_UEFI_NTFS) (bool_decide (uefi_ntfs_size = 0)) then mret (Returned false)
    else
      match plan s d style extra uefi_ntfs_size with
      | PlanAsserts => mret Aborted
      | PlanFails => mret (Returned false)
      | Plan ps mi =>
          es ← prepare style file_system extra ps mi;
          match es with
          | None => mret (Returned false)
          | Some es =>
              layout ← disk_layout style mbr_uefi_marker es;
              ok ← set_layout layout;
              mret (Returned ok)
          end
      end.
End create.
