(* ===== verification/PartitionProps.v ===== *)
(** PartitionProps: where [CreatePartition] (Partition.v) places the partitions
    and what it writes on them. *)

From S2P Require Import Prelude Disk DiskCorrect MemDisk BootRecordsCorrect Format.
From S2P Require Import Fat32 Fat32Correct ClearProps Partition.

(** ** Alignment *)

Lemma floor_align_bounds x y : 0 <= x -> 0 < y -> 0 <= FLOOR_ALIGN x y <= x /\ x < FLOOR_ALIGN x y + y.
Proof.
  intros. unfold FLOOR_ALIGN. pose proof (Z.div_mod x y ltac:(lia)).
  pose proof (Z.mod_pos_bound x y ltac:(lia)). pose proof (Z.div_pos x y ltac:(lia) ltac:(lia)). nia.
Qed.

Lemma floor_align_divide x y : (y | FLOOR_ALIGN x y).
Proof. by exists (x / y). Qed.

(** Rounding down does not go below a multiple. *)
Lemma floor_align_ge m x y : 0 < y -> (y | m) -> m <= x -> m <= FLOOR_ALIGN x y.
Proof.
  intros Hy [k ->] Hx. unfold FLOOR_ALIGN. apply Z.mul_le_mono_nonneg_r; [lia|].
  apply Z.div_le_lower_bound; lia.
Qed.

Lemma ceiling_align_bounds x y : 0 <= x -> 0 < y -> x + y <= 2 ^ 64 ->
  x <= CEILING_ALIGN x y <= x + y - 1 /\ (y | CEILING_ALIGN x y).
Proof.
  intros. unfold CEILING_ALIGN. rewrite uwrap_small by lia. split; [|by eexists].
  pose proof (Z.div_mod (x + y - 1) y ltac:(lia)).
  pose proof (Z.mod_pos_bound (x + y - 1) y ltac:(lia)). nia.
Qed.

(** ** Partitions in order *)

(** [ps] are not empty, in order, disjoint, and between [lo] and [hi]. *)
Fixpoint laid (lo : Z) (ps : list partition) (hi : Z) : Prop :=
  match ps with
  | [] => lo <= hi
  | p :: ps => lo <= Offset p /\ 0 < Size p /\ laid (Offset p + Size p) ps hi
  end.

Lemma laid_app lo ps mid qs hi : laid lo ps mid -> laid mid qs hi -> laid lo (ps ++ qs) hi.
Proof.
  revert lo. induction ps as [|p ps IH]; intros lo Hps Hqs; cbn in *.
  - destruct qs as [|q qs]; cbn in *; [lia|]. by destruct Hqs as (? & ? & ?); split_and!; [lia|..].
  - destruct Hps as (? & ? & ?). split_and!; auto.
Qed.

Lemma laid_weaken lo ps hi lo' hi' : laid lo ps hi -> lo' <= lo -> hi <= hi' -> laid lo' ps hi'.
Proof.
  revert lo lo'. induction ps as [|p ps IH]; intros lo lo' Hps Hlo Hhi; cbn in *; [lia|].
  destruct Hps as (? & ? & ?). split_and!; [lia|lia|]. by eapply IH.
Qed.

Lemma laid_le lo ps hi : laid lo ps hi -> lo <= hi.
Proof.
  revert lo. induction ps as [|p ps IH]; intros lo Hps; cbn in *; [done|].
  destruct Hps as (? & ? & Hps). specialize (IH _ Hps). lia.
Qed.

Lemma laid_elem lo ps hi i p : laid lo ps hi -> ps !! i = Some p ->
  lo <= Offset p /\ 0 < Size p /\ Offset p + Size p <= hi.
Proof.
  revert lo i. induction ps as [|q ps IH]; intros lo i Hps Hi; [done|]. cbn in Hps.
  destruct Hps as (? & ? & Hps). destruct i as [|i]; cbn in Hi.
  - injection Hi as <-. pose proof (laid_le _ _ _ Hps). lia.
  - destruct (IH _ _ Hps Hi) as (? & ? & ?). split_and!; lia.
Qed.

Lemma laid_ordered lo ps hi i j p q : laid lo ps hi -> (i < j)%nat ->
  ps !! i = Some p -> ps !! j = Some q -> Offset p + Size p <= Offset q.
Proof.
  revert lo i j. induction ps as [|r ps IH]; intros lo i j Hps Hij Hi Hj; [done|].
  destruct Hps as (? & ? & Hps). destruct j as [|j]; [lia|]. cbn in Hj. destruct i as [|i]; cbn in Hi.
  - injection Hi as <-. by destruct (laid_elem _ _ _ _ _ Hps Hj).
  - eapply (IH _ i j); eauto. lia.
Qed.

(** ** The plan *)

(** The sizes for which the 64-bit arithmetic does not wrap around. *)
Record drive_ok (s : settings) (d : drive) : Prop := {
  ok_sector : 0 < SectorSize s <= 65536;
  ok_track : 0 < SectorsPerTrack d <= 65536;
  ok_cluster : 0 <= cluster_item d <= 2 ^ 32;
  ok_disk : 0 <= DiskSize d < 2 ^ 62;
  ok_end : 33 * SectorSize s <= DiskSize d;
  ok_persistence : 0 <= persistence_size d < 2 ^ 62;
}.

Section plan.
Context (s : settings) (d : drive) (Hok : drive_ok s d).
Abbreviation bpt := (bytes_per_track s d).
Abbreviation c := (ClusterSize d).

Lemma track_bounds : 0 < bpt <= 2 ^ 32.
Proof. destruct Hok. unfold bytes_per_track. nia. Qed.

Lemma cluster_bounds : 0 < c <= 2 ^ 32.
Proof. destruct Hok. unfold ClusterSize. case_bool_decide; lia. Qed.

Lemma first_offset_bounds style :
  0 < first_offset s d style <= 2 ^ 35 /\
  (style = PARTITION_STYLE_GPT \/ old_bios_fixes d = false -> first_offset s d style = 1 * MB) /\
  (style ≠ PARTITION_STYLE_GPT /\ old_bios_fixes d = true ->
     2 * bpt <= first_offset s d style < 2 * (bpt + c) /\ (2 * c | first_offset s d style)).
Proof.
  pose proof track_bounds as Ht. pose proof cluster_bounds as Hc.
  pose proof (ceiling_align_bounds bpt c ltac:(lia) ltac:(lia) ltac:(lia)) as [Hb [k Hk]].
  unfold first_offset, MB. destruct (bool_decide (style = PARTITION_STYLE_GPT)) eqn:Hg; cbn [orb].
  - apply bool_decide_eq_true in Hg. split_and!; [lia|lia|auto|naive_solver].
  - apply bool_decide_eq_false in Hg. destruct (old_bios_fixes d); cbn [negb].
    + split_and!; [lia|lia|naive_solver|]. intros _. split; [lia|]. rewrite Hk. exists k. lia.
    + split_and!; [lia|lia|auto|naive_solver].
Qed.

Lemma align_next_bounds o : 0 <= o < 2 ^ 63 ->
  0 <= align_next s d o <= o + bpt - 1.
Proof.
  intros Ho. pose proof track_bounds. pose proof cluster_bounds.
  destruct (ceiling_align_bounds o bpt ltac:(lia) ltac:(lia) ltac:(lia)) as [Hb _].
  unfold align_next. case_bool_decide; [|lia].
  pose proof (floor_align_bounds (CEILING_ALIGN o bpt) c ltac:(lia) ltac:(lia)). lia.
Qed.

(** [o] is aligned on clusters, or on tracks when a cluster is not a number of sectors. *)
Definition aligned_start (o : Z) : Prop :=
  (c mod SectorSize s = 0 -> (c | o)) /\ (c mod SectorSize s ≠ 0 -> (bpt | o)).

Lemma align_next_aligned o : 0 <= o < 2 ^ 63 -> aligned_start (align_next s d o).
Proof.
  intros Ho. pose proof track_bounds. unfold aligned_start, align_next. split; intros Hm.
  - rewrite bool_decide_true by done. apply floor_align_divide.
  - rewrite bool_decide_false by done. by destruct (ceiling_align_bounds o bpt ltac:(lia) ltac:(lia) ltac:(lia)).
Qed.

(** [ps] follow each other from [lo] on, each at the first aligned place within a track
    of the end of the one before, and [next] is the place after the last. *)
Fixpoint chained (lo : Z) (ps : list partition) (next : Z) : Prop :=
  match ps with
  | [] => next = lo
  | p :: ps => Offset p = lo /\ exists n, aligned_start n /\ n < Offset p + Size p + bpt /\ chained n ps next
  end.

Lemma chained_app lo ps mid qs next : chained lo ps mid -> chained mid qs next -> chained lo (ps ++ qs) next.
Proof.
  revert lo. induction ps as [|p ps IH]; intros lo Hps Hqs; cbn in *; [by subst|].
  destruct Hps as (? & n & ? & ? & ?). split; [done|]. exists n. auto.
Qed.

Lemma chained_head lo ps m rest p :
  chained lo ps (Offset m) -> (ps ++ m :: rest) !! 0%nat = Some p -> Offset p = lo.
Proof. destruct ps as [|q ps]; cbn; [by intros <- [= <-]|by intros [<- _] [= <-]]. Qed.

Lemma chained_next lo ps m rest i q p :
  chained lo ps (Offset m) -> (i < length ps)%nat ->
  (ps ++ m :: rest) !! i = Some q -> (ps ++ m :: rest) !! S i = Some p ->
  aligned_start (Offset p) /\ Offset p < Offset q + Size q + bpt.
Proof.
  revert lo i. induction ps as [|r ps IH]; intros lo i Hc Hi Hq Hp; cbn in Hi; [lia|].
  destruct Hc as (_ & n & Hn & Hlt & Hc). destruct i as [|i].
  - cbn in Hq. injection Hq as <-. by rewrite (chained_head _ _ _ _ _ Hc Hp).
  - eapply (IH n i); [done|lia|done|done].
Qed.

(** One partition before the main one. *)
Lemma place_front_spec style name size offset ps next :
  0 <= offset < 2 ^ 40 -> 0 < size < 2 ^ 40 ->
  place_front s d style name size offset = Some (ps, next) ->
  laid offset ps next /\ length ps = 1%nat /\ next <= offset + size + bpt - 1 /\
  style = PARTITION_STYLE_GPT /\ chained offset ps next.
Proof.
  intros Ho Hs. unfold place_front. destruct (bool_decide (style = _)) eqn:Hg; cbn [negb]; [|done].
  apply bool_decide_eq_true in Hg. rewrite uwrap_small by lia. case_bool_decide as Hn; [|done].
  intros [= <- <-]. pose proof (align_next_bounds (offset + size) ltac:(lia)). cbn.
  split_and!; try done; try lia. exists (align_next s d (offset + size)).
  split_and!; [apply align_next_aligned; lia|lia|done].
Qed.

(** A partition before the main one fits its place when the cluster size divides the
    offset and the size. *)
Lemma place_front_ok style name size offset :
  style = PARTITION_STYLE_GPT -> 0 <= offset < 2 ^ 40 -> 0 < size < 2 ^ 40 ->
  (c mod SectorSize s = 0 -> (c | offset) /\ (c | size)) ->
  exists ps next, place_front s d style name size offset = Some (ps, next) /\
    (c mod SectorSize s = 0 -> (c | next)).
Proof.
  intros -> Ho Hs Hdiv. pose proof track_bounds. pose proof cluster_bounds.
  unfold place_front. cbn [bool_decide negb]. rewrite bool_decide_true by done. cbn [negb].
  rewrite uwrap_small by lia.
  destruct (ceiling_align_bounds (offset + size) bpt ltac:(lia) ltac:(lia) ltac:(lia)) as [Hb _].
  assert (Hge : align_next s d (offset + size) >= offset + size).
  { unfold align_next. case_bool_decide as Hm; [|lia]. destruct (Hdiv Hm).
    pose proof (floor_align_ge (offset + size) (CEILING_ALIGN (offset + size) bpt) c ltac:(lia)
      ltac:(by apply Z.divide_add_r) ltac:(lia)). lia. }
  rewrite bool_decide_true by done. do 2 eexists. split; [done|].
  intros Hm. unfold align_next. rewrite bool_decide_true by done. apply floor_align_divide.
Qed.

(** The partitions after the main one. *)
Definition sizes_ok (sizes : list (partition_name * Z)) : Prop :=
  Forall (fun x => 0 < x.2) sizes.

Lemma place_back_spec last sizes ps lo :
  0 <= last < 2 ^ 62 -> sizes_ok sizes -> place_back s d last sizes = Some (ps, lo) ->
  laid lo ps last /\ 0 <= lo <= last /\ length ps = length sizes /\
  (forall i p, ps !! i = Some p -> (bpt | Offset p)).
Proof.
  intros Hlast. pose proof track_bounds as Ht. revert ps lo.
  induction sizes as [|[name size] sizes IH]; intros ps lo Hs; cbn [place_back].
  - intros [= <- <-]. split_and!; [cbn; lia|lia|lia|done|done].
  - inversion Hs as [|? ? Hpos Hs']; subst. cbn in Hpos.
    destruct (place_back s d last sizes) as [[qs l]|] eqn:Hp; [|done]. cbn.
    destruct (IH _ _ Hs' eq_refl) as (Hlaid & Hl & Hlen & Hdiv).
    case_bool_decide as Hfit; [|done]. intros [= <- <-]. rewrite uwrap_small by lia.
    pose proof (floor_align_bounds (l - size) bpt ltac:(lia) ltac:(lia)) as [Hf _].
    split_and!; cbn; try lia; try done.
    + split_and!; [lia|lia|]. eapply laid_weaken; [exact Hlaid|lia|lia].
    + intros [|i] p; cbn; [intros [= <-]; apply floor_align_divide|apply Hdiv].
Qed.

(** The space they take. *)
Fixpoint space (sizes : list (partition_name * Z)) : Z :=
  match sizes with [] => 0 | x :: sizes => x.2 + bpt + space sizes end.

Lemma space_app xs ys : space (xs ++ ys) = space xs + space ys.
Proof. induction xs as [|x xs IH]; cbn; lia. Qed.

Lemma place_back_ok last sizes :
  0 <= last < 2 ^ 62 -> sizes_ok sizes -> space sizes < last ->
  exists ps lo, place_back s d last sizes = Some (ps, lo) /\ last - space sizes <= lo.
Proof.
  intros Hlast. pose proof track_bounds as Ht.
  induction sizes as [|[name size] sizes IH]; intros Hs Hsp; cbn in *.
  - do 2 eexists. split; [done|]. lia.
  - inversion Hs as [|? ? Hpos Hs']; subst. cbn in Hpos.
    destruct (IH Hs' ltac:(lia)) as (ps & lo & Hp & Hlo). rewrite Hp. cbn.
    destruct (place_back_spec _ _ _ _ Hlast Hs' Hp) as (_ & Hl & _).
    rewrite bool_decide_true by lia. do 2 eexists. split; [done|]. rewrite uwrap_small by lia.
    pose proof (floor_align_bounds (lo - size) bpt ltac:(lia) ltac:(lia)). lia.
Qed.

(** *** All the partitions *)

(** What each of the flags takes at most. *)
Definition front_room (extra : Z) : Z :=
  (if wants extra XP_ESP then esp_size + bpt else 0) + (if wants extra XP_MSR then 128 * MB + bpt else 0).

Lemma back_sizes_spec extra u sizes :
  0 <= u < 2 ^ 62 -> (wants extra XP_UEFI_NTFS = true -> 0 < u) ->
  back_sizes s d extra u = Some sizes -> sizes_ok sizes /\ (length sizes <= 2)%nat.
Proof.
  intros Hu Hpos. pose proof track_bounds. pose proof (ok_persistence _ _ Hok).
  assert (Hc : forall x, 0 < x < 2 ^ 62 -> 0 < CEILING_ALIGN x bpt).
  { intros x Hx. destruct (ceiling_align_bounds x bpt); lia. }
  unfold back_sizes. intros Hs.
  assert (Hall : forall xs ys, sizes_ok xs -> sizes_ok ys -> (length xs <= 1)%nat -> (length ys <= 1)%nat ->
    sizes_ok (xs ++ ys) /\ (length (xs ++ ys) <= 2)%nat).
  { intros. split; [by apply Forall_app|]. rewrite length_app. lia. }
  apply bind_Some in Hs as (casper & Hcas & [= <-]). apply Hall.
  - destruct (wants extra XP_PERSISTENCE); [|injection Hcas as <-; constructor].
    case_bool_decide; [done|]. injection Hcas as <-. constructor; [|done]. cbn. apply Hc. lia.
  - unfold sizes_ok, esp_size, MB. destruct (wants extra XP_ESP);
      [|destruct (wants extra XP_UEFI_NTFS) eqn:Hw; [specialize (Hpos eq_refl)|destruct (wants extra XP_COMPAT)]];
      repeat constructor; cbn [snd]; try apply Hc; lia.
  - destruct (wants extra XP_PERSISTENCE); [|by injection Hcas as <-; cbn; lia].
    case_bool_decide; [done|]. by injection Hcas as <-.
  - repeat case_match; cbn; lia.
Qed.

Lemma wants_ldiff extra a x : Z.land a x = 0 -> wants (Z.ldiff extra a) x = wants extra x.
Proof.
  intros Ha. unfold wants. do 3 f_equal. apply bool_decide_ext.
  replace (Z.land (Z.ldiff extra a) x) with (Z.land extra x); [done|].
  apply Z.bits_inj'. intros i Hi. rewrite !Z.land_spec, Z.ldiff_spec.
  apply (f_equal (fun z => Z.testbit z i)) in Ha. rewrite Z.land_spec, Z.bits_0 in Ha.
  destruct (Z.testbit a i), (Z.testbit x i), (Z.testbit extra i); done.
Qed.

(** [ps] are the partitions that a step places from [offset] on, at most one, and
    [next] is where the following one goes. *)
Definition step_ok (style : partition_style) (offset : Z) (ps : list partition) (next room : Z) : Prop :=
  laid offset ps next /\ (length ps <= 1)%nat /\ offset <= next <= offset + room /\ chained offset ps next.

Lemma place_esp_spec style extra offset ps next extra' :
  0 <= offset < 2 ^ 39 -> place_esp s d style extra offset = Some (ps, next, extra') ->
  step_ok style offset ps next (esp_size + bpt) /\
  forall x, Z.land XP_ESP x = 0 -> wants extra' x = wants extra x.
Proof.
  intros Ho. pose proof track_bounds. unfold place_esp, esp_size, MB. destruct (_ && _).
  - intros ([ps' next'] & Hp & [= <- <- <-])%bind_Some. split; [|intros; by apply wants_ldiff].
    apply place_front_spec in Hp as (Hl & Hn & Hb & _ & Hch); [|lia..].
    pose proof (laid_le _ _ _ Hl). split_and!; try done; lia.
  - intros [= <- <- <-]. split; [|done]. split_and!; cbn; lia.
Qed.

Lemma place_msr_spec style extra offset ps next extra' :
  0 <= offset < 2 ^ 39 -> place_msr s d style extra offset = Some (ps, next, extra') ->
  step_ok style offset ps next (128 * MB + bpt) /\
  forall x, Z.land XP_MSR x = 0 -> wants extra' x = wants extra x.
Proof.
  intros Ho. pose proof track_bounds. unfold place_msr, MB. destruct (wants _ _).
  - intros ([ps' next'] & Hp & [= <- <- <-])%bind_Some. split; [|intros; by apply wants_ldiff].
    apply place_front_spec in Hp as (Hl & Hn & Hb & _ & Hch); [|lia..].
    pose proof (laid_le _ _ _ Hl). split_and!; try done; lia.
  - intros [= <- <- <-]. split; [|done]. split_and!; cbn; lia.
Qed.

Lemma usable_end_bounds style : 0 <= usable_end s d style < 2 ^ 62 /\
  usable_end s d style = DiskSize d - (if bool_decide (style = PARTITION_STYLE_GPT) then 33 * SectorSize s else 0).
Proof.
  pose proof (ok_disk _ _ Hok). pose proof (ok_end _ _ Hok). pose proof (ok_sector _ _ Hok).
  unfold usable_end. case_bool_decide; [rewrite uwrap_small by lia|]; lia.
Qed.

Lemma place_all_spec style extra u front back offset last :
  0 <= u < 2 ^ 62 -> (wants extra XP_UEFI_NTFS = true -> 0 < u) ->
  place_all s d style extra u = Some (front, back, offset, last) ->
  laid (first_offset s d style) front offset /\ laid last back (usable_end s d style) /\
  (length front <= 2)%nat /\ (length back <= 2)%nat /\ 0 < offset < last /\ last < 2 ^ 62 /\
  (forall i p, back !! i = Some p -> (bpt | Offset p)) /\ chained (first_offset s d style) front offset.
Proof.
  intros Hu Hpos. pose proof track_bounds. pose proof (first_offset_bounds style) as [Hf _].
  pose proof (usable_end_bounds style) as [Hend _].
  intros ([[esp o1] e1] & Hesp & Hrest)%bind_Some.
  apply place_esp_spec in Hesp as [(Hl1 & Hn1 & Ho1 & Hc1) Hw1]; [|lia].
  apply bind_Some in Hrest as ([[msr o2] e2] & Hmsr & Hrest).
  unfold esp_size, MB in *.
  apply place_msr_spec in Hmsr as [(Hl2 & Hn2 & Ho2 & Hc2) Hw2]; [|lia]. unfold MB in *.
  apply bind_Some in Hrest as (sizes & Hsz & Hrest).
  apply back_sizes_spec in Hsz as [Hsok Hslen]; [|done|by rewrite Hw2, Hw1].
  case_bool_decide; [|done]. apply bind_Some in Hrest as ([ps lo] & Hb & Hrest).
  apply place_back_spec in Hb as (Hl3 & Hlo & Hlen & Hdiv); [|done|done].
  case_bool_decide; [|done]. injection Hrest as <- <- <- <-.
  split_and!; try done; try lia; [by eapply laid_app|rewrite length_app; lia|by eapply chained_app].
Qed.

Lemma main_size_bounds offset last : 0 <= offset < last -> last < 2 ^ 62 ->
  0 <= main_size s d offset last <= last - offset /\ last - offset < main_size s d offset last + bpt + c /\
  (c mod SectorSize s = 0 -> (c | main_size s d offset last)) /\
  (c mod SectorSize s ≠ 0 -> (bpt | main_size s d offset last)).
Proof.
  intros Ho Hl. pose proof track_bounds. pose proof cluster_bounds.
  unfold main_size. rewrite uwrap_small by lia.
  pose proof (floor_align_bounds (last - offset) bpt ltac:(lia) ltac:(lia)).
  pose proof (floor_align_bounds (FLOOR_ALIGN (last - offset) bpt) c ltac:(lia) ltac:(lia)).
  case_bool_decide; split_and!; try lia; intros; try done; apply floor_align_divide.
Qed.

Lemma plan_spec style extra u ps mi :
  0 <= u < 2 ^ 62 -> (wants extra XP_UEFI_NTFS = true -> 0 < u) -> plan s d style extra u = Plan ps mi ->
  exists front back offset last,
    place_all s d style extra u = Some (front, back, offset, last) /\ mi = length front /\
    ps = front ++ mkPart (if write_as_esp d then EfiSystemPartition else MainDataPartition) offset
                    (main_size s d offset last) :: back /\
    laid (first_offset s d style) ps (usable_end s d style) /\ chained (first_offset s d style) front offset.
Proof.
  intros Hu Hpos. unfold plan.
  destruct (place_all s d style extra u) as [[[[front back] offset] last]|] eqn:Hall; [|done].
  destruct (place_all_spec _ _ _ _ _ _ _ Hu Hpos Hall) as (Hl1 & Hl2 & _ & _ & Ho & Hl & _ & Hch).
  case_bool_decide as Hm; [done|]. intros [= <- <-]. exists front, back, offset, last.
  split_and!; try done. destruct (main_size_bounds offset last ltac:(lia) Hl) as (? & _).
  eapply laid_app; [exact Hl1|]. cbn. split_and!; [lia|lia|]. eapply laid_weaken; [exact Hl2|lia|lia].
Qed.

Lemma place_back_head last sizes ps lo :
  place_back s d last sizes = Some (ps, lo) -> lo = default last (Offset <$> head ps).
Proof.
  destruct sizes as [|[name size] sizes]; cbn [place_back]; [by intros [= <- <-]|].
  intros ([qs l] & _ & Hr)%bind_Some. case_bool_decide; [|done]. by injection Hr as <- <-.
Qed.

Lemma place_all_last style extra u front back offset last :
  place_all s d style extra u = Some (front, back, offset, last) ->
  last = default (usable_end s d style) (Offset <$> head back).
Proof.
  intros ([[esp o1] e1] & _ & ([[msr o2] e2] & _ & (sizes & _ & Hrest)%bind_Some)%bind_Some)%bind_Some.
  case_bool_decide; [|done]. apply bind_Some in Hrest as ([ps lo] & Hb & Hrest).
  case_bool_decide; [|done]. injection Hrest as <- <- <- <-. by eapply place_back_head.
Qed.

(** *** There is a plan *)

(** The room that a flag asks for. *)
Definition room (extra x size : Z) : Z := if wants extra x then size + 2 * bpt else 0.

Definition partitions_room (style : partition_style) (extra u : Z) : Z :=
  first_offset s d style + room extra XP_ESP esp_size + room extra XP_MSR (128 * MB) +
  room extra XP_PERSISTENCE (persistence_size d) + room extra XP_UEFI_NTFS u + room extra XP_COMPAT bpt +
  bpt + c.

Lemma back_sizes_ok extra u :
  0 <= u < 2 ^ 62 -> (wants extra XP_PERSISTENCE = true -> persistence_size d ≠ 0) ->
  exists sizes, back_sizes s d extra u = Some sizes /\
    space sizes <= room extra XP_ESP esp_size + room extra XP_PERSISTENCE (persistence_size d) +
      room extra XP_UEFI_NTFS u + room extra XP_COMPAT bpt.
Proof.
  intros Hu Hp. pose proof track_bounds. pose proof (ok_persistence _ _ Hok).
  assert (Hc : forall x, 0 <= x < 2 ^ 62 -> CEILING_ALIGN x bpt <= x + bpt).
  { intros x Hx. destruct (ceiling_align_bounds x bpt); lia. }
  pose proof (Hc u Hu). pose proof (Hc (persistence_size d) ltac:(lia)).
  pose proof (Hc esp_size ltac:(unfold esp_size, MB; lia)).
  unfold back_sizes, room. destruct (wants extra XP_PERSISTENCE); [rewrite bool_decide_false by auto|];
    (eexists; split; [reflexivity|]); rewrite space_app; cbn [space snd];
    (destruct (wants extra XP_ESP); [|destruct (wants extra XP_UEFI_NTFS); [|destruct (wants extra XP_COMPAT)]]);
    cbn [space snd]; unfold esp_size, MB in *; repeat case_match; lia.
Qed.

Lemma place_esp_ok style extra offset :
  (wants extra XP_ESP = true -> style = PARTITION_STYLE_GPT) -> 0 <= offset < 2 ^ 39 -> (c | MB) ->
  (wants extra XP_ESP = true \/ wants extra XP_MSR = true -> (c | offset)) ->
  exists ps next extra', place_esp s d style extra offset = Some (ps, next, extra') /\
    next + room extra' XP_ESP esp_size <= offset + room extra XP_ESP esp_size /\
    (wants extra XP_MSR = true -> c mod SectorSize s = 0 -> (c | next)).
Proof.
  intros Hg Ho Hmb Hdiv. pose proof track_bounds. unfold place_esp.
  destruct (_ || _) eqn:Hfirst; cbn [andb]; [destruct (wants extra XP_ESP) eqn:Hw|].
  - destruct (place_front_ok style EfiSystemPartition esp_size offset) as (ps & next & Hpl & Hn);
      [auto|lia|unfold esp_size, MB; lia|intros; split; [by auto|by apply Z.divide_mul_r]|].
    rewrite Hpl. do 3 eexists. split; [reflexivity|].
    assert (Hz : wants (Z.ldiff extra XP_ESP) XP_ESP = false).
    { unfold wants. apply negb_false_iff, bool_decide_eq_true, Z.bits_inj'. intros i Hi.
      rewrite Z.land_spec, Z.ldiff_spec, Z.bits_0. by destruct (Z.testbit XP_ESP i), (Z.testbit extra i). }
    unfold room. rewrite Hz, Hw. apply place_front_spec in Hpl as (_ & _ & Hb & _);
      [|lia|unfold esp_size, MB; lia]. split; [lia|auto].
  - do 3 eexists. split; [reflexivity|]. split; [lia|]. intros. apply Hdiv. auto.
  - do 3 eexists. split; [reflexivity|]. split; [lia|]. intros. apply Hdiv. auto.
Qed.

Lemma place_msr_ok style extra offset :
  (wants extra XP_MSR = true -> style = PARTITION_STYLE_GPT) -> 0 <= offset < 2 ^ 39 -> (c | MB) ->
  (wants extra XP_MSR = true -> c mod SectorSize s = 0 -> (c | offset)) ->
  exists ps next extra', place_msr s d style extra offset = Some (ps, next, extra') /\
    next <= offset + room extra XP_MSR (128 * MB).
Proof.
  intros Hg Ho Hmb Hdiv. pose proof track_bounds. unfold place_msr, room.
  destruct (wants extra XP_MSR) eqn:Hw; [|do 3 eexists; split; [reflexivity|lia]].
  destruct (place_front_ok style MicrosoftReservedPartition (128 * MB) offset) as (ps & next & Hpl & _);
    [auto|lia|unfold MB; lia|intros; split; [by auto|by apply Z.divide_mul_r]|].
  rewrite Hpl. do 3 eexists. split; [reflexivity|].
  apply place_front_spec in Hpl as (_ & _ & Hb & _); unfold MB in *; lia.
Qed.

Lemma room_same extra extra' x size : wants extra' x = wants extra x -> room extra' x size = room extra x size.
Proof. unfold room. by intros ->. Qed.

Lemma plan_exists style extra u :
  0 <= u < 2 ^ 62 -> (wants extra XP_UEFI_NTFS = true -> 0 < u) ->
  (wants extra XP_PERSISTENCE = true -> persistence_size d ≠ 0) ->
  (wants extra XP_ESP = true \/ wants extra XP_MSR = true -> style = PARTITION_STYLE_GPT) ->
  (c | MB) -> partitions_room style extra u <= usable_end s d style ->
  exists ps mi, plan s d style extra u = Plan ps mi.
Proof.
  intros Hu Hpos Hp Hg Hmb Hroom. pose proof track_bounds. pose proof cluster_bounds.
  pose proof (first_offset_bounds style) as (Hf & H1 & _). unfold partitions_room in Hroom.
  pose proof (usable_end_bounds style) as [Hend _].
  assert (Hnn : forall e x n, 0 <= n -> 0 <= room e x n) by (intros; unfold room; case_match; lia).
  destruct (place_esp_ok style extra (first_offset s d style)) as (esp & o1 & e1 & Hesp & Ho1 & Hd1);
    [auto|lia|done|intros Hw; rewrite H1 by auto; by rewrite Z.mul_1_l|].
  destruct (place_esp_spec style extra (first_offset s d style) esp o1 e1 ltac:(lia) Hesp) as [(_ & Hn1 & Hb1 & _) Hw1].
  assert (Hmsr : wants e1 XP_MSR = wants extra XP_MSR) by by apply Hw1.
  destruct (place_msr_ok style e1 o1) as (msr & o2 & e2 & Hm & Ho2);
    [rewrite Hmsr; auto|unfold esp_size, MB in *; lia|done|by rewrite Hmsr|].
  destruct (place_msr_spec style e1 o1 msr o2 e2 ltac:(unfold esp_size, MB in *; lia) Hm) as [(_ & Hn2 & Hb2 & _) Hw2].
  destruct (back_sizes_ok e2 u Hu) as (sizes & Hs & Hsp); [by rewrite Hw2, Hw1|].
  rewrite (room_same extra e1 XP_MSR) in Ho2 by done.
  rewrite (room_same e2 e1 XP_ESP) in Ho1 by (by rewrite Hw2).
  rewrite (room_same extra e2 XP_PERSISTENCE), (room_same extra e2 XP_UEFI_NTFS),
    (room_same extra e2 XP_COMPAT) in Hsp by (by rewrite Hw2, Hw1).
  destruct (back_sizes_spec e2 u sizes Hu) as [Hsok Hslen]; [by rewrite Hw2, Hw1|done|].
  pose proof (Hnn e2 XP_ESP esp_size ltac:(unfold esp_size, MB; lia)).
  pose proof (Hnn extra XP_MSR (128 * MB) ltac:(unfold MB; lia)).
  destruct (place_back_ok (usable_end s d style) sizes Hend Hsok) as (back & lo & Hb & Hlo); [lia|].
  destruct (place_back_spec _ _ _ _ Hend Hsok Hb) as (_ & Hlob & _).
  assert (Hall : place_all s d style extra u = Some (esp ++ msr, back, o2, lo)).
  { unfold place_all. rewrite Hesp. cbn [mbind option_bind]. rewrite Hm. cbn [mbind option_bind].
    rewrite Hs. cbn [mbind option_bind]. rewrite bool_decide_true by (rewrite length_app; unfold MAX_PARTITIONS; lia).
    rewrite Hb. cbn [mbind option_bind]. by rewrite bool_decide_true by lia. }
  unfold plan. rewrite Hall. destruct (main_size_bounds o2 lo) as (Hm1 & Hm2 & _); [lia..|].
  rewrite bool_decide_false by lia. eauto.
Qed.
End plan.

(** C24: Where [CreatePartition] places the partitions, for every drive, geometry,
    cluster size and choice of extra partitions for which it comes to a plan:
    there are at most five partitions, none is empty, each ends where the
    next one starts or before, and they lie between the first offset and the
    end of the disk, less the 33 sectors of the backup GPT. The first one starts at 1 MB,
    whatever the cluster size; with the fixes for old BIOSes and no GPT, at twice the first
    multiple of the cluster size that is not inside the first track. Each of the others up to
    the main one starts on a cluster, or on a track when a cluster is not a whole number of
    sectors, less than a track after the one before. The main partition
    has a whole number of clusters, or of tracks when a cluster is not a
    whole number of sectors, and leaves less than a track and a cluster
    unused before what follows it; what follows it is aligned on tracks. *)
Theorem partition_layout_sound s d style extra u ps mi :
  drive_ok s d -> 0 <= u < 2 ^ 62 -> (wants extra XP_UEFI_NTFS = true -> 0 < u) ->
  plan s d style extra u = Plan ps mi ->
  let hi := DiskSize d - (if bool_decide (style = PARTITION_STYLE_GPT) then 33 * SectorSize s else 0) in
  (length ps <= 5)%nat /\
  (forall i p, ps !! i = Some p -> first_offset s d style <= Offset p /\ 0 < Size p /\ Offset p + Size p <= hi) /\
  (forall i j p q, (i < j)%nat -> ps !! i = Some p -> ps !! j = Some q -> Offset p + Size p <= Offset q) /\
  (forall p, ps !! 0%nat = Some p ->
    (style = PARTITION_STYLE_GPT \/ old_bios_fixes d = false -> Offset p = MB) /\
    (style ≠ PARTITION_STYLE_GPT /\ old_bios_fixes d = true ->
       (2 * ClusterSize d | Offset p) /\
       2 * bytes_per_track s d <= Offset p < 2 * (bytes_per_track s d + ClusterSize d))) /\
  (forall i q p, (i < mi)%nat -> ps !! i = Some q -> ps !! S i = Some p ->
    (ClusterSize d mod SectorSize s = 0 -> (ClusterSize d | Offset p)) /\
    (ClusterSize d mod SectorSize s ≠ 0 -> (bytes_per_track s d | Offset p)) /\
    Offset p < Offset q + Size q + bytes_per_track s d) /\
  exists m, ps !! mi = Some m /\
    (ClusterSize d mod SectorSize s = 0 -> (ClusterSize d | Size m)) /\
    (ClusterSize d mod SectorSize s ≠ 0 -> (bytes_per_track s d | Size m)) /\
    default hi (Offset <$> ps !! S mi) - (Offset m + Size m) < bytes_per_track s d + ClusterSize d /\
    (forall i p, (mi < i)%nat -> ps !! i = Some p -> (bytes_per_track s d | Offset p)).
Proof.
  intros Hok Hu Hpos Hplan hi.
  destruct (plan_spec s d Hok style extra u ps mi Hu Hpos Hplan) as (front & back & offset & last & Hall & -> & -> & Hlaid & Hch).
  destruct (place_all_spec s d Hok _ _ _ _ _ _ _ Hu Hpos Hall) as (_ & _ & Hf & Hb & Ho & Hl & Hdiv & _).
  pose proof (place_all_last _ _ _ _ _ _ _ _ _ Hall) as Hlast.
  destruct (usable_end_bounds s d Hok style) as [_ Hend]. fold hi in Hend. rewrite Hend in Hlaid, Hlast.
  destruct (main_size_bounds s d Hok offset last ltac:(lia) Hl) as (Hm1 & Hm2 & Hm3 & Hm4).
  split; [rewrite length_app; cbn; lia|].
  split; [intros i p Hi; by eapply laid_elem|].
  split; [intros i j p q Hij Hi Hj; by eapply laid_ordered|].
  set (m := mkPart _ offset _) in *. change offset with (Offset m) in Hch.
  destruct (first_offset_bounds s d Hok style) as (_ & Hmb & Hold).
  split; [intros p Hp; rewrite (chained_head _ _ _ _ _ _ _ Hch Hp); split; [exact Hmb|tauto]|].
  split; [intros i q p Hi Hq Hp; destruct (chained_next _ _ _ _ _ _ _ _ _ Hch Hi Hq Hp) as [[]]; done|].
  eexists. split; [by rewrite list_lookup_middle|]. unfold m. cbn [Offset Size].
  split; [done|]. split; [done|]. split.
  - rewrite lookup_app_r by lia. replace (S (length front) - length front)%nat with 1%nat by lia.
    change ((_ :: back) !! 1%nat) with (back !! 0%nat). rewrite <- head_lookup, <- Hlast. lia.
  - intros i p Hi Hp. rewrite lookup_app_r in Hp by lia.
    destruct (i - length front)%nat as [|k] eqn:Hk; [lia|]. by apply (Hdiv k).
Qed.

(** A 16 GB drive with an ESP and an MSR, then one with persistence. *)
Definition gpt_settings : settings :=
  mkSettings 512 2048 1048576 PARTITION_STYLE_GPT BT_IMAGE TT_UEFI FS_NTFS FS_NTFS FS_NTFS
    (mkReport 0 true true false false false false 0) false false.
Definition gpt_drive (cluster : Z) : drive := mkDrive (16384 * MB) 63 true 19041 cluster false false 0.
Definition mbr_drive : drive := mkDrive (16384 * MB) 63 false 19041 4096 true false (1000 * MB).

Lemma gpt_drive_ok cluster : 0 <= cluster <= 2 ^ 32 -> drive_ok gpt_settings (gpt_drive cluster).
Proof. intros. by split; cbn; unfold MB; lia. Qed.

Lemma mbr_drive_ok : drive_ok gpt_settings mbr_drive.
Proof. by split; cbn; unfold MB; lia. Qed.

Definition gpt_plan : list partition :=
  [mkPart EfiSystemPartition 1048576 272629760; mkPart MicrosoftReservedPartition 273690624 134217728;
   mkPart MainDataPartition 407908352 16771923968].

Lemma partition_layout_sound_witness :
  let hi := 16384 * MB - 33 * 512 in
  (length gpt_plan <= 5)%nat /\
  (forall i p, gpt_plan !! i = Some p -> 1048576 <= Offset p /\ 0 < Size p /\ Offset p + Size p <= hi) /\
  (forall i j p q, (i < j)%nat -> gpt_plan !! i = Some p -> gpt_plan !! j = Some q -> Offset p + Size p <= Offset q) /\
  (forall p, gpt_plan !! 0%nat = Some p ->
    (PARTITION_STYLE_GPT = PARTITION_STYLE_GPT \/ false = false -> Offset p = MB) /\
    (PARTITION_STYLE_GPT ≠ PARTITION_STYLE_GPT /\ false = true ->
       (2 * 4096 | Offset p) /\ 2 * 32256 <= Offset p < 2 * (32256 + 4096))) /\
  (forall i q p, (i < 2)%nat -> gpt_plan !! i = Some q -> gpt_plan !! S i = Some p ->
    (4096 mod 512 = 0 -> (4096 | Offset p)) /\ (4096 mod 512 ≠ 0 -> (32256 | Offset p)) /\
    Offset p < Offset q + Size q + 32256) /\
  exists m, gpt_plan !! 2%nat = Some m /\
    (4096 mod 512 = 0 -> (4096 | Size m)) /\ (4096 mod 512 ≠ 0 -> (32256 | Size m)) /\
    default hi (Offset <$> gpt_plan !! 3%nat) - (Offset m + Size m) < 32256 + 4096 /\
    (forall i p, (2 < i)%nat -> gpt_plan !! i = Some p -> (32256 | Offset p)).
Proof.
  refine (partition_layout_sound gpt_settings (gpt_drive 4096) PARTITION_STYLE_GPT
    (Z.lor XP_ESP XP_MSR) 0 gpt_plan 2 _ _ _ _).
  - apply gpt_drive_ok. lia.
  - lia.
  - vm_compute. discriminate.
  - vm_compute. reflexivity.
Defined.

(** C30: [CreatePartition] comes to a plan, no assertion fails and no size is zero,
    when the cluster size divides 1 MB, the ESP and the MSR are only asked for
    with a GPT, the persistence size is set when it is asked for, and the disk
    has room for the first offset, the sizes of the extra partitions with two
    tracks for each, a track and a cluster. *)
Theorem partition_layout_exists s d style extra u :
  drive_ok s d -> 0 <= u < 2 ^ 62 -> (wants extra XP_UEFI_NTFS = true -> 0 < u) ->
  (wants extra XP_PERSISTENCE = true -> persistence_size d ≠ 0) ->
  (wants extra XP_ESP = true \/ wants extra XP_MSR = true -> style = PARTITION_STYLE_GPT) ->
  (ClusterSize d | MB) -> partitions_room s d style extra u <= usable_end s d style ->
  exists ps mi, plan s d style extra u = Plan ps mi.
Proof. intros Hok. by apply plan_exists. Qed.

Lemma partition_layout_exists_witness :
  exists ps mi, plan gpt_settings mbr_drive PARTITION_STYLE_MBR
    (Z.lor XP_COMPAT (Z.lor XP_PERSISTENCE XP_UEFI_NTFS)) MB = Plan ps mi.
Proof.
  refine (partition_layout_exists gpt_settings mbr_drive PARTITION_STYLE_MBR
    (Z.lor XP_COMPAT (Z.lor XP_PERSISTENCE XP_UEFI_NTFS)) MB _ _ _ _ _ _ _).
  - apply mbr_drive_ok.
  - unfold MB. lia.
  - unfold MB. lia.
  - intros _. vm_compute. discriminate.
  - intros [Hw|Hw]; vm_compute in Hw; discriminate.
  - by exists 256.
  - vm_compute. discriminate.
Defined.

(** The condition on the cluster size is needed: with an ESP and the 2 MB clusters that
    NTFS offers, the next offset is rounded down into the ESP and the assertion
    that it is not fails, which ends the program. *)
Example esp_assertion_fails :
  plan gpt_settings (gpt_drive (2 * MB)) PARTITION_STYLE_GPT (Z.lor XP_ESP XP_MSR) 0 = PlanAsserts.
Proof. vm_compute. reflexivity. Qed.
