(* ===== verification/PartitionWrites.v ===== *)
(** PartitionWrites: what [CreatePartition] (Partition.v) writes on the partitions
    that it places and what it tells the system. *)

From S2P Require Import Prelude Disk DiskCorrect MemDisk BootRecords BootRecordsCorrect Format.
From S2P Require Import Fat32 Fat32Correct ClearProps Partition PartitionProps.

(** ** Whole sectors *)

Definition whole (ss : Z) (p : partition) : Prop := (ss | Offset p) /\ (ss | Size p).

Section whole.
Context (s : settings) (d : drive) (Hok : drive_ok s d).
Abbreviation ss := (SectorSize s).
Abbreviation bpt := (bytes_per_track s d).
Abbreviation c := (ClusterSize d).
Context (Hmb : (ss | MB)) (Hc : (ss | c) \/ (c | ss)).

Lemma track_whole : (ss | bpt).
Proof. by exists (SectorsPerTrack d). Qed.

Lemma floor_whole x y : (ss | y) -> (ss | FLOOR_ALIGN x y).
Proof. intros. etransitivity; [done|apply floor_align_divide]. Qed.

Lemma ceiling_whole x : (ss | CEILING_ALIGN x bpt).
Proof. etransitivity; [apply track_whole|]. by eexists. Qed.

Lemma cluster_whole : c mod ss = 0 -> (ss | c).
Proof. pose proof (ok_sector _ _ Hok). intros. apply Z.mod_divide; [lia|done]. Qed.

Lemma first_offset_whole style : (ss | first_offset s d style).
Proof.
  pose proof (track_bounds _ _ Hok) as Ht. pose proof (cluster_bounds _ _ Hok) as Hcb.
  unfold first_offset. case_match; [by rewrite Z.mul_1_l|]. apply Z.divide_mul_l.
  destruct Hc as [Hd|Hd]; [etransitivity; [exact Hd|by eexists]|].
  replace (CEILING_ALIGN bpt c) with bpt; [apply track_whole|].
  assert (Hcd : (c | bpt)) by (etransitivity; [exact Hd|apply track_whole]).
  destruct Hcd as [k Hk]. unfold CEILING_ALIGN. rewrite uwrap_small by lia.
  replace (bpt + c - 1) with (k * c + (c - 1)) by lia.
  rewrite Z.div_add_l, (Z.div_small (c - 1)) by lia. lia.
Qed.

Lemma align_next_whole o : (ss | align_next s d o).
Proof.
  unfold align_next. case_bool_decide as Hm; [|apply ceiling_whole].
  by apply floor_whole, cluster_whole.
Qed.

Lemma place_front_whole style name size offset ps next :
  (ss | offset) -> (ss | size) -> place_front s d style name size offset = Some (ps, next) ->
  Forall (whole ss) ps /\ (ss | next).
Proof.
  intros Ho Hs. unfold place_front. case_match; [done|]. case_match; [|done].
  intros [= <- <-]. split; [by repeat constructor|apply align_next_whole].
Qed.

Lemma place_back_whole last sizes ps lo :
  Forall (fun x => (ss | x.2)) sizes -> place_back s d last sizes = Some (ps, lo) -> Forall (whole ss) ps.
Proof.
  revert ps lo. induction sizes as [|[name size] sizes IH]; intros ps lo Hs; cbn [place_back].
  - by intros [= <- <-].
  - inversion Hs as [|? ? Hz Hs']; subst. intros ([qs l] & Hp & Hr)%bind_Some.
    case_bool_decide; [|done]. injection Hr as <- <-. constructor; [|by eapply IH].
    split; [apply floor_whole, track_whole|done].
Qed.

Lemma back_sizes_whole extra u sizes :
  back_sizes s d extra u = Some sizes -> Forall (fun x => (ss | x.2)) sizes.
Proof.
  unfold back_sizes. intros (casper & Hcas & [= <-])%bind_Some. apply Forall_app. split.
  - destruct (wants extra XP_PERSISTENCE); [|injection Hcas as <-; constructor].
    case_bool_decide; [done|]. injection Hcas as <-. repeat constructor. apply ceiling_whole.
  - destruct (wants extra XP_ESP); [|destruct (wants extra XP_UEFI_NTFS); [|destruct (wants extra XP_COMPAT)]];
      repeat constructor; first [apply ceiling_whole|apply track_whole].
Qed.

Lemma plan_whole style extra u ps mi : plan s d style extra u = Plan ps mi -> Forall (whole ss) ps.
Proof.
  unfold plan. destruct (place_all s d style extra u) as [[[[front back] offset] last]|] eqn:Hall; [|done].
  case_bool_decide; [done|]. intros [= <- <-].
  apply bind_Some in Hall as ([[esp o1] e1] & Hesp & ([[msr o2] e2] & Hmsr & (sizes & Hsz & Hrest)%bind_Some)%bind_Some).
  case_bool_decide; [|done]. apply bind_Some in Hrest as ([bs lo] & Hb & Hrest).
  case_bool_decide; [|done]. injection Hrest as <- <- <- <-.
  assert (Hw1 : Forall (whole ss) esp /\ (ss | o1)).
  { unfold place_esp in Hesp. case_match.
    - apply bind_Some in Hesp as ([ps' next'] & Hp & [= <- <- <-]).
      eapply place_front_whole; [apply first_offset_whole| |exact Hp]. by apply Z.divide_mul_r.
    - injection Hesp as <- <- <-. split; [constructor|apply first_offset_whole]. }
  assert (Hw2 : Forall (whole ss) msr /\ (ss | o2)).
  { unfold place_msr in Hmsr. case_match.
    - apply bind_Some in Hmsr as ([ps' next'] & Hp & [= <- <- <-]).
      eapply place_front_whole; [apply Hw1| |exact Hp]. by apply Z.divide_mul_r.
    - injection Hmsr as <- <- <-. split; [constructor|apply Hw1]. }
  apply Forall_app. split; [apply Forall_app; split; [apply Hw1|apply Hw2]|]. constructor.
  - split; [apply Hw2|]. cbn. unfold main_size. case_bool_decide; [by apply floor_whole, cluster_whole|].
    apply floor_whole, track_whole.
  - eapply place_back_whole; [by eapply back_sizes_whole|exact Hb].
Qed.
End whole.

(** ** Clearing the partitions and describing them *)

(** What the system's own calls do not do. *)
Class PartitionLaws (D : Type) `{Os D} `{DiskView D} `{PartitionOs D} := {
  guid_law d g d' : CoCreateGuid d = (g, d') -> unchanged d d';
}.

(** How much of a partition is cleared. *)
Definition cleared_size (ss : Z) (p : partition) : Z := Z.min (128 * ss) (Size p).

Fixpoint cleared (ss : Z) (f : Z -> Z) (ps : list partition) : Z -> Z :=
  match ps with
  | [] => f
  | p :: ps => cleared ss (zeroed f (Offset p) (Offset p + cleared_size ss p)) ps
  end.

#[export] Instance zeroed_proper : Proper (same_content ==> eq ==> eq ==> same_content) zeroed.
Proof. intros f g Hfg a ? <- b ? <- z. unfold zeroed. case_bool_decide; [done|apply Hfg]. Qed.

#[export] Instance cleared_proper : Proper (eq ==> same_content ==> eq ==> same_content) cleared.
Proof.
  intros ss ? <- f g Hfg ps ? <-. revert f g Hfg. induction ps as [|p ps IH]; intros f g Hfg; [done|].
  apply IH. by apply zeroed_proper.
Qed.

Lemma cleared_zero ss f ps z : f z = 0 -> cleared ss f ps z = 0.
Proof.
  revert f. induction ps as [|p ps IH]; intros f Hf; cbn; [done|]. apply IH. unfold zeroed.
  by case_bool_decide.
Qed.

Lemma cleared_in ss f ps i p z : ps !! i = Some p ->
  Offset p <= z < Offset p + cleared_size ss p -> cleared ss f ps z = 0.
Proof.
  revert f i. induction ps as [|q ps IH]; intros f i Hi Hz; [done|]. destruct i as [|i]; cbn in Hi |- *.
  - injection Hi as ->. apply cleared_zero. unfold zeroed. by rewrite bool_decide_true.
  - by eapply IH.
Qed.

(** [z] is in none of the partitions. *)
Definition off_partitions (ps : list partition) (z : Z) : Prop :=
  Forall (fun p => ~ (Offset p <= z < Offset p + Size p)) ps.

Lemma cleared_out ss f ps z : 0 < ss -> off_partitions ps z -> cleared ss f ps z = f z.
Proof.
  intros Hss Ho. revert f. induction Ho as [|p ps Hp Ho IH]; intros f; cbn; [done|].
  rewrite IH. unfold zeroed, cleared_size. by rewrite bool_decide_false by lia.
Qed.

(** Entry [e] of the layout says what partition [p] of index [i] is. *)
Definition describes (s : settings) (style : partition_style) (fs : fs_type) (mi i : nat)
    (p : partition) (e : layout_entry) : Prop :=
  StartingOffset e = Offset p /\ PartitionLength e = Size p /\ PartitionNumber e = Z.of_nat i + 1 /\
  match style with
  | PARTITION_STYLE_MBR => mbr_entry s fs (bool_decide (i = mi)) (Name p) = Some (entry_style e)
  | _ => exists guid, entry_style e = gpt_entry (Name p) guid
  end.

Definition described (s : settings) (style : partition_style) (fs : fs_type) (mi i : nat)
    (ps : list partition) (es : list layout_entry) : Prop :=
  length es = length ps /\
  forall j p e, ps !! j = Some p -> es !! j = Some e -> describes s style fs mi (i + j) p e.

Section writes.
Context {D : Type} `{OsLaws D} `{PartitionOs D} `{!PartitionLaws D} (s : settings) (d : drive).
Implicit Types w : world D.
Abbreviation ss := (SectorSize s).

Lemma ClearPartition_spec offset size w :
  0 <= offset -> 0 <= size ->
  wp (ClearPartition offset size) w (fun _ w' => keeps w w' /\
    (forall z, ~ (offset <= z < offset + size) -> content w' z = content w z) /\
    (reliable (machine w) -> on_disk w offset size ->
       same_content (content w') (zeroed (content w) offset (offset + size)))).
Proof.
  intros Ho Hs. unfold ClearPartition. step.
  apply (wp_mono _ _ (fun r w1 => looked w w1 /\ (forall m, r = Some m -> m = replicate (Z.to_nat size) 0) /\
    (reliable (machine w) -> is_Some r))).
  { apply wp_call. intros r dd Hcal. destruct (calloc_law _ _ _ _ Hcal) as (Hu & _ & Hr & Hm).
    split_and!; [by apply looked_machine|done|done]. }
  intros b w1 (Hl1 & Hm & Hr1). assert (Hk1 : keeps w w1) by apply Hl1.
  destruct b as [m|]; [|step; split_and!; [done|intros; apply Hl1|intros Hr; by destruct (Hr1 Hr)]].
  rewrite (Hm m eq_refl). step. eapply wp_mono; [apply seek_spec|]. intros q w2 (Hl2 & Hpos & Hq).
  assert (Hl : looked w w2) by (by etransitivity).
  destruct q as [q|].
  2:{ step. split_and!; [apply Hl|intros; apply Hl|]. intros Hr.
      destruct (Hq (keeps_reliable _ _ Hk1 Hr) Ho). done. }
  specialize (Hpos (mk_is_Some _ _ eq_refl)). step.
  eapply wp_mono; [apply WriteFileWithRetry_spec|]. cbv zeta.
  rewrite length_replicate, Z2Nat.id by lia. intros r w3 (Hw3 & _ & Hgood). step.
  rewrite Hpos in Hw3. apply (wrote_after _ _ _ _ _ _ Hl) in Hw3 as (Hk3 & Hout & Hin).
  rewrite length_replicate, Z2Nat.id in Hout by lia. split_and!; [done|done|].
  intros Hr Hd z. rewrite Hin.
  - rewrite patch_zeros, Z2Nat.id by lia. done.
  - destruct Hgood as [-> _]; [by eapply keeps_reliable; [apply Hl|]| |done].
    by apply (on_disk_aligned w w2 offset).
Qed.

Lemma make_entry_spec style fs main name w :
  wp (make_entry s style fs main name) w (fun r w' => looked w w' /\
    match style with
    | PARTITION_STYLE_MBR => r = mbr_entry s fs main name
    | _ => exists guid, r = Some (gpt_entry name guid)
    end).
Proof.
  unfold make_entry. destruct style; [by apply wp_ret|..];
    (step; step; step; split; [|by eexists]; apply looked_machine; by eapply guid_law).
Qed.

(** Every partition can be cleared without an error. *)
Definition on_disk_all w (ps : list partition) : Prop :=
  Forall (fun p => on_disk w (Offset p) (cleared_size ss p)) ps.

Lemma build_layout_spec style fs mi ps i w :
  0 < ss <= 65536 -> Forall (fun p => 0 <= Offset p /\ 0 < Size p) ps ->
  wp (build_layout s style fs mi i ps) w (fun r w' => keeps w w' /\
    (forall z, off_partitions ps z -> content w' z = content w z) /\
    (forall es, r = Some es -> described s style fs mi i ps es) /\
    (style = PARTITION_STYLE_MBR -> main_mbr_type fs = None \/ is_Some r) /\
    (style ≠ PARTITION_STYLE_MBR -> is_Some r) /\
    (is_Some r -> reliable (machine w) -> on_disk_all w ps ->
       same_content (content w') (cleared ss (content w) ps))).
Proof.
  intros Hss Hps. revert i w. induction Hps as [|p ps [Ho Hs] Hps IH]; intros i w; cbn [build_layout].
  { step. split_and!; [done|done| |intros; right; by eexists|by eexists|done]. intros es [= <-]. by split. }
  step. change MAX_SECTORS_TO_CLEAR with 128. rewrite (uwrap_small 32 (128 * ss)), (uwrap_small 32 (Z.min _ _)) by lia.
  fold (cleared_size ss p). assert (Hcs : 0 < cleared_size ss p <= Size p) by (unfold cleared_size; lia).
  eapply wp_mono; [apply ClearPartition_spec; lia|]. intros ? w1 (Hk1 & Hout1 & Hin1). step.
  eapply wp_mono; [apply make_entry_spec|]. intros e w2 [Hl2 He]. assert (Hk2 : keeps w w2) by (etransitivity; [exact Hk1|apply Hl2]).
  assert (Hout2 : forall z, off_partitions (p :: ps) z -> content w2 z = content w z).
  { intros z [Hz _]%Forall_cons. rewrite (proj2 Hl2 z). apply Hout1. lia. }
  destruct e as [e|].
  2:{ step. split_and!; [done|done|done| |destruct style; [done|by destruct He..]|by intros [? ?]].
      intros ->. left. unfold mbr_entry in He. destruct (bool_decide _), (main_mbr_type fs); done. }
  step. eapply wp_mono; [apply IH|]. intros r w3 (Hk3 & Hout3 & Hd & Hm & Hg & Hc3). step.
  split_and!.
  - by etransitivity.
  - intros z Hz. rewrite <- Hout2 by done. apply Hout3. by apply Forall_cons in Hz as [_ Hz].
  - intros es. destruct r as [es'|]; [|done]. cbn. intros [= <-]. destruct (Hd _ eq_refl) as [Hlen Hall].
    split; [cbn; by f_equal|]. intros [|j] q e' Hq He'; cbn in Hq, He'.
    + injection Hq as <-. injection He' as <-. rewrite Nat.add_0_r. split_and!; try done.
      destruct style; [done|by destruct He as [g [= ->]]; eexists..].
    + rewrite Nat.add_succ_r. by eapply (Hall j).
  - intros Hst. destruct (Hm Hst) as [?|[x ->]]; [by left|right; by eexists].
  - intros Hst. destruct (Hg Hst) as [x ->]. by eexists.
  - intros Hsome Hr [Hd1 Hd2]%Forall_cons. cbn.
    destruct r as [es'|]; [|by destruct Hsome]. intros z.
    rewrite Hc3; [|by eexists|by eapply keeps_reliable|].
    + apply cleared_proper; [done| |done]. intros y. rewrite (proj2 Hl2 y). by apply Hin1.
    + eapply Forall_impl; [exact Hd2|]. intros q. by apply keeps_on_disk.
Qed.
End writes.

(** ** The UEFI:NTFS image *)

Section uefi.
Context (s : settings) (d : drive) (Hok : drive_ok s d).
Abbreviation bpt := (bytes_per_track s d).

Lemma place_back_names last sizes ps lo :
  place_back s d last sizes = Some (ps, lo) -> (fun p => (Name p, Size p)) <$> ps = sizes.
Proof.
  revert ps lo. induction sizes as [|[name size] sizes IH]; intros ps lo; cbn [place_back].
  - by intros [= <- <-].
  - intros ([qs l] & Hp & Hr)%bind_Some. case_bool_decide; [|done]. injection Hr as <- <-.
    cbn. f_equal. by eapply IH.
Qed.

Lemma place_front_name style name size offset ps next :
  place_front s d style name size offset = Some (ps, next) -> Forall (fun p => Name p = name) ps.
Proof. unfold place_front. case_match; [done|]. case_match; [|done]. intros [= <- <-]. by repeat constructor. Qed.

Lemma place_all_flags style extra u front back offset last :
  place_all s d style extra u = Some (front, back, offset, last) ->
  Forall (fun p => Name p ≠ UefiNtfs) front /\
  back_sizes s d (flags_left d extra) u = Some ((fun p => (Name p, Size p)) <$> back).
Proof.
  intros ([[esp o1] e1] & Hesp & ([[msr o2] e2] & Hmsr & (sizes & Hsz & Hrest)%bind_Some)%bind_Some)%bind_Some.
  case_bool_decide; [|done]. apply bind_Some in Hrest as ([bs lo] & Hb & Hrest).
  case_bool_decide; [|done]. injection Hrest as <- <- <- <-.
  rewrite (place_back_names _ _ _ _ Hb). unfold flags_left.
  assert (Hweak : forall name ps, Forall (fun p => Name p = name) ps -> name ≠ UefiNtfs ->
            Forall (fun p => Name p ≠ UefiNtfs) ps).
  { intros name ps Hall Hne. eapply Forall_impl; [exact Hall|]. by intros p ->. }
  assert (Hes : Forall (fun p => Name p ≠ UefiNtfs) esp /\
    e1 = if (fixed_media d || bool_decide (BuildNumber d > 15000)) && wants extra XP_ESP
         then Z.ldiff extra XP_ESP else extra).
  { unfold place_esp in Hesp. case_match; [|by injection Hesp as <- <- <-].
    apply bind_Some in Hesp as ([ps' next'] & Hp & [= <- <- <-]). split; [|done].
    eapply Hweak; [by eapply place_front_name|done]. }
  destruct Hes as [Hes <-].
  assert (Hms : Forall (fun p => Name p ≠ UefiNtfs) msr /\
    e2 = if wants e1 XP_MSR then Z.ldiff e1 XP_MSR else e1).
  { unfold place_msr in Hmsr. case_match; [|by injection Hmsr as <- <- <-].
    apply bind_Some in Hmsr as ([ps' next'] & Hp & [= <- <- <-]). split; [|done].
    eapply Hweak; [by eapply place_front_name|done]. }
  destruct Hms as [Hms <-]. split; [|done]. by apply Forall_app.
Qed.

(** The partition that gets the image is large enough for it. *)
Lemma plan_uefi style extra u ps mi :
  0 <= u < 2 ^ 62 -> plan s d style extra u = Plan ps mi ->
  wants (flags_left d extra) XP_UEFI_NTFS = true -> wants (flags_left d extra) XP_ESP = false ->
  exists i p, ps !! i = Some p /\ Name p = UefiNtfs /\ uefi_ntfs_offset ps = Offset p /\ u <= Size p.
Proof.
  intros Hu. unfold plan.
  destruct (place_all s d style extra u) as [[[[front back] offset] last]|] eqn:Hall; [|done].
  case_bool_decide; [done|]. intros [= <- <-] Hw Hne.
  destruct (place_all_flags _ _ _ _ _ _ _ Hall) as [Hfront Hsz].
  unfold back_sizes in Hsz. rewrite Hne, Hw in Hsz.
  apply bind_Some in Hsz as (casper & Hcas & [= Hnames]).
  set (main := mkPart _ _ _). set (ps := front ++ main :: back).
  assert (Hsize : forall p, p ∈ ps -> Name p = UefiNtfs -> u <= Size p).
  { intros p Hp Hn. apply elem_of_app in Hp as [Hp|Hp].
    - by destruct (proj1 (Forall_forall _ _) Hfront p Hp).
    - apply elem_of_cons in Hp as [->|Hp]; [unfold main in Hn; cbn in Hn; by destruct (write_as_esp d)|].
      assert (Hin : (Name p, Size p) ∈ (fun p => (Name p, Size p)) <$> back) by (apply list_elem_of_fmap; by exists p).
      rewrite <- Hnames, Hn in Hin. apply elem_of_app in Hin as [Hin|Hin].
      + destruct (wants _ XP_PERSISTENCE); [case_bool_decide; [done|]|]; injection Hcas as <-;
          by apply list_elem_of_singleton in Hin || by apply elem_of_nil in Hin.
      + apply list_elem_of_singleton in Hin. injection Hin as ->.
        pose proof (track_bounds _ _ Hok). apply (ceiling_align_bounds u bpt); lia. }
  assert (Hex : exists p, p ∈ ps /\ Name p = UefiNtfs).
  { assert (Hin : (UefiNtfs, CEILING_ALIGN u bpt) ∈ (fun p => (Name p, Size p)) <$> back)
      by (rewrite <- Hnames; apply elem_of_app; right; by apply list_elem_of_singleton).
    apply list_elem_of_fmap in Hin as (p & [= Hn _] & Hp). exists p. split; [|done].
    apply elem_of_app. right. by apply elem_of_cons; right. }
  destruct Hex as (p & Hp & Hn). unfold uefi_ntfs_offset.
  destruct (list_find (fun p => Name p = UefiNtfs) ps) as [[i q]|] eqn:Hfind.
  - apply list_find_Some in Hfind as (Hi & Hq & _). exists i, q. cbn. rewrite Hi.
    split_and!; [done|done|done|]. apply Hsize; [by eapply list_elem_of_lookup_2|done].
  - exfalso. apply list_find_None in Hfind. by apply (proj1 (Forall_forall _ _) Hfind p Hp).
Qed.
End uefi.

(** ** Before the partition table is created *)

Section prepare.
Context {D : Type} `{OsLaws D} `{PartitionOs D} `{!PartitionLaws D} (s : settings) (d : drive).
Context (Hok : drive_ok s d) (uefi_ntfs : option (list Z)).
Implicit Types w : world D.
Abbreviation ss := (SectorSize s).
Abbreviation image := (default [] uefi_ntfs).

Lemma write_uefi_ntfs_spec ps w :
  let offset := uefi_ntfs_offset ps in
  0 <= offset ->
  wp (write_uefi_ntfs uefi_ntfs ps) w (fun r w' => keeps w w' /\
    (forall z, ~ (offset <= z < offset + sizeof image) -> content w' z = content w z) /\
    (reliable (machine w) -> on_disk w offset (sizeof image) -> is_Some uefi_ntfs ->
       r = true /\ same_content (content w') (patch (content w) offset image))).
Proof.
  intros offset Ho. unfold write_uefi_ntfs. fold offset. step.
  eapply wp_mono; [apply seek_spec|]. intros q w1 (Hl1 & Hpos & Hq). assert (Hk1 : keeps w w1) by apply Hl1.
  destruct q as [q|].
  2:{ step. split_and!; [apply Hl1|intros; apply Hl1|]. intros Hr. by destruct (Hq Hr Ho). }
  specialize (Hpos (mk_is_Some _ _ eq_refl)). destruct uefi_ntfs as [img|]; cbn [default].
  2:{ step. split_and!; [apply Hl1|intros; apply Hl1|]. by intros _ _ [? ?]. }
  step. eapply wp_mono; [apply WriteFileWithRetry_spec|]. cbv zeta. intros r w2 (Hw2 & _ & Hgood).
  rewrite Hpos in Hw2. apply (wrote_after _ _ _ _ _ _ Hl1) in Hw2 as (Hk2 & Hout & Hin). step.
  split_and!; [done|done|]. intros Hr Hd _.
  destruct Hgood as [-> _]; [by eapply keeps_reliable| |].
  - apply (on_disk_aligned w w1 offset); [done|done|done|lia|done].
  - split; [done|]. by apply Hin.
Qed.

Lemma laid_nonneg lo ps hi : laid lo ps hi -> 0 <= lo -> Forall (fun p => 0 <= Offset p /\ 0 < Size p) ps.
Proof.
  revert lo. induction ps as [|p ps IH]; intros lo Hl Hlo; [constructor|]. destruct Hl as (? & ? & Hl).
  constructor; [lia|]. eapply IH; [exact Hl|lia].
Qed.

Lemma flags_left_uefi extra : wants (flags_left d extra) XP_UEFI_NTFS = wants extra XP_UEFI_NTFS.
Proof. unfold flags_left. repeat case_match; by rewrite ?wants_ldiff. Qed.

(** A valid request, with its plan. *)
Record request (style : partition_style) (extra : Z) (ps : list partition) (mi : nat) : Prop := {
  req_style : style ≠ PARTITION_STYLE_SFD;
  req_image : wants extra XP_UEFI_NTFS = true -> 0 < sizeof image;
  req_size : sizeof image < 2 ^ 62;
  req_one : wants (flags_left d extra) XP_UEFI_NTFS = true -> wants (flags_left d extra) XP_ESP = false;
  req_plan : plan s d style extra (sizeof image) = Plan ps mi;
}.

Section request.
Context (style : partition_style) (fs : fs_type) (extra : Z) (ps : list partition) (mi : nat).
Context (Hreq : request style extra ps mi).

Lemma request_laid : exists lo hi, 0 < lo /\ laid lo ps hi /\ hi <= DiskSize d.
Proof.
  destruct Hreq as [_ Himg Hsz _ Hp].
  destruct (plan_spec s d Hok style extra (sizeof image) ps mi ltac:(lia) Himg Hp) as (? & ? & ? & ? & _ & _ & _ & Hl & _).
  pose proof (first_offset_bounds s d Hok style) as [Hf _].
  pose proof (usable_end_bounds s d Hok style) as [_ He]. pose proof (ok_sector _ _ Hok).
  do 2 eexists. split; [|split; [exact Hl|]]; [lia|]. rewrite He. case_bool_decide; lia.
Qed.

Lemma request_image : wants (flags_left d extra) XP_UEFI_NTFS = true ->
  exists i p, ps !! i = Some p /\ Name p = UefiNtfs /\ uefi_ntfs_offset ps = Offset p /\ sizeof image <= Size p.
Proof.
  destruct Hreq as [_ _ Hsz Hone Hp]. intros Hw.
  apply (plan_uefi s d Hok style extra (sizeof image) ps mi); auto. lia.
Qed.

(** The whole of [prepare]. *)
Lemma prepare_spec w :
  wp (prepare s d uefi_ntfs style fs extra ps mi) w (fun r w' => keeps w w' /\
    (forall z, off_partitions ps z -> content w' z = content w z) /\
    (forall es, r = Some es -> described s style fs mi 0 ps es) /\
    (reliable (machine w) -> on_disk_all s w ps -> (style = PARTITION_STYLE_MBR -> main_mbr_type fs ≠ None) ->
     (wants (flags_left d extra) XP_UEFI_NTFS = true -> on_disk w (uefi_ntfs_offset ps) (sizeof image)) ->
       is_Some r /\ same_content (content w')
         (if wants (flags_left d extra) XP_UEFI_NTFS
          then patch (cleared ss (content w) ps) (uefi_ntfs_offset ps) image
          else cleared ss (content w) ps))).
Proof.
  destruct request_laid as (lo & hi & Hlo & Hlaid & _).
  pose proof (laid_nonneg _ _ _ Hlaid ltac:(lia)) as Hpos. pose proof (ok_sector _ _ Hok) as Hss.
  unfold prepare. step. eapply wp_mono; [by apply build_layout_spec|].
  intros r w1 (Hk1 & Hout1 & Hd & Hm & Hg & Hc1).
  assert (Hsome : (style = PARTITION_STYLE_MBR -> main_mbr_type fs ≠ None) -> is_Some r).
  { intros Hfs. destruct (decide (style = PARTITION_STYLE_MBR)) as [Hst|Hst]; [|by apply Hg].
    destruct (Hm Hst) as [Hn|]; [by destruct (Hfs Hst)|done]. }
  destruct r as [es|].
  2:{ step. split_and!; [done|done|done|]. intros _ _ Hfs. by destruct (Hsome Hfs). }
  destruct (wants (flags_left d extra) XP_UEFI_NTFS) eqn:Hw.
  2:{ step. split_and!; [done|done|done|]. intros Hr Hon _ _. split; [by eexists|]. by apply Hc1. }
  destruct (request_image Hw) as (i & p & Hi & _ & Hoff & Hfit).
  destruct (laid_elem _ _ _ _ _ Hlaid Hi) as (Hp1 & _).
  step. eapply wp_mono; [apply write_uefi_ntfs_spec; lia|]. cbv zeta.
  intros ok w2 (Hk2 & Hout2 & Hin2). step. split_and!.
  - by etransitivity.
  - intros z Hz. rewrite <- Hout1 by done. apply Hout2.
    apply (proj1 (Forall_lookup _ _) Hz i p) in Hi. rewrite Hoff. lia.
  - intros es'. destruct ok; [|done]. intros [= <-]. by apply Hd.
  - intros Hr Hon _ Himg. pose proof (flags_left_uefi extra) as Hsame. rewrite Hw in Hsame.
    assert (Hu : is_Some uefi_ntfs).
    { destruct Hreq as [_ Hr1 _ _ _]. specialize (Hr1 (eq_sym Hsame)).
      destruct uefi_ntfs; [by eexists|by cbn in Hr1]. }
    destruct Hin2 as [-> Hc2]; [by eapply keeps_reliable|by eapply keeps_on_disk; [|apply Himg]|done|].
    split; [by eexists|]. intros z. rewrite (Hc2 z). apply patch_proper; [|done..].
    apply Hc1; [by eexists|done|done].
Qed.
End request.

(** [CreatePartition], once the partitions were prepared. *)
Lemma CreatePartition_eq style fs marker extra ps mi w :
  request style extra ps mi ->
  CreatePartition s d uefi_ntfs style fs marker extra w =
    (let '(r, w1) := prepare s d uefi_ntfs style fs extra ps mi w in
     match r with
     | None => (Returned false, w1)
     | Some es =>
         (layout ← disk_layout s d style marker es; ok ← set_layout layout; mret (Returned ok)) w1
     end).
Proof.
  intros [Hst Himg Hsz _ Hplan]. unfold CreatePartition. rewrite bool_decide_false by done.
  assert (Hu : default 0 ((fun b => sizeof b) <$> uefi_ntfs) = sizeof image) by (by destruct uefi_ntfs).
  rewrite Hu, Hplan. destruct (wants extra XP_UEFI_NTFS) eqn:Hw; cbn [andb].
  - rewrite bool_decide_false by (specialize (Himg eq_refl); lia).
    unfold mbind, prog_bind at 1. by destruct (prepare _ _ _ _ _ _ _ _ w) as [[es|] w1].
  - unfold mbind, prog_bind at 1. by destruct (prepare _ _ _ _ _ _ _ _ w) as [[es|] w1].
Qed.

(** The partitions of a plan can be cleared and the image can be written. *)
Lemma request_on_disk style extra ps mi w :
  request style extra ps mi -> (ss | MB) -> (ss | ClusterSize d) \/ (ClusterSize d | ss) ->
  (disk_sector (machine w) | ss) -> DiskSize d <= disk_size (machine w) ->
  on_disk_all s w ps /\
  (wants (flags_left d extra) XP_UEFI_NTFS = true -> (ss | sizeof image) ->
     on_disk w (uefi_ntfs_offset ps) (sizeof image)).
Proof.
  intros Hreq Hmb Hcl Hsec Hsize. pose proof (ok_sector _ _ Hok) as Hss.
  destruct (request_laid _ _ _ _ Hreq) as (lo & hi & _ & Hlaid & Hhi).
  pose proof (plan_whole s d Hok Hmb Hcl _ _ _ _ _ (req_plan _ _ _ _ Hreq)) as Hwhole.
  assert (Hp : forall i p, ps !! i = Some p -> whole ss p /\ Offset p + Size p <= DiskSize d /\ 0 < Size p).
  { intros i p Hi. destruct (laid_elem _ _ _ _ _ Hlaid Hi) as (? & ? & ?).
    split; [by eapply Forall_lookup_1|lia]. }
  split.
  - apply Forall_lookup. intros i p Hi. destruct (Hp i p Hi) as ([H1' H2'] & Hend & Hpos).
    unfold on_disk, cleared_size. split_and!; [by etransitivity| |lia].
    etransitivity; [exact Hsec|]. destruct (Z.min_spec (128 * ss) (Size p)) as [[_ ->]|[_ ->]]; [by apply Z.divide_mul_r|done].
  - intros Hw Himg. destruct (request_image _ _ _ _ Hreq Hw) as (i & p & Hi & _ & -> & Hfit).
    destruct (Hp i p Hi) as ([H1' _] & Hend & _). unfold on_disk. split_and!; [by etransitivity..|lia].
Qed.
End prepare.

Section claims.
Context {D : Type} `{OsLaws D} `{PartitionOs D} `{!PartitionLaws D}.
Implicit Types w : world D.

(** C27: Whatever the system does - allocations, seeks and writes that fail or stop
    short - [CreatePartition] changes no byte outside the partitions of its
    plan before the partition table is created; in particular the first
    sectors and the gaps are left, and the UEFI:NTFS image stays in its
    partition. When the layout is then set, its entries are those
    partitions, in order, each with the offset, the length, the number and the
    type that its name asks for. *)
Theorem create_partition_confined s d uefi_ntfs style fs marker extra ps mi w :
  drive_ok s d -> request s d uefi_ntfs style extra ps mi ->
  exists r w1,
    CreatePartition s d uefi_ntfs style fs marker extra w =
      match r with
      | None => (Returned false, w1)
      | Some es =>
          (layout ← disk_layout s d style marker es; ok ← set_layout layout; mret (Returned ok)) w1
      end /\
    (forall z, off_partitions ps z -> content w1 z = content w z) /\
    (forall es, r = Some es -> length es = length ps /\
       forall i p e, ps !! i = Some p -> es !! i = Some e -> describes s style fs mi i p e).
Proof.
  intros Hok Hreq.
  destruct (wp_eval _ _ _ (prepare_spec s d Hok uefi_ntfs style fs extra ps mi Hreq w))
    as (r & w1 & Hrun & _ & Hout & Hd & _).
  exists r, w1. rewrite (CreatePartition_eq s d uefi_ntfs style fs marker extra ps mi w Hreq), Hrun. auto.
Qed.

(** C29: On a machine whose accesses succeed, with a sector size that divides 1 MB and is
    compatible with the cluster size, and a supported file system: when
    [CreatePartition] comes to create the table, the first 128 sectors of each
    partition, or all of it when it is shorter, are zero, but for the UEFI:NTFS
    image, which is at the start of its own partition, and no byte outside the
    partitions has changed. *)
Theorem create_partition_prepares s d uefi_ntfs style fs marker extra ps mi w :
  drive_ok s d -> request s d uefi_ntfs style extra ps mi ->
  (SectorSize s | MB) -> (SectorSize s | ClusterSize d) \/ (ClusterSize d | SectorSize s) ->
  (SectorSize s | sizeof (default [] uefi_ntfs)) ->
  (style = PARTITION_STYLE_MBR -> main_mbr_type fs ≠ None) ->
  reliable (machine w) -> (disk_sector (machine w) | SectorSize s) -> DiskSize d <= disk_size (machine w) ->
  exists es w1,
    CreatePartition s d uefi_ntfs style fs marker extra w =
      (layout ← disk_layout s d style marker es; ok ← set_layout layout; mret (Returned ok)) w1 /\
    (wants extra XP_UEFI_NTFS = true ->
       exists i p, ps !! i = Some p /\ Name p = UefiNtfs /\
         bytes_at (content w1) (Offset p) (length (default [] uefi_ntfs)) = default [] uefi_ntfs) /\
    (forall i p z, ps !! i = Some p -> Offset p <= z < Offset p + cleared_size (SectorSize s) p ->
       content w1 z = 0 \/
       wants extra XP_UEFI_NTFS = true /\ Name p = UefiNtfs /\ z < Offset p + sizeof (default [] uefi_ntfs)) /\
    (forall z, off_partitions ps z -> content w1 z = content w z).
Proof.
  intros Hok Hreq Hmb Hcl Himg Hfs Hr Hsec Hsize.
  destruct (request_on_disk s d Hok uefi_ntfs style extra ps mi w Hreq Hmb Hcl Hsec Hsize) as [Hall Huefi].
  destruct (wp_eval _ _ _ (prepare_spec s d Hok uefi_ntfs style fs extra ps mi Hreq w))
    as (r & w1 & Hrun & _ & Hout & _ & Hgood).
  destruct Hgood as [[es ->] Hc]; [done|done|done|auto|].
  exists es, w1. rewrite (CreatePartition_eq s d uefi_ntfs style fs marker extra ps mi w Hreq), Hrun.
  rewrite (flags_left_uefi d extra) in Hc. split; [done|].
  destruct (wants extra XP_UEFI_NTFS) eqn:Hw; [|split_and!; [done| |done]].
  - destruct (request_image s d Hok uefi_ntfs style extra ps mi Hreq) as (j & q & Hj & Hn & Hoff & Hfit);
      [by rewrite flags_left_uefi|]. rewrite Hoff in Hc. split_and!; [|idtac|done].
    + intros _. exists j, q. split_and!; [done|done|]. rewrite Hc. apply bytes_at_patch.
    + intros i p z Hi Hz. rewrite (Hc z). unfold patch. case_bool_decide as Hin.
      * destruct (request_laid s d Hok uefi_ntfs style extra ps mi Hreq) as (lo & hi & _ & Hlaid & _).
        unfold cleared_size in Hz. destruct (Nat.lt_total i j) as [Hij|[->|Hij]].
        -- pose proof (laid_ordered _ _ _ _ _ _ _ Hlaid Hij Hi Hj). lia.
        -- rewrite Hj in Hi. injection Hi as ->. right. split_and!; [done|done|lia].
        -- pose proof (laid_ordered _ _ _ _ _ _ _ Hlaid Hij Hj Hi). lia.
      * left. by eapply cleared_in.
  - intros i p z Hi Hz. left. rewrite (Hc z). by eapply cleared_in.
Qed.
End claims.

(** ** A 16 GB drive *)

#[export] Instance mem_partition : PartitionOs mem_disk := {
  GetTickCount64 d := (0x12345678, d);
  CoCreateGuid d := (0x42, d);
  IOCTL_DISK_CREATE_DISK _ d := (true, d);
  IOCTL_DISK_UPDATE_PROPERTIES d := (true, d);
  IOCTL_DISK_SET_DRIVE_LAYOUT_EX _ d := (true, d);
}.

#[export] Instance mem_partition_laws : PartitionLaws mem_disk.
Proof. split. by intros d g d' [= <- <-]. Qed.

Definition big_disk (script : list transfer) : world mem_disk :=
  mkWorld (mkMem (fun z => z mod 251) (16384 * MB) 512 0 script 0 0xCD) 0 0 false 512.

Definition small_image : list Z := replicate 1024 0x5A.

Definition mbr_plan : list partition :=
  [mkPart MainDataPartition 65536 16131158016; mkPart LinuxPersistence 16131257856 1048578048;
   mkPart UefiNtfs 17179835904 32256].

Lemma mbr_request :
  request gpt_settings mbr_drive (Some small_image) PARTITION_STYLE_MBR
    (Z.lor XP_COMPAT (Z.lor XP_PERSISTENCE XP_UEFI_NTFS)) mbr_plan 0.
Proof. split; try done; vm_compute; reflexivity. Qed.

Abbreviation mbr_flags := (Z.lor XP_COMPAT (Z.lor XP_PERSISTENCE XP_UEFI_NTFS)).

(** With a write that stops short and others that fail. *)
Lemma create_partition_confined_witness :
  let w := big_disk [Short 512; Fails 29; Works; Fails 29] in
  exists r w1,
    CreatePartition gpt_settings mbr_drive (Some small_image) PARTITION_STYLE_MBR FS_NTFS false mbr_flags w =
      match r with
      | None => (Returned false, w1)
      | Some es =>
          (layout ← disk_layout gpt_settings mbr_drive PARTITION_STYLE_MBR false es;
           ok ← set_layout layout; mret (Returned ok)) w1
      end /\
    (forall z, off_partitions mbr_plan z -> content w1 z = content w z) /\
    (forall es, r = Some es -> length es = length mbr_plan /\
       forall i p e, mbr_plan !! i = Some p -> es !! i = Some e ->
         describes gpt_settings PARTITION_STYLE_MBR FS_NTFS 0 i p e).
Proof.
  refine (create_partition_confined gpt_settings mbr_drive (Some small_image) PARTITION_STYLE_MBR FS_NTFS
    false mbr_flags mbr_plan 0 (big_disk [Short 512; Fails 29; Works; Fails 29]) _ _).
  - exact mbr_drive_ok.
  - exact mbr_request.
Defined.

Lemma create_partition_prepares_witness :
  let w := big_disk [] in
  exists es w1,
    CreatePartition gpt_settings mbr_drive (Some small_image) PARTITION_STYLE_MBR FS_NTFS false mbr_flags w =
      (layout ← disk_layout gpt_settings mbr_drive PARTITION_STYLE_MBR false es;
       ok ← set_layout layout; mret (Returned ok)) w1 /\
    (wants mbr_flags XP_UEFI_NTFS = true ->
       exists i p, mbr_plan !! i = Some p /\ Name p = UefiNtfs /\
         bytes_at (content w1) (Offset p) (length small_image) = small_image) /\
    (forall i p z, mbr_plan !! i = Some p -> Offset p <= z < Offset p + cleared_size 512 p ->
       content w1 z = 0 \/
       wants mbr_flags XP_UEFI_NTFS = true /\ Name p = UefiNtfs /\ z < Offset p + sizeof small_image) /\
    (forall z, off_partitions mbr_plan z -> content w1 z = content w z).
Proof.
  refine (create_partition_prepares gpt_settings mbr_drive (Some small_image) PARTITION_STYLE_MBR FS_NTFS
    false mbr_flags mbr_plan 0 (big_disk []) _ _ _ _ _ _ _ _ _).
  - exact mbr_drive_ok.
  - exact mbr_request.
  - by exists 2048.
  - left. by exists 8.
  - by exists 2.
  - intros _. discriminate.
  - reflexivity.
  - by exists 1.
  - vm_compute. discriminate.
Defined.
