(* ===== verification/WriteDrive.v ===== *)
(** WriteDrive: erasing a drive and writing an image on it, [WriteDrive] and
    [sector_write] of src/src/format.c, with the asynchronous reads of
    src/src/winio.h.

    The drive is the machine of Disk.v. The image is another file: what the
    system does with the reads of it is an oracle, a function from the number of
    the read, its offset and its length to an [async_outcome]. *)

From S2P Require Import Prelude Disk BootRecords Format Partition.

#[local] Open Scope prog_scope.

Definition DD_BUFFER_SIZE : Z := 32 * MB.
Definition DD_NUM_BUFFERS : nat := 2.
Definition ERROR_OPEN_FAILED : Z := 110.
Definition ERROR_HANDLE_EOF : Z := 38.
Definition ERROR_SECTOR_NOT_FOUND : Z := 27.
Definition ERROR_IO_PENDING : Z := 997.

(** How a call ends: it returns, or an assertion fails; [OutOfFuel] is no behaviour
    of the program, but of the bound on the turns of the loops below. *)
Inductive drive_result := Ended (ret : bool) | AssertFailed | OutOfFuel.

(** How a loop ends: at its end, with [goto out], or as above. *)
Inductive loop_end := LoopDone | GotoOut | LoopAsserts | NoFuel.

#[export] Instance loop_end_eq_dec : EqDecision loop_end.
Proof. solve_decision. Defined.
#[export] Instance drive_result_eq_dec : EqDecision drive_result.
Proof. solve_decision. Defined.

(** Whether the user has pressed Cancel since the last look. *)
Class UserOs (D : Type) := {
  user_cancels : D -> bool * D;
}.

(** ** Blocks that are already erased *)

Definition word_at (bs : list Z) (i : nat) : Z := le_word (slice (4 * i) 4 bs).

(** [for (i = 1; i < n && cmp_buffer[i] == zero_data; i++)]: the last [i], where [k]
    turns remain. *)
Fixpoint same_words (bs : list Z) (zero_data : Z) (k i : nat) : nat :=
  match k with
  | O => i
  | S k => if bool_decide (word_at bs i = zero_data) then same_words bs zero_data k (S i) else i
  end.

(** The test of the first [read_size] bytes of [cmp_buffer]. *)
Definition block_is_empty (cmp_buffer : list Z) (read_size : Z) : bool :=
  let zero_data := word_at cmp_buffer 0 in
  let n := Z.to_nat (read_size / 4) in
  andb (orb (bool_decide (zero_data = 0)) (bool_decide (zero_data = 0xFFFFFFFF)))
    (bool_decide (n <= same_words cmp_buffer zero_data (n - 1) 1)%nat).

(** ** Asynchronous reads (winio.h) *)

(** What the system does with one read: [ReadFile] returns [read_returns], else with
    the error [read_error]; until the read is over its buffer may hold [scribble];
    the wait succeeds or not, and [GetOverlappedResultEx] tells that [transferred]
    was stored, or fails with [result_error]. *)
Record async_outcome := mkAsync {
  read_returns : bool;
  read_error : Z;
  scribble : list Z;
  wait_ok : bool;
  result_ok : bool;
  result_error : Z;
  transferred : list Z;
}.

(** [ASYNC_FD], with the outcome of the current read. *)
Record ASYNC_FD := mkFd {
  iStatus : Z;
  fd_Offset : Z;
  bOffsetUpdated : bool;
  current : async_outcome;
}.

(** [None] when the assertion on [ERROR_HANDLE_EOF] fails. *)
Definition ReadFileAsync (o : async_outcome) (fd : ASYNC_FD) : option ASYNC_FD :=
  if read_returns o then Some (mkFd 1 (fd_Offset fd) false o)
  else if bool_decide (read_error o = ERROR_HANDLE_EOF) then None
  else Some (mkFd (if bool_decide (read_error o = ERROR_IO_PENDING) then -1 else 0) (fd_Offset fd) false o).

Definition WaitFileAsync (fd : ASYNC_FD) : bool :=
  orb (bool_decide (iStatus fd > 0)) (wait_ok (current fd)).

(** The BOOL, the number of bytes when it is TRUE, and the descriptor. *)
Definition GetSizeAsync (fd : ASYNC_FD) : bool * Z * ASYNC_FD :=
  if bool_decide (iStatus fd = 0) then (false, 0, fd)
  else if bOffsetUpdated fd then (false, 0, fd)
  else
    let n := sizeof (transferred (current fd)) in
    if negb (result_ok (current fd)) then
      (orb (bool_decide (result_error (current fd) = ERROR_HANDLE_EOF))
           (bool_decide (result_error (current fd) = ERROR_SECTOR_NOT_FOUND)), n,
       mkFd (iStatus fd) (fd_Offset fd) true (current fd))
    else (true, n, mkFd (iStatus fd) (u64 (fd_Offset fd + n)) true (current fd)).

(** ** Writing whole sectors of a stream *)

(** The globals [sec_buf] and [sec_buf_pos]. *)
Record sector_buffer := mkSec { sec_buf : list Z; sec_buf_pos : Z }.

(** The part of a kind of image that [WriteDrive] distinguishes: the calls that the
    decompression makes to its write function, as far as they succeed, and what it
    returns then; or an image that is copied as it is, or a virtual disk with the
    size that [VhdMountImageAndGetSize] finds, when it can mount it. *)
Inductive image_kind :=
  | Compressed (output : list (list Z)) (bled_ret : Z)
  | Plain
  | Mounted (disk_size : option Z)
  | FullFlash.

Section drive.
Context {D : Type} `{Os D} `{UserOs D} `{PartitionOs D}.
Context (SectorSize DiskSize : Z).

(** *** User cancellation and write retries *)

(** The user interface stores the cancellation in [ErrorStatus] at any time. *)
Definition poll_user : prog D () :=
  pressed ← call user_cancels;
  if pressed : bool then modify (set_ErrorStatus (RUFUS_ERROR ERROR_CANCELLED)) else mret ().

Definition CHECK_FOR_USER_CANCEL : prog D bool :=
  _ ← poll_user; status ← gets ErrorStatus; mret (user_cancel status).

(** The loop that writes one block at [wb], where [tries] remain: the number of
    bytes written, or [None] for [goto out]. *)
Fixpoint write_block (tries : nat) (wb : Z) (block : list Z) : prog D (option Z) :=
  match tries with
  | O => mret None
  | S tries =>
      cancelled ← CHECK_FOR_USER_CANCEL;
      if cancelled : bool then mret None
      else
        r ← call (WriteFile block);
        let '(s, write_size) := r in
        if andb s (bool_decide (write_size = sizeof block)) then mret (Some write_size)
        else if bool_decide (tries = 0%nat) then fail ERROR_WRITE_FAULT None
        else
          _ ← call (fun d => ((), Sleep WRITE_TIMEOUT d));
          p ← call (SetFilePointerEx wb FILE_BEGIN);
          match p with
          | None => mret None
          | Some _ => _ ← call (fun d => ((), Sleep 200 d)); write_block tries wb block
          end
  end.

Definition drive_buf_size : Z := u32 ((DD_BUFFER_SIZE + SectorSize - 1) / SectorSize * SectorSize).

(** A size that is not a multiple of the sector size is rounded up, on 32 bits. *)
Definition whole_sectors (size : Z) : Z :=
  if bool_decide (size mod SectorSize = 0) then size
  else u32 (u32 (size + SectorSize - 1) / SectorSize * SectorSize).

(** *** Erasing *)

Inductive zero_step := SkipBlock | StopZeroing | WriteBlock (throttle : Z).

(** One look at the block at [wb], unless the reads are throttled. *)
Definition fast_zero_step (wb read_size : Z) : prog D zero_step :=
  cancelled ← CHECK_FOR_USER_CANCEL;
  if cancelled : bool then mret StopZeroing
  else
    r ← call (ReadFile read_size);
    let '(s, cmp_buffer) := r in
    if orb (negb s) (negb (bool_decide (sizeof cmp_buffer = read_size))) then mret StopZeroing
    else if block_is_empty cmp_buffer read_size then mret SkipBlock
    else
      p ← call (SetFilePointerEx wb FILE_BEGIN);
      match p with
      | None => mret StopZeroing
      | Some _ => mret (WriteBlock 15)
      end.

Definition look_at_block (fast_zeroing : bool) (throttle wb read_size : Z) : prog D zero_step :=
  if bool_decide (throttle ≠ 0) then mret (WriteBlock (throttle - 1))
  else if fast_zeroing then fast_zero_step wb read_size
  else mret (WriteBlock 0).

(** [read_size[0]] for the block at [wb]. *)
Definition zero_size (target_size wb read_size : Z) : Z :=
  whole_sectors (if bool_decide (wb + read_size > target_size) then u32 (target_size - wb) else read_size).

Fixpoint zero_loop (fuel : nat) (fast_zeroing : bool) (buffer : list Z)
    (target_size wb throttle read_size : Z) : prog D loop_end :=
  match fuel with
  | O => mret NoFuel
  | S fuel =>
      if negb (bool_decide (wb < target_size)) then mret LoopDone
      else
        let read_size := zero_size target_size wb read_size in
        step ← look_at_block fast_zeroing throttle wb read_size;
        match step with
        | StopZeroing => mret GotoOut
        | SkipBlock =>
            zero_loop fuel fast_zeroing buffer target_size (u64 (wb + read_size)) throttle read_size
        | WriteBlock throttle =>
            r ← write_block WRITE_RETRIES wb (take (Z.to_nat read_size) buffer);
            match r with
            | None => mret GotoOut
            | Some write_size =>
                zero_loop fuel fast_zeroing buffer target_size (u64 (wb + write_size)) throttle read_size
            end
        end
  end.

(** Every turn but the last moves on by a sector or more. *)
Definition drive_fuel (target_size : Z) : nat := S (S (Z.to_nat (target_size / SectorSize))).

Definition zero_drive (fast_zeroing : bool) : prog D loop_end :=
  buffer ← call (mm_malloc drive_buf_size);
  match buffer with
  | None => fail ERROR_NOT_ENOUGH_MEMORY GotoOut
  | Some _ =>
      let buffer := replicate (Z.to_nat drive_buf_size) (if fast_zeroing then 0xff else 0) in
      cmp_buffer ← (if fast_zeroing then call (mm_malloc drive_buf_size) else mret (Some []));
      match cmp_buffer with
      | None => fail ERROR_NOT_ENOUGH_MEMORY GotoOut
      | Some _ => zero_loop (drive_fuel DiskSize) fast_zeroing buffer DiskSize 0 0 drive_buf_size
      end
  end.

(** *** Copying an image *)

(** [image_read i offset n]: what the system does with the [i]-th read, of [n]
    bytes at [offset]. *)
Context (image_read : nat -> Z -> Z -> async_outcome).

(** The buffer with its [DD_NUM_BUFFERS] parts, [read_size], the two part numbers, the
    descriptor, and the number of reads that were started. *)
Record image_state := mkImage {
  img_buffer : list Z;
  img_read_size : list Z;
  read_bufnum : nat;
  proc_bufnum : nat;
  hSourceImage : ASYNC_FD;
  reads : nat;
}.

Definition part_start (i : nat) : nat := i * Z.to_nat drive_buf_size.

(** Starts the read of [n] bytes into the part [read_bufnum]. *)
Definition start_read (n : Z) (st : image_state) : option image_state :=
  let o := image_read (reads st) (fd_Offset (hSourceImage st)) n in
  fd ← ReadFileAsync o (hSourceImage st);
  Some (mkImage (splice (part_start (read_bufnum st)) (take (Z.to_nat n) (scribble o)) (img_buffer st))
          (img_read_size st) (read_bufnum st) (proc_bufnum st) fd (S (reads st))).

(** Step 1: waits for it; [None] on a read error. *)
Definition finish_read (st : image_state) : option image_state :=
  if negb (WaitFileAsync (hSourceImage st)) then None
  else
    let '(ok, n, fd) := GetSizeAsync (hSourceImage st) in
    if negb ok then None
    else Some (mkImage (splice (part_start (read_bufnum st)) (transferred (current fd)) (img_buffer st))
                 (<[read_bufnum st := n]> (img_read_size st)) (read_bufnum st) (proc_bufnum st) fd (reads st)).

(** Steps 2 and 3, up to the next read: rounds the size, switches the buffers. *)
Definition next_buffer (st : image_state) : option image_state :=
  let n := whole_sectors (img_read_size st !!! read_bufnum st) in
  if bool_decide (n <= drive_buf_size)
  then Some (mkImage (img_buffer st) (<[read_bufnum st := n]> (img_read_size st))
               ((read_bufnum st + 1) mod DD_NUM_BUFFERS) (read_bufnum st) (hSourceImage st) (reads st))
  else None.

(** The length of the next read, where the end of the current one is at [wb]. *)
Definition next_length (target_size wb : Z) : Z := Z.min drive_buf_size (u64 (target_size - wb)).

Fixpoint image_loop (fuel : nat) (target_size wb : Z) (st : image_state) : prog D loop_end :=
  match fuel with
  | O => mret NoFuel
  | S fuel =>
      if bool_decide (img_read_size st !!! proc_bufnum st = 0) then mret LoopDone
      else if bool_decide (wb >= target_size) then mret LoopDone
      else match finish_read st with
      | None => fail ERROR_READ_FAULT GotoOut
      | Some st =>
          match next_buffer st with
          | None => mret LoopAsserts
          | Some st =>
              let n := img_read_size st !!! proc_bufnum st in
              match start_read (next_length target_size (u64 (wb + n))) st with
              | None => mret LoopAsserts
              | Some st =>
                  r ← write_block WRITE_RETRIES wb
                        (slice (part_start (proc_bufnum st)) (Z.to_nat n) (img_buffer st));
                  match r with
                  | None => mret GotoOut
                  | Some _ => image_loop fuel target_size (u64 (wb + n)) st
                  end
              end
          end
      end
  end.

(** [opened]: the image can be opened. *)
Definition copy_image (target_size : Z) (opened : bool) : prog D loop_end :=
  if negb opened then fail ERROR_OPEN_FAILED GotoOut
  else
    buffer ← call (mm_malloc (u32 (drive_buf_size * Z.of_nat DD_NUM_BUFFERS)));
    match buffer with
    | None => fail ERROR_NOT_ENOUGH_MEMORY GotoOut
    | Some buffer =>
        let fd := mkFd 0 0 false (mkAsync false 0 [] false false 0 []) in
        match start_read (Z.min drive_buf_size target_size) (mkImage buffer [0; 0] 0 1 fd 0) with
        | None => mret LoopAsserts
        | Some st =>
            image_loop (drive_fuel target_size) target_size 0
              (mkImage (img_buffer st) [0; 1] 0 1 (hSourceImage st) (reads st))
        end
    end.

(** *** Writing the output of a decompression *)

(** [_write] of the C library, on the descriptor of the drive. *)
Definition c_write (buf : list Z) : prog D Z :=
  if bool_decide (length buf = 0%nat) then mret 0
  else r ← call (WriteFile buf); mret (if (fst r : bool) then snd r else -1).

(** The result is [None] when an assertion fails. *)
Definition sector_write (buf : list Z) (sec : sector_buffer) : prog D (option (Z * sector_buffer)) :=
  let count := sizeof buf in
  let sec_size := if bool_decide (SectorSize = 0) then 512 else SectorSize in
  if negb (bool_decide (sec_size <= 64 * KB)) then mret None
  else if negb (bool_decide (count <= 1024 * MB)) then mret None
  else if andb (bool_decide (sec_buf_pos sec = 0)) (bool_decide (count mod sec_size = 0)) then
    written ← c_write buf; mret (Some (written, sec))
  else if negb (bool_decide (sec_buf_pos sec <= sec_size)) then mret None
  else
    let fill_size := if bool_decide (sec_buf_pos sec > 0)
                     then Z.min (sec_size - sec_buf_pos sec) count else 0 in
    let filled := mkSec (splice (Z.to_nat (sec_buf_pos sec)) (take (Z.to_nat fill_size) buf) (sec_buf sec))
                    (sec_buf_pos sec + fill_size) in
    if andb (bool_decide (sec_buf_pos sec > 0)) (bool_decide (sec_buf_pos filled < sec_size))
    then mret (Some (count, filled))
    else
      flushed ← (if bool_decide (sec_buf_pos sec > 0)
                 then written ← c_write (take (Z.to_nat sec_size) (sec_buf filled));
                      mret (mkSec (sec_buf filled) 0, if bool_decide (written = sec_size) then None else Some written)
                 else mret (sec, None));
      let '(sec, stopped) := flushed in
      match stopped with
      | Some written => mret (Some (written, sec))
      | None =>
          let full := (count - fill_size) / sec_size * sec_size in
          written ← c_write (slice (Z.to_nat fill_size) (Z.to_nat full) buf);
          if bool_decide (written < 0) then mret (Some (written, sec))
          else if negb (bool_decide (written = full)) then mret (Some (fill_size + written, sec))
          else
            let pos := count - fill_size - written in
            if negb (bool_decide (pos < sec_size)) then mret None
            else mret (Some (count,
                   mkSec (splice 0 (slice (Z.to_nat (fill_size + written)) (Z.to_nat pos) buf) (sec_buf sec)) pos))
      end.

Definition BB_BUFSIZE : Z := 256 * KB.

(** [transformer_write] of bled/open_transformer.c, to a file. *)
Definition transformer_write (buf : list Z) (sec : sector_buffer) : prog D (option (Z * sector_buffer)) :=
  if bool_decide (sizeof buf > BB_BUFSIZE) then mret (Some (-1, sec))
  else
    r ← sector_write buf sec;
    mret ('(n, sec) ← r; Some (if bool_decide (n = sizeof buf) then n else -1, sec)).

(** The decompression stops at the first write that fails. *)
Fixpoint bled_uncompress (output : list (list Z)) (bled_ret : Z) (sec : sector_buffer)
    : prog D (option (Z * sector_buffer)) :=
  match output with
  | [] => mret (Some (bled_ret, sec))
  | buf :: output =>
      r ← transformer_write buf sec;
      match r with
      | None => mret None
      | Some (n, sec) =>
          if bool_decide (n = sizeof buf) then bled_uncompress output bled_ret sec else mret (Some (-1, sec))
      end
  end.

(** After the decompression: the user may have cancelled it, and the last sector may
    have been begun. *)
Definition end_stream (bled_ret : Z) (sec : sector_buffer) : prog D loop_end :=
  _ ← poll_user;
  _ ← (if andb (bool_decide (bled_ret >= 0)) (negb (bool_decide (sec_buf_pos sec = 0)))
       then call (WriteFile (take (Z.to_nat SectorSize) (sec_buf sec))) else mret (true, 0));
  status ← gets ErrorStatus;
  if andb (bool_decide (bled_ret < 0)) (negb (bool_decide (SCODE_CODE status = ERROR_CANCELLED)))
  then fail ERROR_WRITE_FAULT GotoOut else mret LoopDone.

Definition write_compressed (output : list (list Z)) (bled_ret : Z) (opened : bool) : prog D loop_end :=
  if negb opened then fail ERROR_OPEN_FAILED GotoOut
  else
    buf ← call (mm_malloc SectorSize);
    match buf with
    | None => fail ERROR_NOT_ENOUGH_MEMORY GotoOut
    | Some buf =>
        r ← bled_uncompress output bled_ret (mkSec buf 0);
        match r with
        | None => mret LoopAsserts
        | Some (bled_ret, sec) => end_stream bled_ret sec
        end
    end.

(** *** WriteDrive *)

Definition write_image (image : image_kind) (image_size : Z) (opened : bool) : prog D loop_end :=
  match image with
  | Compressed output bled_ret => write_compressed output bled_ret opened
  | FullFlash => mret LoopAsserts
  | Plain => copy_image (Z.min DiskSize image_size) opened
  | Mounted size =>
      match size with
      | None => mret GotoOut
      | Some size => if bool_decide (size = 0) then mret GotoOut else copy_image size opened
      end
  end.

(** [image] is [None] to erase the drive ([bZeroDrive]). *)
Definition WriteDrive (image : option (image_kind * Z * bool)) (fast_zeroing : bool) : prog D drive_result :=
  if bool_decide (SectorSize < 512) then mret (Ended false)
  else
    _ ← call (SetFilePointerEx 0 FILE_BEGIN);
    r ← (match image with
         | None => zero_drive fast_zeroing
         | Some (kind, image_size, opened) => write_image kind image_size opened
         end);
    match r with
    | LoopDone => _ ← RefreshDriveLayout; mret (Ended true)
    | GotoOut => mret (Ended false)
    | LoopAsserts => mret AssertFailed
    | NoFuel => mret OutOfFuel
    end.

(** *** What the user is told *)

(** [UM_FORMAT_COMPLETED] of rufus.c: the messages MSG_210, MSG_211 and MSG_212. *)
Inductive completion := Completed | Cancelled | Failed.

Definition format_completed : prog D completion :=
  status ← gets ErrorStatus;
  mret (if negb (IS_ERROR status) then Completed
        else if bool_decide (SCODE_CODE status = ERROR_CANCELLED) then Cancelled else Failed).

(** [FormatThread] when the drive is to be erased, and the message after it: the
    result of [WriteDrive] is not used. *)
Definition erase_drive (fast_zeroing : bool) : prog D completion :=
  _ ← WriteDrive None fast_zeroing; format_completed.
End drive.
