(* ===== verification/WriteDriveCorrect.v ===== *)
(** WriteDriveCorrect: what the loops of WriteDrive.v do on any machine that obeys
    the laws of Disk.v and those of [DriveLaws]. *)

From S2P Require Import Prelude Disk DiskCorrect BootRecords Format Partition WriteDrive.

(** Transfers move the file pointer; the user and the refresh of the layout leave
    the disk, and on a reliable machine nobody cancels. *)
Class DriveLaws (D : Type) `{Os D} `{DiskView D} `{UserOs D} `{PartitionOs D} := {
  write_pos_law buf d n d' : WriteFile buf d = (true, n, d') -> file_pos d' = file_pos d + n;
  read_pos_law n d bs d' : 0 <= n -> ReadFile n d = (true, bs, d') ->
    file_pos d' = file_pos d + Z.of_nat (length bs);
  user_law d b d' : user_cancels d = (b, d') ->
    unchanged d d' /\ file_pos d' = file_pos d /\ (reliable d -> b = false);
  refresh_law d r d' : IOCTL_DISK_UPDATE_PROPERTIES d = (r, d') -> unchanged d d';
}.

Section drive.
Context {D : Type} `{OsLaws D} `{UserOs D} `{PartitionOs D} `{!DriveLaws D}.
Implicit Types (w : world D) (d : D).

(** The run from [w] to [w'] changes only the bytes from [a] to [b]. *)
Definition confined (a b : Z) w w' : Prop :=
  same_disk (machine w) (machine w') /\ forall z, ~ (a <= z < b) -> content w' z = content w z.

#[global] Instance confined_preorder a b : PreOrder (confined a b).
Proof.
  split; [by split|]. intros x y z [? Hxy] [? Hyz]. split; [by etransitivity|].
  intros c Hc. by rewrite Hyz, Hxy.
Qed.

Lemma confined_weaken a b a' b' w w' : a' <= a -> b <= b' -> confined a b w w' -> confined a' b' w w'.
Proof. intros ?? [? Hc]. split; [done|]. intros z Hz. apply Hc. lia. Qed.

(** The run changes nothing on the disk, and the file pointer is the same. *)
Definition still w w' : Prop :=
  unchanged (machine w) (machine w') /\ file_pos (machine w') = file_pos (machine w).

#[global] Instance still_preorder : PreOrder still.
Proof. split; [by split|]. intros x y z [? Hxy] [? Hyz]. split; [by etransitivity|congruence]. Qed.

Lemma unchanged_confined a b w w' : unchanged (machine w) (machine w') -> confined a b w w'.
Proof. intros [? Hc]. split; [done|]. intros z _. apply Hc. Qed.

(** No sign of trouble at all: a reliable machine, and no cancellation so far. *)
Definition untroubled w : Prop := reliable (machine w) /\ user_cancel (ErrorStatus w) = false.

Lemma untroubled_step w w' :
  same_disk (machine w) (machine w') -> ErrorStatus w' = ErrorStatus w -> untroubled w -> untroubled w'.
Proof. intros (_ & _ & Hr) He [? ?]. split; [by apply Hr|by rewrite He]. Qed.

Lemma check_spec w : wp CHECK_FOR_USER_CANCEL w (fun b w' =>
  still w w' /\ (untroubled w -> b = false /\ ErrorStatus w' = ErrorStatus w)).
Proof.
  unfold CHECK_FOR_USER_CANCEL, poll_user. step. step. step.
  match goal with Hu : user_cancels _ = (?b, _) |- _ =>
    destruct (user_law _ _ _ Hu) as (Hun & Hpos & Hq); destruct b end; repeat step; (split; [by split|]).
  - intros [Hr _]. by specialize (Hq Hr).
  - by intros [_ ?].
Qed.

(** What writing [block] at [p] gave: everything there, or a mess within its range. *)
Definition block_written p (block : list Z) w (r : option Z) w' : Prop :=
  let len := sizeof block in
  confined p (p + len) w w' /\
  (forall n, r = Some n -> n = len /\ file_pos (machine w') = p + len /\
     same_content (content w') (patch (content w) p block)).

Lemma block_written_after p block w w1 r w' :
  unchanged (machine w) (machine w1) -> block_written p block w1 r w' -> block_written p block w r w'.
Proof.
  intros Hu [Hc Hr]. split; [etransitivity; [by apply unchanged_confined|done]|].
  intros n Hn. destruct (Hr n Hn) as (? & ? & Hp). split_and!; [done..|].
  intros z. rewrite (Hp z). apply patch_proper; [|done..]. intros ?. apply Hu.
Qed.

(** After an attempt that failed, the next one starts from the block's range only. *)
Lemma block_written_again p block w w1 r w' :
  confined p (p + sizeof block) w w1 -> block_written p block w1 r w' -> block_written p block w r w'.
Proof.
  intros Hw [Hc Hr]. split; [by etransitivity|].
  intros n Hn. destruct (Hr n Hn) as (? & ? & Hp). split_and!; [done..|].
  intros z. rewrite (Hp z). unfold patch. case_bool_decide; [done|]. by apply Hw.
Qed.

Lemma block_failed p block w w' : confined p (p + sizeof block) w w' -> block_written p block w None w'.
Proof. intros Hc. by split. Qed.

(** One attempt. *)
Lemma write_attempt block w :
  wp (call (WriteFile block)) w (fun r w' =>
    ErrorStatus w' = ErrorStatus w /\
    (let p := file_pos (machine w) in
     block_written p block w
       (if andb r.1 (bool_decide (r.2 = sizeof block)) then Some r.2 else None) w') /\
    (reliable (machine w) -> aligned_access (machine w) (sizeof block) ->
       r.1 = true /\ r.2 = sizeof block)).
Proof.
  apply wp_call. intros [s n] d Hw.
  pose proof (write_law _ _ _ _ _ Hw) as (Hsame & Hn & Hout & Hin & Hrel).
  split_and!; [done| |by apply Hrel]. split; [by split|].
  cbn [fst snd]. intros k. destruct s; [|done]. cbn [andb]. case_bool_decide as Hlen; [|done].
  intros [= <-]. split_and!; [done|by rewrite <- Hlen; apply (write_pos_law _ _ _ _ Hw)|].
  apply patch_eq; [done|]. intros i b Hi. apply (Hin eq_refl i b); [|done].
  pose proof (lookup_lt_Some _ _ _ Hi). lia.
Qed.

Lemma write_block_spec tries p block w :
  file_pos (machine w) = p ->
  wp (write_block tries p block) w (fun r w' =>
    block_written p block w r w' /\
    (tries ≠ 0%nat -> untroubled w -> aligned_access (machine w) (sizeof block) ->
       r = Some (sizeof block) /\ ErrorStatus w' = ErrorStatus w)).
Proof.
  revert w. induction tries as [|tries IH]; intros w Hpos; cbn [write_block].
  { step. split; [by apply block_failed|done]. }
  step. eapply wp_mono; [apply check_spec|]. intros cancelled w1 ([Hu1 Hp1] & Hq1). destruct cancelled.
  { step. split; [by apply block_failed, unchanged_confined|]. intros _ Hg. by destruct (Hq1 Hg). }
  step. eapply wp_mono; [apply write_attempt|]. intros [s n] w2 (He2 & Hw2 & Hgood2).
  rewrite Hp1, Hpos in Hw2. cbn [fst snd] in *.
  assert (Hgood : untroubled w -> aligned_access (machine w) (sizeof block) -> s = true /\ n = sizeof block).
  { intros [Hr _] Ha. destruct Hu1 as [(Hsz & Hsec & Hrr) _]. apply Hgood2; [by apply Hrr|].
    unfold aligned_access. by rewrite Hsz, Hsec, Hp1. }
  destruct (andb s _) eqn:Hdone.
  - step. split; [by eapply block_written_after|]. intros _ Hg Ha.
    destruct (Hgood Hg Ha) as [_ ->]. split; [done|]. rewrite He2. by apply Hq1.
  - assert (Hno : S tries ≠ 0%nat -> untroubled w -> aligned_access (machine w) (sizeof block) -> False).
    { intros _ Hg Ha. destruct (Hgood Hg Ha) as [-> ->]. by rewrite bool_decide_true in Hdone. }
    assert (Hc2 : confined p (p + sizeof block) w w2).
    { etransitivity; [by apply unchanged_confined|apply Hw2]. }
    destruct (bool_decide (tries = 0%nat)); [unfold fail; repeat step; split; [by apply block_failed|tauto]|].
    step. step. step. match goal with Hs : _ = (_, ?d) |- _ => injection Hs as _ <- end.
    step. match goal with Hs : SetFilePointerEx _ _ _ = (?q, ?d) |- _ =>
      destruct (seek_law _ _ _ _ Hs) as (Hu3 & Hq3 & _); destruct q end.
    2: { step. split; [apply block_failed|tauto]. etransitivity; [done|]. apply unchanged_confined.
         etransitivity; [apply (sleep_law WRITE_TIMEOUT)|exact Hu3]. }
    step. step. match goal with Hs : _ = (_, ?d) |- _ => injection Hs as _ <- end.
    eapply wp_mono; [apply IH|].
    { cbn. rewrite (proj2 (sleep_law _ _)). by eapply Hq3. }
    intros r w5 [Hw5 _]. split; [|tauto]. eapply block_written_again; [done|].
    eapply block_written_after; [|exact Hw5].
    etransitivity; [apply (sleep_law WRITE_TIMEOUT)|]. etransitivity; [exact Hu3|apply (sleep_law 200)].
Qed.
End drive.

(** ** Sizes *)

Section sizes.
Context (SS T : Z).
Hypothesis Hss : 512 <= SS <= DD_BUFFER_SIZE.
Hypothesis HT : 0 <= T < 2 ^ 63.

(** The end of the sector that holds the last byte before [T]. *)
Definition sectors_end : Z := (T + SS - 1) / SS * SS.

Lemma sectors_end_bounds : T <= sectors_end < T + SS /\ (SS | sectors_end).
Proof using Hss.
  unfold sectors_end. split; [|by apply Z.divide_factor_r].
  pose proof (Z.div_mod (T + SS - 1) SS ltac:(lia)).
  pose proof (Z.mod_pos_bound (T + SS - 1) SS ltac:(lia)). lia.
Qed.

Abbreviation BS := (drive_buf_size SS).

Lemma buf_size_eq : BS = (DD_BUFFER_SIZE + SS - 1) / SS * SS.
Proof using Hss.
  unfold drive_buf_size. apply uwrap_small. unfold DD_BUFFER_SIZE, MB in *.
  pose proof (Z.div_mod (32 * 1048576 + SS - 1) SS ltac:(lia)).
  pose proof (Z.mod_pos_bound (32 * 1048576 + SS - 1) SS ltac:(lia)). lia.
Qed.

Lemma buf_size_bounds : DD_BUFFER_SIZE <= BS < 2 * DD_BUFFER_SIZE /\ (SS | BS).
Proof using Hss.
  rewrite buf_size_eq. split; [|by apply Z.divide_factor_r]. unfold DD_BUFFER_SIZE, MB in *.
  pose proof (Z.div_mod (32 * 1048576 + SS - 1) SS ltac:(lia)).
  pose proof (Z.mod_pos_bound (32 * 1048576 + SS - 1) SS ltac:(lia)). lia.
Qed.

Lemma whole_sectors_eq n : 0 <= n <= BS -> whole_sectors SS n = (n + SS - 1) / SS * SS.
Proof using Hss.
  intros Hn. pose proof buf_size_bounds as [Hb _]. unfold whole_sectors, DD_BUFFER_SIZE, MB in *.
  pose proof (Z.div_mod (n + SS - 1) SS ltac:(lia)).
  pose proof (Z.mod_pos_bound (n + SS - 1) SS ltac:(lia)). case_bool_decide as Hm.
  - apply Z.mod_divide in Hm as [q ->]; [|lia].
    replace (q * SS + SS - 1) with ((SS - 1) + q * SS) by lia.
    rewrite Z.div_add, (Z.div_small (SS - 1)) by lia. lia.
  - rewrite (uwrap_small 32 (n + SS - 1)) by lia. apply uwrap_small. lia.
Qed.

(** Rounding up does not go past a whole number of sectors. *)
Lemma round_up_le n m : (SS | m) -> n <= m -> (n + SS - 1) / SS * SS <= m.
Proof using Hss.
  intros [q ->] Hn. apply Z.mul_le_mono_nonneg_r; [lia|].
  enough ((n + SS - 1) / SS < q + 1) by lia. apply Z.div_lt_upper_bound; lia.
Qed.

(** The size of the block at [wb]. *)
Definition block_len (wb : Z) : Z := Z.min BS (sectors_end - wb).

Lemma block_len_bounds wb : 0 <= wb < T -> (SS | wb) ->
  SS <= block_len wb <= BS /\ (SS | block_len wb) /\ wb + block_len wb <= sectors_end /\
  (wb + BS <= T -> block_len wb = BS) /\ (T < wb + BS -> wb + block_len wb = sectors_end).
Proof using Hss.
  intros Hwb Hdiv. destruct sectors_end_bounds as [Hend Hde]. destruct buf_size_bounds as [Hbs Hdb].
  unfold block_len.
  assert (Hlast : SS <= sectors_end - wb).
  { destruct (Z.divide_sub_r _ _ _ Hde Hdiv) as [q Hq]. rewrite Hq.
    assert (0 < q) by (apply (Z.mul_pos_cancel_r q SS); lia). nia. }
  assert (HBS : T < wb + BS -> sectors_end <= wb + BS).
  { intros. apply round_up_le; [by apply Z.divide_add_r|lia]. }
  split_and!; [lia..| |lia|lia|lia].
  destruct (Z.min_spec BS (sectors_end - wb)) as [[_ ->]|[_ ->]]; [done|by apply Z.divide_sub_r].
Qed.

Lemma zero_size_eq wb : 0 <= wb < T -> (SS | wb) -> zero_size SS T wb BS = block_len wb.
Proof using Hss HT.
  intros Hwb Hdiv. destruct buf_size_bounds as [Hbs Hdb]. unfold DD_BUFFER_SIZE, MB in *.
  destruct (block_len_bounds wb Hwb Hdiv) as (_ & _ & _ & Hfull & Hlast). unfold zero_size.
  case_bool_decide.
  - rewrite (uwrap_small 32 (T - wb)) by lia. rewrite whole_sectors_eq by lia.
    specialize (Hlast ltac:(lia)). destruct Hdiv as [q ->].
    assert (Hr : sectors_end = q * SS + (T - q * SS + SS - 1) / SS * SS); [|lia].
    unfold sectors_end. replace (T + SS - 1) with (T - q * SS + SS - 1 + q * SS) by lia.
    rewrite Z.div_add by lia. lia.
  - rewrite Hfull by lia. unfold whole_sectors. rewrite bool_decide_true; [done|].
    by apply Z.mod_divide; [lia|].
Qed.
End sizes.

(** ** Blocks that are already erased *)

Lemma same_words_all bs z k i : (i + k <= same_words bs z k i)%nat ->
  forall j, (i <= j < i + k)%nat -> word_at bs j = z.
Proof.
  revert i. induction k as [|k IH]; intros i Hle j Hj; cbn [same_words] in Hle; [lia|].
  case_bool_decide as Hi; [|lia]. destruct (decide (j = i)) as [->|]; [done|].
  apply (IH (S i)); lia.
Qed.

Lemma same_words_complete bs z k i : (forall j, (i <= j < i + k)%nat -> word_at bs j = z) ->
  same_words bs z k i = (i + k)%nat.
Proof.
  revert i. induction k as [|k IH]; intros i Hall; cbn [same_words]; [lia|].
  rewrite bool_decide_true by (apply Hall; lia). rewrite IH; [lia|]. intros j Hj. apply Hall. lia.
Qed.

(** The bytes of a word that is all zeros or all ones. *)
Lemma uniform_word bs v : length bs = 4%nat -> Forall is_byte bs -> v = 0 \/ v = 255 ->
  le_word bs = le_word [v; v; v; v] -> Forall (fun b => b = v) bs.
Proof.
  intros Hlen Hb Hv Hw. destruct bs as [|a [|b [|c [|d [|]]]]]; try done. unfold is_byte in Hb.
  repeat match goal with Hf : Forall _ (_ :: _) |- _ => apply Forall_cons in Hf as [? Hf] end.
  cbn [le_word] in Hw. repeat constructor; lia.
Qed.

(** All bytes are zero, or all are ones. *)
Definition uniform (v : Z) (bs : list Z) : Prop := (v = 0 \/ v = 255) /\ Forall (fun b => b = v) bs.

Lemma block_is_empty_uniform bs n : sizeof bs = n -> (4 | n) -> 0 < n -> Forall is_byte bs ->
  block_is_empty bs n = true -> exists v, uniform v bs.
Proof.
  intros Hn [q Hq] Hpos Hb. unfold block_is_empty. rewrite andb_true_iff, orb_true_iff, !bool_decide_eq_true.
  intros [Hz Hall]. exists (if bool_decide (word_at bs 0 = 0) then 0 else 255).
  set (v := if bool_decide (word_at bs 0 = 0) then 0 else 255). assert (Hv : v = 0 \/ v = 255) by (unfold v; case_bool_decide; auto).
  split; [done|]. apply Forall_lookup. intros i b Hi.
  assert (Hword : word_at bs 0 = le_word [v; v; v; v]).
  { unfold v. case_bool_decide as H0; [by rewrite H0|]. destruct Hz as [|Hz]; [done|]. by rewrite Hz. }
  pose proof (lookup_lt_Some _ _ _ Hi) as Hlt.
  assert (Hj : word_at bs (i / 4) = le_word [v; v; v; v]).
  { rewrite <- Hword. pose proof (Nat.div_mod i 4 ltac:(lia)). pose proof (Nat.mod_upper_bound i 4 ltac:(lia)).
    destruct (decide (i / 4 = 0)%nat) as [->|]; [done|].
    replace (n / 4) with q in Hall by (rewrite Hq; symmetry; apply Z.div_mul; lia).
    apply (same_words_all bs _ (Z.to_nat q - 1) 1); lia. }
  pose proof (Nat.div_mod i 4 ltac:(lia)) as Hdm. pose proof (Nat.mod_upper_bound i 4 ltac:(lia)).
  assert (Hs : Forall (fun b => b = v) (slice (4 * (i / 4)) 4 bs)).
  { apply uniform_word; [rewrite length_slice; lia| |done|done].
    by apply Forall_take, Forall_drop. }
  eapply (Forall_lookup_1 (fun b => b = v)); [exact Hs|]. instantiate (1 := (i mod 4)%nat). unfold slice.
  rewrite lookup_take_lt, lookup_drop by lia. by rewrite <- Hdm.
Qed.

(** ** Erasing *)

(** The bytes of [f] from [a] to [b] have the same value: 0, or 255 with fast zeroing. *)
Definition erased (fast : bool) (f : Z -> Z) (a b : Z) : Prop :=
  exists v, (v = 0 \/ fast = true /\ v = 255) /\ forall z, a <= z < b -> f z = v.

Section zeroing.
Context {D : Type} `{OsLaws D} `{UserOs D} `{PartitionOs D} `{!DriveLaws D}.
Implicit Types (w : world D).
Context (SS T : Z) (fast : bool).
Hypothesis Hss : 512 <= SS <= DD_BUFFER_SIZE.
Hypothesis HT : 0 <= T < 2 ^ 63.

Abbreviation BS := (drive_buf_size SS).
Abbreviation blen := (block_len SS T).

(** The sectors are those of the drive, which reaches to the end of the last one. *)
Definition drive_fits (d : D) : Prop := (disk_sector d | SS) /\ sectors_end SS T <= disk_size d.

Lemma drive_fits_same d d' : same_disk d d' -> drive_fits d -> drive_fits d'.
Proof. unfold drive_fits. by intros (-> & -> & _). Qed.

Lemma block_access w wb : 0 <= wb < T -> (SS | wb) -> drive_fits (machine w) ->
  file_pos (machine w) = wb -> aligned_access (machine w) (blen wb).
Proof.
  intros Hwb Hdiv [Hsec Hsize] Hpos. destruct (block_len_bounds SS T Hss wb Hwb Hdiv) as (? & ? & ? & _).
  unfold aligned_access. rewrite Hpos. split_and!; [by etransitivity|by etransitivity|lia..].
Qed.

(** The outcome of a look at the block at [wb]. *)
Definition looked_at wb n w (st : zero_step) w' : Prop :=
  unchanged (machine w) (machine w') /\
  match st with
  | StopZeroing => True
  | SkipBlock => file_pos (machine w') = wb + n /\ erased fast (content w) wb (wb + n)
  | WriteBlock _ => file_pos (machine w') = wb
  end.

Lemma fast_zero_step_spec wb w :
  fast = true -> 0 <= wb < T -> (SS | wb) -> (4 | SS) -> file_pos (machine w) = wb ->
  (forall z, wb <= z -> is_byte (content w z)) ->
  wp (fast_zero_step wb (blen wb)) w (fun st w' => looked_at wb (blen wb) w st w' /\
    (untroubled w -> drive_fits (machine w) -> st ≠ StopZeroing /\ ErrorStatus w' = ErrorStatus w)).
Proof.
  intros Hfast Hwb Hdiv H4 Hpos Hbyte. destruct (block_len_bounds SS T Hss wb Hwb Hdiv) as (Hn & Hdn & _).
  unfold fast_zero_step. step. eapply wp_mono; [apply check_spec|].
  intros cancelled w1 ([Hu1 Hp1] & Hq1). destruct cancelled; step.
  { split; [by split|]. intros Hg. by destruct (Hq1 Hg). }
  step. match goal with Hr : ReadFile _ _ = (?r, _) |- _ => destruct r as [s bs]; rename Hr into Hread end.
  destruct (read_law (blen wb) _ _ _ _ ltac:(lia) Hread) as (Hu2 & _ & Hnone & Hbs & Hrel).
  assert (Hu : unchanged (machine w) d) by (by etransitivity).
  assert (Hfull : untroubled w -> drive_fits (machine w) -> s = true /\ sizeof bs = blen wb).
  { intros [Hr _] Hfit. assert (Hlen : sizeof bs = blen wb).
    { apply Hrel; [by apply Hu1|]. apply block_access; [done..| |by rewrite Hp1].
      eapply drive_fits_same; [apply Hu1|done]. }
    split; [|done]. destruct s; [done|]. rewrite Hnone in Hlen by done. cbn in Hlen. lia. }
  destruct (orb _ _) eqn:Hbad; cbn [fst snd] in *.
  { step. split; [by split|]. intros Hg Hfit. destruct (Hfull Hg Hfit) as [Hs Hl].
    by rewrite Hs, Hl, bool_decide_true in Hbad. }
  apply orb_false_iff in Hbad as [Hs Hlen]. apply negb_false_iff in Hs as ->.
  apply negb_false_iff, bool_decide_eq_true in Hlen. destruct (block_is_empty bs (blen wb)) eqn:Hempty.
  - step. split; [|intros Hg _; split; [done|by apply Hq1]]. split; [done|]. split.
    { cbn. rewrite (read_pos_law (blen wb) _ _ _ ltac:(lia) Hread), Hp1. lia. }
    assert (Hb : Forall is_byte bs).
    { apply Forall_lookup. intros i b Hi. rewrite (Hbs i b Hi), (proj2 Hu1). apply Hbyte. lia. }
    destruct (block_is_empty_uniform bs (blen wb) Hlen ltac:(by etransitivity) ltac:(lia) Hb Hempty) as (v & Hv & Hall).
    exists v. split; [naive_solver|]. intros z Hz.
    destruct (lookup_lt_is_Some_2 bs (Z.to_nat (z - wb))) as [b Hb']; [lia|].
    rewrite <- (Forall_lookup_1 _ _ _ _ Hall Hb'), (Hbs _ _ Hb'), (proj2 Hu1). f_equal. lia.
  - step. step. match goal with Hk : SetFilePointerEx _ _ _ = (?q, _) |- _ =>
      destruct (seek_law _ _ _ _ Hk) as (Hu3 & Hq3 & Hr3); destruct q end; step.
    + split; [split; [by etransitivity|by eapply Hq3]|]. intros Hg _. split; [done|]. by apply Hq1.
    + split; [split; [by etransitivity|done]|]. intros [Hr Hc] _.
      assert (is_Some (@None Z)) as [? [=]] by (apply Hr3; [by apply Hu2, Hu1|lia]).
Qed.

Lemma look_at_block_spec throttle wb w :
  0 <= wb < T -> (SS | wb) -> file_pos (machine w) = wb ->
  (fast = true -> (4 | SS) /\ forall z, wb <= z -> is_byte (content w z)) ->
  wp (look_at_block fast throttle wb (blen wb)) w (fun st w' => looked_at wb (blen wb) w st w' /\
    (untroubled w -> drive_fits (machine w) -> st ≠ StopZeroing /\ ErrorStatus w' = ErrorStatus w)).
Proof.
  intros ??? Hfast. unfold look_at_block. case_bool_decide; [by step|].
  destruct fast eqn:Hf; [|by step]. destruct (Hfast eq_refl). by apply fast_zero_step_spec.
Qed.

Abbreviation fill := (if fast then 0xff else 0).
Abbreviation buffer := (replicate (Z.to_nat BS) fill).

(** What the loop gives from the block at [wb] on. *)
Definition zeroed_from wb w (r : loop_end) w' : Prop :=
  confined wb (sectors_end SS T) w w' /\ (r = LoopDone \/ r = GotoOut) /\
  (r = LoopDone -> forall j, wb <= j * BS < T -> erased fast (content w') (j * BS) (j * BS + blen (j * BS))) /\
  (untroubled w -> drive_fits (machine w) -> r = LoopDone /\ ErrorStatus w' = ErrorStatus w).

(** The block at [wb] is erased, then the others. *)
Lemma zeroed_block wb w w1 r w' :
  0 <= wb < T -> (BS | wb) -> confined wb (wb + blen wb) w w1 -> erased fast (content w1) wb (wb + blen wb) ->
  (untroubled w -> drive_fits (machine w) -> ErrorStatus w1 = ErrorStatus w) ->
  zeroed_from (wb + blen wb) w1 r w' -> zeroed_from wb w r w'.
Proof.
  intros Hwb Hdiv Hc1 He1 Hg1 (Hc & Hr & Hdone & Hgood).
  destruct (buf_size_bounds SS Hss) as [Hbs Hdbs]. unfold DD_BUFFER_SIZE, MB in *.
  destruct (block_len_bounds SS T Hss wb Hwb ltac:(by etransitivity)) as (Hn & _ & Hend & Hfull & _).
  split_and!; [| done | |].
  - etransitivity; [|by eapply confined_weaken; [..|exact Hc]; lia].
    by eapply confined_weaken; [..|exact Hc1]; lia.
  - intros Hd j Hj. destruct Hdiv as [q ->]. destruct (decide (j = q)) as [->|Hne].
    + destruct He1 as (v & Hv & Hall). exists v. split; [done|]. intros z Hz.
      rewrite (proj2 Hc) by lia. by apply Hall.
    + apply Hdone; [done|]. assert (q * BS + BS <= j * BS) by nia. lia.
  - intros Hg Hfit. specialize (Hg1 Hg Hfit). destruct Hgood as [-> He]; [| |split; [done|congruence]].
    + by eapply untroubled_step; [apply Hc1|..].
    + by eapply drive_fits_same; [apply Hc1|].
Qed.

Lemma zero_loop_spec fuel wb throttle rs w :
  0 <= wb -> T - wb <= SS * (Z.of_nat fuel - 1) -> (0 < fuel)%nat ->
  (wb < T -> (BS | wb) /\ rs = BS /\ file_pos (machine w) = wb) ->
  (fast = true -> (4 | SS) /\ forall z, wb <= z -> is_byte (content w z)) ->
  wp (zero_loop SS fuel fast buffer T wb throttle rs) w (zeroed_from wb w).
Proof.
  revert wb throttle rs w. induction fuel as [|fuel IH]; intros wb throttle rs w Hwb0 Hfuel Hpos Hat Hbyte; [lia|].
  cbn [zero_loop]. case_bool_decide as Hlt; cbn [negb].
  2: { step. split_and!; [done|by left|lia|done]. }
  destruct (Hat Hlt) as (Hdiv & -> & Hfp). destruct (buf_size_bounds SS Hss) as [Hbs Hdbs].
  assert (HdSS : (SS | wb)) by (by etransitivity).
  destruct (block_len_bounds SS T Hss wb ltac:(lia) HdSS) as (Hn & Hdn & Hend & Hfull & Hlast).
  pose proof (sectors_end_bounds SS T Hss) as [Hse _]. unfold DD_BUFFER_SIZE, MB in *.
  rewrite (zero_size_eq SS T Hss HT wb) by (done || lia).
  assert (Hnext : forall throttle w1,
    confined wb (wb + blen wb) w w1 -> erased fast (content w1) wb (wb + blen wb) ->
    (untroubled w -> drive_fits (machine w) -> ErrorStatus w1 = ErrorStatus w) ->
    file_pos (machine w1) = wb + blen wb ->
    wp (zero_loop SS fuel fast buffer T (u64 (wb + blen wb)) throttle (blen wb)) w1 (zeroed_from wb w)).
  { intros thr w1 Hc1 He1 Hg1 Hp1. rewrite (uwrap_small 64 (wb + blen wb)) by lia.
    eapply wp_mono; [apply IH|]; [lia|nia|nia| | |].
    - intros Hlt'. assert (Hbl : blen wb = BS) by (apply Hfull; lia). rewrite Hbl in *.
      split_and!; [by apply Z.divide_add_r, Z.divide_refl|done|done].
    - intros Hf. destruct (Hbyte Hf) as [? Hb]. split; [done|]. intros z Hz. rewrite (proj2 Hc1) by lia.
      apply Hb. lia.
    - intros r w' Hz. by apply (zeroed_block wb w w1). }
  step. eapply wp_mono; [by apply look_at_block_spec|]. intros st w1 [[Hu1 Hst] Hgood1].
  destruct st as [| |thr].
  - destruct Hst as [Hp1 He1]. apply Hnext; [by apply unchanged_confined| |intros; by apply Hgood1|done].
    destruct He1 as (v & Hv & Hall). exists v. split; [done|]. intros z Hz. rewrite (proj2 Hu1). by apply Hall.
  - step. split_and!; [by apply unchanged_confined|by right|done|].
    intros Hg Hfit. by destruct (Hgood1 Hg Hfit).
  - rewrite take_replicate. replace (Z.to_nat (blen wb) `min` Z.to_nat BS)%nat with (Z.to_nat (blen wb)) by lia.
    step. eapply wp_mono; [by apply write_block_spec|]. rewrite length_replicate, Z2Nat.id by lia.
    intros r w2 [Hw2 Hgood2]. eapply block_written_after in Hw2; [|exact Hu1].
    destruct Hw2 as [Hc2 Hr2]. rewrite length_replicate, Z2Nat.id in Hc2, Hr2 by lia.
    assert (Hfine : untroubled w -> drive_fits (machine w) -> r = Some (blen wb) /\ ErrorStatus w2 = ErrorStatus w).
    { intros Hg Hfit. destruct (Hgood1 Hg Hfit) as [_ He]. rewrite <- He. apply Hgood2; [done| |].
      - eapply untroubled_step; [apply Hu1|done..].
      - apply block_access; [lia|done| |done]. eapply drive_fits_same; [apply Hu1|done]. }
    destruct r as [n|].
    + destruct (Hr2 n eq_refl) as (-> & Hp2 & Hcont). apply Hnext; [done| |intros; by apply Hfine|done].
      exists fill. split; [destruct fast; auto|]. intros z Hz. rewrite (Hcont z). unfold patch.
      rewrite length_replicate, Z2Nat.id, bool_decide_true by lia.
      apply list_lookup_total_correct, lookup_replicate_2. lia.
    + step. split_and!; [eapply confined_weaken; [..|exact Hc2]; lia|by right|done|].
      intros Hg Hfit. by destruct (Hfine Hg Hfit).
Qed.
End zeroing.
