(* ===== verification/ImageCopy.v ===== *)
(** ImageCopy: the double-buffered copy of an image to a drive (WriteDrive.v), for
    every image that the system reads as it is documented to. *)

From S2P Require Import Prelude Disk DiskCorrect BootRecords Format Partition WriteDrive WriteDriveCorrect.

(** ** Parts of a buffer *)

Lemma take_slice_splice {A} off n (bs l : list A) :
  (off <= length l)%nat -> (length bs <= n)%nat -> take (length bs) (slice off n (splice off bs l)) = bs.
Proof.
  intros. unfold slice. rewrite take_take. replace (length bs `min` n)%nat with (length bs) by lia.
  by apply slice_splice.
Qed.

(** ** Images *)

Section image.
Context (img : Z -> Z) (image_size : Z) (image_read : nat -> Z -> Z -> async_outcome).

(** A read inside the image does not meet its end: it fails, or stores all of its
    bytes. Nothing is said of a read that goes past the end. *)
Definition reads_image : Prop := forall i off n, 0 <= off -> 0 <= n -> off + n <= image_size ->
  let o := image_read i off n in
  (read_returns o = true \/ read_error o ≠ ERROR_HANDLE_EOF) /\
  (result_ok o = true -> transferred o = bytes_at img off (Z.to_nat n)) /\
  (result_ok o = false -> result_error o ≠ ERROR_HANDLE_EOF /\ result_error o ≠ ERROR_SECTOR_NOT_FOUND).

(** ... and works. *)
Definition reads_work : Prop := forall i off n, 0 <= off -> 0 <= n -> off + n <= image_size ->
  let o := image_read i off n in
  (read_returns o = true \/ read_error o = ERROR_IO_PENDING /\ wait_ok o = true) /\ result_ok o = true.

Context {D : Type} `{OsLaws D} `{UserOs D} `{PartitionOs D} `{!DriveLaws D}.
Implicit Types (w : world D).
Context (SS T : Z).
Hypothesis Hss : 512 <= SS <= DD_BUFFER_SIZE.
Hypothesis HT : 0 <= T < 2 ^ 63.
Hypothesis Himg : T <= image_size.
Hypothesis Hreads : reads_image.

Abbreviation BS := (drive_buf_size SS).
Abbreviation blen := (block_len SS T).

(** The length of the read at [wb]. *)
Definition read_len (wb : Z) : Z := Z.min BS (T - wb).

Definition parts_ok (st : image_state) : Prop :=
  length (img_buffer st) = (2 * Z.to_nat BS)%nat /\ length (img_read_size st) = 2%nat /\
  (read_bufnum st = 0 /\ proc_bufnum st = 1 \/ read_bufnum st = 1 /\ proc_bufnum st = 0)%nat.

(** The read of the block at [wb] is under way. *)
Definition reading (wb : Z) (st : image_state) : Prop :=
  parts_ok st /\ fd_Offset (hSourceImage st) = wb /\ bOffsetUpdated (hSourceImage st) = false /\
  (exists i, current (hSourceImage st) = image_read i wb (read_len wb)) /\
  iStatus (hSourceImage st) =
    (if read_returns (current (hSourceImage st)) then 1
     else if bool_decide (read_error (current (hSourceImage st)) = ERROR_IO_PENDING) then -1 else 0).

(** The block at [wb] is in the part [i]. *)
Definition holds_block (i : nat) (wb : Z) (buf : list Z) : Prop :=
  take (Z.to_nat (read_len wb)) (slice (part_start SS i) (Z.to_nat BS) buf) =
  bytes_at img wb (Z.to_nat (read_len wb)).

Lemma read_len_bounds wb : 0 <= wb < T -> 0 < read_len wb <= BS /\ wb + read_len wb <= image_size.
Proof using Hss Himg.
  intros. destruct (buf_size_bounds SS Hss) as [Hb _]. unfold read_len, DD_BUFFER_SIZE, MB in *. lia.
Qed.

(** Starting the read of the block at [wb], or of anything when the copy is over. *)
Lemma start_read_spec wb n st :
  parts_ok st -> 0 <= wb -> 0 <= n <= BS -> fd_Offset (hSourceImage st) = wb ->
  wb + n <= image_size -> n = read_len wb ->
  exists st', start_read SS image_read n st = Some st' /\ reading wb st' /\
    img_read_size st' = img_read_size st /\ proc_bufnum st' = proc_bufnum st /\
    (forall k, (k <= Z.to_nat BS)%nat ->
      slice (part_start SS (proc_bufnum st)) k (img_buffer st') =
      slice (part_start SS (proc_bufnum st)) k (img_buffer st)).
Proof using Hss Hreads.
  intros (Hlen & Hsz & Hparts) Hwb Hn Hoff Hle Heq. unfold start_read. rewrite Hoff.
  set (o := image_read _ _ _). destruct (Hreads (reads st) wb n ltac:(lia) ltac:(lia) Hle) as (Heof & _).
  fold o in Heof. set (sc := take (Z.to_nat n) (scribble o)).
  assert (Hsc : (length sc <= Z.to_nat BS)%nat) by (unfold sc; rewrite length_take; lia).
  assert (Hfd : exists fd, ReadFileAsync o (hSourceImage st) = Some fd /\ fd_Offset fd = wb /\
    bOffsetUpdated fd = false /\ current fd = o /\ iStatus fd =
      (if read_returns o then 1 else if bool_decide (read_error o = ERROR_IO_PENDING) then -1 else 0)).
  { unfold ReadFileAsync. rewrite <- Hoff. destruct (read_returns o); [by eexists|].
    rewrite bool_decide_false by (by destruct Heof). by eexists. }
  destruct Hfd as (fd & -> & Hfo & Hfu & Hfc & Hfs). eexists. split; [done|]. cbn.
  split_and!; [|done|done|].
  - unfold reading. cbn. rewrite Hfc. split_and!; try done; [|by exists (reads st); rewrite <- Heq].
    unfold parts_ok, part_start. cbn. rewrite length_splice by lia. by split_and!.
  - intros k Hk. apply slice_splice_other; unfold part_start; lia.
Qed.

Lemma finish_read_spec wb st :
  0 <= wb < T -> reading wb st ->
  (reads_work -> is_Some (finish_read SS st)) /\
  forall st', finish_read SS st = Some st' ->
    parts_ok st' /\ read_bufnum st' = read_bufnum st /\ proc_bufnum st' = proc_bufnum st /\
    img_read_size st' = <[read_bufnum st := read_len wb]> (img_read_size st) /\
    fd_Offset (hSourceImage st') = u64 (wb + read_len wb) /\ holds_block (read_bufnum st) wb (img_buffer st').
Proof using Hss Himg Hreads.
  intros Hwb ((Hlen & Hsz & Hparts) & Hoff & Hupd & [i Hcur] & Hst).
  destruct (read_len_bounds wb Hwb) as [Hn Hle].
  destruct (Hreads i wb (read_len wb) ltac:(lia) ltac:(lia) Hle) as (_ & Hok & Herr).
  rewrite <- Hcur in Hok, Herr. unfold finish_read, WaitFileAsync, GetSizeAsync. split.
  - intros Hw. destruct (Hw i wb (read_len wb) ltac:(lia) ltac:(lia) Hle) as [Hstart Hres].
    rewrite <- Hcur in Hstart, Hres. rewrite Hst, Hupd, Hres.
    destruct (read_returns _); [|destruct Hstart as [|[-> ->]]; [done|]].
    + rewrite (bool_decide_true (1 > 0)), (bool_decide_false (1 = 0)) by lia. by eexists.
    + rewrite orb_true_r, (bool_decide_true (ERROR_IO_PENDING = ERROR_IO_PENDING)) by done.
      rewrite (bool_decide_false (-1 = 0)) by lia. by eexists.
  - intros st'. destruct (negb (orb _ _)); [done|].
    destruct (bool_decide (iStatus _ = 0)); [intros [=]|]. rewrite Hupd.
    destruct (result_ok _); cbn [negb].
    2: { destruct (Herr eq_refl). by rewrite !bool_decide_false. }
    intros [= <-]. cbn. rewrite (Hok eq_refl), length_bytes_at, Z2Nat.id, Hoff by lia.
    assert (Hbl : length (bytes_at img wb (Z.to_nat (read_len wb))) = Z.to_nat (read_len wb)) by apply length_bytes_at.
    split_and!; try done.
    + unfold parts_ok, part_start. cbn. rewrite length_splice, length_insert by (rewrite Hbl; lia). by split_and!.
    + unfold holds_block. rewrite <- Hbl at 1. apply take_slice_splice; unfold part_start; lia.
Qed.

Lemma whole_read_len wb : 0 <= wb < T -> (SS | wb) -> whole_sectors SS (read_len wb) = blen wb.
Proof using Hss HT.
  intros Hwb Hdiv. rewrite <- (zero_size_eq SS T Hss HT wb Hwb Hdiv). unfold zero_size, read_len.
  destruct (buf_size_bounds SS Hss) as [Hb _]. unfold DD_BUFFER_SIZE, MB in *. f_equal.
  case_bool_decide; [rewrite (uwrap_small 32 (T - wb)) by lia|]; lia.
Qed.

Lemma next_buffer_spec wb st :
  0 <= wb < T -> (SS | wb) -> parts_ok st -> img_read_size st !!! read_bufnum st = read_len wb ->
  exists st', next_buffer SS st = Some st' /\ parts_ok st' /\ proc_bufnum st' = read_bufnum st /\
    img_read_size st' !!! proc_bufnum st' = blen wb /\ img_buffer st' = img_buffer st /\
    hSourceImage st' = hSourceImage st.
Proof using Hss HT.
  intros Hwb Hdiv (Hlen & Hsz & Hparts) Hn. unfold next_buffer. rewrite Hn, whole_read_len by done.
  destruct (block_len_bounds SS T Hss wb Hwb Hdiv) as (Hb & _). rewrite bool_decide_true by lia.
  eexists. split; [done|]. cbn. split_and!; try done.
  - unfold parts_ok. cbn. rewrite length_insert. destruct Hparts as [[-> _]|[-> _]]; cbn; auto.
  - apply list_lookup_total_insert_eq. destruct Hparts as [[-> _]|[-> _]]; lia.
Qed.

(** The read after the block at [wb] and what the copy is waiting for then: the read of
    the next block, if there is one. *)
Definition waiting (wb : Z) (st : image_state) : Prop :=
  img_read_size st !!! proc_bufnum st ≠ 0 /\ (wb < T -> (BS | wb) /\ reading wb st).

Lemma next_read_spec wb st :
  0 <= wb < T -> (BS | wb) -> parts_ok st -> img_read_size st !!! proc_bufnum st = blen wb ->
  fd_Offset (hSourceImage st) = u64 (wb + read_len wb) -> holds_block (proc_bufnum st) wb (img_buffer st) ->
  match start_read SS image_read (next_length SS T (u64 (wb + blen wb))) st with
  | None => ~ (SS | T)
  | Some st' => waiting (wb + blen wb) st' /\ proc_bufnum st' = proc_bufnum st /\
      img_read_size st' = img_read_size st /\ length (img_buffer st') = (2 * Z.to_nat BS)%nat /\
      take (Z.to_nat (read_len wb)) (slice (part_start SS (proc_bufnum st)) (Z.to_nat (blen wb)) (img_buffer st')) =
      bytes_at img wb (Z.to_nat (read_len wb))
  end.
Proof using Hss HT Himg Hreads.
  intros Hwb Hdiv Hparts Hsize Hoff Hblock. pose proof Hparts as (Hlen & Hsz & Hij).
  destruct (buf_size_bounds SS Hss) as [Hbs Hdbs].
  assert (HdSS : (SS | wb)) by (by etransitivity).
  destruct (block_len_bounds SS T Hss wb Hwb HdSS) as (Hb & Hdb & Hend & Hfull & Hlast).
  pose proof (sectors_end_bounds SS T Hss) as [Hse Hdse]. pose proof (read_len_bounds wb Hwb) as [Hrl Hrle].
  unfold DD_BUFFER_SIZE, MB in *.
  assert (Hshort : read_len wb <= blen wb) by (unfold read_len, block_len; lia).
  assert (Htake : forall buf, slice (part_start SS (proc_bufnum st)) (Z.to_nat BS) buf =
      slice (part_start SS (proc_bufnum st)) (Z.to_nat BS) (img_buffer st) ->
    take (Z.to_nat (read_len wb)) (slice (part_start SS (proc_bufnum st)) (Z.to_nat (blen wb)) buf) =
    bytes_at img wb (Z.to_nat (read_len wb))).
  { intros buf Hbuf. rewrite <- Hblock, <- Hbuf. unfold slice. rewrite !take_take. f_equal. lia. }
  rewrite (uwrap_small 64 (wb + blen wb)) by lia. rewrite (uwrap_small 64 (wb + read_len wb)) in Hoff by lia.
  destruct (decide (T < wb + blen wb)) as [Hover|Hin].
  - destruct (start_read _ _ _ _) as [st'|] eqn:Hstart.
    2: { intros HdT. assert (sectors_end SS T <= T) by (by apply round_up_le). lia. }
    unfold start_read in Hstart. destruct (ReadFileAsync _ _); [|done]. injection Hstart as <-. cbn.
    set (sc := take _ _). assert (Hsc : (length sc <= Z.to_nat BS)%nat).
    { unfold sc, next_length. rewrite length_take. lia. }
    assert (Hfits : (part_start SS (read_bufnum st) + length sc <= length (img_buffer st))%nat)
      by (unfold part_start; lia).
    split_and!; [split; [cbn; rewrite Hsize; lia|lia]|done|done|by rewrite length_splice|].
    apply Htake. apply slice_splice_other; [done|unfold part_start; lia].
  - assert (Hrb : read_len wb = blen wb) by (unfold read_len, block_len in *; lia).
    assert (Hnl : next_length SS T (wb + blen wb) = read_len (wb + blen wb)).
    { unfold next_length, read_len. rewrite (uwrap_small 64 (T - (wb + blen wb))) by lia. done. }
    destruct (start_read_spec (wb + blen wb) (read_len (wb + blen wb)) st Hparts) as (st' & Hstart & Hread & Hs & Hp & Hsl);
      try lia; [unfold read_len; lia..|].
    rewrite Hnl, Hstart. split_and!; [|done|done|by destruct Hread as ((-> & _) & _)|by apply Htake, Hsl].
    split; [rewrite Hs, Hp, Hsize; lia|]. intros Hlt. split; [|done].
    destruct (decide (T < wb + BS)) as [Hlt'|]; [specialize (Hlast Hlt'); lia|].
    rewrite Hfull by lia. by apply Z.divide_add_r, Z.divide_refl.
Qed.

(** What the loop gives from the block at [wb] on. *)
Definition copied_from wb w (r : loop_end) w' : Prop :=
  confined wb (sectors_end SS T) w w' /\ (r = LoopDone \/ r = GotoOut \/ r = LoopAsserts /\ ~ (SS | T)) /\
  (r = LoopDone -> forall z, wb <= z < T -> content w' z = img z) /\
  (reads_work -> (SS | T) -> untroubled w -> drive_fits SS T (machine w) ->
     r = LoopDone /\ ErrorStatus w' = ErrorStatus w).

Lemma copy_stops wb w r w' :
  confined wb (sectors_end SS T) w w' -> (r = GotoOut \/ r = LoopAsserts /\ ~ (SS | T)) ->
  (reads_work -> (SS | T) -> untroubled w -> drive_fits SS T (machine w) -> False) -> copied_from wb w r w'.
Proof. intros Hc Hr Hno. split_and!; [done|tauto| |intros; exfalso; eauto]. intros ->. destruct Hr as [|[? _]]; done. Qed.

(** The block at [wb] is copied, then the others. *)
Lemma copied_block wb w w1 block r w' :
  0 <= wb < T -> (SS | wb) -> confined wb (wb + blen wb) w w1 -> sizeof block = blen wb ->
  take (Z.to_nat (read_len wb)) block = bytes_at img wb (Z.to_nat (read_len wb)) ->
  same_content (content w1) (patch (content w) wb block) ->
  (untroubled w -> drive_fits SS T (machine w) -> ErrorStatus w1 = ErrorStatus w) ->
  copied_from (wb + blen wb) w1 r w' -> copied_from wb w r w'.
Proof using Hss Himg.
  intros Hwb HdSS Hc1 Hlen Hblock Hcont Hg1 (Hc & Hr & Hdone & Hgood).
  destruct (block_len_bounds SS T Hss wb Hwb HdSS) as (Hn & _ & Hend & _).
  destruct (read_len_bounds wb Hwb) as [Hrl _].
  split_and!; [|done| |].
  - etransitivity; [eapply confined_weaken; [..|exact Hc1]; lia|eapply confined_weaken; [..|exact Hc]; lia].
  - intros Hd z Hz. destruct (decide (z < wb + blen wb)); [|apply Hdone; [done|lia]].
    rewrite (proj2 Hc) by lia. rewrite (Hcont z).
    assert (Hi : block !! Z.to_nat (z - wb) = Some (img z)).
    { rewrite <- (lookup_take_lt block (Z.to_nat (read_len wb))), Hblock, lookup_bytes_at
        by (unfold read_len, block_len in *; lia). do 2 f_equal. lia. }
    pose proof (patch_in (content w) wb block _ _ Hi) as Hp.
    by replace (wb + Z.of_nat (Z.to_nat (z - wb))) with z in Hp by lia.
  - intros Hw HdT Hg Hfit. specialize (Hg1 Hg Hfit).
    destruct Hgood as [-> He]; [done|done| | |split; [done|congruence]].
    + by eapply untroubled_step; [apply Hc1|..].
    + by eapply drive_fits_same; [apply Hc1|].
Qed.

Lemma image_loop_spec fuel wb st w :
  0 <= wb -> T - wb <= SS * (Z.of_nat fuel - 1) -> (0 < fuel)%nat ->
  waiting wb st -> (wb < T -> file_pos (machine w) = wb) ->
  wp (image_loop SS image_read fuel T wb st) w (copied_from wb w).
Proof using All.
  revert wb st w. induction fuel as [|fuel IH]; intros wb st w Hwb0 Hfuel Hpos [Hsize Hwait] Hfp; [lia|].
  cbn [image_loop]. rewrite bool_decide_false by done. case_bool_decide as Hge.
  { step. split_and!; [done|by left|lia|done]. }
  destruct (Hwait ltac:(lia)) as [Hdiv Hread]. specialize (Hfp ltac:(lia)).
  destruct (buf_size_bounds SS Hss) as [Hbs Hdbs]. assert (HdSS : (SS | wb)) by (by etransitivity).
  destruct (block_len_bounds SS T Hss wb ltac:(lia) HdSS) as (Hb & _ & Hend & _).
  pose proof (sectors_end_bounds SS T Hss) as [Hse _]. unfold DD_BUFFER_SIZE, MB in *.
  destruct (finish_read_spec wb st ltac:(lia) Hread) as [Hworks Hfin].
  destruct (finish_read SS st) as [st1|].
  2: { unfold fail. step. step. step. apply copy_stops; [done|by left|]. intros Hw. by destruct (Hworks Hw). }
  destruct (Hfin st1 eq_refl) as (Hparts1 & Hrn1 & Hpn1 & Hsz1 & Hoff1 & Hblk1).
  destruct (next_buffer_spec wb st1 ltac:(lia) HdSS Hparts1) as (st2 & -> & Hparts2 & Hp2 & Hn2 & Hbuf2 & Hfd2).
  { rewrite Hsz1, Hrn1. apply list_lookup_total_insert_eq. destruct Hread as ((_ & ? & ?) & _). lia. }
  rewrite Hn2. pose proof (next_read_spec wb st2 ltac:(lia) Hdiv Hparts2 Hn2) as Hnext.
  rewrite Hfd2, Hp2, Hbuf2, Hrn1 in Hnext. specialize (Hnext Hoff1 Hblk1).
  destruct (start_read _ _ _ st2) as [st3|].
  2: { step. apply copy_stops; [done|by right|]. intros _ HdT. by destruct Hnext. }
  destruct Hnext as (Hwait3 & Hp3 & Hs3 & Hlen3 & Hblk3). rewrite Hp3.
  set (block := slice _ _ _) in Hblk3 |- *.
  assert (Hblen : sizeof block = blen wb).
  { unfold block. rewrite length_slice, Hlen3. unfold part_start.
    destruct Hparts2 as (_ & _ & Hij). rewrite Hp2, Hrn1 in Hij. lia. }
  step. eapply wp_mono; [by apply write_block_spec|]. intros r w1 [[Hc1 Hr1] Hgood1]. rewrite Hblen in Hc1, Hr1, Hgood1.
  assert (Hfine : untroubled w -> drive_fits SS T (machine w) -> r = Some (blen wb) /\ ErrorStatus w1 = ErrorStatus w).
  { intros Hg Hfit. apply Hgood1; [done|done|]. apply block_access; [done|lia|done..]. }
  destruct r as [n|].
  - destruct (Hr1 n eq_refl) as (-> & Hp1 & Hcont). rewrite (uwrap_small 64 (wb + blen wb)) by lia.
    eapply wp_mono; [apply IH; [lia|nia|nia|done|done]|]. intros r w' Hc.
    eapply copied_block; [lia|done|exact Hc1|exact Hblen|exact Hblk3|done| |exact Hc].
    intros. by apply Hfine.
  - step. apply copy_stops; [eapply confined_weaken; [..|exact Hc1]; lia|by left|].
    intros _ _ Hg Hfit. by destruct (Hfine Hg Hfit).
Qed.

Lemma copy_image_spec opened w :
  file_pos (machine w) = 0 ->
  wp (copy_image SS image_read T opened) w (fun r w' =>
    confined 0 (sectors_end SS T) w w' /\ (r = LoopDone \/ r = GotoOut \/ r = LoopAsserts /\ ~ (SS | T)) /\
    (r = LoopDone -> forall z, 0 <= z < T -> content w' z = img z) /\
    (opened = true -> reads_work -> (SS | T) -> untroubled w -> drive_fits SS T (machine w) ->
       r = LoopDone /\ ErrorStatus w' = ErrorStatus w)).
Proof using All.
  intros Hpos. unfold copy_image. destruct opened; cbn [negb].
  2: { unfold fail. step. step. step. split_and!; [done|by right; left|done|done]. }
  destruct (buf_size_bounds SS Hss) as [Hbs Hdbs]. unfold DD_BUFFER_SIZE, MB in *.
  step. step. match goal with Hm : mm_malloc _ _ = (?b, _) |- _ =>
    destruct (malloc_law _ _ _ _ Hm) as (Hu & Hfp & Hsome & Hlen); destruct b as [buf|] end.
  2: { unfold fail. step. step. step. split_and!; [by apply unchanged_confined|by right; left|done|].
       intros _ _ _ [Hr _]. by destruct (Hsome Hr). }
  specialize (Hlen buf eq_refl). unfold DD_NUM_BUFFERS in Hlen. rewrite uwrap_small in Hlen by lia.
  destruct (start_read_spec 0 (read_len 0)
    (mkImage buf [0; 0] 0 1 (mkFd 0 0 false (mkAsync false 0 [] false false 0 [])) 0))
    as (st & Hstart & Hread & Hsz & Hp & _); [|lia|unfold read_len; lia|done|unfold read_len; lia|done|].
  { split_and!; [|done|by left]. cbn. rewrite Hlen. lia. }
  replace (Z.min BS T) with (read_len 0) by (unfold read_len; f_equal; lia). rewrite Hstart.
  eapply wp_mono; [apply image_loop_spec; [lia| |unfold drive_fuel; lia| |]|].
  - unfold drive_fuel. rewrite !Nat2Z.inj_succ, Z2Nat.id by (apply Z.div_pos; lia).
    pose proof (Z.div_mod T SS ltac:(lia)). pose proof (Z.mod_pos_bound T SS ltac:(lia)). nia.
  - split; [done|]. intros _. split; [apply Z.divide_0_r|]. destruct Hread as ((? & ? & ?) & ? & ? & ? & ?).
    cbn in Hp. split_and!; try done. split_and!; [done|done|by left].
  - intros _. cbn. by rewrite Hfp.
  - intros r w' (Hc & Hr & Hdone & Hgood). split_and!; [|done|done|].
    + transitivity (set_machine d w); [by apply unchanged_confined|exact Hc].
    + intros _ Hw HdT Hg Hfit. apply Hgood; [done|done| |].
      * by eapply untroubled_step; [apply Hu|..].
      * by eapply drive_fits_same; [apply Hu|].
Qed.
End image.
