(* ===== verification/SectorWrite.v ===== *)
(** SectorWrite: the output of a decompression reaches the drive whole, however it is
    cut into writes (WriteDrive.v). *)

From S2P Require Import Prelude Disk DiskCorrect BootRecords Format Partition WriteDrive WriteDriveCorrect.

Lemma patch_nil f p : same_content (patch f p []) f.
Proof. intros z. apply patch_out. cbn. lia. Qed.

Lemma patch_app f p a b : same_content (patch f p (a ++ b)) (patch (patch f p a) (p + sizeof a) b).
Proof.
  symmetry. apply patch_eq.
  - rewrite length_app. intros z Hz. rewrite !patch_out by lia. done.
  - intros i x Hi. destruct (decide (i < length a)%nat).
    + rewrite patch_out by lia. apply patch_in. by rewrite lookup_app_l in Hi by lia.
    + rewrite lookup_app_r in Hi by lia.
      replace (p + Z.of_nat i) with (p + sizeof a + Z.of_nat (i - length a)) by lia. by apply patch_in.
Qed.

Section stream.
Context {D : Type} `{OsLaws D} `{UserOs D} `{PartitionOs D} `{!DriveLaws D}.
Implicit Types (w : world D) (sec : sector_buffer).
Context (SS : Z).
Hypothesis Hss : 512 <= SS <= 64 * KB.

(** The bytes that wait for the rest of their sector. *)
Definition held sec : list Z := take (Z.to_nat (sec_buf_pos sec)) (sec_buf sec).

Definition sec_ok sec : Prop := sizeof (sec_buf sec) = SS /\ 0 <= sec_buf_pos sec < SS.

Lemma length_held sec : sec_ok sec -> sizeof (held sec) = sec_buf_pos sec.
Proof. intros [? ?]. unfold held. rewrite length_take. lia. Qed.

(** The machine accepts what is written at the file pointer, up to [n] bytes from it. *)
Definition room n w : Prop :=
  reliable (machine w) /\ (disk_sector (machine w) | SS) /\ (SS | file_pos (machine w)) /\
  0 <= file_pos (machine w) /\ file_pos (machine w) + n <= disk_size (machine w).

(** The run has taken in [data]: whole sectors of what was held and of [data] are on
    the drive, and the rest is held. *)
Definition streamed w sec (data : list Z) w' sec' : Prop :=
  exists done, held sec ++ data = done ++ held sec' /\ (SS | sizeof done) /\ sec_ok sec' /\
    same_disk (machine w) (machine w') /\ ErrorStatus w' = ErrorStatus w /\
    file_pos (machine w') = file_pos (machine w) + sizeof done /\
    same_content (content w') (patch (content w) (file_pos (machine w)) done).

Lemma streamed_refl w sec : sec_ok sec -> streamed w sec [] w sec.
Proof.
  intros. exists []. rewrite app_nil_r. split_and!; try done; [apply Z.divide_0_r|cbn; lia|].
  intros z. by rewrite (patch_nil _ _ z).
Qed.

Lemma streamed_trans w sec a w1 sec1 b w2 sec2 :
  streamed w sec a w1 sec1 -> streamed w1 sec1 b w2 sec2 -> streamed w sec (a ++ b) w2 sec2.
Proof.
  intros (d1 & Ha & Hd1 & _ & Hs1 & He1 & Hp1 & Hc1) (d2 & Hb & Hd2 & Hok & Hs2 & He2 & Hp2 & Hc2).
  exists (d1 ++ d2). rewrite length_app, Nat2Z.inj_add. split_and!; try done.
  - by rewrite app_assoc, Ha, <- !app_assoc, Hb.
  - by apply Z.divide_add_r.
  - by etransitivity.
  - congruence.
  - lia.
  - intros z. rewrite (Hc2 z), Hp1, (patch_app _ _ _ _ z). by apply patch_proper.
Qed.

Lemma streamed_room w sec data w' sec' n :
  sec_ok sec -> streamed w sec data w' sec' -> room (sizeof (held sec) + sizeof data + n) w ->
  room (sizeof (held sec') + n) w'.
Proof.
  intros Hok (d & Heq & Hd & _ & (Hsz & Hsec & Hr) & _ & Hp & _) (Hrel & Hdiv & Hpd & H0p & Hroom).
  apply (f_equal length) in Heq. rewrite !length_app in Heq.
  unfold room. rewrite Hsz, Hsec, Hp. split_and!; [by apply Hr|done|by apply Z.divide_add_r|lia|lia].
Qed.

Lemma c_write_spec buf w : (SS | sizeof buf) -> room (sizeof buf) w ->
  wp (c_write buf) w (fun n w' => n = sizeof buf /\ same_disk (machine w) (machine w') /\
    ErrorStatus w' = ErrorStatus w /\ file_pos (machine w') = file_pos (machine w) + sizeof buf /\
    same_content (content w') (patch (content w) (file_pos (machine w)) buf)).
Proof.
  intros Hdiv (Hrel & Hsec & Hpos & Hp0 & Hroom). unfold c_write. case_bool_decide as Hz.
  - step. destruct buf; [|done]. split_and!; [done|done|done|cbn; lia|]. intros z. by rewrite (patch_nil _ _ z).
  - step. eapply wp_mono; [apply write_attempt|]. intros [s n] w1 (He & [Hc Hr] & Hgood).
    destruct Hgood as [Hs Hn]; [done| |].
    { unfold aligned_access. split_and!; [by etransitivity|by etransitivity|lia..]. }
    cbn [fst snd] in *. subst. step. rewrite bool_decide_true in Hr by done.
    destruct (Hr _ eq_refl) as (_ & ? & ?). split_and!; [done|apply Hc|done..].
Qed.

(** *** [sector_write] *)

(** Its end: whole sectors from [fill] on, then what is left is held. *)
Lemma write_tail buf fill sec w :
  0 <= fill <= sizeof buf -> sec_ok sec -> sec_buf_pos sec = 0 -> room (sizeof buf - fill) w ->
  let full := (sizeof buf - fill) / SS * SS in
  wp (written ← c_write (slice (Z.to_nat fill) (Z.to_nat full) buf);
      if bool_decide (written < 0) then mret (Some (written, sec))
      else if negb (bool_decide (written = full)) then mret (Some (fill + written, sec))
      else
        let pos := sizeof buf - fill - written in
        if negb (bool_decide (pos < SS)) then mret None
        else mret (Some (sizeof buf,
               mkSec (splice 0 (slice (Z.to_nat (fill + written)) (Z.to_nat pos) buf) (sec_buf sec)) pos))) w
    (fun r w' => exists sec', r = Some (sizeof buf, sec') /\ streamed w sec (drop (Z.to_nat fill) buf) w' sec').
Proof.
  intros Hfill [Hlen Hpos] Hp0 Hroom full. unfold KB in *.
  pose proof (Z.div_mod (sizeof buf - fill) SS ltac:(lia)).
  pose proof (Z.mod_pos_bound (sizeof buf - fill) SS ltac:(lia)).
  assert (Hfull : 0 <= full <= sizeof buf - fill /\ sizeof buf - fill < full + SS)
    by (pose proof (Z.div_pos (sizeof buf - fill) SS); unfold full; nia).
  set (whole := slice _ (Z.to_nat full) _).
  assert (Hwhole : sizeof whole = full) by (unfold whole; rewrite length_slice; lia).
  step. eapply wp_mono; [apply c_write_spec; rewrite Hwhole|].
  { by apply Z.divide_factor_r. }
  { destruct Hroom as (? & ? & ? & ? & ?). split_and!; [done..|lia]. }
  rewrite Hwhole. intros written w1 (-> & Hs & He & Hp & Hc).
  rewrite bool_decide_false, bool_decide_true, bool_decide_true by lia. cbn [negb]. step.
  eexists. split; [done|]. set (rest := slice (Z.to_nat (fill + full)) _ _).
  assert (Hrest : sizeof rest = sizeof buf - fill - full) by (unfold rest; rewrite length_slice; lia).
  exists whole. unfold held, sec_ok. cbn [sec_buf sec_buf_pos]. rewrite Hp0, Hwhole.
  split_and!; try done; [|by apply Z.divide_factor_r|rewrite length_splice; lia|lia|lia].
  rewrite <- Hrest, Nat2Z.id, splice_0_take by done. cbn [take app].
  unfold whole, rest, slice. replace (Z.to_nat (fill + full)) with (Z.to_nat fill + Z.to_nat full)%nat by lia.
  rewrite <- drop_drop. rewrite (firstn_all2 (drop (Z.to_nat full) _)) by (rewrite !length_drop; lia).
  by rewrite take_drop.
Qed.

(** The sector that was begun is filled, and written when it is full. *)
Lemma fill_held buf fill sec :
  sec_ok sec -> 0 <= fill <= sizeof buf -> sec_buf_pos sec + fill <= SS ->
  let buffer := splice (Z.to_nat (sec_buf_pos sec)) (take (Z.to_nat fill) buf) (sec_buf sec) in
  sizeof buffer = SS /\
  take (Z.to_nat (sec_buf_pos sec + fill)) buffer = held sec ++ take (Z.to_nat fill) buf.
Proof.
  intros [Hlen Hpos] Hfill Hle buffer.
  assert (Hl : length (take (Z.to_nat fill) buf) = Z.to_nat fill) by (rewrite length_take; lia).
  split; [unfold buffer; rewrite length_splice; lia|].
  replace (Z.to_nat (sec_buf_pos sec + fill)) with (Z.to_nat (sec_buf_pos sec) + length (take (Z.to_nat fill) buf))%nat by lia.
  apply take_splice. lia.
Qed.

Lemma sector_write_spec buf sec w :
  sizeof buf <= 1024 * MB -> sec_ok sec -> room (sizeof (held sec) + sizeof buf) w ->
  wp (sector_write SS buf sec) w (fun r w' =>
    exists sec', r = Some (sizeof buf, sec') /\ streamed w sec buf w' sec').
Proof.
  intros Hbuf Hok Hroom. pose proof Hok as [Hlen Hpos]. rewrite (length_held sec Hok) in Hroom.
  unfold sector_write. rewrite (bool_decide_false (SS = 0)) by (unfold KB in *; lia).
  rewrite !bool_decide_true by lia. cbn [negb].
  destruct (andb _ _) eqn:Hwhole.
  - apply andb_true_iff in Hwhole as [Hp Hm]. apply bool_decide_eq_true in Hp, Hm.
    apply Z.mod_divide in Hm; [|unfold KB in *; lia]. rewrite Hp in Hroom.
    step. eapply wp_mono; [by apply c_write_spec|]. intros n w1 (-> & Hs & He & Hfp & Hc). step.
    exists sec. split; [done|]. exists buf. unfold held. rewrite Hp. cbn [take]. by rewrite app_nil_r.
  - clear Hwhole. rewrite (bool_decide_true (sec_buf_pos sec <= SS)) by lia. cbn [negb].
    destruct (decide (sec_buf_pos sec > 0)) as [Hp|Hp].
    + rewrite !(bool_decide_true (sec_buf_pos sec > 0)) by done. cbn [andb].
      set (fill := Z.min _ _). assert (Hfill : 0 <= fill <= sizeof buf) by lia.
      destruct (fill_held buf fill sec Hok Hfill ltac:(lia)) as [Hblen Hheld]. cbn [sec_buf sec_buf_pos].
      case_bool_decide as Hpart.
      * step. eexists. split; [done|]. exists []. unfold sec_ok, held at 2. cbn [sec_buf sec_buf_pos].
        rewrite Hheld. rewrite (firstn_all2 buf) in Hblen |- * by lia.
        split_and!; try done; [apply Z.divide_0_r|lia|cbn; lia|].
        intros z. by rewrite (patch_nil _ _ z).
      * assert (Hfull : sec_buf_pos sec + fill = SS) by lia. rewrite Hfull in Hheld.
        set (buffer := splice _ _ _) in *.
        assert (Hsec : sizeof (take (Z.to_nat SS) buffer) = SS) by (rewrite length_take; lia).
        apply wp_bind. step. eapply wp_mono; [apply c_write_spec|].
        { rewrite Hsec. by apply Z.divide_refl. }
        { destruct Hroom as (? & ? & ? & ? & ?). rewrite Hsec. split_and!; [done..|lia]. }
        rewrite Hsec. intros n w1 (-> & Hs1 & He1 & Hp1 & Hc1). step.
        rewrite bool_decide_true by done.
        assert (Hst : streamed w sec (take (Z.to_nat fill) buf) w1 (mkSec buffer 0)).
        { exists (take (Z.to_nat SS) buffer). unfold sec_ok, held at 2. cbn [sec_buf sec_buf_pos take].
          rewrite Hsec, Hheld, app_nil_r. rewrite Hheld in Hc1.
          split_and!; try done; unfold KB in *; lia. }
        eapply wp_mono; [apply write_tail; [done|split; cbn; [done|unfold KB in *; lia]|done|]|].
        { destruct Hroom as (? & ? & ? & ? & ?). destruct Hs1 as (Hsz & Hse & Hr). unfold room.
          rewrite Hsz, Hse, Hp1. split_and!; [by apply Hr|done|by apply Z.divide_add_r, Z.divide_refl|lia|lia]. }
        intros r w2 (sec' & -> & Hst2). exists sec'. split; [done|].
        rewrite <- (take_drop (Z.to_nat fill) buf). by eapply streamed_trans.
    + rewrite !(bool_decide_false (sec_buf_pos sec > 0)) by done. cbn [andb]. apply wp_bind. step.
      assert (Hp0 : sec_buf_pos sec = 0) by lia.
      eapply wp_mono; [apply write_tail; [lia|done|done|]|].
      { by rewrite Hp0, Z.add_0_l in Hroom; rewrite Z.sub_0_r. }
      intros r w2 (sec' & -> & Hst). by exists sec'.
Qed.

(** *** The decompression *)

Lemma room_weaken n m w : n <= m -> room m w -> room n w.
Proof. intros ? (? & ? & ? & ? & ?). split_and!; [done..|lia]. Qed.

Lemma bled_uncompress_spec output bled_ret sec w :
  Forall (fun buf => sizeof buf <= BB_BUFSIZE) output -> sec_ok sec ->
  room (sizeof (held sec) + sizeof (concat output)) w ->
  wp (bled_uncompress SS output bled_ret sec) w (fun r w' =>
    exists sec', r = Some (bled_ret, sec') /\ streamed w sec (concat output) w' sec').
Proof.
  revert sec w. induction output as [|buf output IH]; intros sec w Hall Hok Hroom; cbn [bled_uncompress concat] in *.
  { step. exists sec. split; [done|]. by apply streamed_refl. }
  apply Forall_cons in Hall as [Hbuf Hall]. rewrite length_app, Nat2Z.inj_add in Hroom.
  unfold transformer_write. rewrite (bool_decide_false (sizeof buf > BB_BUFSIZE)) by lia.
  step. step. eapply wp_mono; [apply sector_write_spec; [|done|by eapply room_weaken; [|exact Hroom]; lia]|].
  { unfold BB_BUFSIZE, KB, MB in *. lia. }
  intros r w1 (sec1 & -> & Hst). step. cbn.
  rewrite (bool_decide_true (sizeof buf = sizeof buf)), (bool_decide_true (sizeof buf = sizeof buf)) by done.
  assert (Hok1 : sec_ok sec1) by (destruct Hst as (? & _ & _ & ? & _); done).
  eapply wp_mono; [apply IH; [done|done|]|].
  { eapply (streamed_room w sec buf); [done|exact Hst|]. by eapply room_weaken; [|exact Hroom]; lia. }
  intros r w2 (sec2 & -> & Hst2). exists sec2. split; [done|]. by eapply streamed_trans.
Qed.

(** The bytes of [data] are on the drive from its start on, and what is after their last
    sector is as before. *)
Definition drive_starts_with (data : list Z) w w' : Prop :=
  bytes_at (content w') 0 (length data) = data /\
  confined 0 (sectors_end SS (sizeof data)) w w'.

(** The last write completes the sector that was begun. *)
Lemma flush_held data buf sec w w1 w2 :
  sec_ok sec -> streamed w (mkSec buf 0) data w1 sec -> file_pos (machine w) = 0 ->
  block_written (file_pos (machine w1)) (take (Z.to_nat SS) (sec_buf sec)) w1 (Some SS) w2 ->
  sec_buf_pos sec ≠ 0 -> drive_starts_with data w w2.
Proof.
  intros Hok (d & Heq & Hd & _ & Hs & _ & Hp & Hc) Hp0 [[Hs2 Hc2] Hw2] Hne.
  pose proof (length_held sec Hok) as Hheld. destruct Hok as [Hlen Hpos]. unfold KB in *.
  change (held (mkSec buf 0)) with (@nil Z) in Heq. cbn [app] in Heq.
  destruct (Hw2 SS eq_refl) as (_ & _ & Hcont). rewrite Hp, Hp0 in Hcont, Hc2.
  rewrite firstn_all2 in Hcont, Hc2 by lia. rewrite Z.add_0_l in Hcont, Hc2.
  assert (Hdata : sizeof data = sizeof d + sec_buf_pos sec) by (rewrite Heq, length_app; lia).
  assert (Hend : sectors_end SS (sizeof data) = sizeof d + SS).
  { unfold sectors_end. destruct Hd as [q Hq]. rewrite Hdata, Hq.
    replace (q * SS + sec_buf_pos sec + SS - 1) with ((sec_buf_pos sec - 1) + (q + 1) * SS) by lia.
    rewrite Z.div_add, Z.div_small by lia. lia. }
  assert (Hout : same_content (content w2) (patch (content w) 0 (d ++ sec_buf sec))).
  { intros z. rewrite (Hcont z), (patch_app _ _ _ _ z), Z.add_0_l. apply patch_proper; [|done..].
    intros y. by rewrite (Hc y), Hp0. }
  split.
  - rewrite Hout. rewrite <- (take_drop (Z.to_nat (sec_buf_pos sec)) (sec_buf sec)), app_assoc.
    change (take _ (sec_buf sec)) with (held sec). rewrite <- Heq.
    rewrite <- (Z.add_0_l 0) at 2. change (0 + 0) with (0 + Z.of_nat 0).
    rewrite bytes_at_patch_inside by (rewrite length_app; lia). unfold slice. rewrite drop_0.
    by apply take_app_length.
  - split; [by etransitivity|]. intros z Hz. rewrite (Hout z). apply patch_out.
    rewrite length_app. lia.
Qed.

Lemma full_sector sec : sec_ok sec -> sizeof (take (Z.to_nat SS) (sec_buf sec)) = SS.
Proof. intros [? _]. unfold KB in *. rewrite length_take. lia. Qed.

(** There is room for the sector that was begun. *)
Lemma held_access data buf sec w w1 :
  sec_ok (mkSec buf 0) -> streamed w (mkSec buf 0) data w1 sec -> sec_buf_pos sec ≠ 0 ->
  room (sectors_end SS (sizeof data)) w -> aligned_access (machine w1) SS.
Proof.
  intros Hok0 Hst Hne Hroom. unfold KB in *.
  destruct (sectors_end_bounds SS (sizeof data)) as [Hse Hdse]; [unfold DD_BUFFER_SIZE, MB; lia|].
  assert (Hroom1 : room (sizeof (held sec) + (sectors_end SS (sizeof data) - sizeof data)) w1).
  { eapply streamed_room; [exact Hok0|exact Hst|]. eapply room_weaken; [|exact Hroom].
    rewrite (length_held _ Hok0). cbn [sec_buf_pos]. lia. }
  destruct Hst as (d & Heq & Hd & Hok & _). destruct Hroom1 as (_ & Hsc & Hdv & Hpp & Hle).
  pose proof (length_held sec Hok) as Hheld. destruct Hok as [_ Hps].
  change (held (mkSec buf 0)) with (@nil Z) in Heq. cbn [app] in Heq.
  apply (f_equal length) in Heq. rewrite length_app in Heq.
  assert (Hend : sectors_end SS (sizeof data) - sizeof d = SS).
  { destruct (Z.divide_sub_r _ _ _ Hdse Hd) as [q Hq]. assert (0 < q * SS < 2 * SS) by lia.
    assert (q = 1) by nia. lia. }
  unfold aligned_access. split_and!; [by etransitivity|done|lia..].
Qed.

Lemma end_stream_spec data buf sec bled_ret w w1 :
  0 <= bled_ret -> sec_ok (mkSec buf 0) -> streamed w (mkSec buf 0) data w1 sec -> file_pos (machine w) = 0 ->
  room (sectors_end SS (sizeof data)) w ->
  wp (end_stream SS bled_ret sec) w1 (fun r w2 =>
    r = LoopDone /\ ErrorStatus w2 = ErrorStatus w1 /\ drive_starts_with data w w2).
Proof.
  intros Hret Hok0 Hst Hp0 Hroom. pose proof Hst as (d' & Heq & Hd & Hok & Hs & He & Hp & Hc).
  unfold end_stream, poll_user. step. step. step. match goal with Hu' : user_cancels _ = (?b, _) |- _ =>
    destruct (user_law _ _ _ Hu') as (Hun & Hpos & Hq); destruct b end.
  { discriminate Hq. apply Hs. by apply Hroom. }
  step. rewrite (bool_decide_true (bled_ret >= 0)) by lia. cbn [andb]. set (w1' := set_machine d w1).
  assert (Hst1 : streamed w (mkSec buf 0) data w1' sec).
  { exists d'. split_and!; try done; [by etransitivity; [|apply Hun]|by rewrite <- Hp|].
    intros z. etransitivity; [apply Hun|apply Hc]. }
  step. case_bool_decide as Hpz; cbn [negb].
  - step. step. rewrite (bool_decide_false (bled_ret < 0)) by lia. cbn [andb]. step.
    split_and!; [done|done|]. destruct Hst1 as (d1 & Heq1 & Hd1 & _ & Hs1 & _ & _ & Hc1).
    unfold held in Heq1. rewrite Hpz in Heq1. cbn [sec_buf sec_buf_pos] in Heq1.
    change (Z.to_nat 0) with 0%nat in Heq1. rewrite !take_0, app_nil_r in Heq1. cbn [app] in Heq1.
    rewrite <- Heq1, Hp0 in Hc1. split; [by rewrite Hc1, bytes_at_patch|].
    destruct (sectors_end_bounds SS (sizeof data)) as [Hse _]; [unfold KB, DD_BUFFER_SIZE, MB in *; lia|].
    split; [done|]. intros z Hz. etransitivity; [apply (Hc1 z)|]. apply patch_out. lia.
  - eapply wp_mono; [apply write_attempt|]. rewrite (full_sector sec Hok). intros [s n] w2 (He2 & Hw2 & Hgood).
    destruct Hgood as [Hss2 Hn2]; [by apply Hs1, Hroom || (apply Hun, Hs; apply Hroom)|by eapply held_access|].
    cbn [fst snd] in *. subst s n. rewrite bool_decide_true in Hw2 by done. cbn [andb] in Hw2.
    step. rewrite (bool_decide_false (bled_ret < 0)) by lia. cbn [andb]. step. split_and!; [done|exact He2|].
    eapply flush_held; [done|exact Hst1|done|exact Hw2|done].
Qed.

Lemma write_compressed_spec output bled_ret w :
  Forall (fun buf => sizeof buf <= BB_BUFSIZE) output -> 0 <= bled_ret ->
  untroubled w -> file_pos (machine w) = 0 -> drive_fits SS (sizeof (concat output)) (machine w) ->
  wp (write_compressed SS output bled_ret true) w (fun r w' =>
    r = LoopDone /\ ErrorStatus w' = ErrorStatus w /\ drive_starts_with (concat output) w w').
Proof.
  intros Hall Hret [Hrel Hcancel] Hp0 [Hsec Hsize]. unfold write_compressed. cbn [negb].
  destruct (sectors_end_bounds SS (sizeof (concat output))) as [Hse _]; [unfold KB, DD_BUFFER_SIZE, MB in *; lia|].
  step. step. match goal with Hm : mm_malloc _ _ = (?b, _) |- _ =>
    destruct (malloc_law _ _ _ _ Hm) as (Hu & Hfp & Hsome & Hlen); destruct b as [buf|] end.
  2: { by destruct (Hsome Hrel). }
  specialize (Hlen buf eq_refl). set (w0 := set_machine d w).
  assert (Hok0 : sec_ok (mkSec buf 0)) by (split; cbn; unfold KB in *; lia).
  assert (Hpos0 : file_pos (machine w0) = 0) by (unfold w0; cbn; by rewrite Hfp).
  assert (Hroom : room (sectors_end SS (sizeof (concat output))) w0).
  { destruct Hu as [(Hsz & Hsc & Hr) _]. unfold room. rewrite Hpos0. unfold w0. cbn. rewrite Hsz, Hsc.
    split_and!; [by apply Hr|done|apply Z.divide_0_r|lia|lia]. }
  step. eapply wp_mono; [apply bled_uncompress_spec; [done|done|]|].
  { eapply room_weaken; [|exact Hroom]. rewrite (length_held _ Hok0). cbn [sec_buf_pos]. lia. }
  intros r w1 (sec & -> & Hst). pose proof Hst as (_ & _ & _ & _ & _ & He & _).
  eapply wp_mono; [by eapply end_stream_spec|]. intros r w2 (-> & He2 & Hc2 & Hcf).
  split_and!; [done|by rewrite He2|]. split; [done|]. transitivity w0; [by apply unchanged_confined|exact Hcf].
Qed.
End stream.
