(* ===== verification/WriteDriveProps.v ===== *)
(** WriteDriveProps: the properties of [WriteDrive]. *)

From S2P Require Import Prelude Disk DiskCorrect MemDisk BootRecords Format Partition PartitionWrites WriteDrive WriteDriveCorrect ImageCopy SectorWrite.

Section claims.
Context {D : Type} `{OsLaws D} `{UserOs D} `{PartitionOs D} `{!DriveLaws D}.
Implicit Types (w : world D).
Context (SS DiskSize : Z).
Hypothesis Hss : 512 <= SS <= DD_BUFFER_SIZE.
Hypothesis Hsize : 0 <= DiskSize < 2 ^ 63.

(** The file pointer can be put at the start of the drive. *)
Definition rewinds w : Prop := forall r d, SetFilePointerEx 0 FILE_BEGIN (machine w) = (r, d) -> is_Some r.

Abbreviation blen := (block_len SS DiskSize).

(** Every block of the drive is erased. *)
Definition drive_erased (fast : bool) w : Prop :=
  forall j, 0 <= j * drive_buf_size SS < DiskSize ->
    erased fast (content w) (j * drive_buf_size SS) (j * drive_buf_size SS + blen (j * drive_buf_size SS)).

(** Every byte is in a block. *)
Lemma drive_erased_zero w : drive_erased false w -> forall z, 0 <= z < DiskSize -> content w z = 0.
Proof.
  intros He z Hz. destruct (buf_size_bounds SS Hss) as [Hb Hdb]. unfold DD_BUFFER_SIZE, MB in *.
  set (j := z / drive_buf_size SS).
  pose proof (Z.div_mod z (drive_buf_size SS) ltac:(lia)) as Hdm.
  pose proof (Z.mod_pos_bound z (drive_buf_size SS) ltac:(lia)).
  pose proof (Z.div_pos z (drive_buf_size SS) ltac:(lia) ltac:(lia)). fold j in Hdm.
  assert (Hj : 0 <= j * drive_buf_size SS < DiskSize) by nia.
  destruct (He j Hj) as (v & [->|[? _]] & Hall); [|done]. apply Hall.
  pose proof (sectors_end_bounds SS DiskSize Hss). unfold block_len. nia.
Qed.

Lemma zero_drive_spec fast w :
  file_pos (machine w) = 0 -> (fast = true -> (4 | SS) /\ forall z, is_byte (content w z)) ->
  wp (zero_drive SS DiskSize fast) w (fun r w' =>
    confined 0 (sectors_end SS DiskSize) w w' /\ (r = LoopDone \/ r = GotoOut) /\
    (r = LoopDone -> drive_erased fast w') /\
    (untroubled w -> drive_fits SS DiskSize (machine w) -> r = LoopDone /\ ErrorStatus w' = ErrorStatus w)).
Proof.
  intros Hpos Hbyte. unfold zero_drive. step. step. match goal with Hm : mm_malloc _ _ = (?b, ?d') |- _ =>
    rename d' into d1; destruct (malloc_law _ _ _ _ Hm) as (Hu1 & Hfp1 & Hsome1 & _); destruct b end.
  2: { unfold fail. repeat step. split_and!; [by apply unchanged_confined|by right|done|].
       intros [Hr _]. by destruct (Hsome1 Hr). }
  set (w1 := set_machine d1 w). step.
  apply (wp_mono _ _ (fun r w2 => unchanged (machine w1) (machine w2) /\ file_pos (machine w2) = 0 /\
    ErrorStatus w2 = ErrorStatus w1 /\ (reliable (machine w1) -> is_Some r))).
  { destruct fast; [|step; split_and!; [done|cbn; by rewrite Hfp1|done|by eexists]].
    apply wp_call. intros b d2 Hm. destruct (malloc_law _ _ _ _ Hm) as (Hu2 & Hfp2 & Hsome2 & _).
    split_and!; [done|cbn; rewrite Hfp2; cbn; by rewrite Hfp1|done|done]. }
  intros r w2 (Hu2 & Hp2 & He2 & Hsome2).
  assert (Hu : unchanged (machine w) (machine w2)) by (by etransitivity).
  destruct r as [cmp|].
  2: { unfold fail. repeat step. split_and!; [by apply unchanged_confined|by right|done|].
       intros [Hr _]. destruct Hsome2 as [? [=]]. by apply Hu1. }
  eapply wp_mono; [apply (zero_loop_spec SS DiskSize fast Hss Hsize)|].
  - lia.
  - destruct Hss. unfold drive_fuel. rewrite !Nat2Z.inj_succ, Z2Nat.id by (apply Z.div_pos; lia).
    pose proof (Z.div_mod DiskSize SS ltac:(lia)). pose proof (Z.mod_pos_bound DiskSize SS ltac:(lia)). nia.
  - unfold drive_fuel. lia.
  - intros _. split_and!; [apply Z.divide_0_r|done|done].
  - intros Hf. destruct (Hbyte Hf) as [? Hb]. split; [done|]. intros z _. rewrite (proj2 Hu). apply Hb.
  - intros r w3 (Hc & Hr & Hdone & Hgood). split_and!; [|done|done|].
    + transitivity w2; [by apply unchanged_confined|done].
    + change (ErrorStatus w2 = ErrorStatus w) in He2. intros Hg Hfit. rewrite <- He2. apply Hgood.
      * by eapply untroubled_step; [apply Hu|..].
      * by eapply drive_fits_same; [apply Hu|].
Qed.

Definition drive_end (r : loop_end) : drive_result :=
  match r with LoopDone => Ended true | GotoOut => Ended false | LoopAsserts => AssertFailed | NoFuel => OutOfFuel end.

(** [WriteDrive] rewinds, does its work, and refreshes the layout. *)
Lemma WriteDrive_spec image_read image fast w (Q : drive_result -> world D -> Prop) :
  rewinds w ->
  (forall w0, unchanged (machine w) (machine w0) -> file_pos (machine w0) = 0 -> ErrorStatus w0 = ErrorStatus w ->
     wp (match image with
         | None => zero_drive SS DiskSize fast
         | Some (kind, image_size, opened) => write_image SS DiskSize image_read kind image_size opened
         end) w0 (fun r w1 => forall w2, unchanged (machine w1) (machine w2) ->
           ErrorStatus w2 = ErrorStatus w1 -> Q (drive_end r) w2)) ->
  wp (WriteDrive SS DiskSize image_read image fast) w Q.
Proof.
  intros Hrew Hwork. unfold WriteDrive. rewrite bool_decide_false by (unfold DD_BUFFER_SIZE in *; lia).
  step. step. match goal with Hs : SetFilePointerEx _ _ _ = _ |- _ =>
    destruct (Hrew _ _ Hs) as [q ->]; destruct (seek_law _ _ _ _ Hs) as (Hu & Hq & _) end.
  step. eapply wp_mono; [apply Hwork; [done|by eapply Hq|done]|].
  intros r w1 HQ. destruct r; try (step; by apply HQ). unfold RefreshDriveLayout. step. step.
  match goal with Hr : IOCTL_DISK_UPDATE_PROPERTIES _ = _ |- _ => pose proof (refresh_law _ _ _ Hr) end.
  step. by apply (HQ (set_machine d0 w1)).
Qed.

(** From the specification of the work to that of [WriteDrive]. *)
Lemma run_drive image_read image fast w (R : loop_end -> world D -> Prop) :
  rewinds w ->
  (forall w0, unchanged (machine w) (machine w0) -> file_pos (machine w0) = 0 -> ErrorStatus w0 = ErrorStatus w ->
     wp (match image with
         | None => zero_drive SS DiskSize fast
         | Some (kind, image_size, opened) => write_image SS DiskSize image_read kind image_size opened
         end) w0 (fun r w1 => forall w2, unchanged (machine w1) (machine w2) ->
           ErrorStatus w2 = ErrorStatus w1 -> R r w2)) ->
  exists r w', WriteDrive SS DiskSize image_read image fast w = (drive_end r, w') /\ R r w'.
Proof.
  intros Hrew Hwork.
  destruct (wp_eval _ _ _ (WriteDrive_spec image_read image fast w
    (fun res w' => exists r, res = drive_end r /\ R r w') Hrew
    (fun w0 Hu Hp He => wp_mono _ _ _ _ (Hwork w0 Hu Hp He)
       (fun r w1 HR w2 Hu2 He2 => ex_intro _ r (conj eq_refl (HR w2 Hu2 He2))))))
    as (res & w' & -> & r & -> & HR).
  by exists r, w'.
Qed.

Lemma erase_spec image_read fast w :
  rewinds w -> (fast = true -> (4 | SS) /\ forall z, is_byte (content w z)) ->
  exists r w', WriteDrive SS DiskSize image_read None fast w = (Ended r, w') /\
    (forall z, ~ (0 <= z < sectors_end SS DiskSize) -> content w' z = content w z) /\
    (r = true -> drive_erased fast w') /\
    (untroubled w -> drive_fits SS DiskSize (machine w) -> r = true /\ ErrorStatus w' = ErrorStatus w).
Proof.
  intros Hrew Hbyte.
  destruct (run_drive image_read None fast w (fun r w' => exists b, drive_end r = Ended b /\
    (forall z, ~ (0 <= z < sectors_end SS DiskSize) -> content w' z = content w z) /\
    (b = true -> drive_erased fast w') /\
    (untroubled w -> drive_fits SS DiskSize (machine w) -> b = true /\ ErrorStatus w' = ErrorStatus w)) Hrew)
    as (r & w' & Hrun & b & Hb & Hrest); [|exists b, w'; by rewrite Hrun, Hb].
  intros w0 Hu Hp He. eapply wp_mono; [apply (zero_drive_spec fast w0 Hp)|].
  { intros Hf. destruct (Hbyte Hf) as [? Hb]. split; [done|]. intros z. rewrite (proj2 Hu). apply Hb. }
  intros r w1 (Hc & Hr & Hdone & Hgood) w2 Hu2 He2. exists (bool_decide (r = LoopDone)).
  split; [destruct Hr as [-> | ->]; done|]. split_and!.
  - intros z Hz. rewrite (proj2 Hu2), (proj2 Hc z Hz). apply Hu.
  - intros Hd%bool_decide_eq_true j Hj. destruct (Hdone Hd j Hj) as (v & Hv & Hall). exists v. split; [done|].
    intros z Hz. rewrite (proj2 Hu2). by apply Hall.
  - intros Hg Hfit. destruct Hgood as [-> He1].
    + by eapply untroubled_step; [apply Hu|..].
    + by eapply drive_fits_same; [apply Hu|].
    + split; [done|congruence].
Qed.

(** C1: Erasing a drive. Provided that the file pointer can be put back to the start of the
    drive (the code only logs a failure of that first seek), whatever writes, later seeks and
    allocations fail and whenever the user cancels, [WriteDrive] ends, nothing after the last
    sector has changed, and when it returns TRUE every byte of the drive is zero. On a machine
    whose accesses succeed it returns TRUE. *)
Theorem zero_drive_erases image_read w : rewinds w ->
  exists r w', WriteDrive SS DiskSize image_read None false w = (Ended r, w') /\
    (forall z, ~ (0 <= z < sectors_end SS DiskSize) -> content w' z = content w z) /\
    (r = true -> forall z, 0 <= z < DiskSize -> content w' z = 0) /\
    (untroubled w -> drive_fits SS DiskSize (machine w) -> r = true).
Proof.
  intros Hrew. destruct (erase_spec image_read false w Hrew) as (r & w' & Hrun & Hout & Hdone & Hgood); [done|].
  exists r, w'. split_and!; [done|done| |].
  - intros Hr. by apply drive_erased_zero, Hdone.
  - intros Hg Hfit. by apply Hgood.
Qed.

(** C2: Fast zeroing, on a drive of any content and a sector size that is a multiple of 4.
    It skips the blocks that it reads as empty, yet, provided that the first seek to the
    start of the drive works, when [WriteDrive] returns TRUE, whatever reads, writes, later
    seeks and allocations failed on the way, in every block of [drive_buf_size] bytes (the
    last one is shorter) all bytes are 0 or all are 255. It always ends, changes nothing
    after the last sector, and returns TRUE on a machine whose accesses succeed. *)
Theorem fast_zeroing_erases image_read w :
  (4 | SS) -> (forall z, is_byte (content w z)) -> rewinds w ->
  exists r w', WriteDrive SS DiskSize image_read None true w = (Ended r, w') /\
    (forall z, ~ (0 <= z < sectors_end SS DiskSize) -> content w' z = content w z) /\
    (r = true -> drive_erased true w') /\
    (untroubled w -> drive_fits SS DiskSize (machine w) -> r = true).
Proof.
  intros H4 Hb Hrew. destruct (erase_spec image_read true w Hrew) as (r & w' & Hrun & Hout & Hdone & Hgood); [done|].
  exists r, w'. split_and!; [done|done|done|]. intros Hg Hfit. by apply Hgood.
Qed.


(** C4: Writing a compressed image. However the decompression cuts its output into writes -
    of any length up to its buffer size, aligned or not - on a machine whose accesses
    succeed the drive starts with the whole output, and nothing after its last sector
    has changed. *)
Theorem compressed_image_written output bled_ret image_size image_read fast w :
  SS <= 64 * KB -> Forall (fun buf => sizeof buf <= BB_BUFSIZE) output -> 0 <= bled_ret -> rewinds w ->
  untroubled w -> drive_fits SS (sizeof (concat output)) (machine w) ->
  exists w', WriteDrive SS DiskSize image_read (Some (Compressed output bled_ret, image_size, true)) fast w =
      (Ended true, w') /\
    bytes_at (content w') 0 (length (concat output)) = concat output /\
    (forall z, ~ (0 <= z < sectors_end SS (sizeof (concat output))) -> content w' z = content w z).
Proof.
  intros Hss' Hall Hret Hrew Hg Hfit.
  destruct (run_drive image_read (Some (Compressed output bled_ret, image_size, true)) fast w (fun r w' =>
    r = LoopDone /\ drive_starts_with SS (concat output) w w') Hrew) as (r & w' & Hrun & -> & Hc & Hcf).
  - intros w0 Hu Hp He. unfold write_image.
    eapply wp_mono; [apply (write_compressed_spec SS ltac:(lia) output bled_ret w0); try done|].
    + by eapply untroubled_step; [apply Hu|..].
    + by eapply drive_fits_same; [apply Hu|].
    + intros r w1 (-> & _ & Hc & Hcf) w2 Hu2 He2. split; [done|]. split.
      * rewrite <- Hc at 2. apply list_fmap_ext. intros. apply Hu2.
      * transitivity w0; [by apply unchanged_confined|]. transitivity w1; [done|by apply unchanged_confined].
  - exists w'. split_and!; [done|done|apply Hcf].
Qed.
End claims.

(** ** On a disk in memory *)

#[export] Instance mem_user : UserOs mem_disk := { user_cancels d := (false, d) }.

#[export] Instance mem_drive_laws : DriveLaws mem_disk.
Proof.
  split; cbn.
  - intros buf d n d'. unfold mem_write. destruct (mem_transfer d); [destruct (mem_accepts _ d)| |];
      intros [=]; subst; done.
  - intros n d bs d' Hn. unfold mem_read. destruct (mem_transfer d) as [|k|]; [destruct (mem_accepts _ d)| |];
      intros [=]; subst; cbn; rewrite length_bytes_at; lia.
  - by intros d b d' [= <- <-].
  - by intros d r d' [= <- <-].
Qed.

Definition drive_world (f : Z -> Z) (size : Z) (sector : positive) (script : list transfer) : world mem_disk :=
  mkWorld (mkMem f size sector 0 script 0 0xCD) 0 0 false 512.

Lemma drive_world_rewinds f size sector script : rewinds (drive_world f size sector script).
Proof. intros r d [= <- <-]. by eexists. Qed.

Lemma drive_world_fits f size sector script T : sectors_end (Z.pos sector) T <= size ->
  drive_fits (Z.pos sector) T (machine (drive_world f size sector script)).
Proof. by split. Qed.

(** C5: With fast zeroing a failure to read is not told: on any drive whose first read
    fails [WriteDrive] returns FALSE without setting [ErrorStatus], [FormatThread] does
    not look at the result, and the user is told that the erasure is complete, while the
    drive has kept all of its content. *)
Theorem fast_zeroing_failure_hidden image_read f size sector err :
  512 <= Z.pos sector <= DD_BUFFER_SIZE -> 0 < size < 2 ^ 63 ->
  exists w', erase_drive (Z.pos sector) size image_read true (drive_world f size sector [Fails err]) = (Completed, w') /\
    forall z, content w' z = f z.
Proof.
  intros Hss Hsize. unfold erase_drive, WriteDrive. rewrite (bool_decide_false (Z.pos sector < 512)) by lia.
  unfold zero_drive, drive_fuel. cbn [zero_loop]. rewrite (bool_decide_true (0 < size)) by lia. cbn [negb].
  unfold look_at_block. eexists. split; [reflexivity|]. done.
Qed.

(** ** A 64 MB drive *)

Definition small_size : Z := 64 * MB.
Definition no_reads (i : nat) (off n : Z) : async_outcome := mkAsync false 0 [] false false 0 [].

(** An image of 40 MB whose reads work, some of them at once. *)
Definition test_image (z : Z) : Z := z mod 253.
Definition test_reads (i : nat) (off n : Z) : async_outcome :=
  mkAsync (Nat.even i) ERROR_IO_PENDING [] true true 0 (bytes_at test_image off (Z.to_nat n)).

Abbreviation small_drive := (drive_world (fun z => z mod 251) small_size 512).

Lemma zero_drive_erases_witness :
  let w := small_drive [Works; Fails 29; Short 512] in
  exists r w', WriteDrive 512 small_size no_reads None false w = (Ended r, w') /\
    (forall z, ~ (0 <= z < sectors_end 512 small_size) -> content w' z = content w z) /\
    (r = true -> forall z, 0 <= z < small_size -> content w' z = 0) /\
    (untroubled w -> drive_fits 512 small_size (machine w) -> r = true).
Proof.
  intros w. refine (zero_drive_erases 512 small_size _ _ no_reads w _).
  - unfold DD_BUFFER_SIZE, MB. lia.
  - unfold small_size, MB. lia.
  - apply drive_world_rewinds.
Defined.

Lemma fast_zeroing_erases_witness :
  let w := small_drive [Works; Fails 29] in
  exists r w', WriteDrive 512 small_size no_reads None true w = (Ended r, w') /\
    (forall z, ~ (0 <= z < sectors_end 512 small_size) -> content w' z = content w z) /\
    (r = true -> drive_erased 512 small_size true w') /\
    (untroubled w -> drive_fits 512 small_size (machine w) -> r = true).
Proof.
  intros w. refine (fast_zeroing_erases 512 small_size _ _ no_reads w _ _ _).
  - unfold DD_BUFFER_SIZE, MB. lia.
  - unfold small_size, MB. lia.
  - by exists 128.
  - intros z. unfold is_byte. cbn. pose proof (Z.mod_pos_bound z 251). lia.
  - apply drive_world_rewinds.
Defined.


Lemma compressed_image_written_witness :
  let w := small_drive [] in let output := [replicate 700 1; []; replicate 100 2; replicate 1024 3] in
  exists w', WriteDrive 512 small_size no_reads (Some (Compressed output 1824, 0, true)) false w = (Ended true, w') /\
    bytes_at (content w') 0 (length (concat output)) = concat output /\
    (forall z, ~ (0 <= z < sectors_end 512 (sizeof (concat output))) -> content w' z = content w z).
Proof.
  intros w output. refine (compressed_image_written 512 small_size _ output 1824 0 no_reads false w _ _ _ _ _ _).
  - unfold DD_BUFFER_SIZE, MB. lia.
  - unfold KB. lia.
  - repeat constructor; vm_compute; congruence.
  - lia.
  - apply drive_world_rewinds.
  - by split.
  - apply drive_world_fits. vm_compute. congruence.
Defined.

Lemma fast_zeroing_failure_hidden_witness :
  exists w', erase_drive 512 small_size no_reads true (small_drive [Fails 23]) = (Completed, w') /\
    forall z, content w' z = z mod 251.
Proof.
  refine (fast_zeroing_failure_hidden no_reads (fun z => z mod 251) small_size 512 23 _ _).
  - unfold DD_BUFFER_SIZE, MB. lia.
  - unfold small_size, MB. lia.
Defined.
