(* ===== verification/Analyze.v ===== *)
(** Analyze: what the drive.c functions [AnalyzeMBR] and [AnalyzePBR] tell of the
    boot record of a drive or of a volume. The name that they log is the
    second component of the result. *)

From stdpp Require Import strings.
From S2P Require Import Prelude Disk BootRecords Format.

#[local] Open Scope prog_scope.

Section analyze.
Context {D : Type} `{Os D} (s : settings).

Definition known_mbr : list ((Z -> prog D bool) * string) :=
  [ (is_dos_mbr, "DOS/NT/95A"); (is_dos_f2_mbr, "DOS/NT/95A (F2)");
    (is_95b_mbr, "Windows 95B/98/98SE/ME"); (is_2000_mbr, "Windows 2000/XP/2003");
    (is_vista_mbr, "Windows Vista"); (is_win7_mbr, "Windows 7"); (is_rufus_mbr, "Rufus");
    (is_syslinux_mbr, "Syslinux"); (is_reactos_mbr, "ReactOS"); (is_kolibrios_mbr, "KolibriOS");
    (is_grub4dos_mbr, "Grub4DOS"); (is_grub2_mbr, "Grub 2.0");
    (is_zero_mbr_not_including_disk_signature_or_copy_protect, "Zeroed") ]%string.

(** The loop over a table of known records, on the fake file of offset 0. *)
Fixpoint first_known (known : list ((Z -> prog D bool) * string)) : prog D (option string) :=
  match known with
  | [] => mret None
  | (fn, str) :: known => r ← fn 0; if r : bool then mret (Some str) else first_known known
  end.

Definition AnalyzeMBR : prog D (bool * option string) :=
  _ ← set_bytes_per_sector (SectorSize s);
  br ← is_br 0;
  if negb br then mret (false, None)
  else name ← first_known known_mbr; mret (true, name).

Definition known_pbr : list ((Z -> prog D bool) * string) :=
  [ (entire_fat_16_br_matches, "FAT16 DOS"); (entire_fat_16_fd_br_matches, "FAT16 FreeDOS");
    (entire_fat_16_ros_br_matches, "FAT16 ReactOS"); (entire_fat_32_br_matches, "FAT32 DOS");
    (entire_fat_32_nt_br_matches, "FAT32 NT"); (entire_fat_32_fd_br_matches, "FAT32 FreeDOS");
    (entire_fat_32_ros_br_matches, "FAT32 ReactOS"); (entire_fat_32_kos_br_matches, "FAT32 KolibriOS") ]%string.

Definition AnalyzePBR : prog D (bool * option string) :=
  _ ← set_bytes_per_sector (SectorSize s);
  br ← is_br 0;
  if negb br then mret (false, None)
  else
    fat ← is_fat_16_br 0 || is_fat_32_br 0;
    if fat : bool then name ← first_known known_pbr; mret (true, name) else mret (true, None).
End analyze.
