(* ===== verification/AnalyzeProps.v ===== *)
(** AnalyzeProps: [WriteMBR] (Format.v) and what [AnalyzeMBR] (Analyze.v) tells of
    its result; what [AnalyzePBR] tells of the partition boot records (BootRecords.v). *)

From stdpp Require Import strings.
From S2P Require Import Prelude Disk DiskCorrect MemDisk BootData BootRecords BootRecordsCorrect BootRecordsProps MbrProps Format Fat32 Fat32Correct Analyze.

(** ** Telling records apart *)

(** The byte of the pieces at position [z], from the first piece that has one. *)
Fixpoint byte_at (ps : list piece) (z : Z) : option Z :=
  match ps with
  | [] => None
  | (p, bs) :: ps => if bool_decide (p <= z < p + sizeof bs) then bs !! Z.to_nat (z - p) else byte_at ps z
  end.

Lemma byte_at_content f ps z b : has_pieces f 0 ps -> byte_at ps z = Some b -> f z = b.
Proof.
  induction 1 as [|[p bs] ps Hp Hps IH]; cbn [byte_at]; [done|]. case_bool_decide as Hz; [|done].
  intros Hb. unfold has_piece in Hp. cbn [fst snd] in Hp. rewrite Z.add_0_r in Hp.
  rewrite <- Hp in Hb. apply lookup_bytes_at_Some in Hb as [_ ->]. f_equal. lia.
Qed.

(** Two sets of pieces that differ in one of the first 512 bytes. *)
Definition conflict (ps qs : list piece) : bool :=
  existsb (fun i => let z := Z.of_nat i in
    match byte_at ps z, byte_at qs z with
    | Some a, Some b => negb (bool_decide (a = b))
    | _, _ => false
    end) (seq 0 512).

Lemma conflict_spec f ps qs : conflict ps qs = true -> has_pieces f 0 ps -> ~ has_pieces f 0 qs.
Proof.
  intros (i & _ & Hi)%existsb_exists Hps Hqs. cbv zeta in Hi.
  destruct (byte_at ps _) as [a|] eqn:Ha; [|done]. destruct (byte_at qs _) as [b|] eqn:Hb; [|done].
  apply negb_true_iff, bool_decide_eq_false in Hi. apply Hi.
  by rewrite <- (byte_at_content f ps _ a Hps Ha), <- (byte_at_content f qs _ b Hqs Hb).
Qed.

(** ** The table of known records *)

(** What each check looks for. *)
Definition known_mbr_pieces : list (list piece * string) :=
  [ (mbr_checked MbrDos, "DOS/NT/95A"); ([(0, mbr_dos_f2_0x0); mark 0], "DOS/NT/95A (F2)");
    (mbr_checked Mbr95b, "Windows 95B/98/98SE/ME"); (mbr_checked Mbr2000, "Windows 2000/XP/2003");
    (mbr_checked MbrVista, "Windows Vista"); (mbr_checked MbrWin7, "Windows 7");
    (mbr_checked MbrRufus, "Rufus"); (mbr_checked MbrSyslinux, "Syslinux");
    (mbr_checked MbrReactos, "ReactOS"); (mbr_checked MbrKolibrios, "KolibriOS");
    (mbr_checked MbrGrub4dos, "Grub4DOS"); (mbr_checked MbrGrub2, "Grub 2.0");
    ([(0, take 0x1b8 mbr_zero_0x0)], "Zeroed") ]%string.

(** The name of the first entry whose pieces are there. *)
Fixpoint first_name (known : list (list piece * string)) (f : Z -> Z) : option string :=
  match known with
  | [] => None
  | (ps, str) :: known => if bool_decide (has_pieces f 0 ps) then Some str else first_name known f
  end.

(** The name that the table gives to [ps]: the entries before it conflict with [ps],
    and its own pieces are a part of [ps]. *)
Fixpoint names (known : list (list piece * string)) (ps : list piece) : option (option string) :=
  match known with
  | [] => Some None
  | (qs, str) :: known => if covered ps qs then Some (Some str) else if conflict ps qs then names known ps else None
  end.

Lemma names_spec known ps f r : names known ps = Some r -> has_pieces f 0 ps -> first_name known f = r.
Proof.
  intros Hn Hps. revert Hn. induction known as [|[qs str] known IH]; cbn [names first_name]; [by intros [= <-]|].
  destruct (covered ps qs) eqn:Hcov.
  - intros [= <-]. pose proof (has_pieces_covered f 0 ps qs Hcov Hps). by rewrite bool_decide_true.
  - destruct (conflict ps qs) eqn:Hcon; [|done]. intros Hn.
    pose proof (conflict_spec f ps qs Hcon Hps). rewrite bool_decide_false by done. by apply IH.
Qed.

(** The name of a record in the table; the message for a GPT and the Syslinux record
    for a GPT are not there. *)
Definition mbr_name (k : mbr_kind) : option string :=
  match k with
  | MbrDos => Some "DOS/NT/95A" | Mbr95b => Some "Windows 95B/98/98SE/ME"
  | Mbr2000 => Some "Windows 2000/XP/2003" | MbrVista => Some "Windows Vista"
  | MbrWin7 => Some "Windows 7" | MbrRufus => Some "Rufus" | MbrRufusMsg => None
  | MbrReactos => Some "ReactOS" | MbrKolibrios => Some "KolibriOS" | MbrSyslinux => Some "Syslinux"
  | MbrSyslinuxGpt => None | MbrGrub4dos => Some "Grub4DOS" | MbrGrub2 => Some "Grub 2.0"
  | MbrZero => Some "Zeroed"
  end%string.

Lemma names_known k : names known_mbr_pieces (mbr_code k ++ [mark 0]) = Some (mbr_name k).
Proof. destruct k; vm_compute; reflexivity. Qed.

(** ** The record that [WriteMBR] chooses *)

Definition windows_kind (s : settings) : mbr_kind :=
  if orb (needs_masquerading s) (use_rufus_mbr s) then MbrRufus else MbrWin7.

Definition selected_mbr (s : settings) : mbr_kind :=
  let image := bool_decide (boot s = BT_IMAGE) in
  let r := img_report s in
  if bool_decide (partition_type s = PARTITION_STYLE_GPT) then MbrRufusMsg
  else if image && (HAS_WINDOWS r && (allow_dual_uefi_bios s && bool_decide (target s = TT_BIOS))) then windows_kind s
  else if bool_decide (boot s = BT_NON_BOOTABLE) || bool_decide (target s = TT_UEFI) then MbrZero
  else if bool_decide (boot s = BT_SYSLINUX_V4) || (bool_decide (boot s = BT_SYSLINUX_V6) || image && HAS_SYSLINUX r)
  then MbrSyslinux
  else if image && has_grub2 r || bool_decide (boot s = BT_GRUB2) then MbrGrub2
  else if image && has_grub4dos r || bool_decide (boot s = BT_GRUB4DOS) then MbrGrub4dos
  else if bool_decide (boot s = BT_REACTOS) then MbrReactos
  else if image && (HAS_KOLIBRIOS r && IS_FAT (global_fs_type s)) then MbrKolibrios
  else windows_kind s.

Lemma write_selected_mbr_eq {D} `{Os D} s : partition_type s ≠ PARTITION_STYLE_GPT ->
  write_selected_mbr (D := D) s = write_mbr (selected_mbr s) 0.
Proof.
  intros Hp. unfold write_selected_mbr, selected_mbr, windows_mbr, windows_kind.
  rewrite (bool_decide_false _ Hp). by repeat case_match.
Qed.

(** The byte of the partition table at [z] that was [b]. *)
Definition table_byte (s : settings) (z b : Z) : Z :=
  if bool_decide (partition_type s = PARTITION_STYLE_GPT) then b
  else if bool_decide (z = 0x1be) && (negb (bool_decide (boot s = BT_NON_BOOTABLE)) && bool_decide (target s = TT_BIOS))
  then (if needs_masquerading s then 0x81 else 0x80)
  else if bool_decide (z = 0x1c2) then
    match fs_selected s with FS_FAT16 => 0x0e | FS_FAT32 => 0x0c | _ => b end
  else b.

Lemma patch_partition_entry_lookup s buffer i b :
  partition_type s ≠ PARTITION_STYLE_GPT -> buffer !! i = Some b ->
  patch_partition_entry s buffer !! i = Some (table_byte s (Z.of_nat i) b).
Proof.
  intros Hp Hb. assert (Hlen := lookup_lt_Some _ _ _ Hb).
  unfold patch_partition_entry, table_byte. rewrite (bool_decide_false _ Hp).
  set (boots := _ && _). set (v := if needs_masquerading s then _ else _).
  set (buf := match fs_selected s with FS_FAT16 => _ | FS_FAT32 => _ | _ => _ end).
  assert (Hbuf : buf !! i = Some (if bool_decide (Z.of_nat i = 0x1c2)
    then match fs_selected s with FS_FAT16 => 0x0e | FS_FAT32 => 0x0c | _ => b end else b)).
  { destruct (decide (i = 450%nat)) as [->|Hi].
    - rewrite bool_decide_true by lia. unfold buf. destruct (fs_selected s); try done; by rewrite list_lookup_insert_eq.
    - rewrite bool_decide_false by lia. unfold buf.
      destruct (fs_selected s); try done; by rewrite list_lookup_insert_ne by lia. }
  assert (Hl2 : length buf = length buffer) by (unfold buf; destruct (fs_selected s); by rewrite ?length_insert).
  destruct boots; [|by rewrite andb_false_r]. rewrite andb_true_r.
  destruct (decide (i = 446%nat)) as [->|Hi].
  - rewrite list_lookup_insert_eq by lia. by rewrite bool_decide_true by lia.
  - rewrite list_lookup_insert_ne by lia. by rewrite Hbuf, (bool_decide_false (Z.of_nat i = 446)) by lia.
Qed.

Lemma length_patch_partition_entry s buffer : length (patch_partition_entry s buffer) = length buffer.
Proof. unfold patch_partition_entry. repeat case_match; by rewrite ?length_insert. Qed.

(** ** The loop over a table *)

Section table.
Context {D : Type} `{OsLaws D}.
Implicit Types w : world D.

Definition known_ok bps limit (known : list ((Z -> prog D bool) * string)) (pieces : list (list piece * string)) : Prop :=
  Forall2 (fun c p => checks (D := D) bps 0 limit (c.1 0) p.1 /\ c.2 = p.2) known pieces.

Lemma first_known_spec bps limit known pieces w :
  known_ok bps limit known pieces -> region bps w 0 limit ->
  wp (first_known known) w (fun r w' => looked w w' /\ r = first_name pieces (content w)).
Proof.
  intros Hk. revert w. induction Hk as [|[fn str] [ps str'] known pieces [Hc Heq] Hk IH]; intros w Hreg; cbn.
  { by apply wp_ret. }
  cbn in Heq. subst str'. step. eapply wp_mono; [by apply Hc|]. intros r w1 [-> Hl1]. cbn [fst snd].
  case_bool_decide; [by step|].
  eapply wp_mono; [apply IH; eapply region_keeps; [apply Hl1|done]|]. intros r w2 [Hl2 ->].
  split; [by etransitivity|]. clear -Hl1. induction pieces as [|[qs str'] pieces IH]; cbn; [done|].
  rewrite IH. by rewrite (bool_decide_ext _ (has_pieces (content w) 0 qs));
    [|split; apply has_pieces_proper; [apply Hl1|symmetry; apply Hl1]].
Qed.

End table.

(** ** The calls *)

Section props.
Context {D : Type} `{OsLaws D} (s : settings) (n : nat).
Implicit Types w : world D.
Abbreviation ss := (SectorSize s).
Context (Hss : ss = 0x200 * Z.of_nat n) (Hn : (0 < n)%nat) (Hmax : ss <= 65536).

(** The first sector of the disk can be accessed. *)
Definition first_sector w : Prop :=
  reliable (machine w) /\ (disk_sector (machine w) | ss) /\ ss <= disk_size (machine w).

Lemma first_sector_keeps w w' : keeps w w' -> first_sector w -> first_sector w'.
Proof.
  intros ((Hsz & Hsec & Hr) & _) (? & ? & ?). unfold first_sector. rewrite Hsz, Hsec. auto.
Qed.

Lemma first_sector_region w :
  first_sector w -> ulBytesPerSector w = ss -> region ss w 0 ss.
Proof.
  intros (Hr & Hsec & Hsz) Hul. unfold region, MAX_DATA_LEN.
  split_and!; try done; try lia; apply Z.divide_0_r.
Qed.

Lemma set_sector_size w :
  first_sector w -> region ss (set_ulBytesPerSector
    (if orb (bool_decide (ss < 512)) (bool_decide (ss > 65536)) then 512 else ss) w) 0 ss.
Proof.
  intros Hf. rewrite !bool_decide_false by lia. cbn [orb]. apply first_sector_region; [exact Hf|done].
Qed.

Lemma known_mbr_ok : known_ok (D := D) ss ss known_mbr known_mbr_pieces.
Proof.
  assert (Hm : forall k, checks (D := D) ss 0 ss (is_mbr k 0) (mbr_checked k)) by (intros; apply is_mbr_checks; lia).
  unfold known_mbr, known_mbr_pieces.
  repeat first [apply Forall2_nil_2 | apply Forall2_cons_2; [split; [|reflexivity]|]]; cbn [fst].
  - exact (Hm MbrDos).
  - apply (checks_and_then _ _ _ _ _ [(0, mbr_dos_f2_0x0)]); [|apply is_br_checks; lia].
    apply contains_data_checks_all; [done|]. unfold within. cbn. lia.
  - exact (Hm Mbr95b).
  - exact (Hm Mbr2000).
  - exact (Hm MbrVista).
  - exact (Hm MbrWin7).
  - exact (Hm MbrRufus).
  - exact (Hm MbrSyslinux).
  - exact (Hm MbrReactos).
  - exact (Hm MbrKolibrios).
  - exact (Hm MbrGrub4dos).
  - exact (Hm MbrGrub2).
  - assert (Hw : within 512 (0, take (Z.to_nat 0x1b8) mbr_zero_0x0))
      by (apply (bool_decide_unpack _); vm_compute; exact I).
    apply (contains_data_checks ss 0 ss 0 mbr_zero_0x0 0x1b8); [done|done| |vm_compute; discriminate].
    unfold within in *. lia.
Qed.

Lemma AnalyzeMBR_spec k w :
  first_sector w -> has_pieces (content w) 0 (mbr_code k ++ [mark 0]) ->
  wp (AnalyzeMBR s) w (fun r w' => r = (true, mbr_name k)).
Proof.
  intros Hf Hps. unfold AnalyzeMBR, set_bytes_per_sector. step. step.
  pose proof (set_sector_size w Hf) as Hreg. set (w1 := set_ulBytesPerSector _ w) in *.
  step. eapply wp_mono; [apply (is_br_checks 0 ss); [done|lia|exact Hreg]|]. intros r w2 [-> Hl2].
  rewrite bool_decide_true by (by apply Forall_app in Hps as [_ ?]). cbn [negb].
  step. eapply wp_mono; [apply (first_known_spec ss ss known_mbr known_mbr_pieces);
    [apply known_mbr_ok|eapply region_keeps; [apply Hl2|done]]|].
  intros r w3 [_ ->]. step. f_equal. apply (names_spec _ (mbr_code k ++ [mark 0])); [apply names_known|].
  eapply has_pieces_proper; [|exact Hps]. symmetry. apply Hl2.
Qed.

(** Reading the first sector, then writing it back changed by [f]. *)
Lemma read_sector_spec buffer w : first_sector w -> length buffer = Z.to_nat ss ->
  wp (read_sectors ss 0 1 buffer) w (fun '(r, buf) w' =>
    looked w w' /\ r = ss /\ buf = bytes_at (content w) 0 (Z.to_nat ss)).
Proof.
  intros (Hr & Hsec & Hsz) Hlen.
  eapply wp_mono; [apply read_sectors_spec; [split; lia|lia]|].
  intros [r buf] w' (Hl & _ & Hbuf & Hgood). rewrite Z.mul_1_l, Z.mul_0_l in *.
  assert (Hrs : r = ss) by (apply Hgood; [done|split_and!; [apply Z.divide_0_r|done|lia]]).
  rewrite Hrs in Hbuf |- *.
  split_and!; [done|done|]. rewrite Hbuf. unfold splice. rewrite take_0, app_nil_l, length_bytes_at.
  by rewrite drop_ge, app_nil_r by lia.
Qed.

Lemma write_sector_spec buffer w : first_sector w -> length buffer = Z.to_nat ss ->
  wp (write_sectors ss 0 1 buffer) w (fun r w' =>
    r = ss /\ keeps w w' /\ same_content (content w') (patch (content w) 0 buffer)).
Proof.
  intros (Hr & Hsec & Hsz) Hlen.
  eapply wp_mono; [apply write_sectors_spec; [split; lia|lia]|]. cbv zeta.
  rewrite Z.mul_1_l, Z.mul_0_l, <- Hlen, firstn_all.
  intros r w' ((Hk & _ & Hc) & _ & Hgood).
  destruct Hgood as [-> _]; [done|split_and!; [apply Z.divide_0_r|done|lia]|]. split_and!; auto.
Qed.

(** The content after the partition entry was corrected. *)
Definition corrected (f : Z -> Z) : Z -> Z := fun z =>
  if bool_decide (0 <= z < ss) then table_byte s z (f z) else f z.

Lemma corrected_patch f : partition_type s ≠ PARTITION_STYLE_GPT ->
  same_content (corrected f) (patch f 0 (patch_partition_entry s (bytes_at f 0 (Z.to_nat ss)))).
Proof.
  intros Hp. apply patch_eq; rewrite ?length_patch_partition_entry, ?length_bytes_at.
  - intros z Hz. unfold corrected. by rewrite bool_decide_false by lia.
  - intros i b Hi. assert (Hlen := lookup_lt_Some _ _ _ Hi).
    rewrite length_patch_partition_entry, length_bytes_at in Hlen.
    rewrite (patch_partition_entry_lookup _ _ _ _ Hp (lookup_bytes_at f 0 _ i Hlen)) in Hi.
    injection Hi as <-. unfold corrected. rewrite bool_decide_true by lia. done.
Qed.

Lemma write_kind_spec k w : first_sector w ->
  wp (_ ← set_bytes_per_sector ss; write_mbr k 0) w (fun r w' => r = true /\
    first_sector w' /\ same_content (content w') (patches (content w) 0 (mbr_pieces k n))).
Proof.
  intros Hf. unfold set_bytes_per_sector. step. step.
  eapply wp_mono; [apply (write_mbr_stores k 0 ss n); [done|done|done|by apply set_sector_size]|].
  intros r w' (-> & Hk & Hc). split_and!; [done| |exact Hc].
  eapply first_sector_keeps; [exact Hk|]. exact Hf.
Qed.

Lemma WriteMBR_spec w : first_sector w ->
  wp (WriteMBR s) w (fun r w' => r = true /\ first_sector w' /\
    same_content (content w') (patches (corrected (content w)) 0 (mbr_pieces (selected_mbr s) n))).
Proof.
  intros Hf. unfold WriteMBR. rewrite bool_decide_false by lia.
  destruct (decide (partition_type s = PARTITION_STYLE_GPT)) as [Hg|Hg].
  - rewrite bool_decide_true by done.
    assert (Hk : selected_mbr s = MbrRufusMsg) by (unfold selected_mbr; by rewrite bool_decide_true). rewrite Hk.
    eapply wp_mono; [by apply (write_kind_spec MbrRufusMsg)|]. intros r w' (-> & Hf' & Hc).
    split_and!; [done|done|]. intros z. rewrite (Hc z). apply patches_proper; [|done..].
    intros y. unfold corrected, table_byte. rewrite (bool_decide_true _ Hg). by case_bool_decide.
  - rewrite bool_decide_false by done. step. eapply wp_mono; [apply malloc_spec|].
    intros b w1 (Hl1 & Hlen & Hb). destruct (Hb (proj1 Hf)) as [buffer ->]. specialize (Hlen _ eq_refl).
    assert (Hf1 : first_sector w1) by (eapply first_sector_keeps; [apply Hl1|done]).
    step. eapply wp_mono; [by apply read_sector_spec|]. intros [r buf] w2 (Hl2 & -> & Hbuf).
    rewrite bool_decide_false by lia.
    assert (Hf2 : first_sector w2) by (eapply first_sector_keeps; [apply Hl2|done]).
    assert (Hlbuf : length (patch_partition_entry s buf) = Z.to_nat ss)
      by (by rewrite length_patch_partition_entry, Hbuf, length_bytes_at).
    step. eapply wp_mono; [by apply write_sector_spec|]. intros r w3 (-> & Hk3 & Hc3).
    rewrite bool_decide_false by lia. rewrite write_selected_mbr_eq by done.
    eapply wp_mono; [apply (write_kind_spec (selected_mbr s) w3); by eapply first_sector_keeps|].
    intros r w4 (-> & Hf4 & Hc4). split_and!; [done|done|]. intros z. rewrite (Hc4 z).
    apply patches_proper; [|done..]. intros y. rewrite (Hc3 y).
    rewrite (patch_proper _ (content w) (proj2 (transitivity Hl1 Hl2)) _ _ eq_refl _ _ eq_refl y).
    rewrite (corrected_patch (content w) Hg y). rewrite Hbuf.
    by rewrite (bytes_at_proper _ (content w) (proj2 Hl1) _ _ eq_refl _ _ eq_refl).
Qed.
End props.

(** C17: Writing the master boot record and then analysing it, on a machine whose
    accesses succeed and a disk with sectors of [n] times 512 bytes: [WriteMBR]
    succeeds, [AnalyzeMBR] then finds the drive bootable and gives the name of
    the record that the settings call for - no other entry of its table
    matches before - and the partition table has the bytes it had, but for
    the type of the first partition, which becomes FAT16 or FAT32 LBA, and its
    boot indicator, 0x80, or 0x81 for a record that masquerades, when a BIOS
    boots from it. A GPT disk keeps its whole table. Every later sector keeps
    its bytes, and so does the disk signature unless the record is the zeroed
    one. *)
Theorem write_mbr_analyzed {D : Type} `{OsLaws D} s (n : nat) (w : world D) :
  SectorSize s = 0x200 * Z.of_nat n -> (0 < n)%nat -> SectorSize s <= 65536 -> first_sector s w ->
  exists w1 w2,
    WriteMBR s w = (true, w1) /\
    AnalyzeMBR s w1 = ((true, mbr_name (selected_mbr s)), w2) /\
    (forall z, 0x1be <= z < 0x1fe -> content w1 z = table_byte s z (content w z)) /\
    (forall z, SectorSize s <= z -> content w1 z = content w z) /\
    (selected_mbr s ≠ MbrZero -> forall z, 0x1b8 <= z < 0x1be -> content w1 z = content w z).
Proof.
  intros Hss Hn Hmax Hf.
  destruct (wp_eval _ _ _ (WriteMBR_spec s n Hss Hn Hmax w Hf)) as (r & w1 & Hrun & -> & Hf1 & Hc).
  assert (Hps : has_pieces (content w1) 0 (mbr_code (selected_mbr s) ++ [mark 0])).
  { eapply has_pieces_proper; [symmetry; exact Hc|].
    pose proof (has_pieces_mbr (corrected s (content w)) (selected_mbr s) n) as Hall.
    apply Forall_app in Hall as [Hcode Hmarks]. apply Forall_app. split; [exact Hcode|].
    destruct n as [|n']; [lia|]. constructor; [|constructor]. by apply Forall_inv in Hmarks. }
  destruct (wp_eval _ _ _ (AnalyzeMBR_spec s n Hss Hn Hmax (selected_mbr s) w1 Hf1 Hps)) as (r & w2 & Ha & ->).
  exists w1, w2. split; [exact Hrun|]. split; [exact Ha|].
  assert (Hout : forall z, outside (mbr_pieces (selected_mbr s) n) z -> content w1 z = corrected s (content w) z).
  { intros z Hz. rewrite (Hc z). apply patches_outside. by rewrite Z.sub_0_r. }
  split; [|split].
  - intros z Hz. rewrite Hout by (apply mbr_pieces_outside; [case_bool_decide; lia|done]).
    unfold corrected. by rewrite bool_decide_true by lia.
  - intros z Hz. rewrite Hout by (apply mbr_pieces_outside; [lia|done]).
    unfold corrected. by rewrite bool_decide_false by lia.
  - intros Hk z Hz. rewrite Hout by (apply mbr_pieces_outside; [rewrite bool_decide_false by done; lia|done]).
    unfold corrected, table_byte. rewrite bool_decide_true by lia.
    rewrite (bool_decide_false (z = 0x1be)), (bool_decide_false (z = 0x1c2)) by lia. by case_bool_decide.
Qed.

Lemma fat32_volume_first_sector b fs : first_sector (sample_settings b fs) fat32_volume.
Proof. split_and!; [done|by exists 1|done]. Qed.

Lemma write_mbr_analyzed_witness :
  let s := sample_settings BT_FREEDOS FS_FAT32 in
  exists w1 w2,
    WriteMBR s fat32_volume = (true, w1) /\
    AnalyzeMBR s w1 = ((true, Some "Windows 7"%string), w2) /\
    (forall z, 0x1be <= z < 0x1fe -> content w1 z = table_byte s z (content fat32_volume z)) /\
    (forall z, 512 <= z -> content w1 z = content fat32_volume z) /\
    (selected_mbr s ≠ MbrZero -> forall z, 0x1b8 <= z < 0x1be -> content w1 z = content fat32_volume z).
Proof.
  refine (write_mbr_analyzed (sample_settings BT_FREEDOS FS_FAT32) 1 fat32_volume _ _ _ _).
  - reflexivity.
  - lia.
  - vm_compute. discriminate.
  - apply fat32_volume_first_sector.
Defined.

Definition known_pbr_pieces : list (list piece * string) :=
  [ (br_code Fat16, "FAT16 DOS"); (br_code Fat16Fd, "FAT16 FreeDOS"); (br_code Fat16Ros, "FAT16 ReactOS");
    (br_code Fat32, "FAT32 DOS"); (br_code Fat32Nt, "FAT32 NT"); (br_code Fat32Fd, "FAT32 FreeDOS");
    (br_code Fat32Ros, "FAT32 ReactOS"); (br_code Fat32Kos, "FAT32 KolibriOS") ]%string.

(** The OEM name that a FAT record must have to be looked up. *)
Definition msdos_name : piece := (0x03, [0x4d; 0x53; 0x57; 0x49; 0x4e; 0x34; 0x2e; 0x31]).

(** The name that is found. The FAT16 ReactOS record has another OEM name, so that its
    entry of the table is never reached, and the PE record has no entry. *)
Definition pbr_name (k : boot_kind) : option string :=
  match k with
  | Fat16 => Some "FAT16 DOS" | Fat16Fd => Some "FAT16 FreeDOS" | Fat16Ros => None
  | Fat32 => Some "FAT32 DOS" | Fat32Fd => Some "FAT32 FreeDOS" | Fat32Nt => Some "FAT32 NT"
  | Fat32Pe => None | Fat32Ros => Some "FAT32 ReactOS" | Fat32Kos => Some "FAT32 KolibriOS"
  | Fat12 | Ntfs => None
  end%string.

(** All that is needed of the tables: the boot mark is there; the OEM name is there,
    and then the table gives the name, or it is not, and there is no name. *)
Definition pbr_ok (k : boot_kind) (keep : bool) : bool :=
  let ps := br_pieces k keep in
  covered ps [mark 0] &&
  (covered ps [msdos_name] && bool_decide (names known_pbr_pieces ps = Some (pbr_name k)) ||
   conflict ps [msdos_name] && bool_decide (pbr_name k = None)).

Lemma pbr_ok_all k keep : pbr_ok k keep = true.
Proof. destruct k, keep; vm_compute; reflexivity. Qed.

Section props.
Context {D : Type} `{OsLaws D} (s : settings).
Implicit Types w : world D.
Abbreviation ss := (SectorSize s).
Context (Hss : ss = 512 \/ ss = 1024 \/ ss = 2048 \/ ss = 4096).

Lemma is_fat_16_br_checks : checks (D := D) ss 0 BR_LIMIT (is_fat_16_br 0) [mark 0; msdos_name].
Proof.
  apply (checks_and_then _ _ _ _ _ [mark 0] [msdos_name]);
    (apply contains_data_checks_all; [done|apply (bool_decide_unpack _); vm_compute; exact I]).
Qed.

Lemma is_br_checks_pbr : checks (D := D) ss 0 BR_LIMIT (is_br 0) [mark 0].
Proof. apply contains_data_checks_all; [done|]. apply (bool_decide_unpack _). vm_compute. exact I. Qed.

Lemma known_pbr_ok :
  Forall2 (fun c p => checks (D := D) ss 0 BR_LIMIT (c.1 0) p.1 /\ c.2 = p.2) known_pbr known_pbr_pieces.
Proof.
  unfold known_pbr, known_pbr_pieces.
  repeat first [apply Forall2_nil_2 | apply Forall2_cons_2; [split; [|reflexivity]|]]; cbn [fst].
  - exact (br_matches_checks ss 0 ltac:(done) Fat16).
  - exact (br_matches_checks ss 0 ltac:(done) Fat16Fd).
  - exact (br_matches_checks ss 0 ltac:(done) Fat16Ros).
  - exact (br_matches_checks ss 0 ltac:(done) Fat32).
  - exact (br_matches_checks ss 0 ltac:(done) Fat32Nt).
  - exact (br_matches_checks ss 0 ltac:(done) Fat32Fd).
  - exact (br_matches_checks ss 0 ltac:(done) Fat32Ros).
  - exact (br_matches_checks ss 0 ltac:(done) Fat32Kos).
Qed.

Lemma region_set_size w : region ss w 0 BR_LIMIT -> region ss (set_ulBytesPerSector
  (if orb (bool_decide (ss < 512)) (bool_decide (ss > 65536)) then 512 else ss) w) 0 BR_LIMIT.
Proof.
  intros Hreg. rewrite !bool_decide_false by lia. cbn [orb].
  destruct Hreg as (_ & Hrest). exact (conj eq_refl Hrest).
Qed.

Lemma AnalyzePBR_spec k keep w :
  region ss w 0 BR_LIMIT -> has_pieces (content w) 0 (br_pieces k keep) ->
  wp (AnalyzePBR s) w (fun r _ => r = (true, pbr_name k)).
Proof.
  intros Hreg Hps. pose proof (pbr_ok_all k keep) as Hok. unfold pbr_ok in Hok.
  apply andb_true_iff in Hok as [Hmark Hok]. unfold AnalyzePBR, set_bytes_per_sector. step. step.
  pose proof (region_set_size w Hreg) as Hreg1. set (w1 := set_ulBytesPerSector _ w) in *.
  assert (Hm : has_pieces (content w1) 0 [mark 0]) by (by eapply has_pieces_covered).
  step. eapply wp_mono; [by apply is_br_checks_pbr|]. intros r w2 [-> Hl2].
  rewrite bool_decide_true by done. cbn [negb]. step. apply wp_or_else.
  assert (Hreg2 : region ss w2 0 BR_LIMIT) by (eapply region_keeps; [apply Hl2|done]).
  assert (Hps2 : has_pieces (content w2) 0 (br_pieces k keep))
    by (eapply has_pieces_proper; [symmetry; apply Hl2|exact Hps]).
  eapply wp_mono; [by apply is_fat_16_br_checks|]. intros r w3 [-> Hl3].
  apply orb_true_iff in Hok as [[Hcov Hn]%andb_true_iff|[Hcon Hn]%andb_true_iff]; apply bool_decide_eq_true in Hn.
  - rewrite bool_decide_true.
    2:{ eapply (has_pieces_covered _ _ (br_pieces k keep)); [|exact Hps2]. unfold covered in *. cbn [forallb] in *.
        by rewrite !andb_true_r in *; rewrite Hmark, Hcov. }
    step. eapply wp_mono; [eapply (first_known_spec ss BR_LIMIT); [apply known_pbr_ok|]|].
    { eapply region_keeps; [apply Hl3|done]. }
    intros r w4 [_ ->]. step. f_equal. eapply names_spec; [exact Hn|].
    eapply has_pieces_proper; [symmetry; apply Hl3|exact Hps2].
  - assert (Hno : ~ has_pieces (content w2) 0 [msdos_name]) by (by eapply conflict_spec).
    rewrite bool_decide_false by (intros Hall; apply Hno; by apply (Forall_app _ [_] [_]) in Hall as [_ ?]).
    eapply wp_mono; [apply (is_fat_32_br_checks ss 0); [done|by eapply region_keeps; [apply Hl3|]]|].
    intros r w4 [-> Hl4]. rewrite bool_decide_false.
    2:{ intros Hall. apply Hno. eapply has_pieces_proper; [apply Hl3|].
        apply (Forall_app _ [_; _; _] [_]) in Hall as [_ Hall]. exact Hall. }
    step. by rewrite Hn.
Qed.
End props.

(** Writing any of the eleven partition boot records at the start of a volume, with
    or without its label, and then analysing it, on a machine whose accesses
    succeed and sectors of 512 to 4096 bytes: [AnalyzePBR] finds a boot record
    and gives it its own name, whichever of the entries of its table come
    before. The exceptions are the PE record, which has no entry, and the FAT16
    ReactOS record, whose entry is not reached because its OEM name is not
    the one that the FAT records are told by; like the FAT12 and NTFS
    records they are reported as unknown. *)
Lemma analyze_pbr_names {D : Type} `{OsLaws D} s k bKeepLabel (w : world D) :
  SectorSize s = 512 \/ SectorSize s = 1024 \/ SectorSize s = 2048 \/ SectorSize s = 4096 ->
  region (SectorSize s) w 0 BR_LIMIT ->
  exists w1 w2,
    write_br k 0 bKeepLabel w = (true, w1) /\ AnalyzePBR s w1 = ((true, pbr_name k), w2).
Proof.
  intros Hss Hreg.
  destruct (wp_eval _ _ _ (write_br_stores (SectorSize s) 0 ltac:(done) k bKeepLabel w Hreg))
    as (r & w1 & Hw1 & -> & Hk1 & Hc1).
  assert (Hps : has_pieces (content w1) 0 (br_pieces k bKeepLabel)).
  { eapply has_pieces_proper; [by symmetry|]. apply has_pieces_patches, br_pieces_apart. }
  destruct (wp_eval _ _ _ (AnalyzePBR_spec s Hss k bKeepLabel w1 (region_keeps _ _ _ _ _ Hk1 Hreg) Hps))
    as (r & w2 & Ha & ->).
  by exists w1, w2.
Qed.

Lemma analyze_pbr_names_witness :
  exists w1 w2,
    write_br Fat32Nt 0 false sample_volume = (true, w1) /\
    AnalyzePBR (sample_settings BT_IMAGE FS_FAT32) w1 = ((true, Some "FAT32 NT"%string), w2).
Proof.
  refine (analyze_pbr_names (sample_settings BT_IMAGE FS_FAT32) Fat32Nt false sample_volume _ _).
  - by left.
  - apply sample_volume_region; [by exists 0|by exists 16|done..].
Defined.
