(* ===== verification/Asn1.v ===== *)
(** Asn1: the search of ASN.1 data, [get_data_from_asn1] of src/src/parser.c.

    A pointer into the data is its offset from the start of the block; a read outside
    of the block is [Overread]. A C string is the list of its characters before
    the terminator. [unsigned long] has 32 bits, [size_t] 64. *)

From S2P Require Import Prelude.

(** ** The search *)

(** [data] is the offset and the length of what was found. [NoFuel] is no behaviour
    of the code. *)
Inductive asn1_end := NoFuel | Overread | Stop (ret : bool) (data : option (Z * Z)) (matched : bool).

(** The length of an element and the position after it, or an error. *)
Inductive asn1_length := LengthOverread | LengthError | Length (len pos : Z).

Section search.
Context (buf oid : list Z) (asn1_type : Z).

Definition byte_at (i : Z) : option Z := buf !! Z.to_nat i.

Fixpoint length_bytes (n : nat) (i len : Z) : option Z :=
  match n with
  | O => Some len
  | S n => b ← byte_at i; length_bytes n (i + 1) (Z.shiftl len 8 + b)
  end.

(** In the part of [buf_len] bytes at [base], after the tag. *)
Definition read_length (base buf_len pos : Z) (is_null : bool) : asn1_length :=
  if is_null then Length 0 (pos + 1)
  else match byte_at (base + pos) with
  | None => LengthOverread
  | Some b =>
      let pos := pos + 1 in
      let check len pos := if bool_decide (len > u64 (buf_len - pos)) then LengthError else Length len pos in
      if negb (Z.testbit b 7) then check b pos
      else
        let len_len := Z.land b 0x7F in
        if bool_decide (len_len > 2) then LengthError
        else match length_bytes (Z.to_nat len_len) (base + pos) 0 with
        | None => LengthOverread
        | Some len => check len (pos + len_len)
        end
  end.

(** [get_data_from_asn1_internal] on the [buf_len] bytes at [base], from [pos] on. *)
Fixpoint get_data_internal (fuel : nat) (base buf_len pos : Z) (matched : bool) : asn1_end :=
  match fuel with
  | O => NoFuel
  | S fuel =>
      if negb (bool_decide (pos < buf_len)) then Stop true None matched
      else match byte_at (base + pos) with
      | None => Overread
      | Some b =>
          let is_sequence := Z.testbit b 5 in
          let is_universal_tag := bool_decide (Z.land b 0xC0 = 0) in
          let tag := Z.land b 0x1F in
          if bool_decide (tag = 0x1F) then Stop false None matched
          else match read_length base buf_len (pos + 1) (is_universal_tag && bool_decide (tag = 0x05)) with
          | LengthOverread => Overread
          | LengthError => Stop false None matched
          | Length len pos =>
              if bool_decide (len = 0) then get_data_internal fuel base buf_len pos matched
              else if is_sequence then
                match get_data_internal fuel (base + pos) len 0 matched with
                | Stop true None matched => get_data_internal fuel base buf_len (pos + len) matched
                | r => r
                end
              else if negb is_universal_tag then get_data_internal fuel base buf_len (pos + len) matched
              else if matched then
                if bool_decide (tag = asn1_type) then Stop true (Some (base + pos, len)) matched
                else get_data_internal fuel base buf_len (pos + len) matched
              else if bool_decide (tag = 0x06) && bool_decide (len = Z.of_nat (length oid)) then
                if bool_decide (Z.of_nat (length buf) < base + pos + len) then Overread
                else get_data_internal fuel base buf_len (pos + len)
                       (bool_decide (slice (Z.to_nat (base + pos)) (Z.to_nat len) buf = oid))
              else get_data_internal fuel base buf_len (pos + len) matched
          end
      end
  end.

(** Every turn and every recursion starts further in the block. *)
Definition asn1_fuel : nat := S (S (length buf)).
End search.

(** ** Object identifiers *)

Definition isdigit (c : Z) : bool := bool_decide (48 <= c <= 57).
Definition ULONG_MAX : Z := 0xFFFFFFFF.

(** [strtoul(s, &endp, 10)] on a string that starts with a digit: the value, which
    does not exceed [ULONG_MAX], and the rest. *)
Fixpoint strtoul (val : Z) (s : list Z) : Z * list Z :=
  match s with
  | c :: s' => if isdigit c then strtoul (Z.min ULONG_MAX (val * 10 + (c - 48))) s' else (val, s)
  | [] => (val, [])
  end.

(** The loop of [make_flagged_int]: the bytes that it appends for the shifts. *)
Fixpoint flagged_bytes (shifts : list Z) (more : bool) (value : Z) : list Z :=
  match shifts with
  | [] => [u8 value]
  | shift :: shifts =>
      if more || bool_decide (Z.shiftl 1 shift <= value)
      then u8 (Z.lor 0x80 (Z.shiftr value shift)) ::
           flagged_bytes shifts true (value - Z.shiftl (Z.shiftr value shift) shift)
      else flagged_bytes shifts false value
  end.

Definition make_flagged_int (value : Z) (buf : list Z) : list Z :=
  buf ++ flagged_bytes [28; 21; 14; 7] false value.

(** Both ends have the bytes that have been written. *)
Inductive oid_end := OidNoFuel | OidErr (oid : list Z) | OidStop (arcno : nat) (oid : list Z).

(** The loop of [oid_from_str], with the bytes [oid[0 .. oid_len - 1]]. *)
Fixpoint oid_loop (fuel arcno : nat) (oid_str : list Z) (val1 : Z) (oid : list Z) : oid_end :=
  match fuel with
  | O => OidNoFuel
  | S fuel =>
      let arcno := S arcno in
      match oid_str with
      | [] => OidErr oid
      | c :: _ =>
          if negb (isdigit c) then OidErr oid
          else
            let '(val, endp) := strtoul 0 oid_str in
            let dot := bool_decide (head endp = Some 46) in
            if negb (dot || bool_decide (endp = [])) then OidErr oid
            else
              let next val1 oid := if dot then oid_loop fuel arcno (tail endp) val1 oid else OidStop arcno oid in
              match arcno with
              | 1%nat => if bool_decide (val > 2) then OidStop arcno oid else next val oid
              | 2%nat =>
                  if bool_decide (val1 < 2) then
                    if bool_decide (val > 39) then OidErr oid else next val1 (oid ++ [u8 (val1 * 40 + val)])
                  else next val1 (make_flagged_int (u32 (val + 80)) oid)
              | _ => next val1 (make_flagged_int val oid)
              end
      end
  end.

(** [None] is NULL. The block for the result has [strlen(oid_str) + 3] bytes. *)
Definition oid_from_str (oid_str : list Z) : option (list Z) :=
  if bool_decide (oid_str = []) then None
  else match oid_loop (S (length oid_str)) 0 oid_str 0 [] with
  | OidStop arcno oid =>
      if bool_decide (arcno = 1%nat \/ (length oid < 2)%nat \/ (254 < length oid)%nat) then None else Some oid
  | _ => None
  end.

(** ** [get_data_from_asn1] *)

Inductive asn1_result := Asn1Overread | Asn1OutOfFuel | Asn1Data (data : option (Z * Z)).

(** [oid_str]: [None] is NULL. [buf] is the block of [buf_len] bytes. *)
Definition get_data_from_asn1 (buf : list Z) (oid_str : option (list Z)) (asn1_type : Z) : asn1_result :=
  let matched := bool_decide (default [] oid_str = []) in
  if bool_decide (Z.of_nat (length buf) >= 65536) then Asn1Data None
  else
    let search oid :=
      match get_data_internal buf oid asn1_type (asn1_fuel buf) 0 (Z.of_nat (length buf)) 0 matched with
      | NoFuel => Asn1OutOfFuel
      | Overread => Asn1Overread
      | Stop _ data _ => Asn1Data data
      end in
    if matched then search []
    else match oid_from_str (default [] oid_str) with
    | None => Asn1Data None
    | Some oid => search oid
    end.
