(* ===== verification/Asn1Props.v ===== *)
(** Asn1Props: [get_data_from_asn1] against trees of ASN.1 elements in their
    distinguished encoding (DER), and object identifiers. *)

From S2P Require Import Prelude Asn1.

(** ** Elements and their encoding *)

(** The class (0 is UNIVERSAL), the tag number, and the content or the elements inside. *)
Inductive tlv :=
  | Primitive (cls tag : Z) (content : list Z)
  | Constructed (cls tag : Z) (elements : list tlv).

Definition der_length (n : Z) : list Z :=
  if bool_decide (n < 128) then [n]
  else if bool_decide (n < 256) then [0x81; n] else [0x82; n / 256; n mod 256].

Definition der_header (cls constructed tag : Z) (content : list Z) : list Z :=
  (64 * cls + 32 * constructed + tag) :: der_length (Z.of_nat (length content)) ++ content.

Fixpoint der (t : tlv) : list Z :=
  match t with
  | Primitive cls tag content => der_header cls 0 tag content
  | Constructed cls tag elements => der_header cls 1 tag (concat (der <$> elements))
  end.
Definition der_all (ts : list tlv) : list Z := concat (der <$> ts).

(** Tags below 31; a NULL is empty and primitive. *)
Definition tag_ok (cls tag : Z) : Prop := 0 <= cls < 4 /\ 0 <= tag < 31.

Inductive tlv_ok : tlv -> Prop :=
  | primitive_ok cls tag content : tag_ok cls tag -> (cls = 0 -> tag = 5 -> content = []) ->
      tlv_ok (Primitive cls tag content)
  | constructed_ok cls tag elements : tag_ok cls tag -> ~ (cls = 0 /\ tag = 5) ->
      Forall tlv_ok elements -> tlv_ok (Constructed cls tag elements).

(** ** What is searched *)

Section reference.
Context (oid : list Z) (asn1_type : Z).

(** In order: the first element of the type after the object identifier; whether the
    identifier has been seen. *)
Fixpoint find (t : tlv) (matched : bool) : option (list Z) * bool :=
  match t with
  | Primitive cls tag content =>
      if bool_decide (content = []) || negb (bool_decide (cls = 0)) then (None, matched)
      else if matched then (if bool_decide (tag = asn1_type) then Some content else None, matched)
      else (None, bool_decide (tag = 6) && bool_decide (content = oid))
  | Constructed _ _ elements =>
      (fix find_all ts matched :=
        match ts with
        | [] => (None, matched)
        | t :: ts => match find t matched with (None, matched) => find_all ts matched | r => r end
        end) elements matched
  end.

Fixpoint find_all (ts : list tlv) (matched : bool) : option (list Z) * bool :=
  match ts with
  | [] => (None, matched)
  | t :: ts => match find t matched with (None, matched) => find_all ts matched | r => r end
  end.

Lemma find_constructed cls tag elements matched :
  find (Constructed cls tag elements) matched = find_all elements matched.
Proof.
  cbn [find]. revert matched. induction elements as [|t ts IH]; intros matched; [done|].
  cbn [find_all]. destruct (find t matched) as [[] m]; [done|apply IH].
Qed.
End reference.

(** ** Reading one element *)

Lemma length_der_length n : 0 <= n < 65536 -> (1 <= length (der_length n) <= 3)%nat.
Proof. intros. unfold der_length. repeat case_bool_decide; cbn; lia. Qed.

(** The bit fields of a byte. *)
Definition byte_fields (b : Z) : Prop :=
  Z.testbit b 5 = bool_decide (b / 32 mod 2 = 1) /\ Z.testbit b 7 = bool_decide (128 <= b) /\
  bool_decide (Z.land b 0xC0 = 0) = bool_decide (b < 64) /\
  Z.land b 0x1F = b mod 32 /\ Z.land b 0x7F = b mod 128.

#[export] Instance byte_fields_dec b : Decision (byte_fields b).
Proof. unfold byte_fields. apply _. Defined.

Lemma byte_bits b : is_byte b -> byte_fields b.
Proof.
  intros Hb. assert (Hall : Forall byte_fields (seqZ 0 256))
    by (apply (bool_decide_eq_true_1 _); vm_compute; reflexivity).
  rewrite Forall_forall in Hall. apply Hall. apply elem_of_seqZ. unfold is_byte in Hb. lia.
Qed.

(** The fields of a tag byte. *)
Lemma tag_bits cls con tag : tag_ok cls tag -> con = 0 \/ con = 1 ->
  let b := 64 * cls + 32 * con + tag in
  Z.testbit b 5 = bool_decide (con = 1) /\ bool_decide (Z.land b 0xC0 = 0) = bool_decide (cls = 0) /\
  Z.land b 0x1F = tag.
Proof.
  intros [Hc Ht] Hcon b. assert (Hb : is_byte b) by (unfold is_byte, b; lia).
  destruct (byte_bits b Hb) as (-> & _ & -> & -> & _).
  assert (Hdiv : b / 32 = 2 * cls + con) by (symmetry; apply Z.div_unique with tag; unfold b; lia).
  assert (Hmod : b mod 32 = tag) by (symmetry; apply Z.mod_unique with (2 * cls + con); unfold b; lia).
  rewrite Hdiv, Hmod. rewrite Z.add_comm, Z.mul_comm, Z.mod_add by lia.
  split_and!; [|apply bool_decide_ext; unfold b; lia|done].
  by destruct Hcon as [-> | ->].
Qed.

Lemma byte_at_app (a : list Z) b c i : Z.of_nat (length a) = i -> byte_at (a ++ b :: c) i = Some b.
Proof. intros <-. unfold byte_at. rewrite Nat2Z.id. by apply list_lookup_middle. Qed.

Lemma read_length_der (a c : list Z) n base buf_len pos :
  0 <= n -> Z.of_nat (length a) = base + pos -> 0 <= pos ->
  pos + Z.of_nat (length (der_length n)) + n <= buf_len < 65536 ->
  read_length (a ++ der_length n ++ c) base buf_len pos false =
    Length n (pos + Z.of_nat (length (der_length n))).
Proof.
  intros Hn Ha Hpos Hle. assert (Hn' : n < 65536) by lia. unfold read_length, der_length in *.
  repeat case_bool_decide; cbn [app length] in *; rewrite byte_at_app by done.
  - destruct (byte_bits n) as (_ & -> & _); [unfold is_byte; lia|]. rewrite (bool_decide_false (128 <= n)) by lia.
    cbn [negb]. rewrite (uwrap_small 64 (buf_len - (pos + 1))) by lia. by rewrite bool_decide_false by lia.
  - change (Z.testbit 0x81 7) with true. change (Z.land 0x81 0x7F) with 1. cbn [negb].
    rewrite (bool_decide_false (1 > 2)) by lia. change (Z.to_nat 1) with 1%nat. cbn [length_bytes].
    replace (a ++ 0x81 :: n :: c) with ((a ++ [0x81]) ++ n :: c) by (by rewrite <- app_assoc).
    rewrite byte_at_app by (rewrite length_app; cbn; lia). cbn [mbind option_bind]. rewrite Z.shiftl_0_l, Z.add_0_l.
    rewrite (uwrap_small 64 (buf_len - (pos + 1 + 1))) by lia. rewrite bool_decide_false by lia. f_equal. lia.
  - change (Z.testbit 0x82 7) with true. change (Z.land 0x82 0x7F) with 2. cbn [negb].
    rewrite (bool_decide_false (2 > 2)) by lia. change (Z.to_nat 2) with 2%nat. cbn [length_bytes].
    replace (a ++ 0x82 :: n / 256 :: n mod 256 :: c) with ((a ++ [0x82]) ++ n / 256 :: n mod 256 :: c)
      by (by rewrite <- app_assoc).
    rewrite (byte_at_app _ _ _ (base + (pos + 1))) by (rewrite length_app; cbn; lia). cbn [mbind option_bind].
    replace ((a ++ [0x82]) ++ n / 256 :: n mod 256 :: c) with ((a ++ [0x82; n / 256]) ++ n mod 256 :: c)
      by (by rewrite <- !app_assoc).
    rewrite byte_at_app by (rewrite length_app; cbn; lia). cbn [mbind option_bind].
    rewrite Z.shiftl_0_l, Z.add_0_l, Z.shiftl_mul_pow2 by lia. change (2 ^ 8) with 256.
    replace (n / 256 * 256 + n mod 256) with n by (pose proof (Z.div_mod n 256 ltac:(lia)); lia).
    rewrite (uwrap_small 64 (buf_len - (pos + 1 + 2))) by lia. rewrite bool_decide_false by lia. f_equal. lia.
Qed.

Section search.
Context (oid : list Z) (asn1_type : Z).

(** What the code returns for the result of the reference. *)
Definition found (buf : list Z) (r : option (list Z) * bool) (e : asn1_end) : Prop :=
  match r with
  | (None, m) => e = Stop true None m
  | (Some x, m) => exists off, e = Stop true (Some (off, Z.of_nat (length x))) m /\
      slice (Z.to_nat off) (length x) buf = x
  end.

(** One turn of the loop, at an element of content [content]. *)
Definition turn (buf : list Z) (fuel : nat) cls con tag (n : Z) base buf_len pos matched : asn1_end :=
  if bool_decide (n = 0) then get_data_internal buf oid asn1_type fuel base buf_len pos matched
  else if bool_decide (con = 1) then
    match get_data_internal buf oid asn1_type fuel (base + pos) n 0 matched with
    | Stop true None matched => get_data_internal buf oid asn1_type fuel base buf_len (pos + n) matched
    | r => r
    end
  else if negb (bool_decide (cls = 0)) then get_data_internal buf oid asn1_type fuel base buf_len (pos + n) matched
  else if matched then
    if bool_decide (tag = asn1_type) then Stop true (Some (base + pos, n)) matched
    else get_data_internal buf oid asn1_type fuel base buf_len (pos + n) matched
  else get_data_internal buf oid asn1_type fuel base buf_len (pos + n)
         (bool_decide (tag = 6) && bool_decide (slice (Z.to_nat (base + pos)) (Z.to_nat n) buf = oid)).

Lemma turn_spec a content c fuel cls con tag base buf_len pos matched :
  tag_ok cls tag -> con = 0 \/ con = 1 -> (cls = 0 -> tag = 5 -> con = 0 /\ content = []) ->
  Z.of_nat (length a) = base + pos -> 0 <= pos -> 0 <= base ->
  pos + Z.of_nat (length (der_header cls con tag content)) <= buf_len < 65536 ->
  let buf := a ++ der_header cls con tag content ++ c in let n := Z.of_nat (length content) in
  get_data_internal buf oid asn1_type (S fuel) base buf_len pos matched =
    turn buf fuel cls con tag n base buf_len (pos + 1 + Z.of_nat (length (der_length n))) matched.
Proof.
  intros Hok Hcon Hnull Ha Hpos Hbase Hle buf n. subst buf. set (b := 64 * cls + 32 * con + tag).
  unfold der_header in *. fold b in Hle |- *. fold n in Hle |- *. cbn [length] in Hle. rewrite length_app in Hle.
  destruct (tag_bits cls con tag Hok Hcon) as (H5 & Hc0 & H1f). fold b in H5, Hc0, H1f.
  set (buf := a ++ _ ++ c).
  assert (Hbuf : buf = (a ++ [b]) ++ der_length n ++ (content ++ c))
    by (unfold buf; cbn [app]; by rewrite <- !app_assoc).
  cbn [get_data_internal]. rewrite bool_decide_true by lia. cbn [negb].
  assert (Hb : byte_at buf (base + pos) = Some b) by (unfold buf; cbn [app]; by apply byte_at_app).
  rewrite Hb, H5, Hc0, H1f, bool_decide_false by (destruct Hok; lia).
  replace (read_length buf base buf_len (pos + 1) (bool_decide (cls = 0) && bool_decide (tag = 5)))
    with (Length n (pos + 1 + Z.of_nat (length (der_length n)))).
  2: { symmetry. destruct (decide (cls = 0 /\ tag = 5)) as [[-> ->]|Hne].
       - destruct (Hnull eq_refl eq_refl) as [_ ->]. done.
       - replace (bool_decide (cls = 0) && bool_decide (tag = 5)) with false
           by (repeat case_bool_decide; tauto).
         rewrite Hbuf. apply read_length_der; [lia|rewrite length_app; cbn; lia|lia|lia]. }
  unfold turn. cbv beta iota zeta. destruct (bool_decide (n = 0)); [done|]. destruct (bool_decide (con = 1)); [done|].
  destruct (bool_decide (cls = 0)); cbn [negb]; [|done]. destruct matched; [done|].
  destruct (bool_decide (tag = 6)); cbn [andb]; [|done].
  assert (Hslice : slice (Z.to_nat (base + (pos + 1 + Z.of_nat (length (der_length n))))) (Z.to_nat n) buf = content).
  { rewrite Hbuf. rewrite (app_assoc (a ++ [b])). unfold slice, n. rewrite Nat2Z.id.
    rewrite drop_app_length' by (rewrite !length_app; cbn; lia). by apply take_app_length. }
  rewrite Hslice. destruct (decide (n = Z.of_nat (length oid))) as [Hlen|Hlen].
  - rewrite (bool_decide_true _ Hlen), bool_decide_false; [done|].
    unfold buf. rewrite !length_app. cbn [length]. rewrite !length_app. lia.
  - rewrite (bool_decide_false _ Hlen), (bool_decide_false (content = oid)); [done|]. intros ->. by apply Hlen.
Qed.

Lemma der_cons t ts : der_all (t :: ts) = der t ++ der_all ts.
Proof. done. Qed.

Lemma der_nonempty t : (2 <= length (der t))%nat.
Proof.
  assert (H : forall n, (1 <= length (der_length n))%nat)
    by (intros; unfold der_length; repeat case_bool_decide; cbn; lia).
  destruct t; cbn [der]; unfold der_header; cbn [length]; rewrite length_app;
    match goal with |- context [der_length ?n] => specialize (H n) end; lia.
Qed.

Lemma der_all_nil ts : der_all ts = [] -> ts = [].
Proof.
  destruct ts as [|t ts]; [done|]. rewrite der_cons. intros H. pose proof (der_nonempty t) as Ht.
  apply (f_equal length) in H. rewrite length_app in H. cbn [length] in H. lia.
Qed.

(** The slice of a content, after what precedes it. *)
Lemma header_split a cls con tag content c :
  a ++ der_header cls con tag content ++ c =
    (a ++ [64 * cls + 32 * con + tag] ++ der_length (Z.of_nat (length content))) ++ content ++ c.
Proof. unfold der_header. rewrite <- !app_assoc. cbn [app]. by rewrite <- ?app_assoc. Qed.

Lemma length_header cls con tag content :
  Z.of_nat (length (der_header cls con tag content)) =
    1 + Z.of_nat (length (der_length (Z.of_nat (length content)))) + Z.of_nat (length content).
Proof. unfold der_header. cbn [length]. rewrite length_app. lia. Qed.

(** The turn at a primitive element, when the rest of the elements is searched as it should. *)
Lemma turn_primitive a content c fuel cls tag base buf_len pos matched ts :
  let n := Z.of_nat (length content) in let p := pos + 1 + Z.of_nat (length (der_length n)) in
  let buf := a ++ der_header cls 0 tag content ++ c in
  Z.of_nat (length a) = base + pos ->
  (forall m, found buf (find_all oid asn1_type ts m)
     (get_data_internal buf oid asn1_type fuel base buf_len (p + n) m)) ->
  found buf (find_all oid asn1_type (Primitive cls tag content :: ts) matched)
    (turn buf fuel cls 0 tag n base buf_len p matched).
Proof.
  intros n p buf Ha Hrest. cbn [find_all find]. unfold turn.
  assert (Hslice : slice (Z.to_nat (base + p)) (Z.to_nat n) buf = content).
  { unfold buf. rewrite header_split. unfold slice, n. rewrite Nat2Z.id.
    rewrite drop_app_length' by (rewrite !length_app; cbn; unfold p, n; lia). by apply take_app_length. }
  destruct (decide (content = [])) as [->|Hne].
  { rewrite !(bool_decide_true _) by done. cbn [orb]. specialize (Hrest matched).
    unfold n in Hrest. cbn [length] in Hrest. by rewrite Z.add_0_r in Hrest. }
  rewrite (bool_decide_false (n = 0)) by (destruct content; [done|unfold n; cbn; lia]).
  rewrite (bool_decide_false (content = [])), (bool_decide_false (0 = 1)) by done. cbn [orb].
  destruct (bool_decide (cls = 0)); cbn [negb]; [|apply Hrest]. rewrite Hslice.
  destruct matched; [|apply Hrest]. destruct (bool_decide (tag = asn1_type)); [|apply Hrest].
  exists (base + p). split; [done|]. revert Hslice. unfold n. by rewrite Nat2Z.id.
Qed.

(** The turn at a constructed element, when its elements are searched as they should. *)
Lemma turn_constructed a c fuel cls tag elements base buf_len pos matched ts :
  let content := der_all elements in
  let n := Z.of_nat (length content) in let p := pos + 1 + Z.of_nat (length (der_length n)) in
  let buf := a ++ der_header cls 1 tag content ++ c in
  found buf (find_all oid asn1_type elements matched)
    (get_data_internal buf oid asn1_type fuel (base + p) n 0 matched) ->
  (forall m, found buf (find_all oid asn1_type ts m)
     (get_data_internal buf oid asn1_type fuel base buf_len (p + n) m)) ->
  found buf (find_all oid asn1_type (Constructed cls tag elements :: ts) matched)
    (turn buf fuel cls 1 tag n base buf_len p matched).
Proof.
  intros content n p buf Hin Hrest. cbn [find_all]. rewrite find_constructed. unfold turn.
  destruct (decide (n = 0)) as [Hn|Hn].
  { rewrite (bool_decide_true _ Hn). assert (elements = []) as ->.
    { apply der_all_nil. apply length_zero_iff_nil. fold content. unfold n in Hn. lia. }
    cbn [find_all]. rewrite <- (Z.add_0_r p), <- Hn. apply Hrest. }
  rewrite (bool_decide_false _ Hn), (bool_decide_true (1 = 1)) by done.
  destruct (find_all oid asn1_type elements matched) as [[x|] m]; cbn [found] in Hin.
  - destruct Hin as (off & -> & Hx). by exists off.
  - rewrite Hin. apply Hrest.
Qed.

Lemma search_elements fuel : forall ts a c base buf_len pos matched, Forall tlv_ok ts ->
  Z.of_nat (length a) = base + pos -> 0 <= pos -> 0 <= base -> buf_len < 65536 ->
  pos + Z.of_nat (length (der_all ts)) = buf_len -> (length (der_all ts) < fuel)%nat ->
  let buf := a ++ der_all ts ++ c in
  found buf (find_all oid asn1_type ts matched) (get_data_internal buf oid asn1_type fuel base buf_len pos matched).
Proof.
  induction fuel as [|fuel IH]; [lia|].
  intros [|t ts] a c base buf_len pos matched Hok Ha Hpos Hbase Hlt Hlen Hfuel buf.
  { cbn [get_data_internal]. cbn in Hlen. by rewrite bool_decide_false by lia. }
  apply Forall_cons in Hok as [Ht Hts]. rewrite der_cons, length_app in Hlen, Hfuel.
  pose proof (der_nonempty t) as Hne.
  (* the rest of the elements *)
  assert (Hrest : forall m, found buf (find_all oid asn1_type ts m)
    (get_data_internal buf oid asn1_type fuel base buf_len (pos + Z.of_nat (length (der t))) m)).
  { intros m. replace buf with ((a ++ der t) ++ der_all ts ++ c)
      by (unfold buf; rewrite der_cons; by rewrite <- !app_assoc).
    apply IH; [done|rewrite length_app; lia|lia..]. }
  assert (Hbuf : buf = a ++ der t ++ (der_all ts ++ c)) by (unfold buf; by rewrite der_cons, <- app_assoc).
  rewrite Hbuf in Hrest |- *. clear Hbuf buf. inversion Ht as [cls tag content Htag Hnull|cls tag elements Htag Hnull Hin]; subst t.
  - cbn [der] in *. rewrite turn_spec by (first [done|lia|tauto]).
    pose proof (length_header cls 0 tag content) as Hh. apply turn_primitive; [done|].
    intros m. replace (pos + 1 + _ + _) with (pos + Z.of_nat (length (der_header cls 0 tag content)))
      by lia. apply Hrest.
  - cbn [der] in *. fold (der_all elements) in *.
    rewrite turn_spec by (first [done|lia|tauto]).
    pose proof (length_header cls 1 tag (der_all elements)) as Hh. apply turn_constructed.
    + rewrite header_split. apply IH; [done|rewrite !length_app; cbn [length]; lia|lia..].
    + intros m. replace (pos + 1 + _ + _) with (pos + Z.of_nat (length (der_header cls 1 tag (der_all elements))))
        by lia. apply Hrest.
Qed.
End search.

(** ** On an encoding *)

(** C14: ASN.1 search. On the DER encoding of any list of elements shorter than 64K,
    get_data_from_asn1 returns the content of the first universal primitive element of the
    type that follows the object identifier in document order (of the first one when there
    is no identifier), at its place in the block, and NULL when there is none. *)
Theorem asn1_data_found ts oid_str oid asn1_type :
  Forall tlv_ok ts -> Z.of_nat (length (der_all ts)) < 65536 ->
  (if bool_decide (default [] oid_str = []) then oid = [] else oid_from_str (default [] oid_str) = Some oid) ->
  match fst (find_all oid asn1_type ts (bool_decide (default [] oid_str = []))) with
  | None => get_data_from_asn1 (der_all ts) oid_str asn1_type = Asn1Data None
  | Some content =>
      exists off, get_data_from_asn1 (der_all ts) oid_str asn1_type =
          Asn1Data (Some (off, Z.of_nat (length content))) /\
        slice (Z.to_nat off) (length content) (der_all ts) = content
  end.
Proof.
  intros Hok Hlen Hoid. set (matched := bool_decide (default [] oid_str = [])) in *.
  pose proof (search_elements oid asn1_type (asn1_fuel (der_all ts)) ts [] [] 0 _ 0 matched Hok
    eq_refl ltac:(lia) ltac:(lia) Hlen eq_refl ltac:(unfold asn1_fuel; lia)) as H.
  cbn [app] in H. rewrite app_nil_r in H. cbv zeta in H.
  assert (Hget : get_data_from_asn1 (der_all ts) oid_str asn1_type =
    match get_data_internal (der_all ts) oid asn1_type (asn1_fuel (der_all ts)) 0
      (Z.of_nat (length (der_all ts))) 0 matched with
    | NoFuel => Asn1OutOfFuel | Overread => Asn1Overread | Stop _ data _ => Asn1Data data
    end).
  { unfold get_data_from_asn1. rewrite bool_decide_false by lia. fold matched.
    destruct matched; by rewrite Hoid. }
  rewrite Hget. destruct (find_all _ _ _ _) as [[x|] m]; cbn [found fst] in *.
  - destruct H as (off & -> & Hx). by exists off.
  - by rewrite H.
Qed.

(** A sequence of an identifier and a SET with an OCTET STRING: the search finds the string. *)
Theorem asn1_data_found_witness :
  exists off, get_data_from_asn1
      (der_all [Constructed 0 16 [Primitive 0 6 [43; 6; 1]; Constructed 0 17 [Primitive 0 4 [7; 8; 9]]]])
      (Some [49; 46; 51; 46; 54; 46; 49]) 4 = Asn1Data (Some (off, 3)) /\
    slice (Z.to_nat off) 3
      (der_all [Constructed 0 16 [Primitive 0 6 [43; 6; 1]; Constructed 0 17 [Primitive 0 4 [7; 8; 9]]]]) = [7; 8; 9].
Proof.
  refine (asn1_data_found
    [Constructed 0 16 [Primitive 0 6 [43; 6; 1]; Constructed 0 17 [Primitive 0 4 [7; 8; 9]]]]
    (Some [49; 46; 51; 46; 54; 46; 49]) [43; 6; 1] 4 _ _ _).
  - repeat constructor; first [lia|done|intros [_ ?]; discriminate].
  - vm_compute. reflexivity.
  - vm_compute. reflexivity.
Defined.

(** ** On any bytes *)

(** The search ends: the position in the block grows. *)
Lemma read_length_moves (buf : list Z) base buf_len pos is_null len pos' : Forall is_byte buf ->
  read_length buf base buf_len pos is_null = Length len pos' -> pos < pos' /\ 0 <= len.
Proof.
  intros Hbuf. assert (Hbyte : forall i b, byte_at buf i = Some b -> 0 <= b < 256)
    by (intros i b Hb; exact (Forall_lookup_1 _ _ _ _ Hbuf Hb)).
  assert (Hlen : forall n i l l', 0 <= l -> length_bytes buf n i l = Some l' -> 0 <= l').
  { induction n as [|n IH]; cbn [length_bytes]; intros i l l' Hl H; [by simplify_eq|].
    destruct (byte_at buf i) as [b|] eqn:Hb; [|done]. apply IH in H; [done|].
    apply Hbyte in Hb. rewrite Z.shiftl_mul_pow2 by lia. lia. }
  unfold read_length. destruct is_null; [intros [= <- <-]; lia|].
  destruct (byte_at buf (base + pos)) as [b|] eqn:Hb; [|done]. apply Hbyte in Hb.
  destruct (byte_bits b) as (_ & _ & _ & _ & Hand); [done|].
  destruct (Z.testbit b 7); cbn [negb].
  - rewrite Hand. pose proof (Z.mod_pos_bound b 128 ltac:(lia)). case_bool_decide; [done|].
    destruct (length_bytes _ _ _ _) as [l|] eqn:Hl; [|done]. apply Hlen in Hl; [|done].
    case_bool_decide; [done|]. intros [= <- <-]. lia.
  - case_bool_decide; [done|]. intros [= <- <-]. lia.
Qed.

Lemma search_ends buf oid asn1_type fuel : Forall is_byte buf -> forall base buf_len pos matched,
  0 <= base -> 0 <= pos -> Z.of_nat (length buf) - (base + pos) + 1 < Z.of_nat fuel -> (0 < fuel)%nat ->
  get_data_internal buf oid asn1_type fuel base buf_len pos matched <> NoFuel.
Proof.
  intros Hbuf. induction fuel as [|fuel IH]; intros base buf_len pos matched Hbase Hpos Hf Hf0; [lia|].
  cbn [get_data_internal]. destruct (bool_decide (pos < buf_len)); [|done]. cbn [negb].
  destruct (byte_at buf (base + pos)) as [b|] eqn:Hb; [|done].
  apply lookup_lt_Some in Hb. destruct (bool_decide (Z.land b 0x1F = 0x1F)); [done|].
  destruct (read_length _ _ _ _ _) as [| |len pos'] eqn:Hl; [done..|].
  apply read_length_moves in Hl as [Hmove Hlen]; [|done].
  assert (Hnext : forall p m, pos' <= p -> get_data_internal buf oid asn1_type fuel base buf_len p m <> NoFuel)
    by (intros p m Hp; apply IH; lia).
  destruct (bool_decide (len = 0)); [apply Hnext; lia|].
  destruct (Z.testbit b 5).
  { pose proof (IH (base + pos') len 0 matched ltac:(lia) ltac:(lia) ltac:(lia) ltac:(lia)) as Hin.
    destruct (get_data_internal buf oid asn1_type fuel (base + pos') len 0 matched) as [| |[] [[]|] m]; try done.
    apply Hnext. lia. }
  repeat first [apply Hnext; lia|done|match goal with |- context [if ?c then _ else _] => destruct c end].
Qed.

(** The search of ASN.1 data terminates on every block of bytes, nested or malformed
    as it may be: the recursion and the loop together take at most one turn for each byte. *)
Theorem asn1_search_terminates buf oid_str asn1_type :
  Forall is_byte buf -> get_data_from_asn1 buf oid_str asn1_type <> Asn1OutOfFuel.
Proof.
  intros Hbuf. unfold get_data_from_asn1. case_bool_decide; [done|].
  assert (Hend : forall oid m, get_data_internal buf oid asn1_type (asn1_fuel buf) 0 (Z.of_nat (length buf)) 0 m <> NoFuel)
    by (intros; apply search_ends; unfold asn1_fuel; first [done|lia]).
  destruct (bool_decide (default [] oid_str = [])); [|destruct (oid_from_str _) as [oid|]; [|done]].
  - specialize (Hend [] true). by destruct (get_data_internal _ _ _ _ _ _ _ _).
  - specialize (Hend oid false). by destruct (get_data_internal _ _ _ _ _ _ _ _).
Qed.

Theorem asn1_search_terminates_witness :
  get_data_from_asn1 [0x30; 0x80; 0x24; 0x01; 0x02] None 4 <> Asn1OutOfFuel.
Proof. apply asn1_search_terminates. repeat constructor; unfold is_byte; lia. Defined.

(** A length field that reaches the end of its part: [buf_len - pos] wraps, every length passes,
    and the data that is returned goes past the end of the block, or the bytes after it are read. *)
Lemma asn1_data_past_the_end :
  get_data_from_asn1 [0x30; 0x02; 0x04; 0x82; 0xff; 0xff] None 4 = Asn1Data (Some (6, 0xffff)) /\
  get_data_from_asn1 [0x04] None 4 = Asn1Overread /\
  get_data_from_asn1 [0x04; 0x82] None 4 = Asn1Overread.
Proof. vm_compute. done. Qed.

(** ** The arcs of a string and of bytes *)

(** The value of digits. *)
Definition number_from (v : Z) (ds : list Z) : Z := foldl (fun v c => v * 10 + (c - 48)) v ds.
Definition number (ds : list Z) : Z := number_from 0 ds.

(** The numbers of a string, separated by dots. *)
Fixpoint dotted (dss : list (list Z)) : list Z :=
  match dss with
  | [] => []
  | [ds] => ds
  | ds :: dss => ds ++ 46 :: dotted dss
  end.

Definition is_number (ds : list Z) : Prop :=
  ds <> [] /\ Forall (fun c => 48 <= c <= 57) ds /\ number ds <= ULONG_MAX.

(** The numbers of a series of 7-bit groups; the last group of each has bit 7 clear. *)
Fixpoint subids (acc : Z) (bs : list Z) : list Z :=
  match bs with
  | [] => []
  | b :: bs => if bool_decide (b < 128) then (acc * 128 + b) :: subids 0 bs else subids (acc * 128 + (b - 128)) bs
  end.

(** The first number stands for two arcs. *)
Definition oid_arcs (bs : list Z) : list Z :=
  match subids 0 bs with
  | [] => []
  | x :: xs => if bool_decide (x < 40) then 0 :: x :: xs
               else if bool_decide (x < 80) then 1 :: (x - 40) :: xs else 2 :: (x - 80) :: xs
  end.

(** ** [strtoul] *)

Lemma number_from_ge ds v : Forall (fun c => 48 <= c <= 57) ds -> 0 <= v -> v <= number_from v ds.
Proof.
  intros H. revert v. induction H as [|c ds Hc Hds IH]; intros v Hv; unfold number_from in *; cbn [foldl]; [lia|].
  etransitivity; [|apply IH; lia]. lia.
Qed.

Lemma strtoul_digits ds rest v : Forall (fun c => 48 <= c <= 57) ds -> 0 <= v ->
  number_from v ds <= ULONG_MAX -> (forall c, head rest = Some c -> isdigit c = false) ->
  strtoul v (ds ++ rest) = (number_from v ds, rest).
Proof.
  intros H Hv Hle Hrest. revert v Hv Hle. induction H as [|c ds Hc Hds IH]; intros v Hv Hle.
  - destruct rest as [|c rest]; [done|]. cbn. by rewrite (Hrest c eq_refl).
  - cbn [app strtoul]. unfold isdigit at 1. rewrite bool_decide_true by done.
    assert (Hmin : v * 10 + (c - 48) <= ULONG_MAX)
      by (etransitivity; [|exact Hle]; apply (number_from_ge ds); [done|lia]).
    rewrite Z.min_r by done. apply IH; [lia|done].
Qed.

(** The value never exceeds what its digits can give. *)
Lemma strtoul_bounds s v : 0 <= v -> let '(val, endp) := strtoul v s in
  exists ds, s = ds ++ endp /\ 0 <= val <= Z.max v ULONG_MAX /\ val < (v + 1) * 10 ^ Z.of_nat (length ds) /\
    (forall c, head s = Some c -> isdigit c = true -> ds <> []).
Proof.
  revert v. induction s as [|c s IH]; intros v Hv; cbn [strtoul].
  { exists []. cbn. split_and!; [done|lia..|done]. }
  destruct (isdigit c) eqn:Hc.
  2: { exists []. cbn [length]. split_and!; [done|lia..|]. intros c' [= <-]. by rewrite Hc. }
  unfold isdigit in Hc. apply bool_decide_eq_true_1 in Hc.
  specialize (IH (Z.min ULONG_MAX (v * 10 + (c - 48))) ltac:(unfold ULONG_MAX; lia)).
  destruct (strtoul _ s) as [val endp]. destruct IH as (ds & -> & Hval & Hlt & _).
  exists (c :: ds). cbn [length app]. rewrite Nat2Z.inj_succ, Z.pow_succ_r by lia.
  split_and!; [done|lia|lia| |done].
  eapply Z.lt_le_trans; [exact Hlt|]. rewrite Z.mul_assoc. apply Z.mul_le_mono_nonneg_r; lia.
Qed.

(** ** [make_flagged_int] *)

Fixpoint shifts (k : nat) : list Z :=
  match k with
  | O => []
  | S k => 7 * Z.of_nat (S k) :: shifts k
  end.

Lemma flag_bit x : 0 <= x < 128 -> u8 (Z.lor 0x80 x) = 128 + x.
Proof.
  intros Hx. assert (Hall : Forall (fun x => u8 (Z.lor 0x80 x) = 128 + x) (seqZ 0 128))
    by (apply (bool_decide_eq_true_1 _); vm_compute; reflexivity).
  rewrite Forall_forall in Hall. apply Hall. apply elem_of_seqZ. lia.
Qed.

Lemma shift_group k v : 0 <= v < 128 ^ Z.of_nat (S (S k)) ->
  let s := 7 * Z.of_nat (S k) in
  Z.shiftl 1 s = 128 ^ Z.of_nat (S k) /\ Z.shiftr v s = v / 128 ^ Z.of_nat (S k) /\
  0 <= v / 128 ^ Z.of_nat (S k) < 128 /\
  v - Z.shiftl (Z.shiftr v s) s = v mod 128 ^ Z.of_nat (S k).
Proof.
  intros Hv s. assert (Hp : 2 ^ s = 128 ^ Z.of_nat (S k)) by (unfold s; by rewrite Z.pow_mul_r by lia).
  rewrite !Z.shiftl_mul_pow2, !Z.shiftr_div_pow2 by (unfold s; lia). rewrite Hp.
  assert (0 < 128 ^ Z.of_nat (S k)) by (apply Z.pow_pos_nonneg; lia).
  split_and!; [lia|done|apply Z.div_pos; lia| |rewrite Z.mod_eq by lia; lia].
  apply Z.div_lt_upper_bound; [lia|]. rewrite (Nat2Z.inj_succ (S k)), Z.pow_succ_r in Hv by lia. lia.
Qed.

(** The groups of a number are read back. *)
Lemma flagged_subids k : forall more acc v rest, 0 <= v < 128 ^ Z.of_nat (S k) -> more = true \/ acc = 0 ->
  subids acc (flagged_bytes (shifts k) more v ++ rest) = (acc * 128 ^ Z.of_nat (S k) + v) :: subids 0 rest.
Proof.
  induction k as [|k IH]; intros more acc v rest Hv Hmore.
  { cbn [shifts flagged_bytes app subids]. change (128 ^ Z.of_nat 1) with 128 in *.
    rewrite uwrap_small by lia. by rewrite bool_decide_true by lia. }
  destruct (shift_group k v Hv) as (Hs1 & Hs2 & Hq & Hr). cbn [shifts flagged_bytes].
  rewrite Hs1, Hr, Hs2, flag_bit by done.
  assert (Hpow : 0 < 128 ^ Z.of_nat (S k)) by (apply Z.pow_pos_nonneg; lia).
  pose proof (Z.mod_pos_bound v (128 ^ Z.of_nat (S k)) Hpow) as Hm.
  destruct (orb more (bool_decide (128 ^ Z.of_nat (S k) <= v))) eqn:Hc.
  - cbn [app subids]. rewrite bool_decide_false by lia. rewrite IH by (first [done|by left]).
    f_equal. rewrite (Nat2Z.inj_succ (S k)), Z.pow_succ_r by lia.
    rewrite (Z.div_mod v (128 ^ Z.of_nat (S k))) at 3 by lia. ring.
  - apply orb_false_iff in Hc as [-> Hc]. apply bool_decide_eq_false_1 in Hc.
    destruct Hmore as [|Hacc]; [done|]. subst acc. rewrite (IH false 0 v rest); [f_equal; lia|lia|by right].
Qed.

Lemma make_flagged_subids v oid : 0 <= v <= ULONG_MAX ->
  exists bs, make_flagged_int v oid = oid ++ bs /\ forall rest, subids 0 (bs ++ rest) = v :: subids 0 rest.
Proof.
  intros Hv. exists (flagged_bytes (shifts 4) false v). split; [done|]. intros rest.
  rewrite flagged_subids; [done| |by right]. unfold ULONG_MAX in Hv. cbn. lia.
Qed.

(** ** The loop on numbers between dots *)

Lemma oid_loop_step fuel arcno ds dss val1 oid : is_number ds ->
  oid_loop (S fuel) arcno (dotted (ds :: dss)) val1 oid =
    let val := number ds in
    let next val1 oid :=
      match dss with [] => OidStop (S arcno) oid | _ => oid_loop fuel (S arcno) (dotted dss) val1 oid end in
    match S arcno with
    | 1%nat => if bool_decide (val > 2) then OidStop 1 oid else next val oid
    | 2%nat =>
        if bool_decide (val1 < 2) then
          if bool_decide (val > 39) then OidErr oid else next val1 (oid ++ [u8 (val1 * 40 + val)])
        else next val1 (make_flagged_int (u32 (val + 80)) oid)
    | _ => next val1 (make_flagged_int val oid)
    end.
Proof.
  intros (Hne & Hds & Hmax).
  assert (Hd : dotted (ds :: dss) = ds ++ match dss with [] => [] | _ => 46 :: dotted dss end)
    by (destruct dss; [by rewrite app_nil_r|done]).
  assert (Hst : strtoul 0 (dotted (ds :: dss)) = (number ds, match dss with [] => [] | _ => 46 :: dotted dss end)).
  { rewrite Hd. apply strtoul_digits; [done|lia|done|]. destruct dss; [done|]. by intros c [= <-]. }
  assert (Hc : exists c s, dotted (ds :: dss) = c :: s /\ isdigit c = true).
  { rewrite Hd. destruct Hds as [|c ds Hc Hds]; [done|]. eexists _, _. split; [done|].
    by apply bool_decide_eq_true_2. }
  destruct Hc as (c & s & Hcs & Hdig). cbn [oid_loop]. rewrite Hcs. cbv zeta. rewrite Hdig. cbn [negb].
  rewrite <- Hcs, Hst. by destruct dss, arcno as [|[|arcno]].
Qed.

(** The arcs after the second. *)
Lemma oid_loop_rest dss : forall fuel arcno val1 oid, dss <> [] -> Forall is_number dss -> (2 <= arcno)%nat ->
  (length dss < fuel)%nat ->
  exists bs, oid_loop fuel arcno (dotted dss) val1 oid = OidStop (arcno + length dss) (oid ++ bs) /\
    subids 0 bs = number <$> dss.
Proof.
  induction dss as [|ds dss IH]; intros fuel arcno val1 oid Hne Hok Harc Hfuel; [done|].
  apply Forall_cons in Hok as [Hds Hdss]. destruct fuel as [|fuel]; [cbn in Hfuel; lia|].
  rewrite oid_loop_step by done. cbv zeta. destruct arcno as [|[|arcno]]; [lia..|].
  assert (Hnum : 0 <= number ds <= ULONG_MAX)
    by (destruct Hds as (_ & Hds & Hmax); split; [by apply number_from_ge|done]).
  destruct (make_flagged_subids (number ds) oid Hnum) as (bs & -> & Hbs).
  destruct dss as [|d dss].
  - exists bs. split; [f_equal; cbn; lia|]. specialize (Hbs []). by rewrite app_nil_r in Hbs.
  - destruct (IH fuel (S (S (S arcno))) val1 (oid ++ bs)) as (bs' & -> & Hbs');
      [done|done|lia|cbn in *; lia|].
    exists (bs ++ bs'). split; [rewrite app_assoc; f_equal; cbn; lia|]. rewrite Hbs, Hbs'. done.
Qed.

(** ** The bytes fit *)

Lemma length_flagged k : forall v, (length (flagged_bytes (shifts k) true v) = S k)%nat.
Proof. induction k as [|k IH]; intros v; [done|]. cbn [shifts flagged_bytes orb length]. by rewrite IH. Qed.

Lemma length_flagged_le k : forall v, (length (flagged_bytes (shifts k) false v) <= S k)%nat.
Proof.
  induction k as [|k IH]; intros v; [done|]. cbn [shifts flagged_bytes orb].
  destruct (bool_decide _); cbn [length]; [by rewrite length_flagged|]. specialize (IH v). lia.
Qed.

(** A number below [128 ^ (j + 1)] has at most [j + 1] groups. *)
Lemma length_flagged_int k : forall v j, v < 128 ^ Z.of_nat (S j) ->
  (length (flagged_bytes (shifts k) false v) <= S (Nat.min j k))%nat.
Proof.
  induction k as [|k IH]; intros v j Hv; [cbn; lia|]. cbn [shifts flagged_bytes orb].
  destruct (bool_decide _) eqn:Hc; [|specialize (IH v j Hv); lia].
  cbn [length]. rewrite length_flagged. apply bool_decide_eq_true_1 in Hc.
  rewrite Z.shiftl_1_l, Z.pow_mul_r in Hc by lia. change (2 ^ 7) with 128 in Hc.
  assert (S k < S j)%nat; [|lia]. apply Nat2Z.inj_lt.
  apply (Z.pow_lt_mono_r_iff 128); lia.
Qed.

Lemma length_make_flagged_int v oid d : (0 < d)%nat -> v < 10 ^ Z.of_nat d + 80 ->
  (length (make_flagged_int v oid) <= length oid + d)%nat.
Proof.
  intros Hd Hv. unfold make_flagged_int. rewrite length_app.
  enough (length (flagged_bytes (shifts 4) false v) <= d)%nat by (change [28; 21; 14; 7] with (shifts 4); lia).
  destruct (decide (d < 5)%nat) as [Hlt|]; [|etransitivity; [apply length_flagged_le|lia]].
  assert (d = 1 \/ d = 2 \/ d = 3 \/ d = 4)%nat as [-> | [-> | [-> | ->]]] by lia;
      [pose proof (length_flagged_int 4 v 0)|pose proof (length_flagged_int 4 v 1)|
       pose proof (length_flagged_int 4 v 2)|pose proof (length_flagged_int 4 v 3)]; cbn in *; lia.
Qed.

(** [val + 80] does not take more bytes than the digits of [val]. *)
Lemma length_second_arc val oid d : (0 < d)%nat -> 0 <= val < 10 ^ Z.of_nat d ->
  (length (make_flagged_int (u32 (val + 80)) oid) <= length oid + d)%nat.
Proof.
  intros Hd Hv. apply length_make_flagged_int; [done|]. unfold uwrap.
  pose proof (Z.mod_le (val + 80) (2 ^ 32) ltac:(lia) ltac:(lia)). lia.
Qed.

(** The loop ends, and writes at most one byte for a character of the string. *)
Definition fits (bound : nat) (e : oid_end) : Prop :=
  match e with OidNoFuel => False | OidErr oid | OidStop _ oid => (length oid <= bound)%nat end.

Lemma fits_le b1 b2 e : (b1 <= b2)%nat -> fits b1 e -> fits b2 e.
Proof. destruct e; cbn; lia. Qed.

Lemma oid_loop_fits fuel : forall arcno s val1 oid, (length s < fuel)%nat ->
  fits (length oid + length s) (oid_loop fuel arcno s val1 oid).
Proof.
  induction fuel as [|fuel IH]; intros arcno s val1 oid Hfuel; [lia|]. cbn [oid_loop].
  destruct s as [|c s']; [cbn [negb fits]; lia|]. set (s := c :: s') in *. destruct (isdigit c) eqn:Hc; [|cbn [negb fits]; lia].
  cbn [negb]. pose proof (strtoul_bounds s 0 ltac:(lia)) as Hb. destruct (strtoul 0 s) as [val endp].
  destruct Hb as (ds & Hs & Hval & Hlt & Hne). rewrite Z.add_0_l, Z.mul_1_l in Hlt.
  assert (Hd : (0 < length ds)%nat) by (specialize (Hne c eq_refl Hc); destruct ds; [done|cbn; lia]).
  assert (Hlen : length s = (length ds + length endp)%nat) by (rewrite Hs; apply length_app).
  destruct (orb _ _); cbn [negb]; [|cbn [negb fits]; lia].
  assert (Hnext : forall arcno oid' v1, (length oid' <= length oid + length ds)%nat ->
    fits (length oid + length s) (if bool_decide (head endp = Some 46)
      then oid_loop fuel arcno (tail endp) v1 oid' else OidStop arcno oid')).
  { intros arcno' oid' v1 Hle. case_bool_decide as Hdot; [|cbn [negb fits]; lia].
    destruct endp as [|e endp]; [done|]. cbn [tail length] in *. eapply fits_le; [|apply IH; lia]. lia. }
  destruct arcno as [|[|arcno]].
  - destruct (bool_decide (val > 2)); [cbn [fits]; lia|]. apply Hnext. lia.
  - destruct (bool_decide (val1 < 2)); [destruct (bool_decide (val > 39)); [cbn [fits]; lia|]|]; apply Hnext;
      [rewrite length_app; cbn; lia|apply length_second_arc; lia].
  - apply Hnext. apply length_make_flagged_int; lia.
Qed.

(** ** Strings of arcs *)

(** What a string of at least two arcs stands for. *)
Definition oid_valid (a1 a2 : Z) : bool :=
  bool_decide (a1 < 2 /\ a2 <= 39 \/ a1 = 2 /\ a2 + 80 <= ULONG_MAX).

Lemma first_arcs a1 a2 bs xs : 0 <= a1 -> 0 <= a2 -> oid_valid a1 a2 = true ->
  subids 0 bs = (if bool_decide (a1 < 2) then a1 * 40 + a2 else a2 + 80) :: xs ->
  oid_arcs bs = a1 :: a2 :: xs.
Proof.
  intros H1 H2 Hv%bool_decide_eq_true_1 Hs. unfold oid_arcs. rewrite Hs.
  destruct (decide (a1 < 2)) as [Hlt|Hge].
  - rewrite (bool_decide_true (a1 < 2)) by done. assert (a1 = 0 \/ a1 = 1) as [-> | ->] by lia.
    + rewrite bool_decide_true by lia. by do 2 f_equal.
    + rewrite bool_decide_false, bool_decide_true by lia. do 2 f_equal. lia.
  - rewrite (bool_decide_false (a1 < 2)) by done. rewrite !bool_decide_false by lia.
    do 2 f_equal; [lia|f_equal; lia].
Qed.

Lemma length_dotted dss : Forall is_number dss -> (length dss <= length (dotted dss))%nat.
Proof.
  induction 1 as [|ds dss (Hne & _) Hdss IH]; [done|].
  assert (1 <= length ds)%nat by (destruct ds; [done|cbn; lia]).
  destruct dss; [cbn; lia|]. cbn [dotted length] in *. rewrite length_app. cbn [length]. lia.
Qed.

(** The loop on two arcs and more. *)
Lemma oid_loop_arcs fuel ds1 ds2 dss : Forall is_number (ds1 :: ds2 :: dss) ->
  (number ds1 = 2 -> number ds2 + 80 <= ULONG_MAX) -> (2 + length dss < fuel)%nat ->
  let a1 := number ds1 in let a2 := number ds2 in
  let e := oid_loop fuel 0 (dotted (ds1 :: ds2 :: dss)) 0 [] in
  if oid_valid a1 a2 then
    exists bs, e = OidStop (2 + length dss) bs /\
      subids 0 bs = (if bool_decide (a1 < 2) then a1 * 40 + a2 else a2 + 80) :: (number <$> dss)
  else e = OidErr [] \/ e = OidStop 1 [].
Proof.
  intros Hok H80 Hfuel a1 a2 e. apply Forall_cons in Hok as [Hd1 Hok]. apply Forall_cons in Hok as [Hd2 Hdss].
  assert (Hn1 : 0 <= a1) by (apply (number_from_ge ds1 0); [apply Hd1|lia]).
  assert (Hn2 : 0 <= a2) by (apply (number_from_ge ds2 0); [apply Hd2|lia]).
  destruct fuel as [|[|fuel]]; [lia..|]. subst e. rewrite oid_loop_step by done. cbv zeta. fold a1.
  destruct (decide (a1 > 2)) as [Hgt|Hle].
  { rewrite (bool_decide_true _ Hgt). unfold oid_valid. rewrite bool_decide_false by lia. by right. }
  rewrite (bool_decide_false _ Hle), oid_loop_step by done. cbv zeta. fold a2.
  (* the end, from the bytes of the first two arcs *)
  set (first := if bool_decide (a1 < 2) then a1 * 40 + a2 else a2 + 80).
  assert (Hend : forall bs, (forall rest, subids 0 (bs ++ rest) = first :: subids 0 rest) ->
    exists bs', (match dss with [] => OidStop 2 bs | _ :: _ => oid_loop fuel 2 (dotted dss) a1 bs end) =
      OidStop (2 + length dss) bs' /\ subids 0 bs' = first :: (number <$> dss)).
  { intros bs Hbs. destruct dss as [|ds dss].
    - exists bs. split; [done|]. rewrite <- (app_nil_r bs). apply Hbs.
    - destruct (oid_loop_rest (ds :: dss) fuel 2 a1 bs) as (bs' & -> & Hbs'); [done|done|lia|lia|].
      exists (bs ++ bs'). split; [done|]. by rewrite Hbs, Hbs'. }
  subst first. unfold oid_valid. destruct (decide (a1 < 2)) as [Hlt|Hge].
  - rewrite (bool_decide_true (a1 < 2)) in * by done. destruct (decide (a2 > 39)) as [H39|H39].
    + rewrite (bool_decide_true _ H39), bool_decide_false by lia. by left.
    + rewrite (bool_decide_false _ H39), bool_decide_true by lia. apply Hend. intros rest. cbn [app subids].
      rewrite uwrap_small by lia. by rewrite bool_decide_true by lia.
  - rewrite (bool_decide_false (a1 < 2)) in * by done. rewrite (bool_decide_true (_ \/ _)) by lia.
    rewrite (uwrap_small 32 (a2 + 80)) by (unfold ULONG_MAX in H80; lia).
    destruct (make_flagged_subids (a2 + 80) []) as (bs & -> & Hbs); [lia|]. by apply Hend.
Qed.

(** Object identifiers. On a string of at least two numbers separated by dots, each
    below 2^32, oid_from_str makes bytes that are read back, in groups of seven bits with
    the first two arcs in one number, as exactly the numbers of the string; it returns NULL
    when the first two arcs are not ones of an identifier (first at most 2, second at most 39
    under 0 and 1) or when the encoding has less than 2 or more than 254 bytes. *)
Lemma oid_from_str_reads_back ds1 ds2 dss :
  Forall is_number (ds1 :: ds2 :: dss) ->
  (number ds1 = 2 -> number ds2 + 80 <= ULONG_MAX) ->
  let s := dotted (ds1 :: ds2 :: dss) in
  if oid_valid (number ds1) (number ds2) then
    exists oid, oid_arcs oid = number <$> (ds1 :: ds2 :: dss) /\
      oid_from_str s = if bool_decide (2 <= length oid <= 254)%nat then Some oid else None
  else oid_from_str s = None.
Proof.
  intros Hok H80 s.
  pose proof (oid_loop_arcs (S (length s)) ds1 ds2 dss Hok H80) as Hloop. cbv zeta in Hloop.
  pose proof (length_dotted _ Hok) as Hlen. fold s in Hlen, Hloop. clearbody s. cbn [length] in Hlen. specialize (Hloop ltac:(lia)).
  unfold oid_from_str. rewrite (bool_decide_false (s = [])) by (intros Hs; rewrite Hs in Hlen; cbn in Hlen; lia).
  destruct (oid_valid _ _) eqn:Hv; [|by destruct Hloop as [-> | ->]].
  destruct Hloop as (oid & -> & Hs). exists oid. split.
  - apply Forall_cons in Hok as [Hd1 Hok]. apply Forall_cons in Hok as [Hd2 _].
    apply first_arcs; [apply (number_from_ge ds1 0); [apply Hd1|lia]|apply (number_from_ge ds2 0); [apply Hd2|lia]|done..].
  - destruct (decide (2 <= length oid <= 254)%nat) as [H|H].
    + rewrite (bool_decide_true _ H). by rewrite bool_decide_false by lia.
    + rewrite (bool_decide_false _ H). by rewrite bool_decide_true by lia.
Qed.

(** "1.3.6.1.4.1.311.2.4.1", the identifier of nested signatures. *)
Definition nested_signature : list (list Z) :=
  [[49]; [51]; [54]; [49]; [52]; [49]; [51; 49; 49]; [50]; [52]; [49]].

Theorem oid_from_str_reads_back_witness :
  exists oid, oid_arcs oid = [1; 3; 6; 1; 4; 1; 311; 2; 4; 1] /\
    oid_from_str (dotted nested_signature) = if bool_decide (2 <= length oid <= 254)%nat then Some oid else None.
Proof.
  refine (oid_from_str_reads_back [49] [51] (drop 2 nested_signature) _ _).
  - apply (bool_decide_eq_true_1 _). vm_compute. reflexivity.
  - vm_compute. discriminate.
Defined.

Example nested_signature_bytes :
  oid_from_str (dotted nested_signature) = Some [43; 6; 1; 4; 1; 130; 55; 2; 4; 1].
Proof. vm_compute. reflexivity. Qed.

(** The block of strlen(oid_str) + 3 bytes is large enough: on every string, whether it
    is an identifier or not, the loop of oid_from_str ends and never writes more bytes than
    the string has characters. *)
Theorem oid_from_str_fits s :
  match oid_loop (S (length s)) 0 s 0 [] with
  | OidNoFuel => False
  | OidErr oid | OidStop _ oid => (length oid <= length s)%nat
  end.
Proof. apply (oid_loop_fits (S (length s)) 0 s 0 []). lia. Qed.
