(* ===== verification/Faults.v ===== *)
(** Faults: the results of code that can read outside of a block, fail an assertion, or
    recurse without end, as a monad. *)

From S2P Require Import Prelude Pe.

Inductive fault := OutOfBlock | AssertFailed | NoEnd.

Inductive checked (A : Type) := Ret (a : A) | Fault (e : fault).
Arguments Ret {_}.
Arguments Fault {_}.

#[export] Instance checked_ret : MRet checked := fun A => @Ret A.
#[export] Instance checked_bind : MBind checked := fun A B f m =>
  match m with Ret a => f a | Fault e => Fault e end.

(** A read of memory. *)
Definition access {A} (m : option A) : checked A :=
  match m with Some a => Ret a | None => Fault OutOfBlock end.

Definition assert_that (b : bool) : checked unit := if b then Ret tt else Fault AssertFailed.

(** A little-endian word of [n] bytes at [off], and [n] bytes at [off]. *)
Definition fetch (n : nat) (buf : list Z) (off : Z) : checked Z := access (load n buf off).

Definition fetch_bytes (n : nat) (buf : list Z) (off : Z) : checked (list Z) :=
  access (if bool_decide (0 <= off /\ off + Z.of_nat n <= Z.of_nat (length buf))
          then Some (slice (Z.to_nat off) n buf) else None).

(** ** Reading what has been laid out *)

(** [bs] is at [off] in [buf]. *)
Definition at_off (buf : list Z) (off : Z) (bs : list Z) : Prop :=
  0 <= off /\ off + Z.of_nat (length bs) <= Z.of_nat (length buf) /\
  slice (Z.to_nat off) (length bs) buf = bs.

#[export] Instance at_off_dec buf off bs : Decision (at_off buf off bs).
Proof. unfold at_off. apply _. Defined.

Lemma bind_Ret {A B} (a : A) (f : A -> checked B) : mbind f (Ret a) = f a.
Proof. done. Qed.

Lemma bind_inv {A B} (m : checked A) (f : A -> checked B) b :
  m ≫= f = Ret b -> exists a, m = Ret a /\ f a = Ret b.
Proof. destruct m as [a|e]; [by exists a|done]. Qed.

Lemma fetch_bytes_at buf off bs n : at_off buf off bs -> n = length bs -> fetch_bytes n buf off = Ret bs.
Proof.
  intros (H0 & Hle & Hs) ->. unfold fetch_bytes. rewrite bool_decide_true by lia. by rewrite Hs.
Qed.

Lemma fetch_at buf off bs n : at_off buf off bs -> n = length bs -> fetch n buf off = Ret (le_word bs).
Proof.
  intros (H0 & Hle & Hs) ->. unfold fetch, load. rewrite bool_decide_true by lia. by rewrite Hs.
Qed.

Lemma fetch_le_at buf off n z : at_off buf off (le_bytes n z) -> 0 <= z < 256 ^ Z.of_nat n ->
  fetch n buf off = Ret z.
Proof.
  intros H Hz. rewrite (fetch_at _ _ _ _ H) by (by rewrite length_le_bytes). by rewrite le_word_le_bytes.
Qed.

(** What is inside of what has been laid out. *)
Lemma at_off_sub buf off a bs c : at_off buf off (a ++ bs ++ c) -> at_off buf (off + Z.of_nat (length a)) bs.
Proof.
  intros (H0 & Hle & Hs). rewrite !length_app in Hle. split_and!; [lia|lia|].
  assert (Heq : slice (length a) (length bs) (slice (Z.to_nat off) (length (a ++ bs ++ c)) buf) = bs).
  { rewrite Hs. unfold slice. rewrite drop_app_length. apply take_app_length. }
  rewrite <- Heq at 2. unfold slice. rewrite skipn_firstn_comm, firstn_firstn, drop_drop, !length_app.
  rewrite Nat.min_l by lia. do 2 f_equal. lia.
Qed.

Lemma at_off_head buf off bs c : at_off buf off (bs ++ c) -> at_off buf off bs.
Proof. intros H. pose proof (at_off_sub buf off [] bs c H) as H'. by rewrite Z.add_0_r in H'. Qed.

Lemma at_off_tail buf off a bs : at_off buf off (a ++ bs) -> at_off buf (off + Z.of_nat (length a)) bs.
Proof. rewrite <- (app_nil_r bs) at 1. apply at_off_sub. Qed.

Lemma at_off_here a bs c : at_off (a ++ bs ++ c) (Z.of_nat (length a)) bs.
Proof.
  split_and!; [lia|rewrite !length_app; lia|]. unfold slice. rewrite Nat2Z.id, drop_app_length. apply take_app_length.
Qed.
