(* ===== verification/PeParse.v ===== *)
(** PeParse: reading the headers, the sections and the resources of PE executables:
    the PE parsing functions of src/src/parser.c and [MachineToArch] of src/src/rufus.c.

    A pointer into the executable is its offset; NULL is [None]. At the end,
    executables laid out in memory, and what the functions read in them. *)

From S2P Require Import Prelude Pe Faults.

(** ** Headers *)

Definition IMAGE_DOS_SIGNATURE : Z := 0x5A4D.
Definition IMAGE_NT_SIGNATURE : Z := 0x4550.
Definition IMAGE_FILE_MACHINE_UNKNOWN : Z := 0.
Definition IMAGE_FILE_MACHINE_I386 : Z := 0x14c.
Definition IMAGE_FILE_MACHINE_ARM : Z := 0x1c0.
Definition sizeof_NT_HEADERS (pe32 : bool) : Z := if pe32 then 248 else 264.

(** [pe_header], when the two signatures are there. *)
Definition nt_header (buf : list Z) : checked (option Z) :=
  magic ← fetch 2 buf 0;
  if negb (bool_decide (magic = IMAGE_DOS_SIGNATURE)) then Ret None
  else
    lf ← fetch 4 buf off_e_lfanew;
    let nt := s32 lf in
    signature ← fetch 4 buf nt;
    Ret (if bool_decide (signature = IMAGE_NT_SIGNATURE) then Some nt else None).

Definition machine_of (buf : list Z) (nt : Z) : checked Z := fetch 2 buf (nt + 4).

Definition GetPeArch (buf : list Z) : checked Z :=
  nt ← nt_header buf;
  match nt with
  | None => Ret IMAGE_FILE_MACHINE_UNKNOWN
  | Some nt => machine_of buf nt
  end.

(** Whether the headers are the ones of a 32-bit executable. *)
Definition is_pe32 (machine : Z) : bool :=
  bool_decide (machine = IMAGE_FILE_MACHINE_I386 \/ machine = IMAGE_FILE_MACHINE_ARM).

(** [MachineToArch]: the values of [enum ArchType]. *)
Definition ARCH_UNKNOWN : Z := 0.
Definition ARCH_EBC : Z := 8.
Definition machine_archs : list (Z * Z) :=
  [(0x14c, 1); (0x8664, 2); (0x1c0, 3); (0xaa64, 4); (0x200, 5); (0x5064, 6); (0x6264, 7); (0xebc, ARCH_EBC)].
Definition MachineToArch (machine : Z) : Z :=
  match list_find (fun p => fst p = machine) machine_archs with
  | Some (_, p) => snd p
  | None => ARCH_UNKNOWN
  end.

(** ** Sections *)

(** [section_header] and [nb_sections]. *)
Definition section_table (buf : list Z) (nt : Z) : checked (Z * nat) :=
  machine ← machine_of buf nt;
  n ← fetch 2 buf (nt + off_NumberOfSections);
  Ret (nt + sizeof_NT_HEADERS (is_pe32 machine), Z.to_nat n).

(** [static_strcpy(section_name, name)] in eight bytes. *)
Definition section_name (name : list Z) : list Z :=
  let copy := take 7 name in copy ++ replicate (8 - length copy) 0.

Definition off_VirtualSize : Z := 8.

(** The loop of [GetPeSection] from section [i], at [sec], with [n] left: the length
    that is stored is the one of the first section. *)
Fixpoint find_section (buf : list Z) (first sec : Z) (n : nat) (name : list Z) : checked (option (Z * Z)) :=
  match n with
  | O => Ret None
  | S n =>
      bs ← fetch_bytes 8 buf sec;
      if bool_decide (bs = section_name name) then
        len ← fetch 4 buf (first + off_SizeOfRawData);
        ptr ← fetch 4 buf (sec + off_PointerToRawData);
        Ret (Some (ptr, len))
      else find_section buf first (sec + sizeof_SECTION_HEADER) n name
  end.

(** The address and the length. *)
Definition GetPeSection (buf name : list Z) : checked (option (Z * Z)) :=
  nt ← nt_header buf;
  match nt with
  | None => Ret None
  | Some nt => '(sec, n) ← section_table buf nt; find_section buf sec sec n name
  end.

(** The loop of [RvaToPhysical]. *)
Fixpoint find_rva (buf : list Z) (sec : Z) (n : nat) (rva : Z) : checked (option Z) :=
  match n with
  | O => Ret None
  | S n =>
      va ← fetch 4 buf (sec + off_VirtualAddress);
      vsize ← fetch 4 buf (sec + off_VirtualSize);
      if bool_decide (va <= rva /\ rva < u32 (va + vsize)) then
        ptr ← fetch 4 buf (sec + off_PointerToRawData);
        Ret (Some (u32 (ptr + u32 (rva - va))))
      else find_rva buf (sec + sizeof_SECTION_HEADER) n rva
  end.

Definition RvaToPhysical (buf : list Z) (rva : Z) : checked (option Z) :=
  nt ← nt_header buf;
  match nt with
  | None => Ret None
  | Some nt => '(sec, n) ← section_table buf nt; find_rva buf sec n rva
  end.

(** Entry [idx] of [DataDirectory]: its address and its size. *)
Definition data_directory (buf : list Z) (nt idx : Z) : checked (Z * Z) :=
  machine ← machine_of buf nt;
  let dir := nt + off_OptionalHeader + off_DataDirectory (negb (is_pe32 machine)) + 8 * idx in
  va ← fetch 4 buf dir;
  size ← fetch 4 buf (dir + 4);
  Ret (va, size).

Definition IMAGE_DIRECTORY_ENTRY_RESOURCE : Z := 2.
Definition IMAGE_DIRECTORY_ENTRY_SECURITY : Z := 4.
Definition WIN_CERT_TYPE_PKCS_SIGNED_DATA : Z := 2.

Definition GetPeSignatureData (buf : list Z) : checked (option Z) :=
  nt ← nt_header buf;
  match nt with
  | None => Ret None
  | Some nt =>
      '(va, size) ← data_directory buf nt IMAGE_DIRECTORY_ENTRY_SECURITY;
      if bool_decide (va = 0 \/ size = 0) then Ret None
      else
        dwLength ← fetch 4 buf va;
        if bool_decide (dwLength = 0) then Ret None
        else
          type ← fetch 2 buf (va + 6);
          Ret (if bool_decide (type = WIN_CERT_TYPE_PKCS_SIGNED_DATA) then Some va else None)
  end.

(** ** Resources *)

Definition sizeof_RESOURCE_DIRECTORY : Z := 16.
Definition sizeof_DIRECTORY_ENTRY : Z := 8.

(** [memcmp(name, NameString, wcslen(name)) == 0]: [wcslen(name)] bytes of the [wchar_t]s. *)
Definition name_bytes (name : list Z) : list Z := take (length name) (concat (le_bytes 2 <$> name)).

Section resource.
Context (buf name : list Z) (root : Z).

(** Whether the named entry [dir_entry] has the name. *)
Definition entry_named (entry : Z) : checked bool :=
  n ← fetch 4 buf entry;
  let dir_string := root + Z.land n 0x7FFFFFFF in
  len ← fetch 2 buf dir_string;
  if negb (bool_decide (len = Z.of_nat (length name))) then Ret false
  else
    bs ← fetch_bytes (length name) buf (dir_string + 2);
    Ret (bool_decide (bs = name_bytes name)).

(** What [FindResourceRva] leaves: [FoundResourceRva], the address that it returns and
    the length, when it is stored. *)
Record rva_found := mkFound { FoundResourceRva : bool; rva : Z; rsrc_len : option Z }.

(** The loop of [FindResourceRva] from entry [i], with [n] left; [find] is the recursion. *)
Fixpoint dir_loop (find : Z -> bool -> checked rva_found) (dir named : Z) (n : nat) (i : Z) (found : bool)
    : checked rva_found :=
  match n with
  | O => Ret (mkFound found 0 None)
  | S n =>
      let entry := dir + sizeof_RESOURCE_DIRECTORY + sizeof_DIRECTORY_ENTRY * i in
      let check := negb found && bool_decide (i < named) in
      matches ← (if check then entry_named entry else Ret true);
      if negb matches then dir_loop find dir named n (i + 1) found
      else
        let found := found || check in
        off ← fetch 4 buf (entry + 4);
        if Z.testbit off 31 then
          r ← find (root + Z.land off 0x7FFFFFFF) found;
          if negb (bool_decide (rva r = 0)) then Ret r
          else dir_loop find dir named n (i + 1) (FoundResourceRva r)
        else if found then
          size ← fetch 4 buf (root + off + 4);
          addr ← fetch 4 buf (root + off);
          Ret (mkFound found addr (Some size))
        else dir_loop find dir named n (i + 1) found
  end.

(** [fuel] bounds the depth of the recursion. *)
Fixpoint FindResourceRva (fuel : nat) (dir : Z) (found : bool) : checked rva_found :=
  match fuel with
  | O => Fault NoEnd
  | S fuel =>
      let found := if bool_decide (root = dir) then false else found in
      named ← fetch 2 buf (dir + 12);
      ids ← fetch 2 buf (dir + 14);
      dir_loop (FindResourceRva fuel) dir named (Z.to_nat (named + ids)) 0 found
  end.
End resource.

(** ** Executables in memory *)

Record section := mkSection {
  sec_name : list Z; sec_vsize : Z; sec_va : Z; sec_raw : Z; sec_ptr : Z; sec_rest : list Z;
}.

Definition header_bytes (s : section) : list Z :=
  sec_name s ++ le_bytes 4 (sec_vsize s) ++ le_bytes 4 (sec_va s) ++ le_bytes 4 (sec_raw s) ++
  le_bytes 4 (sec_ptr s) ++ sec_rest s.

Definition u32_ok (z : Z) : Prop := 0 <= z < 2 ^ 32.

Definition section_ok (s : section) : Prop :=
  length (sec_name s) = 8%nat /\ u32_ok (sec_vsize s) /\ u32_ok (sec_va s) /\ u32_ok (sec_raw s) /\
  u32_ok (sec_ptr s) /\ length (sec_rest s) = 16%nat.

(** The headers of an executable at [nt] in [buf]. *)
Record pe_headers (buf : list Z) (nt machine : Z) (secs : list section) : Prop := {
  pe_nt : 0 <= nt < 2 ^ 31;
  pe_magic : at_off buf 0 (le_bytes 2 IMAGE_DOS_SIGNATURE);
  pe_lfanew : at_off buf off_e_lfanew (le_bytes 4 nt);
  pe_signature : at_off buf nt (le_bytes 4 IMAGE_NT_SIGNATURE);
  pe_machine : at_off buf (nt + 4) (le_bytes 2 machine);
  pe_machine_range : 0 <= machine < 2 ^ 16;
  pe_count : at_off buf (nt + off_NumberOfSections) (le_bytes 2 (Z.of_nat (length secs)));
  pe_count_range : Z.of_nat (length secs) < 2 ^ 16;
  pe_sections : at_off buf (nt + sizeof_NT_HEADERS (is_pe32 machine)) (concat (header_bytes <$> secs));
  pe_sections_ok : Forall section_ok secs;
}.

Lemma length_header_bytes s : section_ok s -> length (header_bytes s) = 40%nat.
Proof.
  intros (Hn & _ & _ & _ & _ & Hr). unfold header_bytes. rewrite !length_app, !length_le_bytes. lia.
Qed.

Section reads.
Context {buf : list Z} {nt machine : Z} {secs : list section} (H : pe_headers buf nt machine secs).

Lemma nt_header_spec : nt_header buf = Ret (Some nt).
Proof.
  destruct H as [Hnt Hmagic Hlf Hsig _ _ _ _ _ _]. unfold nt_header.
  rewrite (fetch_le_at _ _ _ _ Hmagic) by (unfold IMAGE_DOS_SIGNATURE; lia). cbn [mbind checked_bind].
  rewrite bool_decide_true by done. cbn [negb].
  rewrite (fetch_le_at _ _ _ _ Hlf) by (change (256 ^ Z.of_nat 4) with (2 ^ 32); lia). cbn [mbind checked_bind].
  replace (s32 nt) with nt by (unfold swrap; rewrite Z.mod_small; lia).
  rewrite (fetch_le_at _ _ _ _ Hsig) by (unfold IMAGE_NT_SIGNATURE; lia). done.
Qed.

Lemma machine_of_spec : machine_of buf nt = Ret machine.
Proof.
  unfold machine_of. destruct H. apply fetch_le_at; [done|]. change (256 ^ Z.of_nat 2) with (2 ^ 16). lia.
Qed.

Lemma GetPeArch_spec : GetPeArch buf = Ret machine.
Proof. unfold GetPeArch. rewrite nt_header_spec. cbn [mbind checked_bind]. apply machine_of_spec. Qed.

Lemma section_table_spec :
  section_table buf nt = Ret (nt + sizeof_NT_HEADERS (is_pe32 machine), length secs).
Proof.
  unfold section_table. rewrite machine_of_spec. cbn [mbind checked_bind].
  rewrite (fetch_le_at _ _ _ _ (pe_count _ _ _ _ H))
    by (pose proof (pe_count_range _ _ _ _ H); change (256 ^ Z.of_nat 2) with (2 ^ 16); lia).
  cbn [mbind checked_bind]. by rewrite Nat2Z.id.
Qed.
End reads.

(** The fields of a section header at [off]. *)
Lemma section_fields buf off s rest : section_ok s -> at_off buf off (header_bytes s ++ rest) ->
  fetch_bytes 8 buf off = Ret (sec_name s) /\ fetch 4 buf (off + off_VirtualSize) = Ret (sec_vsize s) /\
  fetch 4 buf (off + off_VirtualAddress) = Ret (sec_va s) /\
  fetch 4 buf (off + off_SizeOfRawData) = Ret (sec_raw s) /\
  fetch 4 buf (off + off_PointerToRawData) = Ret (sec_ptr s).
Proof.
  intros (Hname & Hvs & Hva & Hraw & Hptr & Hrest) Hat. unfold header_bytes in Hat. rewrite <- !app_assoc in Hat.
  assert (Hf : forall a z c k, at_off buf off (a ++ le_bytes 4 z ++ c) -> Z.of_nat (length a) = k -> u32_ok z ->
    fetch 4 buf (off + k) = Ret z).
  { intros a z c k Ha <- Hz. apply fetch_le_at; [by eapply at_off_sub|exact Hz]. }
  split_and!.
  - apply fetch_bytes_at; [by eapply at_off_head|done].
  - eapply Hf; [exact Hat|by rewrite Hname|done].
  - rewrite (app_assoc (sec_name s)) in Hat.
    eapply Hf; [exact Hat|rewrite length_app, length_le_bytes, Hname; done|done].
  - rewrite (app_assoc (sec_name s)), (app_assoc (sec_name s ++ _)) in Hat.
    eapply Hf; [exact Hat|rewrite !length_app, !length_le_bytes, Hname; done|done].
  - rewrite (app_assoc (sec_name s)), (app_assoc (sec_name s ++ _)), (app_assoc ((sec_name s ++ _) ++ _)) in Hat.
    eapply Hf; [exact Hat|rewrite !length_app, !length_le_bytes, Hname; done|done].
Qed.

(** The header of a section and the ones after it. *)
Lemma at_headers_cons buf off s secs rest : section_ok s ->
  at_off buf off (concat (header_bytes <$> s :: secs) ++ rest) ->
  at_off buf off (header_bytes s ++ concat (header_bytes <$> secs) ++ rest) /\
  at_off buf (off + sizeof_SECTION_HEADER) (concat (header_bytes <$> secs) ++ rest).
Proof.
  intros Hs Hat. cbn [fmap list_fmap concat] in Hat. rewrite <- app_assoc in Hat. split; [done|].
  replace sizeof_SECTION_HEADER with (Z.of_nat (length (header_bytes s))) by (by rewrite length_header_bytes).
  by apply at_off_tail.
Qed.

(** ** Sections *)

(** The first section of a name. *)
Definition first_section (P : section -> bool) (secs : list section) : option section :=
  snd <$> list_find (fun s => P s = true) secs.

Lemma first_section_cons P s secs :
  first_section P (s :: secs) = if P s then Some s else first_section P secs.
Proof.
  unfold first_section. cbn [list_find]. destruct (decide (P s = true)) as [->|Hn]; [done|].
  apply not_true_is_false in Hn. rewrite Hn. by destruct (list_find _ secs).
Qed.

Lemma find_section_spec buf first name secs : forall off, Forall section_ok secs ->
  at_off buf off (concat (header_bytes <$> secs)) -> forall raw, fetch 4 buf (first + off_SizeOfRawData) = Ret raw \/ secs = [] ->
  find_section buf first off (length secs) name =
    Ret ((fun s => (sec_ptr s, raw)) <$> first_section (fun s => bool_decide (sec_name s = section_name name)) secs).
Proof.
  induction secs as [|s secs IH]; intros off Hok Hat raw Hraw; [done|].
  destruct Hraw as [Hraw|?]; [|done]. apply Forall_cons in Hok as [Hs Hok].
  rewrite <- (app_nil_r (concat _)) in Hat. apply at_headers_cons in Hat as [Hhere Hnext]; [|done].
  rewrite app_nil_r in Hnext. destruct (section_fields _ _ _ _ Hs Hhere) as (Hname & _ & _ & _ & Hptr).
  cbn [length find_section]. rewrite Hname. cbn [mbind checked_bind]. rewrite first_section_cons.
  destruct (bool_decide (sec_name s = section_name name)).
  - rewrite Hraw. cbn [mbind checked_bind]. by rewrite Hptr.
  - apply IH; [done|done|by left].
Qed.

(** The address is the one of the first section of the name; the length that is stored is the
    one of the first section of the table. *)
Lemma GetPeSection_spec buf nt machine secs name : pe_headers buf nt machine secs ->
  GetPeSection buf name =
    Ret ((fun s => (sec_ptr s, default 0 (sec_raw <$> head secs))) <$>
         first_section (fun s => bool_decide (sec_name s = section_name name)) secs).
Proof.
  intros H. unfold GetPeSection. rewrite (nt_header_spec H). cbn [mbind checked_bind].
  rewrite (section_table_spec H). cbn [mbind checked_bind].
  apply find_section_spec; [apply H|apply H|]. destruct secs as [|s secs]; [by right|left].
  pose proof (pe_sections _ _ _ _ H) as Hat. pose proof (pe_sections_ok _ _ _ _ H) as Hok.
  apply Forall_cons in Hok as [Hs _]. rewrite <- (app_nil_r (concat _)) in Hat.
  apply at_headers_cons in Hat as [Hhere _]; [|done].
  by destruct (section_fields _ _ _ _ Hs Hhere) as (_ & _ & _ & -> & _).
Qed.

(** Whether a section holds an address, with the end of the section in 32 bits. *)
Definition holds_rva (rva : Z) (s : section) : bool :=
  bool_decide (sec_va s <= rva /\ rva < u32 (sec_va s + sec_vsize s)).

Lemma find_rva_spec buf rva secs : forall off, Forall section_ok secs ->
  at_off buf off (concat (header_bytes <$> secs)) ->
  find_rva buf off (length secs) rva =
    Ret ((fun s => u32 (sec_ptr s + u32 (rva - sec_va s))) <$> first_section (holds_rva rva) secs).
Proof.
  induction secs as [|s secs IH]; intros off Hok Hat; [done|]. apply Forall_cons in Hok as [Hs Hok].
  rewrite <- (app_nil_r (concat _)) in Hat. apply at_headers_cons in Hat as [Hhere Hnext]; [|done].
  rewrite app_nil_r in Hnext. destruct (section_fields _ _ _ _ Hs Hhere) as (_ & Hvs & Hva & _ & Hptr).
  cbn [length find_rva]. rewrite Hva. cbn [mbind checked_bind]. rewrite Hvs. cbn [mbind checked_bind].
  rewrite first_section_cons. unfold holds_rva at 1. destruct (bool_decide _).
  - by rewrite Hptr.
  - by apply IH.
Qed.

Lemma RvaToPhysical_spec buf nt machine secs rva : pe_headers buf nt machine secs ->
  RvaToPhysical buf rva =
    Ret ((fun s => u32 (sec_ptr s + u32 (rva - sec_va s))) <$> first_section (holds_rva rva) secs).
Proof.
  intros H. unfold RvaToPhysical. rewrite (nt_header_spec H). cbn [mbind checked_bind].
  rewrite (section_table_spec H). cbn [mbind checked_bind]. apply find_rva_spec; apply H.
Qed.

(** An address in the first section that holds it is turned into a place in this section. *)
Lemma rva_in_section rva s secs : first_section (holds_rva rva) secs = Some s -> section_ok s ->
  sec_va s <= rva < sec_va s + sec_vsize s.
Proof.
  unfold first_section. intros Hf (_ & Hvs & Hva & _). destruct (list_find _ secs) as [[i s']|] eqn:Hl; [|done].
  injection Hf as ->. apply list_find_Some in Hl as (_ & Hh & _). unfold holds_rva in Hh.
  apply bool_decide_eq_true_1 in Hh. unfold uwrap, u32_ok in *.
  pose proof (Z.mod_le (sec_va s + sec_vsize s) (2 ^ 32) ltac:(lia) ltac:(lia)). lia.
Qed.
