(* ===== verification/Resources.v ===== *)
(** Resources: [FindResourceRva] of src/src/parser.c against trees of resources laid out in memory. *)

From S2P Require Import Prelude Pe Faults PeParse.

(** ** Trees of resources *)

Inductive rsrc_label := NamedEntry (off : Z) (chars : list Z) | IdEntry (id : Z).

(** The offsets are from the root. *)
Inductive rsrc :=
  | Leaf (off addr size : Z)
  | Dir (off : Z) (entries : list (rsrc_label * rsrc)).

Definition is_named (l : rsrc_label) : bool := match l with NamedEntry _ _ => true | IdEntry _ => false end.
Definition rsrc_off (t : rsrc) : Z := match t with Leaf off _ _ => off | Dir off _ => off end.
Definition is_dir (t : rsrc) : bool := match t with Dir _ _ => true | Leaf _ _ _ => false end.

Definition label_word (l : rsrc_label) : Z := match l with NamedEntry off _ => 2 ^ 31 + off | IdEntry id => id end.
Definition child_word (t : rsrc) : Z := (if is_dir t then 2 ^ 31 else 0) + rsrc_off t.
Definition wide (chars : list Z) : list Z := concat (le_bytes 2 <$> chars).

Definition entry_bytes (e : rsrc_label * rsrc) : list Z := le_bytes 4 (label_word (fst e)) ++ le_bytes 4 (child_word (snd e)).

Definition count_named (es : list (rsrc_label * rsrc)) : nat := length (filter (fun e => is_named (fst e) = true) es).

(** The header of a directory: characteristics, time stamp and version, then the counts. *)
Definition dir_bytes (start : list Z) (es : list (rsrc_label * rsrc)) : list Z :=
  start ++ le_bytes 2 (Z.of_nat (count_named es)) ++ le_bytes 2 (Z.of_nat (length es - count_named es)) ++
  concat (entry_bytes <$> es).

Section tree.
Context (name : list Z).

(** What the code takes for the name: the length and the first half of the bytes. *)
Definition same_name (chars : list Z) : bool :=
  bool_decide (length chars = length name) && bool_decide (take (length name) (wide chars) = name_bytes name).

Definition label_matches (l : rsrc_label) (found : bool) : bool :=
  match l with NamedEntry _ chars => found || same_name chars | IdEntry _ => true end.

(** The search of a tree: names count only until one has matched. *)
Fixpoint tree_find (t : rsrc) (found : bool) : rva_found :=
  match t with
  | Leaf _ _ _ => mkFound found 0 None
  | Dir _ entries =>
      (fix find_entries es found :=
        match es with
        | [] => mkFound found 0 None
        | (l, child) :: es =>
            if negb (label_matches l found) then find_entries es found
            else
              let found := found || is_named l in
              match child with
              | Dir _ _ =>
                  let r := tree_find child found in
                  if bool_decide (rva r = 0) then find_entries es (FoundResourceRva r) else r
              | Leaf _ addr size => if found then mkFound found addr (Some size) else find_entries es found
              end
        end) entries found
  end.

Fixpoint find_entries (es : list (rsrc_label * rsrc)) (found : bool) : rva_found :=
  match es with
  | [] => mkFound found 0 None
  | (l, child) :: es =>
      if negb (label_matches l found) then find_entries es found
      else
        let found := found || is_named l in
        match child with
        | Dir _ _ =>
            let r := tree_find child found in
            if bool_decide (rva r = 0) then find_entries es (FoundResourceRva r) else r
        | Leaf _ addr size => if found then mkFound found addr (Some size) else find_entries es found
        end
  end.

Lemma tree_find_dir off es found : tree_find (Dir off es) found = find_entries es found.
Proof.
  cbn [tree_find]. revert found. induction es as [|[l child] es IH]; intros found; [done|].
  cbn [find_entries]. by rewrite !IH.
Qed.
End tree.

(** ** Trees in memory *)

Section laid_out.
Context (buf : list Z) (root : Z).

Definition label_at (l : rsrc_label) : Prop :=
  match l with
  | NamedEntry off chars =>
      0 <= off < 2 ^ 31 /\ Z.of_nat (length chars) < 2 ^ 16 /\
      at_off buf (root + off) (le_bytes 2 (Z.of_nat (length chars)) ++ wide chars)
  | IdEntry id => 0 <= id < 2 ^ 31
  end.

Definition names_first (named : nat) (i : nat) (es : list (rsrc_label * rsrc)) : Prop :=
  forall j e, es !! j = Some e -> is_named (fst e) = bool_decide (i + j < named)%nat.

(** A tree of at most [n] levels of directories. *)
Fixpoint laid_out (n : nat) (t : rsrc) : Prop :=
  match n with
  | O => False
  | S n =>
      match t with
      | Leaf _ _ _ => False
      | Dir off es =>
          exists start, length start = 12%nat /\ at_off buf (root + off) (dir_bytes start es) /\
          Z.of_nat (length es) < 2 ^ 16 /\ names_first (count_named es) 0 es /\
          Forall (fun e => label_at (fst e) /\ 0 <= rsrc_off (snd e) < 2 ^ 31 /\
            match snd e with
            | Leaf off addr size => at_off buf (root + off) (le_bytes 4 addr ++ le_bytes 4 size) /\
                0 <= addr < 2 ^ 32 /\ 0 <= size < 2 ^ 32
            | Dir off es => 0 < off /\ laid_out n (Dir off es)
            end) es
      end
  end.
End laid_out.

Lemma word_low31 x : 0 <= x < 2 ^ 31 -> Z.land (2 ^ 31 + x) 0x7FFFFFFF = x /\ Z.testbit (2 ^ 31 + x) 31 = true.
Proof.
  intros Hx. change 0x7FFFFFFF with (Z.ones 31). rewrite Z.land_ones by lia. split.
  - rewrite <- (Z.mul_1_l (2 ^ 31)) at 1. rewrite Z.add_comm, Z.mod_add by lia. by apply Z.mod_small.
  - rewrite Z.testbit_true by lia. rewrite <- (Z.mul_1_l (2 ^ 31)) at 1.
    rewrite Z.add_comm, Z.div_add, Z.div_small by lia. done.
Qed.

Lemma word_bit31 x : 0 <= x < 2 ^ 31 -> Z.testbit x 31 = false.
Proof. intros Hx. apply Z.bits_above_log2; [lia|]. destruct (decide (x = 0)) as [->|]; [done|]. apply Z.log2_lt_pow2; lia. Qed.

Lemma take_wide n chars : (n <= length chars)%nat -> (n <= length (wide chars))%nat.
Proof.
  intros Hn. unfold wide. enough (length (concat (le_bytes 2 <$> chars)) = (2 * length chars)%nat) by lia.
  clear Hn. induction chars as [|c cs IH]; [done|]. cbn [fmap list_fmap concat length].
  rewrite length_app, IH, length_le_bytes. lia.
Qed.

Section find.
Context (buf name : list Z) (root : Z).

(** The label of an entry, whatever has been found. *)
Lemma entry_named_spec off chars entry rest :
  label_at buf root (NamedEntry off chars) -> at_off buf entry (le_bytes 4 (2 ^ 31 + off) ++ rest) ->
  entry_named buf name root entry = Ret (same_name name chars).
Proof.
  intros (Hoff & Hlen & Hat) Hentry. unfold entry_named, same_name.
  rewrite (fetch_le_at _ _ _ _ (at_off_head _ _ _ _ Hentry)) by (change (256 ^ Z.of_nat 4) with (2 ^ 32); lia).
  cbn [mbind checked_bind]. destruct (word_low31 off Hoff) as [-> _].
  rewrite (fetch_le_at _ _ _ _ (at_off_head _ _ _ _ Hat)) by (change (256 ^ Z.of_nat 2) with (2 ^ 16); lia).
  cbn [mbind checked_bind]. destruct (decide (length chars = length name)) as [Heq|Hne].
  - rewrite (bool_decide_true (_ = Z.of_nat _)) by lia. rewrite (bool_decide_true (length chars = _)) by done.
    cbn [negb andb]. pose proof (take_wide (length name) chars ltac:(lia)) as Hw.
    apply at_off_tail in Hat. rewrite length_le_bytes in Hat.
    rewrite <- (take_drop (length name) (wide chars)) in Hat. apply at_off_head in Hat.
    replace (root + off + Z.of_nat 2) with (root + off + 2) in Hat by lia.
    by rewrite (fetch_bytes_at _ _ _ _ Hat) by (rewrite length_take; lia).
  - rewrite (bool_decide_false (_ = Z.of_nat _)) by lia. by rewrite (bool_decide_false (length chars = _)) by done.
Qed.

(** The label in the loop: whether the entry is looked at, and whether its name is compared. *)
Lemma label_check l child entry rest named i found :
  label_at buf root l -> at_off buf entry (entry_bytes (l, child) ++ rest) ->
  is_named l = bool_decide (i < named) ->
  let check := negb found && bool_decide (i < named) in
  (if check then entry_named buf name root entry else Ret true) = Ret (label_matches name l found) /\
  (label_matches name l found = true -> (found || check)%bool = (found || is_named l)%bool).
Proof.
  intros Hl Hat Hnamed check. unfold check. rewrite <- Hnamed. destruct l as [off chars|id]; cbn [is_named label_matches].
  - destruct found; cbn [negb andb orb]; [done|]. split; [|done].
    unfold entry_bytes in Hat. cbn [fst label_word] in Hat. rewrite <- app_assoc in Hat.
    by eapply entry_named_spec.
  - destruct found; done.
Qed.

Definition child_found (rec : Z -> bool -> checked rva_found) (t : rsrc) : Prop :=
  match t with
  | Leaf off addr size => at_off buf (root + off) (le_bytes 4 addr ++ le_bytes 4 size) /\
      0 <= addr < 2 ^ 32 /\ 0 <= size < 2 ^ 32
  | Dir off es => forall found, rec (root + off) found = Ret (tree_find name (Dir off es) found)
  end.

Lemma dir_loop_spec rec dir named es : forall i found,
  at_off buf (dir + 16 + 8 * Z.of_nat i) (concat (entry_bytes <$> es)) -> names_first named i es ->
  Forall (fun e => label_at buf root (fst e) /\ 0 <= rsrc_off (snd e) < 2 ^ 31 /\ child_found rec (snd e)) es ->
  dir_loop buf name root rec dir (Z.of_nat named) (length es) (Z.of_nat i) found = Ret (find_entries name es found).
Proof.
  induction es as [|[l child] es IH]; intros i found Hat Hnamed Hok; [done|].
  apply Forall_cons in Hok as [(Hl & Hoff & Hchild) Hok]. cbn [fst snd] in *.
  cbn [fmap list_fmap concat] in Hat.
  assert (Hnext : forall found, dir_loop buf name root rec dir (Z.of_nat named) (length es) (Z.of_nat i + 1) found =
    Ret (find_entries name es found)).
  { intros f. replace (Z.of_nat i + 1) with (Z.of_nat (S i)) by lia. apply IH; [| |done].
    - apply at_off_tail in Hat. unfold entry_bytes in Hat at 1. rewrite length_app, !length_le_bytes in Hat.
      by replace (dir + 16 + 8 * Z.of_nat (S i)) with (dir + 16 + 8 * Z.of_nat i + Z.of_nat (4 + 4)) by lia.
    - intros j e Hj. specialize (Hnamed (S j) e Hj). rewrite Hnamed. apply bool_decide_ext. lia. }
  cbn [length dir_loop find_entries]. unfold sizeof_RESOURCE_DIRECTORY, sizeof_DIRECTORY_ENTRY.
  specialize (Hnamed 0%nat (l, child) eq_refl). cbn [fst] in Hnamed.
  assert (Hn : is_named l = bool_decide (Z.of_nat i < Z.of_nat named))
    by (rewrite Hnamed; apply bool_decide_ext; lia).
  destruct (label_check l child _ _ _ (Z.of_nat i) found Hl Hat Hn) as [-> Hfound]. cbn [mbind checked_bind].
  destruct (label_matches name l found) eqn:Hm; cbn [negb]; [|apply Hnext]. rewrite Hfound by done.
  assert (Hword : fetch 4 buf (dir + 16 + 8 * Z.of_nat i + 4) = Ret (child_word child)).
  { unfold entry_bytes in Hat. cbn [snd] in Hat. rewrite <- app_assoc in Hat. eapply at_off_sub in Hat.
    rewrite length_le_bytes in Hat. apply fetch_le_at; [exact Hat|].
    unfold child_word. change (256 ^ Z.of_nat 4) with (2 ^ 32). destruct (is_dir child); lia. }
  rewrite Hword. cbn [mbind checked_bind]. destruct child as [off addr size|off es']; cbn [child_word is_dir rsrc_off] in *.
  - change (child_word (Leaf off addr size)) with (0 + off). rewrite Z.add_0_l, word_bit31 by done. destruct (found || is_named l)%bool; [|apply Hnext].
    destruct Hchild as (Hat' & Haddr & Hsize).
    pose proof (at_off_tail _ _ _ _ Hat') as Hs. rewrite length_le_bytes in Hs.
    replace (root + off + Z.of_nat 4) with (root + off + 4) in Hs by lia.
    rewrite (fetch_le_at _ _ _ _ Hs) by (change (256 ^ Z.of_nat 4) with (2 ^ 32); lia). cbn [mbind checked_bind].
    rewrite (fetch_le_at _ _ _ _ (at_off_head _ _ _ _ Hat')) by (change (256 ^ Z.of_nat 4) with (2 ^ 32); lia). done.
  - change (child_word (Dir off es')) with (2 ^ 31 + off). destruct (word_low31 off Hoff) as [-> ->]. rewrite Hchild. cbn [mbind checked_bind].
    destruct (decide (rva (tree_find name (Dir off es') (found || is_named l)) = 0)) as [Hr|Hr].
    + rewrite !(bool_decide_true _ Hr). apply Hnext.
    + by rewrite !(bool_decide_false _ Hr).
Qed.

(** The search of a directory that is laid out; at the root it starts with nothing found. *)
Lemma FindResourceRva_spec n : forall fuel off es found, (n <= fuel)%nat -> laid_out buf root n (Dir off es) ->
  FindResourceRva buf name root fuel (root + off) found =
    Ret (tree_find name (Dir off es) (if bool_decide (off = 0) then false else found)).
Proof.
  induction n as [|n IH]; intros fuel off es found Hn Hlaid; [done|]. destruct fuel as [|fuel]; [lia|].
  destruct Hlaid as (start & Hstart & Hat & Hcount & Hnamed & Hes). cbn [FindResourceRva].
  replace (bool_decide (root = root + off)) with (bool_decide (off = 0)) by (apply bool_decide_ext; lia).
  unfold dir_bytes in Hat. apply at_off_tail in Hat. rewrite Hstart in Hat.
  change (Z.of_nat 12) with 12 in Hat.
  assert (Hle : (count_named es <= length es)%nat) by apply length_filter.
  rewrite (fetch_le_at _ _ _ _ (at_off_head _ _ _ _ Hat)) by (change (256 ^ Z.of_nat 2) with (2 ^ 16); lia).
  cbn [mbind checked_bind]. apply at_off_tail in Hat. rewrite length_le_bytes in Hat.
  replace (root + off + 12 + Z.of_nat 2) with (root + off + 14) in Hat by lia.
  rewrite (fetch_le_at _ _ _ _ (at_off_head _ _ _ _ Hat)) by (change (256 ^ Z.of_nat 2) with (2 ^ 16); lia).
  cbn [mbind checked_bind]. apply at_off_tail in Hat. rewrite length_le_bytes in Hat.
  replace (Z.to_nat (_ + _)) with (length es) by lia. rewrite tree_find_dir.
  apply (dir_loop_spec _ _ _ _ 0%nat); [|done|].
  - by replace (root + off + 16 + 8 * Z.of_nat 0) with (root + off + 14 + Z.of_nat 2) by lia.
  - eapply Forall_impl; [exact Hes|]. intros [l child] (Hl & Hoff & Hchild). split_and!; [done|lia|lia|].
    cbn [snd] in *. destruct child as [o a s|o es']; [done|]. destruct Hchild as [Ho Hlaid].
    intros f. rewrite (IH fuel o es' f) by (first [lia|done]). by rewrite bool_decide_false by lia.
Qed.
End find.

(** ** What goes wrong *)

(** A directory with an entry that is the directory itself: the recursion does not end. *)
Definition cyclic_directory : list Z := replicate 12 0 ++ [0; 0; 1; 0] ++ le_bytes 4 1 ++ le_bytes 4 (2 ^ 31).

Lemma cyclic_directory_no_end name fuel found :
  FindResourceRva cyclic_directory name 0 fuel 0 found = Fault NoEnd.
Proof.
  revert found. induction fuel as [|fuel IH]; intros found; [done|]. cbn [FindResourceRva].
  rewrite bool_decide_true by done.
  change (fetch 2 cyclic_directory (0 + 12)) with (Ret 0). change (fetch 2 cyclic_directory (0 + 14)) with (Ret 1).
  cbn [mbind checked_bind]. change (Z.to_nat (0 + 1)) with 1%nat. cbn [dir_loop].
  change (bool_decide (0 < 0)) with false. cbn [negb andb orb mbind checked_bind].
  change (fetch 4 cyclic_directory _) with (Ret (2 ^ 31)). cbn [mbind checked_bind].
  change (Z.testbit (2 ^ 31) 31) with true. cbv iota. change (0 + Z.land (2 ^ 31) 0x7FFFFFFF) with 0. by rewrite IH.
Qed.

(** Names of one length with one first half are taken for each other. *)
Lemma name_second_half_ignored : same_name [65; 66; 67; 68] [65; 66; 88; 89] = true.
Proof. vm_compute. done. Qed.
