(* ===== verification/CText.v ===== *)
(** CText: the functions of the C run-time on texts that the sources call: scans, numbers, and
    string literals. *)

From Stdlib Require Import Ascii String.
From S2P Require Import Prelude.

(** The bytes of a literal. *)
Definition chars (s : string) : list Z := (fun a => Z.of_N (N_of_ascii a)) <$> list_ascii_of_string s.
Arguments chars s%_string_scope.

(** The characters up to the first one that stops the scan, and the rest. *)
Fixpoint scan (stops : Z -> bool) (s : list Z) : list Z * list Z :=
  match s with
  | [] => ([], [])
  | c :: s' => if stops c then ([], s) else let '(pre, rest) := scan stops s' in (c :: pre, rest)
  end.

(** ** Numbers *)

Definition is_space (c : Z) : bool := bool_decide (9 <= c <= 13 \/ c = 32).
Definition skip_spaces (s : list Z) : list Z := snd (scan (fun c => negb (is_space c)) s).

Definition digit_value (c : Z) : option Z :=
  if bool_decide (48 <= c <= 57) then Some (c - 48)
  else if bool_decide (65 <= c <= 90) then Some (c - 55)
  else if bool_decide (97 <= c <= 122) then Some (c - 87) else None.

(** The value of the digits at the start of [s]. *)
Fixpoint digits_value (base acc : Z) (s : list Z) : Z :=
  match s with
  | [] => acc
  | c :: s =>
      match digit_value c with
      | Some d => if bool_decide (d < base) then digits_value base (acc * base + d) s else acc
      | None => acc
      end
  end.

(** The sign and what follows it. *)
Definition sign (s : list Z) : bool * list Z :=
  match s with
  | c :: s' => if bool_decide (c = 45) then (true, s') else (false, if bool_decide (c = 43) then s' else s)
  | [] => (false, [])
  end.

(** [strtoul] in base 10 or 16, of a C string. *)
Definition strtoul_base (base : Z) (s : list Z) : Z :=
  let '(neg, s) := sign (skip_spaces s) in
  let s := if bool_decide (base = 16 /\ (take 2 s = [48; 120] \/ take 2 s = [48; 88])) then drop 2 s else s in
  let v := digits_value base 0 s in
  if bool_decide (v > 0xFFFFFFFF) then 0xFFFFFFFF else if neg then u32 (- v) else v.

(** [atoi], which does not exceed the bounds of an [int]. *)
Definition atoi (s : list Z) : Z :=
  let '(neg, s) := sign (skip_spaces s) in
  let v := digits_value 10 0 s in
  if neg then Z.max (- 2 ^ 31) (- v) else Z.min (2 ^ 31 - 1) v.
