(* ===== verification/Sbat.v ===== *)
(** Sbat: the texts of Secure Boot revocation: [GetSbatEntries] and [GetThumbprintEntries]
    of src/src/parser.c, and the reading of a .sbat section in src/src/hash.c.

    A pointer into a text is the rest of its block from there, the terminator and what
    follows it included; a read past the end is [OutOfBlock]. *)

From S2P Require Import Prelude CText Faults.

(** ** Lines and fields *)

Definition COMMA : Z := 44.
Definition NEWLINE : Z := 10.

Definition end_of_line (c : Z) : bool := bool_decide (c = 0 \/ c = NEWLINE).
Definition end_of_field (c : Z) : bool := bool_decide (c = COMMA) || end_of_line c.

(** [*s]. *)
Definition deref (s : list Z) : checked Z := access (head s).

(** ** [GetSbatEntries] *)

Record sbat_entry_t := mkSbat { product : list Z; version : Z }.

(** A decimal version, or an hexadecimal one after [0x]. *)
Definition sbat_version (version_str : list Z) : Z :=
  strtoul_base (if bool_decide (take 2 version_str = [48; 120]) then 16 else 10) version_str.

(** The loop: [list] are the first [num_entries] elements; [slot] is the product of the
    next one, whose version is 0, when it has been set. A product is the name that was scanned:
    when a newline ends it, the source leaves the pointer to the rest of the text, without
    a terminator; but then the loop ends and the version is 0. *)
Fixpoint sbat_entries_loop (fuel : nat) (s : list Z) (list : list sbat_entry_t) (slot : option (Datatypes.list Z))
    : checked (Datatypes.list sbat_entry_t * option (Datatypes.list Z)) :=
  match fuel with
  | O => Fault NoEnd
  | S fuel =>
      c ← deref s;
      if bool_decide (c = 0) then Ret (list, slot)
      else if bool_decide (c = NEWLINE) then sbat_entries_loop fuel (tail s) list slot
      else if bool_decide (c = 35) then sbat_entries_loop fuel (snd (scan end_of_line s)) list slot
      else
        let '(name, s) := scan end_of_field s in
        c ← deref s;
        if end_of_line c then Ret (list, Some name)
        else
          let '(version_str, s) := scan end_of_field (tail s) in
          c ← deref s;
          let eol := end_of_line c in
          let s := if bool_decide (c = 0) then s else tail s in
          let s := if eol then s else snd (scan end_of_line s) in
          _ ← deref s;
          let v := sbat_version version_str in
          if bool_decide (v = 0) then sbat_entries_loop fuel s list (Some name)
          else sbat_entries_loop fuel s (list ++ [mkSbat name v]) None
  end.

(** The elements before the one whose product is NULL. [None] is NULL. *)
Definition sbat_array (list : list sbat_entry_t) (slot : option (Datatypes.list Z)) : Datatypes.list sbat_entry_t :=
  list ++ match slot with Some name => [mkSbat name 0] | None => [] end.

Definition GetSbatEntries (sbatlevel : list Z) : checked (option (list sbat_entry_t)) :=
  '(list, slot) ← sbat_entries_loop (S (length sbatlevel)) sbatlevel [] None;
  Ret (if bool_decide (length list = 0%nat) then None else Some (sbat_array list slot)).

(** ** [GetThumbprintEntries] *)

Definition SHA1_HASHSIZE : nat := 20.

Definition IS_HEXASCII (c : Z) : bool := bool_decide (48 <= c <= 57 \/ 65 <= c <= 70 \/ 97 <= c <= 102).
Definition FROM_HEXASCII (c : Z) : Z :=
  if bool_decide (48 <= c <= 57) then c - 48
  else if bool_decide (65 <= c <= 90) then c - 65 + 10
  else if bool_decide (97 <= c <= 122) then c - 97 + 10 else 0.

(** The loop over the characters of a line from the [j]th on: [row] is the element of
    index [count]; the elements after it are zero. *)
Fixpoint thumbprint_line (s : list Z) (j : nat) (list : list (list Z)) (row : Datatypes.list Z)
    : Datatypes.list (Datatypes.list Z) * Datatypes.list Z :=
  match s with
  | [] => (list, row)
  | c :: s =>
      if negb (IS_HEXASCII c) then (list, row)
      else if bool_decide (SHA1_HASHSIZE <= j / 2)%nat then (list, row)
      else
        let row := <[(j / 2)%nat := Z.lor (u8 (Z.shiftl (row !!! (j / 2)%nat) 4)) (FROM_HEXASCII c)]> row in
        if bool_decide (j = 2 * SHA1_HASHSIZE - 1)%nat
        then thumbprint_line s (S j) (list ++ [row]) (replicate SHA1_HASHSIZE 0)
        else thumbprint_line s (S j) list row
  end.

Fixpoint thumbprints_loop (fuel : nat) (s : list Z) (list : list (list Z)) (row : Datatypes.list Z)
    : checked (Datatypes.list (Datatypes.list Z)) :=
  match fuel with
  | O => Fault NoEnd
  | S fuel =>
      c ← deref s;
      if bool_decide (c = 0) then Ret list
      else if bool_decide (c = NEWLINE) then thumbprints_loop fuel (tail s) list row
      else
        let '(line, s) := scan end_of_line s in
        _ ← deref s;
        if negb (IS_HEXASCII c) then thumbprints_loop fuel s list row
        else
          let '(list, row) := thumbprint_line line 0 list row in
          thumbprints_loop fuel s list row
  end.

(** [None] is NULL. *)
Definition GetThumbprintEntries (thumbprints_txt : list Z) : checked (option (list (list Z))) :=
  list ← thumbprints_loop (S (length thumbprints_txt)) thumbprints_txt [] (replicate SHA1_HASHSIZE 0);
  Ret (if bool_decide (length list = 0%nat) then None else Some list).

(** ** The .sbat section of an executable *)

(** The loop of [IsRevokedBySbat]: whether an entry is revoked, and the section as it is left. *)
Fixpoint sbat_section_loop (fuel : nat) (entries : list sbat_entry_t) (sbat : list Z) : checked (bool * list Z) :=
  match fuel with
  | O => Fault NoEnd
  | S fuel =>
      c ← deref sbat;
      if bool_decide (c = 0) then Ret (false, sbat)
      else
        let '(blank, s) := scan (fun c => negb (bool_decide (c = NEWLINE))) sbat in
        c ← deref s;
        if bool_decide (c = 0) then Ret (false, sbat)
        else
          let '(name, s) := scan end_of_field s in
          c ← deref s;
          if end_of_line c then Ret (false, sbat)
          else
            let '(version_str, s) := scan end_of_field (tail s) in
            _ ← deref s;
            let '(skipped, s) := scan end_of_line (tail s) in
            _ ← deref s;
            let before := blank ++ name ++ [0] ++ version_str ++ [0] ++ skipped in
            let v := u32 (atoi version_str) in
            if negb (bool_decide (v = 0)) && existsb (fun e => bool_decide (product e = name) && bool_decide (v < version e)) entries
            then Ret (true, before ++ s)
            else '(r, s) ← sbat_section_loop fuel entries s; Ret (r, before ++ s)
  end.
