(* ===== verification/SbatProps.v ===== *)
(** SbatProps: the parsers of revocation texts against the lines of the text. *)

From S2P Require Import Prelude CText Faults Sbat.

(** ** Texts made of lines *)

(** Lines, the terminator and what follows it. *)
Fixpoint text (ls : list (list Z)) (rest : list Z) : list Z :=
  match ls with
  | [] => 0 :: rest
  | [l] => l ++ 0 :: rest
  | l :: ls => l ++ NEWLINE :: text ls rest
  end.

(** What follows a line. *)
Definition after (ls : list (list Z)) (rest : list Z) : list Z :=
  match ls with [] => 0 :: rest | _ => NEWLINE :: text ls rest end.

Definition line_ok (l : list Z) : Prop := Forall (fun c => end_of_line c = false) l.

Lemma text_cons l ls rest : text (l :: ls) rest = l ++ after ls rest.
Proof. by destruct ls. Qed.

Lemma after_cons ls rest : exists c r, after ls rest = c :: r /\ end_of_line c = true.
Proof. destruct ls; eexists _, _; done. Qed.

Lemma scan_app stops pre c r : Forall (fun c => stops c = false) pre -> stops c = true ->
  scan stops (pre ++ c :: r) = (pre, c :: r).
Proof.
  intros Hpre Hc. induction Hpre as [|x pre Hx Hpre IH]; cbn [app scan]; [by rewrite Hc|].
  by rewrite Hx, IH.
Qed.

(** Scanning to the end of a line. *)
Lemma scan_line l ls rest : line_ok l -> scan end_of_line (l ++ after ls rest) = (l, after ls rest).
Proof. intros Hl. destruct (after_cons ls rest) as (c & r & -> & Hc). by apply scan_app. Qed.

(** A field of a line: up to a comma or the end. *)
Lemma scan_field f c r : line_ok f -> ~ In COMMA f -> end_of_field c = true ->
  scan end_of_field (f ++ c :: r) = (f, c :: r).
Proof.
  intros Hf Hcomma Hc. apply scan_app; [|done]. apply Forall_forall. intros x Hx.
  unfold end_of_field. apply orb_false_iff. split.
  - apply bool_decide_eq_false_2. intros ->. by apply Hcomma, list_elem_of_In.
  - unfold line_ok in Hf. rewrite Forall_forall in Hf. by apply Hf.
Qed.

(** ** [GetSbatEntries] *)

(** The kinds of line: blank, a comment, a product with a version and maybe more. *)
Inductive sbat_text_line :=
  | BlankLine
  | CommentLine (comment : list Z)
  | EntryLine (name ver : list Z) (more : option (list Z)).

Definition line_text (l : sbat_text_line) : list Z :=
  match l with
  | BlankLine => []
  | CommentLine comment => 35 :: comment
  | EntryLine name ver more => name ++ COMMA :: ver ++ match more with Some m => COMMA :: m | None => [] end
  end.

Definition field_ok (f : list Z) : Prop := line_ok f /\ ~ In COMMA f.

Definition sbat_text_ok (l : sbat_text_line) : Prop :=
  match l with
  | BlankLine => True
  | CommentLine comment => line_ok comment
  | EntryLine name ver more =>
      field_ok name /\ head name <> Some 35 /\ field_ok ver /\ match more with Some m => line_ok m | None => True end
  end.

(** The entries of the lines: a version of zero is dropped. *)
Definition line_entry (l : sbat_text_line) : option sbat_entry_t :=
  match l with
  | EntryLine name ver _ => if bool_decide (sbat_version ver = 0) then None else Some (mkSbat name (sbat_version ver))
  | _ => None
  end.

Section entries.
Context (rest : list Z).

(** One turn at the end of a line: the loop goes on with the next line. *)
Lemma sbat_after fuel ls list slot :
  (length (after (line_text <$> ls) rest) < fuel)%nat ->
  exists fuel', (length (text (line_text <$> ls) rest) < fuel')%nat /\ (fuel' <= fuel)%nat /\
    sbat_entries_loop fuel (after (line_text <$> ls) rest) list slot =
      sbat_entries_loop fuel' (text (line_text <$> ls) rest) list slot.
Proof.
  intros Hf. destruct ls as [|l ls].
  - exists fuel. split_and!; [exact Hf|lia|done].
  - destruct fuel as [|fuel]; [lia|]. exists fuel. cbn [fmap list_fmap after length] in Hf |- *.
    split_and!; [lia|lia|]. reflexivity.
Qed.

(** The end of a version: the loop goes on after the line. *)
Lemma sbat_turn fuel name ver more ls list slot :
  sbat_text_ok (EntryLine name ver more) ->
  sbat_entries_loop (S fuel) (line_text (EntryLine name ver more) ++ after (line_text <$> ls) rest) list slot =
    let s := match more with Some _ => after (line_text <$> ls) rest | None => text (line_text <$> ls) rest end in
    if bool_decide (sbat_version ver = 0) then sbat_entries_loop fuel s list (Some name)
    else sbat_entries_loop fuel s (list ++ [mkSbat name (sbat_version ver)]) None.
Proof.
  intros ([Hname Hncomma] & Hhash & [Hver Hvcomma] & Hmore). cbn [line_text].
  set (tl := match more with Some m => COMMA :: m | None => [] end).
  replace ((name ++ COMMA :: ver ++ tl) ++ after (line_text <$> ls) rest)
    with (name ++ COMMA :: (ver ++ tl ++ after (line_text <$> ls) rest))
    by (rewrite <- !app_assoc; cbn [app]; by rewrite <- !app_assoc).
  cbn [sbat_entries_loop]. rewrite scan_field by done.
  assert (Hc : exists c r, name ++ COMMA :: (ver ++ tl ++ after (line_text <$> ls) rest) = c :: r /\
      c <> 0 /\ c <> NEWLINE /\ c <> 35).
  { destruct name as [|c name]; cbn [app]; eexists _, _; (split; [done|]); [done|].
    apply Forall_cons in Hname as [Hc _]. unfold end_of_line in Hc. apply bool_decide_eq_false_1 in Hc.
    cbn [head] in Hhash. split_and!; [tauto|tauto|congruence]. }
  destruct Hc as (c & r & -> & H0 & H10 & H35). cbn [deref head access mbind checked_bind].
  rewrite (bool_decide_false (c = 0)), (bool_decide_false (c = NEWLINE)), (bool_decide_false (c = 35)) by done.
  cbn [deref head access mbind checked_bind tail].
  change (end_of_line COMMA) with false. cbv iota.
  destruct more as [m|]; subst tl.
  - cbn [app]. rewrite scan_field by done. cbn [deref head access mbind checked_bind tail].
    change (end_of_line COMMA) with false. change (bool_decide (COMMA = 0)) with false. cbv beta iota zeta.
    rewrite scan_line by done. destruct (after_cons (line_text <$> ls) rest) as (c' & r' & Haft & _).
    cbn [snd]. rewrite Haft. reflexivity.
  - cbn [app]. destruct ls as [|l ls]; cbn [fmap list_fmap after];
      (rewrite scan_field by done); cbn [deref head access mbind checked_bind tail]; [reflexivity|].
    change (end_of_line NEWLINE) with true. change (bool_decide (NEWLINE = 0)) with false. cbv beta iota zeta.
    destruct (text (line_text l :: (line_text <$> ls)) rest) as [|c' r'] eqn:Ht; [|reflexivity].
    exfalso. revert Ht. generalize (line_text <$> ls). intros k. rewrite text_cons.
    destruct (after_cons k rest) as (? & ? & -> & _). by destruct (line_text l).
Qed.

Definition slot_count (slot : option (list Z)) : nat := match slot with Some _ => 1 | None => 0 end.

Lemma sbat_loop_lines ls : forall fuel list slot, Forall sbat_text_ok ls ->
  (length (text (line_text <$> ls) rest) < fuel)%nat ->
  exists slot', sbat_entries_loop fuel (text (line_text <$> ls) rest) list slot =
      Ret (list ++ omap line_entry ls, slot') /\
    (length (omap line_entry ls) + slot_count slot' <= length ls + slot_count slot)%nat.
Proof.
  induction ls as [|l ls IH]; intros fuel list slot Hok Hf.
  { destruct fuel as [|fuel]; [cbn in Hf; lia|]. exists slot. cbn. by rewrite app_nil_r. }
  apply Forall_cons in Hok as [Hl Hok]. cbn [fmap list_fmap] in *. rewrite text_cons in *.
  rewrite length_app in Hf. destruct l as [|comment|name ver more].
  - cbn [line_text app length] in *. destruct (sbat_after fuel ls list slot Hf) as (fuel' & Hf' & _ & ->).
    destruct (IH fuel' list slot Hok Hf') as (slot' & -> & Hle). exists slot'. split; [done|]. cbn. lia.
  - destruct fuel as [|fuel]; [lia|]. cbn [line_text app]. cbn [sbat_entries_loop deref head access mbind checked_bind].
    rewrite (bool_decide_false (35 = 0)), (bool_decide_false (35 = NEWLINE)), (bool_decide_true (35 = 35)) by done.
    change (35 :: comment ++ after (line_text <$> ls) rest) with ((35 :: comment) ++ after (line_text <$> ls) rest).
    rewrite scan_line by (by constructor). cbn [snd line_text length] in *.
    destruct (sbat_after fuel ls list slot ltac:(lia)) as (fuel' & Hf' & _ & ->).
    destruct (IH fuel' list slot Hok Hf') as (slot' & -> & Hle). exists slot'. split; [done|]. cbn. lia.
  - destruct fuel as [|fuel]; [lia|]. rewrite sbat_turn by done. cbv zeta. cbn [omap list_omap line_entry].
    assert (Hlen : (1 <= length (line_text (EntryLine name ver more)))%nat) by (cbn [line_text]; rewrite length_app; cbn; lia).
    assert (Hlt : (length (text (line_text <$> ls) rest) < fuel)%nat /\ (length (after (line_text <$> ls) rest) < fuel)%nat).
    { destruct ls; cbn [fmap list_fmap after length text] in *; lia. }
    destruct Hlt as [Hlt1 Hlt2].
    assert (Hgo : forall list slot, exists slot', sbat_entries_loop fuel
        (match more with Some _ => after (line_text <$> ls) rest | None => text (line_text <$> ls) rest end) list slot =
        Ret (list ++ omap line_entry ls, slot') /\
        (length (omap line_entry ls) + slot_count slot' <= length ls + slot_count slot)%nat).
    { intros list' slot'. destruct more; [|by apply IH].
      destruct (sbat_after fuel ls list' slot' ltac:(lia)) as (fuel' & Hf' & _ & ->). by apply IH. }
    case_bool_decide as Hv.
    + destruct (Hgo list (Some name)) as (slot' & -> & Hle). exists slot'. split; [done|]. cbn in *. lia.
    + destruct (Hgo (list ++ [mkSbat name (sbat_version ver)]) None) as (slot' & -> & Hle).
      exists slot'. rewrite <- app_assoc. split; [done|]. cbn in *. lia.
Qed.
End entries.

(** C13: sbat_level.txt. On lines that are blank, comments, or entries with a product, a
    decimal or hexadecimal version and maybe more fields, GetSbatEntries returns the
    entries of the lines whose version is not zero, in order, and NULL when there is none;
    an element of version zero may follow them, and the array, which has one element more
    than there are lines, holds them all and the NULL that ends them. *)
Theorem sbat_entries_read ls rest : Forall sbat_text_ok ls ->
  exists tail, Forall (fun e => version e = 0) tail /\
    Z.of_nat (length (omap line_entry ls ++ tail)) <= Z.of_nat (length ls) /\
    GetSbatEntries (text (line_text <$> ls) rest) =
      Ret (if bool_decide (omap line_entry ls = []) then None else Some (omap line_entry ls ++ tail)).
Proof.
  intros Hok. unfold GetSbatEntries.
  destruct (sbat_loop_lines rest ls (S (length (text (line_text <$> ls) rest))) [] None Hok (Nat.lt_succ_diag_r _))
    as (slot & -> & Hle). cbn [app mbind checked_bind slot_count] in *.
  exists (match slot with Some name => [mkSbat name 0] | None => [] end). split_and!.
  - destruct slot; repeat constructor.
  - rewrite length_app. destruct slot; cbn [slot_count length] in *; lia.
  - unfold sbat_array. do 2 f_equal. destruct (omap line_entry ls); done.
Qed.

(** "# ", an empty line, "s,4" and "g,0xf,1". *)
Definition sbat_sample : list sbat_text_line :=
  [CommentLine [32]; BlankLine; EntryLine [115] [52] None; EntryLine [103] [48; 120; 102] (Some [49])].

Theorem sbat_entries_read_witness :
  exists tail, Forall (fun e => version e = 0) tail /\
    Z.of_nat (length ([mkSbat [115] 4; mkSbat [103] 15] ++ tail)) <= 4 /\
    GetSbatEntries (text [[35; 32]; []; [115; 44; 52]; [103; 44; 48; 120; 102; 44; 49]] []) =
      Ret (Some ([mkSbat [115] 4; mkSbat [103] 15] ++ tail)).
Proof.
  refine (sbat_entries_read sbat_sample [] _).
  repeat constructor; try done; cbn; intros H; repeat (destruct H as [H|H]; [discriminate|]); exact H.
Defined.

(** ** [GetThumbprintEntries] *)

(** The bytes of pairs of hexadecimal digits. *)
Fixpoint hex_bytes (s : list Z) : list Z :=
  match s with
  | h :: l :: s => (16 * FROM_HEXASCII h + FROM_HEXASCII l) :: hex_bytes s
  | _ => []
  end.

(** The thumbprint of a line: its first 40 characters, when they are hexadecimal digits. *)
Definition line_thumbprint (l : list Z) : option (list Z) :=
  if bool_decide (length (take 40 l) = 40%nat) && forallb IS_HEXASCII (take 40 l)
  then Some (hex_bytes (take 40 l)) else None.

Lemma hex_digit_range c : IS_HEXASCII c = true -> 0 <= FROM_HEXASCII c < 16.
Proof.
  unfold IS_HEXASCII, FROM_HEXASCII. intros H%bool_decide_eq_true_1. repeat case_bool_decide; lia.
Qed.

Lemma nibble_lor a b : 0 <= a < 16 -> 0 <= b < 16 -> Z.lor (16 * a) b = 16 * a + b.
Proof.
  intros Ha Hb.
  assert (Hall : Forall (fun a => Forall (fun b => Z.lor (16 * a) b = 16 * a + b) (seqZ 0 16)) (seqZ 0 16))
    by (apply (bool_decide_eq_true_1 _); vm_compute; reflexivity).
  rewrite Forall_forall in Hall. specialize (Hall a ltac:(apply elem_of_seqZ; lia)).
  rewrite Forall_forall in Hall. apply Hall. apply elem_of_seqZ. lia.
Qed.

(** A digit pushed into a byte: only its lower half is kept. *)
Lemma push_digit x d : 0 <= d < 16 -> Z.lor (u8 (Z.shiftl x 4)) d = 16 * (x mod 16) + d.
Proof.
  intros Hd. rewrite <- nibble_lor by (try apply Z.mod_pos_bound; lia). f_equal.
  unfold uwrap. rewrite Z.shiftl_mul_pow2 by lia. change (2 ^ 8) with (16 * 16). change (2 ^ 4) with 16.
  rewrite Z.mul_comm. apply Z.mul_mod_distr_l; lia.
Qed.

(** Two digits make the byte, whatever the row had there. *)
Lemma push_byte x d1 d2 : 0 <= d1 < 16 -> 0 <= d2 < 16 ->
  Z.lor (u8 (Z.shiftl (Z.lor (u8 (Z.shiftl x 4)) d1) 4)) d2 = 16 * d1 + d2.
Proof.
  intros H1 H2. rewrite !push_digit by done. f_equal. f_equal.
  rewrite Z.add_comm, Z.mul_comm, Z.mod_add by lia. by apply Z.mod_small.
Qed.

(** The row after the digits of one byte, at [k]. *)
Lemma thumbprint_pair s k h l list row : (k < 20)%nat -> length row = 20%nat ->
  IS_HEXASCII h = true -> IS_HEXASCII l = true ->
  let row' := <[k := 16 * FROM_HEXASCII h + FROM_HEXASCII l]> row in
  thumbprint_line (h :: l :: s) (2 * k) list row =
    if bool_decide (k = 19%nat) then thumbprint_line s 40 (list ++ [row']) (replicate 20 0)
    else thumbprint_line s (2 * S k) list row'.
Proof.
  intros Hk Hrow Hh Hl row'. cbn [thumbprint_line].
  assert (Hd1 : (2 * k / 2 = k)%nat) by (symmetry; apply (Nat.div_unique _ _ _ 0); lia).
  assert (Hd2 : (S (2 * k) / 2 = k)%nat) by (symmetry; apply (Nat.div_unique _ _ _ 1); lia).
  rewrite Hh, Hl, Hd1, Hd2. cbn [negb]. unfold SHA1_HASHSIZE.
  rewrite (bool_decide_false (20 <= k)%nat), (bool_decide_false (2 * k = 2 * 20 - 1)%nat) by lia.
  rewrite list_lookup_total_insert_eq by lia. rewrite list_insert_insert_eq, push_byte by (by apply hex_digit_range).
  fold row'. destruct (decide (k = 19%nat)) as [->|Hne].
  - by rewrite !bool_decide_true by lia.
  - rewrite !bool_decide_false by lia. f_equal. lia.
Qed.

(** A line that goes on after 40 digits changes nothing more. *)
Lemma thumbprint_line_long s list row : thumbprint_line s 40 list row = (list, row).
Proof. destruct s as [|c s]; [done|]. cbn [thumbprint_line]. by destruct (IS_HEXASCII c). Qed.

(** One digit alone, then the end or another character. *)
Lemma thumbprint_odd s k h list row : (k < 20)%nat -> length row = 20%nat ->
  IS_HEXASCII h = true -> (forall c, head s = Some c -> IS_HEXASCII c = false) ->
  exists row', length row' = 20%nat /\ thumbprint_line (h :: s) (2 * k) list row = (list, row').
Proof.
  intros Hk Hrow Hh Hs. cbn [thumbprint_line].
  assert (Hd1 : (2 * k / 2 = k)%nat) by (symmetry; apply (Nat.div_unique _ _ _ 0); lia).
  rewrite Hh, Hd1. cbn [negb]. unfold SHA1_HASHSIZE.
  rewrite (bool_decide_false (20 <= k)%nat), (bool_decide_false (2 * k = 2 * 20 - 1)%nat) by lia.
  eexists. split; [|destruct s as [|c s]; [reflexivity|]; cbn [thumbprint_line]; by rewrite (Hs c eq_refl)].
  by rewrite length_insert.
Qed.

(** The digits from byte [20 - n] on. *)
Lemma thumbprint_line_from n : forall s list row, (n <= 20)%nat -> (0 < n)%nat -> length row = 20%nat ->
  let k := (20 - n)%nat in let hex := take (2 * n) s in
  if bool_decide (length hex = (2 * n)%nat) && forallb IS_HEXASCII hex then
    thumbprint_line s (2 * k) list row = (list ++ [take k row ++ hex_bytes hex], replicate 20 0)
  else exists row', length row' = 20%nat /\ thumbprint_line s (2 * k) list row = (list, row').
Proof.
  induction n as [|n IH]; intros s list row Hn H0 Hrow k hex; [lia|].
  assert (Hhex : hex = take (S (S (2 * n))) s) by (unfold hex; f_equal; lia). clearbody hex. subst hex.
  replace (2 * S n)%nat with (S (S (2 * n))) by lia.
  destruct s as [|h s]; [by exists row|]. cbn [take length forallb].
  destruct (IS_HEXASCII h) eqn:Hh.
  2: { rewrite andb_false_r. exists row. split; [done|]. cbn [thumbprint_line]. by rewrite Hh. }
  cbn [andb]. destruct s as [|l s].
  { apply thumbprint_odd; [lia|done..]. }
  cbn [take length forallb]. destruct (IS_HEXASCII l) eqn:Hl.
  2: { rewrite andb_false_r. apply thumbprint_odd; [lia|done|done|]. by intros c [= <-]. }
  cbn [andb]. rewrite thumbprint_pair by (first [done|lia]).
  replace (bool_decide (S (S (length (take (2 * n) s))) = S (S (2 * n)))%nat)
    with (bool_decide (length (take (2 * n) s) = (2 * n)%nat)) by (apply bool_decide_ext; lia).
  set (row' := <[k:=_]> row). assert (Hrow' : length row' = 20%nat) by (unfold row'; by rewrite length_insert).
  assert (Htake : take (S k) row' = take k row ++ [16 * FROM_HEXASCII h + FROM_HEXASCII l]).
  { unfold row'. rewrite (take_S_r _ _ (16 * FROM_HEXASCII h + FROM_HEXASCII l))
      by (apply list_lookup_insert_eq; unfold k; lia). by rewrite take_insert_ge by lia. }
  destruct n as [|n].
  - assert (Hk : k = 19%nat) by (unfold k; lia). rewrite (bool_decide_true (k = 19%nat)) by done.
    rewrite thumbprint_line_long. change (take (2 * 0) s) with (@nil Z).
    rewrite bool_decide_true by done. cbn [forallb andb hex_bytes].
    rewrite <- Htake, take_ge by lia. done.
  - rewrite (bool_decide_false (k = 19%nat)) by (unfold k; lia).
    specialize (IH s list row' ltac:(lia) ltac:(lia) Hrow'). cbv zeta in IH.
    replace (S k) with (20 - S n)%nat in * by (unfold k; lia).
    destruct (bool_decide (length (take (2 * S n) s) = (2 * S n)%nat) && forallb IS_HEXASCII (take (2 * S n) s)); [|done].
    rewrite IH, Htake, <- app_assoc. done.
Qed.

(** A line from its start. *)
Lemma thumbprint_line_spec l list row : length row = 20%nat ->
  exists row', length row' = 20%nat /\
    thumbprint_line l 0 list row = (list ++ option_list (line_thumbprint l), row').
Proof.
  intros Hrow. pose proof (thumbprint_line_from 20 l list row ltac:(lia) ltac:(lia) Hrow) as H.
  cbv zeta in H. change (20 - 20)%nat with 0%nat in H. change (2 * 20)%nat with 40%nat in H.
  change (2 * 0)%nat with 0%nat in H. unfold line_thumbprint. destruct (_ && _).
  - exists (replicate 20 0). split; [done|]. rewrite H. done.
  - destruct H as (row' & Hr & ->). exists row'. split; [done|]. cbn. by rewrite app_nil_r.
Qed.

Lemma omap_cons_list {A B} (f : A -> option B) x l : omap f (x :: l) = option_list (f x) ++ omap f l.
Proof. cbn. by destruct (f x). Qed.

Lemma thumbprints_loop_lines rest ls : forall fuel list row, Forall line_ok ls -> length row = 20%nat ->
  (length (text ls rest) < fuel)%nat ->
  thumbprints_loop fuel (text ls rest) list row = Ret (list ++ omap line_thumbprint ls).
Proof.
  induction ls as [|l ls IH]; intros fuel list row Hok Hrow Hf.
  { destruct fuel as [|fuel]; [cbn in Hf; lia|]. cbn. by rewrite app_nil_r. }
  apply Forall_cons in Hok as [Hl Hok]. rewrite text_cons, length_app in *. rewrite omap_cons_list.
  (* the end of the line *)
  assert (Hend : forall fuel list row, (length (after ls rest) < fuel)%nat -> length row = 20%nat ->
    thumbprints_loop fuel (after ls rest) list row = Ret (list ++ omap line_thumbprint ls)).
  { intros fuel' list' row' Hf' Hrow'. destruct ls as [|l' ls]; [by apply IH|].
    destruct fuel' as [|fuel']; [lia|]. cbn [after length] in Hf'.
    transitivity (thumbprints_loop fuel' (text (l' :: ls) rest) list' row'); [done|]. apply IH; [done|done|lia]. }
  destruct l as [|c l].
  { cbn [app option_list length] in *. change (option_list (line_thumbprint [])) with (@nil (Datatypes.list Z)).
    by apply Hend. }
  destruct fuel as [|fuel]; [lia|]. pose proof Hl as Hc. apply Forall_cons in Hc as [Hc _].
  unfold end_of_line in Hc. apply bool_decide_eq_false_1 in Hc.
  cbn [app thumbprints_loop deref head access mbind checked_bind].
  rewrite (bool_decide_false (c = 0)), (bool_decide_false (c = NEWLINE)) by tauto.
  change (c :: l ++ after ls rest) with ((c :: l) ++ after ls rest). rewrite scan_line by done.
  destruct (after_cons ls rest) as (c' & r & Haft & _). rewrite Haft at 1. cbn [deref head access mbind checked_bind].
  cbn [length] in Hf. destruct (IS_HEXASCII c) eqn:Hhex; cbn [negb].
  - destruct (thumbprint_line_spec (c :: l) list row Hrow) as (row' & Hrow' & ->).
    rewrite Hend by (first [lia|done]). by rewrite app_assoc.
  - assert (line_thumbprint (c :: l) = None) as ->.
    { unfold line_thumbprint. cbn [take forallb]. by rewrite Hhex, andb_false_r. }
    apply Hend; [lia|done].
Qed.

(** Thumbprints. On any lines, GetThumbprintEntries returns the bytes of the first 40
    characters of the lines that start with 40 hexadecimal digits, in order, and NULL when
    no line does; lines with fewer digits leave no trace in the ones that follow. *)
Lemma thumbprints_read ls rest : Forall line_ok ls ->
  GetThumbprintEntries (text ls rest) =
    Ret (if bool_decide (omap line_thumbprint ls = []) then None else Some (omap line_thumbprint ls)).
Proof.
  intros Hok. unfold GetThumbprintEntries.
  rewrite thumbprints_loop_lines by (first [done|lia]). cbn [app mbind checked_bind].
  do 2 f_equal. by destruct (omap line_thumbprint ls).
Qed.

(** A line of 39 digits, then one of 40. *)
Theorem thumbprints_read_witness :
  GetThumbprintEntries (text [replicate 39 49; replicate 40 65] [7]) = Ret (Some [replicate 20 0xAA]).
Proof.
  refine (thumbprints_read [replicate 39 49; replicate 40 65] [7] _).
  apply (bool_decide_eq_true_1 _). vm_compute. reflexivity.
Defined.

(** ** The .sbat section *)

(** A line: a name, a version and more after a second comma. *)
Inductive sbat_line := SbatBlank | SbatLine (name ver more : list Z).

Definition sbat_line_text (l : sbat_line) : list Z :=
  match l with SbatBlank => [] | SbatLine name ver more => name ++ COMMA :: ver ++ COMMA :: more end.

Definition sbat_line_ok (l : sbat_line) : Prop :=
  match l with SbatBlank => True | SbatLine name ver more => field_ok name /\ field_ok ver /\ line_ok more end.

(** Whether the generation of the line is below the minimum of one of the entries. *)
Definition sbat_line_revoked (entries : list sbat_entry_t) (l : sbat_line) : bool :=
  match l with
  | SbatBlank => false
  | SbatLine name ver _ =>
      let v := u32 (atoi ver) in
      negb (bool_decide (v = 0)) && existsb (fun e => bool_decide (product e = name) && bool_decide (v < version e)) entries
  end.

Lemma scan_blank n s : (forall c, head s = Some c -> c <> NEWLINE) ->
  scan (fun c => negb (bool_decide (c = NEWLINE))) (replicate n NEWLINE ++ s) = (replicate n NEWLINE, s).
Proof.
  intros Hs. induction n as [|n IH]; cbn [replicate app scan].
  - destruct s as [|c s]; [done|]. cbn [scan]. rewrite bool_decide_false by (by apply Hs). done.
  - rewrite bool_decide_true by done. cbn [negb]. by rewrite IH.
Qed.

Section section_lines.
Context (entries : list sbat_entry_t) (rest : list Z).

(** The outcome of the loop on a section [s] of lines [ls]: its length is kept. *)
Definition scanned (ls : list sbat_line) (s : list Z) (r : checked (bool * list Z)) : Prop :=
  exists s', r = Ret (existsb (sbat_line_revoked entries) ls, s') /\ length s' = length s.

(** Newlines, then the end of the section. *)
Lemma section_end n fuel : scanned [] (replicate n NEWLINE ++ 0 :: rest)
  (sbat_section_loop (S fuel) entries (replicate n NEWLINE ++ 0 :: rest)).
Proof.
  exists (replicate n NEWLINE ++ 0 :: rest). split; [|done]. cbn [sbat_section_loop].
  rewrite scan_blank by (intros c [= <-]; done). by destruct n.
Qed.

(** A line, after newlines: one turn. *)
Lemma section_turn n fuel name ver more c r : sbat_line_ok (SbatLine name ver more) -> end_of_line c = true ->
  let line := SbatLine name ver more in
  let s := replicate n NEWLINE ++ sbat_line_text line ++ c :: r in
  exists before, length before = (n + length (sbat_line_text line))%nat /\
    sbat_section_loop (S fuel) entries s =
      if sbat_line_revoked entries line then Ret (true, before ++ c :: r)
      else '(b, s) ← sbat_section_loop fuel entries (c :: r); Ret (b, before ++ s).
Proof.
  intros ([Hname Hnc] & [Hver Hvc] & Hmore) Hc line s.
  exists (replicate n NEWLINE ++ name ++ [0] ++ ver ++ [0] ++ more).
  split; [cbn [sbat_line_text line]; rewrite !length_app, length_replicate; cbn; rewrite length_app; cbn; lia|].
  assert (Hline : sbat_line_text line ++ c :: r = name ++ COMMA :: (ver ++ COMMA :: (more ++ c :: r)))
    by (cbn [sbat_line_text line]; rewrite <- app_assoc; cbn [app]; by rewrite <- app_assoc).
  assert (Hhead : exists x t, name ++ COMMA :: (ver ++ COMMA :: (more ++ c :: r)) = x :: t /\ x <> 0 /\ x <> NEWLINE).
  { destruct name as [|x name]; cbn [app]; eexists _, _; (split; [done|]); [done|].
    apply Forall_cons in Hname as [Hx _]. unfold end_of_line in Hx. apply bool_decide_eq_false_1 in Hx. tauto. }
  destruct Hhead as (x & t & Hx & H0 & H10).
  subst s. rewrite Hline. cbn [sbat_section_loop]. rewrite scan_blank by (rewrite Hx; by intros y [= <-]).
  assert (Hderef : exists y, deref (replicate n NEWLINE ++ name ++ COMMA :: (ver ++ COMMA :: (more ++ c :: r))) = Ret y /\ y <> 0)
    by (rewrite Hx; destruct n; [by exists x|by exists NEWLINE]).
  destruct Hderef as (y & -> & Hy). cbn [mbind checked_bind]. rewrite (bool_decide_false (y = 0)) by done.
  rewrite Hx at 1. cbn [deref head access mbind checked_bind]. rewrite (bool_decide_false (x = 0)) by done.
  rewrite scan_field by done. cbn [deref head access mbind checked_bind tail].
  change (end_of_line COMMA) with false. cbv iota. rewrite scan_field by done.
  cbn [deref head access mbind checked_bind tail]. rewrite scan_app by done.
  cbn [deref head access mbind checked_bind].
  unfold sbat_line_revoked. cbn [line]. cbv zeta. reflexivity.
Qed.

Lemma section_lines ls : forall n fuel, Forall sbat_line_ok ls ->
  let s := replicate n NEWLINE ++ text (sbat_line_text <$> ls) rest in
  (length s < fuel)%nat -> scanned ls s (sbat_section_loop fuel entries s).
Proof.
  induction ls as [|l ls IH]; intros n fuel Hok s Hf.
  { destruct fuel as [|fuel]; [lia|]. apply section_end. }
  apply Forall_cons in Hok as [Hl Hok]. subst s. cbn [fmap list_fmap] in *. rewrite text_cons in *.
  (* from the end of the line on, after [k] newlines *)
  assert (Hend : forall k fuel, (length (replicate k NEWLINE ++ after (sbat_line_text <$> ls) rest) < fuel)%nat ->
    scanned ls (replicate k NEWLINE ++ after (sbat_line_text <$> ls) rest)
      (sbat_section_loop fuel entries (replicate k NEWLINE ++ after (sbat_line_text <$> ls) rest))).
  { intros k fuel' Hf'. destruct ls as [|l' ls]; [destruct fuel' as [|fuel']; [lia|]; apply section_end|].
    assert (Heq : replicate k NEWLINE ++ after (sbat_line_text <$> l' :: ls) rest =
        replicate (S k) NEWLINE ++ text (sbat_line_text <$> l' :: ls) rest)
      by (by rewrite replicate_S_end, <- app_assoc).
    rewrite Heq in Hf' |- *.
    by apply IH. }
  destruct l as [|name ver more].
  { cbn [sbat_line_text app] in *. by apply Hend. }
  destruct fuel as [|fuel]; [lia|]. specialize (Hend 0%nat fuel). cbn [replicate app] in Hend.
  destruct (after_cons (sbat_line_text <$> ls) rest) as (c & r & Haft & Hc).
  assert (Hlen : (length (after (sbat_line_text <$> ls) rest) < fuel)%nat).
  { rewrite !length_app in Hf. cbn [sbat_line_text] in Hf. rewrite length_app in Hf. cbn [length] in Hf. lia. }
  specialize (Hend Hlen). rewrite Haft in *.
  destruct (section_turn n fuel name ver more c r Hl Hc) as (before & Hbefore & ->).
  unfold scanned. cbn [existsb]. destruct (sbat_line_revoked entries (SbatLine name ver more)).
  - eexists. split; [done|]. rewrite !length_app, length_replicate, Hbefore. lia.
  - destruct Hend as (s' & -> & Hs'). eexists. split; [done|].
    rewrite !length_app, length_replicate, Hbefore, Hs'. lia.
Qed.
End section_lines.

(** A line with no second comma hides the next one: the newline is taken for the separator,
    so that the line after it is skipped as what remains of this one. *)
Lemma sbat_short_line_hides_next :
  let entries := [mkSbat [103] 3] in
  sbat_section_loop 40 entries (text [[120; 44; 49]; [103; 44; 49; 44; 49]] []) = Ret (false, [120; 0; 49; 0; 103; 44; 49; 44; 49; 0]) /\
  sbat_section_loop 40 entries (text [[103; 44; 49; 44; 49]; [120; 44; 49]] []) =
    Ret (true, [103; 0; 49; 0; 49; 10; 120; 44; 49; 0]).
Proof. vm_compute. done. Qed.

(** A line with no comma ends the check, and a line of two fields at the end of the block
    is read past its end. *)
Lemma sbat_section_ends_early :
  let entries := [mkSbat [103] 3] in
  sbat_section_loop 40 entries (text [[120]; [103; 44; 49; 44; 49]] []) = Ret (false, [120; 10; 103; 44; 49; 44; 49; 0]) /\
  sbat_section_loop 40 entries (text [[103; 44; 53]] []) = Fault OutOfBlock.
Proof. vm_compute. done. Qed.
