(* ===== verification/Revocation.v ===== *)
(** Revocation: the Secure Boot revocation checks of src/src/hash.c, the parsing of
    the Windows policy in src/src/pki.c, and the report of src/src/rufus.c.

    The registry, the files, the resources, the Windows cryptography functions and
    the contents of uninitialized variables are parameters; messages are left out. *)

From Stdlib Require Import Ascii String.
From S2P Require Import Prelude CText Hash Pe Faults PeParse Sbat.

(** ** The state *)

Record cert_info_t := mkCertInfo { thumbprint : list Z }.

(** The globals that revocation uses. A text that has been downloaded or copied is kept
    with the list made of it. *)
Record sb_globals := mkGlobals {
  sbat_entries : option (list sbat_entry_t);
  sb_active_certs : option (list (list Z));
  sb_revoked_certs : option (list (list Z));
  pe256ssp : list (list Z);
  expert_mode : bool;
}.

Definition set_sbat_entries (e : option (list sbat_entry_t)) (g : sb_globals) : sb_globals :=
  mkGlobals e (sb_active_certs g) (sb_revoked_certs g) (pe256ssp g) (expert_mode g).
Definition set_sb_active_certs (c : option (list (list Z))) (g : sb_globals) : sb_globals :=
  mkGlobals (sbat_entries g) c (sb_revoked_certs g) (pe256ssp g) (expert_mode g).
Definition set_sb_revoked_certs (c : option (list (list Z))) (g : sb_globals) : sb_globals :=
  mkGlobals (sbat_entries g) (sb_active_certs g) c (pe256ssp g) (expert_mode g).

(** The texts of src/src/db.h, as C strings. *)
Definition c_string (lines : list string) : list Z := concat (chars <$> lines) ++ [0].
Definition nl : string := String (Ascii.ascii_of_nat 10) EmptyString.

Definition db_sb_active_txt : list Z := c_string
  ["580a6f4cc4e4b669b9ebdc1b2b3e087b80d0678d"; nl;
   "46def63b5ce61cf8ba0de2e6639c1019d0ed14f3"; nl;
   "45a0fa32604773c82433c3b7d59e7466b3ac0c67"; nl;
   "b5eeb4a6706048073f0ed296e7f580a790b59eaa"]%string.
Definition db_sb_revoked_txt : list Z := c_string ["580a6f4cc4e4b669b9ebdc1b2b3e087b80d0678d"%string].
Definition db_sbat_level_txt : list Z := c_string
  ["sbat,1,2024010900"; nl; "shim,4"; nl; "grub,3"; nl; "grub.debian,4"; nl;
   "BOOTMGRSECURITYVERSIONNUMBER,0x30000"]%string.

(** ** The policy of Windows, [ParseSKUSiPolicy] *)

Definition sizeof_CIHeader : Z := 68.
Definition sizeof_CIFileRuleHeader : Z := 8.
Definition sizeof_CIFileRuleData : Z := 16.
Definition CI_DENY : Z := 0.
Definition PE256_HASHSIZE : nat := 32.
Definition SKU_CODE_INTEGRITY_POLICY : list Z :=
  le_bytes 4 0x976d12c8 ++ le_bytes 2 0xcb9f ++ le_bytes 2 0x4730 ++ [0xbe; 0x52; 0x54; 0x60; 0x08; 0x43; 0x23; 0x8e].

(** [dwBaseIndex]: after the header of an OCTET STRING. *)
Definition policy_base (pb : list Z) : checked Z :=
  b0 ← fetch 1 pb 0;
  if bool_decide (b0 = 4) then
    b1 ← fetch 1 pb 1;
    if Z.testbit b1 7 then
      let count := Z.land b1 0x7F in
      _ ← fetch_bytes (Z.to_nat count) pb 2;
      Ret (2 + count)
    else Ret 2
  else Ret 0.

(** The end of the EKU rules. *)
Fixpoint skip_eku_rules (pb : list Z) (off : Z) (n : nat) : checked Z :=
  match n with
  | O => Ret off
  | S n => len ← fetch 4 pb off; skip_eku_rules pb (off + (len + 7) / 4 * 4) n
  end.

(** [pe256ssp] and [pe256ssp_size] after the rules; the array has [max] elements. *)
Fixpoint file_rules (pb : list Z) (off : Z) (n max : nat) (ssp : list (list Z)) : checked (list (list Z)) :=
  match n with
  | O => Ret ssp
  | S n =>
      type ← fetch 4 pb off;
      name_len ← fetch 4 pb (off + 4);
      let off := off + sizeof_CIFileRuleHeader + (if bool_decide (name_len = 0) then 0 else (name_len + 3) / 4 * 4) in
      hash_len ← fetch 4 pb (off + 12);
      if bool_decide (hash_len > 0x80) then Ret ssp
      else
        ssp ←
          (if bool_decide (type = CI_DENY /\ hash_len = Z.of_nat PE256_HASHSIZE) then
             hash ← fetch_bytes PE256_HASHSIZE pb (off + sizeof_CIFileRuleData);
             if bool_decide (last ssp = Some hash) then Ret ssp
             else if bool_decide (length ssp < max)%nat then Ret (ssp ++ [hash]) else Fault OutOfBlock
           else Ret ssp);
        file_rules pb (off + sizeof_CIFileRuleData + (hash_len + 3) / 4 * 4) n max ssp
  end.

(** What the Windows functions answer: the type of the content of the file, the size of
    the content and the content, when they succeed. *)
Record policy_message := mkPolicy {
  CryptQueryObject_type : option Z;
  content_size : option Z;
  content : option (list Z);
}.
Definition CERT_QUERY_CONTENT_PKCS7_SIGNED : Z := 8.

(** The result and [pe256ssp]. *)
Definition ParseSKUSiPolicy (msg : policy_message) : checked (bool * list (list Z)) :=
  match CryptQueryObject_type msg with
  | None => Ret (false, [])
  | Some type =>
      if negb (bool_decide (type = CERT_QUERY_CONTENT_PKCS7_SIGNED)) then Ret (true, [])
      else match content_size msg with
      | None => Ret (false, [])
      | Some 0 => Ret (true, [])
      | Some _ =>
          match content msg with
          | None => Ret (false, [])
          | Some pb =>
              base ← policy_base pb;
              hlen ← fetch 4 pb (base + 64);
              if negb (bool_decide (hlen + 4 = sizeof_CIHeader)) then Ret (true, [])
              else
                guid ← fetch_bytes 16 pb (base + 4);
                if negb (bool_decide (guid = SKU_CODE_INTEGRITY_POLICY)) then Ret (true, [])
                else
                  neku ← fetch 4 pb (base + 40);
                  rules ← skip_eku_rules pb (base + sizeof_CIHeader) (Z.to_nat neku);
                  count ← fetch 4 pb (base + 44);
                  ssp ← file_rules pb rules (Z.to_nat count) (Z.to_nat (u32 (count * 32) / 32)) [];
                  Ret (true, ssp)
          end
      end
  end.

(** ** The certificates of a signature *)

Section revocation.

(** The Windows cryptography functions: the signer's certificate of a signature with the
    first chain that is built from it, the size of the name of a certificate and its SHA-1. *)
Context {certificate : Type}.
Context (signer_chain : list Z -> option (certificate * list certificate)).
Context (CertGetNameString : certificate -> Z) (CryptHashCertificate : certificate -> option (list Z)).

(** The result, and the thumbprint when it is stored. The signature is read up to the end
    of the block. *)
Definition GetIssuerCertificateInfo (buf : list Z) (cert : option Z) : checked (Z * option (list Z)) :=
  match cert with
  | None => Ret (0, None)
  | Some off =>
      dwLength ← fetch 4 buf off;
      if bool_decide (dwLength = 0) then Ret (0, None)
      else Ret match signer_chain (slice (Z.to_nat (off + 8)) (Z.to_nat dwLength) buf) with
      | None => (0, None)
      | Some (signer, chain) =>
          let '(cert, index) := match chain !! 1%nat with Some issuer => (issuer, 1) | None => (signer, 0) end in
          if bool_decide (CertGetNameString cert <= 1) then (0, None)
          else match CryptHashCertificate cert with
          | None => (0, None)
          | Some thumb => (index + 1, Some thumb)
          end
      end
  end.

(** [memcmp(thumbprint, list[i], SHA1_HASHSIZE) == 0] for an element. *)
Definition in_thumbprints (thumb : list Z) (l : list (list Z)) : bool := existsb (fun e => bool_decide (e = thumb)) l.

(** The list, from the embedded text when there is none. *)
Definition embedded_certs (certs : option (list (list Z))) (txt : list Z) : checked (option (list (list Z))) :=
  match certs with Some l => Ret (Some l) | None => GetThumbprintEntries txt end.

Definition IsSignedBySecureBootAuthority (g : sb_globals) (buf : list Z) (len : Z) : checked (bool * sb_globals) :=
  if bool_decide (len < 0x100) then Ret (false, g)
  else
    cert ← GetPeSignatureData buf;
    '(r, thumb) ← GetIssuerCertificateInfo buf cert;
    match thumb with
    | Some thumb =>
        if negb (bool_decide (r = 2)) then Ret (false, g)
        else
          certs ← embedded_certs (sb_active_certs g) db_sb_active_txt;
          match certs with
          | None => Fault AssertFailed
          | Some certs =>
              _ ← assert_that (negb (bool_decide (length certs = 0%nat)));
              Ret (in_thumbprints thumb certs, set_sb_active_certs (Some certs) g)
          end
    | None => Ret (false, g)
    end.

(** ** The revocation checks *)

(** The thumbprint in [info] when none has been stored. *)
Context (stack_thumbprint : list Z).

Definition IsRevokedByCert (g : sb_globals) (info : cert_info_t) : checked (bool * sb_globals) :=
  if negb (expert_mode g) then Ret (false, g)
  else
    certs ← embedded_certs (sb_revoked_certs g) db_sb_revoked_txt;
    match certs with
    | None => Fault AssertFailed
    | Some certs =>
        _ ← assert_that (negb (bool_decide (length certs = 0%nat)));
        Ret (in_thumbprints (thumbprint info) certs, set_sb_revoked_certs (Some certs) g)
    end.

(** The registry, the timestamps of the embedded lists, the files that have been
    downloaded and the resources, by architecture. *)
Context (ReadSetting64 : Z -> Z) (dbx_timestamp : Z -> option Z).
Context (local_dbx dbx_resource : Z -> option (list Z)).

Definition UseLocalDbx (arch : Z) : checked bool :=
  timestamp ← access (dbx_timestamp (arch - 1));
  Ret (bool_decide (u64 (ReadSetting64 arch) > timestamp)).

Definition sizeof_VARIABLE_AUTHENTICATION_2 : Z := 41.
Definition sizeof_EFI_TIME : Z := 16.
Definition sizeof_SIGNATURE_LIST : Z := 28.
Definition sizeof_GUID : Z := 16.
Definition EFI_CERT_SHA256_GUID : list Z :=
  le_bytes 4 0xc1c41626 ++ le_bytes 2 0x504c ++ le_bytes 2 0x4092 ++ [0xac; 0xa9; 0x41; 0xf9; 0x36; 0x93; 0x43; 0x28].

(** The loop over the entries from entry [i], with [n] left. *)
Fixpoint dbx_entries (hash dbx : list Z) (fluff sigsize : Z) (n : nat) (i : Z) : checked bool :=
  match n with
  | O => Ret false
  | S n =>
      h ← fetch_bytes 32 dbx (u32 (fluff + u32 (i * sigsize)));
      if bool_decide (h = hash) then Ret true else dbx_entries hash dbx fluff sigsize n (i + 1)
  end.

(** Whether [hash] is in the list of revoked digests [dbx]. *)
Definition dbx_lookup (hash dbx : list Z) : checked bool :=
  let dbx_size := Z.of_nat (length dbx) in
  if bool_decide (dbx_size <= sizeof_VARIABLE_AUTHENTICATION_2) then Ret false
  else
    dwLength ← fetch 4 dbx sizeof_EFI_TIME;
    let fluff := u32 (dwLength + sizeof_EFI_TIME) in
    if bool_decide (dbx_size <= fluff) then Ret false
    else
      let sig_list := fluff in
      let fluff := u32 (fluff + sizeof_SIGNATURE_LIST) in
      if bool_decide (dbx_size <= fluff) then Ret false
      else
        type ← fetch_bytes 16 dbx sig_list;
        if negb (bool_decide (type = EFI_CERT_SHA256_GUID)) then Ret false
        else
          header_size ← fetch 4 dbx (sig_list + 20);
          let fluff := u32 (fluff + header_size) in
          sig_size ← fetch 4 dbx (sig_list + 24);
          _ ← assert_that (negb (bool_decide (sig_size = 0)));
          list_size ← fetch 4 dbx (sig_list + 16);
          let nb_entries := u32 (u64 (u32 (list_size - header_size) - sizeof_SIGNATURE_LIST) / sig_size) in
          _ ← assert_that (bool_decide (dbx_size >= u32 (fluff + u32 (nb_entries * sig_size))));
          dbx_entries hash dbx (u32 (fluff + sizeof_GUID)) sig_size (Z.to_nat nb_entries) 0.

Definition IsRevokedByDbx (hash buf : list Z) : checked bool :=
  machine ← GetPeArch buf;
  let arch := MachineToArch machine in
  if bool_decide (arch = ARCH_UNKNOWN) then Ret false
  else
    use_local ← UseLocalDbx arch;
    let dbx := if (use_local : bool) then local_dbx arch else None in
    let dbx := match dbx with Some (_ :: _) => dbx | _ => dbx_resource arch end in
    match dbx with
    | None => Ret false
    | Some dbx => dbx_lookup hash dbx
    end.

(** [memcmp(hash, &pe256ssp[i], SHA256_HASHSIZE)] over the array. *)
Definition in_ssp (hash : list Z) (ssp : list (list Z)) : bool := existsb (fun e => bool_decide (e = hash)) ssp.

(** The result, the executable as it is left, and the globals. *)
Definition IsRevokedBySbat (g : sb_globals) (buf : list Z) (len : Z) : checked (bool * list Z * sb_globals) :=
  entries ← match sbat_entries g with Some e => Ret (Some e) | None => GetSbatEntries db_sbat_level_txt end;
  match entries with
  | None => Fault AssertFailed
  | Some entries =>
      let g := set_sbat_entries (Some entries) g in
      section ← GetPeSection buf (chars ".sbat");
      match section with
      | None => Ret (false, buf, g)
      | Some (sbat, _) =>
          if bool_decide (sbat >= len) then Ret (false, buf, g)
          else
            let rest := drop (Z.to_nat sbat) buf in
            '(r, rest) ← sbat_section_loop (S (length rest)) entries rest;
            Ret (r, take (Z.to_nat sbat) buf ++ rest, g)
      end
  end.

Definition isupper (c : Z) : bool := bool_decide (65 <= c <= 90).

(** The depth of the directories of resources. *)
Definition rsrc_fuel (buf : list Z) : nat := S (2 * length buf).

(** The loop of [IsRevokedBySvn]. *)
Fixpoint svn_entries (buf : list Z) (nt : Z) (entries : list sbat_entry_t) : checked bool :=
  match entries with
  | [] => Ret false
  | e :: entries =>
      if negb (forallb isupper (product e)) then svn_entries buf nt entries
      else
        '(va, _) ← data_directory buf nt IMAGE_DIRECTORY_ENTRY_RESOURCE;
        root ← RvaToPhysical buf va;
        found ← match root with
                | None => Ret (mkFound false 0 None)
                | Some root => FindResourceRva buf (product e) root (rsrc_fuel buf) root false
                end;
        if bool_decide (rva found = 0) then svn_entries buf nt entries
        else if negb (bool_decide (rsrc_len found = Some 4)) then svn_entries buf nt entries
        else
          svn_ver ← RvaToPhysical buf (rva found);
          match svn_ver with
          | None => svn_entries buf nt entries
          | Some svn_ver =>
              v ← fetch 4 buf svn_ver;
              if bool_decide (v < version e) then Ret true else svn_entries buf nt entries
          end
  end.

Definition IsRevokedBySvn (g : sb_globals) (buf : list Z) : checked bool :=
  match sbat_entries g with
  | None => Ret false
  | Some entries => lf ← fetch 4 buf off_e_lfanew; svn_entries buf (s32 lf) entries
  end.

(** ** [IsBootloaderRevoked] *)

Context (qsort : (Z * Z -> Z * Z -> Z) -> list (Z * Z) -> list (Z * Z)).

(** [buf] is the block that holds the executable, of [len] bytes. The checks are made in
    turn, until one finds that the executable is revoked. *)
Definition IsBootloaderRevoked (g : sb_globals) (buf : list Z) (len : Z) : checked (Z * list Z * sb_globals) :=
  if bool_decide (len < 0x100) then Ret (-2, buf, g)
  else
    nt ← nt_header buf;
    match nt with
    | None => Ret (-2, buf, g)
    | Some _ =>
        cert ← GetPeSignatureData buf;
        '(_, thumb) ← GetIssuerCertificateInfo buf cert;
        let info := mkCertInfo (default stack_thumbprint thumb) in
        digest ← access (PE256Buffer qsort (take (Z.to_nat len) buf));
        match digest with
        | HashFalse _ => Ret (-1, buf, g)
        | HashTrue hash =>
            r ← IsRevokedByDbx hash buf;
            if (r : bool) then Ret (1, buf, g)
            else if in_ssp hash (pe256ssp g) then Ret (2, buf, g)
            else
              '(r, buf, g) ← IsRevokedBySbat g buf len;
              if (r : bool) then Ret (3, buf, g)
              else
                r ← IsRevokedBySvn g buf;
                if (r : bool) then Ret (4, buf, g)
                else
                  '(r, g) ← IsRevokedByCert g info;
                  Ret (if (r : bool) then 5 else 0, buf, g)
        end
    end.

(** The loop of [GetBootladerInfo] over the boot entries: what [ReadISOFileToBuffer] returns
    for each (the block and the length), and [img_report.has_secureboot_bootloader]. *)
Fixpoint bootloader_flags (g : sb_globals) (entries : list (option (list Z * Z))) (flags : Z)
    : checked (Z * sb_globals) :=
  match entries with
  | [] => Ret (flags, g)
  | None :: entries => bootloader_flags g entries flags
  | Some (buf, len) :: entries =>
      '(signed, g) ← IsSignedBySecureBootAuthority g buf len;
      let flags := if (signed : bool) then Z.lor flags 1 else flags in
      '(r, _, g) ← IsBootloaderRevoked g buf len;
      if bool_decide (r > 0) then
        _ ← assert_that (bool_decide (r <= 5));
        bootloader_flags g entries (u8 (Z.lor flags (Z.shiftl 1 r)))
      else bootloader_flags g entries flags
  end.
End revocation.
