(* ===== verification/RevocationProps.v ===== *)
(** RevocationProps: what the Secure Boot revocation checks find. *)

From Stdlib Require Import Ascii String.
From S2P Require Import Prelude CText Hash Pe Faults PeParse Sbat SbatProps Revocation PeCorrect.

(** ** The list of revoked digests *)

(** An entry: its owner and its digest. *)
Definition dbx_entry : Type := list Z * list Z.
Definition dbx_entry_bytes (e : dbx_entry) : list Z := fst e ++ snd e.
Definition dbx_entry_ok (e : dbx_entry) : Prop := length (fst e) = 16%nat /\ length (snd e) = 32%nat.

(** A file of revoked digests: a time stamp, a certificate (its length and the rest), then a list of
    SHA-256 digests and what follows it. *)
Definition dbx_file (time auth header : list Z) (entries : list dbx_entry) (others : list Z) : list Z :=
  time ++ le_bytes 4 (4 + Z.of_nat (length auth)) ++ auth ++ EFI_CERT_SHA256_GUID ++
  le_bytes 4 (28 + Z.of_nat (length header) + 48 * Z.of_nat (length entries)) ++
  le_bytes 4 (Z.of_nat (length header)) ++ le_bytes 4 48 ++ header ++ concat (dbx_entry_bytes <$> entries) ++ others.

Lemma length_entries es : Forall dbx_entry_ok es -> length (concat (dbx_entry_bytes <$> es)) = (48 * length es)%nat.
Proof.
  induction 1 as [|e es [H1 H2] Hes IH]; [done|]. cbn [fmap list_fmap concat length].
  rewrite length_app, IH. unfold dbx_entry_bytes at 1. rewrite length_app. lia.
Qed.

Lemma dbx_entries_spec hash dbx base es : forall i, Forall dbx_entry_ok es ->
  at_off dbx (base + 48 * i) (concat (dbx_entry_bytes <$> es)) -> 0 <= base -> 0 <= i ->
  Z.of_nat (length dbx) < 2 ^ 31 ->
  dbx_entries hash dbx (base + 16) 48 (length es) i = Ret (existsb (fun e => bool_decide (snd e = hash)) es).
Proof.
  induction es as [|e es IH]; intros i Hok Hat Hbase Hi Hlen; [done|].
  apply Forall_cons in Hok as [[He1 He2] Hok]. cbn [length dbx_entries existsb fmap list_fmap concat] in *.
  pose proof Hat as (_ & Hfit & _). unfold dbx_entry_bytes in Hfit at 1. rewrite !length_app in Hfit.
  rewrite (uwrap_small 32 (i * 48)), (uwrap_small 32 (base + 16 + i * 48)) by lia.
  assert (Hhash : at_off dbx (base + 16 + i * 48) (snd e)).
  { replace (base + 16 + i * 48) with (base + 48 * i + Z.of_nat (length (fst e))) by lia.
    unfold dbx_entry_bytes in Hat at 1. rewrite <- app_assoc in Hat. by eapply at_off_sub. }
  rewrite (fetch_bytes_at _ _ _ _ Hhash) by done. cbn [mbind checked_bind].
  destruct (bool_decide (snd e = hash)); [done|]. cbn [orb]. apply IH; [done| |done|lia|done].
  apply at_off_tail in Hat. unfold dbx_entry_bytes in Hat at 1. rewrite length_app in Hat.
  by replace (base + 48 * (i + 1)) with (base + 48 * i + Z.of_nat (length (fst e) + length (snd e))) by lia.
Qed.

Lemma at_off_self buf : at_off buf 0 buf.
Proof.
  pose proof (at_off_here [] buf []) as H. cbn [app length] in H. by rewrite app_nil_r in H.
Qed.

(** Where the fields of a file are. *)
Lemma dbx_fields dbx time auth header es others : length time = 16%nat -> at_off dbx 0 (dbx_file time auth header es others) ->
  let A := Z.of_nat (length auth) in let H := Z.of_nat (length header) in let base := 4 + A + 16 in
  at_off dbx 16 (le_bytes 4 (4 + A)) /\ at_off dbx base EFI_CERT_SHA256_GUID /\
  at_off dbx (base + 16) (le_bytes 4 (28 + H + 48 * Z.of_nat (length es))) /\ at_off dbx (base + 20) (le_bytes 4 H) /\
  at_off dbx (base + 24) (le_bytes 4 48) /\ at_off dbx (base + 28 + H) (concat (dbx_entry_bytes <$> es)).
Proof.
  intros Htime H0 A H base. unfold dbx_file in H0.
  assert (Hnext : forall off off' a bs, at_off dbx off (a ++ bs) -> off + Z.of_nat (length a) = off' -> at_off dbx off' bs)
    by (intros off off' a bs Hat <-; by apply at_off_tail).
  apply (Hnext _ 16) in H0; [|lia]. pose proof (at_off_head _ _ _ _ H0) as H1.
  apply (Hnext _ 20) in H0; [|by rewrite length_le_bytes]. apply (Hnext _ base) in H0; [|unfold base; fold A; lia].
  pose proof (at_off_head _ _ _ _ H0) as H2. apply (Hnext _ (base + 16)) in H0; [|done].
  pose proof (at_off_head _ _ _ _ H0) as H3. apply (Hnext _ (base + 20)) in H0; [|rewrite length_le_bytes; lia].
  pose proof (at_off_head _ _ _ _ H0) as H4. apply (Hnext _ (base + 24)) in H0; [|rewrite length_le_bytes; lia].
  pose proof (at_off_head _ _ _ _ H0) as H5. apply (Hnext _ (base + 28)) in H0; [|rewrite length_le_bytes; lia].
  apply (Hnext _ (base + 28 + H)) in H0; [|fold H; lia]. apply at_off_head in H0. done.
Qed.

(** On a well-formed file the digest is looked for among all of the entries of the first list. *)
Lemma dbx_lookup_spec hash time auth header es others :
  length time = 16%nat -> Forall dbx_entry_ok es ->
  let dbx := dbx_file time auth header es others in Z.of_nat (length dbx) < 2 ^ 31 ->
  dbx_lookup hash dbx = Ret (existsb (fun e => bool_decide (snd e = hash)) es).
Proof.
  intros Htime Hes dbx Hlen. set (A := Z.of_nat (length auth)). set (H := Z.of_nat (length header)).
  pose proof (length_entries es Hes) as Hbytes.
  assert (Hlen' : Z.of_nat (length dbx) = 48 + A + H + 48 * Z.of_nat (length es) + Z.of_nat (length others)).
  { unfold dbx, dbx_file. rewrite !length_app, !length_le_bytes, Hbytes, Htime.
    change (length EFI_CERT_SHA256_GUID) with 16%nat. lia. }
  pose proof (at_off_self dbx) as H0. change (at_off dbx 0 (dbx_file time auth header es others)) in H0.
  clearbody dbx. destruct (dbx_fields dbx time auth header es others Htime H0) as (Hdw & Hguid & Hls & Hhs & Hss & Hes0).
  fold A H in Hdw, Hguid, Hls, Hhs, Hss, Hes0. clear H0.
  unfold dbx_lookup, sizeof_VARIABLE_AUTHENTICATION_2, sizeof_EFI_TIME, sizeof_SIGNATURE_LIST, sizeof_GUID.
  rewrite bool_decide_false by lia. change (0 + 16) with 16 in *.
  rewrite (fetch_le_at _ _ _ _ Hdw) by (change (256 ^ Z.of_nat 4) with (2 ^ 32); lia). cbn [mbind checked_bind].
  rewrite (uwrap_small 32 (4 + A + 16)) by lia.
  rewrite (uwrap_small 32 (4 + A + 16 + 28)) by lia.
  rewrite (bool_decide_false (_ <= 4 + A + 16)) by lia.
  destruct (decide (Z.of_nat (length dbx) <= 4 + A + 16 + 28)) as [Hshort|Hshort].
  { rewrite bool_decide_true by done. assert (es = []) as -> by (apply length_zero_iff_nil; lia). done. }
  rewrite (bool_decide_false _ Hshort).
  rewrite (fetch_bytes_at _ _ _ _ Hguid) by done. cbn [mbind checked_bind].
  rewrite (bool_decide_true (EFI_CERT_SHA256_GUID = _)) by done. cbn [negb].
  rewrite (fetch_le_at _ _ _ _ Hhs) by (change (256 ^ Z.of_nat 4) with (2 ^ 32); lia). cbn [mbind checked_bind].
  rewrite (fetch_le_at _ _ _ _ Hss) by lia. cbn [mbind checked_bind assert_that].
  change (negb (bool_decide (48 = 0))) with true. cbn [assert_that mbind checked_bind].
  rewrite (fetch_le_at _ _ _ _ Hls) by (change (256 ^ Z.of_nat 4) with (2 ^ 32); lia). cbn [mbind checked_bind].
  rewrite (uwrap_small 32 (28 + H + _ - H)) by lia.
  rewrite (uwrap_small 64) by lia.
  replace ((28 + H + 48 * Z.of_nat (length es) - H - 28) / 48) with (Z.of_nat (length es))
    by (apply Z.div_unique with 0; lia).
  rewrite (uwrap_small 32 (Z.of_nat (length es))) by lia.
  rewrite (uwrap_small 32 (4 + A + 16 + 28 + H)), (uwrap_small 32 (Z.of_nat (length es) * 48)),
    (uwrap_small 32 (4 + A + 16 + 28 + H + Z.of_nat (length es) * 48)), (uwrap_small 32 (4 + A + 16 + 28 + H + 16)) by lia.
  rewrite (bool_decide_true (_ >= _)) by lia. cbn [assert_that mbind checked_bind]. rewrite Nat2Z.id.
  apply dbx_entries_spec; [done| |lia|lia|lia].
  by replace (4 + A + 16 + 28 + H + 48 * 0) with (4 + A + 16 + 28 + H) by lia.
Qed.

(** The two cases of a search of [l]. *)
Ltac case_exists l := match goal with |- context [existsb ?f l] => destruct (existsb f l) end.

Section checks.
Context {certificate : Type}.
Context (signer_chain : list Z -> option (certificate * list certificate)).
Context (CertGetNameString : certificate -> Z) (CryptHashCertificate : certificate -> option (list Z)).
Context (stack_thumbprint : list Z).
Context (ReadSetting64 : Z -> Z) (dbx_timestamp : Z -> option Z).
Context (local_dbx dbx_resource : Z -> option (list Z)).
Context (qsort : (Z * Z -> Z * Z -> Z) -> list (Z * Z) -> list (Z * Z)).

(** ** The checks on an executable laid out in memory *)

(** The file of digests of an architecture: the one that has been downloaded when it is more
    recent than the embedded one and can be read, or else the embedded one. *)
Definition chosen_dbx (arch timestamp : Z) : option (list Z) :=
  let local := if bool_decide (u64 (ReadSetting64 arch) > timestamp) then local_dbx arch else None in
  match local with Some (_ :: _) => local | _ => dbx_resource arch end.

Lemma IsRevokedByDbx_spec buf nt machine secs timestamp time auth header es others hash :
  pe_headers buf nt machine secs -> let arch := MachineToArch machine in arch <> ARCH_UNKNOWN ->
  dbx_timestamp (arch - 1) = Some timestamp ->
  chosen_dbx arch timestamp = Some (dbx_file time auth header es others) ->
  length time = 16%nat -> Forall dbx_entry_ok es -> Z.of_nat (length (dbx_file time auth header es others)) < 2 ^ 31 ->
  IsRevokedByDbx ReadSetting64 dbx_timestamp local_dbx dbx_resource hash buf =
    Ret (existsb (fun e => bool_decide (snd e = hash)) es).
Proof.
  intros Hpe arch Harch Ht Hfile Htime Hes Hlen. unfold IsRevokedByDbx.
  rewrite (GetPeArch_spec Hpe). cbn [mbind checked_bind]. fold arch. rewrite bool_decide_false by done.
  unfold UseLocalDbx. rewrite Ht. cbn [access mbind checked_bind].
  transitivity (match chosen_dbx arch timestamp with None => Ret false | Some dbx => dbx_lookup hash dbx end); [done|].
  rewrite Hfile. by apply dbx_lookup_spec.
Qed.

(** The minimum versions: the ones that have been loaded, or the embedded ones. *)
Definition sbat_level (g : sb_globals) : list sbat_entry_t :=
  match sbat_entries g with
  | Some e => e
  | None => match GetSbatEntries db_sbat_level_txt with Ret (Some e) => e | _ => [] end
  end.

Lemma IsRevokedBySbat_spec g buf len nt machine secs s lines rest :
  pe_headers buf nt machine secs ->
  first_section (fun s => bool_decide (sec_name s = section_name (chars ".sbat"))) secs = Some s ->
  0 <= sec_ptr s < len -> drop (Z.to_nat (sec_ptr s)) buf = text (sbat_line_text <$> lines) rest ->
  Forall sbat_line_ok lines ->
  exists buf', IsRevokedBySbat g buf len =
      Ret (existsb (sbat_line_revoked (sbat_level g)) lines, buf', set_sbat_entries (Some (sbat_level g)) g) /\
    length buf' = length buf /\ take (Z.to_nat (sec_ptr s)) buf' = take (Z.to_nat (sec_ptr s)) buf.
Proof.
  intros Hpe Hs Hptr Htext Hlines. unfold IsRevokedBySbat.
  assert (Hlevel : match sbat_entries g with Some e => Ret (Some e) | None => GetSbatEntries db_sbat_level_txt end =
    Ret (Some (sbat_level g))) by (unfold sbat_level; destruct (sbat_entries g); [done|by vm_compute]).
  rewrite Hlevel. cbn [mbind checked_bind]. rewrite (GetPeSection_spec _ _ _ _ _ Hpe), Hs.
  cbn [fmap option_fmap option_map mbind checked_bind]. rewrite bool_decide_false by lia. rewrite Htext.
  destruct (section_lines (sbat_level g) rest lines 0 (S (length (text (sbat_line_text <$> lines) rest))) Hlines)
    as (s' & Hloop & Hs'); [cbn [replicate app]; lia|].
  cbn [replicate app] in Hloop, Hs'. rewrite Hloop. cbn [mbind checked_bind]. eexists. split; [done|].
  assert (Hle : (Z.to_nat (sec_ptr s) <= length buf)%nat).
  { destruct (decide (Z.to_nat (sec_ptr s) <= length buf)%nat) as [|Hgt]; [done|].
    rewrite drop_ge in Htext by lia. exfalso. destruct lines as [|l ls]; [done|].
    cbn [fmap list_fmap] in Htext. rewrite text_cons in Htext.
    destruct (after_cons (sbat_line_text <$> ls) rest) as (? & ? & Ha & _). rewrite Ha in Htext.
    by destruct (sbat_line_text l). }
  split.
  - rewrite length_app, Hs', <- Htext, length_take, length_drop. lia.
  - by rewrite take_app_length' by (rewrite length_take; lia).
Qed.

(** ** The verdict *)

(** C6: The verdict. For an executable whose digest is computed, with a well-formed list of
    revoked digests for its architecture and a .sbat section of well-formed lines,
    IsBootloaderRevoked returns 1 exactly when its digest is in the list; else 2 when it is in
    the Windows policy; else 3 when a component of the section is below its minimum version;
    else 4 when the resource check finds it too old; else 5 when, in expert mode, its issuer
    is revoked; and 0 when no check finds it. The executable before the section is unchanged. *)
Theorem bootloader_verdict g buf len nt machine secs s lines rest timestamp time auth header es others
    cert r thumb hash svn revoked_certs :
  pe_headers buf nt machine secs -> 0x100 <= len ->
  GetPeSignatureData buf = Ret cert ->
  GetIssuerCertificateInfo signer_chain CertGetNameString CryptHashCertificate buf cert = Ret (r, thumb) ->
  PE256Buffer qsort (take (Z.to_nat len) buf) = Some (HashTrue hash) ->
  MachineToArch machine <> ARCH_UNKNOWN -> dbx_timestamp (MachineToArch machine - 1) = Some timestamp ->
  chosen_dbx (MachineToArch machine) timestamp = Some (dbx_file time auth header es others) ->
  length time = 16%nat -> Forall dbx_entry_ok es -> Z.of_nat (length (dbx_file time auth header es others)) < 2 ^ 31 ->
  first_section (fun s => bool_decide (sec_name s = section_name (chars ".sbat"))) secs = Some s ->
  0 <= sec_ptr s < len -> drop (Z.to_nat (sec_ptr s)) buf = text (sbat_line_text <$> lines) rest ->
  Forall sbat_line_ok lines ->
  (forall buf', length buf' = length buf -> take (Z.to_nat (sec_ptr s)) buf' = take (Z.to_nat (sec_ptr s)) buf ->
    IsRevokedBySvn (set_sbat_entries (Some (sbat_level g)) g) buf' = Ret svn) ->
  sb_revoked_certs g = Some revoked_certs -> revoked_certs <> [] ->
  exists buf' g', IsBootloaderRevoked signer_chain CertGetNameString CryptHashCertificate stack_thumbprint
      ReadSetting64 dbx_timestamp local_dbx dbx_resource qsort g buf len =
    Ret (if existsb (fun e => bool_decide (snd e = hash)) es then 1
         else if existsb (fun h => bool_decide (h = hash)) (pe256ssp g) then 2
         else if existsb (sbat_line_revoked (sbat_level g)) lines then 3
         else if svn then 4
         else if expert_mode g && existsb (fun h => bool_decide (h = default stack_thumbprint thumb)) revoked_certs then 5
         else 0, buf', g') /\
    length buf' = length buf /\ take (Z.to_nat (sec_ptr s)) buf' = take (Z.to_nat (sec_ptr s)) buf.
Proof.
  intros Hpe Hlen Hcert Hinfo Hhash Harch Ht Hdbx Htime Hes Hdlen Hsec Hptr Htext Hlines Hsvn Hcerts Hne.
  unfold IsBootloaderRevoked. rewrite bool_decide_false by lia. rewrite (nt_header_spec Hpe).
  cbn [mbind checked_bind]. rewrite Hcert. cbn [mbind checked_bind]. rewrite Hinfo. cbn [mbind checked_bind].
  rewrite Hhash. cbn [access mbind checked_bind].
  rewrite (IsRevokedByDbx_spec buf nt machine secs timestamp time auth header es others) by done.
  cbn [mbind checked_bind]. case_exists es; [by exists buf, g|].
  unfold in_ssp. case_exists (pe256ssp g); [by exists buf, g|].
  destruct (IsRevokedBySbat_spec g buf len nt machine secs s lines rest) as (buf' & -> & Hl & Htake); [done..|].
  cbn [mbind checked_bind]. case_exists lines; [by eexists _, _|].
  rewrite Hsvn by done. cbn [mbind checked_bind]. destruct svn; [by eexists _, _|].
  unfold IsRevokedByCert. cbn [expert_mode set_sbat_entries sb_revoked_certs].
  destruct (expert_mode g); cbn [negb andb]; [|by eexists _, _].
  rewrite Hcerts. cbn [embedded_certs mbind checked_bind].
  rewrite (bool_decide_false (length revoked_certs = 0%nat)) by (by intros ?%length_zero_iff_nil).
  cbn [negb assert_that mbind checked_bind thumbprint]. unfold in_thumbprints.
  case_exists revoked_certs; by eexists _, _.
Qed.
End checks.

(** An executable with a .sbat section "sbat,1,x", "grub,2,x", in a block with one more byte. *)
Definition sbat_lines : list sbat_line := [SbatLine (chars "sbat") (chars "1") (chars "x"); SbatLine (chars "grub") (chars "2") (chars "x")].
Definition sbat_section : section := mkSection (chars ".sbat" ++ [0; 0; 0]) 512 4096 512 512 (replicate 16 0).
Definition sbat_image : list Z :=
  poke 0 (le_bytes 2 0x5A4D) (poke 60 (le_bytes 4 64) (poke 64 (le_bytes 4 0x4550) (poke 68 (le_bytes 2 0x8664)
  (poke 70 (le_bytes 2 1) (poke 84 (le_bytes 2 240) (poke 88 (le_bytes 2 0x20b) (poke 124 (le_bytes 4 512)
  (poke 148 (le_bytes 4 512) (poke 196 (le_bytes 4 16) (poke 328 (header_bytes sbat_section)
  (poke 512 (text (sbat_line_text <$> sbat_lines) []) (replicate 1025 0)))))))))))).
Definition sbat_image_hash : list Z := Eval vm_compute in
  match PE256Buffer sort_sections (take 1024 sbat_image) with Some (HashTrue h) => h | _ => [] end.
Definition grub_globals : sb_globals := mkGlobals (Some [mkSbat (chars "grub") 3]) None (Some [replicate 20 1]) [] true.
Definition one_dbx : list Z := dbx_file (replicate 16 0) [] [] [(replicate 16 0, replicate 32 9)] [].

Lemma sbat_image_headers : pe_headers sbat_image 64 0x8664 [sbat_section].
Proof.
  constructor; first [lia|apply (bool_decide_eq_true_1 _); vm_compute; reflexivity].
Qed.

Theorem bootloader_verdict_witness :
  exists buf' g', IsBootloaderRevoked (fun _ => None) (fun _ : unit => 0) (fun _ => None) (replicate 20 1)
      (fun _ => 0) (fun _ => Some 0) (fun _ => None) (fun _ => Some one_dbx) sort_sections grub_globals sbat_image 1024 =
    Ret (3, buf', g') /\
    length buf' = length sbat_image /\ take 512 buf' = take 512 sbat_image.
Proof.
  refine (bootloader_verdict (fun _ => None) (fun _ : unit => 0) (fun _ => None) (replicate 20 1)
    (fun _ => 0) (fun _ => Some 0) (fun _ => None) (fun _ => Some one_dbx) sort_sections
    grub_globals sbat_image 1024 64 0x8664 [sbat_section] sbat_section sbat_lines (replicate 495 0) 0 (replicate 16 0) [] []
    [(replicate 16 0, replicate 32 9)] [] None 0 None sbat_image_hash false [replicate 20 1] sbat_image_headers
    _ _ _ _ _ _ _ _ _ _ _ _ _ _ _ _ _).
  - lia.
  - vm_compute. reflexivity.
  - reflexivity.
  - vm_compute. reflexivity.
  - vm_compute. discriminate.
  - reflexivity.
  - vm_compute. reflexivity.
  - reflexivity.
  - repeat constructor.
  - vm_compute. reflexivity.
  - vm_compute. reflexivity.
  - cbn. lia.
  - vm_compute. reflexivity.
  - repeat constructor; cbn; intros H; repeat (destruct H as [H|H]; [discriminate|]); exact H.
  - intros buf' Hl _. unfold IsRevokedBySvn, fetch, load. change (length sbat_image) with 1025%nat in Hl.
    rewrite bool_decide_true by (rewrite Hl; unfold off_e_lfanew; lia). reflexivity.
  - reflexivity.
  - discriminate.
Defined.

(** ** The signature *)

Section signed.
Context {certificate : Type}.
Context (signer_chain : list Z -> option (certificate * list certificate)).
Context (CertGetNameString : certificate -> Z) (CryptHashCertificate : certificate -> option (list Z)).

(** A thumbprint is stored exactly when the result is not zero. *)
Lemma issuer_info_cases buf cert r thumb :
  GetIssuerCertificateInfo signer_chain CertGetNameString CryptHashCertificate buf cert = Ret (r, thumb) ->
  r = 0 /\ thumb = None \/ (r = 1 \/ r = 2) /\ is_Some thumb.
Proof.
  unfold GetIssuerCertificateInfo. destruct cert as [off|]; [|intros [= <- <-]; by left].
  intros (n & _ & H)%bind_inv. destruct (bool_decide (n = 0)); [injection H as <- <-; by left|].
  destruct (signer_chain _) as [[signer chain]|]; [|injection H as <- <-; by left].
  destruct (chain !! 1%nat) as [issuer|]; (destruct (bool_decide _); [injection H as <- <-; by left|]);
    (destruct (CryptHashCertificate _) as [h|]; injection H as <- <-; [right|by left]); split; first [by eexists|lia].
Qed.

(** The certificates of the authorities: the ones that have been loaded, or the embedded ones. *)
Definition active_certs (g : sb_globals) : list (list Z) :=
  match sb_active_certs g with
  | Some l => l
  | None => match GetThumbprintEntries db_sb_active_txt with Ret (Some l) => l | _ => [] end
  end.

(** Secure Boot signatures. IsSignedBySecureBootAuthority answers TRUE exactly when the
    signature of the executable has a chain whose second certificate has the thumbprint of
    one of the authorities, which are the four embedded ones unless a list has been loaded. *)
Lemma signed_by_authority g buf len cert r thumb :
  0x100 <= len -> GetPeSignatureData buf = Ret cert ->
  GetIssuerCertificateInfo signer_chain CertGetNameString CryptHashCertificate buf cert = Ret (r, thumb) ->
  sb_active_certs g <> Some [] ->
  exists b g', IsSignedBySecureBootAuthority signer_chain CertGetNameString CryptHashCertificate g buf len = Ret (b, g') /\
    active_certs g' = active_certs g /\ sbat_entries g' = sbat_entries g /\
    (b = true <-> r = 2 /\ exists t, thumb = Some t /\ In t (active_certs g)).
Proof.
  intros Hlen Hcert Hinfo Hne. unfold IsSignedBySecureBootAuthority. rewrite bool_decide_false by lia.
  rewrite Hcert. cbn [mbind checked_bind]. rewrite Hinfo. cbn [mbind checked_bind].
  destruct (issuer_info_cases _ _ _ _ Hinfo) as [[-> ->]|[Hr [t ->]]].
  { exists false, g. split_and!; [done..|]. split; [done|]. by intros [? _]. }
  destruct (decide (r = 2)) as [->|Hr2].
  2: { rewrite bool_decide_false by done. exists false, g. split_and!; [done..|]. split; [done|tauto]. }
  rewrite bool_decide_true by done. cbn [negb].
  assert (Hcerts : embedded_certs (sb_active_certs g) db_sb_active_txt = Ret (Some (active_certs g)))
    by (unfold active_certs; destruct (sb_active_certs g); [done|by vm_compute]).
  assert (Hlen' : length (active_certs g) <> 0%nat).
  { unfold active_certs. destruct (sb_active_certs g) as [[|]|]; [done|done|by vm_compute]. }
  rewrite Hcerts. cbn [mbind checked_bind]. rewrite bool_decide_false by done. cbn [negb assert_that mbind checked_bind].
  eexists _, _. split; [done|]. split_and!; [done|done|]. unfold in_thumbprints. rewrite existsb_exists. split.
  - intros (e & Hin & ->%bool_decide_eq_true_1). split; [done|by exists t].
  - intros (_ & t' & [= <-] & Hin). exists t. split; [done|]. by apply bool_decide_eq_true_2.
Qed.
End signed.

(** A signature at 512, whose chain has two certificates. *)
Definition signed_image : list Z :=
  poke 0 (le_bytes 2 0x5A4D) (poke 60 (le_bytes 4 64) (poke 64 (le_bytes 4 0x4550) (poke 68 (le_bytes 2 0x8664)
  (poke 232 (le_bytes 4 512 ++ le_bytes 4 16) (poke 512 (le_bytes 4 16 ++ le_bytes 2 0x200 ++ le_bytes 2 2)
  (replicate 1024 0)))))).

Lemma signed_by_authority_witness :
  exists b g', IsSignedBySecureBootAuthority (fun _ => Some (1, [1; 2])) (fun _ => 9) (fun c => Some (replicate 20 c))
      (mkGlobals None (Some [replicate 20 2]) None [] false) signed_image 1024 = Ret (b, g') /\
    active_certs g' = [replicate 20 2] /\ sbat_entries g' = None /\
    (b = true <-> 2 = 2 /\ exists t, Some (replicate 20 2) = Some t /\ In t [replicate 20 2]).
Proof.
  refine (signed_by_authority (fun _ => Some (1, [1; 2])) (fun _ => 9) (fun c => Some (replicate 20 c))
    (mkGlobals None (Some [replicate 20 2]) None [] false) signed_image 1024 (Some 512) 2 (Some (replicate 20 2)) _ _ _ _).
  - lia.
  - vm_compute. reflexivity.
  - vm_compute. reflexivity.
  - discriminate.
Defined.

(** ** What goes wrong *)

(** In expert mode the thumbprint that is looked for is the content of an uninitialized
    variable when the executable is not signed: the verdict depends on it. *)
Lemma unsigned_verdict_depends_on_stack :
  let verdict thumb := IsBootloaderRevoked (fun _ => None) (fun _ : unit => 0) (fun _ => None) thumb
      (fun _ => 0) (fun _ => Some 0) (fun _ => None) (fun _ => None) sort_sections
      (mkGlobals (Some [mkSbat (chars "grub") 2]) None (Some [replicate 20 1]) [] true) sbat_image 1024 in
  (r ← verdict (replicate 20 1); Ret (fst (fst r))) = Ret 5 /\ (r ← verdict (replicate 20 0); Ret (fst (fst r))) = Ret 0.
Proof. vm_compute. done. Qed.

(** The timestamps of the lists end with the one of LoongArch: an EBC executable reads past them. *)
Lemma ebc_reads_past_timestamps buf nt secs hash ReadSetting64 (dbx_timestamp : Z -> option Z) local_dbx dbx_resource :
  pe_headers buf nt 0xebc secs -> dbx_timestamp 7 = None ->
  IsRevokedByDbx ReadSetting64 dbx_timestamp local_dbx dbx_resource hash buf = Fault OutOfBlock.
Proof.
  intros Hpe Hnone. unfold IsRevokedByDbx. rewrite (GetPeArch_spec Hpe). cbn [mbind checked_bind].
  change (MachineToArch 0xebc) with 8. rewrite bool_decide_false by done. unfold UseLocalDbx.
  change (8 - 1) with 7. by rewrite Hnone.
Qed.
