(* ===== verification/SvnProps.v ===== *)
(** SvnProps: the version that [IsRevokedBySvn] of src/src/hash.c reads in the resources. *)

From S2P Require Import Prelude Pe Faults PeParse Resources Sbat Revocation PeCorrect.

Section svn.
Context (buf : list Z) (nt machine : Z) (secs : list section).

(** The place of an address in the file. *)
Definition place (addr : Z) : option Z :=
  (fun s => u32 (sec_ptr s + u32 (addr - sec_va s))) <$> first_section (holds_rva addr) secs.

(** What the check finds for an entry: a resource of its name with an address that is not zero and a
    size of four bytes, in a section, below the minimum of the entry. [word] is what is at an address. *)
Definition svn_revoked (tree : rsrc) (word : Z -> Z) (e : sbat_entry_t) : bool :=
  let found := tree_find (product e) tree false in
  forallb isupper (product e) && bool_decide (rva found <> 0 /\ rsrc_len found = Some 4) &&
  match place (rva found) with Some _ => bool_decide (word (rva found) < version e) | None => false end.

(** The resources at address [va]: the entry of the data directory, and the tree from its place on. *)
Record resources_at (root va size : Z) (n : nat) (es : list (rsrc_label * rsrc)) : Prop := {
  rs_directory : at_off buf (nt + off_OptionalHeader + off_DataDirectory (negb (is_pe32 machine)) + 16)
    (le_bytes 4 va ++ le_bytes 4 size);
  rs_va : 0 <= va < 2 ^ 32;
  rs_size : 0 <= size < 2 ^ 32;
  rs_root : place va = Some root;
  rs_levels : (n <= rsrc_fuel buf)%nat;
  rs_tree : laid_out buf root n (Dir 0 es);
}.

Context (Hpe : pe_headers buf nt machine secs).
Context (root va size : Z) (n : nat) (es : list (rsrc_label * rsrc)) (Hrs : resources_at root va size n es).

Lemma data_directory_spec : data_directory buf nt IMAGE_DIRECTORY_ENTRY_RESOURCE = Ret (va, size).
Proof.
  destruct Hrs as [Hdir Hva Hsize _ _ _]. unfold data_directory. rewrite (machine_of_spec Hpe). cbn [mbind checked_bind].
  change (8 * IMAGE_DIRECTORY_ENTRY_RESOURCE) with 16.
  rewrite (fetch_le_at _ _ _ _ (at_off_head _ _ _ _ Hdir)) by (change (256 ^ Z.of_nat 4) with (2 ^ 32); lia).
  cbn [mbind checked_bind]. pose proof (at_off_tail _ _ _ _ Hdir) as Hs. rewrite length_le_bytes in Hs.
  change (Z.of_nat 4) with 4 in Hs.
  by rewrite (fetch_le_at _ _ _ _ Hs) by (change (256 ^ Z.of_nat 4) with (2 ^ 32); lia).
Qed.

Lemma svn_entries_spec word entries :
  (forall addr p, place addr = Some p -> In addr (rva <$> ((fun e => tree_find (product e) (Dir 0 es) false) <$> entries)) ->
     at_off buf p (le_bytes 4 (word addr)) /\ 0 <= word addr < 2 ^ 32) ->
  svn_entries buf nt entries = Ret (existsb (svn_revoked (Dir 0 es) word) entries).
Proof.
  induction entries as [|e entries IH]; intros Hword; [done|].
  specialize (IH (fun addr p Hp Hin => Hword addr p Hp (or_intror Hin))).
  cbn [svn_entries existsb]. unfold svn_revoked at 1. cbv zeta.
  destruct (forallb isupper (product e)); cbn [negb andb orb]; [|done].
  rewrite data_directory_spec. cbn [mbind checked_bind]. rewrite (RvaToPhysical_spec _ _ _ _ _ Hpe).
  change (_ <$> first_section (holds_rva va) secs) with (place va). rewrite (rs_root _ _ _ _ _ Hrs).
  cbn [mbind checked_bind].
  pose proof (FindResourceRva_spec buf (product e) root n (rsrc_fuel buf) 0 es false
    (rs_levels _ _ _ _ _ Hrs) (rs_tree _ _ _ _ _ Hrs)) as Hfind.
  rewrite Z.add_0_r in Hfind. rewrite Hfind. cbn [mbind checked_bind]. change (bool_decide (0 = 0)) with true. cbv iota.
  set (found := tree_find (product e) (Dir 0 es) false) in *.
  destruct (decide (rva found = 0)) as [Hz|Hz].
  { rewrite (bool_decide_true _ Hz), (bool_decide_false (rva found <> 0 /\ _)) by tauto. done. }
  rewrite (bool_decide_false _ Hz). destruct (decide (rsrc_len found = Some 4)) as [Hl|Hl].
  2: { rewrite (bool_decide_false _ Hl), (bool_decide_false (rva found <> 0 /\ _)) by tauto. done. }
  rewrite (bool_decide_true _ Hl), (bool_decide_true (rva found <> 0 /\ _)) by tauto. cbn [negb andb].
  rewrite (RvaToPhysical_spec _ _ _ _ _ Hpe). change (_ <$> first_section (holds_rva (rva found)) secs) with (place (rva found)).
  cbn [mbind checked_bind]. destruct (place (rva found)) as [p|] eqn:Hp; [|done].
  destruct (Hword (rva found) p Hp ltac:(by left)) as [Hat Hrange].
  rewrite (fetch_le_at _ _ _ _ Hat) by (change (256 ^ Z.of_nat 4) with (2 ^ 32); lia). cbn [mbind checked_bind].
  by destruct (bool_decide (word (rva found) < version e)).
Qed.

(** C11: Secure versions. On an executable whose resources are laid out as a tree,
    IsRevokedBySvn answers whether, for one of the entries whose product is in upper case, the
    first resource of that name has four bytes that are below the minimum of the entry: the
    walk of the directories and the translation of addresses find what the tree holds. *)
Theorem svn_check_reads_tree word entries g :
  sbat_entries g = Some entries ->
  (forall addr p, place addr = Some p -> In addr (rva <$> ((fun e => tree_find (product e) (Dir 0 es) false) <$> entries)) ->
     at_off buf p (le_bytes 4 (word addr)) /\ 0 <= word addr < 2 ^ 32) ->
  IsRevokedBySvn g buf = Ret (existsb (svn_revoked (Dir 0 es) word) entries).
Proof.
  intros Hg Hword. unfold IsRevokedBySvn. rewrite Hg. destruct Hpe as [Hnt _ Hlf _ _ _ _ _ _ _].
  rewrite (fetch_le_at _ _ _ _ Hlf) by (change (256 ^ Z.of_nat 4) with (2 ^ 32); lia). cbn [mbind checked_bind].
  replace (s32 nt) with nt by (unfold swrap; rewrite Z.mod_small; lia). by apply svn_entries_spec.
Qed.
End svn.

(** An executable with the resource "AB", whose version is 0x20000, under an entry that asks for 0x30000. *)
Definition ab_entries : list (rsrc_label * rsrc) :=
  [(NamedEntry 200 [65; 66], Dir 24 [(IdEntry 1, Dir 48 [(IdEntry 1033, Leaf 72 0x2064 4)])])].
Definition rsrc_section : section := mkSection [46; 114; 115; 114; 99; 0; 0; 0] 512 0x2000 512 512 (replicate 16 0).
Definition svn_image : list Z :=
  poke 0 (le_bytes 2 0x5A4D) (poke 60 (le_bytes 4 64) (poke 64 (le_bytes 4 0x4550) (poke 68 (le_bytes 2 0x8664)
  (poke 70 (le_bytes 2 1) (poke 216 (le_bytes 4 0x2000 ++ le_bytes 4 256) (poke 328 (header_bytes rsrc_section)
  (poke 512 (dir_bytes (replicate 12 0) ab_entries)
  (poke 536 (dir_bytes (replicate 12 0) [(IdEntry 1, Dir 48 [])])
  (poke 560 (dir_bytes (replicate 12 0) [(IdEntry 1033, Leaf 72 0x2064 4)])
  (poke 584 (le_bytes 4 0x2064 ++ le_bytes 4 4) (poke 612 (le_bytes 4 0x20000)
  (poke 712 (le_bytes 2 2 ++ wide [65; 66]) (replicate 1024 0))))))))))))).

Ltac by_computation := apply (bool_decide_eq_true_1 _); vm_compute; reflexivity.

Lemma svn_image_headers : pe_headers svn_image 64 0x8664 [rsrc_section].
Proof. constructor; first [lia|by_computation]. Qed.

Lemma svn_image_laid_out : laid_out svn_image 512 3 (Dir 0 ab_entries).
Proof.
  assert (Hnames : forall l t, names_first (count_named [(l, t)]) 0 [(l, t)]).
  { intros l t [|[|j]] e [= <-]. unfold count_named. cbn. by destruct l. }
  assert (Hid : forall id, 0 <= id < 2 ^ 31 -> label_at svn_image 512 (IdEntry id)) by done.
  exists (replicate 12 0). split_and!; [done|by_computation|done|apply Hnames|].
  constructor; [|constructor]. cbn [fst snd rsrc_off]. split_and!; [|lia|lia|lia|].
  { split_and!; [lia|lia|done|by_computation]. }
  exists (replicate 12 0). split_and!; [done|by_computation|done|apply Hnames|].
  constructor; [|constructor]. cbn [fst snd rsrc_off]. split_and!; [apply Hid; lia|lia|lia|lia|].
  exists (replicate 12 0). split_and!; [done|by_computation|done|apply Hnames|].
  constructor; [|constructor]. cbn [fst snd rsrc_off]. split_and!; [apply Hid; lia|lia|lia|by_computation|lia|lia|lia|lia].
Qed.

Theorem svn_check_reads_tree_witness :
  IsRevokedBySvn (mkGlobals (Some [mkSbat [65; 66] 0x30000]) None None [] false) svn_image = Ret true.
Proof.
  refine (svn_check_reads_tree svn_image 64 0x8664 [rsrc_section] svn_image_headers 512 0x2000 256 3 ab_entries _
    (fun _ => 0x20000) [mkSbat [65; 66] 0x30000] (mkGlobals (Some [mkSbat [65; 66] 0x30000]) None None [] false) eq_refl _).
  - constructor; [by_computation|lia|lia|by_computation| |exact svn_image_laid_out].
    apply Nat.ltb_lt. vm_compute. reflexivity.
  - intros addr p Hp [Haddr|[]]. vm_compute in Haddr. subst addr. vm_compute in Hp. injection Hp as <-.
    split; [by_computation|lia].
Defined.
