(* ===== verification/PolicyProps.v ===== *)
(** PolicyProps: the digests that [ParseSKUSiPolicy] of src/src/pki.c takes from a Windows policy. *)

From S2P Require Import Prelude Pe Faults Revocation.

(** ** Policies *)

(** [bs] filled up to a number of double words. *)
Definition padded (bs : list Z) : list Z := bs ++ replicate (Z.to_nat (- Z.of_nat (length bs) mod 4)) 0.

(** A rule on a file: its kind, the name and the digest. *)
Record file_rule := mkRule { rule_type : Z; rule_name : list Z; rule_version : list Z; rule_hash : list Z }.

Definition rule_ok (r : file_rule) : Prop :=
  0 <= rule_type r < 2 ^ 32 /\ Z.of_nat (length (rule_name r)) < 2 ^ 32 /\ length (rule_version r) = 12%nat /\
  Z.of_nat (length (rule_hash r)) <= 0x80.

Definition rule_bytes (r : file_rule) : list Z :=
  le_bytes 4 (rule_type r) ++ le_bytes 4 (Z.of_nat (length (rule_name r))) ++ padded (rule_name r) ++
  rule_version r ++ le_bytes 4 (Z.of_nat (length (rule_hash r))) ++ padded (rule_hash r).

Definition eku_bytes (eku : list Z) : list Z := le_bytes 4 (Z.of_nat (length eku)) ++ padded eku.

(** The header, with what is not read as [platform], [options], [signers] and [version]. *)
Definition header (fmt platform options signers vers : list Z) (ekus : list (list Z)) (rules : list file_rule) : list Z :=
  fmt ++ SKU_CODE_INTEGRITY_POLICY ++ platform ++ options ++ le_bytes 4 (Z.of_nat (length ekus)) ++
  le_bytes 4 (Z.of_nat (length rules)) ++ signers ++ vers ++ le_bytes 4 64.

(** The header of the OCTET STRING. *)
Definition octet_header_ok (hdr : list Z) : Prop :=
  exists b1 lens, hdr = 4 :: b1 :: lens /\ 0 <= b1 < 256 /\
    Z.of_nat (length lens) = if Z.testbit b1 7 then Z.land b1 0x7F else 0.

(** The digests that the rules deny. *)
Definition denied (rules : list file_rule) : list (list Z) :=
  rule_hash <$> filter (fun r => rule_type r = CI_DENY /\ length (rule_hash r) = PE256_HASHSIZE) rules.

(** The array after a rule. *)
Definition add_rule (ssp : list (list Z)) (r : file_rule) : list (list Z) :=
  if bool_decide (rule_type r = CI_DENY /\ length (rule_hash r) = PE256_HASHSIZE)
  then if bool_decide (last ssp = Some (rule_hash r)) then ssp else ssp ++ [rule_hash r]
  else ssp.

(** ** Reading the rules *)

Lemma length_padded bs : Z.of_nat (length (padded bs)) = (Z.of_nat (length bs) + 3) / 4 * 4.
Proof.
  unfold padded. rewrite length_app, length_replicate. set (n := Z.of_nat (length bs)).
  pose proof (Z.mod_pos_bound (- n) 4 ltac:(lia)). rewrite Nat2Z.inj_add. fold n. rewrite Z2Nat.id by lia.
  pose proof (Z.div_mod (- n) 4 ltac:(lia)) as Hd.
  assert ((n + 3) / 4 = - (- n / 4)); [|lia]. symmetry. apply Z.div_unique with (3 - (- n) mod 4); lia.
Qed.

Lemma length_eku_bytes eku : Z.of_nat (length (eku_bytes eku)) = (Z.of_nat (length eku) + 7) / 4 * 4.
Proof.
  unfold eku_bytes. rewrite length_app, length_le_bytes, Nat2Z.inj_add, length_padded.
  replace (Z.of_nat (length eku) + 7) with (Z.of_nat (length eku) + 3 + 1 * 4) by lia.
  rewrite Z.div_add by lia. lia.
Qed.

Lemma skip_eku_rules_spec pb ekus : forall off rest, Forall (fun e => Z.of_nat (length e) < 2 ^ 32) ekus ->
  at_off pb off (concat (eku_bytes <$> ekus) ++ rest) ->
  exists off', skip_eku_rules pb off (length ekus) = Ret off' /\ at_off pb off' rest.
Proof.
  induction ekus as [|e ekus IH]; intros off rest Hok Hat; [by exists off|].
  apply Forall_cons in Hok as [He Hok]. cbn [fmap list_fmap concat length skip_eku_rules] in *.
  rewrite <- app_assoc in Hat. pose proof Hat as Hlen. unfold eku_bytes in Hlen at 1. rewrite <- app_assoc in Hlen.
  rewrite (fetch_le_at _ _ _ _ (at_off_head _ _ _ _ Hlen)) by (change (256 ^ Z.of_nat 4) with (2 ^ 32); lia).
  cbn [mbind checked_bind]. apply at_off_tail in Hat. rewrite length_eku_bytes in Hat. by apply IH.
Qed.

Lemma length_name_padded name :
  (if bool_decide (Z.of_nat (length name) = 0) then 0 else (Z.of_nat (length name) + 3) / 4 * 4) =
    Z.of_nat (length (padded name)).
Proof. rewrite length_padded. case_bool_decide as H; [by rewrite H|done]. Qed.

Lemma file_rules_spec pb max rules : forall off rest ssp, Forall rule_ok rules ->
  at_off pb off (concat (rule_bytes <$> rules) ++ rest) -> (length ssp + length rules <= max)%nat ->
  file_rules pb off (length rules) max ssp = Ret (foldl add_rule ssp rules).
Proof.
  induction rules as [|r rules IH]; intros off rest ssp Hok Hat Hmax; [done|].
  apply Forall_cons in Hok as [(Htype & Hname & Hver & Hhash) Hok].
  cbn [fmap list_fmap concat length file_rules foldl] in *. rewrite <- app_assoc in Hat.
  assert (Hnext : forall off n a bs, at_off pb off (a ++ bs) -> Z.of_nat (length a) = n -> at_off pb (off + n) bs)
    by (intros off' n a bs H <-; by apply at_off_tail).
  pose proof Hat as H0. unfold rule_bytes in H0 at 1. rewrite <- !app_assoc in H0.
  rewrite (fetch_le_at _ _ _ _ (at_off_head _ _ _ _ H0)) by (change (256 ^ Z.of_nat 4) with (2 ^ 32); lia).
  cbn [mbind checked_bind]. apply (Hnext _ 4) in H0; [|by rewrite length_le_bytes].
  rewrite (fetch_le_at _ _ _ _ (at_off_head _ _ _ _ H0)) by (change (256 ^ Z.of_nat 4) with (2 ^ 32); lia).
  cbn [mbind checked_bind]. apply (Hnext _ 4) in H0; [|by rewrite length_le_bytes].
  cbv zeta. rewrite length_name_padded. unfold sizeof_CIFileRuleHeader, sizeof_CIFileRuleData.
  apply (Hnext _ (Z.of_nat (length (padded (rule_name r))))) in H0; [|done].
  set (data := off + 8 + Z.of_nat (length (padded (rule_name r)))).
  replace (off + 4 + 4 + Z.of_nat (length (padded (rule_name r)))) with data in H0 by (unfold data; lia).
  apply (Hnext _ 12) in H0; [|by rewrite Hver].
  rewrite (fetch_le_at _ _ _ _ (at_off_head _ _ _ _ H0)) by (change (256 ^ Z.of_nat 4) with (2 ^ 32); lia).
  cbn [mbind checked_bind]. rewrite (bool_decide_false (_ > 0x80)) by lia.
  apply (Hnext _ 4) in H0; [|by rewrite length_le_bytes].
  replace (data + 12 + 4) with (data + 16) in H0 by lia.
  assert (Hmore : forall ssp', (length ssp' <= S (length ssp))%nat ->
    file_rules pb (data + 16 + (Z.of_nat (length (rule_hash r)) + 3) / 4 * 4) (length rules) max ssp' =
      Ret (foldl add_rule ssp' rules)).
  { intros ssp' Hle. rewrite <- length_padded. apply IH with rest; [done|by apply at_off_tail|lia]. }
  unfold add_rule at 2. destruct (decide (rule_type r = CI_DENY /\ length (rule_hash r) = PE256_HASHSIZE)) as [[Hd Hl]|Hn].
  - rewrite (bool_decide_true (_ /\ _ = Z.of_nat _)) by (rewrite Hl; tauto).
    rewrite (bool_decide_true (_ /\ length _ = _)) by tauto.
    unfold padded in H0. rewrite <- app_assoc in H0.
    rewrite (fetch_bytes_at _ _ _ _ (at_off_head _ _ _ _ H0)) by done. cbn [mbind checked_bind].
    destruct (bool_decide (last ssp = Some (rule_hash r))); [apply Hmore; lia|].
    rewrite bool_decide_true by lia. apply Hmore. rewrite length_app. cbn. lia.
  - rewrite (bool_decide_false (_ /\ _ = Z.of_nat _)) by (intros [? ?]; apply Hn; split; [done|lia]).
    rewrite (bool_decide_false (_ /\ length _ = _)) by done. apply Hmore. lia.
Qed.

(** The array holds what the rules deny. *)
Lemma add_rules_denied rules : forall ssp h,
  In h (foldl add_rule ssp rules) <-> In h ssp \/ In h (denied rules).
Proof.
  induction rules as [|r rules IH]; intros ssp h; [cbn; tauto|]. cbn [foldl]. rewrite IH. unfold denied.
  rewrite filter_cons. unfold add_rule.
  destruct (decide (rule_type r = CI_DENY /\ length (rule_hash r) = PE256_HASHSIZE)) as [Hd|Hn].
  - rewrite (bool_decide_true _ Hd). cbn [fmap list_fmap In]. case_bool_decide as Hlast.
    + assert (In (rule_hash r) ssp) by (by apply list_elem_of_In, last_Some_elem_of).
      split; [tauto|]. intros [|[<-|]]; tauto.
    + rewrite in_app_iff. cbn [In]. tauto.
  - rewrite (bool_decide_false _ Hn). tauto.
Qed.

(** [dwBaseIndex] is the length of the header of the OCTET STRING. *)
Lemma policy_base_spec hdr bs : octet_header_ok hdr -> policy_base (hdr ++ bs) = Ret (Z.of_nat (length hdr)).
Proof.
  intros (b1 & lens & -> & Hb1 & Hlens). unfold policy_base.
  pose proof (at_off_here [] [4] (b1 :: lens ++ bs)) as H4. pose proof (at_off_here [4] [b1] (lens ++ bs)) as H1.
  cbn [app length] in H4, H1. change ((4 :: b1 :: lens) ++ bs) with (4 :: b1 :: lens ++ bs).
  rewrite (fetch_at _ _ _ _ H4) by done. cbn [mbind checked_bind].
  change (bool_decide (le_word [4] = 4)) with true. cbv iota.
  rewrite (fetch_at _ _ _ _ H1) by done. cbn [mbind checked_bind le_word length].
  replace (b1 + 256 * 0) with b1 by lia. destruct (Z.testbit b1 7); [|f_equal; lia].
  pose proof (at_off_here [4; b1] lens bs) as Hl. cbn [app length] in Hl.
  rewrite (fetch_bytes_at _ _ _ _ Hl) by lia. cbn [mbind checked_bind]. f_equal. lia.
Qed.

(** What is not read in the header. *)
Definition header_rest_ok (fmt platform options signers vers : list Z) : Prop :=
  length fmt = 4%nat /\ length platform = 16%nat /\ length options = 4%nat /\ length signers = 8%nat /\ length vers = 8%nat.

(** C12: The Windows policy. On a policy with any rules of the two kinds, names and digests of any
    length up to 128 bytes, ParseSKUSiPolicy succeeds, and the array that it makes holds
    exactly the 32-byte digests that a rule of the file denies, within what is allocated. *)
Theorem policy_denies hdr fmt platform options signers vers ekus rules rest size :
  octet_header_ok hdr -> header_rest_ok fmt platform options signers vers ->
  Forall (fun e => Z.of_nat (length e) < 2 ^ 32) ekus -> Z.of_nat (length ekus) < 2 ^ 32 ->
  Forall rule_ok rules -> Z.of_nat (length rules) < 2 ^ 27 -> size <> 0 ->
  let pb := hdr ++ header fmt platform options signers vers ekus rules ++
    concat (eku_bytes <$> ekus) ++ concat (rule_bytes <$> rules) ++ rest in
  exists ssp, ParseSKUSiPolicy (mkPolicy (Some CERT_QUERY_CONTENT_PKCS7_SIGNED) (Some size) (Some pb)) = Ret (true, ssp) /\
    (forall h, In h ssp <-> In h (denied rules)) /\ (length ssp <= length rules)%nat.
Proof.
  intros Hhdr (Hfmt & Hplat & Hopt & Hsig & Hver) Hekus Hneku Hrules Hnrules Hsize pb.
  exists (foldl add_rule [] rules). split_and!.
  2: { intros h. rewrite add_rules_denied. cbn. tauto. }
  2: { enough (forall ssp, length (foldl add_rule ssp rules) <= length ssp + length rules)%nat as Hle by apply (Hle []).
       induction rules as [|r rs IH]; intros ssp; cbn [foldl length]; [lia|].
       apply Forall_cons in Hrules as [_ Hrules]. cbn [length] in Hnrules.
       etransitivity; [apply IH; [done|lia]|]. unfold add_rule.
       repeat case_bool_decide; rewrite ?length_app; cbn [length]; lia. }
  cbn [ParseSKUSiPolicy CryptQueryObject_type content_size content]. rewrite bool_decide_true by done. cbn [negb].
  assert (Hpb : at_off pb (Z.of_nat (length hdr)) (header fmt platform options signers vers ekus rules ++
    concat (eku_bytes <$> ekus) ++ concat (rule_bytes <$> rules) ++ rest)).
  { unfold pb. rewrite <- (app_nil_r (hdr ++ _)), <- app_assoc. apply at_off_here. }
  assert (Hbase : policy_base pb = Ret (Z.of_nat (length hdr))) by (by apply policy_base_spec).
  clearbody pb. set (base := Z.of_nat (length hdr)) in *.
  assert (Hnext : forall off n a bs, at_off pb off (a ++ bs) -> Z.of_nat (length a) = n -> at_off pb (off + n) bs)
    by (intros off' n a bs H <-; by apply at_off_tail).
  unfold header in Hpb. rewrite <- !app_assoc in Hpb.
  apply (Hnext _ 4) in Hpb; [|lia]. pose proof (at_off_head _ _ _ _ Hpb) as Hguid.
  apply (Hnext _ 16) in Hpb; [|done]. apply (Hnext _ 16) in Hpb; [|lia]. apply (Hnext _ 4) in Hpb; [|lia].
  pose proof (at_off_head _ _ _ _ Hpb) as Hne. apply (Hnext _ 4) in Hpb; [|by rewrite length_le_bytes].
  pose proof (at_off_head _ _ _ _ Hpb) as Hnr. apply (Hnext _ 4) in Hpb; [|by rewrite length_le_bytes].
  apply (Hnext _ 8) in Hpb; [|lia]. apply (Hnext _ 8) in Hpb; [|lia].
  pose proof (at_off_head _ _ _ _ Hpb) as Hhl. apply (Hnext _ 4) in Hpb; [|by rewrite length_le_bytes]. clear Hnext.
  replace (base + 4 + 16 + 16 + 4 + 4 + 4 + 8 + 8) with (base + 64) in Hhl by lia.
  replace (base + 4 + 16 + 16 + 4 + 4 + 4 + 8 + 8 + 4) with (base + sizeof_CIHeader) in Hpb
    by (unfold sizeof_CIHeader; lia).
  replace (base + 4 + 16 + 16 + 4 + 4) with (base + 44) in Hnr by lia.
  replace (base + 4 + 16 + 16 + 4) with (base + 40) in Hne by lia.
  assert (Hcase : forall (A : Type) (a b : A), match size with 0 => a | _ => b end = b) by (by destruct size).
  rewrite Hcase, Hbase. cbn [mbind checked_bind]. rewrite (fetch_le_at _ _ _ _ Hhl) by lia. cbn [mbind checked_bind].
  rewrite bool_decide_true by done. cbn [negb].
  rewrite (fetch_bytes_at _ _ _ _ Hguid) by done. cbn [mbind checked_bind]. rewrite bool_decide_true by done. cbn [negb].
  rewrite (fetch_le_at _ _ _ _ Hne) by (change (256 ^ Z.of_nat 4) with (2 ^ 32); lia). cbn [mbind checked_bind].
  rewrite Nat2Z.id. destruct (skip_eku_rules_spec pb ekus _ _ Hekus Hpb) as (off' & -> & Hoff). cbn [mbind checked_bind].
  rewrite (fetch_le_at _ _ _ _ Hnr) by (change (256 ^ Z.of_nat 4) with (2 ^ 32); lia). cbn [mbind checked_bind].
  rewrite Nat2Z.id, (uwrap_small 32) by lia. rewrite Z.div_mul, Nat2Z.id by lia.
  rewrite (file_rules_spec pb (length rules) rules off' rest []) by (first [done|cbn; lia]). done.
Qed.

(** One EKU rule, a denied digest twice, an allowed one and a denied digest of another size. *)
Definition sample_rules : list file_rule :=
  [mkRule 0 [1; 2; 3] (replicate 12 0) (replicate 32 7); mkRule 0 [] (replicate 12 0) (replicate 32 7);
   mkRule 1 [] (replicate 12 0) (replicate 32 8); mkRule 0 [] (replicate 12 0) (replicate 20 9)].

Theorem policy_denies_witness :
  exists ssp, ParseSKUSiPolicy (mkPolicy (Some CERT_QUERY_CONTENT_PKCS7_SIGNED) (Some 1)
      (Some ([4; 0x81; 0xff] ++ header [1; 0; 0; 0] (replicate 16 0) (replicate 4 0) (replicate 8 0) (replicate 8 0) [[5]] sample_rules ++
        concat (eku_bytes <$> [[5]]) ++ concat (rule_bytes <$> sample_rules) ++ []))) = Ret (true, ssp) /\
    (forall h, In h ssp <-> In h [replicate 32 7; replicate 32 7]) /\ (length ssp <= 4)%nat.
Proof.
  refine (policy_denies [4; 0x81; 0xff] [1; 0; 0; 0] (replicate 16 0) (replicate 4 0) (replicate 8 0) (replicate 8 0)
    [[5]] sample_rules [] 1 _ _ _ _ _ _ _).
  - exists 0x81, [0xff]. split_and!; [done|lia|lia|done].
  - by split_and!.
  - repeat constructor.
  - done.
  - repeat constructor; cbn; lia.
  - done.
  - done.
Defined.

(** An unexpected header is logged and leaves the array empty, but TRUE is returned. *)
Lemma policy_unexpected_header :
  ParseSKUSiPolicy (mkPolicy (Some CERT_QUERY_CONTENT_PKCS7_SIGNED) (Some 80) (Some (replicate 80 1))) = Ret (true, []).
Proof. vm_compute. done. Qed.
