(* ===== verification/Htab.v ===== *)
(** Htab: the hash table of src/src/stdfn.c.

    A string is the list of its bytes before the terminator; [table] is the block of
    [size + 1] elements. A failed assertion stops the program. *)

From S2P Require Import Prelude Faults.

(** ** The table *)

(** [used] is the first index of the element, 0 when it is free; [str] may be NULL, and [data]
    is the pointer that the clients keep. *)
Record htab_entry := mkHtabEntry { used : Z; str : option (list Z); data : option Z }.
Definition free_entry : htab_entry := mkHtabEntry 0 None None.
#[export] Instance htab_entry_inhabited : Inhabited htab_entry := populate free_entry.

Record htab_table := mkHtab { table : option (list htab_entry); size : Z; filled : Z }.
Definition HTAB_EMPTY : htab_table := mkHtab None 0 0.

(** ** [htab_create] *)

(** The loop of [isprime]; [NoEnd] is no behaviour of the code. *)
Fixpoint isprime_loop (fuel : nat) (number divider : Z) : checked Z :=
  match fuel with
  | O => Fault NoEnd
  | S fuel =>
      if bool_decide (u32 (divider * divider) < number) && negb (bool_decide (number mod divider = 0))
      then isprime_loop fuel number (u32 (divider + 2)) else Ret divider
  end.

Definition isprime (number : Z) : checked bool :=
  divider ← isprime_loop (Z.to_nat number) number 3;
  Ret (negb (bool_decide (number mod divider = 0))).

(** [while (!isprime(nel)) nel += 2]. *)
Fixpoint next_prime (fuel : nat) (nel : Z) : checked Z :=
  match fuel with
  | O => Fault NoEnd
  | S fuel => p ← isprime nel; if (p : bool) then Ret nel else next_prime fuel (u32 (nel + 2))
  end.

(** [alloc] is whether [calloc] finds the memory. *)
Definition htab_create (fuel : nat) (alloc : bool) (nel : Z) (htab : htab_table) : checked (bool * htab_table) :=
  match table htab with
  | Some _ => Fault AssertFailed
  | None =>
      size ← next_prime fuel (Z.lor nel 1);
      Ret (if alloc then (true, mkHtab (Some (replicate (Z.to_nat (size + 1)) free_entry)) size 0)
           else (false, mkHtab None size 0))
  end.

Definition htab_destroy (htab : htab_table) : htab_table :=
  match table htab with None => htab | Some _ => HTAB_EMPTY end.

(** ** [htab_hash] *)

(** A [char] is signed. *)
Definition sdbm (s : list Z) : Z :=
  fold_left (fun r c => u32 (swrap 8 c + Z.shiftl r 6 + Z.shiftl r 16 - r)) s 0.

(** [hval]: never 0. *)
Definition hash_value (size : Z) (s : list Z) : Z :=
  let r := sdbm s in
  let r := if bool_decide (r = 0) then 1 else r in
  let hval := r mod size in
  if bool_decide (hval = 0) then 1 else hval.

Definition second_hash (size hval : Z) : Z := 1 + hval mod u32 (size - 2).

(** The next index. *)
Definition probe (size hval2 idx : Z) : Z :=
  if bool_decide (idx <= hval2) then u32 (size + idx - hval2) else idx - hval2.

(** [safe_strcmp(str, entry.str) == 0]. *)
Definition same_str (s : list Z) (e : htab_entry) : bool :=
  bool_decide (s = default [60; 78; 85; 76; 76; 62] (str e)).

Section hash.
Context (htab : htab_table) (t : list htab_entry) (s : list Z).

Definition entry_at (idx : Z) : checked htab_entry := access (t !! Z.to_nat idx).

(** What the search ends with: the element of the string, or the index for a new one. *)
Inductive search_end := Found (idx : Z) | NewAt (idx : Z).

(** The do loop, from the index before its first turn. *)
Fixpoint probe_loop (fuel : nat) (hval hval2 idx : Z) : checked search_end :=
  match fuel with
  | O => Fault NoEnd
  | S fuel =>
      let idx := probe (size htab) hval2 idx in
      if bool_decide (idx = hval) then Ret (NewAt idx)
      else
        e ← entry_at idx;
        if bool_decide (used e = hval) && same_str s e then Ret (Found idx)
        else if bool_decide (used e = 0) then Ret (NewAt idx)
        else probe_loop fuel hval hval2 idx
  end.

Definition htab_search : checked search_end :=
  let hval := hash_value (size htab) s in
  e ← entry_at hval;
  if bool_decide (used e = 0) then Ret (NewAt hval)
  else if bool_decide (used e = hval) && same_str s e then Ret (Found hval)
  else probe_loop (Z.to_nat (size htab)) hval (second_hash (size htab) hval) hval.
End hash.

(** [str] is not NULL; [alloc] is whether [malloc] finds the memory. *)
Definition htab_hash (alloc : bool) (s : list Z) (htab : htab_table) : checked (Z * htab_table) :=
  match table htab with
  | None => Ret (0, htab)
  | Some t =>
      r ← htab_search htab t s;
      match r with
      | Found idx => Ret (idx, htab)
      | NewAt idx =>
          _ ← assert_that (bool_decide (filled htab < size htab));
          e ← entry_at t idx;
          let hval := hash_value (size htab) s in
          let set str := Some (<[Z.to_nat idx := mkHtabEntry hval str (data e)]> t) in
          Ret (if alloc then (idx, mkHtab (set (Some s)) (size htab) (u32 (filled htab + 1)))
               else (0, mkHtab (set None) (size htab) (filled htab)))
      end
  end.
