(* ===== verification/HtabCorrect.v ===== *)
(** HtabCorrect: the hash table of src/src/stdfn.c stands for a finite map from strings to
    indices, and [isprime] finds the primes. *)

From Stdlib Require Import Znumtheory.
From stdpp Require Import gmap.
From S2P Require Import Prelude Faults Htab.

(** ** [isprime] *)

Definition odd_divisor_below (d n : Z) : Prop := exists k, 3 <= k < d /\ Z.odd k = true /\ (k | n).

(** A composite odd number has an odd divisor that is not above its square root. *)
Lemma composite_divisor n : 3 <= n -> Z.odd n = true -> ~ prime n ->
  exists d, 3 <= d /\ Z.odd d = true /\ (d | n) /\ d * d <= n.
Proof.
  intros Hn Hodd Hnp. destruct (not_prime_divide n ltac:(lia) Hnp) as (d & Hd & [q Hq]).
  assert (Hodds : Z.odd d = true /\ Z.odd q = true).
  { rewrite Hq, Z.odd_mul in Hodd. apply andb_true_iff in Hodd. tauto. }
  destruct Hodds as [Hd1 Hq1]. assert (Hge : forall x, 1 < x -> Z.odd x = true -> 3 <= x).
  { intros x Hx Hox. destruct (decide (x = 2)) as [->|]; [done|lia]. }
  assert (1 < q) by nia. destruct (decide (d * d <= n)) as [Hle|Hgt].
  - exists d. split_and!; [by apply Hge; [lia|]|done|by exists q|done].
  - exists q. split_and!; [by apply Hge|done|exists d; lia|nia].
Qed.

(** The loop stops at the first odd divisor, or at the first odd number whose square is not below. *)
Lemma isprime_loop_spec fuel : forall n d, Z.odd n = true -> 5 <= n < 4294836225 ->
  3 <= d -> Z.odd d = true -> (d - 2) * (d - 2) < n -> ~ odd_divisor_below d n ->
  n - d < 2 * Z.of_nat fuel -> d < n ->
  exists d', isprime_loop fuel n d = Ret d' /\ 3 <= d' < n /\
    ((d' | n) \/ (n <= d' * d' /\ ~ odd_divisor_below d' n)).
Proof.
  induction fuel as [|fuel IH]; intros n d Hodd Hn Hd Hdodd Hsq Hnone Hfuel Hlt; [lia|]. cbn [isprime_loop].
  assert (Hd' : d <= 65536) by nia. assert (d < 65536) by (destruct (decide (d = 65536)) as [->|]; [done|lia]).
  rewrite (uwrap_small 32 (d * d)) by nia. rewrite (uwrap_small 32 (d + 2)) by lia.
  destruct (decide (d * d < n)) as [Hdd|Hdd].
  2: { rewrite (bool_decide_false _ Hdd). cbn [andb]. exists d. split_and!; [done|lia|lia|]. right. split; [lia|done]. }
  rewrite (bool_decide_true _ Hdd). destruct (decide (n mod d = 0)) as [Hdiv|Hdiv].
  { rewrite (bool_decide_true _ Hdiv). cbn [negb andb]. exists d. split_and!; [done|lia|lia|].
    left. apply Z.mod_divide; [lia|done]. }
  rewrite (bool_decide_false _ Hdiv). cbn [negb andb]. assert (Hd2 : d + 2 < n) by nia.
  apply IH; [done|done|lia| |ring_simplify; lia| |lia|lia].
  - rewrite Z.odd_add. by rewrite Hdodd.
  - intros (k & Hk & Hkodd & Hkn). destruct (decide (k < d)) as [|Hge]; [apply Hnone; exists k; split_and!; first [lia|done]|].
    assert (k = d \/ k = d + 1) as [-> | ->] by lia.
    + apply Hdiv. by apply Z.mod_divide; [lia|].
    + rewrite Z.odd_add, Hdodd in Hkodd. done.
Qed.

(** isprime answers, for every odd number from 5 up to the square of 65535,
    where divider * divider does not wrap, whether it is a prime. *)
Lemma isprime_correct n : Z.odd n = true -> 5 <= n < 4294836225 ->
  exists b, isprime n = Ret b /\ (b = true <-> prime n).
Proof.
  intros Hodd Hn. unfold isprime.
  destruct (isprime_loop_spec (Z.to_nat n) n 3 Hodd Hn) as (d & -> & Hd & Hend);
    [lia|done|lia|intros (k & Hk & _); lia|lia|lia|].
  cbn [mbind checked_bind]. eexists. split; [done|]. rewrite negb_true_iff, bool_decide_eq_false. split.
  - intros Hmod. destruct (prime_dec n) as [|Hnp]; [done|]. exfalso.
    destruct Hend as [Hdiv|[Hsq Hnone]]; [by apply Hmod, Z.mod_divide; [lia|]|].
    destruct (composite_divisor n ltac:(lia) Hodd Hnp) as (k & Hk & Hkodd & Hkn & Hkk).
    destruct (decide (k < d)) as [|Hge]; [apply Hnone; exists k; split_and!; first [lia|done]|].
    assert (k = d) as -> by nia. by apply Hmod, Z.mod_divide; [lia|].
  - intros Hp Hmod. apply Z.mod_divide in Hmod; [|lia].
    apply prime_alt in Hp as [_ Hp]. by apply (Hp d ltac:(lia)).
Qed.

(** 3 is not recognised: the table that is asked for 2 or 3 elements has 5. *)
Lemma isprime_3 : isprime 3 = Ret false /\ next_prime 5 3 = Ret 5.
Proof. vm_compute. done. Qed.

(** ** The indices of a probe sequence *)

Section probes.
Context (p : Z) (Hp : prime p) (Hrange : 5 <= p < 2 ^ 31).

(** The [k]th index for the first index [hval]. *)
Definition nth_probe (hval : Z) (k : nat) : Z := (hval - 1 - Z.of_nat k * second_hash p hval) mod p + 1.

Lemma second_hash_range hval : 1 <= hval < p -> 1 <= second_hash p hval < p.
Proof.
  intros Hh. unfold second_hash. rewrite uwrap_small by lia.
  pose proof (Z.mod_pos_bound hval (p - 2) ltac:(lia)). lia.
Qed.

Lemma hash_value_range s : 1 <= hash_value p s < p.
Proof.
  unfold hash_value. cbv zeta. generalize (if bool_decide (sdbm s = 0) then 1 else sdbm s). intros r.
  pose proof (Z.mod_pos_bound r p ltac:(lia)). destruct (decide (r mod p = 0)) as [Hz|Hz].
  - rewrite (bool_decide_true _ Hz). lia.
  - rewrite (bool_decide_false _ Hz). lia.
Qed.

Lemma nth_probe_range hval k : 1 <= nth_probe hval k <= p.
Proof. unfold nth_probe. pose proof (Z.mod_pos_bound (hval - 1 - Z.of_nat k * second_hash p hval) p ltac:(lia)). lia. Qed.

Lemma nth_probe_0 hval : 1 <= hval < p -> nth_probe hval 0 = hval.
Proof. intros Hh. unfold nth_probe. rewrite Z.mul_0_l, Z.sub_0_r, Z.mod_small by lia. lia. Qed.

Lemma probe_nth hval k : 1 <= hval < p ->
  probe p (second_hash p hval) (nth_probe hval k) = nth_probe hval (S k).
Proof.
  intros Hh. pose proof (second_hash_range hval Hh) as Hs. pose proof (nth_probe_range hval k) as Hi.
  unfold probe. set (h2 := second_hash p hval) in *.
  assert (Hmod : nth_probe hval (S k) = (nth_probe hval k - 1 - h2) mod p + 1).
  { unfold nth_probe. fold h2. rewrite Z.add_simpl_r, Zminus_mod_idemp_l. do 2 f_equal. lia. }
  rewrite Hmod. case_bool_decide as Hle.
  - rewrite uwrap_small by lia. assert ((nth_probe hval k - 1 - h2) mod p = p + nth_probe hval k - 1 - h2); [|lia].
    symmetry. apply Z.mod_unique with (-1); lia.
  - rewrite Z.mod_small by lia. lia.
Qed.

Lemma step_coprime hval : 1 <= hval < p -> rel_prime p (second_hash p hval).
Proof.
  intros Hh. pose proof (second_hash_range hval Hh). apply prime_rel_prime; [done|].
  intros Hdiv. apply Z.divide_pos_le in Hdiv; lia.
Qed.

(** The first [p] indices are different. *)
Lemma nth_probe_inj hval j k : 1 <= hval < p -> Z.of_nat j < p -> Z.of_nat k < p ->
  nth_probe hval j = nth_probe hval k -> j = k.
Proof.
  intros Hh Hj Hk Heq. unfold nth_probe in Heq.
  assert (Hdiv : (p | (Z.of_nat k - Z.of_nat j) * second_hash p hval)).
  { apply Z.mod_divide; [lia|].
    replace ((Z.of_nat k - Z.of_nat j) * second_hash p hval) with
      ((hval - 1 - Z.of_nat j * second_hash p hval) - (hval - 1 - Z.of_nat k * second_hash p hval)) by lia.
    rewrite Zminus_mod. replace ((hval - 1 - Z.of_nat j * second_hash p hval) mod p)
      with ((hval - 1 - Z.of_nat k * second_hash p hval) mod p) by lia.
    by rewrite Z.sub_diag. }
  rewrite Z.mul_comm in Hdiv. apply Gauss in Hdiv; [|by apply step_coprime].
  destruct Hdiv as [q Hq]. assert (q = 0) by nia. lia.
Qed.

Lemma nth_probe_not_back hval k : 1 <= hval < p -> (0 < k)%nat -> Z.of_nat k < p -> nth_probe hval k <> hval.
Proof.
  intros Hh H0 Hk Heq. rewrite <- (nth_probe_0 hval Hh) in Heq at 2. apply nth_probe_inj in Heq; lia.
Qed.

(** After [p] turns the sequence is back at its start. *)
Lemma nth_probe_end hval : 1 <= hval < p -> nth_probe hval (Z.to_nat p) = hval.
Proof.
  intros Hh. unfold nth_probe. rewrite Z2Nat.id by lia.
  replace (hval - 1 - p * second_hash p hval) with (hval - 1 + (- second_hash p hval) * p) by lia.
  rewrite Z.mod_add, Z.mod_small by lia. lia.
Qed.

(** The sequence reaches every index. *)
Lemma nth_probe_surj hval i : 1 <= hval < p -> 1 <= i <= p -> exists k, Z.of_nat k < p /\ nth_probe hval k = i.
Proof.
  intros Hh Hi. pose proof (step_coprime hval Hh) as Hc. apply rel_prime_sym, rel_prime_bezout in Hc.
  destruct Hc as [u v Huv]. set (h2 := second_hash p hval) in *.
  exists (Z.to_nat ((u * (hval - i)) mod p)). pose proof (Z.mod_pos_bound (u * (hval - i)) p ltac:(lia)).
  rewrite Z2Nat.id by lia. split; [lia|]. unfold nth_probe. fold h2. rewrite Z2Nat.id by lia.
  assert (Heq : (hval - 1 - (u * (hval - i)) mod p * h2) mod p = i - 1); [|lia].
  rewrite Zminus_mod, Zmult_mod_idemp_l, <- Zminus_mod.
  replace (hval - 1 - u * (hval - i) * h2) with (i - 1 + (v * (hval - i)) * p).
  - rewrite Z.mod_add by lia. apply Z.mod_small. lia.
  - replace (u * (hval - i) * h2) with ((hval - i) * (u * h2)) by ring.
    replace (u * h2) with (1 - v * p) by lia. ring.
Qed.
End probes.

(** ** What a table stands for *)

Section table.
Context (p : Z) (Hp : prime p) (Hrange : 5 <= p < 2 ^ 31).

Abbreviation nth_probe := (nth_probe p).
Abbreviation hv := (hash_value p).

Definition stored (t : list htab_entry) (s : list Z) (i : Z) : Prop :=
  exists e, t !! Z.to_nat i = Some e /\ used e <> 0 /\ str e = Some s.

Definition taken (t : list htab_entry) (i : Z) : Prop := exists e, t !! Z.to_nat i = Some e /\ used e <> 0.

(** Each element that is used has a string with its first index, is on the sequence of this
    index, and the ones before it on the sequence are used; a string is there once. *)
Record table_ok (t : list htab_entry) : Prop := {
  ok_length : Z.of_nat (length t) = p + 1;
  ok_entry : forall i e, 0 <= i -> t !! Z.to_nat i = Some e -> used e <> 0 ->
    exists s k, str e = Some s /\ used e = hv s /\ Z.of_nat k < p /\ i = nth_probe (hv s) k /\
      forall j, (j < k)%nat -> taken t (nth_probe (hv s) j);
  ok_once : forall s i j, 0 <= i -> 0 <= j -> stored t s i -> stored t s j -> i = j;
}.

(** The map of the strings that are in the table. *)
Record represents (h : htab_table) (m : gmap (list Z) Z) : Prop := {
  rep_size : size h = p;
  rep_filled : filled h = Z.of_nat (base.size m);
  rep_table : exists t, table h = Some t /\ table_ok t /\ forall s i, m !! s = Some i <-> 0 <= i /\ stored t s i;
}.

Lemma entry_in t i : table_ok t -> 1 <= i <= p -> exists e, entry_at t i = Ret e /\ t !! Z.to_nat i = Some e.
Proof.
  intros Hok Hi. destruct (lookup_lt_is_Some_2 t (Z.to_nat i)) as [e He].
  { pose proof (ok_length t Hok). lia. }
  exists e. split; [|done]. unfold entry_at. by rewrite He.
Qed.

(** ** The search *)

(** What stops the search for [s]: its element, or a free one. *)
Definition matches (t : list htab_entry) (s : list Z) (i : Z) : Prop :=
  exists e, t !! Z.to_nat i = Some e /\ used e = hv s /\ same_str s e = true.

Lemma matches_stored t s i : table_ok t -> 0 <= i -> matches t s i -> stored t s i.
Proof.
  intros Hok Hi (e & He & Hu & Hs). assert (Hn : used e <> 0) by (rewrite Hu; pose proof (hash_value_range p Hrange s); lia).
  exists e. split_and!; [done|done|]. destruct (ok_entry t Hok i e Hi He Hn) as (s' & k & Hs' & _).
  unfold same_str in Hs. rewrite Hs' in Hs. apply bool_decide_eq_true_1 in Hs. by rewrite Hs', Hs.
Qed.

Lemma stored_matches t s i : table_ok t -> 0 <= i -> stored t s i -> matches t s i.
Proof.
  intros Hok Hi (e & He & Hn & Hs). destruct (ok_entry t Hok i e Hi He Hn) as (s' & k & Hs' & Hu & _).
  exists e. rewrite Hs in Hs'. injection Hs' as <-. split_and!; [done|done|].
  unfold same_str. rewrite Hs. by apply bool_decide_eq_true_2.
Qed.

(** The end of the search at the [K]th index of the sequence. *)
Definition search_ends (t : list htab_entry) (s : list Z) (K : nat) (r : search_end) : Prop :=
  let i := nth_probe (hv s) K in
  (forall j, (j < K)%nat -> taken t (nth_probe (hv s) j) /\ ~ matches t s (nth_probe (hv s) j)) /\
  (Z.of_nat K < p /\ matches t s i /\ r = Found i \/ Z.of_nat K < p /\ ~ taken t i /\ r = NewAt i \/
   Z.of_nat K = p /\ r = NewAt i).

Lemma not_taken t i e : t !! Z.to_nat i = Some e -> ~ taken t i -> used e = 0.
Proof. intros He Hn. destruct (decide (used e = 0)); [done|]. exfalso. apply Hn. by exists e. Qed.

Lemma matches_dec t s i e : t !! Z.to_nat i = Some e ->
  andb (bool_decide (used e = hv s)) (same_str s e) = bool_decide (used e = hv s /\ same_str s e = true) /\
  (matches t s i <-> used e = hv s /\ same_str s e = true).
Proof.
  intros He. split.
  - destruct (same_str s e); repeat case_bool_decide; tauto.
  - split; [|by exists e]. intros (e' & He' & H). rewrite He in He'. by injection He' as <-.
Qed.

Lemma probe_loop_spec h t s K r : size h = p -> table_ok t -> search_ends t s K r ->
  forall fuel k, (k < K)%nat -> (K - k <= fuel)%nat ->
    probe_loop h t s fuel (hv s) (second_hash p (hv s)) (nth_probe (hv s) k) = Ret r.
Proof.
  intros Hsize Hok [Hbefore Hend]. pose proof (hash_value_range p Hrange s) as Hh.
  induction fuel as [|fuel IH]; intros k Hk Hf; [lia|]. cbn [probe_loop]. rewrite Hsize, probe_nth by done.
  assert (HKp : Z.of_nat K <= p) by lia.
  destruct (decide (S k = K)) as [<-|Hne].
  - destruct Hend as [(Hlt & Hm & ->)|[(Hlt & Hfree & ->)|(HK & ->)]].
    3: { replace (S k) with (Z.to_nat p) by lia. rewrite nth_probe_end by done. by rewrite bool_decide_true. }
    all: rewrite bool_decide_false by
      (apply nth_probe_not_back; first [done|lia]).
    all: destruct (entry_in t (nth_probe (hv s) (S k)) Hok (nth_probe_range p Hrange _ _)) as (e & -> & He);
      cbn [mbind checked_bind]; destruct (matches_dec t s _ e He) as [-> Hiff].
    + by rewrite bool_decide_true by (by apply Hiff).
    + rewrite (not_taken _ _ _ He Hfree) in *. rewrite bool_decide_false by lia. by rewrite bool_decide_true.
  - destruct (Hbefore (S k) ltac:(lia)) as [(e' & He' & Hu) Hnm].
    rewrite bool_decide_false by
      (apply nth_probe_not_back; first [done|lia]).
    unfold entry_at. rewrite He'. cbn [access mbind checked_bind].
    destruct (matches_dec t s _ e' He') as [-> Hiff]. rewrite bool_decide_false by (by rewrite <- Hiff).
    rewrite bool_decide_false by done. apply IH; lia.
Qed.

Lemma htab_search_spec h t s K r : size h = p -> table_ok t -> search_ends t s K r -> htab_search h t s = Ret r.
Proof.
  intros Hsize Hok Hend. pose proof (hash_value_range p Hrange s) as Hh. unfold htab_search. rewrite Hsize.
  destruct (entry_in t (hv s) Hok ltac:(lia)) as (e & -> & He). cbn [mbind checked_bind].
  destruct (matches_dec t s _ e He) as [-> Hiff]. pose proof Hend as [Hbefore Hlast]. destruct K as [|K].
  - rewrite nth_probe_0 in Hlast by done.
    destruct Hlast as [(_ & Hm & ->)|[(_ & Hfree & ->)|(Hbad & _)]]; [| |lia].
    + apply Hiff in Hm. rewrite (bool_decide_false (used e = 0)) by lia. by rewrite bool_decide_true.
    + by rewrite (bool_decide_true (used e = 0)) by (by eapply not_taken).
  - destruct (Hbefore 0%nat ltac:(lia)) as [(e' & He' & Hu) Hnm]. rewrite nth_probe_0 in He', Hnm by done.
    rewrite He in He'. injection He' as <-. rewrite (bool_decide_false (used e = 0)) by done.
    rewrite bool_decide_false by (by rewrite <- Hiff). rewrite <- (nth_probe_0 p (hv s)) at 3 by done.
    eapply probe_loop_spec; [done|done|exact Hend|lia|lia].
Qed.

(** ** The cases of the search *)

#[local] Instance taken_dec t i : Decision (taken t i).
Proof.
  destruct (t !! Z.to_nat i) as [e|] eqn:He; [|right; intros (e & He' & _); congruence].
  destruct (decide (used e = 0)) as [Hu|Hu]; [right|left; by exists e].
  intros (e' & He' & Hu'). rewrite He in He'. by injection He' as <-.
Defined.

Lemma stored_range t s i : table_ok t -> 0 <= i -> stored t s i -> 1 <= i <= p.
Proof.
  intros Hok Hi (e & He & Hn & _). destruct (ok_entry t Hok i e Hi He Hn) as (s' & k & _ & _ & _ & -> & _).
  by apply nth_probe_range.
Qed.

Lemma not_matches t s i : table_ok t -> 0 <= i -> (forall j, 0 <= j -> stored t s j -> j = i -> False) -> ~ matches t s i.
Proof. intros Hok Hi Hno Hm. apply (matches_stored t s i Hok Hi) in Hm. by apply (Hno i). Qed.

(** A string that is there is found. *)
Lemma search_found t s i : table_ok t -> 0 <= i -> stored t s i -> exists K, search_ends t s K (Found i).
Proof.
  intros Hok Hi Hs. pose proof Hs as (e & He & Hn & Hstr).
  destruct (ok_entry t Hok i e Hi He Hn) as (s' & K & Hs' & _ & HK & Hnth & Hbefore).
  rewrite Hstr in Hs'. injection Hs' as <-. exists K. subst i. split.
  - intros j Hj. split; [by apply Hbefore|].
    pose proof (nth_probe_range p Hrange (hv s) j). apply not_matches; [done|lia|].
    intros i Hi' Hsi ->. pose proof (ok_once t Hok s _ _ Hi Hi' Hs Hsi) as Heq.
    apply nth_probe_inj in Heq; [lia|done|done|by apply hash_value_range|lia|lia].
  - left. split_and!; [done|by apply stored_matches|done].
Qed.

(** A string that is not there gets the first free index of its sequence. *)
Lemma search_new t s i : table_ok t -> (forall j, 0 <= j -> ~ stored t s j) -> 1 <= i <= p -> ~ taken t i ->
  exists K, Z.of_nat K < p /\ ~ taken t (nth_probe (hv s) K) /\ search_ends t s K (NewAt (nth_probe (hv s) K)).
Proof.
  intros Hok Hnot Hi Hfree. pose proof (hash_value_range p Hrange s) as Hh.
  destruct (nth_probe_surj p Hp Hrange (hv s) i Hh Hi) as (k & Hk & Hki).
  destruct (Wf_nat.dec_inh_nat_subset_has_unique_least_element (fun k => ~ taken t (nth_probe (hv s) k)))
    as (K & [HKfree HKmin] & _).
  { intros n. destruct (decide (taken t (nth_probe (hv s) n))); tauto. }
  { exists k. by rewrite Hki. }
  assert (HKk : (K <= k)%nat) by (apply HKmin; by rewrite Hki).
  exists K. split_and!; [lia|done|]. split.
  - intros j Hj. pose proof (nth_probe_range p Hrange (hv s) j). split.
    + destruct (decide (taken t (nth_probe (hv s) j))) as [|Hn]; [done|]. apply HKmin in Hn. lia.
    + apply not_matches; [done|lia|]. intros i' Hi' Hs _. by apply (Hnot i').
  - right; left. split_and!; [lia|done|done].
Qed.

(** When every index is used the search comes back to the first. *)
Lemma search_full t s : table_ok t -> (forall j, 0 <= j -> ~ stored t s j) -> (forall i, 1 <= i <= p -> taken t i) ->
  search_ends t s (Z.to_nat p) (NewAt (nth_probe (hv s) (Z.to_nat p))).
Proof.
  intros Hok Hnot Hall. split.
  - intros j Hj. pose proof (nth_probe_range p Hrange (hv s) j). split; [by apply Hall|].
    apply not_matches; [done|lia|]. intros i' Hi' Hs _. by apply (Hnot i').
  - right; right. split; [lia|done].
Qed.

(** ** Free indices *)

Lemma full_size h m t : represents h m -> table h = Some t -> (forall i, 1 <= i <= p -> taken t i) ->
  p <= filled h.
Proof.
  intros [_ -> (t' & Ht' & Hok & Hm)] Ht Hall. rewrite Ht in Ht'. injection Ht' as <-.
  set (get i := match t !! i with Some e => default [] (str e) | None => [] end).
  assert (Hget : forall i, (1 <= i <= Z.to_nat p)%nat -> stored t (get i) (Z.of_nat i)).
  { intros i Hi. destruct (Hall (Z.of_nat i) ltac:(lia)) as (e & He & Hn). rewrite Nat2Z.id in He.
    destruct (ok_entry t Hok (Z.of_nat i) e ltac:(lia) ltac:(by rewrite Nat2Z.id) Hn) as (s & k & Hs & _).
    exists e. unfold get. rewrite Nat2Z.id, He, Hs. split_and!; done. }
  set (ks := get <$> seq 1 (Z.to_nat p)).
  assert (Hnd : NoDup ks).
  { apply NoDup_fmap_2_strong; [|apply NoDup_seq]. intros i j [Hi1 Hi2]%elem_of_seq [Hj1 Hj2]%elem_of_seq Heq.
    pose proof (Hget i ltac:(lia)) as Hsi. pose proof (Hget j ltac:(lia)) as Hsj. rewrite <- Heq in Hsj.
    pose proof (ok_once t Hok _ (Z.of_nat i) (Z.of_nat j) ltac:(lia) ltac:(lia) Hsi Hsj). lia. }
  assert (Hsub : (list_to_set ks : gset (list Z)) ⊆ dom m).
  { intros s Hs%elem_of_list_to_set. apply list_elem_of_fmap in Hs as (i & -> & [Hi1 Hi2]%elem_of_seq).
    apply elem_of_dom. exists (Z.of_nat i). apply Hm. split; [lia|]. apply Hget. lia. }
  apply subseteq_size in Hsub. rewrite size_list_to_set, size_dom in Hsub by done.
  unfold ks in Hsub. rewrite length_fmap, length_seq in Hsub. lia.
Qed.

Lemma some_free h m t : represents h m -> table h = Some t -> filled h < p -> exists i, 1 <= i <= p /\ ~ taken t i.
Proof.
  intros Hrep Ht Hlt.
  destruct (decide (Forall (fun i => taken t (Z.of_nat i)) (seq 1 (Z.to_nat p)))) as [Hall|Hnot].
  - exfalso. rewrite Forall_forall in Hall. enough (p <= filled h) by lia. eapply full_size; [done|done|].
    intros i Hi. specialize (Hall (Z.to_nat i) ltac:(apply elem_of_seq; lia)). by rewrite Z2Nat.id in Hall by lia.
  - apply not_Forall_Exists in Hnot; [|apply _]. apply Exists_exists in Hnot as (i & [Hi1 Hi2]%elem_of_seq & Hfree).
    exists (Z.of_nat i). split; [lia|done].
Qed.

(** With a free index there are fewer strings than indices. *)
Lemma free_size h m t i : represents h m -> table h = Some t -> 1 <= i <= p -> ~ taken t i -> filled h < p.
Proof.
  intros [_ -> (t' & Ht' & Hok & Hm)] Ht Hi Hfree. rewrite Ht in Ht'. injection Ht' as <-.
  set (vs := (map_to_list m).*2).
  assert (Hnd : NoDup vs).
  { apply NoDup_fmap_2_strong; [|apply NoDup_map_to_list].
    intros [s1 j1] [s2 j2] H1%elem_of_map_to_list H2%elem_of_map_to_list Heq. cbn [snd] in Heq. subst j2.
    apply Hm in H1 as (_ & e1 & He1 & _ & Hs1), H2 as (_ & e2 & He2 & _ & Hs2). congruence. }
  assert (Hin : forall j, j ∈ i :: vs -> j ∈ seqZ 1 p).
  { intros j Hj. apply elem_of_seqZ. apply elem_of_cons in Hj as [->|Hj]; [lia|].
    apply list_elem_of_fmap in Hj as ([s j'] & -> & Hs%elem_of_map_to_list). apply Hm in Hs as [Hj Hs].
    pose proof (stored_range t s j' Hok Hj Hs). cbn [snd]. lia. }
  assert (Hnd' : NoDup (i :: vs)).
  { constructor; [|done]. intros Hj. apply list_elem_of_fmap in Hj as ([s j'] & -> & Hs%elem_of_map_to_list).
    apply Hm in Hs as [_ (e & He & Hu & _)]. apply Hfree. by exists e. }
  pose proof (submseteq_length _ _ (NoDup_submseteq _ _ Hnd' Hin)) as Hlen.
  unfold vs in Hlen. cbn [length] in Hlen. rewrite length_fmap, length_map_to_list, length_seqZ in Hlen. lia.
Qed.

(** ** A new element *)

Section insert.
Context (t : list htab_entry) (s : list Z) (K : nat) (d : option Z).
Context (Hok : table_ok t) (HK : Z.of_nat K < p) (Hfree : ~ taken t (nth_probe (hv s) K)).
Context (Hbefore : forall j, (j < K)%nat -> taken t (nth_probe (hv s) j)).
Context (Hnot : forall j, 0 <= j -> ~ stored t s j).

Definition new_index : Z := nth_probe (hv s) K.
Definition new_table : list htab_entry := <[Z.to_nat new_index := mkHtabEntry (hv s) (Some s) d]> t.

Lemma new_index_range : 1 <= new_index <= p.
Proof. by apply nth_probe_range. Qed.

Lemma lookup_new i : 0 <= i ->
  new_table !! Z.to_nat i = if bool_decide (i = new_index) then Some (mkHtabEntry (hv s) (Some s) d) else t !! Z.to_nat i.
Proof.
  intros Hi. pose proof new_index_range. pose proof (ok_length t Hok). unfold new_table. case_bool_decide as Heq.
  - subst i. apply list_lookup_insert_eq. lia.
  - apply list_lookup_insert_ne. lia.
Qed.

Lemma taken_new i : 0 <= i -> taken new_table i <-> i = new_index \/ taken t i.
Proof.
  intros Hi. unfold taken. rewrite lookup_new by done. pose proof (hash_value_range p Hrange s). case_bool_decide as Heq.
  - split; [by left|]. intros _. eexists. split; [done|]. cbn [used]. lia.
  - split; [by right|]. intros [|]; [done|done].
Qed.

Lemma stored_new s' i : 0 <= i -> stored new_table s' i <-> i = new_index /\ s' = s \/ i <> new_index /\ stored t s' i.
Proof.
  intros Hi. unfold stored. rewrite lookup_new by done. pose proof (hash_value_range p Hrange s). case_bool_decide as Heq.
  - split.
    + intros (e & [= <-] & _ & [= <-]). by left.
    + intros [[_ ->]|[? _]]; [|done]. eexists. split_and!; [done|cbn [used]; lia|done].
  - split; [by right|]. intros [[? _]|[_ H']]; done.
Qed.

Lemma table_ok_new : table_ok new_table.
Proof.
  split.
  - unfold new_table. rewrite length_insert. by apply ok_length.
  - intros i e Hi He Hn. rewrite lookup_new in He by done. case_bool_decide as Heq.
    + injection He as <-. exists s, K. cbn [str used] in *. split_and!; [done..|].
      intros j Hj. apply taken_new; [pose proof (nth_probe_range p Hrange (hv s) j); lia|]. right. by apply Hbefore.
    + destruct (ok_entry t Hok i e Hi He Hn) as (s' & k & Hs & Hu & Hk & Hik & Hpre). exists s', k. split_and!; [done..|].
      intros j Hj. apply taken_new; [pose proof (nth_probe_range p Hrange (hv s') j); lia|]. right. by apply Hpre.
  - intros s' i j Hi Hj Hsi Hsj. apply stored_new in Hsi, Hsj; [|done..].
    destruct Hsi as [[-> ->]|[Hi' Hsi]], Hsj as [[-> Hs]|[Hj' Hsj]]; [done| | |by eapply ok_once].
    + by destruct (Hnot j Hj).
    + subst s'. by destruct (Hnot i Hi).
Qed.
End insert.

Lemma NewAt_table t s K : table_ok t -> Z.of_nat K < p ->
  exists e, entry_at t (nth_probe (hv s) K) = Ret e.
Proof. intros Hok HK. destruct (entry_in t (nth_probe (hv s) K) Hok (nth_probe_range p Hrange _ _)) as (e & He & _). by exists e. Qed.

Lemma htab_hash_spec h m s : represents h m ->
  match m !! s with
  | Some i => htab_hash true s h = Ret (i, h)
  | None =>
      if bool_decide (filled h < p) then
        exists i h', htab_hash true s h = Ret (i, h') /\ 1 <= i <= p /\ represents h' (<[s := i]> m) /\
          forall s' j, m !! s' = Some j -> j <> i
      else htab_hash true s h = Fault AssertFailed
  end.
Proof.
  intros Hrep. pose proof Hrep as [Hsize Hfilled (t & Ht & Hok & Hm)]. unfold htab_hash. rewrite Ht, Hsize.
  destruct (m !! s) as [i|] eqn:Hs.
  { apply Hm in Hs as [Hi Hs]. destruct (search_found t s i Hok Hi Hs) as (K & Hend).
    by rewrite (htab_search_spec h t s K _ Hsize Hok Hend). }
  assert (Hnot : forall j, 0 <= j -> ~ stored t s j).
  { intros j Hj Hsj. assert (m !! s = Some j) by (apply Hm; done). congruence. }
  case_bool_decide as Hlt.
  - destruct (some_free h m t Hrep Ht Hlt) as (i & Hi & Hfree).
    destruct (search_new t s i Hok Hnot Hi Hfree) as (K & HK & HKfree & Hend).
    rewrite (htab_search_spec h t s K _ Hsize Hok Hend). cbn [mbind checked_bind assert_that].
    destruct (NewAt_table t s K Hok HK) as (e & ->). cbn [mbind checked_bind].
    exists (nth_probe (hv s) K). eexists. split; [done|]. pose proof (nth_probe_range p Hrange (hv s) K).
    split_and!; [lia|lia| |].
    + split; [done| |].
      * cbn [filled]. rewrite map_size_insert_None by done. rewrite uwrap_small by lia. lia.
      * eexists. split; [done|]. split; [apply table_ok_new; [done..|by apply Hend|done]|].
        intros s' j. change (<[Z.to_nat (nth_probe (hv s) K) := _]> t) with (new_table t s K (data e)).
        destruct (decide (0 <= j)) as [Hj|Hj].
        2: { split; [|lia]. intros Hl. destruct (decide (s' = s)) as [->|Hne].
             - rewrite lookup_insert_eq in Hl. injection Hl as <-. lia.
             - rewrite lookup_insert_ne in Hl by done. apply Hm in Hl. lia. }
        rewrite stored_new by done. unfold new_index. destruct (decide (s' = s)) as [->|Hne].
        -- rewrite lookup_insert_eq. split; [intros [= <-]; split; [done|by left]|].
           intros (_ & [[-> _]|[_ Hsj]]); [done|]. by destruct (Hnot j Hj).
        -- rewrite lookup_insert_ne by done. rewrite Hm. split; [|intros (_ & [[_ ?]|[_ ?]]); done].
           intros [_ Hsj]. split; [done|]. right. split; [|done]. intros ->. apply HKfree.
           destruct Hsj as (e' & He' & Hu & _). by exists e'.
    + intros s' j Hsj ->. apply Hm in Hsj as [_ (e' & He' & Hu & _)]. apply HKfree. by exists e'.
  - assert (Hall : forall i, 1 <= i <= p -> taken t i).
    { intros i Hi. destruct (decide (taken t i)) as [|Hfree]; [done|]. exfalso.
      apply Hlt. by eapply free_size. }
    rewrite (htab_search_spec h t s _ _ Hsize Hok (search_full t s Hok Hnot Hall)). done.
Qed.
End table.

(** ** A table from its creation on *)

Lemma next_prime_spec fuel n q : Z.odd n = true -> next_prime fuel n = Ret q -> Z.odd q = true /\ isprime q = Ret true.
Proof.
  revert n. induction fuel as [|fuel IH]; intros n Hodd Hq; [done|]. cbn [next_prime] in Hq.
  apply bind_inv in Hq as (b & Hb & Hq). destruct b; [by injection Hq as <-|]. apply (IH (u32 (n + 2))); [|done].
  unfold uwrap. rewrite Z.mod_eq by lia. rewrite Z.odd_sub, Z.odd_mul, Z.odd_add, Hodd. done.
Qed.

Lemma created_table fuel nel h : htab_create fuel true nel HTAB_EMPTY = Ret (true, h) -> 5 <= size h < 2 ^ 31 ->
  prime (size h) /\ represents (size h) h ∅.
Proof.
  intros Hc Hsize. unfold htab_create in Hc. cbn [table HTAB_EMPTY] in Hc. apply bind_inv in Hc as (q & Hq & Hc).
  injection Hc as <-. cbn [size] in *. apply next_prime_spec in Hq as [Hodd Hprime].
  2: { rewrite <- Z.bit0_odd, Z.lor_spec. apply orb_true_r. }
  split.
  - destruct (isprime_correct q Hodd ltac:(lia)) as (b & Hb & Hiff). rewrite Hprime in Hb. injection Hb as <-. by apply Hiff.
  - assert (Hfree : forall i e, replicate (Z.to_nat (q + 1)) free_entry !! i = Some e -> used e = 0)
      by (intros i e [-> _]%lookup_replicate; done).
    split; [done|done|]. eexists. split; [done|]. split.
    + split.
      * rewrite length_replicate. lia.
      * intros i e _ He Hn. by apply Hfree in He.
      * intros s i j _ _ (e & He & Hn & _). by apply Hfree in He.
    + intros s i. rewrite lookup_empty. split; [done|]. intros (_ & e & He & Hn & _). by apply Hfree in He.
Qed.

(** The indices of strings, hashed in turn. *)
Fixpoint hash_all (ss : list (list Z)) (h : htab_table) : checked (list Z * htab_table) :=
  match ss with
  | [] => Ret ([], h)
  | s :: ss =>
      '(i, h) ← htab_hash true s h;
      '(ids, h) ← hash_all ss h;
      Ret (i :: ids, h)
  end.

Lemma hash_all_spec p ss : prime p -> 5 <= p < 2 ^ 31 -> forall h (m : gmap (list Z) Z), represents p h m ->
  Z.of_nat (base.size (dom m ∪ list_to_set ss : gset (list Z))) <= p ->
  exists ids h' m', hash_all ss h = Ret (ids, h') /\ represents p h' m' /\ m ⊆ m' /\
    Forall2 (fun s i => m' !! s = Some i) ss ids.
Proof.
  intros Hp Hr. induction ss as [|s ss IH]; intros h m Hrep Hroom; [by exists [], h, m|].
  cbn [hash_all]. pose proof (htab_hash_spec p Hp Hr h m s Hrep) as Hs. destruct (m !! s) as [i|] eqn:Hms.
  - rewrite Hs. cbn [mbind checked_bind].
    destruct (IH h m Hrep) as (ids & h' & m' & -> & Hrep' & Hsub & Hall).
    { etransitivity; [|exact Hroom]. apply Nat2Z.inj_le, subseteq_size. rewrite list_to_set_cons. set_solver. }
    exists (i :: ids), h', m'. split_and!; [done..|]. constructor; [|done]. by eapply lookup_weaken.
  - assert (Hlt : filled h < p).
    { destruct Hrep as [_ -> _]. rewrite list_to_set_cons in Hroom.
      assert (Hd : s ∉ dom m) by (by apply not_elem_of_dom).
      assert (Hsub : {[s]} ∪ dom m ⊆ dom m ∪ ({[s]} ∪ list_to_set ss)) by set_solver.
      apply subseteq_size in Hsub. rewrite size_union, size_singleton, size_dom in Hsub by set_solver. lia. }
    rewrite bool_decide_true in Hs by done. destruct Hs as (i & h1 & -> & Hi & Hrep1 & _). cbn [mbind checked_bind].
    destruct (IH h1 (<[s := i]> m) Hrep1) as (ids & h' & m' & -> & Hrep' & Hsub & Hall).
    { etransitivity; [|exact Hroom]. apply Nat2Z.inj_le, subseteq_size. rewrite list_to_set_cons, dom_insert. set_solver. }
    exists (i :: ids), h', m'. split_and!; [done|done| |].
    + etransitivity; [by apply insert_subseteq|done].
    + constructor; [|done]. eapply lookup_weaken; [apply lookup_insert_eq|done].
Qed.

(** C34: The hash table. From its creation on, for any strings of which at most [size] are
    different, htab_hash returns indices between 1 and [size], the same index for the same
    string and different indices for different strings, however they collide; the stepping
    through the indices, which relies on the size being a prime, always ends. *)
Theorem htab_indices_identify fuel nel h ss :
  htab_create fuel true nel HTAB_EMPTY = Ret (true, h) -> 5 <= size h < 2 ^ 31 ->
  Z.of_nat (length (remove_dups ss)) <= size h ->
  exists ids h', hash_all ss h = Ret (ids, h') /\ length ids = length ss /\ Forall (fun i => 1 <= i <= size h) ids /\
    forall a b s s' i j, ss !! a = Some s -> ss !! b = Some s' -> ids !! a = Some i -> ids !! b = Some j ->
      (i = j <-> s = s').
Proof.
  intros Hc Hsize Hroom. destruct (created_table fuel nel h Hc Hsize) as [Hp Hrep].
  destruct (hash_all_spec (size h) ss Hp Hsize h ∅ Hrep) as (ids & h' & m' & Hall & [_ _ (t & Ht & Hok & Hm)] & _ & Hids).
  { rewrite dom_empty_L, (left_id_L ∅ (∪)).
    replace (list_to_set ss : gset (list Z)) with (list_to_set (remove_dups ss) : gset (list Z)).
    - by rewrite size_list_to_set by apply NoDup_remove_dups.
    - apply set_eq. intros s. by rewrite !elem_of_list_to_set, elem_of_remove_dups. }
  exists ids, h'. split_and!; [done|by rewrite (Forall2_length _ _ _ Hids)| |].
  - eapply Forall2_Forall_r; [exact Hids|]. apply Forall_forall. intros s _ i Hi. apply Hm in Hi as [Hi Hs].
    by eapply stored_range.
  - intros a b s s' i j Ha Hb Hi Hj.
    pose proof (Forall2_lookup_lr _ _ _ _ _ _ Hids Ha Hi) as Hsi.
    pose proof (Forall2_lookup_lr _ _ _ _ _ _ Hids Hb Hj) as Hsj. cbn beta in Hsi, Hsj. split; [|congruence].
    intros ->. apply Hm in Hsi as (_ & e1 & He1 & _ & Hs1), Hsj as (_ & e2 & He2 & _ & Hs2). congruence.
Qed.

(** A table for the dialogs of the localization, and three strings of which two are the same. *)
Theorem htab_indices_identify_witness :
  exists h ids h', htab_create 1 true 1031 HTAB_EMPTY = Ret (true, h) /\ hash_all [[65]; [66]; [65]] h = Ret (ids, h') /\
    length ids = 3%nat.
Proof.
  eexists. destruct (htab_indices_identify 1 1031 (mkHtab (Some (replicate 1032 free_entry)) 1031 0) [[65]; [66]; [65]])
    as (ids & h' & Hall & Hlen & _).
  - vm_compute. reflexivity.
  - cbn [size]. lia.
  - vm_compute. discriminate.
  - exists ids, h'. split_and!; [vm_compute; reflexivity|exact Hall|exact Hlen].
Defined.
