(* ===== verification/StrArray.v ===== *)
(** StrArray: the string arrays of src/src/stdfn.c, and the list of strings that they stand for. *)

From S2P Require Import Prelude Faults.

(** [String] is the block of [Max] pointers: [None] is NULL, for the block and for an element. *)
Record StrArray := mkStrArray { String : option (list (option (list Z))); Index : Z; Max : Z }.

Definition STRARRAY_EMPTY : StrArray := mkStrArray None 0 0.

(** [alloc] is whether the allocator finds the memory. *)
Definition StrArrayCreate (alloc : bool) (initial_size : Z) : StrArray :=
  mkStrArray (if alloc then Some (replicate (Z.to_nat initial_size) None) else None) 0 initial_size.

(** The array that is full is doubled; [realloc] of no bytes frees the block, which is freed again. *)
Definition StrArrayGrow (alloc : bool) (arr : StrArray) (cells : list (option (list Z))) : checked StrArray :=
  let max := u32 (Max arr * 2) in
  if bool_decide (max = 0) then Fault OutOfBlock
  else Ret (mkStrArray (if alloc then Some (take (Z.to_nat max) (cells ++ replicate (Z.to_nat max - length cells) None)) else None)
              (Index arr) max).

(** The string is stored at [Index]; [strdup_ok] is whether it could be copied. *)
Definition StrArrayStore (strdup_ok : bool) (arr : StrArray) (s : list Z) (duplicate : bool) : checked (Z * StrArray) :=
  match String arr with
  | None => Ret (-1, arr)
  | Some cells =>
      let stored := if negb duplicate || strdup_ok then Some s else None in
      if bool_decide (Index arr < Z.of_nat (length cells)) then
        let cells := <[Z.to_nat (Index arr) := stored]> cells in
        Ret match stored with
            | None => (-1, mkStrArray (Some cells) (Index arr) (Max arr))
            | Some _ => (s32 (Index arr), mkStrArray (Some cells) (u32 (Index arr + 1)) (Max arr))
            end
      else Fault OutOfBlock
  end.

(** The result and the array. [realloc_ok] is whether the memory is found. *)
Definition StrArrayAdd (realloc_ok strdup_ok : bool) (arr : StrArray) (s : option (list Z)) (duplicate : bool)
    : checked (Z * StrArray) :=
  match String arr, s with
  | Some cells, Some s =>
      arr ← (if bool_decide (Index arr = Max arr) then StrArrayGrow realloc_ok arr cells else Ret arr);
      StrArrayStore strdup_ok arr s duplicate
  | _, _ => Ret (-1, arr)
  end.

(** The loop of [StrArrayFind], with [n] elements left. *)
Fixpoint str_find_loop (cells : list (option (list Z))) (n i : nat) (s : list Z) : checked Z :=
  match n with
  | O => Ret (-1)
  | S n =>
      e ← access (cells !! i);
      e ← access e;
      if bool_decide (e = s) then Ret (s32 (Z.of_nat i)) else str_find_loop cells n (S i) s
  end.

Definition StrArrayFind (arr : StrArray) (s : option (list Z)) : checked Z :=
  match String arr, s with
  | Some cells, Some s => str_find_loop cells (Z.to_nat (Index arr)) 0 s
  | _, _ => Ret (-1)
  end.

Definition StrArrayAddUnique (realloc_ok strdup_ok : bool) (arr : StrArray) (s : option (list Z)) (duplicate : bool)
    : checked (Z * StrArray) :=
  i ← StrArrayFind arr s;
  if bool_decide (i < 0) then StrArrayAdd realloc_ok strdup_ok arr s duplicate else Ret (i, arr).

Definition StrArrayClear (arr : StrArray) : StrArray :=
  match String arr with
  | None => arr
  | Some cells =>
      mkStrArray (Some (replicate (Z.to_nat (Index arr)) None ++ drop (Z.to_nat (Index arr)) cells)) 0 (Max arr)
  end.

Definition StrArrayDestroy (arr : StrArray) : StrArray :=
  let arr := StrArrayClear arr in mkStrArray None (Index arr) (Max arr).

(** ** The list of strings *)

(** The array of [Max] cells holds the strings [l], and is not too large to be doubled. *)
Record holds (arr : StrArray) (l : list (list Z)) : Prop := {
  holds_cells : exists rest, String arr = Some ((Some <$> l) ++ rest) /\ Z.of_nat (length l + length rest) = Max arr;
  holds_index : Index arr = Z.of_nat (length l);
  holds_max : 0 < Max arr < 2 ^ 30;
}.

Lemma holds_created n : 0 < n < 2 ^ 30 -> holds (StrArrayCreate true n) [].
Proof.
  intros Hn. split; [|done|done]. exists (replicate (Z.to_nat n) None). split; [done|].
  rewrite length_replicate. cbn. lia.
Qed.

(** The place of the first string that is [s]. *)
Definition index_of (l : list (list Z)) (s : list Z) : Z :=
  match list_find (fun x => x = s) l with Some (i, _) => Z.of_nat i | None => -1 end.

Lemma str_find_loop_spec done l rest s : Z.of_nat (length done + length l) < 2 ^ 31 ->
  str_find_loop ((Some <$> done ++ l) ++ rest) (length l) (length done) s =
    Ret (match list_find (fun x => x = s) l with Some (i, _) => Z.of_nat (length done + i) | None => -1 end).
Proof.
  revert done. induction l as [|x l IH]; intros done Hlen; [reflexivity|]. cbn [length str_find_loop].
  assert (Hx : ((Some <$> done ++ x :: l) ++ rest) !! length done = Some (Some x)).
  { rewrite lookup_app_l by (rewrite length_fmap, length_app; cbn; lia).
    rewrite list_lookup_fmap, list_lookup_middle by reflexivity. reflexivity. }
  rewrite Hx. cbn [access mbind checked_bind list_find]. cbn [length] in Hlen. case_bool_decide as Hs.
  - rewrite decide_True by assumption. unfold swrap. rewrite Z.mod_small by lia. do 2 f_equal. lia.
  - rewrite decide_False by assumption. replace (done ++ x :: l) with ((done ++ [x]) ++ l) by (by rewrite <- app_assoc).
    replace (S (length done)) with (length (done ++ [x])) by (rewrite length_app; cbn; lia).
    rewrite IH by (rewrite length_app; cbn; lia). destruct (list_find _ l) as [[i y]|]; [|reflexivity].
    cbn. rewrite length_app. cbn [length]. do 2 f_equal. lia.
Qed.

Lemma StrArrayFind_spec arr l s : holds arr l -> StrArrayFind arr (Some s) = Ret (index_of l s).
Proof.
  intros [(rest & Hcells & Hlen) Hindex Hmax]. unfold StrArrayFind. rewrite Hcells, Hindex, Nat2Z.id.
  exact (str_find_loop_spec [] l rest s ltac:(cbn; lia)).
Qed.

Lemma insert_next (l : list (list Z)) x (rest : list (option (list Z))) y :
  <[length l := x]> ((Some <$> l) ++ y :: rest) = (Some <$> l) ++ x :: rest.
Proof. induction l as [|z l IH]; [reflexivity|]. cbn. f_equal. exact IH. Qed.

(** Storing a string in an array with a free cell. *)
Lemma StrArrayStore_spec cells max l s duplicate y more : cells = (Some <$> l) ++ y :: more ->
  Z.of_nat (S (length l + length more)) = max -> 0 < max < 2 ^ 30 ->
  exists arr', StrArrayStore true (mkStrArray (Some cells) (Z.of_nat (length l)) max) s duplicate =
      Ret (Z.of_nat (length l), arr') /\ holds arr' (l ++ [s]) /\ Max arr' = max.
Proof.
  intros -> Hm Hr. unfold StrArrayStore. cbn [String Index Max]. rewrite orb_true_r, Nat2Z.id.
  rewrite bool_decide_true by (rewrite length_app, length_fmap; cbn [length]; lia).
  rewrite insert_next, (uwrap_small 32) by lia.
  replace (s32 (Z.of_nat (length l))) with (Z.of_nat (length l)) by (unfold swrap; rewrite Z.mod_small; lia).
  eexists. split; [reflexivity|]. split; [|reflexivity]. split; cbn [String Index Max]; [|rewrite length_app; cbn; lia|exact Hr].
  exists more. split; [by rewrite fmap_app, <- app_assoc|]. rewrite length_app. cbn [length]. lia.
Qed.

(** Adding a string: it is the next of the list, and the array is doubled when it is full. *)
Lemma StrArrayAdd_spec arr l s duplicate : holds arr l -> Max arr < 2 ^ 29 ->
  exists arr', StrArrayAdd true true arr (Some s) duplicate = Ret (Z.of_nat (length l), arr') /\ holds arr' (l ++ [s]) /\
    Max arr' <= 2 * Max arr.
Proof.
  destruct arr as [str idx mx]. intros [(rest & Hcells & Hlen) Hindex Hmax] Hsmall. cbn [String Index Max] in *. subst str idx.
  unfold StrArrayAdd. cbn [String Index Max]. destruct (decide (Z.of_nat (length l) = mx)) as [Hfull|Hfull].
  - rewrite bool_decide_true by assumption. unfold StrArrayGrow. cbn [Index Max]. rewrite (uwrap_small 32) by lia.
    rewrite bool_decide_false by lia. cbn [mbind checked_bind].
    assert (rest = []) as -> by (destruct rest; [reflexivity|cbn in Hlen; lia]). rewrite app_nil_r. cbn in Hlen.
    rewrite length_fmap. assert (Hn : exists n, (Z.to_nat (mx * 2) - length l = S n)%nat) by (exists (length l - 1)%nat; lia).
    destruct Hn as [n Hn]. rewrite Hn, take_ge by (rewrite length_app, length_fmap, length_replicate; lia).
    destruct (StrArrayStore_spec _ (mx * 2) l s duplicate None (replicate n None) eq_refl) as (arr' & Hst & Hh & Hm);
      [rewrite length_replicate; lia|lia|].
    exists arr'. split_and!; [exact Hst|exact Hh|lia].
  - rewrite bool_decide_false by assumption. cbn [mbind checked_bind]. destruct rest as [|y rest]; [cbn in Hlen; lia|].
    destruct (StrArrayStore_spec _ mx l s duplicate y rest eq_refl) as (arr' & Hst & Hh & Hm); [cbn [length] in Hlen; lia|lia|].
    exists arr'. split_and!; [exact Hst|exact Hh|lia].
Qed.

(** Adding a string once: the list keeps no duplicates, and the result is the place of the string. *)
Lemma StrArrayAddUnique_spec arr l s duplicate : holds arr l -> Max arr < 2 ^ 29 -> NoDup l ->
  exists i arr' l', StrArrayAddUnique true true arr (Some s) duplicate = Ret (i, arr') /\ holds arr' l' /\ NoDup l' /\
    l' !! Z.to_nat i = Some s /\ l `prefix_of` l' /\ (forall x, x ∈ l' <-> x ∈ l \/ x = s).
Proof.
  intros Hh Hmax Hnd. unfold StrArrayAddUnique. rewrite (StrArrayFind_spec arr l s Hh). cbn [mbind checked_bind].
  unfold index_of. destruct (list_find (fun x => x = s) l) as [[i y]|] eqn:Hf.
  - apply list_find_Some in Hf as (Hi & -> & _). rewrite bool_decide_false by lia.
    exists (Z.of_nat i), arr, l. rewrite Nat2Z.id. split_and!; [reflexivity|assumption..|reflexivity|].
    intros x. split; [by left|]. intros [Hx| ->]; [assumption|]. by eapply list_elem_of_lookup_2.
  - apply list_find_None in Hf. rewrite bool_decide_true by lia.
    destruct (StrArrayAdd_spec arr l s duplicate Hh Hmax) as (arr' & -> & Hh' & _).
    exists (Z.of_nat (length l)), arr', (l ++ [s]). rewrite Nat2Z.id. split_and!; [reflexivity|assumption| | | |].
    + apply NoDup_app. split_and!; [assumption| |apply NoDup_singleton].
      intros x Hx ->%list_elem_of_singleton. rewrite Forall_forall in Hf. by apply (Hf s).
    + by apply list_lookup_middle.
    + by exists [s].
    + intros x. rewrite elem_of_app, list_elem_of_singleton. reflexivity.
Qed.

(** An array created with no elements cannot grow. *)
Lemma empty_array_cannot_grow s : StrArrayAdd true true (StrArrayCreate true 0) (Some s) true = Fault OutOfBlock.
Proof. reflexivity. Qed.
