(* ===== verification/Labels.v ===== *)
(** Labels: the functions of src/src/parser.c that rewrite strings ([replace_char],
    [remove_substr], [sanitize_label]) and [ToValidLabel] of src/src/format.c.

    A string is the list of its characters before the terminator. The second half of the file
    is what the functions make. *)

From Stdlib Require Import Ascii String.
From S2P Require Import Prelude Faults CText.

(** ** [replace_char] *)

(** The loop that writes into [res]. *)
Definition replace_loop (src : list Z) (c : Z) (rep : list Z) : list Z :=
  concat ((fun x => if bool_decide (x = c) then rep else [x]) <$> src).

(** Overflows of [size_t] and the failure of [malloc] are left out. *)
Definition replace_char (src : option (list Z)) (c : Z) (rep : option (list Z)) : checked (option (list Z)) :=
  match src, rep with
  | Some src, Some rep =>
      let count := length (filter (fun x => x = c) src) in
      let res := replace_loop src c rep in
      if bool_decide (length res + 1 <= length src + count * length rep + 1)%nat then Ret (Some res) else Fault OutOfBlock
  | _, _ => Ret None
  end.

(** ** [remove_substr] *)

(** The loop from a position of [src] on, with the bytes from there and the terminator; an empty
    [sub] never lets it advance. *)
Fixpoint remove_loop (fuel : nat) (src sub : list Z) : checked (list Z) :=
  match fuel with
  | O => Fault NoEnd
  | S fuel =>
      if bool_decide (take (length sub) src = sub) then remove_loop fuel (drop (length sub) src) sub
      else match src with
      | [] => Ret []
      | c :: src => rest ← remove_loop fuel src sub; Ret (c :: rest)
      end
  end.

Definition remove_substr (src sub : option (list Z)) : checked (option (list Z)) :=
  match src, sub with
  | Some src, Some sub =>
      if bool_decide (length src < length sub)%nat then Ret None
      else res ← remove_loop (S (length src)) src sub; Ret (Some res)
  | _, _ => Ret None
  end.

(** ** [sanitize_label] *)

Definition DASH : Z := 45.
Definition DOT : Z := 46.

(** Lowercase, and a dash for what is neither a letter, a digit nor a dot. *)
Definition clean_char (c : Z) : Z :=
  let c := if bool_decide (65 <= c <= 90) then c + 0x20 else c in
  if bool_decide (c < 48 /\ c <> DOT \/ 57 < c < 97 \/ 122 < c) then DASH else c.

Fixpoint leading_dashes (s : list Z) : nat :=
  match s with c :: s => if bool_decide (c = DASH) then S (leading_dashes s) else 0%nat | [] => 0%nat end.

(** [memmove(label, &label[i], len - i)]: the terminator is not moved. *)
Definition remove_leading (s : list Z) : list Z :=
  let i := leading_dashes s in
  if bool_decide (i = 0%nat) then s else drop i s ++ drop (length s - i) s.

(** The loop stops at the first character. *)
Fixpoint remove_trailing (n : nat) (s : list Z) : list Z :=
  match n with
  | O => s
  | S n' => if bool_decide (s !! n = Some DASH) then remove_trailing n' (take n s) else s
  end.

(** From index [i] on; [fuel] bounds the turns. *)
Fixpoint remove_duplicates (fuel i : nat) (s : list Z) : list Z :=
  match fuel with
  | O => s
  | S fuel =>
      if bool_decide (2 <= length s /\ i < length s - 2)%nat then
        if bool_decide (s !! i = Some DASH /\ s !! S i = Some DASH)
        then remove_duplicates fuel i (take (S i) s ++ drop (S (S i)) s)
        else remove_duplicates fuel (S i) s
      else s
  end.

(** [strstr]: where [sub] is first found. *)
Fixpoint strstr (s sub : list Z) : option nat :=
  if bool_decide (take (length sub) s = sub) then Some 0%nat
  else match s with [] => None | _ :: s => S <$> strstr s sub end.

Definition remove_first (s sub : list Z) : list Z :=
  match strstr s sub with
  | None => s
  | Some i => take i s ++ drop (i + length sub) s
  end.

Definition remove_list : list string :=
  ["-i386"; "-i686"; "-amd64"; "-x86-64"; ".x86-64"; "-x64"; "-armhf"; "-arm64"; "-aarch64"; "-32-bit";
   "-64-bit"; "-32bit"; "-64bit"; "-intel"; "-cd"; "-dvd"; "-standard"; "-live"; "-install"; "-server"; "-net";
   "-desktop"; "-lts"; "-studio"; "-baseos"; "-kde"; "-xfce"; "-lxde"; "-gnome"; "-mate"; "-unstable"; "-debug";
   "-release"; "-final"; "-stream"; "-cinnamon"; "-cinn"; "-leap"; "-tumbleweed"; "-budgie"; "-ws"; "-iot";
   "-ostree"; ".iso"]%string.

(** The result and the label as it is left. *)
Definition sanitize_label (label : list Z) : Z * list Z :=
  let label := remove_leading (clean_char <$> label) in
  if bool_decide (length label <= 1)%nat then (-1, label)
  else
    let label := remove_trailing (length label - 1) label in
    if bool_decide (length label <= 1)%nat then (-1, label)
    else
      let label := remove_duplicates (2 * length label) 0 label in
      (0, foldl (fun s sub => remove_first s (chars sub)) label remove_list).

(** ** [ToValidLabel] *)

Definition unauthorized : list Z := [42; 63; 44; 59; 58; 47; 92; 124; 43; 61; 60; 62; 91; 93; 34].
Definition to_underscore : list Z := [9; DOT].
Definition UNDERSCORE : Z := 95.
Definition toupper (c : Z) : Z := if bool_decide (97 <= c <= 122) then c - 32 else c.

(** What is written for a character. *)
Definition label_char (bFAT : bool) (c : Z) : list Z :=
  if bFAT && bool_decide (0x80 <= c) then [UNDERSCORE]
  else if bFAT && bool_decide (c ∈ unauthorized) then []
  else if bool_decide (c ∈ to_underscore) then [UNDERSCORE]
  else [if bFAT then toupper c else c].

(** [label] holds at most 15 characters; it is copied over [wLabel], a block of [room] characters. *)
Definition size_label (size_str : list Z) (room : nat) : checked (list Z) :=
  let label := take 15 size_str in
  if bool_decide (length label + 1 <= room)%nat
  then Ret ((fun c => if bool_decide (c = DOT) then UNDERSCORE else c) <$> label) else Fault OutOfBlock.

(** The label from the wide characters of the one that is asked for; [size_str] is the size of the drive. *)
Definition valid_label (bFAT : bool) (size_str wLabel : list Z) : checked (list Z) :=
  let room := S (length wLabel) in
  let wLabel := concat (label_char bFAT <$> wLabel) in
  if bFAT then
    let wLabel := take 11 wLabel in
    let underscores := length (filter (fun c => c = UNDERSCORE) wLabel) in
    if bool_decide (length wLabel < 2 * underscores)%nat then size_label size_str room else Ret wLabel
  else Ret (take 32 wLabel).

Section label.
(** The conversions of Windows: from UTF-8, and back into a block of the given size. *)
Context (utf8_to_wchar : list Z -> option (list Z)) (wchar_to_utf8 : list Z -> nat -> list Z).

(** [sizeof(img_report.usb_label)]. *)
Definition sizeof_usb_label : nat := 192.

(** The label and [img_report.usb_label]; the label is cut at its former length. *)
Definition ToValidLabel (bFAT : bool) (size_str Label : list Z) : checked (list Z * option (list Z)) :=
  match utf8_to_wchar Label with
  | None => Ret (Label, None)
  | Some wLabel =>
      w ← valid_label bFAT size_str wLabel;
      let usb_label := wchar_to_utf8 w sizeof_usb_label in
      Ret (take (length Label) usb_label, Some usb_label)
  end.
End label.

(** ** [replace_char] and [remove_substr] *)

Lemma length_replace src c rep :
  (length (replace_loop src c rep) + length (filter (fun x => x = c) src) =
   length src + length (filter (fun x => x = c) src) * length rep)%nat.
Proof.
  unfold replace_loop. induction src as [|x src IH]; [done|]. cbn [fmap list_fmap concat].
  rewrite length_app, filter_cons. case_bool_decide as Hx.
  - rewrite decide_True by done. cbn [length] in *. lia.
  - rewrite decide_False by done. cbn [length] in *. lia.
Qed.

(** The result fits in what is allocated. *)
Lemma replace_char_total src c rep : replace_char (Some src) c (Some rep) = Ret (Some (replace_loop src c rep)).
Proof. unfold replace_char. pose proof (length_replace src c rep). by rewrite bool_decide_true by lia. Qed.

(** Without the character there is nothing to replace, and what is put in has none of it. *)
Lemma replace_char_removes src c rep : c ∉ rep -> c ∉ replace_loop src c rep.
Proof.
  intros Hrep. unfold replace_loop. induction src as [|x src IH]; [apply not_elem_of_nil|].
  cbn [fmap list_fmap concat]. rewrite elem_of_app. intros [Hx|Hx]; [|done]. case_bool_decide as Heq; [done|].
  apply list_elem_of_singleton in Hx. congruence.
Qed.

Lemma remove_loop_ends fuel src sub : sub <> [] -> (length src < fuel)%nat ->
  exists res, remove_loop fuel src sub = Ret res /\ (length res <= length src)%nat.
Proof.
  intros Hsub. revert src. induction fuel as [|fuel IH]; intros src Hf; [lia|]. cbn [remove_loop].
  assert (0 < length sub)%nat by (destruct sub; [done|cbn; lia]).
  case_bool_decide as Heq.
  - destruct src as [|c src]; [by rewrite take_nil in Heq|].
    destruct (IH (drop (length sub) (c :: src))) as (res & -> & Hle); [rewrite length_drop; cbn [length] in *; lia|].
    exists res. split; [done|]. rewrite length_drop in Hle. lia.
  - destruct src as [|c src]; [by exists []|]. cbn [length] in Hf.
    destruct (IH src ltac:(lia)) as (res & -> & Hle). exists (c :: res). split; [done|]. cbn [length]. lia.
Qed.

(** Nothing is removed from a string that does not have the substring, and an empty substring makes the loop endless. *)
Lemma remove_substr_empty fuel src : remove_loop fuel src [] = Fault NoEnd.
Proof. revert src. induction fuel as [|fuel IH]; intros src; [done|]. cbn. apply IH. Qed.

(** ** [sanitize_label] *)

Definition label_char_ok (c : Z) : Prop := 48 <= c <= 57 \/ 97 <= c <= 122 \/ c = DOT \/ c = DASH.

Lemma clean_char_ok c : 0 <= c -> label_char_ok (clean_char c).
Proof. intros Hc. unfold clean_char, label_char_ok, DOT, DASH. repeat case_bool_decide; lia. Qed.

Section subset.
Context (P : Z -> Prop).

Lemma remove_leading_subset s : Forall P s -> Forall P (remove_leading s).
Proof.
  intros H. unfold remove_leading. case_bool_decide; [done|]. apply Forall_app. split; by apply Forall_drop.
Qed.

Lemma remove_trailing_subset n s : Forall P s -> Forall P (remove_trailing n s).
Proof.
  revert s. induction n as [|n IH]; intros s H; [done|]. cbn [remove_trailing]. case_bool_decide; [|done].
  apply IH. by apply Forall_take.
Qed.

Lemma remove_duplicates_subset fuel i s : Forall P s -> Forall P (remove_duplicates fuel i s).
Proof.
  revert i s. induction fuel as [|fuel IH]; intros i s H; [done|]. cbn [remove_duplicates].
  case_bool_decide; [|done]. case_bool_decide; [|by apply IH]. apply IH, Forall_app.
  split; [by apply Forall_take|by apply Forall_drop].
Qed.

Lemma remove_first_subset s sub : Forall P s -> Forall P (remove_first s sub).
Proof.
  intros H. unfold remove_first. destruct (strstr s sub); [|done]. apply Forall_app.
  split; [by apply Forall_take|by apply Forall_drop].
Qed.
End subset.

(** The characters of a label once it has been sanitized. *)
Lemma sanitize_label_chars label : Forall (fun c => 0 <= c) label ->
  Forall label_char_ok (snd (sanitize_label label)).
Proof.
  intros H. assert (H0 : Forall label_char_ok (clean_char <$> label)).
  { apply Forall_fmap. eapply Forall_impl; [exact H|]. intros c Hc. by apply clean_char_ok. }
  unfold sanitize_label. apply remove_leading_subset in H0. revert H0. generalize (remove_leading (clean_char <$> label)).
  intros s Hs. case_bool_decide; [done|]. apply (remove_trailing_subset _ (length s - 1)) in Hs.
  revert Hs. generalize (remove_trailing (length s - 1) s). intros u Hu. case_bool_decide; [done|]. cbn [snd].
  apply (remove_duplicates_subset _ (2 * length u) 0) in Hu. revert Hu. generalize (remove_duplicates (2 * length u) 0 u).
  induction remove_list as [|sub l IH]; intros v Hv; [done|]. cbn [foldl]. by apply IH, remove_first_subset.
Qed.

(** A leading dash is not removed: the end of the label is repeated instead, because the terminator is not
    moved with the characters. *)
Lemma sanitize_leading_dash : sanitize_label (chars "-grub2") = (0, chars "grub22").
Proof. vm_compute. done. Qed.

(** ** [ToValidLabel] *)

(** The characters that a FAT label may have. *)
Definition fat_char_ok (c : Z) : Prop := c < 0x80 /\ (c ∉ unauthorized) /\ (c ∉ to_underscore).

Lemma label_char_fat c : Forall (fun x => fat_char_ok x /\ ~ 97 <= x <= 122) (label_char true c).
Proof.
  unfold label_char. cbn [andb]. assert (Hu : fat_char_ok UNDERSCORE /\ ~ 97 <= UNDERSCORE <= 122).
  { split; [|unfold UNDERSCORE; lia]. split_and!; [done|by apply (bool_decide_eq_true_1 _)..]. }
  case_bool_decide as H1; [by constructor|]. case_bool_decide as H2; [constructor|].
  case_bool_decide as H3; [by constructor|]. constructor; [|constructor]. unfold toupper. case_bool_decide as H4.
  - split; [|lia]. split; [lia|]. unfold unauthorized, to_underscore, DOT. rewrite !elem_of_cons, elem_of_nil. lia.
  - split; [|done]. split_and!; [lia|done|done].
Qed.

(** Whatever the label that is asked for, the one that is made for a FAT volume has at
    most 11 characters, none of them extended, in lower case, a dot, a tab or one that FAT does not
    authorize; if it is mostly underscores it is the size of the drive, when that fits in the
    block of the converted label. *)
Lemma fat_label_valid size_str wLabel :
  Forall (fun c => fat_char_ok c \/ c = DOT) size_str -> (length size_str <= 11)%nat ->
  match valid_label true size_str wLabel with
  | Ret w => (length w <= 11)%nat /\ Forall fat_char_ok w /\
      (Forall (fun c => ~ 97 <= c <= 122) w \/ w = ((fun c => if bool_decide (c = DOT) then UNDERSCORE else c) <$> size_str))
  | Fault e => e = OutOfBlock /\ (length wLabel < length size_str)%nat
  end.
Proof.
  intros Hsize Hlen. unfold valid_label, size_label. cbv zeta.
  assert (Hall : Forall (fun x => fat_char_ok x /\ ~ 97 <= x <= 122) (take 11 (concat (label_char true <$> wLabel)))).
  { apply Forall_take. apply Forall_concat, Forall_fmap, Forall_true. intros c. apply label_char_fat. }
  assert (Hw : (length (take 11 (concat (label_char true <$> wLabel))) <= 11)%nat) by (rewrite length_take; lia).
  revert Hall Hw. generalize (take 11 (concat (label_char true <$> wLabel))). intros w Hall Hw.
  rewrite (take_ge size_str) by lia. case_bool_decide as Hu.
  - case_bool_decide as Hroom; [|split; [done|lia]]. rewrite length_fmap. split_and!; [done| |by right].
    apply Forall_fmap. eapply Forall_impl; [exact Hsize|]. intros c Hc. cbn. case_bool_decide as Hd; [|by destruct Hc].
    split_and!; [done|by apply (bool_decide_eq_true_1 _)..].
  - split_and!; [done| |left]; (eapply Forall_impl; [exact Hall|]); by intros c [].
Qed.

(** A short label of underscores is overwritten with a longer size, past its block. *)
Lemma short_label_overflows : valid_label true (chars "7.9 GB") (chars "_") = Fault OutOfBlock.
Proof. vm_compute. done. Qed.
