(* ===== verification/ConfigText.v ===== *)
(** ConfigText: the functions of src/src/parser.c that read and rewrite the lines of
    configuration files: [get_token_data_line], [get_token_data_file_indexed],
    [set_token_data_file], [insert_section_data], [replace_in_token_data].

    Strings are lists of wide characters without their terminators. *)

From stdpp Require Import gmap.
From S2P Require Import Prelude Labels.

(** ** Characters *)

Definition LF : Z := 10.
Definition CR : Z := 13.
Definition QUOTE : Z := 34.
Definition LT : Z := 60.
Definition EQUALS : Z := 61.
Definition GT : Z := 62.

(** [wspace]: a space or a tab. *)
Definition is_blank (c : Z) : bool := bool_decide (c = 32 \/ c = 9).
Definition is_eol (c : Z) : bool := bool_decide (c = CR \/ c = LF).

(** [s += wcsspn(s, wspace)]. *)
Fixpoint skip_blanks (s : list Z) : list Z :=
  match s with c :: s' => if is_blank c then skip_blanks s' else s | [] => [] end.

(** [towlower], in the locale of a C program. *)
Definition fold_case (c : Z) : Z := if bool_decide (65 <= c <= 90) then c + 32 else c.

(** [_wcsnicmp(s, wtoken, wcslen(wtoken)) == 0]. *)
Definition has_token (wtoken s : list Z) : bool :=
  bool_decide (fold_case <$> take (length wtoken) s = fold_case <$> wtoken).

(** ** [get_token_data_line] *)

Definition skip_char (c : Z) (s : list Z) : list Z :=
  match s with c' :: s' => if bool_decide (c' = c) then s' else s | [] => [] end.

(** Whether the sign after the token is ['>'], and what comes after it. *)
Definition token_value (wtoken wline : list Z) : option (bool * list Z) :=
  let s := skip_blanks (skip_char LT (skip_blanks wline)) in
  if has_token wtoken s then
    match skip_blanks (drop (length wtoken) s) with
    | c :: s => if bool_decide (c = GT) then Some (true, s) else if bool_decide (c = EQUALS) then Some (false, s) else None
    | [] => None
    end
  else None.

(** Up to the end of the string or of the quote. *)
Fixpoint until_end (quoteth xml : bool) (s : list Z) : list Z :=
  match s with
  | [] => []
  | c :: s =>
      if bool_decide (c = QUOTE) && quoteth || bool_decide (c = LT) && xml then [] else c :: until_end quoteth xml s
  end.

Fixpoint strip_eol (s : list Z) : list Z :=
  match s with
  | [] => []
  | c :: s => match strip_eol s with [] => if is_eol c then [] else [c] | s' => c :: s' end
  end.

Definition get_token_data_line (wtoken wline : list Z) : option (list Z) :=
  '(xml, s) ← token_value wtoken wline;
  let s := skip_blanks s in
  let quoteth := bool_decide (head s = Some QUOTE) in
  let data := strip_eol (until_end quoteth xml (skip_char QUOTE s)) in
  if bool_decide (data = []) then None else Some data.

(** ** Lines *)

(** [fgetws] into a block of [n + 1] characters. *)
Fixpoint read_line (n : nat) (text : list Z) : list Z * list Z :=
  match n, text with
  | S n, c :: text =>
      if bool_decide (c = LF) then ([c], text)
      else let '(line, rest) := read_line n text in (c :: line, rest)
  | _, _ => ([], text)
  end.

(** A string ends at the first null character. *)
Fixpoint c_str (s : list Z) : list Z :=
  match s with c :: s => if bool_decide (c = 0) then [] else c :: c_str s | [] => [] end.

(** [ARRAYSIZE(buf) - 1]. *)
Definition line_room : nat := 1023.

Fixpoint read_lines (fuel : nat) (text : list Z) : list (list Z) :=
  match fuel, text with
  | S fuel, _ :: _ => let '(line, rest) := read_line line_room text in c_str line :: read_lines fuel rest
  | _, _ => []
  end.

(** Each line takes a character. *)
Definition lines_of (text : list Z) : list (list Z) := read_lines (length text) text.

(** ** The edits of a line: [None] when it is written as it is *)

(** What is left from the equal sign on, after the spaces. *)
Definition set_value (wtoken buf : list Z) : option (list Z) :=
  let s := skip_blanks buf in
  if bool_decide (head s = Some 59 \/ head s = Some 91) then None
  else if has_token wtoken s then
    match skip_blanks (drop (length wtoken) s) with
    | c :: s => if bool_decide (c = EQUALS) then Some (skip_blanks s) else None
    | [] => None
    end
  else None.

Definition set_line (wtoken wdata buf : list Z) : option (list Z) :=
  s ← set_value wtoken buf; Some (take (length buf - length s) buf ++ wdata ++ [LF]).

Definition insert_line (wsection wdata buf : list Z) : option (list Z) :=
  if has_token wsection (skip_blanks buf) then Some (buf ++ wdata ++ [LF]) else None.

Definition MAX_OCCURRENCES : nat := 4.

(** The fragments of a line: where each starts and where the string to replace is found, and
    the start of the last one. *)
Fixpoint fragments (n : nat) (wsrc buf : list Z) (p i : nat) : list (nat * nat) * nat :=
  match n with
  | O => ([], p)
  | S n =>
      match strstr (drop i buf) wsrc with
      | None => ([], p)
      | Some k =>
          let torep := (i + k)%nat in
          let i := (torep + length wsrc)%nat in
          let '(occurrences, last) := fragments n wsrc buf i i in
          ((p, torep) :: occurrences, last)
      end
  end.

(** Where the data of the token starts. *)
Definition replace_start (wtoken buf : list Z) : option nat :=
  let s := skip_blanks buf in
  if has_token wtoken s then
    let after := drop (length wtoken) s in
    let data := skip_blanks after in
    if bool_decide (length after = length data) then None else Some (length buf - length data)%nat
  else None.

Definition replace_line (wtoken wsrc wrep buf : list Z) : option (list Z) :=
  i ← replace_start wtoken buf;
  let '(occurrences, last) := fragments MAX_OCCURRENCES wsrc buf 0 i in
  match occurrences with
  | [] => None
  | _ => Some (concat ((fun pt : nat * nat => take (pt.2 - pt.1) (drop pt.1 buf) ++ wrep) <$> occurrences) ++ drop last buf)
  end.

(** The text that is written, and whether a line was changed. *)
Definition edit_lines (edit : list Z -> option (list Z)) (lines : list (list Z)) : list Z * bool :=
  (concat ((fun l => default l (edit l)) <$> lines), existsb (fun l => bool_decide (is_Some (edit l))) lines).

Definition set_text (wtoken wdata : list Z) (lines : list (list Z)) : list Z :=
  let '(text, found) := edit_lines (set_line wtoken wdata) lines in
  if found then text else text ++ wtoken ++ [32; EQUALS; 32] ++ wdata ++ [LF].

(** ** Files *)

Abbreviation files := (gmap (list Z) (list Z)).

(** The text streams of the C run-time: the characters that are read from the bytes of a file,
    the first word of the file, and the bytes of a file in one of the three modes of output. *)
Class TextStreams := {
  text_of : list Z -> list Z;
  first_word : list Z -> option Z;
  bytes_of : Z -> list Z -> list Z;
}.

Definition mode_of (bom : Z) : Z := if bool_decide (bom = 0xFEFF) then 2 else if bool_decide (bom = 0xBBEF) then 1 else 0.

(** The copy of the temporary file, one or two bytes at a time. *)
Fixpoint copy_units (two dos2unix : bool) (bs : list Z) : list Z :=
  match bs with
  | [] => []
  | a :: bs =>
      let keep := negb (dos2unix && bool_decide (a = CR)) in
      if two then
        match bs with
        | [] => []
        | b :: bs => (if keep then [a; b] else []) ++ copy_units two dos2unix bs
        end
      else (if keep then [a] else []) ++ copy_units two dos2unix bs
  end.

Section files.
Context `{TextStreams}.
(** The conversions of Windows, and the files that it lets the program open. *)
Context (utf8_to_wchar wchar_to_utf8 : list Z -> option (list Z)).
Context (readable writable : list Z -> bool).

Definition open_read (fs : files) (name : list Z) : option (list Z) := if readable name then fs !! name else None.

Definition tmp_name (wfilename : list Z) : list Z := wfilename ++ [126].

(** The end of the three functions: the temporary file is copied over the file and deleted. *)
Definition use_tmp (fs : files) (wfilename : list Z) (mode : Z) (dos2unix : bool) : files * bool :=
  let tmp := open_read fs (tmp_name wfilename) in
  let '(fs, ret) :=
    if writable wfilename then
      match tmp with
      | Some bs => (<[wfilename := copy_units (bool_decide (mode = 2)) dos2unix bs]> fs, true)
      | None => (<[wfilename := []]> fs, false)
      end
    else (fs, false) in
  (delete (tmp_name wfilename) fs, ret).

(** The text of the output is written to the temporary file, which is used when [ret]. *)
Definition write_tmp (fs : files) (wfilename : list Z) (mode : Z) (out : list Z * bool) (dos2unix : bool) : files * bool :=
  let tmp := tmp_name wfilename in
  if writable tmp then
    let fs := <[tmp := bytes_of mode out.1]> fs in
    if out.2 then use_tmp fs wfilename mode dos2unix else (delete tmp fs, false)
  else (delete tmp fs, false).

(** Whether the parameters are not empty, and their conversions. *)
Definition parameter (may_be_empty : bool) (s : list Z) : option (list Z) :=
  if negb may_be_empty && bool_decide (s = []) then None else utf8_to_wchar s.

Definition set_token_data_file (token data filename : list Z) (fs : files) : files * bool :=
  match parameter false filename, parameter false token, parameter false data with
  | Some wfilename, Some wtoken, Some wdata =>
      match open_read fs wfilename with
      | None => (fs, false)
      | Some bs =>
          write_tmp fs wfilename (mode_of (default 0 (first_word bs)))
            (set_text wtoken wdata (lines_of (text_of bs)), true) false
      end
  | _, _, _ => (fs, false)
  end.

(** The two functions that need the first word of the file, and keep the file when no line changes. *)
Definition edit_file (wfilename : list Z) (edit : list Z -> option (list Z)) (dos2unix : bool) (fs : files) : files * bool :=
  match open_read fs wfilename with
  | None => (fs, false)
  | Some bs =>
      match first_word bs with
      | None => (fs, false)
      | Some bom => write_tmp fs wfilename (mode_of bom) (edit_lines edit (lines_of (text_of bs))) dos2unix
      end
  end.

Definition insert_section_data (filename section data : list Z) (dos2unix : bool) (fs : files) : files * bool :=
  match parameter false filename, parameter false section, parameter false data with
  | Some wfilename, Some wsection, Some wdata => edit_file wfilename (insert_line wsection wdata) dos2unix fs
  | _, _, _ => (fs, false)
  end.

Definition replace_in_token_data (filename token src rep : list Z) (dos2unix : bool) (fs : files) : files * bool :=
  if bool_decide (src = rep) then (fs, false)
  else
    match parameter false filename, parameter false token, parameter false src, parameter true rep with
    | Some wfilename, Some wtoken, Some wsrc, Some wrep => edit_file wfilename (replace_line wtoken wsrc wrep) dos2unix fs
    | _, _, _, _ => (fs, false)
    end.

(** The [index]th of the lines with the token. *)
Fixpoint nth_data (wtoken : list Z) (lines : list (list Z)) (i index : Z) : option (list Z) :=
  match lines with
  | [] => None
  | l :: lines =>
      match get_token_data_line wtoken l with
      | Some wdata => if bool_decide (s32 (i + 1) = index) then Some wdata else nth_data wtoken lines (s32 (i + 1)) index
      | None => nth_data wtoken lines i index
      end
  end.

Definition get_token_data_file_indexed (token filename : list Z) (index : Z) (fs : files) : option (list Z) :=
  wfilename ← parameter false filename;
  wtoken ← parameter false token;
  bs ← open_read fs wfilename;
  wdata ← nth_data wtoken (lines_of (text_of bs)) 0 index;
  wchar_to_utf8 wdata.
End files.
