(* ===== verification/ConfigTextProps.v ===== *)
(** ConfigTextProps: a value that [set_token_data_file] stores is the one that
    [get_token_data_file_indexed] reads, and the other values stay. *)

From stdpp Require Import gmap.
From S2P Require Import Prelude Labels ConfigText.

(** ** Lines *)

(** A line without its end, which fits in the block. *)
Definition short_body (b : list Z) : Prop := (LF ∉ b) /\ (0 ∉ b) /\ (length b < line_room)%nat.

Definition text_lines (bodies : list (list Z)) : list (list Z) := (fun b => b ++ [LF]) <$> bodies.

Lemma read_line_body n b rest : LF ∉ b -> (length b < n)%nat -> read_line n (b ++ LF :: rest) = (b ++ [LF], rest).
Proof.
  revert n. induction b as [|c b IH]; intros [|n] Hb Hn; cbn [length app read_line] in *; try lia; [done|].
  apply not_elem_of_cons in Hb as [Hc Hb]. rewrite bool_decide_false by congruence. rewrite IH by (done || lia). done.
Qed.

Lemma c_str_body b : 0 ∉ b -> c_str b = b.
Proof.
  induction b as [|c b IH]; intros Hb; [done|]. apply not_elem_of_cons in Hb as [Hc Hb].
  cbn [c_str]. rewrite bool_decide_false by congruence. by rewrite IH.
Qed.

Lemma read_lines_bodies fuel bodies : Forall short_body bodies -> (length (concat (text_lines bodies)) <= fuel)%nat ->
  read_lines fuel (concat (text_lines bodies)) = text_lines bodies.
Proof.
  intros Hall. revert fuel. induction Hall as [|b bodies (Hlf & H0 & Hlen) Hall IH]; intros fuel Hf; [by destruct fuel|].
  change (text_lines (b :: bodies)) with ((b ++ [LF]) :: text_lines bodies) in *. cbn [concat] in *. rewrite !length_app in Hf. cbn [length] in Hf. destruct fuel as [|fuel]; [lia|].
  cbn [read_lines]. rewrite <- app_assoc. cbn [app].
  destruct (b ++ LF :: _) eqn:Hb; [by destruct b|]. rewrite <- Hb. rewrite read_line_body by (done || lia).
  rewrite c_str_body; [|rewrite elem_of_app, list_elem_of_singleton; intros [?| ?]; done].
  f_equal. apply IH. lia.
Qed.

Lemma lines_of_bodies bodies : Forall short_body bodies -> lines_of (concat (text_lines bodies)) = text_lines bodies.
Proof. intros Hall. by apply read_lines_bodies. Qed.

(** ** Tokens *)

Definition token_char (c : Z) : Prop := c ∉ [0; LF; CR; 32; 9; LT; EQUALS; GT].

(** A name that a line can start with, which is no comment and no section. *)
Definition token_ok (t : list Z) : Prop := Forall token_char t /\ head t <> None /\ head t <> Some 59 /\ head t <> Some 91.

Definition same_token (t t' : list Z) : Prop := fold_case <$> t = fold_case <$> t'.

#[export] Instance same_token_dec t t' : Decision (same_token t t').
Proof. unfold same_token. apply _. Defined.

Definition spaces (s : list Z) : Prop := Forall (fun c => is_blank c = true) s.

Lemma token_char_fold c c' : fold_case c = fold_case c' -> token_char c -> token_char c'.
Proof.
  unfold fold_case, token_char, LF, CR, LT, EQUALS, GT. rewrite !not_elem_of_cons.
  intros Hf H. split_and!; try apply not_elem_of_nil; revert Hf; repeat case_bool_decide; lia.
Qed.

Lemma token_char_not_space c : token_char c -> is_blank c = false.
Proof.
  unfold token_char, is_blank. rewrite !not_elem_of_cons. intros H. apply bool_decide_eq_false. lia.
Qed.

Lemma same_token_ok t t' : same_token t t' -> token_ok t -> token_ok t'.
Proof.
  intros Hs [Hall Hhead]. assert (Hf : Forall2 (fun c c' => fold_case c = fold_case c') t t').
  { unfold same_token in Hs. apply Forall2_same_length_lookup. split.
    - by rewrite <- (length_fmap fold_case t), Hs, length_fmap.
    - intros i x y Hx Hy. apply (f_equal (.!! i)) in Hs. rewrite !list_lookup_fmap, Hx, Hy in Hs. by injection Hs. }
  split.
  - eapply Forall2_Forall_r; [exact Hf|]. eapply Forall_impl; [exact Hall|]. intros c Hc c' Hcc. by eapply token_char_fold.
  - destruct Hf as [|c c' t t' Hc Hf]; cbn [head] in *; [tauto|]. unfold fold_case in Hc.
    split; [done|]. revert Hc. repeat case_bool_decide; intros Hc; split; intros [= ->]; destruct Hhead as (_ & H1 & H2); subst;
      first [lia|congruence].
Qed.

Lemma skip_blanks_app sp r : spaces sp -> skip_blanks (sp ++ r) = skip_blanks r.
Proof. induction 1 as [|c sp Hc Hsp IH]; [done|]. cbn [app skip_blanks]. by rewrite Hc. Qed.

Lemma skip_blanks_here c r : is_blank c = false -> skip_blanks (c :: r) = c :: r.
Proof. intros Hc. cbn [skip_blanks]. by rewrite Hc. Qed.

Lemma skip_blanks_split s : exists sp, spaces sp /\ s = sp ++ skip_blanks s.
Proof.
  induction s as [|c s (sp & Hsp & IH)]; [by exists []; split; [constructor|]|]. cbn [skip_blanks].
  destruct (is_blank c) eqn:Hc.
  - exists (c :: sp). split; [by constructor|]. cbn [app]. by rewrite <- IH.
  - exists []. split; [constructor|done].
Qed.

Lemma skip_blanks_token t r : token_ok t -> skip_blanks (t ++ r) = t ++ r.
Proof.
  intros [Hall [Hne _]]. destruct t as [|c t]; [done|]. apply Forall_cons in Hall as [Hc _].
  apply skip_blanks_here. by apply token_char_not_space.
Qed.

Lemma skip_char_token t r : token_ok t -> skip_char LT (t ++ r) = t ++ r.
Proof.
  intros [Hall [Hne _]]. destruct t as [|c t]; [done|]. apply Forall_cons in Hall as [Hc _].
  cbn [app skip_char]. rewrite bool_decide_false; [done|]. intros ->. apply Hc. unfold LT. set_solver.
Qed.

(** ** The token of a line *)

Lemma has_token_same t t' r : same_token t t' -> has_token t (t' ++ r) = true.
Proof.
  intros Hs. assert (Hlen : length t = length t')
    by (unfold same_token in Hs; by rewrite <- (length_fmap fold_case t), Hs, length_fmap).
  unfold has_token. rewrite Hlen, take_app_length. by apply bool_decide_eq_true_2.
Qed.

(** A character that ends a token is not in another. *)
Lemma has_token_past t t' c r : token_ok t -> ~ token_char c -> (length t' < length t)%nat ->
  has_token t (t' ++ c :: r) = false.
Proof.
  intros [Hall _] Hc Hlen. unfold has_token. apply bool_decide_eq_false. intros Heq.
  destruct (lookup_lt_is_Some_2 t (length t') Hlen) as [y Hy].
  apply (f_equal (.!! length t')) in Heq. rewrite !list_lookup_fmap, Hy in Heq.
  rewrite lookup_take_lt, lookup_app_r, Nat.sub_diag in Heq by lia. injection Heq as Heq.
  apply Hc. eapply token_char_fold; [symmetry; exact Heq|]. eapply Forall_lookup_1; eassumption.
Qed.

Lemma space_not_token c : is_blank c = true -> ~ token_char c.
Proof. intros Hs Hc. apply token_char_not_space in Hc. congruence. Qed.

Lemma EQUALS_not_token : ~ token_char EQUALS.
Proof. unfold token_char, EQUALS. set_solver. Qed.

Lemma spaces_then_not_token sp r : spaces sp -> exists c r', sp ++ EQUALS :: r = c :: r' /\ ~ token_char c.
Proof.
  intros [|c sp' Hc Hsp]; cbn [app]; [by exists EQUALS, r; split; [|apply EQUALS_not_token]|].
  exists c, (sp' ++ EQUALS :: r). split; [done|]. by apply space_not_token.
Qed.

(** What a test of the token [t] followed by one of the sign does on the text of the token [t']. *)
Lemma token_then_sign {A} t' sp r t (test : Z -> list Z -> option A) : spaces sp -> token_ok t' -> token_ok t ->
  (forall c s, token_char c -> test c s = None) ->
  (if has_token t (t' ++ sp ++ EQUALS :: r) then
     match skip_blanks (drop (length t) (t' ++ sp ++ EQUALS :: r)) with c :: s => test c s | [] => None end
   else None) = if decide (same_token t t') then test EQUALS r else None.
Proof.
  intros Hsp Ht' Ht Htest. case_decide as Hs.
  - rewrite has_token_same by done.
    assert (Hlen : length t = length t') by (unfold same_token in Hs; by rewrite <- (length_fmap fold_case t), Hs, length_fmap).
    rewrite Hlen, drop_app_length, skip_blanks_app by done. by rewrite skip_blanks_here.
  - destruct (decide (length t' < length t)%nat) as [Hlt|Hge].
    + destruct (spaces_then_not_token sp r Hsp) as (c & r' & -> & Hc). by rewrite has_token_past.
    + destruct (has_token t (t' ++ _)) eqn:Hhas; [|done]. unfold has_token in Hhas. apply bool_decide_eq_true_1 in Hhas.
      rewrite take_app_le in Hhas by lia. rewrite drop_app_le by lia.
      destruct (drop (length t) t') as [|c t''] eqn:Hdrop.
      { exfalso. apply Hs. unfold same_token. rewrite <- Hhas. rewrite take_ge; [done|].
        apply (f_equal length) in Hdrop. rewrite length_drop in Hdrop. cbn in Hdrop. lia. }
      assert (Hc : token_char c).
      { destruct Ht' as [Hall _]. apply (Forall_drop _ (length t)) in Hall. rewrite Hdrop in Hall. by apply Forall_cons in Hall as [? _]. }
      cbn [app]. rewrite skip_blanks_here by (by apply token_char_not_space). by apply Htest.
Qed.

Lemma token_char_no_sign c : token_char c -> c <> EQUALS /\ c <> GT.
Proof. unfold token_char, EQUALS, GT. rewrite !not_elem_of_cons. lia. Qed.

(** The value of the token [t] on a line of [t']. *)
Lemma token_value_at pre t' sp r t : spaces pre -> spaces sp -> token_ok t' -> token_ok t ->
  token_value t (pre ++ t' ++ sp ++ EQUALS :: r) =
    if decide (same_token t t') then Some (false, r) else None.
Proof.
  intros Hpre Hsp Ht' Ht. unfold token_value. rewrite skip_blanks_app by done.
  rewrite skip_blanks_token, skip_char_token, skip_blanks_token by done.
  etransitivity; [apply (token_then_sign t' sp r t (fun c s => if bool_decide (c = GT) then Some (true, s) else
    if bool_decide (c = EQUALS) then Some (false, s) else None)); [done..|]|by case_decide].
  intros c s [? ?]%token_char_no_sign. by rewrite !bool_decide_false.
Qed.

(** Where the writer puts the value. *)
Lemma set_value_at pre t' sp r t : spaces pre -> spaces sp -> token_ok t' -> token_ok t ->
  set_value t (pre ++ t' ++ sp ++ EQUALS :: r) = if decide (same_token t t') then Some (skip_blanks r) else None.
Proof.
  intros Hpre Hsp Ht' Ht. unfold set_value. rewrite skip_blanks_app, skip_blanks_token by done.
  rewrite bool_decide_false.
  - etransitivity; [apply (token_then_sign t' sp r t (fun c s => if bool_decide (c = EQUALS) then Some (skip_blanks s) else None)); [done..|]|by case_decide].
    intros c s [? ?]%token_char_no_sign. by rewrite bool_decide_false.
  - destruct Ht' as (_ & Hne & H1 & H2). destruct t'; [done|]. intros [Heq|Heq]; [by apply H1|by apply H2].
Qed.

(** ** The line that is set *)

Lemma set_value_inv t l s : token_ok t -> set_value t l = Some s -> exists pre t' sp sp',
  l = pre ++ t' ++ sp ++ EQUALS :: sp' ++ s /\ spaces pre /\ spaces sp /\ spaces sp' /\ same_token t t'.
Proof.
  intros Ht Hl. unfold set_value in Hl. case_bool_decide; [done|].
  destruct (has_token t (skip_blanks l)) eqn:Hhas; [|done]. unfold has_token in Hhas. apply bool_decide_eq_true_1 in Hhas.
  destruct (skip_blanks_split l) as (pre & Hpre & Hl1).
  destruct (skip_blanks_split (drop (length t) (skip_blanks l))) as (sp & Hsp & Hl2).
  destruct (skip_blanks (drop _ _)) as [|c r] eqn:Hr; [done|]. case_bool_decide as Hc; [|done]. injection Hl as <-.
  destruct (skip_blanks_split r) as (sp' & Hsp' & Hl3).
  exists pre, (take (length t) (skip_blanks l)), sp, sp'. split_and!; [|done..|].
  - rewrite Hl1 at 1. f_equal. rewrite <- (take_drop (length t) (skip_blanks l)) at 1. f_equal.
    rewrite Hl2, Hc. do 2 f_equal. done.
  - unfold same_token. done.
Qed.

Lemma set_line_inv t wdata l l' : token_ok t -> set_line t wdata l = Some l' -> exists pre t' sp sp' s,
  l = pre ++ t' ++ sp ++ EQUALS :: sp' ++ s /\ l' = pre ++ t' ++ sp ++ EQUALS :: sp' ++ wdata ++ [LF] /\
  spaces pre /\ spaces sp /\ spaces sp' /\ same_token t t'.
Proof.
  intros Ht Hl. unfold set_line in Hl. destruct (set_value t l) as [s|] eqn:Hs; [|done]. injection Hl as <-.
  destruct (set_value_inv t l s Ht Hs) as (pre & t' & sp & sp' & -> & H).
  exists pre, t', sp, sp', s. split_and!; [done| |tauto..].
  replace (pre ++ t' ++ sp ++ EQUALS :: sp' ++ s) with ((pre ++ t' ++ sp ++ EQUALS :: sp') ++ s) by (by rewrite <- !app_assoc).
  rewrite length_app, Nat.add_sub, take_app_length. by rewrite <- !app_assoc.
Qed.

(** What a value must be to be read as it was written. *)
Definition data_ok (d : list Z) : Prop :=
  Forall (fun c => c ∉ [0; LF; CR]) d /\ exists c, head d = Some c /\ is_blank c = false /\ c <> QUOTE.

Lemma strip_eol_data d e : Forall (fun c => c ∉ [0; LF; CR]) d -> Forall (fun c => is_eol c = true) e -> strip_eol (d ++ e) = d.
Proof.
  intros Hd He. assert (Hnil : strip_eol e = []) by (induction He as [|c e Hc He IH]; [done|cbn [strip_eol]; by rewrite IH, Hc]).
  induction Hd as [|c d Hc Hd IH]; [done|]. cbn [app strip_eol]. rewrite IH. destruct d; [|done].
  unfold is_eol. rewrite bool_decide_false; [done|]. unfold CR, LF in *. set_solver.
Qed.

Lemma until_end_plain s : until_end false false s = s.
Proof. induction s as [|c s IH]; [done|]. cbn [until_end]. rewrite !andb_false_r. cbn [orb]. by rewrite IH. Qed.

(** The value of a line [sp' ++ wdata] after the sign. *)
Lemma get_line_at pre t' sp sp' d e t : spaces pre -> spaces sp -> spaces sp' -> token_ok t' -> token_ok t -> data_ok d ->
  Forall (fun c => is_eol c = true) e ->
  get_token_data_line t (pre ++ t' ++ sp ++ EQUALS :: sp' ++ d ++ e) = if decide (same_token t t') then Some d else None.
Proof.
  intros Hpre Hsp Hsp' Ht' Ht (Hd & c & Hhead & Hc & Hq) He. unfold get_token_data_line. rewrite token_value_at by done.
  case_decide; [|done]. cbn [mbind option_bind]. rewrite skip_blanks_app by done. destruct d as [|c' d]; [done|].
  injection Hhead as ->. cbn [app]. rewrite skip_blanks_here by done. cbn [head skip_char].
  rewrite (bool_decide_false (Some c = Some QUOTE)), (bool_decide_false (c = QUOTE)) by congruence. rewrite until_end_plain.
  change (c :: d ++ e) with ((c :: d) ++ e). rewrite strip_eol_data by done. by rewrite bool_decide_false.
Qed.

Lemma get_line_other pre t' sp r t : spaces pre -> spaces sp -> token_ok t' -> token_ok t -> ~ same_token t t' ->
  get_token_data_line t (pre ++ t' ++ sp ++ EQUALS :: r) = None.
Proof. intros. unfold get_token_data_line. rewrite token_value_at by done. by rewrite decide_False. Qed.

(** ** The lines of the whole file *)

Lemma nth_data_first t lines : nth_data t lines 0 1 = head (omap (get_token_data_line t) lines).
Proof.
  induction lines as [|l lines IH]; [done|]. cbn [nth_data omap list_omap].
  by destruct (get_token_data_line t l).
Qed.

Lemma nth_data_edit t (edit : list Z -> list Z) lines i index :
  Forall (fun l => get_token_data_line t (edit l) = get_token_data_line t l) lines ->
  nth_data t (edit <$> lines) i index = nth_data t lines i index.
Proof.
  intros Hall. revert i. induction Hall as [|l lines Hl Hall IH]; intros i; [done|]. cbn [fmap list_fmap nth_data].
  rewrite Hl. destruct (get_token_data_line t l); [|apply IH]. case_bool_decide; [done|apply IH].
Qed.

Lemma nth_data_snoc t lines l i index : get_token_data_line t l = None ->
  nth_data t (lines ++ [l]) i index = nth_data t lines i index.
Proof.
  intros Hl. revert i. induction lines as [|x lines IH]; intros i; cbn [app nth_data]; [by rewrite Hl|].
  destruct (get_token_data_line t x); [|apply IH]. case_bool_decide; [done|apply IH].
Qed.

Section set.
Context (t d : list Z) (Ht : token_ok t) (Hd : data_ok d).

Definition set_one (l : list Z) : list Z := default l (set_line t d l).
Definition new_line : list Z := t ++ [32] ++ EQUALS :: [32] ++ d ++ [LF].

Lemma get_new_line t2 : token_ok t2 -> get_token_data_line t2 new_line = if decide (same_token t2 t) then Some d else None.
Proof. intros Ht2. apply (get_line_at [] t [32] [32] d [LF] t2); [..|done|done|done|]; repeat constructor. Qed.

Lemma get_set_line l l' : set_line t d l = Some l' -> get_token_data_line t l' = Some d.
Proof.
  intros Hl. destruct (set_line_inv t d l l' Ht Hl) as (pre & t' & sp & sp' & s & _ & -> & Hpre & Hsp & Hsp' & Hs).
  rewrite get_line_at; [|done..|by eapply same_token_ok|done|done|by repeat constructor]. by rewrite decide_True.
Qed.

Lemma get_set_other t2 l : token_ok t2 -> ~ same_token t2 t -> get_token_data_line t2 (set_one l) = get_token_data_line t2 l.
Proof.
  intros Ht2 Hne. unfold set_one. destruct (set_line t d l) as [l'|] eqn:Hl; [|done].
  destruct (set_line_inv t d l l' Ht Hl) as (pre & t' & sp & sp' & s & -> & -> & Hpre & Hsp & Hsp' & Hs).
  assert (~ same_token t2 t') by (unfold same_token in *; congruence). assert (token_ok t') by (by eapply same_token_ok).
  cbn [default from_option id]. by rewrite !(get_line_other pre t' sp _ t2).
Qed.

(** The lines after the call: changed in place, or with one more. *)
Definition set_lines (lines : list (list Z)) : list (list Z) :=
  (set_one <$> lines) ++ (if existsb (fun l => bool_decide (is_Some (set_line t d l))) lines then [] else [new_line]).

Lemma set_text_lines lines : set_text t d lines = concat (set_lines lines).
Proof.
  unfold set_text, set_lines, edit_lines. rewrite concat_app.
  change ((fun l => default l (set_line t d l)) <$> lines) with (set_one <$> lines).
  destruct (existsb _ lines); cbn [concat]; by rewrite !app_nil_r.
Qed.

(** The lines that have the token for a reader have it for the writer too. *)
Definition no_foreign (lines : list (list Z)) : Prop :=
  Forall (fun l => set_line t d l = None -> get_token_data_line t l = None) lines.

Lemma omap_set lines : no_foreign lines -> Forall (fun x => x = d) (omap (get_token_data_line t) (set_one <$> lines)).
Proof.
  induction 1 as [|l lines Hl Hall IH]; [constructor|]. cbn [fmap list_fmap omap list_omap].
  destruct (get_token_data_line t (set_one l)) as [x|] eqn:Hx; [|done]. constructor; [|done].
  revert Hx. unfold set_one. destruct (set_line t d l) as [l'|] eqn:Hs; cbn [default from_option id].
  - rewrite (get_set_line l l' Hs). by intros [= ->].
  - by rewrite Hl.
Qed.

Lemma read_set lines : no_foreign lines -> nth_data t (set_lines lines) 0 1 = Some d.
Proof.
  intros Hno. rewrite nth_data_first. unfold set_lines. rewrite omap_app.
  pose proof (omap_set lines Hno) as Hall. destruct (existsb _ lines) eqn:Hex.
  - apply existsb_exists in Hex as (l & Hin & Hsome). apply bool_decide_eq_true_1 in Hsome as [l' Hl'].
    apply list_elem_of_In in Hin. rewrite app_nil_r.
    destruct (omap (get_token_data_line t) (set_one <$> lines)) as [|x xs] eqn:Hom.
    + exfalso. assert (Hd' : d ∈ omap (get_token_data_line t) (set_one <$> lines)).
      { apply list_elem_of_omap. exists (set_one l). split; [by apply list_elem_of_fmap_2|].
        unfold set_one. rewrite Hl'. by apply get_set_line in Hl'. }
      rewrite Hom in Hd'. by apply not_elem_of_nil in Hd'.
    + apply Forall_cons in Hall as [-> _]. done.
  - cbn [omap list_omap]. rewrite get_new_line by done. rewrite decide_True by (by unfold same_token).
    destruct (omap (get_token_data_line t) (set_one <$> lines)); [done|]. by apply Forall_cons in Hall as [-> _].
Qed.

Lemma read_set_other t2 lines index : token_ok t2 -> ~ same_token t2 t ->
  nth_data t2 (set_lines lines) 0 index = nth_data t2 lines 0 index.
Proof.
  intros Ht2 Hne. unfold set_lines.
  assert (Hget : Forall (fun l => get_token_data_line t2 (set_one l) = get_token_data_line t2 l) lines)
    by (apply Forall_true; intros; by apply get_set_other).
  destruct (existsb _ lines); [rewrite app_nil_r|rewrite nth_data_snoc by (rewrite get_new_line by done; by rewrite decide_False)].
  all: by apply nth_data_edit.
Qed.
End set.

(** ** The lines after the call *)

Lemma set_lines_map (P Q : list Z -> Prop) t d bodies :
  (forall b, P b -> exists b', set_one t d (b ++ [LF]) = b' ++ [LF] /\ Q b') -> Q (t ++ [32] ++ EQUALS :: [32] ++ d) ->
  Forall P bodies -> exists bodies', set_lines t d (text_lines bodies) = text_lines bodies' /\ Forall Q bodies'.
Proof.
  intros Hone Hnew Hall.
  assert (Hmap : exists bodies', set_one t d <$> text_lines bodies = text_lines bodies' /\ Forall Q bodies').
  { induction Hall as [|b bodies Hb Hall (bodies' & IH & Hall')]; [by exists []; split|].
    destruct (Hone b Hb) as (b' & Heq & Hb').
    exists (b' :: bodies'). split; [|by constructor]. change (text_lines (b :: bodies)) with ((b ++ [LF]) :: text_lines bodies). by rewrite fmap_cons, Heq, IH. }
  destruct Hmap as (bodies' & Heq & Hall'). unfold set_lines. rewrite Heq. destruct (existsb _ _).
  - exists bodies'. by rewrite app_nil_r.
  - exists (bodies' ++ [t ++ [32] ++ EQUALS :: [32] ++ d]). split.
    + unfold text_lines. rewrite fmap_app. cbn [fmap list_fmap]. unfold new_line. by rewrite <- !app_assoc.
    + apply Forall_app. split; [done|]. by constructor.
Qed.

(** ** The call *)

(** What is read from a file that the run-time wrote, where the mode can hold the text. *)
Class TextStreamLaws `{TextStreams} (encodable : Z -> list Z -> Prop) := {
  text_of_bytes_of mode text : encodable mode text -> text_of (bytes_of mode text) = text;
  utf16_even text : Nat.Even (length (bytes_of 2 text));
}.

Lemma copy_units_all two bs : (two = true -> Nat.Even (length bs)) -> copy_units two false bs = bs.
Proof.
  intros Heven. destruct two.
  - destruct (Heven eq_refl) as [n Hn]. clear Heven. revert bs Hn. induction n as [|n IH]; intros [|a [|b bs]] Hn; cbn in Hn; try lia; [done|].
    cbn [copy_units negb andb app]. rewrite IH; [done|lia].
  - clear Heven. induction bs as [|a bs IH]; [done|]. cbn [copy_units negb andb app]. by rewrite IH.
Qed.

Section set_file.
Context `{TextStreamLaws encodable}.
Context (utf8_to_wchar wchar_to_utf8 : list Z -> option (list Z)) (readable writable : list Z -> bool).

Lemma parameter_Some s w : s <> [] -> utf8_to_wchar s = Some w -> parameter utf8_to_wchar false s = Some w.
Proof. intros Hs Hw. unfold parameter. by rewrite bool_decide_false. Qed.

Lemma tmp_name_ne name : tmp_name name <> name.
Proof. unfold tmp_name. intros Heq. apply (f_equal length) in Heq. rewrite length_app in Heq. cbn in Heq. lia. Qed.

(** The files after a call that writes [text]. *)
Lemma write_tmp_spec fs name mode text : readable (tmp_name name) = true -> writable (tmp_name name) = true -> writable name = true ->
  encodable mode text ->
  write_tmp readable writable fs name mode (text, true) false =
    (delete (tmp_name name) (<[name := bytes_of mode text]> fs), true).
Proof.
  intros Hr Hw Hw' He. unfold write_tmp, use_tmp, open_read. cbn [fst snd]. rewrite Hr, Hw, Hw', lookup_insert_eq.
  rewrite copy_units_all. 2: { intros ->%bool_decide_eq_true_1. apply utf16_even. }
  f_equal. pose proof (tmp_name_ne name). rewrite insert_insert_ne, delete_insert_eq by congruence.
  by rewrite delete_insert_ne by congruence.
Qed.

(** When set_token_data_file is called on a file of complete lines that fit in the buffer, before and
    after, the value that is read back for the token is the one that was stored, whether the token
    was there before or not; the values of the other tokens and the other files are unchanged, and
    the temporary file is gone. *)
Lemma set_token_is_read fs filename token data wname t d bs bodies bodies' :
  filename <> [] -> utf8_to_wchar filename = Some wname -> token <> [] -> utf8_to_wchar token = Some t ->
  data <> [] -> utf8_to_wchar data = Some d -> token_ok t -> data_ok d ->
  readable wname = true -> readable (tmp_name wname) = true -> writable (tmp_name wname) = true -> writable wname = true ->
  fs !! wname = Some bs -> text_of bs = concat (text_lines bodies) ->
  Forall short_body bodies -> set_lines t d (text_lines bodies) = text_lines bodies' -> Forall short_body bodies' ->
  no_foreign t d (text_lines bodies) -> (forall mode, encodable mode (set_text t d (text_lines bodies))) ->
  exists fs' bs', set_token_data_file utf8_to_wchar readable writable token data filename fs = (fs', true) /\
    fs' !! tmp_name wname = None /\
    fs' !! wname = Some bs' /\
    text_of bs' = concat (set_lines t d (text_lines bodies)) /\
    get_token_data_file_indexed utf8_to_wchar wchar_to_utf8 readable token filename 1 fs' = wchar_to_utf8 d /\
    (forall token2 t2 index, token2 <> [] -> utf8_to_wchar token2 = Some t2 -> token_ok t2 -> ~ same_token t2 t ->
      get_token_data_file_indexed utf8_to_wchar wchar_to_utf8 readable token2 filename index fs' =
      get_token_data_file_indexed utf8_to_wchar wchar_to_utf8 readable token2 filename index fs) /\
    forall other, other <> wname -> other <> tmp_name wname -> fs' !! other = fs !! other.
Proof.
  intros Hfile Hname Htoken Htok Hdata Hdat Ht Hd Hr Hr' Hw' Hw Hfs Htext Hshort Hlines Hshort' Hno Henc.
  exists (delete (tmp_name wname) (<[wname := bytes_of (mode_of (default 0 (first_word bs))) (set_text t d (text_lines bodies))]> fs)),
    (bytes_of (mode_of (default 0 (first_word bs))) (set_text t d (text_lines bodies))).
  unfold set_token_data_file, get_token_data_file_indexed.
  rewrite (parameter_Some filename wname), (parameter_Some token t), (parameter_Some data d) by done.
  unfold open_read. rewrite Hr, Hfs. cbn [mbind option_bind].
  rewrite Htext, (lines_of_bodies bodies) by done. rewrite write_tmp_spec by done.
  rewrite lookup_delete_eq, lookup_delete_ne, lookup_insert_eq by apply tmp_name_ne. rewrite ?Hr. cbn [mbind option_bind].
  rewrite text_of_bytes_of by done. rewrite set_text_lines, Hlines, (lines_of_bodies bodies'), <- Hlines by done.
  split_and!; [done|done|done|done| | |].
  - by rewrite read_set.
  - intros token2 t2 index Hne2 Ht2 Hok2 Hdiff. rewrite (parameter_Some token2 t2) by done.
    cbn [mbind option_bind]. rewrite Hfs. cbn [mbind option_bind].
    rewrite Htext, (lines_of_bodies bodies) by done. by rewrite read_set_other.
  - intros other Hne1 Hne2. by rewrite lookup_delete_ne, lookup_insert_ne by congruence.
Qed.
End set_file.

(** ** ASCII *)

Definition is_ascii (c : Z) : Prop := 0 < c < 128.

(** The conversions of Windows are the identity on ASCII. *)
Class Utf8Laws (utf8_to_wchar wchar_to_utf8 : list Z -> option (list Z)) := {
  utf8_to_wchar_ascii s : Forall is_ascii s -> utf8_to_wchar s = Some s;
  wchar_to_utf8_ascii s : Forall is_ascii s -> wchar_to_utf8 s = Some s;
}.

Lemma identity_utf8 : Utf8Laws Some Some.
Proof. by split. Qed.

(** ** A run-time for texts in ASCII, with which the theorem is used *)

Fixpoint unix_text (bs : list Z) : list Z :=
  match bs with
  | [] => []
  | c :: bs => if bool_decide (c = CR /\ head bs = Some LF) then unix_text bs else c :: unix_text bs
  end.
Definition dos_text (text : list Z) : list Z := concat ((fun c => if bool_decide (c = LF) then [CR; LF] else [c]) <$> text).
Definition wide (bs : list Z) : list Z := concat ((fun c => [c; 0]) <$> bs).
Fixpoint narrow (bs : list Z) : list Z := match bs with c :: _ :: bs => c :: narrow bs | _ => [] end.

#[export] Instance ascii_streams : TextStreams := {|
  text_of bs :=
    match bs with
    | 255 :: 254 :: bs => unix_text (narrow bs)
    | 239 :: 187 :: 191 :: bs => unix_text bs
    | _ => unix_text bs
    end;
  first_word bs := match bs with a :: b :: _ => Some (a + 256 * b) | _ => None end;
  bytes_of mode text :=
    if bool_decide (mode = 2) then 255 :: 254 :: wide (dos_text text)
    else if bool_decide (mode = 1) then 239 :: 187 :: 191 :: dos_text text else dos_text text;
|}.

Definition ascii_text (mode : Z) (text : list Z) : Prop := Forall (fun c => 0 <= c < 128 /\ c <> CR) text.

Lemma unix_dos text : Forall (fun c => 0 <= c < 128 /\ c <> CR) text -> unix_text (dos_text text) = text.
Proof.
  induction 1 as [|c text [_ Hc] Hall IH]; [done|]. unfold dos_text in *. cbn [fmap list_fmap concat]. case_bool_decide as Hlf.
  - subst c. cbn [app unix_text head]. rewrite bool_decide_true by done. rewrite bool_decide_false by (intros [H _]; done). by rewrite IH.
  - cbn [app unix_text]. rewrite bool_decide_false by tauto. by rewrite IH.
Qed.

Lemma narrow_wide bs : narrow (wide bs) = bs.
Proof. induction bs as [|c bs IH]; [done|]. unfold wide in *. cbn [fmap list_fmap concat app narrow]. by rewrite IH. Qed.

Lemma dos_text_head text c rest : ascii_text 0 text -> dos_text text = c :: rest -> c < 128.
Proof.
  intros Hall Heq. destruct Hall as [|c' text Hc Hall]; [done|]. unfold dos_text in Heq. cbn [fmap list_fmap concat] in Heq.
  case_bool_decide; injection Heq as <- _; unfold CR; lia.
Qed.

#[export] Instance ascii_stream_laws : TextStreamLaws ascii_text.
Proof.
  split.
  - intros mode text Hall. cbn [text_of bytes_of ascii_streams].
    case_bool_decide; [by rewrite narrow_wide, unix_dos|]. case_bool_decide; [by rewrite unix_dos|].
    destruct (dos_text text) as [|c rest] eqn:Heq; [rewrite <- (unix_dos text Hall); by rewrite Heq|].
    pose proof (dos_text_head text c rest Hall Heq). rewrite <- Heq.
    transitivity (unix_text (dos_text text)); [|by apply unix_dos].
    rewrite Heq. destruct (decide (c = 255)); [lia|]. destruct (decide (c = 239)); [lia|].
    repeat match goal with |- context [match ?x with _ => _ end] => is_var x; destruct x; try done; try lia end.
  - intros text. exists (S (length (dos_text text))). cbn [bytes_of ascii_streams bool_decide decide].
    rewrite bool_decide_true by done. cbn [length]. unfold wide. generalize (dos_text text). intros l.
    induction l as [|c l IH]; [done|]. cbn [fmap list_fmap concat app length] in *. lia.
Qed.

(** A file that does not end with a line end: the new line is glued to the last one, and is not read. *)
Lemma set_token_glued :
  set_text [98] [50] (lines_of [97; 61; 49]) = [97; 61; 49; 98; 32; 61; 32; 50; 10] /\
  nth_data [98] (lines_of (set_text [98] [50] (lines_of [97; 61; 49]))) 0 1 = None.
Proof. by vm_compute. Qed.
