(* ===== verification/ConfigReplace.v ===== *)
(** ConfigReplace: [replace_in_token_data] and [insert_section_data] against what they mean to
    do to the lines of a file. *)

From stdpp Require Import gmap.
From S2P Require Import Prelude Labels ConfigText ConfigTextProps.

(** ** The reference *)

(** The first [n] occurrences of [src] are replaced. *)
Fixpoint replace_first (n : nat) (src rep s : list Z) : list Z :=
  match n with
  | O => s
  | S n =>
      match strstr s src with
      | None => s
      | Some k => take k s ++ rep ++ replace_first n src rep (drop (k + length src) s)
      end
  end.

(** A line [l] of the token [t]: what comes before its data, and the data. *)
Definition token_data (t l before data : list Z) : Prop :=
  exists pre t' sp, l = before ++ data /\ before = pre ++ t' ++ sp /\ spaces pre /\ same_token t t' /\
    spaces sp /\ sp <> [] /\ (forall c, head data = Some c -> is_blank c = false).

Definition occurs (src s : list Z) : Prop := is_Some (strstr s src).

(** A line and the one that takes its place. *)
Inductive replaced (t src rep l : list Z) : list Z -> Prop :=
| replaced_data before data : token_data t l before data -> replaced t src rep l (before ++ replace_first MAX_OCCURRENCES src rep data)
| replaced_other : (forall before data, ~ token_data t l before data) -> replaced t src rep l l.

(** ** The fragments of a line *)

Lemma strstr_bound s src k : strstr s src = Some k -> (k + length src <= length s)%nat /\ take (length src) (drop k s) = src.
Proof.
  revert k. induction s as [|c s IH]; intros k; cbn [strstr]; case_bool_decide as Hp.
  - intros [= <-]. apply (f_equal length) in Hp as Hl. rewrite length_take in Hl. cbn in *. split; [lia|done].
  - done.
  - intros [= <-]. apply (f_equal length) in Hp as Hl. rewrite length_take in Hl. split; [cbn in *; lia|done].
  - destruct (strstr s src) as [k'|]; [|done]. intros [= <-]. destruct (IH k' eq_refl). cbn [length drop]. split; [lia|done].
Qed.

Lemma fragments_text n src rep buf p i : (p <= i <= length buf)%nat ->
  let '(occurrences, last) := fragments n src buf p i in
  concat ((fun pt : nat * nat => take (pt.2 - pt.1) (drop pt.1 buf) ++ rep) <$> occurrences) ++ drop last buf =
  take (i - p) (drop p buf) ++ replace_first n src rep (drop i buf).
Proof.
  revert p i. induction n as [|n IH]; intros p i Hi; cbn [fragments replace_first].
  - cbn [fmap list_fmap concat app]. rewrite <- (take_drop (i - p) (drop p buf)) at 1. f_equal. rewrite drop_drop. f_equal. lia.
  - destruct (strstr (drop i buf) src) as [k|] eqn:Hk.
    + apply strstr_bound in Hk as [Hk _]. rewrite length_drop in Hk.
      specialize (IH (i + k + length src)%nat (i + k + length src)%nat ltac:(lia)).
      destruct (fragments n src buf _ _) as [occurrences last]. cbn [fmap list_fmap concat].
      rewrite <- app_assoc, IH, Nat.sub_diag. cbn [fst snd take app]. rewrite drop_drop.
      replace (i + (k + length src))%nat with (i + k + length src)%nat by lia.
      replace (i + k - p)%nat with (i - p + k)%nat by lia. rewrite <- (take_drop (i - p) (drop p buf)) at 1.
      rewrite take_app_ge by (rewrite length_take, length_drop; lia).
      rewrite length_take, length_drop, drop_drop. replace (p + (i - p))%nat with i by lia.
      replace (i - p + k - (i - p) `min` (length buf - p))%nat with k by lia. by rewrite <- !app_assoc.
    + cbn [fmap list_fmap concat app]. rewrite <- (take_drop (i - p) (drop p buf)) at 1. f_equal. rewrite drop_drop. f_equal. lia.
Qed.

Lemma fragments_none n src buf p i : (fragments (S n) src buf p i).1 = [] <-> strstr (drop i buf) src = None.
Proof. cbn [fragments]. destruct (strstr _ _) as [k|]; [|done]. by destruct (fragments _ _ _ _ _). Qed.

(** ** Where the data starts *)

Lemma same_token_length t t' : same_token t t' -> length t = length t'.
Proof. intros Hs. unfold same_token in Hs. by rewrite <- (length_fmap fold_case t), Hs, length_fmap. Qed.

Lemma replace_start_spec t l i : token_ok t -> replace_start t l = Some i <->
  token_data t l (take i l) (drop i l) /\ (i <= length l)%nat.
Proof.
  intros Ht. split.
  - unfold replace_start. intros Hi. destruct (has_token t (skip_blanks l)) eqn:Hhas; [|done].
    unfold has_token in Hhas. apply bool_decide_eq_true_1 in Hhas. case_bool_decide as Hlen; [done|]. injection Hi as <-.
    destruct (skip_blanks_split l) as (pre & Hpre & Hl1).
    set (after := drop (length t) (skip_blanks l)) in *. destruct (skip_blanks_split after) as (sp & Hsp & Hl2).
    assert (Hl : l = (pre ++ take (length t) (skip_blanks l) ++ sp) ++ skip_blanks after).
    { rewrite Hl1 at 1. rewrite <- (take_drop (length t) (skip_blanks l)) at 1. fold after. rewrite Hl2 at 1. by rewrite <- !app_assoc. }
    split; [|lia]. set (before := pre ++ _ ++ sp) in *. set (data := skip_blanks after) in *.
    assert (Hb : (length l - length data)%nat = length before) by (rewrite Hl, length_app; lia).
    rewrite Hb, Hl, take_app_length, drop_app_length.
    exists pre, (take (length t) (skip_blanks l)), sp. split_and!; [done|done|done|done|done| |].
    + intros ->. apply Hlen. by rewrite Hl2 at 1.
    + intros c Hc. unfold data in Hc. clear -Hc. induction after as [|x after IH]; [done|]. cbn [skip_blanks] in Hc.
      destruct (is_blank x) eqn:Hx; [by apply IH|]. by injection Hc as <-.
  - intros [(pre & t' & sp & Hl & Hb & Hpre & Hs & Hsp & Hne & Hhead) Hi]. unfold replace_start.
    assert (Hlb : length (take i l) = i) by (rewrite length_take; lia).
    assert (Hok : token_ok t') by (by eapply same_token_ok). rewrite Hb in Hl.
    assert (Hskip : skip_blanks l = t' ++ sp ++ drop i l)
      by (rewrite Hl at 1; rewrite <- !app_assoc, skip_blanks_app by done; by rewrite skip_blanks_token).
    rewrite Hskip, has_token_same, (same_token_length t t'), drop_app_length, skip_blanks_app by done.
    assert (Hdata : skip_blanks (drop i l) = drop i l).
    { destruct (drop i l) as [|c r]; [done|]. apply skip_blanks_here. by apply Hhead. }
    rewrite Hdata. rewrite bool_decide_false.
    + f_equal. rewrite length_drop. lia.
    + rewrite length_app. destruct sp; [done|]. cbn [length]. lia.
Qed.

Lemma token_data_start t l before data : token_ok t -> token_data t l before data -> replace_start t l = Some (length before).
Proof.
  intros Ht Hd. pose proof Hd as (pre & t' & sp & -> & _). apply replace_start_spec; [done|].
  rewrite take_app_length, drop_app_length. split; [done|rewrite length_app; lia].
Qed.

Lemma token_data_unique t l before data i : token_ok t -> token_data t l before data -> replace_start t l = Some i ->
  before = take i l /\ data = drop i l.
Proof.
  intros Ht Hd Hi. rewrite (token_data_start t l before data Ht Hd) in Hi. injection Hi as <-.
  destruct Hd as (pre & t' & sp & -> & _). by rewrite take_app_length, drop_app_length.
Qed.

(** ** A line of the output *)

Lemma replace_line_spec t src rep l : token_ok t ->
  replaced t src rep l (default l (replace_line t src rep l)) /\
  (is_Some (replace_line t src rep l) <-> exists before data, token_data t l before data /\ occurs src data).
Proof.
  intros Ht. unfold replace_line. destruct (replace_start t l) as [i|] eqn:Hi; cbn [mbind option_bind].
  - pose proof Hi as Hd. apply replace_start_spec in Hd as [Hd Hlen]; [|done].
    pose proof (fragments_text MAX_OCCURRENCES src rep l 0 i ltac:(lia)) as Htext.
    pose proof (fragments_none 3 src l 0 i) as Hnone.
    assert (Hocc : (exists before data, token_data t l before data /\ occurs src data) <-> occurs src (drop i l)).
    { split; [|by intros; exists (take i l), (drop i l)]. intros (before & data & Hd' & Ho).
      by destruct (token_data_unique t l before data i Ht Hd' Hi) as [_ <-]. }
    rewrite Hocc. fold MAX_OCCURRENCES in *. change 4%nat with MAX_OCCURRENCES in Hnone. unfold occurs.
    rewrite Nat.sub_0_r, drop_0 in Htext.
    destruct (fragments MAX_OCCURRENCES src l 0 i) as [[|o os] last]; cbn [fst] in Hnone.
    + rewrite (proj1 Hnone eq_refl). split; [|by split; intros []]. cbn [default from_option id].
      rewrite <- (take_drop i l) at 2.
      replace (drop i l) with (replace_first MAX_OCCURRENCES src rep (drop i l)) at 1; [by constructor|].
      cbn [replace_first MAX_OCCURRENCES]. by rewrite (proj1 Hnone eq_refl).
    + cbn [default from_option id]. rewrite Htext. split; [by constructor|]. split; [|done]. intros _.
      destruct (strstr (drop i l) src) eqn:Hs; [done|]. by discriminate (proj2 Hnone eq_refl).
  - cbn [default from_option id]. assert (Hnot : forall before data, ~ token_data t l before data).
    { intros before data Hd. by rewrite (token_data_start t l before data Ht Hd) in Hi. }
    split; [by constructor|]. split; [by intros []|]. intros (before & data & Hd & _). by destruct (Hnot before data).
Qed.

Lemma edit_lines_spec edit lines : edit_lines edit lines =
  (concat ((fun l => default l (edit l)) <$> lines), bool_decide (Exists (fun l => is_Some (edit l)) lines)).
Proof.
  unfold edit_lines. f_equal. apply eq_bool_prop_intro. rewrite bool_decide_spec, Exists_exists. unfold Is_true.
  split.
  - destruct (existsb _ _) eqn:Hex; [|done]. intros _. apply existsb_exists in Hex as (l & Hin & Hl).
    apply list_elem_of_In in Hin. apply bool_decide_eq_true_1 in Hl. by exists l.
  - intros (l & Hin & Hl). replace (existsb _ lines) with true; [done|]. symmetry. apply existsb_exists.
    exists l. split; [by apply list_elem_of_In|]. by apply bool_decide_eq_true_2.
Qed.

(** ** The call *)

Section replace_file.
Context `{TextStreams}.
Context (utf8_to_wchar : list Z -> option (list Z)) (readable writable : list Z -> bool).

Lemma write_tmp_edited fs name mode out dos2unix : readable (tmp_name name) = true -> writable (tmp_name name) = true -> writable name = true ->
  write_tmp readable writable fs name mode out dos2unix =
    if out.2 then (delete (tmp_name name) (<[name := copy_units (bool_decide (mode = 2)) dos2unix (bytes_of mode out.1)]> fs), true)
    else (delete (tmp_name name) fs, false).
Proof.
  intros Hr Hw Hw'. unfold write_tmp, use_tmp, open_read. rewrite Hr, Hw, Hw', lookup_insert_eq.
  pose proof (tmp_name_ne name). destruct out.2; [|by rewrite delete_insert_eq].
  f_equal. rewrite insert_insert_ne, delete_insert_eq by congruence. by rewrite delete_insert_ne by congruence.
Qed.

(** C22: Replacement in a configuration file. On every line that starts with the token and a space the
    first four occurrences of the string in what comes after are replaced, wherever the fragments
    that the code cuts the line into end up, and all the other lines are copied; the file is
    written in its own encoding when a line has an occurrence, and is left alone otherwise. *)
Theorem replace_in_token_data_lines fs filename token src rep dos2unix wname t wsrc wrep bs bom :
  parameter utf8_to_wchar false filename = Some wname -> parameter utf8_to_wchar false token = Some t ->
  parameter utf8_to_wchar false src = Some wsrc -> parameter utf8_to_wchar true rep = Some wrep -> src <> rep ->
  readable wname = true -> readable (tmp_name wname) = true -> writable (tmp_name wname) = true -> writable wname = true ->
  fs !! wname = Some bs -> first_word bs = Some bom -> token_ok t ->
  let lines := lines_of (text_of bs) in
  exists (lines' : list (list Z)) (changed : bool), Forall2 (replaced t wsrc wrep) lines lines' /\
    (changed = true <-> exists l before data, l ∈ lines /\ token_data t l before data /\ occurs wsrc data) /\
    replace_in_token_data utf8_to_wchar readable writable filename token src rep dos2unix fs =
      if changed then
        (delete (tmp_name wname)
           (<[wname := copy_units (bool_decide (mode_of bom = 2)) dos2unix (bytes_of (mode_of bom) (concat lines'))]> fs), true)
      else (delete (tmp_name wname) fs, false).
Proof.
  intros Hname Htoken Hsrc Hrep Hne Hr Hr' Hw' Hw Hfs Hbom Ht lines.
  exists ((fun l => default l (replace_line t wsrc wrep l)) <$> lines),
    (bool_decide (Exists (fun l => is_Some (replace_line t wsrc wrep l)) lines)).
  split_and!.
  - apply Forall2_fmap_r, Forall_Forall2_diag, Forall_true. intros l. by apply replace_line_spec.
  - rewrite bool_decide_eq_true, Exists_exists. split.
    + intros (l & Hl & Hsome). apply replace_line_spec in Hsome as (before & data & Hd); [|done]. by exists l, before, data.
    + intros (l & before & data & Hl & Hd). exists l. split; [done|]. apply replace_line_spec; [done|]. by exists before, data.
  - unfold replace_in_token_data. rewrite bool_decide_false, Hname, Htoken, Hsrc, Hrep by done.
    unfold edit_file, open_read. rewrite Hr, Hfs, Hbom, edit_lines_spec. by rewrite write_tmp_edited.
Qed.
End replace_file.

(** Of five occurrences the fifth stays. *)
Theorem replace_in_token_data_lines_witness :
  exists lines', Forall2 (replaced [116] [97] [98]) (lines_of [116; 32; 97; 97; 97; 97; 97; 10; 97; 10]) lines' /\
    replace_in_token_data Some (fun _ => true) (fun _ => true) [102] [116] [97] [98] false {[ [102] := [116; 32; 97; 97; 97; 97; 97; 13; 10; 97; 13; 10] ]}
    = (delete [102; 126] {[ [102] := copy_units false false (dos_text (concat lines')) ]}, true).
Proof.
  destruct (replace_in_token_data_lines Some (fun _ => true) (fun _ => true) {[ [102] := [116; 32; 97; 97; 97; 97; 97; 13; 10; 97; 13; 10] ]}
    [102] [116] [97] [98] false [102] [116] [97] [98] [116; 32; 97; 97; 97; 97; 97; 13; 10; 97; 13; 10] 8308)
    as (lines' & changed & Hall & Hchanged & Heq); try done.
  - unfold token_ok, token_char. split; [|by split_and!]. apply (bool_decide_eq_true_1 _). vm_compute. reflexivity.
  - exists lines'. split; [exact Hall|]. destruct changed.
    + rewrite Heq. by rewrite insert_singleton_eq.
    + vm_compute in Heq. discriminate.
Defined.

(** The fifth occurrence is not replaced. *)
Lemma replace_fifth : replace_line [116] [97] [98] [116; 32; 97; 97; 97; 97; 97; 10] = Some [116; 32; 98; 98; 98; 98; 97; 10].
Proof. by vm_compute. Qed.

(** In UTF-16 the removal of the carriage returns removes every character with this low byte. *)
Lemma dos2unix_drops_letter : copy_units true true [0x0D; 0x01; 97; 0] = [97; 0].
Proof. done. Qed.

(** Without the temporary file the file is emptied, while the log says that it was left as it was. *)
Lemma use_tmp_empties (can_read : list Z -> bool) (name : list Z) (fs : files) mode dos2unix : can_read (tmp_name name) = false ->
  use_tmp can_read (fun _ => true) fs name mode dos2unix = (delete (tmp_name name) (<[name := []]> fs), false).
Proof. intros Hr. unfold use_tmp, open_read. by rewrite Hr. Qed.
