(* ===== verification/Settings.v ===== *)
(** Settings: the settings of src/src/settings.h, kept in an ini file (ConfigText.v) or in the
    registry of Windows (src/src/registry.h).

    The two are instances of the class [SettingsStore], which is what the rest of the program
    uses. *)

From Stdlib Require Import Ascii String.
From stdpp Require Import gmap.
From S2P Require Import Prelude CText Faults Labels ConfigText.

(** ** Numbers as text *)

Fixpoint dec_digits (fuel : nat) (n : Z) : list Z :=
  match fuel with
  | O => []
  | S fuel => if bool_decide (n < 10) then [48 + n] else dec_digits fuel (n / 10) ++ [48 + n mod 10]
  end.

(** ["%d"] and ["%" PRIi64]. *)
Definition print_dec (n : Z) : list Z := if bool_decide (n < 0) then 45 :: dec_digits 20 (- n) else dec_digits 20 n.

(** The base that a prefix gives, and what comes after it. *)
Definition number_base (s : list Z) : Z * list Z :=
  match s with
  | 48 :: c :: s' =>
      if bool_decide (c = 120 \/ c = 88) && match head s' ≫= digit_value with Some d => bool_decide (d < 16) | None => false end then (16, s') else (8, c :: s')
  | _ => (10, s)
  end.

(** [strtol(s, NULL, 0)] for a type of [w] bits: out of range values are clamped. *)
Definition strtol (w : Z) (s : list Z) : Z :=
  let '(negative, s) := sign (skip_spaces s) in
  let '(base, s) := number_base s in
  let n := digits_value base 0 s in
  Z.max (- 2 ^ (w - 1)) (Z.min (2 ^ (w - 1) - 1) (if negative then - n else n)).

(** ** The interface *)

(** Reading may change the store: the registry key of the program is created when it is missing.
    A key that the registry does not allow fails an assertion. *)
Class SettingsStore (S : Type) := {
  ReadKey64 : list Z -> S -> S * Z;
  WriteKey64 : list Z -> Z -> S -> checked (S * bool);
  ReadKey32 : list Z -> S -> S * Z;
  WriteKey32 : list Z -> Z -> S -> checked (S * bool);
  ReadKeyStr : list Z -> S -> S * list Z;
  WriteKeyStr : list Z -> list Z -> S -> checked (S * bool);
}.

(** ** The ini file *)

Section ini.
Context `{TextStreams}.
Context (utf8_to_wchar wchar_to_utf8 : list Z -> option (list Z)) (readable writable : list Z -> bool).
Context (ini_file : list Z).

Definition get_ini (key : list Z) (fs : files) : option (list Z) :=
  get_token_data_file_indexed utf8_to_wchar wchar_to_utf8 readable key ini_file 1 fs.
Definition set_ini (key str : list Z) (fs : files) : files * bool :=
  set_token_data_file utf8_to_wchar readable writable key str ini_file fs.

Definition CheckIniKey (key : list Z) (fs : files) : bool := bool_decide (is_Some (get_ini key fs)).

Definition ReadIniKey64 (key : list Z) (fs : files) : Z :=
  match get_ini key fs with Some str => strtol 64 str | None => 0 end.
Definition WriteIniKey64 (key : list Z) (val : Z) (fs : files) : files * bool := set_ini key (take 23 (print_dec val)) fs.

Definition ReadIniKey32 (key : list Z) (fs : files) : Z :=
  match get_ini key fs with Some str => strtol 32 str | None => 0 end.
Definition WriteIniKey32 (key : list Z) (val : Z) (fs : files) : files * bool := set_ini key (take 11 (print_dec val)) fs.

Definition ReadIniKeyStr (key : list Z) (fs : files) : list Z :=
  match get_ini key fs with Some val => take 511 val | None => [] end.
Definition WriteIniKeyStr (key val : list Z) (fs : files) : files * bool := set_ini key val fs.

Definition ini_store : SettingsStore files := {|
  ReadKey64 key fs := (fs, ReadIniKey64 key fs);
  WriteKey64 key val fs := Ret (WriteIniKey64 key val fs);
  ReadKey32 key fs := (fs, ReadIniKey32 key fs);
  WriteKey32 key val fs := Ret (WriteIniKey32 key val fs);
  ReadKeyStr key fs := (fs, ReadIniKeyStr key fs);
  WriteKeyStr key val fs := Ret (WriteIniKeyStr key val fs);
|}.
End ini.

(** ** The registry *)

Inductive hkey := HKEY_CURRENT_USER | HKEY_LOCAL_MACHINE.

(** The calls of Windows: the paths are those from the root key. A value has a type and bytes. *)
Class RegistryApi (R : Type) := {
  RegOpenKey : hkey -> list Z -> R -> bool;
  RegCreateKey : hkey -> list Z -> R -> option R;
  RegQueryValue : hkey -> list Z -> list Z -> R -> option (Z * list Z);
  RegSetValue : hkey -> list Z -> list Z -> Z -> list Z -> R -> option R;
}.

Definition REG_SZ : Z := 1.
Definition REG_DWORD : Z := 4.
Definition REG_QWORD : Z := 11.
Definition BACKSLASH : Z := 92.
Definition SOFTWARE : list Z := chars "SOFTWARE".
Definition app_key : list Z := SOFTWARE ++ [BACKSLASH] ++ chars "Akeo Consulting" ++ [BACKSLASH] ++ chars "SecureWipe".
Definition MAX_PATH : nat := 260.

Section registry.
Context `{RegistryApi R}.
(** What a value that is too long leaves in the block of the caller. *)
Context (left_over : list Z -> nat -> list Z).

(** The index of the last backslash, 0 when there is none; the first character is not looked at. *)
Fixpoint last_backslash (n : nat) (key_name : list Z) : nat :=
  match n with
  | O => O
  | S n' => if bool_decide (key_name !! n = Some BACKSLASH) then n else last_backslash n' key_name
  end.

(** The value is copied to [dest], a block of zeros. *)
Definition query_value (key_root : hkey) (path name : list Z) (reg_type : Z) (dest_size : nat) (r : R) : bool * list Z :=
  match RegQueryValue key_root path name r with
  | None => (true, replicate dest_size 0)
  | Some (dwType, data) =>
      if bool_decide (length data <= dest_size)%nat
      then (bool_decide (dwType = reg_type /\ (0 < length data)%nat), data ++ replicate (dest_size - length data) 0)
      else (false, left_over data dest_size)
  end.

Definition GetRegistryKey_ (key_root : hkey) (key_name : list Z) (reg_type : Z) (dest_size : nat) (r : R) : R * (bool * list Z) :=
  let failed := (r, (false, replicate dest_size 0)) in
  let i := last_backslash (length key_name) key_name in
  if bool_decide (0 < i)%nat then
    if bool_decide (MAX_PATH <= i)%nat then failed
    else
      let long_key_name := take i key_name in
      if RegOpenKey key_root long_key_name r
      then (r, query_value key_root long_key_name (drop (S i) key_name) reg_type dest_size r) else failed
  else if RegOpenKey key_root SOFTWARE r then
    match RegCreateKey key_root app_key r with
    | Some r => (r, query_value key_root app_key key_name reg_type dest_size r)
    | None => failed
    end
  else failed.

Definition SetRegistryKey_ (key_root : hkey) (key_name : list Z) (reg_type : Z) (src : list Z) (r : R) : checked (R * bool) :=
  _ ← assert_that match key_root with HKEY_CURRENT_USER => true | HKEY_LOCAL_MACHINE => false end;
  _ ← assert_that (negb (bool_decide (BACKSLASH ∈ key_name)));
  Ret (if RegOpenKey key_root [] r then
         match RegCreateKey key_root app_key r with
         | None => (r, false)
         | Some r => match RegSetValue key_root app_key key_name reg_type src r with Some r => (r, true) | None => (r, false) end
         end
       else (r, false)).

Definition ReadRegistryKey64 (root : hkey) (key : list Z) (r : R) : R * Z :=
  let '(r, (_, val)) := GetRegistryKey_ root key REG_QWORD 8 r in (r, s64 (le_word val)).
Definition WriteRegistryKey64 (root : hkey) (key : list Z) (val : Z) (r : R) : checked (R * bool) :=
  SetRegistryKey_ root key REG_QWORD (le_bytes 8 val) r.
Definition CheckRegistryKey64 (root : hkey) (key : list Z) (r : R) : R * bool :=
  let '(r, (b, _)) := GetRegistryKey_ root key REG_QWORD 8 r in (r, b).

Definition ReadRegistryKey32 (root : hkey) (key : list Z) (r : R) : R * Z :=
  let '(r, (_, val)) := GetRegistryKey_ root key REG_DWORD 4 r in (r, s32 (le_word val)).
Definition WriteRegistryKey32 (root : hkey) (key : list Z) (val : Z) (r : R) : checked (R * bool) :=
  SetRegistryKey_ root key REG_DWORD (le_bytes 4 val) r.
Definition CheckRegistryKey32 (root : hkey) (key : list Z) (r : R) : checked (R * bool) :=
  let '(r, (b, val)) := GetRegistryKey_ root key REG_DWORD 4 r in
  if b : bool then SetRegistryKey_ root key REG_DWORD val r else Ret (r, false).

Definition ReadRegistryKeyStr (root : hkey) (key : list Z) (r : R) : R * list Z :=
  let '(r, (_, str)) := GetRegistryKey_ root key REG_SZ 511 r in (r, c_str str).
Definition WriteRegistryKeyStr (root : hkey) (key val : list Z) (r : R) : checked (R * bool) :=
  SetRegistryKey_ root key REG_SZ val r.

Definition registry_store : SettingsStore R := {|
  ReadKey64 := ReadRegistryKey64 HKEY_CURRENT_USER;
  WriteKey64 := WriteRegistryKey64 HKEY_CURRENT_USER;
  ReadKey32 := ReadRegistryKey32 HKEY_CURRENT_USER;
  WriteKey32 := WriteRegistryKey32 HKEY_CURRENT_USER;
  ReadKeyStr := ReadRegistryKeyStr HKEY_CURRENT_USER;
  WriteKeyStr := WriteRegistryKeyStr HKEY_CURRENT_USER;
|}.
End registry.

(** ** The settings *)

Section settings.
Context {S : Type} (store : SettingsStore S).

Definition ReadSetting64 := ReadKey64 (SettingsStore := store).
Definition WriteSetting64 := WriteKey64 (SettingsStore := store).
Definition ReadSetting32 := ReadKey32 (SettingsStore := store).
Definition WriteSetting32 := WriteKey32 (SettingsStore := store).
Definition ReadSettingStr := ReadKeyStr (SettingsStore := store).
Definition WriteSettingStr := WriteKeyStr (SettingsStore := store).
Definition ReadSettingBool (key : list Z) (s : S) : S * bool :=
  let '(s, val) := ReadSetting32 key s in (s, negb (bool_decide (val = 0))).
Definition WriteSettingBool (key : list Z) (b : bool) (s : S) : checked (S * bool) := WriteSetting32 key (if b then 1 else 0) s.
End settings.

(** [ini_file != NULL] chooses the store. *)
Section choice.
Context {S1 S2 : Type} (ini : SettingsStore S1) (registry : SettingsStore S2).

Definition on_fst {A} (f : S1 -> S1 * A) (s : S1 * S2) : (S1 * S2) * A := let '(s1, a) := f s.1 in ((s1, s.2), a).
Definition on_snd {A} (f : S2 -> S2 * A) (s : S1 * S2) : (S1 * S2) * A := let '(s2, a) := f s.2 in ((s.1, s2), a).
Definition write_fst {A} (f : S1 -> checked (S1 * A)) (s : S1 * S2) : checked ((S1 * S2) * A) :=
  '(s1, a) ← f s.1; Ret ((s1, s.2), a).
Definition write_snd {A} (f : S2 -> checked (S2 * A)) (s : S1 * S2) : checked ((S1 * S2) * A) :=
  '(s2, a) ← f s.2; Ret ((s.1, s2), a).

Definition settings_store (has_ini : bool) : SettingsStore (S1 * S2) :=
  if has_ini then {|
    ReadKey64 key := on_fst (ReadKey64 key); WriteKey64 key val := write_fst (WriteKey64 key val);
    ReadKey32 key := on_fst (ReadKey32 key); WriteKey32 key val := write_fst (WriteKey32 key val);
    ReadKeyStr key := on_fst (ReadKeyStr key); WriteKeyStr key val := write_fst (WriteKeyStr key val) |}
  else {|
    ReadKey64 key := on_snd (ReadKey64 key); WriteKey64 key val := write_snd (WriteKey64 key val);
    ReadKey32 key := on_snd (ReadKey32 key); WriteKey32 key val := write_snd (WriteKey32 key val);
    ReadKeyStr key := on_snd (ReadKeyStr key); WriteKeyStr key val := write_snd (WriteKeyStr key val) |}.
End choice.
