(* ===== verification/SettingsProps.v ===== *)
(** SettingsProps: what is written to a setting is what is read from it, in both stores, and
    the other settings stay. *)

From Stdlib Require Import Ascii String.
From stdpp Require Import gmap.
From S2P Require Import Prelude CText Faults Labels ConfigText ConfigTextProps Settings.

(** ** Numbers *)

Definition digit (c : Z) : Prop := 48 <= c <= 57.

Lemma digit_value_10 c : digit c -> digit_value c = Some (c - 48).
Proof. intros Hc. unfold digit_value. by rewrite bool_decide_true. Qed.

Lemma digits_value_cons c acc s : digit c -> digits_value 10 acc (c :: s) = digits_value 10 (acc * 10 + (c - 48)) s.
Proof. intros Hc. cbn [digits_value]. rewrite digit_value_10 by done. unfold digit in Hc. by rewrite bool_decide_true by lia. Qed.

Lemma skip_spaces_number c s : 32 < c -> skip_spaces (c :: s) = c :: s.
Proof. intros Hc. unfold skip_spaces, is_space. cbn [scan]. by rewrite bool_decide_false by lia. Qed.

Lemma digits_value_snoc ds d m : Forall digit ds -> digit d -> digits_value 10 m (ds ++ [d]) = digits_value 10 m ds * 10 + (d - 48).
Proof.
  intros Hds Hd. revert m. induction Hds as [|c ds Hc Hds IH]; intros m; cbn [app]; rewrite !digits_value_cons by done; [done|apply IH].
Qed.

Lemma dec_digits_digits fuel n : 0 <= n -> Forall digit (dec_digits fuel n).
Proof.
  revert n. induction fuel as [|fuel IH]; intros n Hn; cbn [dec_digits]; [constructor|].
  case_bool_decide; [repeat constructor; lia|]. apply Forall_app. split; [apply IH; apply Z.div_pos; lia|].
  pose proof (Z.mod_pos_bound n 10). repeat constructor; lia.
Qed.

Lemma dec_digits_read fuel n : 0 <= n < 10 ^ Z.of_nat fuel -> digits_value 10 0 (dec_digits fuel n) = n.
Proof.
  revert n. induction fuel as [|fuel IH]; intros n Hn; cbn [dec_digits]; [cbn in *; lia|].
  pose proof (Z.mod_pos_bound n 10). case_bool_decide.
  - rewrite digits_value_cons by (unfold digit; lia). cbn [digits_value]. lia.
  - rewrite Nat2Z.inj_succ, Z.pow_succ_r in Hn by lia.
    rewrite digits_value_snoc by (first [apply dec_digits_digits; apply Z.div_pos; lia|unfold digit; lia]).
    rewrite IH by (split; [apply Z.div_pos; lia|apply Z.div_lt_upper_bound; lia]). pose proof (Z.div_mod n 10). lia.
Qed.

Lemma dec_digits_length fuel k n : 0 <= n < 10 ^ Z.of_nat k -> (0 < k)%nat -> (length (dec_digits fuel n) <= k)%nat.
Proof.
  revert k n. induction fuel as [|fuel IH]; intros k n Hn Hk; cbn [dec_digits]; [cbn; lia|].
  case_bool_decide; [cbn; lia|]. rewrite length_app. cbn [length]. destruct k as [|[|k]]; [lia|cbn in Hn; lia|].
  rewrite Nat2Z.inj_succ, Z.pow_succ_r in Hn by lia.
  enough (length (dec_digits fuel (n / 10)) <= S k)%nat by lia.
  apply IH; [|lia]. split; [apply Z.div_pos; lia|apply Z.div_lt_upper_bound; lia].
Qed.

(** A number has no leading zero, unless it is 0. *)
Lemma dec_digits_head fuel n : 0 <= n < 10 ^ Z.of_nat fuel -> (0 < fuel)%nat ->
  exists c ds, dec_digits fuel n = c :: ds /\ digit c /\ (c = 48 -> ds = []).
Proof.
  revert n. induction fuel as [|fuel IH]; intros n Hn Hf; [lia|]. cbn [dec_digits]. case_bool_decide as Hd.
  - exists (48 + n), []. split_and!; [done|unfold digit; lia|done].
  - rewrite Nat2Z.inj_succ, Z.pow_succ_r in Hn by lia.
    destruct fuel as [|fuel]; [cbn in Hn; lia|].
    destruct (IH (n / 10)) as (c & ds & Heq & Hc & Hz); [split; [apply Z.div_pos; lia|apply Z.div_lt_upper_bound; lia]|lia|].
    rewrite Heq. exists c, (ds ++ [48 + n mod 10]). split_and!; [done|done|]. intros ->. specialize (Hz eq_refl). subst ds.
    assert (1 <= n / 10) by (apply Z.div_le_lower_bound; lia).
    pose proof (dec_digits_read (S fuel) (n / 10)) as Hr. rewrite Heq in Hr. change (digits_value 10 0 [48]) with 0 in Hr.
    assert (n / 10 < 10 ^ Z.of_nat (S fuel)) by (apply Z.div_lt_upper_bound; lia). lia.
Qed.

Lemma number_base_dec c ds : digit c -> (c = 48 -> ds = []) -> number_base (c :: ds) = (10, c :: ds).
Proof.
  intros Hc Hz. destruct (decide (c = 48)) as [->|Hne]; [by rewrite Hz|]. unfold number_base.
  repeat match goal with |- context [match ?x with _ => _ end] => is_var x; destruct x; try done end.
Qed.

Lemma strtol_print w v : 1 < w <= 64 -> - 2 ^ (w - 1) <= v < 2 ^ (w - 1) -> strtol w (print_dec v) = v.
Proof.
  intros Hw Hv. assert (Hp : 2 ^ (w - 1) <= 2 ^ 63) by (apply Z.pow_le_mono_r; lia).
  change (2 ^ 63) with 9223372036854775808 in Hp. set (P := 2 ^ (w - 1)) in *. unfold strtol, print_dec. fold P.
  case_bool_decide as Hneg.
  - destruct (dec_digits_head 20 (- v)) as (c & ds & Heq & Hc & Hz); [cbn; lia|lia|].
    rewrite skip_spaces_number by lia. cbn [sign]. rewrite bool_decide_true by done.
    rewrite Heq, number_base_dec, <- Heq, dec_digits_read by (done || cbn; lia). lia.
  - destruct (dec_digits_head 20 v) as (c & ds & Heq & Hc & Hz); [cbn; lia|lia|]. pose proof Hc as Hc'. unfold digit in Hc'.
    rewrite Heq. rewrite skip_spaces_number by lia. cbn [sign]. rewrite !bool_decide_false by lia.
    rewrite number_base_dec, <- Heq, dec_digits_read by (done || cbn; lia). lia.
Qed.

(** ** What the laws of a store are *)

Definition ascii_char (c : Z) : Prop := 0 < c < 128 /\ c <> CR /\ c <> LF.

(** A name for both stores, and a string. *)
Definition key_ok (k : list Z) : Prop := token_ok k /\ Forall ascii_char k /\ (length k <= 300)%nat /\ (BACKSLASH ∉ k).
Definition str_ok (d : list Z) : Prop := data_ok d /\ Forall ascii_char d /\ (length d <= 511)%nat.

Section laws.
Context {S : Type} `{SettingsStore S} (ok : S -> Prop).

(** The other settings are the same in the two states. *)
Definition others (k : list Z) (s s' : S) : Prop := forall k2, key_ok k2 -> ~ same_token k2 k ->
  (ReadKey64 k2 s').2 = (ReadKey64 k2 s).2 /\ (ReadKey32 k2 s').2 = (ReadKey32 k2 s).2 /\ (ReadKeyStr k2 s').2 = (ReadKeyStr k2 s).2.

(** The call ends; it keeps the store well-formed and the other settings as they are, and when it
    returns TRUE the value is read back. *)
Definition writes {A} (k : list Z) (write : S -> checked (S * bool)) (read : S -> S * A) (v : A) : Prop :=
  forall s, ok s -> exists s' b, write s = Ret (s', b) /\ ok s' /\ others k s s' /\ (b = true -> read s' = (s', v)).

Class SettingsLaws := {
  write64_law k v : key_ok k -> - 2 ^ 63 <= v < 2 ^ 63 -> writes k (WriteKey64 k v) (ReadKey64 k) v;
  write32_law k v : key_ok k -> - 2 ^ 31 <= v < 2 ^ 31 -> writes k (WriteKey32 k v) (ReadKey32 k) v;
  writeStr_law k v : key_ok k -> str_ok v -> writes k (WriteKeyStr k v) (ReadKeyStr k) v;
}.
End laws.

(** ** The ini file *)

Lemma ascii_chars s : Forall ascii_char s -> Forall is_ascii s.
Proof. intros Hs. eapply Forall_impl; [exact Hs|]. unfold ascii_char, is_ascii. tauto. Qed.

(** A line of an ini file: blank, a comment, the header of a section, or a value. *)
Definition ini_comment (b : list Z) : Prop := head (skip_blanks b) ∈ [None; Some 59; Some 91].
Definition ini_value (b : list Z) : Prop := exists pre t sp sp' v, b = pre ++ t ++ sp ++ EQUALS :: sp' ++ v /\
  spaces pre /\ spaces sp /\ spaces sp' /\ token_ok t /\ (forall c, head v = Some c -> is_blank c = false) /\
  (length pre + length t + length sp + length sp' <= 400)%nat.
Definition ini_line (b : list Z) : Prop := Forall ascii_char b /\ (length b < 1000)%nat /\ (ini_comment b \/ ini_value b).

Lemma has_token_head t s : token_ok t -> (forall c, head s = Some c -> ~ token_char c \/ c = 59 \/ c = 91) -> has_token t s = false.
Proof.
  intros (Hall & Hne & H59 & H91) Hs. unfold has_token. apply bool_decide_eq_false. intros Heq.
  destruct t as [|x t]; [done|]. apply Forall_cons in Hall as [Hx _]. destruct s as [|c s]; [done|]. cbn [length take] in Heq.
  injection Heq as Hxc _. destruct (Hs c eq_refl) as [Hc|Hc].
  - apply Hc. by eapply token_char_fold.
  - cbn [head] in *. unfold fold_case in Hxc. revert Hxc. repeat case_bool_decide; intros; first [lia|destruct Hc; subst; congruence|idtac].
    all: assert (x = c) by lia; destruct Hc; subst; congruence.
Qed.

Lemma ascii_clean b c : Forall ascii_char b -> ~ ascii_char c -> c ∉ b.
Proof. intros Hall Hc Hin. by apply Hc, (proj1 (Forall_forall _ _) Hall). Qed.

Lemma ini_line_short b : ini_line b -> short_body b.
Proof.
  intros (Ha & Hlen & _). unfold line_room, short_body.
  split_and!; [apply (ascii_clean b LF); [done|]|apply (ascii_clean b 0); [done|]|unfold line_room; lia];
    unfold ascii_char, LF; lia.
Qed.

Lemma skip_blanks_end b : exists r, skip_blanks (b ++ [LF]) = skip_blanks b ++ r /\ r = [LF].
Proof.
  exists [LF]. split; [|done]. induction b as [|c b IH]; [done|]. cbn [app skip_blanks]. by destruct (is_blank c).
Qed.

Section ini_lines.
Context (t d : list Z) (Ht : key_ok t) (Hd : str_ok d).

Lemma comment_inert b : ini_comment b -> set_line t d (b ++ [LF]) = None /\ get_token_data_line t (b ++ [LF]) = None.
Proof.
  intros Hb. destruct Ht as [Ht' _]. destruct (skip_blanks_end b) as (r & Hs & ->).
  assert (Hhead : exists c s, skip_blanks (b ++ [LF]) = c :: s /\ c <> LT /\ is_blank c = false /\ (~ token_char c \/ c = 59 \/ c = 91)).
  { rewrite Hs. unfold ini_comment in Hb. destruct (skip_blanks b) as [|c s]; cbn [head app] in *.
    - exists LF, []. split_and!; [done|done|done|]. left. unfold token_char. set_solver.
    - exists c, (s ++ [LF]). split_and!; [done| | |]; set_unfold in Hb.
      all: destruct Hb as [?|[[= ->]|[[= ->]|[]]]]; first [done|by right; left|by right; right]. }
  destruct Hhead as (c & s & Heq & Hlt & Hsp & Hc).
  assert (Hno : has_token t (c :: s) = false) by (apply has_token_head; [done|]; by intros c' [= <-]).
  split.
  - unfold set_line, set_value. rewrite Heq, Hno. by case_bool_decide.
  - unfold get_token_data_line, token_value. rewrite Heq. cbn [skip_char]. rewrite bool_decide_false by done.
    by rewrite skip_blanks_here, Hno.
Qed.

Lemma value_line pre t' sp sp' v : spaces pre -> spaces sp -> spaces sp' -> token_ok t' ->
  (forall c, head v = Some c -> is_blank c = false) ->
  set_line t d ((pre ++ t' ++ sp ++ EQUALS :: sp' ++ v) ++ [LF]) =
    if decide (same_token t t') then Some ((pre ++ t' ++ sp ++ EQUALS :: sp' ++ d) ++ [LF]) else None.
Proof.
  intros Hpre Hsp Hsp' Ht' Hv. destruct Ht as [Hok _]. unfold set_line.
  replace ((pre ++ t' ++ sp ++ EQUALS :: sp' ++ v) ++ [LF]) with (pre ++ t' ++ sp ++ EQUALS :: sp' ++ v ++ [LF])
    by (rewrite <- !app_assoc; cbn [app]; by rewrite <- app_assoc).
  rewrite set_value_at by done. case_decide; [|done]. cbn [mbind option_bind]. rewrite skip_blanks_app by done.
  assert (Hskip : skip_blanks (v ++ [LF]) = v ++ [LF]).
  { destruct v as [|c v]; [done|]. apply skip_blanks_here. by apply Hv. }
  rewrite Hskip. f_equal.
  replace (pre ++ t' ++ sp ++ EQUALS :: sp' ++ v ++ [LF]) with ((pre ++ t' ++ sp ++ EQUALS :: sp') ++ (v ++ [LF]))
    by (by rewrite <- !app_assoc).
  rewrite length_app, Nat.add_sub, take_app_length. rewrite <- !app_assoc. cbn [app]. by rewrite <- app_assoc.
Qed.

Lemma line_inert b : ini_line b -> set_line t d (b ++ [LF]) = None -> get_token_data_line t (b ++ [LF]) = None.
Proof.
  intros (_ & _ & [Hc|Hv]) Hset; [by apply comment_inert|].
  destruct Hv as (pre & t' & sp & sp' & v & -> & Hpre & Hsp & Hsp' & Ht' & Hhead & _).
  rewrite value_line in Hset by done. case_decide as Hs; [done|]. rewrite <- !app_assoc. cbn [app].
  apply get_line_other; [done..|by destruct Ht|done].
Qed.

Lemma set_one_ini b : ini_line b -> exists b', set_one t d (b ++ [LF]) = b' ++ [LF] /\ ini_line b'.
Proof.
  intros Hb. pose proof Hb as (Ha & Hlen & [Hc|Hv]); unfold set_one.
  - rewrite (proj1 (comment_inert b Hc)). by exists b.
  - destruct Hv as (pre & t' & sp & sp' & v & -> & Hpre & Hsp & Hsp' & Ht' & Hhead & Hl).
    rewrite value_line by done. case_decide; [|by eexists]. cbn [default from_option id].
    eexists. split; [done|]. destruct Hd as ((_ & c & Hc & Hnsp & _) & Hda & Hdl). split_and!.
    + rewrite !Forall_app, !Forall_cons, !Forall_app in *. tauto.
    + repeat (rewrite !length_app; cbn [length]). lia.
    + right. exists pre, t', sp, sp', d. split_and!; [done..| |done]. intros c' Hc'. congruence.
Qed.

Lemma new_line_ini : ini_line (t ++ [32] ++ EQUALS :: [32] ++ d).
Proof.
  destruct Ht as (Hok & Hta & Htl & _), Hd as ((_ & c & Hc & Hnsp & _) & Hda & Hdl). split_and!.
  - apply Forall_app. split; [done|]. cbn [app].
    repeat (apply Forall_cons; split; [unfold ascii_char, EQUALS, CR, LF; lia|]). done.
  - repeat (rewrite !length_app; cbn [length app]). lia.
  - right. exists [], t, [32], [32], d. split_and!; [done|constructor|by repeat constructor|by repeat constructor|done| |cbn [length]; lia].
    intros c' Hc'. congruence.
Qed.
End ini_lines.

Section ini_laws.
Context `{TextStreamLaws encodable} (encodable_ascii : forall mode text, Forall (fun c => 0 < c < 128 /\ c <> CR) text -> encodable mode text).
Context `{Utf8Laws utf8_to_wchar wchar_to_utf8} (readable writable : list Z -> bool) (ini_file : list Z).

(** The file can be read and written, and holds lines of an ini file. *)
Definition ini_ok (fs : files) : Prop :=
  ini_file <> [] /\ exists wname bs bodies, utf8_to_wchar ini_file = Some wname /\
    readable wname = true /\ readable (tmp_name wname) = true /\ writable (tmp_name wname) = true /\ writable wname = true /\
    fs !! wname = Some bs /\ text_of bs = concat (text_lines bodies) /\ Forall ini_line bodies.

Abbreviation get_ini := (get_ini utf8_to_wchar wchar_to_utf8 readable ini_file).
Abbreviation set_ini := (set_ini utf8_to_wchar readable writable ini_file).

Lemma set_ini_spec k d fs : ini_ok fs -> key_ok k -> str_ok d ->
  exists fs', set_ini k d fs = (fs', true) /\ ini_ok fs' /\ get_ini k fs' = Some d /\
    forall k2, key_ok k2 -> ~ same_token k2 k -> get_ini k2 fs' = get_ini k2 fs.
Proof.
  intros (Hne & wname & bs & bodies & Hname & Hr & Hr' & Hw' & Hw & Hfs & Htext & Hall) Hk Hd.
  pose proof Hk as ((Hkall & Hkne & _) & Hka & _). pose proof Hd as ((_ & c & Hc & _) & Hda & _).
  assert (Hk0 : forall k, token_ok k -> k <> []) by (intros ? (_ & ? & _) ->; done).
  destruct (set_lines_map ini_line ini_line k d bodies (set_one_ini k d Hk Hd) (new_line_ini k d Hk Hd) Hall) as (bodies' & Hlines & Hall').
  destruct (set_token_is_read (encodable := encodable) utf8_to_wchar wchar_to_utf8 readable writable fs ini_file k d wname k d bs bodies bodies')
    as (fs' & bs' & Hset & _ & Hfs' & Htext' & Hget & Hothers & _).
  all: try done; try (apply Hk); try (apply Hd); try (by apply utf8_to_wchar_ascii, ascii_chars); try (by intros ->).
  - eapply Forall_impl; [exact Hall|]. intros b Hb. by apply ini_line_short.
  - eapply Forall_impl; [exact Hall'|]. intros b Hb. by apply ini_line_short.
  - apply Forall_fmap. eapply Forall_impl; [exact Hall|]. intros b Hb Hset. by eapply line_inert.
  - intros mode. apply encodable_ascii. rewrite set_text_lines, Hlines. apply Forall_concat, Forall_fmap.
    eapply Forall_impl; [exact Hall'|]. intros b (Hb & _). cbn. apply Forall_app. split.
    + eapply Forall_impl; [exact Hb|]. unfold ascii_char. tauto.
    + repeat constructor; unfold LF, CR; lia.
  - exists fs'. split_and!; [exact Hset| | |].
    + split; [done|]. exists wname, bs', bodies'. rewrite Htext', Hlines. by split_and!.
    + unfold get_ini. rewrite Hget. by apply wchar_to_utf8_ascii, ascii_chars.
    + intros k2 (Hok2 & Ha2 & _) Hne2. apply (Hothers k2 k2); [by apply Hk0|by apply utf8_to_wchar_ascii, ascii_chars|done|done].
Qed.

Lemma ini_writes {A} k d (read : option (list Z) -> A) v : key_ok k -> str_ok d -> read (Some d) = v ->
  writes (H := ini_store utf8_to_wchar wchar_to_utf8 readable writable ini_file) ini_ok k
    (fun fs => Ret (set_ini k d fs)) (fun fs => (fs, read (get_ini k fs))) v.
Proof.
  intros Hk Hd Hv fs Hfs. destruct (set_ini_spec k d fs Hfs Hk Hd) as (fs' & Hset & Hok & Hget & Hothers).
  exists fs', true. rewrite Hset. split_and!; [done|done| |by rewrite Hget, Hv].
  intros k2 Hk2 Hne. cbn. unfold ReadIniKey64, ReadIniKey32, ReadIniKeyStr. by rewrite Hothers.
Qed.

Lemma print_dec_str w n v : 1 < w <= 64 -> - 2 ^ (w - 1) <= v < 2 ^ (w - 1) -> 2 ^ (w - 1) < 10 ^ Z.of_nat n -> (0 < n <= 20)%nat ->
  str_ok (print_dec v) /\ (length (print_dec v) <= S n)%nat.
Proof.
  intros Hw Hv Hn Hn20. assert (Hp : 2 ^ (w - 1) <= 2 ^ 63) by (apply Z.pow_le_mono_r; lia).
  change (2 ^ 63) with 9223372036854775808 in Hp. set (P := 2 ^ (w - 1)) in *. unfold print_dec.
  assert (Habs : 0 <= Z.abs v < 10 ^ Z.of_nat n) by lia.
  pose proof (dec_digits_digits 20 (Z.abs v) ltac:(lia)) as Hdig.
  pose proof (dec_digits_length 20 n (Z.abs v) Habs ltac:(lia)) as Hlen.
  destruct (dec_digits_head 20 (Z.abs v)) as (c & ds & Heq & Hc & _); [cbn; lia|lia|]. unfold digit in Hc.
  assert (Hclean : forall s, Forall (fun c => digit c \/ c = 45) s -> Forall (fun c => c ∉ [0; LF; CR]) s /\ Forall ascii_char s).
  { intros s Hs. split; (eapply Forall_impl; [exact Hs|]); intros x Hx; unfold digit in Hx.
    - rewrite !not_elem_of_cons. unfold LF, CR. split_and!; try lia. apply not_elem_of_nil.
    - unfold ascii_char, LF, CR. lia. }
  assert (Hd' : Forall (fun c => digit c \/ c = 45) (dec_digits 20 (Z.abs v))) by (eapply Forall_impl; [exact Hdig|]; tauto).
  case_bool_decide as Hneg.
  - replace (- v) with (Z.abs v) by lia. destruct (Hclean (45 :: dec_digits 20 (Z.abs v))) as [H45 Ha]; [constructor; [by right|done]|].
    split; [|cbn [length]; lia]. split_and!; [split; [done|by exists 45]|done|cbn [length]; lia].
  - replace v with (Z.abs v) by lia. destruct (Hclean _ Hd') as [Hcl Ha]. split; [|lia].
    split_and!; [split; [done|]|done|lia]. rewrite Heq. exists c. split_and!; [done| |unfold QUOTE; lia].
    unfold is_blank. apply bool_decide_eq_false. lia.
Qed.

#[export] Instance ini_laws : SettingsLaws (H := ini_store utf8_to_wchar wchar_to_utf8 readable writable ini_file) ini_ok.
Proof.
  split.
  - intros k v Hk Hv. destruct (print_dec_str 64 19 v ltac:(lia) Hv) as [Hstr Hlen]; [cbn; lia|lia|].
    cbn [WriteKey64 ReadKey64 ini_store]. unfold WriteIniKey64, ReadIniKey64. rewrite take_ge by lia.
    apply (ini_writes k (print_dec v) (fun o => match o with Some str => strtol 64 str | None => 0 end)); [done..|by apply strtol_print].
  - intros k v Hk Hv. destruct (print_dec_str 32 10 v ltac:(lia) Hv) as [Hstr Hlen]; [cbn; lia|lia|].
    cbn [WriteKey32 ReadKey32 ini_store]. unfold WriteIniKey32, ReadIniKey32. rewrite take_ge by lia.
    apply (ini_writes k (print_dec v) (fun o => match o with Some str => strtol 32 str | None => 0 end)); [done..|by apply strtol_print].
  - intros k v Hk Hv. cbn [WriteKeyStr ReadKeyStr ini_store]. unfold WriteIniKeyStr, ReadIniKeyStr.
    apply (ini_writes k v (fun o => match o with Some val => take 511 val | None => [] end)); [done..|]. apply take_ge, Hv.
Qed.
End ini_laws.

(** ** The registry *)

(** What Windows documents: a value that is set is the one that is queried, the names of values
    do not depend on the case, and keys stay open to the program. *)
Class RegistryLaws {R} `{RegistryApi R} := {
  query_set root path name type data r r' : RegSetValue root path name type data r = Some r' ->
    RegQueryValue root path name r' = Some (type, data);
  query_set_other root path name type data r r' name2 : RegSetValue root path name type data r = Some r' ->
    ~ same_token name2 name -> RegQueryValue root path name2 r' = RegQueryValue root path name2 r;
  open_set root path name type data r r' root2 path2 : RegSetValue root path name type data r = Some r' ->
    RegOpenKey root2 path2 r' = RegOpenKey root2 path2 r;
  create_set root path name type data r r' root2 path2 : RegSetValue root path name type data r = Some r' ->
    RegCreateKey root2 path2 r = Some r -> RegCreateKey root2 path2 r' = Some r';
}.

Section registry_laws.
Context {R : Type} `{RegistryLaws R} (left_over : list Z -> nat -> list Z).

(** The key of the program exists and can be opened. *)
Definition registry_ok (r : R) : Prop :=
  RegOpenKey HKEY_CURRENT_USER SOFTWARE r = true /\ RegCreateKey HKEY_CURRENT_USER app_key r = Some r.

Lemma short_key n k : (BACKSLASH ∉ k) -> last_backslash n k = 0%nat.
Proof.
  intros Hk. induction n as [|n IH]; [done|]. cbn [last_backslash]. rewrite bool_decide_false; [done|].
  intros Hl. apply Hk. by apply list_elem_of_lookup_2 in Hl.
Qed.

Lemma get_key_short k type size r : registry_ok r -> key_ok k ->
  GetRegistryKey_ left_over HKEY_CURRENT_USER k type size r = (r, query_value left_over HKEY_CURRENT_USER app_key k type size r).
Proof.
  intros [Hopen Hcreate] (_ & _ & _ & Hk). unfold GetRegistryKey_. rewrite short_key by done.
  rewrite bool_decide_false by lia. by rewrite Hopen, Hcreate.
Qed.

Abbreviation store := (registry_store left_over).

Lemma registry_writes {A} k type data size (read : bool * list Z -> A) v : key_ok k -> (length data <= size)%nat ->
  (forall b, read (b, data ++ replicate (size - length data) 0) = v) ->
  writes (H := store) registry_ok k (SetRegistryKey_ HKEY_CURRENT_USER k type data)
    (fun r => let '(r, x) := GetRegistryKey_ left_over HKEY_CURRENT_USER k type size r in (r, read x)) v.
Proof.
  intros Hk Hlen Hread r Hr. pose proof Hk as (_ & _ & _ & Hbs). pose proof Hr as [Hopen Hcreate].
  unfold SetRegistryKey_. rewrite (bool_decide_false (BACKSLASH ∈ k)) by done. cbn [negb assert_that mbind checked_bind].
  rewrite Hcreate. destruct (RegOpenKey HKEY_CURRENT_USER [] r); [|by exists r, false].
  destruct (RegSetValue HKEY_CURRENT_USER app_key k type data r) as [r'|] eqn:Hset; [|by exists r, false].
  assert (Hr' : registry_ok r').
  { split; [by rewrite (open_set _ _ _ _ _ _ _ _ _ Hset)|by eapply create_set]. }
  exists r', true. split_and!; [done|done| |].
  - intros k2 Hk2 Hne. cbn. unfold ReadRegistryKey64, ReadRegistryKey32, ReadRegistryKeyStr.
    rewrite !get_key_short by done. unfold query_value. rewrite (query_set_other _ _ _ _ _ _ _ _ Hset Hne).
    destruct (RegQueryValue _ _ _ r) as [[? ?]|]; [|done]. by split_and!; case_bool_decide.
  - intros _. rewrite get_key_short by done. unfold query_value. rewrite (query_set _ _ _ _ _ _ _ Hset).
    rewrite bool_decide_true by done. by rewrite Hread.
Qed.

Lemma c_str_zeros d n : 0 ∉ d -> c_str (d ++ replicate n 0) = d.
Proof.
  induction d as [|c d IH]; intros Hd; [by destruct n|]. apply not_elem_of_cons in Hd as [Hc Hd].
  cbn [app c_str]. rewrite bool_decide_false by congruence. by rewrite IH.
Qed.

Lemma le_word_le_bytes_mod n z : le_word (le_bytes n z) = uwrap (8 * Z.of_nat n) z.
Proof.
  revert z. induction n as [|n IH]; intros z; cbn [le_bytes le_word]; [unfold uwrap; by rewrite Z.mod_1_r|].
  rewrite IH. unfold uwrap. rewrite Z.shiftr_div_pow2 by lia.
  replace (8 * Z.of_nat (S n)) with (8 + 8 * Z.of_nat n) by lia. rewrite Z.pow_add_r by lia.
  rewrite Z.rem_mul_r by lia. lia.
Qed.

Lemma signed_le_bytes n v : (0 < n)%nat -> - 2 ^ (8 * Z.of_nat n - 1) <= v < 2 ^ (8 * Z.of_nat n - 1) ->
  swrap (8 * Z.of_nat n) (le_word (le_bytes n v ++ replicate (n - length (le_bytes n v)) 0)) = v.
Proof.
  intros Hn Hv. rewrite length_le_bytes, Nat.sub_diag, app_nil_r, le_word_le_bytes_mod. set (w := 8 * Z.of_nat n) in *.
  unfold swrap, uwrap. rewrite Zplus_mod_idemp_l. assert (Hw : 2 ^ w = 2 * 2 ^ (w - 1)).
  { rewrite <- Z.pow_succ_r by lia. f_equal. lia. }
  rewrite Z.mod_small by lia. lia.
Qed.

#[export] Instance registry_laws : SettingsLaws (H := store) registry_ok.
Proof.
  assert (Hnum : forall A (x : R * (bool * list Z)) (f : list Z -> A),
    (let '(r, (_, val)) := x in (r, f val)) = (let '(r, y) := x in (r, f y.2))) by (by intros A [r [b val]]).
  split.
  - intros k v Hk Hv r Hr. cbn [ReadKey64 registry_store]. unfold ReadRegistryKey64. setoid_rewrite (Hnum _ _ (fun l => s64 (le_word l))).
    apply (registry_writes k REG_QWORD (le_bytes 8 v) 8 (fun x => s64 (le_word x.2))); [done|by rewrite length_le_bytes| |done].
    intros b. apply (signed_le_bytes 8); [lia|exact Hv].
  - intros k v Hk Hv r Hr. cbn [ReadKey32 registry_store]. unfold ReadRegistryKey32. setoid_rewrite (Hnum _ _ (fun l => s32 (le_word l))).
    apply (registry_writes k REG_DWORD (le_bytes 4 v) 4 (fun x => s32 (le_word x.2))); [done|by rewrite length_le_bytes| |done].
    intros b. apply (signed_le_bytes 4); [lia|exact Hv].
  - intros k v Hk Hv r Hr. cbn [ReadKeyStr registry_store]. unfold ReadRegistryKeyStr. setoid_rewrite (Hnum _ _ c_str).
    destruct Hv as (_ & Hva & Hlen).
    apply (registry_writes k REG_SZ v 511 (fun x => c_str x.2)); [done|done| |done].
    intros b. cbn [snd]. apply c_str_zeros. apply (ascii_clean v 0); [done|unfold ascii_char; lia].
Qed.
End registry_laws.

(** ** The choice of the store *)

Section choice_laws.
Context {S1 S2 : Type} (ini : SettingsStore S1) (reg : SettingsStore S2) (ok1 : S1 -> Prop) (ok2 : S2 -> Prop).
Context `{!SettingsLaws (H := ini) ok1} `{!SettingsLaws (H := reg) ok2}.

(** Only the store that is chosen has to be well-formed. *)
Definition chosen_ok (has_ini : bool) (s : S1 * S2) : Prop := if has_ini then ok1 s.1 else ok2 s.2.

Lemma writes_fst {A} k (write : S1 -> checked (S1 * bool)) (read : S1 -> S1 * A) v : writes (H := ini) ok1 k write read v ->
  writes (H := settings_store ini reg true) (chosen_ok true) k (write_fst write) (on_fst read) v.
Proof.
  intros Hw [s1 s2] Hok. destruct (Hw s1 Hok) as (s1' & b & Heq & Hok' & Hoth & Hread). exists (s1', s2), b.
  unfold write_fst, on_fst. cbn [fst snd]. rewrite Heq. split_and!; [done|done| |].
  - intros k2 Hk2 Hne. specialize (Hoth k2 Hk2 Hne). revert Hoth. cbn. unfold on_fst. cbn.
    by repeat match goal with |- context [let '(_, _) := ?x in _] => destruct x end.
  - intros Hb. by rewrite (Hread Hb).
Qed.

Lemma writes_snd {A} k (write : S2 -> checked (S2 * bool)) (read : S2 -> S2 * A) v : writes (H := reg) ok2 k write read v ->
  writes (H := settings_store ini reg false) (chosen_ok false) k (write_snd write) (on_snd read) v.
Proof.
  intros Hw [s1 s2] Hok. destruct (Hw s2 Hok) as (s2' & b & Heq & Hok' & Hoth & Hread). exists (s1, s2'), b.
  unfold write_snd, on_snd. cbn [fst snd]. rewrite Heq. split_and!; [done|done| |].
  - intros k2 Hk2 Hne. specialize (Hoth k2 Hk2 Hne). revert Hoth. cbn. unfold on_snd. cbn.
    by repeat match goal with |- context [let '(_, _) := ?x in _] => destruct x end.
  - intros Hb. by rewrite (Hread Hb).
Qed.

#[export] Instance choice_laws has_ini : SettingsLaws (H := settings_store ini reg has_ini) (chosen_ok has_ini).
Proof.
  destruct has_ini; split; intros k v Hk Hv; (apply writes_fst || apply writes_snd);
    first [by apply write64_law|by apply write32_law|by apply writeStr_law].
Qed.
End choice_laws.

(** C16: The settings. Whether they are in the ini file or in the registry, a write ends and keeps the
    store well-formed and every other setting as it was, and when it returns TRUE the value is what is read
    back: every 64-bit and 32-bit integer, both booleans, and every string of at most 511
    printable characters that does not start with a space or a quote. *)
Theorem settings_roundtrip `{TextStreamLaws encodable} `{Utf8Laws utf8_to_wchar wchar_to_utf8} `{RegistryLaws R}
  (encodable_ascii : forall mode text, Forall (fun c => 0 < c < 128 /\ c <> CR) text -> encodable mode text)
  readable writable ini_file (left_over : list Z -> nat -> list Z) (has_ini : bool) k :
  let store := settings_store (ini_store utf8_to_wchar wchar_to_utf8 readable writable ini_file) (registry_store left_over) has_ini in
  let ok := chosen_ok (ini_ok (utf8_to_wchar := utf8_to_wchar) readable writable ini_file) registry_ok has_ini in
  key_ok k ->
  (forall v, - 2 ^ 63 <= v < 2 ^ 63 -> writes (H := store) ok k (WriteSetting64 store k v) (ReadSetting64 store k) v) /\
  (forall v, - 2 ^ 31 <= v < 2 ^ 31 -> writes (H := store) ok k (WriteSetting32 store k v) (ReadSetting32 store k) v) /\
  (forall b, writes (H := store) ok k (WriteSettingBool store k b) (ReadSettingBool store k) b) /\
  (forall v, str_ok v -> writes (H := store) ok k (WriteSettingStr store k v) (ReadSettingStr store k) v).
Proof.
  intros store ok Hk. pose proof (ini_laws (encodable := encodable) encodable_ascii readable writable ini_file) as Hini.
  pose proof (registry_laws left_over) as Hreg.
  assert (Hlaws : SettingsLaws (H := store) ok) by (apply choice_laws; assumption).
  split_and!; intros v; [intros Hv; by apply write64_law|intros Hv; by apply write32_law| |intros Hv; by apply writeStr_law].
  intros s Hs. destruct (write32_law ok k (if v then 1 else 0) Hk ltac:(by destruct v) s Hs) as (s' & b & Heq & Hok & Hoth & Hread).
  exists s', b. split_and!; [exact Heq|done|done|]. intros Hb. unfold ReadSettingBool, ReadSetting32. rewrite (Hread Hb). by destruct v.
Qed.

(** ** A registry, with which the theorem is used *)

Definition memory_registry : RegistryApi (gmap (list Z) (Z * list Z)) := {|
  RegOpenKey _ _ _ := true;
  RegCreateKey _ _ r := Some r;
  RegQueryValue root path name r := if bool_decide (path = app_key) then r !! (fold_case <$> name) else None;
  RegSetValue root path name type data r :=
    if bool_decide (path = app_key) then Some (<[fold_case <$> name := (type, data)]> r) else None;
|}.

Lemma memory_registry_laws : RegistryLaws (H := memory_registry).
Proof.
  split; cbn; intros; repeat case_bool_decide; simplify_eq; try done.
  - by rewrite lookup_insert_eq.
  - rewrite lookup_insert_ne; [done|]. intros Heq. match goal with H : ~ same_token _ _ |- _ => apply H end. by unfold same_token.
Qed.

Theorem settings_roundtrip_witness :
  let ini := ini_store Some Some (fun _ => true) (fun _ => true) [102] in
  let reg := @registry_store _ memory_registry (fun _ _ => []) in
  let s := ({[ [102] := [59; 120; 13; 10] ]} : files, ∅ : gmap (list Z) (Z * list Z)) in
  let kept has_ini := exists s', WriteSetting64 (settings_store ini reg has_ini) (chars "LastUpdateCheck") (-5) s = Ret (s', true) /\
    ReadSetting64 (settings_store ini reg has_ini) (chars "LastUpdateCheck") s' = (s', -5) in
  kept true /\ kept false.
Proof.
  intros ini reg s kept. assert (Hkept : forall has_ini, kept has_ini); [|split; apply Hkept]. intros has_ini. unfold kept.
  destruct (@settings_roundtrip ascii_streams ascii_text ascii_stream_laws Some Some identity_utf8 _ memory_registry memory_registry_laws
    (fun mode text Hall => Forall_impl _ _ _ Hall (fun c Hc => conj (conj (Z.lt_le_incl _ _ (proj1 (proj1 Hc))) (proj2 (proj1 Hc))) (proj2 Hc)))
    (fun _ => true) (fun _ => true) [102] (fun _ _ => []) has_ini (chars "LastUpdateCheck")) as (H64 & _).
  - unfold key_ok, token_ok, token_char, ascii_char. apply (bool_decide_eq_true_1 _). vm_compute. reflexivity.
  - destruct (H64 (-5) ltac:(lia) s) as (s' & b & Hw & _ & _ & Hread).
    + destruct has_ini; [|by split]. split; [done|]. exists [102], [59; 120; 13; 10], [[59; 120]]. split_and!; try done.
      constructor; [|constructor]. split_and!; [repeat constructor; unfold CR, LF; lia|cbn; lia|left; unfold ini_comment; set_solver].
    + exists s'. assert (b = true) as ->.
      { destruct has_ini; vm_compute in Hw; by injection Hw as _ <-. }
      split; [exact Hw|by apply Hread].
Defined.
