(* ===== verification/Update.v ===== *)
(** Update: the reading of an update file, [get_token_data_buffer] and [parse_update] of
    src/src/parser.c, and the choice of an update of src/src/net.c. *)

From Stdlib Require Import Ascii String.
From S2P Require Import Prelude CText Labels ConfigText Settings.

(** ** [get_token_data_buffer] *)

(** The lines of the buffer: between braces the ends of lines do not count. *)
Fixpoint buffer_lines (curly_count : Z) (line s : list Z) : list (list Z) :=
  match s with
  | [] => [reverse line]
  | c :: s =>
      if bool_decide (curly_count = 0) && is_eol c then reverse line :: buffer_lines 0 [] s
      else
        let curly_count := if bool_decide (c = 123) then u32 (curly_count + 1) else curly_count in
        let curly_count := if bool_decide (c = 125) then u32 (curly_count - 1) else curly_count in
        buffer_lines curly_count (c :: line) s
  end.

(** The loop over the lines: [wdata] is what the last line that was read has. *)
Fixpoint buffer_loop (wtoken : list Z) (lines : list (list Z)) (j n : Z) (wdata : option (list Z)) : option (list Z) :=
  if bool_decide (j = n) then wdata
  else
    match lines with
    | [] => wdata
    | l :: lines =>
        let wdata := get_token_data_line wtoken l in
        buffer_loop wtoken lines (if wdata then u32 (j + 1) else j) n wdata
    end.

(** ** [get_sanitized_token_data_buffer] *)

(** A backslash and an [n] become the end of a line. *)
Fixpoint unescape (data : list Z) : list Z :=
  match data with
  | a :: (b :: data') as rest => if bool_decide (a = 92 /\ b = 110) then CR :: LF :: unescape data' else a :: unescape rest
  | _ => data
  end.

(** ** [parse_update] *)

Definition allowed_rtf_chars : list Z := chars "abcdefghijklmnopqrstuvwxyz|~-_:*'".
Definition allowed_std_chars : list Z :=
  CR :: LF :: chars " ABCDEFGHIJKLMNOPQRSTUVWXYZ0123456789!" ++ [34] ++ chars "$%^&+=<>(){}[].,;#@/?".

(** The loop that blanks what is not allowed; [strchr] finds the terminator. *)
Fixpoint sanitize_update (buf : list Z) : list Z :=
  match buf with
  | [] => []
  | c :: buf =>
      (if bool_decide (c = 92) then if bool_decide (default 0 (head buf) ∈ 0 :: allowed_rtf_chars) then c else 32
       else if bool_decide (c ∈ allowed_rtf_chars \/ c ∈ allowed_std_chars) then c else 32) :: sanitize_update buf
  end.

(** [strtok]: the runs of characters that are not the delimiter. *)
Fixpoint strtok (delim : Z) (token s : list Z) : list (list Z) :=
  let emit (rest : list (list Z)) := match token with [] => rest | _ => reverse token :: rest end in
  match s with
  | [] => emit []
  | c :: s => if bool_decide (c = delim) then emit (strtok delim [] s) else strtok delim (c :: token) s
  end.

Record rufus_update := mkUpdate {
  version : list Z; platform_min : list Z; download_url : option (list Z); release_notes : option (list Z);
}.

(** The first of the defaults are replaced with the values. *)
Definition set_numbers (defaults values : list Z) : list Z :=
  let values := take (length defaults) values in values ++ drop (length values) defaults.

Section update.
(** The conversions of Windows. *)
Context (utf8_to_wchar wchar_to_utf8 : list Z -> option (list Z)).

(** [buffer] is the whole block, with its terminator. *)
Definition get_token_data_buffer (token : list Z) (n : Z) (buffer : list Z) : option (list Z) :=
  if bool_decide (Z.of_nat (length buffer) <= 4 \/ 65536 < Z.of_nat (length buffer)) then None
  else if negb (bool_decide (last buffer = Some 0)) then None
  else
    wbuffer ← utf8_to_wchar (c_str buffer);
    wtoken ← utf8_to_wchar token;
    wdata ← buffer_loop wtoken (buffer_lines 0 [] wbuffer) 0 n None;
    wchar_to_utf8 wdata.

Definition get_sanitized_token_data_buffer (token : list Z) (n : Z) (buffer : list Z) : option (list Z) :=
  unescape <$> get_token_data_buffer token n buffer.

(** [download_url_name] is the name for the architecture, in lower case. *)
Definition parse_update (download_url_name : list Z) (buf : list Z) (update : rufus_update) : rufus_update :=
  let len := Z.of_nat (length buf) in
  if bool_decide (len < 2 \/ 64 * 1024 < len) then update
  else if negb (bool_decide (last buf = Some 0)) || bool_decide (buf !! (length buf - 2)%nat = Some 92) then update
  else
    let buf := sanitize_update (c_str buf) ++ [0] in
    let get token := get_sanitized_token_data_buffer token 1 buf in
    let numbers data := match data with Some data => strtok 46 [] data | None => [] end in
    {| version := set_numbers [0; 0; 0] ((fun t => u16 (atoi t)) <$> numbers (get (chars "version")));
       platform_min := set_numbers [5; 2] ((fun t => u32 (atoi t)) <$> numbers (get (chars "platform_min")));
       download_url := match get download_url_name with Some url => Some url | None => get (chars "download_url") end;
       release_notes := get (chars "release_notes") |}.
End update.

(** ** The choice of an update: [CheckForUpdatesThread] *)

(** Three 16-bit numbers as one. *)
Definition to_uint64_t (v : list Z) : Z := foldl (fun ret x => u64 (Z.shiftl ret 16 + x)) 0 v.

Definition found_new_version (force_update : bool) (rufus_version : list Z) (major minor : Z) (update : rufus_update) : bool :=
  andb (orb (bool_decide (to_uint64_t rufus_version < to_uint64_t (version update))) force_update)
    (match platform_min update with
     | [m0; m1] => orb (bool_decide (m0 < major)) (andb (bool_decide (major = m0)) (bool_decide (m1 <= minor)))
     | _ => false
     end).
