(* ===== verification/UpdateProps.v ===== *)
(** UpdateProps: what [parse_update] takes from an update file. *)

From Stdlib Require Import Ascii String.
From S2P Require Import Prelude CText Labels ConfigText ConfigTextProps Settings SettingsProps Update.

(** ** Parts of a text *)

Definition infix (s l : list Z) : Prop := exists x y, l = x ++ s ++ y.

Lemma infix_trans s l m : infix s l -> infix l m -> infix s m.
Proof. intros (x & y & ->) (x' & y' & ->). exists (x' ++ x), (y ++ y'). by rewrite <- !app_assoc. Qed.

Lemma infix_refl s : infix s s.
Proof. exists [], []. by rewrite app_nil_r. Qed.

Lemma infix_suffix x s l : infix (x ++ s) l -> infix s l.
Proof. apply infix_trans. exists x, []. by rewrite app_nil_r. Qed.

Lemma infix_prefix s y l : infix (s ++ y) l -> infix s l.
Proof. apply infix_trans. by exists [], y. Qed.

Lemma skip_blanks_infix s : infix (skip_blanks s) s.
Proof. destruct (skip_blanks_split s) as (sp & _ & Heq). exists sp, []. by rewrite app_nil_r, <- Heq. Qed.

Lemma skip_char_infix c s : infix (skip_char c s) s.
Proof. destruct s as [|x s]; [apply infix_refl|]. cbn [skip_char]. case_bool_decide; [|apply infix_refl]. exists [x], []. by rewrite app_nil_r. Qed.

Lemma drop_infix n s : infix (drop n s) s.
Proof. exists (take n s), []. by rewrite app_nil_r, take_drop. Qed.

Lemma until_end_infix q x s : infix (until_end q x s) s.
Proof.
  enough (exists y, s = until_end q x s ++ y) as [y Hy] by (exists [], y; by rewrite <- Hy).
  induction s as [|c s [y IH]]; [by exists []|]. cbn [until_end]. destruct (_ || _); [by exists (c :: s)|].
  exists y. cbn [app]. by rewrite <- IH.
Qed.

Lemma strip_eol_infix s : infix (strip_eol s) s.
Proof.
  enough (exists y, s = strip_eol s ++ y) as [y Hy] by (exists [], y; by rewrite <- Hy).
  induction s as [|c s [y IH]]; [by exists []|]. cbn [strip_eol].
  destruct (strip_eol s) as [|c' s']; [destruct (is_eol c); [by exists (c :: s)|by exists s]|].
  exists y. cbn [app] in *. by rewrite <- IH.
Qed.

Lemma token_data_infix t l d : get_token_data_line t l = Some d -> infix d l.
Proof.
  unfold get_token_data_line. destruct (token_value t l) as [[xml s]|] eqn:Hv; [|done]. cbn [mbind option_bind].
  case_bool_decide; [done|]. intros [= <-].
  eapply infix_trans; [apply strip_eol_infix|]. eapply infix_trans; [apply until_end_infix|].
  eapply infix_trans; [apply skip_char_infix|]. eapply infix_trans; [apply skip_blanks_infix|].
  unfold token_value in Hv. destruct (has_token _ _); [|done].
  destruct (skip_blanks (drop _ _)) as [|c r] eqn:Hr; [done|].
  assert (s = r) as -> by (revert Hv; repeat case_bool_decide; congruence).
  apply (infix_trans r (c :: r)); [exists [c], []; by rewrite app_nil_r|]. rewrite <- Hr.
  eapply infix_trans; [apply skip_blanks_infix|]. eapply infix_trans; [apply drop_infix|].
  eapply infix_trans; [apply skip_blanks_infix|]. eapply infix_trans; [apply skip_char_infix|]. apply skip_blanks_infix.
Qed.

Lemma buffer_lines_infix s cc line : Forall (fun l => infix l (reverse line ++ s)) (buffer_lines cc line s).
Proof.
  revert cc line. induction s as [|c s IH]; intros cc line; cbn [buffer_lines].
  - constructor; [|constructor]. rewrite app_nil_r. apply infix_refl.
  - destruct (_ && _).
    + constructor; [by exists [], (c :: s)|]. eapply Forall_impl; [apply (IH 0 [])|]. intros l Hl.
      apply (infix_trans _ _ _ Hl). exists (reverse line ++ [c]), []. rewrite app_nil_r, <- app_assoc. done.
    + eapply Forall_impl; [apply IH|]. intros l Hl. by rewrite reverse_cons, <- app_assoc in Hl.
Qed.

Lemma buffer_loop_infix t lines j n w d (P : list Z -> Prop) : (forall d, w = Some d -> P d) ->
  Forall (fun l => forall d, infix d l -> P d) lines -> buffer_loop t lines j n w = Some d -> P d.
Proof.
  intros Hw Hall. revert j w Hw. induction Hall as [|l lines Hl Hall IH]; intros j w Hw; cbn [buffer_loop];
    (case_bool_decide; [by apply Hw|]); [by apply Hw|].
  apply IH. intros d' Hd'. by apply Hl, (token_data_infix t).
Qed.

(** ** Sanitized text *)

(** What an RTF viewer is shown: only characters that are allowed, and a backslash only before a
    character that is allowed in a control word. *)
Fixpoint rtf_safe (s : list Z) : Prop :=
  match s with
  | [] => True
  | c :: s =>
      (c = 92 -> match s with b :: _ => b ∈ allowed_rtf_chars | [] => True end) /\
      (c = 92 \/ c ∈ allowed_rtf_chars \/ c ∈ allowed_std_chars) /\ rtf_safe s
  end.

Lemma rtf_safe_suffix x s : rtf_safe (x ++ s) -> rtf_safe s.
Proof. induction x as [|c x IH]; [done|]. cbn. tauto. Qed.

Lemma rtf_safe_prefix s y : rtf_safe (s ++ y) -> rtf_safe s.
Proof. induction s as [|c s IH]; [done|]. cbn. intros (H & Hc & Hs). split_and!; [|done|by apply IH]. by destruct s. Qed.

Lemma rtf_safe_infix s l : infix s l -> rtf_safe l -> rtf_safe s.
Proof. intros (x & y & ->) Hl. eapply rtf_safe_prefix, rtf_safe_suffix, Hl. Qed.

Lemma rtf_not_backslash : (92 ∉ allowed_rtf_chars) /\ (92 ∉ allowed_std_chars) /\ (0 ∉ allowed_rtf_chars).
Proof. split_and!; apply (bool_decide_eq_true_1 _); vm_compute; reflexivity. Qed.

Lemma sanitize_update_safe buf : (0 ∉ buf) -> rtf_safe (sanitize_update buf).
Proof.
  destruct rtf_not_backslash as (Hr & Hs & _).
  induction buf as [|c buf IH]; intros H0; [done|]. apply not_elem_of_cons in H0 as [Hc0 H0]. cbn [sanitize_update rtf_safe].
  assert (H32 : 32 ∈ allowed_std_chars) by (apply (bool_decide_eq_true_1 _); vm_compute; reflexivity).
  split_and!; [|case_bool_decide; case_bool_decide; tauto|by apply IH].
  case_bool_decide as Hc; case_bool_decide as Hb; try done.
  intros _. destruct buf as [|b buf]; [done|]. cbn [head default from_option id sanitize_update] in *.
  apply not_elem_of_cons in H0 as [Hb0 _]. apply elem_of_cons in Hb as [?|Hb]; [congruence|].
  rewrite (bool_decide_false (b = 92)) by (intros ->; done). by rewrite bool_decide_true by (by left).
Qed.

Lemma unescape_safe s : rtf_safe s -> rtf_safe (unescape s).
Proof.
  remember (length s) as n eqn:Hn. revert s Hn. induction n as [n IH] using lt_wf_ind. intros [|a [|b s]] Hn Hs; [done..|].
  cbn [unescape]. case_bool_decide as Hab.
  - assert (CR ∈ allowed_std_chars /\ LF ∈ allowed_std_chars) as [HCR HLF]
      by (split; apply (bool_decide_eq_true_1 _); vm_compute; reflexivity).
    cbn [rtf_safe] in *. split_and!; [done|by right; right|done|by right; right|].
    apply (IH (length s)); [cbn in Hn; lia|done|tauto].
  - assert (Hrec : rtf_safe (unescape (b :: s))) by (apply (IH (length (b :: s))); [cbn in *; lia|done|by destruct Hs as (_ & _ & ?)]).
    destruct Hs as (Ha & Hall & _). cbn [rtf_safe]. split_and!; [|done|done]. intros ->. specialize (Ha eq_refl).
    destruct rtf_not_backslash as (Hr & _). assert (b <> 92) by (intros ->; done).
    destruct s as [|c s]; cbn [unescape]; [done|]. rewrite bool_decide_false by tauto. done.
Qed.

Lemma allowed_ascii c : c = 92 \/ c ∈ allowed_rtf_chars \/ c ∈ allowed_std_chars -> is_ascii c.
Proof.
  assert (Hr : Forall is_ascii allowed_rtf_chars) by (unfold is_ascii; apply (bool_decide_eq_true_1 _); vm_compute; reflexivity).
  assert (Hs : Forall is_ascii allowed_std_chars) by (unfold is_ascii; apply (bool_decide_eq_true_1 _); vm_compute; reflexivity).
  rewrite Forall_forall in Hr, Hs. intros [->|[Hc|Hc]]; [unfold is_ascii; lia|by apply Hr|by apply Hs].
Qed.

Lemma rtf_safe_ascii s : rtf_safe s -> Forall is_ascii s.
Proof. induction s as [|c s IH]; [constructor|]. intros (_ & Hc & Hs). constructor; [by apply allowed_ascii|by apply IH]. Qed.

Lemma c_str_no_zero s : 0 ∉ c_str s.
Proof.
  induction s as [|c s IH]; [apply not_elem_of_nil|]. cbn [c_str]. case_bool_decide; [apply not_elem_of_nil|].
  apply not_elem_of_cons. by split.
Qed.

Lemma c_str_terminated s : Forall is_ascii s -> c_str (s ++ [0]) = s.
Proof.
  induction 1 as [|c s Hc Hs IH]; [done|]. unfold is_ascii in Hc. cbn [app c_str]. rewrite bool_decide_false by lia. by rewrite IH.
Qed.

(** ** What the structure is given *)

Section update.
Context `{Utf8Laws utf8_to_wchar wchar_to_utf8}.

Abbreviation get := (get_sanitized_token_data_buffer utf8_to_wchar wchar_to_utf8).

Lemma get_sanitized_safe token n s d : rtf_safe s -> get token n (s ++ [0]) = Some d -> rtf_safe d.
Proof.
  intros Hs Hd. unfold get_sanitized_token_data_buffer in Hd.
  destruct (get_token_data_buffer _ _ _ _ _) as [d'|] eqn:Hget; [|done]. injection Hd as <-. apply unescape_safe.
  unfold get_token_data_buffer in Hget. case_bool_decide; [done|]. destruct (negb _); [done|].
  pose proof (rtf_safe_ascii s Hs) as Ha. rewrite c_str_terminated in Hget by done. pose proof (utf8_to_wchar_ascii s Ha) as Hu. rewrite Hu in Hget. cbn [mbind option_bind] in Hget.
  destruct (utf8_to_wchar token) as [t|]; [|done]. cbn [mbind option_bind] in Hget.
  destruct (buffer_loop _ _ _ _ _) as [w|] eqn:Hw; [|done]. cbn [mbind option_bind] in Hget.
  apply (buffer_loop_infix t _ _ _ _ w rtf_safe) in Hw; [|done|].
  - pose proof (wchar_to_utf8_ascii w (rtf_safe_ascii w Hw)) as Hd. rewrite Hd in Hget. by injection Hget as <-.
  - eapply Forall_impl; [apply buffer_lines_infix|]. intros l Hl d0 Hd0. eapply rtf_safe_infix; [|exact Hs].
    exact (infix_trans _ _ _ Hd0 Hl).
Qed.

Lemma set_numbers_range (P : Z -> Prop) defaults values : Forall P defaults -> Forall P values ->
  length (set_numbers defaults values) = length defaults /\ Forall P (set_numbers defaults values).
Proof.
  intros Hd Hv. unfold set_numbers. rewrite length_app, length_drop, length_take. split; [lia|].
  apply Forall_app. split; [by apply Forall_take|by apply Forall_drop].
Qed.

(** C19: Untrusted update data. Whatever the bytes of an update file are, the address and the
    release notes that parse_update keeps for the rich text control and for the download are made of the allowed
    characters only, with a backslash only before a character of a control word, and the numbers
    fit in their fields; or the file is refused and the structure is unchanged. *)
Theorem update_data_is_sanitized download_url_name buf update :
  let u := parse_update utf8_to_wchar wchar_to_utf8 download_url_name buf update in
  u = update \/
  (forall s, download_url u = Some s \/ release_notes u = Some s -> rtf_safe s) /\
  length (version u) = 3%nat /\ Forall (fun n => 0 <= n < 2 ^ 16) (version u) /\
  length (platform_min u) = 2%nat /\ Forall (fun n => 0 <= n < 2 ^ 32) (platform_min u).
Proof.
  intros u. unfold u, parse_update. case_bool_decide; [by left|]. destruct (_ || _); [by left|]. right.
  pose proof (sanitize_update_safe (c_str buf) (c_str_no_zero buf)) as Hs. revert Hs. generalize (sanitize_update (c_str buf)).
  intros s Hs. cbn [download_url release_notes version platform_min]. split.
  - intros d [Hd|Hd]; [|by eapply get_sanitized_safe].
    destruct (get download_url_name 1 (s ++ [0])) as [d'|] eqn:Hname; [injection Hd as <-|]; by eapply get_sanitized_safe.
  - assert (Hw : forall w l, 0 <= w -> Forall (fun n => 0 <= n < 2 ^ w) ((fun t => uwrap w (atoi t)) <$> l)).
    { intros w l Hw. apply Forall_fmap, Forall_true. intros t. by apply uwrap_range. }
    match goal with |- length (set_numbers _ ?v) = _ /\ _ /\ length (set_numbers _ ?p) = _ /\ _ =>
      destruct (set_numbers_range (fun n => 0 <= n < 2 ^ 16) [0; 0; 0] v) as [Hvl Hv]; [by repeat constructor|by apply Hw|];
      destruct (set_numbers_range (fun n => 0 <= n < 2 ^ 32) [5; 2] p) as [Hpl Hp]; [by repeat constructor|by apply Hw|]
    end.
    by split_and!.
Qed.
End update.

(** A malicious update file: the backslash that could start a command is blanked. *)
Theorem update_data_is_sanitized_witness :
  let u := parse_update Some Some (chars "download_url_x64") (chars "release_notes = \Object" ++ [LF; 0]) (mkUpdate [] [] None None) in
  release_notes u = Some (chars "Object") /\ rtf_safe (chars "Object").
Proof.
  intros u. assert (Hn : release_notes u = Some (chars "Object")) by (vm_compute; reflexivity). split; [exact Hn|].
  destruct (@update_data_is_sanitized Some Some identity_utf8 (chars "download_url_x64") (chars "release_notes = \Object" ++ [LF; 0]) (mkUpdate [] [] None None))
    as [Hu|[Hsafe _]].
  - exfalso. apply (f_equal release_notes) in Hu. fold u in Hu. rewrite Hn in Hu. discriminate Hu.
  - apply Hsafe. right. exact Hn.
Defined.

(** ** An update file that is well-formed *)

Definition plain_char (c : Z) : Prop := (c ∈ allowed_rtf_chars ++ allowed_std_chars) /\ (c ∉ [CR; LF; 123; 125]).
Definition plain_value (v : list Z) : Prop := data_ok v /\ Forall plain_char v.

Definition update_line (k v : list Z) : list Z := k ++ [32] ++ EQUALS :: [32] ++ v.

(** The numbers of a version, separated by dots. *)
Fixpoint print_numbers (ns : list Z) : list Z :=
  match ns with [] => [] | [n] => print_dec n | n :: ns => print_dec n ++ 46 :: print_numbers ns end.

Definition update_bodies (ver plat : list Z) (url notes : list Z) : list (list Z) :=
  [update_line (chars "version") (print_numbers ver); update_line (chars "platform_min") (print_numbers plat);
   update_line (chars "download_url") url; update_line (chars "release_notes") notes].

Definition update_file (ver plat url notes : list Z) : list Z := concat (text_lines (update_bodies ver plat url notes)).

Lemma buffer_loop_first t lines : lines <> [] -> buffer_loop t lines 0 1 None = head (omap (get_token_data_line t) lines).
Proof.
  intros _. enough (forall w, buffer_loop t lines 0 1 w = match omap (get_token_data_line t) lines with
    | d :: _ => Some d | [] => if decide (lines = []) then w else None end) as Hgen.
  { rewrite Hgen. destruct (omap _ _); [|done]. by case_decide. }
  induction lines as [|l lines IH]; intros w; cbn [buffer_loop omap list_omap]; rewrite bool_decide_false by lia; [by rewrite decide_True|].
  destruct (get_token_data_line t l) as [d|]; [by destruct lines|]. rewrite IH.
  destruct (omap _ lines); [|done]. by destruct (decide (lines = [])), (decide (l :: lines = [])).
Qed.

Lemma buffer_lines_body b line rest : Forall (fun c => c ∉ [CR; LF; 123; 125]) b ->
  buffer_lines 0 line (b ++ LF :: rest) = (reverse line ++ b) :: buffer_lines 0 [] rest.
Proof.
  intros Hb. revert line. induction Hb as [|c b Hc Hb IH]; intros line; cbn [app buffer_lines].
  - rewrite app_nil_r. done.
  - rewrite !not_elem_of_cons in Hc. unfold CR, LF in *.
    assert (Heol : is_eol c = false) by (unfold is_eol, CR, LF; apply bool_decide_eq_false; lia).
    rewrite Heol, andb_false_r, !bool_decide_false by lia. rewrite IH, reverse_cons, <- app_assoc. done.
Qed.

Lemma buffer_lines_bodies bodies : Forall (Forall (fun c => c ∉ [CR; LF; 123; 125])) bodies ->
  buffer_lines 0 [] (concat (text_lines bodies)) = bodies ++ [[]].
Proof.
  induction 1 as [|b bodies Hb Hall IH]; [done|].
  change (text_lines (b :: bodies)) with ((b ++ [LF]) :: text_lines bodies). cbn [concat].
  rewrite <- app_assoc. cbn [app]. rewrite buffer_lines_body by done. by rewrite IH.
Qed.

Lemma sanitize_plain s : Forall (fun c => c <> 92 /\ (c ∈ allowed_rtf_chars \/ c ∈ allowed_std_chars)) s -> sanitize_update s = s.
Proof.
  induction 1 as [|c s [Hc Hin] Hs IH]; [done|]. cbn [sanitize_update].
  rewrite bool_decide_false, bool_decide_true by done. by rewrite IH.
Qed.

Lemma unescape_plain s : 92 ∉ s -> unescape s = s.
Proof.
  induction s as [|a s IH]; intros Hs; [done|]. apply not_elem_of_cons in Hs as [Ha Hs]. cbn [unescape].
  destruct s as [|b s]; [done|]. rewrite bool_decide_false by (intros [? _]; congruence). by rewrite IH.
Qed.

(** ** Numbers *)

Lemma strtok_number ds token rest : Forall digit ds -> strtok 46 token (ds ++ 46 :: rest) =
  match reverse token ++ ds with [] => strtok 46 [] rest | t => t :: strtok 46 [] rest end.
Proof.
  intros Hds. revert token. induction Hds as [|c ds Hc Hds IH]; intros token; cbn [app strtok].
  - rewrite bool_decide_true by done. rewrite app_nil_r. destruct token as [|x token]; [done|].
    destruct (reverse (x :: token)) eqn:Hr; [|done]. by apply (f_equal length) in Hr; rewrite length_reverse in Hr.
  - unfold digit in Hc. rewrite bool_decide_false by lia. rewrite IH, reverse_cons, <- app_assoc. done.
Qed.

Lemma strtok_last ds token : Forall digit ds -> strtok 46 token ds = match reverse token ++ ds with [] => [] | t => [t] end.
Proof.
  intros Hds. revert token. induction Hds as [|c ds Hc Hds IH]; intros token; cbn [app strtok].
  - rewrite app_nil_r. destruct token as [|x token]; [done|].
    destruct (reverse (x :: token)) eqn:Hr; [|done]. by apply (f_equal length) in Hr; rewrite length_reverse in Hr.
  - unfold digit in Hc. rewrite bool_decide_false by lia. rewrite IH, reverse_cons, <- app_assoc. done.
Qed.

Definition number_ok (n : Z) : Prop := 0 <= n < 2 ^ 31.

Lemma print_dec_digits n : number_ok n -> exists c ds, print_dec n = c :: ds /\ Forall digit (c :: ds) /\ digits_value 10 0 (c :: ds) = n.
Proof.
  unfold number_ok. intros Hn. unfold print_dec. rewrite bool_decide_false by lia.
  destruct (dec_digits_head 20 n) as (c & ds & Heq & Hc & _); [cbn; lia|lia|]. exists c, ds.
  split_and!; [done|rewrite <- Heq; apply dec_digits_digits; lia|rewrite <- Heq; apply dec_digits_read; cbn; lia].
Qed.

Lemma strtok_numbers ns : Forall number_ok ns -> strtok 46 [] (print_numbers ns) = print_dec <$> ns.
Proof.
  induction 1 as [|n ns Hn Hns IH]; [done|].
  destruct (print_dec_digits n Hn) as (c & ds & Heq & Hds & _). destruct ns as [|n' ns].
  - cbn [print_numbers fmap list_fmap]. rewrite Heq. by rewrite strtok_last.
  - change (print_numbers (n :: n' :: ns)) with (print_dec n ++ 46 :: print_numbers (n' :: ns)).
    rewrite Heq, strtok_number by done. cbn [reverse rev_append app fmap list_fmap] in *. by rewrite IH, Heq.
Qed.

Lemma atoi_print n : number_ok n -> atoi (print_dec n) = n.
Proof.
  intros Hn. destruct (print_dec_digits n Hn) as (c & ds & -> & Hds & Hr). apply Forall_cons in Hds as [Hc _].
  unfold digit, number_ok in *. unfold atoi. rewrite skip_spaces_number by lia. cbn [sign]. rewrite !bool_decide_false by lia. rewrite Hr. lia.
Qed.

(** ** The whole file *)

Definition update_names : list (list Z) := [chars "version"; chars "platform_min"; chars "download_url"; chars "release_notes"].

Lemma get_update_line k v t : token_ok k -> token_ok t -> data_ok v ->
  get_token_data_line t (update_line k v) = if decide (same_token t k) then Some v else None.
Proof.
  intros Hk Ht Hv. unfold update_line.
  rewrite <- (get_line_at [] k [32] [32] v [] t); try done; [|repeat constructor..].
  cbn [app]. by rewrite app_nil_r.
Qed.

Lemma get_empty_line t : token_ok t -> get_token_data_line t [] = None.
Proof.
  intros (Hall & Hne & _). unfold get_token_data_line, token_value. cbn [skip_blanks skip_char].
  unfold has_token. rewrite take_nil. destruct t; [done|]. by rewrite bool_decide_false.
Qed.

Lemma update_names_ok : Forall token_ok update_names.
Proof. unfold token_ok, token_char. apply (bool_decide_eq_true_1 _). vm_compute. reflexivity. Qed.

Lemma print_numbers_plain ns : ns <> [] -> Forall number_ok ns -> plain_value (print_numbers ns).
Proof.
  intros Hne Hns. assert (Hall : Forall (fun c => digit c \/ c = 46) (print_numbers ns)).
  { clear Hne. induction Hns as [|n ns Hn Hns IH]; [constructor|].
    destruct (print_dec_digits n Hn) as (c & ds & Heq & Hds & _).
    assert (Forall (fun c => digit c \/ c = 46) (print_dec n)) by (rewrite Heq; eapply Forall_impl; [exact Hds|]; tauto).
    destruct ns as [|n' ns]; [done|]. change (print_numbers (n :: n' :: ns)) with (print_dec n ++ 46 :: print_numbers (n' :: ns)).
    apply Forall_app. split; [done|]. constructor; [by right|done]. }
  assert (Hdig : forall c, digit c \/ c = 46 -> c ∈ allowed_std_chars).
  { intros c Hc. unfold digit in Hc. assert (c = 48 \/ c = 49 \/ c = 50 \/ c = 51 \/ c = 52 \/ c = 53 \/ c = 54 \/ c = 55 \/ c = 56 \/ c = 57 \/ c = 46) as H by lia.
    repeat destruct H as [->|H]; try (apply (bool_decide_eq_true_1 _); vm_compute; reflexivity). subst c. apply (bool_decide_eq_true_1 _). vm_compute. reflexivity. }
  split; [split|].
  - eapply Forall_impl; [exact Hall|]. intros c Hc. unfold digit, LF, CR in *. rewrite !not_elem_of_cons. split_and!; try lia. apply not_elem_of_nil.
  - destruct Hns as [|n ns Hn Hns]; [done|]. destruct (print_dec_digits n Hn) as (c & ds & Heq & Hds & _).
    apply Forall_cons in Hds as [Hc _]. unfold digit in Hc.
    exists c. split_and!; [destruct ns; cbn [print_numbers]; by rewrite Heq|unfold is_blank; apply bool_decide_eq_false; lia|unfold QUOTE; lia].
  - eapply Forall_impl; [exact Hall|]. intros c Hc. split; [apply elem_of_app; right; by apply Hdig|].
    unfold digit, LF, CR in *. rewrite !not_elem_of_cons. split_and!; try lia. apply not_elem_of_nil.
Qed.

Section update_file.
Context (ver plat url notes : list Z).
Context (Hver : ver <> [] /\ Forall number_ok ver) (Hplat : plat <> [] /\ Forall number_ok plat).
Context (Hurl : plain_value url) (Hnotes : plain_value notes).

Abbreviation bodies := (update_bodies ver plat url notes).
Abbreviation file := (update_file ver plat url notes).

Lemma update_values_plain : plain_value (print_numbers ver) /\ plain_value (print_numbers plat).
Proof. split; apply print_numbers_plain; tauto. Qed.

(** The characters of the lines. *)
Lemma update_bodies_plain : Forall (Forall plain_char) bodies.
Proof.
  destruct update_values_plain as [[_ Hv] [_ Hp]]. destruct Hurl as [_ Hu], Hnotes as [_ Hn].
  assert (Hline : forall k v, Forall plain_char k -> Forall plain_char v -> Forall plain_char (update_line k v)).
  { intros k v Hk Hvv. unfold update_line. apply Forall_app. split; [done|]. cbn [app].
    repeat (apply Forall_cons; split; [apply (bool_decide_eq_true_1 _); vm_compute; reflexivity|]). done. }
  unfold update_bodies. repeat (apply Forall_cons; split; [apply Hline; [apply (bool_decide_eq_true_1 _); vm_compute; reflexivity|done]|]). constructor.
Qed.

Lemma update_file_plain : Forall (fun c => c <> 92 /\ (c ∈ allowed_rtf_chars \/ c ∈ allowed_std_chars)) file.
Proof.
  apply Forall_concat, Forall_fmap. eapply Forall_impl; [exact update_bodies_plain|]. intros b Hb. cbn. apply Forall_app. split.
  - eapply Forall_impl; [exact Hb|]. intros c [Hc _]. apply elem_of_app in Hc. split; [|done].
    destruct rtf_not_backslash as (Hr & Hs & _). intros ->. tauto.
  - constructor; [|constructor]. split; [done|]. right. apply (bool_decide_eq_true_1 _). vm_compute. reflexivity.
Qed.

Lemma update_file_ascii : Forall is_ascii file.
Proof. eapply Forall_impl; [exact update_file_plain|]. intros c [_ Hc]. apply allowed_ascii. by right. Qed.

Lemma plain_ascii v : plain_value v -> Forall is_ascii v /\ (92 ∉ v).
Proof.
  intros [_ Hv]. split.
  - eapply Forall_impl; [exact Hv|]. intros c [Hc%elem_of_app _]. apply allowed_ascii. by right.
  - intros Hin. apply (proj1 (Forall_forall _ _) Hv) in Hin as [Hin%elem_of_app _]. destruct rtf_not_backslash as (Hr & Hs & _). tauto.
Qed.

Context `{Utf8Laws utf8_to_wchar wchar_to_utf8}.
Context (Hlen : 4 <= Z.of_nat (length file) < 65536).

(** The value of a token in the file. *)
Lemma get_update_value t : token_ok t -> Forall is_ascii t ->
  get_sanitized_token_data_buffer utf8_to_wchar wchar_to_utf8 t 1 (file ++ [0]) =
    if bool_decide (same_token t (chars "version")) then Some (print_numbers ver)
    else if bool_decide (same_token t (chars "platform_min")) then Some (print_numbers plat)
    else if bool_decide (same_token t (chars "download_url")) then Some url
    else if bool_decide (same_token t (chars "release_notes")) then Some notes else None.
Proof.
  intros Ht Hta. unfold get_sanitized_token_data_buffer, get_token_data_buffer.
  rewrite (bool_decide_false (Z.of_nat (length (file ++ [0])) <= 4 \/ 65536 < Z.of_nat (length (file ++ [0]))))
    by (rewrite length_app; cbn [length]; lia).
  rewrite last_snoc, bool_decide_true by done. cbn [negb]. rewrite c_str_terminated by apply update_file_ascii.
  pose proof (utf8_to_wchar_ascii file update_file_ascii) as ->. pose proof (utf8_to_wchar_ascii t Hta) as ->. cbn [mbind option_bind].
  unfold update_file. rewrite buffer_lines_bodies.
  2: { eapply Forall_impl; [exact update_bodies_plain|]. intros b Hb. eapply Forall_impl; [exact Hb|]. by intros c []. }
  rewrite buffer_loop_first by (by destruct bodies). unfold update_bodies.
  destruct update_values_plain as [Hv Hp]. pose proof update_names_ok as Hnames. unfold update_names in Hnames. rewrite !Forall_cons in Hnames.
  destruct Hnames as (Hn1 & Hn2 & Hn3 & Hn4 & _). cbn [app omap list_omap].
  rewrite (get_update_line _ _ t Hn1 Ht (proj1 Hv)), (get_update_line _ _ t Hn2 Ht (proj1 Hp)), (get_update_line _ _ t Hn3 Ht (proj1 Hurl)),
    (get_update_line _ _ t Hn4 Ht (proj1 Hnotes)), get_empty_line by done.
  assert (Hend : forall v, plain_value v -> unescape <$> (wchar_to_utf8 v) = Some v).
  { intros v [Ha Hb]%plain_ascii. pose proof (wchar_to_utf8_ascii v Ha) as ->. cbn [fmap option_fmap option_map]. by rewrite unescape_plain. }
  let test name := (destruct (decide (same_token t (chars name)));
    [rewrite (bool_decide_true (same_token t (chars name))) by done; cbn [head mbind option_bind]; by apply Hend|
     rewrite (bool_decide_false (same_token t (chars name))) by done]) in
  test "version"%string; test "platform_min"%string; test "download_url"%string; test "release_notes"%string.
  done.
Qed.

Lemma get_update_values : let get t := get_sanitized_token_data_buffer utf8_to_wchar wchar_to_utf8 t 1 (file ++ [0]) in
  get (chars "version") = Some (print_numbers ver) /\ get (chars "platform_min") = Some (print_numbers plat) /\
  get (chars "download_url") = Some url /\ get (chars "release_notes") = Some notes /\
  forall t, token_ok t -> Forall is_ascii t -> Forall (fun n => ~ same_token t n) update_names -> get t = None.
Proof.
  intros get. pose proof update_names_ok as Hnames. unfold update_names in Hnames. rewrite !Forall_cons in Hnames.
  destruct Hnames as (Hn1 & Hn2 & Hn3 & Hn4 & _). unfold get.
  split_and!; [..|intros t Ht Hta Hdiff].
  all: rewrite get_update_value by (first [done|unfold is_ascii; apply (bool_decide_eq_true_1 _); vm_compute; reflexivity]).
  5: { unfold update_names in Hdiff. rewrite !Forall_cons in Hdiff. destruct Hdiff as (Hd1 & Hd2 & Hd3 & Hd4 & _). by rewrite !bool_decide_false. }
  all: repeat match goal with |- context [bool_decide (same_token ?x ?y)] =>
    first [change (bool_decide (same_token x y)) with true|change (bool_decide (same_token x y)) with false] end; done.
Qed.
End update_file.

(** The order of versions. *)
Definition newer (v w : Z * Z * Z) : Prop :=
  let '(a, b, c) := v in let '(a', b', c') := w in a' < a \/ a' = a /\ (b' < b \/ b' = b /\ c' < c).

Lemma to_uint64_t_value a b c : 0 <= a < 65536 -> 0 <= b < 65536 -> 0 <= c < 65536 ->
  to_uint64_t [a; b; c] = (a * 65536 + b) * 65536 + c.
Proof.
  intros Ha Hb Hc. unfold to_uint64_t. cbn [foldl]. rewrite !Z.shiftl_mul_pow2 by lia. change (2 ^ 16) with 65536.
  rewrite (uwrap_small 64 (0 * 65536 + a)) by lia. rewrite (uwrap_small 64 ((0 * 65536 + a) * 65536 + b)) by lia.
  rewrite uwrap_small by lia. lia.
Qed.

(** C20: An update from end to end. From the text of a well-formed update file with any numbers, address and notes,
    parse_update reads exactly these, and the update is offered exactly when its version comes
    after that of the program and Windows is at least at the platform that it asks for. *)
Theorem update_file_offered `{Utf8Laws utf8_to_wchar wchar_to_utf8} name a b c x y url notes old a0 b0 c0 major minor :
  0 <= a < 65536 -> 0 <= b < 65536 -> 0 <= c < 65536 -> number_ok x -> number_ok y -> plain_value url -> plain_value notes ->
  token_ok name -> Forall is_ascii name -> Forall (fun t => ~ same_token name t) update_names ->
  let file := update_file [a; b; c] [x; y] url notes in
  4 <= Z.of_nat (length file) < 65536 -> 0 <= a0 < 65536 -> 0 <= b0 < 65536 -> 0 <= c0 < 65536 ->
  let u := parse_update utf8_to_wchar wchar_to_utf8 name (file ++ [0]) old in
  u = mkUpdate [a; b; c] [x; y] (Some url) (Some notes) /\
  (found_new_version false [a0; b0; c0] major minor u = true <->
   newer (a, b, c) (a0, b0, c0) /\ (x < major \/ major = x /\ y <= minor)).
Proof.
  intros Ha Hb Hc Hx Hy Hurl Hnotes Hname Hna Hdiff file Hlen Ha0 Hb0 Hc0 u.
  assert (Hnum : forall n, 0 <= n < 65536 -> number_ok n) by (unfold number_ok; lia).
  assert (Hver : [a; b; c] <> [] /\ Forall number_ok [a; b; c]) by (split; [done|]; rewrite !Forall_cons; split_and!; [by apply Hnum..|constructor]).
  assert (Hplat : [x; y] <> [] /\ Forall number_ok [x; y]) by (split; [done|]; rewrite !Forall_cons; by split_and!).
  assert (Hplain : Forall (fun c => c <> 92 /\ (c ∈ allowed_rtf_chars \/ c ∈ allowed_std_chars)) file) by (by apply update_file_plain).
  assert (Hu : u = mkUpdate [a; b; c] [x; y] (Some url) (Some notes)).
  { unfold u, parse_update.
    rewrite (bool_decide_false (Z.of_nat (length (file ++ [0])) < 2 \/ 64 * 1024 < Z.of_nat (length (file ++ [0])))) by (rewrite length_app; cbn [length]; lia).
    rewrite last_snoc, bool_decide_true by done. cbn [negb orb]. rewrite bool_decide_false.
    2: { rewrite length_app. cbn [length]. rewrite lookup_app_l by lia. intros Hl%(Forall_lookup_1 _ _ _ _ Hplain). tauto. }
    rewrite c_str_terminated by (by apply update_file_ascii). rewrite sanitize_plain by done. cbv zeta. unfold file.
    destruct (get_update_values [a; b; c] [x; y] url notes Hver Hplat Hurl Hnotes Hlen) as (-> & -> & -> & -> & Hno).
    rewrite (Hno name) by done. rewrite !strtok_numbers by tauto. cbn [fmap list_fmap].
    rewrite !atoi_print by (first [done|apply Hnum; lia]). unfold set_numbers. cbn [take drop length app].
    unfold number_ok in Hx, Hy. by rewrite !uwrap_small by lia. }
  rewrite Hu. split; [done|]. unfold found_new_version. cbn [version platform_min].
  rewrite !to_uint64_t_value, orb_false_r, andb_true_iff, orb_true_iff, andb_true_iff, !bool_decide_eq_true by done.
  unfold newer. nia.
Qed.

(** An update from 4.6 to 4.7.1 on Windows 10. *)
Theorem update_file_offered_witness :
  let u := parse_update Some Some (chars "download_url_x64")
    (update_file [4; 7; 1] [10; 0] (chars "https://example.com/a.exe") (chars "Some notes.") ++ [0]) (mkUpdate [] [] None None) in
  version u = [4; 7; 1] /\ found_new_version false [4; 6; 0] 10 0 u = true.
Proof.
  destruct (@update_file_offered Some Some identity_utf8 (chars "download_url_x64") 4 7 1 10 0 (chars "https://example.com/a.exe") (chars "Some notes.")
    (mkUpdate [] [] None None) 4 6 0 10 0) as [Hu Hoffer]; try (unfold number_ok; lia).
  - split; [split; [apply (bool_decide_eq_true_1 _); vm_compute; reflexivity|by eexists]|unfold plain_char; apply (bool_decide_eq_true_1 _); vm_compute; reflexivity].
  - split; [split; [apply (bool_decide_eq_true_1 _); vm_compute; reflexivity|by eexists]|unfold plain_char; apply (bool_decide_eq_true_1 _); vm_compute; reflexivity].
  - unfold token_ok, token_char. apply (bool_decide_eq_true_1 _). vm_compute. reflexivity.
  - unfold is_ascii. apply (bool_decide_eq_true_1 _). vm_compute. reflexivity.
  - apply (bool_decide_eq_true_1 _). vm_compute. reflexivity.
  - apply (bool_decide_eq_true_1 _). vm_compute. reflexivity.
  - split; [by rewrite Hu|]. apply Hoffer. split; [right; split; [reflexivity|left; lia]|right; lia].
Defined.

(** The loop ends with the last line too: asked for a second value where there is one, it returns the first. *)
Lemma second_value_of_one : buffer_loop (chars "a") (buffer_lines 0 [] (chars "a=1")) 0 2 None = Some (chars "1").
Proof. by vm_compute. Qed.

(** A closing brace without an opening one makes the count wrap: the lines that follow are not seen. *)
Lemma unbalanced_brace : buffer_lines 0 [] (125 :: LF :: chars "a=1") = [125 :: LF :: chars "a=1"].
Proof. by vm_compute. Qed.
