(* ===== verification/LocCommands.v ===== *)
(** LocCommands: the commands of a line of a localization file, [get_loc_cmd] and the beginning of
    [get_loc_data_line] of src/src/parser.c, and the table of the controls that it can name, [control_id] of
    src/src/localization_data.h, with the numbers that src/src/resource.h gives them. The buttons
    of Windows ([IDOK] to [IDHELP]) have the numbers of winuser.h.

    A line is the list of its bytes before the terminator. The numbers of lines, which only the
    log shows, are left out, and so are failures of malloc. *)

From Stdlib Require Import Ascii String.
From S2P Require Import Prelude CText ConfigText Settings.

Definition IDD_DIALOG : Z := 101.
Definition MSG_000 : Z := 3000.
Definition MSG_MAX : Z := 3400.

(** The dialogs, the controls of the dialogs and the static texts. *)
Definition dialog_ids : list (string * Z) :=
  ([("IDD_DIALOG", 101); ("IDD_ABOUTBOX", 102); ("IDD_NOTIFICATION", 103); ("IDD_SELECTION", 104);
   ("IDD_LICENSE", 105); ("IDD_LOG", 106); ("IDD_UPDATE_POLICY", 107); ("IDD_NEW_VERSION", 108); ("IDD_HASH", 109);
   ("IDD_LIST", 110); ("IDC_DEVICE", 1001); ("IDC_FILE_SYSTEM", 1002); ("IDC_START", 1003);
   ("IDC_PARTITION_TYPE", 1004); ("IDC_CLUSTER_SIZE", 1005); ("IDC_STATUS", 1006); ("IDC_LABEL", 1007);
   ("IDC_QUICK_FORMAT", 1008); ("IDC_BAD_BLOCKS", 1009); ("IDC_PROGRESS", 1010); ("IDC_BOOT_SELECTION", 1011);
   ("IDC_NB_PASSES", 1012); ("IDC_TEST", 1013); ("IDC_SELECT", 1014); ("IDC_EXTENDED_LABEL", 1015);
   ("IDC_UEFI_MEDIA_VALIDATION", 1021); ("IDC_TARGET_SYSTEM", 1017); ("IDC_PERSISTENCE_SIZE", 1018);
   ("IDC_PERSISTENCE_UNITS", 1019); ("IDC_OLD_BIOS_FIXES", 1020); ("IDC_LIST_USB_HDD", 1022);
   ("IDC_STATUS_TOOLBAR", 1023); ("IDC_SAVE", 1024); ("IDC_HASH", 1025); ("IDC_IMAGE_OPTION", 1026);
   ("IDC_PERSISTENCE_SLIDER", 1027); ("IDC_ADVANCED_DRIVE_PROPERTIES", 1028); ("IDC_ADVANCED_FORMAT_OPTIONS", 1029);
   ("IDC_ABOUT_LICENSE", 1030); ("IDC_ABOUT_ICON", 1031); ("IDC_ABOUT_COPYRIGHTS", 1032); ("IDC_ABOUT_BLURB", 1033);
   ("IDC_LICENSE_TEXT", 1034); ("IDC_NOTIFICATION_ICON", 1040); ("IDC_NOTIFICATION_TEXT", 1041);
   ("IDC_NOTIFICATION_LINE", 1042); ("IDC_ADVANCED_DEVICE_TOOLBAR", 1043); ("IDC_ADVANCED_FORMAT_TOOLBAR", 1044);
   ("IDC_SAVE_TOOLBAR", 1045); ("IDC_HASH_TOOLBAR", 1046); ("IDC_MULTI_TOOLBAR", 1047); ("IDC_LANG", 1051);
   ("IDC_ABOUT", 1052); ("IDC_SETTINGS", 1053); ("IDC_LOG", 1054); ("IDC_LOG_EDIT", 1055); ("IDC_LOG_SAVE", 1056);
   ("IDC_LOG_CLEAR", 1057); ("IDC_DONT_DISPLAY_AGAIN", 1059); ("IDC_MORE_INFO", 1060); ("IDC_POLICY", 1061);
   ("IDC_UPDATE_FREQUENCY", 1062); ("IDC_INCLUDE_BETAS", 1063); ("IDC_RELEASE_NOTES", 1064); ("IDC_DOWNLOAD", 1065);
   ("IDC_CHECK_NOW", 1066); ("IDC_WEBSITE", 1067); ("IDC_YOUR_VERSION", 1068); ("IDC_LATEST_VERSION", 1069);
   ("IDC_DOWNLOAD_URL", 1070); ("IDC_MD5", 1071); ("IDC_SHA1", 1072); ("IDC_SHA256", 1073); ("IDC_SHA512", 1074);
   ("IDC_SELECTION_ICON", 1075); ("IDC_SELECTION_TEXT", 1076); ("IDC_SELECTION_LINE", 1077);
   ("IDC_SELECTION_CHOICE1", 1078); ("IDC_SELECTION_CHOICE2", 1079); ("IDC_SELECTION_CHOICE3", 1080);
   ("IDC_SELECTION_CHOICE4", 1081); ("IDC_SELECTION_CHOICE5", 1082); ("IDC_SELECTION_CHOICE6", 1083);
   ("IDC_SELECTION_CHOICE7", 1084); ("IDC_SELECTION_CHOICE8", 1085); ("IDC_SELECTION_CHOICE9", 1086);
   ("IDC_SELECTION_CHOICE10", 1087); ("IDC_SELECTION_CHOICE11", 1088); ("IDC_SELECTION_CHOICE12", 1089);
   ("IDC_SELECTION_CHOICE13", 1090); ("IDC_SELECTION_CHOICE14", 1091); ("IDC_SELECTION_CHOICE15", 1092);
   ("IDC_SELECTION_CHOICEMAX", 1093); ("IDC_LIST_ICON", 1095); ("IDC_LIST_TEXT", 1096); ("IDC_LIST_LINE", 1097);
   ("IDC_LIST_ITEM1", 1098); ("IDC_LIST_ITEM2", 1099); ("IDC_LIST_ITEM3", 1100); ("IDC_LIST_ITEM4", 1101);
   ("IDC_LIST_ITEM5", 1102); ("IDC_LIST_ITEM6", 1103); ("IDC_LIST_ITEM7", 1104); ("IDC_LIST_ITEM8", 1105);
   ("IDC_LIST_ITEM9", 1106); ("IDC_LIST_ITEM10", 1107); ("IDC_LIST_ITEM11", 1108); ("IDC_LIST_ITEM12", 1109);
   ("IDC_LIST_ITEM13", 1110); ("IDC_LIST_ITEM14", 1111); ("IDC_LIST_ITEM15", 1112); ("IDC_LIST_ITEMMAX", 1113);
   ("IDS_DEVICE_TXT", 2000); ("IDS_PARTITION_TYPE_TXT", 2001); ("IDS_FILE_SYSTEM_TXT", 2002);
   ("IDS_CLUSTER_SIZE_TXT", 2003); ("IDS_LABEL_TXT", 2004); ("IDS_CSM_HELP_TXT", 2005);
   ("IDS_UPDATE_SETTINGS_GRP", 2006); ("IDS_UPDATE_FREQUENCY_TXT", 2007); ("IDS_INCLUDE_BETAS_TXT", 2008);
   ("IDS_NEW_VERSION_AVAIL_TXT", 2009); ("IDS_NEW_VERSION_DOWNLOAD_GRP", 2010); ("IDS_NEW_VERSION_NOTES_GRP", 2011);
   ("IDS_CHECK_NOW_GRP", 2012); ("IDS_TARGET_SYSTEM_TXT", 2013); ("IDS_IMAGE_OPTION_TXT", 2014);
   ("IDS_BOOT_SELECTION_TXT", 2015); ("IDS_DRIVE_PROPERTIES_TXT", 2016); ("IDS_FORMAT_OPTIONS_TXT", 2017);
   ("IDS_STATUS_TXT", 2018)])%string.

(** The three digits of a message. *)
Definition three_digits (n : Z) : list Z := [48 + n / 100; 48 + n / 10 mod 10; 48 + n mod 10].

(** The messages, [MSG_000] to [MSG_399]. *)
Definition message_ids : list (list Z * Z) :=
  (fun k => (chars "MSG_" ++ three_digits (Z.of_nat k), MSG_000 + Z.of_nat k)) <$> seq 0 400.

Definition button_ids : list (string * Z) :=
  ([("IDOK", 1); ("IDCANCEL", 2); ("IDABORT", 3); ("IDRETRY", 4); ("IDIGNORE", 5); ("IDYES", 6); ("IDNO", 7); ("IDCLOSE", 8); ("IDHELP", 9)])%string.

Definition control_id : list (list Z * Z) :=
  (prod_map chars id <$> dialog_ids) ++ message_ids ++ (prod_map chars id <$> ([("MSG_MAX", MSG_MAX)])%string) ++ (prod_map chars id <$> button_ids).

(** [ARRAYSIZE(loc_dlg)]: the dialogs are the first numbers, in their order. *)
Definition loc_dlg_size : Z := 10.

(** The number of a control, the first of that name. *)
Definition control_number (name : list Z) : option Z := (fun e => snd (snd e)) <$> list_find (fun e => name = fst e) control_id.

(** [get_name_from_id]. *)
Definition get_name_from_id (n : Z) : list Z :=
  default (chars "UNKNOWN ID") ((fun e => fst (snd e)) <$> list_find (fun e => snd e = n) control_id).

(** ** Commands *)

Inductive loc_command_type := LC_GROUP | LC_TEXT | LC_VERSION | LC_LOCALE | LC_BASE | LC_FONT | LC_ATTRIBUTES.
#[export] Instance loc_command_type_dec : EqDecision loc_command_type.
Proof. solve_decision. Defined.

Definition command_number (c : loc_command_type) : Z :=
  match c with LC_GROUP => 0 | LC_TEXT => 1 | LC_VERSION => 2 | LC_LOCALE => 3 | LC_BASE => 4 | LC_FONT => 5 | LC_ATTRIBUTES => 6 end.

(** [ctrl_id] is also the mask of the attributes. *)
Record loc_cmd := mkLocCmd {
  command : loc_command_type; ctrl_id : Z; num0 : Z; num1 : Z; unum : list Z; txt0 : option (list Z); txt1 : option (list Z);
}.

(** The types of the arguments: a word, a quoted string, an integer, a list of integers. *)
Inductive arg_type := Arg_c | Arg_s | Arg_i | Arg_u.

Definition parse_cmd : list (Z * (loc_command_type * list arg_type)) :=
  [(108, (LC_LOCALE, [Arg_s; Arg_s; Arg_u])); (98, (LC_BASE, [Arg_s])); (118, (LC_VERSION, [Arg_u])); (116, (LC_TEXT, [Arg_c; Arg_s]));
   (103, (LC_GROUP, [Arg_c])); (102, (LC_FONT, [Arg_s; Arg_i])); (97, (LC_ATTRIBUTES, [Arg_s]))].

(** ** [get_loc_cmd] *)

(** The string up to the ending quote, and what comes after it; [acc] is what was read, last first.
    A backslash before a quote is taken off. *)
Fixpoint quoted (acc line : list Z) : option (list Z * list Z) :=
  match line with
  | [] => None
  | c :: line =>
      if bool_decide (c = QUOTE) then
        match acc with
        | 92 :: acc => quoted (QUOTE :: acc) line
        | _ => Some (reverse acc, line)
        end
      else quoted (c :: acc) line
  end.

Definition is_separator (c : Z) : bool := bool_decide (c = 44 \/ c = 46).

(** A word, up to a character that ends it, which is skipped. *)
Fixpoint word (ends : Z -> bool) (line : list Z) : list Z * list Z :=
  match line with
  | [] => ([], [])
  | c :: line => if ends c then ([], line) else let '(w, rest) := word ends line in (c :: w, rest)
  end.

(** Whether [strtol(w, &endptr, 0)] reads all of [w]: a sign, a prefix and at least a digit, or nothing. *)
Definition all_digits (base : Z) (s : list Z) : bool :=
  forallb (fun c => match digit_value c with Some d => bool_decide (d < base) | None => false end) s.
Definition strtol_all (w : list Z) : bool :=
  let '(base, s) := number_base (snd (sign (skip_spaces w))) in
  orb (bool_decide (w = [])) (andb (negb (bool_decide (s = []))) (all_digits base s)).

(** [strtok] with the two separators. *)
Fixpoint tokens (token s : list Z) : list (list Z) :=
  let emit (rest : list (list Z)) := match token with [] => rest | _ => reverse token :: rest end in
  match s with
  | [] => emit []
  | c :: s => if is_separator c then emit (tokens [] s) else tokens (c :: token) s
  end.

(** What has been read: the rest of the line, the texts, the integers and the list. *)
Record parsed := mkParsed { rest : list Z; texts : list (list Z); ints : list Z; list_of_ints : list Z }.

Definition get_arg (t : arg_type) (p : parsed) : option parsed :=
  let line := skip_blanks (rest p) in
  if bool_decide (line = []) then None
  else
    match t with
    | Arg_s =>
        match line with
        | c :: line => if bool_decide (c = QUOTE) then
                         '(s, line) ← quoted [] line; Some (mkParsed line (texts p ++ [s]) (ints p) (list_of_ints p))
                       else None
        | [] => None
        end
    | Arg_c => let '(w, line) := word is_blank line in Some (mkParsed line (texts p ++ [w]) (ints p) (list_of_ints p))
    | Arg_i =>
        (* The separator itself is not skipped. *)
        let line := if is_separator (default 0 (head line)) then drop (length line - 1 - length (skip_blanks (drop 1 line))) line else line in
        let '(w, line) := word (fun c => is_blank c || is_separator c) line in
        if strtol_all w then Some (mkParsed line (texts p) (ints p ++ [strtol 32 w]) (list_of_ints p)) else None
    | Arg_u =>
        let unum_size := u8 (1 + Z.of_nat (length (filter (fun c => is_separator c = true) line))) in
        let ts := tokens [] line in
        if bool_decide (Z.of_nat (length ts) = unum_size)
        then Some (mkParsed line (texts p) (ints p) ((fun t => u32 (strtol 32 t)) <$> ts)) else None
    end.

Fixpoint get_args (ts : list arg_type) (p : parsed) : option parsed :=
  match ts with [] => Some p | t :: ts => p ← get_arg t p; get_args ts p end.

Definition get_loc_cmd (c : Z) (line : list Z) : option loc_cmd :=
  '(_, (cmd, arg_types)) ← snd <$> list_find (fun e => fst e = c) parse_cmd;
  p ← get_args arg_types (mkParsed line [] [] []);
  Some (mkLocCmd cmd (if bool_decide (command_number cmd <= command_number LC_TEXT) then -1 else 0)
          (default 0 (ints p !! 0%nat)) (default 0 (ints p !! 1%nat)) (list_of_ints p) (texts p !! 0%nat) (texts p !! 1%nat)).

(** ** The line *)

(** The command of a line, [None] for a comment and for what is not a command. *)
Definition parse_line (line : list Z) : option loc_cmd :=
  match skip_blanks line with
  | t :: line =>
      if bool_decide (t = 35) then None
      else match line with c :: _ => if is_blank c then get_loc_cmd t line else None | [] => None end
  | [] => None
  end.
