(* ===== verification/Localization.v ===== *)
(** Localization: the messages and the controls of the current language, src/src/localization.c,
    and the files they are read from, [get_loc_data_file] and [get_supported_locales] of
    src/src/parser.c.

    A file is the list of its bytes. A command that is kept has an address, which is not used
    again: a read at the address of a command that was freed is a fault, and so is a read of a
    block past what was written. Numbers of lines, which only the log shows, are left out. *)

From Stdlib Require Import Ascii String.
From stdpp Require Import gmap.
From S2P Require Import Prelude CText Faults Htab ConfigText Settings LocCommands.

(** ** The state *)

Inductive msg_tables := default_table | current_table.
#[export] Instance msg_tables_dec : EqDecision msg_tables.
Proof. solve_decision. Defined.

(** [msg_table] is the table that it points to; [hDlg] and [loc_dlg] are the windows and the lists
    of [loc_dlg], [dlg_index] that of [dispatch_loc_cmd]. *)
Record loc_state := mkLoc {
  locale_list : list loc_cmd;
  msg_table : option msg_tables;
  default_msg_table : list (option (list Z));
  current_msg_table : list (option (list Z));
  hDlg : list Z;
  loc_dlg : list (list (Z * loc_cmd));
  htab_loc : htab_table;
  dlg_index : Z;
  next_address : Z;
}.

Definition set_locale_list l s := mkLoc l (msg_table s) (default_msg_table s) (current_msg_table s) (hDlg s) (loc_dlg s) (htab_loc s) (dlg_index s) (next_address s).
Definition set_msg_table t s := mkLoc (locale_list s) t (default_msg_table s) (current_msg_table s) (hDlg s) (loc_dlg s) (htab_loc s) (dlg_index s) (next_address s).
Definition set_messages d c s := mkLoc (locale_list s) (msg_table s) d c (hDlg s) (loc_dlg s) (htab_loc s) (dlg_index s) (next_address s).
Definition set_dialogs d h a s := mkLoc (locale_list s) (msg_table s) (default_msg_table s) (current_msg_table s) (hDlg s) d h (dlg_index s) a.
Definition set_windows w s := mkLoc (locale_list s) (msg_table s) (default_msg_table s) (current_msg_table s) w (loc_dlg s) (htab_loc s) (dlg_index s) (next_address s).
Definition set_dlg_index i s := mkLoc (locale_list s) (msg_table s) (default_msg_table s) (current_msg_table s) (hDlg s) (loc_dlg s) (htab_loc s) i (next_address s).

(** ["%s"] and NULL. *)
Definition empty_messages : list (option (list Z)) := Some (chars "%s") :: replicate (Z.to_nat (MSG_MAX - MSG_000 - 1)) None.
Definition no_dialogs : list (list (Z * loc_cmd)) := replicate (Z.to_nat loc_dlg_size) [].

(** The globals when the program starts. *)
Definition loc_start : loc_state :=
  mkLoc [] None empty_messages empty_messages (replicate (Z.to_nat loc_dlg_size) 0) no_dialogs HTAB_EMPTY 0 1.

(** ** Initialization and end *)

Definition LOC_HTAB_SIZE : Z := 1031.

(** The size is a prime: the search for one ends at once. *)
Definition init_localization (reinit : bool) (s : loc_state) : checked loc_state :=
  '(_, h) ← htab_create 1 true LOC_HTAB_SIZE (htab_loc s);
  Ret (set_dialogs no_dialogs h (next_address s) (if reinit then s else set_locale_list [] s)).

Definition free_dialog_list (s : loc_state) : loc_state := set_dialogs ((fun _ => []) <$> loc_dlg s) (htab_loc s) (next_address s) s.

(** All but the first message. *)
Definition mtab_destroy (reinit : bool) (s : loc_state) : loc_state :=
  let clear (t : list (option (list Z))) := match t with m :: t => m :: ((fun _ => None) <$> t) | [] => [] end in
  set_messages (if reinit then default_msg_table s else clear (default_msg_table s)) (clear (current_msg_table s)) s.

(** [localization_initialized] is set. *)
Definition exit_localization (reinit : bool) (s : loc_state) : loc_state :=
  let s := mtab_destroy reinit (free_dialog_list (if reinit then s else set_locale_list [] s)) in
  set_dialogs (loc_dlg s) (htab_destroy (htab_loc s)) (next_address s) s.

Definition reinit_localization (s : loc_state) : checked loc_state := init_localization true (exit_localization true s).

(** ** Commands *)

(** [list_del]: of the command at an address, which must be in a list. *)
Definition list_del (a : Z) (dialogs : list (list (Z * loc_cmd))) : option (list (list (Z * loc_cmd))) :=
  if existsb (existsb (fun e => bool_decide (fst e = a))) dialogs
  then Some (filter (fun e => fst e <> a) <$> dialogs) else None.

(** The string of a control of a dialog: [str], of 128 bytes. *)
Definition dialog_key (index : Z) (c : loc_command_type) (name : list Z) : list Z :=
  u8 (index + 0x30) :: u8 (command_number c + 0x30) :: take 125 name.

(** [htab_loc.table[i].data = lcmd]. *)
Definition set_entry_data (i a : Z) (h : htab_table) : htab_table :=
  mkHtab ((fun t => alter (fun e => mkHtabEntry (used e) (str e) (Some a)) (Z.to_nat i) t) <$> table h) (size h) (filled h).

Definition add_dialog_command (index : Z) (lcmd : loc_cmd) (s : loc_state) : checked loc_state :=
  match txt0 lcmd with
  | None => Ret s
  | Some name =>
      if bool_decide (index < 0 \/ loc_dlg_size <= index) then Ret s
      else
        '(i, h) ← htab_hash true (dialog_key index (command lcmd) name) (htab_loc s);
        '(dialogs, h) ← (if bool_decide (i = 0) then Ret (loc_dlg s, h)
                         else
                           t ← access (table h);
                           e ← entry_at t i;
                           dialogs ← match data e with
                                     | Some a => access (list_del a (loc_dlg s))
                                     | None => Ret (loc_dlg s)
                                     end;
                           Ret (dialogs, set_entry_data i (next_address s) h));
        Ret (set_dialogs (alter (cons (next_address s, lcmd)) (Z.to_nat index) dialogs) h (next_address s + 1) s)
  end.

(** The message of a command becomes that of the table in use. *)
Definition add_message_command (lcmd : loc_cmd) (s : loc_state) : checked loc_state :=
  if bool_decide (ctrl_id lcmd <= MSG_000 \/ MSG_MAX <= ctrl_id lcmd) then Ret s
  else
    let set := <[Z.to_nat (ctrl_id lcmd - MSG_000) := txt1 lcmd]> in
    match msg_table s with
    | None => Fault OutOfBlock
    | Some default_table => Ret (set_messages (set (default_msg_table s)) (current_msg_table s) s)
    | Some current_table => Ret (set_messages (default_msg_table s) (set (current_msg_table s)) s)
    end.

(** [get_locale_from_name] and [get_locale_from_lcid]: an index of the list of locales. *)
Definition get_locale (is_it : loc_cmd -> bool) (fallback : bool) (l : list loc_cmd) : option nat :=
  match fst <$> list_find (fun c => is_it c = true) l with
  | Some i => Some i
  | None => match l with _ :: _ => if fallback then Some 0%nat else None | [] => None end
  end.
Definition get_locale_from_name (name : list Z) : bool -> list loc_cmd -> option nat :=
  get_locale (fun c => bool_decide (txt0 c = Some name)).
Definition get_locale_from_lcid (lcid : Z) : bool -> list loc_cmd -> option nat :=
  get_locale (fun c => bool_decide (u32 lcid ∈ unum c)).

Definition set_ctrl_id (n : Z) (c : loc_cmd) : loc_cmd := mkLocCmd (command c) n (num0 c) (num1 c) (unum c) (txt0 c) (txt1 c).

Section dispatch.
(** [get_loc_data_file(NULL, locale)], of the base of a locale. *)
Context (load_base : loc_cmd -> loc_state -> checked (bool * loc_state)).

(** The commands that name a control: what they are to do with it, or the result. *)
Definition resolve_control (lcmd : loc_cmd) (name : list Z) (s : loc_state) : checked ((bool * loc_state) + loc_cmd) :=
  if bool_decide (take 4 name = chars "MSG_") then
    if bool_decide (command lcmd = LC_TEXT) then
      let id := swrap 32 (MSG_000 + atoi (drop 4 name)) in
      if bool_decide (id = MSG_000) then Ret (inl (false, s))
      else s ← add_message_command (set_ctrl_id id lcmd) s; Ret (inl (true, s))
    else Ret (inl (false, s))
  else
    match control_number name with
    | Some id => if bool_decide (id < 0) then Ret (inl (false, s)) else Ret (inr (set_ctrl_id id lcmd))
    | None => Ret (inl (false, s))
    end.

(** The switch. The group is compared without a sign. *)
Definition dispatch_command (lcmd : loc_cmd) (s : loc_state) : checked (bool * loc_state) :=
  match command lcmd with
  | LC_TEXT => s ← add_dialog_command (dlg_index s) lcmd s; Ret (true, s)
  | LC_GROUP =>
      if bool_decide (loc_dlg_size < u64 (ctrl_id lcmd - IDD_DIALOG)) then Ret (false, s)
      else Ret (true, set_dlg_index (ctrl_id lcmd - IDD_DIALOG) s)
  | LC_BASE =>
      match get_locale_from_name (default [] (txt0 lcmd)) false (locale_list s) ≫= (locale_list s !!.) with
      | Some base => '(_, s) ← load_base base s; Ret (true, s)
      | None => Ret (true, s)
      end
  | _ => Ret (true, s)
  end.

Definition dispatch_loc_cmd (lcmd : loc_cmd) (s : loc_state) : checked (bool * loc_state) :=
  r ← (if bool_decide (command_number (command lcmd) <= command_number LC_TEXT)
       then resolve_control lcmd (default [] (txt0 lcmd)) s else Ret (inr lcmd));
  match r with
  | inl result => Ret result
  | inr lcmd =>
      (* The default messages are loaded without the dialogs. *)
      if bool_decide (msg_table s = Some default_table) then Ret (true, s) else dispatch_command lcmd s
  end.

Definition get_loc_data_line (line : list Z) (s : loc_state) : checked loc_state :=
  match parse_line line with
  | Some lcmd => if bool_decide (command lcmd = LC_LOCALE) then Ret s else '(_, s) ← dispatch_loc_cmd lcmd s; Ret s
  | None => Ret s
  end.
End dispatch.

(** ** [get_loc_data_file] *)

(** The block of the line: [line] is what was written from its start on, and [terminated] is
    whether a null character follows; what comes after is unknown. [last_char] is [r]. *)
Record reader := mkReader { line : list Z; terminated : bool; bufsize : Z; last_char : nat; eol : bool; escape_sequence : bool }.
Definition new_reader : reader := mkReader [] false 1024 0 false false.

(** The last character that is not a blank, or the first one: an index, from the characters in reverse. *)
Fixpoint last_index (reversed : list Z) : nat :=
  match reversed with
  | c :: (_ :: _) as rest => if is_blank c then last_index rest else length rest
  | _ => 0
  end.

Definition put (bs : list Z) (rd : reader) : reader :=
  mkReader (line rd ++ bs) (bool_decide (bs = []) && terminated rd) (bufsize rd) (last_char rd) (eol rd) (escape_sequence rd).
Definition set_escape (b : bool) (rd : reader) : reader := mkReader (line rd) (terminated rd) (bufsize rd) (last_char rd) (eol rd) b.

(** The string that [get_loc_data_line] is given. *)
Definition line_string (rd : reader) : checked (list Z) :=
  if orb (terminated rd) (bool_decide (0 ∈ line rd)) then Ret (c_str (line rd)) else Fault OutOfBlock.

Definition escaped (c : Z) : list Z :=
  if bool_decide (c = 110) then [CR; LF] else if bool_decide (c = QUOTE) then [92; QUOTE] else if bool_decide (c = 92) then [92] else [].

(** A character, and the line that it ends, if any: the line goes on when both it and the next one have a quote there. *)
Definition read_char (c : Z) (rd : reader) : checked (reader * option (list Z)) :=
  if is_eol c then
    Ret (if escape_sequence rd then set_escape false rd
         else mkReader (line rd) true (bufsize rd) (if eol rd then last_char rd else last_index (reverse (line rd))) true false, None)
  else if is_blank c then
    Ret (if escape_sequence rd then set_escape false rd else if eol rd then rd else put [c] rd, None)
  else if bool_decide (c = 92) && negb (escape_sequence rd) then Ret (set_escape true rd, None)
  else if escape_sequence rd then Ret (put (escaped c) (set_escape false rd), None)
  else if eol rd then
    if bool_decide (c = QUOTE) && bool_decide (line rd !! last_char rd = Some QUOTE)
    then Ret (mkReader (take (last_char rd) (line rd)) false (bufsize rd) (last_char rd) false false, None)
    else s ← line_string rd; Ret (mkReader [c] false (bufsize rd) 0 false false, Some s)
  else Ret (put [c] rd, None).

(** The block grows before it lacks two characters; [None] is when it would exceed 32 KB. *)
Definition grow (rd : reader) : option reader :=
  if bool_decide (bufsize rd - 2 <= Z.of_nat (length (line rd))) then
    if bool_decide (32768 < 2 * bufsize rd) then None
    else Some (mkReader (line rd) (terminated rd) (2 * bufsize rd) (last_char rd) (eol rd) (escape_sequence rd))
  else Some rd.

Section read.
Context (data_line : list Z -> loc_state -> checked loc_state).

(** The loop, from the byte at [pos] on: the byte at the end offset is read too. *)
Fixpoint read_section (bytes : list Z) (pos end_offset : Z) (rd : reader) (s : loc_state) : checked (bool * loc_state) :=
  match bytes with
  | [] => s ← data_line (c_str (line rd)) s; Ret (true, s)
  | c :: bytes =>
      '(rd, ended) ← read_char c rd;
      s ← match ended with Some l => data_line l s | None => Ret s end;
      if bool_decide (end_offset < pos + 1) then Ret (true, s)
      else match grow rd with
           | Some rd => read_section bytes (pos + 1) end_offset rd s
           | None => Ret (false, s)
           end
  end.
End read.

(** A section of an open file; the commands for a base recurse on the same file, and [depth] bounds
    this recursion, which the code does not. *)
Fixpoint load_section (depth : nat) (contents : list Z) (lcmd : loc_cmd) (s : loc_state) : checked (bool * loc_state) :=
  match depth with
  | O => Fault NoEnd
  | S depth =>
      if bool_decide (num0 lcmd < 0) then Ret (false, s)
      else read_section (get_loc_data_line (load_section depth contents)) (drop (Z.to_nat (num0 lcmd)) contents)
             (num0 lcmd) (num1 lcmd) new_reader s
  end.

Section files.
Context (files : gmap (list Z) (list Z)).

(** [open_loc_file], and the section in the file. *)
Definition load_locale (depth : nat) (filename : option (list Z)) (lcmd : loc_cmd) (s : loc_state) : checked (bool * loc_state) :=
  match filename ≫= (files !!.) with
  | None => Ret (false, s)
  | Some contents => load_section depth contents lcmd s
  end.

Definition no_filename (filename : option (list Z)) : bool :=
  match filename with Some (_ :: _) => false | _ => true end.

(** [lcmd] is an index of the list of locales, the first of which is the default one. *)
Definition get_loc_data_file (depth : nat) (filename : option (list Z)) (lcmd : option nat) (s : loc_state) : checked (bool * loc_state) :=
  match lcmd with
  | None => Ret (false, s)
  | Some i =>
      default_locale ← access (locale_list s !! 0%nat);
      lcmd ← access (locale_list s !! i);
      (* The call that populates the default messages. *)
      s ← match msg_table s with
          | Some _ => Ret s
          | None =>
              let s := set_msg_table (Some default_table) s in
              if no_filename filename then Ret s
              else '(_, s) ← load_locale depth filename default_locale (free_dialog_list s); Ret s
          end;
      if no_filename filename then Ret (false, s)
      else if bool_decide (i = 0%nat) then Ret (true, set_msg_table (Some default_table) s)
      else load_locale depth filename lcmd (free_dialog_list (set_msg_table (Some current_table) s))
  end.
End files.

(** ** [get_supported_locales] *)

Definition LOC_RIGHT_TO_LEFT : Z := 1.
Definition LOC_NEEDS_UPDATE : Z := 2.
Definition no_version : Z := 0xFFFFFFFF.

(** The locale that is being read, whether its version was, and the version of the first one. *)
Record locales := mkLocales { complete : list loc_cmd; last_lcmd : option loc_cmd; has_version : bool; base_major : Z; base_minor : Z }.

Definition set_offsets (start end_ : Z) (c : loc_cmd) : loc_cmd := mkLocCmd (command c) (ctrl_id c) start end_ (unum c) (txt0 c) (txt1 c).
Definition add_flag (flag : Z) (c : loc_cmd) : loc_cmd := set_ctrl_id (Z.lor (ctrl_id c) flag) c.

(** The end of the block of the last locale, which is left out when it has no version. *)
Definition end_locale (offset : Z) (l : locales) : list loc_cmd :=
  match last_lcmd l with
  | Some c => if has_version l then complete l ++ [set_offsets (num0 c) (swrap 32 offset) c] else complete l
  | None => complete l
  end.

(** The only attribute is [r]. *)
Definition attributes_of (letters : list Z) (c : loc_cmd) : loc_cmd :=
  fold_left (fun c a => if bool_decide (a = 114) then add_flag LOC_RIGHT_TO_LEFT c else c) letters c.

Definition set_last (c : option loc_cmd) (version : bool) (l : locales) : locales :=
  mkLocales (complete l) c version (base_major l) (base_minor l).

Definition version_command (numbers : list Z) (l : locales) : locales :=
  match has_version l, numbers, last_lcmd l with
  | false, [major; minor], Some c =>
      if bool_decide (base_major l = no_version) then mkLocales (complete l) (Some c) true major minor
      else if bool_decide (major < base_major l \/ major = base_major l /\ minor < base_minor l)
      then set_last (Some (add_flag LOC_NEEDS_UPDATE c)) true l
      else set_last (Some c) true l
  | _, _, _ => l
  end.

(** The command of a line, from the offsets before and after it. *)
Definition locale_command (before after : Z) (lcmd : loc_cmd) (l : locales) : locales :=
  match command lcmd with
  | LC_LOCALE => mkLocales (end_locale before l) (Some (set_offsets (swrap 32 after) (num1 lcmd) lcmd)) false (base_major l) (base_minor l)
  | LC_ATTRIBUTES => set_last (attributes_of (default [] (txt0 lcmd)) <$> last_lcmd l) (has_version l) l
  | LC_VERSION => version_command (unum lcmd) l
  | _ => l
  end.

Definition locale_line (before after : Z) (line : list Z) (l : locales) : locales :=
  match skip_blanks line with
  | c :: args =>
      if bool_decide (c = 108 \/ c = 118 \/ c = 97) then
        match get_loc_cmd c args with Some lcmd => locale_command before after lcmd l | None => l end
      else l
  | [] => l
  end.

(** The loop: [fgets] reads 1023 bytes at most. Each line takes a byte. *)
Fixpoint locale_lines (fuel : nat) (pos : Z) (bytes : list Z) (l : locales) : list loc_cmd :=
  match fuel, bytes with
  | S fuel, _ :: _ =>
      let '(line, rest) := read_line 1023 bytes in
      let after := pos + Z.of_nat (length line) in
      locale_lines fuel after rest (locale_line pos after (c_str line) l)
  | _, _ => end_locale pos l
  end.

Definition dos_mode (first : list Z) : bool :=
  existsb (fun p => bool_decide (p = (CR, LF))) (zip first (drop 1 first)).

Definition get_supported_locales (files : gmap (list Z) (list Z)) (filename : option (list Z)) (s : loc_state) : bool * loc_state :=
  match filename ≫= (files !!.) with
  | None => (false, s)
  | Some contents =>
      let first := take 1024 contents in
      if bool_decide (length first < 1024)%nat then (false, s)
      else if bool_decide (0x80 < default 0 (head first)) then (false, s)
      else if dos_mode first then
        let l := locale_lines (length contents) 0 contents (mkLocales [] None false no_version no_version) in
        (negb (bool_decide (l = [])), set_locale_list l s)
      else (false, s)
  end.

(** ** The windows *)

Section windows.
Context (IsWindow : Z -> bool) (GetDlgItem : Z -> Z -> Z).

(** A command of a dialog, from the window of the dialog and the last control: the text that is
    set. The main dialog is set to NULL after a command for itself. *)
Definition apply_command (dlg_id : Z) (acc : Z * Z * list (Z * list Z)) (lcmd : loc_cmd) : Z * Z * list (Z * list Z) :=
  let '(hDlg, hCtrl, calls) := acc in
  let text := default [] (txt1 lcmd) in
  let main := bool_decide (dlg_id = IDD_DIALOG) in
  let set hCtrl := if bool_decide (command lcmd = LC_TEXT) && negb (bool_decide (hCtrl = 0)) && negb (bool_decide (text = []))
                   then calls ++ [(hCtrl, text)] else calls in
  if bool_decide (command_number (command lcmd) <= command_number LC_TEXT) then
    if bool_decide (ctrl_id lcmd = dlg_id) then
      if main && negb (bool_decide (text = [])) then acc else (if main then 0 else hDlg, hDlg, set hDlg)
    else let hCtrl := GetDlgItem hDlg (ctrl_id lcmd) in (hDlg, hCtrl, set hCtrl)
  else (hDlg, hCtrl, set hCtrl).

Fixpoint apply_dialogs (dlg_id hCtrl : Z) (windows : list Z) (dialogs : list (list (Z * loc_cmd))) : list (Z * list Z) :=
  match windows, dialogs with
  | w :: windows, d :: dialogs =>
      if negb (IsWindow w) || bool_decide (d = []) then apply_dialogs (dlg_id + 1) hCtrl windows dialogs
      else let '(_, hCtrl, calls) := fold_left (apply_command dlg_id) (snd <$> d) (w, hCtrl, []) in
           calls ++ apply_dialogs (dlg_id + 1) hCtrl windows dialogs
  | _, _ => []
  end.

(** The calls of [SetWindowTextU]; a dialog, or all of them. *)
Definition apply_localization (dlg_id window : Z) (s : loc_state) : loc_state * list (Z * list Z) :=
  let n := Z.to_nat (dlg_id - IDD_DIALOG) in
  if bool_decide (IDD_DIALOG <= dlg_id < IDD_DIALOG + loc_dlg_size) then
    let s := if bool_decide (window = 0) then s else set_windows (<[n := window]> (hDlg s)) s in
    (s, apply_dialogs dlg_id 0 (slice n 1 (hDlg s)) (slice n 1 (loc_dlg s)))
  else (s, apply_dialogs IDD_DIALOG 0 (hDlg s) (loc_dlg s)).
End windows.

Definition reset_localization (dlg_id : Z) (s : loc_state) : checked loc_state :=
  if bool_decide (0 <= dlg_id - IDD_DIALOG < loc_dlg_size) then Ret (set_windows (<[Z.to_nat (dlg_id - IDD_DIALOG) := 0]> (hDlg s)) s)
  else Fault OutOfBlock.

(** [toggle_default_locale]: the other table, or NULL, is kept in the meantime. *)
Definition toggle_default_locale (st : option msg_tables * loc_state) : option msg_tables * loc_state :=
  let '(old, s) := st in
  match old with
  | None => (msg_table s, set_msg_table (Some default_table) s)
  | Some t => (None, set_msg_table (Some t) s)
  end.
