(* ===== verification/LocalizationCorrect.v ===== *)
(** LocalizationCorrect: the state of Localization.v. The commands that are kept are those of the
    hash table, one per control of a dialog; each operation keeps this, and never reads a command
    that was freed. *)

From Stdlib Require Import Ascii String Znumtheory.
From stdpp Require Import gmap.
From S2P Require Import Prelude CText Faults Htab HtabCorrect ConfigText Settings LocCommands Localization.

(** ** The data of the hash table *)

Section set_entry_data.
Context (i a : Z) (t : list htab_entry).
Let t' := alter (fun e => mkHtabEntry (used e) (str e) (Some a)) (Z.to_nat i) t.

Lemma lookup_set_entry_data j : t' !! j = (fun e => mkHtabEntry (used e) (str e) (if bool_decide (j = Z.to_nat i) then Some a else data e)) <$> t !! j.
Proof.
  unfold t'. case_bool_decide as Hj.
  - subst j. by rewrite list_lookup_alter_eq.
  - rewrite list_lookup_alter_ne by done. by destruct (t !! j) as [[]|].
Qed.

Lemma taken_set_entry_data j : taken t' j <-> taken t j.
Proof. unfold taken. rewrite lookup_set_entry_data. destruct (t !! Z.to_nat j); naive_solver. Qed.

Lemma stored_set_entry_data s j : stored t' s j <-> stored t s j.
Proof. unfold stored. rewrite lookup_set_entry_data. destruct (t !! Z.to_nat j); naive_solver. Qed.

Lemma table_ok_set_entry_data p : table_ok p t -> table_ok p t'.
Proof.
  intros [Hlen Hent Honce]. split.
  - unfold t'. by rewrite length_alter.
  - intros j e Hj. rewrite lookup_set_entry_data. destruct (t !! Z.to_nat j) as [e'|] eqn:He; [|done]. intros [= <-] Hu. cbn in *.
    destruct (Hent j e' Hj He Hu) as (s & k & Hs & Hv & Hk & Hn & Htk). exists s, k. split_and!; [done..|].
    intros l Hl. apply taken_set_entry_data. by apply Htk.
  - intros s j k Hj Hk H1%stored_set_entry_data H2%stored_set_entry_data. by eapply Honce.
Qed.
End set_entry_data.

Lemma represents_set_entry_data p i a h m : represents p h m -> represents p (set_entry_data i a h) m.
Proof.
  intros [Hs Hf (t & Ht & Hok & Hm)]. split; [done|done|]. eexists. split; [cbn; by rewrite Ht|].
  split; [by apply table_ok_set_entry_data|]. intros s j. rewrite Hm. by rewrite stored_set_entry_data.
Qed.

(** The search leaves the data alone. *)
Lemma htab_hash_data s h i h' t : htab_hash true s h = Ret (i, h') -> table h = Some t ->
  exists t', table h' = Some t' /\ forall j, data <$> t' !! j = data <$> t !! j.
Proof.
  intros Hh Ht. unfold htab_hash in Hh. rewrite Ht in Hh. apply bind_inv in Hh as ([idx|idx] & _ & Hh).
  - injection Hh as <- <-. by exists t.
  - apply bind_inv in Hh as ([] & _ & Hh). apply bind_inv in Hh as (e & He & Hh). injection Hh as <- <-.
    eexists. split; [done|]. intros j. unfold entry_at, access in He. destruct (t !! Z.to_nat idx) as [e'|] eqn:Hidx; [|done].
    injection He as <-. destruct (decide (j = Z.to_nat idx)) as [->|Hne].
    + rewrite list_lookup_insert_eq by (by eapply lookup_lt_Some). by rewrite Hidx.
    + by rewrite list_lookup_insert_ne.
Qed.

(** ** The control table *)

Lemma control_table_small : Forall (fun e : list Z * Z => (length (fst e) <= 125)%nat /\ 1 <= snd e <= 3400 /\ snd e - IDD_DIALOG <> loc_dlg_size) control_id.
Proof. apply (bool_decide_eq_true_1 _). vm_compute. reflexivity. Qed.

Lemma control_number_spec name id : control_number name = Some id -> (length name <= 125)%nat /\ 1 <= id <= 3400 /\ id - IDD_DIALOG <> loc_dlg_size.
Proof.
  unfold control_number. intros H. apply fmap_Some in H as ([k [n' i]] & Hf & ->). apply list_find_Some in Hf as (Hk & -> & _).
  pose proof control_table_small as Hall. rewrite Forall_lookup in Hall. apply (Hall _ _ Hk).
Qed.

(** ** The invariant *)

(** A command of a dialog, at its address. *)
Definition kept (s : loc_state) (idx : nat) (a : Z) (c : loc_cmd) : Prop := exists d, loc_dlg s !! idx = Some d /\ (a, c) ∈ d.

Definition key_of (idx : nat) (c : loc_cmd) : list Z := dialog_key (Z.of_nat idx) (command c) (default [] (txt0 c)).

(** A command that can be kept. *)
Definition text_command (c : loc_cmd) : Prop :=
  command c = LC_TEXT /\ exists name text, txt0 c = Some name /\ txt1 c = Some text /\ control_number name = Some (ctrl_id c).

Definition address_at (t : list htab_entry) (i : Z) : option Z := t !! Z.to_nat i ≫= data.

(** The hash table has the address of the command of each string, and no other. *)
Record table_of (s : loc_state) (t : list htab_entry) (m : gmap (list Z) Z) : Prop := {
  of_table : table (htab_loc s) = Some t;
  of_map : represents LOC_HTAB_SIZE (htab_loc s) m;
  of_free : forall j a, 0 <= j -> address_at t j = Some a -> taken t j;
  of_key : forall k i, m !! k = Some i -> exists a idx c, address_at t i = Some a /\ kept s idx a c /\ key_of idx c = k;
  of_kept : forall idx a c, kept s idx a c -> exists i, m !! key_of idx c = Some i /\ address_at t i = Some a;
}.

(** The lists of the dialogs. *)
Record lists_ok (s : loc_state) : Prop := {
  ok_dialogs : length (loc_dlg s) = Z.to_nat loc_dlg_size;
  ok_command : forall idx a c, kept s idx a c -> text_command c /\ a < next_address s;
  ok_address : forall idx idx' a c c', kept s idx a c -> kept s idx' a c' -> idx = idx' /\ c = c';
  ok_distinct : forall idx d, loc_dlg s !! idx = Some d -> NoDup (fst <$> d);
}.

Record loc_ok (s : loc_state) : Prop := {
  ok_lists : lists_ok s;
  ok_table : exists t m, table_of s t m;
  ok_index : 0 <= dlg_index s < loc_dlg_size;
  ok_windows : length (hDlg s) = Z.to_nat loc_dlg_size;
  ok_default : length (default_msg_table s) = Z.to_nat (MSG_MAX - MSG_000);
  ok_current : length (current_msg_table s) = Z.to_nat (MSG_MAX - MSG_000);
}.

Lemma htab_size_prime : prime LOC_HTAB_SIZE.
Proof.
  destruct (created_table 1 LOC_HTAB_SIZE (mkHtab (Some (replicate 1032 free_entry)) 1031 0)) as [H _]; [by vm_compute|cbn; lia|done].
Qed.
Lemma htab_size_range : 5 <= LOC_HTAB_SIZE < 2 ^ 31.
Proof. unfold LOC_HTAB_SIZE. lia. Qed.

(** The strings of two controls are different. *)
Lemma dialog_key_inj idx idx' c c' : (idx < 10)%nat -> (idx' < 10)%nat -> text_command c -> text_command c' ->
  key_of idx c = key_of idx' c' -> idx = idx' /\ txt0 c = txt0 c'.
Proof.
  intros Hi Hi' (Hc & n & t & Hn & _ & Hid) (Hc' & n' & t' & Hn' & _ & Hid') Heq.
  apply control_number_spec in Hid as [Hl _]. apply control_number_spec in Hid' as [Hl' _].
  unfold key_of, dialog_key in Heq. rewrite Hc, Hc', Hn, Hn' in Heq. cbn [default from_option id] in Heq.
  rewrite !take_ge in Heq by lia. injection Heq as Hidx ->. rewrite Hn, Hn'. split; [|done].
  rewrite !uwrap_small in Hidx by lia. lia.
Qed.

(** ** The lists *)

Lemma elem_of_dialog s idx d a c : loc_dlg s !! idx = Some d -> (a, c) ∈ d -> kept s idx a c.
Proof. intros Hd Hin. by exists d. Qed.

(** What [list_del] and [list_add] leave. *)
Definition without (del : option Z) (d : list (Z * loc_cmd)) : list (Z * loc_cmd) :=
  match del with Some a => filter (fun e => fst e <> a) d | None => d end.
Definition replaced (del : option Z) (index : nat) (entry : Z * loc_cmd) (dialogs : list (list (Z * loc_cmd))) : list (list (Z * loc_cmd)) :=
  alter (cons entry) index (without del <$> dialogs).

Lemma elem_of_without del e d : e ∈ without del d <-> e ∈ d /\ del <> Some (fst e).
Proof. destruct del as [a|]; cbn; [rewrite list_elem_of_filter|]; naive_solver. Qed.

Lemma NoDup_without del d : NoDup (fst <$> d) -> NoDup (fst <$> without del d).
Proof. destruct del as [a|]; [|done]. intros Hd. eapply sublist_NoDup; [exact Hd|apply fmap_sublist, sublist_filter]. Qed.

Lemma list_del_kept s idx a c : kept s idx a c -> list_del a (loc_dlg s) = Some (filter (fun e => fst e <> a) <$> loc_dlg s).
Proof.
  intros (d & Hd & Hin). unfold list_del.
  assert (existsb (existsb (fun e => bool_decide (fst e = a))) (loc_dlg s) = true) as ->; [|done].
  apply existsb_exists. exists d. split; [by apply list_elem_of_In; eapply list_elem_of_lookup_2|].
  apply existsb_exists. exists (a, c). split; [by apply list_elem_of_In|by apply bool_decide_eq_true_2].
Qed.

Section replaced.
Context (s : loc_state) (del : option Z) (index : nat) (lcmd : loc_cmd).
Let entry := (next_address s, lcmd).
Let s' h := set_dialogs (replaced del index entry (loc_dlg s)) h (next_address s + 1) s.

Lemma kept_replaced h idx a c : (index < length (loc_dlg s))%nat ->
  kept (s' h) idx a c <-> (idx = index /\ a = next_address s /\ c = lcmd) \/ (kept s idx a c /\ del <> Some a).
Proof.
  intros Hlen. unfold kept, s', replaced. cbn [set_dialogs loc_dlg]. destruct (decide (idx = index)) as [->|Hne].
  - rewrite list_lookup_alter_eq, list_lookup_fmap. destruct (lookup_lt_is_Some_2 _ _ Hlen) as [d ->]. cbn. split.
    + intros (? & [= <-] & [Hin|[Hin Hdel]%elem_of_without]%elem_of_cons); [left; by injection Hin as -> ->|right]. by split; [exists d|].
    + intros [(_ & -> & ->)|[(? & [= <-] & Hin) Hdel]]; eexists; (split; [done|]); apply elem_of_cons; [by left|right; by apply elem_of_without].
  - rewrite list_lookup_alter_ne, list_lookup_fmap by done. split.
    + intros (? & (d & Hd & ->)%fmap_Some & [Hin Hdel]%elem_of_without). right. split; [by exists d|done].
    + intros [[? _]|[(d & -> & Hin) Hdel]]; [done|]. eexists. split; [done|]. by apply elem_of_without.
Qed.

Lemma lists_ok_replaced h : lists_ok s -> (index < Z.to_nat loc_dlg_size)%nat -> text_command lcmd -> lists_ok (s' h).
Proof.
  intros [Hlen Hcmd Haddr Hnd] Hi Hc. assert (Hil : (index < length (loc_dlg s))%nat) by lia.
  assert (Hold : forall idx a c, kept s idx a c -> a < next_address s) by (intros idx a c Hk; apply (Hcmd idx a c Hk)).
  split.
  - unfold s', replaced. cbn. by rewrite length_alter, length_fmap.
  - intros idx a c Hk. cbn. apply kept_replaced in Hk as [(_ & -> & ->)|[Hk _]]; [split; [done|lia]| |done].
    split; [by apply (Hcmd idx a c)|]. pose proof (Hold _ _ _ Hk). lia.
  - intros idx idx' a c c' Hk Hk'. apply kept_replaced in Hk; [|done]. apply kept_replaced in Hk'; [|done].
    destruct Hk as [(-> & -> & ->)|[Hk _]], Hk' as [(-> & ? & ->)|[Hk' _]]; [done| | |by eapply Haddr].
    + apply Hold in Hk'. lia.
    + subst a. apply Hold in Hk. lia.
  - intros idx d Hd. unfold s', replaced in Hd. cbn in Hd. destruct (decide (idx = index)) as [->|Hne].
    + rewrite list_lookup_alter_eq, list_lookup_fmap in Hd. apply fmap_Some in Hd as (? & (d' & Hd' & ->)%fmap_Some & ->).
      rewrite fmap_cons. apply NoDup_cons. split; [|by apply NoDup_without, (Hnd index)].
      intros ([a c] & Ha & [Hin _]%elem_of_without)%list_elem_of_fmap_1. cbn in Ha. apply (elem_of_dialog s index) in Hin; [|done].
      apply Hold in Hin. lia.
    + rewrite list_lookup_alter_ne, list_lookup_fmap in Hd by done. apply fmap_Some in Hd as (d' & Hd' & ->). by apply NoDup_without, (Hnd idx).
Qed.
End replaced.

(** ** The table *)

Lemma represents_inj p h m k k' i : represents p h m -> m !! k = Some i -> m !! k' = Some i -> k = k'.
Proof.
  intros [_ _ (t & _ & _ & Hm)] [_ (e & He & _ & Hs)]%Hm [_ (e' & He' & _ & Hs')]%Hm. rewrite He in He'. injection He' as <-.
  rewrite Hs in Hs'. by injection Hs'.
Qed.

Lemma address_at_set_entry_data t i a j : 0 <= i -> 0 <= j -> is_Some (t !! Z.to_nat i) ->
  address_at (alter (fun e => mkHtabEntry (used e) (str e) (Some a)) (Z.to_nat i) t) j = if bool_decide (j = i) then Some a else address_at t j.
Proof.
  intros Hi Hj [e He]. unfold address_at. rewrite lookup_set_entry_data. case_bool_decide as H1; case_bool_decide as H2; try lia.
  - subst j. by rewrite He.
  - by destruct (t !! Z.to_nat j).
Qed.

Lemma key_nonneg s t m k i : table_of s t m -> m !! k = Some i -> 0 <= i.
Proof. intros [_ [_ _ (t' & _ & _ & Hm)] _ _ _] [Hi _]%Hm. done. Qed.

(** The index of an address is that of the string of its command. *)
Lemma index_of_address s t m idx a c i : lists_ok s -> table_of s t m -> kept s idx a c -> 0 <= i -> address_at t i = Some a ->
  m !! key_of idx c = Some i.
Proof.
  intros Hok [Hs [_ _ (t' & Ht' & Hok' & Hm)] Hfree Hkey _] Hk Hi Ha. rewrite Hs in Ht'. injection Ht' as <-.
  destruct (Hfree i a Hi Ha) as (e & He & Hu).
  destruct (ok_entry _ _ Hok' i e Hi He Hu) as (k & _ & Hstr & _).
  assert (Hki : m !! k = Some i) by (apply Hm; split; [done|by exists e]).
  destruct (Hkey k i Hki) as (a' & idx' & c' & Ha' & Hk' & <-). rewrite Ha in Ha'. injection Ha' as <-.
  by destruct (ok_address s Hok _ _ _ _ _ Hk Hk') as [-> ->].
Qed.

(** The hash table after a command was put for a string: its index has the new address. *)
Section put_command.
Context (s : loc_state) (t : list htab_entry) (m : gmap (list Z) Z) (index : nat) (lcmd : loc_cmd).
Context (h1 : htab_table) (t1 : list htab_entry) (m1 : gmap (list Z) Z) (i : Z).
Context (Hok : lists_ok s) (Htab : table_of s t m) (Hindex : (index < Z.to_nat loc_dlg_size)%nat) (Hcmd : text_command lcmd).
Context (Ht1 : table h1 = Some t1) (Hm1 : represents LOC_HTAB_SIZE h1 m1).
Context (Hdata : forall j, address_at t1 j = address_at t j) (Htaken : forall j, 0 <= j -> taken t j -> taken t1 j).
Context (Hkey : m1 !! key_of index lcmd = Some i) (Hother : forall k, k <> key_of index lcmd -> m1 !! k = m !! k).
Context (Hsame : forall j, m !! key_of index lcmd = Some j -> j = i) (Hmine : forall k, m !! k = Some i -> k = key_of index lcmd).

Let s1 := set_dialogs (replaced (address_at t i) index (next_address s, lcmd) (loc_dlg s)) (set_entry_data i (next_address s) h1) (next_address s + 1) s.
Let t2 := alter (fun e => mkHtabEntry (used e) (str e) (Some (next_address s))) (Z.to_nat i) t1.

Lemma put_index : 0 <= i /\ is_Some (t1 !! Z.to_nat i).
Proof.
  destruct Hm1 as [_ _ (t' & Ht' & _ & Hm')]. rewrite Ht1 in Ht'. injection Ht' as <-.
  apply Hm' in Hkey as [Hi (e & He & _)]. by split; [|exists e].
Qed.

(** The address that was there is that of a command for the same control. *)
Lemma put_deleted idx a c : kept s idx a c -> address_at t i = Some a <-> key_of idx c = key_of index lcmd.
Proof.
  intros Hk. split; intros H.
  - apply Hmine. apply (index_of_address s t m idx a c i Hok Htab Hk); [apply put_index|done].
  - destruct (of_kept s t m Htab idx a c Hk) as (j & Hj & Ha). rewrite H in Hj. by rewrite <- (Hsame j Hj).
Qed.

Lemma put_address j : 0 <= j -> address_at t2 j = if bool_decide (j = i) then Some (next_address s) else address_at t j.
Proof. intros Hj. destruct put_index as [Hi He]. unfold t2. rewrite address_at_set_entry_data by done. by rewrite Hdata. Qed.

Lemma table_of_put : table_of s1 t2 m1.
Proof.
  destruct put_index as [Hi _]. assert (Hlen : (index < length (loc_dlg s))%nat) by (rewrite (ok_dialogs s Hok); lia).
  split.
  - unfold s1, set_entry_data. cbn. by rewrite Ht1.
  - by apply represents_set_entry_data.
  - intros j a Hj Ha. apply taken_set_entry_data. rewrite put_address in Ha by done. case_bool_decide as Hji; [subst j|by eapply Htaken, of_free].
    destruct Hm1 as [_ _ (t' & Ht' & _ & Hm')]. rewrite Ht1 in Ht'. injection Ht' as <-.
    apply Hm' in Hkey as [_ (e & He & Hu & _)]. by exists e.
  - intros k j Hkj. destruct (decide (k = key_of index lcmd)) as [->|Hne].
    + rewrite Hkey in Hkj. injection Hkj as <-. exists (next_address s), index, lcmd. split_and!; [|apply kept_replaced; [done|by left]|done].
      rewrite put_address, bool_decide_true; done.
    + rewrite Hother in Hkj by done. destruct (of_key s t m Htab k j Hkj) as (a & idx & c & Ha & Hk & Hkc).
      assert (Hji : j <> i) by (intros ->; by apply Hne, Hmine). exists a, idx, c. split_and!; [|apply kept_replaced; [done|right]|done].
      * rewrite put_address, bool_decide_false; [done..|by eapply key_nonneg].
      * split; [done|]. rewrite (put_deleted idx a c Hk). congruence.
  - intros idx a c Hk. apply kept_replaced in Hk as [(-> & -> & ->)|[Hk Hdel]]; [| |done].
    + exists i. rewrite put_address, bool_decide_true by done. done.
    + rewrite (put_deleted idx a c Hk) in Hdel. destruct (of_kept s t m Htab idx a c Hk) as (j & Hj & Ha).
      exists j. rewrite Hother by done. split; [done|]. rewrite put_address by (by eapply key_nonneg).
      rewrite bool_decide_false; [done|]. intros ->. by apply Hdel, Hmine.
Qed.
End put_command.

Lemma taken_string s t m i : table_of s t m -> 0 <= i -> taken t i -> exists k, m !! k = Some i.
Proof.
  intros [Hs [_ _ (t' & Ht' & Hok & Hm)] _ _ _] Hi (e & He & Hu). rewrite Hs in Ht'. injection Ht' as <-.
  destruct (ok_entry _ _ Hok i e Hi He Hu) as (k & _ & Hstr & _). exists k. apply Hm. split; [done|]. by exists e.
Qed.

Lemma string_taken h t m k i : represents LOC_HTAB_SIZE h m -> table h = Some t -> m !! k = Some i -> 0 <= i /\ taken t i.
Proof.
  intros [_ _ (t' & Ht' & _ & Hm)] Ht [Hi (e & He & Hu & _)]%Hm. rewrite Ht in Ht'. injection Ht' as <-. split; [done|]. by exists e.
Qed.

(** ** [add_dialog_command] *)

(** The search, in a table whose data are addresses: the index, and what stays. *)
Lemma htab_hash_index s t m k : table_of s t m ->
  (exists i h1 t1 m1, htab_hash true k (htab_loc s) = Ret (i, h1) /\ table h1 = Some t1 /\ represents LOC_HTAB_SIZE h1 m1 /\
    (forall j, address_at t1 j = address_at t j) /\ (forall j, 0 <= j -> taken t j -> taken t1 j) /\ m1 !! k = Some i /\
    (forall k', k' <> k -> m1 !! k' = m !! k') /\ (forall j, m !! k = Some j -> j = i) /\ (forall k', m !! k' = Some i -> k' = k) /\
    filled h1 = filled (htab_loc s) + match address_at t i with Some _ => 0 | None => 1 end) \/
  htab_hash true k (htab_loc s) = Fault AssertFailed /\ LOC_HTAB_SIZE <= filled (htab_loc s) /\ m !! k = None.
Proof.
  intros Htab. pose proof (htab_hash_spec _ htab_size_prime htab_size_range _ m k (of_map s t m Htab)) as Hh.
  pose proof (of_table s t m Htab) as Ht. destruct (m !! k) as [i|] eqn:Hk.
  - left. exists i, (htab_loc s), t, m. destruct (of_key s t m Htab k i Hk) as (a & _ & _ & Ha & _). rewrite Ha.
    split_and!; try done; [by apply Htab|by intros j [= ->]| |lia].
    intros k' Hk'. by eapply represents_inj; [apply Htab|..].
  - case_bool_decide as Hroom; [|right; split; [done|split; [lia|done]]]. left.
    destruct Hh as (i & h1 & Hh & Hi & Hrep & Hnew). destruct (htab_hash_data _ _ _ _ _ Hh Ht) as (t1 & Ht1 & Hd).
    exists i, h1, t1, (<[k := i]> m).
    assert (Hdata : forall j, address_at t1 j = address_at t j).
    { intros j. unfold address_at. specialize (Hd (Z.to_nat j)). destruct (t1 !! Z.to_nat j), (t !! Z.to_nat j); cbn in *; congruence. }
    assert (Hnone : address_at t i = None).
    { destruct (address_at t i) as [a|] eqn:Ha; [|done]. apply (of_free s t m Htab) in Ha; [|lia].
      apply (taken_string s t m i Htab) in Ha as [k' Hk']; [|lia]. by apply Hnew in Hk'. }
    split_and!; try done.
    + intros j Hj Htk. apply (taken_string s t m j Htab Hj) in Htk as [k' Hk']. eapply string_taken; [exact Hrep|exact Ht1|].
      rewrite lookup_insert_ne; [exact Hk'|congruence].
    + by rewrite lookup_insert_eq.
    + intros k' Hk'. by rewrite lookup_insert_ne.
    + intros k' Hk'. by apply Hnew in Hk'.
    + rewrite Hnone. pose proof (rep_filled _ _ _ Hrep) as Hf1. pose proof (rep_filled _ _ _ (of_map s t m Htab)) as Hf.
      rewrite map_size_insert_None in Hf1 by done. lia.
Qed.

(** The state after a command was put in a dialog. *)
Definition put_in (del : option Z) (index : Z) (lcmd : loc_cmd) (h : htab_table) (s : loc_state) : loc_state :=
  set_dialogs (replaced del (Z.to_nat index) (next_address s, lcmd) (loc_dlg s)) h (next_address s + 1) s.

Lemma add_dialog_command_spec s index lcmd : loc_ok s -> 0 <= index < loc_dlg_size -> text_command lcmd ->
  (exists del h, add_dialog_command index lcmd s = Ret (put_in del index lcmd h s) /\ loc_ok (put_in del index lcmd h s) /\
    (forall idx a c, kept s idx a c -> del = Some a <-> idx = Z.to_nat index /\ txt0 c = txt0 lcmd) /\
    filled h = filled (htab_loc s) + (match del with Some _ => 0 | None => 1 end) /\
    (forall a, del = Some a -> exists c, kept s (Z.to_nat index) a c)) \/
  add_dialog_command index lcmd s = Fault AssertFailed /\ LOC_HTAB_SIZE <= filled (htab_loc s) /\
    forall a c, kept s (Z.to_nat index) a c -> txt0 c <> txt0 lcmd.
Proof.
  intros [Hlists (t & m & Htab) Hidx0 Hwin Hdef Hcur] Hindex Hcmd. pose proof Hcmd as (Hc & name & text & Hname & _ & _).
  assert (Hidx : (Z.to_nat index < 10)%nat) by (unfold loc_dlg_size in *; lia).
  assert (Hkeyof : key_of (Z.to_nat index) lcmd = dialog_key index (command lcmd) name).
  { unfold key_of. rewrite Hname. cbn [default from_option id]. by rewrite Z2Nat.id by lia. }
  assert (Hin : forall idx a c, kept s idx a c -> (idx < 10)%nat).
  { intros idx a c (d & Hd & _). apply lookup_lt_Some in Hd. rewrite (ok_dialogs s Hlists) in Hd. done. }
  assert (Hinj : forall idx a c, kept s idx a c -> key_of idx c = key_of (Z.to_nat index) lcmd <-> idx = Z.to_nat index /\ txt0 c = txt0 lcmd).
  { intros idx a c Hk. pose proof (ok_command s Hlists _ _ _ Hk) as [Hck _]. split.
    - apply dialog_key_inj; [by eapply Hin|done..].
    - intros [-> Heq]. unfold key_of. by rewrite Heq, Hc, (proj1 Hck). }
  rewrite Hname in Hinj |- *. unfold add_dialog_command. rewrite Hname, bool_decide_false by lia. rewrite <- Hkeyof.
  destruct (htab_hash_index s t m (key_of (Z.to_nat index) lcmd) Htab)
    as [(i & h1 & t1 & m1 & -> & Ht1 & Hm1 & Hdata & Htaken & Hkey & Hother & Hsame & Hmine & Hfilled)|(-> & Hfull & Hnone)].
  2: { right. split_and!; [done|done|]. intros a c Hk Heq. destruct (of_kept s t m Htab _ _ _ Hk) as (j & Hj & _).
       rewrite (proj2 (Hinj _ _ _ Hk)) in Hj by done. congruence. }
  left. cbn [mbind checked_bind]. destruct (string_taken _ _ _ _ _ Hm1 Ht1 Hkey) as [Hi (e1 & He1 & Hu1)].
  assert (Hi0 : i <> 0).
  { destruct Hm1 as [_ _ (t1' & Ht1' & Hok1 & _)]. rewrite Ht1 in Ht1'. injection Ht1' as <-.
    destruct (ok_entry _ _ Hok1 i e1 Hi He1 Hu1) as (str' & k & _ & _ & _ & -> & _).
    pose proof (nth_probe_range _ htab_size_range (hash_value LOC_HTAB_SIZE str') k). lia. }
  assert (Hdel : forall idx a c, kept s idx a c -> address_at t i = Some a <-> idx = Z.to_nat index /\ txt0 c = Some name).
  { intros idx a c Hk. rewrite <- (Hinj idx a c Hk).
    exact (put_deleted s t m _ lcmd h1 t1 m1 i Hlists Htab Ht1 Hm1 Hkey Hsame Hmine idx a c Hk). }
  assert (Hkept : forall a, address_at t i = Some a -> exists c, kept s (Z.to_nat index) a c).
  { intros a Ha. pose proof Ha as Htk. apply (of_free s t m Htab) in Htk; [|done]. apply (taken_string s t m i Htab Hi) in Htk as [k Hk].
    destruct (of_key s t m Htab k i Hk) as (a' & idx & c & Ha' & Hkc & _). rewrite Ha in Ha'. injection Ha' as <-.
    destruct (proj1 (Hdel _ _ _ Hkc) Ha) as [-> _]. by exists c. }
  exists (address_at t i), (set_entry_data i (next_address s) h1). split_and!; [|split|done|done|done].
  - rewrite bool_decide_false by done. rewrite Ht1. cbn [access mbind checked_bind]. unfold entry_at. rewrite He1. cbn [access mbind checked_bind].
    replace (data e1) with (address_at t i) by (rewrite <- Hdata; unfold address_at; by rewrite He1).
    unfold put_in, replaced. destruct (address_at t i) as [a|] eqn:Ha; cbn [without].
    + destruct (Hkept a eq_refl) as [c Hk]. by rewrite (list_del_kept _ _ _ _ Hk).
    + by rewrite list_fmap_id.
  - apply lists_ok_replaced; [done|unfold loc_dlg_size in *; lia|done].
  - eexists _, m1. eapply table_of_put; eauto.
  - done.
  - done.
  - done.
  - done.
Qed.
