(* ===== verification/LocalizationCatalog.v ===== *)
(** LocalizationCatalog: what a section of a localization file is meant to define, a map of
    messages and a map of the texts of the controls, and that Localization.v refines it. *)

From Stdlib Require Import Ascii String.
From stdpp Require Import gmap.
From S2P Require Import Prelude CText Faults Htab HtabCorrect ConfigText Settings LocCommands Localization LocalizationCorrect.

(** ** The abstract specification *)

(** The dialog that the next controls are in, the messages, and the texts of the controls of the dialogs. *)
Record catalog := mkCatalog { group : Z; messages : gmap Z (list Z); controls : gmap (Z * list Z) (list Z) }.

Definition set_group (g : Z) (cat : catalog) : catalog := mkCatalog g (messages cat) (controls cat).
Definition add_message (n : Z) (text : list Z) (cat : catalog) : catalog := mkCatalog (group cat) (<[n := text]> (messages cat)) (controls cat).
Definition add_control (name text : list Z) (cat : catalog) : catalog := mkCatalog (group cat) (messages cat) (<[(group cat, name) := text]> (controls cat)).

Definition is_message (name : list Z) : bool := bool_decide (take 4 name = chars "MSG_").

Section perform.
Context (base : loc_cmd -> catalog -> checked catalog) (locales : list loc_cmd) (sel : msg_tables).

Definition perform_text (name text : list Z) (cat : catalog) : catalog :=
  if is_message name then
    let n := atoi (drop 4 name) in if bool_decide (1 <= n < MSG_MAX - MSG_000) then add_message n text cat else cat
  else match control_number name, sel with
       | Some _, current_table => add_control name text cat
       | _, _ => cat
       end.

Definition perform_group (name : list Z) (cat : catalog) : catalog :=
  if is_message name then cat
  else match control_number name, sel with
       | Some id, current_table => if bool_decide (0 <= id - IDD_DIALOG < loc_dlg_size) then set_group (id - IDD_DIALOG) cat else cat
       | _, _ => cat
       end.

Definition perform (c : loc_cmd) (cat : catalog) : checked catalog :=
  match command c, sel with
  | LC_TEXT, _ => Ret (perform_text (default [] (txt0 c)) (default [] (txt1 c)) cat)
  | LC_GROUP, _ => Ret (perform_group (default [] (txt0 c)) cat)
  | LC_BASE, current_table =>
      match get_locale_from_name (default [] (txt0 c)) false locales ≫= (locales !!.) with Some b => base b cat | None => Ret cat end
  | _, _ => Ret cat
  end.

Definition perform_line (l : list Z) (cat : catalog) : checked catalog :=
  match parse_line l with
  | Some c => if bool_decide (command c = LC_LOCALE) then Ret cat else perform c cat
  | None => Ret cat
  end.

Fixpoint perform_lines (ls : list (list Z)) (cat : catalog) : checked catalog :=
  match ls with [] => Ret cat | l :: ls => cat ← perform_line l cat; perform_lines ls cat end.
End perform.

(** The lines of a section, and whether the reader reaches its end. *)
Fixpoint section_lines (bytes : list Z) (pos end_offset : Z) (rd : reader) : checked (list (list Z) * bool) :=
  match bytes with
  | [] => Ret ([c_str (line rd)], true)
  | c :: bytes =>
      '(rd, ended) ← read_char c rd;
      '(ls, b) ← (if bool_decide (end_offset < pos + 1) then Ret ([], true)
                  else match grow rd with Some rd => section_lines bytes (pos + 1) end_offset rd | None => Ret ([], false) end);
      Ret (match ended with Some l => l :: ls | None => ls end, b)
  end.

Definition lines_of_section (contents : list Z) (lcmd : loc_cmd) : checked (list (list Z) * bool) :=
  if bool_decide (num0 lcmd < 0) then Ret ([], false)
  else section_lines (drop (Z.to_nat (num0 lcmd)) contents) (num0 lcmd) (num1 lcmd) new_reader.

(** The catalog of a section, from that of the sections before it. *)
Fixpoint catalog_section (depth : nat) (contents : list Z) (locales : list loc_cmd) (sel : msg_tables) (lcmd : loc_cmd) (cat : catalog) : checked (bool * catalog) :=
  match depth with
  | O => Fault NoEnd
  | S depth =>
      '(ls, b) ← lines_of_section contents lcmd;
      cat ← perform_lines (fun c cat => r ← catalog_section depth contents locales sel c cat; Ret (snd r)) locales sel ls cat;
      Ret (b, cat)
  end.

(** ** What a state shows *)

Definition messages_in_use (sel : msg_tables) (s : loc_state) : list (option (list Z)) :=
  match sel with default_table => default_msg_table s | current_table => current_msg_table s end.

Record shows (sel : msg_tables) (s : loc_state) (cat : catalog) : Prop := {
  shows_ok : loc_ok s;
  shows_table : msg_table s = Some sel;
  shows_group : dlg_index s = group cat /\ 0 <= group cat < loc_dlg_size;
  shows_messages : forall n, 1 <= n < MSG_MAX - MSG_000 -> messages_in_use sel s !! Z.to_nat n = Some (messages cat !! n);
  shows_controls : forall idx name text, controls cat !! (idx, name) = Some text <->
    0 <= idx < loc_dlg_size /\ exists a c, kept s (Z.to_nat idx) a c /\ txt0 c = Some name /\ txt1 c = Some text;
  shows_filled : filled (htab_loc s) = Z.of_nat (base.size (controls cat));
}.

(** What a load leaves alone. *)
Definition same_rest (sel : msg_tables) (s s' : loc_state) : Prop :=
  locale_list s' = locale_list s /\ hDlg s' = hDlg s /\
  (sel = current_table -> default_msg_table s' = default_msg_table s) /\ (sel = default_table -> current_msg_table s' = current_msg_table s).

#[export] Instance same_rest_preorder sel : PreOrder (same_rest sel).
Proof. split; unfold same_rest; [done|]. intros x y z (? & ? & ? & ?) (? & ? & ? & ?). split_and!; intuition congruence. Qed.

(** ** The form of a command *)

Definition well_formed (c : loc_cmd) : Prop :=
  match command c with
  | LC_TEXT => is_Some (txt0 c) /\ is_Some (txt1 c)
  | LC_GROUP | LC_BASE => is_Some (txt0 c)
  | _ => True
  end.

Lemma get_arg_texts t p p' : get_arg t p = Some p' ->
  length (texts p') = (length (texts p) + match t with Arg_c | Arg_s => 1 | _ => 0 end)%nat.
Proof.
  unfold get_arg. case_bool_decide; [done|]. intros Hp. destruct t.
  - destruct (word _ _) in Hp. injection Hp as <-. cbn. by rewrite length_app.
  - destruct (skip_blanks _) as [|c l]; [done|]. case_bool_decide; [|done]. apply bind_Some in Hp as ([w r] & _ & Hp). injection Hp as <-. cbn. by rewrite length_app.
  - destruct (word _ _) in Hp. destruct (strtol_all _) in Hp; [|done]. injection Hp as <-. cbn. lia.
  - case_bool_decide; [|done]. injection Hp as <-. cbn. lia.
Qed.

Lemma parse_line_well_formed l c : parse_line l = Some c -> well_formed c.
Proof.
  unfold parse_line. destruct (skip_blanks l) as [|t r]; [done|]. case_bool_decide; [done|]. destruct r as [|b r]; [done|].
  destruct (is_blank b); [|done]. unfold get_loc_cmd. intros Hc. apply bind_Some in Hc as ([k [cmd args]] & Hf & Hc).
  apply fmap_Some in Hf as ([n e] & Hf & He). apply list_find_Some in Hf as (Hn & _ & _). cbn in He. subst e.
  apply bind_Some in Hc as (p & Hp & [= <-]). unfold well_formed. cbn.
  assert (Htexts : forall i, (i < length (texts p))%nat -> is_Some (texts p !! i)) by (intros; by apply lookup_lt_is_Some_2).
  do 7 (destruct n as [|n]; [cbn in Hn; injection Hn as <- <- <-; cbn in Hp;
    repeat (let p' := fresh "p'" in let Hp' := fresh "Hp'" in apply bind_Some in Hp as (p' & Hp' & Hp); apply get_arg_texts in Hp'); injection Hp as <-;
    cbn in *; try done; try split; apply Htexts; lia|]). by destruct n.
Qed.

(** ** The commands refine the specification *)

(** The operations on the messages leave the dialogs alone. *)
Lemma loc_ok_same s s' : loc_ok s -> 0 <= dlg_index s' < loc_dlg_size ->
  loc_dlg s' = loc_dlg s -> htab_loc s' = htab_loc s -> next_address s' = next_address s ->
  length (hDlg s') = length (hDlg s) -> length (default_msg_table s') = length (default_msg_table s) ->
  length (current_msg_table s') = length (current_msg_table s) -> loc_ok s'.
Proof.
  intros [Hlists (t & m & Htab) _ Hw Hd Hc] Hi Hdlg Hh Hn Hw' Hd' Hc'.
  assert (Hkept : forall idx a c, kept s' idx a c <-> kept s idx a c) by (intros; unfold kept; by rewrite Hdlg).
  split; [| |done|congruence..].
  - destruct Hlists as [H1 H2 H3 H4]. split; [by rewrite Hdlg| | |by rewrite Hdlg].
    + intros idx a c Hk%Hkept. rewrite Hn. by eapply H2.
    + intros idx idx' a c c' Hk%Hkept Hk'%Hkept. by eapply H3.
  - exists t, m. destruct Htab as [H1 H2 H3 H4 H5]. split; [by rewrite Hh|by rewrite Hh|done| |].
    + intros k i Hki. destruct (H4 k i Hki) as (a & idx & c & ? & ? & ?). exists a, idx, c. by rewrite Hkept.
    + intros idx a c Hk%Hkept. by apply H5.
Qed.

Lemma shows_message sel s cat lcmd n text : shows sel s cat -> 1 <= n < MSG_MAX - MSG_000 -> ctrl_id lcmd = MSG_000 + n ->
  txt1 lcmd = Some text ->
  exists s', add_message_command lcmd s = Ret s' /\ shows sel s' (add_message n text cat) /\ same_rest sel s s'.
Proof.
  intros [Hok Hsel Hgroup Hmsg Hctl Hfil] Hn Hid Ht. unfold add_message_command. rewrite Hid, bool_decide_false by lia.
  rewrite Hsel, Ht. replace (MSG_000 + n - MSG_000) with n by lia.
  assert (Hlook : forall n', 1 <= n' < MSG_MAX - MSG_000 -> (<[Z.to_nat n := Some text]> (messages_in_use sel s)) !! Z.to_nat n' = Some (<[n := text]> (messages cat) !! n')).
  { intros n' Hn'. destruct (decide (n' = n)) as [->|Hne].
    - rewrite lookup_insert_eq, list_lookup_insert_eq; [done|]. by eapply lookup_lt_Some, Hmsg.
    - rewrite lookup_insert_ne, list_lookup_insert_ne by lia. by apply Hmsg. }
  destruct sel; eexists; (split; [done|]); split.
  1, 3: split; [eapply loc_ok_same; try done; cbn; [apply Hok|by rewrite ?length_insert]|done|done|exact Hlook|exact Hctl|exact Hfil].
  all: by split_and!.
Qed.

Lemma shows_add_control sel s cat lcmd name text : shows sel s cat -> text_command lcmd -> txt0 lcmd = Some name -> txt1 lcmd = Some text ->
  Z.of_nat (base.size (controls (add_control name text cat))) <= LOC_HTAB_SIZE ->
  exists s', add_dialog_command (dlg_index s) lcmd s = Ret s' /\ shows sel s' (add_control name text cat) /\ same_rest sel s s'.
Proof.
  intros [Hok Hsel [Hgroup Hrange] Hmsg Hctl Hfil] Hcmd Hname Htext Hsize. rewrite Hgroup. cbn [add_control controls] in Hsize.
  destruct (add_dialog_command_spec s (group cat) lcmd Hok Hrange Hcmd) as [(del & h & -> & Hok' & Hdel & Hf & Hdelk)|(_ & Hfull & Hnone)].
  2: { exfalso. destruct (controls cat !! (group cat, name)) as [text'|] eqn:Hc.
       - apply Hctl in Hc as (_ & a & c & Hk & Hn & _). apply (Hnone a c Hk). congruence.
       - rewrite map_size_insert_None in Hsize by done. lia. }
  eexists. split; [done|]. split; [|done]. pose proof (ok_dialogs s (ok_lists s Hok)) as Hlen.
  assert (Hlt : (Z.to_nat (group cat) < length (loc_dlg s))%nat) by lia. split; [done|done|done|exact Hmsg| |].
  - intros idx name' text'. cbn [add_control controls group].
    setoid_rewrite (kept_replaced s del (Z.to_nat (group cat)) lcmd); [|done].
    destruct (decide ((idx, name') = (group cat, name))) as [[= -> ->]|Hne].
    + rewrite lookup_insert_eq. split.
      * intros [= <-]. split; [done|]. exists (next_address s), lcmd. split; [by left|done].
      * intros (_ & a & c & [(_ & -> & ->)|[Hk Hd]] & Hn & Ht); [congruence|]. exfalso. apply Hd, (Hdel _ _ _ Hk). split; [done|congruence].
    + rewrite lookup_insert_ne, Hctl by congruence. split.
      * intros (Hi & a & c & Hk & Hn & Ht). split; [done|]. exists a, c. split_and!; [right|done|done]. split; [done|].
        intros Hd. apply (Hdel _ _ _ Hk) in Hd as [Hi' Hn']. apply Hne. f_equal; [lia|congruence].
      * intros (Hi & a & c & [(Hi' & -> & ->)|[Hk _]] & Hn & Ht); [exfalso; apply Hne; f_equal; [lia|congruence]|].
        split; [done|]. by exists a, c.
  - cbn. rewrite Hf, Hfil. destruct (controls cat !! (group cat, name)) as [text'|] eqn:Hc.
    + rewrite map_size_insert_Some by done. apply Hctl in Hc as (_ & a & c & Hk & Hn & _).
      rewrite (proj2 (Hdel _ a _ Hk)); [lia|]. split; [done|congruence].
    + rewrite map_size_insert_None by done. destruct del as [a|]; [|lia]. exfalso. destruct (Hdelk a eq_refl) as [c Hk].
      destruct (proj1 (Hdel _ _ _ Hk) eq_refl) as [_ Hn]. destruct (ok_command s (ok_lists s Hok) _ _ _ Hk) as [(_ & n' & t' & Hn' & Ht' & _) _].
      assert (controls cat !! (group cat, name) = Some t'); [|congruence]. apply Hctl. split; [done|]. exists a, c. split_and!; [done|congruence|done].
Qed.

Lemma shows_group_command sel s cat g : shows sel s cat -> 0 <= g < loc_dlg_size ->
  shows sel (set_dlg_index g s) (set_group g cat) /\ same_rest sel s (set_dlg_index g s).
Proof.
  intros [Hok Hsel Hgroup Hmsg Hctl Hfil] Hg. split; [|done].
  split; [by eapply loc_ok_same|done|done|exact Hmsg|exact Hctl|exact Hfil].
Qed.

(** ** The catalog grows *)

Definition controls_size (cat : catalog) : Z := Z.of_nat (base.size (controls cat)).

Lemma add_control_size name text cat : controls_size cat <= controls_size (add_control name text cat).
Proof.
  unfold controls_size. cbn. destruct (controls cat !! (group cat, name)) eqn:Hc; [rewrite map_size_insert_Some by done|rewrite map_size_insert_None by done]; lia.
Qed.

Lemma perform_text_size sel name text cat : controls_size cat <= controls_size (perform_text sel name text cat).
Proof.
  unfold perform_text. destruct (is_message name); [by case_bool_decide|]. destruct (control_number name), sel; try done. apply add_control_size.
Qed.

Lemma perform_group_size sel name cat : controls_size (perform_group sel name cat) = controls_size cat.
Proof. unfold perform_group. destruct (is_message name), (control_number name), sel; try done. by case_bool_decide. Qed.

Section growth.
Context (base : loc_cmd -> catalog -> checked catalog) (locales : list loc_cmd) (sel : msg_tables).
Context (Hbase : forall c cat cat', base c cat = Ret cat' -> controls_size cat <= controls_size cat').

Lemma perform_line_size l cat cat' : perform_line base locales sel l cat = Ret cat' -> controls_size cat <= controls_size cat'.
Proof.
  unfold perform_line. destruct (parse_line l) as [c|]; [|by intros [= <-]]. case_bool_decide; [by intros [= <-]|]. unfold perform.
  destruct (command c), sel; try (by intros [= <-]); try (intros [= <-]; by apply perform_text_size || by rewrite perform_group_size).
  destruct (get_locale_from_name _ _ _ ≫= _) as [b|]; [apply Hbase|by intros [= <-]].
Qed.

Lemma perform_lines_size ls : forall cat cat', perform_lines base locales sel ls cat = Ret cat' -> controls_size cat <= controls_size cat'.
Proof.
  induction ls as [|l ls IH]; intros cat cat' H; cbn in H; [by injection H as <-|].
  apply bind_inv in H as (cat1 & H1%perform_line_size & H2%IH). lia.
Qed.
End growth.

Lemma catalog_section_size depth contents locales sel : forall lcmd cat b cat',
  catalog_section depth contents locales sel lcmd cat = Ret (b, cat') -> controls_size cat <= controls_size cat'.
Proof.
  induction depth as [|depth IH]; intros lcmd cat b cat' H; [done|]. cbn in H. apply bind_inv in H as ([ls b'] & _ & H).
  apply bind_inv in H as (cat1 & H & [= -> ->]). eapply perform_lines_size; [|exact H].
  intros c x y Hc. apply bind_inv in Hc as ([b1 y'] & Hc & [= <-]). by eapply IH.
Qed.

(** ** The simulation *)

Section simulation.
Context (load_base : loc_cmd -> loc_state -> checked (bool * loc_state)) (base : loc_cmd -> catalog -> checked catalog).
Context (locales : list loc_cmd) (sel : msg_tables).

(** A step on the catalog is one on the states that show it. *)
Definition simulates {A} (step : loc_state -> checked (A * loc_state)) (spec : catalog -> checked catalog) : Prop :=
  forall s cat cat', shows sel s cat -> locale_list s = locales -> spec cat = Ret cat' -> controls_size cat' <= LOC_HTAB_SIZE ->
  exists a s', step s = Ret (a, s') /\ shows sel s' cat' /\ same_rest sel s s'.

Context (Hbase : forall b, simulates (load_base b) (base b)).

Lemma is_message_eq name : bool_decide (take 4 name = chars "MSG_") = is_message name.
Proof. done. Qed.

Lemma atoi_range s : - 2 ^ 31 <= atoi s <= 2 ^ 31 - 1.
Proof.
  unfold atoi. destruct (sign (skip_spaces s)) as [neg s'] eqn:Hs.
  assert (Hpos : forall t acc, 0 <= acc -> 0 <= digits_value 10 acc t).
  { induction t as [|c t IH]; intros acc Hacc; cbn; [done|]. destruct (digit_value c) as [d|] eqn:Hd; [|done].
    case_bool_decide; [|done]. apply IH. unfold digit_value in Hd. repeat case_bool_decide; simplify_eq; lia. }
  specialize (Hpos s' 0 ltac:(lia)). destruct neg; lia.
Qed.

(** The number of a message, which may wrap, is in the table when it does not. *)
Lemma message_number n : - 2 ^ 31 <= n <= 2 ^ 31 - 1 ->
  (1 <= n < MSG_MAX - MSG_000 -> swrap 32 (MSG_000 + n) = MSG_000 + n) /\
  (~ 1 <= n < MSG_MAX - MSG_000 -> swrap 32 (MSG_000 + n) <= MSG_000 \/ MSG_MAX <= swrap 32 (MSG_000 + n)).
Proof.
  intros Hn. unfold swrap, MSG_MAX, MSG_000 in *. destruct (decide (3000 + n < 2 ^ 31)) as [Hs|Hs].
  - assert ((3000 + n + 2 ^ (32 - 1)) mod 2 ^ 32 = 3000 + n + 2 ^ 31) as ->; [|change (32 - 1) with 31; lia].
    change (32 - 1) with 31. apply Z.mod_small. lia.
  - assert ((3000 + n + 2 ^ (32 - 1)) mod 2 ^ 32 = n + 3000 + 2 ^ 31 - 2 ^ 32) as ->; [|change (32 - 1) with 31; lia].
    change (32 - 1) with 31. symmetry. apply (Zmod_unique _ _ 1); lia.
Qed.

Lemma simulates_text c name text : command c = LC_TEXT -> txt0 c = Some name -> txt1 c = Some text ->
  simulates (dispatch_loc_cmd load_base c) (fun cat => Ret (perform_text sel name text cat)).
Proof.
  intros Hc Hn Ht s cat cat' Hs _ [= <-] Hsize. unfold dispatch_loc_cmd. rewrite Hc, Hn. cbn [default from_option id].
  change (bool_decide (command_number LC_TEXT <= command_number LC_TEXT)) with true. cbn iota. unfold resolve_control.
  rewrite Hc, is_message_eq. unfold perform_text in *. destruct (is_message name).
  - rewrite (bool_decide_true (LC_TEXT = LC_TEXT)) by done. destruct (message_number (atoi (drop 4 name)) (atoi_range _)) as [Hin Hout].
    destruct (decide (1 <= atoi (drop 4 name) < MSG_MAX - MSG_000)) as [Hr|Hr].
    + rewrite (bool_decide_true _ Hr) in *. rewrite (Hin Hr), (bool_decide_false (MSG_000 + _ = MSG_000)) by lia.
      destruct (shows_message sel s cat (set_ctrl_id (MSG_000 + atoi (drop 4 name)) c) _ text Hs Hr eq_refl Ht) as (s' & -> & Hs' & Hrest).
      cbn. by eexists _, s'.
    + rewrite (bool_decide_false _ Hr) in *. destruct (decide (swrap 32 (MSG_000 + atoi (drop 4 name)) = MSG_000)) as [H0|H0].
      { rewrite (bool_decide_true _ H0). by eexists _, s. }
      rewrite (bool_decide_false _ H0). unfold add_message_command. cbn [set_ctrl_id ctrl_id].
      rewrite (bool_decide_true _ (Hout Hr)). cbn. by eexists _, s.
  - destruct (control_number name) as [id|] eqn:Hid; [|by eexists _, s]. pose proof (control_number_spec name id Hid).
    rewrite (bool_decide_false (id < 0)) by lia. cbn [mbind checked_bind]. rewrite (shows_table _ _ _ Hs). destruct sel.
    + rewrite (bool_decide_true (Some default_table = Some default_table)) by done. by eexists _, s.
    + rewrite (bool_decide_false (Some current_table = Some default_table)) by done. unfold dispatch_command. cbn [set_ctrl_id command]. rewrite Hc.
      destruct (shows_add_control _ s cat (set_ctrl_id id c) name text Hs) as (s' & -> & Hs' & Hrest); [|done|done|done|by eexists _, s'].
      split; [done|]. by exists name, text.
Qed.

Lemma simulates_group c name : command c = LC_GROUP -> txt0 c = Some name ->
  simulates (dispatch_loc_cmd load_base c) (fun cat => Ret (perform_group sel name cat)).
Proof.
  intros Hc Hn s cat cat' Hs _ [= <-] Hsize. unfold dispatch_loc_cmd. rewrite Hc, Hn. cbn [default from_option id].
  change (bool_decide (command_number LC_GROUP <= command_number LC_TEXT)) with true. cbn iota. unfold resolve_control.
  rewrite Hc, is_message_eq. unfold perform_group in *. destruct (is_message name).
  - rewrite (bool_decide_false (LC_GROUP = LC_TEXT)) by done. by eexists _, s.
  - destruct (control_number name) as [id|] eqn:Hid; [|by eexists _, s]. pose proof (control_number_spec name id Hid) as (_ & Hrange & Hne).
    rewrite (bool_decide_false (id < 0)) by lia. cbn [mbind checked_bind]. rewrite (shows_table _ _ _ Hs). destruct sel.
    + rewrite (bool_decide_true (Some default_table = Some default_table)) by done. by eexists _, s.
    + rewrite (bool_decide_false (Some current_table = Some default_table)) by done. unfold dispatch_command. cbn [set_ctrl_id command ctrl_id]. rewrite Hc.
      case_bool_decide as Hin.
      * rewrite bool_decide_false by (rewrite uwrap_small; unfold loc_dlg_size in *; lia).
        destruct (shows_group_command _ s cat (id - IDD_DIALOG) Hs Hin) as [Hs' Hrest]. by eexists _, _.
      * rewrite bool_decide_true; [by eexists _, s|]. unfold loc_dlg_size, IDD_DIALOG in *. unfold uwrap.
        destruct (decide (id < 101)); [|rewrite Z.mod_small; lia]. rewrite <- (Z.mod_add (id - 101) 1) by done. rewrite Z.mod_small; lia.
Qed.

(** The other commands do nothing. *)
Lemma simulates_nothing c : command c = LC_VERSION \/ command c = LC_FONT \/ command c = LC_ATTRIBUTES ->
  simulates (dispatch_loc_cmd load_base c) (fun cat => Ret cat).
Proof.
  intros Hc s cat cat' Hs _ [= <-] _. exists true, s. split_and!; [|done|done]. unfold dispatch_loc_cmd, dispatch_command.
  destruct Hc as [Hc|[Hc|Hc]]; rewrite Hc; rewrite (bool_decide_false (_ <= _)) by (cbn; lia); cbn [mbind checked_bind]; rewrite Hc; by case_bool_decide.
Qed.

Lemma simulates_dispatch c : well_formed c -> command c <> LC_LOCALE -> simulates (dispatch_loc_cmd load_base c) (perform base locales sel c).
Proof.
  intros Hwf Hloc. unfold well_formed in Hwf. unfold perform. destruct (command c) eqn:Hc; try done; try (apply simulates_nothing; tauto).
  - destruct Hwf as [name Hn]. rewrite Hn. by apply simulates_group.
  - destruct Hwf as [[name Hn] [text Ht]]. rewrite Hn, Ht. by apply simulates_text.
  - pose proof Hbase as Hbs. unfold simulates in Hbs |- *. intros s cat cat' Hs Hlocs Hb Hsize. unfold dispatch_loc_cmd. rewrite Hc. cbn [command_number].
    change (bool_decide (4 <= 1)) with false. cbn [mbind checked_bind]. rewrite (shows_table _ _ _ Hs). destruct sel.
    + injection Hb as <-. by eexists _, s.
    + rewrite bool_decide_false by done. unfold dispatch_command. rewrite Hc, Hlocs.
      destruct (get_locale_from_name _ _ _ ≫= _) as [b|]; [|injection Hb as <-; by eexists _, s].
      destruct (Hbs b s cat cat' Hs Hlocs Hb Hsize) as (r & s' & -> & Hs' & Hrest). cbn. by eexists _, s'.
Qed.
Context (Hgrow : forall b cat cat', base b cat = Ret cat' -> controls_size cat <= controls_size cat').

Lemma simulates_line l s cat cat' : shows sel s cat -> locale_list s = locales -> perform_line base locales sel l cat = Ret cat' ->
  controls_size cat' <= LOC_HTAB_SIZE ->
  exists s', get_loc_data_line load_base l s = Ret s' /\ shows sel s' cat' /\ same_rest sel s s'.
Proof.
  intros Hs Hlocs Hp Hsize. unfold perform_line in Hp. unfold get_loc_data_line.
  destruct (parse_line l) as [c|] eqn:Hl; [|injection Hp as <-; by exists s]. case_bool_decide as Hc; [injection Hp as <-; by exists s|].
  apply parse_line_well_formed in Hl. destruct (simulates_dispatch c Hl Hc s cat cat' Hs Hlocs Hp Hsize) as (r & s' & -> & Hs' & Hrest).
  by exists s'.
Qed.

Lemma read_section_simulates bytes : forall pos end_offset rd s cat ls b cat', section_lines bytes pos end_offset rd = Ret (ls, b) ->
  shows sel s cat -> locale_list s = locales -> perform_lines base locales sel ls cat = Ret cat' -> controls_size cat' <= LOC_HTAB_SIZE ->
  exists s', read_section (get_loc_data_line load_base) bytes pos end_offset rd s = Ret (b, s') /\ shows sel s' cat' /\ same_rest sel s s'.
Proof.
  induction bytes as [|c bytes IH]; intros pos end_offset rd s cat ls b cat' Hls Hs Hlocs Hp Hsize; cbn [section_lines read_section] in *.
  - injection Hls as <- <-. cbn in Hp. apply bind_inv in Hp as (cat1 & Hp & [= <-]).
    destruct (simulates_line _ _ _ _ Hs Hlocs Hp Hsize) as (s' & -> & Hs' & Hrest). by exists s'.
  - apply bind_inv in Hls as ([rd' ended] & -> & Hls). apply bind_inv in Hls as ([ls' b'] & Hls & [= <- ->]). cbn [mbind checked_bind].
    assert (Hstep : exists s1 cat1, match ended with Some l => get_loc_data_line load_base l s | None => Ret s end = Ret s1 /\
      shows sel s1 cat1 /\ same_rest sel s s1 /\ perform_lines base locales sel ls' cat1 = Ret cat').
    { destruct ended as [l|]; [|by exists s, cat]. cbn in Hp. apply bind_inv in Hp as (cat1 & Hp & Hp').
      pose proof (perform_lines_size _ _ _ Hgrow _ _ _ Hp').
      destruct (simulates_line _ _ _ _ Hs Hlocs Hp ltac:(lia)) as (s1 & -> & Hs1 & Hrest). by exists s1, cat1. }
    destruct Hstep as (s1 & cat1 & -> & Hs1 & Hrest & Hp1). cbn [mbind checked_bind].
    assert (Hlocs1 : locale_list s1 = locales) by (destruct Hrest; congruence).
    assert (Hdone : forall b0, Ret ([] : list (list Z), b0) = Ret (ls', b) -> exists s', Ret (b0, s1) = Ret (b, s') /\ shows sel s' cat' /\ same_rest sel s s').
    { intros b0 [= <- ->]. injection Hp1 as <-. by exists s1. }
    case_bool_decide; [by apply Hdone|]. destruct (grow rd') as [rd1|]; [|by apply Hdone].
    destruct (IH _ _ _ _ _ _ _ _ Hls Hs1 Hlocs1 Hp1 Hsize) as (s' & -> & Hs' & Hrest'). exists s'. split_and!; [done|done|by etrans].
Qed.
End simulation.

(** A section defines its catalog. *)
Lemma load_section_simulates depth contents locales sel : forall lcmd s cat b cat',
  shows sel s cat -> locale_list s = locales -> catalog_section depth contents locales sel lcmd cat = Ret (b, cat') ->
  controls_size cat' <= LOC_HTAB_SIZE ->
  exists s', load_section depth contents lcmd s = Ret (b, s') /\ shows sel s' cat' /\ same_rest sel s s'.
Proof.
  induction depth as [|depth IH]; intros lcmd s cat b cat' Hs Hlocs Hc Hsize; [done|]. cbn [catalog_section load_section] in *.
  apply bind_inv in Hc as ([ls b'] & Hls & Hc). apply bind_inv in Hc as (cat1 & Hp & [= -> ->]). unfold lines_of_section in Hls.
  case_bool_decide; [injection Hls as <- <-; injection Hp as <-; by exists s|].
  eapply read_section_simulates; [| |exact Hls|done|exact Hlocs|exact Hp|done].
  - intros c s1 cat1 cat2 Hs1 Hlocs1 Hb Hsize1. apply bind_inv in Hb as ([r cat3] & Hb & [= ->]).
    destruct (IH _ _ _ _ _ Hs1 Hlocs1 Hb Hsize1) as (s2 & -> & Hs2). by exists r, s2.
  - intros c cat1 cat2 Hb. apply bind_inv in Hb as ([r cat3] & Hb & [= <-]). by eapply catalog_section_size.
Qed.
