(* ===== verification/LocalizationProps.v ===== *)
(** LocalizationProps: the localization from the start of the program on: the invariant of the
    states that are reached, and what a load makes of a file. *)

From Stdlib Require Import Ascii String.
From stdpp Require Import gmap.
From S2P Require Import Prelude CText Faults Htab HtabCorrect ConfigText Settings LocCommands Localization LocalizationCorrect LocalizationCatalog.

(** ** The invariant *)

Lemma access_inv {A} (m : option A) a : access m = Ret a -> m = Some a.
Proof. destruct m; [by intros [= ->]|done]. Qed.

(** Nothing is read at the address of a freed command. *)
Lemma add_dialog_command_keeps index lcmd s : loc_ok s -> text_command lcmd ->
  match add_dialog_command index lcmd s with Ret s' => loc_ok s' | Fault e => e = AssertFailed end.
Proof.
  intros Hok Hc. destruct (decide (0 <= index < loc_dlg_size)) as [Hr|Hr].
  - destruct (add_dialog_command_spec s index lcmd Hok Hr Hc) as [(del & h & -> & Hok' & _)|(-> & _)]; done.
  - unfold add_dialog_command. destruct (txt0 lcmd); [|done]. by rewrite bool_decide_true by lia.
Qed.

Lemma add_message_command_keeps lcmd s s' : loc_ok s -> add_message_command lcmd s = Ret s' -> loc_ok s'.
Proof.
  intros Hok. unfold add_message_command. case_bool_decide; [by intros [= <-]|].
  destruct (msg_table s) as [[]|]; intros [= <-]; (eapply loc_ok_same; [done|apply Hok|done..| |]); cbn; by rewrite ?length_insert.
Qed.

(** A property that the commands keep is kept by a load. *)
Section keeps.
Context (P : loc_state -> Prop).
Context (Hmessage : forall c s s', P s -> add_message_command c s = Ret s' -> P s').
Context (Hcontrol : forall c s s', P s -> msg_table s <> Some default_table -> text_command c -> add_dialog_command (dlg_index s) c s = Ret s' -> P s').
Context (Hgroup : forall g s, P s -> 0 <= g < loc_dlg_size -> P (set_dlg_index g s)).

Lemma dispatch_keeps load_base (Hbase : forall c s b s', P s -> load_base c s = Ret (b, s') -> P s') c s b s' :
  well_formed c -> P s -> dispatch_loc_cmd load_base c s = Ret (b, s') -> P s'.
Proof.
  intros Hwf Hok. unfold dispatch_loc_cmd. intros H. apply bind_inv in H as (r & Hr & H).
  assert (Hresolve : match r with
    | inl (_, s1) => P s1
    | inr c' => command c' = command c /\ txt1 c' = txt1 c /\ txt0 c' = txt0 c /\
        (command_number (command c) <= 1 -> control_number (default [] (txt0 c)) = Some (ctrl_id c')) end).
  { clear H. case_bool_decide as Hcn; [|injection Hr as <-; split_and!; [done..|cbn in Hcn; lia]].
    unfold resolve_control in Hr. destruct (bool_decide _).
    - case_bool_decide; [|by injection Hr as <-]. case_bool_decide; [by injection Hr as <-|].
      apply bind_inv in Hr as (s1 & Hs1 & [= <-]). by eapply Hmessage.
    - destruct (control_number _) as [id|]; [|by injection Hr as <-]. case_bool_decide; by injection Hr as <-. }
  destruct r as [[b1 s1]|c']; [by injection H as <- <-|]. destruct Hresolve as (Hcmd & Ht1 & Ht0 & Hid).
  case_bool_decide; [by injection H as <- <-|]. unfold dispatch_command in H. rewrite Hcmd in H.
  unfold well_formed in Hwf. destruct (command c) eqn:Hc; try by injection H as <- <-.
  - clear Hr. case_bool_decide as Hr; injection H as <- <-; [done|]. apply Hgroup; [done|]. specialize (Hid ltac:(cbn; lia)).
    apply control_number_spec in Hid as (_ & Hid & Hne). unfold loc_dlg_size, IDD_DIALOG, uwrap in *.
    destruct (decide (ctrl_id c' < 101)) as [Hlt|Hge]; [|rewrite Z.mod_small in Hr; lia].
    rewrite <- (Z.mod_add (ctrl_id c' - 101) 1), Z.mod_small in Hr by lia. lia.
  - apply bind_inv in H as (s1 & H & [= <- <-]). destruct Hwf as [[name Hn] [text Ht]]. specialize (Hid ltac:(cbn; lia)). rewrite Hn in Hid.
    eapply Hcontrol; [done|done| |done]. split; [done|]. exists name, text. by rewrite Ht0, Ht1.
  - destruct (_ ≫= _) as [base|]; [|by injection H as <- <-]. apply bind_inv in H as ([b1 s1] & H & [= <- <-]). by eapply Hbase.
Qed.

Lemma line_keeps load_base (Hbase : forall c s b s', P s -> load_base c s = Ret (b, s') -> P s') l s s' :
  P s -> get_loc_data_line load_base l s = Ret s' -> P s'.
Proof.
  intros Hok. unfold get_loc_data_line. destruct (parse_line l) as [c|] eqn:Hl; [|by intros [= <-]].
  case_bool_decide; [by intros [= <-]|]. intros H1. apply bind_inv in H1 as ([b s1] & H1 & [= <-]).
  by eapply dispatch_keeps; [|eapply parse_line_well_formed|..].
Qed.

Lemma read_section_keeps load_base (Hbase : forall c s b s', P s -> load_base c s = Ret (b, s') -> P s') bytes :
  forall pos end_offset rd s b s', P s -> read_section (get_loc_data_line load_base) bytes pos end_offset rd s = Ret (b, s') -> P s'.
Proof.
  induction bytes as [|c bytes IH]; intros pos end_offset rd s b s' Hok H; cbn in H.
  - apply bind_inv in H as (s1 & H & [= <- <-]). by eapply line_keeps.
  - apply bind_inv in H as ([rd' ended] & _ & H). apply bind_inv in H as (s1 & H1 & H).
    assert (Hok1 : P s1) by (destruct ended; [by eapply line_keeps|by injection H1 as <-]).
    case_bool_decide; [by injection H as <- <-|]. destruct (grow rd'); [by eapply IH|by injection H as <- <-].
Qed.

Lemma load_section_keeps depth contents : forall c s b s', P s -> load_section depth contents c s = Ret (b, s') -> P s'.
Proof.
  induction depth as [|depth IH]; intros c s b s' Hok H; [done|]. cbn in H. case_bool_decide; [by injection H as <- <-|].
  by eapply read_section_keeps.
Qed.

Lemma load_locale_keeps files depth f c s b s' : P s -> load_locale files depth f c s = Ret (b, s') -> P s'.
Proof.
  intros Hok. unfold load_locale. destruct (f ≫= _) as [contents|]; [|by intros [= <- <-]]. by apply load_section_keeps.
Qed.
End keeps.

Lemma load_locale_ok files depth f c s b s' : loc_ok s -> load_locale files depth f c s = Ret (b, s') -> loc_ok s'.
Proof.
  apply load_locale_keeps.
  - intros x y z. by apply add_message_command_keeps.
  - intros x y z Hy _ Hc Hz. pose proof (add_dialog_command_keeps (dlg_index y) x y Hy Hc) as H. by rewrite Hz in H.
  - intros g y Hy Hg. by eapply loc_ok_same.
Qed.

(** The default messages are loaded without the dialogs. *)
Lemma load_default files depth f c s b s' : msg_table s = Some default_table -> load_locale files depth f c s = Ret (b, s') ->
  msg_table s' = Some default_table /\ htab_loc s' = htab_loc s /\ loc_dlg s' = loc_dlg s.
Proof.
  intros Hs. apply (load_locale_keeps (fun s' => msg_table s' = Some default_table /\ htab_loc s' = htab_loc s /\ loc_dlg s' = loc_dlg s)); [| |done|done].
  - intros x y z (H1 & H2 & H3) Hz. unfold add_message_command in Hz. case_bool_decide; [by injection Hz as <-|].
    rewrite H1 in Hz. by injection Hz as <-.
  - intros x y z (H1 & _) Hne. done.
Qed.

(** The table has just been created: no command is kept. *)
Lemma new_table_empty s : loc_ok s -> filled (htab_loc s) = 0 -> forall idx d, loc_dlg s !! idx = Some d -> d = [].
Proof.
  intros Hok Hf idx d Hd. destruct d as [|[a c] d]; [done|]. exfalso. destruct (ok_table s Hok) as (t & m & Htab).
  destruct (of_kept s t m Htab idx a c) as (i & Hi & _); [exists ((a, c) :: d); split; [done|left]|].
  pose proof (rep_filled _ _ _ (of_map s t m Htab)) as Hm. rewrite Hf in Hm. assert (base.size m = 0%nat) as ->%map_size_empty_inv by lia. done.
Qed.

Lemma free_dialog_list_new s : loc_ok s -> filled (htab_loc s) = 0 -> free_dialog_list s = s.
Proof.
  intros Hok Hf. unfold free_dialog_list, set_dialogs. destruct s as [l mt dm cm w d h g n]. cbn in *. f_equal.
  apply list_eq. intros idx. rewrite list_lookup_fmap. destruct (d !! idx) as [x|] eqn:Hx; [|done]. cbn. f_equal. symmetry.
  by eapply (new_table_empty (mkLoc l mt dm cm w d h g n)).
Qed.

(** ** From the start of the program on *)

Lemma created : exists t, htab_create 1 true LOC_HTAB_SIZE HTAB_EMPTY = Ret (true, mkHtab (Some t) LOC_HTAB_SIZE 0) /\
  represents LOC_HTAB_SIZE (mkHtab (Some t) LOC_HTAB_SIZE 0) ∅ /\ t = replicate 1032 free_entry.
Proof.
  assert (Hc : htab_create 1 true LOC_HTAB_SIZE HTAB_EMPTY = Ret (true, mkHtab (Some (replicate 1032 free_entry)) LOC_HTAB_SIZE 0))
    by (vm_compute; reflexivity).
  exists (replicate 1032 free_entry). split_and!; [done| |done]. refine (proj2 (created_table 1 LOC_HTAB_SIZE _ Hc _)). cbn [size]. exact htab_size_range.
Qed.

Lemma init_ok reinit s : htab_loc s = HTAB_EMPTY -> 0 <= dlg_index s < loc_dlg_size -> length (hDlg s) = Z.to_nat loc_dlg_size ->
  length (default_msg_table s) = Z.to_nat (MSG_MAX - MSG_000) -> length (current_msg_table s) = Z.to_nat (MSG_MAX - MSG_000) ->
  exists h, init_localization reinit s = Ret (set_dialogs no_dialogs h (next_address s) (if reinit then s else set_locale_list [] s)) /\
    loc_ok (set_dialogs no_dialogs h (next_address s) (if reinit then s else set_locale_list [] s)) /\ filled h = 0.
Proof.
  intros Hh Hi Hw Hd Hc. destruct created as (t & Hcr & Hrep & Ht). eexists. unfold init_localization. rewrite Hh, Hcr.
  split; [done|]. split; [|done].
  assert (Hnone : forall idx a c, ~ kept (set_dialogs no_dialogs (mkHtab (Some t) LOC_HTAB_SIZE 0) (next_address s) (if reinit then s else set_locale_list [] s)) idx a c).
  { intros idx a c (d & Hl & Hin). cbn in Hl. apply (lookup_replicate_1 10) in Hl as [-> _]. by apply elem_of_nil in Hin. }
  split; [split| |by destruct reinit..].
  - done.
  - intros idx a c Hk. destruct (Hnone _ _ _ Hk).
  - intros idx idx' a c c' Hk. destruct (Hnone _ _ _ Hk).
  - intros idx d Hl. cbn in Hl. apply (lookup_replicate_1 10) in Hl as [-> _]. constructor.
  - exists t, ∅. split; [done|done| | |].
    + intros j a _ Ha. unfold address_at in Ha. subst t. apply bind_Some in Ha as (e & He & Ha). apply lookup_replicate_1 in He as [-> _]. done.
    + intros k i Hki. by rewrite lookup_empty in Hki.
    + intros idx a c Hk. destruct (Hnone _ _ _ Hk).
Qed.

Lemma reinit_ok s : loc_ok s -> exists s', reinit_localization s = Ret s' /\ loc_ok s' /\ filled (htab_loc s') = 0 /\
  default_msg_table s' = default_msg_table s /\ locale_list s' = locale_list s /\ msg_table s' = msg_table s /\ dlg_index s' = dlg_index s /\
  forall n, 1 <= n < MSG_MAX - MSG_000 -> current_msg_table s' !! Z.to_nat n = Some None.
Proof.
  intros [Hlists (t & m & Htab) Hi Hw Hd Hc]. unfold reinit_localization, exit_localization.
  pose proof (of_table s t m Htab) as Ht. unfold htab_destroy. cbn -[init_localization]. rewrite Ht.
  match goal with |- exists s', init_localization true ?x = _ /\ _ => destruct (init_ok true x) as (h & -> & Hok & Hf) end.
  - done.
  - done.
  - done.
  - done.
  - cbn. destruct (current_msg_table s) as [|x l]; [done|]. cbn in *. by rewrite length_fmap.
  - eexists. split; [done|]. split; [exact Hok|]. split_and!; try done. intros n Hn. cbn.
    destruct (current_msg_table s) as [|x l]; [cbn in Hc; unfold MSG_MAX, MSG_000 in Hc; lia|].
    destruct (Z.to_nat n) as [|k] eqn:Hk; [lia|]. change (((fun _ : option (list Z) => @None (list Z)) <$> l) !! k = Some None). rewrite list_lookup_fmap.
    destruct (lookup_lt_is_Some_2 l k) as [y ->]; [|done]. cbn in Hc. unfold MSG_MAX, MSG_000 in *. lia.
Qed.

Section reach.
Context (files : gmap (list Z) (list Z)) (IsWindow : Z -> bool) (GetDlgItem : Z -> Z -> Z).

(** What the program does with the localization: a file is loaded after the (re)initialization,
    which leaves an empty hash table. The state has the variable of [toggle_default_locale]. *)
Inductive loc_step : option msg_tables * loc_state -> option msg_tables * loc_state -> Prop :=
  | step_locales o s f b s' : get_supported_locales files f s = (b, s') -> loc_step (o, s) (o, s')
  | step_load o s depth f i b s' : filled (htab_loc s) = 0 -> get_loc_data_file files depth f i s = Ret (b, s') -> loc_step (o, s) (o, s')
  | step_relaunch o s s' : reinit_localization s = Ret s' -> loc_step (o, s) (o, s')
  | step_apply o s d w : loc_step (o, s) (o, fst (apply_localization IsWindow GetDlgItem d w s))
  | step_reset o s d s' : reset_localization d s = Ret s' -> loc_step (o, s) (o, s')
  | step_toggle st : loc_step st (toggle_default_locale st).

(** The copies of a state with an empty table. *)
Lemma free_keeps s : loc_ok s -> filled (htab_loc s) = 0 -> forall t, free_dialog_list (set_msg_table t s) = set_msg_table t s /\ loc_ok (set_msg_table t s).
Proof.
  intros Hok Hf t. assert (Hok' : loc_ok (set_msg_table t s)) by (eapply loc_ok_same; try done; apply Hok). split; [|done]. by apply free_dialog_list_new.
Qed.

Lemma get_loc_data_file_keeps depth f i s b s' : loc_ok s -> filled (htab_loc s) = 0 ->
  get_loc_data_file files depth f i s = Ret (b, s') -> loc_ok s'.
Proof.
  intros Hok Hf. unfold get_loc_data_file. destruct i as [i|]; [|by intros [= _ <-]]. intros H.
  apply bind_inv in H as (dl & _ & H). apply bind_inv in H as (lcmd & _ & H). apply bind_inv in H as (s1 & Hs1 & H).
  assert (Hok1 : loc_ok s1 /\ filled (htab_loc s1) = 0).
  { destruct (msg_table s) as [t|]; [by injection Hs1 as <-|]. destruct (free_keeps s Hok Hf (Some default_table)) as [Heq Hok'].
    destruct (no_filename f); [by injection Hs1 as <-|]. rewrite Heq in Hs1. apply bind_inv in Hs1 as ([b2 s2] & Hs2 & [= <-]).
    split; [by eapply load_locale_ok|]. apply load_default in Hs2 as (_ & -> & _); [|done]. done. }
  destruct Hok1 as [Hok1 Hf1]. destruct (no_filename f); [by injection H as _ <-|].
  case_bool_decide; [injection H as _ <-; eapply loc_ok_same; try done; apply Hok1|].
  destruct (free_keeps s1 Hok1 Hf1 (Some current_table)) as [Heq Hok2]. rewrite Heq in H. by eapply load_locale_ok.
Qed.

Lemma loc_step_keeps st st' : loc_ok (snd st) -> loc_step st st' -> loc_ok (snd st').
Proof.
  intros Hok Hstep. destruct Hstep as [o s f b s' H|o s depth f i b s' Hf H|o s s' H|o s d w|o s d s' H|[o s]]; cbn in *.
  - unfold get_supported_locales in H. destruct (f ≫= _); [|by injection H as _ <-].
    destruct (bool_decide _); [by injection H as _ <-|]. destruct (bool_decide _); [by injection H as _ <-|].
    destruct (dos_mode _); injection H as _ <-; [|done]. eapply loc_ok_same; try done. apply Hok.
  - by eapply get_loc_data_file_keeps.
  - destruct (reinit_ok s Hok) as (s1 & Hs1 & Hok1 & _). rewrite Hs1 in H. by injection H as <-.
  - unfold apply_localization. case_bool_decide; [|done]. case_bool_decide; [done|]. cbn. eapply loc_ok_same; try done; [apply Hok|]. cbn; by rewrite length_insert.
  - unfold reset_localization in H. case_bool_decide; [|done]. injection H as <-. eapply loc_ok_same; try done; [apply Hok|]. cbn; by rewrite length_insert.
  - destruct o; cbn; eapply loc_ok_same; try done; apply Hok.
Qed.
End reach.

(** A state in which a file can be loaded: the program was just started, or reinitialized. *)
Record ready (s : loc_state) : Prop := {
  ready_ok : loc_ok s;
  ready_table : filled (htab_loc s) = 0;
  ready_current : forall n, 1 <= n < MSG_MAX - MSG_000 -> current_msg_table s !! Z.to_nat n = Some None;
  ready_default : msg_table s = None -> forall n, 1 <= n < MSG_MAX - MSG_000 -> default_msg_table s !! Z.to_nat n = Some None;
}.

Lemma ready_start : exists s, init_localization false loc_start = Ret s /\ ready s /\ msg_table s = None /\ dlg_index s = 0.
Proof.
  destruct (init_ok false loc_start) as (h & -> & Hok & Hf); [done|cbn; unfold loc_dlg_size; lia|done..|].
  assert (Hempty : forall n, 1 <= n < MSG_MAX - MSG_000 -> empty_messages !! Z.to_nat n = Some None).
  { intros n Hn. unfold empty_messages. destruct (Z.to_nat n) as [|k] eqn:Hk; [lia|]. cbn [lookup list_lookup].
    apply (lookup_replicate_2 (Z.to_nat (MSG_MAX - MSG_000 - 1))). lia. }
  eexists. split; [done|]. split; [|done]. split; [done|done|exact Hempty|intros _; exact Hempty].
Qed.

(** A reinitialization keeps the default messages, the locales and the group. *)
Lemma ready_relaunch s : loc_ok s -> msg_table s <> None -> exists s', reinit_localization s = Ret s' /\ ready s' /\
  default_msg_table s' = default_msg_table s /\ locale_list s' = locale_list s /\ msg_table s' = msg_table s /\ dlg_index s' = dlg_index s.
Proof.
  intros Hok Hne. destruct (reinit_ok s Hok) as (s' & Hs & Hok' & Hf & Hd & Hl & Hm & Hi & Hc).
  exists s'. split_and!; try done. split; try done. by rewrite Hm.
Qed.

Lemma ready_locales l s : ready s -> ready (set_locale_list l s).
Proof. intros [Hok Hf Hc Hd]. split; [|exact Hf|exact Hc|exact Hd]. eapply loc_ok_same; try done. apply Hok. Qed.

Lemma shows_new sel s : ready s ->
  (forall n, 1 <= n < MSG_MAX - MSG_000 -> messages_in_use sel s !! Z.to_nat n = Some None) ->
  shows sel (free_dialog_list (set_msg_table (Some sel) s)) (mkCatalog (dlg_index s) ∅ ∅).
Proof.
  intros [Hok Hf Hc Hd] Hm. destruct (free_keeps s Hok Hf (Some sel)) as [-> Hok']. split; try done.
  - split; [done|apply Hok].
  - intros idx name text. cbn [controls]. rewrite lookup_empty. split; [done|]. intros (_ & a & c & (d & Hl & Hin) & _).
    cbn in Hl. apply (new_table_empty s Hok Hf) in Hl as ->. by apply elem_of_nil in Hin.
Qed.

(** The default messages are all that the default locale gives. *)
Lemma perform_lines_default base locales ls : forall cat cat', perform_lines base locales default_table ls cat = Ret cat' ->
  controls cat' = controls cat /\ group cat' = group cat.
Proof.
  induction ls as [|l ls IH]; intros cat cat' H; cbn in H; [by injection H as <-|].
  apply bind_inv in H as (cat1 & H1 & H). apply IH in H as [-> ->]. unfold perform_line in H1.
  destruct (parse_line l) as [c|]; [|by injection H1 as <-]. case_bool_decide; [by injection H1 as <-|].
  unfold perform, perform_text, perform_group in H1. destruct (command c); injection H1 as <-; try done.
  - destruct (is_message (default [] (txt0 c))); [done|]. by destruct (control_number (default [] (txt0 c))).
  - destruct (is_message (default [] (txt0 c))); [by case_bool_decide|]. by destruct (control_number (default [] (txt0 c))).
Qed.

Lemma load_default_messages files depth filename contents s dl b0 cat0 : ready s -> msg_table s = None -> files !! filename = Some contents ->
  catalog_section depth contents (locale_list s) default_table dl (mkCatalog (dlg_index s) ∅ ∅) = Ret (b0, cat0) ->
  exists s1, load_locale files depth (Some filename) dl (free_dialog_list (set_msg_table (Some default_table) s)) = Ret (b0, s1) /\
    ready s1 /\ locale_list s1 = locale_list s /\ dlg_index s1 = dlg_index s /\
    forall n, 1 <= n < MSG_MAX - MSG_000 -> default_msg_table s1 !! Z.to_nat n = Some (messages cat0 !! n).
Proof.
  intros Hready Ht Hfile Hdef. pose proof (shows_new default_table s Hready (ready_default s Hready Ht)) as Hs.
  assert (Hsame : controls cat0 = ∅ /\ group cat0 = dlg_index s).
  { destruct depth; [done|]. cbn in Hdef. apply bind_inv in Hdef as ([ls b] & _ & Hdef). apply bind_inv in Hdef as (c1 & Hp & [= _ <-]).
    by apply perform_lines_default in Hp. }
  destruct Hsame as [Hctl Hgroup].
  destruct (load_section_simulates depth contents (locale_list s) default_table dl _ _ b0 cat0 Hs) as (s1 & Hs1 & Hshow & Hrest);
    [done|done|unfold controls_size; rewrite Hctl, map_size_empty; unfold LOC_HTAB_SIZE; lia|].
  assert (Hload : load_locale files depth (Some filename) dl (free_dialog_list (set_msg_table (Some default_table) s)) = Ret (b0, s1)).
  { unfold load_locale. cbn [mbind option_bind]. by rewrite Hfile. }
  exists s1. destruct Hrest as (Hl & Hw & _ & Hc). specialize (Hc eq_refl). split_and!; [done| |done|by rewrite <- Hgroup; apply Hshow|apply Hshow].
  split; [apply Hshow| | |by rewrite (shows_table _ _ _ Hshow)].
  - apply load_default in Hload as (_ & -> & _); [|done]. apply Hready.
  - intros n Hn. rewrite Hc. by apply (ready_current s Hready).
Qed.

(** A load from the start of the program, or after a change of the language: the messages and the
    controls are those that the section of the locale defines; the default messages are those of
    the first locale, read once. *)
Lemma catalog_loaded files depth filename contents s dl i lcmd b0 cat0 b cat :
  ready s -> filename <> [] -> files !! filename = Some contents ->
  locale_list s !! 0%nat = Some dl -> locale_list s !! i = Some lcmd -> i <> 0%nat ->
  let start := mkCatalog (dlg_index s) ∅ ∅ in
  (msg_table s = None -> catalog_section depth contents (locale_list s) default_table dl start = Ret (b0, cat0)) ->
  catalog_section depth contents (locale_list s) current_table lcmd start = Ret (b, cat) -> controls_size cat <= LOC_HTAB_SIZE ->
  exists s', get_loc_data_file files depth (Some filename) (Some i) s = Ret (b, s') /\ shows current_table s' cat /\
    (msg_table s <> None -> default_msg_table s' = default_msg_table s) /\
    (msg_table s = None -> forall n, 1 <= n < MSG_MAX - MSG_000 -> default_msg_table s' !! Z.to_nat n = Some (messages cat0 !! n)) /\
    locale_list s' = locale_list s.
Proof.
  intros Hready Hname Hfile Hdl Hlcmd Hi start Hdef Hcur Hsize. unfold get_loc_data_file. rewrite Hdl, Hlcmd. cbn [access mbind checked_bind].
  assert (Hno : no_filename (Some filename) = false) by (by destruct filename). rewrite Hno.
  assert (Hpop : exists s1, match msg_table s with Some _ => Ret s | None =>
      '(_, s) ← load_locale files depth (Some filename) dl (free_dialog_list (set_msg_table (Some default_table) s)); Ret s end = Ret s1 /\
    ready s1 /\ locale_list s1 = locale_list s /\ dlg_index s1 = dlg_index s /\ (msg_table s <> None -> default_msg_table s1 = default_msg_table s) /\
    (msg_table s = None -> forall n, 1 <= n < MSG_MAX - MSG_000 -> default_msg_table s1 !! Z.to_nat n = Some (messages cat0 !! n))).
  { destruct (msg_table s) as [t|] eqn:Ht; [by exists s|].
    destruct (load_default_messages files depth filename contents s dl b0 cat0 Hready Ht Hfile (Hdef eq_refl)) as (s1 & -> & Hr1 & Hl1 & Hg1 & Hd1).
    exists s1. by split_and!. }
  destruct Hpop as (s1 & -> & Hready1 & Hlocs & Hg & Hd1 & Hd2). cbn [mbind checked_bind]. rewrite bool_decide_false by done.
  pose proof (shows_new current_table s1 Hready1 (ready_current s1 Hready1)) as Hs1. rewrite Hg in Hs1.
  unfold load_locale. cbn [mbind option_bind]. rewrite Hfile.
  destruct (load_section_simulates depth contents (locale_list s) current_table lcmd _ start b cat Hs1) as (s' & -> & Hs' & Hrest); [done|done|done|].
  destruct Hrest as (Hl & _ & Hkeep & _). specialize (Hkeep eq_refl). cbn in Hkeep. exists s'. rewrite Hkeep, Hl. by split_and!.
Qed.

Lemma reached_ok files IsWindow GetDlgItem s0 o s : init_localization false loc_start = Ret s0 ->
  rtc (loc_step files IsWindow GetDlgItem) (None, s0) (o, s) -> loc_ok s.
Proof.
  intros Hinit Hsteps. destruct ready_start as (s1 & Hs1 & Hready & _). rewrite Hinit in Hs1. injection Hs1 as <-.
  change (loc_ok (snd (o, s))). pose proof (ready_ok s0 Hready) as H0. change s0 with (snd (@None msg_tables, s0)) in H0.
  revert H0. induction Hsteps as [x|x y z Hxy _ IH]; [done|]. intros Hx. apply IH. by eapply loc_step_keeps.
Qed.

(** What [add_dialog_command] does in a state that keeps the invariant. *)
Lemma add_dialog_command_replaces s index lcmd : loc_ok s -> text_command lcmd -> 0 <= index < loc_dlg_size ->
  (exists s', add_dialog_command index lcmd s = Ret s' /\
     forall idx a c, kept s' idx a c <->
       (idx = Z.to_nat index /\ a = next_address s /\ c = lcmd) \/
       (kept s idx a c /\ ~ (idx = Z.to_nat index /\ txt0 c = txt0 lcmd))) \/
  (add_dialog_command index lcmd s = Fault AssertFailed /\ LOC_HTAB_SIZE <= filled (htab_loc s) /\
   forall a c, kept s (Z.to_nat index) a c -> txt0 c <> txt0 lcmd).
Proof.
  intros Hok Hc Hr. destruct (add_dialog_command_spec s index lcmd Hok Hr Hc) as [(del & h & Hadd & _ & Hdel & _)|H]; [left|by right].
  eexists. split; [exact Hadd|]. intros idx a c. unfold put_in.
  rewrite kept_replaced by (rewrite (ok_dialogs s (ok_lists s Hok)); lia).
  split; (intros [H|[Hk H]]; [by left|right]; split; [done|]); by rewrite <- (Hdel _ _ _ Hk) in *.
Qed.

(** C25: in every state that the program reaches, through loads of any files, changes of language,
    windows and changes of table, a control of a dialog has at most one command, which sets the
    text of a control that exists, in one of the ten dialogs. A command that is added to one of these
    dialogs is kept there, replaces the command of the same control, if there was one, and leaves all the
    other commands as they are, without a read of a command that was freed; only when the hash table
    is full and the control has no command does an assertion fail. For another dialog
    nothing changes. *)
Theorem localization_invariant files IsWindow GetDlgItem s0 o s :
  init_localization false loc_start = Ret s0 -> rtc (loc_step files IsWindow GetDlgItem) (None, s0) (o, s) ->
  0 <= dlg_index s < loc_dlg_size /\
  (forall idx a c, kept s idx a c -> (idx < Z.to_nat loc_dlg_size)%nat /\ text_command c) /\
  (forall idx a a' c c', kept s idx a c -> kept s idx a' c' -> txt0 c = txt0 c' -> a = a' /\ c = c') /\
  (forall index lcmd, text_command lcmd -> 0 <= index < loc_dlg_size ->
    (exists s', add_dialog_command index lcmd s = Ret s' /\
       forall idx a c, kept s' idx a c <->
         (idx = Z.to_nat index /\ a = next_address s /\ c = lcmd) \/
         (kept s idx a c /\ ~ (idx = Z.to_nat index /\ txt0 c = txt0 lcmd))) \/
    (add_dialog_command index lcmd s = Fault AssertFailed /\ LOC_HTAB_SIZE <= filled (htab_loc s) /\
     forall a c, kept s (Z.to_nat index) a c -> txt0 c <> txt0 lcmd)) /\
  (forall index lcmd, ~ (0 <= index < loc_dlg_size) -> add_dialog_command index lcmd s = Ret s).
Proof.
  intros Hinit Hsteps. pose proof (reached_ok _ _ _ _ _ _ Hinit Hsteps) as Hok.
  assert (Hidx : forall idx a c, kept s idx a c -> (idx < 10)%nat).
  { intros idx a c (d & Hd & _). apply lookup_lt_Some in Hd. by rewrite (ok_dialogs s (ok_lists s Hok)) in Hd. }
  split_and!; [apply Hok|apply Hok| | | |].
  - intros idx a c Hk. split; [by eapply Hidx|]. by apply (ok_command s (ok_lists s Hok)) in Hk as [Hc _].
  - intros idx a a' c c' Hk Hk' Heq. destruct (ok_table s Hok) as (t & m & Htab).
    destruct (of_kept s t m Htab _ _ _ Hk) as (i & Hi & Ha), (of_kept s t m Htab _ _ _ Hk') as (i' & Hi' & Ha').
    assert (Hkey : key_of idx c = key_of idx c').
    { unfold key_of. rewrite Heq. destruct (ok_command s (ok_lists s Hok) _ _ _ Hk) as [[-> _] _].
      by destruct (ok_command s (ok_lists s Hok) _ _ _ Hk') as [[-> _] _]. }
    rewrite Hkey, Hi' in Hi. injection Hi as ->. rewrite Ha' in Ha. injection Ha as ->.
    by destruct (ok_address s (ok_lists s Hok) _ _ _ _ _ Hk Hk') as [_ ->].
  - intros index lcmd Hc Hr. by apply add_dialog_command_replaces.
  - intros index lcmd Hr. unfold add_dialog_command. destruct (txt0 lcmd); [|done]. by rewrite bool_decide_true by lia.
Qed.

(** C26: a change of the language refines its specification. From every state that the program
    reaches with a language, the reinitialization and the load of another locale make the messages
    and the controls of the dialogs those that the section of this locale defines, with what its
    base defines under it, whatever the bytes of the file, and nothing of the language before
    stays, as long as the hash table has room for the controls; the default messages, which are
    read once, and the locales are kept. *)
Theorem language_changed files IsWindow GetDlgItem s0 o s depth filename contents i lcmd b cat :
  init_localization false loc_start = Ret s0 -> rtc (loc_step files IsWindow GetDlgItem) (None, s0) (o, s) -> msg_table s <> None ->
  filename <> [] -> files !! filename = Some contents -> locale_list s !! i = Some lcmd -> i <> 0%nat ->
  catalog_section depth contents (locale_list s) current_table lcmd (mkCatalog (dlg_index s) ∅ ∅) = Ret (b, cat) -> controls_size cat <= LOC_HTAB_SIZE ->
  exists s1 s2, reinit_localization s = Ret s1 /\ get_loc_data_file files depth (Some filename) (Some i) s1 = Ret (b, s2) /\
    shows current_table s2 cat /\ default_msg_table s2 = default_msg_table s /\ locale_list s2 = locale_list s.
Proof.
  intros Hinit Hsteps Hm Hname Hfile Hl Hi Hcat Hsize. pose proof (reached_ok _ _ _ _ _ _ Hinit Hsteps) as Hok.
  destruct (ready_relaunch s Hok Hm) as (s1 & Hs1 & Hready & Hd & Hlocs & Hm1 & Hg).
  destruct (lookup_lt_is_Some_2 (locale_list s1) 0) as [dl Hdl]; [rewrite Hlocs; apply lookup_lt_Some in Hl; lia|].
  rewrite <- Hlocs, <- Hg in Hcat. rewrite <- Hlocs in Hl.
  destruct (catalog_loaded files depth filename contents s1 dl i lcmd b (mkCatalog 0 ∅ ∅) b cat Hready Hname Hfile Hdl Hl Hi) as (s2 & Hload & Hshow & Hkeep & _ & Hlist);
    [by rewrite Hm1|exact Hcat|done|].
  exists s1, s2. rewrite Hkeep, Hlist by (by rewrite Hm1). by split_and!.
Qed.

(** ** Examples *)

(** Two locales, the second on the first. The file is at least 1024 bytes long. *)
Definition crlf : list Z := [CR; LF].
Definition demo_file : list Z :=
  concat ((fun l => chars l ++ crlf) <$>
    ["# Localization"; "l 'en-US' 'English' 0x0409"; "v 4.2"; "t MSG_001 'One' "; "  ' and \n\'two\''"; "g IDD_ABOUTBOX"; "t IDOK 'Close'";
     "l 'fr-FR' 'French' 0x040c,0x080c"; "v 4.1"; "a 'r'"; "b 'en-US'"; "t MSG_002 'Deux'"; "t IDOK 'Fermer'"]%string) ++ replicate 1024 32.
Definition quotes (text : list Z) : list Z := (fun c => if bool_decide (c = 39) then QUOTE else c) <$> text.
Definition demo_files : gmap (list Z) (list Z) := {[ chars "f" := quotes demo_file ]}.

Definition started : loc_state := match init_localization false loc_start with Ret s => s | Fault _ => loc_start end.
Definition listed : loc_state := snd (get_supported_locales demo_files (Some (chars "f")) started).
Definition demo_locale (i : nat) : loc_cmd := default (mkLocCmd LC_TEXT 0 0 0 [] None None) (locale_list listed !! i).

Lemma listed_ready : ready listed.
Proof.
  destruct ready_start as (s & Hs & Hready & _). assert (Heq : listed = set_locale_list (locale_list listed) started) by (vm_compute; reflexivity).
  rewrite Heq. apply ready_locales. unfold started. by rewrite Hs.
Qed.

(** The states of a run: the first locale is loaded, then the second one. *)
Definition loaded : loc_state := match get_loc_data_file demo_files 2 (Some (chars "f")) (Some 0%nat) listed with Ret (_, s) => s | Fault _ => listed end.

Lemma loaded_reached : rtc (loc_step demo_files (fun _ => true) (fun _ n => n)) (None, started) (None, loaded).
Proof.
  eapply rtc_l; [apply (step_locales _ _ _ None started (Some (chars "f")) true listed); vm_compute; reflexivity|].
  eapply rtc_l; [apply (step_load _ _ _ None listed 2 (Some (chars "f")) (Some 0%nat) true loaded); vm_compute; reflexivity|constructor].
Qed.

Lemma started_init : init_localization false loc_start = Ret started.
Proof. vm_compute. reflexivity. Qed.

Theorem language_changed_witness :
  exists s1 s2, reinit_localization loaded = Ret s1 /\ get_loc_data_file demo_files 2 (Some (chars "f")) (Some 1%nat) s1 = Ret (true, s2) /\
    current_msg_table s2 !! 1%nat = Some (Some (chars "One and " ++ crlf ++ quotes (chars "'two'"))) /\
    (exists a c, kept s2 1 a c /\ txt0 c = Some (chars "IDOK") /\ txt1 c = Some (chars "Fermer")).
Proof.
  assert (Hcat : exists cat, catalog_section 2 (quotes demo_file) (locale_list loaded) current_table (demo_locale 1) (mkCatalog (dlg_index loaded) ∅ ∅) = Ret (true, cat) /\
    controls_size cat <= LOC_HTAB_SIZE /\ messages cat !! 1 = Some (chars "One and " ++ crlf ++ quotes (chars "'two'")) /\
    controls cat !! (1, chars "IDOK") = Some (chars "Fermer")).
  { eexists. split_and!; [vm_compute; reflexivity|..]; by vm_compute. }
  destruct Hcat as (cat & H1 & Hsize & Hm & Hc).
  assert (Hfile : demo_files !! chars "f" = Some (quotes demo_file)) by (vm_compute; reflexivity).
  assert (Hl1 : locale_list loaded !! 1%nat = Some (demo_locale 1)) by (vm_compute; reflexivity).
  assert (Hmt : msg_table loaded <> None) by (vm_compute; discriminate).
  destruct (language_changed demo_files (fun _ => true) (fun _ n => n) started None loaded 2 (chars "f") (quotes demo_file) 1 (demo_locale 1) true cat
    started_init loaded_reached Hmt ltac:(discriminate) Hfile Hl1 ltac:(discriminate) H1 Hsize) as (s1 & s2 & Hs1 & Hload & Hshow & _).
  exists s1, s2. split; [exact Hs1|]. split; [exact Hload|]. split.
  - pose proof (shows_messages _ _ _ Hshow 1 ltac:(unfold MSG_MAX, MSG_000; lia)) as Hmsg. rewrite Hm in Hmsg. exact Hmsg.
  - apply (shows_controls _ _ _ Hshow) in Hc as (_ & a & c & Hk & Hn & Ht). exists a, c. exact (conj Hk (conj Hn Ht)).
Defined.

(** The text of the button OK. *)
Definition ok_command_fr : loc_cmd := mkLocCmd LC_TEXT (default 0 (control_number (chars "IDOK"))) 0 0 [] (Some (chars "IDOK")) (Some (chars "Fermer")).

Theorem localization_invariant_witness :
  rtc (loc_step demo_files (fun _ => true) (fun _ n => n)) (None, started) (None, loaded) /\ length (locale_list loaded) = 2%nat /\
    0 <= dlg_index loaded < loc_dlg_size /\
    exists s', add_dialog_command 1 ok_command_fr loaded = Ret s' /\ kept s' 1 (next_address loaded) ok_command_fr.
Proof.
  split; [exact loaded_reached|]. split; [vm_compute; reflexivity|].
  destruct (localization_invariant demo_files (fun _ => true) (fun _ n => n) started None loaded started_init loaded_reached)
    as (Hindex & _ & _ & Hadd & _).
  split; [exact Hindex|].
  assert (Hc : text_command ok_command_fr) by (split; [reflexivity|exists (chars "IDOK"), (chars "Fermer"); vm_compute; auto]).
  destruct (Hadd 1 ok_command_fr Hc) as [(s' & Hs & Hk)|(_ & Hfull & _)]; [unfold loc_dlg_size; lia| |].
  - exists s'. split; [exact Hs|]. apply Hk. left. split; [reflexivity|split; reflexivity].
  - exfalso. vm_compute in Hfull. apply Hfull. reflexivity.
Defined.

(** A second load without a reinitialization reads the commands of the first one, which were freed:
    the hash table still has them. *)
Lemma load_twice_faults :
  (r ← get_loc_data_file demo_files 2 (Some (chars "f")) (Some 1%nat) listed;
   get_loc_data_file demo_files 2 (Some (chars "f")) (Some 1%nat) (snd r)) = Fault OutOfBlock.
Proof. vm_compute. reflexivity. Qed.

(** A locale that is its own base is read again and again: no depth is enough. *)
Lemma self_base_never_ends depth s c : num0 c = 0 -> num1 c = 20 -> txt0 c = Some (chars "en") -> locale_list s = [c] ->
  msg_table s = Some current_table -> load_section depth (quotes (chars "b 'en'") ++ crlf ++ chars "v 1.0") c s = Fault NoEnd.
Proof.
  intros H0 H1 Ht. revert s. induction depth as [|depth IH]; intros s Hl Hm; [done|]. cbn [load_section]. rewrite H0, H1.
  rewrite bool_decide_false by lia. specialize (IH s Hl Hm). revert IH. generalize (load_section depth (quotes (chars "b 'en'") ++ crlf ++ chars "v 1.0")).
  intros load Hload. destruct s as [l mt dm cm w d h g n]. cbn in Hl, Hm. subst l mt.
  change (drop (Z.to_nat 0) (quotes (chars "b 'en'") ++ crlf ++ chars "v 1.0")) with ([98; 32; 34; 101; 110; 34; 13; 10; 118; 32; 49; 46; 48]).
  destruct c as [cmd id n0 n1 u t0 t1]. cbn in H0, H1, Ht. subst n0 n1 t0.
  vm_compute. vm_compute in Hload. by rewrite Hload.
Qed.
