(* ===== verification/LocalizationApply.v ===== *)
(** LocalizationApply: what [apply_localization] makes of the controls of a window, and what
    Localization.v does that its file format or its comments do not say. *)

From Stdlib Require Import Ascii String.
From stdpp Require Import gmap.
From S2P Require Import Prelude Faults CText Htab ConfigText Settings LocCommands Localization LocalizationCorrect LocalizationCatalog LocalizationProps.

Section windows.
Context (GetDlgItem : Z -> Z -> Z) (dlg_id w : Z).

(** The control that a command is for: the window itself, but for the main dialog, or one of its controls. *)
Definition control_window (id : Z) : Z :=
  if bool_decide (id = dlg_id) then if bool_decide (dlg_id = IDD_DIALOG) then 0 else w else GetDlgItem w id.

(** What a command sets. *)
Definition text_set (c : loc_cmd) : list (Z * list Z) :=
  let text := default [] (txt1 c) in let h := control_window (ctrl_id c) in
  if bool_decide (h = 0 \/ text = []) then [] else [(h, text)].

Definition not_for_main (c : loc_cmd) : Prop := dlg_id = IDD_DIALOG -> ctrl_id c = IDD_DIALOG -> default [] (txt1 c) <> [].

Lemma apply_commands cs : forall h calls, Forall text_command cs -> Forall not_for_main cs ->
  exists h', fold_left (apply_command GetDlgItem dlg_id) cs (w, h, calls) = (w, h', calls ++ concat (text_set <$> cs)).
Proof.
  induction cs as [|c cs IH]; intros h calls Hcmd Hmain; cbn [fold_left fmap list_fmap concat]; [exists h; by rewrite app_nil_r|].
  apply Forall_cons in Hcmd as [(Hc & name & text & _ & Ht & _) Hcmd]. apply Forall_cons in Hmain as [Hm Hmain].
  unfold not_for_main in Hm. rewrite Ht in Hm. cbn [default from_option id] in Hm.
  assert (Hstep : exists h1, apply_command GetDlgItem dlg_id (w, h, calls) c = (w, h1, calls ++ text_set c)).
  { unfold apply_command, text_set, control_window. rewrite Hc, Ht. cbn [default from_option id].
    rewrite (bool_decide_true (command_number LC_TEXT <= command_number LC_TEXT)) by lia. rewrite (bool_decide_true (LC_TEXT = LC_TEXT)) by done. cbn [andb].
    destruct (decide (ctrl_id c = dlg_id)) as [He|He].
    - rewrite !(bool_decide_true _ He). destruct (decide (dlg_id = IDD_DIALOG)) as [Hd|Hd].
      + rewrite !(bool_decide_true _ Hd). rewrite (bool_decide_false (text = [])) by (apply Hm; congruence). cbn [andb negb].
        rewrite (bool_decide_true (0 = 0 \/ _)) by tauto. exists h. by rewrite app_nil_r.
      + rewrite !(bool_decide_false _ Hd). cbn [andb]. exists w. repeat case_bool_decide; cbn; rewrite ?app_nil_r; try done; intuition congruence.
    - rewrite !(bool_decide_false _ He). exists (GetDlgItem w (ctrl_id c)).
      repeat case_bool_decide; cbn; rewrite ?app_nil_r; try done; intuition congruence. }
  destruct Hstep as [h1 ->]. destruct (IH h1 (calls ++ text_set c) Hcmd Hmain) as [h' ->]. exists h'. by rewrite app_assoc.
Qed.

Lemma elem_of_text_set h text c : (h, text) ∈ text_set c <-> h <> 0 /\ text <> [] /\ h = control_window (ctrl_id c) /\ text = default [] (txt1 c).
Proof.
  unfold text_set. case_bool_decide as Hz; [rewrite elem_of_nil; naive_solver|]. rewrite list_elem_of_singleton. split.
  - intros [= -> ->]. split_and!; tauto.
  - intros (_ & _ & -> & ->). done.
Qed.

(** ** The commands of the dialog *)

Section dialog.
Context (s : loc_state) (cat : catalog) (d : list (Z * loc_cmd)).
Context (Hshow : shows current_table s cat) (Hdlg : IDD_DIALOG <= dlg_id < IDD_DIALOG + loc_dlg_size).
Context (Hd : loc_dlg s !! Z.to_nat (dlg_id - IDD_DIALOG) = Some d).

Lemma dialog_command a c : (a, c) ∈ d -> text_command c.
Proof. intros Hin. by apply (ok_command s (ok_lists s (shows_ok _ _ _ Hshow)) (Z.to_nat (dlg_id - IDD_DIALOG)) a); exists d. Qed.

Lemma dialog_controls name text : controls cat !! (dlg_id - IDD_DIALOG, name) = Some text <->
  exists a c, (a, c) ∈ d /\ txt0 c = Some name /\ txt1 c = Some text.
Proof.
  rewrite (shows_controls _ _ _ Hshow). split.
  - intros (_ & a & c & (d' & Hd' & Hin) & H). rewrite Hd in Hd'. injection Hd' as <-. by exists a, c.
  - intros (a & c & Hin & H). split; [lia|]. exists a, c. split; [by exists d|done].
Qed.

Lemma dialog_commands : (dlg_id = IDD_DIALOG -> forall name, control_number name = Some IDD_DIALOG -> controls cat !! (0, name) <> Some []) ->
  Forall text_command (snd <$> d) /\ Forall not_for_main (snd <$> d).
Proof.
  intros Hmain. split; apply Forall_fmap, Forall_forall; intros [a c] Hin; cbn; [by eapply dialog_command|].
  destruct (dialog_command a c Hin) as (Hc & name & text & Hname & Ht & Hid). intros Hm Hid' Hempty. rewrite Ht in Hempty. cbn in Hempty. subst text.
  apply (Hmain Hm name); [by rewrite Hid, Hid'|]. replace 0 with (dlg_id - IDD_DIALOG) by lia. apply dialog_controls. by exists a, c.
Qed.

Lemma elem_of_dialog_calls h text : (h, text) ∈ concat (text_set <$> (snd <$> d)) <-> h <> 0 /\ text <> [] /\
  exists name id, controls cat !! (dlg_id - IDD_DIALOG, name) = Some text /\ control_number name = Some id /\ h = control_window id.
Proof.
  setoid_rewrite dialog_controls. rewrite list_elem_of_In, in_concat. setoid_rewrite <- list_elem_of_In. split.
  - intros (l & (c & -> & ([a c'] & -> & Hin)%list_elem_of_fmap_1)%list_elem_of_fmap & (Hh & Ht & -> & ->)%elem_of_text_set). cbn [snd] in *.
    destruct (dialog_command a c' Hin) as (Hc & name & text & Hname & Htx & Hid). split_and!; [done|done|].
    exists name, (ctrl_id c'). split_and!; [|done|done]. exists a, c'. by rewrite Htx.
  - intros (Hh & Ht & name & id & (a & c & Hin & Hname & Htx) & Hid & ->). exists (text_set c).
    destruct (dialog_command a c Hin) as (_ & name' & text' & Hname' & Htx' & Hid').
    split; [apply list_elem_of_fmap; exists c; split; [done|]; apply list_elem_of_fmap; by exists (a, c)|].
    apply elem_of_text_set. rewrite Htx. split_and!; try done. congruence.
Qed.
End dialog.
End windows.

Lemma slice_one {A} n (l : list A) x : l !! n = Some x -> slice n 1 l = [x].
Proof. intros Hx. unfold slice. by rewrite (drop_S _ _ _ Hx). Qed.


(** The second locale of the demonstration file, with a window in which each control has its own number. *)
Lemma demo_shown : exists s cat, shows current_table s cat /\ controls cat !! (1, chars "IDOK") = Some (chars "Fermer").
Proof.
  pose proof (shows_new current_table listed listed_ready (ready_current _ listed_ready)) as Hs.
  assert (Hcat : exists cat, catalog_section 2 (quotes demo_file) (locale_list listed) current_table (demo_locale 1) (mkCatalog (dlg_index listed) ∅ ∅) = Ret (true, cat) /\
    controls_size cat <= LOC_HTAB_SIZE /\ controls cat !! (1, chars "IDOK") = Some (chars "Fermer")).
  { eexists. split_and!; [vm_compute; reflexivity|by vm_compute|by vm_compute]. }
  destruct Hcat as (cat & Hcat & Hsize & Hok).
  destruct (load_section_simulates 2 (quotes demo_file) (locale_list listed) current_table (demo_locale 1) _ _ true cat Hs eq_refl Hcat Hsize) as (s & _ & Hs' & _).
  exists s, cat. split; [exact Hs'|exact Hok].
Qed.


(** A text for the main dialog itself, which may only be empty, makes the texts of its other
    controls that come before it in the file be lost: their window is NULL. *)
Lemma main_dialog_loses_controls GetDlgItem : (forall id, GetDlgItem 0 id = 0) ->
  let command name id text := mkLocCmd LC_TEXT id 0 0 [] (Some (chars name)) (Some (chars text)) in
  apply_dialogs (fun _ => true) GetDlgItem IDD_DIALOG 0 [5] [[(2, command "IDD_DIALOG"%string 101 ""%string); (1, command "IDC_START"%string 1003 "Go"%string)]] = [].
Proof. intros H. vm_compute. by rewrite (H 1003). Qed.

(** An escape at the beginning of a line is written over the end of the line before, and the line
    is read past what was written. *)
Lemma escape_at_line_start : section_lines (chars "v 1.0" ++ crlf ++ chars "\n# c" ++ crlf) 0 100 new_reader = Fault OutOfBlock.
Proof. vm_compute. reflexivity. Qed.

(** A section ends before the line of the next locale; when this line is indented, which
    [get_supported_locales] allows, the last command of the section is lost. *)
Lemma indented_locale_loses_line :
  section_lines (quotes (chars "v 1.0" ++ crlf ++ chars "t MSG_001 'a'" ++ crlf ++ chars "l 'b'")) 0 22 new_reader = Ret ([chars "v 1.0"; quotes (chars "t MSG_001 'a'")], true) /\
  section_lines (quotes (chars "v 1.0" ++ crlf ++ chars "t MSG_001 'a'" ++ crlf ++ chars " l 'b'")) 0 22 new_reader = Ret ([chars "v 1.0"], true).
Proof. split; vm_compute; reflexivity. Qed.

(** A separator before an integer is not skipped, but read as the integer 0. *)
Lemma separator_reads_zero : num0 <$> parse_line (quotes (chars "f 'x' 10")) = Some 10 /\ num0 <$> parse_line (quotes (chars "f 'x', 10")) = Some 0.
Proof. split; vm_compute; reflexivity. Qed.

(** A text cannot end with a backslash, which is escaped in the file, as any other character can. *)
Lemma final_backslash : section_lines (quotes (chars "t MSG_001 'C:\\'") ++ crlf) 0 100 new_reader = Ret ([quotes (chars "t MSG_001 'C:\'")], true) /\
  parse_line (quotes (chars "t MSG_001 'C:\'")) = None.
Proof. split; vm_compute; reflexivity. Qed.

(** What comes after the 1023rd character of a line is taken for a line: the rest of a comment can be a locale. *)
Lemma long_line_splits : let text := 35 :: replicate 1022 120 ++ quotes (chars "l 'xx' 'None' 1") ++ crlf ++ chars "v 1.0" ++ crlf in
  (fun c => txt0 c) <$> locale_lines 10 0 text (mkLocales [] None false no_version no_version) = [Some (chars "xx")].
Proof. vm_compute. reflexivity. Qed.

(** Two toggles give back the table in use, but not when there is none: the default table stays,
    and [get_loc_data_file] does not read the default messages any more. *)
Lemma toggle_twice s : let r := toggle_default_locale (toggle_default_locale (None, s)) in
  (msg_table s <> None -> r = (None, s)) /\ (msg_table s = None -> msg_table (snd r) = Some default_table).
Proof.
  destruct s as [l [t|] d c w dl h i n]; cbn; split; done.
Qed.

(** The bound of a group is off by one: the number after those of the dialogs is accepted. The
    table of the controls has no such number (LocalizationCorrect.v, control_number_spec). *)
Lemma group_after_last load s : dispatch_command load (mkLocCmd LC_GROUP (IDD_DIALOG + loc_dlg_size) 0 0 [] None None) s = Ret (true, set_dlg_index loc_dlg_size s).
Proof. done. Qed.
