(* ===== verification/LocalizationText.v ===== *)
(** LocalizationText: how a translation is written in a localization file, and that the reader of
    [get_loc_data_file] gives back its lines: texts over several lines, escapes, comments; the items
    of a translation, and that its section defines what they say. *)

From Stdlib Require Import Ascii String.
From stdpp Require Import gmap.
From S2P Require Import Prelude Faults CText ConfigText Settings LocCommands Localization LocalizationCatalog.

(** ** Texts *)

(** A character of a text, or the end of a line of it. *)
Inductive glyph := Char (c : Z) | NewLine.

Definition glyph_text (g : glyph) : list Z := match g with Char c => [c] | NewLine => [CR; LF] end.
(** In the file, and in the line that the reader gives. *)
Definition glyph_source (g : glyph) : list Z :=
  match g with Char c => if bool_decide (c = QUOTE) then [92; QUOTE] else if bool_decide (c = 92) then [92; 92] else [c] | NewLine => [92; 110] end.
Definition glyph_line (g : glyph) : list Z :=
  match g with Char c => if bool_decide (c = QUOTE) then [92; QUOTE] else [c] | NewLine => [CR; LF] end.
Definition glyph_ok (g : glyph) : Prop := match g with Char c => 0 < c < 256 /\ c <> CR /\ c <> LF | NewLine => True end.

Abbreviation text_of gs := (concat (glyph_text <$> gs)) (only parsing).
Definition source_of (gs : list glyph) : list Z := concat (glyph_source <$> gs).
Definition line_of (gs : list glyph) : list Z := concat (glyph_line <$> gs).

(** ** Lines *)

(** A line has a command and its first arguments, then a text in pieces, one per line of the file. *)
Record source_line := mkLine { head_of : list Z; pieces : list (list glyph) }.

Definition quoted_source (gs : list glyph) : list Z := QUOTE :: source_of gs ++ [QUOTE].

Definition render_line (l : source_line) : list Z :=
  head_of l ++ match pieces l with
               | [] => []
               | p :: ps => 32 :: quoted_source p ++ concat ((fun p => [CR; LF; 9] ++ quoted_source p) <$> ps)
               end ++ [CR; LF].

(** The line that the commands are read from. *)
Definition logical_line (l : source_line) : list Z :=
  head_of l ++ match pieces l with [] => [] | ps => [32; QUOTE] ++ line_of (concat ps) ++ [QUOTE] end.

Definition plain (c : Z) : Prop := 0 < c < 256 /\ c <> CR /\ c <> LF /\ c <> 92 /\ c <> QUOTE.
Definition line_ok (l : source_line) : Prop :=
  Forall plain (head_of l) /\ (exists c h, head_of l = c :: h /\ is_blank c = false) /\ Forall (Forall glyph_ok) (pieces l) /\
  Z.of_nat (length (logical_line l)) < 32766.

(** ** The reader on a part of the file *)

Definition sized (b : Z) (rd : reader) : reader := mkReader (line rd) (terminated rd) b (last_char rd) (eol rd) (escape_sequence rd).

(** The sizes of the block. *)
Definition size_ok (b : Z) : Prop := exists k, 0 <= k <= 5 /\ b = 1024 * 2 ^ k.

(** [bytes] take the reader from [rd] to [rd'], with the lines [ls], when they are before the end. *)
Definition reads (bytes : list Z) (rd : reader) (ls : list (list Z)) (rd' : reader) : Prop :=
  forall b rest pos end_offset, size_ok b -> pos + Z.of_nat (length bytes) <= end_offset -> exists b', size_ok b' /\
    section_lines (bytes ++ rest) pos end_offset (sized b rd) =
    (r ← section_lines rest (pos + Z.of_nat (length bytes)) end_offset (sized b' rd'); Ret (ls ++ fst r, snd r)).

Lemma reads_nil rd : reads [] rd [] rd.
Proof.
  intros b rest pos e Hb _. exists b. split; [done|]. cbn [app length]. rewrite Z.add_0_r.
  by destruct (section_lines rest pos e (sized b rd)) as [[]|].
Qed.

Lemma reads_app bs1 bs2 rd rd1 rd2 ls1 ls2 : reads bs1 rd ls1 rd1 -> reads bs2 rd1 ls2 rd2 -> reads (bs1 ++ bs2) rd (ls1 ++ ls2) rd2.
Proof.
  intros H1 H2 b rest pos e Hb He. rewrite length_app in *. destruct (H1 b (bs2 ++ rest) pos e Hb) as (b1 & Hb1 & Heq1); [lia|].
  destruct (H2 b1 rest (pos + Z.of_nat (length bs1)) e Hb1) as (b2 & Hb2 & Heq2); [lia|]. exists b2. split; [done|].
  rewrite <- app_assoc, Heq1, Heq2. replace (pos + Z.of_nat (length bs1) + Z.of_nat (length bs2)) with (pos + Z.of_nat (length bs1 + length bs2)) by lia.
  clear Heq1 Heq2. destruct (section_lines rest _ e (sized b2 rd2)) as [[ls b0]|]; [|done]. cbn. by rewrite app_assoc.
Qed.

Lemma grow_line_ok b rd : size_ok b -> Z.of_nat (length (line rd)) < 32766 -> exists b', size_ok b' /\ grow (sized b rd) = Some (sized b' rd).
Proof.
  intros (k & Hk & ->) Hl. unfold grow. cbn. case_bool_decide as Hg; [|exists (1024 * 2 ^ k); split; [by exists k|done]].
  assert (Hk5 : k < 5) by (destruct (decide (k = 5)) as [->|]; lia).
  rewrite bool_decide_false.
  - exists (2 * (1024 * 2 ^ k)). split; [|done]. exists (k + 1). split; [lia|]. rewrite Z.pow_add_r by lia. lia.
  - pose proof (Z.pow_le_mono_r 2 k 4 ltac:(lia) ltac:(lia)). lia.
Qed.

Lemma reads_char c rd rd' ended : (forall b, read_char c (sized b rd) = Ret (sized b rd', ended)) -> Z.of_nat (length (line rd')) < 32766 ->
  reads [c] rd (match ended with Some l => [l] | None => [] end) rd'.
Proof.
  intros Hc Hl b rest pos e Hb He. destruct (grow_line_ok b rd' Hb Hl) as (b' & Hb' & Hg). exists b'. split; [done|].
  cbn [app section_lines length] in *. rewrite Hc. cbn [mbind checked_bind]. rewrite bool_decide_false by lia. rewrite Hg.
  destruct (section_lines rest _ e (sized b' rd')) as [[ls b0]|]; [|done]. cbn. by destruct ended.
Qed.

(** ** The states of the reader in a file that is well formed *)

(** In a line, and after it. *)
Definition running (l : list Z) (k : nat) : reader := mkReader l false 0 k false false.
Definition pending (l : list Z) : reader := mkReader l true 0 (last_index (reverse l)) true false.

Lemma reads_plain c l k : plain c -> Z.of_nat (length l) < 32765 -> reads [c] (running l k) [] (running (l ++ [c]) k).
Proof.
  intros (Hc & H1 & H2 & H3 & H4) Hl. apply (reads_char c _ _ None); [|cbn; rewrite length_app; cbn; lia].
  intros b. unfold read_char. assert (is_eol c = false) as -> by (apply bool_decide_eq_false_2; tauto). cbn.
  destruct (is_blank c); [done|]. rewrite (bool_decide_false _ H3). done.
Qed.

Lemma reads_quote l k : Z.of_nat (length l) < 32765 -> reads [QUOTE] (running l k) [] (running (l ++ [QUOTE]) k).
Proof. intros Hl. apply (reads_char QUOTE _ _ None); [done|]. cbn. rewrite length_app. cbn. lia. Qed.

Lemma reads_escape c l k : Z.of_nat (length l) < 32766 -> is_eol c = false -> is_blank c = false -> Z.of_nat (length (l ++ escaped c)) < 32766 -> escaped c <> [] ->
  reads [92; c] (running l k) [] (running (l ++ escaped c) k).
Proof.
  intros Hl Heol Hblank Hlen Hne. set (mid := mkReader l false 0 k false true).
  change [92; c] with ([92] ++ [c]). change (@nil (list Z)) with (@nil (list Z) ++ []).
  apply (reads_app [92] [c] _ mid); [by apply (reads_char 92 _ _ None)|].
  apply (reads_char c _ _ None); [|done]. intros b. unfold read_char. rewrite Heol, Hblank. cbn. rewrite andb_false_r. unfold put. cbn.
  by rewrite bool_decide_false.
Qed.

Lemma length_glyph_line g : (1 <= length (glyph_line g) <= 2)%nat.
Proof. destruct g; cbn; [case_bool_decide; cbn; lia|lia]. Qed.

Lemma reads_glyph g l k : glyph_ok g -> Z.of_nat (length (l ++ glyph_line g)) < 32766 -> reads (glyph_source g) (running l k) [] (running (l ++ glyph_line g) k).
Proof.
  intros Hg Hl. pose proof (length_glyph_line g). rewrite length_app in Hl.
  destruct g as [c|]; [|apply (reads_escape 110); rewrite ?length_app; cbn in *; try done; lia]. unfold glyph_source, glyph_line in *.
  destruct (decide (c = QUOTE)) as [->|Hq]; [rewrite !bool_decide_true in * by done; apply (reads_escape QUOTE); rewrite ?length_app; cbn in *; try done; lia|].
  rewrite (bool_decide_false _ Hq) in *. destruct (decide (c = 92)) as [->|Hb].
  - rewrite bool_decide_true by done. apply (reads_escape 92); rewrite ?length_app; cbn in *; try done; lia.
  - rewrite (bool_decide_false _ Hb). destruct Hg as (Hr & Hcr & Hlf). apply reads_plain; [done|cbn in *; lia].
Qed.

Definition fits (l : list Z) : Prop := Z.of_nat (length l) < 32766.

Lemma fits_app l l' : fits (l ++ l') -> fits l.
Proof. unfold fits. rewrite length_app. lia. Qed.

Lemma reads_glyphs gs : forall l k, Forall glyph_ok gs -> fits (l ++ line_of gs) -> reads (source_of gs) (running l k) [] (running (l ++ line_of gs) k).
Proof.
  induction gs as [|g gs IH]; intros l k Hok Hl; [rewrite app_nil_r; apply reads_nil|]. apply Forall_cons in Hok as [Hg Hgs].
  change (line_of (g :: gs)) with (glyph_line g ++ line_of gs) in *. rewrite app_assoc in *.
  apply (reads_app (glyph_source g) (source_of gs) _ (running (l ++ glyph_line g) k) _ [] []); [|by apply IH].
  apply reads_glyph; [done|]. by apply fits_app in Hl.
Qed.

Lemma reads_plains cs : forall l k, Forall plain cs -> fits (l ++ cs) -> reads cs (running l k) [] (running (l ++ cs) k).
Proof.
  induction cs as [|c cs IH]; intros l k Hok Hl; [rewrite app_nil_r; apply reads_nil|]. apply Forall_cons in Hok as [Hc Hcs].
  change (c :: cs) with ([c] ++ cs) in *. rewrite app_assoc in *. apply (reads_app [c] cs _ (running (l ++ [c]) k) _ [] []); [|by apply IH].
  apply reads_plain; [done|]. apply fits_app in Hl. unfold fits in Hl. rewrite length_app in Hl. cbn in Hl. lia.
Qed.

Lemma fits_quote l : fits (l ++ [QUOTE]) -> Z.of_nat (length l) < 32765.
Proof. unfold fits. rewrite length_app. cbn. lia. Qed.

(** The rest of a text, after its first quote. *)
Lemma reads_piece p l k : Forall glyph_ok p -> fits (l ++ line_of p ++ [QUOTE]) ->
  reads (source_of p ++ [QUOTE]) (running l k) [] (running (l ++ line_of p ++ [QUOTE]) k).
Proof.
  intros Hp Hl. rewrite app_assoc in *. apply (reads_app (source_of p) [QUOTE] _ (running (l ++ line_of p) k) _ [] []).
  - apply reads_glyphs; [done|by apply fits_app in Hl].
  - apply reads_quote. by apply fits_quote.
Qed.

(** The end of a line. *)
Lemma reads_eol l k : fits l -> reads [CR; LF] (running l k) [] (pending l).
Proof.
  intros Hl. apply (reads_app [CR] [LF] _ (pending l) _ [] []); by apply (reads_char _ _ _ None).
Qed.

Lemma last_index_quote l : last_index (reverse (l ++ [QUOTE])) = length l.
Proof. rewrite reverse_snoc. destruct (reverse l) as [|c r] eqn:Hr; cbn; rewrite <- (length_reverse l), Hr; done. Qed.

(** A text that goes on on the next line. *)
Lemma reads_continue l : fits (l ++ [QUOTE]) -> reads [9; QUOTE] (pending (l ++ [QUOTE])) [] (running l (length l)).
Proof.
  intros Hl. apply (reads_app [9] [QUOTE] _ (pending (l ++ [QUOTE])) _ [] []); [by apply (reads_char _ _ _ None)|].
  apply (reads_char _ _ _ None); [|by apply fits_app in Hl]. intros b. unfold read_char, pending, sized. cbn [line last_char eol].
  rewrite last_index_quote, lookup_app_r, Nat.sub_diag by lia. cbn. by rewrite take_app_length.
Qed.

Lemma reads_pieces ps : forall l k, Forall (Forall glyph_ok) ps -> fits (l ++ line_of (concat ps) ++ [QUOTE]) ->
  exists k', reads (concat ((fun p => [CR; LF; 9] ++ quoted_source p) <$> ps)) (running (l ++ [QUOTE]) k) [] (running (l ++ line_of (concat ps) ++ [QUOTE]) k').
Proof.
  induction ps as [|p ps IH]; intros l k Hok Hl; [exists k; apply reads_nil|]. apply Forall_cons in Hok as [Hp Hps].
  assert (Hcat : line_of (concat (p :: ps)) = line_of p ++ line_of (concat ps)) by (unfold line_of; cbn; by rewrite fmap_app, concat_app).
  rewrite Hcat in *. rewrite <- app_assoc in Hl |- *.
  assert (Hl1 : fits (l ++ line_of p ++ [QUOTE])) by (unfold fits in *; rewrite !length_app in *; cbn in *; lia).
  assert (Hl0 : fits (l ++ [QUOTE])) by (unfold fits in *; rewrite !length_app in *; cbn in *; lia).
  destruct (IH (l ++ line_of p) (length l) Hps) as [k' Hk']; [by rewrite <- app_assoc|]. exists k'. rewrite <- !app_assoc in Hk'. cbn [fmap list_fmap concat].
  apply (reads_app ([CR; LF; 9] ++ quoted_source p) _ _ (running (l ++ line_of p ++ [QUOTE]) (length l)) _ [] []); [|exact Hk'].
  change ([CR; LF; 9] ++ quoted_source p) with ([CR; LF] ++ [9; QUOTE] ++ (source_of p ++ [QUOTE])).
  apply (reads_app [CR; LF] _ _ (pending (l ++ [QUOTE])) _ [] []); [by apply reads_eol|].
  apply (reads_app [9; QUOTE] _ _ (running l (length l)) _ [] []); [by apply reads_continue|by apply reads_piece].
Qed.

Lemma line_fits_le l l' : fits l -> (length l' <= length l)%nat -> fits l'.
Proof. unfold fits. lia. Qed.

(** A quoted text in pieces. *)
Lemma reads_quoted l p ps k : Forall (Forall glyph_ok) (p :: ps) -> fits (l ++ [QUOTE] ++ line_of (concat (p :: ps)) ++ [QUOTE]) ->
  exists k', reads (quoted_source p ++ concat ((fun p => [CR; LF; 9] ++ quoted_source p) <$> ps)) (running l k) []
    (running (l ++ [QUOTE] ++ line_of (concat (p :: ps)) ++ [QUOTE]) k').
Proof.
  intros Hok Hl. apply Forall_cons in Hok as [Hp Hps].
  assert (Htext : line_of (concat (p :: ps)) = line_of p ++ line_of (concat ps)) by (unfold line_of; cbn; by rewrite fmap_app, concat_app).
  rewrite Htext in *. destruct (reads_pieces ps (l ++ [QUOTE] ++ line_of p) k Hps) as [k' Hk'].
  { rewrite <- !app_assoc in *. done. }
  rewrite <- !app_assoc in *. exists k'.
  change (quoted_source p ++ concat ((fun p0 => [CR; LF; 9] ++ quoted_source p0) <$> ps)) with
    ([QUOTE] ++ (source_of p ++ [QUOTE]) ++ concat ((fun p0 => [CR; LF; 9] ++ quoted_source p0) <$> ps)).
  apply (reads_app [QUOTE] _ _ (running (l ++ [QUOTE]) k) _ [] []).
  { apply reads_quote. unfold fits in Hl. rewrite !length_app in Hl. cbn in Hl. lia. }
  apply (reads_app (source_of p ++ [QUOTE]) _ _ (running (l ++ [QUOTE] ++ line_of p ++ [QUOTE]) k) _ [] []); [|exact Hk'].
  pose proof (reads_piece p (l ++ [QUOTE]) k Hp) as H. rewrite <- !app_assoc in H. apply H.
  eapply line_fits_le; [exact Hl|]. rewrite !length_app. lia.
Qed.

(** What follows the head of a line. *)
Lemma reads_tail h ps k : Forall (Forall glyph_ok) ps -> fits (logical_line (mkLine h ps)) ->
  exists tail, render_line (mkLine h ps) = h ++ tail /\ reads tail (running h k) [] (pending (logical_line (mkLine h ps))).
Proof.
  intros Hok Hl. eexists. split; [reflexivity|]. unfold logical_line in *. cbn [head_of pieces] in *. destruct ps as [|p ps].
  - rewrite app_nil_r in *. by apply reads_eol.
  - change (h ++ [32; QUOTE] ++ line_of (concat (p :: ps)) ++ [QUOTE]) with (h ++ [32] ++ [QUOTE] ++ line_of (concat (p :: ps)) ++ [QUOTE]) in *.
    rewrite (app_assoc h [32]) in *. destruct (reads_quoted (h ++ [32]) p ps k Hok Hl) as [k' Hk'].
    change ((32 :: quoted_source p ++ concat ((fun p0 => [CR; LF; 9] ++ quoted_source p0) <$> ps)) ++ [CR; LF]) with
      ([32] ++ (quoted_source p ++ concat ((fun p0 => [CR; LF; 9] ++ quoted_source p0) <$> ps)) ++ [CR; LF]).
    apply (reads_app [32] _ _ (running (h ++ [32]) k) _ [] []).
    + apply reads_plain; [unfold plain, CR, LF, QUOTE; lia|]. unfold fits in Hl. rewrite !length_app in Hl. cbn in Hl. lia.
    + apply (reads_app _ [CR; LF] _ _ _ [] [] Hk'). by apply reads_eol.
Qed.

(** ** Lines one after the other *)

Lemma plain_starts c : plain c -> is_blank c = false -> is_eol c = false /\ bool_decide (c = 92) = false /\ bool_decide (c = QUOTE) = false.
Proof. intros (H0 & H1 & H2 & H3 & H4) _. split_and!; apply bool_decide_eq_false_2; tauto. Qed.

Lemma c_str_nonzero l : Forall (fun c => 0 < c) l -> c_str l = l.
Proof. induction 1 as [|c l Hc _ IH]; [done|]. cbn. rewrite bool_decide_false by lia. by rewrite IH. Qed.

Lemma line_of_nonzero gs : Forall glyph_ok gs -> Forall (fun c => 0 < c) (line_of gs).
Proof.
  intros Hok. unfold line_of. apply Forall_concat, Forall_fmap. eapply Forall_impl; [exact Hok|]. intros [c|] Hg; cbn.
  - destruct Hg as [Hc _]. case_bool_decide; repeat constructor; unfold QUOTE; lia.
  - repeat constructor; unfold CR, LF; lia.
Qed.

Lemma logical_line_string l : line_ok l -> c_str (logical_line l) = logical_line l.
Proof.
  intros (Hh & _ & Hp & _). apply c_str_nonzero. unfold logical_line. apply Forall_app. split.
  - eapply Forall_impl; [exact Hh|]. intros c Hc. by destruct Hc as [[? _] _].
  - destruct (pieces l) as [|p ps]; [constructor|]. apply Forall_app. split; [repeat constructor; unfold QUOTE; lia|].
    apply Forall_app. split; [|repeat constructor; unfold QUOTE; lia]. apply line_of_nonzero. by apply Forall_concat.
Qed.

(** The first character of a line ends the one before. *)
Definition begins (rd : reader) (ls : list (list Z)) : Prop :=
  rd = running [] 0 /\ ls = [] \/ exists l, rd = pending l /\ c_str l = l /\ ls = [l].

Lemma reads_begin c rd ls : begins rd ls -> plain c -> is_blank c = false -> reads [c] rd ls (running [c] 0).
Proof.
  intros Hb Hc Hblank. destruct (plain_starts c Hc Hblank) as (He & Hs & Hq). destruct Hb as [[-> ->]|(l & -> & Hl & ->)].
  - apply (reads_plain c [] 0 Hc). cbn. lia.
  - apply (reads_char c _ _ (Some l)); [|cbn; lia]. intros b. unfold read_char. rewrite He, Hblank, Hs. cbn.
    change (bool_decide (c = QUOTE)) with (bool_decide (c = QUOTE)). rewrite Hq. cbn. unfold line_string. cbn. by rewrite Hl.
Qed.

Lemma reads_line l rd ls : begins rd ls -> line_ok l -> reads (render_line l) rd ls (pending (logical_line l)).
Proof.
  intros Hb (Hh & (c & h & Heq & Hblank) & Hp & Hl). destruct l as [h' ps]. cbn [head_of pieces] in *. subst h'.
  destruct (reads_tail (c :: h) ps 0 Hp Hl) as (tail & -> & Htail). apply Forall_cons in Hh as [Hc Hh].
  change ((c :: h) ++ tail) with ([c] ++ h ++ tail). rewrite <- (app_nil_r ls).
  apply (reads_app [c] _ _ (running [c] 0)); [by apply reads_begin|]. apply (reads_app h tail _ (running ([c] ++ h) 0) _ [] []); [|exact Htail].
  apply reads_plains; [done|]. unfold logical_line in Hl. cbn [head_of pieces] in Hl. eapply fits_app, Hl.
Qed.

Lemma reads_lines ls l : forall rd before, begins rd before -> Forall line_ok (ls ++ [l]) ->
  reads (concat (render_line <$> (ls ++ [l]))) rd (before ++ (logical_line <$> ls)) (pending (logical_line l)).
Proof.
  induction ls as [|x ls IH]; intros rd before Hb Hok; cbn [app fmap list_fmap concat].
  - rewrite !app_nil_r. apply Forall_cons in Hok as [Hl _]. by apply reads_line.
  - apply Forall_cons in Hok as [Hx Hok].
    assert (Hp : begins (pending (logical_line x)) [logical_line x]) by (right; exists (logical_line x); split_and!; [done|by apply logical_line_string|done]).
    exact (reads_app _ _ _ _ _ _ _ (reads_line x rd before Hb Hx) (IH _ _ Hp Hok)).
Qed.

(** What ends a section: the end of the file, or the first character of the next one. *)
Definition ends_section (rest : list Z) : Prop := match rest with [] => True | c :: _ => plain c /\ is_blank c = false end.

Lemma section_lines_of ls rest pos : ls <> [] -> Forall line_ok ls -> ends_section rest ->
  section_lines (concat (render_line <$> ls) ++ rest) pos (pos + Z.of_nat (length (concat (render_line <$> ls)))) new_reader =
  Ret (logical_line <$> ls, true).
Proof.
  intros Hne Hok Hrest. destruct (exists_last Hne) as (ls' & l & ->).
  destruct (reads_lines ls' l (running [] 0) [] (or_introl (conj eq_refl eq_refl)) Hok 1024 rest pos (pos + Z.of_nat (length (concat (render_line <$> (ls' ++ [l]))))))
    as (b' & _ & Heq); [by exists 0|lia|]. apply Forall_app in Hok as [_ Hl]. apply Forall_cons in Hl as [Hl _].
  change new_reader with (sized 1024 (running [] 0)). rewrite Heq. clear Heq. cbn [app]. rewrite (fmap_app logical_line).
  destruct rest as [|c rest]; cbn [section_lines].
  - unfold sized, pending. cbn [line]. by rewrite logical_line_string.
  - destruct Hrest as [Hc Hblank]. destruct (plain_starts c Hc Hblank) as (He & Hs & Hq). unfold read_char, sized, pending. rewrite He, Hblank, Hs, Hq.
    cbn [eol escape_sequence andb]. unfold line_string. cbn [terminated orb line]. rewrite logical_line_string by done. cbn [mbind checked_bind].
    by rewrite bool_decide_true by lia.
Qed.

(** ** Items *)

(** A message, a dialog, the text of a control of the current dialog, another translation that
    this one is based on, a comment. *)
Inductive item :=
  | Message (n : Z) (text : list (list glyph))
  | Dialog (k : nat)
  | Control (name : list Z) (text : list (list glyph))
  | Base (i : nat)
  | Comment (text : list Z).

Definition dialog_name (k : nat) : list Z := default [] (fst <$> control_id !! k).
Definition message_name (n : Z) : list Z := chars "MSG_" ++ three_digits n.

(** The names of the translations are those that their bases are found by. *)
Definition item_line (names : list (list Z)) (it : item) : source_line :=
  match it with
  | Message n text => mkLine (116 :: 32 :: message_name n) text
  | Dialog k => mkLine (103 :: 32 :: dialog_name k) []
  | Control name text => mkLine (116 :: 32 :: name) text
  | Base i => mkLine [98] [Char <$> default [] (names !! i)]
  | Comment text => mkLine (35 :: text) []
  end.

(** A text that a command can hold: its last character is not a backslash, which would escape the quote. *)
Definition text_ok (text : list (list glyph)) : Prop := text <> [] /\ last (concat text) <> Some (Char 92).

Definition word_ok (name : list Z) : Prop := name <> [] /\ Forall (fun c => is_blank c = false) name.

Definition item_ok (n : nat) (names : list (list Z)) (it : item) : Prop :=
  line_ok (item_line names it) /\
  match it with
  | Message m text => 1 <= m < MSG_MAX - MSG_000 /\ text_ok text
  | Dialog k => (k < Z.to_nat loc_dlg_size)%nat
  | Control name text => word_ok name /\ is_message name = false /\ is_Some (control_number name) /\ text_ok text
  | Base i => (i < n)%nat
  | Comment _ => True
  end.

(** What an item adds, over what the translations before this one define. *)
Definition define_item (bases : list (catalog -> catalog)) (sel : msg_tables) (cat : catalog) (it : item) : catalog :=
  match it, sel with
  | Message n text, _ => add_message n (text_of (concat text)) cat
  | Dialog k, current_table => set_group (Z.of_nat k) cat
  | Control name text, current_table => add_control name (text_of (concat text)) cat
  | Base i, current_table => default id (bases !! i) cat
  | _, _ => cat
  end.

(** ** Words and quoted texts *)

Lemma word_app (ends : Z -> bool) w c rest : Forall (fun c => ends c = false) w -> ends c = true -> word ends (w ++ c :: rest) = (w, rest).
Proof. intros Hw Hc. induction Hw as [|d w Hd Hw IH]; cbn; [by rewrite Hc|]. by rewrite Hd, IH. Qed.

Lemma word_all (ends : Z -> bool) w : Forall (fun c => ends c = false) w -> word ends w = (w, []).
Proof. intros Hw. induction Hw as [|d w Hd Hw IH]; cbn; [done|]. by rewrite Hd, IH. Qed.

Lemma quoted_glyphs gs : forall acc rest, quoted acc (line_of gs ++ rest) = quoted (reverse (text_of gs) ++ acc) rest.
Proof.
  induction gs as [|g gs IH]; intros acc rest; [done|]. change (line_of (g :: gs)) with (glyph_line g ++ line_of gs).
  cbn [fmap list_fmap concat]. rewrite reverse_app, <- !app_assoc. destruct g as [c|]; cbn [glyph_line glyph_text].
  - case_bool_decide as Hc; cbn [app quoted].
    + subst c. rewrite bool_decide_false by done. rewrite bool_decide_true by done. by rewrite IH.
    + rewrite (bool_decide_false _ Hc). by rewrite IH.
  - cbn [app quoted]. rewrite !bool_decide_false by done. by rewrite IH.
Qed.

Lemma quoted_text gs rest : last gs <> Some (Char 92) -> quoted [] (line_of gs ++ QUOTE :: rest) = Some (text_of gs, rest).
Proof.
  intros Hlast. rewrite quoted_glyphs, app_nil_r. cbn [quoted]. rewrite bool_decide_true by done.
  assert (Hrev : match reverse (text_of gs) with 92 :: acc => quoted (QUOTE :: acc) rest | _ => Some (reverse (reverse (text_of gs)), rest) end = Some (text_of gs, rest)).
  { rewrite reverse_involutive. destruct gs as [|g gs _] using rev_ind; [done|]. rewrite fmap_app, concat_app, reverse_app.
    rewrite last_snoc in Hlast. destruct g as [c|]; cbn; [|done]. assert (c <> 92) by (intros ->; by apply Hlast).
    destruct c as [|p|p]; try done. do 7 (destruct p as [p|p|]; try done). }
  done.
Qed.

(** ** The commands of the lines *)

Lemma get_arg_text gs p rest' : last gs <> Some (Char 92) -> rest p = 32 :: QUOTE :: line_of gs ++ QUOTE :: rest' \/ rest p = QUOTE :: line_of gs ++ QUOTE :: rest' ->
  get_arg Arg_s p = Some (mkParsed rest' (texts p ++ [text_of gs]) (ints p) (list_of_ints p)).
Proof.
  intros Hlast Hp. unfold get_arg. assert (skip_blanks (rest p) = QUOTE :: line_of gs ++ QUOTE :: rest') as -> by (by destruct Hp as [->| ->]).
  rewrite bool_decide_false by done. rewrite bool_decide_true by done. by rewrite quoted_text.
Qed.

Lemma get_arg_word w p rest' : word_ok w -> rest p = 32 :: w ++ 32 :: rest' \/ rest p = 32 :: w /\ rest' = [] ->
  get_arg Arg_c p = Some (mkParsed rest' (texts p ++ [w]) (ints p) (list_of_ints p)).
Proof.
  intros [Hne Hw] Hp. unfold get_arg. assert (Hskip : forall l, skip_blanks (32 :: w ++ l) = w ++ l).
  { intros l. cbn. destruct w as [|c w]; [done|]. apply Forall_cons in Hw as [Hc _]. cbn. by rewrite Hc. }
  destruct Hp as [->|[-> ->]].
  - rewrite Hskip, bool_decide_false by (by destruct w). by rewrite word_app.
  - pose proof (Hskip []) as H0. rewrite app_nil_r in H0. rewrite H0, bool_decide_false by done. by rewrite word_all.
Qed.

Lemma skip_letter c rest' : is_blank c = false -> skip_blanks (c :: rest') = c :: rest'.
Proof. cbn. by intros ->. Qed.

Lemma get_loc_cmd_eq c cmd args l : snd <$> list_find (fun e => fst e = c) parse_cmd = Some (c, (cmd, args)) ->
  get_loc_cmd c l = (p ← get_args args (mkParsed l [] [] []);
    Some (mkLocCmd cmd (if bool_decide (command_number cmd <= command_number LC_TEXT) then -1 else 0)
          (default 0 (ints p !! 0%nat)) (default 0 (ints p !! 1%nat)) (list_of_ints p) (texts p !! 0%nat) (texts p !! 1%nat))).
Proof. intros H. unfold get_loc_cmd. by rewrite H. Qed.

Lemma parse_text name text : word_ok name -> text_ok text ->
  parse_line (logical_line (mkLine (116 :: 32 :: name) text)) = Some (mkLocCmd LC_TEXT (-1) 0 0 [] (Some name) (Some (text_of (concat text)))).
Proof.
  intros Hn [Hne Hlast]. unfold logical_line. cbn [head_of pieces]. destruct text as [|p ps]; [done|]. set (gs := concat (p :: ps)) in *.
  unfold parse_line. cbn [app]. rewrite skip_letter by done. rewrite bool_decide_false by done.
  change (is_blank 32) with true. cbn iota. rewrite (get_loc_cmd_eq 116 LC_TEXT [Arg_c; Arg_s]) by (vm_compute; reflexivity). cbn [get_args].
  rewrite (get_arg_word name _ (QUOTE :: line_of gs ++ [QUOTE]) Hn) by (by left).
  cbn [mbind option_bind get_args]. rewrite (get_arg_text gs _ []) by (done || by right). done.
Qed.

Lemma parse_group name : word_ok name ->
  parse_line (logical_line (mkLine (103 :: 32 :: name) [])) = Some (mkLocCmd LC_GROUP (-1) 0 0 [] (Some name) None).
Proof.
  intros Hn. unfold logical_line. cbn [head_of pieces]. rewrite app_nil_r. unfold parse_line. rewrite skip_letter by done. rewrite bool_decide_false by done.
  change (is_blank 32) with true. cbn iota. rewrite (get_loc_cmd_eq 103 LC_GROUP [Arg_c]) by (vm_compute; reflexivity). cbn [get_args].
  by rewrite (get_arg_word name _ [] Hn) by (by right).
Qed.

Lemma parse_base gs : last gs <> Some (Char 92) ->
  parse_line (logical_line (mkLine [98] [gs])) = Some (mkLocCmd LC_BASE 0 0 0 [] (Some (text_of gs)) None).
Proof.
  intros Hlast. unfold logical_line. cbn [head_of pieces]. assert (concat [gs] = gs) as -> by (cbn; by rewrite app_nil_r).
  unfold parse_line. cbn [app]. rewrite skip_letter by done. rewrite bool_decide_false by done.
  change (is_blank 32) with true. cbn iota. rewrite (get_loc_cmd_eq 98 LC_BASE [Arg_s]) by (vm_compute; reflexivity). cbn [get_args]. by rewrite (get_arg_text gs _ []) by (done || by left).
Qed.

Lemma parse_comment text : parse_line (logical_line (mkLine (35 :: text) [])) = None.
Proof. unfold logical_line. cbn [head_of pieces]. rewrite app_nil_r. unfold parse_line. by rewrite skip_letter by done. Qed.

(** The lines with a version or attributes define nothing. *)
Lemma parse_other c l cmd : c = 118 \/ c = 97 -> parse_line (c :: l) = Some cmd -> command cmd = LC_VERSION \/ command cmd = LC_ATTRIBUTES.
Proof.
  intros Hc. unfold parse_line. rewrite skip_letter by (by destruct Hc as [->| ->]). rewrite bool_decide_false by lia.
  destruct l as [|d l]; [done|]. destruct (is_blank d); [|done]. intros H. destruct Hc as [->| ->].
  - rewrite (get_loc_cmd_eq 118 LC_VERSION [Arg_u]) in H by (vm_compute; reflexivity). apply bind_Some in H as (p & _ & [= <-]). by left.
  - rewrite (get_loc_cmd_eq 97 LC_ATTRIBUTES [Arg_s]) in H by (vm_compute; reflexivity). apply bind_Some in H as (p & _ & [= <-]). by right.
Qed.

(** ** The names of the tables *)

Lemma message_names : Forall (fun n => atoi (three_digits (Z.of_nat n)) = Z.of_nat n /\ word_ok (message_name (Z.of_nat n)) /\ is_message (message_name (Z.of_nat n)) = true) (seq 0 400).
Proof.
  apply Forall_forall. intros n Hn. unfold word_ok.
  assert (H : forallb (fun n => bool_decide (atoi (three_digits (Z.of_nat n)) = Z.of_nat n) && forallb (fun c => negb (is_blank c)) (message_name (Z.of_nat n)) &&
    is_message (message_name (Z.of_nat n))) (seq 0 400) = true) by (vm_compute; reflexivity).
  rewrite forallb_forall in H. specialize (H n ltac:(by apply list_elem_of_In)). apply andb_true_iff in H as [[H1%bool_decide_eq_true_1 H2]%andb_true_iff H3].
  split_and!; [done|done| |done]. apply Forall_forall. intros c Hc. rewrite forallb_forall in H2. specialize (H2 c ltac:(by apply list_elem_of_In)). by destruct (is_blank c).
Qed.

Lemma message_name_ok n : 1 <= n < MSG_MAX - MSG_000 -> atoi (three_digits n) = n /\ word_ok (message_name n) /\ is_message (message_name n) = true.
Proof.
  intros Hn. pose proof message_names as H. rewrite Forall_forall in H. specialize (H (Z.to_nat n)).
  rewrite Z2Nat.id in H by lia. apply H. apply elem_of_seq. unfold MSG_MAX, MSG_000 in Hn. lia.
Qed.

Lemma dialog_name_ok k : (k < Z.to_nat loc_dlg_size)%nat -> word_ok (dialog_name k) /\ is_message (dialog_name k) = false /\
  control_number (dialog_name k) = Some (IDD_DIALOG + Z.of_nat k).
Proof.
  intros Hk. change (Z.to_nat loc_dlg_size) with 10%nat in Hk.
  do 10 (destruct k as [|k]; [unfold word_ok; split_and!; [done|repeat constructor|vm_compute; reflexivity|vm_compute; reflexivity]|]). lia.
Qed.

(** ** What a section defines *)

Lemma text_of_chars l : text_of (Char <$> l) = l.
Proof. induction l as [|c l IH]; [done|]. cbn. by rewrite IH. Qed.

(** A locale is found by its name. *)
Lemma locale_of_name names locales i name : NoDup names -> (fun c => txt0 c) <$> locales = Some <$> names -> names !! i = Some name ->
  get_locale_from_name name false locales = Some i.
Proof.
  intros Hnd Htxt Hi. unfold get_locale_from_name, get_locale.
  assert (Hlook : forall j c, locales !! j = Some c -> exists n, names !! j = Some n /\ txt0 c = Some n).
  { intros j c Hj. assert (H : ((fun c => txt0 c) <$> locales) !! j = Some (txt0 c)) by (by rewrite list_lookup_fmap, Hj).
    rewrite Htxt, list_lookup_fmap in H. apply fmap_Some in H as (n & Hn & Heq). by exists n. }
  destruct (lookup_lt_is_Some_2 locales i) as [c Hc].
  { apply (f_equal length) in Htxt. rewrite !length_fmap in Htxt. rewrite Htxt. by eapply lookup_lt_Some. }
  destruct (Hlook i c Hc) as (n & Hn & Ht). rewrite Hi in Hn. injection Hn as <-.
  rewrite (proj2 (list_find_Some (fun c => bool_decide (txt0 c = Some name) = true) locales i c)); [done|].
  split_and!; [done|by apply bool_decide_eq_true_2|]. intros j d Hj Hlt Heq%bool_decide_eq_true_1.
  destruct (Hlook j d Hj) as (n & Hn & Hd). rewrite Heq in Hd. injection Hd as <-. pose proof (NoDup_lookup _ _ _ _ Hnd Hi Hn). lia.
Qed.

Section define.
Context (base : loc_cmd -> catalog -> checked catalog) (names : list (list Z)) (locales : list loc_cmd) (sel : msg_tables).
Context (Hnames : NoDup names) (Hlocales : (fun c => txt0 c) <$> locales = Some <$> names) (Hlast : Forall (fun name => last name <> Some 92) names).
Context (bases : list (catalog -> catalog)).

(** The bases have been read before. *)
Definition bases_ok (n : nat) : Prop := forall i, (i < n)%nat -> exists c name f, names !! i = Some name /\ locales !! i = Some c /\ bases !! i = Some f /\
  (sel = current_table -> forall cat, base c cat = Ret (f cat)).

Lemma perform_item n it cat : item_ok n names it -> bases_ok n ->
  perform_line base locales sel (logical_line (item_line names it)) cat = Ret (define_item bases sel cat it).
Proof.
  intros [Hline Hok] Hbases. unfold perform_line. destruct it as [m text|k|name text|i|text]; cbn [item_line].
  - destruct Hok as [Hm Htext]. destruct (message_name_ok m Hm) as (Hatoi & Hword & Hmsg). rewrite parse_text by done.
    rewrite bool_decide_false by done. unfold perform, perform_text. cbn [command txt0 txt1 default from_option id]. rewrite Hmsg.
    change (drop 4 (message_name m)) with (three_digits m). rewrite Hatoi, bool_decide_true by done. done.
  - destruct (dialog_name_ok k Hok) as (Hword & Hmsg & Hid). rewrite parse_group by done. rewrite bool_decide_false by done.
    unfold perform, perform_group. cbn [command txt0 default from_option id]. rewrite Hmsg, Hid. destruct sel; [done|].
    rewrite bool_decide_true by lia. cbn. by replace (IDD_DIALOG + Z.of_nat k - IDD_DIALOG) with (Z.of_nat k) by lia.
  - destruct Hok as (Hword & Hmsg & [cid Hid] & Htext). rewrite parse_text by done. rewrite bool_decide_false by done.
    unfold perform, perform_text. cbn [command txt0 txt1 default from_option id]. rewrite Hmsg, Hid. by destruct sel.
  - destruct (Hbases i Hok) as (c & name & f & Hname & Hc & Hf & Hb). rewrite Hname. cbn [default from_option id].
    rewrite parse_base.
    + rewrite text_of_chars. rewrite bool_decide_false by done. unfold perform. cbn [command txt0 default from_option id]. destruct sel eqn:Hsel; [done|].
      rewrite (locale_of_name names locales i name) by done. cbn. rewrite Hc, Hf. by apply Hb.
    + rewrite fmap_last. rewrite Forall_lookup in Hlast. specialize (Hlast i name Hname). destruct (last name); cbn; congruence.
  - by rewrite parse_comment.
Qed.

Lemma perform_items n items : Forall (item_ok n names) items -> bases_ok n -> forall cat,
  perform_lines base locales sel (logical_line <$> (item_line names <$> items)) cat = Ret (fold_left (define_item bases sel) items cat).
Proof.
  intros Hok Hbases. induction Hok as [|it items Hit _ IH]; intros cat; [done|]. cbn [fmap list_fmap perform_lines].
  rewrite (perform_item n it cat Hit Hbases). cbn [mbind checked_bind]. apply IH.
Qed.

Lemma perform_other h gs c l cat : logical_line (mkLine h gs) = c :: l -> c = 118 \/ c = 97 ->
  perform_line base locales sel (logical_line (mkLine h gs)) cat = Ret cat.
Proof.
  intros Heq Hc. unfold perform_line. rewrite Heq. destruct (parse_line (c :: l)) as [cmd|] eqn:Hp; [|done].
  apply parse_other in Hp; [|done]. unfold perform. destruct Hp as [Hp|Hp]; rewrite Hp; by rewrite bool_decide_false.
Qed.
End define.
