(* ===== verification/LocalizationFile.v ===== *)
(** LocalizationFile: a whole localization file, a list of translations, is listed by
    [get_supported_locales] and each of its translations is loaded by [get_loc_data_file]. *)

From Stdlib Require Import Ascii String.
From stdpp Require Import gmap.
From S2P Require Import Prelude CText Faults ConfigText Settings SettingsProps LocCommands Localization LocalizationCorrect LocalizationCatalog LocalizationProps LocalizationText.

(** ** The file *)

Record translation := mkTranslation {
  tr_name : list Z; tr_label : list Z; tr_lcids : list Z; tr_major : Z; tr_minor : Z; tr_right_to_left : bool; tr_items : list item;
}.

Definition join (sep : Z) (ws : list (list Z)) : list Z :=
  match ws with [] => [] | w :: ws => w ++ concat ((fun w => sep :: w) <$> ws) end.

(** The line of the locale, whose numbers are separated by commas. *)
Definition locale_header (t : translation) : list Z :=
  [108; 32; QUOTE] ++ tr_name t ++ [QUOTE; 32; QUOTE] ++ tr_label t ++ [QUOTE; 32] ++ join 44 (print_dec <$> tr_lcids t) ++ [CR; LF].

Definition version_line (t : translation) : source_line := mkLine ([118; 32] ++ join 46 (print_dec <$> [tr_major t; tr_minor t])) [].
Definition attribute_line : source_line := mkLine [97] [[Char 114]].

Definition section_of (names : list (list Z)) (t : translation) : list source_line :=
  version_line t :: (if tr_right_to_left t then [attribute_line] else []) ++ (item_line names <$> tr_items t).

Definition render_section (names : list (list Z)) (t : translation) : list Z := concat (render_line <$> section_of names t).
Definition render_translations (names : list (list Z)) (ts : list translation) : list Z := concat ((fun t => locale_header t ++ render_section names t) <$> ts).
Definition render_file (ts : list translation) : list Z := render_translations (tr_name <$> ts) ts.

(** ** What it stands for *)

Definition older (first t : translation) : bool :=
  bool_decide (tr_major t < tr_major first \/ tr_major t = tr_major first /\ tr_minor t < tr_minor first).

(** The locales, with the offsets of their sections, from that of the first one on. *)
Definition locale_of (first t : translation) (start end_ : Z) : loc_cmd :=
  mkLocCmd LC_LOCALE (Z.lor (if older first t then LOC_NEEDS_UPDATE else 0) (if tr_right_to_left t then LOC_RIGHT_TO_LEFT else 0))
    start end_ (tr_lcids t) (Some (tr_name t)) (Some (tr_label t)).

Fixpoint locales_of (names : list (list Z)) (first : translation) (ts : list translation) (pos : Z) : list loc_cmd :=
  match ts with
  | [] => []
  | t :: ts =>
      let start := pos + Z.of_nat (length (locale_header t)) in
      let end_ := start + Z.of_nat (length (render_section names t)) in
      locale_of first t start end_ :: locales_of names first ts end_
  end.

(** What each translation makes of a catalog, with those before it as bases. *)
Definition define_items (bases : list (catalog -> catalog)) (sel : msg_tables) (items : list item) (cat : catalog) : catalog :=
  fold_left (define_item bases sel) items cat.
Definition define_all (sel : msg_tables) (ts : list translation) : list (catalog -> catalog) :=
  fold_left (fun bases t => bases ++ [define_items bases sel (tr_items t)]) ts [].

(** ** The lines of the file *)

(** The lines of the file that a line is written on, without their ends. *)
Definition file_lines (l : source_line) : list (list Z) :=
  match pieces l with
  | [] => [head_of l]
  | p :: ps => (head_of l ++ 32 :: quoted_source p) :: ((fun p => 9 :: quoted_source p) <$> ps)
  end.

Definition crlf_lines (ls : list (list Z)) : list Z := concat ((fun l => l ++ [CR; LF]) <$> ls).

Lemma crlf_lines_app a b : crlf_lines (a ++ b) = crlf_lines a ++ crlf_lines b.
Proof. unfold crlf_lines. by rewrite fmap_app, concat_app. Qed.

Lemma render_pieces ps : concat ((fun p => [CR; LF; 9] ++ quoted_source p) <$> ps) ++ [CR; LF] =
  [CR; LF] ++ crlf_lines ((fun p => 9 :: quoted_source p) <$> ps).
Proof.
  induction ps as [|q ps IH]; [done|]. unfold crlf_lines in *. cbn [fmap list_fmap concat] in *. rewrite <- !app_assoc, IH. done.
Qed.

Lemma render_line_file l : render_line l = crlf_lines (file_lines l).
Proof.
  destruct l as [h [|p ps]]; unfold render_line, file_lines; cbn [head_of pieces]; [unfold crlf_lines; cbn; by rewrite app_nil_r|].
  change (crlf_lines ((h ++ 32 :: quoted_source p) :: ((fun p => 9 :: quoted_source p) <$> ps))) with
    (((h ++ 32 :: quoted_source p) ++ [CR; LF]) ++ crlf_lines ((fun p => 9 :: quoted_source p) <$> ps)).
  change ((32 :: quoted_source p ++ concat ((fun p => [CR; LF; 9] ++ quoted_source p) <$> ps)) ++ [CR; LF]) with
    (32 :: (quoted_source p ++ concat ((fun p => [CR; LF; 9] ++ quoted_source p) <$> ps)) ++ [CR; LF]).
  rewrite <- !app_assoc, render_pieces. done.
Qed.

(** A line that fits the block of [get_supported_locales], with its end. *)
Definition short_line (l : list Z) : Prop := Forall (fun c => 0 < c < 256 /\ c <> LF) l /\ (length l <= 1021)%nat.

Lemma read_line_short l rest : short_line l -> read_line 1023 (l ++ [CR; LF] ++ rest) = (l ++ [CR; LF], rest).
Proof.
  intros [Hl Hlen]. assert (H : forall n, (length l + 2 <= n)%nat -> read_line n (l ++ [CR; LF] ++ rest) = (l ++ [CR; LF], rest)).
  { clear Hlen. induction Hl as [|c l Hc Hl IH]; intros n Hn; cbn in Hn.
    - destruct n as [|[|n]]; [lia|lia|]. cbn. by destruct n.
    - destruct n as [|n]; [lia|]. cbn [app read_line]. rewrite bool_decide_false by tauto. by rewrite IH by lia. }
  apply H. lia.
Qed.

Lemma c_str_line l : short_line l -> c_str (l ++ [CR; LF]) = l ++ [CR; LF].
Proof.
  intros [Hl _]. apply c_str_nonzero. apply Forall_app. split; [|repeat constructor; unfold CR, LF; lia].
  eapply Forall_impl; [exact Hl|]. cbn. lia.
Qed.

(** The loop on the lines, whatever the fuel that is left. *)
Definition lists (bytes : list Z) (l l' : locales) (pos : Z) : Prop := forall fuel rest, (length (bytes ++ rest) <= fuel)%nat ->
  exists fuel', (length rest <= fuel')%nat /\ locale_lines fuel pos (bytes ++ rest) l = locale_lines fuel' (pos + Z.of_nat (length bytes)) rest l'.

Lemma lists_nil l pos : lists [] l l pos.
Proof. intros fuel rest Hf. exists fuel. split; [done|]. cbn. by rewrite Z.add_0_r. Qed.

Lemma lists_app a b l l1 l2 pos : lists a l l1 pos -> lists b l1 l2 (pos + Z.of_nat (length a)) -> lists (a ++ b) l l2 pos.
Proof.
  intros Ha Hb fuel rest Hf. rewrite <- app_assoc in *. destruct (Ha fuel (b ++ rest) Hf) as (f1 & Hf1 & ->).
  destruct (Hb f1 rest Hf1) as (f2 & Hf2 & ->). exists f2. split; [done|]. rewrite length_app. f_equal. lia.
Qed.

Lemma lists_line x l pos : short_line x -> lists (x ++ [CR; LF]) l (locale_line pos (pos + Z.of_nat (length (x ++ [CR; LF]))) (x ++ [CR; LF]) l) pos.
Proof.
  intros Hx fuel rest Hf. destruct fuel as [|fuel]; [rewrite !length_app in Hf; cbn in Hf; lia|]. exists fuel. split.
  - rewrite !length_app in Hf. cbn in Hf. lia.
  - rewrite <- app_assoc. cbn [locale_lines].
    destruct (x ++ [CR; LF] ++ rest) as [|c r] eqn:Hxr; [by destruct x|]. rewrite <- Hxr. rewrite read_line_short by done. by rewrite c_str_line.
Qed.

(** A line that does not begin with one of the letters. *)
Definition skipped (x : list Z) : Prop := exists c r, skip_blanks (x ++ [CR; LF]) = c :: r /\ c <> 108 /\ c <> 118 /\ c <> 97.

Lemma lists_skipped xs l : forall pos, Forall short_line xs -> Forall skipped xs -> lists (crlf_lines xs) l l pos.
Proof.
  induction xs as [|x xs IH]; intros pos Hs Hk; [apply lists_nil|]. apply Forall_cons in Hs as [Hx Hs]. apply Forall_cons in Hk as [(c & r & Hc & Hn) Hk].
  change (crlf_lines (x :: xs)) with ((x ++ [CR; LF]) ++ crlf_lines xs). eapply lists_app; [apply (lists_line x l pos Hx)|].
  unfold locale_line. rewrite Hc, bool_decide_false by tauto. by apply IH.
Qed.

(** ** Numbers *)

Definition number_ok (n : Z) : Prop := 0 <= n < 2 ^ 31.

Lemma number_digits n : number_ok n -> exists c ds, print_dec n = c :: ds /\ Forall digit (c :: ds) /\ (c = 48 -> ds = []) /\ digits_value 10 0 (c :: ds) = n.
Proof.
  unfold number_ok. intros Hn. unfold print_dec. rewrite bool_decide_false by lia.
  destruct (dec_digits_head 20 n) as (c & ds & Heq & Hc & Hz); [cbn; lia|lia|]. exists c, ds.
  split_and!; [done|rewrite <- Heq; apply dec_digits_digits; lia|done|rewrite <- Heq; apply dec_digits_read; cbn; lia].
Qed.

(** What may come after a number. *)
Definition number_end (tail : list Z) : Prop := tail = [] \/ tail = [CR; LF].

Lemma digits_value_end ds tail : number_end tail -> Forall digit ds -> forall acc, digits_value 10 acc (ds ++ tail) = digits_value 10 acc ds.
Proof.
  intros Ht. induction 1 as [|c ds Hc _ IH]; intros acc; [by destruct Ht as [->| ->]|]. cbn [app]. rewrite !digits_value_cons by done. apply IH.
Qed.

Lemma strtol_number n tail : number_ok n -> number_end tail -> strtol 32 (print_dec n ++ tail) = n.
Proof.
  intros Hn Ht. destruct (number_digits n Hn) as (c & ds & -> & Hds & Hz & Hv). apply Forall_cons in Hds as [Hc Hds]. pose proof Hc as Hc'. unfold digit in Hc'.
  unfold strtol. cbn [app]. rewrite skip_spaces_number by lia. cbn [sign]. rewrite !bool_decide_false by lia. unfold number_ok in Hn.
  change (2 ^ (32 - 1)) with 2147483648. change (2 ^ 31) with 2147483648 in Hn. destruct (decide (c = 48)) as [->|Hne].
  - rewrite Hz in * by done. vm_compute in Hv. subst n. by destruct Ht as [->| ->].
  - rewrite number_base_dec by done. change (c :: ds ++ tail) with ((c :: ds) ++ tail).
    rewrite digits_value_end by (done || by constructor). rewrite Hv. lia.
Qed.

Lemma digit_separator c : digit c -> is_separator c = false /\ is_blank c = false.
Proof. unfold digit, is_separator, is_blank. intros Hc. split; apply bool_decide_eq_false_2; lia. Qed.

Lemma number_no_separator n : number_ok n -> Forall (fun c => is_separator c = false) (print_dec n) /\ print_dec n <> [].
Proof.
  intros Hn. destruct (number_digits n Hn) as (c & ds & -> & Hds & _). split; [|done].
  eapply Forall_impl; [exact Hds|]. intros d Hd. by apply digit_separator.
Qed.

Lemma tokens_app w : forall acc s, Forall (fun c => is_separator c = false) w -> tokens acc (w ++ s) = tokens (reverse w ++ acc) s.
Proof.
  induction w as [|c w IH]; intros acc s Hw; [done|]. apply Forall_cons in Hw as [Hc Hw]. cbn [app tokens]. rewrite Hc, IH by done.
  by rewrite reverse_cons, <- app_assoc.
Qed.

Lemma tokens_numbers sep tail ns : is_separator sep = true -> number_end tail -> forall n, Forall number_ok (n :: ns) ->
  (fun t => u32 (strtol 32 t)) <$> tokens [] (join sep (print_dec <$> n :: ns) ++ tail) = n :: ns /\
  length (filter (fun c => is_separator c = true) (join sep (print_dec <$> n :: ns) ++ tail)) = length ns.
Proof.
  intros Hsep Ht.
  assert (Hnum : forall n w, number_ok n -> number_end w -> u32 (strtol 32 (print_dec n ++ w)) = n).
  { intros n w Hn Hw. rewrite strtol_number by done. unfold number_ok in Hn. by rewrite uwrap_small by lia. }
  assert (Hfil : forall w, Forall (fun c => is_separator c = false) w -> filter (fun c => is_separator c = true) w = []).
  { intros w Hw. induction Hw as [|c w Hc _ IH]; [done|]. rewrite filter_cons_False by congruence. done. }
  assert (Htail : Forall (fun c => is_separator c = false) tail) by (destruct Ht as [->| ->]; repeat constructor).
  induction ns as [|m ns IH]; intros n Hok; apply Forall_cons in Hok as [Hn Hns]; destruct (number_no_separator n Hn) as [Hw Hne]; cbn [fmap list_fmap join concat].
  - rewrite app_nil_r. split; [|by rewrite filter_app, !Hfil]. rewrite tokens_app, app_nil_r by done.
    rewrite <- (app_nil_r tail) at 1. rewrite tokens_app by done. cbn [tokens].
    destruct (reverse tail ++ reverse (print_dec n)) as [|x y] eqn:Hx; [apply app_eq_nil in Hx as [_ Hx]; apply (f_equal reverse) in Hx; by rewrite reverse_involutive in Hx|].
    rewrite <- Hx, reverse_app, !reverse_involutive. cbn. by rewrite Hnum.
  - destruct (IH m Hns) as [IH1 IH2]. cbn [fmap list_fmap join] in IH1, IH2. rewrite <- app_assoc in IH1, IH2. rewrite <- app_assoc. cbn [app concat]. rewrite <- app_assoc. split.
    + rewrite tokens_app, app_nil_r by done. cbn [tokens]. rewrite Hsep.
      destruct (reverse (print_dec n)) as [|x y] eqn:Hx; [apply (f_equal reverse) in Hx; by rewrite reverse_involutive in Hx|].
      rewrite <- Hx, reverse_involutive. rewrite fmap_cons, IH1. f_equal. rewrite <- (app_nil_r (print_dec n)). apply Hnum; [done|by left].
    + rewrite filter_app, (Hfil _ Hw). cbn [app]. rewrite filter_cons_True by done. cbn [length]. by rewrite IH2.
Qed.

(** ** The commands of [get_supported_locales] *)

Lemma get_arg_numbers sep ns tail p : is_separator sep = true -> number_end tail -> ns <> [] -> Forall number_ok ns -> Z.of_nat (length ns) < 256 ->
  rest p = 32 :: join sep (print_dec <$> ns) ++ tail ->
  exists line, get_arg Arg_u p = Some (mkParsed line (texts p) (ints p) ns).
Proof.
  intros Hsep Ht Hne Hok Hlen Hrest. destruct ns as [|n ns]; [done|]. destruct (tokens_numbers sep tail ns Hsep Ht n Hok) as [Htok Hcount].
  set (text := join sep (print_dec <$> n :: ns) ++ tail) in *. exists text.
  assert (Htext : skip_blanks (rest p) = text /\ text <> []).
  { apply Forall_cons in Hok as [Hn _]. destruct (number_digits n Hn) as (c & ds & Heq & Hds & _). apply Forall_cons in Hds as [Hc _].
    rewrite Hrest. unfold text. cbn [fmap list_fmap join]. rewrite Heq. cbn [app skip_blanks]. change (is_blank 32) with true. cbn iota.
    by rewrite (proj2 (digit_separator c Hc)). }
  destruct Htext as [Hskip Hnil]. unfold get_arg. rewrite Hskip, bool_decide_false by done. rewrite Hcount, Htok.
  assert (Hlt : length (tokens [] text) = length (n :: ns)) by (apply (f_equal length) in Htok; by rewrite length_fmap in Htok).
  rewrite Hlt. cbn [length] in *. by rewrite bool_decide_true by (rewrite uwrap_small by lia; lia).
Qed.

Definition name_ok (name : list Z) : Prop := Forall (fun c => 0 < c < 256 /\ c <> CR /\ c <> LF /\ c <> QUOTE) name /\ last name <> Some 92.

Lemma line_of_name name : name_ok name -> line_of (Char <$> name) = name.
Proof.
  intros [Hn _]. induction Hn as [|c name (_ & _ & _ & Hc) _ IH]; [done|]. unfold line_of in *. cbn. by rewrite bool_decide_false, IH.
Qed.

Lemma last_name name : name_ok name -> last (Char <$> name) <> Some (Char 92).
Proof. intros [_ Hl]. rewrite fmap_last. destruct (last name); cbn; congruence. Qed.

(** What a translation must be to be written in a file. *)
Record translation_ok (names : list (list Z)) (n : nat) (t : translation) : Prop := {
  ok_name : name_ok (tr_name t);
  ok_label : name_ok (tr_label t);
  ok_lcids : tr_lcids t <> [] /\ Forall number_ok (tr_lcids t) /\ Z.of_nat (length (tr_lcids t)) < 256;
  ok_version : number_ok (tr_major t) /\ number_ok (tr_minor t);
  ok_items : Forall (item_ok n names) (tr_items t);
  ok_header : exists h, locale_header t = h ++ [CR; LF] /\ short_line h;
  ok_lines : Forall (fun l => Forall short_line (file_lines l)) (section_of names t);
}.

Lemma header_command names n t : translation_ok names n t -> exists args, locale_header t = 108 :: args /\
  get_loc_cmd 108 args = Some (mkLocCmd LC_LOCALE 0 0 0 (tr_lcids t) (Some (tr_name t)) (Some (tr_label t))).
Proof.
  intros Hok. destruct (ok_lcids _ _ _ Hok) as (Hne & Hnum & Hlen). pose proof (ok_name _ _ _ Hok) as Hname. pose proof (ok_label _ _ _ Hok) as Hlabel.
  eexists. split; [reflexivity|]. rewrite (get_loc_cmd_eq 108 LC_LOCALE [Arg_s; Arg_s; Arg_u]) by (vm_compute; reflexivity). cbn [get_args].
  set (tail2 := join 44 (print_dec <$> tr_lcids t) ++ [CR; LF]).
  rewrite (get_arg_text (Char <$> tr_name t) _ ([32; QUOTE] ++ tr_label t ++ [QUOTE; 32] ++ tail2)).
  2: by apply last_name.
  2: { left. cbn [rest]. rewrite line_of_name by done. reflexivity. }
  rewrite text_of_chars. cbn [mbind option_bind texts ints list_of_ints].
  rewrite (get_arg_text (Char <$> tr_label t) _ (32 :: tail2)).
  2: by apply last_name.
  2: { left. cbn [rest]. rewrite line_of_name by done. reflexivity. }
  rewrite text_of_chars. cbn [mbind option_bind texts ints list_of_ints].
  match goal with |- context [get_arg Arg_u ?p] => destruct (get_arg_numbers 44 (tr_lcids t) [CR; LF] p eq_refl (or_intror eq_refl) Hne Hnum Hlen eq_refl) as [line ->] end.
  reflexivity.
Qed.

Lemma version_command_line names n t : translation_ok names n t -> exists args, head_of (version_line t) ++ [CR; LF] = 118 :: args /\
  get_loc_cmd 118 args = Some (mkLocCmd LC_VERSION 0 0 0 [tr_major t; tr_minor t] None None).
Proof.
  intros Hok. destruct (ok_version _ _ _ Hok) as [Hma Hmi]. eexists. split; [reflexivity|].
  rewrite (get_loc_cmd_eq 118 LC_VERSION [Arg_u]) by (vm_compute; reflexivity). cbn [get_args].
  match goal with |- context [get_arg Arg_u ?p] => destruct (get_arg_numbers 46 [tr_major t; tr_minor t] [CR; LF] p) as [line ->] end; try done.
  - by right.
  - by rewrite !Forall_cons, Forall_nil.
Qed.

(** ** The list of the locales *)

(** The first character of a line of a file is that of its command, or a tab. *)
Lemma skipped_tab p : skipped (9 :: quoted_source p).
Proof. exists QUOTE, (source_of p ++ [QUOTE] ++ [CR; LF]). cbn. rewrite <- app_assoc. by split_and!. Qed.

Lemma skipped_letter c r : is_blank c = false -> c <> 108 -> c <> 118 -> c <> 97 -> skipped (c :: r).
Proof. intros Hb H1 H2 H3. exists c, (r ++ [CR; LF]). cbn. by rewrite Hb. Qed.

Lemma skipped_item names it : Forall skipped (file_lines (item_line names it)).
Proof.
  assert (H : forall c h ps, is_blank c = false -> c <> 108 -> c <> 118 -> c <> 97 -> Forall skipped (file_lines (mkLine (c :: h) ps))).
  { intros c h ps Hb H1 H2 H3. unfold file_lines. cbn [head_of pieces]. destruct ps as [|p ps].
    - constructor; [by apply skipped_letter|constructor].
    - constructor; [by apply skipped_letter|]. apply Forall_fmap, Forall_forall. intros q _. apply skipped_tab. }
  destruct it; by apply H.
Qed.

Lemma render_lines_file ls : concat (render_line <$> ls) = crlf_lines (concat (file_lines <$> ls)).
Proof.
  induction ls as [|l ls IH]; [done|]. cbn [fmap list_fmap concat]. by rewrite render_line_file, crlf_lines_app, <- IH.
Qed.

(** The locale of a translation, when the version of the first one is known, or when it is the first one. *)
Section listing.
Context (names : list (list Z)) (first : translation) (n : nat).

Definition base_known (t : translation) (l : locales) : Prop :=
  base_major l = tr_major first /\ base_minor l = tr_minor first \/ base_major l = no_version /\ t = first.

Definition after_translation (t : translation) (start : Z) (done : list loc_cmd) : locales :=
  mkLocales done (Some (locale_of first t start 0)) true (tr_major first) (tr_minor first).

Lemma lists_items items l pos : Forall (fun x => Forall short_line (file_lines x)) (item_line names <$> items) ->
  lists (concat (render_line <$> (item_line names <$> items))) l l pos.
Proof.
  intros Hs. rewrite render_lines_file. apply lists_skipped; apply Forall_concat, Forall_fmap; [done|].
  apply Forall_fmap, Forall_forall. intros it _. apply skipped_item.
Qed.

Lemma lists_version t l pos c : translation_ok names n t -> tr_major first < 2 ^ 31 -> base_known t l -> last_lcmd l = Some c -> has_version l = false ->
  lists (render_line (version_line t)) l
    (mkLocales (complete l) (Some (if older first t then add_flag LOC_NEEDS_UPDATE c else c)) true (tr_major first) (tr_minor first)) pos.
Proof.
  intros Hok Hmax Hb Hl Hv. pose proof (ok_lines _ _ _ Hok) as Hlines. apply Forall_cons in Hlines as [Hs _]. apply Forall_cons in Hs as [Hs _].
  destruct (version_command_line names n t Hok) as (args & Heq & Hcmd).
  assert (Hr : render_line (version_line t) = head_of (version_line t) ++ [CR; LF]) by done. rewrite Hr.
  assert (Hstep : forall before after, locale_line before after (head_of (version_line t) ++ [CR; LF]) l =
    mkLocales (complete l) (Some (if older first t then add_flag LOC_NEEDS_UPDATE c else c)) true (tr_major first) (tr_minor first)).
  { intros before after. rewrite Heq. unfold locale_line. rewrite skip_letter by done. rewrite bool_decide_true by tauto. rewrite Hcmd.
    unfold locale_command, version_command. cbn [command unum]. rewrite Hv, Hl. destruct Hb as [[Hma Hmi]|[Hno ->]].
    - rewrite Hma, Hmi, bool_decide_false by (unfold no_version; lia). unfold older. case_bool_decide; unfold set_last; by rewrite Hma, Hmi.
    - rewrite Hno, bool_decide_true by done. unfold older. by rewrite bool_decide_false by lia. }
  pose proof (lists_line _ l pos Hs) as H. by rewrite Hstep in H.
Qed.

Lemma lists_attribute l pos c : last_lcmd l = Some c ->
  lists (render_line attribute_line) l (set_last (Some (add_flag LOC_RIGHT_TO_LEFT c)) (has_version l) l) pos.
Proof.
  intros Hl. assert (Hr : render_line attribute_line = [97; 32; QUOTE; 114; QUOTE] ++ [CR; LF]) by (vm_compute; reflexivity). rewrite Hr.
  assert (Hs : short_line [97; 32; QUOTE; 114; QUOTE]) by (split; [repeat constructor; unfold QUOTE, LF; lia|cbn; lia]).
  pose proof (lists_line _ l pos Hs) as H.
  assert (Hcmd : get_loc_cmd 97 [32; QUOTE; 114; QUOTE; CR; LF] = Some (mkLocCmd LC_ATTRIBUTES 0 0 0 [] (Some [114]) None)) by (vm_compute; reflexivity).
  unfold locale_line in H at 1. cbn [app] in H. rewrite skip_letter in H by done. rewrite bool_decide_true in H by tauto. rewrite Hcmd in H.
  unfold locale_command in H. cbn [command txt0 default from_option id] in H. rewrite Hl in H. exact H.
Qed.

Lemma lists_header t l pos : translation_ok names n t -> 0 <= pos -> pos + Z.of_nat (length (locale_header t)) < 2 ^ 31 ->
  lists (locale_header t) l
    (mkLocales (end_locale pos l) (Some (mkLocCmd LC_LOCALE 0 (pos + Z.of_nat (length (locale_header t))) 0 (tr_lcids t) (Some (tr_name t)) (Some (tr_label t))))
       false (base_major l) (base_minor l)) pos.
Proof.
  intros Hok Hpos Hmax. destruct (ok_header _ _ _ Hok) as (h & Hh & Hs). destruct (header_command names n t Hok) as (args & Heq & Hcmd).
  assert (Hstep : forall before after, locale_line before after (locale_header t) l =
    mkLocales (end_locale before l) (Some (mkLocCmd LC_LOCALE 0 (swrap 32 after) 0 (tr_lcids t) (Some (tr_name t)) (Some (tr_label t))))
      false (base_major l) (base_minor l)).
  { intros before after. rewrite Heq. unfold locale_line. rewrite skip_letter by done. rewrite bool_decide_true by tauto. by rewrite Hcmd. }
  pose proof (lists_line h l pos Hs) as H. rewrite <- Hh, Hstep in H.
  assert (Hsmall : forall z, 0 <= z < 2 ^ 31 -> swrap 32 z = z).
  { intros z Hz. unfold swrap. change (32 - 1) with 31. rewrite Z.mod_small by lia. lia. }
  by rewrite Hsmall in H by lia.
Qed.

Lemma lists_translation t l pos : translation_ok names n t -> tr_major first < 2 ^ 31 -> base_known t l -> 0 <= pos ->
  pos + Z.of_nat (length (locale_header t)) < 2 ^ 31 ->
  lists (locale_header t ++ render_section names t) l (after_translation t (pos + Z.of_nat (length (locale_header t))) (end_locale pos l)) pos.
Proof.
  intros Hok Hmax Hb Hpos Hlen. eapply lists_app; [by apply lists_header|]. unfold render_section, section_of. cbn [fmap list_fmap concat].
  pose proof (ok_lines _ _ _ Hok) as Hlines. apply Forall_cons in Hlines as [_ Hlines]. apply Forall_app in Hlines as [_ Hlines].
  eapply lists_app; [eapply lists_version; try done|]. unfold after_translation, locale_of. cbn [complete].
  destruct (tr_right_to_left t); cbn [app fmap list_fmap concat].
  - eapply lists_app; [by apply lists_attribute|]. unfold set_last, add_flag. cbn. destruct (older first t); by apply lists_items.
  - unfold add_flag. cbn. destruct (older first t); by apply lists_items.
Qed.
End listing.

Lemma lists_all names first ts : tr_major first < 2 ^ 31 -> forall l pos, Forall (fun t => exists n, translation_ok names n t) ts -> 0 <= pos ->
  match ts with t :: _ => base_known first t l | [] => True end -> pos + Z.of_nat (length (render_translations names ts)) < 2 ^ 31 ->
  exists l', lists (render_translations names ts) l l' pos /\
    end_locale (pos + Z.of_nat (length (render_translations names ts))) l' =
      match ts with [] => end_locale (pos + 0) l | _ => end_locale pos l ++ locales_of names first ts pos end.
Proof.
  intros Hmax. induction ts as [|t ts IH]; intros l pos Hok Hpos Hb Hlen; [exists l; split; [apply lists_nil|done]|].
  apply Forall_cons in Hok as [(n & Ht) Hok]. unfold render_translations in *. cbn [fmap list_fmap concat] in *. rewrite !length_app in *.
  set (start := pos + Z.of_nat (length (locale_header t))) in *.
  pose proof (lists_translation names first n t l pos Ht Hmax Hb Hpos ltac:(lia)) as H1. fold start in H1.
  destruct (IH (after_translation first t start (end_locale pos l)) (pos + Z.of_nat (length (locale_header t ++ render_section names t))) Hok) as (l' & Hl' & Hend).
  { lia. }
  { destruct ts as [|t' ts]; [done|]. by left. }
  { rewrite length_app. lia. }
  exists l'. split; [by eapply lists_app|]. rewrite length_app in Hend. cbn [locales_of]. fold start.
  replace (pos + Z.of_nat (length (locale_header t) + length (render_section names t))) with (start + Z.of_nat (length (render_section names t))) in Hend by lia.
  replace (pos + Z.of_nat (length (locale_header t) + length (render_section names t) + length (concat ((fun t0 => locale_header t0 ++ render_section names t0) <$> ts))))
    with (start + Z.of_nat (length (render_section names t)) + Z.of_nat (length (concat ((fun t0 => locale_header t0 ++ render_section names t0) <$> ts)))) by lia.
  assert (Hlast : forall z, 0 <= z < 2 ^ 31 -> end_locale z (after_translation first t start (end_locale pos l)) = end_locale pos l ++ [locale_of first t start z]).
  { intros z Hz. unfold end_locale at 1, after_translation. cbn [last_lcmd has_version complete]. unfold swrap. change (32 - 1) with 31.
    rewrite Z.mod_small by lia. do 2 f_equal. unfold set_offsets, locale_of. cbn. f_equal. lia. }
  rewrite Hend. destruct ts as [|t' ts]; rewrite Hlast; try lia; [by rewrite Z.add_0_r|by rewrite <- app_assoc].
Qed.

Lemma dos_mode_here a b : dos_mode (a ++ [CR; LF] ++ b) = true.
Proof.
  unfold dos_mode. induction a as [|c a IH]; [done|]. change (drop 1 ((c :: a) ++ [CR; LF] ++ b)) with (a ++ [CR; LF] ++ b).
  change ((c :: a) ++ [CR; LF] ++ b) with (c :: (a ++ [CR; LF] ++ b)). destruct (a ++ [CR; LF] ++ b) as [|d r]; [done|].
  change (drop 1 (d :: r)) with r in IH. change (orb (bool_decide ((c, d) = (CR, LF))) (existsb (fun p => bool_decide (p = (CR, LF))) (zip (d :: r) r)) = true).
  rewrite IH. apply orb_true_r.
Qed.

(** ** The sections of the listed locales *)

Lemma header_starts t rest : ends_section (locale_header t ++ rest).
Proof. unfold ends_section, locale_header. cbn. split; [unfold plain, CR, LF, QUOTE; lia|done]. Qed.

Lemma locales_of_texts names first ts : forall pos, (fun c => txt0 c) <$> locales_of names first ts pos = Some <$> (tr_name <$> ts).
Proof. induction ts as [|t ts IH]; intros pos; [done|]. cbn [locales_of fmap list_fmap]. by rewrite IH. Qed.

(** The section of a locale in the file. *)
Lemma locale_section names first ts : forall pos before i t, ts !! i = Some t -> pos = Z.of_nat (length before) ->
  exists start rest, locales_of names first ts pos !! i = Some (locale_of first t start (start + Z.of_nat (length (render_section names t)))) /\ 0 <= start /\
    drop (Z.to_nat start) (before ++ render_translations names ts) = render_section names t ++ rest /\ ends_section rest.
Proof.
  induction ts as [|t0 ts IH]; intros pos before i t Hi Hpos; [done|].
  change (render_translations names (t0 :: ts)) with ((locale_header t0 ++ render_section names t0) ++ render_translations names ts).
  destruct i as [|i]; cbn [locales_of].
  - injection Hi as ->. exists (pos + Z.of_nat (length (locale_header t))), (render_translations names ts). split_and!; [done|lia| |].
    + rewrite <- app_assoc, (app_assoc before). rewrite drop_app_length'; [done|]. rewrite length_app. lia.
    + destruct ts as [|t1 ts]; [done|]. unfold render_translations. cbn [fmap list_fmap concat]. rewrite <- app_assoc. apply header_starts.
  - destruct (IH (pos + Z.of_nat (length (locale_header t0)) + Z.of_nat (length (render_section names t0))) (before ++ locale_header t0 ++ render_section names t0) i t Hi)
      as (start & rest & Hloc & Hs & Hdrop & Hend); [rewrite !length_app; lia|]. exists start, rest. split_and!; try done.
    by rewrite <- app_assoc in Hdrop.
Qed.

Lemma section_line_ok names n t : translation_ok names n t -> Forall line_ok (section_of names t).
Proof.
  intros Hok. destruct (ok_version _ _ _ Hok) as [Hma Hmi]. unfold section_of. constructor.
  - pose proof (ok_lines _ _ _ Hok) as Hs. apply Forall_cons in Hs as [Hs _]. apply Forall_cons in Hs as [[_ Hlen] _].
    unfold line_ok, logical_line. cbn [version_line head_of pieces] in *. rewrite app_nil_r. split_and!; [|by eexists _, _|constructor|lia].
    assert (Hnum : forall m, number_ok m -> Forall plain (print_dec m)).
    { intros m Hm. destruct (number_digits m Hm) as (c & ds & -> & Hds & _). eapply Forall_impl; [exact Hds|]. unfold digit, plain, CR, LF, QUOTE. lia. }
    cbn [fmap list_fmap join concat app]. rewrite app_nil_r.
    repeat (constructor; [unfold plain, CR, LF, QUOTE; lia|]). apply Forall_app. split; [by apply Hnum|]. constructor; [unfold plain, CR, LF, QUOTE; lia|by apply Hnum].
  - apply Forall_app. split.
    + destruct (tr_right_to_left t); constructor; [|constructor]. unfold line_ok. split_and!; [|by eexists _, _| |by vm_compute].
      * repeat constructor; unfold plain, CR, LF, QUOTE; lia.
      * repeat constructor; cbn; unfold CR, LF; lia.
    + apply Forall_fmap. eapply Forall_impl; [apply (ok_items _ _ _ Hok)|]. intros it [Hl _]. exact Hl.
Qed.

Lemma section_of_locale names n first t start end_ contents rest : translation_ok names n t -> 0 <= start ->
  drop (Z.to_nat start) contents = render_section names t ++ rest -> ends_section rest -> end_ = start + Z.of_nat (length (render_section names t)) ->
  lines_of_section contents (locale_of first t start end_) = Ret (logical_line <$> section_of names t, true).
Proof.
  intros Hok Hs Hdrop Hend ->. unfold lines_of_section. cbn [locale_of num0 num1]. rewrite bool_decide_false by lia. rewrite Hdrop.
  apply section_lines_of; [done|by eapply section_line_ok|done].
Qed.

(** ** What the sections define *)

Lemma define_all_snoc sel ts t : define_all sel (ts ++ [t]) = define_all sel ts ++ [define_items (define_all sel ts) sel (tr_items t)].
Proof. unfold define_all. by rewrite fold_left_app. Qed.

Lemma length_define_all sel ts : length (define_all sel ts) = length ts.
Proof. induction ts as [|t ts IH] using rev_ind; [done|]. rewrite define_all_snoc, !length_app, IH. done. Qed.

Lemma define_all_lookup sel ts i t : ts !! i = Some t -> define_all sel ts !! i = Some (define_items (define_all sel (take i ts)) sel (tr_items t)).
Proof.
  induction ts as [|t' ts IH] using rev_ind; [done|]. intros Hi. rewrite define_all_snoc. destruct (decide (i < length ts)%nat) as [Hlt|Hge].
  - rewrite lookup_app_l in Hi by done. rewrite lookup_app_l by (by rewrite length_define_all). rewrite take_app_le by lia. by apply IH.
  - pose proof (lookup_lt_Some _ _ _ Hi) as Hl. rewrite length_app in Hl. cbn in Hl. assert (i = length ts) as -> by lia.
    rewrite lookup_app_r, Nat.sub_diag in Hi by lia. injection Hi as ->. rewrite lookup_app_r, length_define_all, Nat.sub_diag by (by rewrite length_define_all).
    by rewrite take_app_length.
Qed.

Lemma define_all_take sel ts i j : (j < i)%nat -> define_all sel (take i ts) !! j = define_all sel ts !! j.
Proof.
  intros Hj. destruct (take i ts !! j) as [t|] eqn:Ht.
  - pose proof Ht as Ht'. rewrite lookup_take_lt in Ht' by done.
    rewrite (define_all_lookup sel _ _ _ Ht), (define_all_lookup sel _ _ _ Ht'). by rewrite take_take, Nat.min_l by lia.
  - pose proof Ht as Ht'. rewrite lookup_take_lt in Ht' by done. apply lookup_ge_None in Ht, Ht'.
    by rewrite !(proj2 (lookup_ge_None _ _)) by (rewrite length_define_all; lia).
Qed.

(** ** The whole file *)

Record file_ok (ts : list translation) : Prop := {
  file_names : NoDup (tr_name <$> ts);
  file_translations : forall i t, ts !! i = Some t -> translation_ok (tr_name <$> ts) i t;
  file_size : 1024 <= Z.of_nat (length (render_file ts)) < 2 ^ 31;
}.

Definition first_of (ts : list translation) : translation := default (mkTranslation [] [] [] 0 0 false []) (head ts).
Definition locales_in (ts : list translation) : list loc_cmd := locales_of (tr_name <$> ts) (first_of ts) ts 0.

Lemma name_last names : (forall i n, names !! i = Some n -> name_ok n) -> Forall (fun name => last name <> Some 92) names.
Proof. intros H. apply Forall_lookup. intros i n Hi. by apply (H i n Hi). Qed.

Lemma section_catalog ts sel : file_ok ts -> forall i depth t c cat, (i < depth)%nat -> ts !! i = Some t -> locales_in ts !! i = Some c ->
  catalog_section depth (render_file ts) (locales_in ts) sel c cat = Ret (true, define_items (define_all sel (take i ts)) sel (tr_items t) cat).
Proof.
  intros Hok. set (names := tr_name <$> ts). induction i as [i IH] using lt_wf_ind. intros depth t c cat Hd Hi Hc.
  destruct depth as [|depth]; [lia|]. cbn [catalog_section]. pose proof (file_translations ts Hok i t Hi) as Ht. fold names in Ht.
  destruct (locale_section names (first_of ts) ts 0 [] i t Hi eq_refl) as (start & rest & Hloc & Hs & Hdrop & Hend).
  unfold locales_in in Hc. fold names in Hc. rewrite Hloc in Hc. apply Some_inj in Hc as <-.
  unfold render_file. fold names. change ([] ++ render_translations names ts) with (render_translations names ts) in Hdrop.
  rewrite (section_of_locale names i (first_of ts) t start _ _ rest Ht Hs Hdrop Hend eq_refl). cbn [mbind checked_bind].
  set (base := fun c cat => r ← catalog_section depth (render_translations names ts) (locales_in ts) sel c cat; Ret (snd r)).
  assert (Hbases : bases_ok base names (locales_in ts) sel (define_all sel (take i ts)) i).
  { intros j Hj. destruct (lookup_lt_is_Some_2 ts j) as [u Hu]; [apply lookup_lt_Some in Hi; lia|].
    destruct (locale_section names (first_of ts) ts 0 [] j u Hu eq_refl) as (sj & rj & Hlj & _).
    eexists _, (tr_name u), _. split_and!; [by unfold names; rewrite list_lookup_fmap, Hu|exact Hlj| |].
    - rewrite define_all_take by done. by apply define_all_lookup.
    - intros _ cat'. unfold base. pose proof (IH j Hj depth u _ cat' ltac:(lia) Hu Hlj) as Hj1. unfold render_file in Hj1. fold names in Hj1. by rewrite Hj1. }
  assert (Hnames : Forall (fun name => last name <> Some 92) names).
  { apply name_last. intros j n Hj. unfold names in Hj. rewrite list_lookup_fmap in Hj. apply fmap_Some in Hj as (u & Hu & ->).
    exact (ok_name _ _ _ (file_translations ts Hok j u Hu)). }
  unfold section_of. cbn [fmap list_fmap perform_lines].
  rewrite (perform_other base (locales_in ts) sel _ _ 118 _ _ (eq_refl : logical_line (version_line t) = _)) by tauto. cbn [mbind checked_bind].
  pose proof (perform_items base names (locales_in ts) sel (file_names ts Hok) (locales_of_texts names (first_of ts) ts 0) Hnames
    (define_all sel (take i ts)) i (tr_items t) (ok_items _ _ _ Ht) Hbases) as Hitems.
  destruct (tr_right_to_left t); cbn [app fmap list_fmap perform_lines].
  - rewrite (perform_other base (locales_in ts) sel _ _ 97 _ _ (eq_refl : logical_line attribute_line = _)) by tauto. cbn [mbind checked_bind]. by rewrite Hitems.
  - by rewrite Hitems.
Qed.

Lemma supported_locales files f ts s : file_ok ts -> files !! f = Some (render_file ts) ->
  get_supported_locales files (Some f) s = (true, set_locale_list (locales_in ts) s).
Proof.
  intros Hok Hf. pose proof (file_size ts Hok) as Hsize. destruct ts as [|t ts']; [cbn in Hsize; lia|]. set (ts := t :: ts') in *.
  pose proof (file_translations ts Hok 0%nat t eq_refl) as Ht. destruct (ok_header _ _ _ Ht) as (h & Hh & Hshort).
  assert (Hfile : exists r, render_file ts = h ++ [CR; LF] ++ r).
  { exists (render_section (tr_name <$> ts) t ++ render_translations (tr_name <$> ts) ts'). unfold render_file, render_translations, ts. cbn [fmap list_fmap concat].
    rewrite Hh. by rewrite <- !app_assoc. }
  unfold get_supported_locales. cbn [mbind option_bind]. rewrite Hf. rewrite bool_decide_false by (rewrite length_take; lia).
  assert (Hhead : head (take 1024 (render_file ts)) = Some 108) by done. rewrite Hhead. rewrite bool_decide_false by (cbn; lia).
  destruct Hfile as [r Hr]. assert (Hdos : dos_mode (take 1024 (render_file ts)) = true).
  { rewrite Hr, app_assoc, take_app_ge, <- app_assoc; [apply dos_mode_here|]. destruct Hshort. rewrite length_app. cbn. lia. }
  rewrite Hdos. set (l0 := mkLocales [] None false no_version no_version).
  assert (Hall : Forall (fun t => exists n, translation_ok (tr_name <$> ts) n t) ts).
  { apply Forall_lookup. intros i u Hu. exists i. by apply file_translations. }
  destruct (lists_all (tr_name <$> ts) t ts) with (l := l0) (pos := 0) as (l' & Hl' & Hend);
    [by destruct (ok_version _ _ _ Ht) as [[_ ?] _]|done|lia|by right|unfold render_file in Hsize; lia|].
  destruct (Hl' (length (render_file ts)) []) as (fuel & _ & Heq); [by rewrite app_nil_r|]. rewrite app_nil_r in Heq.
  change (render_translations (tr_name <$> ts) ts) with (render_file ts) in *. rewrite Heq.
  assert (Hlast : locale_lines fuel (0 + Z.of_nat (length (render_file ts))) [] l' = locales_in ts).
  { destruct fuel; cbn [locale_lines]; rewrite Hend; done. }
  rewrite Hlast. rewrite bool_decide_false; [done|]. unfold locales_in, ts. done.
Qed.

(** C10: a translation that is written in a localization file is what the program shows. From the
    start of the program, the locales of the file are listed and found by their names, and the load
    of any of them but the first one succeeds: the messages and the controls are then those of its
    items in their order, over those of its bases, whatever the characters, the line breaks and the
    pieces of the texts, and the default messages are those of the first translation. *)
Theorem translation_loaded files f ts i t depth :
  file_ok ts -> f <> [] -> files !! f = Some (render_file ts) -> ts !! i = Some t -> (0 < i < depth)%nat ->
  let cat0 := define_items [] default_table (tr_items (first_of ts)) (mkCatalog 0 ∅ ∅) in
  let cat := define_items (define_all current_table (take i ts)) current_table (tr_items t) (mkCatalog 0 ∅ ∅) in
  controls_size cat <= LOC_HTAB_SIZE ->
  exists s0 s1 s2, init_localization false loc_start = Ret s0 /\ get_supported_locales files (Some f) s0 = (true, s1) /\
    length (locale_list s1) = length ts /\ get_locale_from_name (tr_name t) false (locale_list s1) = Some i /\
    get_loc_data_file files depth (Some f) (Some i) s1 = Ret (true, s2) /\ shows current_table s2 cat /\
    forall n, 1 <= n < MSG_MAX - MSG_000 -> default_msg_table s2 !! Z.to_nat n = Some (messages cat0 !! n).
Proof.
  intros Hok Hf Hfile Hi Hd cat0 cat Hsize. destruct ready_start as (s0 & Hs0 & Hready & Hm & Hg).
  pose proof (supported_locales files f ts s0 Hok Hfile) as Hs1. set (s1 := set_locale_list (locales_in ts) s0) in *.
  pose proof (ready_locales (locales_in ts) s0 Hready) as Hready1. fold s1 in Hready1.
  destruct (lookup_lt_is_Some_2 ts 0) as [t0 Ht0]; [apply lookup_lt_Some in Hi; lia|].
  destruct (locale_section (tr_name <$> ts) (first_of ts) ts 0 [] 0 t0 Ht0 eq_refl) as (st0 & r0 & Hl0 & _).
  destruct (locale_section (tr_name <$> ts) (first_of ts) ts 0 [] i t Hi eq_refl) as (st & r & Hl & _).
  pose proof (section_catalog ts default_table Hok 0%nat depth t0 _ (mkCatalog 0 ∅ ∅) ltac:(lia) Ht0 Hl0) as Hc0.
  pose proof (section_catalog ts current_table Hok i depth t _ (mkCatalog 0 ∅ ∅) ltac:(lia) Hi Hl) as Hc.
  assert (Hfirst : first_of ts = t0) by (unfold first_of; destruct ts; [done|]; by injection Ht0 as ->).
  destruct (catalog_loaded files depth f (render_file ts) s1 _ i _ true cat0 true cat Hready1 Hf Hfile Hl0 Hl ltac:(lia)) as (s2 & Hload & Hshow & _ & Hdef & _).
  - intros _. cbn [locale_list s1 set_locale_list dlg_index]. unfold cat0. rewrite Hg, Hfirst. rewrite Hfirst in Hc0. exact Hc0.
  - cbn [locale_list s1 set_locale_list dlg_index]. rewrite Hg. exact Hc.
  - exact Hsize.
  - exists s0, s1, s2. split_and!; [done|done| | |done|done|by apply Hdef].
    + pose proof (f_equal length (locales_of_texts (tr_name <$> ts) (first_of ts) ts 0)) as Hlen. by rewrite !length_fmap in Hlen.
    + apply (locale_of_name (tr_name <$> ts)); [apply (file_names ts Hok)|apply locales_of_texts|by rewrite list_lookup_fmap, Hi].
Qed.

(** ** An example *)

#[export] Instance plain_dec c : Decision (plain c).
Proof. unfold plain. apply _. Defined.
#[export] Instance glyph_dec : EqDecision glyph.
Proof. solve_decision. Defined.
#[export] Instance glyph_ok_dec g : Decision (glyph_ok g).
Proof. destruct g; unfold glyph_ok; apply _. Defined.
#[export] Instance number_ok_dec n : Decision (number_ok n).
Proof. unfold number_ok. apply _. Defined.
#[export] Instance name_ok_dec name : Decision (name_ok name).
Proof. unfold name_ok. apply _. Defined.
#[export] Instance short_line_dec l : Decision (short_line l).
Proof. unfold short_line. apply _. Defined.
#[export] Instance text_ok_dec text : Decision (text_ok text).
Proof. unfold text_ok. apply _. Defined.

Ltac by_computation := apply (bool_decide_eq_true_1 _); vm_compute; reflexivity.

Definition english : translation :=
  mkTranslation (chars "en-US") (chars "English (English)") [1033; 2057] 4 2 false
    [Comment (replicate 500 120); Message 1 [Char <$> chars "One "; (Char <$> chars "or \ ") ++ NewLine :: (Char <$> [QUOTE; 50; QUOTE])]; Comment (replicate 500 121)].
Definition french : translation :=
  mkTranslation (chars "fr-FR") (chars "French") [1036] 4 1 true
    [Base 0; Message 2 [Char <$> chars "Deux"]; Dialog 1; Control (chars "IDOK") [Char <$> chars "Fermer"]].

Lemma demo_file_ok : file_ok [english; french].
Proof.
  split; [by_computation| |vm_compute; split; [discriminate|reflexivity]].
  intros i t Hi. destruct i as [|[|i]]; [injection Hi as <-|injection Hi as <-|done]; split; try by_computation.
  - repeat (apply Forall_cons; split); try by apply Forall_nil. all: split; [unfold line_ok|]; split_and?; try by_computation; try (eexists _, _; split; reflexivity); try exact I.
  - eexists (removelast (removelast (locale_header english))). split; [vm_compute; reflexivity|by_computation].
  - repeat (apply Forall_cons; split); try by apply Forall_nil. all: split; [unfold line_ok|]; split_and?; try by_computation; try (eexists _, _; split; reflexivity); try exact I.
  - eexists (removelast (removelast (locale_header french))). split; [vm_compute; reflexivity|by_computation].
Qed.

Theorem translation_loaded_witness :
  exists s0 s1 s2, get_supported_locales {[ chars "f" := render_file [english; french] ]} (Some (chars "f")) s0 = (true, s1) /\
    get_loc_data_file {[ chars "f" := render_file [english; french] ]} 2 (Some (chars "f")) (Some 1%nat) s1 = Ret (true, s2) /\
    current_msg_table s2 !! 2%nat = Some (Some (chars "Deux")).
Proof.
  assert (Hf : ({[ chars "f" := render_file [english; french] ]} : gmap (list Z) (list Z)) !! chars "f" = Some (render_file [english; french])) by (apply lookup_singleton_eq).
  destruct (translation_loaded _ (chars "f") [english; french] 1 french 2 demo_file_ok ltac:(discriminate) Hf eq_refl ltac:(lia)) as (s0 & s1 & s2 & _ & Hs1 & _ & _ & Hload & Hshow & _).
  - vm_compute. discriminate.
  - exists s0, s1, s2. split; [exact Hs1|]. split; [exact Hload|].
    pose proof (shows_messages _ _ _ Hshow 2 ltac:(unfold MSG_MAX, MSG_000; lia)) as Hm. refine (eq_trans Hm _). f_equal; vm_compute; reflexivity.
Defined.
